(* ===== verification/_CoqProject ===== *)
-Q . S2P
Prelude.v
Util.v
Iov.v
Words.v
Poly1305.v
Chacha.v
Aead.v
ChachaPoly.v
TlsRecord.v
Aes.v
AesGcm.v
Jumptable.v
Compress.v
Http.v
HttpSpec.v
HttpProps.v
HttpTheorems.v
Varint.v
CryptoStream.v
Stream.v
Frames.v
FlowCC.v
Loss.v
Special.v
Sha256.v
Sha256Theorems.v
Sha512.v
Packet.v
PacketTheorems.v
Field25519.v
X25519.v
Scalar25519.v
Ed25519.v
Ed25519Theorems.v
Kdf.v
KdfTheorems.v
TlsSchedule.v
Conn.v
ConnSafety.v
ConnTheorems.v
ConnStreams.v
TlsHello.v
TlsHelloProps.v
TlsHelloTheorems.v
TransportParams.v
ConnHello.v
TlsMessages.v
Driver.v
Ip.v
Dispatch.v
Tcp.v
TcpProps.v
TcpTheorems.v
