(* ===== verification/Prelude.v ===== *)
(** * picoweb: a verification development

    picoweb is a static HTTP server in C.  The server proper is under [src/src]; a
    network stack of its own, with TCP, TLS 1.3, QUIC and the cryptography they
    need, is under [src/userspace].  This library models both as executable Rocq
    functions translated from the C text and proves what they compute.  A path
    below, such as [userspace/quic/conn.c], is relative to [src].

    ** How C is modelled

    An unsigned integer is a [Z]; an operation that can leave its width writes the
    wrap-around out ([u8], [u16], [u32], [u64], [i32]).  Where the width is [size_t]
    and the operands are sizes of objects in memory no wrap is written.  A buffer is
    the list of its bytes; a read or write outside it gives [Oob], an error return
    [Fail], anything else [Ret] ([res], with [wp] for proofs about it).  [padd p n]
    is the pointer [p + n].  A pointer kept in a structure is an offset into the buffer or the rest
    of the buffer from there.  A C struct is a record; a function that changes it
    returns the new one, with the buffers it wrote.  A long C function is cut into
    one definition per stretch, composed in the order of the code.  Several C
    functions that repeat the same lines share one definition.  A NULL
    that the code uses as a value is [None]; checks of arguments against NULL, timing
    and the wiping of secrets are not modelled.

    A loop is a structural recursion on its counter where it has one, otherwise a
    recursion on fuel.  The fuel is the number of bytes left to read, the capacity,
    or the number of slots of a table; each round consumes at least one.  Running
    out of fuel is an error of its own kind ([Oob], [Fail] where the loop has no
    failure, [undefined] in [Tcp]), which the theorems that give the loop's result
    or its safety exclude.

    ** The parts

    HTTP server:
    - [Util]: [src/util.c] and [src/simd.h], for each instruction set.
    - [Jumptable]: the routing table of [src/jumptable.c].
    - [Http]: the parser and the response selection of [src/http.c], with the
      Accept-Encoding tests of [src/compress.c] and [src/brotli.c].  [HttpSpec] is a
      reference parser over byte strings, [HttpProps] the proof that [http_parse]
      computes it, [HttpTheorems] the theorems.
    - [Compress]: the block compressor and its decoder, [src/compress.c].

    Userspace TCP:
    - [Iov], [Dispatch]: [userspace/iov.h] and [userspace/dispatch.c].  Services are
      application code; their callbacks are arguments.
    - [Ip]: [userspace/tcp/ip.c].
    - [Tcp]: [userspace/tcp/tcp.c], in a state monad with a log of events;
      [TcpProps] has the calculus and invariants, [TcpTheorems] the theorems.

    Cryptography ([userspace/crypto]):
    - [Words]: words, copies, blocks and the counter mode, shared by all of it.
    - [Chacha], [Poly1305], [ChachaPoly]; [Aes], [AesGcm].  [Aead] is the interface
      they implement: a record of operations with a class of laws.  [TlsRecord] and
      [Packet] are proved against it.
    - [Sha256], [Sha256Theorems]: the hash with its scalar, SHA-NI and Armv8
      compression.  [Sha512].
    - [Field25519], [X25519]; [Scalar25519], [Ed25519], [Ed25519Theorems].
    - [Kdf], [KdfTheorems]: [hmac.c], [hkdf.c], [userspace/tls/keysched.c],
      [userspace/quic/keys.c] and [userspace/quic/initial.c].

    TLS 1.3 ([userspace/tls]):
    - [TlsRecord]: [record.c].
    - [TlsSchedule], [TlsHello], [TlsMessages]: the transcript and secrets, the
      ClientHello parser and the message builders of [handshake.c];
      [TlsHelloProps] and [TlsHelloTheorems] are about the parser.

    QUIC ([userspace/quic]):
    - [Varint], [Frames], [TransportParams], [CryptoStream], [Stream], [FlowCC],
      [Loss], [Special]: one file of C each, [FlowCC] for [flow.c] and [cc.c].
    - [Packet], [PacketTheorems]: [packet.c].
    - [Conn]: [conn.c], which composes the parts above.  [ConnSafety] has its
      invariant, [ConnTheorems] and [ConnStreams] its theorems.
    - [ConnHello]: [tls_ext.c] and the extraction of the ClientHello by [conn.c].
    - [Driver]: [handshake_driver.c], from the ClientHello to the server's flight.

    ** What the theorems show

    - Safety on every input: the network-facing parsers (HTTP, ClientHello, QUIC
      packets, frames and transport parameters, the compressed stream) terminate
      and stay within their buffers.  [conn_safe] says the same of every
      sequence of calls of a QUIC connection.  The exception is a length underflow
      of the long-header parsers, stated by [initial_length_zero_oob].
    - Refinement: the HTTP parser computes a reference parser; the routing table is
      a finite map; the cryptographic code computes the functions of its standards
      (FIPS 180-4, FIPS 197, SP 800-38D, RFC 7748, RFC 8032, RFC 8439, RFC 5869,
      RFC 8446).  Intermediate values do not overflow, but for the subtraction in
      point decoding that [frombytes_accepts_off_curve] describes.  The optimised
      variants agree with the scalar ones, and a stream may be cut anywhere.
    - Round trips: frames, packets, TLS records, transport parameters, IP and TCP
      headers, compression.
    - Authenticity: only what was sealed under the same key opens.  The AEAD laws
      are facts about tags, not computational security.
    - End to end: a ClientHello in CRYPTO frames of any cut and order is answered
      with the flight of RFC 8446, which a client with the keys receives
      ([client_hello_answered]); streams arrive exactly, whatever the order and
      repetition of the datagrams ([streams_end_to_end]); TCP hands its service the
      next bytes of the stream and keeps the contract of [dispatch.h]
      ([tcp_in_order_delivery], [tcp_lifecycle]).
    - Departures from the standards and the comments, as theorems of their own,
      such as [frombytes_accepts_off_curve] and [first_initial_pins].

    Random numbers, clocks and application callbacks are arguments.  The SHA
    instructions of x86 and Armv8 are defined as in the vendors' manuals.

    ** Not modelled

    Event loops, sockets, packet I/O, files, threads, start-up, metrics and the
    scan that fills the routing table, which are operating-system calls; the picowal
    stores and the API above them; the script engine with its compressor; the
    Brotli encoder; HTTP/3 and QPACK, above the QUIC streams; P-256, ECDSA and RSA,
    and with them the certificate signatures other than Ed25519; the TLS engine over
    TCP, certificate and PEM loading, and ticket storage.

    This file holds the machine integers, buffers, the result monad with its rules,
    and the lemmas on lists and big-endian numbers that the other files share. *)

From Stdlib Require Import ZArith Lia.
From stdpp Require Import list numbers option.

#[global] Open Scope Z_scope.

(** ** Machine integers

    A C unsigned integer of width w is a [Z]; every operation that can leave
    the range [0, 2^w) writes its wrap-around out with one of these. *)

Definition u8 (x : Z) : Z := x mod 2 ^ 8.
Definition u16 (x : Z) : Z := x mod 2 ^ 16.
Definition u32 (x : Z) : Z := x mod 2 ^ 32.
Definition u64 (x : Z) : Z := x mod 2 ^ 64.

(** The C conversion [(int32_t)x] of a 32-bit unsigned value. *)
Definition i32 (x : Z) : Z :=
  let y := u32 x in if y <? 2 ^ 31 then y else y - 2 ^ 32.

Definition UINT16_MAX : Z := 0xffff.
Definition UINT32_MAX : Z := 0xffffffff.
Definition UINT64_MAX : Z := 0xffffffffffffffff.

Definition byte_ok (b : Z) : Prop := 0 <= b < 256.

(** ** Buffers

    A [const uint8_t*] is the list of the bytes from the pointer to the end of
    the object it points into, so [p + n] is [padd p n] and the length argument
    that C passes beside it stays a separate [Z]. *)

Definition zlen {A} (l : list A) : Z := Z.of_nat (length l).
Definition padd (p : list Z) (n : Z) : list Z := drop (Z.to_nat n) p.
Definition ztake (n : Z) (p : list Z) : list Z := take (Z.to_nat n) p.

(** ** Results

    [Ret] is a normal C result, [Fail] the function's error return, and [Oob]
    an access outside the object a pointer points into, i.e. undefined
    behaviour.  Keeping [Oob] apart from [Fail] is what lets memory safety be a
    theorem ([m <> Oob]) and not an assumption. *)

Inductive res (A : Type) : Type :=
| Ret (a : A)
| Fail
| Oob.
Arguments Ret {A} a.
Arguments Fail {A}.
Arguments Oob {A}.

Definition rbind {A B} (m : res A) (k : A -> res B) : res B :=
  match m with
  | Ret a => k a
  | Fail => Fail
  | Oob => Oob
  end.

Declare Scope res_scope.
Delimit Scope res_scope with res.
#[global] Open Scope res_scope.

Notation "'let!' x ':=' m 'in' k" := (rbind m (fun x => k))
  (at level 10, x pattern, m at level 100, k at level 200)
  : res_scope.

(** [p[i]] *)
Definition rd (p : list Z) (i : Z) : res Z :=
  if i <? 0 then Oob
  else match p !! Z.to_nat i with Some b => Ret b | None => Oob end.

(** The source side of [memcpy(dst, p, n)]. *)
Definition rdn (p : list Z) (n : Z) : res (list Z) :=
  if n <=? zlen p then Ret (ztake n p) else Oob.

(** [p[i] = v] *)
Definition wr (p : list Z) (i v : Z) : res (list Z) :=
  if (0 <=? i) && (i <? zlen p) then Ret (<[Z.to_nat i := v]> p) else Oob.

(** Weakest precondition: no out-of-bounds access, and [Q] of a normal result. *)
Definition wp {A} (m : res A) (Q : A -> Prop) : Prop :=
  match m with
  | Ret a => Q a
  | Fail => True
  | Oob => False
  end.

(** Big-endian byte strings. *)
Fixpoint be_bytes (n : nat) (v : Z) : list Z :=
  match n with
  | O => []
  | S n' => (v / 256 ^ Z.of_nat n') mod 256 :: be_bytes n' v
  end.

Fixpoint be_acc (x : Z) (l : list Z) : Z :=
  match l with
  | [] => x
  | b :: l' => be_acc (x * 256 + b) l'
  end.

(** ** Arithmetic automation *)

Create HintDb pico.
Create Rewrite HintDb pico.

#[export] Hint Unfold u8 u16 u32 u64 byte_ok zlen : pico.

(** [lia] with division and modulo by constants. *)
Ltac dlia := Z.to_euclidean_division_equations; lia.

Ltac pico_unfold := unfold u8, u16, u32, u64, byte_ok, zlen in *.

(** Split a boolean [if] or [match] scrutinee of the goal, reflecting integer
    comparisons into hypotheses [lia] can use. *)
Ltac zcase :=
  match goal with
  | |- context [if ?a <=? ?b then _ else _] => destruct (Z.leb_spec a b)
  | |- context [if ?a <? ?b then _ else _] => destruct (Z.ltb_spec a b)
  | |- context [if ?a =? ?b then _ else _] => destruct (Z.eqb_spec a b)
  | |- context [if ?b then _ else _] => destruct b eqn:?
  end.

Ltac zcase_in H :=
  match type of H with
  | context [if ?a <=? ?b then _ else _] => destruct (Z.leb_spec a b)
  | context [if ?a <? ?b then _ else _] => destruct (Z.ltb_spec a b)
  | context [if ?a =? ?b then _ else _] => destruct (Z.eqb_spec a b)
  | context [if ?b then _ else _] => destruct b eqn:?
  end.

Lemma wp_bind {A B} (m : res A) (k : A -> res B) Q :
  wp m (fun a => wp (k a) Q) -> wp (rbind m k) Q.
Proof. by destruct m. Qed.

Lemma wp_mono {A} (m : res A) (P Q : A -> Prop) :
  wp m P -> (forall a, P a -> Q a) -> wp m Q.
Proof. destruct m; simpl; auto. Qed.

Lemma wp_conj {A} (m : res A) (P : A -> Prop) :
  wp m P -> wp m (fun a => m = Ret a /\ P a).
Proof. destruct m; simpl; auto. Qed.

Lemma wp_ret {A} (m : res A) (Q : A -> Prop) a : wp m Q -> m = Ret a -> Q a.
Proof. by intros H ->. Qed.

Lemma wp_no_oob {A} (m : res A) Q : wp m Q -> m <> Oob.
Proof. by intros H ->. Qed.

Lemma rbind_ret {A B} (m : res A) (k : A -> res B) b :
  rbind m k = Ret b -> exists a, m = Ret a /\ k a = Ret b.
Proof. destruct m; simpl; naive_solver. Qed.

Ltac res_inv :=
  repeat match goal with
  | H : rbind _ _ = Ret _ |- _ =>
      let a := fresh "a" in let Ha := fresh "Ha" in
      apply rbind_ret in H as (a & Ha & H)
  | H : (if ?b then _ else Fail) = Ret _ |- _ => destruct b eqn:?; [| discriminate H]
  | H : (if ?b then Fail else _) = Ret _ |- _ => destruct b eqn:?; [discriminate H |]
  | H : Ret _ = Ret _ |- _ => injection H as H; subst
  | H : Fail = Ret _ |- _ => discriminate H
  | H : Oob = Ret _ |- _ => discriminate H
  | p : (_ * _)%type |- _ => destruct p
  end.

(** *** Lists *)

Lemma zlen_nonneg {A} (l : list A) : 0 <= zlen l.
Proof. unfold zlen; lia. Qed.

Lemma zlen_app {A} (l k : list A) : zlen (l ++ k) = zlen l + zlen k.
Proof. unfold zlen. rewrite length_app. lia. Qed.

Lemma zlen_cons {A} (x : A) l : zlen (x :: l) = zlen l + 1.
Proof. unfold zlen. simpl. lia. Qed.

Lemma zlen_nil : zlen (@nil Z) = 0.
Proof. done. Qed.

Lemma zlen_padd p n : 0 <= n -> zlen (padd p n) = Z.max 0 (zlen p - n).
Proof. intros. unfold padd, zlen. rewrite length_drop. lia. Qed.

Lemma zlen_ztake n p : 0 <= n -> zlen (ztake n p) = Z.min n (zlen p).
Proof. intros. unfold ztake, zlen. rewrite length_take. lia. Qed.

Lemma padd_0 p : padd p 0 = p.
Proof. done. Qed.

Lemma padd_padd p m n : 0 <= m -> 0 <= n -> padd (padd p m) n = padd p (m + n).
Proof. intros. unfold padd. rewrite drop_drop. f_equal. lia. Qed.

Lemma padd_app p q n : n = zlen p -> padd (p ++ q) n = q.
Proof. intros ->. unfold padd, zlen. by rewrite Nat2Z.id, drop_app_length. Qed.

Lemma padd_cons b q n : 0 < n -> padd (b :: q) n = padd q (n - 1).
Proof.
  intros. unfold padd. replace (Z.to_nat n) with (S (Z.to_nat (n - 1))) by lia. done.
Qed.

Lemma ztake_split n m p : 0 <= n -> 0 <= m -> ztake (n + m) p = ztake n p ++ ztake m (padd p n).
Proof.
  intros. unfold ztake, padd. rewrite Z2Nat.inj_add by lia.
  rewrite <- (take_drop (Z.to_nat n) p) at 1. rewrite take_app, take_take, length_take.
  destruct (decide (Z.to_nat n <= length p)%nat).
  - f_equal; [f_equal; lia|]. f_equal. lia.
  - rewrite !drop_ge, !take_nil by lia. f_equal. f_equal. lia.
Qed.


Lemma ztake_app p q n : n = zlen p -> ztake n (p ++ q) = p.
Proof. intros ->. unfold ztake, zlen. by rewrite Nat2Z.id, take_app_length. Qed.

Lemma ztake_all p n : zlen p <= n -> ztake n p = p.
Proof. intros. unfold ztake, zlen in *. apply take_ge. lia. Qed.

Lemma Forall_padd (P : Z -> Prop) p n : Forall P p -> Forall P (padd p n).
Proof. apply Forall_drop. Qed.

Lemma Forall_ztake (P : Z -> Prop) p n : Forall P p -> Forall P (ztake n p).
Proof. apply Forall_take. Qed.

#[export] Hint Resolve zlen_nonneg Forall_padd Forall_ztake : pico.
#[export] Hint Rewrite @zlen_app @zlen_cons zlen_nil : pico.

(** *** Reads *)

Lemma rd_lookup p i b : rd p i = Ret b <-> 0 <= i /\ p !! Z.to_nat i = Some b.
Proof.
  unfold rd. destruct (Z.ltb_spec i 0).
  - split; [done | intros [? _]; lia].
  - destruct (p !! Z.to_nat i); split; intros E; repeat split; try congruence; try lia;
      by destruct E as [_ [= ->]].
Qed.

Lemma rd_in_bounds p i : 0 <= i < zlen p -> exists b, rd p i = Ret b /\ b ∈ p.
Proof.
  intros Hi. destruct (lookup_lt_is_Some_2 p (Z.to_nat i)) as [b Hb].
  { unfold zlen in Hi. lia. }
  exists b. split; [by apply rd_lookup; split; [lia|] |].
  by eapply list_elem_of_lookup_2.
Qed.

Lemma rd_not_fail p i : rd p i <> Fail.
Proof. unfold rd. zcase; [done |]. by destruct (p !! _). Qed.

Lemma wp_rd p i (Q : Z -> Prop) :
  0 <= i < zlen p -> (forall b, rd p i = Ret b -> b ∈ p -> Q b) -> wp (rd p i) Q.
Proof. intros Hi HQ. destruct (rd_in_bounds p i Hi) as (b & Hb & Hin). rewrite Hb. by apply HQ. Qed.

Lemma rd_byte p i b : Forall byte_ok p -> rd p i = Ret b -> byte_ok b.
Proof.
  intros Hp Hb. apply rd_lookup in Hb as [_ Hb].
  by eapply Forall_lookup_1.
Qed.

Lemma rd_padd p n i : 0 <= n -> 0 <= i -> rd (padd p n) i = rd p (n + i).
Proof.
  intros. unfold rd, padd. rewrite lookup_drop.
  replace (i <? 0) with false by lia. replace (n + i <? 0) with false by lia.
  replace (Z.to_nat (n + i)) with (Z.to_nat n + Z.to_nat i)%nat by lia. done.
Qed.

Lemma rd_cons_0 b p : rd (b :: p) 0 = Ret b.
Proof. done. Qed.

Lemma rd_cons_S b p i : 0 < i -> rd (b :: p) i = rd p (i - 1).
Proof.
  intros. unfold rd.
  replace (i <? 0) with false by lia. replace (i - 1 <? 0) with false by lia.
  replace (Z.to_nat i) with (S (Z.to_nat (i - 1))) by lia. done.
Qed.

Lemma rd_app_l p q i : i < zlen p -> rd (p ++ q) i = rd p i.
Proof.
  intros. unfold rd. destruct (Z.ltb_spec i 0); [done |].
  unfold zlen in *. by rewrite lookup_app_l by lia.
Qed.

Lemma rd_app_r p q i : zlen p <= i -> rd (p ++ q) i = rd q (i - zlen p).
Proof.
  intros. unfold rd, zlen in *.
  replace (i <? 0) with false by lia. replace (i - Z.of_nat (length p) <? 0) with false by lia.
  rewrite lookup_app_r by lia.
  replace (Z.to_nat i - length p)%nat with (Z.to_nat (i - Z.of_nat (length p))) by lia. done.
Qed.

Lemma rdn_ret p n l : rdn p n = Ret l -> n <= zlen p /\ l = ztake n p.
Proof. unfold rdn. zcase; naive_solver. Qed.

Lemma rdn_app p q n : n = zlen p -> rdn (p ++ q) n = Ret p.
Proof.
  intros ->. unfold rdn. rewrite zlen_app.
  pose proof (zlen_nonneg q). replace (zlen p <=? zlen p + zlen q) with true by lia.
  by rewrite ztake_app.
Qed.

Lemma wp_rdn p n (Q : list Z -> Prop) : n <= zlen p -> Q (ztake n p) -> wp (rdn p n) Q.
Proof. intros. unfold rdn. by replace (n <=? zlen p) with true by lia. Qed.

Lemma rd_nth p i : 0 <= i < zlen p -> rd p i = Ret (nth (Z.to_nat i) p 0).
Proof.
  intros Hi. apply rd_lookup. split; [lia|]. rewrite nth_lookup.
  destruct (lookup_lt_is_Some_2 p (Z.to_nat i)) as [b ->]; [unfold zlen in Hi; lia | done].
Qed.

(** *** Writes *)

Lemma wr_in_bounds p i v : 0 <= i < zlen p -> wr p i v = Ret (<[Z.to_nat i := v]> p).
Proof.
  intros. unfold wr. replace (0 <=? i) with true by lia. by replace (i <? zlen p) with true by lia.
Qed.

Lemma zlen_insert (p : list Z) n v : zlen (<[n := v]> p) = zlen p.
Proof. unfold zlen. by rewrite length_insert. Qed.

(** *** Bit operations as arithmetic *)

Lemma land_ones_mod x k : 0 <= k -> Z.land x (Z.ones k) = x mod 2 ^ k.
Proof. intros. by apply Z.land_ones. Qed.

Lemma testbit_small b k i : 0 <= b < 2 ^ k -> 0 <= k <= i -> Z.testbit b i = false.
Proof.
  intros Hb Hi. rewrite <- (Z.mod_small b (2 ^ k)) by lia.
  apply Z.mod_pow2_bits_high. lia.
Qed.

Lemma lor_disjoint k a b : 0 <= k -> 0 <= b < 2 ^ k -> Z.lor (a * 2 ^ k) b = a * 2 ^ k + b.
Proof.
  intros Hk Hb.
  assert (Hl : Z.land (a * 2 ^ k) b = 0).
  { apply Z.bits_inj'. intros i Hi. rewrite Z.land_spec, Z.bits_0.
    destruct (Z.ltb_spec i k).
    - by rewrite Z.mul_pow2_bits_low by lia.
    - rewrite (testbit_small b k) by lia. apply andb_false_r. }
  by rewrite Z.add_nocarry_lxor, Z.lxor_lor.
Qed.

Lemma shl8_lor x b :
  0 <= x < 2 ^ 56 -> byte_ok b -> Z.lor (u64 (Z.shiftl x 8)) b = x * 256 + b.
Proof.
  intros Hx Hb. unfold u64, byte_ok in *. rewrite Z.shiftl_mul_pow2 by lia.
  rewrite Z.mod_small by lia. by rewrite (lor_disjoint 8) by lia.
Qed.

Lemma u8_byte x : byte_ok (u8 x).
Proof. unfold u8, byte_ok. apply Z.mod_pos_bound. lia. Qed.

Lemma u8_small x : byte_ok x -> u8 x = x.
Proof. intros. apply Z.mod_small. unfold byte_ok in *. lia. Qed.

Lemma u64_small x : 0 <= x < 2 ^ 64 -> u64 x = x.
Proof. apply Z.mod_small. Qed.

Lemma u32_small x : 0 <= x < 2 ^ 32 -> u32 x = x.
Proof. apply Z.mod_small. Qed.

Lemma u16_small x : 0 <= x < 2 ^ 16 -> u16 x = x.
Proof. apply Z.mod_small. Qed.

#[export] Hint Resolve u8_byte : pico.

(** *** Big-endian byte strings *)

Lemma length_be_bytes n v : length (be_bytes n v) = n.
Proof. induction n; simpl; auto. Qed.

Lemma zlen_be_bytes n v : zlen (be_bytes n v) = Z.of_nat n.
Proof. unfold zlen. by rewrite length_be_bytes. Qed.

Lemma be_bytes_ok n v : Forall byte_ok (be_bytes n v).
Proof.
  induction n; simpl; constructor; [| done].
  apply Z.mod_pos_bound. lia.
Qed.

Lemma be_acc_bytes n v x :
  be_acc x (be_bytes n v) = x * 256 ^ Z.of_nat n + v mod 256 ^ Z.of_nat n.
Proof.
  revert x. induction n as [|n IH]; intros x; cbn [be_bytes be_acc].
  { change (Z.of_nat 0) with 0. rewrite Z.pow_0_r, Z.mod_1_r. lia. }
  rewrite IH. rewrite Nat2Z.inj_succ, Z.pow_succ_r by lia.
  set (m := 256 ^ Z.of_nat n). assert (0 < m) by (apply Z.pow_pos_nonneg; lia).
  rewrite (Z.mul_comm 256 m), Z.rem_mul_r by lia. lia.
Qed.

Lemma be_val_bytes n v : 0 <= v < 256 ^ Z.of_nat n -> be_acc 0 (be_bytes n v) = v.
Proof. intros. rewrite be_acc_bytes, Z.mod_small by lia. lia. Qed.

Lemma be_acc_shift x l : be_acc x l = x * 256 ^ zlen l + be_acc 0 l.
Proof.
  revert x. induction l as [|b l IH]; intros x.
  { change (zlen []) with 0. cbn [be_acc]. lia. }
  cbn [be_acc]. rewrite IH, (IH (0 * 256 + b)), zlen_cons, Z.pow_add_r by (pose proof (zlen_nonneg l); lia).
  lia.
Qed.

Lemma be_val_bounds l : Forall byte_ok l -> 0 <= be_acc 0 l < 256 ^ zlen l.
Proof.
  induction 1 as [|b l Hb Hl IH].
  { change (zlen []) with 0. cbn [be_acc]. lia. }
  cbn [be_acc]. rewrite be_acc_shift, zlen_cons, Z.pow_add_r by (pose proof (zlen_nonneg l); lia).
  unfold byte_ok in Hb. nia.
Qed.

Lemma be_bytes_val l : Forall byte_ok l -> be_bytes (length l) (be_acc 0 l) = l.
Proof.
  assert (Hgen : forall l x, Forall byte_ok l -> be_bytes (length l) (be_acc x l) = l).
  { clear. induction l as [|b l IH]; intros x Hl; [done|].
    apply Forall_cons_1 in Hl as [Hb Hl]. cbn [length be_bytes be_acc]. f_equal; [|by apply IH].
    rewrite be_acc_shift. pose proof (be_val_bounds l Hl). fold (zlen l).
    rewrite Z.div_add_l, Z.div_small by lia. unfold byte_ok in Hb. dlia. }
  apply Hgen.
Qed.
