(* ===== verification/Util.v ===== *)
(** * Byte-string utilities of the HTTP server

    Models the pure part of [src/util.c] (FNV-1a, the case-insensitive compare
    of header names, the power-of-two rounding) and [src/simd.h] (block-wise
    equality and lower-casing).  Both vector variants of [simd.h] are modelled
    lane by lane; [arch] is the variant the compiler selects. *)

From Stdlib Require Import ZArith Lia.
From Stdlib Require String Ascii.
From stdpp Require Import list numbers option.
From S2P Require Import Prelude.

(** A C string literal, without its terminating NUL. *)
Definition lit (s : String.string) : list Z := map (fun c => Z.of_N (Ascii.N_of_ascii c)) (String.list_ascii_of_string s).

(** [p[off .. off + n)] *)
Definition sub (p : list Z) (off n : Z) : list Z := ztake n (padd p off).

(** [memcpy(&x, p, n)] into an integer of n bytes, little-endian. *)
Fixpoint le_val (l : list Z) : Z :=
  match l with
  | [] => 0
  | b :: l' => b + 256 * le_val l'
  end.

Definition load (p : list Z) (off n : Z) : res Z :=
  if off <? 0 then Oob else let! l := rdn (padd p off) n in Ret (le_val l).

(** [memcmp(a, b, n) == 0] *)
Definition mem_eq (a b : list Z) (n : Z) : res bool :=
  let! x := rdn a n in let! y := rdn b n in Ret (bool_decide (x = y)).

(** ** FNV-1a *)

Definition metal_fnv1a_init : Z := 1469598103934665603.
Definition FNV_PRIME : Z := 1099511628211.

Fixpoint metal_fnv1a_step (h : Z) (data : list Z) : Z :=
  match data with
  | [] => h
  | b :: data' => metal_fnv1a_step (u64 (Z.lxor h b * FNV_PRIME)) data'
  end.

Fixpoint metal_fnv1a_step_lower (h : Z) (data : list Z) : Z :=
  match data with
  | [] => h
  | b :: data' =>
      let b := if (0x41 <=? b) && (b <=? 0x5a) then u8 (b + 32) else b in
      metal_fnv1a_step_lower (u64 (Z.lxor h b * FNV_PRIME)) data'
  end.

Definition metal_fnv1a (data : list Z) : Z := metal_fnv1a_step metal_fnv1a_init data.
Definition metal_fnv1a_lower (data : list Z) : Z := metal_fnv1a_step_lower metal_fnv1a_init data.

(** ** Powers of two *)

Definition metal_next_pow2 (n : Z) : Z :=
  if n <? 2 then 1
  else
    let n := n - 1 in
    let n := Z.lor n (Z.shiftr n 1) in
    let n := Z.lor n (Z.shiftr n 2) in
    let n := Z.lor n (Z.shiftr n 4) in
    let n := Z.lor n (Z.shiftr n 8) in
    let n := Z.lor n (Z.shiftr n 16) in
    let n := Z.lor n (Z.shiftr n 32) in
    u64 (n + 1).

(** ** Vector code *)

Inductive arch := SSE2 | NEON | Scalar.

(** [_mm_cmpgt_epi8]: signed lanes. *)
Definition i8 (x : Z) : Z := if x <? 128 then x else x - 256.
Definition cmpgt_epi8 (a b : Z) : Z := if i8 b <? i8 a then 0xff else 0.

Definition sse2_lower_lane (v : Z) : Z :=
  let gt_a := cmpgt_epi8 v (0x41 - 1) in
  let gt_z := cmpgt_epi8 v 0x5a in
  let not_gtz := Z.lxor gt_z 0xff in
  let mask := Z.land gt_a not_gtz in
  u8 (v + Z.land mask 0x20).

(** [vcgtq_u8] and [vcltq_u8]: unsigned lanes. *)
Definition neon_lower_lane (v : Z) : Z :=
  let gt_a := if 0x41 - 1 <? v then 0xff else 0 in
  let lt_z := if v <? 0x5a + 1 then 0xff else 0 in
  let mask := Z.land gt_a lt_z in
  u8 (v + Z.land mask 0x20).

Definition scalar_lower (c : Z) : Z :=
  if (0x41 <=? c) && (c <=? 0x5a) then Z.lor c 0x20 else c.

(** Replace [n] bytes at [off] by their images. *)
Definition upd_range (f : Z -> Z) (buf : list Z) (off n : Z) : res (list Z) :=
  if (0 <=? off) && (off + n <=? zlen buf)
  then Ret (ztake off buf ++ map f (sub buf off n) ++ padd buf (off + n)) else Oob.

(** [while (len >= 16)]; [len / 16] rounds. *)
Fixpoint lower_blocks (lane : Z -> Z) (fuel : nat) (buf : list Z) (off len : Z) : res (list Z * Z * Z) :=
  if 16 <=? len then
    match fuel with
    | O => Oob
    | S fuel' =>
        let! buf' := upd_range lane buf off 16 in
        lower_blocks lane fuel' buf' (off + 16) (len - 16)
    end
  else Ret (buf, off, len).

Definition metal_lower_simd (a : arch) (buf : list Z) (off len : Z) : res (list Z) :=
  let fuel := Z.to_nat (len / 16) in
  let! (buf, off, len) :=
    match a with
    | SSE2 => lower_blocks sse2_lower_lane fuel buf off len
    | NEON => lower_blocks neon_lower_lane fuel buf off len
    | Scalar => Ret (buf, off, len)
    end in
  upd_range scalar_lower buf off len.

Definition metal_lower_inplace := metal_lower_simd.

(** [_mm_movemask_epi8]: the top bits of the lanes. *)
Fixpoint movemask_epi8 (l : list Z) : Z :=
  match l with
  | [] => 0
  | b :: l' => Z.shiftr b 7 + 2 * movemask_epi8 l'
  end.

Definition cmpeq_epi8 (a b : Z) : Z := if a =? b then 0xff else 0.

(** [vminvq_u8] *)
Definition vminvq_u8 (l : list Z) : Z := foldr Z.min 0xff l.

Definition block_eq (a : arch) (x y : list Z) : bool :=
  let c := zip_with cmpeq_epi8 x y in
  match a with
  | NEON => vminvq_u8 c =? 0xff
  | _ => movemask_epi8 c =? 0xffff
  end.

(** [None] is [return false] from inside the loop. *)
Fixpoint eq_blocks (ar : arch) (fuel : nat) (a b : list Z) (len : Z) : res (option (list Z * list Z * Z)) :=
  if 16 <=? len then
    match fuel with
    | O => Oob
    | S fuel' =>
        let! va := rdn a 16 in
        let! vb := rdn b 16 in
        if negb (block_eq ar va vb) then Ret None
        else eq_blocks ar fuel' (padd a 16) (padd b 16) (len - 16)
    end
  else Ret (Some (a, b, len)).

Definition metal_eq_n (ar : arch) (a b : list Z) (len : Z) : res bool :=
  let! r := match ar with
            | Scalar => Ret (Some (a, b, len))
            | _ => eq_blocks ar (Z.to_nat (len / 16)) a b len
            end in
  match r with
  | None => Ret false
  | Some (a, b, len) => if len =? 0 then Ret true else mem_eq a b len
  end.

(** ** Case-insensitive compare *)

(** The constant with [n] bytes 0x20. *)
Definition sp (n : Z) : Z := le_val (replicate (Z.to_nat n) 0x20).

(** [(va | 0x20..20) == (vb | 0x20..20)] for the [n] bytes at [off]. *)
Definition word_ieq (a b : list Z) (off n : Z) : res bool :=
  let! va := load a off n in
  let! vb := load b off n in
  Ret (Z.lor va (sp n) =? Z.lor vb (sp n)).

(** [if (!x) return false; y] *)
Definition andr (x : res bool) (y : res bool) : res bool :=
  let! b := x in if b then y else Ret false.

Definition to_lower (c : Z) : Z := if (0x41 <=? c) && (c <=? 0x5a) then u8 (c + 32) else c.

(** The byte loop, [k] iterations left from index [i]. *)
Fixpoint ieq_loop (a b : list Z) (i : Z) (k : nat) : res bool :=
  match k with
  | O => Ret true
  | S k' =>
      let! ca := rd a i in
      let! cb := rd b i in
      if negb (to_lower ca =? to_lower cb) then Ret false else ieq_loop a b (i + 1) k'
  end.

Definition metal_ieq (a : list Z) (alen : Z) (b : list Z) (blen : Z) : res bool :=
  if negb (alen =? blen) then Ret false
  else if alen =? 4 then word_ieq a b 0 4
  else if alen =? 10 then andr (word_ieq a b 0 8) (word_ieq a b 8 2)
  else if alen =? 13 then andr (word_ieq a b 0 8) (andr (word_ieq a b 8 4) (word_ieq a b 12 1))
  else if alen =? 14 then andr (word_ieq a b 0 8) (andr (word_ieq a b 8 4) (word_ieq a b 12 2))
  else if alen =? 15 then andr (word_ieq a b 0 8) (word_ieq a b 7 8)
  else if alen =? 17 then andr (word_ieq a b 0 8) (andr (word_ieq a b 8 8) (word_ieq a b 16 1))
  else ieq_loop a b 0 (Z.to_nat alen).

(** ** Specifications *)

(** Equality of the lower-cased strings. *)
Definition same_name (a b : list Z) : bool := bool_decide (map to_lower a = map to_lower b).

(** The characters of the header names the server compares with. *)
Definition name_char (c : Z) : Prop := 0x41 <= c <= 0x5a \/ 0x61 <= c <= 0x7a \/ c = 0x2d.

(** ** Bytes and slices *)

Lemma byte_forall (P : Z -> bool) :
  forallb P (seqZ 0 256) = true -> forall b, byte_ok b -> P b = true.
Proof.
  intros H b Hb. rewrite forallb_forall in H. apply H.
  apply list_elem_of_In, elem_of_seqZ. unfold byte_ok in Hb. lia.
Qed.


Lemma sub_app a b c n : n = zlen b -> sub (a ++ b ++ c) (zlen a) n = b.
Proof. intros ->. unfold sub. rewrite padd_app by done. by apply ztake_app. Qed.

Lemma upd_range_app f a b c n :
  n = zlen b -> upd_range f (a ++ b ++ c) (zlen a) n = Ret (a ++ map f b ++ c).
Proof.
  intros ->. unfold upd_range. rewrite !zlen_app.
  pose proof (zlen_nonneg a). pose proof (zlen_nonneg c).
  replace (0 <=? zlen a) with true by lia. replace (_ <=? _) with true by lia. cbn [andb].
  rewrite ztake_app, sub_app by done. do 3 f_equal. rewrite app_assoc. apply padd_app. by rewrite zlen_app.
Qed.

Lemma sse2_lane_ok v : byte_ok v -> sse2_lower_lane v = to_lower v.
Proof. intros Hb. apply Z.eqb_eq. exact (byte_forall (fun v => sse2_lower_lane v =? to_lower v) eq_refl v Hb). Qed.

Lemma neon_lane_ok v : byte_ok v -> neon_lower_lane v = to_lower v.
Proof. intros Hb. apply Z.eqb_eq. exact (byte_forall (fun v => neon_lower_lane v =? to_lower v) eq_refl v Hb). Qed.

Lemma scalar_lane_ok v : byte_ok v -> scalar_lower v = to_lower v.
Proof. intros Hb. apply Z.eqb_eq. exact (byte_forall (fun v => scalar_lower v =? to_lower v) eq_refl v Hb). Qed.

Lemma map_lane f b :
  (forall v, byte_ok v -> f v = to_lower v) -> Forall byte_ok b -> map f b = map to_lower b.
Proof. intros Hf Hb. induction Hb; cbn; [done|]. by rewrite Hf, IHHb. Qed.

Lemma zlen_map {A B} (f : A -> B) l : zlen (map f l) = zlen l.
Proof. unfold zlen. by rewrite length_map. Qed.

(** ** Lower-casing *)

Lemma lower_blocks_app lane fuel a b c :
  (forall v, byte_ok v -> lane v = to_lower v) -> Forall byte_ok b -> zlen b / 16 <= Z.of_nat fuel ->
  exists b1 b2, b = b1 ++ b2 /\
    lower_blocks lane fuel (a ++ b ++ c) (zlen a) (zlen b) =
    Ret (a ++ map to_lower b1 ++ b2 ++ c, zlen a + zlen b1, zlen b2).
Proof.
  intros Hlane. revert a b. induction fuel as [|fuel IH]; intros a b Hb Hf.
  - exists [], b. split; [done|]. cbn [lower_blocks]. zcase; [dlia|]. cbn [map app]. by rewrite zlen_nil, Z.add_0_r.
  - cbn [lower_blocks]. zcase.
    2: { exists [], b. split; [done|]. cbn [map app]. by rewrite zlen_nil, Z.add_0_r. }
    rewrite <- (take_drop 16 b) in Hb |- *. set (b0 := take 16 b) in *. set (b' := drop 16 b) in *.
    assert (H0 : zlen b0 = 16) by (unfold b0, zlen in *; rewrite length_take; lia).
    apply Forall_app in Hb as [Hb0 Hb']. rewrite <- app_assoc.
    rewrite upd_range_app by done. cbn [rbind]. rewrite (map_lane lane) by done.
    destruct (IH (a ++ map to_lower b0) b') as (b1 & b2 & E & IHr); [done| |].
    { unfold b'. assert (zlen (drop 16 b) = zlen b - 16) as -> by (unfold zlen in *; rewrite length_drop; lia). dlia. }
    exists (b0 ++ b1), b2. split; [by rewrite E, app_assoc|].
    rewrite zlen_app, zlen_map, H0, <- app_assoc in IHr. rewrite zlen_app, H0.
    replace (16 + zlen b' - 16) with (zlen b') by lia. rewrite IHr.
    rewrite map_app, <- !app_assoc, zlen_app, H0. do 3 f_equal. lia.
Qed.

Lemma lower_simd_app ar a b c :
  Forall byte_ok b -> metal_lower_simd ar (a ++ b ++ c) (zlen a) (zlen b) = Ret (a ++ map to_lower b ++ c).
Proof.
  intros Hb. unfold metal_lower_simd. pose proof (zlen_nonneg b).
  assert (Hblk : forall lane, (forall v, byte_ok v -> lane v = to_lower v) ->
    (let! (buf, off, len) := lower_blocks lane (Z.to_nat (zlen b / 16)) (a ++ b ++ c) (zlen a) (zlen b) in
     upd_range scalar_lower buf off len) = Ret (a ++ map to_lower b ++ c)).
  { intros lane Hl.
    destruct (lower_blocks_app lane (Z.to_nat (zlen b / 16)) a b c) as (b1 & b2 & -> & ->); [done|done|dlia|].
    cbn [rbind]. rewrite app_assoc.
    replace (zlen a + zlen b1) with (zlen (a ++ map to_lower b1)) by (by rewrite zlen_app, zlen_map).
    rewrite upd_range_app by done. apply Forall_app in Hb as [_ Hb2].
    rewrite (map_lane scalar_lower) by (done || apply scalar_lane_ok). by rewrite map_app, <- !app_assoc. }
  destruct ar; [apply (Hblk _ sse2_lane_ok)|apply (Hblk _ neon_lane_ok)|].
  cbn [rbind]. rewrite upd_range_app by done. by rewrite (map_lane scalar_lower) by (done || apply scalar_lane_ok).
Qed.

(** ** Block-wise equality *)

Lemma cons_eq_tail (b : Z) x y : b :: x = b :: y <-> x = y.
Proof. split; [by intros [=] | by intros ->]. Qed.

Lemma movemask_lanes x y :
  length x = length y ->
  0 <= movemask_epi8 (zip_with cmpeq_epi8 x y) < 2 ^ zlen x /\
  (movemask_epi8 (zip_with cmpeq_epi8 x y) = 2 ^ zlen x - 1 <-> x = y).
Proof.
  revert y. induction x as [|a x IH]; intros [|b y] Hl; try discriminate Hl; [done|].
  injection Hl as Hl. destruct (IH y Hl) as [Hb He]. cbn [zip_with movemask_epi8].
  rewrite zlen_cons, Z.pow_add_r, Z.pow_1_r by (pose proof (zlen_nonneg x); lia).
  set (m := movemask_epi8 (zip_with cmpeq_epi8 x y)) in *.
  unfold cmpeq_epi8. destruct (Z.eqb_spec a b) as [->|Hne].
  - change (Z.shiftr 255 7) with 1. split; [lia|]. rewrite cons_eq_tail, <- He. lia.
  - change (Z.shiftr 0 7) with 0. split; [lia|]. split; [lia|]. intros [= ??]. done.
Qed.

Lemma vminv_lanes x y :
  length x = length y -> vminvq_u8 (zip_with cmpeq_epi8 x y) = 0xff <-> x = y.
Proof.
  revert y. induction x as [|a x IH]; intros [|b y] Hl; try discriminate Hl; [done|].
  injection Hl as Hl. specialize (IH y Hl). unfold vminvq_u8 in *. cbn [zip_with foldr].
  assert (foldr Z.min 255 (zip_with cmpeq_epi8 x y) <= 255).
  { clear. generalize (zip_with cmpeq_epi8 x y). induction l; cbn [foldr]; lia. }
  unfold cmpeq_epi8 at 1. destruct (Z.eqb_spec a b) as [->|Hne].
  - rewrite cons_eq_tail, <- IH. lia.
  - split; [lia|]. by intros [= ??].
Qed.

Lemma block_eq_ok ar x y : zlen x = 16 -> zlen y = 16 -> block_eq ar x y = bool_decide (x = y).
Proof.
  intros Hx Hy. assert (Hl : length x = length y) by (unfold zlen in *; lia).
  destruct (movemask_lanes x y Hl) as [_ Hm]. rewrite Hx in Hm. pose proof (vminv_lanes x y Hl).
  unfold block_eq. destruct ar; apply eq_true_iff_eq; rewrite Z.eqb_eq, bool_decide_eq_true; done.
Qed.

Lemma zlen_ztake_le n p : 0 <= n <= zlen p -> zlen (ztake n p) = n.
Proof. intros. rewrite zlen_ztake; lia. Qed.

Lemma mem_eq_ok a b n : n <= zlen a -> n <= zlen b -> mem_eq a b n = Ret (bool_decide (ztake n a = ztake n b)).
Proof.
  intros. unfold mem_eq, rdn. replace (n <=? zlen a) with true by lia. by replace (n <=? zlen b) with true by lia.
Qed.

Lemma bool_decide_app_eq (x x' y y' : list Z) :
  length x = length x' -> bool_decide (x ++ y = x' ++ y') = bool_decide (x = x') && bool_decide (y = y').
Proof.
  intros Hl. rewrite <- bool_decide_and. apply bool_decide_ext. split; [|by intros [-> ->]].
  apply app_inj_1. done.
Qed.

Lemma eq_blocks_ok ar fuel a b len :
  0 <= len <= zlen a -> len <= zlen b -> len / 16 <= Z.of_nat fuel ->
  match eq_blocks ar fuel a b len with
  | Ret None => ztake len a <> ztake len b
  | Ret (Some (a', b', len')) =>
      0 <= len' <= zlen a' /\ len' <= zlen b' /\ (ztake len a = ztake len b <-> ztake len' a' = ztake len' b')
  | _ => False
  end.
Proof.
  revert a b len. induction fuel as [|fuel IH]; intros a b len Ha Hb Hf; cbn [eq_blocks].
  { zcase; [dlia|done]. }
  zcase; [|done]. unfold rdn. replace (16 <=? zlen a) with true by lia. replace (16 <=? zlen b) with true by lia.
  cbn [rbind]. rewrite block_eq_ok by (apply zlen_ztake_le; lia).
  assert (Hsplit : ztake len a = ztake len b <->
    ztake 16 a = ztake 16 b /\ ztake (len - 16) (padd a 16) = ztake (len - 16) (padd b 16)).
  { replace len with (16 + (len - 16)) at 1 2 by lia. rewrite !ztake_split by lia. split; [|by intros [-> ->]].
    apply app_inj_1. pose proof (zlen_ztake_le 16 a). pose proof (zlen_ztake_le 16 b). unfold zlen in *. lia. }
  case_bool_decide; cbn [negb]; [|tauto].
  specialize (IH (padd a 16) (padd b 16) (len - 16)). rewrite !zlen_padd in IH by lia.
  specialize (IH ltac:(lia) ltac:(lia) ltac:(dlia)).
  destruct (eq_blocks ar fuel _ _ _) as [[[[a' b'] len']|]| |]; intuition.
Qed.

Lemma eq_n_ok ar a b len :
  0 <= len <= zlen a -> len <= zlen b -> metal_eq_n ar a b len = Ret (bool_decide (ztake len a = ztake len b)).
Proof.
  intros Ha Hb. unfold metal_eq_n.
  assert (Hblk : match eq_blocks ar (Z.to_nat (len / 16)) a b len with
    | Ret None => ztake len a <> ztake len b
    | Ret (Some (a', b', len')) =>
        0 <= len' <= zlen a' /\ len' <= zlen b' /\ (ztake len a = ztake len b <-> ztake len' a' = ztake len' b')
    | _ => False
    end) by (apply eq_blocks_ok; [done|done|dlia]).
  assert (Htail : forall a' b' len', 0 <= len' <= zlen a' -> len' <= zlen b' ->
    (ztake len a = ztake len b <-> ztake len' a' = ztake len' b') ->
    (if len' =? 0 then Ret true else mem_eq a' b' len') = Ret (bool_decide (ztake len a = ztake len b))).
  { intros a' b' len' H1 H2 Hiff. rewrite (bool_decide_ext _ _ Hiff). destruct (Z.eqb_spec len' 0) as [->|].
    - by rewrite bool_decide_eq_true_2.
    - by apply mem_eq_ok; lia. }
  destruct ar; try (cbn [rbind]; by apply Htail);
    (destruct (eq_blocks _ _ _ _ _) as [[[[a' b'] len']|]| |]; cbn [rbind]; try done;
     [apply Htail; tauto | by rewrite bool_decide_eq_false_2]).
Qed.

(** ** Case-insensitive compare *)

Lemma lor_bytes a b x y :
  byte_ok a -> byte_ok b -> Z.lor (a + 256 * x) (b + 256 * y) = Z.lor a b + 256 * Z.lor x y.
Proof.
  intros Ha Hb. unfold byte_ok in *.
  assert (Hlor : 0 <= Z.lor a b < 2 ^ 8).
  { split; [apply Z.lor_nonneg; lia|]. destruct (Z.eq_dec (Z.lor a b) 0) as [->|]; [lia|].
    assert (0 <= Z.lor a b) by (apply Z.lor_nonneg; lia).
    apply Z.log2_lt_pow2; [lia|]. rewrite Z.log2_lor by lia.
    apply Z.max_lub_lt; (destruct (Z.eq_dec a 0) as [->|]; destruct (Z.eq_dec b 0) as [->|]; try done;
      apply Z.log2_lt_pow2; lia). }
  replace (a + 256 * x) with (x * 2 ^ 8 + a) by lia. replace (b + 256 * y) with (y * 2 ^ 8 + b) by lia.
  rewrite <- !(lor_disjoint 8) by lia.
  replace (Z.lor a b + 256 * Z.lor x y) with (Z.lor x y * 2 ^ 8 + Z.lor a b) by lia.
  rewrite <- (lor_disjoint 8) by lia. rewrite <- !Z.shiftl_mul_pow2, Z.shiftl_lor by lia.
  apply Z.bits_inj'. intros i Hi. rewrite !Z.lor_spec.
  by destruct (Z.testbit (Z.shiftl x 8) i), (Z.testbit (Z.shiftl y 8) i), (Z.testbit a i), (Z.testbit b i).
Qed.

Definition or20 (c : Z) : Z := Z.lor c 0x20.

Lemma le_val_or20 l : Forall byte_ok l -> Z.lor (le_val l) (le_val (replicate (length l) 0x20)) = le_val (map or20 l).
Proof.
  induction 1 as [|b l Hb Hl IH]; [done|]. cbn [length replicate le_val map].
  rewrite lor_bytes by (done || unfold byte_ok; lia). by rewrite IH.
Qed.

Lemma le_val_inj l m : Forall byte_ok l -> Forall byte_ok m -> length l = length m -> le_val l = le_val m -> l = m.
Proof.
  intros Hl. revert m. induction Hl as [|b l Hb Hl IH]; intros [|c m] Hm Hlen; try discriminate Hlen; [done|].
  apply Forall_cons_1 in Hm as [Hc Hm]. cbn [le_val]. unfold byte_ok in *. intros E. injection Hlen as Hlen.
  f_equal; [dlia|]. apply IH; [done|done|dlia].
Qed.

Lemma or20_byte b : byte_ok b -> byte_ok (or20 b).
Proof.
  intros Hb. pose proof (byte_forall (fun b => (0 <=? or20 b) && (or20 b <? 256)) eq_refl b Hb) as H. cbv beta in H.
  unfold byte_ok. lia.
Qed.

Lemma Forall_or20 l : Forall byte_ok l -> Forall byte_ok (map or20 l).
Proof. intros. apply Forall_map. eapply Forall_impl; [apply or20_byte|done]. Qed.

(** The two ranges agree up to bit 5 of every byte. *)
Definition eq20 (a b : list Z) (off n : Z) : Prop := map or20 (sub a off n) = map or20 (sub b off n).

#[global] Instance eq20_dec a b off n : Decision (eq20 a b off n).
Proof. unfold eq20. apply _. Defined.

Lemma zlen_sub p off n : 0 <= off -> 0 <= n -> off + n <= zlen p -> zlen (sub p off n) = n.
Proof. intros. unfold sub. rewrite zlen_ztake, zlen_padd by lia. lia. Qed.

Lemma Forall_sub (P : Z -> Prop) p off n : Forall P p -> Forall P (sub p off n).
Proof. intros. unfold sub. auto with pico. Qed.
#[export] Hint Resolve Forall_sub : pico.

Lemma eq20_split a b off n m :
  0 <= off -> 0 <= n -> 0 <= m -> off + n + m <= zlen a -> off + n + m <= zlen b ->
  eq20 a b off (n + m) <-> eq20 a b off n /\ eq20 a b (off + n) m.
Proof.
  intros. unfold eq20, sub. rewrite !ztake_split, !padd_padd, !map_app by lia.
  split; [|by intros [-> ->]]. apply app_inj_1.
  pose proof (zlen_sub a off n). pose proof (zlen_sub b off n). unfold sub, zlen in *. rewrite !length_map. lia.
Qed.

Lemma word_ieq_ok a b off n :
  Forall byte_ok a -> Forall byte_ok b -> 0 <= off -> 0 <= n -> off + n <= zlen a -> off + n <= zlen b ->
  word_ieq a b off n = Ret (bool_decide (eq20 a b off n)).
Proof.
  intros Ha Hb Ho Hn Hla Hlb. unfold word_ieq, load, rdn.
  replace (off <? 0) with false by lia. rewrite !zlen_padd by lia.
  replace (n <=? Z.max 0 (zlen a - off)) with true by lia. replace (n <=? Z.max 0 (zlen b - off)) with true by lia.
  cbn [rbind]. fold (sub a off n) (sub b off n).
  assert (Hor : forall p, Forall byte_ok p -> off + n <= zlen p ->
    Z.lor (le_val (sub p off n)) (sp n) = le_val (map or20 (sub p off n))).
  { intros p Hp Hl. unfold sp. rewrite <- le_val_or20 by auto with pico. do 2 f_equal. f_equal.
    pose proof (zlen_sub p off n). unfold zlen in *. lia. }
  rewrite !Hor by done. f_equal. apply eq_true_iff_eq. rewrite Z.eqb_eq, bool_decide_eq_true. unfold eq20.
  split; [|by intros ->]. apply le_val_inj; try (apply Forall_or20; by auto with pico).
  pose proof (zlen_sub a off n). pose proof (zlen_sub b off n). unfold zlen in *. rewrite !length_map. lia.
Qed.

Lemma andr_ret x y : andr (Ret x) (Ret y) = Ret (x && y).
Proof. by destruct x. Qed.

Lemma ieq_loop_ok a b i k :
  0 <= i -> i + Z.of_nat k <= zlen a -> i + Z.of_nat k <= zlen b ->
  ieq_loop a b i k = Ret (same_name (sub a i (Z.of_nat k)) (sub b i (Z.of_nat k))).
Proof.
  revert i. induction k as [|k IH]; intros i Hi Ha Hb; [done|]. cbn [ieq_loop].
  assert (Hc : forall p, i + Z.of_nat (S k) <= zlen p -> exists c, rd p i = Ret c /\
    sub p i (Z.of_nat (S k)) = c :: sub p (i + 1) (Z.of_nat k)).
  { intros p Hp. rewrite rd_nth by lia. eexists. split; [done|]. unfold sub, ztake, padd.
    rewrite !Nat2Z.id, (drop_S p (nth (Z.to_nat i) p 0)).
    - cbn [take]. do 3 f_equal. lia.
    - rewrite nth_lookup. destruct (lookup_lt_is_Some_2 p (Z.to_nat i)) as [x ->]; [unfold zlen in Hp; lia|done]. }
  destruct (Hc a Ha) as (ca & -> & ->). destruct (Hc b Hb) as (cb & -> & ->). cbn [rbind].
  unfold same_name. cbn [map]. destruct (Z.eqb_spec (to_lower ca) (to_lower cb)) as [E|E]; cbn [negb].
  - rewrite IH by lia. rewrite E. f_equal. apply bool_decide_ext. by rewrite cons_eq_tail.
  - rewrite bool_decide_eq_false_2; [done|]. by intros [= ??].
Qed.

Lemma or20_lower x y :
  byte_ok x -> x <> 0x0d -> name_char y -> or20 x = or20 y <-> to_lower x = to_lower y.
Proof.
  intros Hx Hcr Hy. assert (Hby : byte_ok y) by (unfold name_char, byte_ok in *; lia).
  pose (P := fun x y : Z => (x =? 0x0d) || negb ((0x41 <=? y) && (y <=? 0x5a) || (0x61 <=? y) && (y <=? 0x7a) || (y =? 0x2d))
    || Bool.eqb (or20 x =? or20 y) (to_lower x =? to_lower y)).
  assert (HP : P x y = true).
  { refine (byte_forall (P x) _ y Hby). refine (byte_forall (fun x => forallb (P x) (seqZ 0 256)) _ x Hx).
    vm_compute. done. }
  unfold P in HP. clear P. unfold name_char in Hy.
  destruct (Z.eqb_spec (or20 x) (or20 y)), (Z.eqb_spec (to_lower x) (to_lower y)); cbn [Bool.eqb] in HP;
    try tauto; exfalso; lia.
Qed.

Lemma or20_names a b :
  Forall byte_ok a -> Forall (fun c => c <> 0x0d) a -> Forall name_char b ->
  map or20 a = map or20 b <-> map to_lower a = map to_lower b.
Proof.
  intros Ha. revert b. induction Ha as [|x a Hx Ha IH]; intros [|y b] Hcr Hb; cbn [map]; try (by split; intros [=]).
  apply Forall_cons_1 in Hcr as [Hc Hcr]. apply Forall_cons_1 in Hb as [Hy Hb].
  pose proof (or20_lower x y Hx Hc Hy) as H1. specialize (IH b Hcr Hb). split; intros [= E1 E2]; f_equal; tauto.
Qed.

Lemma name_bytes b : Forall name_char b -> Forall byte_ok b.
Proof. intros. eapply Forall_impl; [|done]. unfold name_char, byte_ok. lia. Qed.

Lemma ieq_ok a n name :
  Forall byte_ok a -> Forall (fun c => c <> 0x0d) (ztake n a) -> Forall name_char name -> 0 <= n <= zlen a ->
  metal_ieq a n name (zlen name) = Ret (same_name (ztake n a) name).
Proof.
  intros Ha Hcr Hn Hl. pose proof (name_bytes name Hn) as Hbn. unfold metal_ieq.
  destruct (Z.eqb_spec n (zlen name)) as [->|Hne]; cbn [negb].
  2: { unfold same_name. rewrite bool_decide_eq_false_2; [done|]. intros E%(f_equal zlen).
       rewrite !zlen_map, zlen_ztake in E by lia. lia. }
  assert (Hfin : Ret (bool_decide (eq20 a name 0 (zlen name))) = Ret (same_name (ztake (zlen name) a) name)).
  { f_equal. apply bool_decide_ext. unfold eq20, sub. rewrite !padd_0, (ztake_all name) by lia.
    apply or20_names; auto with pico. }
  assert (S : forall off k m, 0 <= off -> 0 <= k -> 0 <= m -> off + k + m <= zlen name ->
    eq20 a name off (k + m) <-> eq20 a name off k /\ eq20 a name (off + k) m).
  { intros. apply eq20_split; lia. }
  repeat (match goal with |- context [if ?x =? ?y then _ else _] => destruct (Z.eqb_spec x y) as [E|_] end;
    [rewrite !word_ieq_ok by (done || lia); rewrite ?andr_ret, <- ?bool_decide_and, <- Hfin, E;
     try (f_equal; apply bool_decide_ext)|]).
  - rewrite (S 0 8 2) by lia. done.
  - rewrite (S 0 8 5), (S 8 4 1) by lia. done.
  - rewrite (S 0 8 6), (S 8 4 2) by lia. done.
  - rewrite (S 0 8 7), (S 7 1 7), (S 0 7 1) by lia. tauto.
  - rewrite (S 0 8 9), (S 8 8 1) by lia. done.
  - rewrite ieq_loop_ok by lia. rewrite Z2Nat.id by lia. unfold sub. by rewrite !padd_0, (ztake_all name) by lia.
Qed.

(** ** Powers of two *)

(** Bit [k] is the top bit of [n] and the [j] bits from it down are set. *)
Definition filled (n k j : Z) : Prop :=
  (forall i, k < i -> Z.testbit n i = false) /\
  (forall i, 0 <= i -> k - j < i <= k -> Z.testbit n i = true).

Lemma filled_step n k j :
  0 <= k -> 0 <= j -> filled n k j -> filled (Z.lor n (Z.shiftr n j)) k (2 * j).
Proof.
  intros Hk Hj [Hhi Hset]. split; intros i Hi.
  - rewrite Z.lor_spec, Z.shiftr_spec, !Hhi by lia. done.
  - intros Hr. rewrite Z.lor_spec, Z.shiftr_spec by lia. destruct (Z.ltb_spec (k - j) i).
    + by rewrite Hset by lia.
    + by rewrite (Hset (i + j)), orb_true_r by lia.
Qed.

Lemma filled_ones n k j : 0 <= k < j -> filled n k j -> n = 2 ^ (k + 1) - 1.
Proof.
  intros Hk [Hhi Hset]. replace (2 ^ (k + 1) - 1) with (Z.ones (k + 1)) by (rewrite Z.ones_equiv; lia).
  apply Z.bits_inj'. intros i Hi. rewrite Z.testbit_ones_nonneg by lia. destruct (Z.ltb_spec i (k + 1)).
  - apply Hset; lia.
  - apply Hhi. lia.
Qed.

Lemma filled_log2 n : 0 < n -> filled n (Z.log2 n) 1.
Proof.
  intros Hn. split; intros i Hi; [apply Z.bits_above_log2; lia|].
  intros Hr. replace i with (Z.log2 n) by lia. apply Z.bit_log2. done.
Qed.

Lemma next_pow2_ok n : 0 <= n <= 2 ^ 63 -> metal_next_pow2 n = 2 ^ Z.log2_up n.
Proof.
  intros Hn. unfold metal_next_pow2. destruct (Z.ltb_spec n 2).
  { assert (n = 0 \/ n = 1) as [-> | ->] by lia; done. }
  rewrite Z.log2_up_eqn, <- Z.sub_1_r by lia.
  set (m := n - 1). assert (Hm : 0 < m < 2 ^ 63) by lia. set (k := Z.log2 m).
  assert (Hk : 0 <= k <= 62).
  { split; [apply Z.log2_nonneg|]. assert (Z.log2 m < 63) by (apply Z.log2_lt_pow2; lia). unfold k. lia. }
  pose proof (filled_log2 m ltac:(lia)) as H0. fold k in H0.
  do 6 (apply filled_step in H0; [|lia|lia]).
  apply filled_ones in H0; [|lia]. cbv zeta. change (2 * 1) with 2 in H0.
  change (2 * 2) with 4 in H0. change (2 * 4) with 8 in H0. change (2 * 8) with 16 in H0. change (2 * 16) with 32 in H0.
  rewrite H0. rewrite u64_small; [unfold m; f_equal; lia|].
  pose proof (Z.pow_le_mono_r 2 (k + 1) 63 ltac:(lia) ltac:(lia)).
  pose proof (Z.pow_pos_nonneg 2 (k + 1)). lia.
Qed.

Lemma next_pow2_bounds n : 2 <= n <= 2 ^ 63 -> n <= metal_next_pow2 n < 2 * n.
Proof.
  intros Hn. rewrite next_pow2_ok by lia. pose proof (Z.log2_up_spec n ltac:(lia)) as [H1 H2].
  pose proof (Z.log2_up_pos n ltac:(lia)). rewrite <- Z.sub_1_r in H1.
  replace (Z.log2_up n) with (Z.log2_up n - 1 + 1) at 2 by lia. rewrite Z.pow_add_r by lia. lia.
Qed.

(** ** FNV-1a *)

Lemma fnv1a_app h a b : metal_fnv1a_step h (a ++ b) = metal_fnv1a_step (metal_fnv1a_step h a) b.
Proof. revert h. induction a; intros h; cbn; auto. Qed.

Lemma fnv1a_range h d : 0 <= h < 2 ^ 64 -> 0 <= metal_fnv1a_step h d < 2 ^ 64.
Proof. revert h. induction d; intros h Hh; cbn; [done|]. apply IHd. apply Z.mod_pos_bound. lia. Qed.

(** Hashing with case folding is hashing the lower-cased bytes. *)
Lemma fnv1a_step_lower_ok h d : metal_fnv1a_step_lower h d = metal_fnv1a_step h (map to_lower d).
Proof. revert h. induction d as [|b d IH]; intros h; [done|]. apply IH. Qed.

Lemma fnv1a_lower_ok d : metal_fnv1a_lower d = metal_fnv1a (map to_lower d).
Proof. apply fnv1a_step_lower_ok. Qed.

(** The vector routines of [simd.h] compute what their scalar definition
    says, on x86-64, on AArch64 and without vectors, for every length, including
    the blocks of 16 and the tail: [metal_lower_simd] replaces exactly the [len]
    bytes at [off] by their ASCII lower case, and [metal_eq_n] is equality of
    the first [len] bytes; neither touches a byte outside those ranges. *)
Theorem simd_matches_scalar ar pre mid post a b len :
  Forall byte_ok mid -> 0 <= len <= zlen a -> len <= zlen b ->
  metal_lower_inplace ar (pre ++ mid ++ post) (zlen pre) (zlen mid) = Ret (pre ++ map to_lower mid ++ post) /\
  metal_eq_n ar a b len = Ret (bool_decide (ztake len a = ztake len b)).
Proof. intros Hm Ha Hb. split; [by apply lower_simd_app|by apply eq_n_ok]. Qed.

Lemma simd_matches_scalar_witness :
  metal_lower_inplace SSE2 ([72; 58] ++ [87; 119; 90; 64; 91; 193; 46; 65; 66; 67; 68; 69; 70; 71; 72; 73; 74; 45] ++ [13]) 2 18 =
    Ret ([72; 58] ++ [119; 119; 122; 64; 91; 193; 46; 97; 98; 99; 100; 101; 102; 103; 104; 105; 106; 45] ++ [13]) /\
  metal_eq_n SSE2 [1; 2] [1; 3] 2 = Ret false.
Proof.
  apply (simd_matches_scalar SSE2 [72; 58] [87; 119; 90; 64; 91; 193; 46; 65; 66; 67; 68; 69; 70; 71; 72; 73; 74; 45] [13] [1; 2] [1; 3] 2).
  - repeat constructor; vm_compute; intuition discriminate.
  - vm_compute; intuition discriminate.
  - vm_compute; intuition discriminate.
Defined.

(** [metal_ieq] is case-insensitive equality on header names.  For every
    header-name constant made of letters and hyphens, of whatever length (each
    of the word-at-a-time fast paths included), and any name on the wire without
    a carriage return, it stays in bounds and answers true exactly when the two
    names agree after lower-casing. *)
Theorem metal_ieq_correct a n name :
  Forall byte_ok a -> Forall (fun c => c <> 0x0d) (ztake n a) -> Forall name_char name -> 0 <= n <= zlen a ->
  metal_ieq a n name (zlen name) = Ret (bool_decide (map to_lower (ztake n a) = map to_lower name)).
Proof. apply ieq_ok. Qed.

Lemma metal_ieq_correct_witness : metal_ieq [72; 79; 83; 84; 58] 4 [72; 111; 115; 116] 4 = Ret true.
Proof.
  apply (metal_ieq_correct [72; 79; 83; 84; 58] 4 [72; 111; 115; 116]).
  - repeat constructor; vm_compute; intuition discriminate.
  - repeat constructor; vm_compute; intuition discriminate.
  - unfold name_char. repeat constructor; lia.
  - vm_compute; intuition discriminate.
Defined.

(** Outside that alphabet the fast paths are coarser than the byte loop:
    "@[]^" and "`{}~" are equal at length 4 and different at length 5. *)
Lemma ieq_fast_path_coarser :
  metal_ieq [0x40; 0x5b; 0x5d; 0x5e] 4 [0x60; 0x7b; 0x7d; 0x7e] 4 = Ret true /\
  metal_ieq [0x40; 0x5b; 0x5d; 0x5e; 0x61] 5 [0x60; 0x7b; 0x7d; 0x7e; 0x61] 5 = Ret false.
Proof. done. Qed.
