(* ===== verification/Iov.v ===== *)
(** * Scatter-gather descriptors

    [userspace/iov.h]: a chain of byte ranges, shared by the dispatch table,
    TCP and the TLS record layer. *)

From Stdlib Require Import ZArith.
From stdpp Require Import list numbers.
From S2P Require Import Prelude.

(** [base] with [len] readable bytes. *)
Record pw_iov_t := mk_iov { iov_base : list Z; iov_len : Z }.

Definition PW_IOV_MAX_FRAGS : Z := 8.

Definition pw_iov_total (iov : list pw_iov_t) : Z := foldl (fun t i => u64 (t + iov_len i)) 0 iov.
