(* ===== verification/Words.v ===== *)
(** * Words and byte strings of the cryptographic code

    Little-endian numbers, 32-bit loads and stores, rotation, the xor of byte
    strings, copies into a buffer, and the split of a message into blocks. *)

From Stdlib Require Import ZArith Lia.
From stdpp Require Import list numbers option.
From S2P Require Import Prelude Util.

(** ** Loads, stores, copies *)

(** [p[0] | p[1] << 8 | p[2] << 16 | p[3] << 24], as [uint32_t]. *)
Definition load_le32 (p : list Z) (off : Z) : res Z :=
  let! b0 := rd p off in
  let! b1 := rd p (off + 1) in
  let! b2 := rd p (off + 2) in
  let! b3 := rd p (off + 3) in
  Ret (Z.lor (Z.lor (Z.lor b0 (u32 (Z.shiftl b1 8))) (u32 (Z.shiftl b2 16))) (u32 (Z.shiftl b3 24))).

(** The four bytes that [store_le32] writes. *)
Definition store_le32 (v : Z) : list Z := [u8 v; u8 (Z.shiftr v 8); u8 (Z.shiftr v 16); u8 (Z.shiftr v 24)].

Definition rotl32 (x n : Z) : Z := Z.lor (u32 (Z.shiftl x n)) (Z.shiftr x (32 - n)).

(** [memcpy(p + off, data, |data|)] *)
Definition blit (p : list Z) (off : Z) (data : list Z) : res (list Z) :=
  if (0 <=? off) && (off + zlen data <=? zlen p) then Ret (ztake off p ++ data ++ padd p (off + zlen data)) else Oob.

(** [for (i = 0; i < n; i++) out[i] = in[i] ^ ks[i];] with [n] the shorter length. *)
Definition xor_bytes (a b : list Z) : list Z := zip_with Z.lxor a b.

(** The bytes of [v], least significant first. *)
Fixpoint le_bytes (n : nat) (v : Z) : list Z :=
  match n with
  | O => []
  | S n' => v mod 256 :: le_bytes n' (v / 256)
  end.

(** A message in blocks of [n] bytes, the last one possibly shorter. *)
Fixpoint chunks_aux (fuel n : nat) (l : list Z) : list (list Z) :=
  match fuel, l with
  | _, [] => []
  | O, _ => []
  | S fuel', _ => take n l :: chunks_aux fuel' n (drop n l)
  end.

Definition chunks (n : nat) (l : list Z) : list (list Z) := chunks_aux (length l) n l.

(** ** Total correctness

    [twp m Q]: [m] returns normally, with a result that satisfies [Q]. *)
Definition twp {A} (m : res A) (Q : A -> Prop) : Prop := match m with Ret a => Q a | _ => False end.

Lemma twp_ret {A} (m : res A) Q : twp m Q -> exists a, m = Ret a /\ Q a.
Proof. destruct m; [by eauto|done..]. Qed.

Lemma twp_bind {A B} (m : res A) (k : A -> res B) Q : twp m (fun a => twp (k a) Q) -> twp (rbind m k) Q.
Proof. by destruct m. Qed.

(** A step of a computation.  As an equation, so that checking the step does
    not compare the two sides by evaluating them. *)
Lemma rbind_Ret {A B} (a : A) (k : A -> res B) : rbind (Ret a) k = k a.
Proof. done. Qed.

Ltac ret := rewrite !rbind_Ret; cbv beta iota.

(** Name the value of the next [let], keeping its equation. *)
Ltac next_let v H :=
  lazymatch goal with
  | |- twp (let x := ?e in @?k x) ?Q => refine ((fun (G : forall v, v = e -> twp (k v) Q) => G e eq_refl) _); intros v H; cbv beta
  end.

(** The bounds of the bytes of an explicit list. *)
Ltac split_bytes :=
  repeat match goal with H : Forall byte_ok (_ :: _) |- _ => let B := fresh "B" in apply Forall_cons_1 in H as [B H] end.

(** A byte string checked by evaluation. *)
Definition bytes_okb (l : list Z) : bool := forallb (fun b => (0 <=? b) && (b <? 256)) l.

Lemma bytes_okb_ok l : bytes_okb l = true -> Forall byte_ok l.
Proof. unfold bytes_okb. rewrite forallb_forall, List.Forall_forall. intros H b Hb. apply H in Hb. unfold byte_ok. lia. Qed.

(** ** Little-endian numbers *)

Lemma le_val_app a b : le_val (a ++ b) = le_val a + 256 ^ zlen a * le_val b.
Proof.
  induction a as [|x a IH]; cbn [app le_val]; [change (zlen []) with 0; lia|].
  rewrite IH, zlen_cons, Z.pow_add_r by (pose proof (zlen_nonneg a); lia). lia.
Qed.

Lemma le_val_bound l : Forall byte_ok l -> 0 <= le_val l < 256 ^ zlen l.
Proof.
  induction 1 as [|b l Hb Hl IH]; [change (zlen []) with 0; cbn [le_val]; lia|].
  cbn [le_val]. rewrite zlen_cons, Z.pow_add_r by (pose proof (zlen_nonneg l); lia). unfold byte_ok in Hb. lia.
Qed.

Lemma length_le_bytes n v : length (le_bytes n v) = n.
Proof. revert v. induction n; intros v; cbn; auto. Qed.

Lemma le_bytes_ok n v : Forall byte_ok (le_bytes n v).
Proof. revert v. induction n; intros v; cbn; constructor; [apply Z.mod_pos_bound; lia|auto]. Qed.

Lemma le_bytes_val l : Forall byte_ok l -> le_bytes (length l) (le_val l) = l.
Proof.
  induction 1 as [|b l Hb Hl IH]; [done|]. cbn [length le_bytes le_val]. unfold byte_ok in Hb.
  rewrite (Z.mul_comm 256), Z.mod_add, Z.div_add, Z.mod_small, Z.div_small, Z.add_0_l by lia. by rewrite IH.
Qed.

Lemma le_val_bytes n v : le_val (le_bytes n v) = v mod 256 ^ Z.of_nat n.
Proof.
  revert v. induction n as [|n IH]; intros v; cbn [le_bytes le_val]; [by rewrite Z.mod_1_r|].
  rewrite IH, Nat2Z.inj_succ, Z.pow_succ_r, (Z.rem_mul_r v 256) by lia. lia.
Qed.

Lemma le_bytes_app n m x y : 0 <= x < 256 ^ Z.of_nat n -> le_bytes (n + m) (x + 256 ^ Z.of_nat n * y) = le_bytes n x ++ le_bytes m y.
Proof.
  revert x. induction n as [|n IH]; intros x Hx.
  { change (256 ^ Z.of_nat 0) with 1 in *. cbn [Nat.add le_bytes app]. f_equal. lia. }
  rewrite Nat2Z.inj_succ, Z.pow_succ_r in * by lia. cbn [Nat.add le_bytes app].
  rewrite <- Z.mul_assoc, (Z.mul_comm 256), Z.mod_add, Z.div_add by lia. f_equal. apply IH.
  split; [apply Z.div_pos; lia|apply Z.div_lt_upper_bound; lia].
Qed.

Lemma le_bytes_mod n v : le_bytes n (v mod 256 ^ Z.of_nat n) = le_bytes n v.
Proof. rewrite <- le_val_bytes. rewrite <- (length_le_bytes n v) at 1. apply le_bytes_val, le_bytes_ok. Qed.

Lemma be_acc_cons b l : be_acc 0 (b :: l) = b * 256 ^ zlen l + be_acc 0 l.
Proof. cbn [be_acc]. rewrite be_acc_shift. lia. Qed.

Lemma be_val_bytes_mod n v : be_acc 0 (be_bytes n v) = v mod 256 ^ Z.of_nat n.
Proof.
  induction n as [|n IH]; [by rewrite Z.mod_1_r|]. cbn [be_bytes]. rewrite be_acc_cons, IH, zlen_be_bytes, Nat2Z.inj_succ, Z.pow_succ_r by lia.
  rewrite (Z.mul_comm 256), Z.rem_mul_r by lia. lia.
Qed.

(** Four words are sixteen bytes. *)
Lemma le_bytes_words f0 f1 f2 f3 :
  0 <= f0 < 2 ^ 32 -> 0 <= f1 < 2 ^ 32 -> 0 <= f2 < 2 ^ 32 ->
  le_bytes 16 (f0 + 2 ^ 32 * f1 + 2 ^ 64 * f2 + 2 ^ 96 * f3) = le_bytes 4 f0 ++ le_bytes 4 f1 ++ le_bytes 4 f2 ++ le_bytes 4 f3.
Proof.
  intros. rewrite <- (le_bytes_app 4 4 f2 f3), <- (le_bytes_app 4 8 f1), <- (le_bytes_app 4 12 f0) by done. f_equal.
  change (256 ^ Z.of_nat 4) with (2 ^ 32). ring.
Qed.

(** A slice of a byte string is a range of the bits of its number. *)
Lemma le_val_sub p off n :
  Forall byte_ok p -> 0 <= off -> 0 <= n -> off + n <= zlen p ->
  le_val (sub p off n) = (le_val p / 256 ^ off) mod 256 ^ n.
Proof.
  intros Hp H1 H2 H3.
  assert (E : p = ztake off p ++ sub p off n ++ padd p (off + n)).
  { unfold sub. rewrite <- (padd_padd p off n) by lia. unfold ztake, padd. by rewrite !take_drop. }
  assert (Hl1 : zlen (ztake off p) = off) by (rewrite zlen_ztake; lia).
  assert (Hl2 : zlen (sub p off n) = n) by (unfold sub; rewrite zlen_ztake, zlen_padd; lia).
  assert (B1 : 0 <= le_val (ztake off p) < 256 ^ off) by (pose proof (le_val_bound (ztake off p) ltac:(auto with pico)) as B; by rewrite Hl1 in B).
  assert (B2 : 0 <= le_val (sub p off n) < 256 ^ n) by (pose proof (le_val_bound (sub p off n) ltac:(unfold sub; auto with pico)) as B; by rewrite Hl2 in B).
  rewrite E at 2. rewrite !le_val_app, Hl1, Hl2.
  rewrite (Z.mul_comm (256 ^ off)), Z.div_add, Z.div_small, Z.add_0_l by lia.
  by rewrite (Z.mul_comm (256 ^ n)), Z.mod_add, Z.mod_small by lia.
Qed.

Lemma sub_split p off n m : 0 <= off -> 0 <= n -> 0 <= m -> sub p off (n + m) = sub p off n ++ sub p (off + n) m.
Proof. intros. unfold sub. rewrite ztake_split, padd_padd by done. done. Qed.

Lemma le_val_word p off : Forall byte_ok p -> 0 <= off -> off + 4 <= zlen p -> 0 <= le_val (sub p off 4) < 2 ^ 32.
Proof. intros Hp H1 H2. pose proof (le_val_bound _ (Forall_sub _ p off 4 Hp)) as B. by rewrite zlen_sub in B by lia. Qed.

(** Sixteen bytes as four words. *)
Lemma le_val_words p off :
  0 <= off -> off + 16 <= zlen p ->
  le_val (sub p off 16) = le_val (sub p off 4) + 2 ^ 32 * le_val (sub p (off + 4) 4) + 2 ^ 64 * le_val (sub p (off + 8) 4) +
    2 ^ 96 * le_val (sub p (off + 12) 4).
Proof.
  intros H1 H2. change 16 with (4 + (4 + (4 + 4))). rewrite !sub_split, !le_val_app, !zlen_sub by lia.
  rewrite <- !Z.add_assoc. change (4 + 4) with 8. change (4 + 8) with 12. change (256 ^ 4) with (2 ^ 32). ring.
Qed.


(** ** Loads and stores *)

Lemma rd_sub p off n i : 0 <= off -> 0 <= i < n -> rd p (off + i) = rd (sub p off n) i.
Proof. intros. rewrite <- (rd_padd p off i) by lia. unfold sub, rd, ztake. rewrite lookup_take_lt by lia. done. Qed.

Lemma rd_at a x b i : i = zlen a -> rd (a ++ x :: b) i = Ret x.
Proof. intros ->. rewrite rd_app_r by lia. by rewrite Z.sub_diag. Qed.

Lemma wr_app a x b v : wr (a ++ x :: b) (zlen a) v = Ret (a ++ v :: b).
Proof.
  rewrite wr_in_bounds by (rewrite zlen_app, zlen_cons; pose proof (zlen_nonneg a); pose proof (zlen_nonneg b); lia).
  unfold zlen. rewrite Nat2Z.id. by rewrite insert_app_r_alt, Nat.sub_diag by lia.
Qed.

Lemma padd_nth p i : 0 <= i < zlen p -> padd p i = nth (Z.to_nat i) p 0 :: padd p (i + 1).
Proof.
  intros H. unfold padd. replace (Z.to_nat (i + 1)) with (S (Z.to_nat i)) by lia. assert (Hk : (Z.to_nat i < length p)%nat) by (unfold zlen in H; lia).
  revert Hk. generalize (Z.to_nat i). clear. induction p as [|x p IH]; intros k Hk; cbn in Hk; [lia|]. destruct k as [|k]; [done|]. apply IH. lia.
Qed.

(** Four bytes at an offset. *)
Lemma rd_four p off :
  0 <= off -> off + 4 <= zlen p ->
  exists b0 b1 b2 b3, sub p off 4 = [b0; b1; b2; b3] /\ rd p off = Ret b0 /\ rd p (off + 1) = Ret b1 /\ rd p (off + 2) = Ret b2 /\ rd p (off + 3) = Ret b3.
Proof.
  intros H1 H2. pose proof (zlen_sub p off 4 H1 ltac:(lia) H2) as Hl. assert (H0 : rd p off = rd (sub p off 4) 0) by (rewrite <- rd_sub by lia; f_equal; lia).
  rewrite H0, (rd_sub p off 4 1), (rd_sub p off 4 2), (rd_sub p off 4 3) by lia. clear H0.
  destruct (sub p off 4) as [|b0 [|b1 [|b2 [|b3 [|]]]]]; try done; [by exists b0, b1, b2, b3|]. unfold zlen in Hl. cbn in Hl. lia.
Qed.

Lemma load_le32_ok p off : Forall byte_ok p -> 0 <= off -> off + 4 <= zlen p -> load_le32 p off = Ret (le_val (sub p off 4)).
Proof.
  intros Hp H1 H2. unfold load_le32.
  destruct (rd_four p off H1 H2) as (b0 & b1 & b2 & b3 & E & -> & -> & -> & ->). cbn [rbind]. rewrite E.
  assert (Hb : Forall byte_ok [b0; b1; b2; b3]) by (rewrite <- E; unfold sub; auto with pico).
  split_bytes. unfold byte_ok, u32 in *. f_equal.
  rewrite !Z.shiftl_mul_pow2, !Z.mod_small by lia. cbn [le_val].
  rewrite (Z.lor_comm b0), (lor_disjoint 8) by lia.
  rewrite (Z.lor_comm _ (b2 * 2 ^ 16)), (lor_disjoint 16) by lia. rewrite (Z.lor_comm _ (b3 * 2 ^ 24)), (lor_disjoint 24) by lia. lia.
Qed.

Lemma store_le32_ok v : store_le32 v = le_bytes 4 v.
Proof. unfold store_le32, u8. cbn [le_bytes]. rewrite !Z.shiftr_div_pow2, !Z.div_div by lia. done. Qed.

(** ** Copies *)

(** Reading at a cursor: what a buffer holds from [p] on. *)
Lemma rd_at_cursor msg p b rest : 0 <= p -> padd msg p = b :: rest -> rd msg p = Ret b.
Proof. intros Hp E. rewrite <- (Z.add_0_r p), <- rd_padd, E by lia. apply rd_cons_0. Qed.

Lemma padd_next msg p a rest : 0 <= p -> padd msg p = a ++ rest -> padd msg (p + zlen a) = rest.
Proof. intros Hp E. pose proof (zlen_nonneg a). rewrite <- padd_padd, E by lia. by apply padd_app. Qed.

Lemma rdn_ok p n : n <= zlen p -> rdn p n = Ret (ztake n p).
Proof. intros. unfold rdn. by replace (n <=? zlen p) with true by lia. Qed.

Lemma length_ztake n p : 0 <= n <= zlen p -> length (ztake n p) = Z.to_nat n.
Proof. intros. unfold ztake. rewrite length_take. unfold zlen in *. lia. Qed.

Lemma split_length {A} n m (a : list A) : length a = (n + m)%nat -> exists x y, a = x ++ y /\ length x = n /\ length y = m.
Proof. intros H. exists (take n a), (drop n a). rewrite take_drop, length_take, length_drop. split_and!; [done|lia..]. Qed.

Lemma u32_range x : 0 <= u32 x < 2 ^ 32.
Proof. apply Z.mod_pos_bound. lia. Qed.

Lemma blit_ok p off data :
  0 <= off -> off + zlen data <= zlen p -> blit p off data = Ret (ztake off p ++ data ++ padd p (off + zlen data)).
Proof. intros. unfold blit. replace (0 <=? off) with true by lia. by replace (_ <=? zlen p) with true by lia. Qed.

(** Overwriting a part of a buffer by as many bytes. *)
Lemma blit_at a b c off d : off = zlen a -> zlen b = zlen d -> blit (a ++ b ++ c) off d = Ret (a ++ d ++ c).
Proof.
  intros -> Hd. pose proof (zlen_nonneg a). pose proof (zlen_nonneg c). rewrite blit_ok by (rewrite ?zlen_app; lia).
  rewrite ztake_app by done. do 3 f_equal. rewrite app_assoc. apply padd_app. rewrite zlen_app. lia.
Qed.

Lemma blit_start b c d : zlen b = zlen d -> blit (b ++ c) 0 d = Ret (d ++ c).
Proof. intros. by apply (blit_at []). Qed.

(** Writing behind what has been written. *)
Lemma blit_next out w off d :
  off = zlen w -> zlen w + zlen d <= zlen out -> blit (w ++ padd out (zlen w)) off d = Ret ((w ++ d) ++ padd out (zlen (w ++ d))).
Proof.
  intros -> H. pose proof (zlen_nonneg w). pose proof (zlen_nonneg d). rewrite zlen_app.
  rewrite blit_ok by (rewrite ?zlen_app, ?zlen_padd; lia). rewrite ztake_app, <- app_assoc by done. do 3 f_equal.
  rewrite <- (padd_padd _ (zlen w)) by lia. rewrite padd_app by done. by rewrite padd_padd by lia.
Qed.

Lemma wr_blit p i v : 0 <= i < zlen p -> wr p i v = blit p i [v].
Proof.
  intros H. rewrite wr_in_bounds by done. change (zlen [v]) with 1 in *. rewrite blit_ok by (change (zlen [v]) with 1; lia). f_equal.
  rewrite insert_take_drop by (unfold zlen in H; lia). unfold ztake, padd. change (zlen [v]) with 1. do 3 f_equal. lia.
Qed.

Lemma wr_next out w off v :
  off = zlen w -> zlen w < zlen out -> wr (w ++ padd out (zlen w)) off v = Ret ((w ++ [v]) ++ padd out (zlen (w ++ [v]))).
Proof.
  intros -> H. pose proof (zlen_nonneg w). rewrite wr_blit by (rewrite zlen_app, zlen_padd; lia). apply blit_next; [done|]. change (zlen [v]) with 1. lia.
Qed.

Lemma padd_sub p off n : 0 <= off -> 0 <= n -> padd p off = sub p off n ++ padd p (off + n).
Proof. intros. rewrite <- padd_padd by done. unfold sub, ztake, padd. by rewrite take_drop. Qed.

Lemma sub_sub p off n i k : 0 <= off -> 0 <= i -> 0 <= k -> i + k <= n -> sub (sub p off n) i k = sub p (off + i) k.
Proof.
  intros. unfold sub. rewrite <- padd_padd by lia. generalize (padd p off). intros q. unfold ztake, padd. rewrite skipn_firstn_comm, take_take. f_equal. lia.
Qed.

(** A buffer of at least [n] bytes. *)
Lemma split_buffer n (p : list Z) : 0 <= n <= zlen p -> exists a b, p = a ++ b /\ zlen a = n.
Proof. intros H. exists (ztake n p), (padd p n). unfold ztake, padd. rewrite take_drop. split; [done|]. change (zlen (ztake n p) = n). rewrite zlen_ztake; lia. Qed.

Lemma length_xor_bytes a b : length (xor_bytes a b) = (length a `min` length b)%nat.
Proof. apply length_zip_with. Qed.

Lemma lxor_bound k a b : 0 <= a < 2 ^ k -> 0 <= b < 2 ^ k -> 0 <= Z.lxor a b < 2 ^ k.
Proof.
  intros Ha Hb. assert (Hn : 0 <= Z.lxor a b) by (apply Z.lxor_nonneg; lia). split; [done|].
  destruct (decide (Z.lxor a b = 0)) as [->|H0]; [lia|]. apply Z.log2_lt_pow2; [lia|]. pose proof (Z.log2_lxor a b ltac:(lia) ltac:(lia)).
  assert (Hk : 0 < k) by (destruct (Z.le_gt_cases k 0) as [Hk|]; [|done]; destruct (decide (k = 0)) as [->|]; [change (2 ^ 0) with 1 in *; replace a with 0 in * by lia; replace b with 0 in * by lia; done|rewrite Z.pow_neg_r in * by lia; lia]).
  assert (Hl : forall x, 0 <= x < 2 ^ k -> Z.log2 x < k).
  { intros x Hx. destruct (decide (x = 0)) as [->|]; [done|]. apply Z.log2_lt_pow2; lia. }
  pose proof (Hl a Ha). pose proof (Hl b Hb). lia.
Qed.

Lemma lxor_byte a b : byte_ok a -> byte_ok b -> byte_ok (Z.lxor a b).
Proof. apply (lxor_bound 8). Qed.

Lemma xor_bytes_ok a b : Forall byte_ok a -> Forall byte_ok b -> Forall byte_ok (xor_bytes a b).
Proof.
  intros Ha. revert b. induction Ha; intros b Hb; [constructor|]. destruct Hb; [constructor|]. cbn. constructor; [by apply lxor_byte|].
  by apply IHHa.
Qed.

(** Xor with the same bytes twice. *)
Lemma xor_bytes_twice a b : (length a <= length b)%nat -> xor_bytes (xor_bytes a b) b = a.
Proof.
  revert b. induction a as [|x a IH]; intros b H; [done|]. destruct b as [|y b]; [cbn in H; lia|]. cbn. f_equal; [|apply IH; cbn in H; lia].
  by rewrite Z.lxor_assoc, Z.lxor_nilpotent, Z.lxor_0_r.
Qed.

Lemma xor_bytes_app a b c d : length a = length c -> xor_bytes (a ++ b) (c ++ d) = xor_bytes a c ++ xor_bytes b d.
Proof. intros. by apply zip_with_app. Qed.

Lemma xor_bytes_short a b : xor_bytes a b = xor_bytes a (take (length a) b).
Proof. revert b. induction a as [|x a IH]; intros b; [done|]. destruct b as [|y b]; [done|]. cbn. f_equal. apply IH. Qed.

(** ** Blocks *)

Lemma chunks_aux_fuel f g n l : (0 < n)%nat -> (length l <= f)%nat -> (length l <= g)%nat -> chunks_aux f n l = chunks_aux g n l.
Proof.
  intros Hn. revert g l. induction f as [|f IH]; intros g l Hf Hg; (destruct l as [|b l]; [by destruct g|]); [cbn in Hf; lia|].
  destruct g as [|g]; [cbn in Hg; lia|]. cbn [chunks_aux]. f_equal. apply IH; rewrite length_drop; cbn in *; lia.
Qed.

Lemma chunks_nil n : chunks n [] = [].
Proof. done. Qed.

Lemma chunks_cons n a b : (0 < n)%nat -> length a = n -> chunks n (a ++ b) = a :: chunks n b.
Proof.
  intros Hn Ha. unfold chunks. destruct a as [|x a]; [cbn in Ha; lia|]. cbn [app length chunks_aux].
  rewrite app_comm_cons, take_app_length', drop_app_length' by done. f_equal. apply chunks_aux_fuel; rewrite ?length_app; lia.
Qed.

Lemma chunks_last n a : a <> [] -> (length a <= n)%nat -> chunks n a = [a].
Proof.
  intros Ha Hl. unfold chunks. destruct a as [|x a]; [done|]. cbn [length chunks_aux].
  rewrite take_ge, drop_ge by (cbn in *; lia). by destruct (length a).
Qed.

(** Splitting at a block boundary. *)
Lemma chunks_app n k a b : (0 < n)%nat -> length a = (k * n)%nat -> chunks n (a ++ b) = chunks n a ++ chunks n b.
Proof.
  intros Hn. revert a. induction k as [|k IH]; intros a Ha; [by destruct a|].
  assert (H1 : length (take n a) = n) by (rewrite length_take; lia). assert (H2 : length (drop n a) = (k * n)%nat) by (rewrite length_drop; lia).
  rewrite <- (take_drop n a). generalize dependent (drop n a). generalize dependent (take n a). intros a1 H1 a2 H2.
  rewrite <- app_assoc, (chunks_cons n a1 (a2 ++ b)), (chunks_cons n a1 a2), IH by done. done.
Qed.

(** Zeros up to a multiple of 16 bytes. *)
Definition pad16 (m : list Z) : list Z := replicate (Z.to_nat (- zlen m mod 16)) 0.

(** ** Counter mode

    A message in blocks of [n] bytes, each xored with the keystream block of
    its counter.  The counter is a 32-bit word and wraps. *)

Lemma u32_add_l a b : u32 (u32 a + b) = u32 (a + b).
Proof. unfold u32. by rewrite Zplus_mod_idemp_l. Qed.

Section counter_mode.
  Context (n : nat) (block : Z -> list Z).
  Context (Hn : (0 < n)%nat) (Hblock : forall c, length (block c) = n).

Fixpoint ctr_blocks (c : Z) (bs : list (list Z)) : list Z :=
  match bs with
  | [] => []
  | b :: bs' => xor_bytes b (block c) ++ ctr_blocks (u32 (c + 1)) bs'
  end.

Definition ctr (c : Z) (msg : list Z) : list Z := ctr_blocks c (chunks n msg).

Lemma ctr_nil c : ctr c [] = [].
Proof. done. Qed.

Lemma ctr_cons c a b : length a = n -> ctr c (a ++ b) = xor_bytes a (block c) ++ ctr (u32 (c + 1)) b.
Proof using Hn. intros. unfold ctr. by rewrite chunks_cons. Qed.

Lemma ctr_short c a : (length a <= n)%nat -> ctr c a = xor_bytes a (block c).
Proof using Hn.
  intros. destruct a as [|x a]; [done|]. unfold ctr. rewrite chunks_last by done. cbn [ctr_blocks]. by rewrite app_nil_r.
Qed.

(** Induction on the blocks of a message. *)
Lemma blocks_ind (P : list Z -> Prop) :
  (forall a, (length a <= n)%nat -> P a) -> (forall a b, length a = n -> P b -> P (a ++ b)) -> forall m, P m.
Proof using Hn.
  intros H1 H2 m. induction m as [m IH] using (induction_ltof1 _ (@length Z)). unfold ltof in IH.
  destruct (decide (length m <= n)%nat); [auto|]. rewrite <- (take_drop n m). apply H2; [rewrite length_take; lia|].
  apply IH. rewrite length_drop. lia.
Qed.

Lemma length_ctr c m : length (ctr c m) = length m.
Proof using Hn Hblock.
  revert c. induction m as [m Hm|a b Ha IH] using blocks_ind; intros c.
  - rewrite ctr_short, length_xor_bytes, Hblock by done. lia.
  - rewrite ctr_cons, !length_app, IH, length_xor_bytes, Hblock by done. lia.
Qed.

(** Applying the keystream twice gives the message back. *)
Lemma ctr_twice c m : ctr c (ctr c m) = m.
Proof using Hn Hblock.
  revert c. induction m as [m Hm|a b Ha IH] using blocks_ind; intros c.
  - rewrite (ctr_short c m), ctr_short by (rewrite ?length_xor_bytes; lia). apply xor_bytes_twice. rewrite Hblock. lia.
  - rewrite (ctr_cons c a b), ctr_cons, IH by (rewrite ?length_xor_bytes, ?Hblock; lia).
    by rewrite xor_bytes_twice by (rewrite Hblock; lia).
Qed.

Lemma ctr_byte_ok c m : (forall c, Forall byte_ok (block c)) -> Forall byte_ok m -> Forall byte_ok (ctr c m).
Proof using Hn.
  intros Hb. revert c. induction m as [m Hm|a b Ha IH] using blocks_ind; intros c H.
  - rewrite ctr_short by done. by apply xor_bytes_ok.
  - apply Forall_app in H as [? ?]. rewrite ctr_cons, Forall_app by done. split; [by apply xor_bytes_ok|auto].
Qed.

(** Splitting at a block boundary advances the counter. *)
Lemma ctr_app k c a b : 0 <= c < 2 ^ 32 -> length a = (k * n)%nat -> ctr c (a ++ b) = ctr c a ++ ctr (u32 (c + Z.of_nat k)) b.
Proof using Hn.
  revert c a. induction k as [|k IH]; intros c a Hc Ha.
  { destruct a; [|done]. by rewrite Z.add_0_r, u32_small. }
  assert (H1 : length (take n a) = n) by (rewrite length_take; lia). assert (H2 : length (drop n a) = (k * n)%nat) by (rewrite length_drop; lia).
  rewrite <- (take_drop n a). generalize dependent (drop n a). generalize dependent (take n a). intros a1 H1 a2 H2.
  rewrite <- app_assoc, (ctr_cons c a1 (a2 ++ b)), (ctr_cons c a1 a2), <- app_assoc by done. f_equal.
  rewrite IH by (try done; apply Z.mod_pos_bound; lia). rewrite u32_add_l. do 3 f_equal. lia.
Qed.

(** Continuing within a block uses the rest of its keystream. *)
Lemma ctr_within k c f t m :
  0 <= c < 2 ^ 32 -> length f = (k * n)%nat -> (length t + length m <= n)%nat ->
  ctr c ((f ++ t) ++ m) = ctr c (f ++ t) ++ xor_bytes m (drop (length t) (block (u32 (c + Z.of_nat k)))).
Proof using Hn Hblock.
  intros Hc Hf Ht. rewrite <- app_assoc, (ctr_app k c f (t ++ m)), (ctr_app k c f t) by done.
  rewrite <- app_assoc, (ctr_short _ (t ++ m)), (ctr_short _ t) by (rewrite ?length_app; lia). f_equal.
  set (ks := block _). assert (Hks : length ks = n) by apply Hblock.
  rewrite <- (take_drop (length t) ks) at 1. rewrite xor_bytes_app by (rewrite length_take; lia). by rewrite <- xor_bytes_short.
Qed.
End counter_mode.
