(* ===== verification/Poly1305.v ===== *)
(** * Poly1305

    [userspace/crypto/poly1305.c]: the one-time authenticator with five 26-bit
    limbs and 32- and 64-bit arithmetic.  The theorems relate it to arithmetic
    modulo 2^130 - 5: no intermediate value overflows its width, every block
    multiplies the accumulator by the clamped key, and the tag does not depend
    on how the message was cut into [poly1305_update] calls. *)

From Stdlib Require Import ZArith Lia.
From stdpp Require Import list numbers option.
From S2P Require Import Prelude Util Words.

Definition U8TO32_LE : list Z -> Z -> res Z := load_le32.
Definition U32TO8_LE : Z -> list Z := store_le32.

(** [uint32_t x[5]] *)
Record limbs := mk_limbs { l0 : Z; l1 : Z; l2 : Z; l3 : Z; l4 : Z }.

Record poly1305_ctx_t := mk_poly {
  p_r : limbs;
  p_s : Z * Z * Z * Z;
  p_h : limbs;
  p_buf : list Z;
  p_buf_len : Z
}.

(** [ctx->h = h] and [ctx->buf = buf, ctx->buf_len = n]. *)
Definition set_h (ctx : poly1305_ctx_t) (h : limbs) : poly1305_ctx_t := mk_poly (p_r ctx) (p_s ctx) h (p_buf ctx) (p_buf_len ctx).
Definition set_buf (ctx : poly1305_ctx_t) (buf : list Z) (n : Z) : poly1305_ctx_t := mk_poly (p_r ctx) (p_s ctx) (p_h ctx) buf n.

Definition poly1305_init (ctx : poly1305_ctx_t) (key : list Z) : res poly1305_ctx_t :=
  let! k0 := U8TO32_LE key 0 in
  let! k3 := U8TO32_LE key 3 in
  let! k6 := U8TO32_LE key 6 in
  let! k9 := U8TO32_LE key 9 in
  let! k12 := U8TO32_LE key 12 in
  let r := mk_limbs (Z.land k0 0x03ffffff) (Z.land (Z.shiftr k3 2) 0x03ffff03) (Z.land (Z.shiftr k6 4) 0x03ffc0ff)
             (Z.land (Z.shiftr k9 6) 0x03f03fff) (Z.land (Z.shiftr k12 8) 0x000fffff) in
  let! s0 := U8TO32_LE key 16 in
  let! s1 := U8TO32_LE key 20 in
  let! s2 := U8TO32_LE key 24 in
  let! s3 := U8TO32_LE key 28 in
  Ret (mk_poly r (s0, s1, s2, s3) (mk_limbs 0 0 0 0 0) (p_buf ctx) 0).

(** One round of the loop of [poly1305_blocks]. *)
Definition block_step (r h : limbs) (m : list Z) (hibit_present : bool) : res limbs :=
  let '(mk_limbs r0 r1 r2 r3 r4) := r in
  let s1 := u32 (r1 * 5) in let s2 := u32 (r2 * 5) in let s3 := u32 (r3 * 5) in let s4 := u32 (r4 * 5) in
  let! m0 := U8TO32_LE m 0 in
  let! m1 := U8TO32_LE m 3 in
  let! m2 := U8TO32_LE m 6 in
  let! m3 := U8TO32_LE m 9 in
  let! m4 := U8TO32_LE m 12 in
  let h0 := u32 (l0 h + Z.land m0 0x03ffffff) in
  let h1 := u32 (l1 h + Z.land (Z.shiftr m1 2) 0x03ffffff) in
  let h2 := u32 (l2 h + Z.land (Z.shiftr m2 4) 0x03ffffff) in
  let h3 := u32 (l3 h + Z.land (Z.shiftr m3 6) 0x03ffffff) in
  let h4 := u32 (l4 h + Z.lor (Z.shiftr m4 8) (if hibit_present then 2 ^ 24 else 0)) in
  let d0 := u64 (h0 * r0 + h1 * s4 + h2 * s3 + h3 * s2 + h4 * s1) in
  let d1 := u64 (h0 * r1 + h1 * r0 + h2 * s4 + h3 * s3 + h4 * s2) in
  let d2 := u64 (h0 * r2 + h1 * r1 + h2 * r0 + h3 * s4 + h4 * s3) in
  let d3 := u64 (h0 * r3 + h1 * r2 + h2 * r1 + h3 * r0 + h4 * s4) in
  let d4 := u64 (h0 * r4 + h1 * r3 + h2 * r2 + h3 * r1 + h4 * r0) in
  let c := u32 (Z.shiftr d0 26) in let h0 := Z.land (u32 d0) 0x03ffffff in
  let d1 := u64 (d1 + c) in
  let c := u32 (Z.shiftr d1 26) in let h1 := Z.land (u32 d1) 0x03ffffff in
  let d2 := u64 (d2 + c) in
  let c := u32 (Z.shiftr d2 26) in let h2 := Z.land (u32 d2) 0x03ffffff in
  let d3 := u64 (d3 + c) in
  let c := u32 (Z.shiftr d3 26) in let h3 := Z.land (u32 d3) 0x03ffffff in
  let d4 := u64 (d4 + c) in
  let c := u32 (Z.shiftr d4 26) in let h4 := Z.land (u32 d4) 0x03ffffff in
  let h0 := u32 (h0 + u32 (c * 5)) in
  let c := Z.shiftr h0 26 in let h0 := Z.land h0 0x03ffffff in
  let h1 := u32 (h1 + c) in
  Ret (mk_limbs h0 h1 h2 h3 h4).

(** [while (bytes >= 16)]; [bytes / 16] rounds. *)
Fixpoint blocks_loop (fuel : nat) (r h : limbs) (m : list Z) (bytes : Z) (hibit_present : bool) : res limbs :=
  if 16 <=? bytes then
    match fuel with
    | O => Oob
    | S fuel' => let! h := block_step r h m hibit_present in blocks_loop fuel' r h (padd m 16) (bytes - 16) hibit_present
    end
  else Ret h.

Definition poly1305_blocks (ctx : poly1305_ctx_t) (m : list Z) (bytes : Z) (hibit_present : bool) : res poly1305_ctx_t :=
  let! h := blocks_loop (Z.to_nat bytes) (p_r ctx) (p_h ctx) m bytes hibit_present in Ret (set_h ctx h).

(** Fill the partial-block buffer first. *)
Definition fill_buffer (ctx : poly1305_ctx_t) (msg : list Z) (len : Z) : res (poly1305_ctx_t * list Z * Z) :=
  if p_buf_len ctx =? 0 then Ret (ctx, msg, len)
  else
    let want := u64 (16 - p_buf_len ctx) in
    let take := if len <? want then len else want in
    let! src := rdn msg take in
    let! buf := blit (p_buf ctx) (p_buf_len ctx) src in
    let ctx := set_buf ctx buf (u64 (p_buf_len ctx + take)) in
    if p_buf_len ctx =? 16 then
      let! ctx := poly1305_blocks ctx buf 16 true in Ret (set_buf ctx (p_buf ctx) 0, padd msg take, len - take)
    else Ret (ctx, padd msg take, len - take).

(** Full blocks straight from the input. *)
Definition bulk_blocks (ctx : poly1305_ctx_t) (msg : list Z) (len : Z) : res (poly1305_ctx_t * list Z * Z) :=
  if 16 <=? len then
    let bulk := Z.land len (UINT64_MAX - 15) in
    let! ctx := poly1305_blocks ctx msg bulk true in
    Ret (ctx, padd msg bulk, len - bulk)
  else Ret (ctx, msg, len).

Definition poly1305_update (ctx : poly1305_ctx_t) (msg : list Z) (len : Z) : res poly1305_ctx_t :=
  if len =? 0 then Ret ctx
  else
    let! (ctx, msg, len) := fill_buffer ctx msg len in
    let! (ctx, msg, len) := bulk_blocks ctx msg len in
    if len =? 0 then Ret ctx
    else
      let! src := rdn msg len in
      let! buf := blit (p_buf ctx) (p_buf_len ctx) src in
      Ret (set_buf ctx buf (u64 (p_buf_len ctx + len))).

(** The zeros that [secure_zero(ctx, sizeof *ctx)] leaves. *)
Definition poly_zero : poly1305_ctx_t :=
  mk_poly (mk_limbs 0 0 0 0 0) (0, 0, 0, 0) (mk_limbs 0 0 0 0 0) (replicate 16 0) 0.

(** Carry through the limbs once more. *)
Definition final_carry (h : limbs) : limbs :=
  let '(mk_limbs h0 h1 h2 h3 h4) := h in
  let c := Z.shiftr h1 26 in let h1 := Z.land h1 0x03ffffff in let h2 := u32 (h2 + c) in
  let c := Z.shiftr h2 26 in let h2 := Z.land h2 0x03ffffff in let h3 := u32 (h3 + c) in
  let c := Z.shiftr h3 26 in let h3 := Z.land h3 0x03ffffff in let h4 := u32 (h4 + c) in
  let c := Z.shiftr h4 26 in let h4 := Z.land h4 0x03ffffff in let h0 := u32 (h0 + u32 (c * 5)) in
  let c := Z.shiftr h0 26 in let h0 := Z.land h0 0x03ffffff in let h1 := u32 (h1 + c) in
  mk_limbs h0 h1 h2 h3 h4.

(** [g = h + 5 - 2^130]; select [h] if that underflows, else [g]. *)
Definition final_select (h : limbs) : limbs :=
  let '(mk_limbs h0 h1 h2 h3 h4) := h in
  let g0 := u32 (h0 + 5) in
  let c := Z.shiftr g0 26 in let g0 := Z.land g0 0x03ffffff in
  let g1 := u32 (h1 + c) in
  let c := Z.shiftr g1 26 in let g1 := Z.land g1 0x03ffffff in
  let g2 := u32 (h2 + c) in
  let c := Z.shiftr g2 26 in let g2 := Z.land g2 0x03ffffff in
  let g3 := u32 (h3 + c) in
  let c := Z.shiftr g3 26 in let g3 := Z.land g3 0x03ffffff in
  let g4 := u32 (h4 + c - 2 ^ 26) in
  let mask := u32 (Z.shiftr g4 31 - 1) in
  let nmask := u32 (Z.lnot mask) in
  mk_limbs (Z.lor (Z.land h0 nmask) (Z.land g0 mask)) (Z.lor (Z.land h1 nmask) (Z.land g1 mask))
    (Z.lor (Z.land h2 nmask) (Z.land g2 mask)) (Z.lor (Z.land h3 nmask) (Z.land g3 mask)) (Z.lor (Z.land h4 nmask) (Z.land g4 mask)).

(** The accumulator as four words, and [s] added to them. *)
Definition final_words (h : limbs) (s : Z * Z * Z * Z) : Z * Z * Z * Z :=
  let '(mk_limbs h0 h1 h2 h3 h4) := h in
  let f0 := Z.lor h0 (u32 (Z.shiftl h1 26)) in
  let f1 := Z.lor (Z.shiftr h1 6) (u32 (Z.shiftl h2 20)) in
  let f2 := Z.lor (Z.shiftr h2 12) (u32 (Z.shiftl h3 14)) in
  let f3 := Z.lor (Z.shiftr h3 18) (u32 (Z.shiftl h4 8)) in
  let '(s0, s1, s2, s3) := s in
  let f := u64 (f0 + s0) in let f0 := u32 f in
  let f := u64 (f1 + s1 + Z.shiftr f 32) in let f1 := u32 f in
  let f := u64 (f2 + s2 + Z.shiftr f 32) in let f2 := u32 f in
  let f := u64 (f3 + s3 + Z.shiftr f 32) in let f3 := u32 f in
  (f0, f1, f2, f3).

Definition final_tag (h : limbs) (s : Z * Z * Z * Z) : list Z :=
  let '(f0, f1, f2, f3) := final_words (final_select (final_carry h)) s in
  U32TO8_LE f0 ++ U32TO8_LE f1 ++ U32TO8_LE f2 ++ U32TO8_LE f3.

(** The tag and the context it leaves. *)
Definition poly1305_finish (ctx : poly1305_ctx_t) : res (list Z * poly1305_ctx_t) :=
  let! ctx :=
    (if p_buf_len ctx =? 0 then Ret ctx
     else
       let! buf := wr (p_buf ctx) (p_buf_len ctx) 1 in
       let! buf := blit buf (p_buf_len ctx + 1) (replicate (Z.to_nat (15 - p_buf_len ctx)) 0) in
       let! ctx := poly1305_blocks (set_buf ctx buf (p_buf_len ctx)) buf 16 false in
       Ret (set_buf ctx (p_buf ctx) 0)) in
  Ret (final_tag (p_h ctx) (p_s ctx), poly_zero).

Definition poly1305 (ctx : poly1305_ctx_t) (key msg : list Z) (len : Z) : res (list Z) :=
  let! ctx := poly1305_init ctx key in
  let! ctx := poly1305_update ctx msg len in
  let! (tag, _) := poly1305_finish ctx in
  Ret tag.

(** ** The reference definition *)

Definition P1305 : Z := 2 ^ 130 - 5.
Definition poly_r (key : list Z) : Z := Z.land (le_val (sub key 0 16)) 0x0ffffffc0ffffffc0ffffffc0fffffff.
Definition poly_s (key : list Z) : Z := le_val (sub key 16 16).

(** One block: append a 1 bit behind the bytes, add, multiply. *)
Definition poly_block (r acc : Z) (b : list Z) : Z := ((acc + le_val (b ++ [1])) * r) mod P1305.
Definition poly_acc (r : Z) (msg : list Z) : Z := foldl (poly_block r) 0 (chunks 16 msg).
Definition poly_tag (key msg : list Z) : list Z := le_bytes 16 (poly_acc (poly_r key) msg + poly_s key).

(** RFC 8439, section 2.5.2. *)
Definition rfc_key : list Z :=
  [0x85;0xd6;0xbe;0x78;0x57;0x55;0x6d;0x33;0x7f;0x44;0x52;0xfe;0x42;0xd5;0x06;0xa8;
   0x01;0x03;0x80;0x8a;0xfb;0x0d;0xb2;0xfd;0x4a;0xbf;0xf6;0xaf;0x41;0x49;0xf5;0x1b].
Definition rfc_msg : list Z :=
  [0x43;0x72;0x79;0x70;0x74;0x6f;0x67;0x72;0x61;0x70;0x68;0x69;0x63;0x20;0x46;0x6f;0x72;0x75;0x6d;0x20;
   0x52;0x65;0x73;0x65;0x61;0x72;0x63;0x68;0x20;0x47;0x72;0x6f;0x75;0x70].
Definition rfc_tag : list Z := [0xa8;0x06;0x1d;0xc1;0x30;0x51;0x36;0xc6;0xc2;0x2b;0x8b;0xaf;0x0c;0x01;0x27;0xa9].

Lemma rfc_vector : poly1305 poly_zero rfc_key rfc_msg 34 = Ret rfc_tag /\ poly_tag rfc_key rfc_msg = rfc_tag.
Proof. by vm_compute. Qed.

(** ** Limbs *)

Definition fe_val (h : limbs) : Z := l0 h + 2 ^ 26 * l1 h + 2 ^ 52 * l2 h + 2 ^ 78 * l3 h + 2 ^ 104 * l4 h.

(** The accumulator between blocks: only limb 1 may exceed 26 bits, by a little. *)
Definition h_ok (h : limbs) : Prop :=
  0 <= l0 h < 2 ^ 26 /\ 0 <= l1 h < 2 ^ 26 + 64 /\ 0 <= l2 h < 2 ^ 26 /\ 0 <= l3 h < 2 ^ 26 /\ 0 <= l4 h < 2 ^ 26.

Definition r_ok (r : limbs) : Prop :=
  0 <= l0 r < 2 ^ 26 /\ 0 <= l1 r < 2 ^ 26 /\ 0 <= l2 r < 2 ^ 26 /\ 0 <= l3 r < 2 ^ 26 /\ 0 <= l4 r < 2 ^ 26.

(** A shifted and masked 32-bit load is a range of bits. *)
Lemma limb_bits M a k j :
  0 <= a -> 0 <= k -> 0 <= j -> k + j <= 32 -> Z.land (Z.shiftr ((M / 2 ^ a) mod 2 ^ 32) k) (Z.ones j) = (M / 2 ^ (a + k)) mod 2 ^ j.
Proof.
  intros. apply Z.bits_inj'. intros i Hi. rewrite Z.land_spec, Z.shiftr_spec by done.
  rewrite Z.testbit_ones_nonneg by lia. destruct (Z.ltb_spec i j).
  - rewrite !Z.mod_pow2_bits_low, !Z.div_pow2_bits by lia. rewrite andb_true_r. f_equal. lia.
  - rewrite andb_false_r, Z.mod_pow2_bits_high by lia. done.
Qed.

Lemma load_limb m off k j :
  Forall byte_ok m -> 16 <= zlen m -> 0 <= off <= 12 -> 0 <= k -> 0 <= j -> k + j <= 32 ->
  exists v, U8TO32_LE m off = Ret v /\ 0 <= v < 2 ^ 32 /\
    Z.land (Z.shiftr v k) (Z.ones j) = (le_val (ztake 16 m) / 2 ^ (8 * off + k)) mod 2 ^ j.
Proof.
  intros Hm Hl Ho Hk Hj Hkj. assert (Hz : zlen (ztake 16 m) = 16) by (rewrite zlen_ztake; lia).
  assert (E : le_val (sub m off 4) = (le_val (ztake 16 m) / 2 ^ (8 * off)) mod 2 ^ 32).
  { replace (sub m off 4) with (sub (ztake 16 m) off 4).
    - rewrite le_val_sub by (auto with pico; lia). rewrite Z.pow_mul_r by lia. done.
    - unfold sub, ztake, padd. rewrite skipn_firstn_comm, take_take. f_equal. lia. }
  eexists. split; [apply load_le32_ok; (done || lia)|]. rewrite E. split; [by apply Z.mod_pos_bound|].
  apply limb_bits; lia.
Qed.

Lemma land_split k a b c d :
  0 <= k -> 0 <= a < 2 ^ k -> 0 <= c < 2 ^ k -> Z.land (a + 2 ^ k * b) (c + 2 ^ k * d) = Z.land a c + 2 ^ k * Z.land b d.
Proof.
  intros Hk Ha Hc. assert (Hac : 0 <= Z.land a c < 2 ^ k).
  { rewrite <- (Z.mod_small c (2 ^ k)), <- Z.land_ones, Z.land_assoc, Z.land_ones by lia. by apply Z.mod_pos_bound, Z.pow_pos_nonneg. }
  rewrite !(Z.add_comm _ (2 ^ k * _)), !(Z.mul_comm (2 ^ k)), <- !lor_disjoint by done.
  apply Z.bits_inj'. intros i Hi. rewrite !Z.lor_spec, !Z.land_spec, !Z.lor_spec.
  destruct (Z.ltb_spec i k).
  - rewrite !Z.mul_pow2_bits_low by done. done.
  - rewrite (testbit_small a k i), (testbit_small c k i) by lia. rewrite !Z.mul_pow2_bits, Z.land_spec by lia. by rewrite !orb_false_r.
Qed.

(** A number in base 2^26. *)
Lemma limbs_sum M :
  M = M mod 2 ^ 26 + 2 ^ 26 * ((M / 2 ^ 26) mod 2 ^ 26 + 2 ^ 26 * ((M / 2 ^ 52) mod 2 ^ 26 + 2 ^ 26 * ((M / 2 ^ 78) mod 2 ^ 26 + 2 ^ 26 * (M / 2 ^ 104)))).
Proof.
  assert (E : forall k, 0 <= k -> M / 2 ^ k = (M / 2 ^ k) mod 2 ^ 26 + 2 ^ 26 * (M / 2 ^ (k + 26))).
  { intros k Hk. rewrite Z.pow_add_r, <- Z.div_div by lia. pose proof (Z.div_mod (M / 2 ^ k) (2 ^ 26)). lia. }
  pose proof (E 0 ltac:(lia)) as E0. pose proof (E 26 ltac:(lia)) as E1. pose proof (E 52 ltac:(lia)) as E2.
  pose proof (E 78 ltac:(lia)) as E3. change (0 + 26) with 26 in *. change (26 + 26) with 52 in *.
  change (52 + 26) with 78 in *. change (78 + 26) with 104 in *. change (2 ^ 0) with 1 in *. rewrite Z.div_1_r in E0. lia.
Qed.

(** ** One block *)

(** What masking and carrying do to a limb. *)
Lemma carry64 d : 0 <= d < 2 ^ 58 -> u32 (Z.shiftr d 26) = d / 2 ^ 26 /\ Z.land (u32 d) 0x03ffffff = d mod 2 ^ 26.
Proof.
  intros Hd. rewrite Z.shiftr_div_pow2 by lia. split; [apply u32_small; split; [apply Z.div_pos; lia|apply Z.div_lt_upper_bound; lia]|].
  change 0x03ffffff with (Z.ones 26). rewrite Z.land_ones by lia. unfold u32. dlia.
Qed.

Lemma carry32 h : 0 <= h -> Z.shiftr h 26 = h / 2 ^ 26 /\ Z.land h 0x03ffffff = h mod 2 ^ 26.
Proof. intros. change 0x03ffffff with (Z.ones 26). by rewrite Z.shiftr_div_pow2, Z.land_ones by lia. Qed.

Lemma prod_bound a b A B : 0 <= a <= A -> 0 <= b <= B -> 0 <= a * b <= A * B.
Proof. nia. Qed.

(** The carries behind the multiplication. *)
Definition carry_chain (d0 d1 d2 d3 d4 : Z) : res limbs :=
  let c := u32 (Z.shiftr d0 26) in let h0 := Z.land (u32 d0) 0x03ffffff in
  let d1 := u64 (d1 + c) in
  let c := u32 (Z.shiftr d1 26) in let h1 := Z.land (u32 d1) 0x03ffffff in
  let d2 := u64 (d2 + c) in
  let c := u32 (Z.shiftr d2 26) in let h2 := Z.land (u32 d2) 0x03ffffff in
  let d3 := u64 (d3 + c) in
  let c := u32 (Z.shiftr d3 26) in let h3 := Z.land (u32 d3) 0x03ffffff in
  let d4 := u64 (d4 + c) in
  let c := u32 (Z.shiftr d4 26) in let h4 := Z.land (u32 d4) 0x03ffffff in
  let h0 := u32 (h0 + u32 (c * 5)) in
  let c := Z.shiftr h0 26 in let h0 := Z.land h0 0x03ffffff in
  let h1 := u32 (h1 + c) in
  Ret (mk_limbs h0 h1 h2 h3 h4).

(** The bound of a product of a limb of the sum and a limb of the key. *)
Definition BND : Z := 9007203549708288.

Lemma carry_chain_ok d0 d1 d2 d3 d4 :
  0 <= d0 <= 21 * BND -> 0 <= d1 <= 21 * BND -> 0 <= d2 <= 21 * BND -> 0 <= d3 <= 21 * BND -> 0 <= d4 <= 5 * BND ->
  twp (carry_chain d0 d1 d2 d3 d4) (fun h => h_ok h /\
    exists q, fe_val h = d0 + 2 ^ 26 * d1 + 2 ^ 52 * d2 + 2 ^ 78 * d3 + 2 ^ 104 * d4 - q * P1305).
Proof.
  unfold BND. intros B0 B1 B2 B3 B4. cbv beta delta [carry_chain].
  assert (Hdm : forall d, d = 2 ^ 26 * (d / 2 ^ 26) + d mod 2 ^ 26 /\ 0 <= d mod 2 ^ 26 < 2 ^ 26) by (intros d; split; [apply Z.div_mod; lia|by apply Z.mod_pos_bound]).
  next_let c0 C0. next_let h0 H0. destruct (carry64 d0 ltac:(lia)) as [F G]. rewrite F in C0. rewrite G in H0.
  pose proof (Hdm d0) as M0. rewrite <- C0, <- H0 in M0. clear F G C0 H0. next_let e1 E1. rewrite u64_small in E1 by lia.
  next_let c1 C1. next_let h1 H1. destruct (carry64 e1 ltac:(lia)) as [F G]. rewrite F in C1. rewrite G in H1.
  pose proof (Hdm e1) as M1. rewrite <- C1, <- H1 in M1. clear F G C1 H1. next_let e2 E2. rewrite u64_small in E2 by lia.
  next_let c2 C2. next_let h2 H2. destruct (carry64 e2 ltac:(lia)) as [F G]. rewrite F in C2. rewrite G in H2.
  pose proof (Hdm e2) as M2. rewrite <- C2, <- H2 in M2. clear F G C2 H2. next_let e3 E3. rewrite u64_small in E3 by lia.
  next_let c3 C3. next_let h3 H3. destruct (carry64 e3 ltac:(lia)) as [F G]. rewrite F in C3. rewrite G in H3.
  pose proof (Hdm e3) as M3. rewrite <- C3, <- H3 in M3. clear F G C3 H3. next_let e4 E4. rewrite u64_small in E4 by lia.
  next_let c4 C4. next_let h4 H4. destruct (carry64 e4 ltac:(lia)) as [F G]. rewrite F in C4. rewrite G in H4.
  pose proof (Hdm e4) as M4. rewrite <- C4, <- H4 in M4. clear F G C4 H4.
  next_let g0 G0. rewrite !u32_small in G0 by (rewrite ?u32_small by lia; lia).
  next_let c5 C5. next_let k0 K0. destruct (carry32 g0 ltac:(lia)) as [F G]. rewrite F in C5. rewrite G in K0.
  pose proof (Hdm g0) as MG. rewrite <- C5, <- K0 in MG. next_let k1 K1. rewrite u32_small in K1 by lia.
  clear Hdm C5 K0 F G. cbn [twp]. unfold h_ok, fe_val, P1305. cbn [l0 l1 l2 l3 l4]. split; [lia|]. exists c4. lia.
Qed.

(** The five limbs of a block. *)
Lemma block_limbs m :
  Forall byte_ok m -> 16 <= zlen m ->
  exists m0 m1 m2 m3 m4, U8TO32_LE m 0 = Ret m0 /\ U8TO32_LE m 3 = Ret m1 /\ U8TO32_LE m 6 = Ret m2 /\ U8TO32_LE m 9 = Ret m3 /\
    U8TO32_LE m 12 = Ret m4 /\
    let a0 := Z.land m0 0x03ffffff in let a1 := Z.land (Z.shiftr m1 2) 0x03ffffff in let a2 := Z.land (Z.shiftr m2 4) 0x03ffffff in
    let a3 := Z.land (Z.shiftr m3 6) 0x03ffffff in let a4 := Z.shiftr m4 8 in
    0 <= a0 < 2 ^ 26 /\ 0 <= a1 < 2 ^ 26 /\ 0 <= a2 < 2 ^ 26 /\ 0 <= a3 < 2 ^ 26 /\ 0 <= a4 < 2 ^ 24 /\
    le_val (ztake 16 m) = a0 + 2 ^ 26 * a1 + 2 ^ 52 * a2 + 2 ^ 78 * a3 + 2 ^ 104 * a4.
Proof.
  intros Hm Hl. change 0x03ffffff with (Z.ones 26).
  destruct (load_limb m 0 0 26) as (m0 & E0 & B0 & L0); try done. destruct (load_limb m 3 2 26) as (m1 & E1 & B1 & L1); try done.
  destruct (load_limb m 6 4 26) as (m2 & E2 & B2 & L2); try done. destruct (load_limb m 9 6 26) as (m3 & E3 & B3 & L3); try done.
  destruct (load_limb m 12 8 24) as (m4 & E4 & B4 & L4); try done. exists m0, m1, m2, m3, m4. split_and!; try done. cbv zeta.
  assert (B5 : 0 <= Z.shiftr m4 8 < 2 ^ 24) by (rewrite Z.shiftr_div_pow2 by lia; split; [apply Z.div_pos; lia|apply Z.div_lt_upper_bound; lia]).
  rewrite Z.land_ones, Z.mod_small in L4 by lia. rewrite Z.shiftr_0_r in L0. rewrite L0, L1, L2, L3, L4.
  set (M := le_val (ztake 16 m)) in *. change (8 * 0 + 0) with 0. change (8 * 3 + 2) with 26. change (8 * 6 + 4) with 52.
  change (8 * 9 + 6) with 78. change (8 * 12 + 8) with 104 in *. change (2 ^ 0) with 1. rewrite Z.div_1_r.
  assert (HM : 0 <= M < 2 ^ 128).
  { pose proof (le_val_bound (ztake 16 m) ltac:(auto with pico)) as B. rewrite zlen_ztake, Z.min_l in B by lia. exact B. }
  assert (H104 : (M / 2 ^ 104) mod 2 ^ 24 = M / 2 ^ 104).
  { apply Z.mod_small. split; [apply Z.div_pos; lia|apply Z.div_lt_upper_bound; lia]. }
  rewrite H104. pose proof (limbs_sum M). rewrite L4, H104 in B5.
  split_and!; try (apply Z.mod_pos_bound; lia); lia.
Qed.

Lemma dot5 x0 x1 x2 x3 x4 y0 y1 y2 y3 y4 w0 w1 w2 w3 w4 :
  0 <= x0 <= 2 ^ 27 + 64 -> 0 <= x1 <= 2 ^ 27 + 64 -> 0 <= x2 <= 2 ^ 27 + 64 -> 0 <= x3 <= 2 ^ 27 + 64 -> 0 <= x4 <= 2 ^ 27 + 64 ->
  0 <= y0 <= w0 * 2 ^ 26 -> 0 <= y1 <= w1 * 2 ^ 26 -> 0 <= y2 <= w2 * 2 ^ 26 -> 0 <= y3 <= w3 * 2 ^ 26 -> 0 <= y4 <= w4 * 2 ^ 26 ->
  0 <= x0 * y0 + x1 * y1 + x2 * y2 + x3 * y3 + x4 * y4 <= (w0 + w1 + w2 + w3 + w4) * BND.
Proof.
  intros X0 X1 X2 X3 X4 Y0 Y1 Y2 Y3 Y4.
  pose proof (prod_bound _ _ _ _ X0 Y0). pose proof (prod_bound _ _ _ _ X1 Y1). pose proof (prod_bound _ _ _ _ X2 Y2).
  pose proof (prod_bound _ _ _ _ X3 Y3). pose proof (prod_bound _ _ _ _ X4 Y4).
  replace BND with ((2 ^ 27 + 64) * 2 ^ 26) by done. lia.
Qed.

(** Multiplication modulo 2^130 - 5, limb by limb. *)
Lemma schoolbook k0 k1 k2 k3 k4 r0 r1 r2 r3 r4 :
  exists q, (k0 + 2 ^ 26 * k1 + 2 ^ 52 * k2 + 2 ^ 78 * k3 + 2 ^ 104 * k4) * (r0 + 2 ^ 26 * r1 + 2 ^ 52 * r2 + 2 ^ 78 * r3 + 2 ^ 104 * r4) =
    (k0 * r0 + k1 * (r4 * 5) + k2 * (r3 * 5) + k3 * (r2 * 5) + k4 * (r1 * 5)) +
    2 ^ 26 * (k0 * r1 + k1 * r0 + k2 * (r4 * 5) + k3 * (r3 * 5) + k4 * (r2 * 5)) +
    2 ^ 52 * (k0 * r2 + k1 * r1 + k2 * r0 + k3 * (r4 * 5) + k4 * (r3 * 5)) +
    2 ^ 78 * (k0 * r3 + k1 * r2 + k2 * r1 + k3 * r0 + k4 * (r4 * 5)) +
    2 ^ 104 * (k0 * r4 + k1 * r3 + k2 * r2 + k3 * r1 + k4 * r0) + q * P1305.
Proof.
  exists ((k1 * r4 + k2 * r3 + k3 * r2 + k4 * r1) + 2 ^ 26 * (k2 * r4 + k3 * r3 + k4 * r2) + 2 ^ 52 * (k3 * r4 + k4 * r3) + 2 ^ 78 * (k4 * r4)).
  unfold P1305. ring.
Qed.

Lemma block_step_ok r h m (hib : bool) :
  r_ok r -> h_ok h -> Forall byte_ok m -> 16 <= zlen m ->
  twp (block_step r h m hib) (fun h' => h_ok h' /\
    fe_val h' mod P1305 = ((fe_val h + le_val (ztake 16 m) + (if hib then 2 ^ 128 else 0)) * fe_val r) mod P1305).
Proof.
  destruct r as [r0 r1 r2 r3 r4], h as [h0 h1 h2 h3 h4]. intros Hr Hh Hm Hl. unfold r_ok, h_ok in Hr, Hh. cbn [l0 l1 l2 l3 l4] in *.
  destruct (block_limbs m Hm Hl) as (m0 & m1 & m2 & m3 & m4 & E0 & E1 & E2 & E3 & E4 & H). cbv zeta in H.
  cbv beta iota delta [block_step l0 l1 l2 l3 l4].
  next_let s1 S1. next_let s2 S2. next_let s3 S3. next_let s4 S4. rewrite u32_small in S1, S2, S3, S4 by lia.
  rewrite E0, E1, E2, E3, E4. cbv beta iota delta [rbind]. clear E0 E1 E2 E3 E4.
  set (a0 := Z.land m0 _) in *. set (a1 := Z.land (Z.shiftr m1 2) _) in *. set (a2 := Z.land (Z.shiftr m2 4) _) in *.
  set (a3 := Z.land (Z.shiftr m3 6) _) in *. set (a4 := Z.shiftr m4 8) in *. clearbody a0 a1 a2 a3 a4.
  destruct H as (A0 & A1 & A2 & A3 & A4 & HM).
  assert (Hhib : Z.lor a4 (if hib then 2 ^ 24 else 0) = a4 + (if hib then 2 ^ 24 else 0)).
  { destruct hib; [|by rewrite Z.lor_0_r, Z.add_0_r]. rewrite Z.lor_comm. rewrite <- (Z.mul_1_l (2 ^ 24)), lor_disjoint by lia. lia. }
  rewrite Hhib. clear Hhib. set (hb := if hib then 2 ^ 24 else 0). assert (Hhb : 0 <= hb <= 2 ^ 24) by (destruct hib; subst hb; lia).
  next_let k0 K0. next_let k1 K1. next_let k2 K2. next_let k3 K3. next_let k4 K4.
  rewrite u32_small in K0, K1, K2, K3, K4 by lia.
  assert (X0 : 0 <= k0 <= 2 ^ 27 + 64) by lia. assert (X1 : 0 <= k1 <= 2 ^ 27 + 64) by lia. assert (X2 : 0 <= k2 <= 2 ^ 27 + 64) by lia.
  assert (X3 : 0 <= k3 <= 2 ^ 27 + 64) by lia. assert (X4 : 0 <= k4 <= 2 ^ 27 + 64) by lia.
  assert (R0 : 0 <= r0 <= 1 * 2 ^ 26) by lia. assert (R1 : 0 <= r1 <= 1 * 2 ^ 26) by lia. assert (R2 : 0 <= r2 <= 1 * 2 ^ 26) by lia.
  assert (R3 : 0 <= r3 <= 1 * 2 ^ 26) by lia. assert (R4 : 0 <= r4 <= 1 * 2 ^ 26) by lia.
  assert (T1 : 0 <= s1 <= 5 * 2 ^ 26) by lia. assert (T2 : 0 <= s2 <= 5 * 2 ^ 26) by lia. assert (T3 : 0 <= s3 <= 5 * 2 ^ 26) by lia.
  assert (T4 : 0 <= s4 <= 5 * 2 ^ 26) by lia.
  pose proof (dot5 _ _ _ _ _ _ _ _ _ _ _ _ _ _ _ X0 X1 X2 X3 X4 R0 T4 T3 T2 T1) as W0.
  pose proof (dot5 _ _ _ _ _ _ _ _ _ _ _ _ _ _ _ X0 X1 X2 X3 X4 R1 R0 T4 T3 T2) as W1.
  pose proof (dot5 _ _ _ _ _ _ _ _ _ _ _ _ _ _ _ X0 X1 X2 X3 X4 R2 R1 R0 T4 T3) as W2.
  pose proof (dot5 _ _ _ _ _ _ _ _ _ _ _ _ _ _ _ X0 X1 X2 X3 X4 R3 R2 R1 R0 T4) as W3.
  pose proof (dot5 _ _ _ _ _ _ _ _ _ _ _ _ _ _ _ X0 X1 X2 X3 X4 R4 R3 R2 R1 R0) as W4.
  next_let d0 D0. next_let d1 D1. next_let d2 D2. next_let d3 D3. next_let d4 D4.
  match goal with |- twp ?t _ => change t with (carry_chain d0 d1 d2 d3 d4) end.
  rewrite u64_small in D0, D1, D2, D3, D4 by (unfold BND in *; clear - W0 W1 W2 W3 W4; lia).
  rewrite <- D0 in W0. rewrite <- D1 in W1. rewrite <- D2 in W2. rewrite <- D3 in W3. rewrite <- D4 in W4.
  assert (HB : 0 < BND) by done.
  destruct (twp_ret _ _ (carry_chain_ok d0 d1 d2 d3 d4 ltac:(clear - W0 HB; lia) ltac:(clear - W1 HB; lia) ltac:(clear - W2 HB; lia) ltac:(clear - W3 HB; lia) ltac:(clear - W4 HB; lia))) as (h' & -> & Hok & q & Hq).
  cbn [twp]. split; [done|]. rewrite Hq, D0, D1, D2, D3, D4, HM, S1, S2, S3, S4.
  destruct (schoolbook k0 k1 k2 k3 k4 r0 r1 r2 r3 r4) as [q' Hq'].
  match goal with |- ?a mod _ = ?b mod _ => replace b with (a + (q + q') * P1305) end; [by rewrite Z.mod_add|].
  unfold fe_val. cbn [l0 l1 l2 l3 l4]. transitivity ((k0 + 2 ^ 26 * k1 + 2 ^ 52 * k2 + 2 ^ 78 * k3 + 2 ^ 104 * k4) * (r0 + 2 ^ 26 * r1 + 2 ^ 52 * r2 + 2 ^ 78 * r3 + 2 ^ 104 * r4)).
  - rewrite Hq'. ring.
  - f_equal. rewrite K0, K1, K2, K3, K4. subst hb. destruct hib; ring.
Qed.

(** ** Blocks *)

Lemma poly_block_full R acc b :
  length b = 16%nat -> poly_block R acc b = ((acc + le_val b + 2 ^ 128) * R) mod P1305.
Proof. intros Hb. unfold poly_block. rewrite le_val_app. replace (zlen b) with 16 by (unfold zlen; lia). cbn [le_val]. do 2 f_equal. lia. Qed.


Lemma mul_add_mod a b c : ((a mod P1305 + b) * c) mod P1305 = ((a + b) * c) mod P1305.
Proof.
  rewrite <- (Z.mul_mod_idemp_l (a mod P1305 + b)), <- (Z.mul_mod_idemp_l (a + b)) by done. by rewrite Z.add_mod_idemp_l by done.
Qed.

Lemma blocks_loop_ok r (k : nat) : forall fuel h m, 
  r_ok r -> h_ok h -> Forall byte_ok m -> Z.of_nat k * 16 <= zlen m -> (k <= fuel)%nat ->
  twp (blocks_loop fuel r h m (Z.of_nat k * 16) true) (fun h' => h_ok h' /\
    fe_val h' mod P1305 = foldl (poly_block (fe_val r)) (fe_val h mod P1305) (chunks 16 (ztake (Z.of_nat k * 16) m))).
Proof.
  induction k as [|k IH]; intros fuel h m Hr Hh Hm Hl Hf.
  { by destruct fuel. }
  destruct fuel as [|fuel]; [lia|]. cbn [blocks_loop]. replace (16 <=? Z.of_nat (S k) * 16) with true.
  2: { symmetry. apply Z.leb_le. lia. }
  apply twp_bind. destruct (twp_ret _ _ (block_step_ok r h m true Hr Hh Hm ltac:(lia))) as (h1 & -> & Hh1 & E1). cbn [twp].
  replace (Z.of_nat (S k) * 16 - 16) with (Z.of_nat k * 16) by lia.
  destruct (twp_ret _ _ (IH fuel h1 (padd m 16) Hr Hh1 ltac:(auto with pico) ltac:(rewrite zlen_padd by lia; lia) ltac:(lia))) as (h2 & -> & Hh2 & E2).
  cbn [twp]. split; [done|]. rewrite E2. replace (Z.of_nat (S k) * 16) with (16 + Z.of_nat k * 16) by lia.
  assert (Hb : length (ztake 16 m) = 16%nat) by (unfold ztake; rewrite length_take; unfold zlen in Hl; lia).
  rewrite ztake_split, chunks_cons by (done || lia). cbn [foldl]. f_equal.
  rewrite E1, poly_block_full, <- !Z.add_assoc, mul_add_mod by done. done.
Qed.

Lemma poly1305_blocks_ok ctx m bytes :
  r_ok (p_r ctx) -> h_ok (p_h ctx) -> Forall byte_ok m -> 0 <= bytes <= zlen m -> bytes mod 16 = 0 ->
  exists h, poly1305_blocks ctx m bytes true = Ret (set_h ctx h) /\ h_ok h /\
    fe_val h mod P1305 = foldl (poly_block (fe_val (p_r ctx))) (fe_val (p_h ctx) mod P1305) (chunks 16 (ztake bytes m)).
Proof.
  intros Hr Hh Hm Hb H16. unfold poly1305_blocks. set (k := Z.to_nat (bytes / 16)).
  assert (Ek : bytes = Z.of_nat k * 16) by (unfold k; rewrite Z2Nat.id by (apply Z.div_pos; lia); pose proof (Z.div_mod bytes 16); lia).
  rewrite Ek. destruct (twp_ret _ _ (blocks_loop_ok (p_r ctx) k (Z.to_nat (Z.of_nat k * 16)) (p_h ctx) m Hr Hh Hm ltac:(lia) ltac:(lia))) as (h & -> & H).
  cbn [rbind]. by exists h.
Qed.

(** ** The streaming interface *)

(** The context after the key and the bytes [dn] have been processed. *)
Record poly_rep (key : list Z) (ctx : poly1305_ctx_t) (dn : list Z) : Prop := {
  pr_r : r_ok (p_r ctx);
  pr_rv : fe_val (p_r ctx) = poly_r key;
  pr_s : match p_s ctx with (s0, s1, s2, s3) =>
           0 <= s0 < 2 ^ 32 /\ 0 <= s1 < 2 ^ 32 /\ 0 <= s2 < 2 ^ 32 /\ 0 <= s3 < 2 ^ 32 /\
           s0 + 2 ^ 32 * s1 + 2 ^ 64 * s2 + 2 ^ 96 * s3 = poly_s key end;
  pr_h : h_ok (p_h ctx);
  pr_len : zlen (p_buf ctx) = 16;
  pr_dn : exists full tail k, dn = full ++ tail /\ length full = (k * 16)%nat /\ zlen tail < 16 /\ p_buf_len ctx = zlen tail /\
    ztake (zlen tail) (p_buf ctx) = tail /\ Forall byte_ok tail /\ fe_val (p_h ctx) mod P1305 = poly_acc (poly_r key) full
}.

Lemma poly_acc_app R full more k :
  length full = (k * 16)%nat -> poly_acc R (full ++ more) = foldl (poly_block R) (poly_acc R full) (chunks 16 more).
Proof. intros H. unfold poly_acc. rewrite (chunks_app 16 k) by (done || lia). by rewrite foldl_app. Qed.

(** A masked limb of the key. *)
Lemma key_limb v k j mask : 0 <= mask < 2 ^ j -> 0 <= j -> Z.land (Z.shiftr v k) mask = Z.land (Z.land (Z.shiftr v k) (Z.ones j)) mask.
Proof.
  intros Hm Hj. rewrite <- Z.land_assoc, (Z.land_comm (Z.ones j)), Z.land_ones, Z.mod_small by done. done.
Qed.

Lemma clamp_limbs K :
  0 <= K < 2 ^ 128 ->
  Z.land (K mod 2 ^ 26) 0x03ffffff + 2 ^ 26 * Z.land ((K / 2 ^ 26) mod 2 ^ 26) 0x03ffff03 + 2 ^ 52 * Z.land ((K / 2 ^ 52) mod 2 ^ 26) 0x03ffc0ff +
  2 ^ 78 * Z.land ((K / 2 ^ 78) mod 2 ^ 26) 0x03f03fff + 2 ^ 104 * Z.land (K / 2 ^ 104) 0x000fffff =
  Z.land K 0x0ffffffc0ffffffc0ffffffc0fffffff.
Proof.
  intros HK. rewrite (limbs_sum K) at 6.
  change 0x0ffffffc0ffffffc0ffffffc0fffffff with (0x03ffffff + 2 ^ 26 * (0x03ffff03 + 2 ^ 26 * (0x03ffc0ff + 2 ^ 26 * (0x03f03fff + 2 ^ 26 * 0x000fffff)))).
  rewrite !land_split; try done; try (apply Z.mod_pos_bound; lia). ring.
Qed.

Lemma land_bound a b j : 0 <= b < 2 ^ j -> 0 <= j -> 0 <= Z.land a b < 2 ^ j.
Proof.
  intros Hb Hj. rewrite <- (Z.mod_small b (2 ^ j)), <- Z.land_ones, Z.land_assoc, Z.land_ones by lia. by apply Z.mod_pos_bound, Z.pow_pos_nonneg.
Qed.

Lemma poly1305_init_ok ctx key :
  Forall byte_ok key -> 32 <= zlen key -> zlen (p_buf ctx) = 16 -> exists ctx', poly1305_init ctx key = Ret ctx' /\ poly_rep key ctx' [].
Proof.
  intros Hk Hl Hb. unfold poly1305_init.
  destruct (load_limb key 0 0 26) as (k0 & E0 & B0 & L0); try (done || lia). destruct (load_limb key 3 2 26) as (k1 & E1 & B1 & L1); try (done || lia).
  destruct (load_limb key 6 4 26) as (k2 & E2 & B2 & L2); try (done || lia). destruct (load_limb key 9 6 26) as (k3 & E3 & B3 & L3); try (done || lia).
  destruct (load_limb key 12 8 24) as (k4 & E4 & B4 & L4); try (done || lia).
  rewrite E0, E1, E2, E3, E4. unfold U8TO32_LE. rewrite !load_le32_ok by (done || lia). cbn [rbind].
  eexists. split; [done|].
  change (ztake 16 key) with (sub key 0 16) in *. set (K := le_val (sub key 0 16)) in *.
  assert (HK : 0 <= K < 2 ^ 128).
  { pose proof (le_val_bound (sub key 0 16) ltac:(unfold sub; auto with pico)) as B. unfold sub in B. rewrite zlen_ztake, zlen_padd in B by lia.
    replace (Z.min 16 (Z.max 0 (zlen key - 0))) with 16 in B by lia. exact B. }
  split; cbn [p_r p_s p_h p_buf p_buf_len]; [| | | |done|].
  - unfold r_ok. cbn [l0 l1 l2 l3 l4]. split_and!; try (apply land_bound; [done|lia]); try apply (land_bound _ _ 26); done || lia.
  - unfold fe_val, poly_r. cbn [l0 l1 l2 l3 l4]. rewrite <- (Z.shiftr_0_r k0).
    rewrite (key_limb k0 0 26), (key_limb k1 2 26), (key_limb k2 4 26), (key_limb k3 6 26), (key_limb k4 8 24) by done.
    rewrite L0, L1, L2, L3, L4. fold K. rewrite <- clamp_limbs by done.
    change (8 * 0 + 0) with 0. change (8 * 3 + 2) with 26. change (8 * 6 + 4) with 52. change (8 * 9 + 6) with 78. change (8 * 12 + 8) with 104.
    change (2 ^ 0) with 1. rewrite Z.div_1_r, (Z.mod_small (K / 2 ^ 104)); [done|]. split; [apply Z.div_pos; lia|apply Z.div_lt_upper_bound; lia].
  - unfold poly_s. rewrite le_val_words by lia. split_and!; try (apply le_val_word; (done || lia)). done.
  - by unfold h_ok.
  - exists [], [], 0%nat. by split_and!.
Qed.

Lemma rep_whole key ctx dn :
  poly_rep key ctx dn -> p_buf_len ctx = 0 -> exists k, length dn = (k * 16)%nat /\ fe_val (p_h ctx) mod P1305 = poly_acc (poly_r key) dn.
Proof.
  intros [] Hz. destruct pr_dn0 as (full & tail & k & -> & Hk & _ & Hl & _ & _ & E). exists k.
  destruct tail; [by rewrite app_nil_r|]. rewrite zlen_cons in Hl. pose proof (zlen_nonneg tail). lia.
Qed.

(** Whole blocks straight from the input. *)
Lemma rep_blocks key ctx dn m bytes :
  poly_rep key ctx dn -> p_buf_len ctx = 0 -> Forall byte_ok m -> 0 <= bytes <= zlen m -> bytes mod 16 = 0 ->
  exists ctx', poly1305_blocks ctx m bytes true = Ret ctx' /\ poly_rep key ctx' (dn ++ ztake bytes m) /\ p_buf_len ctx' = 0.
Proof.
  intros Hrep Hz Hm Hb H16. destruct (rep_whole _ _ _ Hrep Hz) as (k & Hk & Eacc). destruct Hrep.
  destruct (poly1305_blocks_ok ctx m bytes pr_r0 pr_h0 Hm Hb H16) as (h & -> & Hh & Eh). eexists. split; [done|]. split; [|done].
  split; cbn; try done. exists (dn ++ ztake bytes m), [], (k + Z.to_nat (bytes / 16))%nat.
  rewrite app_nil_r. split_and!; try done.
  - rewrite length_app, Hk. pose proof (zlen_ztake bytes m ltac:(lia)) as E. unfold zlen in *.
    pose proof (Z.div_mod bytes 16). pose proof (Z.div_pos bytes 16). lia.
  - rewrite Eh, (poly_acc_app _ _ _ _ Hk), <- Eacc, pr_rv0. done.
Qed.

(** Bytes that stay in the buffer. *)
Lemma rep_stash key ctx dn src :
  poly_rep key ctx dn -> Forall byte_ok src -> p_buf_len ctx + zlen src < 16 ->
  exists buf, blit (p_buf ctx) (p_buf_len ctx) src = Ret buf /\
    poly_rep key (set_buf ctx buf (u64 (p_buf_len ctx + zlen src))) (dn ++ src).
Proof.
  intros [] Hs Hl. destruct pr_dn0 as (full & tail & k & -> & Hk & Ht & Hbl & Hbuf & Htb & E). pose proof (zlen_nonneg tail). pose proof (zlen_nonneg src).
  rewrite Hbl in *. rewrite blit_ok by lia. eexists. split; [done|]. rewrite Hbuf, u64_small by lia. split; cbn; try done.
  - rewrite app_assoc, zlen_app, zlen_padd, zlen_app by lia. lia.
  - exists full, (tail ++ src), k. rewrite zlen_app, <- app_assoc. split_and!; try done.
    + rewrite app_assoc. apply ztake_app. by rewrite zlen_app.
    + by apply Forall_app.
Qed.

(** The buffer completed to a block. *)
Lemma rep_fill key ctx dn src :
  poly_rep key ctx dn -> Forall byte_ok src -> p_buf_len ctx + zlen src = 16 ->
  exists buf ctx', blit (p_buf ctx) (p_buf_len ctx) src = Ret buf /\
    poly1305_blocks (set_buf ctx buf (u64 (p_buf_len ctx + zlen src))) buf 16 true = Ret ctx' /\
    poly_rep key (set_buf ctx' (p_buf ctx') 0) (dn ++ src).
Proof.
  intros [] Hs Hl. destruct pr_dn0 as (full & tail & k & -> & Hk & Ht & Hbl & Hbuf & Htb & E). pose proof (zlen_nonneg tail).
  rewrite Hbl in *. rewrite blit_ok by lia. rewrite Hbuf, Hl. exists (tail ++ src).
  assert (Hp : padd (p_buf ctx) 16 = []) by (unfold padd; apply drop_ge; unfold zlen in *; lia). rewrite Hp, app_nil_r.
  assert (Hb : Forall byte_ok (tail ++ src)) by (by apply Forall_app).
  assert (Hz : zlen (tail ++ src) = 16) by (rewrite zlen_app; lia).
  set (ctx1 := set_buf ctx (tail ++ src) (u64 16)).
  destruct (poly1305_blocks_ok ctx1 (tail ++ src) 16 pr_r0 pr_h0 Hb ltac:(lia) eq_refl) as (h & Eb & Hh & Eh).
  eexists. split; [done|]. split; [exact Eb|]. split; cbn; try done. exists ((full ++ tail) ++ src), [], (S k). rewrite app_nil_r. split_and!; try done.
  - rewrite !length_app, Hk. unfold zlen in *. lia.
  - rewrite Eh, <- app_assoc, (poly_acc_app _ _ _ _ Hk), ztake_all by lia.
    change (p_r ctx1) with (p_r ctx). change (p_h ctx1) with (p_h ctx). by rewrite E, pr_rv0.
Qed.

Lemma bulk_bytes len : 0 <= len < 2 ^ 64 -> Z.land len (UINT64_MAX - 15) = len - len mod 16.
Proof.
  intros H. change (UINT64_MAX - 15) with (0 + 2 ^ 4 * Z.ones 60). rewrite (Z.div_mod len 16) at 1 by done.
  replace (16 * (len / 16) + len mod 16) with (len mod 16 + 2 ^ 4 * (len / 16)) by lia.
  rewrite land_split by (done || apply Z.mod_pos_bound; lia). rewrite Z.land_0_r, Z.land_ones by done.
  rewrite Z.mod_small by (split; [apply Z.div_pos; lia|apply Z.div_lt_upper_bound; lia]). pose proof (Z.div_mod len 16). lia.
Qed.

Lemma rep_buf_len key ctx dn : poly_rep key ctx dn -> 0 <= p_buf_len ctx < 16.
Proof. intros []. destruct pr_dn0 as (? & tail & ? & _ & _ & ? & -> & _). pose proof (zlen_nonneg tail). lia. Qed.

(** [t] bytes of the input have been taken; what is buffered is less than a
    block, and nothing once input is left. *)
Definition consumed (key dn msg : list Z) (len : Z) (r : res (poly1305_ctx_t * list Z * Z)) (t : Z) : Prop :=
  exists ctx, r = Ret (ctx, padd msg t, len - t) /\ 0 <= t <= len /\ poly_rep key ctx (dn ++ ztake t msg) /\ (p_buf_len ctx = 0 \/ len - t = 0).

Lemma fill_buffer_ok key ctx dn msg len :
  poly_rep key ctx dn -> Forall byte_ok msg -> 0 < len <= zlen msg -> exists t, consumed key dn msg len (fill_buffer ctx msg len) t.
Proof.
  intros Hrep Hm Hl. unfold fill_buffer. pose proof (rep_buf_len _ _ _ Hrep) as Hb. destruct (Z.eqb_spec (p_buf_len ctx) 0) as [Hz|Hz].
  { exists 0, ctx. rewrite Z.sub_0_r, app_nil_r. split_and!; (done || lia || by left). }
  rewrite u64_small by lia. set (t := if len <? 16 - p_buf_len ctx then len else 16 - p_buf_len ctx).
  assert (Ht : 0 <= t <= len /\ t <= 16 - p_buf_len ctx /\ (p_buf_len ctx + t = 16 \/ len - t = 0)) by (unfold t; zcase; lia).
  assert (Hzt : zlen (ztake t msg) = t) by (rewrite zlen_ztake; lia). rewrite rdn_ok by lia. cbn [rbind]. exists t.
  destruct (Z.eq_dec (p_buf_len ctx + t) 16) as [Hfull|Hpart].
  - destruct (rep_fill key ctx dn (ztake t msg) Hrep ltac:(auto with pico) ltac:(lia)) as (buf & ctx' & -> & Eb & Hrep'). cbn [rbind].
    rewrite Hzt, Hfull in Eb. rewrite Hfull. change (p_buf_len (set_buf ctx buf (u64 16)) =? 16) with true. cbn iota. rewrite Eb. cbn [rbind].
    eexists. split_and!; [done|lia..|done|by left].
  - destruct (rep_stash key ctx dn (ztake t msg) Hrep ltac:(auto with pico) ltac:(lia)) as (buf & -> & Hrep'). rewrite Hzt in Hrep'. cbn [rbind set_buf p_buf_len].
    rewrite u64_small in * by lia. replace (p_buf_len ctx + t =? 16) with false by lia.
    eexists. split_and!; [done|lia..|done|right; lia].
Qed.

Lemma bulk_blocks_ok key ctx dn msg len :
  poly_rep key ctx dn -> Forall byte_ok msg -> 0 <= len <= zlen msg -> len < 2 ^ 64 -> p_buf_len ctx = 0 \/ len = 0 ->
  exists t, consumed key dn msg len (bulk_blocks ctx msg len) t /\ len - t < 16.
Proof.
  intros Hrep Hm Hl H64 Hz. unfold bulk_blocks. destruct (Z.leb_spec 16 len).
  - rewrite bulk_bytes by lia. exists (len - len mod 16). pose proof (Z.mod_pos_bound len 16 ltac:(lia)). split; [|lia].
    destruct (rep_blocks key ctx dn msg (len - len mod 16) Hrep ltac:(lia) Hm ltac:(lia)) as (ctx' & -> & Hrep' & Hz').
    { rewrite <- (Z.mod_add _ (len / 16)) by done. rewrite (Z.div_mod len 16) at 1 by done.
      replace (16 * (len / 16) + len mod 16 - len mod 16 + len / 16 * 16) with (2 * (len / 16) * 16) by lia. by apply Z.mod_mul. }
    exists ctx'. split_and!; [done|lia..|done|by left].
  - exists 0. split; [|lia]. exists ctx. rewrite Z.sub_0_r, app_nil_r. split_and!; (done || lia).
Qed.

Lemma poly1305_update_ok key ctx dn msg len :
  poly_rep key ctx dn -> Forall byte_ok msg -> 0 <= len <= zlen msg -> len < 2 ^ 64 ->
  exists ctx', poly1305_update ctx msg len = Ret ctx' /\ poly_rep key ctx' (dn ++ ztake len msg).
Proof.
  intros Hrep Hm Hl H64. unfold poly1305_update. destruct (Z.eqb_spec len 0) as [->|Hne].
  { exists ctx. by rewrite app_nil_r. }
  destruct (fill_buffer_ok key ctx dn msg len Hrep Hm ltac:(lia)) as (t1 & ctx1 & -> & Ht1 & Hrep1 & Hd1). cbn [rbind].
  destruct (bulk_blocks_ok key ctx1 _ (padd msg t1) (len - t1) Hrep1 ltac:(auto with pico) ltac:(rewrite zlen_padd; lia) ltac:(lia) Hd1)
    as (t2 & (ctx2 & -> & Ht2 & Hrep2 & Hd2) & Hlt). cbn [rbind].
  rewrite <- app_assoc, <- ztake_split in Hrep2 by lia. rewrite padd_padd by lia.
  destruct (Z.eqb_spec (len - t1 - t2) 0) as [E|E].
  { exists ctx2. split; [done|]. by replace len with (t1 + t2) by lia. }
  rewrite rdn_ok by (rewrite zlen_padd; lia). cbn [rbind]. set (src := ztake (len - t1 - t2) (padd msg (t1 + t2))).
  assert (Hsrc : zlen src = len - t1 - t2) by (unfold src; rewrite zlen_ztake, zlen_padd; lia).
  destruct (rep_stash key ctx2 _ src Hrep2 ltac:(unfold src; auto with pico) ltac:(lia)) as (buf & -> & Hrep3). cbn [rbind].
  rewrite <- Hsrc. eexists. split; [done|]. rewrite <- app_assoc in Hrep3. unfold src in Hrep3 at 2. rewrite <- ztake_split in Hrep3 by lia.
  by replace (t1 + t2 + (len - t1 - t2)) with len in Hrep3 by lia.
Qed.

(** ** The tag *)

Definition reduced (h : limbs) : Prop :=
  0 <= l0 h < 2 ^ 26 /\ 0 <= l1 h < 2 ^ 26 /\ 0 <= l2 h < 2 ^ 26 /\ 0 <= l3 h < 2 ^ 26 /\ 0 <= l4 h < 2 ^ 26.

Lemma div_mod26 d : d = 2 ^ 26 * (d / 2 ^ 26) + d mod 2 ^ 26 /\ 0 <= d mod 2 ^ 26 < 2 ^ 26.
Proof. split; [apply Z.div_mod; lia|by apply Z.mod_pos_bound]. Qed.

(** Name the value of the next [let] of the left-hand side of a predicate. *)
Ltac next_let_in v H :=
  lazymatch goal with
  | |- ?Q (let x := ?e in @?k x) => refine ((fun (G : forall v, v = e -> Q (k v)) => G e eq_refl) _); intros v H; cbv beta
  end.

(** Rewrite a masked and shifted limb [h] with equations [C], [M]. *)
Ltac limb h C M :=
  let F := fresh in let G := fresh in let D := fresh in
  destruct (carry32 h ltac:(lia)) as [F G]; rewrite F in C; rewrite G in M; pose proof (div_mod26 h) as D; rewrite <- C, <- M in D; clear F G C M.

Lemma final_carry_ok h : h_ok h -> (fun h' => reduced h' /\ exists q, fe_val h' = fe_val h - q * P1305) (final_carry h).
Proof.
  set (Q := fun h' => _). destruct h as [h0 h1 h2 h3 h4]. unfold h_ok. cbn [l0 l1 l2 l3 l4]. intros Hh. cbv beta iota delta [final_carry].
  next_let_in c1 C1. next_let_in k1 K1. limb h1 C1 K1. next_let_in e2 E2. rewrite u32_small in E2 by lia.
  next_let_in c2 C2. next_let_in k2 K2. limb e2 C2 K2. next_let_in e3 E3. rewrite u32_small in E3 by lia.
  next_let_in c3 C3. next_let_in k3 K3. limb e3 C3 K3. next_let_in e4 E4. rewrite u32_small in E4 by lia.
  next_let_in c4 C4. next_let_in k4 K4. limb e4 C4 K4. next_let_in e0 E0. rewrite !u32_small in E0 by (rewrite ?u32_small by lia; lia).
  next_let_in c0 C0. next_let_in k0 K0. limb e0 C0 K0. next_let_in e1 E1. rewrite u32_small in E1 by lia.
  unfold Q, reduced, fe_val, P1305. cbn [l0 l1 l2 l3 l4]. split; [lia|]. exists c4. lia.
Qed.

Lemma mask_select h g b :
  0 <= h < 2 ^ 32 -> 0 <= g < 2 ^ 32 -> (b = 0 \/ b = 1) ->
  Z.lor (Z.land h (u32 (Z.lnot (u32 (b - 1))))) (Z.land g (u32 (b - 1))) = if b =? 0 then g else h.
Proof.
  intros Hh Hg [-> | ->].
  - change (u32 (0 - 1)) with (Z.ones 32). change (u32 (Z.lnot (Z.ones 32))) with 0. rewrite Z.land_0_r, Z.land_ones, Z.mod_small by lia. done.
  - change (u32 (1 - 1)) with 0. change (u32 (Z.lnot 0)) with (Z.ones 32). rewrite Z.land_0_r, Z.land_ones, Z.mod_small by lia. apply Z.lor_0_r.
Qed.

Lemma final_select_ok h : reduced h -> (fun h' => reduced h' /\ fe_val h' = fe_val h mod P1305) (final_select h).
Proof.
  set (Q := fun h' => _). destruct h as [h0 h1 h2 h3 h4]. unfold reduced. cbn [l0 l1 l2 l3 l4]. intros Hh. cbv beta iota delta [final_select].
  next_let_in e0 E0. rewrite u32_small in E0 by lia. next_let_in c0 C0. next_let_in g0 G0. limb e0 C0 G0.
  next_let_in e1 E1. rewrite u32_small in E1 by lia. next_let_in c1 C1. next_let_in g1 G1. limb e1 C1 G1.
  next_let_in e2 E2. rewrite u32_small in E2 by lia. next_let_in c2 C2. next_let_in g2 G2. limb e2 C2 G2.
  next_let_in e3 E3. rewrite u32_small in E3 by lia. next_let_in c3 C3. next_let_in g3 G3. limb e3 C3 G3.
  next_let_in g4 G4. assert (Hg4 : 0 <= g4 < 2 ^ 32) by (rewrite G4; apply Z.mod_pos_bound; lia).
  assert (Hb : Z.shiftr g4 31 = if h4 + c3 <? 2 ^ 26 then 1 else 0).
  { rewrite Z.shiftr_div_pow2, G4 by lia. unfold u32. destruct (Z.ltb_spec (h4 + c3) (2 ^ 26)).
    - rewrite <- (Z.mod_add _ 1), Z.mod_small by lia. dlia.
    - rewrite Z.mod_small by lia. apply Z.div_small. lia. }
  cbv zeta. rewrite Hb. unfold Q, reduced, fe_val. cbn [l0 l1 l2 l3 l4].
  rewrite !mask_select by (lia || by destruct (h4 + c3 <? 2 ^ 26); auto). destruct (Z.ltb_spec (h4 + c3) (2 ^ 26)); cbn [Z.eqb].
  - split; [lia|]. rewrite Z.mod_small; [done|]. unfold P1305. lia.
  - unfold u32 in G4. rewrite Z.mod_small in G4 by lia. split; [lia|]. apply (Z.mod_unique_pos _ _ 1); unfold P1305; lia.
Qed.

(** Bits of one limb below the bits of the next. *)
Lemma lor_shl a b k n : 0 <= k -> 0 <= n -> 0 <= a < 2 ^ k -> k + n = 32 -> Z.lor a (u32 (Z.shiftl b k)) = a + 2 ^ k * (b mod 2 ^ n).
Proof.
  intros Hk Hn Ha E. unfold u32. rewrite Z.shiftl_mul_pow2 by done. rewrite <- E, Z.pow_add_r, (Z.mul_comm b), Z.mul_mod_distr_l by lia.
  rewrite Z.lor_comm, (Z.mul_comm (2 ^ k)), lor_disjoint by done. lia.
Qed.

(** Four words with the value [v]. *)
Definition words_are (v : Z) (t : Z * Z * Z * Z) : Prop :=
  match t with (f0, f1, f2, f3) =>
    0 <= f0 < 2 ^ 32 /\ 0 <= f1 < 2 ^ 32 /\ 0 <= f2 < 2 ^ 32 /\ 0 <= f3 < 2 ^ 32 /\ f0 + 2 ^ 32 * f1 + 2 ^ 64 * f2 + 2 ^ 96 * f3 = v
  end.

(** A limb cut at bit [k]. *)
Lemma cut_limb h k : 0 <= k <= 26 -> 0 <= h < 2 ^ 26 ->
  h = h mod 2 ^ k + 2 ^ k * Z.shiftr h k /\ 0 <= h mod 2 ^ k < 2 ^ k /\ 0 <= Z.shiftr h k < 2 ^ (26 - k).
Proof.
  intros Hk Hh. rewrite Z.shiftr_div_pow2 by lia. pose proof (Z.pow_pos_nonneg 2 k ltac:(lia) ltac:(lia)).
  pose proof (Z.div_mod h (2 ^ k)). pose proof (Z.mod_pos_bound h (2 ^ k)). split; [lia|]. split; [lia|].
  split; [apply Z.div_pos; lia|]. apply Z.div_lt_upper_bound; [lia|]. rewrite <- Z.pow_add_r by lia. replace (k + (26 - k)) with 26 by lia. lia.
Qed.

Lemma add_words f0 f1 f2 f3 s0 s1 s2 s3 :
  0 <= f0 < 2 ^ 32 -> 0 <= f1 < 2 ^ 32 -> 0 <= f2 < 2 ^ 32 -> 0 <= f3 < 2 ^ 32 ->
  0 <= s0 < 2 ^ 32 -> 0 <= s1 < 2 ^ 32 -> 0 <= s2 < 2 ^ 32 -> 0 <= s3 < 2 ^ 32 ->
  words_are ((f0 + 2 ^ 32 * f1 + 2 ^ 64 * f2 + 2 ^ 96 * f3 + (s0 + 2 ^ 32 * s1 + 2 ^ 64 * s2 + 2 ^ 96 * s3)) mod 2 ^ 128)
    (let f := u64 (f0 + s0) in let f0 := u32 f in
     let f := u64 (f1 + s1 + Z.shiftr f 32) in let f1 := u32 f in
     let f := u64 (f2 + s2 + Z.shiftr f 32) in let f2 := u32 f in
     let f := u64 (f3 + s3 + Z.shiftr f 32) in let f3 := u32 f in (f0, f1, f2, f3)).
Proof.
  intros. assert (Hdm : forall d, d = 2 ^ 32 * Z.shiftr d 32 + u32 d /\ 0 <= u32 d < 2 ^ 32).
  { intros d. rewrite Z.shiftr_div_pow2 by lia. unfold u32. split; [apply Z.div_mod; lia|by apply Z.mod_pos_bound]. }
  next_let_in a0 A0. rewrite u64_small in A0 by lia. pose proof (Hdm a0). next_let_in b0 B0. rewrite <- B0 in *.
  next_let_in a1 A1. rewrite u64_small in A1 by lia. pose proof (Hdm a1). next_let_in b1 B1. rewrite <- B1 in *.
  next_let_in a2 A2. rewrite u64_small in A2 by lia. pose proof (Hdm a2). next_let_in b2 B2. rewrite <- B2 in *.
  next_let_in a3 A3. rewrite u64_small in A3 by lia. pose proof (Hdm a3). next_let_in b3 B3. rewrite <- B3 in *. clear Hdm.
  unfold words_are. split_and!; try lia. apply (Z.mod_unique_pos _ _ (Z.shiftr a3 32)); lia.
Qed.

Lemma final_words_ok h s0 s1 s2 s3 :
  reduced h -> 0 <= s0 < 2 ^ 32 -> 0 <= s1 < 2 ^ 32 -> 0 <= s2 < 2 ^ 32 -> 0 <= s3 < 2 ^ 32 ->
  words_are ((fe_val h + (s0 + 2 ^ 32 * s1 + 2 ^ 64 * s2 + 2 ^ 96 * s3)) mod 2 ^ 128) (final_words h (s0, s1, s2, s3)).
Proof.
  destruct h as [h0 h1 h2 h3 h4]. unfold reduced, fe_val. cbn [l0 l1 l2 l3 l4]. intros (H0 & H1 & H2 & H3 & H4) S0 S1 S2 S3.
  cbv beta iota delta [final_words].
  destruct (cut_limb h1 6 ltac:(lia) H1) as (E1 & A1 & B1). destruct (cut_limb h2 12 ltac:(lia) H2) as (E2 & A2 & B2).
  destruct (cut_limb h3 18 ltac:(lia) H3) as (E3 & A3 & B3). destruct (cut_limb h4 24 ltac:(lia) H4) as (E4 & A4 & B4).
  change (26 - 6) with 20 in *. change (26 - 12) with 14 in *. change (26 - 18) with 8 in *. change (26 - 24) with 2 in *.
  rewrite (lor_shl h0 h1 26 6), (lor_shl (Z.shiftr h1 6) h2 20 12), (lor_shl (Z.shiftr h2 12) h3 14 18), (lor_shl (Z.shiftr h3 18) h4 8 24) by lia.
  next_let_in f0 F0. next_let_in f1 F1. next_let_in f2 F2. next_let_in f3 F3.
  replace ((h0 + 2 ^ 26 * h1 + 2 ^ 52 * h2 + 2 ^ 78 * h3 + 2 ^ 104 * h4 + (s0 + 2 ^ 32 * s1 + 2 ^ 64 * s2 + 2 ^ 96 * s3)) mod 2 ^ 128)
    with ((f0 + 2 ^ 32 * f1 + 2 ^ 64 * f2 + 2 ^ 96 * f3 + (s0 + 2 ^ 32 * s1 + 2 ^ 64 * s2 + 2 ^ 96 * s3)) mod 2 ^ 128).
  - apply add_words; lia.
  - rewrite <- (Z.mod_add (f0 + _ + _ + _ + _) (Z.shiftr h4 24)) by lia. f_equal. lia.
Qed.

Lemma final_tag_ok h s0 s1 s2 s3 S :
  h_ok h -> 0 <= s0 < 2 ^ 32 -> 0 <= s1 < 2 ^ 32 -> 0 <= s2 < 2 ^ 32 -> 0 <= s3 < 2 ^ 32 ->
  s0 + 2 ^ 32 * s1 + 2 ^ 64 * s2 + 2 ^ 96 * s3 = S ->
  final_tag h (s0, s1, s2, s3) = le_bytes 16 (fe_val h mod P1305 + S).
Proof.
  intros Hh S0 S1 S2 S3 HS. unfold final_tag. destruct (final_carry_ok h Hh) as [Hr [q Eq]]. destruct (final_select_ok _ Hr) as [Hr2 E2].
  pose proof (final_words_ok _ s0 s1 s2 s3 Hr2 S0 S1 S2 S3) as Hw. rewrite E2, Eq, HS in Hw.
  destruct (final_words _ _) as [[[f0 f1] f2] f3]. destruct Hw as (F0 & F1 & F2 & F3 & E).
  replace ((fe_val h - q * P1305) mod P1305) with (fe_val h mod P1305) in E by (rewrite <- (Z.mod_add (_ - _) q) by done; f_equal; lia).
  unfold U32TO8_LE. rewrite !store_le32_ok, <- le_bytes_words, E by done. apply (le_bytes_mod 16).
Qed.

Lemma le_val_zeros l n : le_val (l ++ replicate n 0) = le_val l.
Proof.
  rewrite le_val_app. assert (E : le_val (replicate n 0) = 0) by (induction n as [|n IH]; cbn [replicate le_val]; lia). rewrite E. lia.
Qed.

(** The last block is padded with a 1 and zeros. *)
Lemma last_block key ctx dn :
  poly_rep key ctx dn -> p_buf_len ctx <> 0 ->
  exists full tail k buf, dn = full ++ tail /\ length full = (k * 16)%nat /\ tail <> [] /\ (length tail < 16)%nat /\
    (let! buf := wr (p_buf ctx) (p_buf_len ctx) 1 in blit buf (p_buf_len ctx + 1) (replicate (Z.to_nat (15 - p_buf_len ctx)) 0)) = Ret buf /\
    Forall byte_ok buf /\ zlen buf = 16 /\ le_val buf = le_val (tail ++ [1]) /\ fe_val (p_h ctx) mod P1305 = poly_acc (poly_r key) full.
Proof.
  intros [] Hz. destruct pr_dn0 as (full & tail & k & -> & Hk & Ht & Hbl & Hbuf & Htb & E). pose proof (zlen_nonneg tail).
  exists full, tail, k, ((tail ++ [1]) ++ replicate (Z.to_nat (15 - zlen tail)) 0). rewrite Hbl in *.
  assert (Hr : zlen (replicate (Z.to_nat (15 - zlen tail)) 0) = 15 - zlen tail) by (unfold zlen in *; rewrite length_replicate; lia).
  split_and!; try done; try (unfold zlen in *; lia).
  - by intros ->.
  - destruct (padd (p_buf ctx) (zlen tail)) as [|x rest] eqn:Ep.
    { apply (f_equal zlen) in Ep. rewrite zlen_padd, zlen_nil in Ep; lia. }
    assert (Eb : p_buf ctx = tail ++ x :: rest) by (rewrite <- Ep, <- Hbuf at 1; unfold ztake, padd; symmetry; apply take_drop).
    rewrite Eb, wr_app. cbn [rbind]. assert (Hrest : zlen rest = 15 - zlen tail) by (rewrite Eb, zlen_app, zlen_cons in pr_len0; lia).
    rewrite blit_ok by (rewrite ?Hr, ?zlen_app, ?zlen_cons; lia). f_equal. change (tail ++ 1 :: rest) with (tail ++ [1] ++ rest). rewrite (app_assoc tail [1] rest).
    rewrite (ztake_app (tail ++ [1]) rest) by (by rewrite zlen_app). rewrite Hr. unfold padd. rewrite drop_ge, app_nil_r; [done|]. rewrite !length_app. cbn [length]. unfold zlen in *. lia.
  - apply Forall_app. split; [apply Forall_app; split; [done|by repeat constructor]|]. by apply Forall_replicate.
  - rewrite zlen_app, Hr, zlen_app. change (zlen [1]) with 1. lia.
  - apply le_val_zeros.
Qed.

Lemma poly1305_finish_ok key ctx dn : poly_rep key ctx dn -> poly1305_finish ctx = Ret (poly_tag key dn, poly_zero).
Proof.
  intros Hrep. unfold poly1305_finish. pose proof Hrep as Hrep0.
  destruct (p_s ctx) as [[[s0 s1] s2] s3] eqn:Es. pose proof (pr_s _ _ _ Hrep) as Hs. rewrite Es in Hs. destruct Hs as (S0 & S1 & S2 & S3 & HS).
  destruct (Z.eqb_spec (p_buf_len ctx) 0) as [Hz|Hz].
  - cbn [rbind]. rewrite Es, (final_tag_ok _ _ _ _ _ _ (pr_h _ _ _ Hrep) S0 S1 S2 S3 HS).
    destruct (rep_whole _ _ _ Hrep Hz) as (k & _ & ->). done.
  - destruct (last_block _ _ _ Hrep Hz) as (full & tail & k & buf & -> & Hk & Hne & Ht & Hbuf & Hb & Hl & Ev & Eacc).
    apply rbind_ret in Hbuf as (buf1 & -> & Hblit). cbn [rbind]. rewrite Hblit. cbn [rbind]. unfold poly1305_blocks.
    change (p_r (set_buf ctx buf (p_buf_len ctx))) with (p_r ctx). change (p_h (set_buf ctx buf (p_buf_len ctx))) with (p_h ctx).
    change (Z.to_nat 16) with 16%nat. cbn [blocks_loop]. change (16 <=? 16) with true. cbn iota.
    destruct (twp_ret _ _ (block_step_ok (p_r ctx) (p_h ctx) buf false (pr_r _ _ _ Hrep) (pr_h _ _ _ Hrep) Hb ltac:(lia))) as (h & -> & Hh & Eh).
    cbn [rbind]. change (16 <=? 16 - 16) with false. cbn iota. cbn [rbind set_h set_buf p_h p_s]. rewrite Es, (final_tag_ok _ _ _ _ _ _ Hh S0 S1 S2 S3 HS).
    do 2 f_equal. unfold poly_tag. do 2 f_equal. rewrite Eh, Z.add_0_r, (poly_acc_app _ _ _ _ Hk), chunks_last, ztake_all, Ev by (done || lia).
    cbn [foldl]. unfold poly_block. rewrite (pr_rv _ _ _ Hrep), <- Eacc, mul_add_mod. done.
Qed.

(** ** The guarantee *)

(** A sequence of [poly1305_update] calls. *)
Fixpoint update_all (ctx : poly1305_ctx_t) (msgs : list (list Z)) : res poly1305_ctx_t :=
  match msgs with
  | [] => Ret ctx
  | m :: msgs' => let! ctx := poly1305_update ctx m (zlen m) in update_all ctx msgs'
  end.

Lemma update_all_ok key msgs : forall ctx dn, poly_rep key ctx dn -> Forall (fun m => Forall byte_ok m /\ zlen m < 2 ^ 64) msgs ->
  exists ctx', update_all ctx msgs = Ret ctx' /\ poly_rep key ctx' (dn ++ concat msgs).
Proof.
  induction msgs as [|m msgs IH]; intros ctx dn Hrep Hm; cbn [update_all concat]; [exists ctx; by rewrite app_nil_r|].
  apply Forall_cons_1 in Hm as [[Hb Hl] Hm]. pose proof (zlen_nonneg m).
  destruct (poly1305_update_ok key ctx dn m (zlen m) Hrep Hb ltac:(lia) Hl) as (ctx1 & -> & Hrep1). cbn [rbind].
  rewrite ztake_all in Hrep1 by lia. destruct (IH ctx1 _ Hrep1 Hm) as (ctx2 & E & Hrep2). exists ctx2. by rewrite app_assoc.
Qed.

(** Poly1305 computes the RFC 8439 authenticator.  For every 32-byte key
    and every message, cut into [poly1305_update] calls in any way, the limb
    arithmetic stays within its 32- and 64-bit variables and the tag is
    ((sum of the blocks times powers of the clamped r) mod 2^130 - 5, plus s)
    mod 2^128; in particular it depends on the concatenation of the pieces
    only.  The context is wiped afterwards. *)
Theorem poly1305_correct ctx key msgs :
  Forall byte_ok key -> zlen key = 32 -> zlen (p_buf ctx) = 16 -> Forall (fun m => Forall byte_ok m /\ zlen m < 2 ^ 64) msgs ->
  (let! ctx := poly1305_init ctx key in let! ctx := update_all ctx msgs in poly1305_finish ctx) =
  Ret (poly_tag key (concat msgs), poly_zero).
Proof.
  intros Hk Hl Hb Hm. destruct (poly1305_init_ok ctx key Hk ltac:(lia) Hb) as (ctx1 & -> & H1). cbn [rbind].
  destruct (update_all_ok key msgs ctx1 [] H1 Hm) as (ctx2 & -> & H2). cbn [rbind]. by apply poly1305_finish_ok.
Qed.

(** The RFC 8439 vector, in three pieces. *)
Lemma poly1305_correct_witness :
  (let! ctx := poly1305_init poly_zero rfc_key in
   let! ctx := update_all ctx [ztake 3 rfc_msg; []; padd rfc_msg 3] in poly1305_finish ctx) = Ret (rfc_tag, poly_zero).
Proof.
  apply (poly1305_correct poly_zero rfc_key [ztake 3 rfc_msg; []; padd rfc_msg 3]).
  - repeat constructor; vm_compute; discriminate.
  - done.
  - done.
  - repeat constructor; vm_compute; discriminate.
Defined.
