(* ===== verification/Chacha.v ===== *)
(** * ChaCha20

    [userspace/crypto/chacha20.c] and [chacha20_sse2.c]: the block function,
    the scalar and the four-way vector keystream, and the streaming interface
    that carries a partial keystream block from one fragment to the next.  An
    output buffer is the list of the bytes written to it; [in] and [out] may be
    the same buffer, because byte [i] of the output depends on byte [i] of the
    input only. *)

From Stdlib Require Import ZArith Lia.
From stdpp Require Import list numbers option.
From S2P Require Import Prelude Util Words.

Definition CHACHA20_KEY_LEN : Z := 32.
Definition CHACHA20_NONCE_LEN : Z := 12.
Definition CHACHA20_BLOCK_LEN : Z := 64.

(** ** The block function *)

(** [QR(a, b, c, d)] with the word operations of a type of words. *)
Definition quarter {W} (add xor : W -> W -> W) (rotl : W -> Z -> W) (a b c d : W) : W * W * W * W :=
  let a := add a b in let d := xor d a in let d := rotl d 16 in
  let c := add c d in let b := xor b c in let b := rotl b 12 in
  let a := add a b in let d := xor d a in let d := rotl d 8 in
  let c := add c d in let b := xor b c in let b := rotl b 7 in
  (a, b, c, d).

(** A quarter round on four words of the state. *)
Definition on4 {W} (f : W -> W -> W -> W -> W * W * W * W) (i j k l : nat) (x : list W) : list W :=
  match x !! i, x !! j, x !! k, x !! l with
  | Some a, Some b, Some c, Some d => let '(a, b, c, d) := f a b c d in <[i:=a]> (<[j:=b]> (<[k:=c]> (<[l:=d]> x)))
  | _, _, _, _ => x
  end.

(** One column round and one diagonal round. *)
Definition double_round {W} (f : W -> W -> W -> W -> W * W * W * W) (x : list W) : list W :=
  let x := on4 f 0 4 8 12 x in
  let x := on4 f 1 5 9 13 x in
  let x := on4 f 2 6 10 14 x in
  let x := on4 f 3 7 11 15 x in
  let x := on4 f 0 5 10 15 x in
  let x := on4 f 1 6 11 12 x in
  let x := on4 f 2 7 8 13 x in
  on4 f 3 4 9 14 x.

Definition add32 (a b : Z) : Z := u32 (a + b).
Definition QR : Z -> Z -> Z -> Z -> Z * Z * Z * Z := quarter add32 Z.lxor rotl32.

(** [n] consecutive words from [off]. *)
Fixpoint load_words (p : list Z) (off : Z) (n : nat) : res (list Z) :=
  match n with
  | O => Ret []
  | S n' => let! w := load_le32 p off in let! ws := load_words p (off + 4) n' in Ret (w :: ws)
  end.

Definition initial_state (key : list Z) (counter : Z) (nonce : list Z) : res (list Z) :=
  let! k := load_words key 0 8 in
  let! n := load_words nonce 0 3 in
  Ret ([0x61707865; 0x3320646e; 0x79622d32; 0x6b206574] ++ k ++ [counter] ++ n).

Definition chacha20_block (key : list Z) (counter : Z) (nonce : list Z) : res (list Z) :=
  let! s := initial_state key counter nonce in
  let x := Nat.iter 10 (double_round QR) s in
  Ret (concat (map store_le32 (zip_with add32 x s))).

(** ** The scalar keystream *)

(** [while (len > 0)]; a round consumes at least a byte. *)
Fixpoint xor_loop (fuel : nat) (key : list Z) (counter : Z) (nonce inp : list Z) (len : Z) : res (list Z) :=
  if 0 <? len then
    match fuel with
    | O => Oob
    | S fuel' =>
        let! ks := chacha20_block key counter nonce in
        let take := if len <? CHACHA20_BLOCK_LEN then len else CHACHA20_BLOCK_LEN in
        let! src := rdn inp take in
        let! rest := xor_loop fuel' key (u32 (counter + 1)) nonce (padd inp take) (len - take) in
        Ret (xor_bytes src ks ++ rest)
    end
  else Ret [].

Definition chacha20_xor_scalar (key : list Z) (counter : Z) (nonce inp : list Z) (len : Z) : res (list Z) :=
  xor_loop (Z.to_nat len) key counter nonce inp len.

(** ** Four blocks at a time *)

(** [__m128i] as four 32-bit lanes. *)
Record vec := mk_vec { v0 : Z; v1 : Z; v2 : Z; v3 : Z }.

Definition lift1 (f : Z -> Z) (a : vec) : vec := mk_vec (f (v0 a)) (f (v1 a)) (f (v2 a)) (f (v3 a)).
Definition lift2 (f : Z -> Z -> Z) (a b : vec) : vec := mk_vec (f (v0 a) (v0 b)) (f (v1 a) (v1 b)) (f (v2 a) (v2 b)) (f (v3 a) (v3 b)).

Definition add_epi32 : vec -> vec -> vec := lift2 add32.
Definition xor_si128 : vec -> vec -> vec := lift2 Z.lxor.
Definition rotl_epi32 (x : vec) (n : Z) : vec :=
  lift2 Z.lor (lift1 (fun w => u32 (Z.shiftl w n)) x) (lift1 (fun w => Z.shiftr w (32 - n)) x).
Definition QR4 : vec -> vec -> vec -> vec -> vec * vec * vec * vec := quarter add_epi32 xor_si128 rotl_epi32.

Definition set1_epi32 (w : Z) : vec := mk_vec w w w w.
Definition unpacklo_epi32 (a b : vec) : vec := mk_vec (v0 a) (v0 b) (v1 a) (v1 b).
Definition unpackhi_epi32 (a b : vec) : vec := mk_vec (v2 a) (v2 b) (v3 a) (v3 b).
Definition unpacklo_epi64 (a b : vec) : vec := mk_vec (v0 a) (v1 a) (v0 b) (v1 b).
Definition unpackhi_epi64 (a b : vec) : vec := mk_vec (v2 a) (v3 a) (v2 b) (v3 b).

(** [_mm_storeu_si128] on a little-endian machine. *)
Definition vec_bytes (a : vec) : list Z := store_le32 (v0 a) ++ store_le32 (v1 a) ++ store_le32 (v2 a) ++ store_le32 (v3 a).

(** The body of the transposition loop for one [row]. *)
Definition transpose_row (x : list vec) (ks : list Z) (row : nat) : res (list Z) :=
  match x !! (row * 4)%nat, x !! (row * 4 + 1)%nat, x !! (row * 4 + 2)%nat, x !! (row * 4 + 3)%nat with
  | Some a, Some b, Some c, Some d =>
      let ab_lo := unpacklo_epi32 a b in
      let ab_hi := unpackhi_epi32 a b in
      let cd_lo := unpacklo_epi32 c d in
      let cd_hi := unpackhi_epi32 c d in
      let r := Z.of_nat row in
      let! ks := blit ks (0 * 64 + r * 16) (vec_bytes (unpacklo_epi64 ab_lo cd_lo)) in
      let! ks := blit ks (1 * 64 + r * 16) (vec_bytes (unpackhi_epi64 ab_lo cd_lo)) in
      let! ks := blit ks (2 * 64 + r * 16) (vec_bytes (unpacklo_epi64 ab_hi cd_hi)) in
      blit ks (3 * 64 + r * 16) (vec_bytes (unpackhi_epi64 ab_hi cd_hi))
  | _, _, _, _ => Oob
  end.

Definition transpose (x : list vec) (ks : list Z) : res (list Z) :=
  let! ks := transpose_row x ks 0 in
  let! ks := transpose_row x ks 1 in
  let! ks := transpose_row x ks 2 in
  transpose_row x ks 3.

(** Fills the 256 bytes of [ks]. *)
Definition chacha20_4blocks (key : list Z) (c0 : Z) (nonce ks : list Z) : res (list Z) :=
  let! s := initial_state key c0 nonce in
  let v := <[12%nat := mk_vec c0 (u32 (c0 + 1)) (u32 (c0 + 2)) (u32 (c0 + 3))]> (map set1_epi32 s) in
  let x := Nat.iter 10 (double_round QR4) v in
  let x := zip_with add_epi32 x v in
  transpose x ks.

(** [while (len >= 256)] and the scalar tail. *)
Fixpoint sse2_loop (fuel : nat) (key : list Z) (counter : Z) (nonce inp : list Z) (len : Z) : res (list Z) :=
  if 256 <=? len then
    match fuel with
    | O => Oob
    | S fuel' =>
        let! ks := chacha20_4blocks key counter nonce (replicate 256 0) in
        let! src := rdn inp 256 in
        let! rest := sse2_loop fuel' key (u32 (counter + 4)) nonce (padd inp 256) (len - 256) in
        Ret (xor_bytes src ks ++ rest)
    end
  else if 0 <? len then chacha20_xor_scalar key counter nonce inp len
  else Ret [].

Definition chacha20_xor_sse2 (key : list Z) (counter : Z) (nonce inp : list Z) (len : Z) : res (list Z) :=
  sse2_loop (Z.to_nat len) key counter nonce inp len.

(** The function pointer [chacha20_xor_fn]: on x86 with SSE2, else portable. *)
Inductive chacha20_impl := Impl_scalar | Impl_sse2.

Definition chacha20_select_impl (x86 x86_sse2 : bool) : chacha20_impl := if x86 && x86_sse2 then Impl_sse2 else Impl_scalar.

Definition chacha20_xor (impl : chacha20_impl) : list Z -> Z -> list Z -> list Z -> Z -> res (list Z) :=
  match impl with Impl_scalar => chacha20_xor_scalar | Impl_sse2 => chacha20_xor_sse2 end.

(** ** Streaming *)

Record chacha20_stream_t := mk_cs {
  cs_key : list Z;
  cs_nonce : list Z;
  cs_counter : Z;
  cs_ks_carry : list Z;
  cs_carry_off : Z
}.

(** [ks_carry] keeps whatever the memory held. *)
Definition chacha20_stream_init (cs : chacha20_stream_t) (key nonce : list Z) (initial_counter : Z) : res chacha20_stream_t :=
  let! k := rdn key CHACHA20_KEY_LEN in
  let! n := rdn nonce CHACHA20_NONCE_LEN in
  Ret (mk_cs k n initial_counter (cs_ks_carry cs) CHACHA20_BLOCK_LEN).

Definition set_carry (cs : chacha20_stream_t) (counter : Z) (carry : list Z) (off : Z) : chacha20_stream_t :=
  mk_cs (cs_key cs) (cs_nonce cs) counter carry off.

(** Drain any leftover keystream from the previous call. *)
Definition drain (cs : chacha20_stream_t) (inp : list Z) (len : Z) : res (chacha20_stream_t * list Z * list Z * Z) :=
  if (cs_carry_off cs <? CHACHA20_BLOCK_LEN) && (0 <? len) then
    let avail := CHACHA20_BLOCK_LEN - cs_carry_off cs in
    let take := if len <? avail then len else avail in
    let! src := rdn inp take in
    let! ks := rdn (padd (cs_ks_carry cs) (cs_carry_off cs)) take in
    Ret (set_carry cs (cs_counter cs) (cs_ks_carry cs) (u8 (cs_carry_off cs + u8 take)), xor_bytes src ks, padd inp take, len - take)
  else Ret (cs, [], inp, len).

(** Full middle blocks through the dispatched function. *)
Definition middle (impl : chacha20_impl) (cs : chacha20_stream_t) (inp : list Z) (len : Z) : res (chacha20_stream_t * list Z * list Z * Z) :=
  if CHACHA20_BLOCK_LEN <=? len then
    let full_bytes := Z.land len (UINT64_MAX - 63) in
    let! out := chacha20_xor impl (cs_key cs) (cs_counter cs) (cs_nonce cs) inp full_bytes in
    Ret (set_carry cs (u32 (cs_counter cs + u32 (full_bytes / CHACHA20_BLOCK_LEN))) (cs_ks_carry cs) (cs_carry_off cs), out,
         padd inp full_bytes, len - full_bytes)
  else Ret (cs, [], inp, len).

(** The bytes written to [out], and the context. *)
Definition chacha20_stream_xor (impl : chacha20_impl) (cs : chacha20_stream_t) (inp : list Z) (len : Z)
    : res (list Z * chacha20_stream_t) :=
  let! (cs, out1, inp, len) := drain cs inp len in
  let! (cs, out2, inp, len) := middle impl cs inp len in
  if 0 <? len then
    let! ks := chacha20_block (cs_key cs) (cs_counter cs) (cs_nonce cs) in
    let! src := rdn inp len in
    Ret (out1 ++ out2 ++ xor_bytes src ks, set_carry cs (u32 (cs_counter cs + 1)) ks (u8 len))
  else Ret (out1 ++ out2, cs).

(** RFC 8439, section 2.3.2. *)
Definition rfc_block_key : list Z := map Z.of_nat (seq 0 32).
Definition rfc_block_nonce : list Z := [0; 0; 0; 9; 0; 0; 0; 0x4a; 0; 0; 0; 0].

Lemma rfc_block :
  (let! b := chacha20_block rfc_block_key 1 rfc_block_nonce in Ret (ztake 16 b)) =
  Ret [0x10; 0xf1; 0xe7; 0xe4; 0xd1; 0x3b; 0x59; 0x15; 0x50; 0x0f; 0xdd; 0x1f; 0xa3; 0x20; 0x71; 0xc4].
Proof. by vm_compute. Qed.

(** ** The keystream of RFC 8439 *)

(** The 32-bit words of a byte string. *)
Definition le_words (n : nat) (p : list Z) (off : Z) : list Z := map (fun i => le_val (sub p (off + 4 * Z.of_nat i) 4)) (seq 0 n).

Definition chacha_state (key nonce : list Z) (c : Z) : list Z :=
  [0x61707865; 0x3320646e; 0x79622d32; 0x6b206574] ++ le_words 8 key 0 ++ [c] ++ le_words 3 nonce 0.

Definition chacha_core (s : list Z) : list Z := zip_with add32 (Nat.iter 10 (double_round QR) s) s.

Definition chacha_block (key nonce : list Z) (c : Z) : list Z := concat (map (le_bytes 4) (chacha_core (chacha_state key nonce c))).

(** The message xored with the keystream from block [c] on. *)
Definition chacha (key nonce : list Z) : Z -> list Z -> list Z := ctr 64 (chacha_block key nonce).

(** A key and a nonce of the right sizes. *)
Definition chacha_keyed (key nonce : list Z) : Prop :=
  (Forall byte_ok key /\ zlen key = 32) /\ (Forall byte_ok nonce /\ zlen nonce = 12).

(** ** The block function computes it *)

Lemma le_words_S n p off : le_words (S n) p off = le_val (sub p off 4) :: le_words n p (off + 4).
Proof.
  unfold le_words. cbn [seq map]. f_equal; [do 2 f_equal; lia|]. rewrite <- seq_shift, map_map. apply map_ext. intros i. do 2 f_equal. lia.
Qed.

Lemma load_words_ok p n off :
  Forall byte_ok p -> 0 <= off -> off + 4 * Z.of_nat n <= zlen p -> load_words p off n = Ret (le_words n p off).
Proof.
  intros Hp. revert off. induction n as [|n IH]; intros off H1 H2; [done|].
  cbn [load_words]. rewrite load_le32_ok by (try done; lia). cbn [rbind]. rewrite IH by lia. cbn [rbind]. by rewrite le_words_S.
Qed.

Lemma initial_state_ok key c nonce : chacha_keyed key nonce -> initial_state key c nonce = Ret (chacha_state key nonce c).
Proof. intros [[? ?] [? ?]]. unfold initial_state. by rewrite !load_words_ok by (try done; lia). Qed.

Lemma length_on4 {W} (f : W -> W -> W -> W -> W * W * W * W) i j k l x : length (on4 f i j k l x) = length x.
Proof.
  unfold on4. destruct (x !! i) as [a|], (x !! j) as [b|], (x !! k) as [c|], (x !! l) as [d|]; try done.
  destruct (f a b c d) as [[[? ?] ?] ?]. by rewrite !length_insert.
Qed.

Lemma length_rounds {W} (f : W -> W -> W -> W -> W * W * W * W) n x : length (Nat.iter n (double_round f) x) = length x.
Proof. induction n; [done|]. rewrite Nat.iter_succ. unfold double_round at 1. by rewrite !length_on4. Qed.

Lemma length_chacha_core s : length (chacha_core s) = length s.
Proof. unfold chacha_core. rewrite length_zip_with, length_rounds. lia. Qed.

Lemma length_words_bytes ws : length (concat (map (le_bytes 4) ws)) = (length ws * 4)%nat.
Proof. induction ws as [|w ws IH]; [done|]. cbn [map concat length]. rewrite length_app, length_le_bytes, IH. lia. Qed.

Lemma words_bytes_ok ws : Forall byte_ok (concat (map (le_bytes 4) ws)).
Proof. induction ws; cbn [map concat]; [constructor|]. apply Forall_app. split; [apply le_bytes_ok|done]. Qed.

Lemma length_chacha_block key nonce c : length (chacha_block key nonce c) = 64%nat.
Proof. unfold chacha_block. by rewrite length_words_bytes, length_chacha_core. Qed.

Lemma chacha_block_byte_ok key nonce c : Forall byte_ok (chacha_block key nonce c).
Proof. apply words_bytes_ok. Qed.

Lemma chacha20_block_ok key c nonce : chacha_keyed key nonce -> chacha20_block key c nonce = Ret (chacha_block key nonce c).
Proof.
  intros. unfold chacha20_block. rewrite initial_state_ok by done. cbn [rbind]. f_equal. unfold chacha_block, chacha_core. f_equal.
  apply map_ext, store_le32_ok.
Qed.

Lemma xor_loop_ok key nonce : chacha_keyed key nonce -> forall fuel c inp len,
  0 <= len <= zlen inp -> (Z.to_nat len <= fuel)%nat -> xor_loop fuel key c nonce inp len = Ret (chacha key nonce c (ztake len inp)).
Proof.
  intros Hk. induction fuel as [|fuel IH]; intros c inp len Hl Hf; cbn [xor_loop]; (zcase; [|by replace len with 0 by lia]); [lia|].
  rewrite chacha20_block_ok by done. cbn [rbind]. unfold CHACHA20_BLOCK_LEN in *. unfold chacha. zcase.
  - rewrite rdn_ok by lia. cbn [rbind]. rewrite IH by (rewrite ?zlen_padd; lia). replace (len - len) with 0 by lia.
    cbn [rbind]. change (ztake 0 _) with (@nil Z). unfold chacha. by rewrite ctr_nil, app_nil_r, ctr_short by (rewrite ?length_ztake; lia).
  - rewrite rdn_ok by lia. cbn [rbind]. rewrite IH by (rewrite ?zlen_padd; lia). cbn [rbind].
    replace (ztake len inp) with (ztake 64 inp ++ ztake (len - 64) (padd inp 64)) by (rewrite <- ztake_split by lia; f_equal; lia).
    unfold chacha. by rewrite ctr_cons by (rewrite ?length_ztake; lia).
Qed.

Lemma chacha20_xor_scalar_ok key c nonce inp len :
  chacha_keyed key nonce -> 0 <= len <= zlen inp -> chacha20_xor_scalar key c nonce inp len = Ret (chacha key nonce c (ztake len inp)).
Proof. intros. by apply xor_loop_ok. Qed.

(** ** Lanes

    Lane [j] of the vector computation is the scalar computation. *)

Definition lane_op (g : vec -> Z) : Prop :=
  (forall f a b, g (lift2 f a b) = f (g a) (g b)) /\ (forall f a, g (lift1 f a) = f (g a)) /\ forall w, g (set1_epi32 w) = w.

Lemma lane_ops : lane_op v0 /\ lane_op v1 /\ lane_op v2 /\ lane_op v3.
Proof. by split_and!. Qed.

Section lane.
  Context (g : vec -> Z) (Hg : lane_op g).

Lemma lane_QR4 a b c d : let '(a', b', c', d') := QR4 a b c d in QR (g a) (g b) (g c) (g d) = (g a', g b', g c', g d').
Proof using Hg.
  destruct Hg as (H2 & H1 & _). unfold QR4, QR, quarter, add_epi32, xor_si128, rotl_epi32, rotl32. repeat (rewrite ?H2, ?H1). done.
Qed.

Lemma lane_on4 i j k l x : map g (on4 QR4 i j k l x) = on4 QR i j k l (map g x).
Proof using Hg.
  unfold on4. change (map g) with (fmap (M:=list) g). rewrite !list_lookup_fmap.
  destruct (x !! i) as [a|], (x !! j) as [b|], (x !! k) as [c|], (x !! l) as [d|]; try done. cbn [fmap option_fmap option_map].
  pose proof (lane_QR4 a b c d) as E. destruct (QR4 a b c d) as [[[? ?] ?] ?]. rewrite E. by rewrite !list_fmap_insert.
Qed.

Lemma lane_rounds n x : map g (Nat.iter n (double_round QR4) x) = Nat.iter n (double_round QR) (map g x).
Proof using Hg. induction n; [done|]. rewrite !Nat.iter_succ. unfold double_round at 1 3. by rewrite !lane_on4, IHn. Qed.

Lemma lane_core v : map g (zip_with add_epi32 (Nat.iter 10 (double_round QR4) v) v) = chacha_core (map g v).
Proof using Hg.
  unfold chacha_core. rewrite <- lane_rounds. generalize (Nat.iter 10 (double_round QR4) v). intros x. revert v.
  induction x as [|a x IH]; intros v; [done|]. destruct v as [|b v]; [done|]. cbn [zip_with map]. f_equal; [apply Hg|apply IH].
Qed.

Lemma lane_state key nonce c w :
  map g (<[12%nat := w]> (map set1_epi32 (chacha_state key nonce c))) = chacha_state key nonce (g w).
Proof using Hg. unfold chacha_state, le_words. cbn. destruct Hg as (_ & _ & H). by rewrite !H. Qed.
End lane.

(** ** The transposition *)

Lemma length_vec_bytes a : length (vec_bytes a) = 16%nat.
Proof. done. Qed.

(** Overwriting one of the 16-byte cells of a buffer. *)
Lemma blit_cell cs i data :
  Forall (fun c => length c = 16%nat) cs -> (i < length cs)%nat -> length data = 16%nat ->
  blit (concat cs) (16 * Z.of_nat i) data = Ret (concat (<[i := data]> cs)).
Proof.
  intros Hcs Hi Hd. destruct (lookup_lt_is_Some_2 cs i Hi) as [c Hc]. pose proof (take_drop_middle cs i c Hc) as E.
  assert (Hl : forall l : list (list Z), Forall (fun c => length c = 16%nat) l -> length (concat l) = (16 * length l)%nat).
  { induction 1; [done|]. cbn [concat length]. rewrite length_app. lia. }
  rewrite insert_take_drop by done. rewrite <- E at 1. rewrite !concat_app. cbn [concat].
  assert (H1 : zlen (concat (take i cs)) = 16 * Z.of_nat i).
  { unfold zlen. rewrite Hl by (by apply Forall_take). rewrite length_take. lia. }
  assert (H2 : length c = 16%nat) by (eapply (Forall_lookup_1 _ _ _ _ Hcs Hc)).
  rewrite blit_ok; [|lia|rewrite !zlen_app, H1; unfold zlen; rewrite H2, Hd; lia]. f_equal.
  rewrite (ztake_app _ _ (16 * Z.of_nat i)) by done. f_equal. f_equal. rewrite app_assoc. apply padd_app. rewrite zlen_app, H1. unfold zlen. lia.
Qed.

Ltac cell i :=
  match goal with
  | |- context [blit (concat ?cs) ?o ?d] =>
      change o with (16 * Z.of_nat i); rewrite (blit_cell cs i d) by first [done|by repeat constructor|cbn; lia]; cbn [rbind insert list_insert]
  end.

Definition four_lanes (x : list vec) : list Z :=
  concat (map (le_bytes 4) (map v0 x ++ map v1 x ++ map v2 x ++ map v3 x)).

Lemma transpose_ok x ks :
  length x = 16%nat -> zlen ks = 256 ->
  transpose x ks = Ret (four_lanes x).
Proof.
  intros Hx Hks.
  assert (E : exists cs, ks = concat cs /\ length cs = 16%nat /\ Forall (fun c => length c = 16%nat) cs).
  { exists (map (fun i => sub ks (16 * Z.of_nat i) 16) (seq 0 16)). split; [|split; [done|]].
    - cbn [seq map concat]. rewrite app_nil_r. rewrite <- (ztake_all ks 256) at 1 by lia. change (ztake 256 ks) with (sub ks 0 256).
      change 256 with (16 + (16 + (16 + (16 + (16 + (16 + (16 + (16 + (16 + (16 + (16 + (16 + (16 + (16 + (16 + 16))))))))))))))).
      by rewrite !sub_split by lia.
    - apply Forall_map, list.Forall_forall. intros i Hi%elem_of_seq. apply Nat2Z.inj. by apply (zlen_sub ks); lia. }
  destruct E as (cs & -> & Hcs & H16). clear Hks.
  do 17 (destruct x as [|? x]; try done). do 17 (destruct cs as [|? cs]; try done). clear Hx Hcs.
  repeat (apply Forall_cons_1 in H16 as [? H16]). unfold transpose, transpose_row. cbn [lookup list_lookup Nat.mul Nat.add].
  cell 0%nat; cell 4%nat; cell 8%nat; cell 12%nat; cell 1%nat; cell 5%nat; cell 9%nat; cell 13%nat.
  cell 2%nat; cell 6%nat; cell 10%nat; cell 14%nat; cell 3%nat; cell 7%nat; cell 11%nat; cell 15%nat.
  f_equal. unfold four_lanes, vec_bytes. rewrite !store_le32_ok. cbn [map app concat]. by rewrite <- !app_assoc.
Qed.

Lemma four_lanes_app x :
  four_lanes x = concat (map (le_bytes 4) (map v0 x)) ++ concat (map (le_bytes 4) (map v1 x)) ++
    concat (map (le_bytes 4) (map v2 x)) ++ concat (map (le_bytes 4) (map v3 x)).
Proof. unfold four_lanes. by rewrite !map_app, !concat_app. Qed.

(** Four consecutive blocks. *)
Lemma chacha20_4blocks_ok key c nonce ks :
  chacha_keyed key nonce -> 0 <= c < 2 ^ 32 -> zlen ks = 256 ->
  chacha20_4blocks key c nonce ks =
  Ret (chacha_block key nonce c ++ chacha_block key nonce (u32 (c + 1)) ++ chacha_block key nonce (u32 (c + 2)) ++
       chacha_block key nonce (u32 (c + 3))).
Proof.
  intros Hk Hc Hks. unfold chacha20_4blocks. rewrite initial_state_ok by done. cbn [rbind].
  set (v := <[12%nat := mk_vec c (u32 (c + 1)) (u32 (c + 2)) (u32 (c + 3))]> (map set1_epi32 (chacha_state key nonce c))).
  assert (Hv : length v = 16%nat) by reflexivity.
  assert (Hx : length (zip_with add_epi32 (Nat.iter 10 (double_round QR4) v) v) = 16%nat) by (rewrite length_zip_with, length_rounds; lia).
  rewrite (transpose_ok _ _ Hx Hks), four_lanes_app. destruct lane_ops as (L0 & L1 & L2 & L3). unfold chacha_block.
  rewrite (lane_core v0 L0), (lane_core v1 L1), (lane_core v2 L2), (lane_core v3 L3).
  unfold v. rewrite (lane_state v0 L0), (lane_state v1 L1), (lane_state v2 L2), (lane_state v3 L3). cbn [v0 v1 v2 v3]. reflexivity.
Qed.

(** The 256 bytes are the keystream of four blocks. *)
Lemma ctr_four key nonce c a m :
  length a = 256%nat -> chacha key nonce c (a ++ m) =
  xor_bytes a (chacha_block key nonce c ++ chacha_block key nonce (u32 (c + 1)) ++ chacha_block key nonce (u32 (c + 2)) ++
               chacha_block key nonce (u32 (c + 3))) ++ chacha key nonce (u32 (c + 4)) m.
Proof.
  intros Ha. destruct (split_length 64 192 a Ha) as (a0 & r0 & -> & H0 & R0).
  destruct (split_length 64 128 r0 R0) as (a1 & r1 & -> & H1 & R1). destruct (split_length 64 64 r1 R1) as (a2 & a3 & -> & H2 & H3).
  unfold chacha. rewrite <- !app_assoc.
  rewrite !ctr_cons by (done || lia). rewrite !u32_add_l, <- !Z.add_assoc.
  rewrite !xor_bytes_app by (by rewrite length_chacha_block). by rewrite <- !app_assoc.
Qed.

Lemma sse2_loop_ok key nonce : chacha_keyed key nonce -> forall fuel c inp len,
  0 <= c < 2 ^ 32 -> 0 <= len <= zlen inp -> (Z.to_nat len <= fuel)%nat ->
  sse2_loop fuel key c nonce inp len = Ret (chacha key nonce c (ztake len inp)).
Proof.
  intros Hk. induction fuel as [|fuel IH]; intros c inp len Hc Hl Hf; cbn [sse2_loop]; zcase; try lia;
    try (zcase; [by apply chacha20_xor_scalar_ok|by replace len with 0 by lia]).
  rewrite chacha20_4blocks_ok by done. cbn [rbind]. rewrite rdn_ok by lia. cbn [rbind].
  rewrite IH by (rewrite ?zlen_padd; try apply u32_range; lia). cbn [rbind].
  replace (ztake len inp) with (ztake 256 inp ++ ztake (len - 256) (padd inp 256)) by (rewrite <- ztake_split by lia; f_equal; lia).
  by rewrite ctr_four by (rewrite length_ztake; lia).
Qed.

Lemma chacha20_xor_ok impl key c nonce inp len :
  chacha_keyed key nonce -> 0 <= c < 2 ^ 32 -> 0 <= len <= zlen inp ->
  chacha20_xor impl key c nonce inp len = Ret (chacha key nonce c (ztake len inp)).
Proof. intros. destruct impl; [by apply chacha20_xor_scalar_ok|by apply sse2_loop_ok]. Qed.

Lemma length_chacha key nonce c m : length (chacha key nonce c m) = length m.
Proof. apply length_ctr; [lia|apply length_chacha_block]. Qed.

Lemma chacha_twice key nonce c m : chacha key nonce c (chacha key nonce c m) = m.
Proof. apply ctr_twice; [lia|apply length_chacha_block]. Qed.

Lemma chacha_byte_ok key nonce c m : Forall byte_ok m -> Forall byte_ok (chacha key nonce c m).
Proof. apply ctr_byte_ok; [lia|apply chacha_block_byte_ok]. Qed.

#[local] Opaque chacha_block chacha20_block.

(** ** Streaming

    After the bytes [d], the context is at a block boundary, or it holds the
    keystream block of the bytes [t] that follow the last boundary. *)
Definition cs_keyed (key nonce : list Z) (cs : chacha20_stream_t) : Prop :=
  cs_key cs = key /\ cs_nonce cs = nonce /\ chacha_keyed key nonce.

Definition cs_aligned (key nonce : list Z) (c0 : Z) (cs : chacha20_stream_t) (d : list Z) : Prop :=
  cs_keyed key nonce cs /\
  exists k, length d = (k * 64)%nat /\ cs_counter cs = u32 (c0 + Z.of_nat k) /\ cs_carry_off cs = 64.

Definition cs_partial (key nonce : list Z) (c0 : Z) (cs : chacha20_stream_t) (d : list Z) : Prop :=
  cs_keyed key nonce cs /\
  exists k f t, d = f ++ t /\ length f = (k * 64)%nat /\ (0 < length t < 64)%nat /\ cs_counter cs = u32 (c0 + Z.of_nat k + 1) /\
    cs_carry_off cs = zlen t /\ cs_ks_carry cs = chacha_block key nonce (u32 (c0 + Z.of_nat k)).

Definition cs_rep (key nonce : list Z) (c0 : Z) (cs : chacha20_stream_t) (d : list Z) : Prop :=
  cs_aligned key nonce c0 cs d \/ cs_partial key nonce c0 cs d.

Lemma chacha20_stream_init_ok cs key nonce c0 :
  chacha_keyed key nonce -> 0 <= c0 < 2 ^ 32 ->
  exists cs', chacha20_stream_init cs key nonce c0 = Ret cs' /\ cs_rep key nonce c0 cs' [].
Proof.
  intros Hk Hc. destruct Hk as [[Hk1 Hk2] [Hn1 Hn2]]. unfold chacha20_stream_init, CHACHA20_KEY_LEN, CHACHA20_NONCE_LEN.
  rewrite !rdn_ok by lia. cbn [rbind]. rewrite !ztake_all by lia. eexists. split; [done|]. left. split; [done|].
  exists 0%nat. split_and!; [done| |done]. cbn [cs_counter]. change (Z.of_nat 0) with 0. by rewrite Z.add_0_r, u32_small.
Qed.

Section stream.
  Context (impl : chacha20_impl) (key nonce : list Z) (c0 : Z) (Hc0 : 0 <= c0 < 2 ^ 32).

(** What a phase that consumes [m] and writes [out] establishes. *)
Definition phase_ok (P : chacha20_stream_t -> list Z -> Prop) (cs' : chacha20_stream_t) (d m out : list Z) : Prop :=
  chacha key nonce c0 (d ++ m) = chacha key nonce c0 d ++ out /\ P cs' (d ++ m).

Lemma drain_ok cs d inp len :
  cs_rep key nonce c0 cs d -> 0 <= len <= zlen inp ->
  exists cs' out n, drain cs inp len = Ret (cs', out, padd inp n, len - n) /\ 0 <= n <= len /\
    phase_ok (fun cs' d' => cs_aligned key nonce c0 cs' d' \/ n = len /\ cs_partial key nonce c0 cs' d') cs' d (ztake n inp) out.
Proof using Hc0.
  intros Hrep Hl. unfold drain, phase_ok, CHACHA20_BLOCK_LEN. destruct Hrep as [Ha|[Hk (k & f & t & -> & Hf & Ht & Hct & Ho & Hks)]].
  { exists cs, [], 0. pose proof Ha as [_ (k & _ & _ & ->)]. replace (64 <? 64) with false by lia. cbn [andb].
    rewrite padd_0, Z.sub_0_r. change (ztake 0 inp) with (@nil Z). rewrite !app_nil_r. split_and!; [done|lia..|done|by left]. }
  rewrite Ho. replace (zlen t <? 64) with true by (unfold zlen; lia). cbn [andb]. zcase.
  2:{ exists cs, [], 0. rewrite padd_0, Z.sub_0_r. change (ztake 0 inp) with (@nil Z). rewrite !app_nil_r.
      split_and!; [done|lia..|done|right]. split; [lia|]. split; [done|]. exists k, f, t. tauto. }
  set (n := if len <? 64 - zlen t then len else 64 - zlen t).
  assert (Hn : 0 <= n <= len /\ n <= 64 - zlen t /\ (n < 64 - zlen t -> n = len)) by (unfold n; zcase; unfold zlen in *; lia).
  clearbody n. assert (Hm : length (ztake n inp) = Z.to_nat n) by (apply length_ztake; lia).
  assert (Hks' : zlen (cs_ks_carry cs) = 64) by (rewrite Hks; unfold zlen; by rewrite length_chacha_block).
  rewrite !rdn_ok by (rewrite ?zlen_padd, ?Hks'; unfold zlen in *; lia). cbn [rbind].
  rewrite (u8_small n) by (unfold byte_ok, zlen in *; lia). rewrite u8_small by (unfold byte_ok, zlen in *; lia).
  exists (set_carry cs (cs_counter cs) (cs_ks_carry cs) (zlen t + n)), (xor_bytes (ztake n inp) (ztake n (padd (cs_ks_carry cs) (zlen t)))), n.
  split_and!; [done|lia..| |].
  - unfold chacha. rewrite (ctr_within 64 _ ltac:(lia) (length_chacha_block key nonce) k c0 f t (ztake n inp) Hc0 Hf) by (unfold zlen in *; lia).
    f_equal. rewrite <- Hks. rewrite (xor_bytes_short (ztake n inp) (drop _ _)), length_ztake by lia. unfold padd, zlen, ztake. by rewrite Nat2Z.id.
  - rewrite <- app_assoc.
    destruct (decide (n < 64 - zlen t)) as [Hlt|Hge].
    + right. split; [lia|]. split; [done|]. exists k, f, (t ++ ztake n inp). rewrite length_app, zlen_app, Hm.
      split_and!; [reflexivity|assumption|unfold zlen in *; lia..|assumption|unfold zlen in *; cbn; lia|assumption].
    + left. split; [done|]. exists (S k). rewrite !length_app, Hm. cbn. rewrite Hct. split_and!; [unfold zlen in *; lia|f_equal; lia|unfold zlen in *; lia].
Qed.

Lemma land_blocks len : 0 <= len < 2 ^ 64 -> Z.land len (UINT64_MAX - 63) = 64 * (len / 64).
Proof.
  intros H. change (UINT64_MAX - 63) with (Z.ldiff (Z.ones 64) (Z.ones 6)).
  assert (E : Z.land len (Z.ldiff (Z.ones 64) (Z.ones 6)) = Z.ldiff (Z.land len (Z.ones 64)) (Z.ones 6)).
  { apply Z.bits_inj'. intros n Hn. rewrite !Z.land_spec, !Z.ldiff_spec, Z.land_spec. by rewrite andb_assoc. }
  rewrite E, Z.land_ones, Z.mod_small, Z.ldiff_ones_r, Z.shiftl_mul_pow2, Z.shiftr_div_pow2 by lia. change (2 ^ 6) with 64. lia.
Qed.

Lemma middle_ok cs d inp len :
  cs_aligned key nonce c0 cs d -> 0 <= len <= zlen inp -> len < 2 ^ 64 ->
  exists cs' out n, middle impl cs inp len = Ret (cs', out, padd inp n, len - n) /\ 0 <= n <= len /\ len - n < 64 /\
    phase_ok (cs_aligned key nonce c0) cs' d (ztake n inp) out.
Proof using Hc0.
  intros Ha Hl Hl'. unfold middle, phase_ok, CHACHA20_BLOCK_LEN. zcase.
  2:{ exists cs, [], 0. rewrite padd_0, Z.sub_0_r. change (ztake 0 inp) with (@nil Z). rewrite !app_nil_r. split_and!; try done; lia. }
  destruct Ha as [(Hk & Hn & Hkn) (k & Hd & Hct & Ho)]. rewrite land_blocks by lia. set (n := 64 * (len / 64)).
  assert (Hbn : 0 <= n <= len /\ len - n < 64 /\ n = 64 * (n / 64)) by (unfold n; dlia).
  rewrite Hk, Hn, chacha20_xor_ok by (try done; rewrite ?Hct; try apply u32_range; lia). cbn [rbind]. eexists _, _, n. split; [done|]. split_and!; try lia.
  - rewrite Hct. unfold chacha. apply ctr_app; [lia|assumption|assumption].
  - split; [done|]. exists (k + Z.to_nat (n / 64))%nat. rewrite length_app, length_ztake by lia. cbn. rewrite Hct, Ho, u32_add_l.
    split_and!; [dlia| |done]. rewrite Z.add_comm. unfold u32 at 2. unfold u32 at 1. rewrite Zplus_mod_idemp_l. unfold u32. f_equal. dlia.
Qed.

(** One call continues the keystream where the previous one stopped. *)
Lemma chacha20_stream_xor_ok cs d inp len :
  cs_rep key nonce c0 cs d -> 0 <= len <= zlen inp -> len < 2 ^ 64 ->
  exists cs' out, chacha20_stream_xor impl cs inp len = Ret (out, cs') /\ phase_ok (cs_rep key nonce c0) cs' d (ztake len inp) out.
Proof using Hc0.
  intros Hrep Hl Hl'. unfold chacha20_stream_xor.
  destruct (drain_ok cs d inp len Hrep Hl) as (cs1 & out1 & n1 & -> & Hn1 & [Hout1 [Ha1|[-> Hp]]]); cbn [rbind].
  2:{ rewrite Z.sub_diag. unfold middle, CHACHA20_BLOCK_LEN. replace (64 <=? 0) with false by lia. cbn [rbind]. replace (0 <? 0) with false by lia.
      rewrite app_nil_r. eexists _, _. split; [done|]. split; [done|by right]. }
  destruct (middle_ok cs1 _ (padd inp n1) (len - n1) Ha1) as (cs2 & out2 & n2 & -> & Hn2 & Hn3 & [Hout2 Ha2]); [rewrite zlen_padd; lia|lia|].
  cbn [rbind]. rewrite <- app_assoc in Hout2, Ha2. rewrite <- ztake_split in Hout2, Ha2 by lia. rewrite padd_padd by lia.
  zcase.
  2:{ replace (n1 + n2) with len in * by lia. eexists _, _. split; [done|]. split; [|by left]. by rewrite Hout2, Hout1, app_assoc. }
  pose proof Ha2 as [(Hk & Hn & Hkn) (k & Hd & Hct & Ho)]. rewrite Hk, Hn, chacha20_block_ok by done. cbn [rbind].
  rewrite rdn_ok by (rewrite zlen_padd; lia). cbn [rbind]. eexists _, _. split; [done|].
  replace (ztake len inp) with (ztake (n1 + n2) inp ++ ztake (len - n1 - n2) (padd inp (n1 + n2))) by (rewrite <- ztake_split by lia; f_equal; lia).
  assert (Hm : length (ztake (len - n1 - n2) (padd inp (n1 + n2))) = Z.to_nat (len - n1 - n2)) by (rewrite length_ztake by (rewrite ?zlen_padd; lia); lia).
  unfold phase_ok. rewrite app_assoc. split.
  - unfold chacha in *. rewrite (ctr_app 64 _ ltac:(lia) k c0 _ _ Hc0 Hd), (ctr_short 64 _ ltac:(lia) _ (ztake (len - n1 - n2) _)), Hout2, Hout1 by lia.
    by rewrite <- Hct, !app_assoc.
  - right. split; [done|]. eexists k, _, _. split; [done|]. rewrite Hm. cbn. rewrite Hct, u32_add_l.
    split_and!; [assumption|lia..|reflexivity| |reflexivity]. rewrite u8_small by (unfold byte_ok; lia). unfold zlen. rewrite Hm. lia.
Qed.
End stream.

(** A message given to the stream in fragments. *)
Fixpoint stream_all (impl : chacha20_impl) (cs : chacha20_stream_t) (frags : list (list Z)) : res (list Z * chacha20_stream_t) :=
  match frags with
  | [] => Ret ([], cs)
  | m :: frags' =>
      let! (out, cs) := chacha20_stream_xor impl cs m (zlen m) in
      let! (rest, cs) := stream_all impl cs frags' in
      Ret (out ++ rest, cs)
  end.

Lemma stream_all_ok impl key nonce c0 frags : 0 <= c0 < 2 ^ 32 -> Forall (fun m => zlen m < 2 ^ 64) frags -> forall cs d,
  cs_rep key nonce c0 cs d ->
  exists out cs', stream_all impl cs frags = Ret (out, cs') /\
    chacha key nonce c0 (d ++ concat frags) = chacha key nonce c0 d ++ out /\ cs_rep key nonce c0 cs' (d ++ concat frags).
Proof.
  intros Hc. induction 1 as [|m frags Hm Hf IH]; intros cs d Hd.
  { exists [], cs. cbn [stream_all concat]. by rewrite !app_nil_r. }
  cbn [stream_all concat]. destruct (chacha20_stream_xor_ok impl key nonce c0 Hc cs d m (zlen m) Hd) as (cs1 & o1 & -> & Ho1 & Hr1);
    [pose proof (zlen_nonneg m); lia|done|]. cbn [rbind]. rewrite ztake_all in Ho1, Hr1 by lia.
  destruct (IH cs1 _ Hr1) as (o2 & cs2 & -> & Ho2 & Hr2). cbn [rbind]. eexists _, _. split; [done|].
  rewrite app_assoc. split; [|done]. by rewrite Ho2, Ho1, app_assoc.
Qed.

(** Encrypting a message in fragments of any sizes, with either
    implementation, gives the bytes that a single call of either
    implementation gives on the whole message; a second pass over them with
    the same key, nonce and counter gives the message back. *)
Theorem chacha20_stream_equiv impl impl' cs key nonce c0 frags :
  chacha_keyed key nonce -> 0 <= c0 < 2 ^ 32 -> Forall (fun m => zlen m < 2 ^ 64) frags ->
  exists out cs', (let! cs := chacha20_stream_init cs key nonce c0 in stream_all impl cs frags) = Ret (out, cs') /\
    chacha20_xor impl' key c0 nonce (concat frags) (zlen (concat frags)) = Ret out /\
    chacha20_xor impl' key c0 nonce out (zlen out) = Ret (concat frags).
Proof.
  intros Hk Hc Hf. destruct (chacha20_stream_init_ok cs key nonce c0 Hk Hc) as (cs0 & -> & H0). cbn [rbind].
  destruct (stream_all_ok impl key nonce c0 frags Hc Hf cs0 [] H0) as (out & cs' & -> & Ho & _). exists out, cs'.
  cbn [app] in Ho. change (chacha key nonce c0 []) with (@nil Z) in Ho. cbn [app] in Ho.
  rewrite !chacha20_xor_ok, !ztake_all by (try done; unfold zlen; lia). rewrite <- Ho. by rewrite chacha_twice.
Qed.

Lemma chacha20_stream_equiv_witness :
  exists out cs', (let! cs := chacha20_stream_init (mk_cs [] [] 0 [] 0) rfc_block_key rfc_block_nonce 0xffffffff in
      stream_all Impl_sse2 cs [replicate 10 1; replicate 300 2; []; replicate 7 3]) = Ret (out, cs') /\
    chacha20_xor Impl_scalar rfc_block_key 0xffffffff rfc_block_nonce (concat [replicate 10 1; replicate 300 2; []; replicate 7 3])
      (zlen (concat [replicate 10 1; replicate 300 2; []; replicate 7 3])) = Ret out /\
    chacha20_xor Impl_scalar rfc_block_key 0xffffffff rfc_block_nonce out (zlen out) = Ret (concat [replicate 10 1; replicate 300 2; []; replicate 7 3]).
Proof.
  apply (chacha20_stream_equiv Impl_sse2 Impl_scalar).
  - split; (split; [|reflexivity]); unfold rfc_block_key; repeat constructor; lia.
  - lia.
  - repeat constructor.
Defined.
