(* ===== verification/Aead.v ===== *)
(** * Authenticated encryption: the interface

    What [userspace/tls/record.c] and [userspace/quic/packet.c] rely on of the
    two AEADs of [userspace/crypto], as a record of operations with a class of
    laws, and the constant-time comparison of [userspace/crypto/util.c]. *)

From Stdlib Require Import ZArith Lia.
From stdpp Require Import list numbers option.
From S2P Require Import Prelude Util Words.

(** ** [crypto_consttime_eq] *)

(** [diff |= (uint8_t)(a[i] ^ b[i])] over [len] bytes. *)
Definition crypto_consttime_eq (a b : list Z) (len : Z) : res bool :=
  let! a := rdn a len in
  let! b := rdn b len in
  Ret (foldl (fun diff xy => Z.lor diff (u8 (Z.lxor (fst xy) (snd xy)))) 0 (zip a b) =? 0).

Lemma lxor_byte_0 x y : byte_ok x -> byte_ok y -> u8 (Z.lxor x y) = 0 <-> x = y.
Proof. intros Hx Hy. rewrite u8_small by (by apply lxor_byte). apply Z.lxor_eq_0_iff. Qed.

Lemma diff_zero l d :
  0 <= d -> Forall (fun xy => byte_ok (fst xy) /\ byte_ok (snd xy)) l ->
  foldl (fun diff xy => Z.lor diff (u8 (Z.lxor (fst xy) (snd xy)))) d l = 0 <-> d = 0 /\ Forall (fun xy => fst xy = snd xy) l.
Proof.
  intros Hd Hl. revert d Hd. induction Hl as [|[x y] l [Hx Hy] Hl IH]; intros d Hd; cbn [foldl]; [split; [by intros ->|by intros [-> _]]|].
  cbn [fst snd] in *. rewrite IH by (apply Z.lor_nonneg; split; [done|apply u8_byte]). rewrite Z.lor_eq_0_iff, Forall_cons_iff, lxor_byte_0 by done. cbn. tauto.
Qed.

Lemma zip_equal (a b : list Z) : length a = length b -> Forall (fun xy => fst xy = snd xy) (zip a b) <-> a = b.
Proof.
  revert b. induction a as [|x a IH]; intros [|y b] H; try done; cbn [zip zip_with].
  rewrite Forall_cons_iff, IH by (cbn in H; lia). cbn. split; [intros [-> ->]; done|intros E; by simplify_eq].
Qed.

(** The comparison decides equality of the two slices. *)
Lemma crypto_consttime_eq_ok a b len :
  Forall byte_ok a -> Forall byte_ok b -> 0 <= len -> len <= zlen a -> len <= zlen b ->
  crypto_consttime_eq a b len = Ret (bool_decide (ztake len a = ztake len b)).
Proof.
  intros Ha Hb H0 H1 H2. unfold crypto_consttime_eq. rewrite !rdn_ok by lia. cbn [rbind]. f_equal.
  apply (Forall_ztake _ _ len) in Ha, Hb. assert (Hl : length (ztake len a) = length (ztake len b)) by (rewrite !length_ztake; lia).
  assert (Hz : Forall (fun xy => byte_ok (fst xy) /\ byte_ok (snd xy)) (zip (ztake len a) (ztake len b))).
  { clear - Ha Hb. revert Hb. generalize (ztake len b). induction Ha; intros b' Hb; destruct Hb; constructor; auto. }
  apply eq_true_iff_eq. rewrite bool_decide_eq_true, Z.eqb_eq, diff_zero, zip_equal by done. tauto.
Qed.

(** ** The per-record nonce *)

(** [for (i = 0; i < 8; i++) nonce[12 - 1 - i] ^= (uint8_t)(seq >> (i * 8));]
    from [i] on. *)
Fixpoint nonce_loop (n : nat) (i seq : Z) (nonce : list Z) : res (list Z) :=
  match n with
  | O => Ret nonce
  | S n' =>
      let! b := rd nonce (12 - 1 - i) in
      let! nonce := wr nonce (12 - 1 - i) (Z.lxor b (u8 (Z.shiftr seq (i * 8)))) in
      nonce_loop n' (i + 1) seq nonce
  end.

Definition aead_nonce (iv : list Z) (seq : Z) : list Z := xor_bytes iv (be_bytes 12 seq).

Lemma nonce_loop_ok iv seq : Forall byte_ok iv -> zlen iv = 12 -> 0 <= seq < 2 ^ 64 -> nonce_loop 8 0 seq iv = Ret (aead_nonce iv seq).
Proof.
  intros Hb Hl Hs. do 12 (destruct iv as [|? iv]; [done|]). destruct iv; [|unfold zlen in Hl; cbn in Hl; lia].
  unfold aead_nonce. cbn [be_bytes xor_bytes zip_with]. unfold xor_bytes. cbn [zip_with].
  match goal with |- ?l = _ => let l' := eval lazy -[Z.lxor u8 Z.shiftr] in l in change l with l' end.
  assert (H0 : forall k, 64 <= k -> (seq / 2 ^ k) mod 256 = 0).
  { intros k Hk. rewrite Z.div_small; [done|]. pose proof (Z.pow_le_mono_r 2 64 k). lia. }
  change (256 ^ Z.of_nat 11) with (2 ^ 88). change (256 ^ Z.of_nat 10) with (2 ^ 80). change (256 ^ Z.of_nat 9) with (2 ^ 72).
  change (256 ^ Z.of_nat 8) with (2 ^ 64). rewrite !H0, !Z.lxor_0_r by lia. unfold u8. rewrite !Z.shiftr_div_pow2 by lia. reflexivity.
Qed.

Lemma length_aead_nonce iv seq : zlen iv = 12 -> zlen (aead_nonce iv seq) = 12.
Proof. unfold zlen, aead_nonce. rewrite length_xor_bytes, length_be_bytes. lia. Qed.

Lemma aead_nonce_bytes iv seq : Forall byte_ok iv -> Forall byte_ok (aead_nonce iv seq).
Proof. intros. apply xor_bytes_ok; [done|apply be_bytes_ok]. Qed.

Lemma xor_bytes_cancel a b c : length b = length a -> length c = length a -> xor_bytes a b = xor_bytes a c -> b = c.
Proof.
  revert b c. induction a as [|x a IH]; intros [|y b] [|z c] Hb Hc E; try done. unfold xor_bytes in E. cbn [zip_with] in E. injection E as E1 E2.
  f_equal; [|apply IH; cbn in *; auto; lia]. apply (f_equal (Z.lxor x)) in E1. by rewrite <- !Z.lxor_assoc, !Z.lxor_nilpotent, !Z.lxor_0_l in E1.
Qed.

(** Different sequence numbers give different nonces. *)
Lemma aead_nonce_inj iv s1 s2 :
  zlen iv = 12 -> 0 <= s1 < 2 ^ 64 -> 0 <= s2 < 2 ^ 64 -> aead_nonce iv s1 = aead_nonce iv s2 -> s1 = s2.
Proof.
  intros Hl H1 H2 E. assert (Hl' : length iv = 12%nat) by (unfold zlen in Hl; lia).
  apply xor_bytes_cancel in E; [|by rewrite length_be_bytes..]. pose proof (Z.pow_le_mono_r 2 64 96). change (256 ^ Z.of_nat 12) with (2 ^ 96) in *.
  rewrite <- (be_val_bytes 12 s1), <- (be_val_bytes 12 s2), E by (change (256 ^ Z.of_nat 12) with (2 ^ 96); lia). done.
Qed.

(** ** Operations and laws *)

Record aead := mk_aead {
  a_key_len : Z;
  a_seal : list Z -> list Z -> list Z -> Z -> list Z -> Z -> res (list Z * list Z);
  a_open : list Z -> list Z -> list Z -> Z -> list Z -> Z -> list Z -> res (list Z)
}.

Definition aead_keyed (A : aead) (key nonce : list Z) : Prop :=
  (Forall byte_ok key /\ zlen key = a_key_len A) /\ (Forall byte_ok nonce /\ zlen nonce = 12).

(** A readable pointer and length. *)
Definition slice (p : list Z) (n : Z) : Prop := Forall byte_ok p /\ 0 <= n <= zlen p /\ n < 2 ^ 64.

(** Encryption is an involution that keeps the length, and the tag covers the
    associated data and the ciphertext.  [seal] is total on readable slices;
    [open] refuses every tag but that one, before anything is decrypted. *)
Class AeadLaws (A : aead) := {
  aead_enc : list Z -> list Z -> list Z -> list Z;
  aead_mac : list Z -> list Z -> list Z -> list Z -> list Z;
  aead_enc_twice key nonce m : aead_keyed A key nonce -> aead_enc key nonce (aead_enc key nonce m) = m;
  aead_enc_length key nonce m : aead_keyed A key nonce -> length (aead_enc key nonce m) = length m;
  aead_enc_bytes key nonce m : aead_keyed A key nonce -> Forall byte_ok m -> Forall byte_ok (aead_enc key nonce m);
  aead_mac_length key nonce aad c : aead_keyed A key nonce -> length (aead_mac key nonce aad c) = 16%nat;
  aead_mac_bytes key nonce aad c : aead_keyed A key nonce -> Forall byte_ok (aead_mac key nonce aad c);
  aead_seal_eq key nonce aad aad_len pt pt_len :
    aead_keyed A key nonce -> slice aad aad_len -> slice pt pt_len ->
    let c := aead_enc key nonce (ztake pt_len pt) in
    a_seal A key nonce aad aad_len pt pt_len = Ret (c, aead_mac key nonce (ztake aad_len aad) c);
  aead_open_eq key nonce aad aad_len ct ct_len tag :
    aead_keyed A key nonce -> slice aad aad_len -> slice ct ct_len -> slice tag 16 ->
    a_open A key nonce aad aad_len ct ct_len tag =
      if bool_decide (ztake 16 tag = aead_mac key nonce (ztake aad_len aad) (ztake ct_len ct))
      then Ret (aead_enc key nonce (ztake ct_len ct)) else Fail
}.

Section laws.
  Context (A : aead) `{!AeadLaws A}.

Lemma zlen_aead_enc key nonce m : aead_keyed A key nonce -> zlen (aead_enc key nonce m) = zlen m.
Proof. intros. unfold zlen. by rewrite aead_enc_length. Qed.

Lemma zlen_aead_mac key nonce aad c : aead_keyed A key nonce -> zlen (aead_mac key nonce aad c) = 16.
Proof. intros. unfold zlen. by rewrite aead_mac_length. Qed.

(** What was sealed opens to the plaintext. *)
Lemma aead_open_seal key nonce aad pt :
  aead_keyed A key nonce -> slice aad (zlen aad) -> slice pt (zlen pt) ->
  exists ct tag, a_seal A key nonce aad (zlen aad) pt (zlen pt) = Ret (ct, tag) /\ zlen ct = zlen pt /\ zlen tag = 16 /\
    Forall byte_ok ct /\ Forall byte_ok tag /\ a_open A key nonce aad (zlen aad) ct (zlen ct) tag = Ret pt.
Proof.
  intros Hk Ha Hp. pose proof Ha as (Ha1 & _). pose proof Hp as (Hp1 & Hp2 & Hp3).
  rewrite aead_seal_eq, !ztake_all by (done || lia). eexists _, _. split; [done|].
  assert (Hc : slice (aead_enc key nonce pt) (zlen (aead_enc key nonce pt))).
  { split; [by apply aead_enc_bytes|]. rewrite zlen_aead_enc by done. lia. }
  rewrite zlen_aead_mac by done. split_and!; [by apply zlen_aead_enc|done|by apply aead_enc_bytes|by apply aead_mac_bytes|].
  rewrite aead_open_eq; try done; [|split; [by apply aead_mac_bytes|rewrite zlen_aead_mac by done; lia]].
  rewrite !ztake_all by (rewrite ?zlen_aead_mac by done; lia). rewrite bool_decide_eq_true_2 by done. by rewrite aead_enc_twice by done.
Qed.

(** Nothing else opens: an accepted ciphertext is the sealed plaintext. *)
Lemma aead_open_only key nonce aad ct tag pt :
  aead_keyed A key nonce -> slice aad (zlen aad) -> slice ct (zlen ct) -> Forall byte_ok tag -> zlen tag = 16 ->
  a_open A key nonce aad (zlen aad) ct (zlen ct) tag = Ret pt ->
  zlen pt = zlen ct /\ a_seal A key nonce aad (zlen aad) pt (zlen pt) = Ret (ct, tag).
Proof.
  intros Hk Ha Hc Ht1 Ht2. pose proof Ha as (Ha1 & _). pose proof Hc as (Hc1 & Hc2 & Hc3).
  rewrite aead_open_eq by (done || (split; [done|lia])). rewrite !ztake_all by lia.
  case_bool_decide as Htag; [|done]. intros [= <-]. split; [by apply zlen_aead_enc|].
  assert (Hp : slice (aead_enc key nonce ct) (zlen (aead_enc key nonce ct))).
  { split; [by apply aead_enc_bytes|]. rewrite zlen_aead_enc by done. lia. }
  rewrite aead_seal_eq, !ztake_all, aead_enc_twice by (done || lia). by rewrite Htag.
Qed.
End laws.
