(* ===== verification/ChachaPoly.v ===== *)
(** * The ChaCha20-Poly1305 AEAD

    [userspace/crypto/chacha20_poly1305.c]: sealing and opening of one buffer,
    and the scatter-gather seal, which interleaves the cipher and the
    authenticator fragment by fragment.  [ct] may be the buffer of [pt]: the
    functions return the bytes they write. *)

From Stdlib Require Import ZArith Lia.
From stdpp Require Import list numbers option strings.
From S2P Require Import Prelude Util Iov Words Poly1305 Chacha Aead.

Definition k_zero16 : list Z := replicate 16 0.

(** The eight bytes written by [store_le64]. *)
Definition store_le64 (v : Z) : list Z := map (fun i => u8 (Z.shiftr v (Z.of_nat i * 8))) (seq 0 8).

(** [(16u - (n & 15u)) & 15u] *)
Definition pad_len (n : Z) : Z := Z.land (u64 (16 - Z.land n 15)) 15.

Definition update_if (ctx : poly1305_ctx_t) (p : list Z) (len : Z) : res poly1305_ctx_t :=
  if len =? 0 then Ret ctx else poly1305_update ctx p len.

(** The tail of the authenticated data: padding, and the two lengths. *)
Definition mac_finish (pctx : poly1305_ctx_t) (aad_len ct_len : Z) : res (list Z) :=
  let! pctx := update_if pctx k_zero16 (pad_len ct_len) in
  let lens := store_le64 aad_len ++ store_le64 ct_len in
  let! pctx := poly1305_update pctx lens 16 in
  let! (tag, _) := poly1305_finish pctx in
  Ret tag.

(** The context is a local variable: [poly1305_init] writes every field. *)
Definition mac_data (poly_key aad : list Z) (aad_len : Z) (ct : list Z) (ct_len : Z) : res (list Z) :=
  let! pctx := poly1305_init poly_zero poly_key in
  let! pctx := update_if pctx aad aad_len in
  let! pctx := update_if pctx k_zero16 (pad_len aad_len) in
  let! pctx := update_if pctx ct ct_len in
  mac_finish pctx aad_len ct_len.

Definition aead_chacha20_poly1305_seal (impl : chacha20_impl) (key nonce aad : list Z) (aad_len : Z) (pt : list Z) (pt_len : Z)
    : res (list Z * list Z) :=
  let! poly_key := chacha20_block key 0 nonce in
  let! ct := chacha20_xor impl key 1 nonce pt pt_len in
  let! tag := mac_data poly_key aad aad_len ct pt_len in
  Ret (ct, tag).

Definition aead_chacha20_poly1305_open (impl : chacha20_impl) (key nonce aad : list Z) (aad_len : Z) (ct : list Z) (ct_len : Z) (tag : list Z)
    : res (list Z) :=
  let! poly_key := chacha20_block key 0 nonce in
  let! expected := mac_data poly_key aad aad_len ct ct_len in
  let! ok := crypto_consttime_eq expected tag 16 in
  if negb ok then Fail else chacha20_xor impl key 1 nonce ct ct_len.

(** The fragment loop: each fragment is encrypted and its ciphertext added to
    the authenticator.  [off] is the number of bytes written so far. *)
Fixpoint iov_loop (impl : chacha20_impl) (cs : chacha20_stream_t) (pctx : poly1305_ctx_t) (iov : list pw_iov_t) (off : Z) (ct_out : list Z)
    : res (list Z * poly1305_ctx_t * Z) :=
  match iov with
  | [] => Ret (ct_out, pctx, off)
  | f :: iov' =>
      if iov_len f =? 0 then iov_loop impl cs pctx iov' off ct_out
      else
        let! (c, cs) := chacha20_stream_xor impl cs (iov_base f) (iov_len f) in
        let! pctx := poly1305_update pctx c (iov_len f) in
        iov_loop impl cs pctx iov' (u64 (off + iov_len f)) (ct_out ++ c)
  end.

Definition aead_chacha20_poly1305_seal_iov (impl : chacha20_impl) (key nonce aad : list Z) (aad_len : Z) (pt_iov : list pw_iov_t)
    (total_pt_len : Z) : res (list Z * list Z) :=
  let! poly_key := chacha20_block key 0 nonce in
  let! cs := chacha20_stream_init (mk_cs [] [] 0 [] 0) key nonce 1 in
  let! pctx := poly1305_init poly_zero poly_key in
  let! pctx := update_if pctx aad aad_len in
  let! pctx := update_if pctx k_zero16 (pad_len aad_len) in
  let! (ct_out, pctx, off) := iov_loop impl cs pctx pt_iov 0 [] in
  let! tag := mac_finish pctx aad_len off in
  Ret (ct_out, tag).

(** ** The construction of RFC 8439 *)

Definition mac_input (aad ct : list Z) : list Z :=
  aad ++ pad16 aad ++ ct ++ pad16 ct ++ le_bytes 8 (zlen aad) ++ le_bytes 8 (zlen ct).

Definition cp_enc (key nonce m : list Z) : list Z := chacha key nonce 1 m.
Definition cp_mac (key nonce aad ct : list Z) : list Z := poly_tag (chacha_block key nonce 0) (mac_input aad ct).

(** ** The tag *)

Lemma pad_len_ok n : 0 <= n < 2 ^ 64 -> pad_len n = - n mod 16.
Proof.
  intros H. unfold pad_len, u64. change 15 with (Z.ones 4). rewrite !Z.land_ones by lia. change (2 ^ 4) with 16. dlia.
Qed.

Lemma store_le64_ok v : store_le64 v = le_bytes 8 v.
Proof.
  unfold store_le64, u8. cbn [seq map le_bytes Z.of_nat]. rewrite !Z.shiftr_div_pow2, !Z.div_div by lia. change (2 ^ (0 * 8)) with 1.
  by rewrite Z.div_1_r.
Qed.

Lemma update_if_ok key ctx dn msg len :
  poly_rep key ctx dn -> Forall byte_ok msg -> 0 <= len <= zlen msg -> len < 2 ^ 64 ->
  exists ctx', update_if ctx msg len = Ret ctx' /\ poly_rep key ctx' (dn ++ ztake len msg).
Proof.
  intros. unfold update_if. destruct (Z.eqb_spec len 0) as [->|]; [exists ctx; by rewrite app_nil_r|by apply poly1305_update_ok].
Qed.

(** Padding up to the block boundary. *)
Lemma pad_ok key ctx dn m :
  poly_rep key ctx dn -> zlen m < 2 ^ 64 ->
  exists ctx', update_if ctx k_zero16 (pad_len (zlen m)) = Ret ctx' /\ poly_rep key ctx' (dn ++ pad16 m).
Proof.
  intros Hr Hm. pose proof (zlen_nonneg m). rewrite pad_len_ok by lia. pose proof (Z.mod_pos_bound (- zlen m) 16 ltac:(lia)).
  destruct (update_if_ok key ctx dn k_zero16 (- zlen m mod 16) Hr) as (ctx' & E & Hr'); [by repeat constructor|change (zlen k_zero16) with 16; lia|lia|].
  exists ctx'. split; [done|]. replace (pad16 m) with (ztake (- zlen m mod 16) k_zero16); [done|].
  unfold pad16, ztake, k_zero16. rewrite take_replicate. f_equal. lia.
Qed.

Lemma mac_finish_ok key ctx aad ct :
  poly_rep key ctx (aad ++ pad16 aad ++ ct) -> zlen aad < 2 ^ 64 -> zlen ct < 2 ^ 64 ->
  mac_finish ctx (zlen aad) (zlen ct) = Ret (poly_tag key (mac_input aad ct)).
Proof.
  intros Hr Ha Hc. unfold mac_finish. destruct (pad_ok key ctx _ ct Hr Hc) as (c1 & -> & H1). cbn [rbind].
  rewrite !store_le64_ok. set (lens := _ ++ _).
  assert (Hl : zlen lens = 16) by (unfold lens; rewrite zlen_app; unfold zlen; by rewrite !length_le_bytes).
  destruct (poly1305_update_ok key c1 _ lens 16 H1) as (c2 & -> & H2); [apply Forall_app; split; apply le_bytes_ok|lia|lia|]. cbn [rbind].
  rewrite (poly1305_finish_ok key c2 _ H2). cbn [rbind]. rewrite ztake_all by lia. unfold mac_input, lens. by rewrite <- !app_assoc.
Qed.

(** The authenticator fed with the associated data and its padding. *)
Lemma mac_aad_ok key aad aad_len :
  Forall byte_ok key -> 32 <= zlen key -> slice aad aad_len ->
  exists ctx, (let! pctx := poly1305_init poly_zero key in let! pctx := update_if pctx aad aad_len in
      update_if pctx k_zero16 (pad_len aad_len)) = Ret ctx /\
    poly_rep key ctx (ztake aad_len aad ++ pad16 (ztake aad_len aad)).
Proof.
  intros Hk Hl (Ha1 & Ha2 & Ha3). destruct (poly1305_init_ok poly_zero key Hk Hl eq_refl) as (c0 & -> & H0). cbn [rbind].
  destruct (update_if_ok key c0 [] aad aad_len H0 Ha1 Ha2 Ha3) as (c1 & -> & H1). cbn [rbind app] in *.
  assert (Hz : zlen (ztake aad_len aad) = aad_len) by (rewrite zlen_ztake; lia).
  destruct (pad_ok key c1 _ (ztake aad_len aad) H1) as (c2 & E & H2); [lia|]. rewrite Hz in E. by exists c2.
Qed.

Lemma mac_data_ok key aad aad_len ct ct_len :
  Forall byte_ok key -> 32 <= zlen key -> slice aad aad_len -> slice ct ct_len ->
  mac_data key aad aad_len ct ct_len = Ret (poly_tag key (mac_input (ztake aad_len aad) (ztake ct_len ct))).
Proof.
  intros Hk Hl Ha (Hc1 & Hc2 & Hc3). destruct (mac_aad_ok key aad aad_len Hk Hl Ha) as (c1 & E & H1). destruct Ha as (Ha1 & Ha2 & Ha3).
  unfold mac_data. apply rbind_ret in E as (c0 & -> & E). cbn [rbind]. apply rbind_ret in E as (c0' & -> & E). cbn [rbind].
  rewrite E. cbn [rbind]. destruct (update_if_ok key c1 _ ct ct_len H1 Hc1 Hc2 Hc3) as (c2 & -> & H2). cbn [rbind].
  rewrite <- app_assoc in H2. assert (Ea : zlen (ztake aad_len aad) = aad_len) by (rewrite zlen_ztake; lia).
  assert (Ec : zlen (ztake ct_len ct) = ct_len) by (rewrite zlen_ztake; lia).
  pose proof (mac_finish_ok key c2 _ _ H2) as F. rewrite Ea, Ec in F. by apply F.
Qed.

(** ** Seal and open *)

Definition chacha20_poly1305 (impl : chacha20_impl) : aead :=
  mk_aead 32 (aead_chacha20_poly1305_seal impl) (aead_chacha20_poly1305_open impl).

Lemma zlen_chacha_block key nonce c : zlen (chacha_block key nonce c) = 64.
Proof. unfold zlen. by rewrite length_chacha_block. Qed.

Lemma poly_tag_bytes key m : Forall byte_ok (poly_tag key m).
Proof. apply le_bytes_ok. Qed.

Lemma length_poly_tag key m : length (poly_tag key m) = 16%nat.
Proof. apply length_le_bytes. Qed.

#[local] Opaque chacha_block chacha20_block chacha poly_tag.

Lemma mac_data_block key nonce aad aad_len ct ct_len :
  slice aad aad_len -> slice ct ct_len ->
  mac_data (chacha_block key nonce 0) aad aad_len ct ct_len = Ret (cp_mac key nonce (ztake aad_len aad) (ztake ct_len ct)).
Proof. intros. apply mac_data_ok; [apply chacha_block_byte_ok|rewrite zlen_chacha_block; lia|done|done]. Qed.

Lemma seal_ok impl key nonce aad aad_len pt pt_len :
  chacha_keyed key nonce -> slice aad aad_len -> slice pt pt_len ->
  aead_chacha20_poly1305_seal impl key nonce aad aad_len pt pt_len =
  Ret (cp_enc key nonce (ztake pt_len pt), cp_mac key nonce (ztake aad_len aad) (cp_enc key nonce (ztake pt_len pt))).
Proof.
  intros Hk Ha (Hp1 & Hp2 & Hp3). unfold aead_chacha20_poly1305_seal.
  rewrite chacha20_block_ok, chacha20_xor_ok by (done || lia). ret. fold (cp_enc key nonce (ztake pt_len pt)).
  assert (Hz : zlen (cp_enc key nonce (ztake pt_len pt)) = pt_len).
  { unfold zlen, cp_enc. rewrite length_chacha, length_ztake; lia. }
  rewrite mac_data_block; [|done|split; [apply chacha_byte_ok; auto with pico|lia]]. ret. by rewrite (ztake_all (cp_enc _ _ _)) by lia.
Qed.

Lemma open_ok impl key nonce aad aad_len ct ct_len tag :
  chacha_keyed key nonce -> slice aad aad_len -> slice ct ct_len -> slice tag 16 ->
  aead_chacha20_poly1305_open impl key nonce aad aad_len ct ct_len tag =
  if bool_decide (ztake 16 tag = cp_mac key nonce (ztake aad_len aad) (ztake ct_len ct))
  then Ret (cp_enc key nonce (ztake ct_len ct)) else Fail.
Proof.
  intros Hk Ha Hc (Ht1 & Ht2 & Ht3). unfold aead_chacha20_poly1305_open.
  rewrite chacha20_block_ok by done. ret. rewrite mac_data_block by done. ret. destruct Hc as (Hc1 & Hc2 & Hc3).
  assert (Hm : zlen (cp_mac key nonce (ztake aad_len aad) (ztake ct_len ct)) = 16) by (unfold zlen, cp_mac; by rewrite length_poly_tag).
  rewrite crypto_consttime_eq_ok by (done || lia || apply poly_tag_bytes). ret. rewrite (ztake_all (cp_mac _ _ _ _)) by lia.
  rewrite (bool_decide_ext (_ = ztake 16 tag) (ztake 16 tag = cp_mac key nonce (ztake aad_len aad) (ztake ct_len ct))) by (split; congruence).
  case_bool_decide; [|done]. by rewrite chacha20_xor_ok by (done || lia).
Qed.

#[export] Instance chacha20_poly1305_laws impl : AeadLaws (chacha20_poly1305 impl) := {
  aead_enc := cp_enc;
  aead_mac := cp_mac;
  aead_enc_twice key nonce m _ := chacha_twice key nonce 1 m;
  aead_enc_length key nonce m _ := length_chacha key nonce 1 m;
  aead_enc_bytes key nonce m _ := chacha_byte_ok key nonce 1 m;
  aead_mac_length key nonce aad c _ := length_poly_tag _ _;
  aead_mac_bytes key nonce aad c _ := poly_tag_bytes _ _;
  aead_seal_eq := seal_ok impl;
  aead_open_eq := open_ok impl
}.

Lemma zlen_cp_enc key nonce m : zlen (cp_enc key nonce m) = zlen m.
Proof. unfold zlen, cp_enc. by rewrite length_chacha. Qed.

Lemma zlen_cp_mac key nonce aad c : zlen (cp_mac key nonce aad c) = 16.
Proof. unfold zlen, cp_mac. by rewrite length_poly_tag. Qed.

Lemma cp_enc_bytes key nonce m : Forall byte_ok m -> Forall byte_ok (cp_enc key nonce m).
Proof. apply chacha_byte_ok. Qed.

Lemma cp_mac_bytes key nonce aad c : Forall byte_ok (cp_mac key nonce aad c).
Proof. apply poly_tag_bytes. Qed.

Lemma cp_enc_twice key nonce m : cp_enc key nonce (cp_enc key nonce m) = m.
Proof. apply chacha_twice. Qed.

(** ** Scatter-gather *)

Definition iov_data (f : pw_iov_t) : list Z := ztake (iov_len f) (iov_base f).
Definition iov_bytes (iov : list pw_iov_t) : list Z := concat (map iov_data iov).
Definition frags_ok (iov : list pw_iov_t) : Prop := Forall (fun f => slice (iov_base f) (iov_len f)) iov /\ zlen (iov_bytes iov) < 2 ^ 64.

Lemma iov_data_len f : slice (iov_base f) (iov_len f) -> zlen (iov_data f) = iov_len f.
Proof. intros (_ & ? & _). unfold iov_data. rewrite zlen_ztake; lia. Qed.

Lemma iov_data_bytes f : slice (iov_base f) (iov_len f) -> Forall byte_ok (iov_data f).
Proof. intros (? & _). unfold iov_data. auto with pico. Qed.

Lemma iov_bytes_ok iov : Forall (fun f => slice (iov_base f) (iov_len f)) iov -> Forall byte_ok (iov_bytes iov).
Proof. induction 1; cbn; [constructor|]. apply Forall_app. split; [by apply iov_data_bytes|done]. Qed.

(** The sum of the fragment lengths is the length of the message. *)
Lemma pw_iov_total_ok iov : frags_ok iov -> pw_iov_total iov = zlen (iov_bytes iov).
Proof.
  intros [Hf Hl]. unfold pw_iov_total.
  assert (G : forall t, 0 <= t -> t + zlen (iov_bytes iov) < 2 ^ 64 -> foldl (fun t i => u64 (t + iov_len i)) t iov = t + zlen (iov_bytes iov)).
  { clear Hl. induction Hf as [|f iov Hf1 Hf IH]; intros t Ht Hl; cbn [foldl]; [change (zlen (iov_bytes [])) with 0; lia|].
    change (iov_bytes (f :: iov)) with (iov_data f ++ iov_bytes iov) in *. rewrite zlen_app, iov_data_len in * by done.
    destruct Hf1 as (_ & ? & _). pose proof (zlen_nonneg (iov_bytes iov)). rewrite u64_small, IH by lia. lia. }
  rewrite G by lia. lia.
Qed.

Lemma iov_loop_ok impl key nonce pk pre iov :
  Forall (fun f => slice (iov_base f) (iov_len f)) iov -> forall cs pctx d,
  cs_rep key nonce 1 cs d -> poly_rep pk pctx (pre ++ chacha key nonce 1 d) -> zlen d + zlen (iov_bytes iov) < 2 ^ 64 -> Forall byte_ok d ->
  exists pctx', iov_loop impl cs pctx iov (zlen d) (chacha key nonce 1 d) =
      Ret (chacha key nonce 1 (d ++ iov_bytes iov), pctx', zlen d + zlen (iov_bytes iov)) /\
    poly_rep pk pctx' (pre ++ chacha key nonce 1 (d ++ iov_bytes iov)).
Proof.
  induction 1 as [|f iov Hf1 Hf IH]; intros cs pctx d Hcs Hp Hl Hd.
  { exists pctx. cbn [iov_loop iov_bytes map concat]. change (iov_bytes []) with (@nil Z). rewrite app_nil_r. split; [|done]. do 2 f_equal. change (zlen []) with 0. lia. }
  change (iov_bytes (f :: iov)) with (iov_data f ++ iov_bytes iov) in *. rewrite zlen_app, app_assoc in *.
  pose proof (iov_data_len f Hf1) as Hfl. pose proof (iov_data_bytes f Hf1) as Hfb. destruct Hf1 as (Hb1 & Hb2 & Hb3). pose proof (zlen_nonneg (iov_bytes iov)). pose proof (zlen_nonneg d).
  cbn [iov_loop]. destruct (Z.eqb_spec (iov_len f) 0) as [Hz|Hz].
  { assert (E : iov_data f = []) by (apply length_zero_iff_nil; unfold zlen in Hfl; lia). rewrite E, app_nil_r in *.
    change (zlen []) with 0 in *. destruct (IH cs pctx d Hcs Hp) as (p' & -> & Hp'); [lia|done|]. by exists p'. }
  destruct (chacha20_stream_xor_ok impl key nonce 1 ltac:(lia) cs d (iov_base f) (iov_len f) Hcs Hb2 Hb3) as (cs' & c & -> & Hc & Hcs'). ret.
  fold (iov_data f) in *. assert (Hcl : zlen c = iov_len f).
  { apply (f_equal length) in Hc. rewrite length_app, !length_chacha, length_app in Hc. unfold zlen in *. lia. }
  assert (Hcb : Forall byte_ok c).
  { assert (B : Forall byte_ok (chacha key nonce 1 (d ++ iov_data f))) by (apply chacha_byte_ok, Forall_app; done). rewrite Hc in B. by apply Forall_app in B as [_ B]. }
  destruct (poly1305_update_ok pk pctx _ c (iov_len f) Hp Hcb ltac:(lia) Hb3) as (p1 & -> & Hp1). ret.
  rewrite ztake_all, <- app_assoc, <- Hc in Hp1 by lia. rewrite <- Hc, u64_small, <- Hfl, <- zlen_app by lia.
  destruct (IH cs' p1 (d ++ iov_data f) Hcs' Hp1) as (p2 & -> & Hp2); [rewrite zlen_app; lia|by apply Forall_app|].
  exists p2. rewrite !zlen_app. split; [|done]. do 2 f_equal. lia.
Qed.

(** Sealing a chain is sealing its bytes. *)
Lemma seal_iov_ok impl key nonce aad aad_len iov total :
  chacha_keyed key nonce -> slice aad aad_len -> frags_ok iov ->
  aead_chacha20_poly1305_seal_iov impl key nonce aad aad_len iov total =
  aead_chacha20_poly1305_seal impl key nonce aad aad_len (iov_bytes iov) (zlen (iov_bytes iov)).
Proof.
  intros Hk Ha [Hf Hl]. assert (Hz : zlen (ztake aad_len aad) = aad_len) by (destruct Ha as (_ & ? & _); rewrite zlen_ztake; lia).
  rewrite seal_ok by (done || (split; [by apply iov_bytes_ok|pose proof (zlen_nonneg (iov_bytes iov)); lia])). rewrite ztake_all by lia.
  unfold aead_chacha20_poly1305_seal_iov. rewrite chacha20_block_ok by done. ret.
  destruct (chacha20_stream_init_ok (mk_cs [] [] 0 [] 0) key nonce 1 Hk ltac:(lia)) as (cs & -> & Hcs). ret.
  destruct (mac_aad_ok (chacha_block key nonce 0) aad aad_len) as (p1 & E & Hp1); [apply chacha_block_byte_ok|rewrite zlen_chacha_block; lia|done|].
  apply rbind_ret in E as (p0 & -> & E). ret. apply rbind_ret in E as (p0' & -> & E). ret. rewrite E. ret.
  destruct (iov_loop_ok impl key nonce (chacha_block key nonce 0) (ztake aad_len aad ++ pad16 (ztake aad_len aad)) iov Hf cs p1 [] Hcs) as (p2 & E2 & Hp2);
    [change (chacha key nonce 1 []) with (@nil Z); by rewrite app_nil_r|change (zlen []) with 0; lia|constructor|].
  cbn [app] in E2, Hp2. change (zlen []) with 0 in E2. rewrite Z.add_0_l in E2. change (chacha key nonce 1 []) with (@nil Z) in E2. rewrite E2. ret.
  rewrite <- app_assoc in Hp2. pose proof (mac_finish_ok _ p2 _ _ Hp2) as F. rewrite Hz in F. destruct Ha as (_ & _ & Ha).
  assert (Hcl : zlen (chacha key nonce 1 (iov_bytes iov)) = zlen (iov_bytes iov)) by (unfold zlen; by rewrite length_chacha).
  rewrite Hcl in F. rewrite F by lia. ret. done.
Qed.

(** ** The guarantee *)

(** C15: the ChaCha20-Poly1305 AEAD is exact.  For every key, nonce and
    associated data, [open] returns a plaintext for a ciphertext and a tag if
    and only if [seal] produces that ciphertext and that tag from it, whichever
    keystream implementation each side uses; and [seal] over a chain of
    fragments produces what [seal] produces from their concatenation. *)
Theorem chacha20_poly1305_exact impl impl' key nonce aad iov total ct tag :
  chacha_keyed key nonce -> slice aad (zlen aad) -> frags_ok iov -> slice ct (zlen ct) -> Forall byte_ok tag -> zlen tag = 16 ->
  aead_chacha20_poly1305_open impl key nonce aad (zlen aad) ct (zlen ct) tag = Ret (iov_bytes iov) <->
  aead_chacha20_poly1305_seal_iov impl' key nonce aad (zlen aad) iov total = Ret (ct, tag).
Proof.
  intros Hk Ha Hi Hc Ht1 Ht2. rewrite seal_iov_ok by done. destruct Hi as [Hf Hl]. pose proof (zlen_nonneg (iov_bytes iov)).
  assert (Hp : slice (iov_bytes iov) (zlen (iov_bytes iov))) by (split; [by apply iov_bytes_ok|lia]). split.
  - intros Ho. pose proof (aead_open_only (chacha20_poly1305 impl) key nonce aad ct tag _ Hk Ha Hc Ht1 Ht2 Ho) as [_ E].
    cbn [a_seal chacha20_poly1305] in E. rewrite seal_ok in E |- * by done. done.
  - destruct (aead_open_seal (chacha20_poly1305 impl) key nonce aad (iov_bytes iov) Hk Ha Hp) as (c & t & E & _ & _ & _ & _ & O).
    cbn [a_seal a_open chacha20_poly1305] in E, O. rewrite seal_ok in E by done. rewrite seal_ok by done. intros E'. rewrite E in E'. by simplify_eq.
Qed.

(** RFC 8439, section 2.8.2: the plaintext in two fragments. *)
Definition rfc_aead_key : list Z := map (fun i => 0x80 + Z.of_nat i) (seq 0 32).
Definition rfc_aead_nonce : list Z := [0x07; 0; 0; 0; 0x40; 0x41; 0x42; 0x43; 0x44; 0x45; 0x46; 0x47].
Definition rfc_aead_aad : list Z := [0x50; 0x51; 0x52; 0x53; 0xc0; 0xc1; 0xc2; 0xc3; 0xc4; 0xc5; 0xc6; 0xc7].
Definition rfc_aead_pt : list Z :=
  lit "Ladies and Gentlemen of the class of '99: If I could offer you only one tip for the future, sunscreen would be it."%string.
Definition rfc_aead_iov : list pw_iov_t := [mk_iov (ztake 100 rfc_aead_pt) 70; mk_iov (padd rfc_aead_pt 70) 44].
Definition rfc_aead_ct : list Z :=
  [0xd3;0x1a;0x8d;0x34;0x64;0x8e;0x60;0xdb;0x7b;0x86;0xaf;0xbc;0x53;0xef;0x7e;0xc2;0xa4;0xad;0xed;0x51;0x29;0x6e;0x08;0xfe;0xa9;0xe2;0xb5;0xa7;0x36;
   0xee;0x62;0xd6;0x3d;0xbe;0xa4;0x5e;0x8c;0xa9;0x67;0x12;0x82;0xfa;0xfb;0x69;0xda;0x92;0x72;0x8b;0x1a;0x71;0xde;0x0a;0x9e;0x06;0x0b;0x29;0x05;0xd6;
   0xa5;0xb6;0x7e;0xcd;0x3b;0x36;0x92;0xdd;0xbd;0x7f;0x2d;0x77;0x8b;0x8c;0x98;0x03;0xae;0xe3;0x28;0x09;0x1b;0x58;0xfa;0xb3;0x24;0xe4;0xfa;0xd6;0x75;
   0x94;0x55;0x85;0x80;0x8b;0x48;0x31;0xd7;0xbc;0x3f;0xf4;0xde;0xf0;0x8e;0x4b;0x7a;0x9d;0xe5;0x76;0xd2;0x65;0x86;0xce;0xc6;0x4b;0x61;0x16].
Definition rfc_aead_tag : list Z := [0x1a;0xe1;0x0b;0x59;0x4f;0x09;0xe2;0x6a;0x7e;0x90;0x2e;0xcb;0xd0;0x60;0x06;0x91].

Lemma rfc_aead_seal :
  aead_chacha20_poly1305_seal_iov Impl_sse2 rfc_aead_key rfc_aead_nonce rfc_aead_aad 12 rfc_aead_iov 114 = Ret (rfc_aead_ct, rfc_aead_tag).
Proof. by vm_compute. Qed.

Lemma chacha20_poly1305_exact_witness :
  aead_chacha20_poly1305_open Impl_scalar rfc_aead_key rfc_aead_nonce rfc_aead_aad 12 rfc_aead_ct 114 rfc_aead_tag = Ret rfc_aead_pt.
Proof.
  apply (proj2 (chacha20_poly1305_exact Impl_scalar Impl_sse2 rfc_aead_key rfc_aead_nonce rfc_aead_aad rfc_aead_iov 114 rfc_aead_ct rfc_aead_tag
    ltac:(split; (split; [by apply bytes_okb_ok|done])) ltac:(split; [by apply bytes_okb_ok|done])
    ltac:(split; [repeat (constructor; [split; [by apply bytes_okb_ok|vm_compute; split; [split|]; congruence]|]); constructor|done])
    ltac:(split; [by apply bytes_okb_ok|done]) ltac:(by apply bytes_okb_ok) eq_refl)).
  exact rfc_aead_seal.
Defined.
