(* ===== verification/TlsRecord.v ===== *)
(** * The TLS 1.3 record layer

    [userspace/tls/record.c]: the per-record nonce, sealing of a record from a
    buffer or from a chain of fragments, and opening a record in place.  A
    function returns its result with the output buffer and the direction's
    state as it leaves them. *)

From Stdlib Require Import ZArith Lia.
From stdpp Require Import list numbers option relations strings.
From S2P Require Import Prelude Util Iov Words Poly1305 Chacha Aead ChachaPoly.

Definition TLS13_RECORD_HEADER_LEN : Z := 5.
Definition TLS13_AEAD_TAG_LEN : Z := 16.
Definition TLS13_MAX_PLAINTEXT : Z := 16384.

Definition TLS_CT_HANDSHAKE : Z := 22.
Definition TLS_CT_APPLICATION_DATA : Z := 23.

Record tls_record_dir_t := mk_dir { dir_key : list Z; dir_static_iv : list Z; dir_seq : Z }.

Definition set_seq (dir : tls_record_dir_t) (s : Z) : tls_record_dir_t := mk_dir (dir_key dir) (dir_static_iv dir) s.

Definition tls13_build_nonce (dir : tls_record_dir_t) : res (list Z) :=
  let! nonce := rdn (dir_static_iv dir) 12 in
  nonce_loop 8 0 (dir_seq dir) nonce.

(** The five header bytes. *)
Definition write_header (out : list Z) (outer_type cipher_len : Z) : res (list Z) :=
  let! out := wr out 0 (u8 outer_type) in
  let! out := wr out 1 0x03 in
  let! out := wr out 2 0x03 in
  let! out := wr out 3 (u8 (Z.shiftr cipher_len 8)) in
  wr out 4 (u8 cipher_len).

Definition tls13_seal_record (impl : chacha20_impl) (dir : tls_record_dir_t) (inner_type outer_type : Z) (plaintext : list Z)
    (plaintext_len : Z) (out : list Z) (out_cap : Z) : res (Z * list Z * tls_record_dir_t) :=
  let inner_len := u64 (plaintext_len + 1) in
  let cipher_len := u64 (inner_len + TLS13_AEAD_TAG_LEN) in
  let wire_len := u64 (TLS13_RECORD_HEADER_LEN + cipher_len) in
  if 0xffff <? cipher_len then Ret (0, out, dir)
  else if out_cap <? wire_len then Ret (0, out, dir)
  else if TLS13_MAX_PLAINTEXT <? plaintext_len then Ret (0, out, dir)
  else
    let! out := write_header out outer_type cipher_len in
    if dir_seq dir =? UINT64_MAX then Ret (0, out, dir)
    else
      let! out := (if plaintext_len =? 0 then Ret out
                   else let! p := rdn plaintext plaintext_len in blit out TLS13_RECORD_HEADER_LEN p) in
      let! out := wr out (TLS13_RECORD_HEADER_LEN + plaintext_len) (u8 inner_type) in
      let! nonce := tls13_build_nonce dir in
      let! (ct, tag) := aead_chacha20_poly1305_seal impl (dir_key dir) nonce out TLS13_RECORD_HEADER_LEN
                          (padd out TLS13_RECORD_HEADER_LEN) inner_len in
      let! out := blit out TLS13_RECORD_HEADER_LEN ct in
      let! out := blit out (TLS13_RECORD_HEADER_LEN + inner_len) tag in
      Ret (wire_len, out, set_seq dir (u64 (dir_seq dir + 1))).

(** [pw_iov_t local[PW_IOV_MAX_FRAGS + 1]], filled with the chain and a last
    fragment. *)
Definition append_frag (iov : list pw_iov_t) (f : pw_iov_t) : res (list pw_iov_t) :=
  if zlen (iov ++ [f]) <=? PW_IOV_MAX_FRAGS + 1 then Ret (iov ++ [f]) else Oob.

Definition tls13_seal_record_iov (impl : chacha20_impl) (dir : tls_record_dir_t) (inner_type outer_type : Z) (pt_iov : list pw_iov_t)
    (total_plaintext_len : Z) (out : list Z) (out_cap : Z) : res (Z * list Z * tls_record_dir_t) :=
  let inner_len := u64 (total_plaintext_len + 1) in
  let cipher_len := u64 (inner_len + TLS13_AEAD_TAG_LEN) in
  let wire_len := u64 (TLS13_RECORD_HEADER_LEN + cipher_len) in
  if 0xffff <? cipher_len then Ret (0, out, dir)
  else if out_cap <? wire_len then Ret (0, out, dir)
  else if TLS13_MAX_PLAINTEXT <? total_plaintext_len then Ret (0, out, dir)
  else
    let! out := write_header out outer_type cipher_len in
    if dir_seq dir =? UINT64_MAX then Ret (0, out, dir)
    else if PW_IOV_MAX_FRAGS + 1 <? u32 (zlen pt_iov + 1) then Ret (0, out, dir)
    else
      let! local := append_frag pt_iov (mk_iov [u8 inner_type] 1) in
      let! nonce := tls13_build_nonce dir in
      let! (ct, tag) := aead_chacha20_poly1305_seal_iov impl (dir_key dir) nonce out TLS13_RECORD_HEADER_LEN local inner_len in
      let! out := blit out TLS13_RECORD_HEADER_LEN ct in
      let! out := blit out (TLS13_RECORD_HEADER_LEN + inner_len) tag in
      Ret (wire_len, out, set_seq dir (u64 (dir_seq dir + 1))).

(** [while (inner_len > 0 && record[5 + inner_len - 1] == 0) inner_len--;] *)
Fixpoint strip_padding (record : list Z) (inner_len : nat) : res nat :=
  match inner_len with
  | O => Ret O
  | S n =>
      let! b := rd record (TLS13_RECORD_HEADER_LEN + Z.of_nat (S n) - 1) in
      if b =? 0 then strip_padding record n else Ret (S n)
  end.

(** The result: [None] is -1, otherwise the inner type and the length of the
    plaintext, which starts behind the header. *)
Definition tls13_open_record (impl : chacha20_impl) (dir : tls_record_dir_t) (record : list Z) (record_len : Z)
    : res (option (Z * Z) * list Z * tls_record_dir_t) :=
  if record_len <? TLS13_RECORD_HEADER_LEN + TLS13_AEAD_TAG_LEN then Ret (None, record, dir)
  else if dir_seq dir =? UINT64_MAX then Ret (None, record, dir)
  else
    let! b3 := rd record 3 in
    let! b4 := rd record 4 in
    let cipher_len := Z.lor (Z.shiftl b3 8) b4 in
    if negb (cipher_len + TLS13_RECORD_HEADER_LEN =? record_len) then Ret (None, record, dir)
    else if cipher_len <? TLS13_AEAD_TAG_LEN then Ret (None, record, dir)
    else
      let inner_len := cipher_len - TLS13_AEAD_TAG_LEN in
      let! nonce := tls13_build_nonce dir in
      match aead_chacha20_poly1305_open impl (dir_key dir) nonce record TLS13_RECORD_HEADER_LEN
              (padd record TLS13_RECORD_HEADER_LEN) inner_len (padd record (TLS13_RECORD_HEADER_LEN + inner_len)) with
      | Oob => Oob
      | Fail => Ret (None, record, dir)
      | Ret pt =>
          let! record := blit record TLS13_RECORD_HEADER_LEN pt in
          let! n := strip_padding record (Z.to_nat inner_len) in
          let inner_len := Z.of_nat n in
          if inner_len =? 0 then Ret (None, record, dir)
          else
            let! t := rd record (TLS13_RECORD_HEADER_LEN + inner_len - 1) in
            Ret (Some (t, inner_len - 1), record, set_seq dir (u64 (dir_seq dir + 1)))
      end.

(** ** The record on the wire *)

Definition dir_ok (dir : tls_record_dir_t) : Prop :=
  (Forall byte_ok (dir_key dir) /\ zlen (dir_key dir) = 32) /\ (Forall byte_ok (dir_static_iv dir) /\ zlen (dir_static_iv dir) = 12) /\
  0 <= dir_seq dir < 2 ^ 64.

Definition dir_nonce (dir : tls_record_dir_t) : list Z := aead_nonce (dir_static_iv dir) (dir_seq dir).

Definition record_header (outer_type cipher_len : Z) : list Z :=
  [u8 outer_type; 3; 3; u8 (Z.shiftr cipher_len 8); u8 cipher_len].

(** Header, encrypted TLSInnerPlaintext, tag over both. *)
Definition record_wire (dir : tls_record_dir_t) (outer_type : Z) (inner : list Z) : list Z :=
  let hdr := record_header outer_type (zlen inner + 16) in
  let c := cp_enc (dir_key dir) (dir_nonce dir) inner in
  hdr ++ c ++ cp_mac (dir_key dir) (dir_nonce dir) hdr c.

(** The length of an inner plaintext without its zero padding. *)
Fixpoint content_len (m : list Z) : nat :=
  match m with
  | [] => O
  | b :: m' => match content_len m' with O => if b =? 0 then O else 1 | S n => S (S n) end
  end.

#[local] Opaque cp_enc cp_mac aead_chacha20_poly1305_seal aead_chacha20_poly1305_open aead_chacha20_poly1305_seal_iov.

Lemma dir_keyed dir : dir_ok dir -> chacha_keyed (dir_key dir) (dir_nonce dir).
Proof. intros ([? ?] & [? ?] & ?). split; [done|]. split; [by apply aead_nonce_bytes|by apply length_aead_nonce]. Qed.

Lemma build_nonce_ok dir : dir_ok dir -> tls13_build_nonce dir = Ret (dir_nonce dir).
Proof. intros ([? ?] & [? ?] & ?). unfold tls13_build_nonce. rewrite rdn_ok, ztake_all by lia. ret. by apply nonce_loop_ok. Qed.

Lemma zlen_record_wire dir outer inner : zlen (record_wire dir outer inner) = zlen inner + 21.
Proof. unfold record_wire. rewrite !zlen_app, zlen_cp_enc, zlen_cp_mac. change (zlen (record_header _ _)) with 5. lia. Qed.

Lemma record_header_bytes t n : Forall byte_ok (record_header t n).
Proof. repeat constructor; try apply u8_byte; unfold byte_ok; lia. Qed.

Lemma record_wire_bytes dir outer inner : Forall byte_ok inner -> Forall byte_ok (record_wire dir outer inner).
Proof.
  intros. unfold record_wire. rewrite !Forall_app. split; [apply record_header_bytes|split; [by apply cp_enc_bytes|apply cp_mac_bytes]].
Qed.

(** A store at a fixed index of an explicit list. *)
Ltac wr_step i :=
  rewrite (wr_in_bounds _ i) by (rewrite !zlen_cons; lia); ret;
  let n := eval vm_compute in (Z.to_nat i) in change (Z.to_nat i) with n; cbn [insert list_insert].

Lemma write_header_ok h r t n : zlen h = 5 -> write_header (h ++ r) t n = Ret (record_header t n ++ r).
Proof.
  intros Hh. do 5 (destruct h as [|? h]; [done|]). destruct h; [|unfold zlen in Hh; cbn in Hh; lia].
  pose proof (zlen_nonneg r). cbn [app]. unfold write_header.
  wr_step 0; wr_step 1; wr_step 2; wr_step 3. rewrite (wr_in_bounds _ 4) by (rewrite !zlen_cons; lia). reflexivity.
Qed.

(** The buffer cut into the parts of a record of [n] plaintext bytes. *)
Lemma record_parts n (out : list Z) :
  0 <= n -> n + 22 <= zlen out ->
  exists h b t g r, out = h ++ b ++ [t] ++ g ++ r /\ zlen h = 5 /\ zlen b = n /\ zlen g = 16.
Proof.
  intros Hn Ho. destruct (split_buffer 5 out) as (h & o1 & -> & Hh); [lia|]. rewrite zlen_app in Ho.
  destruct (split_buffer n o1) as (b & o2 & -> & Hb); [lia|]. rewrite zlen_app in Ho.
  destruct (split_buffer 1 o2) as (t & o3 & -> & Ht); [lia|]. rewrite zlen_app in Ho.
  destruct (split_buffer 16 o3) as (g & r & -> & Hg); [lia|].
  destruct t as [|t [|]]; [done| |unfold zlen in Ht; cbn in Ht; lia]. by exists h, b, t, g, r.
Qed.

(** ** Sealing *)

(** Behind the checks: the ciphertext and the tag go behind the header. *)
Lemma seal_tail {A} hdr m g r c tag n (k : list Z -> res A) :
  zlen hdr = 5 -> zlen m = n -> zlen c = zlen m -> zlen tag = zlen g ->
  (let! out := blit (hdr ++ m ++ g ++ r) 5 c in let! out := blit out (5 + n) tag in k out) = k (hdr ++ c ++ tag ++ r).
Proof.
  intros Hh Hm Hc Ht. rewrite (blit_at hdr m (g ++ r)) by lia. ret.
  rewrite (app_assoc hdr c), (blit_at (hdr ++ c) g r) by (rewrite ?zlen_app; lia). ret. by rewrite <- !app_assoc.
Qed.

(** The length computation and the checks on it, for [n] plaintext bytes. *)
Ltac record_lens n out_cap :=
  change TLS13_AEAD_TAG_LEN with 16; change TLS13_RECORD_HEADER_LEN with 5; change TLS13_MAX_PLAINTEXT with 16384;
  rewrite (u64_small (n + 1)) by lia; rewrite (u64_small (n + 1 + 16)) by lia; rewrite (u64_small (5 + (n + 1 + 16))) by lia;
  replace (0xffff <? n + 1 + 16) with false by lia; replace (out_cap <? 5 + (n + 1 + 16)) with false by lia;
  replace (16384 <? n) with false by lia.

Lemma seal_record_ok impl dir inner_type outer_type plaintext n out out_cap :
  dir_ok dir -> dir_seq dir < UINT64_MAX -> byte_ok inner_type -> slice plaintext n -> n <= TLS13_MAX_PLAINTEXT ->
  Forall byte_ok out -> n + 22 <= out_cap <= zlen out ->
  tls13_seal_record impl dir inner_type outer_type plaintext n out out_cap =
  Ret (n + 22, record_wire dir outer_type (ztake n plaintext ++ [inner_type]) ++ padd out (n + 22), set_seq dir (dir_seq dir + 1)).
Proof.
  intros Hd Hs Ht (Hp1 & Hp2 & Hp3) Hn Hob Ho. unfold TLS13_MAX_PLAINTEXT in *. unfold tls13_seal_record.
  record_lens n out_cap.
  destruct (record_parts n out) as (h & b & t & g & r & -> & Hh & Hb & Hg); [lia..|].
  rewrite !Forall_app in Hob. destruct Hob as (_ & _ & _ & Hgb & Hrb).
  rewrite write_header_ok by done. ret. replace (dir_seq dir =? UINT64_MAX) with false by lia.
  set (hdr := record_header outer_type (n + 1 + 16)). assert (Hhdr : zlen hdr = 5) by done.
  assert (E1 : (if n =? 0 then Ret (hdr ++ b ++ [t] ++ g ++ r) else let! p := rdn plaintext n in blit (hdr ++ b ++ [t] ++ g ++ r) 5 p) =
    Ret (hdr ++ ztake n plaintext ++ [t] ++ g ++ r)).
  { destruct (Z.eqb_spec n 0) as [->|]; [by destruct b; [|rewrite zlen_cons in Hb; pose proof (zlen_nonneg b); lia]|].
    rewrite rdn_ok by lia. ret. apply blit_at; [lia|]. rewrite zlen_ztake; lia. }
  rewrite E1. ret. set (p := ztake n plaintext). assert (Hpl : zlen p = n) by (unfold p; rewrite zlen_ztake; lia).
  assert (Hpb : Forall byte_ok p) by (unfold p; auto with pico).
  rewrite (app_assoc hdr p), (wr_in_bounds _ (5 + n)) by (rewrite !zlen_app; change (zlen [t]) with 1; pose proof (zlen_nonneg r); lia). ret.
  replace (Z.to_nat (5 + n)) with (length (hdr ++ p)) by (rewrite length_app; unfold zlen in *; lia).
  rewrite insert_app_r_alt, Nat.sub_diag by lia. cbn [app insert list_insert]. rewrite (u8_small inner_type) by done.
  rewrite build_nonce_ok by done. ret. change (inner_type :: g ++ r) with ([inner_type] ++ g ++ r). rewrite <- app_assoc, (app_assoc p).
  set (m := p ++ [inner_type]). assert (Hm : zlen m = n + 1) by (unfold m; rewrite zlen_app; change (zlen [inner_type]) with 1; lia).
  assert (Hmb : Forall byte_ok m) by (unfold m; apply Forall_app; split; [done|constructor; [done|constructor]]).
  rewrite seal_ok; [|by apply dir_keyed|split; [rewrite !Forall_app; split; [apply record_header_bytes|done]|rewrite !zlen_app, Hhdr; pose proof (zlen_nonneg m); pose proof (zlen_nonneg g); pose proof (zlen_nonneg r); lia]|
    rewrite padd_app by lia; split; [by rewrite !Forall_app|rewrite !zlen_app; pose proof (zlen_nonneg g); pose proof (zlen_nonneg r); lia]].
  ret. rewrite (padd_app hdr (m ++ g ++ r) 5) by lia. rewrite (ztake_app hdr (m ++ g ++ r) 5) by lia. rewrite (ztake_app m (g ++ r) (n + 1)) by lia.
  rewrite seal_tail by (rewrite ?zlen_cp_enc, ?zlen_cp_mac; lia). do 2 f_equal; [f_equal; [lia|]|rewrite u64_small by (unfold UINT64_MAX in *; destruct Hd as (_ & _ & ?); lia); done].
  unfold record_wire. fold m. rewrite Hm. fold hdr. rewrite <- !app_assoc. do 3 f_equal.
  change (t :: g ++ r) with ([t] ++ g ++ r). rewrite (app_assoc h), (app_assoc (h ++ b)), (app_assoc _ g). symmetry. apply padd_app. rewrite !zlen_app. change (zlen [t]) with 1. lia.
Qed.

Lemma seal_record_iov_ok impl dir inner_type outer_type iov out out_cap :
  dir_ok dir -> dir_seq dir < UINT64_MAX -> byte_ok inner_type -> frags_ok iov -> zlen iov <= 8 -> zlen (iov_bytes iov) <= TLS13_MAX_PLAINTEXT ->
  Forall byte_ok out -> zlen (iov_bytes iov) + 22 <= out_cap <= zlen out ->
  tls13_seal_record_iov impl dir inner_type outer_type iov (zlen (iov_bytes iov)) out out_cap =
  Ret (zlen (iov_bytes iov) + 22, record_wire dir outer_type (iov_bytes iov ++ [inner_type]) ++ padd out (zlen (iov_bytes iov) + 22),
       set_seq dir (dir_seq dir + 1)).
Proof.
  intros Hd Hs Ht [Hi1 Hi2] Hc Hn Hob Ho. unfold TLS13_MAX_PLAINTEXT in *. unfold tls13_seal_record_iov.
  pose proof (zlen_nonneg (iov_bytes iov)). pose proof (zlen_nonneg iov). set (n := zlen (iov_bytes iov)) in *. record_lens n out_cap.
  destruct (record_parts n out) as (h & b & t & g & r & -> & Hh & Hb & Hg); [lia..|].
  pose proof Hob as Hob'. rewrite !Forall_app in Hob'. destruct Hob' as (_ & Hbb & Htb & Hgb & Hrb).
  rewrite write_header_ok by done. ret. replace (dir_seq dir =? UINT64_MAX) with false by lia. rewrite u32_small by lia.
  unfold append_frag. change (PW_IOV_MAX_FRAGS + 1) with 9. replace (9 <? zlen iov + 1) with false by lia.
  replace (zlen (iov ++ [mk_iov [u8 inner_type] 1]) <=? 9) with true by (rewrite zlen_app; change (zlen [_]) with 1; lia). ret.
  rewrite build_nonce_ok by done. ret. set (hdr := record_header outer_type (n + 1 + 16)). assert (Hhdr : zlen hdr = 5) by done.
  rewrite (u8_small inner_type) by done.
  assert (Em : iov_bytes (iov ++ [mk_iov [inner_type] 1]) = iov_bytes iov ++ [inner_type]) by (unfold iov_bytes; by rewrite map_app, concat_app).
  set (m := iov_bytes iov ++ [inner_type]) in *. assert (Hm : zlen m = n + 1) by (unfold m; rewrite zlen_app; change (zlen [inner_type]) with 1; lia).
  assert (Hmb : Forall byte_ok m) by (apply Forall_app; split; [by apply iov_bytes_ok|constructor; [done|constructor]]).
  assert (Hsl : slice (hdr ++ b ++ [t] ++ g ++ r) 5).
  { split; [rewrite !Forall_app; split; [apply record_header_bytes|done]|]. rewrite zlen_app, Hhdr. pose proof (zlen_nonneg (b ++ [t] ++ g ++ r)). lia. }
  rewrite seal_iov_ok; [|by apply dir_keyed|done|].
  2:{ split; [|rewrite Em; lia]. apply Forall_app. split; [done|]. constructor; [|constructor]. split; [constructor; [done|constructor]|done]. }
  rewrite Em, seal_ok; [|by apply dir_keyed|done|split; [done|lia]]. ret. rewrite (ztake_all m) by lia.
  rewrite (ztake_app hdr (b ++ [t] ++ g ++ r) 5) by lia. rewrite (app_assoc b [t]).
  rewrite seal_tail by (rewrite ?zlen_cp_enc, ?zlen_cp_mac, ?zlen_app; change (zlen [t]) with 1; lia).
  do 2 f_equal; [f_equal; [lia|]|rewrite u64_small by (unfold UINT64_MAX in *; destruct Hd as (_ & _ & ?); lia); done].
  unfold record_wire. rewrite Hm. fold hdr. rewrite <- !app_assoc. do 3 f_equal.
  rewrite (app_assoc h), (app_assoc (h ++ b)), (app_assoc _ g). symmetry. apply padd_app. rewrite !zlen_app. change (zlen [t]) with 1. lia.
Qed.

(** ** Opening *)

Lemma content_len_snoc m b : content_len (m ++ [b]) = if b =? 0 then content_len m else S (length m).
Proof.
  induction m as [|x m IH]; cbn [app content_len length]; [done|]. rewrite IH. destruct (b =? 0); [|done]. done.
Qed.

Lemma content_len_le m : (content_len m <= length m)%nat.
Proof. induction m as [|x m IH]; cbn; [lia|]. destruct (content_len m); [destruct (x =? 0)|]; lia. Qed.

(** Padding does not change the content. *)
Lemma content_len_padded c t k : t <> 0 -> content_len (c ++ [t] ++ replicate k 0) = S (length c).
Proof.
  intros Ht. induction k as [|k IH]; [cbn [replicate]; rewrite app_nil_r, content_len_snoc; by destruct (Z.eqb_spec t 0)|].
  rewrite replicate_S_end, !app_assoc, content_len_snoc. cbn [Z.eqb]. by rewrite <- app_assoc.
Qed.

Lemma strip_padding_ok hdr m r : zlen hdr = 5 -> strip_padding (hdr ++ m ++ r) (length m) = Ret (content_len m).
Proof.
  intros Hh. revert r. induction m as [|b m IH] using rev_ind; intros r; [done|].
  rewrite length_app, Nat.add_1_r. cbn [strip_padding]. rewrite content_len_snoc, <- app_assoc. cbn [app].
  rewrite app_assoc, rd_at by (rewrite zlen_app; unfold TLS13_RECORD_HEADER_LEN, zlen in *; lia). ret.
  destruct (b =? 0); [|done]. rewrite <- app_assoc. apply IH.
Qed.

Lemma header_len_bound hdr : Forall byte_ok hdr -> zlen hdr = 5 -> be_acc 0 (sub hdr 3 2) < 65536.
Proof.
  intros Hb Hl. pose proof (be_val_bounds (sub hdr 3 2) ltac:(auto with pico)) as B. rewrite zlen_sub in B by lia. change (256 ^ 2) with 65536 in B. lia.
Qed.

(** What [tls13_open_record] does with a well-framed record. *)
Lemma open_record_ok impl dir hdr c tag r :
  dir_ok dir -> dir_seq dir < UINT64_MAX -> Forall byte_ok hdr -> Forall byte_ok c -> Forall byte_ok tag -> Forall byte_ok r ->
  zlen hdr = 5 -> zlen tag = 16 -> be_acc 0 (sub hdr 3 2) = zlen c + 16 ->
  tls13_open_record impl dir (hdr ++ c ++ tag ++ r) (zlen c + 21) =
  let m := cp_enc (dir_key dir) (dir_nonce dir) c in
  Ret (if bool_decide (tag = cp_mac (dir_key dir) (dir_nonce dir) hdr c) then
         match content_len m with
         | O => (None, hdr ++ m ++ tag ++ r, dir)
         | S n => (Some (nth n m 0, Z.of_nat n), hdr ++ m ++ tag ++ r, set_seq dir (dir_seq dir + 1))
         end
       else (None, hdr ++ c ++ tag ++ r, dir)).
Proof.
  intros Hd Hs B1 B2 B3 B4 Hh Ht Hl. unfold tls13_open_record. change TLS13_RECORD_HEADER_LEN with 5. change TLS13_AEAD_TAG_LEN with 16.
  pose proof (zlen_nonneg c). pose proof (zlen_nonneg r). replace (zlen c + 21 <? 5 + 16) with false by lia.
  replace (dir_seq dir =? UINT64_MAX) with false by lia.
  pose proof (header_len_bound hdr B1 Hh) as Hcl.
  assert (Elen : exists b3 b4, rd (hdr ++ c ++ tag ++ r) 3 = Ret b3 /\ rd (hdr ++ c ++ tag ++ r) 4 = Ret b4 /\ Z.lor (Z.shiftl b3 8) b4 = zlen c + 16).
  { rewrite !rd_app_l by lia. do 5 (destruct hdr as [|? hdr]; [done|]). eexists _, _. split; [done|]. split; [done|].
    rewrite <- Hl. split_bytes. change (be_acc 0 (sub _ 3 2)) with ((0 * 256 + z2) * 256 + z3). unfold byte_ok in *.
    rewrite Z.shiftl_mul_pow2, lor_disjoint by lia. lia. }
  destruct Elen as (b3 & b4 & -> & -> & E). ret. rewrite E. replace (zlen c + 16 + 5 =? zlen c + 21) with true by lia. cbn [negb].
  replace (zlen c + 16 <? 16) with false by lia. rewrite build_nonce_ok by done. ret. replace (zlen c + 16 - 16) with (zlen c) by lia.
  assert (Hbuf : Forall byte_ok (hdr ++ c ++ tag ++ r)) by (by rewrite !Forall_app).
  assert (P1 : padd (hdr ++ c ++ tag ++ r) 5 = c ++ tag ++ r) by (by apply padd_app).
  assert (P2 : padd (hdr ++ c ++ tag ++ r) (5 + zlen c) = tag ++ r) by (rewrite app_assoc; apply padd_app; rewrite zlen_app; lia).
  rewrite P1, P2. rewrite open_ok; [|by apply dir_keyed|split; [done|rewrite zlen_app; pose proof (zlen_nonneg (c ++ tag ++ r)); lia]| |].
  2:{ split; [by rewrite !Forall_app|rewrite !zlen_app; unfold zlen in *; lia]. }
  2:{ split; [by rewrite !Forall_app|rewrite !zlen_app; lia]. }
  rewrite !ztake_app by done. case_bool_decide as Htag; [|done]. cbn zeta. set (m := cp_enc _ _ c).
  assert (Hm : zlen m = zlen c) by apply zlen_cp_enc. rewrite (blit_at hdr c (tag ++ r)) by lia. ret.
  replace (Z.to_nat (zlen c)) with (length m) by (unfold zlen in Hm; unfold zlen; lia). rewrite strip_padding_ok by done. ret.
  pose proof (content_len_le m) as Hle. destruct (content_len m) as [|n] eqn:En; [done|]. destruct (Z.eqb_spec (Z.of_nat (S n)) 0); [lia|].
  rewrite rd_app_r by lia. rewrite rd_app_l by (unfold zlen in *; lia). rewrite rd_nth by (unfold zlen in *; lia). ret. do 4 f_equal.
  - f_equal; [f_equal; lia|lia].
  - rewrite u64_small by (destruct Hd as (_ & _ & ?); unfold UINT64_MAX in *; lia). done.
Qed.

(** ** Guarantees *)

Lemma content_len_split m n :
  content_len m = S n -> exists k, m = take n m ++ [nth n m 0] ++ replicate k 0 /\ nth n m 0 <> 0 /\ (n < length m)%nat.
Proof.
  revert n. induction m as [|b m IH] using rev_ind; intros n; [done|]. rewrite content_len_snoc, length_app. cbn [length].
  destruct (Z.eqb_spec b 0) as [->|Hb]; intros H.
  - destruct (IH n H) as (k & E & Hn & Hl). exists (S k). rewrite take_app_le, app_nth1 by lia. split; [|split; [done|lia]].
    rewrite replicate_S_end, !app_assoc. f_equal. by rewrite <- app_assoc.
  - injection H as <-. exists O. rewrite take_app_length, app_nth2, Nat.sub_diag by lia. cbn. split; [done|split; [done|lia]].
Qed.

(** C32: a sealed TLS record opens to what was sealed.  For every direction
    state below the sequence limit, every content type but 0, every chain of at
    most eight fragments of at most 16384 bytes together and every large enough
    buffer, [tls13_seal_record_iov] and [tls13_seal_record] on the concatenated
    bytes write the same record and leave the bytes behind it alone, and
    [tls13_open_record] with the same keys and sequence number recovers the
    type and the plaintext, whatever implementation either side runs.  Both
    sides advance the sequence number by one. *)
Theorem tls_record_roundtrip impl impl' dir inner_type outer_type iov out out_cap rest :
  dir_ok dir -> dir_seq dir < UINT64_MAX -> byte_ok inner_type -> inner_type <> 0 -> frags_ok iov -> zlen iov <= 8 ->
  zlen (iov_bytes iov) <= TLS13_MAX_PLAINTEXT -> Forall byte_ok out -> zlen (iov_bytes iov) + 22 <= out_cap <= zlen out -> Forall byte_ok rest ->
  let n := zlen (iov_bytes iov) in let dir' := set_seq dir (dir_seq dir + 1) in
  exists rec rec', tls13_seal_record_iov impl dir inner_type outer_type iov n out out_cap = Ret (n + 22, rec ++ padd out (n + 22), dir') /\
    tls13_seal_record impl dir inner_type outer_type (iov_bytes iov) n out out_cap = Ret (n + 22, rec ++ padd out (n + 22), dir') /\
    zlen rec = n + 22 /\
    tls13_open_record impl' dir (rec ++ rest) (n + 22) = Ret (Some (inner_type, n), rec', dir') /\ sub rec' 5 n = iov_bytes iov.
Proof.
  intros Hd Hs Ht Ht0 Hi Hc Hn Hob Ho Hrest n dir'. pose proof (zlen_nonneg (iov_bytes iov)) as Hz. destruct Hi as [Hi1 Hi2].
  set (m := iov_bytes iov ++ [inner_type]). assert (Hm : zlen m = n + 1) by (unfold m; rewrite zlen_app; done).
  assert (Hpb : Forall byte_ok (iov_bytes iov)) by (by apply iov_bytes_ok). unfold TLS13_MAX_PLAINTEXT in *.
  assert (Hmb : Forall byte_ok m) by (apply Forall_app; split; [done|constructor; [done|constructor]]).
  eexists (record_wire dir outer_type m), _. split; [by apply seal_record_iov_ok|].
  split; [unfold n; rewrite seal_record_ok, ztake_all by (done || lia || (split; [done|lia])); done|].
  split; [rewrite zlen_record_wire; lia|]. unfold record_wire. rewrite <- !app_assoc. rewrite Hm. set (hdr := record_header _ _). set (c := cp_enc _ _ m).
  assert (Hcl : zlen c = n + 1) by (unfold c; by rewrite zlen_cp_enc).
  replace (n + 22) with (zlen c + 21) by lia. unfold n in *.
  rewrite open_record_ok; [|done|done|apply record_header_bytes|by apply cp_enc_bytes|apply cp_mac_bytes|done|done|apply zlen_cp_mac|].
  2:{ unfold hdr, record_header. change (sub _ 3 2) with [u8 (Z.shiftr (zlen (iov_bytes iov) + 1 + 16) 8); u8 (zlen (iov_bytes iov) + 1 + 16)].
      cbn [be_acc]. unfold u8. rewrite Z.shiftr_div_pow2 by lia. rewrite Hcl. dlia. }
  cbn zeta. rewrite bool_decide_eq_true_2 by done. assert (Ec : cp_enc (dir_key dir) (dir_nonce dir) c = m) by apply cp_enc_twice.
  rewrite !Ec.
  assert (El : content_len m = S (length (iov_bytes iov))) by (unfold m; apply (content_len_padded _ _ 0); done). rewrite El.
  assert (En : nth (length (iov_bytes iov)) m 0 = inner_type) by (unfold m; by rewrite app_nth2, Nat.sub_diag by lia). rewrite En.
  split; [reflexivity|].
  unfold sub. rewrite (padd_app hdr) by done. unfold m. rewrite <- app_assoc. by apply ztake_app.
Qed.

Definition example_dir : tls_record_dir_t := mk_dir (replicate 32 7) (map Z.of_nat (seq 0 12)) 0x1ff.
Definition example_iov : list pw_iov_t := [mk_iov (lit "HTTP/1.1 200 OK") 15; mk_iov [13; 10; 0; 99] 3].

Ltac bytes := by apply bytes_okb_ok.

Lemma example_dir_ok : dir_ok example_dir.
Proof. split_and!; try bytes; done. Qed.

Lemma example_iov_ok : frags_ok example_iov.
Proof. split; [|done]. repeat (constructor; [split; [bytes|done]|]). constructor. Qed.

Lemma tls_record_roundtrip_witness :
  let n := zlen (iov_bytes example_iov) in let dir' := set_seq example_dir (dir_seq example_dir + 1) in
  exists rec rec',
    tls13_seal_record_iov Impl_sse2 example_dir 23 23 example_iov n (replicate 64 255) 50 = Ret (n + 22, rec ++ padd (replicate 64 255) (n + 22), dir') /\
    tls13_seal_record Impl_sse2 example_dir 23 23 (iov_bytes example_iov) n (replicate 64 255) 50 = Ret (n + 22, rec ++ padd (replicate 64 255) (n + 22), dir') /\
    zlen rec = n + 22 /\
    tls13_open_record Impl_scalar example_dir (rec ++ [1; 2; 3]) (n + 22) = Ret (Some (23, n), rec', dir') /\ sub rec' 5 n = iov_bytes example_iov.
Proof.
  apply (tls_record_roundtrip Impl_sse2 Impl_scalar example_dir 23 23 example_iov (replicate 64 255) 50 [1; 2; 3]).
  - exact example_dir_ok.
  - done.
  - done.
  - done.
  - exact example_iov_ok.
  - done.
  - done.
  - bytes.
  - done.
  - bytes.
Defined.

(** C33: only a sealed record opens.  On every readable buffer
    [tls13_open_record] stays in bounds and returns; if it accepts, the record
    is the sealing, under this direction's key, the nonce of its sequence
    number and the received header, of the returned content followed by its
    type and zero padding, the content stands behind the header, and the
    sequence number advances; if it refuses, the direction's state is
    unchanged. *)
Theorem tls_open_only_sealed impl dir record record_len :
  dir_ok dir -> Forall byte_ok record -> 0 <= record_len <= zlen record ->
  exists r record' dir', tls13_open_record impl dir record record_len = Ret (r, record', dir') /\
    match r with
    | None => dir' = dir
    | Some (t, n) =>
        dir' = set_seq dir (dir_seq dir + 1) /\ dir_seq dir < UINT64_MAX /\ t <> 0 /\
        exists hdr c tag k, ztake record_len record = hdr ++ c ++ tag /\ zlen hdr = 5 /\ zlen (sub record' 5 n) = n /\
          aead_chacha20_poly1305_seal impl (dir_key dir) (dir_nonce dir) hdr 5 (sub record' 5 n ++ [t] ++ replicate k 0) (zlen c) = Ret (c, tag)
    end.
Proof.
  intros Hd Hb Hl. destruct (Z.ltb_spec record_len 21) as [Hlt|Hge].
  { exists None, record, dir. split; [|done]. unfold tls13_open_record. by replace (record_len <? _) with true by (unfold TLS13_RECORD_HEADER_LEN, TLS13_AEAD_TAG_LEN; lia). }
  destruct (Z.eqb_spec (dir_seq dir) UINT64_MAX) as [Hs|Hs].
  { exists None, record, dir. split; [|done]. unfold tls13_open_record. replace (record_len <? _) with false by (unfold TLS13_RECORD_HEADER_LEN, TLS13_AEAD_TAG_LEN; lia).
    by rewrite Hs. }
  destruct (split_buffer 5 record) as (hdr & rest & -> & Hh); [lia|]. rewrite zlen_app in Hl. apply Forall_app in Hb as [Hhb Hrb].
  destruct (Z.eqb_spec (be_acc 0 (sub hdr 3 2) + 5) record_len) as [Hc|Hc].
  2:{ exists None, (hdr ++ rest), dir. split; [|done]. unfold tls13_open_record. change TLS13_RECORD_HEADER_LEN with 5. change TLS13_AEAD_TAG_LEN with 16.
      replace (record_len <? 5 + 16) with false by lia. replace (dir_seq dir =? UINT64_MAX) with false by lia. rewrite !rd_app_l by lia.
      do 5 (destruct hdr as [|? hdr]; [done|]). split_bytes. change (be_acc 0 (sub _ 3 2)) with ((0 * 256 + z2) * 256 + z3) in Hc.
      change (rd _ 3) with (Ret z2). ret. change (rd _ 4) with (Ret z3). ret. unfold byte_ok in *.
      rewrite Z.shiftl_mul_pow2, lor_disjoint by lia. by replace (_ =? record_len) with false by lia. }
  destruct (split_buffer (record_len - 21) rest) as (c & rest' & -> & Hcl); [lia|]. rewrite zlen_app in Hl. apply Forall_app in Hrb as [Hcb Hrb].
  destruct (split_buffer 16 rest') as (tag & r & -> & Htl); [lia|]. apply Forall_app in Hrb as [Htb Hrb].
  pose proof (header_len_bound hdr Hhb Hh). replace record_len with (zlen c + 21) by lia. assert (Hsl : dir_seq dir < UINT64_MAX) by (destruct Hd as (_ & _ & ?); unfold UINT64_MAX in *; lia).
  rewrite open_record_ok by (done || lia). cbn zeta. case_bool_decide as Htag; [|by eexists _, _, _].
  set (m := cp_enc _ _ c). assert (Hm : zlen m = zlen c) by apply zlen_cp_enc. destruct (content_len m) as [|n] eqn:En; [by eexists _, _, _|].
  destruct (content_len_split m n En) as (k & Em & Hn0 & Hn). eexists _, _, _. split; [done|]. split; [done|]. split; [done|]. split; [done|].
  exists hdr, c, tag, k. assert (Es : sub (hdr ++ m ++ tag ++ r) 5 (Z.of_nat n) = take n m).
  { unfold sub. rewrite (padd_app hdr) by done. unfold ztake. rewrite Nat2Z.id, take_app_le by lia. done. }
  rewrite Es, <- Em. split; [rewrite !app_assoc, <- (app_assoc hdr); apply ztake_app; rewrite !zlen_app; lia|]. split; [done|].
  split; [unfold zlen; rewrite length_take; lia|].
  rewrite seal_ok; [|by apply dir_keyed|split; [done|lia]|split; [by apply cp_enc_bytes|lia]].
  rewrite !ztake_all by lia. unfold m. by rewrite cp_enc_twice, Htag.
Qed.

Lemma tls_open_only_sealed_witness :
  exists r record' dir', tls13_open_record Impl_scalar example_dir (replicate 30 3) 30 = Ret (r, record', dir') /\
    match r with
    | None => dir' = example_dir
    | Some (t, n) =>
        dir' = set_seq example_dir (dir_seq example_dir + 1) /\ dir_seq example_dir < UINT64_MAX /\ t <> 0 /\
        exists hdr c tag k, ztake 30 (replicate 30 3) = hdr ++ c ++ tag /\ zlen hdr = 5 /\ zlen (sub record' 5 n) = n /\
          aead_chacha20_poly1305_seal Impl_scalar (dir_key example_dir) (dir_nonce example_dir) hdr 5 (sub record' 5 n ++ [t] ++ replicate k 0) (zlen c) = Ret (c, tag)
    end.
Proof. apply (tls_open_only_sealed Impl_scalar example_dir (replicate 30 3) 30); [exact example_dir_ok|bytes|done]. Defined.

(** A direction that has emitted a record. *)
Inductive emitted (dir dir' : tls_record_dir_t) : Prop :=
| Emit_record impl it ot pt n out cap w out' :
    tls13_seal_record impl dir it ot pt n out cap = Ret (w, out', dir') -> w <> 0 -> emitted dir dir'
| Emit_record_iov impl it ot iov n out cap w out' :
    tls13_seal_record_iov impl dir it ot iov n out cap = Ret (w, out', dir') -> w <> 0 -> emitted dir dir'.

Ltac early_return H := repeat (case_match; [by injection H as <- _ _|]).

Lemma emitted_seq dir dir' : emitted dir dir' -> dir_seq dir <> UINT64_MAX /\ dir' = set_seq dir (u64 (dir_seq dir + 1)).
Proof.
  assert (E : forall s, (s =? UINT64_MAX) = false -> s <> UINT64_MAX) by lia.
  intros [impl it ot pt n out cap w out' H Hw|impl it ot iov n out cap w out' H Hw].
  - unfold tls13_seal_record in H. early_return H. apply rbind_ret in H as (o1 & _ & H). early_return H.
    apply rbind_ret in H as (? & _ & H). apply rbind_ret in H as (? & _ & H). apply rbind_ret in H as (? & _ & H). apply rbind_ret in H as ([? ?] & _ & H).
    apply rbind_ret in H as (? & _ & H). apply rbind_ret in H as (? & _ & H). injection H as _ _ <-. split; [by apply E|done].
  - unfold tls13_seal_record_iov in H. early_return H. apply rbind_ret in H as (o1 & _ & H). early_return H.
    apply rbind_ret in H as (? & _ & H). apply rbind_ret in H as (? & _ & H). apply rbind_ret in H as ([? ?] & _ & H).
    apply rbind_ret in H as (? & _ & H). apply rbind_ret in H as (? & _ & H). injection H as _ _ <-. split; [by apply E|done].
Qed.

Lemma emitted_ok dir dir' :
  dir_ok dir -> emitted dir dir' -> dir_ok dir' /\ dir_static_iv dir' = dir_static_iv dir /\ dir_seq dir' = dir_seq dir + 1.
Proof.
  intros (H1 & H2 & H3) H. destruct (emitted_seq _ _ H) as [Hm ->]. unfold UINT64_MAX in *. rewrite u64_small by lia.
  split; [|done]. split; [done|]. split; [done|]. cbn. lia.
Qed.


