(* ===== verification/Aes.v ===== *)
(** * AES-128

    [userspace/crypto/aes.c]: the key expansion and the block encryption, with
    the S-box, the round transformation and the round keys checked against the
    field arithmetic of FIPS 197.  A 16-byte state is the list of its bytes,
    column by column. *)

From Stdlib Require Import ZArith Lia Btauto.
From stdpp Require Import list numbers option.
From S2P Require Import Prelude Util Words.

Definition SBOX : list Z :=
  [0x63;0x7c;0x77;0x7b;0xf2;0x6b;0x6f;0xc5;0x30;0x01;0x67;0x2b;0xfe;0xd7;0xab;0x76;
   0xca;0x82;0xc9;0x7d;0xfa;0x59;0x47;0xf0;0xad;0xd4;0xa2;0xaf;0x9c;0xa4;0x72;0xc0;
   0xb7;0xfd;0x93;0x26;0x36;0x3f;0xf7;0xcc;0x34;0xa5;0xe5;0xf1;0x71;0xd8;0x31;0x15;
   0x04;0xc7;0x23;0xc3;0x18;0x96;0x05;0x9a;0x07;0x12;0x80;0xe2;0xeb;0x27;0xb2;0x75;
   0x09;0x83;0x2c;0x1a;0x1b;0x6e;0x5a;0xa0;0x52;0x3b;0xd6;0xb3;0x29;0xe3;0x2f;0x84;
   0x53;0xd1;0x00;0xed;0x20;0xfc;0xb1;0x5b;0x6a;0xcb;0xbe;0x39;0x4a;0x4c;0x58;0xcf;
   0xd0;0xef;0xaa;0xfb;0x43;0x4d;0x33;0x85;0x45;0xf9;0x02;0x7f;0x50;0x3c;0x9f;0xa8;
   0x51;0xa3;0x40;0x8f;0x92;0x9d;0x38;0xf5;0xbc;0xb6;0xda;0x21;0x10;0xff;0xf3;0xd2;
   0xcd;0x0c;0x13;0xec;0x5f;0x97;0x44;0x17;0xc4;0xa7;0x7e;0x3d;0x64;0x5d;0x19;0x73;
   0x60;0x81;0x4f;0xdc;0x22;0x2a;0x90;0x88;0x46;0xee;0xb8;0x14;0xde;0x5e;0x0b;0xdb;
   0xe0;0x32;0x3a;0x0a;0x49;0x06;0x24;0x5c;0xc2;0xd3;0xac;0x62;0x91;0x95;0xe4;0x79;
   0xe7;0xc8;0x37;0x6d;0x8d;0xd5;0x4e;0xa9;0x6c;0x56;0xf4;0xea;0x65;0x7a;0xae;0x08;
   0xba;0x78;0x25;0x2e;0x1c;0xa6;0xb4;0xc6;0xe8;0xdd;0x74;0x1f;0x4b;0xbd;0x8b;0x8a;
   0x70;0x3e;0xb5;0x66;0x48;0x03;0xf6;0x0e;0x61;0x35;0x57;0xb9;0x86;0xc1;0x1d;0x9e;
   0xe1;0xf8;0x98;0x11;0x69;0xd9;0x8e;0x94;0x9b;0x1e;0x87;0xe9;0xce;0x55;0x28;0xdf;
   0x8c;0xa1;0x89;0x0d;0xbf;0xe6;0x42;0x68;0x41;0x99;0x2d;0x0f;0xb0;0x54;0xbb;0x16].

Definition RCON : list Z := [0x00; 0x01; 0x02; 0x04; 0x08; 0x10; 0x20; 0x40; 0x80; 0x1b; 0x36].

(** [SBOX[b]] for a byte. *)
Definition sbox (b : Z) : Z := nth (Z.to_nat b) SBOX 0.

Definition rd32be (p : list Z) (off : Z) : res Z :=
  let! b0 := rd p off in
  let! b1 := rd p (off + 1) in
  let! b2 := rd p (off + 2) in
  let! b3 := rd p (off + 3) in
  Ret (Z.lor (Z.lor (Z.lor (u32 (Z.shiftl b0 24)) (u32 (Z.shiftl b1 16))) (u32 (Z.shiftl b2 8))) b3).

Definition sub_word (w : Z) : Z :=
  Z.lor (Z.lor (Z.lor (u32 (Z.shiftl (sbox (Z.land (Z.shiftr w 24) 0xff)) 24)) (u32 (Z.shiftl (sbox (Z.land (Z.shiftr w 16) 0xff)) 16)))
    (u32 (Z.shiftl (sbox (Z.land (Z.shiftr w 8) 0xff)) 8))) (sbox (Z.land w 0xff)).

Definition rot_word (w : Z) : Z := Z.lor (u32 (Z.shiftl w 8)) (Z.shiftr w 24).

Definition xtime (a : Z) : Z := u8 (Z.lxor (Z.shiftl a 1) (if Z.land a 0x80 =? 0 then 0 else 0x1b)).

(** The words [rk[i] .. rk[i + n - 1]], appended one by one. *)
Fixpoint expand (n i : nat) (rk : list Z) : list Z :=
  match n with
  | O => rk
  | S n' =>
      let t := nth (i - 1) rk 0 in
      let t := if (i mod 4 =? 0)%nat then Z.lxor (sub_word (rot_word t)) (u32 (Z.shiftl (nth (i / 4) RCON 0) 24)) else t in
      expand n' (S i) (rk ++ [Z.lxor (nth (i - 4) rk 0) t])
  end.

(** The 44 round-key words of [aes128_ctx_t]. *)
Definition aes128_init (key : list Z) : res (list Z) :=
  let! k0 := rd32be key 0 in
  let! k1 := rd32be key 4 in
  let! k2 := rd32be key 8 in
  let! k3 := rd32be key 12 in
  Ret (expand 40 4 [k0; k1; k2; k3]).

(** The four bytes of a round-key word, most significant first. *)
Definition word_bytes (k : Z) : list Z := [u8 (Z.shiftr k 24); u8 (Z.shiftr k 16); u8 (Z.shiftr k 8); u8 k].

Definition add_round_key (rk : list Z) (round : nat) (s : list Z) : list Z :=
  xor_bytes s (concat (map word_bytes (take 4 (drop (round * 4) rk)))).

Definition shift_rows (s : list Z) : list Z :=
  match s with
  | [s0; s1; s2; s3; s4; s5; s6; s7; s8; s9; s10; s11; s12; s13; s14; s15] =>
      [s0; s5; s10; s15; s4; s9; s14; s3; s8; s13; s2; s7; s12; s1; s6; s11]
  | _ => s
  end.

Definition mix_column (a0 a1 a2 a3 : Z) : list Z :=
  let x0 := xtime a0 in let x1 := xtime a1 in let x2 := xtime a2 in let x3 := xtime a3 in
  [Z.lxor (Z.lxor (Z.lxor (Z.lxor x0 a3) a2) x1) a1; Z.lxor (Z.lxor (Z.lxor (Z.lxor x1 a0) a3) x2) a2;
   Z.lxor (Z.lxor (Z.lxor (Z.lxor x2 a1) a0) x3) a3; Z.lxor (Z.lxor (Z.lxor (Z.lxor x3 a2) a1) x0) a0].

Definition mix_columns (s : list Z) : list Z :=
  match s with
  | [s0; s1; s2; s3; s4; s5; s6; s7; s8; s9; s10; s11; s12; s13; s14; s15] =>
      mix_column s0 s1 s2 s3 ++ mix_column s4 s5 s6 s7 ++ mix_column s8 s9 s10 s11 ++ mix_column s12 s13 s14 s15
  | _ => s
  end.

(** [AES128_NR] is 10; the last round has no MixColumns. *)
Definition aes_round (rk : list Z) (s : list Z) (round : nat) : list Z :=
  let s := map sbox s in
  let s := shift_rows s in
  let s := if (round =? 10)%nat then s else mix_columns s in
  add_round_key rk round s.

Definition aes128_encrypt_block (rk inp : list Z) : res (list Z) :=
  let! s := rdn inp 16 in
  let s := add_round_key rk 0 s in
  Ret (foldl (aes_round rk) s (seq 1 10)).

(** FIPS 197, appendix B. *)
Definition fips_key : list Z := [0x2b;0x7e;0x15;0x16;0x28;0xae;0xd2;0xa6;0xab;0xf7;0x15;0x88;0x09;0xcf;0x4f;0x3c].
Definition fips_pt : list Z := [0x32;0x43;0xf6;0xa8;0x88;0x5a;0x30;0x8d;0x31;0x31;0x98;0xa2;0xe0;0x37;0x07;0x34].
Definition fips_ct : list Z := [0x39;0x25;0x84;0x1d;0x02;0xdc;0x09;0xfb;0xdc;0x11;0x85;0x97;0x19;0x6a;0x0b;0x32].

Lemma fips_vector : (let! rk := aes128_init fips_key in aes128_encrypt_block rk fips_pt) = Ret fips_ct.
Proof. by vm_compute. Qed.

(** ** FIPS 197

    The field GF(2^8), the S-box as inversion followed by the affine map, and
    the cipher on lists of columns. *)

(** Multiplication by the polynomial [b], bit by bit. *)
Fixpoint gmul_bits (n : nat) (a b : Z) : Z :=
  match n with
  | O => 0
  | S n' => Z.lxor (if Z.odd b then a else 0) (gmul_bits n' (if 2 * a <? 256 then 2 * a else Z.lxor (2 * a) 0x11b) (b / 2))
  end.

Definition gmul (a b : Z) : Z := gmul_bits 8 a b.

(** The inverse in the field, [a ^ 254]; 0 for 0. *)
Definition ginv (a : Z) : Z := Nat.iter 253 (gmul a) a.

Definition affine (b : Z) : Z :=
  let bit i := Z.testbit b (i mod 8) in
  foldl (fun r i => if xorb (xorb (xorb (xorb (bit i) (bit (i + 4))) (bit (i + 5))) (bit (i + 6))) (bit (i + 7)) then Z.lxor r (2 ^ i) else r)
    0x63 (seqZ 0 8).

Definition fips_sbox (b : Z) : Z := affine (ginv b).

Definition fips_mix_column (a : list Z) : list Z :=
  map (fun row => foldl Z.lxor 0 (zip_with gmul row a)) [[2; 3; 1; 1]; [1; 2; 3; 1]; [1; 1; 2; 3]; [3; 1; 1; 2]].

(** A state is a list of four columns; row [r] is rotated by [r]. *)
Definition fips_shift_rows (cols : list (list Z)) : list (list Z) :=
  map (fun c => map (fun r => nth r (nth ((c + r) mod 4)%nat cols []) 0) (seq 0 4)) (seq 0 4).

Fixpoint fips_expand (n i : nat) (w : list (list Z)) : list (list Z) :=
  match n with
  | O => w
  | S n' =>
      let t := nth (i - 1) w [] in
      let t := if (i mod 4 =? 0)%nat
               then xor_bytes (map fips_sbox (rotate 1 t)) [Nat.iter (i / 4 - 1) (gmul 2) 1; 0; 0; 0] else t in
      fips_expand n' (S i) (w ++ [xor_bytes (nth (i - 4) w []) t])
  end.

Definition fips_add (w : list (list Z)) (round : nat) (cols : list (list Z)) : list (list Z) :=
  zip_with xor_bytes cols (take 4 (drop (round * 4) w)).

Definition fips_round (w cols : list (list Z)) (round : nat) : list (list Z) :=
  let cols := fips_shift_rows (map (map fips_sbox) cols) in
  fips_add w round (if (round =? 10)%nat then cols else map fips_mix_column cols).

Definition fips_cipher (key m : list Z) : list Z :=
  let w := fips_expand 40 4 (chunks 4 key) in
  concat (foldl (fips_round w) (fips_add w 0 (chunks 4 m)) (seq 1 10)).

(** ** The tables and the field *)

Lemma sbox_correct b : byte_ok b -> sbox b = fips_sbox b /\ byte_ok (sbox b).
Proof.
  intros Hb. pose proof (byte_forall (fun b => (sbox b =? fips_sbox b) && ((0 <=? sbox b) && (sbox b <? 256))) ltac:(by vm_compute) b Hb) as H.
  cbv beta in H. unfold byte_ok. lia.
Qed.

(** Every non-zero byte has an inverse, so the S-box is a permutation. *)
Lemma ginv_correct b : byte_ok b -> b <> 0 -> gmul b (ginv b) = 1.
Proof.
  intros Hb H0. pose proof (byte_forall (fun b => (b =? 0) || (gmul b (ginv b) =? 1)) ltac:(by vm_compute) b Hb) as H. cbv beta in H. lia.
Qed.

Lemma xtime_correct a : byte_ok a -> xtime a = gmul 2 a /\ gmul 3 a = Z.lxor (xtime a) a /\ gmul 1 a = a /\ byte_ok (xtime a).
Proof.
  intros Ha. pose proof (byte_forall (fun a => (xtime a =? gmul 2 a) && (gmul 3 a =? Z.lxor (xtime a) a) && (gmul 1 a =? a) &&
    ((0 <=? xtime a) && (xtime a <? 256))) ltac:(by vm_compute) a Ha) as H. cbv beta in H. unfold byte_ok. lia.
Qed.

Ltac lxor_solve := apply Z.bits_inj'; intros ? ?; rewrite ?Z.lxor_spec, ?Z.bits_0; btauto.

Lemma mix_column_correct a0 a1 a2 a3 :
  Forall byte_ok [a0; a1; a2; a3] -> mix_column a0 a1 a2 a3 = fips_mix_column [a0; a1; a2; a3] /\ Forall byte_ok (mix_column a0 a1 a2 a3).
Proof.
  intros H. split_bytes. destruct (xtime_correct a0) as (X0 & Y0 & Z0 & B0'); [done|]. destruct (xtime_correct a1) as (X1 & Y1 & Z1 & B1'); [done|].
  destruct (xtime_correct a2) as (X2 & Y2 & Z2 & B2'); [done|]. destruct (xtime_correct a3) as (X3 & Y3 & Z3 & B3'); [done|].
  split; [|unfold mix_column; repeat (constructor; [repeat apply lxor_byte; done|]); constructor].
  unfold fips_mix_column, mix_column. cbn [map zip_with foldl]. rewrite Y0, Y1, Y2, Y3, Z0, Z1, Z2, Z3, <- X0, <- X1, <- X2, <- X3.
  f_equal; [lxor_solve|]. f_equal; [lxor_solve|]. f_equal; [lxor_solve|]. f_equal. lxor_solve.
Qed.

(** ** Words *)

Lemma word_bytes_be w : word_bytes w = be_bytes 4 w.
Proof. unfold word_bytes, u8. cbn [be_bytes]. rewrite !Z.shiftr_div_pow2 by lia. change (256 ^ Z.of_nat 0) with 1. rewrite Z.div_1_r. done. Qed.

Lemma be_bytes_lxor n a b : 0 <= a -> 0 <= b -> be_bytes n (Z.lxor a b) = xor_bytes (be_bytes n a) (be_bytes n b).
Proof.
  intros Ha Hb. induction n as [|n IH]; [done|]. unfold xor_bytes in *. cbn [be_bytes zip_with]. f_equal; [|done].
  replace (256 ^ Z.of_nat n) with (2 ^ (8 * Z.of_nat n)) by (rewrite Z.pow_mul_r by lia; done). change 256 with (2 ^ 8).
  rewrite <- !Z.shiftr_div_pow2, <- !Z.land_ones, Z.shiftr_lxor by lia.
  apply Z.bits_inj'. intros i Hi. rewrite !Z.land_spec, !Z.lxor_spec, !Z.land_spec. by destruct (Z.testbit (Z.ones 8) i); rewrite ?andb_true_r, ?andb_false_r.
Qed.

(** Four bytes joined by shifts. *)
Lemma join_bytes a b c d :
  Forall byte_ok [a; b; c; d] ->
  Z.lor (Z.lor (Z.lor (u32 (Z.shiftl a 24)) (u32 (Z.shiftl b 16))) (u32 (Z.shiftl c 8))) d = be_acc 0 [a; b; c; d].
Proof.
  intros H. split_bytes. unfold byte_ok in *. rewrite !Z.shiftl_mul_pow2, !u32_small by lia.
  rewrite (lor_disjoint 24) by lia. replace (a * 2 ^ 24 + b * 2 ^ 16) with ((a * 2 ^ 8 + b) * 2 ^ 16) by lia.
  rewrite (lor_disjoint 16) by lia. replace ((a * 2 ^ 8 + b) * 2 ^ 16 + c * 2 ^ 8) with (((a * 2 ^ 8 + b) * 2 ^ 8 + c) * 2 ^ 8) by lia.
  rewrite lor_disjoint by lia. cbn [be_acc]. lia.
Qed.

Lemma rd32be_ok p off : Forall byte_ok p -> 0 <= off -> off + 4 <= zlen p -> rd32be p off = Ret (be_acc 0 (sub p off 4)).
Proof.
  intros Hp H1 H2. unfold rd32be. destruct (rd_four p off H1 H2) as (b0 & b1 & b2 & b3 & E & -> & -> & -> & ->). ret. rewrite E. f_equal.
  apply join_bytes. rewrite <- E. auto with pico.
Qed.

(** A 32-bit word by its bytes. *)
Lemma word_split w : 0 <= w < 2 ^ 32 -> exists a b c d, w = be_acc 0 [a; b; c; d] /\ Forall byte_ok [a; b; c; d] /\ word_bytes w = [a; b; c; d].
Proof.
  intros Hw. exists ((w / 256 ^ 3) mod 256), ((w / 256 ^ 2) mod 256), ((w / 256 ^ 1) mod 256), ((w / 256 ^ 0) mod 256).
  split; [symmetry; by apply (be_val_bytes 4)|]. split; [apply (be_bytes_ok 4)|]. by rewrite word_bytes_be.
Qed.

Lemma word_bytes_val a b c d : Forall byte_ok [a; b; c; d] -> word_bytes (be_acc 0 [a; b; c; d]) = [a; b; c; d].
Proof. intros. rewrite word_bytes_be. by apply (be_bytes_val [a; b; c; d]). Qed.

Lemma word_range a b c d : Forall byte_ok [a; b; c; d] -> 0 <= be_acc 0 [a; b; c; d] < 2 ^ 32.
Proof. intros H. by apply (be_val_bounds [a; b; c; d]). Qed.

Lemma sub_word_ok w : 0 <= w < 2 ^ 32 -> 0 <= sub_word w < 2 ^ 32 /\ word_bytes (sub_word w) = map fips_sbox (word_bytes w).
Proof.
  intros Hw. destruct (word_split w Hw) as (a & b & c & d & E & Hb & Ew). rewrite Ew. pose proof Hb as Hb'. split_bytes.
  assert (Hs : sub_word w = be_acc 0 [sbox a; sbox b; sbox c; sbox d]).
  { unfold sub_word. change 0xff with (Z.ones 8). rewrite !Z.land_ones, !Z.shiftr_div_pow2 by lia. unfold word_bytes in Ew. unfold u8 in Ew.
    rewrite !Z.shiftr_div_pow2 in Ew by lia. injection Ew as -> -> -> ->. apply join_bytes. repeat (constructor; [by apply sbox_correct|]). constructor. }
  assert (Hsb : Forall byte_ok [sbox a; sbox b; sbox c; sbox d]) by (repeat (constructor; [by apply sbox_correct|]); constructor).
  rewrite Hs. split; [by apply word_range|]. rewrite word_bytes_val by done. cbn [map].
  rewrite (proj1 (sbox_correct a ltac:(done))), (proj1 (sbox_correct b ltac:(done))), (proj1 (sbox_correct c ltac:(done))),
    (proj1 (sbox_correct d ltac:(done))). done.
Qed.

Lemma rot_word_ok w : 0 <= w < 2 ^ 32 -> 0 <= rot_word w < 2 ^ 32 /\ word_bytes (rot_word w) = rotate 1 (word_bytes w).
Proof.
  intros Hw. destruct (word_split w Hw) as (a & b & c & d & E & Hb & Ew). rewrite Ew.
  assert (Hb' : Forall byte_ok [b; c; d; a]) by (split_bytes; by repeat (constructor; [done|]); constructor).
  assert (Hr : rot_word w = be_acc 0 [b; c; d; a]).
  { unfold rot_word, u32. rewrite Z.shiftl_mul_pow2, Z.shiftr_div_pow2, E by lia. cbn [be_acc]. split_bytes. unfold byte_ok in *.
    replace ((((0 * 256 + a) * 256 + b) * 256 + c) * 256 + d) with (a * 2 ^ 24 + (b * 2 ^ 16 + c * 2 ^ 8 + d)) by lia.
    replace ((a * 2 ^ 24 + (b * 2 ^ 16 + c * 2 ^ 8 + d)) * 2 ^ 8) with ((b * 2 ^ 16 + c * 2 ^ 8 + d) * 2 ^ 8 + a * 2 ^ 32) by lia.
    rewrite Z.mod_add, Z.mod_small, Z.div_add_l, Z.div_small, Z.add_0_r, lor_disjoint by lia. lia. }
  rewrite Hr. split; [by apply word_range|]. by rewrite word_bytes_val.
Qed.

(** ** Key expansion *)

Definition u32_ok (w : Z) : Prop := 0 <= w < 2 ^ 32.

Lemma lxor_u32 a b : u32_ok a -> u32_ok b -> u32_ok (Z.lxor a b).
Proof. apply (lxor_bound 32). Qed.

Lemma rcon_ok i :
  (4 <= i < 44)%nat -> (i mod 4 =? 0)%nat = true ->
  u32_ok (u32 (Z.shiftl (nth (i / 4) RCON 0) 24)) /\ word_bytes (u32 (Z.shiftl (nth (i / 4) RCON 0) 24)) = [Nat.iter (i / 4 - 1) (gmul 2) 1; 0; 0; 0].
Proof.
  intros Hi Hm. split; [apply u32_range|]. revert Hm.
  assert (H : forallb (fun i => implb (i mod 4 =? 0)%nat
    (bool_decide (word_bytes (u32 (Z.shiftl (nth (i / 4) RCON 0) 24)) = [Nat.iter (i / 4 - 1) (gmul 2) 1; 0; 0; 0]))) (seq 4 40) = true) by (by vm_compute).
  rewrite forallb_forall in H. specialize (H i ltac:(apply in_seq; lia)). cbv beta in H. intros Hm. rewrite Hm in H. cbn [implb] in H.
  by apply bool_decide_eq_true in H.
Qed.

Lemma expand_ok n : forall i rk, length rk = i -> (4 <= i)%nat -> (i + n <= 44)%nat -> Forall u32_ok rk ->
  Forall u32_ok (expand n i rk) /\ length (expand n i rk) = (i + n)%nat /\ map word_bytes (expand n i rk) = fips_expand n i (map word_bytes rk).
Proof.
  induction n as [|n IH]; intros i rk Hl H4 Hn Hrk; cbn [expand fips_expand]; [by rewrite Nat.add_0_r|].
  assert (Hnth : forall j, (j < i)%nat -> u32_ok (nth j rk 0) /\ nth j (map word_bytes rk) [] = word_bytes (nth j rk 0)).
  { intros j Hj. split; [rewrite List.Forall_forall in Hrk; apply Hrk, nth_In; lia|].
    rewrite (nth_indep (map word_bytes rk) [] (word_bytes 0)) by (rewrite length_map; lia). apply map_nth. }
  destruct (Hnth (i - 1)%nat ltac:(lia)) as [T1 T2]. destruct (Hnth (i - 4)%nat ltac:(lia)) as [F1 F2]. rewrite T2, F2.
  set (t := nth (i - 1) rk 0) in *. set (f := nth (i - 4) rk 0) in *.
  set (t' := if (i mod 4 =? 0)%nat then _ else t).
  assert (Ht : u32_ok t' /\ word_bytes t' = if (i mod 4 =? 0)%nat
    then xor_bytes (map fips_sbox (rotate 1 (word_bytes t))) [Nat.iter (i / 4 - 1) (gmul 2) 1; 0; 0; 0] else word_bytes t).
  { unfold t'. destruct (i mod 4 =? 0)%nat eqn:Em; [|done]. destruct (rot_word_ok t T1) as [R1 R2]. destruct (sub_word_ok _ R1) as [S1 S2].
    destruct (rcon_ok i ltac:(lia) Em) as [C1 C2]. split; [by apply lxor_u32|].
    rewrite word_bytes_be, be_bytes_lxor, <- !word_bytes_be, S2, R2, C2 by (unfold u32_ok in *; lia). done. }
  clearbody t'. destruct Ht as [Ht1 Ht2]. rewrite <- Ht2.
  destruct (IH (S i) (rk ++ [Z.lxor f t'])) as (I1 & I2 & I3); [rewrite length_app; cbn; lia|lia|lia| |].
  - apply Forall_app. split; [done|]. constructor; [by apply lxor_u32|constructor].
  - split; [done|]. split; [lia|]. rewrite I3, map_app. cbn [map]. do 3 f_equal.
    rewrite word_bytes_be, be_bytes_lxor, <- !word_bytes_be by (unfold u32_ok in *; lia). done.
Qed.

(** ** The cipher *)

Definition cols_ok (cols : list (list Z)) : Prop := length cols = 4%nat /\ Forall (fun c => length c = 4%nat /\ Forall byte_ok c) cols.

#[local] Opaque sbox fips_sbox gmul mix_column fips_mix_column.

(** The sixteen bytes of a state. *)
Ltac open_cols H :=
  destruct H as [?H ?H];
  match goal with |- context [concat ?cols] => do 5 (destruct cols as [|? cols]; try done) end;
  repeat match goal with H : Forall (fun c => length c = 4%nat /\ Forall byte_ok c) (_ :: _) |- _ =>
    let L := fresh "L" in let B := fresh "B" in apply Forall_cons_1 in H as [[L B] H] end;
  repeat match goal with L : length ?c = 4%nat |- _ => do 5 (destruct c as [|? c]; try done); clear L end.

Lemma sub_bytes_ok cols : cols_ok cols -> map sbox (concat cols) = concat (map (map fips_sbox) cols) /\ cols_ok (map (map fips_sbox) cols).
Proof.
  intros [Hl Hc]. split.
  - clear Hl. induction Hc as [|c cols [_ Hb] Hc IH]; [done|]. cbn [concat map]. rewrite map_app, IH. f_equal.
    apply map_ext_Forall. eapply list.Forall_impl; [exact Hb|]. intros b Hbb. apply sbox_correct. exact Hbb.
  - split; [by rewrite length_map|]. apply Forall_map. eapply list.Forall_impl; [exact Hc|]. intros c [Hl' Hb]. split; [by rewrite length_map|].
    apply Forall_map. eapply list.Forall_impl; [exact Hb|]. intros b Hbb. rewrite <- (proj1 (sbox_correct b Hbb)). by apply sbox_correct.
Qed.

Lemma shift_rows_ok cols : cols_ok cols -> shift_rows (concat cols) = concat (fips_shift_rows cols) /\ cols_ok (fips_shift_rows cols).
Proof.
  intros H. open_cols H. split; [done|]. split; [done|]. split_bytes. cbn. repeat (constructor; [split; [done|by repeat (constructor; [assumption|])]|]). constructor.
Qed.

Lemma mix_columns_ok cols : cols_ok cols -> mix_columns (concat cols) = concat (map fips_mix_column cols) /\ cols_ok (map fips_mix_column cols).
Proof.
  intros H. open_cols H. cbn [concat app map mix_columns].
  repeat match goal with B : Forall byte_ok [?a; ?b; ?c; ?d] |- _ => let M := fresh in let N := fresh in destruct (mix_column_correct a b c d B) as [M N]; rewrite M in *; clear M B end.
  split; [by rewrite app_nil_r|]. split; [done|]. repeat (constructor; [split; [done|assumption]|]). constructor.
Qed.

Lemma add_round_key_ok rk r cols :
  cols_ok cols -> length rk = 44%nat -> (r <= 10)%nat ->
  add_round_key rk r (concat cols) = concat (fips_add (map word_bytes rk) r cols) /\ cols_ok (fips_add (map word_bytes rk) r cols).
Proof.
  intros [Hl Hc] Hrk Hr. unfold add_round_key, fips_add. rewrite skipn_map, firstn_map. set (ks := take 4 (drop (r * 4) rk)).
  assert (Hks : length ks = length cols) by (unfold ks; rewrite length_take, length_drop; lia). clearbody ks.
  assert (G : xor_bytes (concat cols) (concat (map word_bytes ks)) = concat (zip_with xor_bytes cols (map word_bytes ks)) /\
    Forall (fun c => length c = 4%nat /\ Forall byte_ok c) (zip_with xor_bytes cols (map word_bytes ks))).
  { clear Hl. revert ks Hks. induction Hc as [|c cols [Hcl Hcb] Hc IH]; intros [|k ks] Hks; try done. cbn [concat map zip_with].
    destruct (IH ks ltac:(cbn in Hks; lia)) as [I1 I2]. split; [rewrite xor_bytes_app by done; by rewrite I1|].
    constructor; [|done]. split; [by rewrite length_xor_bytes, Hcl|]. apply xor_bytes_ok; [done|]. rewrite word_bytes_be. apply be_bytes_ok. }
  destruct G as [G1 G2]. split; [done|]. split; [rewrite length_zip_with, length_map; lia|done].
Qed.

Lemma round_ok rk cols r :
  cols_ok cols -> length rk = 44%nat -> (r <= 10)%nat ->
  aes_round rk (concat cols) r = concat (fips_round (map word_bytes rk) cols r) /\ cols_ok (fips_round (map word_bytes rk) cols r).
Proof.
  intros Hc Hrk Hr. unfold aes_round, fips_round. destruct (sub_bytes_ok cols Hc) as [-> H1]. destruct (shift_rows_ok _ H1) as [-> H2].
  destruct (r =? 10)%nat; [by apply add_round_key_ok|]. destruct (mix_columns_ok _ H2) as [-> H3]. by apply add_round_key_ok.
Qed.

Lemma rounds_ok rk l : length rk = 44%nat -> Forall (fun r => (r <= 10)%nat) l -> forall cols, cols_ok cols ->
  foldl (aes_round rk) (concat cols) l = concat (foldl (fips_round (map word_bytes rk)) cols l) /\ cols_ok (foldl (fips_round (map word_bytes rk)) cols l).
Proof.
  intros Hrk. induction 1 as [|r l Hr Hl IH]; intros cols Hc; cbn [foldl]; [done|].
  destruct (round_ok rk cols r Hc Hrk Hr) as [-> H1]. by apply IH.
Qed.

Lemma chunks_cols m : length m = 16%nat -> Forall byte_ok m -> concat (chunks 4 m) = m /\ cols_ok (chunks 4 m).
Proof.
  intros Hl Hb. do 17 (destruct m as [|? m]; try done). split; [done|]. split_bytes. split; [done|].
  cbn. repeat (constructor; [split; [done|by repeat (constructor; [assumption|])]|]). constructor.
Qed.

(** The round keys are the bytes of the FIPS key schedule. *)
Lemma aes128_init_ok key :
  Forall byte_ok key -> 16 <= zlen key ->
  exists rk, aes128_init key = Ret rk /\ length rk = 44%nat /\ map word_bytes rk = fips_expand 40 4 (chunks 4 (ztake 16 key)).
Proof.
  intros Hb Hl. unfold aes128_init. rewrite !rd32be_ok by (done || lia). ret. eexists. split; [done|].
  assert (Hw : forall off, 0 <= off -> off + 4 <= zlen key -> u32_ok (be_acc 0 (sub key off 4)) /\ word_bytes (be_acc 0 (sub key off 4)) = sub key off 4).
  { intros off H1 H2. pose proof (Forall_sub byte_ok key off 4 Hb) as B. pose proof (zlen_sub key off 4 H1 ltac:(lia) H2) as L.
    split; [pose proof (be_val_bounds _ B) as V; by rewrite L in V|]. rewrite word_bytes_be. replace 4%nat with (length (sub key off 4)) by (unfold zlen in L; lia).
    by apply be_bytes_val. }
  destruct (Hw 0) as [A0 E0]; [lia..|]. destruct (Hw 4) as [A1 E1]; [lia..|]. destruct (Hw 8) as [A2 E2]; [lia..|]. destruct (Hw 12) as [A3 E3]; [lia..|].
  destruct (expand_ok 40 4 [be_acc 0 (sub key 0 4); be_acc 0 (sub key 4 4); be_acc 0 (sub key 8 4); be_acc 0 (sub key 12 4)]) as (X1 & X2 & X3);
    [done|lia|lia|by repeat (constructor; [done|]); constructor|]. split; [done|]. rewrite X3. f_equal. cbn [map]. rewrite E0, E1, E2, E3.
  destruct (split_buffer 16 key) as (k & r & -> & Hk); [lia|]. rewrite ztake_app by done. unfold zlen in Hk.
  do 17 (destruct k as [|? k]; try (cbn in Hk; lia)). done.
Qed.

Definition aes_block (key m : list Z) : list Z := fips_cipher (ztake 16 key) (ztake 16 m).

Lemma fips_cipher_ok key m :
  Forall byte_ok key -> 16 <= zlen key -> Forall byte_ok m -> 16 <= zlen m ->
  exists rk, aes128_init key = Ret rk /\ aes128_encrypt_block rk m = Ret (aes_block key m) /\ length (aes_block key m) = 16%nat /\ Forall byte_ok (aes_block key m).
Proof.
  intros Hk Hkl Hm Hml. destruct (aes128_init_ok key Hk Hkl) as (rk & E & Hrk & Hw). exists rk. split; [done|].
  unfold aes128_encrypt_block, aes_block, fips_cipher. rewrite rdn_ok by lia. ret. rewrite <- Hw.
  destruct (chunks_cols (ztake 16 m)) as [Ec Hc]; [rewrite length_ztake; lia|auto with pico|]. rewrite <- Ec at 1.
  destruct (add_round_key_ok rk 0 _ Hc Hrk ltac:(lia)) as [-> H0].
  destruct (rounds_ok rk (seq 1 10) Hrk ltac:(by repeat constructor; lia) _ H0) as [-> [H1 H2]]. split; [done|].
  generalize dependent (foldl (fips_round (map word_bytes rk)) (fips_add (map word_bytes rk) 0 (chunks 4 (ztake 16 m))) (seq 1 10)). intros cols H1 H2.
  clear - H1 H2. do 5 (destruct cols as [|? cols]; try done). cbn [concat].
  repeat match goal with H : Forall (fun c => length c = 4%nat /\ Forall byte_ok c) (_ :: _) |- _ => let L := fresh "L" in let B := fresh "B" in apply Forall_cons_1 in H as [[L B] H] end.
  rewrite !length_app, !Forall_app. cbn [length]. split; [lia|]. split_and!; try done; constructor.
Qed.

(** Only the first sixteen bytes are read. *)
Lemma encrypt_prefix rk m q : zlen m = 16 -> aes128_encrypt_block rk (m ++ q) = aes128_encrypt_block rk m.
Proof. intros. unfold aes128_encrypt_block. by rewrite rdn_app, rdn_ok, ztake_all by (done || lia). Qed.

(** One key schedule serves every block. *)
Lemma aes_key_ok key :
  Forall byte_ok key -> 16 <= zlen key ->
  exists rk, aes128_init key = Ret rk /\ forall m, Forall byte_ok m -> 16 <= zlen m ->
    aes128_encrypt_block rk m = Ret (aes_block key m) /\ length (aes_block key m) = 16%nat /\ Forall byte_ok (aes_block key m).
Proof.
  intros Hk Hl. destruct (aes128_init_ok key Hk Hl) as (rk & E & _). exists rk. split; [done|]. intros m Hm Hml.
  destruct (fips_cipher_ok key m Hk Hl Hm Hml) as (rk' & E' & H). rewrite E in E'. by injection E' as <-.
Qed.

(** The block cipher is AES-128.  For every key and block, the table-driven
    code with its 32-bit key schedule computes the FIPS 197 cipher, whose S-box
    is inversion in GF(2^8) followed by the affine map, whose MixColumns is the
    matrix product in that field and whose round constants are the powers of 2. *)
Theorem aes128_is_fips197 key m :
  Forall byte_ok key -> zlen key = 16 -> Forall byte_ok m -> zlen m = 16 ->
  (let! rk := aes128_init key in aes128_encrypt_block rk m) = Ret (fips_cipher key m).
Proof.
  intros Hk Hkl Hm Hml. destruct (fips_cipher_ok key m) as (rk & -> & E & _ & _); [done|lia|done|lia|]. ret. rewrite E. unfold aes_block.
  by rewrite !ztake_all by lia.
Qed.

Lemma aes128_is_fips197_witness :
  (let! rk := aes128_init fips_key in aes128_encrypt_block rk fips_pt) = Ret (fips_cipher fips_key fips_pt).
Proof. apply (aes128_is_fips197 fips_key fips_pt); (reflexivity || by apply bytes_okb_ok). Defined.
