(* ===== verification/AesGcm.v ===== *)
(** * AES-128-GCM

    [userspace/crypto/aes_gcm.c]: the multiplication in GF(2^128), GHASH, the
    counter mode, and sealing and opening.  A loop that reads 16 bytes per round
    has as much fuel as its buffer has bytes, and one more: it either ends or
    reads out of bounds before the fuel does. *)

From Stdlib Require Import ZArith Lia.
From stdpp Require Import list numbers option.
From S2P Require Import Prelude Util Words Aead Aes.

Definition xor16 (a b : list Z) : list Z := xor_bytes a b.

(** The shift of [v] by one bit to the right, from byte 15 down to 0; [prev] is
    the byte before. *)
Fixpoint shr1 (prev : Z) (v : list Z) : list Z :=
  match v with
  | [] => []
  | b :: v' => u8 (Z.lor (Z.shiftr b 1) (Z.shiftl (Z.land prev 1) 7)) :: shr1 b v'
  end.

Definition gf128_shift (v : list Z) : list Z :=
  let lsb := Z.land (nth 15 v 0) 1 in
  let v := shr1 0 v in
  if lsb =? 0 then v else match v with [] => [] | b :: v' => Z.lxor b 0xe1 :: v' end.

(** Round [i] of [gf128_mul] on [(z, v)]. *)
Definition gf128_step (y : list Z) (zv : list Z * list Z) (i : nat) : list Z * list Z :=
  let '(z, v) := zv in
  let byte := (i / 8)%nat in
  let bit := 7 - Z.of_nat (i mod 8) in
  let z := if Z.land (Z.shiftr (nth byte y 0) bit) 1 =? 0 then z else xor_bytes z v in
  (z, gf128_shift v).

(** [z] may be [x]: [x] is copied first. *)
Definition gf128_mul (x y : list Z) : list Z := fst (foldl (gf128_step y) (replicate 16 0, x) (seq 0 128)).

(** The blocks of one of the two strings; [off] is a multiple of 16. *)
Fixpoint ghash_loop (fuel : nat) (y H p : list Z) (off len : Z) : res (list Z * Z) :=
  if off + 16 <=? len then
    match fuel with
    | O => Oob
    | S fuel' => let! b := rdn (padd p off) 16 in ghash_loop fuel' (gf128_mul (xor16 y b) H) H p (off + 16) len
    end
  else Ret (y, off).

Definition ghash_string (y H p : list Z) (len : Z) : res (list Z) :=
  let! (y, off) := ghash_loop (S (length p)) y H p 0 len in
  if off <? len then
    let! b := rdn (padd p off) (len - off) in
    let blk := b ++ replicate (Z.to_nat (16 - (len - off))) 0 in
    Ret (gf128_mul (xor16 y blk) H)
  else Ret y.

Definition ghash (H aad : list Z) (aad_len : Z) (ct : list Z) (ct_len : Z) : res (list Z) :=
  let! y := ghash_string (replicate 16 0) H aad aad_len in
  let! y := ghash_string y H ct ct_len in
  let blk := be_bytes 8 (u64 (aad_len * 8)) ++ be_bytes 8 (u64 (ct_len * 8)) in
  Ret (gf128_mul (xor16 y blk) H).

(** [for (i = 15; i >= 12; i--) if (++cb[i]) break;] from [i] on. *)
Fixpoint inc_from (n : nat) (i : Z) (cb : list Z) : res (list Z) :=
  match n with
  | O => Ret cb
  | S n' =>
      let! b := rd cb i in
      let b := u8 (b + 1) in
      let! cb := wr cb i b in
      if b =? 0 then inc_from n' (i - 1) cb else Ret cb
  end.

Definition inc32 (cb : list Z) : res (list Z) := inc_from 4 15 cb.

Fixpoint gctr_loop (fuel : nat) (rk cb inp : list Z) (off len : Z) (out : list Z) : res (list Z * list Z * Z) :=
  if off + 16 <=? len then
    match fuel with
    | O => Oob
    | S fuel' =>
        let! ks := aes128_encrypt_block rk cb in
        let! b := rdn (padd inp off) 16 in
        let! cb := inc32 cb in
        gctr_loop fuel' rk cb inp (off + 16) len (out ++ xor_bytes b ks)
    end
  else Ret (cb, out, off).

Definition gctr (rk J0 inp : list Z) (in_len : Z) : res (list Z) :=
  let! cb := rdn J0 16 in
  let! cb := inc32 cb in
  let! (cb, out, off) := gctr_loop (S (length inp)) rk cb inp 0 in_len [] in
  if off <? in_len then
    let! ks := aes128_encrypt_block rk cb in
    let! b := rdn (padd inp off) (in_len - off) in
    Ret (out ++ xor_bytes b ks)
  else Ret out.

(** The key schedule, H = AES(0) and J0 = IV || 1. *)
Definition gcm_setup (key iv : list Z) : res (list Z * list Z * list Z) :=
  let! aes := aes128_init key in
  let! H := aes128_encrypt_block aes (replicate 16 0) in
  let! iv := rdn iv 12 in
  Ret (aes, H, iv ++ [0; 0; 0; 1]).

(** The tag of a ciphertext. *)
Definition gcm_tag (aes H J0 aad : list Z) (aad_len : Z) (ct : list Z) (ct_len : Z) : res (list Z) :=
  let! hash := ghash H aad aad_len ct ct_len in
  let! EJ0 := aes128_encrypt_block aes J0 in
  Ret (xor16 EJ0 hash).

Definition aes128_gcm_seal (key iv aad : list Z) (aad_len : Z) (pt : list Z) (pt_len : Z) : res (list Z * list Z) :=
  let! (aes, H, J0) := gcm_setup key iv in
  let! ct := (if pt_len =? 0 then Ret [] else gctr aes J0 pt pt_len) in
  let! tag := gcm_tag aes H J0 aad aad_len ct pt_len in
  Ret (ct, tag).

Definition aes128_gcm_open (key iv aad : list Z) (aad_len : Z) (ct : list Z) (ct_len : Z) (tag : list Z) : res (list Z) :=
  let! (aes, H, J0) := gcm_setup key iv in
  let! expect_tag := gcm_tag aes H J0 aad aad_len ct ct_len in
  let! eq := crypto_consttime_eq expect_tag tag 16 in
  if negb eq then Fail
  else if ct_len =? 0 then Ret [] else gctr aes J0 ct ct_len.

(** NIST GCM test case 4. *)
Definition nist_key : list Z := [0xfe;0xff;0xe9;0x92;0x86;0x65;0x73;0x1c;0x6d;0x6a;0x8f;0x94;0x67;0x30;0x83;0x08].
Definition nist_iv : list Z := [0xca;0xfe;0xba;0xbe;0xfa;0xce;0xdb;0xad;0xde;0xca;0xf8;0x88].
Definition nist_aad : list Z := [0xfe;0xed;0xfa;0xce;0xde;0xad;0xbe;0xef;0xfe;0xed;0xfa;0xce;0xde;0xad;0xbe;0xef;0xab;0xad;0xda;0xd2].
Definition nist_pt : list Z :=
  [0xd9;0x31;0x32;0x25;0xf8;0x84;0x06;0xe5;0xa5;0x59;0x09;0xc5;0xaf;0xf5;0x26;0x9a;0x86;0xa7;0xa9;0x53;0x15;0x34;0xf7;0xda;0x2e;0x4c;0x30;0x3d;0x8a;0x31;0x8a;0x72;0x1c;0x3c;0x0c;0x95;0x95;0x68;0x09;0x53;0x2f;0xcf;0x0e;0x24;0x49;0xa6;0xb5;0x25;0xb1;0x6a;0xed;0xf5;0xaa;0x0d;0xe6;0x57;0xba;0x63;0x7b;0x39].
Definition nist_ct : list Z :=
  [0x42;0x83;0x1e;0xc2;0x21;0x77;0x74;0x24;0x4b;0x72;0x21;0xb7;0x84;0xd0;0xd4;0x9c;0xe3;0xaa;0x21;0x2f;0x2c;0x02;0xa4;0xe0;0x35;0xc1;0x7e;0x23;0x29;0xac;0xa1;0x2e;0x21;0xd5;0x14;0xb2;0x54;0x66;0x93;0x1c;0x7d;0x8f;0x6a;0x5a;0xac;0x84;0xaa;0x05;0x1b;0xa3;0x0b;0x39;0x6a;0x0a;0xac;0x97;0x3d;0x58;0xe0;0x91].
Definition nist_tag : list Z := [0x5b;0xc9;0x4f;0xbc;0x32;0x21;0xa5;0xdb;0x94;0xfa;0xe9;0x5a;0xe7;0x12;0x1a;0x47].

Lemma nist_vector : aes128_gcm_seal nist_key nist_iv nist_aad 20 nist_pt 60 = Ret (nist_ct, nist_tag).
Proof. by vm_compute. Qed.

(** ** The construction of SP 800-38D

    A block is the number of its sixteen bytes, most significant first; its
    first bit is the constant coefficient. *)

(** Multiplication by the generator, modulo x^128 + x^7 + x^2 + x + 1. *)
Definition gf_x (v : Z) : Z := Z.lxor (v / 2) (if Z.odd v then 0xe1 * 2 ^ 120 else 0).

(** The sum of the multiples of [x] that the coefficients of [y] select. *)
Definition gf_mul (x y : Z) : Z :=
  foldl (fun z i => if Z.testbit y (127 - Z.of_nat i) then Z.lxor z (Nat.iter i gf_x x) else z) 0 (seq 0 128).

Definition ghash_fold (h : Z) (y : Z) (bs : list (list Z)) : Z := foldl (fun y b => gf_mul (Z.lxor y (be_acc 0 b)) h) y bs.

Definition gcm_lengths (aad ct : list Z) : list Z := be_bytes 8 (u64 (zlen aad * 8)) ++ be_bytes 8 (u64 (zlen ct * 8)).

Definition ghash_spec (h : Z) (aad ct : list Z) : Z :=
  ghash_fold h 0 (chunks 16 (aad ++ pad16 aad) ++ chunks 16 (ct ++ pad16 ct) ++ [gcm_lengths aad ct]).

(** The keystream block of a counter. *)
Definition gcm_block (key iv : list Z) (c : Z) : list Z := aes_block key (ztake 12 iv ++ be_bytes 4 c).

Definition gcm_enc (key iv m : list Z) : list Z := ctr 16 (gcm_block key iv) 2 m.

Definition gcm_mac (key iv aad ct : list Z) : list Z :=
  xor_bytes (gcm_block key iv 1) (be_bytes 16 (ghash_spec (be_acc 0 (aes_block key (replicate 16 0))) aad ct)).

(** ** The multiplication *)

Definition block_ok (b : list Z) : Prop := Forall byte_ok b /\ length b = 16%nat.

Lemma block_range b : block_ok b -> 0 <= be_acc 0 b < 2 ^ 128.
Proof. intros [Hb Hl]. pose proof (be_val_bounds b Hb) as H. unfold zlen in H. by rewrite Hl in H. Qed.

Lemma block_val b : block_ok b -> be_bytes 16 (be_acc 0 b) = b.
Proof. intros [Hb Hl]. rewrite <- Hl. by apply be_bytes_val. Qed.

Lemma xor_block a b : block_ok a -> block_ok b -> block_ok (xor_bytes a b) /\ be_acc 0 (xor_bytes a b) = Z.lxor (be_acc 0 a) (be_acc 0 b).
Proof.
  intros Ha Hb. pose proof (block_range a Ha). pose proof (block_range b Hb). split.
  - destruct Ha as [? Ha], Hb as [? Hb]. split; [by apply xor_bytes_ok|]. by rewrite length_xor_bytes, Ha, Hb.
  - rewrite <- (block_val a Ha), <- (block_val b Hb) at 1. rewrite <- be_bytes_lxor by lia. apply be_val_bytes.
    change (256 ^ Z.of_nat 16) with (2 ^ 128). by apply lxor_bound.
Qed.

Lemma shr1_ok v : Forall byte_ok v -> forall prev,
  Forall byte_ok (shr1 prev v) /\ length (shr1 prev v) = length v /\ be_acc 0 (shr1 prev v) = ((prev mod 2) * 256 ^ zlen v + be_acc 0 v) / 2.
Proof.
  induction 1 as [|b v Hb Hv IH]; intros prev; cbn [shr1]; [split; [constructor|]; split; [done|]; change (zlen []) with 0; cbn [be_acc]; dlia|].
  destruct (IH b) as (I1 & I2 & I3). split; [constructor; [apply u8_byte|done]|]. split; [cbn; lia|].
  rewrite !be_acc_cons, I3, zlen_cons, Z.pow_add_r by (pose proof (zlen_nonneg v); lia). unfold zlen in *. rewrite I2. fold (zlen v).
  pose proof (be_val_bounds v Hv). set (N := 256 ^ zlen v) in *. unfold byte_ok in Hb.
  assert (E : u8 (Z.lor (Z.shiftr b 1) (Z.shiftl (Z.land prev 1) 7)) = b / 2 + 128 * (prev mod 2)).
  { change 1 with (Z.ones 1) at 2. rewrite Z.land_ones, Z.shiftl_mul_pow2, Z.shiftr_div_pow2, Z.lor_comm, lor_disjoint by dlia.
    unfold u8. change (2 ^ 1) with 2. rewrite Z.mod_small; dlia. }
  rewrite E. replace (prev mod 2 * (N * 256 ^ 1) + (b * N + be_acc 0 v)) with
    ((128 * (prev mod 2) * N + b / 2 * N) * 2 + (b mod 2 * N + be_acc 0 v)) by (pose proof (Z.div_mod b 2); nia).
  rewrite Z.div_add_l by lia. lia.
Qed.

Lemma nth_be_bytes n k v : (k < n)%nat -> nth k (be_bytes n v) 0 = (v / 256 ^ Z.of_nat (n - 1 - k)) mod 256.
Proof.
  revert k. induction n as [|n IH]; intros k Hk; [lia|]. cbn [be_bytes]. destruct k as [|k]; cbn [nth]; [do 4 f_equal; lia|].
  rewrite IH by lia. do 4 f_equal. lia.
Qed.

Lemma gf128_shift_ok v : block_ok v -> block_ok (gf128_shift v) /\ be_acc 0 (gf128_shift v) = gf_x (be_acc 0 v).
Proof.
  intros Hv. pose proof (block_range v Hv) as Hr. destruct (shr1_ok v (proj1 Hv) 0) as (S1 & S2 & S3). rewrite Z.mul_0_l, Z.add_0_l in S3.
  assert (Hs : block_ok (shr1 0 v)) by (split; [done|rewrite S2; apply Hv]).
  assert (El : Z.land (nth 15 v 0) 1 = (be_acc 0 v) mod 2).
  { rewrite <- (block_val v Hv) at 1. rewrite nth_be_bytes by lia. change 1 with (Z.ones 1) at 1. rewrite Z.land_ones by lia.
    change (256 ^ Z.of_nat (16 - 1 - 15)) with 1. rewrite Z.div_1_r. change (2 ^ 1) with 2. dlia. }
  unfold gf128_shift, gf_x. rewrite El, Zmod_odd. destruct (Z.odd (be_acc 0 v)); cbn [Z.eqb]; [|by rewrite Z.lxor_0_r].
  destruct (shr1 0 v) as [|b t] eqn:Et; [by destruct Hs|].
  assert (Hx : Z.lxor b 0xe1 :: t = xor_bytes (b :: t) (0xe1 :: replicate 15 0)).
  { unfold xor_bytes. cbn [zip_with]. f_equal. assert (Ht : length t = 15%nat) by (destruct Hs as [_ Hs]; cbn in Hs; lia). clear - Ht.
    revert Ht. generalize 15%nat. intros n. revert t. induction n as [|n IH]; intros [|x t] Ht; try done. cbn [replicate zip_with]. rewrite Z.lxor_0_r.
    f_equal. apply IH. cbn in Ht. lia. }
  rewrite Hx. destruct (xor_block (b :: t) (0xe1 :: replicate 15 0) Hs) as [X1 X2]; [split; [by apply bytes_okb_ok|done]|].
  split; [done|]. rewrite X2, S3. done.
Qed.

Lemma block_bit y i :
  block_ok y -> (i < 128)%nat -> (Z.land (Z.shiftr (nth (i / 8) y 0) (7 - Z.of_nat (i mod 8))) 1 =? 0) = negb (Z.testbit (be_acc 0 y) (127 - Z.of_nat i)).
Proof.
  intros Hy Hi. pose proof (Nat.div_mod_eq i 8) as Hd. pose proof (Nat.mod_upper_bound i 8 ltac:(lia)) as Hm.
  assert (Hq : (i / 8 < 16)%nat) by (apply Nat.Div0.div_lt_upper_bound; lia).
  rewrite <- (block_val y Hy) at 1. rewrite nth_be_bytes by done. set (v := be_acc 0 y). set (q := (i / 8)%nat) in *. set (r := (i mod 8)%nat) in *. clearbody v q r.
  replace (256 ^ Z.of_nat (16 - 1 - q)) with (2 ^ (8 * Z.of_nat (15 - q))) by (rewrite Z.pow_mul_r by lia; repeat f_equal; lia).
  change 256 with (2 ^ 8). rewrite <- Z.shiftr_div_pow2, <- Z.land_ones by lia. change 1 with (Z.ones 1). rewrite Z.land_ones by lia. change (2 ^ 1) with 2.
  rewrite <- Z.bit0_mod, Z.shiftr_spec, Z.land_spec, Z.shiftr_spec, Z.ones_spec_low, andb_true_r by lia.
  replace (0 + (7 - Z.of_nat r) + 8 * Z.of_nat (15 - q)) with (127 - Z.of_nat i) by lia. by destruct (Z.testbit v _).
Qed.

(** The byte-wise code multiplies in the field. *)
Lemma gf128_mul_ok x y : block_ok x -> block_ok y -> block_ok (gf128_mul x y) /\ be_acc 0 (gf128_mul x y) = gf_mul (be_acc 0 x) (be_acc 0 y).
Proof.
  intros Hx Hy. unfold gf128_mul, gf_mul.
  assert (G : forall n i z v, (i + n <= 128)%nat -> block_ok z -> block_ok v -> be_acc 0 v = Nat.iter i gf_x (be_acc 0 x) ->
    block_ok (fst (foldl (gf128_step y) (z, v) (seq i n))) /\
    be_acc 0 (fst (foldl (gf128_step y) (z, v) (seq i n))) =
      foldl (fun z i => if Z.testbit (be_acc 0 y) (127 - Z.of_nat i) then Z.lxor z (Nat.iter i gf_x (be_acc 0 x)) else z) (be_acc 0 z) (seq i n)).
  { induction n as [|n IH]; intros i z v Hi Hz Hv Ev; cbn [seq foldl]; [done|]. unfold gf128_step at 2 4. rewrite block_bit by (done || lia).
    destruct (gf128_shift_ok v Hv) as [V1 V2]. destruct (xor_block z v Hz Hv) as [X1 X2].
    destruct (Z.testbit (be_acc 0 y) (127 - Z.of_nat i)); cbn [negb].
    - rewrite <- Ev, <- X2. apply IH; [lia|done|done|]. rewrite V2, Ev. done.
    - apply IH; [lia|done|done|]. rewrite V2, Ev. done. }
  destruct (G 128%nat 0%nat (replicate 16 0) x) as [G1 G2]; [lia|by split; [apply bytes_okb_ok|]|done|done|]. split; [done|]. rewrite G2. done.
Qed.

(** ** GHASH *)

Lemma ghash_fold_app h y a b : ghash_fold h y (a ++ b) = ghash_fold h (ghash_fold h y a) b.
Proof. apply foldl_app. Qed.

#[local] Opaque gf128_mul gf_mul.

(** Absorbing one block. *)
Lemma absorb_ok H y b :
  block_ok H -> block_ok y -> block_ok b ->
  block_ok (gf128_mul (xor16 y b) H) /\ be_acc 0 (gf128_mul (xor16 y b) H) = ghash_fold (be_acc 0 H) (be_acc 0 y) [b].
Proof.
  intros HH Hy Hb. destruct (xor_block y b Hy Hb) as [X1 X2]. destruct (gf128_mul_ok (xor16 y b) H X1 HH) as [G1 G2]. split; [done|].
  rewrite G2. unfold xor16, ghash_fold. cbn [foldl]. rewrite X2. reflexivity.
Qed.

Lemma sub_block p off : Forall byte_ok p -> 0 <= off -> off + 16 <= zlen p -> block_ok (sub p off 16).
Proof. intros Hp H1 H2. split; [auto with pico|]. pose proof (zlen_sub p off 16 H1 ltac:(lia) H2) as E. unfold zlen in E. lia. Qed.

Lemma ghash_loop_ok H p len : block_ok H -> Forall byte_ok p -> len <= zlen p -> forall fuel y off,
  block_ok y -> 0 <= off <= len -> len - off <= 16 * Z.of_nat fuel ->
  exists y' k, ghash_loop fuel y H p off len = Ret (y', off + 16 * Z.of_nat k) /\ block_ok y' /\ 0 <= len - (off + 16 * Z.of_nat k) < 16 /\
    be_acc 0 y' = ghash_fold (be_acc 0 H) (be_acc 0 y) (chunks 16 (sub p off (16 * Z.of_nat k))).
Proof.
  intros HH Hp Hlen. induction fuel as [|fuel IH]; intros y off Hy Ho Hf; cbn [ghash_loop].
  { destruct (Z.leb_spec (off + 16) len); [lia|]. exists y, 0%nat. rewrite Z.mul_0_r, Z.add_0_r. split_and!; (done || lia). }
  destruct (Z.leb_spec (off + 16) len) as [Hle|Hgt].
  2:{ exists y, 0%nat. rewrite Z.mul_0_r, Z.add_0_r. split_and!; (done || lia). }
  rewrite rdn_ok by (rewrite zlen_padd; lia). ret. fold (sub p off 16). pose proof (sub_block p off Hp ltac:(lia) ltac:(lia)) as Hb.
  destruct (absorb_ok H y _ HH Hy Hb) as [A1 A2]. destruct (IH _ (off + 16) A1 ltac:(lia) ltac:(lia)) as (y' & k & E & Y1 & Y2 & Y3).
  exists y', (S k). rewrite E. split; [do 2 f_equal; lia|]. split; [done|]. split; [lia|]. rewrite Y3, A2.
  replace (16 * Z.of_nat (S k)) with (16 + 16 * Z.of_nat k) by lia. rewrite sub_split by lia. by rewrite chunks_cons by (lia || apply Hb).
Qed.

Lemma ghash_string_ok H y p len :
  block_ok H -> block_ok y -> slice p len ->
  let m := ztake len p in
  exists y', ghash_string y H p len = Ret y' /\ block_ok y' /\ be_acc 0 y' = ghash_fold (be_acc 0 H) (be_acc 0 y) (chunks 16 (m ++ pad16 m)).
Proof.
  intros HH Hy (Hp & Hl & H64) m. assert (Hm : zlen m = len) by (unfold m; rewrite zlen_ztake; lia). unfold ghash_string.
  destruct (ghash_loop_ok H p len HH Hp ltac:(lia) (S (length p)) y 0 Hy ltac:(lia) ltac:(unfold zlen in *; lia)) as (y1 & k & -> & Y1 & Y2 & Y3).
  ret. rewrite Z.add_0_l in *. set (n := 16 * Z.of_nat k) in *. change (sub p 0 n) with (ztake n p) in Y3.
  assert (Ek : length (ztake n p) = (k * 16)%nat) by (rewrite length_ztake; lia).
  assert (Em : m = ztake n p ++ sub p n (len - n)) by (unfold m, sub; rewrite <- ztake_split by lia; f_equal; lia).
  assert (Hpad : - zlen m mod 16 = (16 - (len - n)) mod 16) by (rewrite Hm; unfold n; dlia).
  destruct (Z.ltb_spec n len) as [Hlt|Hge].
  - rewrite rdn_ok by (rewrite zlen_padd; lia). ret. fold (sub p n (len - n)). set (t := sub p n (len - n)) in *.
    assert (Ht : zlen t = len - n) by (apply zlen_sub; lia). rewrite (Z.mod_small (16 - (len - n))) in Hpad by lia.
    set (b := t ++ _). assert (Eb : b = t ++ pad16 m) by (unfold b, pad16; by rewrite Hpad).
    assert (Hb : block_ok b).
    { split; [apply Forall_app; split; [unfold t; auto with pico|by apply Forall_replicate]|]. unfold b. rewrite length_app, length_replicate. unfold zlen in Ht. lia. }
    destruct (absorb_ok H y1 b HH Y1 Hb) as [A1 A2]. eexists. split; [done|]. split; [done|].
    assert (Emp : m ++ pad16 m = ztake n p ++ b) by (rewrite Eb, app_assoc, <- Em; reflexivity).
    rewrite Emp, (chunks_app 16 k _ _ ltac:(lia) Ek), ghash_fold_app, A2, Y3, (chunks_last 16 b); [reflexivity| |destruct Hb; lia].
    intros E0. destruct Hb as [_ Hb]. rewrite E0 in Hb. discriminate Hb.
  - exists y1. split; [done|]. split; [done|]. rewrite Y3. assert (En : n = len) by lia.
    replace (pad16 m) with (@nil Z) by (unfold pad16; rewrite Hpad; replace (16 - (len - n)) with 16 by lia; done). rewrite app_nil_r. unfold m. by rewrite En.
Qed.

(** A length beyond the buffer: the blocks run past its end. *)
Lemma ghash_string_oob H y p len : zlen p < len -> ghash_string y H p len = Oob.
Proof.
  intros Hl. unfold ghash_string. pose proof (zlen_nonneg p).
  assert (G : forall fuel y off, 0 <= off <= zlen p -> match ghash_loop fuel y H p off len with Ret (_, o) => 0 <= o <= zlen p | Fail => False | Oob => True end).
  { clear y. induction fuel as [|fuel IH]; intros y off Ho; cbn [ghash_loop]; (destruct (Z.leb_spec (off + 16) len); [|exact Ho]); [exact I|].
    unfold rdn. rewrite zlen_padd by lia. destruct (Z.leb_spec 16 (0 `max` (zlen p - off))); [|exact I]. ret. apply IH. lia. }
  specialize (G (S (length p)) y 0 ltac:(lia)). destruct (ghash_loop _ _ _ _ _ _) as [[y1 o]| |]; [|contradiction|reflexivity]. ret.
  destruct (Z.ltb_spec o len); [|lia]. unfold rdn. rewrite zlen_padd by lia. destruct (Z.leb_spec (len - o) (0 `max` (zlen p - o))); [lia|reflexivity].
Qed.

Lemma ghash_ok H aad aad_len ct ct_len :
  block_ok H -> slice aad aad_len -> slice ct ct_len ->
  exists y, ghash H aad aad_len ct ct_len = Ret y /\ block_ok y /\ be_acc 0 y = ghash_spec (be_acc 0 H) (ztake aad_len aad) (ztake ct_len ct).
Proof.
  intros HH Ha Hc. unfold ghash, ghash_spec.
  destruct (ghash_string_ok H (replicate 16 0) aad aad_len HH ltac:(by split; [apply bytes_okb_ok|]) Ha) as (y1 & -> & Y1 & Y2). ret.
  destruct (ghash_string_ok H y1 ct ct_len HH Y1 Hc) as (y2 & -> & Z1 & Z2). ret.
  assert (Ea : zlen (ztake aad_len aad) = aad_len) by (destruct Ha as (_ & ? & _); rewrite zlen_ztake; lia).
  assert (Ec : zlen (ztake ct_len ct) = ct_len) by (destruct Hc as (_ & ? & _); rewrite zlen_ztake; lia).
  assert (Eg : be_bytes 8 (u64 (aad_len * 8)) ++ be_bytes 8 (u64 (ct_len * 8)) = gcm_lengths (ztake aad_len aad) (ztake ct_len ct)).
  { unfold gcm_lengths. by rewrite Ea, Ec. }
  rewrite Eg. set (g := gcm_lengths _ _). assert (Hg : block_ok g).
  { split; [apply Forall_app; split; apply be_bytes_ok|]. unfold g, gcm_lengths. by rewrite length_app, !length_be_bytes. }
  destruct (absorb_ok H y2 g HH Z1 Hg) as [A1 A2]. eexists. split; [done|]. split; [done|]. rewrite A2, Z2, Y2. by rewrite !ghash_fold_app.
Qed.

(** ** The counter mode *)

Lemma be_word l x : Forall byte_ok l -> length l = 4%nat -> be_acc 0 l = u32 x -> be_bytes 4 (u32 x) = l.
Proof. intros Hb Hl <-. rewrite <- Hl. by apply be_bytes_val. Qed.

(** The bytes behind a carry. *)
Ltac counter_word :=
  erewrite be_word; [reflexivity|repeat (constructor; [first [apply u8_byte|unfold byte_ok; lia]|]); constructor|reflexivity|cbn [be_acc]; rewrite u32_small; lia].

(** The increment carries through the last four bytes only. *)
Lemma inc32_bytes p b0 b1 b2 b3 :
  length p = 12%nat -> Forall byte_ok [b0; b1; b2; b3] -> inc32 (p ++ [b0; b1; b2; b3]) = Ret (p ++ be_bytes 4 (u32 (be_acc 0 [b0; b1; b2; b3] + 1))).
Proof.
  intros Hp Hb. do 13 (destruct p as [|? p]; try done). clear Hp. split_bytes. unfold byte_ok in *.
  assert (Hu : forall b, 0 <= b < 256 -> u8 (b + 1) = if b =? 255 then 0 else b + 1) by (intros b Hbb; unfold u8; zcase; [subst; done|apply Z.mod_small; lia]).
  unfold inc32. cbn [inc_from app]. set (w := u32 _). change (rd _ 15) with (Ret b3). ret. rewrite Hu by done. destruct (Z.eqb_spec b3 255) as [->|H3].
  2:{ change (wr _ 15 (b3 + 1)) with (Ret [z; z0; z1; z2; z3; z4; z5; z6; z7; z8; z9; z10; b0; b1; b2; b3 + 1]). ret.
      destruct (Z.eqb_spec (b3 + 1) 0); [lia|]. unfold w. counter_word. }
  change (wr _ 15 0) with (Ret [z; z0; z1; z2; z3; z4; z5; z6; z7; z8; z9; z10; b0; b1; b2; 0]). ret. cbn [Z.eqb].
  change (rd _ (15 - 1)) with (Ret b2). ret. rewrite Hu by done. destruct (Z.eqb_spec b2 255) as [->|H2].
  2:{ change (wr _ (15 - 1) (b2 + 1)) with (Ret [z; z0; z1; z2; z3; z4; z5; z6; z7; z8; z9; z10; b0; b1; b2 + 1; 0]). ret.
      destruct (Z.eqb_spec (b2 + 1) 0); [lia|]. unfold w. counter_word. }
  change (wr _ (15 - 1) 0) with (Ret [z; z0; z1; z2; z3; z4; z5; z6; z7; z8; z9; z10; b0; b1; 0; 0]). ret. cbn [Z.eqb].
  change (rd _ (15 - 1 - 1)) with (Ret b1). ret. rewrite Hu by done. destruct (Z.eqb_spec b1 255) as [->|H1].
  2:{ change (wr _ (15 - 1 - 1) (b1 + 1)) with (Ret [z; z0; z1; z2; z3; z4; z5; z6; z7; z8; z9; z10; b0; b1 + 1; 0; 0]). ret.
      destruct (Z.eqb_spec (b1 + 1) 0); [lia|]. unfold w. counter_word. }
  change (wr _ (15 - 1 - 1) 0) with (Ret [z; z0; z1; z2; z3; z4; z5; z6; z7; z8; z9; z10; b0; 0; 0; 0]). ret. cbn [Z.eqb].
  change (rd _ (15 - 1 - 1 - 1)) with (Ret b0). ret.
  change (wr _ (15 - 1 - 1 - 1) (u8 (b0 + 1))) with (Ret [z; z0; z1; z2; z3; z4; z5; z6; z7; z8; z9; z10; u8 (b0 + 1); 0; 0; 0]). ret.
  assert (Ew : be_bytes 4 w = [u8 (b0 + 1); 0; 0; 0]).
  { apply be_word; [repeat (constructor; [first [apply u8_byte|unfold byte_ok; lia]|]); constructor|done|]. cbn [be_acc]. rewrite Hu by done. unfold u32.
    destruct (Z.eqb_spec b0 255); subst; [done|]. rewrite Z.mod_small; lia. }
  rewrite Ew. by destruct (u8 (b0 + 1) =? 0).
Qed.

Lemma inc32_ok p c : length p = 12%nat -> inc32 (p ++ be_bytes 4 c) = Ret (p ++ be_bytes 4 (u32 (c + 1))).
Proof.
  intros Hp. rewrite <- (u32_add_l c). change (u32 c) with (c mod 256 ^ Z.of_nat 4). rewrite <- (be_val_bytes_mod 4 c).
  apply inc32_bytes; [done|apply (be_bytes_ok 4 c)].
Qed.

#[local] Opaque aes_block.

Section keyed.
  Context (key iv rk : list Z).
  Context (Hiv : Forall byte_ok iv) (Hivl : zlen iv = 12).
  Context (Hrk : forall m, Forall byte_ok m -> 16 <= zlen m ->
    aes128_encrypt_block rk m = Ret (aes_block key m) /\ length (aes_block key m) = 16%nat /\ Forall byte_ok (aes_block key m)).

Lemma counter_block_ok c : block_ok (iv ++ be_bytes 4 c).
Proof using Hiv Hivl. split; [apply Forall_app; split; [done|apply be_bytes_ok]|]. rewrite length_app, length_be_bytes. unfold zlen in Hivl. lia. Qed.

Lemma encrypt_counter c :
  aes128_encrypt_block rk (iv ++ be_bytes 4 c) = Ret (gcm_block key iv c) /\ block_ok (gcm_block key iv c).
Proof using Hiv Hivl Hrk.
  destruct (counter_block_ok c) as [B L]. unfold gcm_block. rewrite ztake_all by lia.
  destruct (Hrk _ B ltac:(unfold zlen; lia)) as (E & L' & B'). split; [exact E|split; [exact B'|exact L']].
Qed.

Lemma gctr_loop_ok inp len : len <= zlen inp -> forall fuel c off out,
  0 <= off <= len -> len - off <= 16 * Z.of_nat fuel -> 0 <= c < 2 ^ 32 ->
  exists k, gctr_loop fuel rk (iv ++ be_bytes 4 c) inp off len out =
      Ret (iv ++ be_bytes 4 (u32 (c + Z.of_nat k)), out ++ ctr 16 (gcm_block key iv) c (sub inp off (16 * Z.of_nat k)), off + 16 * Z.of_nat k) /\
    0 <= len - (off + 16 * Z.of_nat k) < 16.
Proof using Hiv Hivl Hrk.
  intros Hlen. induction fuel as [|fuel IH]; intros c off out Ho Hf Hc; cbn [gctr_loop];
    (destruct (Z.leb_spec (off + 16) len) as [Hle|Hgt]; [try lia|exists 0%nat; rewrite Z.mul_0_r, !Z.add_0_r, u32_small by done; change (sub inp off 0) with (@nil Z);
       rewrite ctr_nil, app_nil_r; split; [done|lia]]).
  destruct (encrypt_counter c) as [-> [_ Lb]]. ret. rewrite rdn_ok by (rewrite zlen_padd; lia). ret. fold (sub inp off 16).
  rewrite inc32_ok by (unfold zlen in Hivl; lia). ret.
  destruct (IH (u32 (c + 1)) (off + 16) (out ++ xor_bytes (sub inp off 16) (gcm_block key iv c)) ltac:(lia) ltac:(lia) (u32_range _)) as (k & -> & Hk).
  exists (S k). rewrite u32_add_l. split; [|lia]. f_equal. f_equal; [|lia]. f_equal; [do 3 f_equal; lia|].
  replace (16 * Z.of_nat (S k)) with (16 + 16 * Z.of_nat k) by lia. rewrite sub_split by lia. rewrite <- app_assoc. f_equal.
  rewrite ctr_cons; [done|lia|]. pose proof (zlen_sub inp off 16) as L. unfold zlen in *. lia.
Qed.

Lemma gctr_ok inp len c :
  0 <= len <= zlen inp -> 0 <= c < 2 ^ 32 -> gctr rk (iv ++ be_bytes 4 c) inp len = Ret (ctr 16 (gcm_block key iv) (u32 (c + 1)) (ztake len inp)).
Proof using Hiv Hivl Hrk.
  intros Hl Hc. unfold gctr. destruct (counter_block_ok c) as [B L]. rewrite rdn_ok, ztake_all by (unfold zlen; lia). ret.
  rewrite inc32_ok by (unfold zlen in Hivl; lia). ret.
  destruct (gctr_loop_ok inp len ltac:(lia) (S (length inp)) (u32 (c + 1)) 0 [] ltac:(lia) ltac:(unfold zlen in *; lia) (u32_range _)) as (k & -> & Hk).
  ret. rewrite Z.add_0_l in *. set (n := 16 * Z.of_nat k) in *. change (sub inp 0 n) with (ztake n inp). cbn [app].
  assert (En : length (ztake n inp) = (k * 16)%nat) by (rewrite length_ztake; lia).
  destruct (Z.ltb_spec n len) as [Hlt|Hge]; [|by replace n with len by lia].
  destruct (encrypt_counter (u32 (u32 (c + 1) + Z.of_nat k))) as [-> [_ Lb]]. ret. rewrite rdn_ok by (rewrite zlen_padd; lia). ret. f_equal.
  replace (ztake len inp) with (ztake n inp ++ ztake (len - n) (padd inp n)) by (rewrite <- ztake_split by lia; f_equal; lia).
  assert (Et : length (ztake (len - n) (padd inp n)) = Z.to_nat (len - n)) by (rewrite length_ztake by (rewrite zlen_padd; lia); lia).
  rewrite (ctr_app 16 _ ltac:(lia) k _ _ _ (u32_range _) En). f_equal. rewrite ctr_short by lia. done.
Qed.

Lemma gcm_tag_ok H aad aad_len ct ct_len :
  block_ok H -> slice aad aad_len -> slice ct ct_len ->
  exists tag, gcm_tag rk H (iv ++ [0; 0; 0; 1]) aad aad_len ct ct_len = Ret tag /\ block_ok tag /\
    tag = xor_bytes (gcm_block key iv 1) (be_bytes 16 (ghash_spec (be_acc 0 H) (ztake aad_len aad) (ztake ct_len ct))).
Proof using Hiv Hivl Hrk.
  intros HH Ha Hc. unfold gcm_tag. destruct (ghash_ok H aad aad_len ct ct_len HH Ha Hc) as (y & -> & Y1 & Y2). ret.
  change [0; 0; 0; 1] with (be_bytes 4 1). destruct (encrypt_counter 1) as [-> B1]. ret. rewrite <- Y2, block_val by done.
  eexists. split; [done|]. split; [|done]. by apply xor_block.
Qed.
End keyed.

(** ** Seal and open *)

Definition aes128_gcm : aead := mk_aead 16 aes128_gcm_seal aes128_gcm_open.

Lemma gcm_setup_ok key iv :
  aead_keyed aes128_gcm key iv ->
  exists rk H, gcm_setup key iv = Ret (rk, H, iv ++ [0; 0; 0; 1]) /\ H = aes_block key (replicate 16 0) /\ block_ok H /\
    (forall m, Forall byte_ok m -> 16 <= zlen m ->
      aes128_encrypt_block rk m = Ret (aes_block key m) /\ length (aes_block key m) = 16%nat /\ Forall byte_ok (aes_block key m)).
Proof.
  intros [[Hk Hkl] [Hi Hil]]. cbn [a_key_len aes128_gcm] in Hkl. unfold gcm_setup. destruct (aes_key_ok key Hk ltac:(lia)) as (rk & -> & Hrk). ret.
  destruct (Hrk (replicate 16 0)) as (E & L & B); [by apply bytes_okb_ok|done|]. rewrite E. ret. rewrite rdn_ok, ztake_all by lia. ret.
  eexists _, _. split; [done|]. split; [done|]. split; [by split|done].
Qed.

Lemma gcm_block_ok key iv c : aead_keyed aes128_gcm key iv -> block_ok (gcm_block key iv c).
Proof.
  intros Hk. destruct (gcm_setup_ok key iv Hk) as (rk & H & _ & _ & _ & Hrk). destruct Hk as [_ [Hi Hil]].
  by destruct (encrypt_counter key iv rk Hi Hil Hrk c).
Qed.

Lemma gcm_enc_length key iv m : aead_keyed aes128_gcm key iv -> length (gcm_enc key iv m) = length m.
Proof. intros Hk. apply length_ctr; [lia|]. intros c. apply (gcm_block_ok key iv c Hk). Qed.

Lemma gcm_enc_twice key iv m : aead_keyed aes128_gcm key iv -> gcm_enc key iv (gcm_enc key iv m) = m.
Proof. intros Hk. apply ctr_twice; [lia|]. intros c. apply (gcm_block_ok key iv c Hk). Qed.

Lemma gcm_enc_bytes key iv m : aead_keyed aes128_gcm key iv -> Forall byte_ok m -> Forall byte_ok (gcm_enc key iv m).
Proof. intros Hk. apply ctr_byte_ok; [lia|]. intros c. apply (gcm_block_ok key iv c Hk). Qed.

Lemma gcm_mac_length key iv aad c : aead_keyed aes128_gcm key iv -> length (gcm_mac key iv aad c) = 16%nat.
Proof. intros Hk. unfold gcm_mac. rewrite length_xor_bytes, length_be_bytes. destruct (gcm_block_ok key iv 1 Hk) as [_ ->]. done. Qed.

Lemma gcm_mac_bytes key iv aad c : aead_keyed aes128_gcm key iv -> Forall byte_ok (gcm_mac key iv aad c).
Proof. intros Hk. apply xor_bytes_ok; [apply (gcm_block_ok key iv 1 Hk)|apply be_bytes_ok]. Qed.

Lemma gctr_two key iv rk inp len :
  Forall byte_ok iv -> zlen iv = 12 ->
  (forall m, Forall byte_ok m -> 16 <= zlen m ->
    aes128_encrypt_block rk m = Ret (aes_block key m) /\ length (aes_block key m) = 16%nat /\ Forall byte_ok (aes_block key m)) ->
  0 <= len <= zlen inp ->
  (if len =? 0 then Ret [] else gctr rk (iv ++ [0; 0; 0; 1]) inp len) = Ret (gcm_enc key iv (ztake len inp)).
Proof.
  intros Hi Hil Hrk Hl. destruct (Z.eqb_spec len 0) as [->|]; [done|]. change [0; 0; 0; 1] with (be_bytes 4 1). by apply (gctr_ok key iv rk Hi Hil Hrk).
Qed.

Lemma gcm_seal_ok key iv aad aad_len pt pt_len :
  aead_keyed aes128_gcm key iv -> slice aad aad_len -> slice pt pt_len ->
  aes128_gcm_seal key iv aad aad_len pt pt_len =
  Ret (gcm_enc key iv (ztake pt_len pt), gcm_mac key iv (ztake aad_len aad) (gcm_enc key iv (ztake pt_len pt))).
Proof.
  intros Hk Ha (Hp & Hl & H64). unfold aes128_gcm_seal. destruct (gcm_setup_ok key iv Hk) as (rk & H & -> & EH & HH & Hrk). ret.
  pose proof Hk as [_ [Hi Hil]]. rewrite (gctr_two key iv rk) by done. ret. set (c := gcm_enc key iv (ztake pt_len pt)).
  assert (Hc : zlen c = pt_len) by (unfold zlen, c; rewrite gcm_enc_length, length_ztake by (done || lia); lia).
  assert (Hsl : slice c pt_len) by (split; [apply gcm_enc_bytes; auto with pico|lia]).
  destruct (gcm_tag_ok key iv rk Hi Hil Hrk H aad aad_len c pt_len HH Ha Hsl) as (tag & -> & _ & ->). ret.
  unfold gcm_mac. rewrite (ztake_all c) by lia. rewrite EH. reflexivity.
Qed.

Lemma gcm_open_ok key iv aad aad_len ct ct_len tag :
  aead_keyed aes128_gcm key iv -> slice aad aad_len -> slice ct ct_len -> slice tag 16 ->
  aes128_gcm_open key iv aad aad_len ct ct_len tag =
  if bool_decide (ztake 16 tag = gcm_mac key iv (ztake aad_len aad) (ztake ct_len ct)) then Ret (gcm_enc key iv (ztake ct_len ct)) else Fail.
Proof.
  intros Hk Ha Hc (Ht1 & Ht2 & _). unfold aes128_gcm_open. destruct (gcm_setup_ok key iv Hk) as (rk & H & -> & EH & HH & Hrk). ret.
  pose proof Hk as [_ [Hi Hil]]. destruct (gcm_tag_ok key iv rk Hi Hil Hrk H aad aad_len ct ct_len HH Ha Hc) as (t & -> & [Htb Htl] & Et). ret.
  rewrite crypto_consttime_eq_ok by (assumption || lia || (unfold zlen; lia)). ret. rewrite (ztake_all t) by (unfold zlen; lia).
  assert (Em : t = gcm_mac key iv (ztake aad_len aad) (ztake ct_len ct)) by (rewrite Et, EH; reflexivity). rewrite <- Em.
  rewrite (bool_decide_ext (t = ztake 16 tag) (ztake 16 tag = t)) by (split; congruence). case_bool_decide; cbn [negb]; [|reflexivity].
  destruct Hc as (_ & Hl & _). by rewrite (gctr_two key iv rk).
Qed.

Lemma gcm_open_oob key iv aad aad_len ct ct_len tag :
  aead_keyed aes128_gcm key iv -> slice aad aad_len -> zlen ct < ct_len -> aes128_gcm_open key iv aad aad_len ct ct_len tag = Oob.
Proof.
  intros Hk Ha Hc. unfold aes128_gcm_open. destruct (gcm_setup_ok key iv Hk) as (rk & H & -> & EH & HH & Hrk). ret. unfold gcm_tag, ghash.
  destruct (ghash_string_ok H (replicate 16 0) aad aad_len HH ltac:(by split; [apply bytes_okb_ok|]) Ha) as (y1 & -> & _). ret.
  by rewrite ghash_string_oob.
Qed.

#[export] Instance aes128_gcm_laws : AeadLaws aes128_gcm := {
  aead_enc := gcm_enc;
  aead_mac := gcm_mac;
  aead_enc_twice := gcm_enc_twice;
  aead_enc_length := gcm_enc_length;
  aead_enc_bytes := gcm_enc_bytes;
  aead_mac_length := gcm_mac_length;
  aead_mac_bytes := gcm_mac_bytes;
  aead_seal_eq := gcm_seal_ok;
  aead_open_eq := gcm_open_ok
}.

#[local] Opaque gcm_enc gcm_mac.

(** C14: AES-128-GCM is the mode of SP 800-38D.  For every key, 96-bit IV and
    associated data, sealing produces the counter-mode ciphertext and the tag
    that the polynomial hash over GF(2^128) gives, the counter wrapping at 32
    bits; opening accepts a ciphertext and a tag exactly when sealing the
    returned plaintext produces them, and fails otherwise. *)
Theorem aes128_gcm_correct key iv aad pt ct tag :
  aead_keyed aes128_gcm key iv -> slice aad (zlen aad) -> slice pt (zlen pt) -> slice ct (zlen ct) -> Forall byte_ok tag -> zlen tag = 16 ->
  aes128_gcm_seal key iv aad (zlen aad) pt (zlen pt) = Ret (gcm_enc key iv pt, gcm_mac key iv aad (gcm_enc key iv pt)) /\
  (aes128_gcm_open key iv aad (zlen aad) ct (zlen ct) tag = Ret pt <-> ct = gcm_enc key iv pt /\ tag = gcm_mac key iv aad ct) /\
  (aes128_gcm_open key iv aad (zlen aad) ct (zlen ct) tag = Fail <-> tag <> gcm_mac key iv aad ct).
Proof.
  intros Hk Ha Hp Hc Ht1 Ht2. rewrite gcm_seal_ok, gcm_open_ok by (done || (split; [done|lia])). rewrite !ztake_all by lia. split; [done|].
  generalize dependent (gcm_mac key iv aad ct). intros t. destruct (bool_decide_reflect (tag = t)) as [Htag|Htag]; (split; split).
  - intros E. injection E as <-. rewrite gcm_enc_twice by assumption. by split.
  - intros [-> _]. rewrite gcm_enc_twice by assumption. reflexivity.
  - intros H. discriminate H.
  - intros H. destruct (H Htag).
  - intros H. discriminate H.
  - intros [_ H]. destruct (Htag H).
  - intros _. exact Htag.
  - reflexivity.
Qed.

Lemma aes128_gcm_correct_witness :
  aes128_gcm_seal nist_key nist_iv nist_aad (zlen nist_aad) nist_pt (zlen nist_pt) =
    Ret (gcm_enc nist_key nist_iv nist_pt, gcm_mac nist_key nist_iv nist_aad (gcm_enc nist_key nist_iv nist_pt)) /\
  (aes128_gcm_open nist_key nist_iv nist_aad (zlen nist_aad) nist_ct (zlen nist_ct) nist_tag = Ret nist_pt <->
    nist_ct = gcm_enc nist_key nist_iv nist_pt /\ nist_tag = gcm_mac nist_key nist_iv nist_aad nist_ct) /\
  (aes128_gcm_open nist_key nist_iv nist_aad (zlen nist_aad) nist_ct (zlen nist_ct) nist_tag = Fail <-> nist_tag <> gcm_mac nist_key nist_iv nist_aad nist_ct).
Proof.
  apply (aes128_gcm_correct nist_key nist_iv nist_aad nist_pt nist_ct nist_tag); try (by apply bytes_okb_ok); try (split; [by apply bytes_okb_ok|done]); try reflexivity.
  split; (split; [by apply bytes_okb_ok|reflexivity]).
Defined.
