(* ===== verification/Jumptable.v ===== *)
(** * The routing table

    Models the flat hash table of [src/jumptable.c] and the lookups the server
    makes in it: open addressing with linear probing over slots keyed by
    (host, path), with the hash computed incrementally over host, a separator
    and path.  A [resource_t*] is a value of the type [R].  [metal_die] ends the
    process: it is [Fail].  The abstract table is a finite map in which the
    first insertion of a key wins. *)

From Stdlib Require Import ZArith Lia.
From stdpp Require Import list numbers option gmap.
From S2P Require Import Prelude Util.

Definition KEY_SEP_BYTE : Z := 124.

Definition key_hash (host : list Z) (host_len : Z) (path : list Z) (path_len : Z) : res Z :=
  let! hb := rdn host host_len in
  let! pb := rdn path path_len in
  let h := metal_fnv1a_init in
  let h := metal_fnv1a_step h hb in
  let h := metal_fnv1a_step h [KEY_SEP_BYTE] in
  Ret (metal_fnv1a_step h pb).

(** [((uint32_t)host_len << 16) | (uint32_t)path_len] *)
Definition pack_lens (host_len path_len : Z) : Z :=
  Z.lor (u32 (Z.shiftl (u32 host_len) 16)) (u32 path_len).

Section Table.
Context {R : Type}.

Record flat_slot_t := mk_slot {
  fs_hash : Z;
  fs_value : option R;
  fs_host : list Z;
  fs_path : list Z;
  fs_lens : Z
}.

Definition empty_slot : flat_slot_t := mk_slot 0 None [] [] 0.

Record jumptable_t := mk_jt {
  jt_slots : list flat_slot_t;
  jt_cap : Z;
  jt_mask : Z;
  jt_size : Z;
  jt_err_400 : R;
  jt_err_404 : R;
  jt_err_405 : R;
  jt_err_409 : R;
  jt_err_413 : R;
  jt_err_414 : R;
  jt_err_505 : R;
  jt_known_hosts : list (list Z * Z)
}.

Definition set_table (jt : jumptable_t) (slots : list flat_slot_t) (cap mask size : Z) : jumptable_t :=
  mk_jt slots cap mask size (jt_err_400 jt) (jt_err_404 jt) (jt_err_405 jt) (jt_err_409 jt) (jt_err_413 jt)
    (jt_err_414 jt) (jt_err_505 jt) (jt_known_hosts jt).

Definition flat_init (jt : jumptable_t) (expected_entries : Z) : jumptable_t :=
  let need := u64 (expected_entries * 2 + 1) in
  let cap := metal_next_pow2 need in
  let cap := if cap <? 16 then 16 else cap in
  set_table jt (replicate (Z.to_nat cap) empty_slot) cap (cap - 1) 0.

(** [&slots[i]] *)
Definition slot_at (slots : list flat_slot_t) (i : Z) : res flat_slot_t :=
  if i <? 0 then Oob else match slots !! Z.to_nat i with Some s => Ret s | None => Oob end.

(** [s->hash == h && s->lens == lens && memcmp(..host..) == 0 && memcmp(..path..) == 0] *)
Definition slot_matches (eq : list Z -> list Z -> Z -> res bool) (s : flat_slot_t) (h lens : Z)
    (host : list Z) (host_len : Z) (path : list Z) (path_len : Z) : res bool :=
  if negb (fs_hash s =? h) then Ret false
  else if negb (fs_lens s =? lens) then Ret false
  else andr (eq (fs_host s) host host_len) (eq (fs_path s) path path_len).

(** [for (probes = 0; probes < cap; probes++)], [k] probes left. *)
Fixpoint insert_loop (jt : jumptable_t) (h lens : Z) (host : list Z) (host_len : Z) (path : list Z) (path_len : Z)
    (value : R) (i : Z) (k : nat) : res jumptable_t :=
  match k with
  | O => Fail
  | S k' =>
      let! s := slot_at (jt_slots jt) i in
      match fs_value s with
      | None =>
          let slots := <[Z.to_nat i := mk_slot h (Some value) host path lens]> (jt_slots jt) in
          let size := jt_size jt + 1 in
          if jt_cap jt <=? size + 1 then Fail else Ret (set_table jt slots (jt_cap jt) (jt_mask jt) size)
      | Some _ =>
          let! dup := slot_matches mem_eq s h lens host host_len path path_len in
          if dup then Ret jt
          else insert_loop jt h lens host host_len path path_len value (Z.land (i + 1) (jt_mask jt)) k'
      end
  end.

Definition flat_insert (jt : jumptable_t) (host : list Z) (host_len : Z) (path : list Z) (path_len : Z)
    (value : R) : res jumptable_t :=
  if (0xffff <? host_len) || (0xffff <? path_len) then Fail
  else
    let! h := key_hash host host_len path path_len in
    let lens := pack_lens host_len path_len in
    insert_loop jt h lens host host_len path path_len value (Z.land h (jt_mask jt)) (Z.to_nat (jt_cap jt)).

(** The loop of [flat_lookup] has no bound of its own; a lookup in a table with
    an empty slot ends within [cap] probes. *)
Fixpoint lookup_loop (ar : arch) (jt : jumptable_t) (h lens : Z) (host : list Z) (host_len : Z) (path : list Z)
    (path_len : Z) (i : Z) (fuel : nat) : res (option R) :=
  match fuel with
  | O => Oob
  | S fuel' =>
      let! s := slot_at (jt_slots jt) i in
      match fs_value s with
      | None => Ret None
      | Some v =>
          let! hit := slot_matches (metal_eq_n ar) s h lens host host_len path path_len in
          if hit then Ret (Some v)
          else lookup_loop ar jt h lens host host_len path path_len (Z.land (i + 1) (jt_mask jt)) fuel'
      end
  end.

Definition flat_lookup (ar : arch) (jt : jumptable_t) (host : list Z) (host_len : Z) (path : list Z) (path_len : Z)
    : res (option R) :=
  if jt_cap jt =? 0 then Ret None
  else
    let! h := key_hash host host_len path path_len in
    lookup_loop ar jt h (pack_lens host_len path_len) host host_len path path_len (Z.land h (jt_mask jt))
      (Z.to_nat (jt_cap jt)).

Definition jumptable_lookup (ar : arch) (jt : jumptable_t) (host : list Z) (host_len : Z) (path : list Z) (path_len : Z)
    : res (option R) :=
  if path_len =? 0 then Ret None
  else
    let! c := rd path 0 in
    if negb (c =? 0x2f) then Ret None else flat_lookup ar jt host host_len path path_len.

Fixpoint host_loop (known : list (list Z * Z)) (host : list Z) (host_len : Z) : res bool :=
  match known with
  | [] => Ret false
  | (name, len) :: known' =>
      if len =? host_len then
        let! e := mem_eq name host host_len in
        if e then Ret true else host_loop known' host host_len
      else host_loop known' host host_len
  end.

Definition jumptable_host_exists (jt : jumptable_t) (host : list Z) (host_len : Z) : res bool :=
  host_loop (jt_known_hosts jt) host host_len.

(** A sequence of insertions, as the build makes them. *)
Fixpoint insert_all (jt : jumptable_t) (ops : list (list Z * list Z * R)) : res jumptable_t :=
  match ops with
  | [] => Ret jt
  | (host, path, v) :: ops' => let! jt' := flat_insert jt host (zlen host) path (zlen path) v in insert_all jt' ops'
  end.
End Table.

Arguments flat_slot_t : clear implicits.
Arguments jumptable_t : clear implicits.

(** ** The abstract table *)

Abbreviation key := (list Z * list Z)%type.

(** Insertion that keeps the first value of a key. *)
Definition add_first {R} (m : gmap key R) (op : list Z * list Z * R) : gmap key R :=
  match m !! op.1 with Some _ => m | None => <[op.1 := op.2]> m end.

Definition hash_of (k : key) : Z := metal_fnv1a_step metal_fnv1a_init (k.1 ++ [KEY_SEP_BYTE] ++ k.2).

Definition key_ok (k : key) : Prop := zlen k.1 <= 0xffff /\ zlen k.2 <= 0xffff.

(** The key a slot holds. *)
Definition slot_key {R} (s : flat_slot_t R) : option key :=
  match fs_value s with
  | None => None
  | Some _ => Some (ztake (fs_lens s / 2 ^ 16) (fs_host s), ztake (fs_lens s mod 2 ^ 16) (fs_path s))
  end.

Definition slot_ok {R} (s : flat_slot_t R) : Prop :=
  0 <= fs_lens s < 2 ^ 32 /\ fs_lens s / 2 ^ 16 <= zlen (fs_host s) /\ fs_lens s mod 2 ^ 16 <= zlen (fs_path s) /\
  forall k, slot_key s = Some k -> fs_hash s = hash_of k.

(** The content of slot number [i]. *)
Definition slot_n {R} (jt : jumptable_t R) (i : Z) : option (flat_slot_t R) := jt_slots jt !! Z.to_nat i.

(** The [d]-th slot a probe for [k] visits. *)
Definition probe {R} (jt : jumptable_t R) (k : key) (d : Z) : Z := (hash_of k + d) mod jt_cap jt.

Definition occupied {R} (s : flat_slot_t R) : bool := match fs_value s with Some _ => true | None => false end.

(** Slot [i] holds a key other than [k]. *)
Definition holds_other {R} (jt : jumptable_t R) (k : key) (i : Z) : Prop :=
  exists s k', slot_n jt i = Some s /\ slot_key s = Some k' /\ k' <> k.

(** Well-formed tables: a key is reachable from its home slot over slots that
    hold other keys, and at least two slots are empty. *)
Record table_ok {R} (jt : jumptable_t R) : Prop := {
  to_cap : exists c, 4 <= c <= 63 /\ jt_cap jt = 2 ^ c;
  to_mask : jt_mask jt = jt_cap jt - 1;
  to_len : zlen (jt_slots jt) = jt_cap jt;
  to_slots : Forall slot_ok (jt_slots jt);
  to_size : jt_size jt = zlen (filter (fun s => occupied s = true) (jt_slots jt));
  to_room : jt_size jt + 1 < jt_cap jt;
  to_probe : forall i s k, 0 <= i -> slot_n jt i = Some s -> slot_key s = Some k ->
    exists d, 0 <= d < jt_cap jt /\ i = probe jt k d /\ forall e, 0 <= e < d -> holds_other jt k (probe jt k e)
}.

(** The table stores exactly the map [m]. *)
Definition stores {R} (jt : jumptable_t R) (m : gmap key R) : Prop :=
  forall k v, m !! k = Some v <->
    exists i s, 0 <= i /\ slot_n jt i = Some s /\ slot_key s = Some k /\ fs_value s = Some v.

Section Proofs.
Context {R : Type}.
Implicit Types (jt : jumptable_t R) (s : flat_slot_t R) (k : key) (m : gmap key R).

Lemma hash_range k : 0 <= hash_of k < 2 ^ 64.
Proof. apply fnv1a_range. unfold metal_fnv1a_init. lia. Qed.

Lemma key_hash_ok host hl path pl :
  hl <= zlen host -> pl <= zlen path -> key_hash host hl path pl = Ret (hash_of (ztake hl host, ztake pl path)).
Proof.
  intros. unfold key_hash, rdn. replace (hl <=? zlen host) with true by lia. replace (pl <=? zlen path) with true by lia.
  cbn [rbind]. unfold hash_of. cbn [fst snd]. by rewrite !fnv1a_app.
Qed.

Lemma pack_lens_ok hl pl : 0 <= hl <= 0xffff -> 0 <= pl <= 0xffff -> pack_lens hl pl = hl * 2 ^ 16 + pl.
Proof.
  intros. unfold pack_lens. rewrite Z.shiftl_mul_pow2, !u32_small by (rewrite ?u32_small; lia). apply lor_disjoint; lia.
Qed.

Lemma mask_mod jt x : table_ok jt -> Z.land x (jt_mask jt) = x mod jt_cap jt.
Proof.
  intros [[c [Hc Ec]] Hm _ _ _ _ _]. rewrite Hm, Ec.
  replace (2 ^ c - 1) with (Z.ones c) by (rewrite Z.ones_equiv; lia). apply Z.land_ones. lia.
Qed.

Lemma cap_pos jt : table_ok jt -> 16 <= jt_cap jt <= 2 ^ 63.
Proof.
  intros [[c [Hc Ec]] _ _ _ _ _ _]. rewrite Ec. change 16 with (2 ^ 4).
  split; apply Z.pow_le_mono_r; lia.
Qed.

Lemma probe_range jt k d : table_ok jt -> 0 <= probe jt k d < jt_cap jt.
Proof. intros H. pose proof (cap_pos jt H). apply Z.mod_pos_bound. lia. Qed.

Lemma probe_next jt k d : table_ok jt -> Z.land (probe jt k d + 1) (jt_mask jt) = probe jt k (d + 1).
Proof.
  intros H. pose proof (cap_pos jt H). rewrite mask_mod by done. unfold probe.
  rewrite Zplus_mod_idemp_l. f_equal. lia.
Qed.

Lemma probe_onto jt k i : table_ok jt -> 0 <= i < jt_cap jt -> exists d, 0 <= d < jt_cap jt /\ probe jt k d = i.
Proof.
  intros H Hi. pose proof (cap_pos jt H). exists ((i - hash_of k) mod jt_cap jt).
  split; [apply Z.mod_pos_bound; lia|]. unfold probe. rewrite Zplus_mod_idemp_r.
  replace (hash_of k + (i - hash_of k)) with i by lia. apply Z.mod_small. lia.
Qed.

Lemma slot_in_range jt i : table_ok jt -> 0 <= i < jt_cap jt -> exists s, slot_n jt i = Some s /\ slot_at (jt_slots jt) i = Ret s.
Proof.
  intros H Hi. unfold slot_n, slot_at. replace (i <? 0) with false by lia.
  destruct (lookup_lt_is_Some_2 (jt_slots jt) (Z.to_nat i)) as [s Es].
  { pose proof (to_len jt H). unfold zlen in *. lia. }
  exists s. by rewrite Es.
Qed.

Lemma slot_n_ok jt i s : table_ok jt -> slot_n jt i = Some s -> slot_ok s.
Proof. intros H Hs. eapply Forall_lookup_1; [exact (to_slots jt H)|exact Hs]. Qed.

Lemma key_of_occupied s : (exists k, slot_key s = Some k) <-> fs_value s <> None.
Proof. unfold slot_key. destruct (fs_value s); split; try done; [by intros _; eexists|by intros [? [=]]]. Qed.

(** Comparing a slot with a key decides equality of the keys. *)
Lemma slot_matches_ok eq s hl pl host path v :
  (forall a b n, 0 <= n <= zlen a -> n <= zlen b -> eq a b n = Ret (bool_decide (ztake n a = ztake n b))) ->
  slot_ok s -> fs_value s = Some v ->
  0 <= hl <= 0xffff -> 0 <= pl <= 0xffff -> hl <= zlen host -> pl <= zlen path ->
  let k := (ztake hl host, ztake pl path) in
  slot_matches eq s (hash_of k) (pack_lens hl pl) host hl path pl = Ret (bool_decide (slot_key s = Some k)).
Proof.
  intros Heq (Hr & Hh & Hp & Hhash) Hv Hhl Hpl Hhost Hpath k. unfold slot_matches.
  assert (Hkey : slot_key s = Some (ztake (fs_lens s / 2 ^ 16) (fs_host s), ztake (fs_lens s mod 2 ^ 16) (fs_path s)))
    by (unfold slot_key; by rewrite Hv).
  specialize (Hhash _ Hkey).
  assert (Hneq : slot_key s <> Some k -> bool_decide (slot_key s = Some k) = false) by (by apply bool_decide_eq_false_2).
  destruct (Z.eqb_spec (fs_hash s) (hash_of k)) as [E1|E1]; cbn [negb].
  2: { rewrite Hneq; [done|]. rewrite Hkey. intros [= E2 E3]. apply E1. rewrite Hhash. unfold k. by rewrite <- E2, <- E3. }
  rewrite pack_lens_ok by done.
  destruct (Z.eqb_spec (fs_lens s) (hl * 2 ^ 16 + pl)) as [E4|E4]; cbn [negb].
  2: { rewrite Hneq; [done|]. rewrite Hkey. intros [= E2 E3]. apply E4.
       apply (f_equal zlen) in E2. apply (f_equal zlen) in E3. rewrite !zlen_ztake in E2, E3 by dlia. dlia. }
  rewrite E4 in *. rewrite Z.div_add_l, Z.div_small, Z.add_0_r in * by lia.
  replace ((hl * 2 ^ 16 + pl) mod 2 ^ 16) with pl in * by dlia.
  rewrite !Heq, andr_ret, <- bool_decide_and by lia. f_equal. apply bool_decide_ext. rewrite Hkey. unfold k.
  split; [by intros [-> ->]|by intros [= -> ->]].
Qed.

Lemma least_nat (f : nat -> bool) n : f n = true -> exists d, (d <= n)%nat /\ f d = true /\ forall e, (e < d)%nat -> f e = false.
Proof.
  induction n as [n IH] using lt_wf_ind. intros Hn.
  destruct (existsb f (seq 0 n)) eqn:E.
  - apply existsb_exists in E as (e & He & Hf). apply in_seq in He.
    destruct (IH e) as (d & Hd & Hfd & Hmin); [lia|done|]. exists d. split; [lia|done].
  - exists n. split; [lia|]. split; [done|]. intros e He. destruct (f e) eqn:Hf; [|done].
    enough (existsb f (seq 0 n) = true) by congruence. apply existsb_exists. exists e. split; [apply in_seq; lia|done].
Qed.

Lemma filter_occupied (l : list (flat_slot_t R)) :
  Forall (fun s => occupied s = true) l -> filter (fun s => occupied s = true) l = l.
Proof. induction 1; [done|]. rewrite filter_cons_True by done. by f_equal. Qed.

Lemma empty_slot_exists jt : table_ok jt -> exists i s, 0 <= i < jt_cap jt /\ slot_n jt i = Some s /\ fs_value s = None.
Proof.
  intros H. destruct (decide (Exists (fun s => occupied s = false) (jt_slots jt))) as [He|Hn].
  - apply list.Exists_exists in He as (s & Hin & Hs). apply list_elem_of_lookup in Hin as [i Hi].
    exists (Z.of_nat i), s. unfold slot_n. rewrite Nat2Z.id. split_and!; [lia| |done|].
    + apply lookup_lt_Some in Hi. rewrite <- (to_len jt H). unfold zlen. lia.
    + unfold occupied in Hs. by destruct (fs_value s).
  - exfalso. pose proof (to_room jt H) as Hr. rewrite (to_size jt H), <- (to_len jt H) in Hr.
    rewrite filter_occupied in Hr; [lia|]. apply list.Forall_forall. intros s Hs. destruct (occupied s) eqn:E; [done|].
    exfalso. apply Hn. apply list.Exists_exists. by exists s.
Qed.

(** A probe for [k] passes over other keys until an empty slot or [k]. *)
Lemma probe_stops jt k : table_ok jt -> exists d s,
  0 <= d < jt_cap jt /\ slot_n jt (probe jt k d) = Some s /\ (fs_value s = None \/ slot_key s = Some k) /\
  forall e, 0 <= e < d -> holds_other jt k (probe jt k e).
Proof.
  intros H. destruct (empty_slot_exists jt H) as (i & s0 & Hi & Hs0 & Hv0).
  destruct (probe_onto jt k i H Hi) as (d0 & Hd0 & Ed0).
  pose (stop := fun d : nat => match slot_n jt (probe jt k (Z.of_nat d)) with
    | Some s => match slot_key s with Some k' => bool_decide (k' = k) | None => true end | None => true end).
  destruct (least_nat stop (Z.to_nat d0)) as (d & Hd & Hstop & Hmin).
  { unfold stop. rewrite Z2Nat.id, Ed0, Hs0 by lia. unfold slot_key. by rewrite Hv0. }
  destruct (slot_in_range jt _ H (probe_range jt k (Z.of_nat d) H)) as (s & Hs & _).
  exists (Z.of_nat d), s. split; [lia|]. split; [done|]. split.
  - unfold stop in Hstop. rewrite Hs in Hstop. unfold slot_key in *. destruct (fs_value s); [right|by left].
    apply bool_decide_eq_true in Hstop. by rewrite Hstop.
  - intros e He. specialize (Hmin (Z.to_nat e) ltac:(lia)). unfold stop in Hmin. rewrite Z2Nat.id in Hmin by lia.
    destruct (slot_n jt (probe jt k e)) as [s'|] eqn:Es; [|done]. destruct (slot_key s') as [k'|] eqn:Ek; [|done].
    exists s', k'. split_and!; [done|done|]. by apply bool_decide_eq_false in Hmin.
Qed.

(** The map determines what the probe stops at. *)
Lemma stores_stop jt m k d s :
  table_ok jt -> stores jt m -> 0 <= d < jt_cap jt -> slot_n jt (probe jt k d) = Some s ->
  (fs_value s = None \/ slot_key s = Some k) -> (forall e, 0 <= e < d -> holds_other jt k (probe jt k e)) ->
  fs_value s = m !! k.
Proof.
  intros H Hst Hd Hs Hstop Hpre. pose proof (probe_range jt k d H) as Hr.
  destruct (fs_value s) as [v|] eqn:Ev.
  - destruct Hstop as [?|Hk]; [done|]. symmetry. apply Hst. exists (probe jt k d), s. split_and!; [lia|done..].
  - destruct (m !! k) as [v|] eqn:Em; [|done]. exfalso.
    apply Hst in Em as (i & s' & Hi & Hs' & Hk' & Hv').
    destruct (to_probe jt H i s' k Hi Hs' Hk') as (d' & Hd' & -> & Hpre').
    destruct (Z.lt_trichotomy d d') as [Hlt|[->|Hlt]].
    + destruct (Hpre' d ltac:(lia)) as (s2 & k2 & Hs2 & Hk2 & _). rewrite Hs in Hs2. injection Hs2 as ->.
      unfold slot_key in Hk2. by rewrite Ev in Hk2.
    + congruence.
    + destruct (Hpre d' ltac:(lia)) as (s2 & k2 & Hs2 & Hk2 & Hne). congruence.
Qed.

Section Query.
Context (host path : list Z) (hl pl : Z).
Context (Hhl : 0 <= hl <= 0xffff) (Hpl : 0 <= pl <= 0xffff) (Hhost : hl <= zlen host) (Hpath : pl <= zlen path).
Let k : key := (ztake hl host, ztake pl path).

Lemma matches_other eq jt i s :
  (forall a b n, 0 <= n <= zlen a -> n <= zlen b -> eq a b n = Ret (bool_decide (ztake n a = ztake n b))) ->
  table_ok jt -> slot_n jt i = Some s -> holds_other jt k i ->
  fs_value s <> None /\ slot_matches eq s (hash_of k) (pack_lens hl pl) host hl path pl = Ret false.
Proof.
  intros Heq H Hs (s' & k' & Hs' & Hk' & Hne). rewrite Hs in Hs'. injection Hs' as <-.
  pose proof (proj1 (key_of_occupied s) (ex_intro _ _ Hk')) as Hocc. split; [done|].
  destruct (fs_value s) as [v|] eqn:Ev; [|done].
  unfold k. rewrite (slot_matches_ok eq s hl pl host path v) by (done || by eapply slot_n_ok). f_equal.
  apply bool_decide_eq_false_2. fold k. congruence.
Qed.

Lemma lookup_loop_ok ar jt d s e fuel :
  table_ok jt -> 0 <= e <= d -> d < jt_cap jt -> (Z.to_nat (d - e) < fuel)%nat ->
  slot_n jt (probe jt k d) = Some s -> (fs_value s = None \/ slot_key s = Some k) ->
  (forall e, 0 <= e < d -> holds_other jt k (probe jt k e)) ->
  lookup_loop ar jt (hash_of k) (pack_lens hl pl) host hl path pl (probe jt k e) fuel = Ret (fs_value s).
Proof.
  intros H He Hd Hf Hs Hstop Hpre. revert e He Hf. induction fuel as [|fuel IH]; intros e He Hf; [lia|].
  cbn [lookup_loop]. destruct (slot_in_range jt _ H (probe_range jt k e H)) as (s' & Hs' & ->). cbn [rbind].
  destruct (decide (e = d)) as [->|Hne].
  - assert (s' = s) as -> by congruence. destruct (fs_value s) as [v|] eqn:Ev; [|done]. destruct Hstop as [?|Hk]; [done|].
    unfold k. rewrite (slot_matches_ok _ s hl pl host path v) by (done || (intros; by apply eq_n_ok) || by eapply slot_n_ok).
    cbn [rbind]. fold k. by rewrite bool_decide_eq_true_2.
  - destruct (matches_other (metal_eq_n ar) jt _ s' (eq_n_ok ar) H Hs' (Hpre e ltac:(lia))) as [Hocc Hm].
    destruct (fs_value s') as [v'|]; [|done]. rewrite Hm. cbn [rbind]. rewrite probe_next by done. apply IH; lia.
Qed.

Lemma flat_lookup_ok ar jt m : table_ok jt -> stores jt m -> flat_lookup ar jt host hl path pl = Ret (m !! k).
Proof.
  intros H Hst. pose proof (cap_pos jt H). unfold flat_lookup. replace (jt_cap jt =? 0) with false by lia.
  rewrite key_hash_ok by done. cbn [rbind]. fold k. rewrite mask_mod by done.
  destruct (probe_stops jt k H) as (d & s & Hd & Hs & Hstop & Hpre).
  rewrite <- (stores_stop jt m k d s) by done.
  replace (hash_of k mod jt_cap jt) with (probe jt k 0) by (unfold probe; by rewrite Z.add_0_r).
  apply (lookup_loop_ok ar jt d s 0); (done || lia).
Qed.

(** ** Insertion *)

Context (v : R).
Let new_slot : flat_slot_t R := mk_slot (hash_of k) (Some v) host path (pack_lens hl pl).

Lemma new_slot_key : slot_key new_slot = Some k.
Proof.
  unfold slot_key, new_slot. cbn [fs_value fs_lens fs_host fs_path]. rewrite pack_lens_ok by done.
  rewrite Z.div_add_l, Z.div_small, Z.add_0_r by lia.
  by replace ((hl * 2 ^ 16 + pl) mod 2 ^ 16) with pl by dlia.
Qed.

Lemma new_slot_ok : slot_ok new_slot.
Proof.
  unfold slot_ok. rewrite new_slot_key. unfold new_slot. cbn [fs_lens fs_host fs_path fs_hash].
  rewrite pack_lens_ok by done. split_and!; [dlia..|]. by intros ? [= <-].
Qed.

(** The table after [new_slot] has been written to slot [i]. *)
Definition with_slot jt (i : Z) : jumptable_t R :=
  set_table jt (<[Z.to_nat i := new_slot]> (jt_slots jt)) (jt_cap jt) (jt_mask jt) (jt_size jt + 1).

Lemma with_slot_same jt i : table_ok jt -> 0 <= i < jt_cap jt -> slot_n (with_slot jt i) i = Some new_slot.
Proof.
  intros H Hi. unfold slot_n, with_slot. cbn [jt_slots set_table]. apply list_lookup_insert_eq.
  pose proof (to_len jt H). unfold zlen in *. lia.
Qed.

Lemma with_slot_other jt i j : 0 <= i -> 0 <= j -> i <> j -> slot_n (with_slot jt i) j = slot_n jt j.
Proof.
  intros. unfold slot_n, with_slot. cbn [jt_slots set_table]. apply list_lookup_insert_ne. lia.
Qed.

Lemma holds_other_kept jt i s j k' :
  0 <= i -> 0 <= j -> slot_n jt i = Some s -> fs_value s = None -> holds_other jt k' j -> holds_other (with_slot jt i) k' j.
Proof.
  intros Hi Hj Hs Hv (s' & k2 & Hs' & Hk2 & Hne). exists s', k2. split; [|done].
  rewrite with_slot_other; [done..|]. intros ->. rewrite Hs in Hs'. injection Hs' as <-.
  unfold slot_key in Hk2. by rewrite Hv in Hk2.
Qed.

Lemma zlen_insert_slots (l : list (flat_slot_t R)) n x : zlen (<[n := x]> l) = zlen l.
Proof. unfold zlen. by rewrite length_insert. Qed.

Lemma count_insert (l : list (flat_slot_t R)) n s :
  l !! n = Some s -> fs_value s = None ->
  zlen (filter (fun s => occupied s = true) (<[n := new_slot]> l)) = zlen (filter (fun s => occupied s = true) l) + 1.
Proof.
  revert n. induction l as [|a l IH]; intros [|n] Hl Hv; cbn in Hl; try discriminate Hl.
  - injection Hl as ->. cbn [insert list_insert]. rewrite filter_cons_True by done.
    rewrite filter_cons_False by (unfold occupied; by rewrite Hv). apply zlen_cons.
  - change (<[S n:=new_slot]> (a :: l)) with (a :: <[n:=new_slot]> l). rewrite !filter_cons. specialize (IH n Hl Hv).
    destruct (decide (occupied a = true)); rewrite ?zlen_cons; lia.
Qed.

Lemma with_slot_ok jt d s :
  table_ok jt -> jt_size jt + 2 < jt_cap jt -> 0 <= d < jt_cap jt -> slot_n jt (probe jt k d) = Some s -> fs_value s = None ->
  (forall e, 0 <= e < d -> holds_other jt k (probe jt k e)) -> table_ok (with_slot jt (probe jt k d)).
Proof.
  intros H Hroom Hd Hs Hv Hpre. pose proof (probe_range jt k d H) as Hr. pose proof H as [H1 H2 H3 H4 H5 H6 H7].
  split; cbn [with_slot set_table jt_cap jt_mask jt_slots jt_size]; try done.
  - by rewrite zlen_insert_slots.
  - apply Forall_insert; [done|apply new_slot_ok].
  - rewrite (count_insert _ _ s) by done. lia.
  - lia.
  - intros i s' k' Hi Hs' Hk'. change (jt_cap (with_slot jt _)) with (jt_cap jt).
    destruct (decide (i = probe jt k d)) as [->|Hne].
    + rewrite with_slot_same in Hs' by done. injection Hs' as <-. rewrite new_slot_key in Hk'. injection Hk' as <-.
      exists d. split; [done|]. split; [done|]. intros e He. pose proof (probe_range jt k e H).
      refine (holds_other_kept jt (probe jt k d) s (probe jt k e) _ _ _ Hs Hv (Hpre e He)); lia.
    + rewrite with_slot_other in Hs' by lia. destruct (H7 i s' k' Hi Hs' Hk') as (d' & Hd' & Ei & Hpre').
      exists d'. split; [done|]. split; [done|]. intros e He. pose proof (probe_range jt k' e H).
      refine (holds_other_kept jt (probe jt k d) s (probe jt k' e) _ _ _ Hs Hv (Hpre' e He)); lia.
Qed.

Lemma with_slot_stores jt m d s :
  table_ok jt -> stores jt m -> 0 <= d < jt_cap jt -> slot_n jt (probe jt k d) = Some s -> fs_value s = None ->
  m !! k = None -> stores (with_slot jt (probe jt k d)) (<[k := v]> m).
Proof.
  intros H Hst Hd Hs Hv Hnone k' v'. pose proof (probe_range jt k d H) as Hr. rewrite lookup_insert_Some. split.
  - intros [[<- <-]|[Hne Hk']].
    + exists (probe jt k d), new_slot. split; [lia|]. rewrite with_slot_same by done. split; [done|]. by rewrite new_slot_key.
    + apply Hst in Hk' as (i & s' & Hi & Hs' & Hk' & Hv'). exists i, s'. split; [done|]. rewrite with_slot_other; [done|lia..|].
      intros <-. congruence.
  - intros (i & s' & Hi & Hs' & Hk' & Hv'). destruct (decide (probe jt k d = i)) as [<-|Hne].
    + rewrite with_slot_same in Hs' by done. injection Hs' as <-. rewrite new_slot_key in Hk'. injection Hk' as <-.
      left. split; [done|]. by injection Hv'.
    + rewrite with_slot_other in Hs' by lia. right. assert (Hm : m !! k' = Some v') by (apply Hst; by exists i, s').
      split; [congruence|done].
Qed.

Lemma insert_loop_ok jt m d s e fuel :
  table_ok jt -> stores jt m -> jt_size jt + 2 < jt_cap jt -> 0 <= e <= d -> d < jt_cap jt -> (Z.to_nat (d - e) < fuel)%nat ->
  slot_n jt (probe jt k d) = Some s -> (fs_value s = None \/ slot_key s = Some k) ->
  (forall e, 0 <= e < d -> holds_other jt k (probe jt k e)) ->
  insert_loop jt (hash_of k) (pack_lens hl pl) host hl path pl v (probe jt k e) fuel =
  Ret (match fs_value s with None => with_slot jt (probe jt k d) | Some _ => jt end).
Proof.
  intros H Hst Hroom He Hd Hf Hs Hstop Hpre. revert e He Hf. induction fuel as [|fuel IH]; intros e He Hf; [lia|].
  cbn [insert_loop]. destruct (slot_in_range jt _ H (probe_range jt k e H)) as (s' & Hs' & ->). cbn [rbind].
  destruct (decide (e = d)) as [->|Hne].
  - assert (s' = s) as -> by congruence. destruct (fs_value s) as [v0|] eqn:Ev.
    + destruct Hstop as [?|Hk]; [done|]. unfold k.
      rewrite (slot_matches_ok _ s hl pl host path v0) by (done || (intros; apply mem_eq_ok; lia) || by eapply slot_n_ok).
      cbn [rbind]. fold k. by rewrite bool_decide_eq_true_2.
    + by replace (jt_cap jt <=? jt_size jt + 1 + 1) with false by lia.
  - destruct (matches_other mem_eq jt _ s' (fun a b n H1 H2 => mem_eq_ok a b n (proj2 H1) H2) H Hs' (Hpre e ltac:(lia))) as [Hocc Hm].
    destruct (fs_value s') as [v'|]; [|done]. rewrite Hm. cbn [rbind]. rewrite probe_next by done. apply IH; lia.
Qed.

Lemma flat_insert_ok jt m :
  table_ok jt -> stores jt m -> jt_size jt + 2 < jt_cap jt ->
  exists jt', flat_insert jt host hl path pl v = Ret jt' /\ table_ok jt' /\ stores jt' (add_first m (k, v)) /\
    jt_cap jt' = jt_cap jt /\ jt_size jt' <= jt_size jt + 1.
Proof.
  intros H Hst Hroom. unfold flat_insert. replace (0xffff <? hl) with false by lia. replace (0xffff <? pl) with false by lia.
  cbn [orb]. rewrite key_hash_ok by done. cbn [rbind]. fold k. rewrite mask_mod by done.
  destruct (probe_stops jt k H) as (d & s & Hd & Hs & Hstop & Hpre).
  replace (hash_of k mod jt_cap jt) with (probe jt k 0) by (unfold probe; by rewrite Z.add_0_r).
  rewrite (insert_loop_ok jt m d s 0) by (done || lia). eexists. split; [done|].
  pose proof (stores_stop jt m k d s H Hst Hd Hs Hstop Hpre) as Hm. unfold add_first. cbn [fst snd]. rewrite <- Hm.
  destruct (fs_value s) eqn:Ev.
  - split_and!; [done|done|done|lia].
  - split_and!; [by eapply with_slot_ok|by eapply with_slot_stores|done|done].
Qed.
End Query.
End Proofs.

Section Proofs.
Context {R : Type}.
Implicit Types (jt : jumptable_t R).

Lemma init_cap jt n :
  0 <= n < 2 ^ 60 -> (exists c, 4 <= c <= 63 /\ jt_cap (flat_init jt n) = 2 ^ c) /\ n + 2 < jt_cap (flat_init jt n).
Proof.
  intros Hn. unfold flat_init. cbn [set_table jt_cap]. rewrite u64_small, next_pow2_ok by lia.
  set (c := Z.log2_up (n * 2 + 1)). assert (Hc : 0 <= c <= 63).
  { split; [apply Z.log2_up_nonneg|]. apply (Z.log2_up_le_pow2 (n * 2 + 1) 63); lia. }
  assert (Hb : n * 2 + 1 <= 2 ^ c) by (unfold c; destruct (Z.eq_dec n 0) as [->|]; [done|apply Z.log2_up_spec; lia]).
  destruct (Z.ltb_spec (2 ^ c) 16).
  - split; [by exists 4|]. lia.
  - split; [|lia]. exists c. split; [|done]. split; [|lia]. change 16 with (2 ^ 4) in *.
    apply (Z.pow_le_mono_r_iff 2); lia.
Qed.

Lemma flat_init_ok jt n : 0 <= n < 2 ^ 60 -> table_ok (flat_init jt n) /\ stores (flat_init jt n) ∅.
Proof.
  intros Hn. destruct (init_cap jt n Hn) as [(c & Hc & Ec) Hroom]. set (jt0 := flat_init jt n) in *.
  assert (Hsl : jt_slots jt0 = replicate (Z.to_nat (jt_cap jt0)) empty_slot) by done.
  assert (Hemp : forall i s, slot_n jt0 i = Some s -> slot_key s = None).
  { intros i s. unfold slot_n. rewrite Hsl. intros [-> _]%lookup_replicate. done. }
  split.
  - split; [by exists c|done| | | | |].
    + rewrite Hsl. unfold zlen. rewrite length_replicate. lia.
    + rewrite Hsl. apply Forall_replicate. unfold slot_ok. cbn. split_and!; done.
    + rewrite Hsl. change (jt_size jt0) with 0. generalize (Z.to_nat (jt_cap jt0)). intros k.
      induction k; [done|]. cbn [replicate]. by rewrite filter_cons_False.
    + change (jt_size jt0) with 0. lia.
    + intros i s k _ Hs Hk. by rewrite (Hemp i s Hs) in Hk.
  - intros k v. rewrite lookup_empty. split; [done|]. intros (i & s & _ & Hs & Hk & _). by rewrite (Hemp i s Hs) in Hk.
Qed.

Lemma insert_all_ok (ops : list (list Z * list Z * R)) jt m :
  Forall (fun op => key_ok op.1) ops -> table_ok jt -> stores jt m -> jt_size jt + zlen ops + 1 < jt_cap jt ->
  exists jt', insert_all jt ops = Ret jt' /\ table_ok jt' /\ stores jt' (foldl add_first m ops).
Proof.
  intros Hops. revert jt m. induction Hops as [|[[host path] v] ops [Hh Hp] Hops IH]; intros jt m H Hst Hroom.
  { by exists jt. }
  rewrite zlen_cons in Hroom. pose proof (zlen_nonneg ops). cbn [fst snd] in Hh, Hp.
  destruct (flat_insert_ok host path (zlen host) (zlen path)
    (conj (zlen_nonneg host) Hh) (conj (zlen_nonneg path) Hp) ltac:(lia) ltac:(lia) v jt m H Hst)
    as (jt' & E & H' & Hst' & Ecap & Esz); [lia|].
  rewrite !ztake_all in Hst' by lia. cbn [insert_all]. rewrite E. cbn [rbind foldl]. apply IH; [done|done|lia].
Qed.

(** C31: the hash table implements the routing map.  Inserting any list of
    (host, path, resource) entries, up to the number the table was sized for,
    never finds the table full; afterwards every lookup terminates, stays in
    bounds and returns what the abstract map says, in which the first insertion
    of a key wins: every route that was inserted is found under exactly its host
    and path, hash collisions and probe wrap-around included, and nothing else
    is. *)
Theorem flat_table_refines ar jt expected (ops : list (list Z * list Z * R)) :
  0 <= expected < 2 ^ 60 -> zlen ops <= expected -> Forall (fun op => key_ok op.1) ops ->
  exists jt', insert_all (flat_init jt expected) ops = Ret jt' /\
    forall host hl path pl, 0 <= hl <= 0xffff -> 0 <= pl <= 0xffff -> hl <= zlen host -> pl <= zlen path ->
      flat_lookup ar jt' host hl path pl = Ret (foldl add_first ∅ ops !! (ztake hl host, ztake pl path)).
Proof.
  intros He Hn Hops. destruct (flat_init_ok jt expected He) as [H Hst]. destruct (init_cap jt expected He) as [_ Hroom].
  destruct (insert_all_ok ops (flat_init jt expected) ∅ Hops H Hst) as (jt' & E & H' & Hst').
  { change (jt_size (flat_init jt expected)) with 0. lia. }
  exists jt'. split; [done|]. intros host hl path pl H1 H2 H3 H4.
  exact (flat_lookup_ok host path hl pl H1 H2 H3 H4 ar jt' _ H' Hst').
Qed.
End Proofs.

(** Status codes stand for the canned responses. *)
Definition demo_jt : jumptable_t Z := mk_jt [] 0 0 0 400 404 405 409 413 414 505 [([97], 1)].

(** "/" and "/x" of the host "a", and "/" a second time. *)
Definition demo_ops : list (list Z * list Z * Z) := [([97], [47], 1); ([97], [47; 120], 2); ([97], [47], 3)].

Lemma flat_table_refines_witness : exists jt,
  insert_all (flat_init demo_jt 3) demo_ops = Ret jt /\
  flat_lookup SSE2 jt [97; 0] 1 [47; 120; 63] 2 = Ret (Some 2) /\ flat_lookup SSE2 jt [97; 0] 1 [47; 120; 63] 1 = Ret (Some 1) /\
  flat_lookup SSE2 jt [98] 1 [47] 1 = Ret None.
Proof.
  destruct (flat_table_refines SSE2 demo_jt 3 demo_ops) as (jt & E & H).
  - lia.
  - done.
  - repeat constructor; vm_compute; discriminate.
  - exists jt. split; [done|]. split; [|split].
    + apply (H [97; 0] 1 [47; 120; 63] 2); vm_compute; intuition discriminate.
    + apply (H [97; 0] 1 [47; 120; 63] 1); vm_compute; intuition discriminate.
    + apply (H [98] 1 [47] 1); vm_compute; intuition discriminate.
Defined.
