(* ===== verification/Compress.v ===== *)
(** * picoweb-compress

    The block compressor of [src/compress.c] and its decoder
    ([metal_compress_accepted] is in [Http]).  The encoder searches
    a match for every position; a block that does not get smaller is stored.
    [Fail] is the return value -1.  The theorems show that decompression inverts
    compression within the documented bound, and that the decoder stays within its
    buffers on every input. *)

From Stdlib Require Import ZArith Lia String.
From stdpp Require Import list numbers option.
From S2P Require Import Prelude Util Words.

Definition METAL_COMP_BLOCK_SIZE : Z := 508.
Definition METAL_COMP_DICT_SIZE : Z := 2048.
Definition METAL_COMP_MIN_MATCH : Z := 3.
Definition METAL_COMP_MAX_MATCH : Z := 18.

(** ** Encoder *)

(** [while (mlen < max && in[j + mlen] == in[i + mlen]) mlen++], from [mlen] with
    [n] steps left to [max]. *)
Fixpoint match_loop (inp : list Z) (j i : Z) (n : nat) (mlen : Z) : res Z :=
  match n with
  | O => Ret mlen
  | S n =>
      let! a := rd inp (j + mlen) in
      let! b := rd inp (i + mlen) in
      if a =? b then match_loop inp j i n (mlen + 1) else Ret mlen
  end.

(** [for (j = ...; j < i; j++)]: the best length and offset. *)
Fixpoint scan_loop (inp : list Z) (in_len i : Z) (n : nat) (j : Z) (best_len best_off : Z) : res (Z * Z) :=
  match n with
  | O => Ret (best_len, best_off)
  | S n =>
      let max := METAL_COMP_MAX_MATCH in
      let rem := in_len - i in
      let max := if rem <? max then rem else max in
      let! mlen := match_loop inp j i (Z.to_nat max) 0 in
      if (METAL_COMP_MIN_MATCH <=? mlen) && (best_len <? mlen) then
        if mlen =? METAL_COMP_MAX_MATCH then Ret (mlen, i - j) else scan_loop inp in_len i n (j + 1) mlen (i - j)
      else scan_loop inp in_len i n (j + 1) best_len best_off
  end.

(** [FLUSH_LITERALS]: [lit] bytes from [src]; every round writes at least one. *)
Fixpoint flush_literals (inp : list Z) (fuel : nat) (lit src : Z) (out : list Z) (out_cap op : Z) : res (list Z * Z) :=
  if lit <=? 0 then Ret (out, op)
  else
    match fuel with
    | O => Oob
    | S fuel =>
        let run := if 127 <? lit then 127 else lit in
        if out_cap <? op + 1 + run then Fail
        else
          let! out := wr out op (u8 run) in
          let op := op + 1 in
          let! d := rdn (padd inp src) run in
          let! out := blit out op d in
          flush_literals inp fuel (lit - run) (src + run) out out_cap (op + run)
    end.

(** The main loop, from position [i] with the literals from [lit_start] pending. *)
Fixpoint compress_loop (inp : list Z) (in_len : Z) (fuel : nat) (i lit_start : Z) (out : list Z) (out_cap op : Z) : res (Z * list Z) :=
  if i <? in_len then
    match fuel with
    | O => Oob
    | S fuel =>
        let window_start := if METAL_COMP_DICT_SIZE <? i then i - METAL_COMP_DICT_SIZE else 0 in
        let! (best_len, best_off) := scan_loop inp in_len i (Z.to_nat (i - window_start)) window_start 0 0 in
        if METAL_COMP_MIN_MATCH <=? best_len then
          let! (out, op) := flush_literals inp (Z.to_nat (i - lit_start)) (i - lit_start) lit_start out out_cap op in
          if out_cap <? op + 2 then Fail
          else
            let len_code := u8 (best_len - METAL_COMP_MIN_MATCH) in
            let! out := wr out op (u8 (Z.lor (Z.lor 0x80 (Z.shiftl len_code 3)) (Z.land (Z.shiftr best_off 8) 0x07))) in
            let! out := wr out (op + 1) (u8 (Z.land best_off 0xFF)) in
            compress_loop inp in_len fuel (i + best_len) (i + best_len) out out_cap (op + 2)
        else compress_loop inp in_len fuel (i + 1) lit_start out out_cap op
    end
  else
    let! (out, op) := flush_literals inp (Z.to_nat (i - lit_start)) (i - lit_start) lit_start out out_cap op in
    Ret (op, out).

Definition compress_block (inp : list Z) (in_len : Z) (out : list Z) (out_cap : Z) : res (Z * list Z) :=
  if in_len =? 0 then Ret (0, out) else compress_loop inp in_len (Z.to_nat in_len) 0 0 out out_cap 0.

(** One block per round; [scratch] is an uninitialised local buffer. *)
Fixpoint compress_blocks (scratch : list Z) (input : list Z) (input_len : Z) (fuel : nat) (ip : Z) (output : list Z) (output_cap op : Z) : res (Z * list Z) :=
  if ip <? input_len then
    match fuel with
    | O => Oob
    | S fuel =>
        let blk := input_len - ip in
        let blk := if METAL_COMP_BLOCK_SIZE <? blk then METAL_COMP_BLOCK_SIZE else blk in
        if output_cap <? op + 4 then Fail
        else
          let! (rc, comp_len, buf) :=
            match compress_block (padd input ip) blk scratch (METAL_COMP_BLOCK_SIZE + 64) with Ret (n, buf) => Ret (0, n, buf) | Fail => Ret (-1, 0, []) | Oob => Oob end in
          let stored := negb (rc =? 0) || (blk <=? comp_len) in
          let payload := if stored then blk else comp_len in
          if output_cap <? op + 4 + payload then Fail
          else
            let raw_le := u16 blk in
            let cmp_le := if stored then u16 blk else u16 comp_len in
            let! output := wr output op (u8 (Z.land raw_le 0xFF)) in
            let! output := wr output (op + 1) (u8 (Z.land (Z.shiftr raw_le 8) 0xFF)) in
            let! output := wr output (op + 2) (u8 (Z.land cmp_le 0xFF)) in
            let! output := wr output (op + 3) (u8 (Z.land (Z.shiftr cmp_le 8) 0xFF)) in
            let! d := if stored then rdn (padd input ip) blk else rdn buf comp_len in
            let! output := blit output (op + 4) d in
            compress_blocks scratch input input_len fuel (ip + blk) output output_cap (op + 4 + payload)
    end
  else Ret (i32 op, output).

(** The [int] it returns, and the output buffer. *)
Definition metal_compress (scratch input : list Z) (input_len : Z) (output : list Z) (output_cap : Z) : res (Z * list Z) :=
  compress_blocks scratch input input_len (Z.to_nat input_len) 0 output output_cap 0.

Definition metal_compress_bound (input_len : Z) : Z :=
  let blocks := u64 (input_len + METAL_COMP_BLOCK_SIZE - 1) / METAL_COMP_BLOCK_SIZE in
  let blocks := if blocks =? 0 then 1 else blocks in
  u64 (input_len + blocks * 4 + 64).

(** ** Decoder *)

(** [out[op + k] = out[op - off + k]], [n] times from [k]. *)
Fixpoint copy_loop (out : list Z) (op off : Z) (n : nat) (k : Z) : res (list Z) :=
  match n with
  | O => Ret out
  | S n =>
      let! b := rd out (op - off + k) in
      let! out := wr out (op + k) b in
      copy_loop out op off n (k + 1)
  end.

Fixpoint decompress_loop (inp : list Z) (in_len : Z) (fuel : nat) (ip : Z) (out : list Z) (out_cap op : Z) : res (Z * list Z) :=
  if ip <? in_len then
    match fuel with
    | O => Oob
    | S fuel =>
        let! tag := rd inp ip in
        let ip := ip + 1 in
        if negb (Z.land tag 0x80 =? 0) then
          if in_len <=? ip then Fail
          else
            let mlen := Z.land (Z.shiftr tag 3) 0x0F + METAL_COMP_MIN_MATCH in
            let! b := rd inp ip in
            let off := Z.lor (Z.shiftl (Z.land tag 0x07) 8) b in
            let ip := ip + 1 in
            if (off =? 0) || (op <? off) then Fail
            else if out_cap <? op + mlen then Fail
            else
              let! out := copy_loop out op off (Z.to_nat mlen) 0 in
              decompress_loop inp in_len fuel ip out out_cap (op + mlen)
        else
          let run := tag in
          if run =? 0 then Ret (op, out)
          else if (in_len <? ip + run) || (out_cap <? op + run) then Fail
          else
            let! d := rdn (padd inp ip) run in
            let! out := blit out op d in
            decompress_loop inp in_len fuel (ip + run) out out_cap (op + run)
    end
  else Ret (op, out).

Definition decompress_block (inp : list Z) (in_len : Z) (out : list Z) (out_cap : Z) : res (Z * list Z) :=
  decompress_loop inp in_len (Z.to_nat in_len) 0 out out_cap 0.

Fixpoint decompress_blocks (input : list Z) (input_len : Z) (fuel : nat) (ip : Z) (output : list Z) (output_cap op : Z) : res (Z * list Z) :=
  if ip + 4 <=? input_len then
    match fuel with
    | O => Oob
    | S fuel =>
        let! b0 := rd input ip in let! b1 := rd input (ip + 1) in
        let raw := u16 (Z.lor b0 (Z.shiftl b1 8)) in
        let! b2 := rd input (ip + 2) in let! b3 := rd input (ip + 3) in
        let cmp := u16 (Z.lor b2 (Z.shiftl b3 8)) in
        let ip := ip + 4 in
        if cmp =? 0 then Fail
        else if input_len <? ip + cmp then Fail
        else if output_cap <? op + raw then Fail
        else if raw =? cmp then
          let! d := rdn (padd input ip) raw in
          let! output := blit output op d in
          decompress_blocks input input_len fuel (ip + cmp) output output_cap (op + raw)
        else
          let! (got, tail) := decompress_block (padd input ip) cmp (padd output op) (output_cap - op) in
          let output := ztake op output ++ tail in
          if negb (got =? raw) then Fail
          else decompress_blocks input input_len fuel (ip + cmp) output output_cap (op + got)
    end
  else Ret (i32 op, output).

Definition metal_decompress (input : list Z) (input_len : Z) (output : list Z) (output_cap : Z) : res (Z * list Z) :=
  decompress_blocks input input_len (Z.to_nat input_len) 0 output output_cap 0.

(** ** The format

    A coded block is a sequence of tokens: literal runs, and matches that repeat
    bytes of the output. *)

Inductive token := TLit (d : list Z) | TMatch (len off : Z).

Definition token_bytes (t : token) : list Z :=
  match t with TLit d => zlen d :: d | TMatch len off => [128 + (len - 3) * 8 + off / 256; off mod 256] end.
Definition encode (ts : list token) : list Z := mjoin (map token_bytes ts).

(** [n] bytes, each the one [off] before it. *)
Fixpoint repeat_back (n : nat) (off : Z) (acc : list Z) : list Z :=
  match n with O => acc | S n => repeat_back n off (acc ++ [nth (Z.to_nat (zlen acc - off)) acc 0]) end.

Definition expand_token (acc : list Z) (t : token) : list Z :=
  match t with TLit d => acc ++ d | TMatch len off => repeat_back (Z.to_nat len) off acc end.
Definition expands (ts : list token) (acc : list Z) : list Z := fold_left expand_token ts acc.

Definition token_ok (acc : list Z) (t : token) : Prop :=
  match t with TLit d => 1 <= zlen d <= 127 /\ Forall byte_ok d | TMatch len off => 3 <= len <= 18 /\ 1 <= off < 2048 /\ off <= zlen acc end.
Fixpoint tokens_ok (acc : list Z) (ts : list token) : Prop :=
  match ts with [] => True | t :: ts => token_ok acc t /\ tokens_ok (expand_token acc t) ts end.

(** ** Tokens *)

Lemma encode_app a b : encode (a ++ b) = encode a ++ encode b.
Proof. unfold encode. by rewrite map_app, join_app. Qed.

Lemma encode_cons t ts : encode (t :: ts) = token_bytes t ++ encode ts.
Proof. reflexivity. Qed.

Lemma expands_app a b acc : expands (a ++ b) acc = expands b (expands a acc).
Proof. apply fold_left_app. Qed.

Lemma tokens_ok_app a : forall b acc, tokens_ok acc a -> tokens_ok (expands a acc) b -> tokens_ok acc (a ++ b).
Proof. induction a as [|t a IH]; intros b acc Ha Hb; [exact Hb|]. destruct Ha as [Ht Ha]. split; [exact Ht|]. by apply IH. Qed.

Lemma zlen_repeat_back n off : forall acc, zlen (repeat_back n off acc) = zlen acc + Z.of_nat n.
Proof. induction n as [|n IH]; intros acc; cbn [repeat_back]; [lia|]. rewrite IH, zlen_app. change (zlen [_]) with 1. lia. Qed.

Lemma zlen_expand acc t : token_ok acc t -> zlen acc < zlen (expand_token acc t).
Proof. destruct t as [d|len off]; cbn [token_ok expand_token]; [rewrite zlen_app|rewrite zlen_repeat_back]; lia. Qed.

Lemma zlen_expands ts : forall acc, tokens_ok acc ts -> zlen acc <= zlen (expands ts acc).
Proof.
  induction ts as [|t ts IH]; intros acc H; [cbn; lia|]. destruct H as [Ht H]. pose proof (zlen_expand acc t Ht). specialize (IH _ H).
  change (expands (t :: ts) acc) with (expands ts (expand_token acc t)). lia.
Qed.

(** A stretch that equals an earlier one is repeated from it. *)
Lemma repeat_back_ok inp off n : forall i,
  1 <= off <= i -> i + Z.of_nat n <= zlen inp -> (forall k, 0 <= k < Z.of_nat n -> nth (Z.to_nat (i - off + k)) inp 0 = nth (Z.to_nat (i + k)) inp 0) ->
  repeat_back n off (ztake i inp) = ztake (i + Z.of_nat n) inp.
Proof.
  induction n as [|n IH]; intros i Hoff Hn Heq; cbn [repeat_back]; [by rewrite Z.add_0_r|].
  assert (E : ztake i inp ++ [nth (Z.to_nat (zlen (ztake i inp) - off)) (ztake i inp) 0] = ztake (i + 1) inp).
  { rewrite zlen_ztake by lia. rewrite Z.min_l by lia. rewrite ztake_split by lia. f_equal. rewrite padd_nth by lia. unfold ztake at 2. cbn [Z.to_nat Pos.to_nat Pos.iter_op take Nat.add].
    f_equal. specialize (Heq 0 ltac:(lia)). rewrite !Z.add_0_r in Heq. rewrite <- Heq. unfold ztake. rewrite !nth_lookup, lookup_take_lt by lia. reflexivity. }
  rewrite E. rewrite (IH (i + 1)); [f_equal; lia|lia|lia|]. intros k Hk. specialize (Heq (k + 1) ltac:(lia)). replace (i + 1 - off + k) with (i - off + (k + 1)) by lia. rewrite Heq. f_equal. lia.
Qed.

(** ** The encoder *)

Lemma match_loop_ok inp j i n : forall mlen, 0 <= j < i -> 0 <= mlen -> i + mlen + Z.of_nat n <= zlen inp ->
  exists m, match_loop inp j i n mlen = Ret m /\ mlen <= m <= mlen + Z.of_nat n /\
    forall k, mlen <= k < m -> nth (Z.to_nat (j + k)) inp 0 = nth (Z.to_nat (i + k)) inp 0.
Proof.
  induction n as [|n IH]; intros mlen Hj Hm Hn; cbn [match_loop]; [exists mlen; split_and!; try done; lia|].
  rewrite !rd_nth by lia. ret. destruct (Z.eqb_spec (nth (Z.to_nat (j + mlen)) inp 0) (nth (Z.to_nat (i + mlen)) inp 0)) as [E|E]; [|exists mlen; split_and!; try done; lia].
  destruct (IH (mlen + 1) Hj ltac:(lia) ltac:(lia)) as (m & -> & Hb & Heq). exists m. split; [done|]. split; [lia|]. intros k Hk. destruct (decide (k = mlen)) as [->|]; [exact E|]. apply Heq. lia.
Qed.

(** A candidate: none, or a match of the format that lies in the block. *)
Definition candidate (inp : list Z) (in_len i : Z) (bl bo : Z) : Prop :=
  bl = 0 \/ (3 <= bl <= 18 /\ i + bl <= in_len /\ 1 <= bo <= i /\ forall k, 0 <= k < bl -> nth (Z.to_nat (i - bo + k)) inp 0 = nth (Z.to_nat (i + k)) inp 0).

Lemma scan_loop_ok inp in_len i n : forall j bl bo, 0 <= j -> j + Z.of_nat n <= i -> i < in_len <= zlen inp -> candidate inp in_len i bl bo ->
  exists bl' bo', scan_loop inp in_len i n j bl bo = Ret (bl', bo') /\ candidate inp in_len i bl' bo'.
Proof.
  induction n as [|n IH]; intros j bl bo Hj Hn Hi Hc; cbn [scan_loop]; [by exists bl, bo|]. unfold METAL_COMP_MAX_MATCH, METAL_COMP_MIN_MATCH. cbv zeta.
  set (max := if in_len - i <? 18 then in_len - i else 18). assert (Hmax : 0 <= max <= 18 /\ i + max <= in_len) by (unfold max; zcase; lia).
  destruct (match_loop_ok inp j i (Z.to_nat max) 0 ltac:(lia) ltac:(lia) ltac:(lia)) as (m & -> & Hm & Heq). ret.
  destruct ((3 <=? m) && (bl <? m)) eqn:Em; [|apply IH; (done || lia)].
  assert (Hcm : candidate inp in_len i m (i - j)).
  { right. split_and!; try lia. intros k Hk. replace (i - (i - j) + k) with (j + k) by lia. apply Heq. lia. }
  destruct (m =? 18); [by exists m, (i - j)|]. apply IH; (done || lia).
Qed.

(** The buffer after the bytes [w]. *)
Definition filled_to (out w : list Z) : list Z := w ++ padd out (zlen w).

Lemma flush_ok inp out cap fuel : forall lit src w acc, Forall byte_ok inp -> cap <= zlen out -> 0 <= src -> 0 <= lit -> src + lit <= zlen inp -> lit <= Z.of_nat fuel ->
  wp (flush_literals inp fuel lit src (filled_to out w) cap (zlen w)) (fun '(b, op) => exists ts, b = filled_to out (w ++ encode ts) /\ op = zlen (w ++ encode ts) /\
    op <= Z.max cap (zlen w) /\ expands ts acc = acc ++ sub inp src lit /\ tokens_ok acc ts).
Proof.
  induction fuel as [|fuel IH]; intros lit src w acc Hb Hc Hs Hl Hin Hf; cbn [flush_literals]; destruct (Z.leb_spec lit 0) as [H0|H0]; try lia.
  1, 2: assert (lit = 0) as -> by lia; cbn [wp]; exists []; unfold encode; cbn [map mjoin list_join expands fold_left tokens_ok]; change (sub inp src 0) with (@nil Z); rewrite !app_nil_r; split_and!; (done || lia).
  set (run := if 127 <? lit then 127 else lit). assert (Hrun : 1 <= run <= 127 /\ run <= lit) by (unfold run; zcase; lia). cbv zeta. destruct (Z.ltb_spec cap (zlen w + 1 + run)); [exact I|].
  unfold filled_to at 1. rewrite wr_next by lia. ret. rewrite rdn_ok by (rewrite zlen_padd; lia). ret. assert (Ld : zlen (ztake run (padd inp src)) = run) by (rewrite zlen_ztake, zlen_padd by lia; lia).
  rewrite blit_next by (rewrite ?zlen_app; change (zlen [u8 run]) with 1; lia). ret. set (d := ztake run (padd inp src)) in *.
  replace (u8 run) with run by (unfold u8; rewrite Z.mod_small; lia). set (w1 := (w ++ [run]) ++ d). assert (Ew : w1 = w ++ token_bytes (TLit d)) by (unfold w1; cbn [token_bytes]; rewrite Ld, <- app_assoc; reflexivity).
  replace (zlen w + 1 + run) with (zlen w1) by (unfold w1; rewrite !zlen_app, Ld; change (zlen [run]) with 1; lia).
  assert (Lw : zlen w1 = zlen w + 1 + run) by (unfold w1; rewrite !zlen_app, Ld; change (zlen [run]) with 1; lia).
  eapply wp_mono; [apply (IH (lit - run) (src + run) w1 (acc ++ d)); (done || lia)|]. intros [b op] (ts & -> & -> & Hop & He & Ht). exists (TLit d :: ts). rewrite encode_cons, !app_assoc, <- Ew.
  split; [done|]. split; [done|]. split; [lia|]. change (expands (TLit d :: ts) acc) with (expands ts (acc ++ d)). split.
  - rewrite He, <- app_assoc. f_equal. unfold d. change (ztake run (padd inp src)) with (sub inp src run). rewrite <- sub_split by lia. f_equal. lia.
  - split; [split; [lia|]; unfold d; by apply Forall_take, Forall_drop|exact Ht].
Qed.

(** A match token in two bytes. *)
Lemma match_bytes bl bo : 3 <= bl <= 18 -> 1 <= bo < 2048 ->
  [u8 (Z.lor (Z.lor 0x80 (Z.shiftl (u8 (bl - 3)) 3)) (Z.land (Z.shiftr bo 8) 0x07)); u8 (Z.land bo 0xFF)] = token_bytes (TMatch bl bo).
Proof.
  intros Hl Ho. cbn [token_bytes]. unfold u8. rewrite (Z.mod_small (bl - 3)) by lia. rewrite Z.shiftl_mul_pow2, Z.shiftr_div_pow2 by lia.
  change 0x07 with (Z.ones 3). change 0xFF with (Z.ones 8). rewrite !Z.land_ones by lia. change (2 ^ 8) with 256. change (2 ^ 3) with 8.
  assert (Hq : 0 <= bo / 256 < 8) by (split; [apply Z.div_pos; lia|apply Z.div_lt_upper_bound; lia]). rewrite (Z.mod_small (bo / 256)) by lia. rewrite Z.mod_mod by lia.
  change 0x80 with (1 * 2 ^ 7). rewrite (lor_disjoint 7) by lia. replace (1 * 2 ^ 7 + (bl - 3) * 8) with ((16 + (bl - 3)) * 2 ^ 3) by lia. rewrite (lor_disjoint 3) by lia. rewrite Z.mod_small by lia. done.
Qed.

Section Encoder.
Context (inp out : list Z) (in_len cap : Z).
Context (Hb : Forall byte_ok inp) (Hlen : 0 <= in_len <= 508) (Hin : in_len <= zlen inp) (Hcap : cap <= zlen out).

(** The tokens [ts] are written and stand for the input up to [pos]. *)
Definition coded (ts : list token) (pos : Z) : Prop := tokens_ok [] ts /\ expands ts [] = ztake pos inp /\ zlen (encode ts) <= Z.max cap 0.

(** Flushing continues the tokens to [i]. *)
Lemma flush_coded ts pos i : coded ts pos -> 0 <= pos <= i -> i <= in_len ->
  wp (flush_literals inp (Z.to_nat (i - pos)) (i - pos) pos (filled_to out (encode ts)) cap (zlen (encode ts)))
    (fun '(b, op) => exists ts', b = filled_to out (encode ts') /\ op = zlen (encode ts') /\ coded ts' i).
Proof.
  intros (Hok & He & Hl) Hpos Hi. eapply wp_mono; [apply (flush_ok inp out cap _ (i - pos) pos (encode ts) (expands ts [])); (done || lia)|].
  intros [b op] (ts' & -> & -> & Hop & He' & Hok'). exists (ts ++ ts'). rewrite encode_app. split; [done|]. split; [done|]. split; [by apply tokens_ok_app|].
  rewrite expands_app, encode_app, He', He. split; [|lia]. unfold sub. rewrite <- ztake_split by lia. f_equal. lia.
Qed.

Lemma compress_loop_ok fuel : forall i pos ts, coded ts pos -> 0 <= pos <= i -> i <= in_len -> in_len - i <= Z.of_nat fuel ->
  wp (compress_loop inp in_len fuel i pos (filled_to out (encode ts)) cap (zlen (encode ts)))
    (fun '(n, b) => exists ts', b = filled_to out (encode ts') /\ n = zlen (encode ts') /\ coded ts' in_len).
Proof.
  assert (Hend : forall pos ts, coded ts pos -> 0 <= pos <= in_len -> wp
    (let! (b, op) := flush_literals inp (Z.to_nat (in_len - pos)) (in_len - pos) pos (filled_to out (encode ts)) cap (zlen (encode ts)) in Ret (op, b))
    (fun '(n, b) => exists ts', b = filled_to out (encode ts') /\ n = zlen (encode ts') /\ coded ts' in_len)).
  { intros pos ts Hc Hp. apply wp_bind. eapply wp_mono; [apply flush_coded; (done || lia)|]. intros [b op] (ts' & -> & -> & H). by exists ts'. }
  induction fuel as [|fuel IH]; intros i pos ts Hc Hp Hi Hf; cbn [compress_loop]; destruct (Z.ltb_spec i in_len) as [Hlt|Hge]; try lia.
  1, 3: assert (i = in_len) as -> by lia; by apply Hend.
  unfold METAL_COMP_DICT_SIZE, METAL_COMP_MIN_MATCH. replace (2048 <? i) with false by lia. rewrite Z.sub_0_r. cbv zeta.
  destruct (scan_loop_ok inp in_len i (Z.to_nat i) 0 0 0 ltac:(lia) ltac:(lia) ltac:(lia) (or_introl eq_refl)) as (bl & bo & -> & Hcand). ret.
  destruct (Z.leb_spec 3 bl) as [Hm|Hm]; [|apply IH; (done || lia)]. destruct Hcand as [->|(Hbl & Hend' & Hbo & Heq)]; [lia|].
  apply wp_bind. eapply wp_mono; [apply flush_coded; (done || lia)|]. intros [b op] (ts1 & -> & -> & (Hok1 & He1 & Hl1)). destruct (Z.ltb_spec cap (zlen (encode ts1) + 2)); [exact I|].
  pose proof (match_bytes bl bo Hbl ltac:(lia)) as Emb. set (b1 := u8 (Z.lor _ _)) in *. set (b2 := u8 (Z.land bo 0xFF)) in *.
  unfold filled_to at 1. rewrite wr_next by lia. ret. rewrite wr_next by (rewrite zlen_app; change (zlen [b1]) with 1; lia). ret.
  assert (Ew : (encode ts1 ++ [b1]) ++ [b2] = encode (ts1 ++ [TMatch bl bo])) by (rewrite encode_app, encode_cons, <- Emb; unfold encode at 3; cbn [map mjoin list_join]; by rewrite app_nil_r, <- app_assoc).
  rewrite Ew. assert (Lw : zlen (encode (ts1 ++ [TMatch bl bo])) = zlen (encode ts1) + 2) by (rewrite <- Ew, !zlen_app; change (zlen [b1]) with 1; change (zlen [b2]) with 1; lia).
  rewrite <- Lw. apply IH; [|lia|lia|lia]. assert (Lz : zlen (ztake i inp) = i) by (rewrite zlen_ztake; lia). split; [|split; [|lia]].
  - apply tokens_ok_app; [done|]. rewrite He1. split; [|exact I]. split; [lia|]. split; [lia|]. rewrite Lz. lia.
  - rewrite expands_app, He1. change (expands [TMatch bl bo] (ztake i inp)) with (repeat_back (Z.to_nat bl) bo (ztake i inp)). rewrite repeat_back_ok by (lia || (intros k Hk; apply Heq; lia)). f_equal. lia.
Qed.
End Encoder.

Lemma compress_block_ok inp out in_len cap : Forall byte_ok inp -> 0 <= in_len <= 508 -> in_len <= zlen inp -> 0 <= cap <= zlen out ->
  wp (compress_block inp in_len out cap) (fun '(n, b) => exists ts, b = filled_to out (encode ts) /\ n = zlen (encode ts) /\ tokens_ok [] ts /\ expands ts [] = ztake in_len inp).
Proof.
  intros Hb Hlen Hin Hcap. unfold compress_block. assert (H0 : coded inp cap [] 0) by (split; [exact I|]; split; [reflexivity|change (zlen (encode [])) with 0; lia]).
  assert (E0 : filled_to out (encode []) = out) by (unfold filled_to, encode; cbn [map mjoin list_join]; apply padd_0).
  destruct (Z.eqb_spec in_len 0) as [->|Hne]; [cbn [wp]; exists []; split; [by rewrite E0|]; done|].
  pose proof (compress_loop_ok inp out in_len cap Hb Hlen Hin ltac:(lia) (Z.to_nat in_len) 0 0 [] H0 ltac:(lia) ltac:(lia) ltac:(lia)) as H. rewrite E0 in H.
  eapply wp_mono; [exact H|]. intros [n b] (ts & -> & -> & (Hok & He & _)). by exists ts.
Qed.

(** ** The decoder inverts the tokens *)

Lemma copy_loop_ok out op off n : forall acc k, 1 <= off <= op -> zlen acc = op + k -> 0 <= k -> op + k + Z.of_nat n <= zlen out ->
  copy_loop (filled_to out acc) op off n k = Ret (filled_to out (repeat_back n off acc)).
Proof.
  induction n as [|n IH]; intros acc k Hoff Ha Hk Hn; cbn [copy_loop repeat_back]; [done|].
  unfold filled_to at 1. rewrite rd_app_l by lia. rewrite rd_nth by lia. ret. unfold filled_to at 1. rewrite wr_next by lia. ret.
  replace (op - off + k) with (zlen acc - off) by lia. apply IH; [done| |lia|lia]. rewrite zlen_app. change (zlen [_]) with 1. lia.
Qed.

(** The fields of a match token. *)
Lemma match_fields len off : 3 <= len <= 18 -> 1 <= off < 2048 -> let tag := 128 + (len - 3) * 8 + off / 256 in
  Z.land tag 0x80 <> 0 /\ Z.land (Z.shiftr tag 3) 0x0F + 3 = len /\ Z.lor (Z.shiftl (Z.land tag 0x07) 8) (off mod 256) = off.
Proof.
  intros Hl Ho tag. pose proof (Z.div_mod off 256 ltac:(lia)) as Ed. pose proof (Z.mod_pos_bound off 256 ltac:(lia)).
  assert (Hq : 0 <= off / 256 < 8) by (split; [apply Z.div_pos; lia|apply Z.div_lt_upper_bound; lia]). set (q := off / 256) in *. clearbody q.
  assert (T3 : tag / 8 = 16 + (len - 3)) by (unfold tag; symmetry; apply Z.div_unique_pos with q; lia). assert (T0 : tag mod 8 = q) by (unfold tag; symmetry; apply Z.mod_unique_pos with (16 + (len - 3)); lia).
  split; [|split].
  - intros E. assert (Z.testbit (Z.land tag 0x80) 7 = true); [|by rewrite E, Z.bits_0 in *]. rewrite Z.land_spec. change (Z.testbit 0x80 7) with true. rewrite andb_true_r.
    rewrite Z.testbit_odd, Z.shiftr_div_pow2 by lia. replace (tag / 2 ^ 7) with 1; [done|]. apply Z.div_unique_pos with ((len - 3) * 8 + q); unfold tag; lia.
  - rewrite Z.shiftr_div_pow2 by lia. change (2 ^ 3) with 8. rewrite T3. change 0x0F with (Z.ones 4). rewrite Z.land_ones by lia. change (2 ^ 4) with 16.
    replace (16 + (len - 3)) with ((len - 3) + 1 * 16) by lia. rewrite Z.mod_add, Z.mod_small by lia. lia.
  - change 0x07 with (Z.ones 3). rewrite Z.land_ones by lia. change (2 ^ 3) with 8. rewrite T0. rewrite Z.shiftl_mul_pow2, (lor_disjoint 8) by lia. lia.
Qed.

Lemma literal_tag n : 1 <= n <= 127 -> Z.land n 0x80 = 0.
Proof.
  intros H. apply Z.bits_inj'. intros k Hk. rewrite Z.land_spec, Z.bits_0. destruct (decide (k = 7)) as [->|Hne].
  - rewrite (testbit_small n 7) by lia. done.
  - change 0x80 with (2 ^ 7). rewrite Z.pow2_bits_false by lia. apply andb_false_r.
Qed.

Lemma token_bytes_pos t acc : token_ok acc t -> 1 <= zlen (token_bytes t).
Proof. destruct t as [d|len off]; intros H; cbn [token_bytes]; [rewrite zlen_cons; pose proof (zlen_nonneg d); lia|done]. Qed.

Section Decoder.
Context (out : list Z) (cap : Z) (Hcap : cap <= zlen out).

Lemma decompress_loop_ok inp rest ts : forall fuel ip acc, padd inp ip = encode ts ++ rest -> 0 <= ip -> tokens_ok acc ts -> zlen (expands ts acc) <= cap ->
  zlen (encode ts) <= Z.of_nat fuel ->
  decompress_loop inp (ip + zlen (encode ts)) fuel ip (filled_to out acc) cap (zlen acc) = Ret (zlen (expands ts acc), filled_to out (expands ts acc)).
Proof.
  induction ts as [|t ts IH]; intros fuel ip acc E Hip Hok Hfit Hf.
  { change (zlen (encode [])) with 0. cbn [expands fold_left]. destruct fuel; cbn [decompress_loop]; by replace (ip <? ip + 0) with false by lia. }
  destruct Hok as [Ht Hok]. rewrite encode_cons in E, Hf |- *. rewrite zlen_app in Hf |- *. pose proof (token_bytes_pos t acc Ht). pose proof (zlen_nonneg (encode ts)). destruct fuel as [|fuel]; [lia|].
  change (expands (t :: ts) acc) with (expands ts (expand_token acc t)) in *. pose proof (zlen_expands ts _ Hok) as Hx. cbn [decompress_loop]. replace (ip <? ip + (zlen (token_bytes t) + zlen (encode ts))) with true by lia.
  rewrite <- app_assoc in E. destruct t as [d|len off]; cbn [token_bytes token_ok expand_token] in *.
  - destruct Ht as [Hd Bd]. rewrite zlen_cons in *. cbn [app] in E. rewrite (rd_at_cursor inp ip _ _ Hip E). ret. cbv zeta. rewrite literal_tag by lia. change (0 =? 0) with true. cbn [negb].
    replace (zlen d =? 0) with false by lia. rewrite zlen_app in Hx. match goal with |- context [if ?b then Fail else _] => replace b with false by lia end.
    apply (padd_next inp ip [_]) in E; [|lia]. change (zlen [_]) with 1 in E. rewrite E, rdn_app by done. ret. unfold filled_to at 1. rewrite blit_next by lia. ret.
    apply padd_next in E; [|lia]. replace (ip + (zlen d + 1 + zlen (encode ts))) with (ip + 1 + zlen d + zlen (encode ts)) by lia. replace (zlen acc + zlen d) with (zlen (acc ++ d)) by apply zlen_app.
    apply (IH fuel); (done || lia).
  - destruct Ht as (Hl & Ho & Hacc). destruct (match_fields len off Hl Ho) as (T1 & T2 & T3). set (tag := 128 + (len - 3) * 8 + off / 256) in *. change (zlen [tag; off mod 256]) with 2 in *. cbn [app] in E.
    rewrite (rd_at_cursor inp ip _ _ Hip E). ret. cbv zeta. replace (Z.land tag 0x80 =? 0) with false by lia. cbn [negb]. apply (padd_next inp ip [_]) in E; [|lia]. change (zlen [_]) with 1 in E.
    replace (_ <=? ip + 1) with false by lia. rewrite (rd_at_cursor inp (ip + 1) _ _ ltac:(lia) E). ret. unfold METAL_COMP_MIN_MATCH. rewrite T2, T3. rewrite zlen_repeat_back in Hx.
    replace ((off =? 0) || (zlen acc <? off)) with false by lia. replace (cap <? zlen acc + len) with false by lia. rewrite copy_loop_ok by lia. ret.
    apply (padd_next inp (ip + 1) [_]) in E; [|lia]. change (zlen [_]) with 1 in E. replace (ip + (2 + zlen (encode ts))) with (ip + 1 + 1 + zlen (encode ts)) by lia.
    replace (zlen acc + len) with (zlen (repeat_back (Z.to_nat len) off acc)) by (rewrite zlen_repeat_back; lia). apply (IH fuel); (done || lia).
Qed.

Lemma decompress_block_ok ts rest : tokens_ok [] ts -> zlen (expands ts []) <= cap ->
  decompress_block (encode ts ++ rest) (zlen (encode ts)) out cap = Ret (zlen (expands ts []), filled_to out (expands ts [])).
Proof.
  intros Hok Hfit. unfold decompress_block. pose proof (decompress_loop_ok (encode ts ++ rest) rest ts (Z.to_nat (zlen (encode ts))) 0 [] (padd_0 _) ltac:(lia) Hok Hfit ltac:(lia)) as H.
  rewrite Z.add_0_l in H. unfold filled_to in H at 1. cbn [app] in H. change (zlen []) with 0 in H. by rewrite padd_0 in H.
Qed.
End Decoder.

(** ** Blocks

    A block on the wire is its two lengths and its payload: stored, or coded in
    fewer bytes. *)

Inductive block_wire (blk : list Z) : list Z -> Prop :=
| bw_stored : block_wire blk (le_bytes 2 (zlen blk) ++ le_bytes 2 (zlen blk) ++ blk)
| bw_coded ts : tokens_ok [] ts -> expands ts [] = blk -> zlen (encode ts) < zlen blk ->
    block_wire blk (le_bytes 2 (zlen blk) ++ le_bytes 2 (zlen (encode ts)) ++ encode ts).

Inductive stream_wire : list Z -> list Z -> Prop :=
| sw_nil : stream_wire [] []
| sw_cons blk w data w' : 1 <= zlen blk <= 508 -> block_wire blk w -> stream_wire data w' -> stream_wire (blk ++ data) (w ++ w').

(** The blocks of [n] bytes, and their room. *)
Definition blocks_of (n : Z) : Z := (n + 507) / 508.
Definition room (n : Z) : Z := n + 4 * blocks_of n.

Lemma blocks_of_step n k : 0 < n -> k = Z.min n 508 -> blocks_of n = 1 + blocks_of (n - k).
Proof.
  intros Hn Hk. unfold blocks_of. destruct (Z.le_gt_cases n 508).
  - replace (n - k) with 0 by lia. change ((0 + 507) / 508) with 0. symmetry. apply Z.div_unique_pos with (n - 1); lia.
  - replace (n + 507) with ((n - k + 507) + 1 * 508) by lia. rewrite Z.div_add by lia. lia.
Qed.

Lemma zlen_le2 n : zlen (le_bytes 2 n) = 2.
Proof. unfold zlen. by rewrite length_le_bytes. Qed.

Lemma zlen_block_wire blk w : block_wire blk w -> 4 <= zlen w <= 4 + zlen blk.
Proof. pose proof (zlen_nonneg blk). intros [|ts H1 H2 H3]; [|pose proof (zlen_nonneg (encode ts))]; rewrite !zlen_app, !zlen_le2; lia. Qed.

Lemma le16_u8 n : 0 <= n < 65536 -> [u8 (Z.land n 0xFF); u8 (Z.land (Z.shiftr n 8) 0xFF)] = le_bytes 2 n.
Proof.
  intros H. unfold u8. change 0xFF with (Z.ones 8). rewrite !Z.land_ones, Z.shiftr_div_pow2, !Z.mod_mod by lia. cbn [le_bytes]. change (2 ^ 8) with 256. reflexivity.
Qed.

Lemma le16_value n : 0 <= n < 65536 -> u16 (Z.lor (n mod 256) (Z.shiftl ((n / 256) mod 256) 8)) = n.
Proof.
  intros H. rewrite Z.shiftl_mul_pow2, Z.lor_comm, (lor_disjoint 8) by dlia. change (2 ^ 8) with 256. unfold u16. rewrite Z.mod_small by dlia. dlia.
Qed.

Section Blocks.
Context (scratch input output : list Z) (cap : Z).
Context (Hs : zlen scratch = 572) (Hb : Forall byte_ok input) (Hcap : cap <= zlen output).

(** The payload of a block: the encoder's tokens when they are shorter. *)
Lemma block_payload ip blk : 0 <= ip -> 1 <= blk <= 508 -> ip + blk <= zlen input ->
  exists rc n buf payload,
    match compress_block (padd input ip) blk scratch 572 with Ret (n, buf) => Ret (0, n, buf) | Fail => Ret (-1, 0, []) | Oob => Oob end = Ret (rc, n, buf) /\
    let stored := negb (rc =? 0) || (blk <=? n) in
    (if stored then rdn (padd input ip) blk else rdn buf n) = Ret payload /\ zlen payload = (if stored then blk else n) /\
    block_wire (sub input ip blk) (le_bytes 2 blk ++ le_bytes 2 (zlen payload) ++ payload).
Proof.
  intros Hip Hblk Hin. assert (Ls : zlen (sub input ip blk) = blk) by (apply zlen_sub; lia).
  assert (Hst : rdn (padd input ip) blk = Ret (sub input ip blk) /\ zlen (sub input ip blk) = blk /\ block_wire (sub input ip blk) (le_bytes 2 blk ++ le_bytes 2 (zlen (sub input ip blk)) ++ sub input ip blk)).
  { rewrite rdn_ok by (rewrite zlen_padd; lia). split; [reflexivity|]. split; [exact Ls|]. pose proof (bw_stored (sub input ip blk)) as H. rewrite Ls in H |- *. exact H. }
  pose proof (compress_block_ok (padd input ip) scratch blk 572 (Forall_drop _ _ _ Hb) ltac:(lia) ltac:(rewrite zlen_padd; lia) ltac:(lia)) as H.
  destruct (compress_block (padd input ip) blk scratch 572) as [[n buf]| |]; [|exists (-1), 0, [], (sub input ip blk); split; [reflexivity|]; exact Hst|destruct H].
  destruct H as (ts & -> & -> & Hok & He). destruct (Z.leb_spec blk (zlen (encode ts))) as [Hge|Hlt].
  - exists 0, (zlen (encode ts)), (filled_to scratch (encode ts)), (sub input ip blk). split; [reflexivity|]. cbn [negb Z.eqb orb]. cbv zeta. replace (blk <=? zlen (encode ts)) with true by lia. exact Hst.
  - exists 0, (zlen (encode ts)), (filled_to scratch (encode ts)), (encode ts). split; [reflexivity|]. cbn [negb Z.eqb orb]. cbv zeta. replace (blk <=? zlen (encode ts)) with false by lia.
    unfold filled_to. rewrite rdn_app by done. split; [reflexivity|]. split; [reflexivity|]. pose proof (bw_coded (sub input ip blk) ts Hok He) as Hw. rewrite Ls in Hw. by apply Hw.
Qed.

Lemma compress_blocks_ok fuel : forall ip W, 0 <= ip <= zlen input -> zlen input - ip <= Z.of_nat fuel -> zlen W + room (zlen input - ip) <= cap ->
  exists w, compress_blocks scratch input (zlen input) fuel ip (filled_to output W) cap (zlen W) = Ret (i32 (zlen (W ++ w)), filled_to output (W ++ w)) /\
    stream_wire (padd input ip) w /\ zlen w <= room (zlen input - ip).
Proof.
  induction fuel as [|fuel IH]; intros ip W Hip Hf Hroom; cbn [compress_blocks]; destruct (Z.ltb_spec ip (zlen input)) as [Hlt|Hge]; try lia.
  1, 3: assert (ip = zlen input) as -> by lia; exists []; rewrite app_nil_r, Z.sub_diag; split; [done|]; split; [|done]; replace (padd input (zlen input)) with (@nil Z) by (symmetry; unfold padd, zlen; rewrite Nat2Z.id; apply drop_all); constructor.
  unfold METAL_COMP_BLOCK_SIZE. set (blk := if 508 <? zlen input - ip then 508 else zlen input - ip). assert (Hblk : blk = Z.min (zlen input - ip) 508) by (unfold blk; zcase; lia). cbv zeta. clearbody blk.
  pose proof (blocks_of_step (zlen input - ip) blk ltac:(lia) Hblk) as Hst. unfold room in Hroom. assert (0 <= blocks_of (zlen input - ip - blk)) by (apply Z.div_pos; lia).
  replace (cap <? zlen W + 4) with false by lia. change (508 + 64) with 572.
  destruct (block_payload ip blk ltac:(lia) ltac:(lia) ltac:(lia)) as (rc & cl & buf & payload & -> & Hpay). ret. cbv zeta in Hpay. set (stored := negb (rc =? 0) || (blk <=? cl)) in *.
  destruct Hpay as (Ep & Lp & Hw). rewrite <- Lp. pose proof (zlen_nonneg payload). assert (Hpl : zlen payload <= blk) by (pose proof (zlen_block_wire _ _ Hw) as Hz; rewrite !zlen_app, !zlen_le2, zlen_sub in Hz by lia; lia).
  replace (cap <? zlen W + 4 + zlen payload) with false by lia. replace (if stored then u16 blk else u16 cl) with (zlen payload) by (rewrite Lp; destruct stored; rewrite u16_small; lia).
  replace (u16 blk) with blk by (rewrite u16_small; lia). pose proof (le16_u8 blk ltac:(lia)) as E1. pose proof (le16_u8 (zlen payload) ltac:(lia)) as E2.
  set (a0 := u8 (Z.land blk 0xFF)) in *. set (a1 := u8 (Z.land (Z.shiftr blk 8) 0xFF)) in *. set (a2 := u8 (Z.land (zlen payload) 0xFF)) in *. set (a3 := u8 (Z.land (Z.shiftr (zlen payload) 8) 0xFF)) in *.
  assert (Z1 : forall x : Z, zlen [x] = 1) by done. unfold filled_to at 1. rewrite wr_next by lia. ret. do 3 (rewrite wr_next by (rewrite !zlen_app, !Z1; lia); ret).
  rewrite Ep. ret. rewrite blit_next by (rewrite !zlen_app, !Z1; lia). ret. set (bw := le_bytes 2 blk ++ le_bytes 2 (zlen payload) ++ payload) in *.
  replace (((((W ++ [a0]) ++ [a1]) ++ [a2]) ++ [a3]) ++ payload) with (W ++ bw) by (unfold bw; rewrite <- E1, <- E2, <- !app_assoc; reflexivity).
  assert (Lbw : zlen bw = 4 + zlen payload) by (unfold bw; rewrite !zlen_app, !zlen_le2; lia). replace (zlen W + 4 + zlen payload) with (zlen (W ++ bw)) by (rewrite zlen_app; lia).
  destruct (IH (ip + blk) (W ++ bw) ltac:(lia) ltac:(lia)) as (w & Er & Hsw & Hlw); [unfold room; rewrite zlen_app; replace (zlen input - (ip + blk)) with (zlen input - ip - blk) by lia; lia|].
  exists (bw ++ w). rewrite app_assoc. split; [exact Er|]. split.
  - rewrite (padd_sub input ip blk) by lia. constructor; [rewrite zlen_sub; lia|exact Hw|exact Hsw].
  - unfold room in *. rewrite zlen_app. replace (zlen input - (ip + blk)) with (zlen input - ip - blk) in Hlw by lia. lia.
Qed.
End Blocks.

Lemma padd_filled out acc : padd (filled_to out acc) (zlen acc) = padd out (zlen acc).
Proof. unfold filled_to. by apply padd_app. Qed.

Lemma le2_bytes n : le_bytes 2 n = [n mod 256; (n / 256) mod 256].
Proof. reflexivity. Qed.

(** The header of a block. *)
Lemma header_read input ip raw cmp rest : 0 <= ip -> 0 <= raw < 65536 -> 0 <= cmp < 65536 -> padd input ip = le_bytes 2 raw ++ le_bytes 2 cmp ++ rest ->
  exists b0 b1 b2 b3, rd input ip = Ret b0 /\ rd input (ip + 1) = Ret b1 /\ rd input (ip + 2) = Ret b2 /\ rd input (ip + 3) = Ret b3 /\
    u16 (Z.lor b0 (Z.shiftl b1 8)) = raw /\ u16 (Z.lor b2 (Z.shiftl b3 8)) = cmp /\ padd input (ip + 4) = rest.
Proof.
  intros Hip Hr Hc E. rewrite !le2_bytes in E. cbn [app] in E. do 4 eexists. split; [exact (rd_at_cursor input ip _ _ Hip E)|].
  split; [exact (rd_at_cursor input (ip + 1) _ _ ltac:(lia) (padd_next input ip [_] _ Hip E))|]. split; [exact (rd_at_cursor input (ip + 2) _ _ ltac:(lia) (padd_next input ip [_; _] _ Hip E))|].
  split; [exact (rd_at_cursor input (ip + 3) _ _ ltac:(lia) (padd_next input ip [_; _; _] _ Hip E))|]. split; [by apply le16_value|]. split; [by apply le16_value|]. exact (padd_next input ip [_; _; _; _] _ Hip E).
Qed.

Lemma decompress_blocks_ok out cap input rest data w : cap <= zlen out -> stream_wire data w -> forall fuel ip acc,
  padd input ip = w ++ rest -> 0 <= ip -> zlen (acc ++ data) <= cap -> zlen w <= Z.of_nat fuel ->
  decompress_blocks input (ip + zlen w) fuel ip (filled_to out acc) cap (zlen acc) = Ret (i32 (zlen (acc ++ data)), filled_to out (acc ++ data)).
Proof.
  intros Hcap Hsw. induction Hsw as [|blk w data w' Hblk Hbw Hsw IH]; intros fuel ip acc E Hip Hfit Hf.
  { rewrite app_nil_r. change (zlen []) with 0. destruct fuel; cbn [decompress_blocks]; by replace (ip + 4 <=? ip + 0) with false by lia. }
  pose proof (zlen_block_wire _ _ Hbw) as Hz. pose proof (zlen_nonneg w'). pose proof (zlen_nonneg data). rewrite (app_assoc acc) in Hfit |- *. rewrite zlen_app in Hf |- *. rewrite <- app_assoc in E.
  assert (Hfit' : zlen acc + zlen blk <= cap) by (rewrite !zlen_app in Hfit; lia). destruct fuel as [|fuel]; [lia|]. pose proof (padd_next input ip w _ Hip E) as Enext. cbn [decompress_blocks].
  replace (ip + 4 <=? ip + (zlen w + zlen w')) with true by lia. specialize (IH fuel (ip + zlen w) (acc ++ blk) Enext ltac:(lia) Hfit ltac:(lia)). rewrite (zlen_app acc blk) in IH.
  destruct Hbw as [|ts Hok He Hlt]; rewrite !zlen_app, !zlen_le2 in *; rewrite <- !app_assoc in E.
  - destruct (header_read input ip (zlen blk) (zlen blk) _ Hip ltac:(lia) ltac:(lia) E) as (b0 & b1 & b2 & b3 & -> & -> & -> & -> & Er & Ec & Ep). ret. rewrite Er, Ec. cbv zeta.
    replace (zlen blk =? 0) with false by lia. replace (_ <? ip + 4 + zlen blk) with false by lia. replace (cap <? zlen acc + zlen blk) with false by lia. rewrite Z.eqb_refl, Ep, rdn_app by done. ret.
    unfold filled_to at 1. rewrite blit_next by lia. ret. replace (ip + 4 + zlen blk) with (ip + (2 + (2 + zlen blk))) by lia. rewrite Z.add_assoc. exact IH.
  - pose proof (zlen_nonneg (encode ts)). assert (Hpos : 1 <= zlen (encode ts)).
    { destruct ts as [|t ts]; [change (expands [] []) with (@nil Z) in He; subst blk; change (zlen []) with 0 in Hblk; lia|]. rewrite encode_cons, zlen_app. pose proof (token_bytes_pos t [] (proj1 Hok)). pose proof (zlen_nonneg (encode ts)). lia. }
    destruct (header_read input ip (zlen blk) (zlen (encode ts)) _ Hip ltac:(lia) ltac:(lia) E) as (b0 & b1 & b2 & b3 & -> & -> & -> & -> & Er & Ec & Ep). ret. rewrite Er, Ec. cbv zeta.
    replace (zlen (encode ts) =? 0) with false by lia. replace (_ <? ip + 4 + zlen (encode ts)) with false by lia. replace (cap <? zlen acc + zlen blk) with false by lia. replace (zlen blk =? zlen (encode ts)) with false by lia.
    rewrite Ep, padd_filled. rewrite decompress_block_ok by (try done; rewrite ?zlen_padd, ?He by apply zlen_nonneg; lia). ret. rewrite He, Z.eqb_refl. cbn [negb].
    replace (ztake (zlen acc) (filled_to out acc) ++ filled_to (padd out (zlen acc)) blk) with (filled_to out (acc ++ blk)).
    2: { unfold filled_to. rewrite ztake_app by done. rewrite padd_padd by apply zlen_nonneg. by rewrite zlen_app, <- app_assoc. }
    replace (ip + 4 + zlen (encode ts)) with (ip + (2 + (2 + zlen (encode ts)))) by lia. rewrite Z.add_assoc. exact IH.
Qed.

(** ** The decoder is safe *)

Lemma copy_loop_wp out op off n : forall k, 1 <= off <= op -> 0 <= k -> op + k + Z.of_nat n <= zlen out -> Forall byte_ok out ->
  wp (copy_loop out op off n k) (fun out' => zlen out' = zlen out /\ Forall byte_ok out').
Proof.
  revert out. induction n as [|n IH]; intros out k Hoff Hk Hn Hb; cbn [copy_loop]; [done|]. rewrite rd_nth by lia. ret. rewrite wr_in_bounds by lia. ret.
  assert (Hl : zlen (<[Z.to_nat (op + k):=nth (Z.to_nat (op - off + k)) out 0]> out) = zlen out) by apply zlen_insert.
  eapply wp_mono; [apply IH; try lia|].
  - apply Forall_insert; [done|]. pose proof (rd_nth out (op - off + k) ltac:(lia)) as E. exact (rd_byte _ _ _ Hb E).
  - intros out' [-> H]. by rewrite Hl.
Qed.

Lemma blit_wp out off d : 0 <= off -> off + zlen d <= zlen out -> Forall byte_ok out -> Forall byte_ok d ->
  exists out', blit out off d = Ret out' /\ zlen out' = zlen out /\ Forall byte_ok out'.
Proof.
  intros Ho Hl Hb Hd. pose proof (zlen_nonneg d). rewrite blit_ok by done. eexists. split; [reflexivity|]. split; [rewrite !zlen_app, zlen_ztake, zlen_padd by lia; lia|].
  apply Forall_app_2; [by apply Forall_take|]. apply Forall_app_2; [done|by apply Forall_drop].
Qed.

Lemma decompress_loop_wp inp in_len cap fuel : forall ip out op, Forall byte_ok inp -> Forall byte_ok out -> in_len <= zlen inp -> 0 <= ip -> in_len - ip <= Z.of_nat fuel -> 0 <= op <= cap -> cap <= zlen out ->
  wp (decompress_loop inp in_len fuel ip out cap op) (fun '(n, out') => op <= n <= cap /\ zlen out' = zlen out /\ Forall byte_ok out').
Proof.
  induction fuel as [|fuel IH]; intros ip out op Hi Hb Hin Hip Hf Hop Hcap; cbn [decompress_loop]; destruct (Z.ltb_spec ip in_len); try lia; try (cbn [wp]; split_and!; (done || lia)).
  rewrite rd_nth by lia. ret. pose proof (rd_byte _ _ _ Hi (rd_nth inp ip ltac:(lia))) as Ht. set (tag := nth (Z.to_nat ip) inp 0) in *. unfold byte_ok in Ht. cbv zeta. destruct (negb _).
  - destruct (Z.leb_spec in_len (ip + 1)); [exact I|]. rewrite rd_nth by lia. ret. set (off := Z.lor _ _). set (mlen := Z.land (Z.shiftr tag 3) 0x0F + METAL_COMP_MIN_MATCH).
    assert (Hm : 3 <= mlen) by (unfold mlen, METAL_COMP_MIN_MATCH; assert (0 <= Z.land (Z.shiftr tag 3) 0x0F) by (apply Z.land_nonneg; lia); lia).
    assert (Ho : 0 <= off) by (unfold off; pose proof (rd_byte _ _ _ Hi (rd_nth inp (ip + 1) ltac:(lia))) as H1; unfold byte_ok in H1; apply Z.lor_nonneg; split; [apply Z.shiftl_nonneg, Z.land_nonneg; lia|lia]).
    destruct ((off =? 0) || (op <? off)) eqn:E; [exact I|]. destruct (Z.ltb_spec cap (op + mlen)); [exact I|]. apply wp_bind. eapply wp_mono; [apply copy_loop_wp; (done || lia)|].
    intros out' [Hl Hb']. eapply wp_mono; [apply IH; (done || lia)|]. intros [n out2] (Hn & Hl2 & Hb2). split_and!; (done || lia).
  - destruct (tag =? 0); [cbn [wp]; split_and!; (done || lia)|]. destruct ((in_len <? ip + 1 + tag) || (cap <? op + tag)) eqn:E; [exact I|]. rewrite rdn_ok by (rewrite zlen_padd; lia). ret.
    assert (Ld : zlen (ztake tag (padd inp (ip + 1))) = tag) by (rewrite zlen_ztake, zlen_padd by lia; lia).
    destruct (blit_wp out op (ztake tag (padd inp (ip + 1))) ltac:(lia) ltac:(lia) Hb ltac:(by apply Forall_take, Forall_drop)) as (out' & -> & Hl & Hb'). ret.
    eapply wp_mono; [apply IH; (done || lia)|]. intros [n out2] (Hn & Hl2 & Hb2). split_and!; (done || lia).
Qed.

Lemma decompress_blocks_wp input input_len cap fuel : forall ip out op, Forall byte_ok input -> Forall byte_ok out -> input_len <= zlen input -> 0 <= ip -> input_len - ip <= Z.of_nat fuel -> 0 <= op <= cap -> cap <= zlen out ->
  wp (decompress_blocks input input_len fuel ip out cap op) (fun '(r, out') => exists n, r = i32 n /\ op <= n <= cap /\ zlen out' = zlen out /\ Forall byte_ok out').
Proof.
  induction fuel as [|fuel IH]; intros ip out op Hi Hb Hin Hip Hf Hop Hcap; cbn [decompress_blocks]; destruct (Z.leb_spec (ip + 4) input_len); try lia; try (cbn [wp]; exists op; split_and!; (done || lia)).
  rewrite !rd_nth by lia. ret. cbv zeta. set (raw := u16 (Z.lor (nth (Z.to_nat ip) input 0) _)). set (cmp := u16 (Z.lor (nth (Z.to_nat (ip + 2)) input 0) _)).
  assert (Hraw : 0 <= raw) by (apply Z.mod_pos_bound; lia). assert (Hcmp : 0 <= cmp) by (apply Z.mod_pos_bound; lia). clearbody raw cmp. destruct (Z.eqb_spec cmp 0); [exact I|].
  destruct (Z.ltb_spec input_len (ip + 4 + cmp)); [exact I|]. destruct (Z.ltb_spec cap (op + raw)); [exact I|]. destruct (Z.eqb_spec raw cmp) as [->|Hne].
  - rewrite rdn_ok by (rewrite zlen_padd; lia). ret. assert (Ld : zlen (ztake cmp (padd input (ip + 4))) = cmp) by (rewrite zlen_ztake, zlen_padd by lia; lia).
    destruct (blit_wp out op (ztake cmp (padd input (ip + 4))) ltac:(lia) ltac:(lia) Hb ltac:(by apply Forall_take, Forall_drop)) as (out' & -> & Hl & Hb'). ret.
    eapply wp_mono; [apply IH; (done || lia)|]. intros [r out2] (n' & -> & Hn & Hl2 & Hb2). exists n'. split_and!; (done || lia).
  - apply wp_bind. eapply wp_mono; [apply decompress_loop_wp; try (by apply Forall_drop); try lia; rewrite zlen_padd; lia|]. intros [got tail] (Hg & Hl & Hbt). rewrite zlen_padd in Hl by lia.
    assert (Lo : zlen (ztake op out ++ tail) = zlen out) by (rewrite zlen_app, zlen_ztake by lia; lia). assert (Bo : Forall byte_ok (ztake op out ++ tail)) by (apply Forall_app_2; [by apply Forall_take|done]).
    destruct (Z.eqb_spec got raw) as [->|]; cbn [negb]; [|exact I]. eapply wp_mono; [apply IH; (done || lia)|]. intros [r out2] (n' & -> & Hn & Hl2 & Hb2). exists n'. split_and!; (done || lia).
Qed.

(** ** The theorems *)

Lemma bound_room n : 0 <= n < 2 ^ 62 -> room n <= metal_compress_bound n < 2 ^ 63.
Proof.
  intros Hn. unfold room, blocks_of, metal_compress_bound, METAL_COMP_BLOCK_SIZE. replace (n + 508 - 1) with (n + 507) by lia. rewrite (u64_small (n + 507)) by lia.
  pose proof (Z.div_pos (n + 507) 508 ltac:(lia) ltac:(lia)). pose proof (Z.mul_div_le (n + 507) 508 ltac:(lia)). cbv zeta. destruct (Z.eqb_spec ((n + 507) / 508) 0) as [->|]; rewrite u64_small by lia; lia.
Qed.

(** C26: decompression inverts compression.  Compressing any bytes into a buffer of
    [metal_compress_bound] or more never fails and stays within that bound, and
    decompressing the result, whatever follows it in memory, into a buffer of the
    original length or more gives back exactly the original bytes. *)
Theorem compress_roundtrip scratch input output cap out2 cap2 :
  zlen scratch = METAL_COMP_BLOCK_SIZE + 64 -> Forall byte_ok input -> metal_compress_bound (zlen input) < 2 ^ 31 ->
  zlen input < 2 ^ 62 -> metal_compress_bound (zlen input) <= cap <= zlen output -> zlen input <= cap2 <= zlen out2 ->
  exists wire, metal_compress scratch input (zlen input) output cap = Ret (zlen wire, wire ++ padd output (zlen wire)) /\
    zlen wire <= metal_compress_bound (zlen input) /\
    forall rest, metal_decompress (wire ++ rest) (zlen wire) out2 cap2 = Ret (zlen input, input ++ padd out2 (zlen input)).
Proof.
  intros Hs Hb H31 H62 Hcap Hcap2. change (METAL_COMP_BLOCK_SIZE + 64) with 572 in Hs. pose proof (zlen_nonneg input). pose proof (bound_room (zlen input) ltac:(lia)) as [Hr _].
  assert (E0 : forall out, filled_to out [] = out) by (intros out; apply padd_0).
  destruct (compress_blocks_ok scratch input output cap Hs Hb ltac:(lia) (Z.to_nat (zlen input)) 0 [] ltac:(lia) ltac:(lia)) as (w & Ec & Hsw & Hw); [change (zlen []) with 0; rewrite Z.sub_0_r; lia|].
  rewrite E0 in Ec. change (zlen []) with 0 in Ec. rewrite app_nil_l in Ec. rewrite padd_0 in Hsw. rewrite Z.sub_0_r in Hw. pose proof (zlen_nonneg w).
  assert (Hi : forall n, 0 <= n < 2 ^ 31 -> i32 n = n) by (intros n Hn; unfold i32; rewrite u32_small by lia; zcase; lia).
  exists w. unfold metal_compress. rewrite Ec, Hi by lia. split; [reflexivity|]. split; [lia|]. intros rest. unfold metal_decompress.
  pose proof (decompress_blocks_ok out2 cap2 (w ++ rest) rest input w ltac:(lia) Hsw (Z.to_nat (zlen w)) 0 [] (padd_0 _) ltac:(lia) ltac:(rewrite app_nil_l; lia) ltac:(lia)) as Ed.
  rewrite E0, Z.add_0_l in Ed. change (zlen []) with 0 in Ed. rewrite app_nil_l in Ed. rewrite Ed, Hi by (pose proof (bound_room (zlen input)); unfold room, blocks_of in *; pose proof (Z.div_pos (zlen input + 507) 508); lia). reflexivity.
Qed.

Definition example_text : list Z := mjoin (replicate 100 (lit "the quick brown fox, ")).

Lemma compress_roundtrip_witness :
  exists wire, metal_compress (replicate 572 0) example_text 2100 (replicate 3000 0) 3000 = Ret (zlen wire, wire ++ padd (replicate 3000 0) (zlen wire)) /\ zlen wire <= 2184 /\
    metal_decompress wire (zlen wire) (replicate 2100 0) 2100 = Ret (2100, example_text).
Proof.
  assert (L : zlen example_text = 2100) by (vm_compute; reflexivity). assert (B : metal_compress_bound 2100 = 2184) by (vm_compute; reflexivity).
  destruct (compress_roundtrip (replicate 572 0) example_text (replicate 3000 0) 3000 (replicate 2100 0) 2100) as (wire & E1 & E2 & E3).
  - reflexivity.
  - apply bytes_okb_ok. vm_compute. reflexivity.
  - rewrite L, B. lia.
  - rewrite L. lia.
  - rewrite L, B. vm_compute. split; discriminate.
  - rewrite L. vm_compute. split; discriminate.
  - exists wire. rewrite L in *. rewrite B in E2. split; [exact E1|]. split; [exact E2|]. specialize (E3 []). rewrite app_nil_r in E3. rewrite E3.
    replace (padd (replicate 2100 0) 2100) with (@nil Z) by reflexivity. by rewrite app_nil_r.
Defined.

(** C27: the decoder is safe.  On every input it terminates, reads and
    writes only within its two buffers, and returns -1 or a number of bytes within
    the capacity. *)
Theorem decompress_safe input input_len output output_cap :
  Forall byte_ok input -> 0 <= input_len <= zlen input -> Forall byte_ok output -> 0 <= output_cap <= zlen output -> output_cap < 2 ^ 31 ->
  match metal_decompress input input_len output output_cap with
  | Ret (n, out) => 0 <= n <= output_cap /\ zlen out = zlen output /\ Forall byte_ok out
  | Fail => True
  | Oob => False
  end.
Proof.
  intros Hi Hl Hb Hc H31. pose proof (decompress_blocks_wp input input_len output_cap (Z.to_nat input_len) 0 output 0 Hi Hb ltac:(lia) ltac:(lia) ltac:(lia) ltac:(lia) ltac:(lia)) as H. unfold metal_decompress.
  destruct (decompress_blocks _ _ _ _ _ _ _) as [[r out]| |]; [|exact I|exact H]. destruct H as (n & -> & Hn & H). split; [|exact H]. unfold i32. rewrite u32_small by lia. zcase; lia.
Qed.

Lemma decompress_safe_witness : match metal_decompress [4; 0; 2; 0; 0x81; 0] 6 (replicate 16 0) 16 with Ret (n, out) => 0 <= n <= 16 /\ zlen out = 16 /\ Forall byte_ok out | Fail => True | Oob => False end.
Proof. apply (decompress_safe [4; 0; 2; 0; 0x81; 0] 6 (replicate 16 0) 16); first [by apply bytes_okb_ok|by vm_compute; split]. Defined.
