(* ===== verification/Http.v ===== *)
(** * The HTTP/1.1 request parser and response selection

    Models [src/http.c], with [metal_compress_accepted] of [src/compress.c] and
    [brotli_accepted] of [src/brotli.c].  The parser works in place on the read
    buffer: a pointer into the buffer is an offset ([None] is NULL), and the
    buffer is part of the result because the Host header is lower-cased in it.
    Every early return carries the request struct as filled so far. *)

From Stdlib Require Import ZArith Lia String Ascii.
From stdpp Require Import list numbers option.
From coqutil Require Import Datatypes.RecordSetters.
Import DoubleBraceUpdate.
From S2P Require Import Prelude Util Jumptable.

#[global] Arguments constant _ _ _ /.

Definition CR : Z := 0x0d.
Definition LF : Z := 0x0a.
Definition SP : Z := 0x20.
Definition HT : Z := 0x09.
Definition COLON : Z := 0x3a.
Definition COMMA : Z := 0x2c.
Definition DOT : Z := 0x2e.
Definition SLASH : Z := 0x2f.
Definition QMARK : Z := 0x3f.
Definition QUOTE : Z := 0x22.

Inductive http_result_t :=
| HTTP_NEED_MORE | HTTP_OK | HTTP_ERR_400 | HTTP_ERR_405 | HTTP_ERR_409 | HTTP_ERR_413 | HTTP_ERR_414 | HTTP_ERR_505.

#[global] Instance http_result_eq_dec : EqDecision http_result_t.
Proof. solve_decision. Defined.

Inductive http_method_t := M_GET | M_HEAD | M_POST | M_PUT | M_DELETE | M_OPTIONS | M_UNKNOWN.

#[global] Instance http_method_eq_dec : EqDecision http_method_t.
Proof. solve_decision. Defined.

(** A pointer into the buffer and a length. *)
Record span := mk_span { sp_off : option Z; sp_len : Z }.

Record http_request_t := mk_req {
  rq_method : http_method_t;
  rq_host : span;
  rq_path : span;
  rq_client_close : bool;
  rq_accept_pc : bool;
  rq_accept_br : bool;
  rq_has_leftover : bool;
  rq_consumed : Z;
  rq_if_none_match : span;
  rq_cookie : span;
  rq_pw_auth_header : bool;
  rq_write_token : span;
  rq_origin : span;
  rq_acr_headers : span;
  rq_pw_principal : span;
  rq_pw_tenant : span;
  rq_pw_partition_hop : bool;
  rq_content_length : Z
}.

Definition null_span : span := mk_span None 0.

(** [( http_request_t ){0}] *)
Definition zero_req : http_request_t :=
  mk_req M_GET null_span null_span false false false false 0 null_span null_span false null_span null_span null_span
    null_span null_span false 0.

Definition MAX_URI_LEN : Z := 2048.

(** ** C library *)

(** [memchr(buf + off, c, k)], as an offset into the buffer. *)
Fixpoint memchr (buf : list Z) (off c : Z) (k : nat) : res (option Z) :=
  match k with
  | O => Ret None
  | S k' => let! b := rd buf off in if b =? c then Ret (Some off) else memchr buf (off + 1) c k'
  end.

(** [memmem], [k] positions left from [i]. *)
Fixpoint memmem (buf : list Z) (needle : list Z) (i : Z) (k : nat) : res (option Z) :=
  match k with
  | O => Ret None
  | S k' =>
      let! e := mem_eq (padd buf i) needle (zlen needle) in
      if e then Ret (Some i) else memmem buf needle (i + 1) k'
  end.

(** [while (k < n && f(p[k])) k++;] over the bytes at [base]. *)
Fixpoint skip_while (f : Z -> bool) (buf : list Z) (base k n : Z) (fuel : nat) : res Z :=
  if k <? n then
    match fuel with
    | O => Oob
    | S fuel' =>
        let! c := rd buf (base + k) in
        if f c then skip_while f buf base (k + 1) n fuel' else Ret k
    end
  else Ret k.

(** [while (e > s && f(p[e - 1])) e--;] *)
Fixpoint back_while (f : Z -> bool) (buf : list Z) (base s e : Z) (fuel : nat) : res Z :=
  if s <? e then
    match fuel with
    | O => Oob
    | S fuel' =>
        let! c := rd buf (base + (e - 1)) in
        if f c then back_while f buf base s (e - 1) fuel' else Ret e
    end
  else Ret e.

Definition is_ows (c : Z) : bool := (c =? SP) || (c =? HT).
Definition is_sep (c : Z) : bool := (c =? SP) || (c =? HT) || (c =? COMMA).

(** ** Small helpers *)

Definition is_lit (buf : list Z) (len : Z) (s : string) : res bool :=
  if negb (len =? zlen (lit s)) then Ret false else mem_eq buf (lit s) (zlen (lit s)).

Definition classify_method (m : list Z) (len : Z) : res http_method_t :=
  let! g := is_lit m len "GET" in if g then Ret M_GET else
  let! g := is_lit m len "HEAD" in if g then Ret M_HEAD else
  let! g := is_lit m len "POST" in if g then Ret M_POST else
  let! g := is_lit m len "PUT" in if g then Ret M_PUT else
  let! g := is_lit m len "DELETE" in if g then Ret M_DELETE else
  let! g := is_lit m len "OPTIONS" in if g then Ret M_OPTIONS else
  Ret M_UNKNOWN.

(** The control-character loop, [k] iterations left. *)
Fixpoint no_ctl_loop (p : list Z) (i : Z) (k : nat) : res bool :=
  match k with
  | O => Ret true
  | S k' =>
      let! c := rd p i in
      if (c <? 0x20) || (c =? 0x7f) then Ret false else no_ctl_loop p (i + 1) k'
  end.

(** [a || b], where evaluating [b] may read. *)
Definition orr (a : bool) (b : res bool) : res bool := if a then Ret true else b.

(** The ".." loop, [k] iterations left. *)
Fixpoint no_dotdot_loop (p : list Z) (len i : Z) (k : nat) : res bool :=
  match k with
  | O => Ret true
  | S k' =>
      let! c := rd p i in
      let! c' := (if c =? DOT then rd p (i + 1) else Ret 0) in
      if (c =? DOT) && (c' =? DOT) then
        let! left_ok := orr (i =? 0) (let! c := rd p (i - 1) in Ret (c =? SLASH)) in
        let! right_ok := orr (i + 2 =? len) (let! c := rd p (i + 2) in Ret (c =? SLASH)) in
        if left_ok && right_ok then Ret false else no_dotdot_loop p len (i + 1) k'
      else no_dotdot_loop p len (i + 1) k'
  end.

Definition path_is_safe (p : list Z) (len : Z) : res bool :=
  if len =? 0 then Ret false
  else
    let! c := rd p 0 in
    if negb (c =? SLASH) then Ret false
    else if MAX_URI_LEN <? len then Ret false
    else
      let! ok := no_ctl_loop p 0 (Z.to_nat len) in
      if negb ok then Ret false else no_dotdot_loop p len 0 (Z.to_nat (len - 1)).

(** The trimmed range, as offset and length. *)
Definition trim_ows (buf : list Z) (s len : Z) : res (Z * Z) :=
  let! i := skip_while is_ows buf s 0 len (Z.to_nat len) in
  let! j := back_while is_ows buf s i len (Z.to_nat len) in
  Ret (s + i, j - i).

Definition set_principal_header (out : http_request_t) (val len : Z) : http_request_t :=
  match sp_off (rq_pw_principal out) with
  | None => if 0 <? len then out {{ rq_pw_principal := mk_span (Some val) len }} else out
  | Some _ => out
  end.

(** ** Accept-Encoding *)

(** [for (i = 0; i + n <= len; i++) if (memcmp(v + i, tok, n) == 0) return true;] *)
Fixpoint token_loop (v tok : list Z) (i : Z) (k : nat) : res bool :=
  match k with
  | O => Ret false
  | S k' =>
      let! e := mem_eq (padd v i) tok (zlen tok) in
      if e then Ret true else token_loop v tok (i + 1) k'
  end.

Definition metal_compress_accepted (v : list Z) (len : Z) : res bool :=
  if len =? 0 then Ret false
  else
    let tok1 := lit "picoweb-compress" in
    let tok2 := lit "BareMetal.Compress" in
    let! a := (if zlen tok1 <=? len then token_loop v tok1 0 (Z.to_nat (len - zlen tok1 + 1)) else Ret false) in
    if a then Ret true
    else if zlen tok2 <=? len then token_loop v tok2 0 (Z.to_nat (len - zlen tok2 + 1)) else Ret false.

(** [for (k++; k < len && isdigit(ae[k]); k++) if (ae[k] != '0') is_zero = false;] *)
Fixpoint zero_digits (ae : list Z) (len k : Z) (is_zero : bool) (fuel : nat) : res bool :=
  if k <? len then
    match fuel with
    | O => Oob
    | S fuel' =>
        let! c := rd ae k in
        if (0x30 <=? c) && (c <=? 0x39) then zero_digits ae len (k + 1) (is_zero && (c =? 0x30)) fuel' else Ret is_zero
    end
  else Ret is_zero.

(** [q=0] behind position [j]: the token is refused. *)
Definition q_is_zero (ae : list Z) (len j : Z) : res bool :=
  let n := Z.to_nat len in
  let! j := skip_while is_ows ae 0 j len n in
  let! semi := (if j <? len then let! c := rd ae j in Ret (c =? 0x3b) else Ret false) in
  if negb semi then Ret false
  else
    let! j := skip_while is_ows ae 0 (j + 1) len n in
    let! q := (if j + 1 <? len then let! c := rd ae j in if c =? 0x71 then let! c := rd ae (j + 1) in Ret (c =? 0x3d) else Ret false
               else Ret false) in
    if negb q then Ret false
    else
      let j := j + 2 in
      let! z := (if j <? len then let! c := rd ae j in Ret (c =? 0x30) else Ret false) in
      if negb z then Ret false
      else
        let k := j + 1 in
        let! dot := (if k <? len then let! c := rd ae k in Ret (c =? DOT) else Ret false) in
        if dot then zero_digits ae len (k + 1) true n else Ret true.

(** [true] when the neighbour at [i] is no token character. *)
Definition boundary (ae : list Z) (i : Z) (semi : bool) : res bool :=
  let! c := rd ae i in Ret (is_sep c || semi && (c =? 0x3b)).

Fixpoint br_loop (ae : list Z) (len i : Z) (k : nat) : res bool :=
  match k with
  | O => Ret false
  | S k' =>
      let! c := rd ae i in
      let! c' := (if c =? 0x62 then rd ae (i + 1) else Ret 0) in
      if negb ((c =? 0x62) && (c' =? 0x72)) then br_loop ae len (i + 1) k'
      else
        let! left_ok := orr (i <=? 0) (boundary ae (i - 1) false) in
        if negb left_ok then br_loop ae len (i + 1) k'
        else
          let! right_ok := orr (len <=? i + 2) (boundary ae (i + 2) true) in
          if negb right_ok then br_loop ae len (i + 1) k'
          else
            let! z := q_is_zero ae len (i + 2) in
            if z then br_loop ae len (i + 1) k' else Ret true
  end.

Definition brotli_accepted (ae : list Z) (len : Z) : res bool := br_loop ae len 0 (Z.to_nat (len - 1)).

(** ** Parser *)

(** The locals of the header loop. *)
Record hstate := mk_hs {
  hs_buf : list Z;
  hs_out : http_request_t;
  hs_host_seen : bool;
  hs_body_present : bool
}.

Definition parsed : Type := http_result_t * http_request_t * list Z.

(** Go on, or [return r]. *)
Inductive flow := Next (st : hstate) | Stop (r : parsed).

Definition ieq_lit (buf : list Z) (p : Z) (s : string) : res bool :=
  metal_ieq (padd buf p) (zlen (lit s)) (lit s) (zlen (lit s)).

Definition host_char (c : Z) : bool :=
  (0x61 <=? c) && (c <=? 0x7a) || (0x30 <=? c) && (c <=? 0x39) || (c =? DOT) || (c =? 0x2d).

(** Validate hostname charset. *)
Fixpoint host_loop (buf : list Z) (tval i : Z) (k : nat) : res bool :=
  match k with
  | O => Ret true
  | S k' => let! c := rd buf (tval + i) in if negb (host_char c) then Ret false else host_loop buf tval (i + 1) k'
  end.

Definition host_header (ar : arch) (st : hstate) (tval tl : Z) : res flow :=
  let st' := st {{ hs_host_seen := true }} in
  if hs_host_seen st then Ret (Stop (HTTP_ERR_400, hs_out st, hs_buf st))
  else
    let! colon2 := memchr (hs_buf st) tval COLON (Z.to_nat tl) in
    let hostlen := match colon2 with Some c => c - tval | None => tl end in
    if (hostlen =? 0) || (253 <? hostlen) then Ret (Stop (HTTP_ERR_400, hs_out st, hs_buf st))
    else
      let! buf := metal_lower_inplace ar (hs_buf st) tval hostlen in
      let! ok := host_loop buf tval 0 (Z.to_nat hostlen) in
      if negb ok then Ret (Stop (HTTP_ERR_400, hs_out st, buf))
      else Ret (Next (st' {{ hs_buf := buf; hs_out := (hs_out st) {{ rq_host := mk_span (Some tval) hostlen }} }})).

(** The tokens of the Connection header: is one of them "close"? *)
Fixpoint close_loop (buf : list Z) (tval tl k : Z) (fuel : nat) : res bool :=
  if k <? tl then
    match fuel with
    | O => Oob
    | S fuel' =>
        let! k := skip_while is_sep buf tval k tl (Z.to_nat tl) in
        let s := k in
        let! k := skip_while (fun c => negb (c =? COMMA)) buf tval k tl (Z.to_nat tl) in
        let! e := back_while is_ows buf tval s k (Z.to_nat tl) in
        let! close := (if e - s =? 5 then ieq_lit buf (tval + s) "close" else Ret false) in
        if close then Ret true else close_loop buf tval tl k fuel'
    end
  else Ret false.

(** Decimal digits of Content-Length; [inl] is an early return. *)
Fixpoint cl_loop (buf : list Z) (tval i : Z) (k : nat) (cl : Z) : res (http_result_t + Z) :=
  match k with
  | O => Ret (inr cl)
  | S k' =>
      let! c := rd buf (tval + i) in
      if (c <? 0x30) || (0x39 <? c) then Ret (inl HTTP_ERR_400)
      else
        let nd := c - 0x30 in
        if (UINT64_MAX - nd) / 10 <? cl then Ret (inl HTTP_ERR_413)
        else cl_loop buf tval (i + 1) k' (cl * 10 + nd)
  end.

Definition content_length_header (st : hstate) (tval tl : Z) : res flow :=
  let stop r := Ret (Stop (r, hs_out st, hs_buf st)) in
  if tl =? 0 then stop HTTP_ERR_400
  else
    let! r := cl_loop (hs_buf st) tval 0 (Z.to_nat tl) 0 in
    match r with
    | inl e => stop e
    | inr cl =>
        if hs_body_present st && negb (rq_content_length (hs_out st) =? cl) then stop HTTP_ERR_400
        else
          Ret (Next (st {{ hs_out := (hs_out st) {{ rq_content_length := cl }};
                           hs_body_present := if 0 <? cl then true else hs_body_present st }}))
    end.

(** [tl == 1 && tval[0] == '1'] *)
Definition is_one (buf : list Z) (tval tl : Z) : res bool :=
  if tl =? 1 then let! c := rd buf tval in Ret (c =? 0x31) else Ret false.

(** The [switch (name_len)]. *)
Definition header_step (ar : arch) (st : hstate) (p name_len tval tl : Z) : res flow :=
  let buf := hs_buf st in
  let out := hs_out st in
  let v := mk_span (Some tval) tl in
  let set o := Ret (Next (st {{ hs_out := o }})) in
  let pass := Ret (Next st) in
  let principal := set (set_principal_header out tval tl) in
  if name_len =? 4 then
    let! e := ieq_lit buf p "Host" in if e then host_header ar st tval tl else pass
  else if name_len =? 6 then
    let! e := ieq_lit buf p "Cookie" in if e then set (out {{ rq_cookie := v }}) else
    let! e := ieq_lit buf p "Origin" in if e then set (out {{ rq_origin := v }}) else pass
  else if name_len =? 9 then
    let! e := ieq_lit buf p "X-PW-Auth" in
    if e then let! one := is_one buf tval tl in if one then set (out {{ rq_pw_auth_header := true }}) else pass else pass
  else if name_len =? 11 then
    let! e := ieq_lit buf p "X-PW-Tenant" in if e then set (out {{ rq_pw_tenant := v }}) else pass
  else if name_len =? 10 then
    let! e := ieq_lit buf p "Connection" in
    if e then let! c := close_loop buf tval tl 0 (Z.to_nat tl) in if c then set (out {{ rq_client_close := true }}) else pass
    else pass
  else if name_len =? 13 then
    let! e := ieq_lit buf p "If-None-Match" in if e then set (out {{ rq_if_none_match := v }}) else pass
  else if name_len =? 14 then
    let! e := ieq_lit buf p "Content-Length" in if e then content_length_header st tval tl else
    let! e := ieq_lit buf p "X-PW-Principal" in if e then principal else
    let! e := ieq_lit buf p "X-Principal-Id" in if e then principal else pass
  else if name_len =? 16 then
    let! e := ieq_lit buf p "X-Forwarded-User" in if e then principal else
    let! e := ieq_lit buf p "X-PW-Write-Token" in if e then set (out {{ rq_write_token := v }}) else pass
  else if name_len =? 17 then
    let! e := ieq_lit buf p "Transfer-Encoding" in if e then Ret (Stop (HTTP_ERR_400, out, buf)) else
    let! e := ieq_lit buf p "X-Forwarded-Email" in if e then principal else pass
  else if name_len =? 18 then
    let! e := ieq_lit buf p "X-PW-Partition-Hop" in
    if e then let! one := is_one buf tval tl in if one then set (out {{ rq_pw_partition_hop := true }}) else pass else pass
  else if name_len =? 19 then
    let! e := ieq_lit buf p "X-Auth-Request-User" in if e then principal else
    let! e := metal_ieq (padd buf p) 19 (lit "X-PW-Partition-Hop" ++ [0]) 19 in
    if e then let! one := is_one buf tval tl in if one then set (out {{ rq_pw_partition_hop := true }}) else pass else pass
  else if name_len =? 20 then
    let! e := ieq_lit buf p "X-Auth-Request-Email" in if e then principal else pass
  else if name_len =? 15 then
    let! e := ieq_lit buf p "Accept-Encoding" in
    if e then
      let! pc := metal_compress_accepted (padd buf tval) tl in
      let! br := brotli_accepted (padd buf tval) tl in
      set (out {{ rq_accept_pc := if pc then true else rq_accept_pc out;
                  rq_accept_br := if br then true else rq_accept_br out }})
    else pass
  else if name_len =? 30 then
    let! e := ieq_lit buf p "Access-Control-Request-Headers" in if e then set (out {{ rq_acr_headers := v }}) else pass
  else if name_len =? 33 then
    let! e := ieq_lit buf p "X-Auth-Request-Preferred-Username" in if e then principal else pass
  else pass.

(** [while (p < hdr_end)]; a header line has at least two bytes. *)
Fixpoint header_loop (ar : arch) (fuel : nat) (st : hstate) (p hdr_end : Z) : res flow :=
  if p <? hdr_end then
    match fuel with
    | O => Oob
    | S fuel' =>
        let buf := hs_buf st in
        let bad := Ret (Stop (HTTP_ERR_400, hs_out st, buf)) in
        let! eol := memchr buf p CR (Z.to_nat (hdr_end - p)) in
        match eol with
        | None => bad
        | Some eol =>
            let! c := rd buf (eol + 1) in
            if negb (c =? LF) then bad
            else
              let hl := eol - p in
              let! colon := memchr buf p COLON (Z.to_nat hl) in
              match colon with
              | None => bad
              | Some colon =>
                  let name_len := colon - p in
                  let val_len := hl - name_len - 1 in
                  let! (tval, tl) := trim_ows buf (colon + 1) val_len in
                  let! f := header_step ar st p name_len tval tl in
                  match f with
                  | Stop r => Ret (Stop r)
                  | Next st' => header_loop ar fuel' st' (eol + 2) hdr_end
                  end
              end
        end
    end
  else Ret (Next st).

(** The request line; [inl] is an early return, [inr] the struct and the offset
    of the first header. *)
Definition request_line (buf : list Z) (headers_len : Z) (out : http_request_t)
    : res (http_result_t * http_request_t + http_request_t * Z) :=
  let err r := Ret (inl (r, out)) in
  let! line_end := memchr buf 0 CR (Z.to_nat headers_len) in
  match line_end with
  | None => err HTTP_ERR_400
  | Some line_end =>
      let! c := rd buf (line_end + 1) in
      if negb (c =? LF) then err HTTP_ERR_400
      else
        let line_len := line_end in
        if (line_len =? 0) || (MAX_URI_LEN + 32 <? line_len) then err HTTP_ERR_414
        else
          let! sp1 := memchr buf 0 SP (Z.to_nat line_len) in
          match sp1 with
          | None => err HTTP_ERR_400
          | Some method_len =>
              let path_start := method_len + 1 in
              let! sp2 := memchr buf path_start SP (Z.to_nat (line_len - method_len - 1)) in
              match sp2 with
              | None => err HTTP_ERR_400
              | Some sp2 =>
                  let path_len := sp2 - path_start in
                  let version_len := line_len - method_len - 1 - path_len - 1 in
                  let! v11 := is_lit (padd buf (sp2 + 1)) version_len "HTTP/1.1" in
                  if negb v11 then err HTTP_ERR_505
                  else
                    let! m := classify_method buf method_len in
                    let out := out {{ rq_method := m }} in
                    let err r := Ret (inl (r, out)) in
                    if decide (m = M_UNKNOWN) then err HTTP_ERR_405
                    else
                      let! safe := path_is_safe (padd buf path_start) path_len in
                      if negb safe then err (if MAX_URI_LEN <? path_len then HTTP_ERR_414 else HTTP_ERR_400)
                      else
                        let! q := memchr buf path_start QMARK (Z.to_nat path_len) in
                        let path_len := match q with Some q => q - path_start | None => path_len end in
                        Ret (inr (out {{ rq_path := mk_span (Some path_start) path_len }}, line_end + 2))
              end
          end
  end.

Definition http_parse (ar : arch) (buf : list Z) (buf_len : Z) : res parsed :=
  let out := zero_req in
  if buf_len <? 4 then Ret (HTTP_NEED_MORE, out, buf)
  else
    let! e := memmem buf [CR; LF; CR; LF] 0 (Z.to_nat (buf_len - 3)) in
    match e with
    | None => Ret (if 8192 <=? buf_len then HTTP_ERR_413 else HTTP_NEED_MORE, out, buf)
    | Some e =>
        let headers_len := e + 4 in
        let out := out {{ rq_consumed := headers_len; rq_has_leftover := headers_len <? buf_len }} in
        let! r := request_line buf headers_len out in
        match r with
        | inl (r, out) => Ret (r, out, buf)
        | inr (out, p) =>
            let hdr_end := e + 2 in
            let! f := header_loop ar (Z.to_nat (hdr_end - p)) (mk_hs buf out false false) p hdr_end in
            match f with
            | Stop r => Ret r
            | Next st =>
                if negb (hs_host_seen st) then Ret (HTTP_ERR_409, hs_out st, hs_buf st)
                else
                  let out := hs_out st in
                  Ret (HTTP_OK, if hs_body_present st then out {{ rq_client_close := true }} else out, hs_buf st)
            end
        end
    end.

(** ** Response selection *)

(** The bytes a pointer of the request points to. *)
Definition at_span (buf : list Z) (s : span) : list Z := match sp_off s with Some o => padd buf o | None => [] end.

(** The resource, [*out_close_after] and [*out_head_only].  For HTTP_NEED_MORE
    the C function falls through to the lookup like HTTP_OK. *)
Definition http_select {R} (ar : arch) (jt : jumptable_t R) (pr : http_result_t) (buf : list Z) (req : http_request_t)
    : res (R * bool * bool) :=
  match pr with
  | HTTP_ERR_400 => Ret (jt_err_400 jt, true, false)
  | HTTP_ERR_409 => Ret (jt_err_409 jt, true, false)
  | HTTP_ERR_413 => Ret (jt_err_413 jt, true, false)
  | HTTP_ERR_414 => Ret (jt_err_414 jt, true, false)
  | HTTP_ERR_505 => Ret (jt_err_505 jt, true, false)
  | HTTP_ERR_405 => Ret (jt_err_405 jt, true, false)
  | HTTP_OK | HTTP_NEED_MORE =>
      let close_after := rq_client_close req in
      match rq_method req with
      | M_POST | M_PUT | M_DELETE | M_OPTIONS => Ret (jt_err_405 jt, close_after, false)
      | M_UNKNOWN => Ret (jt_err_405 jt, true, false)
      | M_GET | M_HEAD =>
          let head_only := bool_decide (rq_method req = M_HEAD) in
          let host := at_span buf (rq_host req) in
          let host_len := sp_len (rq_host req) in
          let! r := jumptable_lookup ar jt host host_len (at_span buf (rq_path req)) (sp_len (rq_path req)) in
          match r with
          | Some r => Ret (r, close_after, head_only)
          | None =>
              let! known := jumptable_host_exists jt host host_len in
              if negb known then Ret (jt_err_409 jt, true, head_only) else Ret (jt_err_404 jt, close_after, head_only)
          end
      end
  end.

(** ** ETag matching *)

Fixpoint strlen (p : list Z) (n : Z) (fuel : nat) : res Z :=
  match fuel with
  | O => Oob
  | S fuel' => let! c := rd p n in if c =? 0 then Ret n else strlen p (n + 1) fuel'
  end.

Definition not_comma (c : Z) : bool := negb (c =? COMMA).
Definition not_quote (c : Z) : bool := negb (c =? QUOTE).

(** The tag list, from [i]: every round moves [i] forward. *)
Fixpoint etag_loop (inm : list Z) (inm_len : Z) (our : list Z) (our_len i : Z) (fuel : nat) : res bool :=
  if i <? inm_len then
    match fuel with
    | O => Oob
    | S fuel' =>
        let n := Z.to_nat inm_len in
        let! i := skip_while is_sep inm 0 i inm_len n in
        if inm_len <=? i then Ret false
        else
          let tag_start := i in
          let! weak := (if i + 2 <=? inm_len then
                          let! c := rd inm i in
                          if c =? 0x57 then let! c := rd inm (i + 1) in Ret (c =? SLASH) else Ret false
                        else Ret false) in
          let i := if weak then i + 2 else i in
          let tag_off := if weak then 2 else 0 in
          let! quoted := (if inm_len <=? i then Ret false else let! c := rd inm i in Ret (c =? QUOTE)) in
          if negb quoted then
            let! i := skip_while not_comma inm 0 i inm_len n in
            etag_loop inm inm_len our our_len i fuel'
          else
            let! i := skip_while not_quote inm 0 (i + 1) inm_len n in
            let i := if i <? inm_len then i + 1 else i in
            let cmp := tag_start + tag_off in
            let! e := (if i - cmp =? our_len then mem_eq (padd inm cmp) our our_len else Ret false) in
            if e then Ret true else etag_loop inm inm_len our our_len i fuel'
    end
  else Ret false.

Definition etag_matches (inm : option (list Z)) (inm_len : Z) (etag : list Z) : res bool :=
  match inm with
  | None => Ret false
  | Some inm =>
      if inm_len =? 0 then Ret false
      else
        let! e0 := rd etag 0 in
        if e0 =? 0 then Ret false
        else
          let! star := (if inm_len =? 1 then let! c := rd inm 0 in Ret (c =? 0x2a) else Ret false) in
          if star then Ret true
          else
            let! our_len := strlen etag 0 (length etag) in
            let! weak := (if (2 <=? our_len) && (e0 =? 0x57) then let! c := rd etag 1 in Ret (c =? SLASH) else Ret false) in
            let our := if weak then padd etag 2 else etag in
            let our_len := if weak then our_len - 2 else our_len in
            etag_loop inm inm_len our our_len 0 (Z.to_nat inm_len)
  end.

(** Runs of the parser. *)
Definition crlf : list Z := [CR; LF].
Definition demo_request : list Z :=
  lit "GET /a?x=1 HTTP/1.1" ++ crlf ++ lit "HOST: Example.COM:80" ++ crlf ++ lit "Accept-Encoding: gzip, br;q=0.5" ++ crlf ++
  lit "Connection: keep-alive, Close" ++ crlf ++ crlf ++ lit "GET".
