(* ===== verification/HttpSpec.v ===== *)
(** * A reference definition of HTTP request parsing

    What [Http.http_parse] computes, as pure functions on byte strings: no
    offsets, no in-place update, no loops over indices.  The header section is
    cut into lines, lines into names and values, and every header is a function
    of its value.  [HttpProps.v] proves that the parser refines this definition;
    the facts about accepted requests are proved here. *)

From Stdlib Require Import ZArith Lia String.
From stdpp Require Import list numbers option.
From coqutil Require Import Datatypes.RecordSetters.
Import DoubleBraceUpdate.
From S2P Require Import Prelude Util Jumptable Http.

(** ** Byte strings *)

(** Split at the first [c]. *)
Fixpoint cut (c : Z) (l : list Z) : option (list Z * list Z) :=
  match l with
  | [] => None
  | b :: l' => if b =? c then Some ([], l') else match cut c l' with Some (x, y) => Some (b :: x, y) | None => None end
  end.

(** What comes before the first [c], everything if there is none. *)
Definition upto (c : Z) (l : list Z) : list Z := match cut c l with Some (x, _) => x | None => l end.

Fixpoint split_on (c : Z) (l : list Z) : list (list Z) :=
  match l with
  | [] => [[]]
  | b :: l' =>
      if b =? c then [] :: split_on c l'
      else match split_on c l' with x :: xs => (b :: x) :: xs | [] => [[b]] end
  end.

Fixpoint drop_while (f : Z -> bool) (l : list Z) : list Z :=
  match l with
  | [] => []
  | b :: l' => if f b then drop_while f l' else l
  end.

Fixpoint take_while (f : Z -> bool) (l : list Z) : list Z :=
  match l with
  | [] => []
  | b :: l' => if f b then b :: take_while f l' else []
  end.

Definition trim_right (f : Z -> bool) (l : list Z) : list Z := rev (drop_while f (rev l)).
Definition trim (l : list Z) : list Z := trim_right is_ows (drop_while is_ows l).

Definition has_prefix (tok l : list Z) : bool := bool_decide (take (length tok) l = tok).

Fixpoint contains (tok l : list Z) : bool :=
  has_prefix tok l || match l with [] => false | _ :: l' => contains tok l' end.

(** The bytes in front of the first empty line. *)
Fixpoint head_of (l : list Z) : option (list Z) :=
  if has_prefix [CR; LF; CR; LF] l then Some []
  else match l with [] => None | b :: l' => match head_of l' with Some h => Some (b :: h) | None => None end end.

(** ** Header values *)

Definition is_digit (c : Z) : bool := (0x30 <=? c) && (c <=? 0x39).

(** The value after ";q=0", as far as it makes the quality zero. *)
Definition q_zero (l : list Z) : bool :=
  match drop_while is_ows l with
  | c :: l' =>
      (c =? 0x3b) &&
      match drop_while is_ows l' with
      | q :: e :: z :: l'' =>
          (q =? 0x71) && (e =? 0x3d) && (z =? 0x30) &&
          match l'' with d :: ds => negb (d =? DOT) || forallb (Z.eqb 0x30) (take_while is_digit ds) | [] => true end
      | _ => false
      end
  | [] => false
  end.

(** Is "br" a token of the list, not disabled by q=0?  [prev] is the byte in front. *)
Fixpoint accepts_br (prev : option Z) (l : list Z) : bool :=
  match l with
  | [] => false
  | b :: l' =>
      (b =? 0x62) &&
      match l' with
      | r :: l'' =>
          (r =? 0x72) && match prev with Some c => is_sep c | None => true end &&
          match l'' with c :: _ => is_sep c || (c =? 0x3b) | [] => true end && negb (q_zero l'')
      | [] => false
      end
      || accepts_br (Some b) l'
  end.

Definition accepts_pc (l : list Z) : bool := contains (lit "picoweb-compress") l || contains (lit "BareMetal.Compress") l.

Definition closes (v : list Z) : bool := existsb (fun t => same_name (trim t) (lit "close")) (split_on COMMA v).

Fixpoint decimal (acc : Z) (l : list Z) : http_result_t + Z :=
  match l with
  | [] => inr acc
  | c :: l' =>
      if negb (is_digit c) then inl HTTP_ERR_400
      else
        let acc := acc * 10 + (c - 0x30) in
        if 2 ^ 64 <=? acc then inl HTTP_ERR_413 else decimal acc l'
  end.

(** ** Requests *)

(** The contents of an [http_request_t]. *)
Record areq := mk_areq {
  aq_method : http_method_t;
  aq_host : option (list Z);
  aq_path : option (list Z);
  aq_client_close : bool;
  aq_accept_pc : bool;
  aq_accept_br : bool;
  aq_has_leftover : bool;
  aq_consumed : Z;
  aq_if_none_match : option (list Z);
  aq_cookie : option (list Z);
  aq_pw_auth_header : bool;
  aq_write_token : option (list Z);
  aq_origin : option (list Z);
  aq_acr_headers : option (list Z);
  aq_pw_principal : option (list Z);
  aq_pw_tenant : option (list Z);
  aq_pw_partition_hop : bool;
  aq_content_length : Z
}.

(** The request line. *)
Definition spec_method (m : list Z) : http_method_t :=
  if decide (m = lit "GET") then M_GET
  else if decide (m = lit "HEAD") then M_HEAD
  else if decide (m = lit "POST") then M_POST
  else if decide (m = lit "PUT") then M_PUT
  else if decide (m = lit "DELETE") then M_DELETE
  else if decide (m = lit "OPTIONS") then M_OPTIONS
  else M_UNKNOWN.

Definition is_ctl (c : Z) : bool := (c <? 0x20) || (c =? 0x7f).

(** A target that may be routed: absolute, bounded, no control characters and
    no ".." segment. *)
Definition safe_target (t : list Z) : bool :=
  match t with c :: _ => c =? SLASH | [] => false end && (zlen t <=? MAX_URI_LEN) && negb (existsb is_ctl t) &&
  bool_decide (lit ".." ∉ split_on SLASH t).

Definition spec_line (line : list Z) : http_result_t + http_method_t * list Z :=
  if (zlen line =? 0) || (MAX_URI_LEN + 32 <? zlen line) then inl HTTP_ERR_414
  else match cut SP line with
  | None => inl HTTP_ERR_400
  | Some (m, rest) =>
      match cut SP rest with
      | None => inl HTTP_ERR_400
      | Some (target, version) =>
          if negb (bool_decide (version = lit "HTTP/1.1")) then inl HTTP_ERR_505
          else if decide (spec_method m = M_UNKNOWN) then inl HTTP_ERR_405
          else if negb (safe_target target) then inl (if MAX_URI_LEN <? zlen target then HTTP_ERR_414 else HTTP_ERR_400)
          else inr (spec_method m, upto QMARK target)
      end
  end.

(** The state of the header fold: the request, and whether a Host and a
    non-zero Content-Length have been seen. *)
Definition astate : Type := areq * bool * bool.

Definition spec_host (v : list Z) : option (list Z) :=
  let h := map to_lower (upto COLON v) in
  if (zlen h =? 0) || (253 <? zlen h) then None else if forallb host_char h then Some h else None.

Definition first_principal (a : areq) (v : list Z) : areq :=
  match aq_pw_principal a with
  | None => if 0 <? zlen v then a {{ aq_pw_principal := Some v }} else a
  | Some _ => a
  end.

Definition is_name (name : list Z) (s : string) : bool := same_name name (lit s).

Definition spec_header (st : astate) (name v : list Z) : http_result_t + astate :=
  let '(a, seen, body) := st in
  let set a := inr (a, seen, body) in
  let one := bool_decide (v = lit "1") in
  if is_name name "Host" then
    if seen then inl HTTP_ERR_400
    else match spec_host v with None => inl HTTP_ERR_400 | Some h => inr (a {{ aq_host := Some h }}, true, body) end
  else if is_name name "Cookie" then set (a {{ aq_cookie := Some v }})
  else if is_name name "Origin" then set (a {{ aq_origin := Some v }})
  else if is_name name "X-PW-Auth" then if one then set (a {{ aq_pw_auth_header := true }}) else set a
  else if is_name name "X-PW-Tenant" then set (a {{ aq_pw_tenant := Some v }})
  else if is_name name "Connection" then if closes v then set (a {{ aq_client_close := true }}) else set a
  else if is_name name "If-None-Match" then set (a {{ aq_if_none_match := Some v }})
  else if is_name name "Content-Length" then
    if zlen v =? 0 then inl HTTP_ERR_400
    else match decimal 0 v with
    | inl e => inl e
    | inr n =>
        if body && negb (aq_content_length a =? n) then inl HTTP_ERR_400
        else inr (a {{ aq_content_length := n }}, seen, if 0 <? n then true else body)
    end
  else if is_name name "X-PW-Principal" || is_name name "X-Principal-Id" || is_name name "X-Forwarded-User" || is_name name "X-Forwarded-Email" ||
          is_name name "X-Auth-Request-User" || is_name name "X-Auth-Request-Email" || is_name name "X-Auth-Request-Preferred-Username"
       then set (first_principal a v)
  else if is_name name "X-PW-Write-Token" then set (a {{ aq_write_token := Some v }})
  else if is_name name "Transfer-Encoding" then inl HTTP_ERR_400
  else if is_name name "X-PW-Partition-Hop" || same_name name (lit "X-PW-Partition-Hop" ++ [0])
       then if one then set (a {{ aq_pw_partition_hop := true }}) else set a
  else if is_name name "Accept-Encoding" then
    set (a {{ aq_accept_pc := accepts_pc v || aq_accept_pc a; aq_accept_br := accepts_br None v || aq_accept_br a }})
  else if is_name name "Access-Control-Request-Headers" then set (a {{ aq_acr_headers := Some v }})
  else set a.

(** The header lines, each ended by CR LF; a line shortens the block. *)
Fixpoint spec_headers (fuel : nat) (st : astate) (block : list Z) : http_result_t + astate :=
  match block, fuel with
  | [], _ => inr st
  | _, O => inl HTTP_ERR_400
  | _, S fuel' =>
      match cut CR block with
      | Some (line, lf :: rest) =>
          if negb (lf =? LF) then inl HTTP_ERR_400
          else match cut COLON line with
          | None => inl HTTP_ERR_400
          | Some (name, v) =>
              match spec_header st name (trim v) with
              | inl e => inl e
              | inr st' => spec_headers fuel' st' rest
              end
          end
      | _ => inl HTTP_ERR_400
      end
  end.

Definition zero_areq : areq :=
  mk_areq M_GET None None false false false false 0 None None false None None None None None false 0.

(** The request after the request line, with the header section of [n] bytes
    out of [total] received. *)
Definition start_req (m : http_method_t) (path : list Z) (n total : Z) : areq :=
  zero_areq {{ aq_method := m; aq_path := Some path; aq_consumed := n; aq_has_leftover := n <? total }}.

(** A request, from the bytes received so far. *)
Definition spec_parse (l : list Z) : http_result_t + areq :=
  if zlen l <? 4 then inl HTTP_NEED_MORE
  else match head_of l with
  | None => inl (if 8192 <=? zlen l then HTTP_ERR_413 else HTTP_NEED_MORE)
  | Some h =>
      match cut CR (h ++ [CR; LF]) with
      | Some (line, lf :: block) =>
          if negb (lf =? LF) then inl HTTP_ERR_400
          else match spec_line line with
          | inl e => inl e
          | inr (m, path) =>
              match spec_headers (length block) (start_req m path (zlen h + 4) (zlen l), false, false) block with
              | inl e => inl e
              | inr (a, seen, body) =>
                  if negb seen then inl HTTP_ERR_409
                  else inr (if body then a {{ aq_client_close := true }} else a)
              end
          end
      | _ => inl HTTP_ERR_400
      end
  end.
