(* ===== verification/HttpProps.v ===== *)
(** * The HTTP parser refines its reference definition

    Every scan of [Http.v] over a region of the buffer is a list function of the
    bytes of the region ([HttpSpec.v]); the header loop keeps the pointers it
    has stored valid although it lower-cases the Host value in place; and
    [http_parse] as a whole is total, stays in bounds and computes
    [spec_parse].  With the routing table this gives the response of the server
    as a function of the bytes received. *)

From Stdlib Require Import ZArith Lia String.
From stdpp Require Import list numbers option gmap.
From coqutil Require Import Datatypes.RecordSetters.
Import DoubleBraceUpdate.
From S2P Require Import Prelude Util Jumptable Http HttpSpec.

(** ** Scans *)

Lemma rd_mid pre b post : rd (pre ++ b :: post) (zlen pre) = Ret b.
Proof. rewrite rd_app_r by lia. rewrite Z.sub_diag. apply rd_cons_0. Qed.

Lemma rd_behind pre l b post n : n = zlen pre + zlen l -> rd (pre ++ l ++ b :: post) n = Ret b.
Proof. intros ->. rewrite app_assoc, <- zlen_app. apply rd_mid. Qed.

Lemma app_shift {A} (pre : list A) b l : pre ++ b :: l = (pre ++ [b]) ++ l.
Proof. by rewrite <- app_assoc. Qed.

Lemma zlen_snoc pre (b : Z) : zlen (pre ++ [b]) = zlen pre + 1.
Proof. by rewrite zlen_app. Qed.

Lemma memchr_cut pre l post c :
  memchr (pre ++ l ++ post) (zlen pre) c (length l) =
  Ret (match cut c l with Some (x, _) => Some (zlen pre + zlen x) | None => None end).
Proof.
  revert pre. induction l as [|b l IH]; intros pre; [done|]. cbn [length memchr cut app].
  rewrite rd_mid. cbn [rbind]. destruct (b =? c); [by rewrite zlen_nil, Z.add_0_r|].
  rewrite app_shift, <- (zlen_snoc pre b), IH. rewrite zlen_snoc. destruct (cut c l) as [[x y]|]; [|done].
  rewrite zlen_cons. do 2 f_equal. lia.
Qed.

Lemma cut_some c l x y : cut c l = Some (x, y) -> l = x ++ c :: y /\ Forall (fun b => b <> c) x.
Proof.
  revert x y. induction l as [|b l IH]; intros x y; [done|]. cbn [cut]. destruct (Z.eqb_spec b c) as [->|Hne].
  - intros [= <- <-]. split; [done|constructor].
  - destruct (cut c l) as [[x' y']|] eqn:E; [|done]. intros [= <- <-]. destruct (IH x' y' eq_refl) as [-> Hx].
    split; [done|by constructor].
Qed.

Lemma cut_none c l : cut c l = None -> Forall (fun b => b <> c) l.
Proof.
  induction l as [|b l IH]; [constructor|]. cbn [cut]. destruct (Z.eqb_spec b c); [done|].
  destruct (cut c l) as [[]|]; [done|]. intros _. constructor; auto.
Qed.

Lemma cut_app c x y : Forall (fun b => b <> c) x -> cut c (x ++ c :: y) = Some (x, y).
Proof.
  induction 1 as [|b x Hb Hx IH]; cbn [app cut]; [by rewrite Z.eqb_refl|].
  destruct (Z.eqb_spec b c); [done|]. by rewrite IH.
Qed.

Lemma has_prefix_app tok post : has_prefix tok (tok ++ post) = true.
Proof. unfold has_prefix. by rewrite take_app_length, bool_decide_eq_true_2. Qed.

Lemma has_prefix_true tok l : has_prefix tok l = true -> exists post, l = tok ++ post.
Proof.
  unfold has_prefix. rewrite bool_decide_eq_true. intros E. exists (drop (length tok) l).
  rewrite <- E at 1. by rewrite take_drop.
Qed.

(** Comparing [tok] with the bytes at an offset. *)
Lemma mem_eq_prefix pre l post tok :
  (length tok <= length l)%nat ->
  mem_eq (padd (pre ++ l ++ post) (zlen pre)) tok (zlen tok) = Ret (has_prefix tok l).
Proof.
  intros Hl. rewrite padd_app by done.
  rewrite mem_eq_ok by (rewrite ?zlen_app; pose proof (zlen_nonneg post); unfold zlen in *; lia).
  f_equal. unfold has_prefix. rewrite (ztake_all tok) by lia. unfold ztake, zlen. rewrite Nat2Z.id.
  by rewrite take_app_le by done.
Qed.

Lemma short_no_prefix tok l : (length l < length tok)%nat -> has_prefix tok l = false.
Proof.
  intros Hl. apply bool_decide_eq_false_2. intros E%(f_equal length). rewrite length_take in E. lia.
Qed.

Lemma head_of_short l : (length l < 4)%nat -> head_of l = None.
Proof.
  induction l as [|b l IH]; intros Hl; [done|]. cbn [head_of]. rewrite short_no_prefix by done.
  cbn [length] in Hl. by rewrite IH by lia.
Qed.

Lemma memmem_head pre l post :
  memmem (pre ++ l ++ post) [CR; LF; CR; LF] (zlen pre) (length l - 3) =
  Ret (match head_of l with Some h => Some (zlen pre + zlen h) | None => None end).
Proof.
  revert pre. induction l as [|b l IH]; intros pre; [done|].
  destruct (decide (length (b :: l) < 4)%nat) as [Hs|Hs].
  { rewrite head_of_short by done. by replace (length (b :: l) - 3)%nat with 0%nat by lia. }
  replace (length (b :: l) - 3)%nat with (S (length l - 3)) by (cbn [length] in *; lia). cbn [memmem].
  rewrite mem_eq_prefix by (cbn [length] in *; lia). cbn [rbind].
  cbn [head_of]. destruct (has_prefix _ (b :: l)); [by rewrite zlen_nil, Z.add_0_r|].
  rewrite <- app_comm_cons, app_shift, <- (zlen_snoc pre b), IH, zlen_snoc. destruct (head_of l) as [h|]; [|done].
  rewrite zlen_cons. do 2 f_equal. lia.
Qed.

Lemma head_of_some l h : head_of l = Some h -> exists rest, l = h ++ [CR; LF; CR; LF] ++ rest.
Proof.
  revert h. induction l as [|b l IH]; intros h; cbn [head_of]; [by rewrite short_no_prefix by (cbn; lia)|].
  destruct (has_prefix _ (b :: l)) eqn:E.
  - intros [= <-]. by apply has_prefix_true in E.
  - destruct (head_of l) as [h'|]; [|done]. intros [= <-]. destruct (IH h' eq_refl) as [rest ->]. by exists rest.
Qed.

Lemma skip_while_drop f pre l1 l2 post fuel k n :
  (length l2 <= fuel)%nat -> k = zlen l1 -> n = zlen (l1 ++ l2) ->
  skip_while f (pre ++ (l1 ++ l2) ++ post) (zlen pre) k n fuel = Ret (n - zlen (drop_while f l2)).
Proof.
  revert l1 k n fuel. induction l2 as [|b l2 IH]; intros l1 k n fuel Hf -> ->.
  { rewrite app_nil_r. cbn [drop_while]. rewrite zlen_nil, Z.sub_0_r.
    destruct fuel; cbn [skip_while]; by rewrite Z.ltb_irrefl. }
  destruct fuel as [|fuel]; [cbn in Hf; lia|]. cbn [skip_while].
  pose proof (zlen_nonneg l2). rewrite zlen_app, zlen_cons. replace (_ <? _) with true by lia.
  rewrite <- app_assoc. cbn [app]. rewrite rd_behind by done. cbn [rbind drop_while].
  destruct (f b); [|rewrite zlen_cons; f_equal; lia].
  cbn [length] in Hf. rewrite app_shift. rewrite (app_assoc (l1 ++ [b])). apply IH; [lia|autorewrite with pico; lia..].
Qed.

Lemma drop_while_suffix f l : exists a, l = a ++ drop_while f l.
Proof.
  induction l as [|b l [a IH]]; [by exists []|]. cbn [drop_while]. destruct (f b); [|by exists []].
  exists (b :: a). cbn. by f_equal.
Qed.

Lemma trim_right_prefix f l : exists b, l = trim_right f l ++ b.
Proof.
  unfold trim_right. destruct (drop_while_suffix f (rev l)) as [a E]. exists (rev a).
  rewrite <- rev_app_distr, <- E. by rewrite rev_involutive.
Qed.

Lemma back_while_trim f pre l1 l2 post fuel s e :
  (length l2 <= fuel)%nat -> s = zlen l1 -> e = zlen (l1 ++ l2) ->
  back_while f (pre ++ (l1 ++ l2) ++ post) (zlen pre) s e fuel = Ret (s + zlen (trim_right f l2)).
Proof.
  revert post fuel e. induction l2 as [|b l2 IH] using rev_ind; intros post fuel e Hf -> ->.
  { rewrite app_nil_r. change (trim_right f []) with (@nil Z). rewrite zlen_nil, Z.add_0_r. destruct fuel; cbn [back_while]; by rewrite Z.ltb_irrefl. }
  rewrite length_app in Hf. cbn in Hf. destruct fuel as [|fuel]; [lia|]. cbn [back_while].
  pose proof (zlen_nonneg l2). rewrite !zlen_app. change (zlen [b]) with 1. replace (_ <? _) with true by lia.
  rewrite <- !app_assoc. cbn [app]. rewrite (app_assoc l1), rd_behind by (rewrite zlen_app; lia). cbn [rbind].
  unfold trim_right. rewrite rev_app_distr. cbn [rev app drop_while]. destruct (f b).
  - rewrite IH; [done|lia|done|]. rewrite zlen_app. lia.
  - f_equal. cbn [rev]. rewrite rev_involutive, zlen_app. change (zlen [b]) with 1. lia.
Qed.

Lemma trim_ows_ok pre v post :
  exists a b, v = a ++ trim v ++ b /\ trim_ows (pre ++ v ++ post) (zlen pre) (zlen v) = Ret (zlen pre + zlen a, zlen (trim v)).
Proof.
  destruct (drop_while_suffix is_ows v) as [a Ea]. destruct (trim_right_prefix is_ows (drop_while is_ows v)) as [b Eb].
  exists a, b. split; [by rewrite Ea at 1; rewrite Eb at 1|]. unfold trim_ows.
  rewrite (skip_while_drop is_ows pre [] v post) by (done || unfold zlen; lia). cbn [rbind].
  replace (zlen v - zlen (drop_while is_ows v)) with (zlen a) by (rewrite Ea at 1; rewrite zlen_app; lia).
  rewrite Ea at 1 2. rewrite back_while_trim; [|rewrite Ea at 2; unfold zlen; rewrite length_app; lia|done|done].
  cbn [rbind]. f_equal. f_equal. unfold trim. lia.
Qed.

(** ** The request line *)

Lemma is_lit_ok l post s : is_lit (l ++ post) (zlen l) s = Ret (bool_decide (l = lit s)).
Proof.
  unfold is_lit. destruct (Z.eqb_spec (zlen l) (zlen (lit s))) as [E|E]; cbn [negb].
  - rewrite mem_eq_ok by (rewrite ?zlen_app; pose proof (zlen_nonneg post); lia). f_equal.
    rewrite (ztake_all (lit s)) by lia. by rewrite ztake_app by done.
  - rewrite bool_decide_eq_false_2; [done|]. by intros ->.
Qed.

Lemma classify_method_ok l post : classify_method (l ++ post) (zlen l) = Ret (spec_method l).
Proof.
  unfold classify_method, spec_method. rewrite !is_lit_ok. cbn [rbind].
  repeat (case_decide; [by rewrite bool_decide_eq_true_2|rewrite bool_decide_eq_false_2 by done; cbn [rbind]]). done.
Qed.

Lemma no_ctl_ok a l post :
  no_ctl_loop (a ++ l ++ post) (zlen a) (length l) = Ret (negb (existsb is_ctl l)).
Proof.
  revert a. induction l as [|b l IH]; intros a; [done|]. cbn [length no_ctl_loop existsb app].
  rewrite rd_mid. cbn [rbind]. unfold is_ctl at 1. destruct ((b <? 32) || (b =? 127)); [done|]. cbn [orb].
  by rewrite app_shift, <- (zlen_snoc a b), IH.
Qed.

(** A ".." segment at the front of [l], or after a slash in it. *)
Fixpoint dotdot (at_start : bool) (l : list Z) : bool :=
  match l with
  | [] => false
  | c :: l' =>
      at_start && (c =? DOT) &&
      match l' with d :: l'' => (d =? DOT) && match l'' with e :: _ => e =? SLASH | [] => true end | [] => false end
      || dotdot (c =? SLASH) l'
  end.

Lemma no_dotdot_ok a l post :
  no_dotdot_loop (a ++ l ++ post) (zlen (a ++ l)) (zlen a) (length l - 1) =
  Ret (negb (dotdot (match last a with Some c => c =? SLASH | None => true end) l)).
Proof.
  revert a. induction l as [|c l IH]; intros a; [done|]. set (start := match last a with Some c => _ | None => _ end).
  destruct l as [|d l]; [cbn; by rewrite andb_false_r|].
  replace (length (c :: d :: l) - 1)%nat with (S (length (d :: l) - 1)) by (cbn; lia).
  cbn [no_dotdot_loop]. cbn [app]. rewrite rd_mid. cbn [rbind].
  assert (Hnext : no_dotdot_loop (a ++ c :: d :: l ++ post) (zlen (a ++ c :: d :: l)) (zlen a + 1) (length (d :: l) - 1) =
    Ret (negb (dotdot (c =? SLASH) (d :: l)))).
  { rewrite <- (zlen_snoc a c), (app_shift a c (d :: l ++ post)), (app_shift a c (d :: l)), app_comm_cons, IH. by rewrite last_snoc. }
  assert (Hd : rd (a ++ c :: d :: l ++ post) (zlen a + 1) = Ret d).
  { rewrite (app_shift a c), <- (zlen_snoc a c). apply rd_mid. }
  assert (Hl : orr (zlen a =? 0) (let! c := rd (a ++ c :: d :: l ++ post) (zlen a - 1) in Ret (c =? SLASH)) = Ret start).
  { unfold start. destruct a as [|b a _] using rev_ind; [done|]. rewrite zlen_snoc, last_snoc, <- app_assoc.
    pose proof (zlen_nonneg a). replace (zlen a + 1 =? 0) with false by lia. replace (zlen a + 1 - 1) with (zlen a) by lia.
    cbn [orr app]. by rewrite rd_mid. }
  assert (Hr : orr (zlen a + 2 =? zlen (a ++ c :: d :: l)) (let! c := rd (a ++ c :: d :: l ++ post) (zlen a + 2) in Ret (c =? SLASH)) =
    Ret (match l with e :: _ => e =? SLASH | [] => true end)).
  { autorewrite with pico. destruct l as [|e l]; [by replace (_ =? _) with true by (autorewrite with pico; lia)|].
    pose proof (zlen_nonneg l). rewrite zlen_cons. replace (_ =? _) with false by lia. cbn [orr app].
    change (a ++ c :: d :: e :: l ++ post) with (a ++ [c; d] ++ e :: l ++ post). by rewrite rd_behind. }
  cbn [dotdot]. cbn [dotdot] in Hnext. rewrite Hl. cbn [rbind].
  destruct (c =? DOT) eqn:Ec; [|by rewrite andb_false_r]. rewrite Hd. cbn [rbind andb]. rewrite andb_true_r.
  destruct (d =? DOT) eqn:Ed; cbn [andb]; [|by rewrite andb_false_r].
  rewrite Hr. cbn [rbind]. destruct (start && _); [done|]. exact Hnext.
Qed.

Lemma split_on_cons c l : exists x xs, split_on c l = x :: xs.
Proof.
  destruct l as [|b l]; [by do 2 eexists|]. cbn [split_on]. destruct (b =? c); [by do 2 eexists|].
  destruct (split_on c l); by do 2 eexists.
Qed.

Lemma split_head_dot l :
  match split_on SLASH l with x :: _ => x = [DOT] | [] => False end <->
  match l with d :: l'' => (d =? DOT) && match l'' with e :: _ => e =? SLASH | [] => true end | [] => false end = true.
Proof.
  destruct l as [|d l]; [done|]. cbn [split_on]. destruct (Z.eqb_spec d SLASH) as [->|Hd]; [done|].
  destruct (split_on_cons SLASH l) as (x & xs & E). rewrite E.
  assert (Hx : x = [] <-> match l with e :: _ => e =? SLASH | [] => true end = true).
  { destruct l as [|e l]; [by injection E as <- <-|]. cbn [split_on] in E. destruct (Z.eqb_spec e SLASH).
    - by injection E as <- <-.
    - destruct (split_on_cons SLASH l) as (y & ys & E'). rewrite E' in E. by injection E as <- <-. }
  destruct (Z.eqb_spec d DOT) as [->|Hne]; cbn [andb]; [|by split; [intros [= ??]|]].
  rewrite <- Hx. split; [by intros [= ->]|by intros ->].
Qed.

Lemma dotdot_split b l :
  dotdot b l = true <-> lit ".." ∈ (if b then split_on SLASH l else tail (split_on SLASH l)).
Proof.
  revert b. induction l as [|c l IH]; intros b.
  { cbn. destruct b; cbn; rewrite ?list_elem_of_singleton; split; try done. by intros H%not_elem_of_nil. }
  cbn [dotdot split_on]. destruct (split_on_cons SLASH l) as (x & xs & E). pose proof (split_head_dot l) as Hdot. rewrite E in Hdot.
  destruct (Z.eqb_spec c SLASH) as [->|Hc].
  - replace (SLASH =? DOT) with false by done. rewrite andb_false_r. cbn [andb orb tail]. rewrite (IH true).
    destruct b; [|done]. rewrite elem_of_cons. split; [by right|]. by intros [?|?].
  - rewrite E, orb_true_iff, (IH false), E. cbn [tail]. destruct b; cbn [andb tail]; [|split; [by intros [?|?]|by right]].
    rewrite elem_of_cons, andb_true_iff, <- Hdot, Z.eqb_eq. change (lit "..") with [DOT; DOT]. split.
    + intros [[-> ->]|?]; [by left|by right].
    + intros [[= <- <-]|?]; [by left|by right].
Qed.

Lemma path_is_safe_ok l post : path_is_safe (l ++ post) (zlen l) = Ret (safe_target l).
Proof.
  unfold path_is_safe, safe_target. destruct l as [|c l]; [done|].
  pose proof (zlen_nonneg l). rewrite zlen_cons at 1. replace (zlen l + 1 =? 0) with false by lia.
  cbn [app]. rewrite rd_cons_0. cbn [rbind]. destruct (c =? SLASH) eqn:Ec; [|done]. cbn [negb andb].
  destruct (Z.leb_spec (zlen (c :: l)) MAX_URI_LEN); [|by replace (_ <? _) with true by lia].
  replace (MAX_URI_LEN <? _) with false by lia. cbn [andb].
  replace (Z.to_nat (zlen (c :: l))) with (length (c :: l)) by (unfold zlen; lia).
  pose proof (no_ctl_ok [] (c :: l) post) as Hctl. cbn [app] in Hctl. change (zlen []) with 0 in Hctl. rewrite Hctl. cbn [rbind].
  rewrite negb_involutive. destruct (existsb is_ctl (c :: l)); [done|]. cbn [negb andb].
  pose proof (no_dotdot_ok [] (c :: l) post) as Hdd. cbn [app last] in Hdd. change (zlen []) with 0 in Hdd.
  replace (Z.to_nat (zlen (c :: l) - 1)) with (length (c :: l) - 1)%nat by (unfold zlen; cbn; lia). rewrite Hdd. f_equal.
  pose proof (dotdot_split true (c :: l)) as Hs. cbv iota in Hs. destruct (dotdot true (c :: l)).
  - rewrite bool_decide_eq_false_2; [done|]. intros Hn. apply Hn. by apply Hs.
  - rewrite bool_decide_eq_true_2; [done|]. intros Hn%Hs. done.
Qed.

Lemma memchr_first pre x c y k :
  Forall (fun b => b <> c) x -> (length x < k)%nat ->
  memchr (pre ++ x ++ c :: y) (zlen pre) c k = Ret (Some (zlen pre + zlen x)).
Proof.
  intros Hx. revert pre k. induction Hx as [|b x Hb Hx IH]; intros pre [|k] Hk; try (cbn in Hk; lia); cbn [memchr app].
  - rewrite rd_mid. cbn [rbind]. rewrite Z.eqb_refl. by rewrite zlen_nil, Z.add_0_r.
  - rewrite rd_mid. cbn [rbind]. destruct (Z.eqb_spec b c); [done|]. rewrite app_shift, <- (zlen_snoc pre b), IH.
    + rewrite zlen_snoc, zlen_cons. do 2 f_equal. lia.
    + cbn in Hk. lia.
Qed.

(** [memchr] over the whole of a region given by its length as a [Z]. *)
Lemma memchr_region pre l post c n :
  n = zlen l -> memchr (pre ++ l ++ post) (zlen pre) c (Z.to_nat n) =
  Ret (match cut c l with Some (x, _) => Some (zlen pre + zlen x) | None => None end).
Proof. intros ->. unfold zlen at 2. rewrite Nat2Z.id. apply memchr_cut. Qed.

Lemma upto_prefix c l : exists b, l = upto c l ++ b.
Proof.
  unfold upto. destruct (cut c l) as [[x y]|] eqn:E; [|by exists []; rewrite app_nil_r].
  apply cut_some in E as [-> _]. by eexists.
Qed.

(** A pointer of the request holds the bytes [v], which end before offset [lim]. *)
Definition span_is (buf : list Z) (lim : Z) (s : span) (v : option (list Z)) : Prop :=
  match sp_off s, v with
  | None, None => sp_len s = 0
  | Some o, Some v => sp_len s = zlen v /\ 0 <= o /\ o + zlen v <= lim /\ sub buf o (zlen v) = v
  | _, _ => False
  end.

Lemma span_is_mid pre v post lim :
  zlen pre + zlen v <= lim -> span_is (pre ++ v ++ post) lim (mk_span (Some (zlen pre)) (zlen v)) (Some v).
Proof. intros. unfold span_is. cbn. split_and!; [done|apply zlen_nonneg|done|by apply sub_app]. Qed.

Lemma request_line_ok line lf more n out :
  Forall (fun b => b <> CR) line -> zlen line < n ->
  let buf := line ++ CR :: lf :: more in
  match request_line buf n out with
  | Ret (inl (r, _)) => (if lf =? LF then spec_line line else inl HTTP_ERR_400) = inl r
  | Ret (inr (out', p)) => exists m path s, lf = LF /\ spec_line line = inr (m, path) /\ p = zlen line + 2 /\
      out' = out {{ rq_method := m; rq_path := s }} /\ span_is buf p s (Some path)
  | _ => False
  end.
Proof.
  intros Hcr Hn buf. unfold request_line. pose proof (zlen_nonneg line).
  unfold buf at 1. rewrite (memchr_first [] line CR (lf :: more)) by (done || unfold zlen in *; lia). cbn [rbind].
  rewrite zlen_nil, Z.add_0_l.
  assert (Hlf : rd buf (zlen line + 1) = Ret lf).
  { unfold buf. rewrite (app_shift line CR), <- (zlen_snoc line CR). apply rd_mid. }
  rewrite Hlf. cbn [rbind]. destruct (Z.eqb_spec lf LF) as [->|]; cbn [negb]; [|done].
  unfold spec_line. destruct (_ || _); [done|].
  assert (Hsp1 := memchr_region [] line (CR :: LF :: more) SP (zlen line) eq_refl). cbn [app] in Hsp1.
  change (zlen []) with 0 in Hsp1. fold buf in Hsp1. rewrite Hsp1. cbn [rbind].
  destruct (cut SP line) as [[m rest]|] eqn:E1; [|done]. apply cut_some in E1 as [El Hm].
  assert (Hlen : zlen line = zlen m + 1 + zlen rest) by (rewrite El, zlen_app, zlen_cons; lia).
  replace (0 + zlen m + 1) with (zlen (m ++ [SP])) by (rewrite zlen_snoc; lia).
  assert (Hbuf : buf = (m ++ [SP]) ++ rest ++ CR :: LF :: more) by (unfold buf; rewrite El, <- !app_assoc; done).
  assert (Hsp2 := memchr_region (m ++ [SP]) rest (CR :: LF :: more) SP _ eq_refl). rewrite <- Hbuf in Hsp2.
  replace (zlen line - (0 + zlen m) - 1) with (zlen rest) by lia. rewrite Hsp2. cbn [rbind].
  destruct (cut SP rest) as [[target version]|] eqn:E2; [|done]. apply cut_some in E2 as [Er Ht].
  assert (Hrest : zlen rest = zlen target + 1 + zlen version) by (rewrite Er, zlen_app, zlen_cons; lia).
  assert (Hver : padd buf (zlen (m ++ [SP]) + zlen target + 1) = version ++ CR :: LF :: more).
  { rewrite Hbuf, Er, <- (app_assoc target). rewrite <- app_comm_cons, (app_shift target SP), (app_assoc (m ++ [SP])). apply padd_app.
    autorewrite with pico. lia. }
  rewrite Hver. replace (zlen rest - _ - 1) with (zlen version) by lia.
  rewrite is_lit_ok. cbn [rbind]. destruct (bool_decide (version = _)); [|done]. cbn [negb].
  assert (Hm1 : classify_method buf (0 + zlen m) = Ret (spec_method m)).
  { rewrite Hbuf, <- app_assoc, Z.add_0_l. apply classify_method_ok. }
  rewrite Hm1. cbn [rbind]. destruct (decide (spec_method m = M_UNKNOWN)); [done|].
  replace (zlen (m ++ [SP]) + zlen target - zlen (m ++ [SP])) with (zlen target) by lia.
  assert (Hp : padd buf (zlen (m ++ [SP])) = target ++ SP :: version ++ CR :: LF :: more).
  { rewrite Hbuf, Er, <- (app_assoc target). by apply padd_app. }
  rewrite Hp, path_is_safe_ok. cbn [rbind]. destruct (safe_target target); [|done]. cbn [negb].
  assert (Hbuf3 : buf = (m ++ [SP]) ++ target ++ SP :: version ++ CR :: LF :: more) by (rewrite Hbuf, Er, <- !app_assoc; done).
  assert (Hq := memchr_region (m ++ [SP]) target (SP :: version ++ CR :: LF :: more) QMARK _ eq_refl).
  rewrite <- Hbuf3 in Hq. rewrite Hq. cbn [rbind].
  do 3 eexists. split; [done|]. split; [done|]. split; [done|]. split; [done|].
  destruct (upto_prefix QMARK target) as [q Eq].
  replace (match _ with Some q => _ | None => zlen target end) with (zlen (upto QMARK target)).
  2: { unfold upto. destruct (cut QMARK target) as [[x y]|]; [|done]. lia. }
  rewrite Hbuf3. rewrite Eq at 1. rewrite <- (app_assoc (upto QMARK target)). apply span_is_mid.
  rewrite Eq, zlen_app in Hrest. pose proof (zlen_nonneg q). pose proof (zlen_nonneg version). rewrite zlen_snoc. lia.
Qed.

(** ** Header values *)

Lemma contains_short tok l : (length l < length tok)%nat -> contains tok l = false.
Proof.
  induction l as [|b l IH]; intros Hl; cbn [contains]; rewrite short_no_prefix by done; [done|].
  cbn [length] in Hl. cbn [orb]. apply IH. lia.
Qed.

Lemma token_loop_ok a l post tok :
  token_loop (a ++ l ++ post) tok (zlen a) (S (length l) - length tok) = Ret (contains tok l).
Proof.
  revert a. induction l as [|b l IH]; intros a.
  - destruct tok as [|t tok]; [|by rewrite contains_short by (cbn; lia)].
    cbn [length Nat.sub token_loop]. rewrite (mem_eq_prefix a [] post []) by done. done.
  - destruct (decide (length tok <= S (length l))%nat) as [Hl|Hl].
    2: { rewrite contains_short by (cbn; lia). by replace (S (length (b :: l)) - length tok)%nat with 0%nat by (cbn; lia). }
    replace (S (length (b :: l)) - length tok)%nat with (S (S (length l) - length tok)) by (cbn; lia). cbn [token_loop].
    rewrite mem_eq_prefix by (cbn; lia). cbn [rbind contains]. destruct (has_prefix tok (b :: l)); [done|]. cbn [orb].
    by rewrite <- app_comm_cons, app_shift, <- (zlen_snoc a b), IH.
Qed.

Lemma compress_accepted_ok l post : metal_compress_accepted (l ++ post) (zlen l) = Ret (accepts_pc l).
Proof.
  unfold metal_compress_accepted, accepts_pc. destruct (Z.eqb_spec (zlen l) 0) as [E|E].
  { destruct l; [done|]. rewrite zlen_cons in E. pose proof (zlen_nonneg l). lia. }
  assert (Ht : forall tok, (if zlen tok <=? zlen l then token_loop (l ++ post) tok 0 (Z.to_nat (zlen l - zlen tok + 1)) else Ret false) =
    Ret (contains tok l)).
  { intros tok. destruct (Z.leb_spec (zlen tok) (zlen l)) as [Hl|Hl].
    - rewrite <- (token_loop_ok [] l post tok). f_equal. unfold zlen in *. lia.
    - rewrite contains_short by (unfold zlen in *; lia). done. }
  rewrite !Ht. cbn [rbind]. by destruct (contains (lit "picoweb-compress") l).
Qed.

Lemma zero_digits_ok a l post z fuel :
  (length l <= fuel)%nat ->
  zero_digits (a ++ l ++ post) (zlen (a ++ l)) (zlen a) z fuel = Ret (z && forallb (Z.eqb 0x30) (take_while is_digit l)).
Proof.
  revert a z fuel. induction l as [|b l IH]; intros a z fuel Hf.
  { rewrite app_nil_r. cbn [take_while forallb]. rewrite andb_true_r. destruct fuel; cbn [zero_digits]; by rewrite Z.ltb_irrefl. }
  cbn [length] in Hf. destruct fuel as [|fuel]; [lia|]. cbn [zero_digits app]. rewrite rd_mid.
  pose proof (zlen_nonneg l). rewrite zlen_app, zlen_cons. replace (_ <? _) with true by lia. cbn [rbind take_while].
  fold (is_digit b). destruct (is_digit b); [|cbn [forallb]; by rewrite andb_true_r]. cbn [forallb].
  rewrite andb_assoc, (Z.eqb_sym 48 b), app_shift, <- (zlen_snoc a b).
  replace (zlen a + (zlen l + 1)) with (zlen ((a ++ [b]) ++ l)) by (autorewrite with pico; lia). apply IH. lia.
Qed.

(** A scan of the region of length [len] at [base] that has reached position [p]
    and has the bytes [r] in front of it. *)
Definition cursor (buf : list Z) (base len p : Z) (r : list Z) : Prop :=
  exists pre a post, buf = pre ++ (a ++ r) ++ post /\ base = zlen pre /\ p = zlen a /\ len = zlen (a ++ r).

Lemma cursor_start pre l post : cursor (pre ++ l ++ post) (zlen pre) (zlen l) 0 l.
Proof. by exists pre, [], post. Qed.

Lemma cursor_len buf base len p r : cursor buf base len p r -> 0 <= p /\ len = p + zlen r /\ base + len <= zlen buf /\ 0 <= base.
Proof.
  intros (pre & a & post & -> & -> & -> & ->). rewrite !zlen_app.
  pose proof (zlen_nonneg a). pose proof (zlen_nonneg post). pose proof (zlen_nonneg pre). lia.
Qed.

Lemma cursor_rd buf base len p c r : cursor buf base len p (c :: r) -> rd buf (base + p) = Ret c.
Proof. intros (pre & a & post & -> & -> & -> & _). rewrite <- app_assoc. cbn [app]. by apply rd_behind. Qed.

Lemma cursor_move buf base len p x r : cursor buf base len p (x ++ r) -> cursor buf base len (p + zlen x) r.
Proof.
  intros (pre & a & post & -> & -> & -> & ->). exists pre, (a ++ x), post. rewrite <- !app_assoc, zlen_app. done.
Qed.

Lemma cursor_step buf base len p c r : cursor buf base len p (c :: r) -> cursor buf base len (p + 1) r.
Proof. apply (cursor_move _ _ _ _ [c]). Qed.

Lemma cursor_skip f buf base len p r fuel :
  cursor buf base len p r -> (length r <= fuel)%nat -> exists p',
  skip_while f buf base p len fuel = Ret p' /\ cursor buf base len p' (drop_while f r) /\ p <= p'.
Proof.
  intros Hc Hf. destruct (drop_while_suffix f r) as [x Ex]. exists (p + zlen x).
  split; [|split; [apply cursor_move; by rewrite <- Ex|pose proof (zlen_nonneg x); lia]].
  destruct Hc as (pre & a & post & -> & -> & -> & ->). rewrite skip_while_drop by done. f_equal.
  rewrite Ex at 1. rewrite !zlen_app. lia.
Qed.

(** [p < len && Q(s[p])] *)
Lemma cursor_next buf len p r (Q : Z -> bool) :
  cursor buf 0 len p r ->
  (if p <? len then let! c := rd buf p in Ret (Q c) else Ret false) = Ret (match r with c :: _ => Q c | [] => false end).
Proof.
  intros Hc. destruct (cursor_len _ _ _ _ _ Hc) as (_ & -> & _ & _). destruct r as [|c r].
  - rewrite zlen_nil, Z.add_0_r, Z.ltb_irrefl. done.
  - pose proof (zlen_nonneg r). rewrite zlen_cons. replace (_ <? _) with true by lia.
    pose proof (cursor_rd _ _ _ _ _ _ Hc) as E. rewrite Z.add_0_l in E. by rewrite E.
Qed.

Lemma drop_while_length f l : (length (drop_while f l) <= length l)%nat.
Proof. induction l as [|b l IH]; cbn; [done|]. destruct (f b); cbn; lia. Qed.

Lemma q_is_zero_ok buf len p r : cursor buf 0 len p r -> q_is_zero buf len p = Ret (q_zero r).
Proof.
  intros Hc. unfold q_is_zero, q_zero. destruct (cursor_len _ _ _ _ _ Hc) as (Hp & Hlen & _ & _).
  assert (Hn : (length r <= Z.to_nat len)%nat) by (unfold zlen in *; lia).
  destruct (cursor_skip is_ows _ _ _ _ _ _ Hc Hn) as (p1 & -> & Hc1 & _). cbn [rbind].
  pose proof (drop_while_length is_ows r) as Hd. rewrite (cursor_next _ _ _ _ _ Hc1). cbn [rbind].
  destruct (drop_while is_ows r) as [|c r1]; [done|]. cbn [length] in Hd. destruct (c =? 59); [|done]. cbn [negb andb].
  destruct (cursor_skip is_ows _ _ _ _ _ (Z.to_nat len) (cursor_step _ _ _ _ _ _ Hc1)) as (p2 & -> & Hc2 & _); [lia|]. cbn [rbind].
  pose proof (drop_while_length is_ows r1) as Hd1. destruct (drop_while is_ows r1) as [|q [|e r2]].
  { destruct (cursor_len _ _ _ _ _ Hc2) as (_ & E & _). rewrite zlen_nil in E. by replace (p2 + 1 <? len) with false by lia. }
  { destruct (cursor_len _ _ _ _ _ Hc2) as (_ & E & _). change (zlen [q]) with 1 in E. by replace (p2 + 1 <? len) with false by lia. }
  destruct (cursor_len _ _ _ _ _ Hc2) as (_ & E & _). rewrite !zlen_cons in E. pose proof (zlen_nonneg r2).
  replace (p2 + 1 <? len) with true by lia.
  pose proof (cursor_rd _ _ _ _ _ _ Hc2) as Eq. pose proof (cursor_step _ _ _ _ _ _ Hc2) as Hc3.
  pose proof (cursor_rd _ _ _ _ _ _ Hc3) as Ee. pose proof (cursor_step _ _ _ _ _ _ Hc3) as Hc4.
  rewrite Z.add_0_l in Eq, Ee. rewrite Eq. cbn [rbind].
  destruct (q =? 113); [|by destruct r2]. rewrite Ee. cbn [rbind]. destruct (e =? 61); [|by destruct r2]. cbn [negb].
  replace (p2 + 2) with (p2 + 1 + 1) by lia. rewrite (cursor_next _ _ _ _ _ Hc4). cbn [rbind].
  destruct r2 as [|z r3]; [done|]. cbn [andb]. destruct (z =? 48); [|done]. cbn [negb andb].
  pose proof (cursor_step _ _ _ _ _ _ Hc4) as Hc5. rewrite (cursor_next _ _ _ _ _ Hc5). cbn [rbind].
  destruct r3 as [|d ds]; [done|]. destruct (d =? DOT); [|done]. cbn [negb orb].
  destruct (cursor_step _ _ _ _ _ _ Hc5) as (pre & a & post & -> & Epre & Ep & Elen).
  destruct pre; [|rewrite zlen_cons in Epre; pose proof (zlen_nonneg pre); lia]. cbn [app].
  rewrite Ep, Elen, <- app_assoc. apply zero_digits_ok. cbn [length] in *. lia.
Qed.

Lemma boundary_ok buf len p c r semi : cursor buf 0 len p (c :: r) -> boundary buf p semi = Ret (is_sep c || semi && (c =? 59)).
Proof. intros Hc. pose proof (cursor_rd _ _ _ _ _ _ Hc) as E. rewrite Z.add_0_l in E. unfold boundary. by rewrite E. Qed.

Lemma br_loop_ok a l post :
  br_loop (a ++ l ++ post) (zlen (a ++ l)) (zlen a) (length l - 1) = Ret (accepts_br (last a) l).
Proof.
  revert a. induction l as [|b l IH]; intros a; [done|].
  destruct l as [|r l]; [cbn; by rewrite andb_false_r|].
  replace (length (b :: r :: l) - 1)%nat with (S (length (r :: l) - 1)) by (cbn; lia).
  assert (Hc : cursor (a ++ (b :: r :: l) ++ post) 0 (zlen (a ++ b :: r :: l)) (zlen a) (b :: r :: l))
    by (exists [], a, post; by rewrite <- app_assoc).
  set (buf := a ++ (b :: r :: l) ++ post) in *. set (len := zlen (a ++ b :: r :: l)) in *.
  assert (Hnext : br_loop buf len (zlen a + 1) (length (r :: l) - 1) = Ret (accepts_br (Some b) (r :: l))).
  { unfold buf, len. rewrite <- (zlen_snoc a b), <- app_comm_cons, (app_shift a b (r :: l)), (app_shift a b ((r :: l) ++ post)), IH. by rewrite last_snoc. }
  pose proof (cursor_rd _ _ _ _ _ _ Hc) as Eb. pose proof (cursor_step _ _ _ _ _ _ Hc) as Hc1.
  pose proof (cursor_rd _ _ _ _ _ _ Hc1) as Er. pose proof (cursor_step _ _ _ _ _ _ Hc1) as Hc2.
  rewrite Z.add_0_l in Eb, Er. replace (zlen a + 1 + 1) with (zlen a + 2) in Hc2 by lia.
  assert (Hl : orr (zlen a <=? 0) (boundary buf (zlen a - 1) false) = Ret (match last a with Some c => is_sep c | None => true end)).
  { destruct a as [|c a _] using rev_ind; [done|]. rewrite last_snoc. pose proof (zlen_nonneg a). rewrite zlen_snoc.
    replace (zlen a + 1 <=? 0) with false by lia. replace (zlen a + 1 - 1) with (zlen a) by lia. cbn [orr].
    rewrite (boundary_ok buf len _ c (b :: r :: l)); [by rewrite orb_false_r|].
    exists [], a, post. unfold buf, len. rewrite <- !app_assoc. done. }
  assert (Hr : orr (len <=? zlen a + 2) (boundary buf (zlen a + 2) true) =
    Ret (match l with c :: _ => is_sep c || (c =? 59) | [] => true end)).
  { destruct (cursor_len _ _ _ _ _ Hc2) as (_ & E & _). rewrite E. destruct l as [|c l].
    - rewrite zlen_nil. by replace (_ <=? _) with true by lia.
    - rewrite zlen_cons. pose proof (zlen_nonneg l). replace (_ <=? _) with false by lia. cbn [orr].
      by rewrite (boundary_ok _ _ _ _ _ true Hc2). }
  cbn [br_loop]. rewrite Eb. cbn [rbind]. set (k := (length (r :: l) - 1)%nat) in *.
  change (accepts_br (last a) (b :: r :: l)) with
    ((b =? 98) && ((r =? 114) && match last a with Some c => is_sep c | None => true end &&
      match l with c :: _ => is_sep c || (c =? 59) | [] => true end && negb (q_zero l)) || accepts_br (Some b) (r :: l)).
  destruct (b =? 98); [|exact Hnext]. rewrite Er. cbn [rbind andb]. destruct (r =? 114); [|exact Hnext]. cbn [negb andb].
  rewrite Hl. cbn [rbind]. destruct (match last a with Some c => _ | None => true end); [|exact Hnext]. cbn [negb andb].
  rewrite Hr. cbn [rbind]. destruct (match l with c :: _ => _ | [] => true end); [|exact Hnext]. cbn [negb andb].
  rewrite (q_is_zero_ok _ _ _ _ Hc2). cbn [rbind]. destruct (q_zero l); [exact Hnext|done].
Qed.

Lemma brotli_accepted_ok l post : brotli_accepted (l ++ post) (zlen l) = Ret (accepts_br None l).
Proof.
  pose proof (br_loop_ok [] l post) as H. cbn [app last] in H. unfold brotli_accepted. rewrite <- H. f_equal. unfold zlen. lia.
Qed.

(** *** Connection *)

Lemma ieq_literal buf p l post s :
  padd buf p = l ++ post -> Forall byte_ok buf -> Forall (fun c => c <> CR) l -> Forall name_char (lit s) -> zlen l = zlen (lit s) ->
  ieq_lit buf p s = Ret (is_name l s).
Proof.
  intros Hp Hb Hcr Hn Hl. unfold ieq_lit. rewrite Hp. rewrite <- Hl at 1.
  assert (Hb' : Forall byte_ok (l ++ post)) by (rewrite <- Hp; by apply Forall_padd).
  rewrite ieq_ok; rewrite ?ztake_app by done; try done. rewrite zlen_app. pose proof (zlen_nonneg post). pose proof (zlen_nonneg l). lia.
Qed.

Lemma split_on_cut c l : split_on c l = match cut c l with Some (x, y) => x :: split_on c y | None => [l] end.
Proof.
  induction l as [|b l IH]; [done|]. cbn [split_on cut]. destruct (b =? c); [done|]. rewrite IH.
  by destruct (cut c l) as [[x y]|].
Qed.

Lemma drop_while_app_false f l x y : drop_while f l = x -> forallb f y = true -> drop_while f (y ++ l) = x.
Proof. intros <-. induction y as [|b y IH]; cbn; [done|]. intros [-> ?]%andb_true_iff. auto. Qed.

Lemma trim_drop l : trim (drop_while is_ows l) = trim l.
Proof.
  unfold trim. f_equal. induction l as [|b l IH]; [done|]. cbn [drop_while]. destruct (is_ows b) eqn:E; [done|].
  cbn [drop_while]. by rewrite E.
Qed.

(** What [close_loop] looks for, from a position in front of which no token has
    been started. *)
Definition has_close (l : list Z) : bool := existsb (fun t => is_name (trim t) "close") (split_on COMMA l).

Lemma same_name_nil s : s <> [] -> same_name [] s = false.
Proof. intros H. apply bool_decide_eq_false_2. by destruct s. Qed.

Lemma has_close_skip l : has_close (drop_while is_sep l) = has_close l.
Proof.
  induction l as [|b l IH]; [done|]. cbn [drop_while]. destruct (is_sep b) eqn:E; [|done]. rewrite IH. clear IH.
  unfold has_close. cbn [split_on]. destruct (Z.eqb_spec b COMMA) as [->|Hc].
  - cbn [existsb]. unfold is_name at 2. change (trim []) with (@nil Z). by rewrite same_name_nil.
  - assert (Ho : is_ows b = true).
    { unfold is_sep, is_ows in *. destruct (b =? SP), (b =? HT); try done. cbn in E. lia. }
    destruct (split_on_cons COMMA l) as (x & xs & ->). cbn [existsb]. unfold trim at 3. cbn [drop_while]. by rewrite Ho.
Qed.

Lemma cursor_back f buf base len p t r fuel :
  cursor buf base len p (t ++ r) -> (length t <= fuel)%nat ->
  back_while f buf base p (p + zlen t) fuel = Ret (p + zlen (trim_right f t)).
Proof.
  intros (pre & a & post & -> & -> & -> & _) Hf. rewrite <- (app_assoc a), <- (app_assoc t).
  rewrite (app_assoc a). by apply back_while_trim; rewrite ?zlen_app.
Qed.

Lemma cursor_padd buf base len p r : cursor buf base len p r -> exists post, padd buf (base + p) = r ++ post.
Proof.
  intros (pre & a & post & -> & -> & -> & _). exists post. rewrite <- app_assoc, app_assoc. apply padd_app. by rewrite zlen_app.
Qed.

(** Skipping to the next [c] is cutting there. *)
Lemma drop_while_cut c l :
  l = upto c l ++ drop_while (fun b => negb (b =? c)) l /\
  drop_while (fun b => negb (b =? c)) l = match cut c l with Some (_, y) => c :: y | None => [] end.
Proof.
  unfold upto. induction l as [|b l [IH1 IH2]]; [done|]. cbn [drop_while cut].
  destruct (Z.eqb_spec b c) as [->|Hne]; [done|]. cbn [negb]. rewrite IH2 in *.
  destruct (cut c l) as [[x y]|]; cbn [app]; split; try done; by f_equal.
Qed.

Lemma trim_no_lead l : match l with b :: _ => is_ows b = false | [] => True end -> trim l = trim_right is_ows l.
Proof. unfold trim. destruct l as [|b l]; [done|]. intros E. cbn [drop_while]. by rewrite E. Qed.

Lemma drop_while_head f l : match drop_while f l with b :: _ => f b = false | [] => True end.
Proof. induction l as [|b l IH]; [done|]. cbn [drop_while]. destruct (f b) eqn:E; done. Qed.

Lemma lit_chars s :
  forallb (fun c => (0x41 <=? c) && (c <=? 0x5a) || (0x61 <=? c) && (c <=? 0x7a) || (c =? 0x2d)) (lit s) = true ->
  Forall name_char (lit s).
Proof.
  rewrite forallb_forall. intros H. apply list.Forall_forall. intros c Hc%list_elem_of_In%H. unfold name_char. lia.
Qed.

Lemma Forall_drop_while (P : Z -> Prop) f l : Forall P l -> Forall P (drop_while f l).
Proof. induction 1 as [|b l]; [constructor|]. cbn [drop_while]. destruct (f b); [done|by constructor]. Qed.

Lemma is_name_len l s : zlen l <> zlen (lit s) -> is_name l s = false.
Proof. intros H. apply bool_decide_eq_false_2. intros E%(f_equal zlen). by rewrite !zlen_map in E. Qed.

Lemma has_close_cut l :
  has_close l = match cut COMMA l with Some (x, y) => is_name (trim x) "close" || has_close y | None => is_name (trim l) "close" end.
Proof.
  unfold has_close. rewrite split_on_cut. destruct (cut COMMA l) as [[x y]|]; [done|]. cbn [existsb]. by rewrite orb_false_r.
Qed.

Lemma close_loop_ok buf base len p r fuel :
  cursor buf base len p r -> Forall byte_ok buf -> Forall (fun c => c <> CR) r -> (length r <= fuel)%nat ->
  close_loop buf base len p fuel = Ret (has_close r).
Proof.
  intros Hc Hb. revert p r Hc. induction fuel as [|fuel IH]; intros p r Hc Hcr Hf; destruct (cursor_len _ _ _ _ _ Hc) as (Hp & El & _).
  { destruct r; [|cbn in Hf; lia]. rewrite zlen_nil in El. cbn [close_loop]. by replace (p <? len) with false by lia. }
  cbn [close_loop]. destruct (Z.ltb_spec p len) as [Hlt|]; [|destruct r; [done|rewrite zlen_cons in El; pose proof (zlen_nonneg r); lia]].
  assert (Hn : (length r <= Z.to_nat len)%nat) by (unfold zlen in *; lia).
  destruct (cursor_skip is_sep _ _ _ _ _ _ Hc Hn) as (p1 & -> & Hc1 & _). cbn [rbind].
  pose proof (drop_while_length is_sep r) as Hl1. pose proof (drop_while_head is_sep r) as Hh.
  rewrite <- has_close_skip. apply (Forall_drop_while _ is_sep) in Hcr. set (r1 := drop_while is_sep r) in *.
  destruct (drop_while_cut COMMA r1) as [Er1 Er2].
  set (f := fun c => negb (c =? COMMA)) in *. set (t := upto COMMA r1) in *. set (r2 := drop_while f r1) in *.
  destruct (cursor_skip f _ _ _ _ _ (Z.to_nat len) Hc1 ltac:(lia)) as (p2 & -> & Hc2 & _). fold r2 in Hc2. cbn [rbind].
  assert (Hp2 : p2 = p1 + zlen t).
  { destruct (cursor_len _ _ _ _ _ Hc1) as (_ & E1 & _), (cursor_len _ _ _ _ _ Hc2) as (_ & E2 & _).
    rewrite Er1, zlen_app in E1. lia. }
  assert (Hlen : (length t + length r2 = length r1)%nat) by (pose proof (f_equal length Er1) as E; rewrite length_app in E; lia).
  rewrite Er1 in Hc1. rewrite Hp2 at 1. rewrite (cursor_back is_ows _ _ _ _ _ _ _ Hc1) by lia. cbn [rbind].
  assert (Ht : trim t = trim_right is_ows t).
  { apply trim_no_lead. destruct t as [|b t']; [done|]. rewrite Er1 in Hh. cbn [app] in Hh.
    unfold is_sep, is_ows in *. by apply orb_false_iff in Hh as [? _]. }
  rewrite <- Ht. assert (Hclose : (if p1 + zlen (trim t) - p1 =? 5 then ieq_lit buf (base + p1) "close" else Ret false) = Ret (is_name (trim t) "close")).
  { destruct (Z.eqb_spec (p1 + zlen (trim t) - p1) 5) as [E5|E5]; [|rewrite is_name_len; [done|]; change (zlen (lit "close")) with 5; lia].
    destruct (cursor_padd _ _ _ _ _ Hc1) as [post Epost]. destruct (trim_right_prefix is_ows t) as [tb Etb]. rewrite <- Ht in Etb.
    rewrite Etb, <- !app_assoc in Epost. eapply ieq_literal; [exact Epost|done| |by apply lit_chars|change (zlen (lit "close")) with 5; lia].
    rewrite Er1, Etb in Hcr. by apply Forall_app in Hcr as [[? _]%Forall_app _]. }
  rewrite Hclose. cbn [rbind].
  pose proof (has_close_cut r1) as Hsplit.
  assert (Hrec : close_loop buf base len p2 fuel = Ret (has_close r2)).
  { apply IH; [done|by apply Forall_drop_while|]. destruct t as [|b t'] eqn:Et; [|cbn in Hlen; lia].
    destruct r2 as [|b r2']; [cbn; lia|]. exfalso. rewrite Er1 in Hh. cbn in Hh. destruct (cut COMMA r1) as [[x y]|]; [|done].
    injection Er2 as -> _. done. }
  rewrite Hrec. unfold t, upto in Hsplit |- *. rewrite Er2. destruct (cut COMMA r1) as [[x y]|] eqn:Ecut; rewrite Hsplit.
  - rewrite <- (has_close_skip (COMMA :: y)). cbn [drop_while]. replace (is_sep COMMA) with true by done. rewrite has_close_skip.
    by destruct (is_name (trim x) "close").
  - by destruct (is_name (trim r1) "close").
Qed.

(** *** Content-Length, flags, Host *)

Lemma overflow_check acc nd : 0 <= nd < 10 -> ((UINT64_MAX - nd) / 10 <? acc) = (2 ^ 64 <=? acc * 10 + nd).
Proof. intros. unfold UINT64_MAX. apply eq_true_iff_eq. rewrite Z.ltb_lt, Z.leb_le. dlia. Qed.

Lemma cl_loop_ok buf base len p r acc :
  cursor buf base len p r -> cl_loop buf base p (length r) acc = Ret (decimal acc r).
Proof.
  revert p acc. induction r as [|c r IH]; intros p acc Hc; [done|]. cbn [length cl_loop decimal].
  rewrite (cursor_rd _ _ _ _ _ _ Hc). cbn [rbind]. unfold is_digit.
  replace ((c <? 48) || (57 <? c)) with (negb ((48 <=? c) && (c <=? 57))) by lia.
  destruct ((48 <=? c) && (c <=? 57)) eqn:E; cbn [negb]; [|done].
  rewrite overflow_check by lia. destruct (2 ^ 64 <=? acc * 10 + (c - 48)); [done|]. apply IH. by eapply cursor_step.
Qed.

Lemma is_one_ok pre v post : is_one (pre ++ v ++ post) (zlen pre) (zlen v) = Ret (bool_decide (v = lit "1")).
Proof.
  unfold is_one. change (lit "1") with [49]. destruct v as [|c [|d v]]; cbn [app].
  - done.
  - rewrite rd_mid. change (zlen [c] =? 1) with true. cbn [rbind]. destruct (Z.eqb_spec c 49) as [->|Hne]; [by rewrite bool_decide_eq_true_2|].
    rewrite bool_decide_eq_false_2; [done|]. by intros [= ?].
  - rewrite !zlen_cons. pose proof (zlen_nonneg v). replace (_ =? 1) with false by lia.
    rewrite bool_decide_eq_false_2; [done|]. by intros [= ??].
Qed.

Lemma host_loop_ok buf base len p r :
  cursor buf base len p r -> host_loop buf base p (length r) = Ret (forallb host_char r).
Proof.
  revert p. induction r as [|c r IH]; intros p Hc; [done|]. cbn [length host_loop forallb].
  rewrite (cursor_rd _ _ _ _ _ _ Hc). cbn [rbind]. destruct (host_char c); cbn [negb andb]; [|done].
  apply IH. by eapply cursor_step.
Qed.

Lemma zlen_upto c l : match cut c l with Some (x, _) => zlen x | None => zlen l end = zlen (upto c l).
Proof. unfold upto. by destruct (cut c l) as [[x y]|]. Qed.

Lemma host_header_ok ar st pre v post :
  hs_buf st = pre ++ v ++ post -> Forall byte_ok v ->
  host_header ar st (zlen pre) (zlen v) =
  if hs_host_seen st then Ret (Stop (HTTP_ERR_400, hs_out st, hs_buf st))
  else
    let h := map to_lower (upto COLON v) in
    let buf' := pre ++ h ++ drop_while (fun b => negb (b =? COLON)) v ++ post in
    if (zlen h =? 0) || (253 <? zlen h) then Ret (Stop (HTTP_ERR_400, hs_out st, hs_buf st))
    else if negb (forallb host_char h) then Ret (Stop (HTTP_ERR_400, hs_out st, buf'))
    else Ret (Next (st {{ hs_host_seen := true; hs_buf := buf';
                          hs_out := (hs_out st) {{ rq_host := mk_span (Some (zlen pre)) (zlen h) }} }})).
Proof.
  intros Hbuf Hv. unfold host_header. destruct (hs_host_seen st); [done|]. cbv zeta.
  rewrite Hbuf, memchr_region by done. cbn [rbind]. rewrite zlen_map.
  replace (match _ with Some c => c - zlen pre | None => zlen v end) with (zlen (upto COLON v)).
  2: { rewrite <- zlen_upto. destruct (cut COLON v) as [[x y]|]; [lia|done]. }
  destruct (_ || _); [done|]. destruct (drop_while_cut COLON v) as [Ev _].
  set (h := upto COLON v) in *. set (q := drop_while _ v) in *.
  assert (Hh : Forall byte_ok h) by (rewrite Ev in Hv; by apply Forall_app in Hv as [? _]).
  assert (Hlow : metal_lower_inplace ar (pre ++ v ++ post) (zlen pre) (zlen h) = Ret (pre ++ map to_lower h ++ q ++ post)).
  { rewrite Ev, <- app_assoc. by apply lower_simd_app. }
  rewrite Hlow. cbn [rbind].
  replace (Z.to_nat (zlen h)) with (length (map to_lower h)) by (unfold zlen; rewrite length_map; lia).
  rewrite (host_loop_ok _ _ (zlen (map to_lower h)) 0 (map to_lower h)) by apply cursor_start. cbn [rbind].
  destruct (forallb host_char (map to_lower h)); done.
Qed.

(** ** The header loop *)

(** The struct [o] holds the request [a]; its pointers end before [lim]. *)
Record req_is (buf : list Z) (lim : Z) (o : http_request_t) (a : areq) : Prop := {
  ri_method : rq_method o = aq_method a;
  ri_host : span_is buf lim (rq_host o) (aq_host a);
  ri_path : span_is buf lim (rq_path o) (aq_path a);
  ri_close : rq_client_close o = aq_client_close a;
  ri_pc : rq_accept_pc o = aq_accept_pc a;
  ri_br : rq_accept_br o = aq_accept_br a;
  ri_leftover : rq_has_leftover o = aq_has_leftover a;
  ri_consumed : rq_consumed o = aq_consumed a;
  ri_inm : span_is buf lim (rq_if_none_match o) (aq_if_none_match a);
  ri_cookie : span_is buf lim (rq_cookie o) (aq_cookie a);
  ri_auth : rq_pw_auth_header o = aq_pw_auth_header a;
  ri_token : span_is buf lim (rq_write_token o) (aq_write_token a);
  ri_origin : span_is buf lim (rq_origin o) (aq_origin a);
  ri_acr : span_is buf lim (rq_acr_headers o) (aq_acr_headers a);
  ri_principal : span_is buf lim (rq_pw_principal o) (aq_pw_principal a);
  ri_tenant : span_is buf lim (rq_pw_tenant o) (aq_pw_tenant a);
  ri_hop : rq_pw_partition_hop o = aq_pw_partition_hop a;
  ri_cl : rq_content_length o = aq_content_length a
}.

Lemma span_is_mono buf lim buf' lim' s v :
  ztake lim buf = ztake lim buf' -> lim <= lim' -> span_is buf lim s v -> span_is buf' lim' s v.
Proof.
  intros Hagree Hlim. unfold span_is. destruct (sp_off s) as [o|], v as [v|]; try done.
  intros (Hl & Ho & Hend & Hsub). split_and!; [done|done|lia|]. rewrite <- Hsub at 2. pose proof (zlen_nonneg v).
  assert (Hloc : forall b, sub b o (zlen v) = sub (ztake lim b) o (zlen v)).
  { intros b. unfold sub, ztake, padd. rewrite skipn_firstn_comm, take_take. f_equal. lia. }
  by rewrite (Hloc buf'), (Hloc buf), Hagree.
Qed.

Lemma req_is_mono buf lim buf' lim' o a :
  ztake lim buf = ztake lim buf' -> lim <= lim' -> req_is buf lim o a -> req_is buf' lim' o a.
Proof. intros H1 H2 []. split; try done; by eapply span_is_mono. Qed.

(** The loop state [st] stands for the abstract state [s]. *)
Definition state_is (lim : Z) (st : hstate) (s : astate) : Prop :=
  let '(a, seen, body) := s in
  req_is (hs_buf st) lim (hs_out st) a /\ hs_host_seen st = seen /\ hs_body_present st = body.

Section Header.
Context (ar : arch) (pre name x v y post : list Z) (a : areq) (seen body : bool) (st : hstate).
Let value_at : list Z := pre ++ name ++ COLON :: x.
Let line_with (v : list Z) : list Z := value_at ++ v ++ y ++ post.
Context (Hbuf : hs_buf st = line_with v) (Hbytes : Forall byte_ok (line_with v)).
Context (Hname : Forall (fun c => c <> CR) name) (Hval : Forall (fun c => c <> CR) v).
Context (Hst : state_is (zlen pre) st (a, seen, body)).
Let lim : Z := zlen value_at + zlen v.

(** What one header must establish. *)
Definition header_post (r : res flow) (spec : http_result_t + astate) : Prop :=
  match r with
  | Ret (Stop (e, _, _)) => spec = inl e
  | Ret (Next st') => exists s' v', spec = inr s' /\ zlen v' = zlen v /\ Forall byte_ok (line_with v') /\
      hs_buf st' = line_with v' /\ state_is lim st' s'
  | _ => False
  end.

Lemma pre_lim : zlen pre <= lim.
Proof. unfold lim, value_at. rewrite !zlen_app. pose proof (zlen_nonneg v). pose proof (zlen_nonneg name). pose proof (zlen_nonneg (COLON :: x)). lia. Qed.

Lemma req_here : req_is (line_with v) lim (hs_out st) a.
Proof.
  destruct Hst as (H & _ & _). rewrite Hbuf in H. eapply req_is_mono; [done|apply pre_lim|done].
Qed.

Lemma value_span : span_is (line_with v) lim (mk_span (Some (zlen value_at)) (zlen v)) (Some v).
Proof. apply span_is_mid. unfold lim. lia. Qed.

(** A header that changes only the struct. *)
Lemma post_set o' a' body' st' :
  hs_buf st' = hs_buf st -> hs_out st' = o' -> hs_host_seen st' = seen -> hs_body_present st' = body' ->
  req_is (line_with v) lim o' a' -> header_post (Ret (Next st')) (inr (a', seen, body')).
Proof.
  intros H1 H2 H3 H4 Hr. exists (a', seen, body'), v. rewrite H1. split_and!; try done. unfold state_is.
  rewrite H1, H2, Hbuf. done.
Qed.

Lemma post_pass : header_post (Ret (Next st)) (inr (a, seen, body)).
Proof. destruct Hst as (_ & H2 & H3). apply (post_set (hs_out st)); try done. apply req_here. Qed.

Lemma ieq_here s : Forall name_char (lit s) -> zlen name = zlen (lit s) -> ieq_lit (hs_buf st) (zlen pre) s = Ret (is_name name s).
Proof.
  intros Hc Hl. eapply ieq_literal; [|by rewrite Hbuf|done|done|done].
  rewrite Hbuf. unfold line_with, value_at. rewrite <- !app_assoc. by apply padd_app.
Qed.

Lemma first_principal_is :
  req_is (line_with v) lim (set_principal_header (hs_out st) (zlen value_at) (zlen v)) (first_principal a v).
Proof.
  pose proof req_here as H. unfold set_principal_header, first_principal. pose proof (ri_principal _ _ _ _ H) as Hp.
  unfold span_is in Hp. destruct (sp_off (rq_pw_principal (hs_out st))), (aq_pw_principal a); try done.
  destruct (0 <? zlen v); [|done]. destruct H. split; try done. apply value_span.
Qed.

Lemma host_step : header_post (host_header ar st (zlen value_at) (zlen v))
  (if seen then inl HTTP_ERR_400
   else match spec_host v with None => inl HTTP_ERR_400 | Some h => inr (a {{ aq_host := Some h }}, true, body) end).
Proof.
  assert (Hv : Forall byte_ok v) by (apply Forall_app in Hbytes as [_ [? _]%Forall_app]; done).
  rewrite (host_header_ok ar st value_at v (y ++ post) Hbuf Hv). destruct Hst as (Hreq & Hseen & Hbody). rewrite Hseen.
  destruct seen; [done|]. cbv zeta. unfold spec_host. set (h := map to_lower (upto COLON v)).
  destruct (_ || _); [done|]. destruct (forallb host_char h); [|done]. cbn [negb].
  destruct (drop_while_cut COLON v) as [Ev _]. set (q := drop_while _ v) in *.
  assert (Hl : zlen (h ++ q) = zlen v) by (transitivity (zlen (upto COLON v ++ q)); [unfold h; by rewrite !zlen_app, zlen_map|by rewrite <- Ev]).
  eexists _, (h ++ q). split; [done|]. split; [done|]. cbn [hs_buf].
  assert (Hb : line_with (h ++ q) = value_at ++ h ++ q ++ y ++ post) by (unfold line_with; by rewrite <- !app_assoc).
  split.
  { rewrite Hb. unfold line_with in Hbytes. apply Forall_app in Hbytes as [H1 [H2 H3]%Forall_app].
    apply Forall_app. split; [done|]. rewrite app_assoc. apply Forall_app. split; [|done]. rewrite Ev in H2.
    apply Forall_app in H2 as [H2 H4]. apply Forall_app. split; [|done]. apply Forall_map. eapply Forall_impl; [exact H2|].
    intros c Hc. pose proof (byte_forall (fun c => (0 <=? to_lower c) && (to_lower c <? 256)) eq_refl c Hc) as E. cbv beta in E.
    unfold byte_ok. lia. }
  split; [by rewrite Hb|]. unfold state_is. cbn [hs_buf hs_out hs_host_seen hs_body_present]. split; [|done].
  assert (Hr : req_is (line_with (h ++ q)) lim (hs_out st) a).
  { eapply req_is_mono; [|apply pre_lim|exact Hreq]. rewrite Hbuf. unfold line_with, value_at. rewrite <- !app_assoc.
    by rewrite !ztake_app by done. }
  rewrite <- Hb. destruct Hr. split; try done. cbn [rq_host aq_host]. rewrite Hb. apply span_is_mid.
  unfold lim. rewrite <- Hl, zlen_app. pose proof (zlen_nonneg q). lia.
Qed.

Lemma content_length_step : header_post (content_length_header st (zlen value_at) (zlen v))
  (if zlen v =? 0 then inl HTTP_ERR_400
   else match decimal 0 v with
   | inl e => inl e
   | inr n =>
       if body && negb (aq_content_length a =? n) then inl HTTP_ERR_400
       else inr (a {{ aq_content_length := n }}, seen, if 0 <? n then true else body)
   end).
Proof.
  unfold content_length_header. destruct (zlen v =? 0); [done|].
  replace (Z.to_nat (zlen v)) with (length v) by (unfold zlen; lia).
  rewrite (cl_loop_ok _ _ (zlen v) 0 v) by (rewrite Hbuf; apply cursor_start). cbn [rbind].
  destruct (decimal 0 v) as [e|n]; [done|]. pose proof req_here as Hr. destruct Hst as (_ & Hseen & Hbody).
  rewrite Hbody, (ri_cl _ _ _ _ Hr). destruct (body && _); [done|].
  eapply post_set; try done. destruct Hr. split; done.
Qed.

Lemma set_step o' a' :
  req_is (line_with v) lim o' a' -> header_post (Ret (Next (st {{ hs_out := o' }}))) (inr (a', seen, body)).
Proof. intros Hr. destruct Hst as (_ & Hseen & Hbody). eapply post_set; done. Qed.

(** Settle the name tests that the length of the name decides. *)
Local Ltac other_names :=
  repeat match goal with
  | |- context [is_name name ?s] =>
      rewrite (is_name_len name s) by (let k := eval vm_compute in (zlen (lit s)) in change (zlen (lit s)) with k; lia)
  | |- context [same_name name (lit ?s ++ [0])] =>
      replace (same_name name (lit s ++ [0])) with false by
        (symmetry; apply bool_decide_eq_false_2; intros E%(f_equal zlen); rewrite !zlen_map in E; revert E;
         let k := eval vm_compute in (zlen (lit s ++ [0])) in change (zlen (lit s ++ [0])) with k; lia)
  end; cbn [orb].

Local Ltac name_test s := rewrite (ieq_here s) by (done || by apply lit_chars); cbn [rbind]; destruct (is_name name s) eqn:?; cbn [orb].
Local Ltac field := let H := fresh in pose proof req_here as H; destruct H; split; try done; try apply value_span.

Lemma header_step_ok : header_post (header_step ar st (zlen pre) (zlen name) (zlen value_at) (zlen v)) (spec_header (a, seen, body) name v).
Proof.
  unfold header_step, spec_header. cbv zeta.
  assert (Hone : is_one (hs_buf st) (zlen value_at) (zlen v) = Ret (bool_decide (v = lit "1"))) by (rewrite Hbuf; apply is_one_ok).
  assert (Hhop : metal_ieq (padd (hs_buf st) (zlen pre)) 19 (lit "X-PW-Partition-Hop" ++ [0]) 19 =
    Ret (same_name name (lit "X-PW-Partition-Hop" ++ [0])) \/ zlen name <> 19).
  { destruct (Z.eq_dec (zlen name) 19) as [E|]; [left|by right]. unfold metal_ieq. cbn [Z.eqb Pos.eqb negb].
    rewrite Hbuf. unfold line_with, value_at. rewrite <- !app_assoc, padd_app by done.
    rewrite ieq_loop_ok; [|lia|rewrite zlen_app, E; pose proof (zlen_nonneg ((COLON :: x) ++ v ++ y ++ post)); lia|done].
    unfold sub. rewrite !padd_0, ztake_app, (ztake_all (lit _ ++ [0])) by done. done. }
  destruct (Z.eqb_spec (zlen name) 4).
  { other_names. name_test "Host"%string; [apply host_step|apply post_pass]. }
  destruct (Z.eqb_spec (zlen name) 6).
  { other_names. name_test "Cookie"%string; [apply set_step; field|].
    name_test "Origin"%string; [apply set_step; field|apply post_pass]. }
  destruct (Z.eqb_spec (zlen name) 9).
  { other_names. name_test "X-PW-Auth"%string; [|apply post_pass]. rewrite Hone. cbn [rbind].
    destruct (bool_decide _); [apply set_step; field|apply post_pass]. }
  destruct (Z.eqb_spec (zlen name) 11).
  { other_names. name_test "X-PW-Tenant"%string; [apply set_step; field|apply post_pass]. }
  destruct (Z.eqb_spec (zlen name) 10).
  { other_names. name_test "Connection"%string; [|apply post_pass].
    rewrite (close_loop_ok _ _ _ 0 v); [|rewrite Hbuf; apply cursor_start|by rewrite Hbuf|done|unfold zlen; lia]. cbn [rbind].
    change (has_close v) with (closes v). destruct (closes v); [apply set_step; field|apply post_pass]. }
  destruct (Z.eqb_spec (zlen name) 13).
  { other_names. name_test "If-None-Match"%string; [apply set_step; field|apply post_pass]. }
  destruct (Z.eqb_spec (zlen name) 14).
  { other_names. name_test "Content-Length"%string; [apply content_length_step|].
    name_test "X-PW-Principal"%string; [apply set_step, first_principal_is|].
    name_test "X-Principal-Id"%string; [apply set_step, first_principal_is|apply post_pass]. }
  destruct (Z.eqb_spec (zlen name) 16).
  { other_names. name_test "X-Forwarded-User"%string; [apply set_step, first_principal_is|].
    name_test "X-PW-Write-Token"%string; [apply set_step; field|apply post_pass]. }
  destruct (Z.eqb_spec (zlen name) 17).
  { other_names. name_test "Transfer-Encoding"%string.
    - replace (is_name name "X-Forwarded-Email") with false; [done|]. symmetry. apply bool_decide_eq_false_2.
      apply bool_decide_eq_true in Heqb. rewrite Heqb. done.
    - name_test "X-Forwarded-Email"%string; [apply set_step, first_principal_is|apply post_pass]. }
  destruct (Z.eqb_spec (zlen name) 18).
  { other_names. name_test "X-PW-Partition-Hop"%string; [|apply post_pass]. rewrite Hone. cbn [rbind].
    destruct (bool_decide _); [apply set_step; field|apply post_pass]. }
  destruct (Z.eqb_spec (zlen name) 19).
  { destruct Hhop as [Hhop|?]; [|done]. other_names. name_test "X-Auth-Request-User"%string; [apply set_step, first_principal_is|].
    rewrite Hhop. cbn [rbind]. destruct (same_name name _); [|apply post_pass]. rewrite Hone. cbn [rbind].
    destruct (bool_decide _); [apply set_step; field|apply post_pass]. }
  destruct (Z.eqb_spec (zlen name) 20).
  { other_names. name_test "X-Auth-Request-Email"%string; [apply set_step, first_principal_is|apply post_pass]. }
  destruct (Z.eqb_spec (zlen name) 15).
  { other_names. name_test "Accept-Encoding"%string; [|apply post_pass].
    rewrite Hbuf. unfold line_with. rewrite padd_app by done. rewrite compress_accepted_ok, brotli_accepted_ok. cbn [rbind].
    apply set_step. field; cbn [rq_accept_pc rq_accept_br aq_accept_pc aq_accept_br].
    - rewrite <- ri_pc0. by destruct (accepts_pc v).
    - rewrite <- ri_br0. by destruct (accepts_br None v). }
  destruct (Z.eqb_spec (zlen name) 30).
  { other_names. name_test "Access-Control-Request-Headers"%string; [apply set_step; field|apply post_pass]. }
  destruct (Z.eqb_spec (zlen name) 33).
  { other_names. name_test "X-Auth-Request-Preferred-Username"%string; [apply set_step, first_principal_is|apply post_pass]. }
  other_names. apply post_pass.
Qed.
End Header.

Lemma spec_headers_cons fuel s block :
  block <> [] -> spec_headers (S fuel) s block =
  match cut CR block with
  | Some (line, lf :: rest) =>
      if negb (lf =? LF) then inl HTTP_ERR_400
      else match cut COLON line with
      | None => inl HTTP_ERR_400
      | Some (name, v) => match spec_header s name (trim v) with inl e => inl e | inr s' => spec_headers fuel s' rest end
      end
  | _ => inl HTTP_ERR_400
  end.
Proof. by destruct block. Qed.

(** What the header loop must establish on [pre ++ block ++ CR :: post]. *)
Definition headers_post (pre block post : list Z) (r : res flow) (spec : http_result_t + astate) : Prop :=
  match r with
  | Ret (Stop (e, _, _)) => spec = inl e
  | Ret (Next st') => exists s' front, spec = inr s' /\ hs_buf st' = front ++ CR :: post /\
      zlen front = zlen pre + zlen block /\ Forall byte_ok front /\ state_is (zlen front) st' s'
  | _ => False
  end.

Lemma header_loop_ok ar fuel n st s pre block post :
  hs_buf st = pre ++ block ++ CR :: post -> Forall byte_ok (hs_buf st) -> state_is (zlen pre) st s ->
  (length block <= fuel)%nat -> (length block <= n)%nat ->
  headers_post pre block post (header_loop ar fuel st (zlen pre) (zlen pre + zlen block)) (spec_headers n s block).
Proof.
  revert n st s pre block. induction fuel as [fuel IH] using lt_wf_ind. intros n st s pre block Hbuf Hb Hst Hf Hfn.
  destruct (decide (block = [])) as [->|Hne].
  { rewrite zlen_nil, Z.add_0_r. destruct fuel; cbn [header_loop]; rewrite Z.ltb_irrefl; exists s, pre; rewrite zlen_nil, Z.add_0_r;
      (split_and!; try done; [by destruct n|]); rewrite Hbuf in Hb; by apply Forall_app in Hb as [? _]. }
  destruct fuel as [|fuel]; [destruct block; [done|cbn in Hf; lia]|]. cbn [header_loop].
  assert (Hlen : 0 < zlen block) by (destruct block; [done|]; rewrite zlen_cons; pose proof (zlen_nonneg block); lia).
  replace (zlen pre <? zlen pre + zlen block) with true by lia.
  destruct n as [|n]; [destruct block; [done|cbn in Hfn; lia]|]. rewrite (spec_headers_cons n s block Hne).
  rewrite Hbuf at 1. replace (zlen pre + zlen block - zlen pre) with (zlen block) by lia. rewrite memchr_region by done. cbn [rbind].
  destruct (cut CR block) as [[line after]|] eqn:Ecut; [|done]. apply cut_some in Ecut as [Eblock Hcr].
  assert (Hlf : rd (hs_buf st) (zlen pre + zlen line + 1) = Ret (match after with lf :: _ => lf | [] => CR end)).
  { rewrite Hbuf, Eblock, <- app_assoc. cbn [app]. rewrite (app_shift line CR). rewrite <- Z.add_assoc, <- (zlen_snoc line CR).
    destruct after as [|lf after]; cbn [app]; by apply rd_behind. }
  rewrite Hlf. cbn [rbind]. destruct after as [|lf after]; [done|]. destruct (Z.eqb_spec lf LF) as [->|]; [|done]. cbn [negb].
  replace (zlen pre + zlen line - zlen pre) with (zlen line) by lia.
  assert (Hbuf' : hs_buf st = pre ++ line ++ CR :: LF :: after ++ CR :: post).
  { rewrite Hbuf, Eblock, <- app_assoc. done. }
  rewrite Hbuf' at 1. rewrite memchr_region by done. cbn [rbind].
  destruct (cut COLON line) as [[name v]|] eqn:Ecolon; [|done]. apply cut_some in Ecolon as [Eline Hcol].
  assert (Hll : zlen line = zlen name + 1 + zlen v) by (rewrite Eline, zlen_app, zlen_cons; lia).
  replace (zlen pre + zlen name - zlen pre) with (zlen name) by lia. replace (zlen line - zlen name - 1) with (zlen v) by lia.
  assert (Hbufv : hs_buf st = (pre ++ name ++ [COLON]) ++ v ++ CR :: LF :: after ++ CR :: post).
  { rewrite Hbuf', Eline, <- !app_assoc. done. }
  destruct (trim_ows_ok (pre ++ name ++ [COLON]) v (CR :: LF :: after ++ CR :: post)) as (x & y & Ev & Etrim).
  rewrite <- Hbufv in Etrim. replace (zlen pre + zlen name + 1) with (zlen (pre ++ name ++ [COLON])) by (autorewrite with pico; lia).
  rewrite Etrim. cbn [rbind].
  assert (Hvl : zlen v = zlen x + zlen (trim v) + zlen y) by (rewrite Ev at 1; autorewrite with pico; lia).
  assert (Hbufl : hs_buf st = (pre ++ name ++ COLON :: x) ++ trim v ++ y ++ CR :: LF :: after ++ CR :: post).
  { rewrite Hbufv. rewrite Ev at 1. rewrite <- !app_assoc. done. }
  destruct s as [[a seen] body].
  assert (Hcrs : Forall (fun c => c <> CR) name /\ Forall (fun c => c <> CR) (trim v)).
  { rewrite Eline, Ev in Hcr. apply Forall_app in Hcr as [H1 H2]. apply Forall_cons_1 in H2 as [_ H2].
    by apply Forall_app in H2 as [_ [H2 _]%Forall_app]. }
  pose proof Hb as Hbl. rewrite Hbufl in Hbl.
  pose proof (header_step_ok ar pre name x (trim v) y (CR :: LF :: after ++ CR :: post) a seen body st Hbufl Hbl (proj1 Hcrs) (proj2 Hcrs) Hst) as Hstep.
  replace (zlen (pre ++ name ++ [COLON]) + zlen x) with (zlen (pre ++ name ++ COLON :: x)) by (autorewrite with pico; lia).
  unfold header_post in Hstep. destruct (header_step _ _ _ _ _ _) as [[st'|[[e o] b]]| |]; cbn [rbind]; try done.
  2: { by rewrite Hstep. }
  destruct Hstep as (s' & v' & -> & Hv' & Hbytes' & Hbuf2 & Hst').
  set (pre' := ((pre ++ name ++ COLON :: x) ++ v' ++ y) ++ [CR; LF]).
  assert (Hpre' : zlen pre' = zlen pre + zlen line + 2).
  { unfold pre'. autorewrite with pico. lia. }
  replace (zlen pre + zlen line + 2) with (zlen pre') by lia.
  assert (Hblock : zlen block = zlen line + 2 + zlen after) by (rewrite Eblock; autorewrite with pico; lia).
  replace (zlen pre + zlen block) with (zlen pre' + zlen after) by lia.
  assert (Hbuf3 : hs_buf st' = pre' ++ after ++ CR :: post) by (rewrite Hbuf2; unfold pre'; rewrite <- !app_assoc; done).
  assert (Hst3 : state_is (zlen pre') st' s').
  { destruct s' as [[a' seen'] body']. destruct Hst' as (Hr & Hs & Hbd). split; [|done].
    eapply req_is_mono; [done| |exact Hr]. rewrite Hpre'. autorewrite with pico.
    pose proof (zlen_nonneg y). lia. }
  assert (Hn : (length after <= n)%nat /\ (length after < length block)%nat) by (unfold zlen in *; lia).
  pose proof (IH fuel ltac:(lia) n st' s' pre' after Hbuf3 ltac:(by rewrite Hbuf2) Hst3 ltac:(lia) ltac:(lia)) as IH'.
  unfold headers_post in *. destruct (header_loop _ _ _ _ _) as [[st2|[[e o] b]]| |]; try done.
  destruct IH' as (s2 & front & H1 & H2 & H3 & H4). exists s2, front. split_and!; [done|done|lia|apply H4..].
Qed.

(** ** The whole parser *)

(** What [http_parse] returns for the first [n] bytes of [buf]. *)
Definition parse_post (buf : list Z) (n : Z) (r : http_result_t) (out : http_request_t) (buf' : list Z) : Prop :=
  match spec_parse (ztake n buf) with
  | inl e => r = e
  | inr a =>
      r = HTTP_OK /\ req_is buf' (aq_consumed a) out a /\ 4 <= aq_consumed a <= n /\ zlen buf' = zlen buf /\
      Forall byte_ok buf' /\ padd buf' (aq_consumed a) = padd buf (aq_consumed a)
  end.

Lemma req_is_close buf lim o a :
  req_is buf lim o a -> req_is buf lim (o {{ rq_client_close := true }}) (a {{ aq_client_close := true }}).
Proof. intros []. by split. Qed.

Lemma cut_head h : exists line r, cut CR (h ++ [CR; LF]) = Some (line, r) /\
  exists lf block, r = lf :: block /\ h ++ [CR; LF] = line ++ CR :: lf :: block.
Proof.
  destruct (cut CR (h ++ [CR; LF])) as [[line r]|] eqn:E.
  - exists line, r. split; [done|]. apply cut_some in E as [E _]. destruct r as [|lf block]; [|by exists lf, block].
    exfalso. apply (f_equal last) in E. rewrite last_snoc in E. change (h ++ [CR; LF]) with (h ++ [CR] ++ [LF]) in E.
    rewrite app_assoc, last_snoc in E. done.
  - apply cut_none in E. apply Forall_app in E as [_ E]. by apply Forall_cons_1 in E as [? _].
Qed.

(** Every property of the state that each header keeps holds after them all. *)
Lemma spec_headers_ind (P : astate -> Prop) :
  (forall s name v s', spec_header s name v = inr s' -> P s -> P s') ->
  forall fuel s block s', spec_headers fuel s block = inr s' -> P s -> P s'.
Proof.
  intros HP. induction fuel as [|fuel IH]; intros s block s' Hs Ps; [destruct block; by simplify_eq/=|].
  destruct (decide (block = [])) as [->|Hne]; [by simplify_eq/=|]. rewrite spec_headers_cons in Hs by done.
  repeat case_match; try done. eauto.
Qed.

Lemma spec_header_frame s name v s' :
  spec_header s name v = inr s' ->
  aq_consumed s'.1.1 = aq_consumed s.1.1 /\ aq_method s'.1.1 = aq_method s.1.1 /\ aq_path s'.1.1 = aq_path s.1.1.
Proof.
  destruct s as [[a seen] body]. unfold spec_header, first_principal. intros H. repeat case_match; simplify_eq; done.
Qed.

Lemma spec_headers_frame fuel s block s' :
  spec_headers fuel s block = inr s' ->
  aq_consumed s'.1.1 = aq_consumed s.1.1 /\ aq_method s'.1.1 = aq_method s.1.1 /\ aq_path s'.1.1 = aq_path s.1.1.
Proof.
  intros H. eapply (spec_headers_ind (fun t => aq_consumed t.1.1 = _ /\ aq_method t.1.1 = _ /\ aq_path t.1.1 = _)); [|exact H|done].
  intros t name v t' Ht (<- & <- & <-). exact (spec_header_frame _ _ _ _ Ht).
Qed.

Lemma http_parse_ok ar buf n :
  Forall byte_ok buf -> 0 <= n <= zlen buf ->
  exists r out buf', http_parse ar buf n = Ret (r, out, buf') /\ parse_post buf n r out buf'.
Proof.
  intros Hb Hn. unfold http_parse, parse_post, spec_parse. rewrite zlen_ztake_le by done.
  destruct (Z.ltb_spec n 4); [by do 3 eexists|].
  assert (Hbuf : buf = ztake n buf ++ padd buf n) by (symmetry; apply take_drop). set (l := ztake n buf) in *. set (tl := padd buf n) in *.
  assert (Hl : zlen l = n) by (apply zlen_ztake_le; lia).
  assert (Hmem := memmem_head [] l tl). cbn [app] in Hmem. change (zlen []) with 0 in Hmem. rewrite <- Hbuf in Hmem.
  replace (length l - 3)%nat with (Z.to_nat (n - 3)) in Hmem by (unfold zlen in Hl; lia). rewrite Hmem. cbn [rbind].
  destruct (head_of l) as [h|] eqn:Eh; [|by do 3 eexists]. rewrite Z.add_0_l.
  destruct (head_of_some l h Eh) as [rest El]. destruct (cut_head h) as (line & r & Ecut & lf & block & -> & Eh2). rewrite Ecut.
  apply cut_some in Ecut as [_ Hline].
  assert (Hfull : buf = line ++ CR :: lf :: block ++ CR :: LF :: rest ++ tl).
  { rewrite Hbuf, El. change [CR; LF; CR; LF] with ([CR; LF] ++ [CR; LF]). rewrite <- !app_assoc, (app_assoc h), Eh2, <- app_assoc. done. }
  assert (Hh : zlen h + 2 = zlen line + 2 + zlen block) by (pose proof (f_equal zlen Eh2) as E; autorewrite with pico in E; lia).
  assert (Hcons : zlen h + 4 <= n) by (rewrite <- Hl, El; autorewrite with pico; pose proof (zlen_nonneg rest); lia).
  set (out0 := zero_req {{ rq_consumed := zlen h + 4; rq_has_leftover := zlen h + 4 <? n }}).
  pose proof (request_line_ok line lf (block ++ CR :: LF :: rest ++ tl) (zlen h + 4) out0 Hline) as Hreq.
  specialize (Hreq ltac:(pose proof (zlen_nonneg block); lia)). cbv zeta in Hreq. rewrite <- Hfull in Hreq.
  destruct (request_line buf (zlen h + 4) out0) as [[[e o]|[o p]]| |]; try done; cbn [rbind].
  { destruct (lf =? LF); cbn [negb]; [rewrite Hreq|injection Hreq as <-]; by do 3 eexists. }
  destruct Hreq as (m & path & s & -> & -> & -> & -> & Hspan). replace (LF =? LF) with true by done. cbn [negb].
  set (pre := line ++ [CR; LF]). assert (Hpre : zlen pre = zlen line + 2) by (unfold pre; autorewrite with pico; lia).
  rewrite <- Hpre in *. replace (zlen h + 2) with (zlen pre + zlen block) by lia.
  replace (zlen pre + zlen block - zlen pre) with (zlen block) by lia.
  assert (Hbufp : buf = pre ++ block ++ CR :: LF :: rest ++ tl) by (rewrite Hfull; unfold pre; by rewrite <- app_assoc).
  pose proof (header_loop_ok ar (Z.to_nat (zlen block)) (length block) (mk_hs buf (out0 {{ rq_method := m; rq_path := s }}) false false)
    (start_req m path (zlen h + 4) n, false, false) pre block (LF :: rest ++ tl) Hbufp Hb ltac:(split; [by split|done]) ltac:(unfold zlen; lia) ltac:(lia)) as Hloop.
  unfold headers_post in Hloop. destruct (header_loop _ _ _ _ _) as [[st|[[e o] b]]| |]; try done; cbn [rbind].
  2: { rewrite Hloop. by do 3 eexists. }
  destruct Hloop as ([[a seen] body] & front & Hspec & Hst & Hfr & Hfb & Hreq & <- & <-). rewrite Hspec.
  destruct (hs_host_seen st); cbn [negb]; [|by do 3 eexists].
  do 3 eexists. split; [done|]. set (a' := if hs_body_present st then _ else _).
  assert (Ha' : aq_consumed a' = aq_consumed a) by (unfold a'; by destruct (hs_body_present st)).
  apply spec_headers_frame in Hspec as (Hc & _). cbn in Hc. rewrite Ha', Hc.
  assert (Hz : zlen (hs_buf st) = zlen buf) by (rewrite Hst, Hbufp; autorewrite with pico; lia).
  split_and!; [done| |pose proof (zlen_nonneg h); lia|lia|done| |].
  - assert (Hr : req_is (hs_buf st) (zlen h + 4) (hs_out st) a) by (eapply req_is_mono; [done| |exact Hreq]; lia).
    unfold a'. destruct (hs_body_present st); [by apply req_is_close|done].
  - rewrite Hst. rewrite Hbufp in Hb. apply Forall_app in Hb as [_ [_ Hb]%Forall_app]. by apply Forall_app.
  - assert (Hp : forall x y, zlen x = zlen h + 2 -> padd (x ++ CR :: LF :: y) (zlen h + 4) = y).
    { intros x y Hx. change (x ++ CR :: LF :: y) with (x ++ [CR; LF] ++ y). rewrite app_assoc. apply padd_app.
      autorewrite with pico. lia. }
    rewrite Hst, Hbufp, (app_assoc pre), !Hp; [done|autorewrite with pico; lia..].
Qed.
