(* ===== verification/HttpTheorems.v ===== *)
(** * What the HTTP front end guarantees

    The theorems of the request parser ([http_parse]), of the response
    selection ([http_select] on the routing table of [Jumptable.v]) and of
    conditional requests ([etag_matches]).  The header section of an accepted
    request is described by the list of its fields ([fields]), independently of
    the state the parser keeps while it reads them. *)

From Stdlib Require Import ZArith Lia String.
From stdpp Require Import list numbers option gmap.
From coqutil Require Import Datatypes.RecordSetters.
Import DoubleBraceUpdate.
From S2P Require Import Prelude Util Jumptable Http HttpSpec HttpProps.

(** ** The fields of a header section *)

(** The (name, trimmed value) pairs of a block of lines, each ended by CR LF. *)
Fixpoint fields (fuel : nat) (block : list Z) : option (list (list Z * list Z)) :=
  match block, fuel with
  | [], _ => Some []
  | _, O => None
  | _, S fuel' =>
      match cut CR block with
      | Some (line, lf :: rest) =>
          if negb (lf =? LF) then None
          else match cut COLON line, fields fuel' rest with
          | Some (name, v), Some fs => Some ((name, trim v) :: fs)
          | _, _ => None
          end
      | _ => None
      end
  end.

(** The values of the fields of a name, in order. *)
Definition values (s : string) (fs : list (list Z * list Z)) : list (list Z) :=
  map snd (List.filter (fun f => is_name f.1 s) fs).

(** The header section of a message and its fields. *)
Definition message_fields (l : list Z) : option (list (list Z * list Z)) :=
  match head_of l with
  | Some h => match cut CR (h ++ crlf) with Some (_, _ :: block) => fields (length block) block | _ => None end
  | None => None
  end.

Fixpoint run_fields (s : astate) (fs : list (list Z * list Z)) : http_result_t + astate :=
  match fs with
  | [] => inr s
  | (name, v) :: fs' => match spec_header s name v with inl e => inl e | inr s' => run_fields s' fs' end
  end.

Lemma spec_headers_run fuel s block s' :
  spec_headers fuel s block = inr s' -> exists fs, fields fuel block = Some fs /\ run_fields s fs = inr s'.
Proof.
  revert s block. induction fuel as [|fuel IH]; intros s block H; [destruct block; [by exists []|done]|].
  destruct block as [|b block]; [by exists []|]. cbn [spec_headers fields] in *.
  repeat case_match; simplify_eq; try done; destruct (IH _ _ H) as (fs & E & Hr); simplify_eq.
  eexists. split; [done|]. cbn [run_fields]. match goal with E : spec_header _ _ _ = _ |- _ => by rewrite E end.
Qed.

Lemma values_snoc s fs name v : values s (fs ++ [(name, v)]) = values s fs ++ (if is_name name s then [v] else []).
Proof. unfold values. rewrite List.filter_app, map_app. cbn. by destruct (is_name name s). Qed.

Lemma run_fields_ind (P : list (list Z * list Z) -> astate -> Prop) :
  (forall fs s name v s', spec_header s name v = inr s' -> P fs s -> P (fs ++ [(name, v)]) s') ->
  forall fs s done_ s', run_fields s fs = inr s' -> P done_ s -> P (done_ ++ fs) s'.
Proof.
  intros HP. induction fs as [|[name v] fs IH]; intros s dn s' H Hs; cbn [run_fields] in H; [simplify_eq; by rewrite app_nil_r|].
  destruct (spec_header s name v) as [|s1] eqn:E; [done|]. rewrite app_shift. eauto.
Qed.

(** ** One field *)

(** A name cannot be two different literals. *)
Lemma is_name_other name s t : map to_lower (lit s) <> map to_lower (lit t) -> is_name name s = true -> is_name name t = false.
Proof.
  intros Hne Hs. apply bool_decide_eq_true in Hs. apply bool_decide_eq_false_2. intros Ht. apply Hne. by rewrite <- Hs.
Qed.

(** Evaluate [spec_header] for a field whose name is the literal of [H]. *)
Ltac named H :=
  match type of H with is_name ?name ?s = true =>
    repeat match goal with
    | |- context [is_name name ?t] => first [rewrite H | rewrite (is_name_other name s t ltac:(vm_compute; discriminate) H)]
    end
  end.

Lemma host_field a seen body name v :
  is_name name "Host" = true -> spec_header (a, seen, body) name v =
  if seen then inl HTTP_ERR_400
  else match spec_host v with None => inl HTTP_ERR_400 | Some h => inr (a {{ aq_host := Some h }}, true, body) end.
Proof. intros H. unfold spec_header. by named H. Qed.

Lemma te_field s name v : is_name name "Transfer-Encoding" = true -> spec_header s name v = inl HTTP_ERR_400.
Proof. intros H. destruct s as [[a seen] body]. unfold spec_header. by named H. Qed.

Lemma cl_field a seen body name v :
  is_name name "Content-Length" = true -> spec_header (a, seen, body) name v =
  if zlen v =? 0 then inl HTTP_ERR_400
  else match decimal 0 v with
  | inl e => inl e
  | inr n =>
      if body && negb (aq_content_length a =? n) then inl HTTP_ERR_400
      else inr (a {{ aq_content_length := n }}, seen, if 0 <? n then true else body)
  end.
Proof. intros H. unfold spec_header. by named H. Qed.

Lemma other_field s name v s' :
  is_name name "Host" = false -> is_name name "Content-Length" = false -> spec_header s name v = inr s' ->
  aq_host s'.1.1 = aq_host s.1.1 /\ aq_content_length s'.1.1 = aq_content_length s.1.1 /\ s'.1.2 = s.1.2 /\ s'.2 = s.2.
Proof.
  intros H1 H2. destruct s as [[a seen] body]. unfold spec_header, first_principal. rewrite H1, H2.
  intros H. repeat case_match; simplify_eq; done.
Qed.

(** ** Framing *)

(** The number a string of digits denotes. *)
Definition number (v : list Z) : Z := foldl (fun n c => n * 10 + (c - 0x30)) 0 v.

Lemma decimal_number acc v k :
  decimal acc v = inr k -> 0 <= acc < 2 ^ 64 ->
  forallb is_digit v = true /\ k = foldl (fun n c => n * 10 + (c - 0x30)) acc v /\ 0 <= k < 2 ^ 64.
Proof.
  revert acc. induction v as [|c v IH]; intros acc H Hacc; cbn [decimal] in H; [injection H as <-; split_and!; done || lia|].
  destruct (is_digit c) eqn:Ed; [|done]. destruct (Z.leb_spec (2 ^ 64) (acc * 10 + (c - 48))); [done|]. cbn [negb] in H.
  destruct (IH _ H) as (H1 & H2 & H3); [unfold is_digit in Ed; lia|]. cbn [forallb foldl]. rewrite Ed. split_and!; [done|done|apply H3..].
Qed.

(** What the parser's state says about the fields read so far. *)
Record framed (fs : list (list Z * list Z)) (s : astate) : Prop := {
  fr_te : values "Transfer-Encoding" fs = [];
  fr_host : match values "Host" fs with
            | [] => s.1.2 = false
            | [v] => s.1.2 = true /\ exists h, spec_host v = Some h /\ aq_host s.1.1 = Some h
            | _ => False
            end;
  fr_digits : Forall (fun v => v <> [] /\ forallb is_digit v = true) (values "Content-Length" fs);
  fr_agree : Forall (fun v => number v = 0 \/ number v = aq_content_length s.1.1) (values "Content-Length" fs);
  fr_last : aq_content_length s.1.1 = default 0 (number <$> last (values "Content-Length" fs));
  fr_range : 0 <= aq_content_length s.1.1 < 2 ^ 64;
  fr_body : s.2 = (0 <? aq_content_length s.1.1)
}.

Lemma framed_step fs s name v s' : spec_header s name v = inr s' -> framed fs s -> framed (fs ++ [(name, v)]) s'.
Proof.
  intros H []. destruct s as [[a seen] body]; cbn [fst snd] in *.
  destruct (is_name name "Transfer-Encoding") eqn:Ete; [by rewrite te_field in H|].
  destruct (is_name name "Host") eqn:Eh.
  { pose proof Eh as En. rewrite host_field in H by done. destruct seen; [done|]. destruct (spec_host v) as [h|] eqn:Es; [|done].
    simplify_eq/=. split; rewrite ?values_snoc, ?Ete, ?Eh, ?app_nil_r; named En; rewrite ?app_nil_r; try done.
    destruct (values "Host" fs) as [|v0 [|]]; [cbn; eauto|by destruct fr_host0|done]. }
  destruct (is_name name "Content-Length") eqn:Ecl.
  { rewrite cl_field in H by done. destruct (Z.eqb_spec (zlen v) 0) as [|Hv]; [done|]. destruct (decimal 0 v) as [|k] eqn:Ed; [done|].
    apply decimal_number in Ed as (Hd & Hk & Hr); [|done]. change (foldl _ 0 v) with (number v) in Hk. subst body.
    destruct (_ && _) eqn:Ec; simplify_eq/=. split; cbn [fst snd]; rewrite ?values_snoc, ?Ete, ?Eh, ?Ecl, ?app_nil_r; try done.
    - apply Forall_app. split; [done|]. repeat constructor; [by intros ->|done].
    - apply Forall_app. split; [|repeat constructor; by right]. eapply Forall_impl; [exact fr_agree0|]. cbn. intros w Hw. lia.
    - by rewrite last_snoc.
    - cbn. destruct (0 <? number v) eqn:E1; [done|]. destruct (0 <? aq_content_length a) eqn:E2; [|done]. lia. }
  destruct (other_field _ _ _ _ Eh Ecl H) as (E1 & E2 & E3 & E4). cbn [fst snd] in *.
  split; rewrite ?values_snoc, ?Ete, ?Eh, ?Ecl, ?app_nil_r, ?E1, ?E2, ?E3, ?E4; done.
Qed.

(** The accepted requests, read off the reference parser. *)
Record accepted (l : list Z) (a : areq) : Prop := {
  ac_line : exists m target rest, l = m ++ SP :: target ++ SP :: lit "HTTP/1.1" ++ crlf ++ rest /\
    aq_method a = spec_method m /\ aq_method a <> M_UNKNOWN /\ safe_target target = true /\ aq_path a = Some (upto QMARK target);
  ac_fields : exists fs a0 body, message_fields l = Some fs /\ framed fs (a0, true, body) /\
    aq_host a = aq_host a0 /\ aq_content_length a = aq_content_length a0 /\ (body = true -> aq_client_close a = true)
}.

Lemma spec_line_inr line m path :
  spec_line line = inr (m, path) -> exists mt target, line = mt ++ SP :: target ++ SP :: lit "HTTP/1.1" /\
    m = spec_method mt /\ m <> M_UNKNOWN /\ safe_target target = true /\ path = upto QMARK target.
Proof.
  unfold spec_line. intros H. repeat case_match; simplify_eq; try done.
  repeat match goal with E : cut _ _ = _ |- _ => apply cut_some in E as [-> _] end.
  match goal with E : negb (bool_decide _) = false |- _ => apply negb_false_iff, bool_decide_eq_true in E as -> end.
  do 2 eexists. split_and!; [done..|by apply negb_false_iff|done].
Qed.

Lemma spec_parse_accepted l a : spec_parse l = inr a -> accepted l a.
Proof.
  unfold spec_parse. intros H. destruct (zlen l <? 4); [done|]. destruct (head_of l) as [h|] eqn:Eh; [|done].
  destruct (cut_head h) as (line & r & Ecut & lf & block & -> & E). rewrite Ecut in H. destruct (Z.eqb_spec lf LF) as [->|]; [|done].
  cbn [negb] in H. destruct (spec_line line) as [|[m path]] eqn:El; [done|].
  destruct (spec_headers _ _ _) as [|[[a0 seen] body]] eqn:Es; [done|]. destruct seen; [|done]. cbn [negb] in H. injection H as <-.
  pose proof (spec_headers_frame _ _ _ _ Es) as (_ & Em & Ep). cbn in Em, Ep.
  apply spec_line_inr in El as (mt & target & -> & -> & Hm & Hsafe & ->).
  apply spec_headers_run in Es as (fs & Ef & Hrun). split.
  - destruct (head_of_some l h Eh) as [rest ->]. exists mt, target, (block ++ crlf ++ rest). split.
    + change [CR; LF; CR; LF] with ([CR; LF] ++ [CR; LF]). rewrite <- app_assoc, (app_assoc h), E.
      rewrite <- !app_assoc. cbn [app]. rewrite <- !app_assoc. done.
    + split_and!; [..|done|]; destruct a0, body; cbn in *; congruence.
  - exists fs, a0, body. split; [unfold message_fields, crlf; by rewrite Eh, Ecut|].
    split; [|by destruct body]. apply (run_fields_ind framed framed_step _ _ [] _ Hrun). by split.
Qed.

(** An error of the reference parser is never [HTTP_OK]. *)
Lemma decimal_error acc v : decimal acc v <> inl HTTP_OK.
Proof. revert acc. induction v as [|c v IH]; intros acc; cbn [decimal]; repeat case_match; done. Qed.

Lemma spec_header_error s name v : spec_header s name v <> inl HTTP_OK.
Proof.
  destruct s as [[a seen] body]. unfold spec_header. intros H. repeat case_match; simplify_eq.
  by eapply decimal_error.
Qed.

Lemma spec_headers_error fuel s block : spec_headers fuel s block <> inl HTTP_OK.
Proof.
  revert s block. induction fuel as [|fuel IH]; intros s block; destruct block as [|b block]; try done. cbn [spec_headers].
  intros H. repeat case_match; simplify_eq; [by eapply spec_header_error|by eapply IH].
Qed.

Lemma spec_parse_error l : spec_parse l <> inl HTTP_OK.
Proof.
  unfold spec_parse, spec_line. intros H. repeat case_match; simplify_eq. by eapply spec_headers_error.
Qed.

(** ** Routing *)

(** The response for a parsed message: the canned page of an error, or the
    page of the routing map [m]; with it whether the connection closes, and
    whether only the head is sent. *)
Definition route {R} (jt : jumptable_t R) (m : gmap key R) (p : http_result_t + areq) : R * bool * bool :=
  match p with
  | inl HTTP_ERR_405 => (jt_err_405 jt, true, false)
  | inl HTTP_ERR_409 => (jt_err_409 jt, true, false)
  | inl HTTP_ERR_413 => (jt_err_413 jt, true, false)
  | inl HTTP_ERR_414 => (jt_err_414 jt, true, false)
  | inl HTTP_ERR_505 => (jt_err_505 jt, true, false)
  | inl _ => (jt_err_400 jt, true, false)
  | inr a =>
      let host := default [] (aq_host a) in
      let head := bool_decide (aq_method a = M_HEAD) in
      if bool_decide (aq_method a = M_GET) || head then
        match m !! (host, default [] (aq_path a)) with
        | Some r => (r, aq_client_close a, head)
        | None =>
            if bool_decide (host ∈ map (fun h => ztake h.2 h.1) (jt_known_hosts jt)) then (jt_err_404 jt, aq_client_close a, head)
            else (jt_err_409 jt, true, head)
        end
      else (jt_err_405 jt, aq_client_close a, false)
  end.

(** The pages and hosts of a table, which insertions keep. *)
Definition pages {R} (jt : jumptable_t R) : jumptable_t R := set_table jt [] 0 0 0.

Lemma route_pages {R} (jt jt' : jumptable_t R) m p : pages jt = pages jt' -> route jt m p = route jt' m p.
Proof. destruct jt, jt'. intros [=]; simplify_eq. done. Qed.

Lemma insert_loop_pages {R} (jt : jumptable_t R) h lens host hl path pl v i k jt' :
  insert_loop jt h lens host hl path pl v i k = Ret jt' -> pages jt' = pages jt.
Proof.
  revert i. induction k as [|k IH]; intros i; [done|]. cbn [insert_loop].
  destruct (slot_at _ _) as [s| |]; cbn [rbind]; try done. destruct (fs_value s).
  - destruct (slot_matches _ _ _ _ _ _ _ _) as [[]| |]; cbn [rbind]; try done; [by intros [= ->]|apply IH].
  - destruct (_ <=? _); [done|]. by intros [= <-].
Qed.

Lemma insert_all_pages {R} (ops : list (list Z * list Z * R)) jt jt' : insert_all jt ops = Ret jt' -> pages jt' = pages jt.
Proof.
  revert jt. induction ops as [|[[host path] v] ops IH]; intros jt H; cbn [insert_all] in H; [by simplify_eq|].
  destruct (flat_insert jt host (zlen host) path (zlen path) v) as [jt1| |] eqn:E; cbn [rbind] in H; try done.
  rewrite (IH _ H). unfold flat_insert in E. destruct (_ || _); [done|].
  destruct (key_hash _ _ _ _) as [x| |]; cbn [rbind] in E; try done. by eapply insert_loop_pages.
Qed.

Lemma known_host_ok known host n :
  Forall (fun h => 0 <= h.2 <= zlen h.1) known -> 0 <= n <= zlen host ->
  Jumptable.host_loop known host n = Ret (bool_decide (ztake n host ∈ map (fun h => ztake h.2 h.1) known)).
Proof.
  intros Hk Hn. induction Hk as [|[name len] known Hl Hk IH]; [done|]. cbn [Jumptable.host_loop map fst snd] in *.
  assert (Hcons : bool_decide (ztake n host ∈ ztake len name :: map (fun h => ztake h.2 h.1) known) =
    bool_decide (ztake n host = ztake len name) || bool_decide (ztake n host ∈ map (fun h => ztake h.2 h.1) known)).
  { rewrite <- bool_decide_or. apply bool_decide_ext, elem_of_cons. }
  rewrite Hcons. destruct (Z.eqb_spec len n) as [->|Hne].
  - rewrite mem_eq_ok by lia. cbn [rbind]. rewrite IH. destruct (decide (ztake n name = ztake n host)) as [E|E].
    + by rewrite E, !(bool_decide_eq_true_2 (_ = _)).
    + by rewrite !(bool_decide_eq_false_2 (ztake n _ = _)) by congruence.
  - rewrite (bool_decide_eq_false_2 (_ = _)); [done|]. intros E%(f_equal zlen).
    rewrite !zlen_ztake in E by lia. lia.
Qed.

(** A stored pointer delivers its bytes to the lookups. *)
Lemma at_span_ok buf lim s v :
  span_is buf lim s (Some v) -> sp_len s = zlen v /\ zlen v <= zlen (at_span buf s) /\ ztake (zlen v) (at_span buf s) = v.
Proof.
  unfold span_is, at_span. destruct (sp_off s) as [o|]; [|done]. intros (Hl & Ho & _ & Hv). change (ztake (zlen v) (padd buf o) = v) in Hv.
  split_and!; [done| |done]. rewrite <- Hv at 1. rewrite zlen_ztake by apply zlen_nonneg. lia.
Qed.

Lemma safe_path target :
  safe_target target = true -> exists p, upto QMARK target = SLASH :: p /\ zlen (SLASH :: p) <= MAX_URI_LEN.
Proof.
  intros H. unfold safe_target in H. destruct target as [|c target]; [done|]. destruct (Z.eqb_spec c SLASH) as [->|]; [|done].
  destruct (upto_prefix QMARK (SLASH :: target)) as [b Hb].
  assert (zlen (upto QMARK (SLASH :: target)) <= zlen (SLASH :: target)).
  { rewrite Hb at 2. rewrite zlen_app. pose proof (zlen_nonneg b). lia. }
  assert (Hu : exists p, upto QMARK (SLASH :: target) = SLASH :: p).
  { unfold upto. cbn [cut]. change (SLASH =? QMARK) with false. destruct (cut QMARK target) as [[x y]|]; by eexists. }
  destruct Hu as [p Hp]. exists p. rewrite <- Hp. split; [done|]. lia.
Qed.

Lemma spec_host_len v h : spec_host v = Some h -> 0 < zlen h <= 253.
Proof. unfold spec_host. intros H. repeat case_match; simplify_eq. pose proof (zlen_nonneg (map to_lower (upto COLON v))). lia. Qed.

Lemma accepted_host l a : accepted l a -> exists v h, spec_host v = Some h /\ aq_host a = Some h.
Proof.
  intros [_ (fs & a0 & body & _ & Hf & -> & _)]. destruct Hf. cbn [fst snd] in *.
  destruct (values "Host" fs) as [|v [|]]; [done| |done]. destruct fr_host0 as (_ & h & ? & ?). by exists v, h.
Qed.

(** [jumptable_lookup] on an absolute path. *)
Lemma jumptable_lookup_ok {R} ar (jt : jumptable_t R) m host hl path p :
  table_ok jt -> stores jt m -> 0 <= hl <= 0xffff -> hl <= zlen host -> zlen (SLASH :: p) <= 0xffff ->
  zlen (SLASH :: p) <= zlen path -> ztake (zlen (SLASH :: p)) path = SLASH :: p ->
  jumptable_lookup ar jt host hl path (zlen (SLASH :: p)) = Ret (m !! (ztake hl host, SLASH :: p)).
Proof.
  intros Hjt Hm H1 H2 H3 H4 E. unfold jumptable_lookup. pose proof (zlen_nonneg p) as Hp. rewrite zlen_cons in *.
  replace (zlen p + 1 =? 0) with false by lia. destruct path as [|c path]; [change (zlen []) with 0 in *; lia|].
  rewrite <- E at 1. unfold ztake in E. destruct (Z.to_nat (zlen p + 1)) as [|k] eqn:Ek; [lia|]. injection E as -> E.
  rewrite rd_cons_0. cbn [rbind]. change (SLASH =? 0x2f) with true. cbn [negb].
  rewrite (flat_lookup_ok host (SLASH :: path) hl (zlen p + 1) H1 ltac:(lia) H2 H4 ar jt m Hjt Hm). by unfold ztake; rewrite Ek.
Qed.

Lemma http_select_ok {R} ar (jt : jumptable_t R) m buf n r out buf' :
  table_ok jt -> stores jt m -> Forall (fun h => 0 <= h.2 <= zlen h.1) (jt_known_hosts jt) ->
  parse_post buf n r out buf' -> r <> HTTP_NEED_MORE ->
  http_select ar jt r buf' out = Ret (route jt m (spec_parse (ztake n buf))).
Proof.
  intros Hjt Hm Hk Hpost Hr. unfold parse_post in Hpost. destruct (spec_parse (ztake n buf)) as [e|a] eqn:Hs.
  { subst e. pose proof (spec_parse_error (ztake n buf)). by destruct r. }
  destruct Hpost as (-> & Hreq & _). apply spec_parse_accepted in Hs.
  destruct (accepted_host _ _ Hs) as (v & host & Hv & Hh). apply spec_host_len in Hv.
  destruct Hs as [(mt & target & rest & _ & _ & Hmeth & Hsafe & Hp) _]. destruct (safe_path _ Hsafe) as (p & Ep & Hpl). rewrite Ep in Hp.
  pose proof (ri_host _ _ _ _ Hreq) as Hhs. pose proof (ri_path _ _ _ _ Hreq) as Hps. rewrite Hh in Hhs. rewrite Hp in Hps.
  apply at_span_ok in Hhs as (El & Hhl & Ehost). apply at_span_ok in Hps as (Elp & Hpl' & Epath).
  unfold http_select, route. rewrite (ri_method _ _ _ _ Hreq), (ri_close _ _ _ _ Hreq), El, Elp, Hh, Hp. cbn [default].
  unfold MAX_URI_LEN in *. rewrite (jumptable_lookup_ok ar jt m _ (zlen host) _ p), Ehost by (done || lia). cbn [rbind].
  unfold jumptable_host_exists. rewrite known_host_ok, Ehost by (done || lia). cbn [rbind].
  destruct (aq_method a); try done; cbn; destruct (m !! _); try done; by destruct (bool_decide _).
Qed.

(** ** Entity tags *)

Definition strip_weak (l : list Z) : list Z :=
  match l with w :: s :: l' => if (w =? 0x57) && (s =? SLASH) then l' else l | _ => l end.

(** Is [our], a quoted tag, in the list?  A round consumes at least a byte. *)
Fixpoint etag_in (fuel : nat) (our l : list Z) : bool :=
  match fuel with
  | O => false
  | S fuel' =>
      match strip_weak (drop_while is_sep l) with
      | [] => false
      | c :: q =>
          if c =? QUOTE then
            match cut QUOTE q with
            | Some (o, rest) => bool_decide (QUOTE :: o ++ [QUOTE] = our) || etag_in fuel' our rest
            | None => bool_decide (QUOTE :: q = our)
            end
          else etag_in fuel' our (drop_while not_comma (c :: q))
      end
  end.

Lemma etag_compare inm len p q r our post :
  cursor inm 0 len p (q ++ r) ->
  (if p + zlen q - p =? zlen our then mem_eq (padd inm p) (our ++ post) (zlen our) else Ret false) = Ret (bool_decide (q = our)).
Proof.
  intros Hc. destruct (cursor_padd _ _ _ _ _ Hc) as [post' E]. rewrite Z.add_0_l in E. rewrite E, <- app_assoc.
  replace (p + zlen q - p) with (zlen q) by lia. destruct (Z.eqb_spec (zlen q) (zlen our)) as [Eq|Ne].
  - rewrite mem_eq_ok; [|rewrite zlen_app; pose proof (zlen_nonneg (r ++ post')); lia|rewrite zlen_app; pose proof (zlen_nonneg post); lia].
    by rewrite (ztake_app our), <- Eq, ztake_app.
  - rewrite bool_decide_eq_false_2; [done|]. congruence.
Qed.

Lemma weak_test inm len p r :
  cursor inm 0 len p r ->
  exists w, (if p + 2 <=? len then let! c := rd inm p in if c =? 0x57 then let! c := rd inm (p + 1) in Ret (c =? SLASH) else Ret false
             else Ret false) = Ret w /\
    cursor inm 0 len (if w then p + 2 else p) (strip_weak r) /\ (length (strip_weak r) <= length r)%nat /\
    (w = true -> (2 + length (strip_weak r) <= length r)%nat) /\ (w = false -> strip_weak r = r).
Proof.
  intros Hc. destruct (cursor_len _ _ _ _ _ Hc) as (Hp & El & _). destruct r as [|a [|b r]].
  - rewrite zlen_nil in El. replace (p + 2 <=? len) with false by lia. by exists false.
  - change (zlen [a]) with 1 in El. replace (p + 2 <=? len) with false by lia. by exists false.
  - rewrite !zlen_cons in El. pose proof (zlen_nonneg r). replace (p + 2 <=? len) with true by lia.
    pose proof (cursor_rd _ _ _ _ _ _ Hc) as E1. pose proof (cursor_rd _ _ _ _ _ _ (cursor_step _ _ _ _ _ _ Hc)) as E2.
    rewrite Z.add_0_l in E1, E2. rewrite E1. cbn [rbind strip_weak]. destruct (a =? 87); [|by exists false].
    rewrite E2. cbn [rbind andb]. exists (b =? SLASH). split; [done|]. destruct (b =? SLASH); [|done].
    split; [exact (cursor_move _ _ _ _ [a; b] r Hc)|cbn; repeat split; lia || done].
Qed.

(** A quoted tag, and the rest of the list by the hypothesis. *)
Lemma etag_quoted inm len our post p q fuel :
  cursor inm 0 len p (QUOTE :: q) ->
  (forall p' r, cursor inm 0 len p' r -> (length r <= length q)%nat -> etag_loop inm len (our ++ post) (zlen our) p' fuel = Ret (etag_in fuel our r)) ->
  (let! i := skip_while not_quote inm 0 (p + 1) len (Z.to_nat len) in
   let! e := (if (if i <? len then i + 1 else i) - p =? zlen our then mem_eq (padd inm p) (our ++ post) (zlen our) else Ret false) in
   if e then Ret true else etag_loop inm len (our ++ post) (zlen our) (if i <? len then i + 1 else i) fuel) =
  Ret (match cut QUOTE q with
       | Some (o, rest) => bool_decide (QUOTE :: o ++ [QUOTE] = our) || etag_in fuel our rest
       | None => bool_decide (QUOTE :: q = our)
       end).
Proof.
  intros Hc IH. destruct (cursor_len _ _ _ _ _ Hc) as (Hp & El & _). pose proof (cursor_step _ _ _ _ _ _ Hc) as Hc1.
  rewrite zlen_cons in El. pose proof (zlen_nonneg q).
  destruct (cursor_skip not_quote _ _ _ _ _ (Z.to_nat len) Hc1) as (i & -> & Hc2 & _); [unfold zlen in *; lia|]. cbn [rbind].
  destruct (cursor_len _ _ _ _ _ Hc2) as (_ & El2 & _). destruct (drop_while_cut QUOTE q) as [Eq Ed].
  change (drop_while _ q) with (drop_while not_quote q) in Eq, Ed. rewrite Ed in Hc2, El2.
  destruct (cut QUOTE q) as [[o rest]|] eqn:Ecut.
  - apply cut_some in Ecut as [-> _]. rewrite zlen_cons in El2. pose proof (zlen_nonneg rest). replace (i <? len) with true by lia.
    rewrite zlen_app, zlen_cons in El.
    replace (i + 1) with (p + zlen (QUOTE :: o ++ [QUOTE])) by (autorewrite with pico; lia).
    assert (Hc3 : cursor inm 0 len p ((QUOTE :: o ++ [QUOTE]) ++ rest)) by (cbn [app]; by rewrite <- app_assoc).
    rewrite (etag_compare _ _ _ _ _ _ _ Hc3). cbn [rbind]. destruct (bool_decide _); [done|]. cbn [orb].
    apply IH; [by apply cursor_move|]. rewrite length_app. cbn. lia.
  - rewrite zlen_nil in El2. replace (i <? len) with false by lia.
    replace i with (p + zlen (QUOTE :: q)) by (autorewrite with pico; lia).
    assert (Hc3 : cursor inm 0 len p ((QUOTE :: q) ++ [])) by (by rewrite app_nil_r).
    rewrite (etag_compare _ _ _ _ _ _ _ Hc3). cbn [rbind]. destruct (bool_decide _); [done|].
    rewrite (IH _ [] (cursor_move _ _ _ _ _ _ Hc3)) by (cbn; lia). by destruct fuel.
Qed.

Lemma etag_loop_ok inm len our post p r fuel :
  cursor inm 0 len p r -> (length r <= fuel)%nat -> etag_loop inm len (our ++ post) (zlen our) p fuel = Ret (etag_in fuel our r).
Proof.
  revert p r. induction fuel as [|fuel IH]; intros p r Hc Hf; destruct (cursor_len _ _ _ _ _ Hc) as (Hp & El & _).
  { destruct r; [|cbn in Hf; lia]. rewrite zlen_nil in El. cbn [etag_loop]. by replace (p <? len) with false by lia. }
  cbn [etag_loop etag_in]. destruct (Z.ltb_spec p len) as [Hlt|]; [|destruct r; [done|rewrite zlen_cons in El; pose proof (zlen_nonneg r); lia]].
  assert (Hn : (length r <= Z.to_nat len)%nat) by (unfold zlen in *; lia).
  destruct (cursor_skip is_sep _ _ _ _ _ _ Hc Hn) as (p1 & -> & Hc1 & _). cbn [rbind].
  pose proof (drop_while_length is_sep r) as Hl1. pose proof (drop_while_head is_sep r) as Hh. set (r1 := drop_while is_sep r) in *.
  destruct (cursor_len _ _ _ _ _ Hc1) as (Hp1 & El1 & _). destruct r1 as [|b r1'] eqn:Er1.
  { rewrite zlen_nil in El1. replace (len <=? p1) with true by lia. done. }
  rewrite <- Er1 in *. assert (0 < zlen r1) by (rewrite Er1, zlen_cons; pose proof (zlen_nonneg r1'); lia).
  replace (len <=? p1) with false by lia. destruct (weak_test _ _ _ _ Hc1) as (w & -> & Hc2 & Hlw & Hw1 & Hw2). cbn [rbind].
  replace (p1 + (if w then 2 else 0)) with (if w then p1 + 2 else p1) by (destruct w; lia). set (p2 := if w then p1 + 2 else p1) in *.
  destruct (cursor_len _ _ _ _ _ Hc2) as (Hp2 & El2 & _). set (r2 := strip_weak r1) in *. destruct r2 as [|c q] eqn:Er2.
  { rewrite zlen_nil in El2. replace (len <=? p2) with true by lia. cbn [rbind negb].
    destruct (cursor_skip not_comma _ _ _ _ _ (Z.to_nat len) Hc2 ltac:(cbn; lia)) as (p3 & -> & Hc3 & _). cbn [rbind].
    rewrite (IH p3 _ Hc3) by (cbn; lia). by destruct fuel. }
  replace (len <=? p2) with false by (rewrite zlen_cons in El2; pose proof (zlen_nonneg q); lia).
  pose proof (cursor_rd _ _ _ _ _ _ Hc2) as Ec. rewrite Z.add_0_l in Ec. rewrite Ec. cbn [rbind].
  destruct (Z.eqb_spec c QUOTE) as [->|Hc']; cbn [negb].
  { apply etag_quoted; [done|]. intros p' r' Hc' Hr'. apply IH; [done|]. cbn in Hlw. lia. }
  destruct (cursor_skip not_comma _ _ _ _ _ (Z.to_nat len) Hc2 ltac:(lia)) as (p3 & -> & Hc3 & _). cbn [rbind].
  apply IH; [done|]. pose proof (drop_while_length not_comma (c :: q)) as Hd. destruct w; [specialize (Hw1 eq_refl); lia|].
  specialize (Hw2 eq_refl). assert (c = b) as -> by congruence. cbn [drop_while] in *.
  replace (not_comma b) with true by (unfold is_sep, not_comma in *; by apply orb_false_iff in Hh as [_ ->]).
  pose proof (drop_while_length not_comma q). cbn in Hlw. lia.
Qed.

Lemma strlen_ok x post k : Forall (fun c => c <> 0) x -> (length x < k)%nat -> forall a, strlen (a ++ x ++ 0 :: post) (zlen a) k = Ret (zlen a + zlen x).
Proof.
  intros Hx. revert k. induction Hx as [|c x Hc Hx IH]; intros k Hk a; (destruct k as [|k]; [lia|]); cbn [strlen app].
  - rewrite rd_mid. cbn [rbind]. by rewrite zlen_nil, Z.add_0_r.
  - rewrite rd_mid. cbn [rbind]. destruct (Z.eqb_spec c 0); [done|].
    rewrite app_shift, <- (zlen_snoc a c), IH by (cbn in Hk; lia). rewrite zlen_snoc, zlen_cons. f_equal. lia.
Qed.

(** The server's own tag without its weakness mark. *)
Lemma our_weak e0 x post :
  exists w, (if (2 <=? zlen (e0 :: x)) && (e0 =? 0x57) then let! c := rd (e0 :: x ++ post) 1 in Ret (c =? SLASH) else Ret false) = Ret w /\
    (if w then padd (e0 :: x ++ post) 2 else e0 :: x ++ post) = strip_weak (e0 :: x) ++ post /\
    (if w then zlen (e0 :: x) - 2 else zlen (e0 :: x)) = zlen (strip_weak (e0 :: x)).
Proof.
  destruct x as [|e1 x]; [by exists false|]. rewrite !zlen_cons. pose proof (zlen_nonneg x). replace (2 <=? _) with true by lia.
  cbn [andb strip_weak]. destruct (e0 =? 87); cbn [andb]; [|exists false; rewrite ?zlen_cons; by split_and!].
  replace (rd (e0 :: (e1 :: x) ++ post) 1) with (Ret e1) by (symmetry; apply (rd_mid [e0])). cbn [rbind andb].
  exists (e1 =? SLASH). split; [done|]. destruct (e1 =? SLASH); [|rewrite ?zlen_cons; by split_and!]. split; [apply (padd_app [e0; e1]); done|lia].
Qed.

(** What [etag_matches] computes, for a NUL-terminated tag [x]. *)
Lemma etag_matches_ok inm more x post :
  Forall (fun c => c <> 0) x ->
  etag_matches (Some (inm ++ more)) (zlen inm) (x ++ 0 :: post) =
  Ret (negb (bool_decide (inm = [])) && negb (bool_decide (x = [])) &&
       (bool_decide (inm = lit "*") || etag_in (length inm) (strip_weak x) inm)).
Proof.
  intros Hx. unfold etag_matches. destruct inm as [|i0 inm]; [done|].
  assert (Hpos : 0 < zlen (i0 :: inm)) by (rewrite zlen_cons; pose proof (zlen_nonneg inm); lia).
  replace (zlen (i0 :: inm) =? 0) with false by lia. destruct x as [|e0 x]; [done|].
  cbn [app]. rewrite rd_cons_0. cbn [rbind]. pose proof Hx as Hx0. apply Forall_cons_1 in Hx0 as [He0 _].
  destruct (Z.eqb_spec e0 0); [done|].
  assert (Hstar : (if zlen (i0 :: inm) =? 1 then let! c := rd (i0 :: inm ++ more) 0 in Ret (c =? 0x2a) else Ret false) =
    Ret (bool_decide (i0 :: inm = lit "*"))).
  { rewrite zlen_cons. rewrite rd_cons_0. cbn [rbind]. destruct inm as [|i1 inm]; cbn [app].
    - change (zlen [] + 1 =? 1) with true. f_equal. destruct (Z.eqb_spec i0 42) as [->|]; [done|]. rewrite bool_decide_eq_false_2; [done|]. by intros [=].
    - rewrite zlen_cons. pose proof (zlen_nonneg inm). replace (_ =? 1) with false by lia. rewrite bool_decide_eq_false_2; [done|]. by intros [=]. }
  rewrite Hstar. cbn [rbind]. destruct (bool_decide (i0 :: inm = lit "*")); [done|]. cbn [orb].
  pose proof (strlen_ok (e0 :: x) post (length (e0 :: x ++ 0 :: post)) Hx) as Hs. rewrite <- (app_nil_l ((e0 :: x) ++ _)) in Hs.
  specialize (Hs ltac:(cbn; rewrite length_app; cbn; lia) []). cbn [app] in Hs. change (zlen []) with 0 in Hs. rewrite Hs. cbn [rbind].
  rewrite Z.add_0_l. destruct (our_weak e0 x (0 :: post)) as (w & -> & E1 & E2). cbn [rbind]. rewrite E1, E2.
  replace (Z.to_nat (zlen (i0 :: inm))) with (length (i0 :: inm)) by (unfold zlen; lia).
  apply etag_loop_ok; [|done]. exact (cursor_start [] (i0 :: inm) more).
Qed.

(** *** Lists of entity tags *)

Definition entity_tag (w : bool) (o : list Z) : list Z := (if w then lit "W/" else []) ++ QUOTE :: o ++ [QUOTE].

(** Tags, each behind its separators. *)
Fixpoint tag_list (ts : list (list Z * bool * list Z)) : list Z :=
  match ts with [] => [] | (sep, w, o) :: ts' => sep ++ entity_tag w o ++ tag_list ts' end.

Definition tag_ok (t : list Z * bool * list Z) : Prop := forallb is_sep t.1.1 = true /\ Forall (fun c => c <> QUOTE) t.2.

Lemma drop_sep sep l : forallb is_sep sep = true -> drop_while is_sep (sep ++ l) = drop_while is_sep l.
Proof. intros H. by apply drop_while_app_false. Qed.

Lemma etag_in_list v ts trail fuel :
  Forall tag_ok ts -> forallb is_sep trail = true -> (length ts <= fuel)%nat ->
  etag_in fuel (QUOTE :: v ++ [QUOTE]) (tag_list ts ++ trail) = existsb (fun t => bool_decide (t.2 = v)) ts.
Proof.
  intros Hts Htr. revert fuel. induction Hts as [|[[sep w] o] ts [Hsep Ho] Hts IH]; intros fuel Hf; cbn [fst snd] in *.
  - destruct fuel; [done|]. cbn [etag_in tag_list app]. rewrite <- (app_nil_r trail). by rewrite drop_sep.
  - destruct fuel as [|fuel]; [cbn in Hf; lia|]. cbn [etag_in tag_list existsb snd]. rewrite <- !app_assoc, drop_sep by done.
    assert (Hd : strip_weak (drop_while is_sep (entity_tag w o ++ tag_list ts ++ trail)) = QUOTE :: o ++ QUOTE :: tag_list ts ++ trail).
    { unfold entity_tag. destruct w; [change (lit "W/") with [0x57; SLASH]|]; rewrite <- !app_assoc; cbn [app].
      - change (strip_weak (0x57 :: SLASH :: QUOTE :: (o ++ [QUOTE]) ++ tag_list ts ++ trail) = QUOTE :: o ++ QUOTE :: tag_list ts ++ trail).
        cbn [strip_weak Z.eqb andb]. by rewrite <- app_assoc.
      - change (strip_weak (QUOTE :: (o ++ [QUOTE]) ++ tag_list ts ++ trail) = QUOTE :: o ++ QUOTE :: tag_list ts ++ trail).
        rewrite <- app_assoc. by destruct o. }
    rewrite Hd. change (QUOTE =? QUOTE) with true. rewrite cut_app, IH by (done || cbn in Hf; lia). f_equal.
    apply bool_decide_ext. split; [intros [= E]; by apply app_inj_tail in E as [-> _]|by intros ->].
Qed.

Lemma tag_list_length ts trail : (2 * length ts <= length (tag_list ts ++ trail))%nat.
Proof.
  induction ts as [|[[sep w] o] ts IH]; [cbn; lia|]. cbn [tag_list length]. rewrite <- !app_assoc, !length_app. unfold entity_tag.
  rewrite !length_app in *. cbn [length]. rewrite length_app. cbn [length]. lia.
Qed.

(** A match is an occurrence of the tag. *)
Lemma strip_weak_suffix l : exists a, l = a ++ strip_weak l.
Proof. destruct l as [|w [|s l]]; [by exists []..|]. cbn [strip_weak]. destruct (_ && _); [by exists [w; s]|by exists []]. Qed.

Lemma etag_in_occurs our fuel l : etag_in fuel our l = true -> exists a b, l = a ++ our ++ b.
Proof.
  revert l. induction fuel as [|fuel IH]; intros l H; [done|]. cbn [etag_in] in H.
  destruct (drop_while_suffix is_sep l) as [x1 E1]. destruct (strip_weak_suffix (drop_while is_sep l)) as [x2 E2].
  rewrite E2 in E1. destruct (strip_weak _) as [|c q] eqn:Er; [done|]. clear E2.
  assert (Hgo : forall y r, c :: q = y ++ r -> (exists a b, r = a ++ our ++ b) -> exists a b, l = a ++ our ++ b).
  { intros y r Ey (a & b & ->). exists (x1 ++ x2 ++ y ++ a), b. rewrite E1, Ey, <- !app_assoc. done. }
  destruct (Z.eqb_spec c QUOTE) as [->|_].
  - destruct (cut QUOTE q) as [[o rest]|] eqn:Ecut.
    + apply cut_some in Ecut as [-> _]. apply orb_true_iff in H as [H%bool_decide_eq_true|H].
      * apply (Hgo [] (our ++ rest)); [rewrite <- H; cbn; by rewrite <- app_assoc|by exists [], rest].
      * apply (Hgo (QUOTE :: o ++ [QUOTE]) rest); [cbn; by rewrite <- app_assoc|by apply IH].
    + apply bool_decide_eq_true in H. apply (Hgo [] our); [by rewrite <- H|exists [], []; by rewrite app_nil_r].
  - destruct (drop_while_suffix not_comma (c :: q)) as [y Ey]. exact (Hgo y _ Ey (IH _ H)).
Qed.

(** ** The guarantees *)

(** C4: the request parser is total and stays inside the received bytes, on
    every input, and computes the reference parser: the same error for a
    rejected or incomplete message, and for an accepted one every field of the
    request, as pointers that still hold the parsed bytes when the parser
    returns (the Host value lower-cased in place); the bytes behind the header
    section, which belong to the next request, are untouched. *)
Theorem http_parse_refines ar buf n :
  Forall byte_ok buf -> 0 <= n <= zlen buf ->
  (exists r out buf', http_parse ar buf n = Ret (r, out, buf') /\ parse_post buf n r out buf') /\
  spec_parse (ztake n buf) <> inl HTTP_OK.
Proof. intros Hb Hn. split; [by apply http_parse_ok|apply spec_parse_error]. Qed.



(** Conditional requests.  [etag_matches] is total and in bounds for every
    If-None-Match value and NUL-terminated tag, and a match means that the value
    is "*" or contains the tag; and for a list of entity tags, weak or strong
    and separated in any way, it holds exactly when one of them has the opaque
    value of the server's tag (weak comparison). *)
Theorem etag_matches_correct inm more x post :
  Forall (fun c => c <> 0) x ->
  (exists b, etag_matches (Some (inm ++ more)) (zlen inm) (x ++ 0 :: post) = Ret b /\
     (b = true -> inm = lit "*" \/ exists a c, inm = a ++ strip_weak x ++ c)) /\
  (forall ts trail w v, Forall tag_ok ts -> forallb is_sep trail = true -> inm = tag_list ts ++ trail -> x = entity_tag w v ->
     etag_matches (Some (inm ++ more)) (zlen inm) (x ++ 0 :: post) = Ret (existsb (fun t => bool_decide (t.2 = v)) ts)).
Proof.
  intros Hx. rewrite etag_matches_ok by done. split.
  - eexists. split; [done|]. intros [_ H]%andb_true_iff. apply orb_true_iff in H as [H|H]; [left; by apply bool_decide_eq_true in H|].
    right. by eapply etag_in_occurs.
  - intros ts trail w v Hts Htr Ei ->. f_equal.
    replace (bool_decide (entity_tag w v = [])) with false by (by destruct w).
    assert (Hs : strip_weak (entity_tag w v) = QUOTE :: v ++ [QUOTE]) by (by destruct w, v). rewrite Hs.
    rewrite Ei, (etag_in_list v ts trail) by (done || (pose proof (tag_list_length ts trail); lia)).
    destruct ts as [|t ts].
    { destruct (bool_decide_reflect (tag_list [] ++ trail = lit "*")) as [E|_]; [|by rewrite andb_false_r].
      change (trail = lit "*") in E. by subst trail. }
    assert (Hlen : (2 <= length (tag_list (t :: ts) ++ trail))%nat) by (pose proof (tag_list_length (t :: ts) trail) as Ht; cbn [length] in Ht; lia).
    rewrite !bool_decide_eq_false_2; [done|..]; intros E; rewrite E in Hlen; cbn in Hlen; lia.
Qed.

(** ** Examples *)

Definition site : jumptable_t Z := mk_jt [] 0 0 0 400 404 405 409 413 414 505 [(lit "example.com", 11)].
Definition site_routes : list (list Z * list Z * Z) := [(lit "example.com", lit "/a", 200)].

Lemma bytes_check l : forallb (fun b => (0 <=? b) && (b <? 256)) l = true -> Forall byte_ok l.
Proof. intros H. apply list.Forall_forall. intros b Hb. rewrite forallb_forall in H. specialize (H b ltac:(by apply list_elem_of_In)). unfold byte_ok. lia. Qed.

Lemma demo_parsed :
  match spec_parse (ztake (zlen demo_request) demo_request) with
  | inl _ => False
  | inr a => aq_client_close a = true /\ aq_accept_br a = true /\ aq_host a = Some (lit "example.com") /\
      padd demo_request (aq_consumed a) = lit "GET"
  end.
Proof. vm_compute. repeat split. Qed.

Lemma http_parse_refines_witness : exists out buf',
  http_parse SSE2 demo_request (zlen demo_request) = Ret (HTTP_OK, out, buf') /\ rq_client_close out = true /\ rq_accept_br out = true /\
  span_is buf' (rq_consumed out) (rq_host out) (Some (lit "example.com")) /\ padd buf' (rq_consumed out) = lit "GET".
Proof.
  destruct (http_parse_refines SSE2 demo_request (zlen demo_request)) as [(r & out & buf' & E & H) _].
  - apply bytes_check. by vm_compute.
  - split; [apply zlen_nonneg|done].
  - pose proof demo_parsed as Ha.
    exists out, buf'. unfold parse_post in H. destruct (spec_parse _) as [e|a]; [destruct Ha|].
    destruct H as (-> & Hr & _ & _ & _ & Hp).
    destruct Ha as (H1 & H2 & H3 & H4). rewrite (ri_close _ _ _ _ Hr), (ri_br _ _ _ _ Hr), (ri_consumed _ _ _ _ Hr), Hp, <- H3.
    split_and!; [exact E|exact H1|exact H2|exact (ri_host _ _ _ _ Hr)|exact H4].
Defined.



(** [W/"b", "a"] against ["a"]. *)
Lemma etag_matches_correct_witness :
  let inm := [0x57; 0x2f; 0x22; 0x62; 0x22; 0x2c; 0x20; 0x22; 0x61; 0x22] in
  etag_matches (Some (inm ++ [13])) 10 ([0x22; 0x61; 0x22] ++ 0 :: []) = Ret true.
Proof.
  intros inm. destruct (etag_matches_correct inm [13] [0x22; 0x61; 0x22] []) as [_ H].
  - repeat constructor; discriminate.
  - apply (H [([], true, [0x62]); ([0x2c; 0x20], false, [0x61])] [] false [0x61]).
    + repeat constructor; discriminate.
    + done.
    + done.
    + done.
Defined.

(** The ".." check runs on the target with its query, so a query hides a final
    ".." segment of the routed path. *)
Lemma dotdot_hidden_by_query :
  let buf := lit "GET /..?x HTTP/1.1" ++ crlf ++ lit "Host: a" ++ crlf ++ crlf in
  exists out buf', http_parse SSE2 buf (zlen buf) = Ret (HTTP_OK, out, buf') /\ sub buf' 4 (sp_len (rq_path out)) = lit "/..".
Proof. do 2 eexists. split; by vm_compute. Qed.

(** A first Content-Length of zero does not conflict with a later one. *)
Lemma zero_length_then_another :
  let buf := lit "GET / HTTP/1.1" ++ crlf ++ lit "Host: a" ++ crlf ++ lit "Content-Length: 0" ++ crlf ++
             lit "Content-Length: 5" ++ crlf ++ crlf in
  exists out buf', http_parse SSE2 buf (zlen buf) = Ret (HTTP_OK, out, buf') /\ rq_content_length out = 5.
Proof. do 2 eexists. split; by vm_compute. Qed.
