(* ===== verification/Varint.v ===== *)
(** * QUIC variable-length integers (RFC 9000 section 16)

    Models [userspace/quic/varint.c].  An encoder returns the bytes it writes;
    the empty list is the C return value 0 (nothing written).  The decoder's
    return value 0 is [Fail]. *)

From Stdlib Require Import ZArith Lia.
From stdpp Require Import list numbers.
From S2P Require Import Prelude.

Definition QUIC_VARINT_MAX : Z := 0x3fffffffffffffff.

Definition quic_varint_size (v : Z) : Z :=
  if v <=? 0x3f then 1
  else if v <=? 0x3fff then 2
  else if v <=? 0x3fffffff then 4
  else if v <=? QUIC_VARINT_MAX then 8
  else 0.

Definition quic_varint_encode (out_cap v : Z) : list Z :=
  let n := quic_varint_size v in
  if (n =? 0) || (out_cap <? n) then []
  else if n =? 1 then [u8 v]
  else if n =? 2 then
    [u8 (Z.lor 0x40 (Z.land (Z.shiftr v 8) 0x3f)); u8 v]
  else if n =? 4 then
    [u8 (Z.lor 0x80 (Z.land (Z.shiftr v 24) 0x3f));
     u8 (Z.shiftr v 16); u8 (Z.shiftr v 8); u8 v]
  else
    [u8 (Z.lor 0xc0 (Z.land (Z.shiftr v 56) 0x3f));
     u8 (Z.shiftr v 48); u8 (Z.shiftr v 40); u8 (Z.shiftr v 32);
     u8 (Z.shiftr v 24); u8 (Z.shiftr v 16); u8 (Z.shiftr v 8); u8 v].

(** [for (i = 1; i < n; i++) x = (x << 8) | in[i];], [k] iterations left. *)
Fixpoint varint_loop (p : list Z) (i : Z) (k : nat) (x : Z) : res Z :=
  match k with
  | O => Ret x
  | S k' =>
      let! b := rd p i in
      varint_loop p (i + 1) k' (Z.lor (u64 (Z.shiftl x 8)) b)
  end.

(** Returns the number of bytes consumed and the value. *)
Definition quic_varint_decode (p : list Z) (in_len : Z) : res (Z * Z) :=
  if in_len =? 0 then Fail
  else
    let! b0 := rd p 0 in
    let prefix := Z.land (Z.shiftr b0 6) 3 in
    let n := Z.shiftl 1 prefix in
    if in_len <? n then Fail
    else
      let! x := varint_loop p 1 (Z.to_nat (n - 1)) (Z.land b0 0x3f) in
      Ret (n, x).

(** ** The wire format as one big-endian number *)

(** The two length bits of a size. *)
Definition size_prefix (n : Z) : Z :=
  if n =? 1 then 0 else if n =? 2 then 1 else if n =? 4 then 2 else 3.

Lemma varint_size_cases v :
  0 <= v <= QUIC_VARINT_MAX ->
  quic_varint_size v = 1 /\ v < 2 ^ 6 \/ quic_varint_size v = 2 /\ v < 2 ^ 14 \/
  quic_varint_size v = 4 /\ v < 2 ^ 30 \/ quic_varint_size v = 8 /\ v < 2 ^ 62.
Proof. unfold quic_varint_size, QUIC_VARINT_MAX. intros. repeat zcase; lia. Qed.

Lemma land_3f x : Z.land x 0x3f = x mod 64.
Proof. change 0x3f with (Z.ones 6). by rewrite Z.land_ones by lia. Qed.

Lemma land_3 x : Z.land x 3 = x mod 4.
Proof. change 3 with (Z.ones 2). by rewrite Z.land_ones by lia. Qed.

Lemma prefix_lor c x : 0 <= c < 4 -> u8 (Z.lor (c * 64) (Z.land x 0x3f)) = c * 64 + x mod 64.
Proof.
  intros. rewrite land_3f. change 64 with (2 ^ 6) at 1. rewrite (lor_disjoint 6) by dlia.
  apply u8_small. unfold byte_ok. dlia.
Qed.

(** Every successful encoding is the value with its size prefix on top, in
    [quic_varint_size v] big-endian bytes. *)
Lemma varint_encode_be out_cap v :
  0 <= v <= QUIC_VARINT_MAX -> quic_varint_size v <= out_cap ->
  quic_varint_encode out_cap v =
  be_bytes (Z.to_nat (quic_varint_size v))
    (size_prefix (quic_varint_size v) * 2 ^ (8 * quic_varint_size v - 2) + v).
Proof.
  intros Hv Hcap. unfold quic_varint_encode.
  destruct (varint_size_cases v Hv) as [[E ?]|[[E ?]|[[E ?]|[E ?]]]]; rewrite E in *;
    replace (out_cap <? _) with false by lia; cbn -[Z.pow Z.mul Z.modulo Z.div];
    change 0x40 with (1 * 64); change 0x80 with (2 * 64); change 0xc0 with (3 * 64);
    rewrite ?prefix_lor, ?Z.shiftr_div_pow2 by lia; unfold u8;
    match goal with |- _ = be_bytes ?n _ => let k := eval vm_compute in n in change n with k end;
    cbn [be_bytes]; repeat (f_equal; [dlia|]); f_equal; dlia.
Qed.

Lemma varint_loop_be pre l rest x :
  Forall byte_ok l -> 0 <= x -> (x + 1) * 256 ^ zlen l <= 2 ^ 64 ->
  varint_loop (pre ++ l ++ rest) (zlen pre) (length l) x = Ret (be_acc x l).
Proof.
  intros Hl. revert pre x. induction Hl as [|b l Hb Hl IH]; intros pre x Hx Hmax; [done|].
  cbn [length varint_loop be_acc].
  rewrite rd_app_r by lia. rewrite Z.sub_diag. cbn [app]. rewrite rd_cons_0. cbn [rbind].
  rewrite zlen_cons, Z.pow_add_r, Z.pow_1_r in Hmax by (pose proof (zlen_nonneg l); lia).
  assert (1 <= 256 ^ zlen l) by (pose proof (zlen_nonneg l); nia).
  rewrite shl8_lor by (done || nia).
  replace (zlen pre + 1) with (zlen (pre ++ [b])) by (rewrite zlen_app; done).
  replace (pre ++ b :: l ++ rest) with ((pre ++ [b]) ++ l ++ rest) by by rewrite <- app_assoc.
  unfold byte_ok in Hb. apply IH; nia.
Qed.

(** The decoder on a buffer that holds the whole encoding. *)
Lemma varint_decode_cons b0 l rest in_len :
  byte_ok b0 -> Forall byte_ok l -> zlen (b0 :: l) = 2 ^ (b0 / 64) -> zlen (b0 :: l) <= in_len ->
  quic_varint_decode (b0 :: l ++ rest) in_len = Ret (zlen (b0 :: l), be_acc (b0 mod 64) l).
Proof.
  intros Hb Hl Hn Hlen. unfold quic_varint_decode.
  pose proof (zlen_nonneg l). rewrite zlen_cons in *.
  replace (in_len =? 0) with false by lia. rewrite rd_cons_0. cbn [rbind].
  unfold byte_ok in Hb.
  rewrite land_3, land_3f, Z.shiftr_div_pow2, Z.shiftl_mul_pow2 by dlia.
  replace ((b0 / 2 ^ 6) mod 4) with (b0 / 64) by dlia.
  rewrite <- Hn, Z.mul_1_l. replace (in_len <? zlen l + 1) with false by lia.
  replace (Z.to_nat (zlen l + 1 - 1)) with (length l) by (unfold zlen; lia).
  change (b0 :: l ++ rest) with ([b0] ++ l ++ rest). change 1 with (zlen [b0]) at 1.
  rewrite varint_loop_be; [done | done | dlia |].
  assert (Hz : zlen l <= 7).
  { assert (b0 / 64 = 0 \/ b0 / 64 = 1 \/ b0 / 64 = 2 \/ b0 / 64 = 3) as Hc by dlia.
    destruct Hc as [E|[E|[E|E]]]; rewrite E in Hn; lia. }
  pose proof (Z.pow_le_mono_r 256 (zlen l) 7 ltac:(lia) Hz).
  assert (0 <= b0 mod 64 < 64) by dlia. nia.
Qed.

Lemma be_bytes_S n v :
  0 <= v < 256 ^ Z.of_nat (S n) -> be_bytes (S n) v = v / 256 ^ Z.of_nat n :: be_bytes n v.
Proof.
  intros Hv. cbn [be_bytes]. f_equal. apply Z.mod_small.
  rewrite Nat2Z.inj_succ, Z.pow_succ_r in Hv by lia.
  assert (0 < 256 ^ Z.of_nat n) by (apply Z.pow_pos_nonneg; lia).
  split; [apply Z.div_pos; lia | apply Z.div_lt_upper_bound; lia].
Qed.

Lemma varint_encode_decode out_cap v rest in_len :
  0 <= v <= QUIC_VARINT_MAX -> quic_varint_size v <= out_cap -> quic_varint_size v <= in_len ->
  quic_varint_decode (quic_varint_encode out_cap v ++ rest) in_len = Ret (quic_varint_size v, v).
Proof.
  intros Hv Hcap Hlen. rewrite varint_encode_be by done.
  destruct (varint_size_cases v Hv) as [[E ?]|[[E ?]|[[E ?]|[E ?]]]]; rewrite E in *.
  all: match goal with |- context [Z.to_nat ?n] => let k := eval vm_compute in (Z.to_nat n) in
         change (Z.to_nat n) with k end.
  all: cbn [size_prefix Z.eqb Pos.eqb].
  all: rewrite be_bytes_S by lia; rewrite <- app_comm_cons.
  all: rewrite varint_decode_cons;
    [ rewrite zlen_cons, zlen_be_bytes, be_acc_bytes; f_equal; f_equal; dlia
    | unfold byte_ok; dlia
    | apply be_bytes_ok
    | rewrite zlen_cons, zlen_be_bytes;
      match goal with |- _ = 2 ^ ?e =>
        first [ replace e with 0 by dlia | replace e with 1 by dlia
              | replace e with 2 by dlia | replace e with 3 by dlia ] end; lia
    | rewrite zlen_cons, zlen_be_bytes; lia ].
Qed.

Lemma prefix_cases b : byte_ok b -> b / 64 = 0 \/ b / 64 = 1 \/ b / 64 = 2 \/ b / 64 = 3.
Proof. unfold byte_ok. intros. dlia. Qed.

Lemma varint_decode_short b0 p in_len :
  byte_ok b0 -> in_len < 2 ^ (b0 / 64) -> quic_varint_decode (b0 :: p) in_len = Fail.
Proof.
  intros Hb Hshort. unfold quic_varint_decode. zcase; [done|].
  rewrite rd_cons_0. cbn [rbind]. unfold byte_ok in Hb.
  rewrite land_3, Z.shiftr_div_pow2, Z.shiftl_mul_pow2 by dlia.
  replace ((b0 / 2 ^ 6) mod 4) with (b0 / 64) by dlia.
  by replace (in_len <? _) with true by lia.
Qed.

Lemma varint_decode_long b0 p in_len :
  byte_ok b0 -> Forall byte_ok p -> in_len <= zlen (b0 :: p) -> 2 ^ (b0 / 64) <= in_len ->
  quic_varint_decode (b0 :: p) in_len =
  Ret (2 ^ (b0 / 64), be_acc (b0 mod 64) (ztake (2 ^ (b0 / 64) - 1) p)).
Proof.
  intros Hb Hp Hlen Hn. rewrite zlen_cons in Hlen. pose proof (zlen_nonneg p).
  rewrite <- (take_drop (Z.to_nat (2 ^ (b0 / 64) - 1)) p) at 1. fold (ztake (2 ^ (b0 / 64) - 1) p).
  assert (Hl : zlen (b0 :: ztake (2 ^ (b0 / 64) - 1) p) = 2 ^ (b0 / 64)).
  { rewrite zlen_cons. destruct (prefix_cases b0 Hb) as [E|[E|[E|E]]]; rewrite E in *;
      rewrite zlen_ztake by lia; lia. }
  rewrite varint_decode_cons by (auto with pico || rewrite Hl; lia). by rewrite Hl.
Qed.

Definition varint_spec (p : list Z) (in_len : Z) : Z * Z -> Prop := fun '(n, v) =>
  1 <= n <= in_len /\ 0 <= v <= QUIC_VARINT_MAX /\ quic_varint_size v <= n /\
  be_acc 0 (ztake n p) = size_prefix n * 2 ^ (8 * n - 2) + v.

Lemma varint_decode_wp p in_len :
  Forall byte_ok p -> 0 <= in_len <= zlen p ->
  wp (quic_varint_decode p in_len) (varint_spec p in_len).
Proof.
  intros Hp Hlen. destruct (decide (in_len = 0)) as [->|Hne]; [done|].
  destruct p as [|b0 p]; [rewrite zlen_nil in Hlen; lia|].
  apply Forall_cons_1 in Hp as [Hb Hp].
  destruct (Z.ltb_spec in_len (2 ^ (b0 / 64))); [by rewrite varint_decode_short|].
  rewrite varint_decode_long by (done || lia). cbn [wp varint_spec].
  set (l := ztake (2 ^ (b0 / 64) - 1) p).
  assert (Hl : zlen l = 2 ^ (b0 / 64) - 1 /\ ztake (2 ^ (b0 / 64)) (b0 :: p) = b0 :: l).
  { rewrite zlen_cons in Hlen. pose proof (zlen_nonneg p). unfold l.
    destruct (prefix_cases b0 Hb) as [E|[E|[E|E]]]; rewrite E in *;
      (split; [rewrite zlen_ztake by lia; lia | done]). }
  destruct Hl as [Hl ->]. cbn [be_acc].
  rewrite (be_acc_shift (0 * 256 + b0)), (be_acc_shift (b0 mod 64)), Hl.
  pose proof (be_val_bounds l ltac:(unfold l; auto with pico)) as Hv. rewrite Hl in Hv.
  unfold byte_ok in Hb.
  destruct (prefix_cases b0 Hb) as [E|[E|[E|E]]]; rewrite E in *;
    cbn -[Z.mul Z.modulo be_acc Z.div] in *;
    unfold size_prefix, quic_varint_size, QUIC_VARINT_MAX in *; cbn -[Z.mul Z.modulo be_acc Z.div] in *;
    (repeat split; try dlia; repeat zcase; dlia).
Qed.

Lemma varint_encode_length out_cap v :
  zlen (quic_varint_encode out_cap v) =
  if (quic_varint_size v =? 0) || (out_cap <? quic_varint_size v) then 0 else quic_varint_size v.
Proof.
  unfold quic_varint_encode.
  destruct ((quic_varint_size v =? 0) || (out_cap <? quic_varint_size v)) eqn:E; [done|].
  revert E. unfold quic_varint_size. repeat zcase; done.
Qed.

Lemma varint_encode_bytes out_cap v : Forall byte_ok (quic_varint_encode out_cap v).
Proof. unfold quic_varint_encode. repeat zcase; repeat constructor; apply u8_byte. Qed.

(** The QUIC varint codec round-trips.  For every value up to 2^62-1 and
    every buffer that has room for it, decoding what [quic_varint_encode] wrote,
    with anything behind it, gives back the value and consumes exactly
    [quic_varint_size v] bytes. *)
Theorem varint_roundtrip out_cap v rest in_len
    (Hv : 0 <= v <= QUIC_VARINT_MAX) (Hcap : quic_varint_size v <= out_cap)
    (Hlen : quic_varint_size v <= in_len) :
  quic_varint_decode (quic_varint_encode out_cap v ++ rest) in_len = Ret (quic_varint_size v, v).
Proof. by apply varint_encode_decode. Qed.

Lemma varint_roundtrip_witness :
  quic_varint_decode (quic_varint_encode 8 15293 ++ [7]) 3 = Ret (2, 15293).
Proof. apply (varint_roundtrip 8 15293 [7] 3); vm_compute; intuition discriminate. Defined.

(** The varint decoder on arbitrary input never reads past the buffer, and
    what it accepts is exactly the RFC 9000 format: it consumes n bytes that
    are within the input, whose big-endian value is the two-bit length prefix
    followed by the result, the result is at most 2^62-1, and no value is
    decoded from fewer bytes than the encoder would use. *)
Theorem varint_decode_correct p in_len
    (Hp : Forall byte_ok p) (Hlen : 0 <= in_len <= zlen p) :
  quic_varint_decode p in_len <> Oob /\
  forall n v, quic_varint_decode p in_len = Ret (n, v) ->
    1 <= n <= in_len /\ 0 <= v <= QUIC_VARINT_MAX /\ quic_varint_size v <= n /\
    be_acc 0 (ztake n p) = size_prefix n * 2 ^ (8 * n - 2) + v.
Proof.
  pose proof (varint_decode_wp p in_len Hp Hlen) as H. split; [by eapply wp_no_oob|].
  intros n v E. exact (wp_ret _ _ _ H E).
Qed.

Lemma varint_decode_correct_witness :
  quic_varint_decode [0x7b; 0xbd; 0x01] 3 <> Oob /\
  forall n v, quic_varint_decode [0x7b; 0xbd; 0x01] 3 = Ret (n, v) ->
    1 <= n <= 3 /\ 0 <= v <= QUIC_VARINT_MAX /\ quic_varint_size v <= n /\
    be_acc 0 (ztake n [0x7b; 0xbd; 0x01]) = size_prefix n * 2 ^ (8 * n - 2) + v.
Proof.
  apply (varint_decode_correct [0x7b; 0xbd; 0x01] 3).
  - repeat constructor; vm_compute; intuition discriminate.
  - vm_compute; intuition discriminate.
Defined.
