(* ===== verification/CryptoStream.v ===== *)
(** * Offset-keyed byte streams (RFC 9000 sections 2.2, 7.5, 19.6)

    Models [userspace/quic/crypto_stream.c]: the receive side stages CRYPTO
    (and, through [Stream.v], STREAM) payloads at their offsets into one buffer
    with a received-bitmap, and exposes the in-order prefix; the transmit side
    slices pending bytes into chunks.  The abstract object both implement is a
    byte string S: the sender emits slices of S, the receiver's view is a
    partial map from offsets to bytes of S. *)

From Stdlib Require Import ZArith Lia.
From stdpp Require Import list numbers option.
From S2P Require Import Prelude.

(** ** Bitmap helpers *)

Definition bm_get (bm : list Z) (i : Z) : res Z :=
  let! b := rd bm (Z.shiftr i 3) in
  Ret (Z.land (Z.shiftr b (Z.land i 7)) 1).

Definition bm_set (bm : list Z) (i : Z) : res (list Z) :=
  let! b := rd bm (Z.shiftr i 3) in
  wr bm (Z.shiftr i 3) (u8 (Z.lor b (u8 (Z.shiftl 1 (Z.land i 7))))).

(** ** Receive side *)

Record quic_crypto_rx_t := mk_rx {
  rx_data : list Z;
  rx_cap : Z;
  rx_contig_len : Z;
  rx_highest : Z;
  rx_bitmap : list Z;
  rx_bitmap_cap : Z;
  rx_consumed : Z
}.

Definition rx_set_bufs (rx : quic_crypto_rx_t) (data bitmap : list Z) : quic_crypto_rx_t :=
  mk_rx data (rx_cap rx) (rx_contig_len rx) (rx_highest rx) bitmap (rx_bitmap_cap rx) (rx_consumed rx).

Definition rx_set_highest (rx : quic_crypto_rx_t) (h : Z) : quic_crypto_rx_t :=
  mk_rx (rx_data rx) (rx_cap rx) (rx_contig_len rx) h (rx_bitmap rx) (rx_bitmap_cap rx) (rx_consumed rx).

Definition rx_set_contig (rx : quic_crypto_rx_t) (c : Z) : quic_crypto_rx_t :=
  mk_rx (rx_data rx) (rx_cap rx) c (rx_highest rx) (rx_bitmap rx) (rx_bitmap_cap rx) (rx_consumed rx).

Definition rx_set_consumed (rx : quic_crypto_rx_t) (c : Z) : quic_crypto_rx_t :=
  mk_rx (rx_data rx) (rx_cap rx) (rx_contig_len rx) (rx_highest rx) (rx_bitmap rx) (rx_bitmap_cap rx) c.

(** The bitmap is cleared, the data buffer is left as the caller passes it. *)
Definition quic_crypto_rx_init (data : list Z) (data_cap bitmap_cap : Z) : quic_crypto_rx_t :=
  mk_rx data data_cap 0 0 (replicate (Z.to_nat bitmap_cap) 0) bitmap_cap 0.

(** The copy loop: [k] iterations left from index [i].  The boolean of the
    result is false where the C function returns -1 on a conflicting byte; the
    bytes before it have then been staged already. *)
Fixpoint stage_loop (rx : quic_crypto_rx_t) (off : Z) (payload : list Z) (i : Z) (k : nat)
    (saw_new : bool) : res (bool * quic_crypto_rx_t * bool) :=
  match k with
  | O => Ret (true, rx, saw_new)
  | S k' =>
      let pos := off + i in
      let! g := bm_get (rx_bitmap rx) pos in
      let! b := rd payload i in
      if negb (g =? 0) then
        let! d := rd (rx_data rx) pos in
        if negb (d =? b) then Ret (false, rx, saw_new)
        else stage_loop rx off payload (i + 1) k' saw_new
      else
        let! data' := wr (rx_data rx) pos b in
        let! bm' := bm_set (rx_bitmap rx) pos in
        stage_loop (rx_set_bufs rx data' bm') off payload (i + 1) k' true
  end.

(** [while (contig_len < highest && bm_get(bitmap, contig_len)) contig_len++;] *)
Fixpoint contig_loop (bm : list Z) (highest : Z) (c : Z) (fuel : nat) : res Z :=
  match fuel with
  | O => Ret c
  | S f =>
      if c <? highest then
        let! g := bm_get bm c in
        if negb (g =? 0) then contig_loop bm highest (c + 1) f else Ret c
      else Ret c
  end.

(** Returns the C result (1 new data, 0 duplicate, -1 error) and the state. *)
Definition quic_crypto_rx_stage (rx : quic_crypto_rx_t) (offset : Z) (payload : list Z) (len : Z)
    : res (Z * quic_crypto_rx_t) :=
  if len =? 0 then Ret (0, rx)
  else if (rx_cap rx <? offset) || (u64 (rx_cap rx - offset) <? len) then Ret (-1, rx)
  else if rx_bitmap_cap rx <? u64 (offset + len + 7) / 8 then Ret (-1, rx)
  else
    let! (ok, rx1, saw_new) := stage_loop rx offset payload 0 (Z.to_nat len) false in
    if negb ok then Ret (-1, rx1)
    else
      let rx2 := if rx_highest rx1 <? offset + len then rx_set_highest rx1 (offset + len) else rx1 in
      let! c := contig_loop (rx_bitmap rx2) (rx_highest rx2) (rx_contig_len rx2)
                  (Z.to_nat (rx_highest rx2 - rx_contig_len rx2)) in
      Ret (if saw_new then 1 else 0, rx_set_contig rx2 c).

(** The readable run: its length and the pointer to it ([None] is NULL). *)
Definition quic_crypto_rx_peek (rx : quic_crypto_rx_t) : Z * option (list Z) :=
  if rx_contig_len rx <=? rx_consumed rx then (0, None)
  else (rx_contig_len rx - rx_consumed rx, Some (padd (rx_data rx) (rx_consumed rx))).

Definition quic_crypto_rx_advance (rx : quic_crypto_rx_t) (n : Z) : quic_crypto_rx_t :=
  let avail := u64 (rx_contig_len rx - rx_consumed rx) in
  let n := if avail <? n then avail else n in
  rx_set_consumed rx (rx_consumed rx + n).

(** ** Transmit side *)

Record quic_crypto_tx_t := mk_tx {
  tx_pending : list Z;
  tx_pending_len : Z;
  tx_next_offset : Z
}.

Definition quic_crypto_tx_init : quic_crypto_tx_t := mk_tx [] 0 0.

Definition quic_crypto_tx_set_pending (tx : quic_crypto_tx_t) (pending : list Z) (pending_len : Z)
    : quic_crypto_tx_t := mk_tx pending pending_len (tx_next_offset tx).

(** [None] is the C result 0; otherwise offset, chunk pointer and length. *)
Definition quic_crypto_tx_next (tx : quic_crypto_tx_t) (max_payload : Z) : option (Z * list Z * Z) :=
  if (tx_pending_len tx =? 0) || (max_payload =? 0) then None
  else
    let n := if tx_pending_len tx <? max_payload then tx_pending_len tx else max_payload in
    Some (tx_next_offset tx, tx_pending tx, n).

Definition quic_crypto_tx_consume (tx : quic_crypto_tx_t) (n : Z) : quic_crypto_tx_t :=
  let n := if tx_pending_len tx <? n then tx_pending_len tx else n in
  mk_tx (padd (tx_pending tx) n) (tx_pending_len tx - n) (u64 (tx_next_offset tx + n)).

(** ** The abstract view *)

Definition bm_bit (bm : list Z) (i : Z) : bool := Z.testbit (nth (Z.to_nat (i / 8)) bm 0) (i mod 8).

(** The byte received at offset [i], if any. *)
Definition rx_view (rx : quic_crypto_rx_t) (i : Z) : option Z :=
  if (0 <=? i) && bm_bit (rx_bitmap rx) i then rx_data rx !! Z.to_nat i else None.

(** Well-formed receive state. *)
Record rx_ok (rx : quic_crypto_rx_t) : Prop := {
  ok_data : zlen (rx_data rx) = rx_cap rx;
  ok_bitmap : zlen (rx_bitmap rx) = rx_bitmap_cap rx;
  ok_cap : 0 <= rx_cap rx < 2 ^ 62;
  ok_order : 0 <= rx_consumed rx <= rx_contig_len rx /\ rx_contig_len rx <= rx_highest rx;
  ok_highest : rx_highest rx <= rx_cap rx /\ rx_highest rx <= 8 * rx_bitmap_cap rx;
  ok_prefix : forall i, 0 <= i < rx_contig_len rx -> is_Some (rx_view rx i)
}.

(** The view of one frame, bytes [lo, hi) of its payload only. *)
Definition frame_view (off : Z) (payload : list Z) (lo hi : Z) (i : Z) : option Z :=
  if (off + lo <=? i) && (i <? off + hi) then payload !! Z.to_nat (i - off) else None.

(** Left-biased union of partial maps. *)
Definition vunion (f g : Z -> option Z) (i : Z) : option Z :=
  match f i with Some b => Some b | None => g i end.

(** The frame agrees with everything received. *)
Definition agrees (rx : quic_crypto_rx_t) (off : Z) (payload : list Z) : Prop :=
  forall j d, 0 <= j < zlen payload -> rx_view rx (off + j) = Some d -> payload !! Z.to_nat j = Some d.

(** ** Bitmap lemmas *)

Lemma bm_index i : Z.shiftr i 3 = i / 8 /\ Z.land i 7 = i mod 8.
Proof.
  split; [by rewrite Z.shiftr_div_pow2 by lia|].
  change 7 with (Z.ones 3). by rewrite Z.land_ones by lia.
Qed.

Lemma bm_get_bit bm i :
  0 <= i < 8 * zlen bm -> bm_get bm i = Ret (Z.b2z (bm_bit bm i)).
Proof.
  intros Hi. unfold bm_get. destruct (bm_index i) as [-> ->].
  rewrite rd_nth by dlia. cbn [rbind]. f_equal. unfold bm_bit.
  change 1 with (Z.ones 1) at 1. rewrite Z.land_ones by lia. change (2 ^ 1) with 2.
  rewrite <- Z.bit0_mod, Z.shiftr_spec by lia. by rewrite Z.add_0_l.
Qed.

Lemma bm_set_bit bm i :
  0 <= i < 8 * zlen bm ->
  exists bm', bm_set bm i = Ret bm' /\ zlen bm' = zlen bm /\
    forall j, 0 <= j -> bm_bit bm' j = (j =? i) || bm_bit bm j.
Proof.
  intros Hi. unfold bm_set. destruct (bm_index i) as [-> ->].
  rewrite rd_nth by dlia. cbn [rbind]. rewrite wr_in_bounds by dlia.
  eexists; split; [done|]. split; [apply zlen_insert|].
  intros j Hj. unfold bm_bit. rewrite !nth_lookup, list_lookup_insert.
  assert (Hlt : (Z.to_nat (i / 8) < length bm)%nat) by (unfold zlen in Hi; dlia).
  case_decide as Hd; simpl.
  - destruct Hd as [Hd _]. assert (Hq : j / 8 = i / 8) by dlia. rewrite Hq.
    rewrite <- nth_lookup. unfold u8.
    rewrite Z.mod_pow2_bits_low, Z.lor_spec, Z.mod_pow2_bits_low by dlia.
    rewrite Z.shiftl_1_l, Z.pow2_bits_eqb by dlia. rewrite orb_comm. f_equal.
    destruct (Z.eqb_spec j i), (Z.eqb_spec (i mod 8) (j mod 8)); dlia.
  - replace (j =? i) with false; [done|]. symmetry. apply Z.eqb_neq. intros ->. tauto.
Qed.

Lemma bm_bit_replicate n i : bm_bit (replicate n 0) i = false.
Proof.
  unfold bm_bit. rewrite nth_lookup. destruct (replicate n 0 !! _) eqn:E.
  - apply lookup_replicate in E as [-> _]. apply Z.bits_0.
  - apply Z.bits_0.
Qed.

(** ** The copy loop *)

Lemma rx_view_bit rx i :
  0 <= i < zlen (rx_data rx) -> is_Some (rx_view rx i) <-> bm_bit (rx_bitmap rx) i = true.
Proof.
  intros Hi. unfold rx_view. replace (0 <=? i) with true by lia. cbn [andb].
  destruct (bm_bit _ _); [|by split; [intros []|]].
  split; [done|]. intros _. apply lookup_lt_is_Some. unfold zlen in Hi. lia.
Qed.

(** Staging one byte at a free position. *)
Lemma rx_view_stage_byte rx pos b bm' :
  0 <= pos < zlen (rx_data rx) -> rx_view rx pos = None ->
  (forall j, 0 <= j -> bm_bit bm' j = (j =? pos) || bm_bit (rx_bitmap rx) j) ->
  forall j, rx_view (rx_set_bufs rx (<[Z.to_nat pos := b]> (rx_data rx)) bm') j =
            if j =? pos then Some b else rx_view rx j.
Proof.
  intros Hpos Hfree Hbm j. unfold rx_view, rx_set_bufs; cbn [rx_bitmap rx_data].
  destruct (Z.leb_spec 0 j); cbn [andb].
  2:{ replace (j =? pos) with false by lia. done. }
  rewrite Hbm by lia. destruct (Z.eqb_spec j pos) as [->|Hne]; cbn [orb].
  - apply list_lookup_insert_eq. unfold zlen in Hpos. lia.
  - destruct (bm_bit _ _); [|done]. apply list_lookup_insert_ne. lia.
Qed.

(** The fields the copy loop leaves alone. *)
Definition same_frame (rx rx' : quic_crypto_rx_t) : Prop :=
  zlen (rx_data rx') = zlen (rx_data rx) /\ zlen (rx_bitmap rx') = zlen (rx_bitmap rx) /\
  rx_cap rx' = rx_cap rx /\ rx_contig_len rx' = rx_contig_len rx /\
  rx_highest rx' = rx_highest rx /\ rx_bitmap_cap rx' = rx_bitmap_cap rx /\
  rx_consumed rx' = rx_consumed rx.

(** What the loop has done when it stops at payload index [m]. *)
Record stage_post (rx : quic_crypto_rx_t) (off : Z) (payload : list Z) (i : Z) (saw : bool)
    (ok : bool) (rx' : quic_crypto_rx_t) (saw' : bool) (m : Z) : Prop := {
  sp_frame : same_frame rx rx';
  sp_range : i <= m <= zlen payload;
  sp_view : forall j, rx_view rx' j = vunion (rx_view rx) (frame_view off payload i m) j;
  sp_agree : forall j d, i <= j < m -> rx_view rx (off + j) = Some d -> payload !! Z.to_nat j = Some d;
  sp_stop : if ok then m = zlen payload
            else exists d b, m < zlen payload /\ rx_view rx (off + m) = Some d /\
                             payload !! Z.to_nat m = Some b /\ d <> b;
  sp_saw : saw' = true <-> saw = true \/ exists j, i <= j < m /\ rx_view rx (off + j) = None
}.

Lemma frame_view_first off payload i m b j :
  payload !! Z.to_nat i = Some b -> i < m ->
  frame_view off payload i m j =
  if j =? off + i then Some b else frame_view off payload (i + 1) m j.
Proof.
  intros Hb Him. unfold frame_view. destruct (Z.eqb_spec j (off + i)) as [->|Hne].
  - replace (off + i <=? off + i) with true by lia. replace (off + i <? off + m) with true by lia.
    cbn [andb]. by replace (off + i - off) with i by lia.
  - by replace (off + (i + 1) <=? j) with (off + i <=? j) by lia.
Qed.

Lemma stage_post_dup rx off payload i saw ok rx' saw' m b :
  rx_view rx (off + i) = Some b -> payload !! Z.to_nat i = Some b ->
  stage_post rx off payload (i + 1) saw ok rx' saw' m ->
  stage_post rx off payload i saw ok rx' saw' m.
Proof.
  intros Hv Hb [Hf Hr Hview Hag Hst Hsaw]. constructor; auto; try lia.
  - intros j. rewrite Hview. unfold vunion. rewrite (frame_view_first off payload i m b) by (done || lia).
    destruct (Z.eqb_spec j (off + i)) as [->|]; [by rewrite Hv|done].
  - intros j d Hj Hd. destruct (decide (j = i)) as [->|]; [congruence|]. apply Hag; [lia|done].
  - rewrite Hsaw. split; (intros [?|(j & Hj & Hn)]; [by left|right; exists j; split; [|done]]).
    + lia.
    + destruct (decide (j = i)) as [->|]; [congruence|lia].
Qed.

Lemma stage_post_new rx rx1 off payload i saw ok rx' saw' m b :
  rx_view rx (off + i) = None -> payload !! Z.to_nat i = Some b -> same_frame rx rx1 ->
  (forall j, rx_view rx1 j = if j =? off + i then Some b else rx_view rx j) ->
  stage_post rx1 off payload (i + 1) true ok rx' saw' m ->
  stage_post rx off payload i saw ok rx' saw' m.
Proof.
  intros Hv Hb Hf1 Hv1 [Hf Hr Hview Hag Hst Hsaw].
  assert (Hother : forall j, i < j -> rx_view rx1 (off + j) = rx_view rx (off + j)).
  { intros j Hj. rewrite Hv1. by replace (off + j =? off + i) with false by lia. }
  constructor; try lia.
  - unfold same_frame in *. intuition congruence.
  - intros j. rewrite Hview. unfold vunion. rewrite (frame_view_first off payload i m b) by (done || lia).
    rewrite Hv1. destruct (Z.eqb_spec j (off + i)) as [->|]; [by rewrite Hv|done].
  - intros j d Hj Hd. destruct (decide (j = i)) as [->|]; [congruence|].
    apply Hag; [lia|]. by rewrite Hother by lia.
  - destruct ok; [done|]. destruct Hst as (d & b' & ? & Hd & ?). exists d, b'.
    rewrite Hother in Hd by lia. done.
  - rewrite Hsaw. split; [|by left]. intros _. right. exists i. split; [lia|done].
Qed.

Lemma same_frame_refl rx : same_frame rx rx.
Proof. done. Qed.

Lemma stage_loop_spec k : forall rx off payload i saw,
  0 <= off -> 0 <= i -> i + Z.of_nat k = zlen payload ->
  off + zlen payload <= zlen (rx_data rx) -> off + zlen payload <= 8 * zlen (rx_bitmap rx) ->
  exists ok rx' saw' m,
    stage_loop rx off payload i k saw = Ret (ok, rx', saw') /\
    stage_post rx off payload i saw ok rx' saw' m.
Proof.
  induction k as [|k IH]; intros rx off payload i saw Hoff Hi Hk Hdata Hbm.
  { exists true, rx, saw, i. split; [done|]. constructor; try lia; try done.
    - intros j. unfold vunion, frame_view. destruct (rx_view rx j); [done|].
      destruct (Z.leb_spec (off + i) j), (Z.ltb_spec j (off + i)); cbn; lia || done.
    - split; [by left|]. intros [?|(j & ? & _)]; [done|lia]. }
  cbn [stage_loop]. rewrite bm_get_bit by lia. cbn [rbind].
  destruct (lookup_lt_is_Some_2 payload (Z.to_nat i)) as [b Hb]; [unfold zlen in *; lia|].
  assert (Hrd : rd payload i = Ret b) by (by apply rd_lookup). rewrite Hrd. cbn [rbind].
  destruct (rx_view_bit rx (off + i) ltac:(lia)) as [Hvb Hbv].
  destruct (bm_bit (rx_bitmap rx) (off + i)) eqn:Hbit; cbn [Z.b2z Z.eqb negb].
  - destruct (Hbv eq_refl) as [d Hd]. assert (Hdd := Hd). unfold rx_view in Hdd.
    rewrite Hbit in Hdd. replace (0 <=? off + i) with true in Hdd by lia. cbn [andb] in Hdd.
    assert (Hrdd : rd (rx_data rx) (off + i) = Ret d) by (apply rd_lookup; split; [lia|done]).
    rewrite Hrdd. cbn [rbind]. destruct (Z.eqb_spec d b) as [->|Hne]; cbn [negb].
    + destruct (IH rx off payload (i + 1) saw) as (ok & rx' & saw' & m & E & HP); try lia.
      exists ok, rx', saw', m. split; [done|]. by eapply stage_post_dup.
    + exists false, rx, saw, i. split; [done|]. constructor; try lia; try done.
      * intros j. unfold vunion, frame_view. destruct (rx_view rx j); [done|].
        destruct (Z.leb_spec (off + i) j), (Z.ltb_spec j (off + i)); cbn; lia || done.
      * exists d, b. repeat split; [lia|done..].
      * split; [by left|]. intros [?|(j & ? & _)]; [done|lia].
  - rewrite wr_in_bounds by lia. cbn [rbind].
    destruct (bm_set_bit (rx_bitmap rx) (off + i) ltac:(lia)) as (bm' & -> & Hlen & Hbits). cbn [rbind].
    assert (Hnone : rx_view rx (off + i) = None).
    { destruct (rx_view rx (off + i)) eqn:E; [|done]. by discriminate (Hvb ltac:(done)). }
    set (rx1 := rx_set_bufs rx (<[Z.to_nat (off + i) := b]> (rx_data rx)) bm').
    destruct (IH rx1 off payload (i + 1) true) as (ok & rx' & saw' & m & E & HP); try lia.
    { unfold rx1; cbn. by rewrite zlen_insert. }
    { unfold rx1; cbn. by rewrite Hlen. }
    exists ok, rx', saw', m. split; [done|].
    eapply (stage_post_new rx rx1); try done.
    + unfold same_frame, rx1; cbn. by rewrite zlen_insert.
    + apply rx_view_stage_byte; [lia|done|done].
Qed.

Lemma contig_loop_spec bm highest fuel : forall c,
  0 <= c <= highest -> highest <= 8 * zlen bm -> Z.of_nat fuel = highest - c ->
  exists c', contig_loop bm highest c fuel = Ret c' /\ c <= c' <= highest /\
    (forall i, c <= i < c' -> bm_bit bm i = true) /\ (c' = highest \/ bm_bit bm c' = false).
Proof.
  induction fuel as [|f IH]; intros c Hc Hh Hf.
  { exists c. repeat split; try lia. }
  cbn [contig_loop]. replace (c <? highest) with true by lia.
  rewrite bm_get_bit by lia. cbn [rbind].
  destruct (bm_bit bm c) eqn:Hb; cbn [Z.b2z Z.eqb negb].
  - destruct (IH (c + 1)) as (c' & E & Hr & Hall & Hmax); try lia.
    exists c'. repeat split; try lia; try done.
    intros i Hi. destruct (decide (i = c)) as [->|]; [done|]. apply Hall. lia.
  - exists c. repeat split; try lia. by right.
Qed.

(** ** One stage call *)

Definition fits (rx : quic_crypto_rx_t) (off len : Z) : Prop :=
  off + len <= rx_cap rx /\ (off + len + 7) / 8 <= rx_bitmap_cap rx.

Lemma fits_dec_false rx off len :
  rx_ok rx -> 0 <= off < 2 ^ 64 -> 0 < len < 2 ^ 64 ->
  ((rx_cap rx <? off) || (u64 (rx_cap rx - off) <? len) ||
   (rx_bitmap_cap rx <? u64 (off + len + 7) / 8)) = false <-> fits rx off len.
Proof.
  intros Hok Hoff Hlen. pose proof (ok_cap _ Hok). unfold fits.
  destruct (Z.ltb_spec (rx_cap rx) off); cbn [orb]; [split; [done|lia]|].
  rewrite (u64_small (_ - _)) by lia.
  destruct (Z.ltb_spec (rx_cap rx - off) len); cbn [orb]; [split; [done|lia]|].
  rewrite u64_small by lia.
  destruct (Z.ltb_spec (rx_bitmap_cap rx) ((off + len + 7) / 8)); cbn; split; done || lia.
Qed.

(** Results of a call on a frame that fits. *)
Record staged (rx : quic_crypto_rx_t) (off : Z) (payload : list Z) (rc : Z)
    (rx' : quic_crypto_rx_t) : Prop := {
  st_ok : rx_ok rx';
  st_rc : rc = 1 /\ (exists j, 0 <= j < zlen payload /\ rx_view rx (off + j) = None) \/
          rc = 0 /\ (forall j, 0 <= j < zlen payload -> is_Some (rx_view rx (off + j)));
  st_view : forall i, rx_view rx' i = vunion (rx_view rx) (frame_view off payload 0 (zlen payload)) i;
  st_highest : rx_highest rx' = Z.max (rx_highest rx) (off + zlen payload);
  st_maximal : rx_contig_len rx' = rx_highest rx' \/ rx_view rx' (rx_contig_len rx') = None;
  st_caps : rx_cap rx' = rx_cap rx /\ rx_bitmap_cap rx' = rx_bitmap_cap rx /\
            rx_consumed rx' = rx_consumed rx
}.

Lemma view_grows rx f i b : rx_view rx i = Some b -> vunion (rx_view rx) f i = Some b.
Proof. unfold vunion. by intros ->. Qed.

Lemma rx_ok_same_frame rx rx' :
  rx_ok rx -> same_frame rx rx' -> (forall i b, rx_view rx i = Some b -> rx_view rx' i = Some b) ->
  rx_ok rx'.
Proof.
  intros [Hd Hb Hc Ho Hh Hp] (E1 & E2 & E3 & E4 & E5 & E6 & E7) Hv.
  constructor; rewrite ?E1, ?E2, ?E3, ?E4, ?E5, ?E6, ?E7; try done.
  intros i Hi. destruct (Hp i Hi) as [b Hbv]. exists b. by apply Hv.
Qed.

Lemma stage_dispatch rx off payload :
  rx_ok rx -> 0 <= off < 2 ^ 64 -> 0 < zlen payload < 2 ^ 64 ->
  (~ fits rx off (zlen payload) /\ quic_crypto_rx_stage rx off payload (zlen payload) = Ret (-1, rx)) \/
  (fits rx off (zlen payload) /\
   exists ok rx1 saw m, stage_post rx off payload 0 false ok rx1 saw m /\
     stage_loop rx off payload 0 (Z.to_nat (zlen payload)) false = Ret (ok, rx1, saw)).
Proof.
  intros Hok Hoff Hlen. pose proof (fits_dec_false rx off (zlen payload) Hok Hoff Hlen) as Hdec.
  unfold quic_crypto_rx_stage. replace (zlen payload =? 0) with false by lia.
  destruct (_ || _ || _) eqn:E in Hdec.
  - left. split; [intros Hf; by apply Hdec in Hf|].
    apply orb_true_iff in E as [->| E]; [done|]. rewrite E. by destruct (_ || _).
  - right. destruct Hdec as [Hdec _]. specialize (Hdec eq_refl). split; [done|].
    destruct Hdec as [Hf1 Hf2].
    destruct (stage_loop_spec (Z.to_nat (zlen payload)) rx off payload 0 false)
      as (ok & rx1 & saw & m & E1 & HP); try lia.
    { rewrite (ok_data _ Hok). lia. }
    { rewrite (ok_bitmap _ Hok). dlia. }
    by exists ok, rx1, saw, m.
Qed.

(** The [highest] update and the contiguity scan after a successful copy. *)
Lemma stage_finish rx rx1 off payload saw m :
  rx_ok rx -> 0 <= off -> fits rx off (zlen payload) ->
  stage_post rx off payload 0 false true rx1 saw m ->
  let rx2 := if rx_highest rx1 <? off + zlen payload
             then rx_set_highest rx1 (off + zlen payload) else rx1 in
  exists c, contig_loop (rx_bitmap rx2) (rx_highest rx2) (rx_contig_len rx2)
              (Z.to_nat (rx_highest rx2 - rx_contig_len rx2)) = Ret c /\
            staged rx off payload (if saw then 1 else 0) (rx_set_contig rx2 c).
Proof.
  intros Hok Hoff [Hf1 Hf2] [Hfr Hr Hv Hag Hst Hsaw] rx2. cbn in Hst. subst m.
  assert (Hok1 : rx_ok rx1).
  { eapply rx_ok_same_frame; eauto. intros i b Hb. rewrite Hv. by apply view_grows. }
  destruct Hok as [Hd Hb Hc Ho Hh Hp]. destruct Hfr as (E1 & E2 & E3 & E4 & E5 & E6 & E7).
  assert (Hh2 : rx_highest rx2 = Z.max (rx_highest rx) (off + zlen payload) /\
                rx_bitmap rx2 = rx_bitmap rx1 /\ rx_contig_len rx2 = rx_contig_len rx /\
                rx_data rx2 = rx_data rx1 /\ rx_cap rx2 = rx_cap rx /\
                rx_bitmap_cap rx2 = rx_bitmap_cap rx /\ rx_consumed rx2 = rx_consumed rx).
  { unfold rx2. destruct (Z.ltb_spec (rx_highest rx1) (off + zlen payload)); cbn; repeat split; lia || done. }
  destruct Hh2 as (H1 & H2 & H3 & H4 & H5 & H6 & H7).
  pose proof (zlen_nonneg payload).
  assert (8 * rx_bitmap_cap rx >= rx_highest rx2) by (rewrite H1; dlia).
  destruct (contig_loop_spec (rx_bitmap rx2) (rx_highest rx2)
              (Z.to_nat (rx_highest rx2 - rx_contig_len rx2)) (rx_contig_len rx2))
    as (c & Ec & Hcr & Hall & Hmax); try lia.
  { rewrite H2, E2. lia. }
  exists c. split; [done|].
  assert (Hview : forall i, rx_view (rx_set_contig rx2 c) i = rx_view rx1 i).
  { intros i. unfold rx_view; cbn. by rewrite H2, H4. }
  assert (Hbitview : forall i, 0 <= i < rx_cap rx -> is_Some (rx_view rx1 i) <-> bm_bit (rx_bitmap rx2) i = true).
  { intros i Hi. rewrite H2. apply rx_view_bit. lia. }
  constructor.
  - constructor; cbn; rewrite ?H1, ?H2, ?H4, ?H5, ?H6, ?H7, ?E1, ?E2; try lia.
    intros i Hi. rewrite Hview. destruct (Z.ltb_spec i (rx_contig_len rx)).
    + apply (ok_prefix _ Hok1). lia.
    + apply Hbitview; [lia|]. apply Hall. lia.
  - destruct saw; [left|right]; (split; [done|]).
    + destruct Hsaw as [Hsaw _]. destruct (Hsaw eq_refl) as [?|?]; done.
    + intros j Hj. destruct (rx_view rx (off + j)) eqn:En; [done|].
      destruct Hsaw as [_ Hsaw]. discriminate Hsaw. right. by exists j.
  - intros i. by rewrite Hview, Hv.
  - done.
  - cbn. rewrite Hview. destruct Hmax as [Hmax|Hmax]; [by left|].
    destruct (Z.eq_dec c (rx_highest rx2)) as [|Hne]; [by left|]. right.
    destruct (rx_view rx1 c) eqn:En; [|done]. exfalso.
    assert (bm_bit (rx_bitmap rx2) c = true) by (apply Hbitview; [lia|by rewrite En]). congruence.
  - done.
Qed.

Lemma stage_fits_agrees rx off payload :
  rx_ok rx -> 0 <= off < 2 ^ 64 -> 0 < zlen payload < 2 ^ 64 ->
  fits rx off (zlen payload) -> agrees rx off payload ->
  exists rc rx', quic_crypto_rx_stage rx off payload (zlen payload) = Ret (rc, rx') /\
                 staged rx off payload rc rx'.
Proof.
  intros Hok Hoff Hlen Hfit Hag.
  destruct (stage_dispatch rx off payload Hok Hoff Hlen) as [[? _]|[_ (ok & rx1 & saw & m & HP & E)]]; [done|].
  pose proof (proj2 (fits_dec_false rx off (zlen payload) Hok Hoff Hlen) Hfit) as Hdec.
  apply orb_false_iff in Hdec as [Hd1 Hd2].
  unfold quic_crypto_rx_stage. rewrite Hd1, Hd2, E. replace (zlen payload =? 0) with false by lia.
  cbn [rbind]. destruct ok; cbn [negb].
  - destruct (stage_finish rx rx1 off payload saw m Hok ltac:(lia) Hfit HP) as (c & -> & Hst).
    cbn [rbind]. eauto.
  - exfalso. destruct (sp_stop _ _ _ _ _ _ _ _ _ HP) as (d & b & Hm & Hd & Hb & Hne).
    pose proof (sp_range _ _ _ _ _ _ _ _ _ HP).
    rewrite (Hag m d ltac:(lia) Hd) in Hb. congruence.
Qed.

Lemma stage_fits_conflict rx off payload :
  rx_ok rx -> 0 <= off < 2 ^ 64 -> 0 < zlen payload < 2 ^ 64 ->
  fits rx off (zlen payload) -> ~ agrees rx off payload ->
  exists rx', quic_crypto_rx_stage rx off payload (zlen payload) = Ret (-1, rx') /\ rx_ok rx' /\
    (forall i b, rx_view rx i = Some b -> rx_view rx' i = Some b) /\
    rx_contig_len rx' = rx_contig_len rx /\ rx_consumed rx' = rx_consumed rx.
Proof.
  intros Hok Hoff Hlen Hfit Hag.
  destruct (stage_dispatch rx off payload Hok Hoff Hlen) as [[? _]|[_ (ok & rx1 & saw & m & HP & E)]]; [done|].
  pose proof (proj2 (fits_dec_false rx off (zlen payload) Hok Hoff Hlen) Hfit) as Hdec.
  apply orb_false_iff in Hdec as [Hd1 Hd2].
  unfold quic_crypto_rx_stage. rewrite Hd1, Hd2, E. replace (zlen payload =? 0) with false by lia.
  cbn [rbind]. destruct ok; cbn [negb].
  - exfalso. apply Hag. intros j d Hj Hd. eapply (sp_agree _ _ _ _ _ _ _ _ _ HP); [|done].
    pose proof (sp_stop _ _ _ _ _ _ _ _ _ HP). cbn in *. lia.
  - exists rx1. assert (Hv : forall i b, rx_view rx i = Some b -> rx_view rx1 i = Some b).
    { intros i b Hb. rewrite (sp_view _ _ _ _ _ _ _ _ _ HP). by apply view_grows. }
    split; [done|]. split; [eapply rx_ok_same_frame; eauto using sp_frame|].
    pose proof (sp_frame _ _ _ _ _ _ _ _ _ HP) as (_ & _ & _ & ? & _ & _ & ?). done.
Qed.

(** ** Sequences of frames *)

(** The receive path of a connection: stage each frame, stop at an error. *)
Fixpoint stage_all (rx : quic_crypto_rx_t) (fs : list (Z * list Z)) : res quic_crypto_rx_t :=
  match fs with
  | [] => Ret rx
  | (off, payload) :: fs' =>
      let! (rc, rx') := quic_crypto_rx_stage rx off payload (zlen payload) in
      if rc <? 0 then Fail else stage_all rx' fs'
  end.

Definition slice_of (S : list Z) (f : Z * list Z) : Prop :=
  0 <= fst f /\ fst f + zlen (snd f) <= zlen S /\
  forall j, 0 <= j < zlen (snd f) -> snd f !! Z.to_nat j = S !! Z.to_nat (fst f + j).

Definition covers (f : Z * list Z) (i : Z) : Prop := fst f <= i < fst f + zlen (snd f).

Definition covered (fs : list (Z * list Z)) (i : Z) : Prop := exists f, f ∈ fs /\ covers f i.

(** The receive state after the frames [seen], all slices of [S]. *)
Record run_inv (S : list Z) (cap bcap : Z) (seen : list (Z * list Z)) (rx : quic_crypto_rx_t) : Prop := {
  ri_ok : rx_ok rx;
  ri_caps : rx_cap rx = cap /\ rx_bitmap_cap rx = bcap;
  ri_view : forall i, (covered seen i -> rx_view rx i = S !! Z.to_nat i) /\
                      (is_Some (rx_view rx i) -> covered seen i);
  ri_highest : forall i, covered seen i -> i < rx_highest rx;
  ri_maximal : rx_contig_len rx = rx_highest rx \/ rx_view rx (rx_contig_len rx) = None;
  ri_bound : rx_highest rx <= zlen S;
  ri_consumed : rx_consumed rx = 0
}.

Lemma slice_covers_nonneg S fs i : Forall (slice_of S) fs -> covered fs i -> 0 <= i < zlen S.
Proof.
  intros Hfs (f & Hin & Hc). rewrite list.Forall_forall in Hfs. destruct (Hfs f Hin) as (? & ? & _).
  unfold covers in Hc. lia.
Qed.

Lemma run_init S cap bcap data :
  zlen data = cap -> 0 <= cap < 2 ^ 62 -> 0 <= bcap ->
  run_inv S cap bcap [] (quic_crypto_rx_init data cap bcap).
Proof.
  intros Hd Hc Hb. set (rx := quic_crypto_rx_init data cap bcap).
  assert (Hv : forall i, rx_view rx i = None).
  { intros i. unfold rx_view; cbn. rewrite bm_bit_replicate. by destruct (0 <=? i). }
  assert (Hcov : forall i, ~ covered [] i) by (intros i (f & Hf & _); by apply elem_of_nil in Hf).
  constructor; try done.
  - constructor; cbn; try done; try lia. unfold zlen. rewrite length_replicate. lia.
  - intros i. split; [intros Hi; by destruct (Hcov i)|]. rewrite Hv. by intros [].
  - intros i Hi. by destruct (Hcov i).
  - by left.
  - cbn. apply zlen_nonneg.
Qed.

Lemma frame_view_slice S off payload i :
  slice_of S (off, payload) ->
  frame_view off payload 0 (zlen payload) i =
  if (off <=? i) && (i <? off + zlen payload) then S !! Z.to_nat i else None.
Proof.
  intros (H0 & H1 & Hs). cbn in *. unfold frame_view. rewrite Z.add_0_r.
  destruct (Z.leb_spec off i), (Z.ltb_spec i (off + zlen payload)); cbn [andb]; try done.
  rewrite Hs by lia. f_equal. f_equal. lia.
Qed.

Lemma run_step S cap bcap seen rx off payload :
  zlen S <= cap -> (zlen S + 7) / 8 <= bcap -> Forall (slice_of S) seen ->
  run_inv S cap bcap seen rx -> slice_of S (off, payload) ->
  exists rc rx', quic_crypto_rx_stage rx off payload (zlen payload) = Ret (rc, rx') /\
    0 <= rc /\ run_inv S cap bcap ((off, payload) :: seen) rx'.
Proof.
  intros HS1 HS2 Hseen [Hok [Hc1 Hc2] Hv Hh Hm Hb Hcs] Hsl.
  assert (Hcov : forall i, covered ((off, payload) :: seen) i <-> covers (off, payload) i \/ covered seen i).
  { intros i. unfold covered. split.
    - intros (f & Hf & Hc). apply elem_of_cons in Hf as [->|Hf]; eauto.
    - intros [Hc|(f & Hf & Hc)]; [exists (off, payload)|exists f]; (split; [|done]); apply elem_of_cons; auto. }
  destruct Hsl as (Ho & He & Hs). cbn [fst snd] in *.
  pose proof (zlen_nonneg payload). pose proof (ok_cap _ Hok).
  destruct (decide (zlen payload = 0)) as [Hz|Hz].
  { exists 0, rx. unfold quic_crypto_rx_stage. replace (zlen payload =? 0) with true by lia.
    split; [done|]. split; [lia|].
    assert (Hcov' : forall i, covered ((off, payload) :: seen) i <-> covered seen i).
    { intros i. rewrite Hcov. unfold covers. cbn [fst snd]. split; [intros [?|?]; [lia|done]|auto]. }
    constructor; try done.
    - intros i. rewrite Hcov'. apply Hv.
    - intros i. rewrite Hcov'. apply Hh. }
  assert (Hag : agrees rx off payload).
  { intros j d Hj Hd. rewrite Hs by done. destruct (Hv (off + j)) as [Hv1 Hv2].
    rewrite <- Hd. symmetry. apply Hv1, Hv2. by rewrite Hd. }
  destruct (stage_fits_agrees rx off payload) as (rc & rx' & E & [Sok Src Sv Sh Sm Sc]); try done; try lia.
  { unfold fits. split; [lia|]. rewrite Hc2. dlia. }
  exists rc, rx'. split; [done|]. split; [lia|].
  assert (Hsl : slice_of S (off, payload)) by done.
  constructor; try done; try lia.
  - intros i. rewrite Sv, Hcov. unfold vunion. rewrite (frame_view_slice S) by done.
    destruct (Hv i) as [Hv1 Hv2]. unfold covers; cbn [fst snd].
    destruct (rx_view rx i) as [b|] eqn:Eb.
    + split; [|auto]. intros _. rewrite <- Hv1; [done|]. by apply Hv2.
    + destruct (Z.leb_spec off i), (Z.ltb_spec i (off + zlen payload)); cbn [andb];
        (split; [intros [?|Hci]; try lia; try done; by rewrite <- Hv1 | intros HS; try (by destruct HS); left; lia]).
  - intros i. rewrite Hcov. intros [Hc|Hc].
    + unfold covers in Hc; cbn in Hc. lia.
    + specialize (Hh i Hc). lia.
Qed.

Lemma run_all S cap bcap fs : forall seen rx,
  zlen S <= cap -> (zlen S + 7) / 8 <= bcap -> Forall (slice_of S) seen -> Forall (slice_of S) fs ->
  run_inv S cap bcap seen rx ->
  exists rx' seen', stage_all rx fs = Ret rx' /\ run_inv S cap bcap seen' rx' /\
    Forall (slice_of S) seen' /\ forall i, covered seen' i <-> covered seen i \/ covered fs i.
Proof.
  induction fs as [|[off payload] fs IH]; intros seen rx HS1 HS2 Hseen Hfs Hinv.
  { exists rx, seen. do 3 (split; [done|]). intros i. split; [by left|]. intros [?|(f & Hf & _)]; [done|].
    by apply elem_of_nil in Hf. }
  apply Forall_cons_1 in Hfs as [Hsl Hfs].
  destruct (run_step S cap bcap seen rx off payload) as (rc & rx1 & E & Hrc & Hinv1); try done.
  cbn [stage_all]. rewrite E. cbn [rbind]. replace (rc <? 0) with false by lia.
  destruct (IH ((off, payload) :: seen) rx1) as (rx' & seen' & E' & Hinv' & Hseen' & Hcov); try done.
  { by constructor. }
  exists rx', seen'. do 3 (split; [done|]). intros i. split.
  - intros Hi. apply Hcov in Hi as [(f & Hf & Hc)|(f & Hf & Hc)].
    + apply elem_of_cons in Hf as [->|Hf]; [right|left]; eexists; (split; [|done]); [apply elem_of_cons; by left|done].
    + right. exists f. split; [|done]. apply elem_of_cons. by right.
  - intros [(f & Hf & Hc)|(f & Hf & Hc)]; apply Hcov.
    + left. exists f. split; [|done]. apply elem_of_cons. by right.
    + apply elem_of_cons in Hf as [->|Hf]; [left|right]; eexists; (split; [|done]); [apply elem_of_cons; by left|done].
Qed.

(** Equality of prefixes from equality of lookups. *)
Lemma ztake_ext (l k : list Z) n :
  n <= zlen l -> n <= zlen k ->
  (forall i, 0 <= i < n -> l !! Z.to_nat i = k !! Z.to_nat i) -> ztake n l = ztake n k.
Proof.
  intros Hl Hk H. apply list_eq. intros i. unfold ztake.
  destruct (decide (i < Z.to_nat n)%nat).
  - rewrite !lookup_take_lt by done. specialize (H (Z.of_nat i) ltac:(lia)). by rewrite Nat2Z.id in H.
  - by rewrite !lookup_take_ge by lia.
Qed.

(** What a run exposes: the longest prefix that the frames determine. *)
Lemma run_prefix S cap bcap seen rx :
  run_inv S cap bcap seen rx -> Forall (slice_of S) seen ->
  ztake (rx_contig_len rx) (rx_data rx) = ztake (rx_contig_len rx) S /\
  (forall i, 0 <= i < rx_contig_len rx -> covered seen i) /\
  ~ covered seen (rx_contig_len rx) /\ rx_contig_len rx <= zlen S.
Proof.
  intros [Hok Hc Hv Hh Hm Hbd Hcs] Hseen.
  pose proof (ok_order _ Hok). pose proof (ok_highest _ Hok). pose proof (ok_data _ Hok).
  assert (Hin : forall i, 0 <= i < rx_contig_len rx -> covered seen i).
  { intros i Hi. apply (Hv i), (ok_prefix _ Hok). lia. }
  split.
  { apply ztake_ext; try lia. intros i Hi. specialize (Hin i Hi).
    destruct (Hv i) as [Hv1 _]. rewrite <- (Hv1 Hin). unfold rx_view.
    assert (Hs : is_Some (rx_view rx i)) by (apply (ok_prefix _ Hok); lia).
    apply rx_view_bit in Hs; [|lia]. by rewrite Hs, (proj2 (Z.leb_le 0 i)) by lia. }
  split; [done|]. split; [|lia].
  intros Hc1. destruct Hm as [Hm|Hm].
  - specialize (Hh _ Hc1). lia.
  - destruct (Hv (rx_contig_len rx)) as [Hv1 _]. rewrite Hv1 in Hm by done.
    apply (slice_covers_nonneg S) in Hc1; [|done].
    apply lookup_ge_None in Hm. unfold zlen in *. lia.
Qed.

(** Once every offset has been covered, the whole string is exposed. *)
Lemma run_complete S cap bcap seen rx :
  run_inv S cap bcap seen rx -> Forall (slice_of S) seen -> 0 < zlen S -> (forall i, 0 <= i < zlen S -> covered seen i) ->
  exists p, quic_crypto_rx_peek rx = (zlen S, Some p) /\ ztake (zlen S) p = S.
Proof.
  intros Hrun Hseen HS Hall. destruct (run_prefix _ _ _ _ _ Hrun Hseen) as (Hpre & _ & Hgap & Hle).
  pose proof (ok_order _ (ri_ok _ _ _ _ _ Hrun)) as [Ho _]. pose proof (ri_consumed _ _ _ _ _ Hrun) as Hcs.
  assert (Hfull : rx_contig_len rx = zlen S).
  { destruct (decide (rx_contig_len rx = zlen S)) as [|Hne]; [done|]. destruct Hgap. apply Hall. lia. }
  exists (rx_data rx). unfold quic_crypto_rx_peek. rewrite Hcs, Hfull in *. replace (zlen S <=? 0) with false by lia.
  rewrite Z.sub_0_r, padd_0. split; [done|]. rewrite Hpre. by rewrite ztake_all by lia.
Qed.

Lemma reassemble S data bcap fs :
  zlen S <= zlen data < 2 ^ 62 -> (zlen S + 7) / 8 <= bcap -> Forall (slice_of S) fs ->
  exists rx, stage_all (quic_crypto_rx_init data (zlen data) bcap) fs = Ret rx /\ rx_ok rx /\
    rx_consumed rx = 0 /\
    ztake (rx_contig_len rx) (rx_data rx) = ztake (rx_contig_len rx) S /\
    (forall i, 0 <= i < rx_contig_len rx -> covered fs i) /\
    ~ covered fs (rx_contig_len rx) /\ rx_contig_len rx <= zlen S.
Proof.
  intros HS Hb Hfs. pose proof (zlen_nonneg S).
  destruct (run_all S (zlen data) bcap fs [] (quic_crypto_rx_init data (zlen data) bcap))
    as (rx & seen & E & Hrun & Hseen & Hcov); try done; try lia.
  { apply run_init; [done|lia|dlia]. }
  assert (Hcov' : forall i, covered seen i <-> covered fs i).
  { intros i. rewrite Hcov. split; [|auto]. intros [(f & Hf & _)|?]; [|done]. by apply elem_of_nil in Hf. }
  destruct (run_prefix _ _ _ _ _ Hrun Hseen) as (Hpre & Hin & Hgap & Hle). exists rx. split; [done|]. split; [apply Hrun|]. split; [apply Hrun|].
  split; [done|]. split; [intros i Hi; by apply Hcov', Hin|]. by rewrite <- Hcov'.
Qed.

(** ** Transmission *)

(** Drain the pending bytes through a sequence of frame budgets. *)
Fixpoint tx_emit (tx : quic_crypto_tx_t) (mtus : list Z) : list (Z * list Z) * quic_crypto_tx_t :=
  match mtus with
  | [] => ([], tx)
  | m :: mtus' =>
      match quic_crypto_tx_next tx m with
      | None => tx_emit tx mtus'
      | Some (off, chunk, n) =>
          let (fs, tx') := tx_emit (quic_crypto_tx_consume tx n) mtus' in
          ((off, ztake n chunk) :: fs, tx')
      end
  end.

(** [tx] has sent the first [tx_next_offset tx] bytes of [S]. *)
Definition tx_inv (S : list Z) (tx : quic_crypto_tx_t) : Prop :=
  0 <= tx_next_offset tx <= zlen S /\ tx_pending tx = padd S (tx_next_offset tx) /\
  tx_pending_len tx = zlen S - tx_next_offset tx.

Lemma slice_padd S off n :
  0 <= off -> 0 <= n -> off + n <= zlen S -> slice_of S (off, ztake n (padd S off)).
Proof.
  intros Ho Hn He. unfold slice_of; cbn [fst snd].
  assert (Hl : zlen (ztake n (padd S off)) = n) by (rewrite zlen_ztake, zlen_padd by lia; lia).
  rewrite Hl. repeat split; try lia. intros j Hj. unfold ztake, padd.
  rewrite lookup_take_lt by lia. rewrite lookup_drop. f_equal. lia.
Qed.

Lemma tx_emit_spec S mtus : forall tx,
  zlen S < 2 ^ 62 -> tx_inv S tx -> Forall (fun m => 0 <= m) mtus ->
  let '(fs, tx') := tx_emit tx mtus in
  tx_inv S tx' /\ Forall (slice_of S) fs /\
  forall i, tx_next_offset tx <= i < tx_next_offset tx' -> covered fs i.
Proof.
  induction mtus as [|m mtus IH]; intros tx HS Hinv Hm; cbn [tx_emit].
  { split; [done|]. split; [constructor|]. lia. }
  apply Forall_cons_1 in Hm as [Hm Hms].
  unfold quic_crypto_tx_next. destruct ((tx_pending_len tx =? 0) || (m =? 0)) eqn:Ez; [by apply IH|].
  apply orb_false_iff in Ez as [Hp0 Hm0].
  set (n := if tx_pending_len tx <? m then tx_pending_len tx else m).
  assert (Hn : 0 < n <= tx_pending_len tx).
  { destruct Hinv as (? & _ & ?). unfold n. zcase; lia. }
  destruct Hinv as (Ho & Hpd & Hpl).
  specialize (IH (quic_crypto_tx_consume tx n)).
  assert (Hc : quic_crypto_tx_consume tx n =
               mk_tx (padd S (tx_next_offset tx + n)) (zlen S - (tx_next_offset tx + n)) (tx_next_offset tx + n)).
  { unfold quic_crypto_tx_consume. replace (tx_pending_len tx <? n) with false by lia.
    rewrite Hpd, padd_padd, u64_small by lia. f_equal. lia. }
  rewrite Hc in *. destruct (tx_emit _ mtus) as [fs tx'].
  destruct IH as (Hinv' & Hfs & Hcov); [done| |done|].
  { unfold tx_inv; cbn. repeat split; lia || done. }
  cbn in Hcov. split; [done|]. split.
  - constructor; [|done]. rewrite Hpd. apply slice_padd; lia.
  - intros i Hi. destruct (Z.ltb_spec i (tx_next_offset tx + n)).
    + eexists; split; [apply elem_of_cons; by left|]. unfold covers; cbn.
      rewrite Hpd, zlen_ztake, zlen_padd by lia. lia.
    + destruct (Hcov i ltac:(lia)) as (f & Hf & Hcf). exists f. split; [|done]. apply elem_of_cons. by right.
Qed.

(** ** Properties *)

(** One call of [quic_crypto_rx_stage] refines insertion into a partial map
    from offsets to bytes.  On any well-formed state and any non-empty frame it
    makes no out-of-bounds access and: a frame that does not fit is refused
    with -1 and changes nothing; a frame that fits and agrees with the bytes
    already received returns 1 (some byte was new) or 0 (all duplicates), adds
    exactly its bytes to the view, keeps the state well-formed and leaves
    [contig_len] at the first gap; a frame with a conflicting byte returns -1,
    changes no byte already received and exposes nothing new. *)
Theorem stage_correct rx off payload
    (Hok : rx_ok rx) (Hoff : 0 <= off < 2 ^ 64) (Hlen : 0 < zlen payload < 2 ^ 64) :
  let run := quic_crypto_rx_stage rx off payload (zlen payload) in
  (~ fits rx off (zlen payload) -> run = Ret (-1, rx)) /\
  (fits rx off (zlen payload) -> agrees rx off payload ->
     exists rc rx', run = Ret (rc, rx') /\ staged rx off payload rc rx') /\
  (fits rx off (zlen payload) -> ~ agrees rx off payload ->
     exists rx', run = Ret (-1, rx') /\ rx_ok rx' /\
       (forall i b, rx_view rx i = Some b -> rx_view rx' i = Some b) /\
       rx_contig_len rx' = rx_contig_len rx /\ rx_consumed rx' = rx_consumed rx).
Proof.
  cbv zeta. split; [|split].
  - intros Hf. by destruct (stage_dispatch rx off payload Hok Hoff Hlen) as [[_ ?]|[? _]].
  - intros Hf Ha. by apply stage_fits_agrees.
  - intros Hf Ha. by apply stage_fits_conflict.
Qed.

Definition demo_rx : quic_crypto_rx_t := quic_crypto_rx_init [0; 0; 0; 0; 0; 0; 0; 0] 8 1.

Lemma demo_rx_ok : rx_ok demo_rx.
Proof.
  apply (ri_ok [] 8 1 [] demo_rx). apply run_init; vm_compute; intuition discriminate.
Qed.

Lemma stage_correct_witness :
  (exists rc rx', quic_crypto_rx_stage demo_rx 2 [5; 6; 7] 3 = Ret (rc, rx') /\
                  staged demo_rx 2 [5; 6; 7] rc rx').
Proof.
  apply (stage_correct demo_rx 2 [5; 6; 7] demo_rx_ok).
  - vm_compute; intuition discriminate.
  - vm_compute; intuition discriminate.
  - vm_compute; intuition discriminate.
  - intros j d Hj. unfold rx_view, demo_rx; cbn [quic_crypto_rx_init rx_bitmap].
    rewrite bm_bit_replicate. destruct (0 <=? _); discriminate.
Defined.

(** Reassembly is correct for every arrival order, overlap and duplication.
    Staging any list of slices of a byte string S (that fits the buffers) into
    a fresh receiver never errs; afterwards the in-order prefix it exposes is a
    prefix of S, every offset before [contig_len] is covered by some frame, and
    [contig_len] itself is not, so the exposed prefix is the longest one the
    frames determine. *)
Theorem reassembly_any_order S data bcap fs
    (HS : zlen S <= zlen data < 2 ^ 62) (Hb : (zlen S + 7) / 8 <= bcap)
    (Hfs : Forall (slice_of S) fs) :
  exists rx, stage_all (quic_crypto_rx_init data (zlen data) bcap) fs = Ret rx /\ rx_ok rx /\
    ztake (rx_contig_len rx) (rx_data rx) = ztake (rx_contig_len rx) S /\
    (forall i, 0 <= i < rx_contig_len rx -> covered fs i) /\
    ~ covered fs (rx_contig_len rx) /\ rx_contig_len rx <= zlen S.
Proof.
  destruct (reassemble S data bcap fs HS Hb Hfs) as (rx & E & Hok & _ & H). by exists rx.
Qed.

Lemma reassembly_any_order_witness :
  exists rx, stage_all (quic_crypto_rx_init [0; 0; 0; 0] 4 1) [(2, [3]); (0, [1; 2])] = Ret rx /\
    ztake (rx_contig_len rx) (rx_data rx) = ztake (rx_contig_len rx) [1; 2; 3; 4].
Proof.
  destruct (reassembly_any_order [1; 2; 3; 4] [0; 0; 0; 0] 1 [(2, [3]); (0, [1; 2])])
    as (rx & E & _ & Ht & _).
  - vm_compute; intuition discriminate.
  - vm_compute; intuition discriminate.
  - constructor; [by apply (slice_padd [1; 2; 3; 4] 2 1)|].
    constructor; [by apply (slice_padd [1; 2; 3; 4] 0 2)|constructor].
  - exists rx. by split.
Defined.

(** The CRYPTO byte stream is delivered end to end.  If the sender drains a
    message through [quic_crypto_tx_next] / [quic_crypto_tx_consume] with any
    sequence of frame budgets, and the receiver stages exactly those frames, in
    any order and any number of times each, then the receiver never errs and
    [quic_crypto_rx_peek] exposes exactly the message. *)
Theorem crypto_end_to_end msg mtus data bcap arrivals
    (Hmsg : 0 < zlen msg <= zlen data) (Hdata : zlen data < 2 ^ 62) (Hb : (zlen msg + 7) / 8 <= bcap)
    (Hmtus : Forall (fun m => 0 <= m) mtus)
    (Hdrained : tx_pending_len
       (snd (tx_emit (quic_crypto_tx_set_pending quic_crypto_tx_init msg (zlen msg)) mtus)) = 0)
    (Harr : forall f, f ∈ arrivals <->
       f ∈ fst (tx_emit (quic_crypto_tx_set_pending quic_crypto_tx_init msg (zlen msg)) mtus)) :
  exists rx p, stage_all (quic_crypto_rx_init data (zlen data) bcap) arrivals = Ret rx /\
    quic_crypto_rx_peek rx = (zlen msg, Some p) /\ ztake (zlen msg) p = msg.
Proof.
  set (tx := quic_crypto_tx_set_pending quic_crypto_tx_init msg (zlen msg)) in *.
  assert (Hinv : tx_inv msg tx).
  { unfold tx_inv, tx; cbn. repeat split; try lia; by rewrite padd_0. }
  pose proof (tx_emit_spec msg mtus tx ltac:(lia) Hinv Hmtus) as He.
  destruct (tx_emit tx mtus) as [fs tx']. cbn [fst snd] in *.
  destruct He as ((? & _ & Hpl) & Hfs & Hcov).
  destruct (reassemble msg data bcap arrivals) as (rx & E & Hok & Hcons & Ht & Hin & Hout & Hle);
    [lia|done| |].
  { rewrite list.Forall_forall in Hfs |- *. intros f Hf. by apply Hfs, Harr. }
  assert (Hc : rx_contig_len rx = zlen msg).
  { destruct (Z.eq_dec (rx_contig_len rx) (zlen msg)); [done|]. exfalso. apply Hout.
    pose proof (ok_order _ Hok).
    destruct (Hcov (rx_contig_len rx)) as (f & Hf & Hcf); [cbn; lia|].
    exists f. split; [by apply Harr|done]. }
  exists rx, (rx_data rx). split; [done|]. unfold quic_crypto_rx_peek. rewrite Hc, Hcons, padd_0.
  replace (zlen msg <=? 0) with false by lia. rewrite Z.sub_0_r. split; [done|].
  rewrite Hc in Ht. rewrite Ht. apply ztake_all. lia.
Qed.

Lemma crypto_end_to_end_witness :
  exists rx p, stage_all (quic_crypto_rx_init [0; 0; 0; 0; 0; 0] 6 1) [(2, [3; 4]); (4, [5]); (0, [1; 2]); (2, [3; 4])] = Ret rx /\
    quic_crypto_rx_peek rx = (5, Some p) /\ ztake 5 p = [1; 2; 3; 4; 5].
Proof.
  apply (crypto_end_to_end [1; 2; 3; 4; 5] [2; 0; 2; 7] [0; 0; 0; 0; 0; 0] 1).
  - vm_compute; intuition discriminate.
  - vm_compute; intuition discriminate.
  - vm_compute; intuition discriminate.
  - repeat constructor; lia.
  - reflexivity.
  - change (fst _) with [(0, [1; 2]); (2, [3; 4]); (4, [5])]. intros f. rewrite !elem_of_cons. tauto.
Defined.
