(* ===== verification/Stream.v ===== *)
(** * QUIC stream receive state (RFC 9000 sections 3.2, 4.5, 19.8)

    Models [userspace/quic/stream.c]: a [quic_stream_rx_t] is the reassembler
    of [CryptoStream.v] plus the final-size rules of the FIN bit. *)

From Stdlib Require Import ZArith Lia.
From stdpp Require Import list numbers option.
From S2P Require Import Prelude CryptoStream.

Definition QUIC_STREAM_RX_CAP : Z := 16384.
Definition QUIC_STREAM_BITMAP_CAP : Z := (QUIC_STREAM_RX_CAP + 7) / 8.

Record quic_stream_rx_t := mk_stream {
  s_in_use : bool;
  s_stream_id : Z;
  s_fin_seen : bool;
  s_final_size : Z;
  s_rx : quic_crypto_rx_t
}.

(** [memset(s, 0, sizeof *s)]: the embedded descriptor has null pointers and
    zero capacities. *)
Definition quic_stream_rx_clear : quic_stream_rx_t :=
  mk_stream false 0 false 0 (mk_rx [] 0 0 0 [] 0 0).

Definition quic_stream_rx_init (stream_id : Z) : quic_stream_rx_t :=
  mk_stream true stream_id false 0
    (quic_crypto_rx_init (replicate (Z.to_nat QUIC_STREAM_RX_CAP) 0)
       QUIC_STREAM_RX_CAP QUIC_STREAM_BITMAP_CAP).

(** Recording of the FIN bit; [None] is [return -1]. *)
Definition stream_fin (s : quic_stream_rx_t) (fin : bool) (end_ : Z) : option quic_stream_rx_t :=
  if s_fin_seen s then
    if s_final_size s <? end_ then None
    else if fin && negb (end_ =? s_final_size s) then None
    else Some s
  else if fin then
    if end_ <? rx_highest (s_rx s) then None
    else Some (mk_stream (s_in_use s) (s_stream_id s) true end_ (s_rx s))
  else Some s.

Definition quic_stream_rx_ingest (s : quic_stream_rx_t) (offset : Z) (data : list Z) (len : Z)
    (fin : bool) : res (Z * quic_stream_rx_t) :=
  if negb (s_in_use s) then Ret (-1, s)
  else if u64 (offset + len) <? offset then Ret (-1, s)
  else
    let end_ := u64 (offset + len) in
    match stream_fin s fin end_ with
    | None => Ret (-1, s)
    | Some s1 =>
        if len =? 0 then Ret (if fin then 1 else 0, s1)
        else
          let! (rc, rx') := quic_crypto_rx_stage (s_rx s1) offset data len in
          Ret (rc, mk_stream (s_in_use s1) (s_stream_id s1) (s_fin_seen s1) (s_final_size s1) rx')
    end.

Definition quic_stream_rx_peek (s : quic_stream_rx_t) : Z * option (list Z) :=
  if negb (s_in_use s) then (0, None) else quic_crypto_rx_peek (s_rx s).

Definition quic_stream_rx_advance (s : quic_stream_rx_t) (n : Z) : quic_stream_rx_t :=
  if negb (s_in_use s) then s
  else mk_stream (s_in_use s) (s_stream_id s) (s_fin_seen s) (s_final_size s)
         (quic_crypto_rx_advance (s_rx s) n).

Definition quic_stream_rx_is_complete (s : quic_stream_rx_t) : bool :=
  if negb (s_in_use s) || negb (s_fin_seen s) then false
  else rx_contig_len (s_rx s) =? s_final_size s.

(** ** Sequences of STREAM frames *)

Record stream_frame := mk_sf { sf_off : Z; sf_data : list Z; sf_fin : bool }.

Definition sf_slice (f : stream_frame) : Z * list Z := (sf_off f, sf_data f).

Fixpoint ingest_all (s : quic_stream_rx_t) (fs : list stream_frame) : res quic_stream_rx_t :=
  match fs with
  | [] => Ret s
  | f :: fs' =>
      let! (rc, s') := quic_stream_rx_ingest s (sf_off f) (sf_data f) (zlen (sf_data f)) (sf_fin f) in
      if rc <? 0 then Fail else ingest_all s' fs'
  end.

(** A frame a sender of the finished stream [S] may emit. *)
Definition frame_of (S : list Z) (f : stream_frame) : Prop :=
  slice_of S (sf_slice f) /\ (sf_fin f = true -> sf_off f + zlen (sf_data f) = zlen S).

(** ** The final-size rules *)

Lemma ingest_no_wrap s off data fin :
  s_in_use s = true -> 0 <= off -> off + zlen data < 2 ^ 64 ->
  quic_stream_rx_ingest s off data (zlen data) fin =
  match stream_fin s fin (off + zlen data) with
  | None => Ret (-1, s)
  | Some s1 =>
      if zlen data =? 0 then Ret (if fin then 1 else 0, s1)
      else
        let! (rc, rx') := quic_crypto_rx_stage (s_rx s1) off data (zlen data) in
        Ret (rc, mk_stream (s_in_use s1) (s_stream_id s1) (s_fin_seen s1) (s_final_size s1) rx')
  end.
Proof.
  intros Hu Ho Hl. pose proof (zlen_nonneg data). unfold quic_stream_rx_ingest. rewrite Hu. cbn [negb].
  rewrite u64_small by lia. by replace (off + zlen data <? off) with false by lia.
Qed.

(** The receive invariant: nothing counted past the final size. *)
Record stream_ok (s : quic_stream_rx_t) : Prop := {
  so_rx : rx_ok (s_rx s);
  so_final : s_fin_seen s = true -> rx_highest (s_rx s) <= s_final_size s < 2 ^ 64
}.

Lemma stream_fin_ok s fin e s1 :
  stream_ok s -> 0 <= e < 2 ^ 64 -> stream_fin s fin e = Some s1 ->
  s_rx s1 = s_rx s /\ s_in_use s1 = s_in_use s /\ s_stream_id s1 = s_stream_id s /\
  (s_fin_seen s = true -> s1 = s) /\ (s_fin_seen s1 = true -> e <= s_final_size s1) /\ stream_ok s1.
Proof.
  intros Hok He. unfold stream_fin.
  destruct (s_fin_seen s) eqn:Ef.
  - destruct (Z.ltb_spec (s_final_size s) e); [done|].
    destruct (fin && _); [done|]. intros [= <-]. do 4 (split; [done|]). by split; [lia|].
  - destruct fin.
    + destruct (Z.ltb_spec e (rx_highest (s_rx s))); [done|]. intros [= <-]. cbn.
      do 4 (split; [done|]). split; [lia|]. split; [apply Hok|cbn; lia].
    + intros [= <-]. do 4 (split; [done|]). by split; [congruence|].
Qed.

(** Highest after one stage call on a well-formed state. *)
Lemma stage_highest rx off data rc rx' :
  rx_ok rx -> 0 <= off < 2 ^ 64 -> 0 < zlen data < 2 ^ 64 ->
  quic_crypto_rx_stage rx off data (zlen data) = Ret (rc, rx') ->
  rx_ok rx' /\ rx_highest rx' <= Z.max (rx_highest rx) (off + zlen data).
Proof.
  intros Hok Ho Hl E.
  destruct (stage_dispatch rx off data Hok Ho Hl) as [[_ E']|[Hf (ok & rx1 & saw & m & HP & El)]].
  { rewrite E' in E. injection E as <- <-. split; [done|lia]. }
  pose proof (proj2 (fits_dec_false rx off (zlen data) Hok Ho Hl) Hf) as Hdec.
  apply orb_false_iff in Hdec as [Hd1 Hd2].
  unfold quic_crypto_rx_stage in E. rewrite Hd1, Hd2, El in E.
  replace (zlen data =? 0) with false in E by lia. cbn [rbind] in E.
  destruct ok; cbn [negb] in E.
  - destruct (stage_finish rx rx1 off data saw m Hok ltac:(lia) Hf HP) as (c & Ec & Hst).
    rewrite Ec in E. cbn [rbind] in E. injection E as <- <-.
    split; [apply Hst|]. rewrite (st_highest _ _ _ _ _ Hst). lia.
  - injection E as <- <-. pose proof (sp_frame _ _ _ _ _ _ _ _ _ HP) as Hfr. split.
    + eapply rx_ok_same_frame; [done|done|]. intros i b Hb.
      rewrite (sp_view _ _ _ _ _ _ _ _ _ HP). by apply view_grows.
    + destruct Hfr as (_ & _ & _ & _ & -> & _). lia.
Qed.

Lemma stage_total rx off data :
  rx_ok rx -> 0 <= off < 2 ^ 64 -> 0 < zlen data < 2 ^ 64 ->
  exists rc rx', quic_crypto_rx_stage rx off data (zlen data) = Ret (rc, rx').
Proof.
  intros Hok Ho Hl.
  destruct (stage_dispatch rx off data Hok Ho Hl) as [[_ E']|[Hf (ok & rx1 & saw & m & HP & El)]]; [eauto|].
  pose proof (proj2 (fits_dec_false rx off (zlen data) Hok Ho Hl) Hf) as Hdec.
  apply orb_false_iff in Hdec as [Hd1 Hd2]. unfold quic_crypto_rx_stage.
  rewrite Hd1, Hd2, El. replace (zlen data =? 0) with false by lia. cbn [rbind].
  destruct ok; cbn [negb]; [|eauto].
  destruct (stage_finish rx rx1 off data saw m Hok ltac:(lia) Hf HP) as (c & -> & _). cbn [rbind]. eauto.
Qed.

Lemma ingest_preserves s off data fin :
  stream_ok s -> s_in_use s = true -> 0 <= off < 2 ^ 64 -> zlen data < 2 ^ 64 ->
  exists rc s', quic_stream_rx_ingest s off data (zlen data) fin = Ret (rc, s') /\ stream_ok s' /\
    (s_fin_seen s = true -> s_fin_seen s' = true /\ s_final_size s' = s_final_size s) /\
    s_in_use s' = true /\ s_stream_id s' = s_stream_id s.
Proof.
  intros Hok Hu Ho Hl. pose proof (zlen_nonneg data).
  destruct (Z.ltb_spec (off + zlen data) (2 ^ 64)) as [Hs|Hw].
  2:{ exists (-1), s. unfold quic_stream_rx_ingest. rewrite Hu. cbn [negb].
      replace (u64 (off + zlen data) <? off) with true by (unfold u64; dlia). done. }
  rewrite ingest_no_wrap by (done || lia).
  destruct (stream_fin s fin (off + zlen data)) as [s1|] eqn:Ef; [|by exists (-1), s].
  apply stream_fin_ok in Ef as (E1 & E2 & E3 & E4 & E5 & Hok1); [|done|lia].
  destruct (Z.eqb_spec (zlen data) 0).
  { eexists _, s1. split; [done|]. split; [done|]. split; [|by rewrite E2, E3].
    intros Hf. by rewrite (E4 Hf). }
  destruct (stage_total (s_rx s1) off data) as (rc & rx' & E); [apply Hok1|lia|lia|].
  rewrite E. cbn [rbind].
  destruct (stage_highest (s_rx s1) off data rc rx') as [Hrx' Hh]; [apply Hok1|lia|lia|done|].
  eexists rc, _. split; [done|]. split; [|cbn; split; [|by rewrite E2, E3]].
  - constructor; cbn; [done|]. intros Hf. specialize (E5 Hf). pose proof (so_final _ Hok1 Hf). lia.
  - intros Hf. by rewrite (E4 Hf).
Qed.

(** The final size of a stream is immutable and enforced.  For every
    well-formed stream and every STREAM frame, [quic_stream_rx_ingest] is
    memory-safe, keeps the state well-formed (nothing counted past the final
    size), never changes a final size once a FIN fixed it, and refuses with -1,
    leaving the state as it was: an offset that wraps, a frame that reaches past
    the final size, a FIN that declares another final size, and a first FIN
    below data already received. *)
Theorem stream_final_size s off data fin
    (Hok : stream_ok s) (Hu : s_in_use s = true) (Ho : 0 <= off < 2 ^ 64) (Hl : zlen data < 2 ^ 64) :
  let e := off + zlen data in
  exists rc s', quic_stream_rx_ingest s off data (zlen data) fin = Ret (rc, s') /\ stream_ok s' /\
    (s_fin_seen s = true -> s_fin_seen s' = true /\ s_final_size s' = s_final_size s) /\
    (2 ^ 64 <= e \/
     s_fin_seen s = true /\ s_final_size s < e \/
     s_fin_seen s = true /\ fin = true /\ e <> s_final_size s \/
     s_fin_seen s = false /\ fin = true /\ e < rx_highest (s_rx s) -> rc = -1 /\ s' = s).
Proof.
  cbv zeta. destruct (ingest_preserves s off data fin Hok Hu Ho Hl) as (rc & s' & E & Hok' & Hf & _).
  exists rc, s'. do 3 (split; [done|]). intros Hbad. pose proof (zlen_nonneg data).
  unfold quic_stream_rx_ingest in E. rewrite Hu in E. cbn [negb] in E.
  assert (exists e, e = off + zlen data) as [e He] by eauto. rewrite <- He in *.
  destruct (Z.ltb_spec e (2 ^ 64)).
  - rewrite u64_small in E by lia. replace (e <? off) with false in E by lia.
    unfold stream_fin in E. destruct Hbad as [?|[[H1 H2]|[(H1 & -> & H2)|(H1 & -> & H2)]]]; [lia|..];
      rewrite H1 in E.
    + replace (s_final_size s <? e) with true in E by lia. by injection E as <- <-.
    + rewrite (proj2 (Z.eqb_neq _ _) H2) in E. cbn [negb andb] in E.
      destruct (_ <? _); by injection E as <- <-.
    + replace (e <? rx_highest (s_rx s)) with true in E by lia. by injection E as <- <-.
  - replace (u64 e <? off) with true in E by (unfold u64; dlia). by injection E as <- <-.
Qed.

Lemma stream_init_ok id : stream_ok (quic_stream_rx_init id).
Proof.
  constructor; [|done]. apply (ri_ok [] 16384 2048 [] _). apply run_init; [|done|done].
  unfold zlen. by rewrite length_replicate.
Qed.

Lemma stream_final_size_witness :
  exists rc s', quic_stream_rx_ingest (quic_stream_rx_init 4) 0 [1; 2; 3] (zlen [1; 2; 3]) true = Ret (rc, s') /\ stream_ok s'.
Proof.
  destruct (stream_final_size (quic_stream_rx_init 4) 0 [1; 2; 3] true) as (rc & s' & E & Hok & _).
  - apply stream_init_ok.
  - reflexivity.
  - vm_compute; intuition discriminate.
  - vm_compute; intuition discriminate.
  - exact (ex_intro _ rc (ex_intro _ s' (conj E Hok))).
Defined.

(** ** Delivery of a finished stream *)

Record stream_run (S : list Z) (seen : list stream_frame) (s : quic_stream_rx_t) : Prop := {
  sr_rx : run_inv S QUIC_STREAM_RX_CAP QUIC_STREAM_BITMAP_CAP (map sf_slice seen) (s_rx s);
  sr_in_use : s_in_use s = true;
  sr_fin : s_fin_seen s = true -> s_final_size s = zlen S;
  sr_fin_seen : s_fin_seen s = true <-> exists f, f ∈ seen /\ sf_fin f = true
}.

Lemma run_inv_ext S cap bcap seen seen' rx :
  (forall i, covered seen i <-> covered seen' i) -> run_inv S cap bcap seen rx -> run_inv S cap bcap seen' rx.
Proof.
  intros H [Hok Hc Hv Hh Hm Hb Hco]. constructor; try done.
  - intros i. rewrite <- H. apply Hv.
  - intros i. rewrite <- H. apply Hh.
Qed.

Lemma stream_fin_of S seen s f :
  stream_run S seen s -> frame_of S f -> Forall (frame_of S) seen ->
  exists s1, stream_fin s (sf_fin f) (sf_off f + zlen (sf_data f)) = Some s1 /\
    s_rx s1 = s_rx s /\ s_in_use s1 = true /\
    (s_fin_seen s1 = true -> s_final_size s1 = zlen S) /\
    (s_fin_seen s1 = true <-> s_fin_seen s = true \/ sf_fin f = true).
Proof.
  intros [Hrx Hu Hf Hfs] [(Ho & He & _) Hfin] Hseen. cbn [sf_slice fst snd] in *. unfold stream_fin.
  pose proof (ri_bound _ _ _ _ _ Hrx).
  destruct (s_fin_seen s) eqn:Es.
  - rewrite (Hf eq_refl). replace (zlen S <? _) with false by lia.
    exists s. destruct (sf_fin f) eqn:Eff; cbn [andb].
    + rewrite (Hfin eq_refl), Z.eqb_refl. cbn [negb]. rewrite Es. by repeat split; auto.
    + rewrite Es. by repeat split; auto.
  - destruct (sf_fin f) eqn:Eff.
    + replace (_ <? rx_highest (s_rx s)) with false by (specialize (Hfin eq_refl); lia).
      eexists; split; [done|]. cbn. rewrite Hu. repeat split; auto.
    + exists s. rewrite Es. repeat split; auto; intros [?|?]; done.
Qed.

Lemma stream_run_step S seen s f :
  zlen S <= QUIC_STREAM_RX_CAP -> Forall (frame_of S) seen -> stream_run S seen s -> frame_of S f ->
  exists rc s', quic_stream_rx_ingest s (sf_off f) (sf_data f) (zlen (sf_data f)) (sf_fin f) = Ret (rc, s') /\
    0 <= rc /\ stream_run S (f :: seen) s'.
Proof.
  intros HS Hseen Hrun Hf. pose proof Hf as [Hsl _]. pose proof Hsl as (Ho & He & _). cbn [sf_slice fst snd] in Ho, He.
  destruct (stream_fin_of S seen s f Hrun Hf Hseen) as (s1 & Efin & Erx & Eu & Hfinal & Hfs).
  destruct Hrun as [Hrx Hu Hff Hffs]. assert (HSn : zlen S <= 16384) by done.
  rewrite ingest_no_wrap, Efin by (done || lia).
  assert (Hfs' : forall b : bool, b = true <-> s_fin_seen s = true \/ sf_fin f = true ->
            (b = true <-> exists g, g ∈ f :: seen /\ sf_fin g = true)).
  { intros b ->. rewrite Hffs. split.
    - intros [(g & Hg & Hgf)|Hff']; [exists g|exists f]; (split; [apply elem_of_cons|done]); auto.
    - intros (g & Hg & Hgf). apply elem_of_cons in Hg as [->|Hg]; eauto. }
  destruct (run_step S QUIC_STREAM_RX_CAP QUIC_STREAM_BITMAP_CAP (map sf_slice seen) (s_rx s)
              (sf_off f) (sf_data f)) as (rc & rx' & Est & Hrc & Hinv'); try done.
  { unfold QUIC_STREAM_BITMAP_CAP, QUIC_STREAM_RX_CAP. dlia. }
  { apply list.Forall_forall. rewrite list.Forall_forall in Hseen. intros p Hp.
    apply list_elem_of_fmap in Hp as (g & -> & Hg). by apply Hseen. }
  destruct (Z.eqb_spec (zlen (sf_data f)) 0) as [Hz|Hz].
  - eexists _, s1. split; [done|]. split; [by destruct (sf_fin f)|].
    constructor; auto. rewrite Erx. unfold quic_crypto_rx_stage in Est.
    replace (zlen (sf_data f) =? 0) with true in Est by lia. by injection Est as <- <-.
  - rewrite Erx, Est. cbn [rbind]. eexists rc, _. split; [done|]. split; [done|]. by constructor; auto.
Qed.

Lemma stream_run_all S fs : forall seen s,
  zlen S <= QUIC_STREAM_RX_CAP -> Forall (frame_of S) seen -> Forall (frame_of S) fs -> stream_run S seen s ->
  exists s' seen', ingest_all s fs = Ret s' /\ stream_run S seen' s' /\ Forall (frame_of S) seen' /\
    forall f, f ∈ seen' <-> f ∈ seen \/ f ∈ fs.
Proof.
  induction fs as [|f fs IH]; intros seen s HS Hseen Hfs Hrun.
  { exists s, seen. do 3 (split; [done|]). intros f. rewrite elem_of_nil. tauto. }
  apply Forall_cons_1 in Hfs as [Hf Hfs].
  destruct (stream_run_step S seen s f HS Hseen Hrun Hf) as (rc & s1 & E & Hrc & Hrun1).
  cbn [ingest_all]. rewrite E. cbn [rbind]. replace (rc <? 0) with false by lia.
  destruct (IH (f :: seen) s1) as (s' & seen' & E' & Hrun' & Hseen' & Hmem); try done.
  { by constructor. }
  exists s', seen'. do 3 (split; [done|]). intros g. rewrite Hmem, !elem_of_cons. tauto.
Qed.

Lemma stream_run_init S id : stream_run S [] (quic_stream_rx_init id).
Proof.
  constructor; cbn; try done.
  - apply run_init; [|done|done]. unfold zlen. by rewrite length_replicate.
  - split; [done|]. intros (f & Hf & _). by apply elem_of_nil in Hf.
Qed.

(** Completeness depends on the set of frames only. *)
Lemma complete_ext fs gs (P : Z -> Prop) :
  (forall f, f ∈ fs <-> f ∈ gs) ->
  (exists f, f ∈ fs /\ sf_fin f = true) /\ (forall i, P i -> covered (map sf_slice fs) i) <->
  (exists f, f ∈ gs /\ sf_fin f = true) /\ (forall i, P i -> covered (map sf_slice gs) i).
Proof.
  intros Hm. assert (Hcov : forall i, covered (map sf_slice fs) i <-> covered (map sf_slice gs) i).
  { intros i. unfold covered. split; intros (p & Hp & Hc); exists p; (split; [|done]); apply list_elem_of_fmap in Hp as (g & -> & Hg); apply list_elem_of_fmap_2, Hm, Hg. }
  split; intros [(f & Hf & Hff) Ha]; (split; [exists f; split; [by apply Hm|done]|]); intros i Hi; apply Hcov, Ha, Hi.
Qed.

(** What the application sees of a run: completion exactly when a FIN has been
    received and every byte is covered, and then the stream. *)
Lemma stream_run_result S seen s :
  stream_run S seen s -> zlen S <= QUIC_STREAM_RX_CAP -> Forall (frame_of S) seen ->
  (quic_stream_rx_is_complete s = true <->
     (exists f, f ∈ seen /\ sf_fin f = true) /\
     (forall i, 0 <= i < zlen S -> covered (map sf_slice seen) i)) /\
  (quic_stream_rx_is_complete s = true -> 0 < zlen S ->
     exists p, quic_stream_rx_peek s = (zlen S, Some p) /\ ztake (zlen S) p = S).
Proof.
  intros [Hrx Hu Hfin Hfs] HS Hseen. assert (Hsl : Forall (slice_of S) (map sf_slice seen)).
  { apply list.Forall_forall. rewrite list.Forall_forall in Hseen. intros p Hp. apply list_elem_of_fmap in Hp as (g & -> & Hg). by apply Hseen. }
  destruct (run_prefix _ _ _ _ _ Hrx Hsl) as (_ & Hin & Hgap & Hle). pose proof (ok_order _ (ri_ok _ _ _ _ _ Hrx)) as [Ho _]. pose proof (zlen_nonneg S).
  assert (Hcontig : rx_contig_len (s_rx s) = zlen S <-> forall i, 0 <= i < zlen S -> covered (map sf_slice seen) i).
  { split; [intros <-; exact Hin|]. intros Hall. destruct (Z.eq_dec (rx_contig_len (s_rx s)) (zlen S)); [done|]. destruct Hgap. apply Hall. lia. }
  unfold quic_stream_rx_is_complete. rewrite Hu. cbn [negb orb].
  destruct (s_fin_seen s) eqn:Ef; cbn [negb].
  2:{ split; [|done]. split; [done|]. intros [HH _]. by apply Hfs in HH. }
  rewrite (Hfin eq_refl), Z.eqb_eq. split; [rewrite <- Hfs, <- Hcontig; tauto|].
  intros Hl Hpos. unfold quic_stream_rx_peek. rewrite Hu. cbn [negb]. apply (run_complete _ _ _ _ _ Hrx Hsl Hpos). by apply Hcontig.
Qed.

(** C24: a finished stream is delivered exactly, and completion is detected
    exactly.  For a stream S that fits the receive buffer, staging any list of
    STREAM frames of S (slices, FIN only on frames that end at the end of S, in
    any order, overlapping or repeated) never errs, and afterwards
    [quic_stream_rx_is_complete] is true iff a FIN has been received and every
    byte of S is covered; when it is, the readable bytes are exactly S. *)
Theorem stream_delivery S id fs
    (HS : zlen S <= QUIC_STREAM_RX_CAP) (Hfs : Forall (frame_of S) fs) :
  exists s, ingest_all (quic_stream_rx_init id) fs = Ret s /\
    (quic_stream_rx_is_complete s = true <->
       (exists f, f ∈ fs /\ sf_fin f = true) /\
       (forall i, 0 <= i < zlen S -> covered (map sf_slice fs) i)) /\
    (quic_stream_rx_is_complete s = true -> 0 < zlen S ->
       exists p, quic_stream_rx_peek s = (zlen S, Some p) /\ ztake (zlen S) p = S).
Proof.
  destruct (stream_run_all S fs [] (quic_stream_rx_init id)) as (s & seen & E & Hrun & Hseen & Hmem); try done; [apply stream_run_init|].
  exists s. split; [done|]. destruct (stream_run_result S seen s Hrun HS Hseen) as [Hc Hp]. split; [|done]. rewrite Hc.
  apply (complete_ext seen fs (fun i => 0 <= i < zlen S)). intros f. rewrite Hmem, elem_of_nil. tauto.
Qed.

Lemma stream_delivery_witness :
  exists s, ingest_all (quic_stream_rx_init 4) [mk_sf 1 [8; 9] true; mk_sf 0 [7; 8] false] = Ret s /\
    (quic_stream_rx_is_complete s = true <->
       (exists f, f ∈ [mk_sf 1 [8; 9] true; mk_sf 0 [7; 8] false] /\ sf_fin f = true) /\
       (forall i, 0 <= i < zlen [7; 8; 9] ->
          covered (map sf_slice [mk_sf 1 [8; 9] true; mk_sf 0 [7; 8] false]) i)).
Proof.
  destruct (stream_delivery [7; 8; 9] 4 [mk_sf 1 [8; 9] true; mk_sf 0 [7; 8] false]) as (s & E & H & _).
  - vm_compute; discriminate.
  - constructor; [split; [by apply (slice_padd [7; 8; 9] 1 2)|done]|].
    constructor; [split; [by apply (slice_padd [7; 8; 9] 0 2)|done]|constructor].
  - exact (ex_intro _ s (conj E H)).
Defined.
