(* ===== verification/Frames.v ===== *)
(** * QUIC frame codec (RFC 9000 section 19)

    Models [userspace/quic/frames.c].  The decoder's views ([data], [token],
    [reason], [ranges_buf]) are pointers into the input, so they are the rest of
    the input from that point; the length fields say how much of it belongs to
    the frame.  [Ret None] is the C result 0 (empty input), [Fail] is
    [QUIC_FRAME_DECODE_ERROR].  An encoder returns the bytes it writes; the
    empty list is the C result 0. *)

From Stdlib Require Import ZArith Lia.
From stdpp Require Import list numbers option.
From S2P Require Import Prelude Varint.

(** The tagged union [quic_frame_t]: one constructor per member of the union,
    with the [type] tag's variants as booleans. *)
Inductive quic_frame_t :=
| FPadding (padding_count : Z)
| FPing
| FHandshakeDone
| FAck (has_ecn : bool) (largest delay range_count first_range : Z)
    (ranges_buf : list Z) (ranges_len : Z) (ect0 ect1 ce : Z)
| FCrypto (offset length : Z) (data : list Z)
| FNewToken (length : Z) (token : list Z)
| FStream (stream_id offset length : Z) (fin : bool) (data : list Z)
| FClose (is_app : bool) (error_code frame_type reason_len : Z) (reason : option (list Z))
| FResetStream (stream_id app_error_code final_size : Z)
| FStopSending (stream_id app_error_code : Z)
| FMaxData (max : Z)
| FMaxStreamData (stream_id max : Z)
| FMaxStreams (uni : bool) (max : Z)
| FDataBlocked (limit : Z)
| FStreamDataBlocked (stream_id limit : Z)
| FStreamsBlocked (uni : bool) (limit : Z)
| FNewConnId (seq_no retire_prior_to cid_len : Z) (cid stateless_reset_token : list Z)
| FRetireConnId (seq_no : Z)
| FPath (response : bool) (data : list Z)
| FUnknown.

(** ** Decoding *)

(** The value read and the new offset. *)
Definition read_varint (p : list Z) (in_len off : Z) : res (Z * Z) :=
  if in_len <=? off then Fail
  else
    let! (n, v) := quic_varint_decode (padd p off) (in_len - off) in
    Ret (v, off + n).

(** [while (off < in_len && in[off] == 0x00) off++;] *)
Fixpoint padding_loop (p : list Z) (in_len off : Z) (fuel : nat) : res Z :=
  match fuel with
  | O => Ret off
  | S f =>
      if off <? in_len then
        let! b := rd p off in
        if b =? 0 then padding_loop p in_len (off + 1) f else Ret off
      else Ret off
  end.

(** The gap/range pairs of an ACK frame, [todo] pairs left.  Running out of fuel
    is [Oob], so the safety theorem also says the fuel is enough. *)
Fixpoint ranges_loop (p : list Z) (in_len off todo : Z) (fuel : nat) : res Z :=
  if todo =? 0 then Ret off
  else match fuel with
  | O => Oob
  | S f =>
      let! (gap, off) := read_varint p in_len off in
      let! (len, off) := read_varint p in_len off in
      ranges_loop p in_len off (todo - 1) f
  end.

Definition decode_ack (p : list Z) (in_len t off : Z) : res (Z * quic_frame_t) :=
  let! (largest, off) := read_varint p in_len off in
  let! (delay, off) := read_varint p in_len off in
  let! (range_count, off) := read_varint p in_len off in
  let! (first_range, off) := read_varint p in_len off in
  let ranges_start := off in
  let! off := ranges_loop p in_len off range_count (Z.to_nat in_len) in
  let ranges_len := off - ranges_start in
  if t =? 0x03 then
    let! (ect0, off) := read_varint p in_len off in
    let! (ect1, off) := read_varint p in_len off in
    let! (ce, off) := read_varint p in_len off in
    Ret (off, FAck true largest delay range_count first_range (padd p ranges_start) ranges_len ect0 ect1 ce)
  else
    Ret (off, FAck false largest delay range_count first_range (padd p ranges_start) ranges_len 0 0 0).

Definition decode_crypto (p : list Z) (in_len off : Z) : res (Z * quic_frame_t) :=
  let! (offset, off) := read_varint p in_len off in
  let! (length, off) := read_varint p in_len off in
  if in_len - off <? length then Fail
  else Ret (off + length, FCrypto offset length (padd p off)).

Definition decode_new_token (p : list Z) (in_len off : Z) : res (Z * quic_frame_t) :=
  let! (length, off) := read_varint p in_len off in
  if length =? 0 then Fail
  else if in_len - off <? length then Fail
  else Ret (off + length, FNewToken length (padd p off)).

Definition decode_stream (p : list Z) (in_len t off : Z) : res (Z * quic_frame_t) :=
  let has_off := negb (Z.land t 0x04 =? 0) in
  let has_len := negb (Z.land t 0x02 =? 0) in
  let fin := negb (Z.land t 0x01 =? 0) in
  let! (stream_id, off) := read_varint p in_len off in
  let! (offset, off) := (if has_off then read_varint p in_len off else Ret (0, off)) in
  let! (length, off) :=
    (if has_len then
       let! (length, off) := read_varint p in_len off in
       if in_len - off <? length then Fail else Ret (length, off)
     else Ret (in_len - off, off)) in
  Ret (off + length, FStream stream_id offset length fin (padd p off)).

Definition decode_close (p : list Z) (in_len t off : Z) : res (Z * quic_frame_t) :=
  let is_app := (t =? 0x1d) in
  let! (error_code, off) := read_varint p in_len off in
  let! (frame_type, off) := (if negb is_app then read_varint p in_len off else Ret (0, off)) in
  let! (reason_len, off) := read_varint p in_len off in
  if in_len - off <? reason_len then Fail
  else Ret (off + reason_len,
            FClose is_app error_code frame_type reason_len
              (if 0 <? reason_len then Some (padd p off) else None)).

Definition decode_new_conn_id (p : list Z) (in_len off : Z) : res (Z * quic_frame_t) :=
  let! (seq_no, off) := read_varint p in_len off in
  let! (retire_prior_to, off) := read_varint p in_len off in
  if seq_no <? retire_prior_to then Fail
  else if in_len <=? off then Fail
  else
    let! cl := rd p off in
    let off := off + 1 in
    if (cl <? 1) || (20 <? cl) then Fail
    else if in_len - off <? cl + 16 then Fail
    else
      let! cid := rdn (padd p off) cl in
      let off := off + cl in
      let! token := rdn (padd p off) 16 in
      Ret (off + 16, FNewConnId seq_no retire_prior_to cl cid token).

(** The frames that are a fixed number of varints or bytes (0x04, 0x05,
    0x10-0x1b), and everything else. *)
Definition decode_control (p : list Z) (in_len t off : Z) : res (Z * quic_frame_t) :=
  if t =? 0x04 then
    let! (stream_id, off) := read_varint p in_len off in
    let! (app_error_code, off) := read_varint p in_len off in
    let! (final_size, off) := read_varint p in_len off in
    Ret (off, FResetStream stream_id app_error_code final_size)
  else if t =? 0x05 then
    let! (stream_id, off) := read_varint p in_len off in
    let! (app_error_code, off) := read_varint p in_len off in
    Ret (off, FStopSending stream_id app_error_code)
  else if t =? 0x10 then
    let! (max, off) := read_varint p in_len off in
    Ret (off, FMaxData max)
  else if t =? 0x11 then
    let! (stream_id, off) := read_varint p in_len off in
    let! (max, off) := read_varint p in_len off in
    Ret (off, FMaxStreamData stream_id max)
  else if (t =? 0x12) || (t =? 0x13) then
    let! (max, off) := read_varint p in_len off in
    Ret (off, FMaxStreams (negb (t =? 0x12)) max)
  else if t =? 0x14 then
    let! (limit, off) := read_varint p in_len off in
    Ret (off, FDataBlocked limit)
  else if t =? 0x15 then
    let! (stream_id, off) := read_varint p in_len off in
    let! (limit, off) := read_varint p in_len off in
    Ret (off, FStreamDataBlocked stream_id limit)
  else if (t =? 0x16) || (t =? 0x17) then
    let! (limit, off) := read_varint p in_len off in
    Ret (off, FStreamsBlocked (negb (t =? 0x16)) limit)
  else if t =? 0x18 then decode_new_conn_id p in_len off
  else if t =? 0x19 then
    let! (seq_no, off) := read_varint p in_len off in
    Ret (off, FRetireConnId seq_no)
  else if (t =? 0x1a) || (t =? 0x1b) then
    if in_len - off <? 8 then Fail
    else
      let! data := rdn (padd p off) 8 in
      Ret (off + 8, FPath (negb (t =? 0x1a)) data)
  else Ret (off, FUnknown).

(** Returns the bytes consumed, [raw_type] and the frame. *)
Definition quic_frame_decode (p : list Z) (in_len : Z) : res (option (Z * Z * quic_frame_t)) :=
  if in_len =? 0 then Ret None
  else
    let! t := rd p 0 in
    let off := 1 in
    let! (off', f) :=
      (if t =? 0x00 then
         let! off' := padding_loop p in_len off (Z.to_nat (in_len - off)) in
         Ret (off', FPadding off')
       else if t =? 0x01 then Ret (off, FPing)
       else if t =? 0x1e then Ret (off, FHandshakeDone)
       else if (t =? 0x02) || (t =? 0x03) then decode_ack p in_len t off
       else if t =? 0x06 then decode_crypto p in_len off
       else if t =? 0x07 then decode_new_token p in_len off
       else if (0x08 <=? t) && (t <=? 0x0f) then decode_stream p in_len t off
       else if (t =? 0x1c) || (t =? 0x1d) then decode_close p in_len t off
       else decode_control p in_len t off) in
    Ret (Some (off', t, f)).

(** ** Encoding *)

(** The output buffer is the list of the bytes written; [*off] is its length. *)
Definition put_varint (cap : Z) (w : list Z) (v : Z) : option (list Z) :=
  if cap <? zlen w then None
  else match quic_varint_encode (cap - zlen w) v with
       | [] => None
       | bs => Some (w ++ bs)
       end.

Definition put_u8 (cap : Z) (w : list Z) (v : Z) : option (list Z) :=
  if cap <=? zlen w then None else Some (w ++ [v]).

(** [if (len > cap - off) return 0; memcpy(out + off, p, len); off += len;] *)
Definition put_data (cap : Z) (w data : list Z) : option (list Z) :=
  if cap - zlen w <? zlen data then None else Some (w ++ data).

Definition finish (w : option (list Z)) : list Z := default [] w.

Definition quic_frame_padding_encode (cap n : Z) : list Z :=
  if cap <? n then [] else replicate (Z.to_nat n) 0.

Definition quic_frame_ping_encode (cap : Z) : list Z := if cap <? 1 then [] else [0x01].

Definition quic_frame_handshake_done_encode (cap : Z) : list Z := if cap <? 1 then [] else [0x1e].

Definition quic_frame_crypto_encode (cap offset : Z) (data : list Z) : list Z :=
  finish (w ← put_u8 cap [] 0x06; w ← put_varint cap w offset;
          w ← put_varint cap w (zlen data); put_data cap w data).

Definition quic_frame_ack_encode (cap largest delay first_range : Z) : list Z :=
  finish (w ← put_u8 cap [] 0x02; w ← put_varint cap w largest; w ← put_varint cap w delay;
          w ← put_varint cap w 0; put_varint cap w first_range).

Definition quic_frame_stream_encode (cap stream_id offset : Z) (data : list Z) (fin : bool) : list Z :=
  let t := Z.lor (Z.lor (Z.lor 0x08 0x04) 0x02) (if fin then 0x01 else 0x00) in
  finish (w ← put_u8 cap [] t; w ← put_varint cap w stream_id; w ← put_varint cap w offset;
          w ← put_varint cap w (zlen data); put_data cap w data).

Definition quic_frame_close_encode (cap : Z) (is_app : bool) (error_code frame_type : Z)
    (reason : list Z) : list Z :=
  finish (w ← put_u8 cap [] (if is_app then 0x1d else 0x1c); w ← put_varint cap w error_code;
          w ← (if negb is_app then put_varint cap w frame_type else Some w);
          w ← put_varint cap w (zlen reason); put_data cap w reason).

Definition quic_frame_reset_stream_encode (cap stream_id app_error_code final_size : Z) : list Z :=
  finish (w ← put_u8 cap [] 0x04; w ← put_varint cap w stream_id;
          w ← put_varint cap w app_error_code; put_varint cap w final_size).

Definition quic_frame_stop_sending_encode (cap stream_id app_error_code : Z) : list Z :=
  finish (w ← put_u8 cap [] 0x05; w ← put_varint cap w stream_id; put_varint cap w app_error_code).

Definition quic_frame_max_data_encode (cap max : Z) : list Z :=
  finish (w ← put_u8 cap [] 0x10; put_varint cap w max).

Definition quic_frame_max_stream_data_encode (cap stream_id max : Z) : list Z :=
  finish (w ← put_u8 cap [] 0x11; w ← put_varint cap w stream_id; put_varint cap w max).

Definition quic_frame_max_streams_encode (cap : Z) (uni : bool) (max : Z) : list Z :=
  finish (w ← put_u8 cap [] (if uni then 0x13 else 0x12); put_varint cap w max).

Definition quic_frame_data_blocked_encode (cap limit : Z) : list Z :=
  finish (w ← put_u8 cap [] 0x14; put_varint cap w limit).

Definition quic_frame_stream_data_blocked_encode (cap stream_id limit : Z) : list Z :=
  finish (w ← put_u8 cap [] 0x15; w ← put_varint cap w stream_id; put_varint cap w limit).

Definition quic_frame_streams_blocked_encode (cap : Z) (uni : bool) (limit : Z) : list Z :=
  finish (w ← put_u8 cap [] (if uni then 0x17 else 0x16); put_varint cap w limit).

(** [token] is [None] for a null [stateless_reset_token]. *)
Definition quic_frame_new_conn_id_encode (cap seq_no retire_prior_to : Z) (cid : list Z)
    (token : option (list Z)) : list Z :=
  if (zlen cid <? 1) || (20 <? zlen cid) then []
  else if seq_no <? retire_prior_to then []
  else
    finish (w ← put_u8 cap [] 0x18; w ← put_varint cap w seq_no; w ← put_varint cap w retire_prior_to;
            w ← put_u8 cap w (u8 (zlen cid));
            if cap - zlen w <? zlen cid + 16 then None
            else Some ((w ++ cid) ++ match token with Some t => ztake 16 t | None => replicate 16 0 end)).

Definition quic_frame_retire_conn_id_encode (cap seq_no : Z) : list Z :=
  finish (w ← put_u8 cap [] 0x19; put_varint cap w seq_no).

Definition encode_path (cap t : Z) (data : list Z) : list Z :=
  if cap <? 9 then [] else t :: ztake 8 data.

Definition quic_frame_path_challenge_encode (cap : Z) (data : list Z) : list Z := encode_path cap 0x1a data.
Definition quic_frame_path_response_encode (cap : Z) (data : list Z) : list Z := encode_path cap 0x1b data.

(** ** Safety of the decoder *)

(** The view of [len] bytes that ends at offset [off] lies inside the input. *)
Definition view_in (p : list Z) (in_len off len : Z) (view : list Z) : Prop :=
  0 <= len /\ view = padd p (off - len) /\ 1 <= off - len /\ off <= in_len.

Definition frame_views_ok (p : list Z) (in_len off : Z) (f : quic_frame_t) : Prop :=
  match f with
  | FPadding n => n = off /\ forall i, 0 <= i < n -> rd p i = Ret 0
  | FAck ecn _ _ _ _ ranges rlen _ _ _ => 0 <= rlen /\ (exists s, ranges = padd p s /\ 1 <= s /\ s + rlen <= off)
  | FCrypto o len data => 0 <= o <= QUIC_VARINT_MAX /\ view_in p in_len off len data
  | FNewToken len token => view_in p in_len off len token /\ 0 < len
  | FStream id o len _ data => 0 <= id <= QUIC_VARINT_MAX /\ 0 <= o <= QUIC_VARINT_MAX /\ view_in p in_len off len data
  | FClose _ _ _ len (Some r) => view_in p in_len off len r /\ 0 < len
  | FClose _ _ _ len None => len = 0
  | FNewConnId seq ret cl cid token =>
      ret <= seq /\ 1 <= cl <= 20 /\ zlen cid = cl /\ zlen token = 16 /\
      cid = ztake cl (padd p (off - 16 - cl)) /\ token = ztake 16 (padd p (off - 16))
  | FPath _ d => zlen d = 8 /\ d = ztake 8 (padd p (off - 8))
  | _ => True
  end.

Section DecodeSafe.
Context (p : list Z) (in_len : Z).
Context (Hp : Forall byte_ok p) (Hlen : 0 <= in_len <= zlen p).

Lemma read_varint_wp off :
  0 <= off ->
  wp (read_varint p in_len off) (fun '(v, off') => off < off' <= in_len /\ 0 <= v <= QUIC_VARINT_MAX).
Proof.
  intros Ho. unfold read_varint. zcase; [done|]. apply wp_bind.
  eapply wp_mono; [apply varint_decode_wp|].
  - auto with pico.
  - rewrite zlen_padd by lia. lia.
  - intros [n v] (? & ? & _). cbn. lia.
Qed.

Lemma padding_loop_wp fuel : forall off,
  1 <= off <= in_len -> Z.of_nat fuel = in_len - off ->
  wp (padding_loop p in_len off fuel)
     (fun off' => off <= off' <= in_len /\ forall i, off <= i < off' -> rd p i = Ret 0).
Proof.
  induction fuel as [|f IH]; intros off Ho Hf; cbn [padding_loop].
  { cbn. split; [lia|]. lia. }
  replace (off <? in_len) with true by lia. apply wp_bind, wp_rd; [lia|].
  intros b Hb _. destruct (Z.eqb_spec b 0) as [->|]; [|cbn; split; lia].
  eapply wp_mono; [apply IH; lia|]. intros off' [? Hz]. split; [lia|].
  intros i Hi. destruct (decide (i = off)) as [->|]; [done|]. apply Hz. lia.
Qed.

Lemma ranges_loop_wp fuel : forall off todo,
  0 <= off <= in_len -> in_len - off < Z.of_nat fuel -> 0 <= todo ->
  wp (ranges_loop p in_len off todo fuel) (fun off' => off <= off' <= in_len).
Proof.
  induction fuel as [|f IH]; intros off todo Ho Hf Ht; cbn [ranges_loop].
  { lia. }
  destruct (Z.eqb_spec todo 0); [cbn; lia|].
  apply wp_bind. eapply wp_mono; [apply read_varint_wp; lia|]. intros [gap off1] [? _].
  apply wp_bind. eapply wp_mono; [apply read_varint_wp; lia|]. intros [len off2] [? _].
  eapply wp_mono; [apply IH; lia|]. cbn. lia.
Qed.
End DecodeSafe.

(** One [read_varint] under [wp]. *)
Ltac wp_varint :=
  apply wp_bind; eapply wp_mono; [apply read_varint_wp; (assumption || lia)|];
  let v := fresh "v" in let o := fresh "off" in intros [v o] [? ?].

Ltac view_done := unfold view_in; repeat split; try lia; try (f_equal; lia).

Section DecodeFrames.
Context (p : list Z) (in_len : Z).
Context (Hp : Forall byte_ok p) (Hlen : 1 <= in_len <= zlen p).

Let ok : Z * quic_frame_t -> Prop := fun '(off, f) => 1 <= off <= in_len /\ frame_views_ok p in_len off f.

Lemma decode_ack_wp t : wp (decode_ack p in_len t 1) ok.
Proof using Hp Hlen.
  unfold decode_ack. do 4 wp_varint. apply wp_bind. eapply wp_mono.
  { apply ranges_loop_wp; try assumption; lia. }
  intros off' [? ?]. zcase.
  - do 3 wp_varint. cbn. split; [lia|]. split; [lia|]. eexists; split; [done|lia].
  - cbn. split; [lia|]. split; [lia|]. eexists; split; [done|lia].
Qed.

Lemma decode_crypto_wp : wp (decode_crypto p in_len 1) ok.
Proof using Hp Hlen. unfold decode_crypto. do 2 wp_varint. zcase; [done|]. cbn. split; [lia|]. split; [lia|]. view_done. Qed.

Lemma decode_new_token_wp : wp (decode_new_token p in_len 1) ok.
Proof using Hp Hlen.
  unfold decode_new_token. wp_varint. repeat zcase; try done. cbn. split; [lia|].
  split; [view_done|lia].
Qed.

Lemma decode_stream_wp t : wp (decode_stream p in_len t 1) ok.
Proof using Hp Hlen.
  unfold decode_stream. wp_varint. apply wp_bind.
  apply (wp_mono _ (fun '(o, off') => 0 <= o <= QUIC_VARINT_MAX /\ off <= off' <= in_len)).
  { zcase; [|cbn; unfold QUIC_VARINT_MAX; lia]. eapply wp_mono; [apply read_varint_wp; (assumption || lia)|]. intros [? ?] [? ?]. lia. }
  intros [o off1] [? ?]. apply wp_bind.
  apply (wp_mono _ (fun '(l, off') => 0 <= l /\ off1 <= off' /\ off' + l <= in_len)).
  { zcase; [|cbn; lia]. wp_varint. zcase; [done|]. cbn. lia. }
  intros [l off2] (? & ? & ?). cbn. split; [lia|]. do 2 (split; [lia|]). view_done.
Qed.

Lemma decode_close_wp t : wp (decode_close p in_len t 1) ok.
Proof using Hp Hlen.
  unfold decode_close. wp_varint. apply wp_bind.
  apply (wp_mono _ (fun '(o, off') => 0 <= o /\ off <= off' <= in_len)).
  { zcase; [|cbn; lia]. eapply wp_mono; [apply read_varint_wp; (assumption || lia)|]. intros [? ?] [? ?]. lia. }
  intros [ft off1] [? ?]. wp_varint. zcase; [done|]. cbn. split; [lia|].
  zcase; [|lia]. split; [view_done|lia].
Qed.

Lemma decode_new_conn_id_wp : wp (decode_new_conn_id p in_len 1) ok.
Proof using Hp Hlen.
  unfold decode_new_conn_id. do 2 wp_varint.
  destruct (Z.ltb_spec v v0); [done|]. destruct (Z.leb_spec in_len off0); [done|].
  apply wp_bind, wp_rd; [lia|]. intros cl Hcl _.
  destruct ((cl <? 1) || (20 <? cl)) eqn:E; [done|]. zcase; [done|].
  apply wp_bind, wp_rdn; [rewrite zlen_padd by lia; lia|].
  apply wp_bind, wp_rdn; [rewrite zlen_padd by lia; lia|].
  cbn. rewrite !zlen_ztake, !zlen_padd by lia.
  repeat split; try lia; f_equal; f_equal; lia.
Qed.

Lemma decode_control_wp t : wp (decode_control p in_len t 1) ok.
Proof using Hp Hlen.
  unfold decode_control.
  repeat first [ apply decode_new_conn_id_wp | wp_varint | zcase | done | progress (cbn; lia) ].
  all: apply wp_bind, wp_rdn; [rewrite zlen_padd by lia; lia|]; cbn;
    rewrite zlen_ztake, zlen_padd by lia; repeat split; try lia; f_equal; f_equal; lia.
Qed.

Lemma frame_decode_wp :
  wp (quic_frame_decode p in_len) (fun o =>
    exists off t f, o = Some (off, t, f) /\ rd p 0 = Ret t /\ 1 <= off <= in_len /\
                    frame_views_ok p in_len off f).
Proof using Hp Hlen.
  unfold quic_frame_decode. replace (in_len =? 0) with false by lia.
  apply wp_bind, wp_rd; [lia|]. intros t Ht _. apply wp_bind. apply (wp_mono _ ok).
  - destruct (Z.eqb_spec t 0) as [->|].
    { apply wp_bind. eapply wp_mono; [apply padding_loop_wp; (assumption || lia)|].
      intros off' [? Hz]. cbn. repeat split; try lia. intros i Hi.
      destruct (decide (i = 0)) as [->|]; [done|]. apply Hz. lia. }
    repeat first [ apply decode_ack_wp | apply decode_crypto_wp | apply decode_new_token_wp
                 | apply decode_stream_wp | apply decode_close_wp | apply decode_control_wp
                 | zcase | progress (cbn; lia) ].
  - intros [off f] [? ?]. cbn. by exists off, t, f.
Qed.
End DecodeFrames.

(** ** The wire format as a specification

    A frame is a sequence of fields; [wire] is the byte string RFC 9000 gives
    it.  Encoders are proved to produce [wire] of the frame's layout exactly
    when it fits, and the decoder to invert it. *)

Inductive field := U8 (b : Z) | Var (v : Z) | Raw (l : list Z).

Definition vbytes (v : Z) : list Z := quic_varint_encode 8 v.

Definition field_bytes (f : field) : list Z :=
  match f with U8 b => [b] | Var v => vbytes v | Raw l => l end.

Fixpoint wire (fs : list field) : list Z :=
  match fs with [] => [] | f :: fs' => field_bytes f ++ wire fs' end.

(** A call of one of the encoders. *)
Inductive frame_req :=
| RqPadding (n : Z) | RqPing | RqHandshakeDone
| RqCrypto (offset : Z) (data : list Z)
| RqAck (largest delay first_range : Z)
| RqStream (stream_id offset : Z) (data : list Z) (fin : bool)
| RqClose (is_app : bool) (error_code frame_type : Z) (reason : list Z)
| RqResetStream (stream_id app_error_code final_size : Z)
| RqStopSending (stream_id app_error_code : Z)
| RqMaxData (max : Z) | RqMaxStreamData (stream_id max : Z) | RqMaxStreams (uni : bool) (max : Z)
| RqDataBlocked (limit : Z) | RqStreamDataBlocked (stream_id limit : Z)
| RqStreamsBlocked (uni : bool) (limit : Z)
| RqNewConnId (seq_no retire_prior_to : Z) (cid : list Z) (token : option (list Z))
| RqRetireConnId (seq_no : Z)
| RqPathChallenge (data : list Z) | RqPathResponse (data : list Z).

Definition encode_req (cap : Z) (r : frame_req) : list Z :=
  match r with
  | RqPadding n => quic_frame_padding_encode cap n
  | RqPing => quic_frame_ping_encode cap
  | RqHandshakeDone => quic_frame_handshake_done_encode cap
  | RqCrypto o d => quic_frame_crypto_encode cap o d
  | RqAck l d fr => quic_frame_ack_encode cap l d fr
  | RqStream id o d fin => quic_frame_stream_encode cap id o d fin
  | RqClose a e ft r => quic_frame_close_encode cap a e ft r
  | RqResetStream id e fs => quic_frame_reset_stream_encode cap id e fs
  | RqStopSending id e => quic_frame_stop_sending_encode cap id e
  | RqMaxData m => quic_frame_max_data_encode cap m
  | RqMaxStreamData id m => quic_frame_max_stream_data_encode cap id m
  | RqMaxStreams u m => quic_frame_max_streams_encode cap u m
  | RqDataBlocked l => quic_frame_data_blocked_encode cap l
  | RqStreamDataBlocked id l => quic_frame_stream_data_blocked_encode cap id l
  | RqStreamsBlocked u l => quic_frame_streams_blocked_encode cap u l
  | RqNewConnId s rp cid tok => quic_frame_new_conn_id_encode cap s rp cid tok
  | RqRetireConnId s => quic_frame_retire_conn_id_encode cap s
  | RqPathChallenge d => quic_frame_path_challenge_encode cap d
  | RqPathResponse d => quic_frame_path_response_encode cap d
  end.

Definition token_bytes (tok : option (list Z)) : list Z :=
  match tok with Some t => t | None => replicate 16 0 end.

Definition layout (r : frame_req) : list field :=
  match r with
  | RqPadding n => [Raw (replicate (Z.to_nat n) 0)]
  | RqPing => [U8 0x01]
  | RqHandshakeDone => [U8 0x1e]
  | RqCrypto o d => [U8 0x06; Var o; Var (zlen d); Raw d]
  | RqAck l d fr => [U8 0x02; Var l; Var d; Var 0; Var fr]
  | RqStream id o d fin => [U8 (if fin then 0x0f else 0x0e); Var id; Var o; Var (zlen d); Raw d]
  | RqClose true e _ r => [U8 0x1d; Var e; Var (zlen r); Raw r]
  | RqClose false e ft r => [U8 0x1c; Var e; Var ft; Var (zlen r); Raw r]
  | RqResetStream id e fs => [U8 0x04; Var id; Var e; Var fs]
  | RqStopSending id e => [U8 0x05; Var id; Var e]
  | RqMaxData m => [U8 0x10; Var m]
  | RqMaxStreamData id m => [U8 0x11; Var id; Var m]
  | RqMaxStreams u m => [U8 (if u then 0x13 else 0x12); Var m]
  | RqDataBlocked l => [U8 0x14; Var l]
  | RqStreamDataBlocked id l => [U8 0x15; Var id; Var l]
  | RqStreamsBlocked u l => [U8 (if u then 0x17 else 0x16); Var l]
  | RqNewConnId s rp cid tok => [U8 0x18; Var s; Var rp; U8 (zlen cid); Raw cid; Raw (token_bytes tok)]
  | RqRetireConnId s => [U8 0x19; Var s]
  | RqPathChallenge d => [U8 0x1a; Raw d]
  | RqPathResponse d => [U8 0x1b; Raw d]
  end.

(** What the decoder reports for the frame when [rest] follows it. *)
Definition decoded (r : frame_req) (rest : list Z) : quic_frame_t :=
  match r with
  | RqPadding n => FPadding n
  | RqPing => FPing
  | RqHandshakeDone => FHandshakeDone
  | RqCrypto o d => FCrypto o (zlen d) (d ++ rest)
  | RqAck l d fr => FAck false l d 0 fr rest 0 0 0 0
  | RqStream id o d fin => FStream id o (zlen d) fin (d ++ rest)
  | RqClose a e ft r =>
      FClose a e (if a then 0 else ft) (zlen r) (if 0 <? zlen r then Some (r ++ rest) else None)
  | RqResetStream id e fs => FResetStream id e fs
  | RqStopSending id e => FStopSending id e
  | RqMaxData m => FMaxData m
  | RqMaxStreamData id m => FMaxStreamData id m
  | RqMaxStreams u m => FMaxStreams u m
  | RqDataBlocked l => FDataBlocked l
  | RqStreamDataBlocked id l => FStreamDataBlocked id l
  | RqStreamsBlocked u l => FStreamsBlocked u l
  | RqNewConnId s rp cid tok => FNewConnId s rp (zlen cid) cid (token_bytes tok)
  | RqRetireConnId s => FRetireConnId s
  | RqPathChallenge d => FPath false d
  | RqPathResponse d => FPath true d
  end.

Definition vok (v : Z) : Prop := 0 <= v <= QUIC_VARINT_MAX.

(** The arguments an encoder accepts. *)
Definition req_ok (r : frame_req) : Prop :=
  match r with
  | RqPadding n => 1 <= n
  | RqPing | RqHandshakeDone => True
  | RqCrypto o d => vok o /\ vok (zlen d)
  | RqAck l d fr => vok l /\ vok d /\ vok fr
  | RqStream id o d _ => vok id /\ vok o /\ vok (zlen d)
  | RqClose _ e ft r => vok e /\ vok ft /\ vok (zlen r)
  | RqResetStream id e fs => vok id /\ vok e /\ vok fs
  | RqStopSending a b | RqMaxStreamData a b | RqStreamDataBlocked a b => vok a /\ vok b
  | RqMaxData a | RqMaxStreams _ a | RqDataBlocked a | RqStreamsBlocked _ a | RqRetireConnId a => vok a
  | RqNewConnId s rp cid tok =>
      vok s /\ vok rp /\ rp <= s /\ 1 <= zlen cid <= 20 /\ zlen (token_bytes tok) = 16
  | RqPathChallenge d | RqPathResponse d => zlen d = 8
  end.

(** ** Encoders produce the layout *)

Lemma vbytes_size v : vok v -> zlen (vbytes v) = quic_varint_size v /\ 1 <= quic_varint_size v <= 8.
Proof.
  intros Hv. unfold vbytes. rewrite varint_encode_length.
  destruct (varint_size_cases v Hv) as [[-> _]|[[-> _]|[[-> _]|[-> _]]]]; cbn; lia.
Qed.

Lemma vbytes_any_cap cap v :
  vok v -> quic_varint_encode cap v = if quic_varint_size v <=? cap then vbytes v else [].
Proof.
  intros Hv. unfold vbytes, quic_varint_encode.
  destruct (varint_size_cases v Hv) as [[-> _]|[[-> _]|[[-> _]|[-> _]]]]; cbn [Z.eqb Pos.eqb orb];
    rewrite Z.ltb_antisym; destruct (_ <=? cap); done.
Qed.

Lemma put_varint_field cap w v :
  vok v -> put_varint cap w v = put_data cap w (vbytes v).
Proof.
  intros Hv. destruct (vbytes_size v Hv) as [Hs ?]. unfold put_varint, put_data.
  rewrite vbytes_any_cap by done. rewrite Hs.
  destruct (Z.ltb_spec cap (zlen w)), (Z.ltb_spec (cap - zlen w) (quic_varint_size v)),
    (Z.leb_spec (quic_varint_size v) (cap - zlen w)); try lia; try done.
  destruct (vbytes v) eqn:E; [|done]. rewrite zlen_nil in Hs. lia.
Qed.

Lemma put_u8_field cap w b : put_u8 cap w b = put_data cap w [b].
Proof.
  unfold put_u8, put_data. rewrite zlen_cons, zlen_nil.
  destruct (Z.leb_spec cap (zlen w)), (Z.ltb_spec (cap - zlen w) (0 + 1)); try lia; done.
Qed.

(** Two writes in a row are one write. *)
Lemma put_data_bind cap w a k :
  (w' ← put_data cap w a; put_data cap w' k) = put_data cap w (a ++ k).
Proof.
  unfold put_data. rewrite zlen_app. pose proof (zlen_nonneg k).
  destruct (Z.ltb_spec (cap - zlen w) (zlen a)), (Z.ltb_spec (cap - zlen w) (zlen a + zlen k));
    try lia; cbn; try done; rewrite zlen_app.
  - by replace (cap - (zlen w + zlen a) <? zlen k) with true by lia.
  - replace (cap - (zlen w + zlen a) <? zlen k) with false by lia. by rewrite app_assoc.
Qed.

Lemma finish_put cap l : finish (put_data cap [] l) = if zlen l <=? cap then l else [].
Proof.
  unfold put_data, finish. rewrite zlen_nil.
  destruct (Z.ltb_spec (cap - 0) (zlen l)), (Z.leb_spec (zlen l) cap); try lia; done.
Qed.

(** Writing a layout field by field. *)
Definition put_field (cap : Z) (w : list Z) (f : field) : option (list Z) :=
  match f with U8 b => put_u8 cap w b | Var v => put_varint cap w v | Raw l => put_data cap w l end.

Fixpoint puts (cap : Z) (w : list Z) (fs : list field) : option (list Z) :=
  match fs with [] => Some w | f :: fs' => w' ← put_field cap w f; puts cap w' fs' end.

Definition field_ok (f : field) : Prop := match f with Var v => vok v | _ => True end.

Lemma put_field_data cap w f : field_ok f -> put_field cap w f = put_data cap w (field_bytes f).
Proof. destruct f; cbn; intros; [apply put_u8_field|by apply put_varint_field|done]. Qed.

Lemma puts_wire cap fs : forall w,
  Forall field_ok fs -> zlen w <= cap -> puts cap w fs = put_data cap w (wire fs).
Proof.
  induction fs as [|f fs IH]; intros w Hok Hw; cbn [puts wire].
  { unfold put_data. rewrite zlen_nil, app_nil_r. by replace (cap - zlen w <? 0) with false by lia. }
  apply Forall_cons_1 in Hok as [Hf Hfs]. rewrite <- put_data_bind, put_field_data by done.
  destruct (put_data cap w (field_bytes f)) as [w'|] eqn:E; cbn; [|done].
  apply IH; [done|]. unfold put_data in E. destruct (Z.ltb_spec (cap - zlen w) (zlen (field_bytes f))); [done|].
  injection E as <-. rewrite zlen_app. lia.
Qed.

Lemma finish_puts cap fs :
  0 <= cap -> Forall field_ok fs ->
  finish (puts cap [] fs) = if zlen (wire fs) <=? cap then wire fs else [].
Proof. intros. rewrite puts_wire, finish_put by done. done. Qed.

Ltac split_puts :=
  cbn [puts put_field negb];
  repeat (match goal with
          | |- context [put_u8 ?c ?w ?b] => destruct (put_u8 c w b)
          | |- context [put_varint ?c ?w ?b] => destruct (put_varint c w b)
          | |- context [put_data ?c ?w ?b] => destruct (put_data c w b)
          end; cbn [mbind option_bind]; try done).

Lemma encode_puts cap r :
  0 <= cap -> req_ok r ->
  match r with
  | RqPadding _ | RqPing | RqHandshakeDone | RqPathChallenge _ | RqPathResponse _ | RqNewConnId _ _ _ _ => True
  | _ => encode_req cap r = finish (puts cap [] (layout r))
  end.
Proof.
  intros Hcap Hr. destruct r; try done; cbn [encode_req layout];
    unfold quic_frame_crypto_encode, quic_frame_ack_encode, quic_frame_stream_encode,
      quic_frame_close_encode, quic_frame_reset_stream_encode, quic_frame_stop_sending_encode,
      quic_frame_max_data_encode, quic_frame_max_stream_data_encode, quic_frame_max_streams_encode,
      quic_frame_data_blocked_encode, quic_frame_stream_data_blocked_encode,
      quic_frame_streams_blocked_encode, quic_frame_retire_conn_id_encode; f_equal;
    try destruct fin; try destruct is_app; try destruct uni;
    try change (Z.lor _ 1) with 0x0f; try change (Z.lor _ 0) with 0x0e; split_puts.
Qed.

Lemma layout_fields_ok r : req_ok r -> Forall field_ok (layout r).
Proof.
  destruct r; cbn; intros; destruct_and?; try destruct is_app;
    repeat first [apply Forall_nil_2 | apply Forall_cons_2]; cbn; try done.
Qed.

Lemma encode_new_conn_id cap s rp cid tok :
  0 <= cap -> req_ok (RqNewConnId s rp cid tok) ->
  quic_frame_new_conn_id_encode cap s rp cid tok =
  finish (puts cap [] [U8 0x18; Var s; Var rp; U8 (zlen cid); Raw (cid ++ token_bytes tok)]).
Proof.
  intros Hcap (Hs & Hrp & Hle & Hc & Ht). unfold quic_frame_new_conn_id_encode.
  replace (zlen cid <? 1) with false by lia. replace (20 <? zlen cid) with false by lia. cbn [orb].
  replace (s <? rp) with false by lia. rewrite u8_small by (unfold byte_ok; lia).
  cbn [puts put_field]. f_equal.
  destruct (put_u8 cap [] 24) as [w1|]; cbn; [|done].
  destruct (put_varint cap w1 s) as [w2|]; cbn; [|done].
  destruct (put_varint cap w2 rp) as [w3|]; cbn; [|done].
  destruct (put_u8 cap w3 (zlen cid)) as [w4|]; cbn; [|done].
  unfold put_data. rewrite zlen_app, Ht. zcase; [done|]. cbn. f_equal. rewrite <- app_assoc. f_equal.
  destruct tok; cbn in Ht; [|done]. cbn. f_equal. apply ztake_all. lia.
Qed.

Lemma encode_layout cap r :
  0 <= cap -> req_ok r ->
  encode_req cap r = if zlen (wire (layout r)) <=? cap then wire (layout r) else [].
Proof.
  intros Hcap Hr. pose proof (encode_puts cap r Hcap Hr) as He. pose proof (layout_fields_ok r Hr) as Hl.
  destruct r; try (rewrite He; by apply finish_puts); clear He; cbn [encode_req layout wire field_bytes].
  - rewrite app_nil_r. unfold quic_frame_padding_encode, zlen. rewrite length_replicate. cbn in Hr.
    rewrite Z2Nat.id, Z.ltb_antisym by lia. by destruct (n <=? cap).
  - unfold quic_frame_ping_encode. change (zlen _) with 1. rewrite Z.ltb_antisym. by destruct (1 <=? cap).
  - unfold quic_frame_handshake_done_encode. change (zlen _) with 1. rewrite Z.ltb_antisym. by destruct (1 <=? cap).
  - rewrite encode_new_conn_id, finish_puts; [|done| |done|done].
    + cbn [wire field_bytes]. by rewrite !app_nil_r.
    + destruct Hr as (? & ? & _). by repeat first [apply Forall_nil_2 | apply Forall_cons_2].
  - unfold quic_frame_path_challenge_encode, encode_path. cbn in Hr |- *.
    rewrite app_nil_r, zlen_cons, Hr, ztake_all, Z.ltb_antisym by lia.
    change (8 + 1) with 9. by destruct (9 <=? cap).
  - unfold quic_frame_path_response_encode, encode_path. cbn in Hr |- *.
    rewrite app_nil_r, zlen_cons, Hr, ztake_all, Z.ltb_antisym by lia.
    change (8 + 1) with 9. by destruct (9 <=? cap).
Qed.

(** ** The decoder inverts the layout *)

Lemma read_varint_at p in_len off v rest :
  0 <= off -> vok v -> padd p off = vbytes v ++ rest -> off + zlen (vbytes v) <= in_len ->
  read_varint p in_len off = Ret (v, off + zlen (vbytes v)) /\ padd p (off + zlen (vbytes v)) = rest.
Proof.
  intros Ho Hv Hp Hl. destruct (vbytes_size v Hv) as [Hs ?]. unfold read_varint.
  replace (in_len <=? off) with false by lia. rewrite Hp. unfold vbytes at 1.
  rewrite varint_encode_decode by (done || lia). cbn [rbind]. rewrite Hs. split; [done|].
  rewrite <- padd_padd by lia. rewrite Hp. apply padd_app. lia.
Qed.

(** Reads the next varint of the input described by [H : padd p off = vbytes v ++ _]. *)
Ltac next_varint H :=
  match type of H with
  | padd ?p ?off = vbytes ?v ++ ?rest =>
      pose proof (vbytes_size v ltac:(done)) as [? ?];
      let E := fresh "E" in let H' := fresh "Hnext" in
      match goal with |- context [read_varint p ?n off] =>
        destruct (read_varint_at p n off v rest ltac:(lia) ltac:(done) H ltac:(lia)) as [E H']
      end;
      rewrite E; cbn [rbind]; clear E H; rename H' into H
  end.

Lemma vok_0 : vok 0.
Proof. unfold vok, QUIC_VARINT_MAX. lia. Qed.

Section DecodeLayout.
Context (p rest : list Z) (in_len : Z).
Context (Hin : in_len = 1 + zlen (padd p 1)).

Lemma decode_crypto_at o d :
  vok o -> vok (zlen d) -> padd p 1 = vbytes o ++ vbytes (zlen d) ++ d ++ rest ->
  decode_crypto p in_len 1 = Ret (in_len - zlen rest, FCrypto o (zlen d) (d ++ rest)).
Proof using Hin.
  intros Ho Hd H. rewrite H, !zlen_app in Hin. pose proof (zlen_nonneg d). pose proof (zlen_nonneg rest).
  pose proof (zlen_nonneg (vbytes o)). pose proof (zlen_nonneg (vbytes (zlen d))).
  unfold decode_crypto. next_varint H. next_varint H.
  zcase; [lia|]. rewrite H. f_equal. f_equal. lia.
Qed.

Lemma decode_stream_at id o d (fin : bool) :
  vok id -> vok o -> vok (zlen d) -> padd p 1 = vbytes id ++ vbytes o ++ vbytes (zlen d) ++ d ++ rest ->
  decode_stream p in_len (if fin then 0x0f else 0x0e) 1 =
  Ret (in_len - zlen rest, FStream id o (zlen d) fin (d ++ rest)).
Proof using Hin.
  intros Hid Ho Hd H. rewrite H, !zlen_app in Hin. pose proof (zlen_nonneg d). pose proof (zlen_nonneg rest).
  pose proof (zlen_nonneg (vbytes o)). pose proof (zlen_nonneg (vbytes (zlen d))). pose proof (zlen_nonneg (vbytes id)).
  unfold decode_stream. next_varint H.
  replace (negb (Z.land (if fin then 15 else 14) 4 =? 0)) with true by by destruct fin.
  replace (negb (Z.land (if fin then 15 else 14) 2 =? 0)) with true by by destruct fin.
  replace (negb (Z.land (if fin then 15 else 14) 1 =? 0)) with fin by by destruct fin.
  next_varint H. next_varint H. zcase; [lia|]. cbn [rbind]. rewrite H. f_equal. f_equal. lia.
Qed.

Lemma decode_close_at (a : bool) e ft r :
  vok e -> vok ft -> vok (zlen r) ->
  padd p 1 = vbytes e ++ (if a then [] else vbytes ft) ++ vbytes (zlen r) ++ r ++ rest ->
  decode_close p in_len (if a then 0x1d else 0x1c) 1 =
  Ret (in_len - zlen rest, FClose a e (if a then 0 else ft) (zlen r) (if 0 <? zlen r then Some (r ++ rest) else None)).
Proof using Hin.
  intros He Hft Hr H. rewrite H, !zlen_app in Hin. pose proof (zlen_nonneg r). pose proof (zlen_nonneg rest).
  pose proof (zlen_nonneg (vbytes e)). pose proof (zlen_nonneg (vbytes (zlen r))). pose proof (zlen_nonneg (vbytes ft)).
  unfold decode_close. destruct a; cbn [Z.eqb Pos.eqb negb app] in *; rewrite ?zlen_nil in Hin; next_varint H.
  - cbn [rbind]. next_varint H. replace (in_len - _ <? zlen r) with false by lia. rewrite H. f_equal. f_equal. lia.
  - next_varint H. next_varint H. replace (in_len - _ <? zlen r) with false by lia. rewrite H. f_equal. f_equal. lia.
Qed.

Lemma decode_ack_at l d fr :
  vok l -> vok d -> vok fr -> padd p 1 = vbytes l ++ vbytes d ++ vbytes 0 ++ vbytes fr ++ rest ->
  decode_ack p in_len 0x02 1 = Ret (in_len - zlen rest, FAck false l d 0 fr rest 0 0 0 0).
Proof using Hin.
  intros Hl Hd Hfr H. rewrite H, !zlen_app in Hin. pose proof (zlen_nonneg rest). pose proof vok_0.
  pose proof (zlen_nonneg (vbytes l)). pose proof (zlen_nonneg (vbytes d)).
  pose proof (zlen_nonneg (vbytes 0)). pose proof (zlen_nonneg (vbytes fr)).
  unfold decode_ack. do 4 next_varint H.
  assert (Hr : forall o n, ranges_loop p in_len o 0 n = Ret o) by by intros o [].
  rewrite Hr. cbn [rbind Z.eqb Pos.eqb]. rewrite H. f_equal. f_equal; [lia|]. f_equal. lia.
Qed.

Lemma decode_new_conn_id_at s rp cid tok :
  vok s -> vok rp -> rp <= s -> 1 <= zlen cid <= 20 -> zlen tok = 16 ->
  padd p 1 = vbytes s ++ vbytes rp ++ [zlen cid] ++ cid ++ tok ++ rest ->
  decode_new_conn_id p in_len 1 = Ret (in_len - zlen rest, FNewConnId s rp (zlen cid) cid tok).
Proof using Hin.
  intros Hs Hrp Hle Hc Ht H. rewrite H, !zlen_app in Hin. pose proof (zlen_nonneg rest).
  rewrite zlen_cons, zlen_nil in Hin.
  pose proof (zlen_nonneg (vbytes s)). pose proof (zlen_nonneg (vbytes rp)).
  unfold decode_new_conn_id. do 2 next_varint H. set (off := 1 + _ + _) in *.
  assert (0 <= off) by (unfold off; lia).
  replace (s <? rp) with false by lia. replace (in_len <=? off) with false by lia.
  assert (Hrd : rd p off = Ret (zlen cid)).
  { rewrite <- (Z.add_0_r off), <- rd_padd by lia. by rewrite H. }
  rewrite Hrd. cbn [rbind]. replace ((zlen cid <? 1) || (20 <? zlen cid)) with false by lia.
  replace (in_len - (off + 1) <? zlen cid + 16) with false by lia.
  assert (Hcid : padd p (off + 1) = cid ++ tok ++ rest).
  { rewrite <- padd_padd, H by lia. apply (padd_app [zlen cid]). done. }
  rewrite Hcid, rdn_app by done. cbn [rbind].
  rewrite <- padd_padd, Hcid, padd_app, rdn_app by (done || lia). cbn [rbind]. f_equal. f_equal. lia.
Qed.
End DecodeLayout.

Lemma padding_loop_at rest n : forall k,
  Z.of_nat k + Z.of_nat n = Z.of_nat (k + n) -> (1 <= k)%nat -> (rest = [] \/ exists b l, rest = b :: l /\ b <> 0) ->
  padding_loop (replicate (k + n) 0 ++ rest) (Z.of_nat (k + n) + zlen rest) (Z.of_nat k)
    (n + length rest) = Ret (Z.of_nat (k + n)).
Proof.
  induction n as [|n IH]; intros k _ Hk Hrest.
  - rewrite Nat.add_0_r. destruct Hrest as [->|(b & l & -> & Hb)]; [done|].
    cbn [Nat.add length padding_loop]. rewrite zlen_cons.
    pose proof (zlen_nonneg l). replace (Z.of_nat k <? _) with true by lia.
    rewrite rd_app_r by (unfold zlen; rewrite length_replicate; lia).
    replace (Z.of_nat k - zlen (replicate k 0)) with 0 by (unfold zlen; rewrite length_replicate; lia).
    rewrite rd_cons_0. cbn [rbind]. by replace (b =? 0) with false by lia.
  - cbn [Nat.add padding_loop]. pose proof (zlen_nonneg rest).
    destruct (Z.ltb_spec (Z.of_nat k) (Z.of_nat (k + S n) + zlen rest)); [|lia].
    rewrite rd_app_l by (unfold zlen; rewrite length_replicate; lia).
    assert (Hrd : rd (replicate (k + S n) 0) (Z.of_nat k) = Ret 0).
    { apply rd_lookup. split; [lia|]. apply lookup_replicate. split; [done|lia]. }
    rewrite Hrd. cbn [rbind Z.eqb].
    replace (Z.of_nat k + 1) with (Z.of_nat (S k)) by lia.
    replace (k + S n)%nat with (S k + n)%nat by lia. apply IH; [lia|lia|done].
Qed.

Definition raw_type (r : frame_req) : Z :=
  match layout r with U8 b :: _ => b | _ => 0 end.

(** A run of padding must not be followed by another 0x00 byte, which the
    decoder would coalesce into it. *)
Definition rest_ok (r : frame_req) (rest : list Z) : Prop :=
  match r with RqPadding _ => rest = [] \/ exists b l, rest = b :: l /\ b <> 0 | _ => True end.

Ltac vbytes_sizes :=
  repeat match goal with H : vok ?v |- _ => pose proof (vbytes_size v H); revert H end; intros.

Ltac simple_control p :=
  vbytes_sizes;
  unfold decode_control; cbn [Z.eqb Pos.eqb orb Z.leb Z.compare Pos.compare Pos.compare_cont andb negb];
  match goal with Hp : padd p 1 = _, Hin : _ = 1 + zlen (padd p 1), Hq : _ - zlen _ = _ |- _ =>
    rewrite Hp, !zlen_app in Hin; repeat next_varint Hp; cbn [rbind];
    rewrite <- Hq; do 4 f_equal; lia
  end.

Lemma decode_layout r rest :
  req_ok r -> rest_ok r rest ->
  quic_frame_decode (wire (layout r) ++ rest) (zlen (wire (layout r) ++ rest)) =
  Ret (Some (zlen (wire (layout r)), raw_type r, decoded r rest)).
Proof.
  intros Hr Hrest. set (p := wire (layout r) ++ rest). set (in_len := zlen p).
  pose proof (zlen_nonneg rest).
  assert (Hpad : forall n, r = RqPadding n -> quic_frame_decode p in_len =
            Ret (Some (zlen (wire (layout r)), raw_type r, decoded r rest))).
  { intros n ->. unfold p, in_len, p. cbn [layout wire field_bytes raw_type decoded]. rewrite app_nil_r.
    cbn in Hr. destruct (Z.to_nat n) as [|k] eqn:En; [lia|].
    unfold quic_frame_decode. rewrite zlen_app.
    assert (Hzl : zlen (replicate (S k) 0) = n) by (unfold zlen; rewrite length_replicate; lia).
    rewrite Hzl. replace (n + zlen rest =? 0) with false by lia.
    cbn [replicate app]. rewrite rd_cons_0. cbn [rbind Z.eqb].
    pose proof (padding_loop_at rest k 1 ltac:(lia) ltac:(lia) Hrest) as Hl.
    change (replicate (1 + k) 0) with (0 :: replicate k 0) in Hl. cbn [app] in Hl.
    replace (Z.of_nat (1 + k)) with n in Hl by lia. change (Z.of_nat 1) with 1 in Hl.
    replace (Z.to_nat (n + zlen rest - 1)) with (k + length rest)%nat by (unfold zlen; lia).
    by rewrite Hl. }
  destruct r; [by eapply Hpad|..]; clear Hpad.
  all: cbn [req_ok] in Hr; destruct_and?; cbn [layout wire field_bytes raw_type decoded] in *.
  all: try destruct is_app; cbn [wire field_bytes] in *.
  all: match goal with p := ((?t ++ ?q) ++ _) |- _ =>
         assert (Hp : padd p 1 = q ++ rest) by done; assert (Hrd : rd p 0 = rd t 0) by done;
         assert (Hin : in_len = 1 + zlen (padd p 1))
           by (rewrite Hp; unfold in_len, p; rewrite !zlen_app, zlen_cons, zlen_nil; lia);
         assert (Hq : in_len - zlen rest = zlen (t ++ q)) by (unfold in_len, p; rewrite !zlen_app; lia)
       end.
  all: pose proof (zlen_nonneg (padd p 1)); unfold quic_frame_decode; replace (in_len =? 0) with false by lia;
    rewrite Hrd, rd_cons_0; cbn [rbind].
  all: clearbody in_len p; rewrite <- ?app_assoc in Hp; rewrite ?app_nil_l in Hp; cbn [Z.eqb Pos.eqb orb].
  - done.
  - done.
  - by rewrite (decode_crypto_at p rest in_len Hin offset data), Hq.
  - by rewrite (decode_ack_at p rest in_len Hin largest delay first_range), Hq.
  - destruct fin; cbn [Z.eqb Pos.eqb orb Z.leb Z.compare Pos.compare Pos.compare_cont andb];
      [rewrite (decode_stream_at p rest in_len Hin stream_id offset data true)
      |rewrite (decode_stream_at p rest in_len Hin stream_id offset data false)]; by rewrite ?Hq.
  - rewrite (decode_close_at p rest in_len Hin true error_code frame_type reason) by done.
    cbn [rbind]. by rewrite Hq.
  - rewrite (decode_close_at p rest in_len Hin false error_code frame_type reason) by done.
    cbn [rbind]. by rewrite Hq.
  - simple_control p.
  - simple_control p.
  - simple_control p.
  - simple_control p.
  - destruct uni; simple_control p.
  - simple_control p.
  - simple_control p.
  - destruct uni; simple_control p.
  - unfold decode_control. cbn [Z.eqb Pos.eqb orb Z.leb Z.compare Pos.compare Pos.compare_cont andb].
    rewrite (decode_new_conn_id_at p rest in_len Hin seq_no retire_prior_to cid (token_bytes token)) by done.
    cbn [rbind]. by rewrite Hq.
  - simple_control p.
  - unfold decode_control. cbn [Z.eqb Pos.eqb orb Z.leb Z.compare Pos.compare Pos.compare_cont andb].
    rewrite Hp, zlen_app in Hin. replace (in_len - 1 <? 8) with false by lia.
    rewrite Hp, rdn_app by done. cbn [rbind negb]. rewrite zlen_app, app_nil_r, Hr in *. done.
  - unfold decode_control. cbn [Z.eqb Pos.eqb orb Z.leb Z.compare Pos.compare Pos.compare_cont andb].
    rewrite Hp, zlen_app in Hin. replace (in_len - 1 <? 8) with false by lia.
    rewrite Hp, rdn_app by done. cbn [rbind negb]. rewrite zlen_app, app_nil_r, Hr in *. done.
Qed.

(** ** Properties *)

(** C25: the frame decoder is memory-safe on every input and its views stay in
    bounds.  On any buffer of bytes and any length within it,
    [quic_frame_decode] reads nothing outside the buffer (and its ACK-range loop
    terminates, whatever range count the peer declares); it returns 0 only for
    the empty input; a decoded frame consumes between 1 and [in_len] bytes, so
    a frame walk makes progress, and every pointer the frame carries covers
    bytes inside the input (CRYPTO, STREAM, NEW_TOKEN, close reasons and ACK
    ranges), with the RFC limits on NEW_CONNECTION_ID enforced. *)
Theorem frame_decode_safe p in_len (Hp : Forall byte_ok p) (Hlen : 0 <= in_len <= zlen p) :
  quic_frame_decode p in_len <> Oob /\
  (quic_frame_decode p in_len = Ret None <-> in_len = 0) /\
  forall off t f, quic_frame_decode p in_len = Ret (Some (off, t, f)) ->
    rd p 0 = Ret t /\ 1 <= off <= in_len /\ frame_views_ok p in_len off f.
Proof.
  destruct (decide (in_len = 0)) as [->|Hne]; [done|].
  pose proof (frame_decode_wp p in_len Hp ltac:(lia)) as H. split; [by eapply wp_no_oob|]. split.
  - split; [|lia]. intros E. rewrite E in H. by destruct H as (? & ? & ? & ? & _).
  - intros off t f E. rewrite E in H. destruct H as (? & ? & ? & [= <- <- <-] & ?). done.
Qed.

Lemma frame_decode_safe_witness :
  quic_frame_decode [0x02; 0x05; 0x00; 0xc0; 0; 0; 0; 0; 0; 0; 1; 0x00] 12 <> Oob.
Proof.
  apply (frame_decode_safe [0x02; 0x05; 0x00; 0xc0; 0; 0; 0; 0; 0; 0; 1; 0x00] 12).
  - repeat (apply Forall_cons_2; [vm_compute; intuition discriminate|]). apply Forall_nil_2.
  - vm_compute; intuition discriminate.
Defined.

(** C28: every frame encoder is correct and the decoder inverts it.  For each of
    the nineteen encoders, with arguments in range: the output is exactly the
    RFC 9000 layout of the frame when that fits the buffer and nothing (result
    0) when it does not, so no encoder writes past its buffer; and decoding the
    output, whatever follows it, returns the frame with all its fields and
    consumes exactly the encoded length. *)
Theorem frame_roundtrip cap r rest (Hcap : 0 <= cap) (Hr : req_ok r) (Hrest : rest_ok r rest) :
  (zlen (wire (layout r)) <= cap ->
     encode_req cap r = wire (layout r) /\
     quic_frame_decode (encode_req cap r ++ rest) (zlen (encode_req cap r ++ rest)) =
     Ret (Some (zlen (encode_req cap r), raw_type r, decoded r rest))) /\
  (cap < zlen (wire (layout r)) -> encode_req cap r = []).
Proof.
  rewrite encode_layout by done. split; intros Hfit.
  - replace (_ <=? cap) with true by lia. split; [done|]. by apply decode_layout.
  - by replace (_ <=? cap) with false by lia.
Qed.

Lemma frame_roundtrip_witness :
  quic_frame_decode (encode_req 64 (RqStream 4 70000 [1; 2; 3] true) ++ [0x01]) 11 =
  Ret (Some (10, 0x0f, FStream 4 70000 3 true [1; 2; 3; 1])).
Proof.
  apply (frame_roundtrip 64 (RqStream 4 70000 [1; 2; 3] true) [0x01]).
  - vm_compute; discriminate.
  - vm_compute; intuition discriminate.
  - exact I.
  - vm_compute; discriminate.
Defined.
