(* ===== verification/FlowCC.v ===== *)
(** * QUIC flow control and NewReno congestion control

    Models [userspace/quic/flow.c] (RFC 9000 section 4) and
    [userspace/quic/cc.c] (RFC 9002 section 7).  Both are pure accountants; a
    trace is a list of calls. *)

From Stdlib Require Import ZArith Lia.
From stdpp Require Import list numbers.
From S2P Require Import Prelude.

(** ** Flow control *)

Record quic_flow_t := mk_flow { fl_max : Z; fl_consumed : Z }.

Definition quic_flow_init (initial_max : Z) : quic_flow_t := mk_flow initial_max 0.

Definition quic_flow_available (f : quic_flow_t) : Z :=
  if fl_max f <=? fl_consumed f then 0 else fl_max f - fl_consumed f.

(** The grant and the new state. *)
Definition quic_flow_consume (f : quic_flow_t) (bytes : Z) : Z * quic_flow_t :=
  let avail := if fl_max f <=? fl_consumed f then 0 else fl_max f - fl_consumed f in
  let take := if bytes <? avail then bytes else avail in
  (take, mk_flow (fl_max f) (u64 (fl_consumed f + take))).

Definition quic_flow_set_max (f : quic_flow_t) (new_max : Z) : quic_flow_t :=
  if fl_max f <? new_max then mk_flow new_max (fl_consumed f) else f.

Definition quic_flow_should_update (f : quic_flow_t) (initial_window : Z) : bool :=
  let half := initial_window / 2 in
  quic_flow_available f <=? half.

Inductive flow_op := FlowConsume (bytes : Z) | FlowSetMax (new_max : Z).

(** Runs a trace; the second component collects the grants. *)
Fixpoint flow_run (f : quic_flow_t) (ops : list flow_op) : quic_flow_t * list Z :=
  match ops with
  | [] => (f, [])
  | FlowConsume b :: ops' =>
      let (g, f') := quic_flow_consume f b in
      let (f'', gs) := flow_run f' ops' in (f'', g :: gs)
  | FlowSetMax m :: ops' => flow_run (quic_flow_set_max f m) ops'
  end.

(** The highest limit ever advertised. *)
Fixpoint flow_limit (m : Z) (ops : list flow_op) : Z :=
  match ops with
  | [] => m
  | FlowConsume _ :: ops' => flow_limit m ops'
  | FlowSetMax m' :: ops' => flow_limit (Z.max m m') ops'
  end.

Definition flow_op_ok (o : flow_op) : Prop :=
  match o with FlowConsume b => 0 <= b < 2 ^ 64 | FlowSetMax m => 0 <= m < 2 ^ 64 end.

Fixpoint zsum (l : list Z) : Z := match l with [] => 0 | x :: l' => x + zsum l' end.

Definition flow_ok (f : quic_flow_t) : Prop := 0 <= fl_consumed f <= fl_max f /\ fl_max f < 2 ^ 64.

Lemma flow_consume_spec f b :
  flow_ok f -> 0 <= b ->
  let '(g, f') := quic_flow_consume f b in
  g = Z.min b (fl_max f - fl_consumed f) /\ f' = mk_flow (fl_max f) (fl_consumed f + g) /\ flow_ok f'.
Proof.
  intros [Hc Hm] Hb. unfold quic_flow_consume, flow_ok. cbn.
  rewrite u64_small by (repeat zcase; lia). repeat zcase; split_and!; try f_equal; lia.
Qed.

Lemma flow_set_max_spec f m :
  flow_ok f -> 0 <= m < 2 ^ 64 ->
  quic_flow_set_max f m = mk_flow (Z.max (fl_max f) m) (fl_consumed f) /\ flow_ok (quic_flow_set_max f m).
Proof.
  intros [Hc Hm] Hb. unfold quic_flow_set_max, flow_ok. destruct f; cbn in *. zcase; cbn; split_and!; try f_equal; lia.
Qed.

Lemma flow_run_spec ops : forall f,
  flow_ok f -> Forall flow_op_ok ops ->
  let '(f', gs) := flow_run f ops in
  flow_ok f' /\ fl_max f' = flow_limit (fl_max f) ops /\
  fl_consumed f' = fl_consumed f + zsum gs /\ Forall (fun g => 0 <= g) gs.
Proof.
  induction ops as [|[b|m] ops IH]; intros f Hf Hops; cbn [flow_run flow_limit].
  - cbn. split_and!; [done|done|lia|apply Forall_nil_2].
  - apply Forall_cons_1 in Hops as [Hb Hops]. cbn in Hb.
    pose proof (flow_consume_spec f b Hf ltac:(lia)) as Hs.
    destruct (quic_flow_consume f b) as [g f1]. destruct Hs as (Hg & -> & Hf1).
    specialize (IH _ Hf1 Hops). destruct (flow_run _ ops) as [f2 gs]. cbn in IH.
    destruct IH as (? & ? & Hc & Hgs). destruct Hf. split_and!; cbn; try done; [lia|].
    apply Forall_cons_2; [lia|done].
  - apply Forall_cons_1 in Hops as [Hb Hops]. cbn in Hb.
    destruct (flow_set_max_spec f m Hf Hb) as [E Hf1]. specialize (IH _ Hf1 Hops).
    rewrite E in *. exact IH.
Qed.

(** ** NewReno *)

Record quic_cc_t := mk_cc {
  cc_max_datagram_size : Z;
  cc_cwnd : Z;
  cc_ssthresh : Z;
  cc_bytes_in_flight : Z;
  cc_congestion_recovery_start_time : Z;
  cc_ssthresh_set : bool
}.

Definition u64_max (a b : Z) : Z := if b <? a then a else b.
Definition u64_min (a b : Z) : Z := if a <? b then a else b.

Definition quic_cc_initial_window (mds : Z) : Z :=
  u64_min (u64 (10 * mds)) (u64_max (u64 (2 * mds)) 14720).

Definition quic_cc_minimum_window (mds : Z) : Z := u64 (2 * mds).

Definition quic_cc_init (mds : Z) : quic_cc_t :=
  mk_cc mds (quic_cc_initial_window mds) UINT64_MAX 0 0 false.

Definition quic_cc_on_sent (cc : quic_cc_t) (bytes : Z) : quic_cc_t :=
  mk_cc (cc_max_datagram_size cc) (cc_cwnd cc) (cc_ssthresh cc) (u64 (cc_bytes_in_flight cc + bytes))
    (cc_congestion_recovery_start_time cc) (cc_ssthresh_set cc).

Definition quic_cc_on_acked (cc : quic_cc_t) (bytes : Z) : quic_cc_t :=
  let bytes := if cc_bytes_in_flight cc <? bytes then cc_bytes_in_flight cc else bytes in
  let bif := cc_bytes_in_flight cc - bytes in
  let cwnd :=
    if cc_cwnd cc <? cc_ssthresh cc then u64 (cc_cwnd cc + bytes)
    else u64 (cc_cwnd cc + u64 (cc_max_datagram_size cc * bytes) / cc_cwnd cc) in
  mk_cc (cc_max_datagram_size cc) cwnd (cc_ssthresh cc) bif
    (cc_congestion_recovery_start_time cc) (cc_ssthresh_set cc).

Definition quic_cc_on_lost (cc : quic_cc_t) (bytes lost_send_time now_us : Z) : quic_cc_t :=
  let bytes := if cc_bytes_in_flight cc <? bytes then cc_bytes_in_flight cc else bytes in
  let bif := cc_bytes_in_flight cc - bytes in
  if negb (cc_congestion_recovery_start_time cc =? 0) &&
     (lost_send_time <=? cc_congestion_recovery_start_time cc)
  then mk_cc (cc_max_datagram_size cc) (cc_cwnd cc) (cc_ssthresh cc) bif
         (cc_congestion_recovery_start_time cc) (cc_ssthresh_set cc)
  else
    let halved := cc_cwnd cc / 2 in
    let min_w := quic_cc_minimum_window (cc_max_datagram_size cc) in
    let ssthresh := u64_max halved min_w in
    mk_cc (cc_max_datagram_size cc) ssthresh ssthresh bif now_us true.

Definition quic_cc_on_persistent_congestion (cc : quic_cc_t) : quic_cc_t :=
  mk_cc (cc_max_datagram_size cc) (quic_cc_minimum_window (cc_max_datagram_size cc)) (cc_ssthresh cc)
    (cc_bytes_in_flight cc) 0 (cc_ssthresh_set cc).

Definition quic_cc_can_send (cc : quic_cc_t) (bytes : Z) : bool :=
  u64 (cc_bytes_in_flight cc + bytes) <=? cc_cwnd cc.

Inductive cc_op :=
| CcSent (bytes : Z) | CcAcked (bytes : Z) | CcLost (bytes lost_send_time now_us : Z) | CcPersistent.

Definition cc_apply (cc : quic_cc_t) (o : cc_op) : quic_cc_t :=
  match o with
  | CcSent b => quic_cc_on_sent cc b
  | CcAcked b => quic_cc_on_acked cc b
  | CcLost b t n => quic_cc_on_lost cc b t n
  | CcPersistent => quic_cc_on_persistent_congestion cc
  end.

(** The states reachable by calls that send [total] bytes in all. *)
Inductive cc_reach (mds : Z) : Z -> quic_cc_t -> Prop :=
| reach_init : cc_reach mds 0 (quic_cc_init mds)
| reach_sent total cc b : cc_reach mds total cc -> 0 <= b -> cc_reach mds (total + b) (cc_apply cc (CcSent b))
| reach_acked total cc b : cc_reach mds total cc -> 0 <= b -> cc_reach mds total (cc_apply cc (CcAcked b))
| reach_lost total cc b t n : cc_reach mds total cc -> 0 <= b -> 0 <= n -> cc_reach mds total (cc_apply cc (CcLost b t n))
| reach_persistent total cc : cc_reach mds total cc -> cc_reach mds total (cc_apply cc CcPersistent).

Record cc_inv (mds total : Z) (cc : quic_cc_t) : Prop := {
  ci_mds : cc_max_datagram_size cc = mds;
  ci_bif : 0 <= cc_bytes_in_flight cc <= total;
  ci_cwnd : 2 * mds <= cc_cwnd cc;
  ci_bound : cc_cwnd cc + cc_bytes_in_flight cc <= quic_cc_initial_window mds + total;
  ci_ssthresh : 2 * mds <= cc_ssthresh cc
}.

Lemma initial_window_bounds mds :
  1 <= mds < 2 ^ 32 -> 2 * mds <= quic_cc_initial_window mds < 2 ^ 36.
Proof.
  intros. unfold quic_cc_initial_window, u64_min, u64_max. rewrite !u64_small by lia. repeat zcase; lia.
Qed.

Lemma cc_reach_total mds total cc : cc_reach mds total cc -> 0 <= total.
Proof. induction 1; lia. Qed.

(** Congestion avoidance grows the window by at most half the acked bytes. *)
Lemma ca_growth mds b cwnd : 1 <= mds -> 0 <= b -> 2 * mds <= cwnd -> 0 <= mds * b / cwnd <= b.
Proof.
  intros. split; [apply Z.div_pos; nia|]. apply Z.div_le_upper_bound; nia.
Qed.

Lemma cc_inv_reach mds total cc :
  1 <= mds < 2 ^ 32 -> mds * total < 2 ^ 63 -> cc_reach mds total cc -> cc_inv mds total cc.
Proof.
  intros Hm Ht Hr. pose proof (initial_window_bounds mds Hm) as Hi.
  assert (Hmin : quic_cc_minimum_window mds = 2 * mds) by (apply u64_small; lia).
  induction Hr as [|total cc b Hr IH Hb|total cc b Hr IH Hb|total cc b t n Hr IH Hb Hn|total cc Hr IH].
  - constructor; cbn; try lia. unfold UINT64_MAX. lia.
  - pose proof (cc_reach_total _ _ _ Hr). destruct IH as [E1 E2 E3 E4 E5]; [nia|].
    constructor; cbn; try done; rewrite ?u64_small by nia; lia.
  - specialize (IH Ht). destruct IH as [E1 E2 E3 E4 E5]. pose proof (cc_reach_total _ _ _ Hr).
    cbn [cc_apply]. unfold quic_cc_on_acked.
    set (b' := if cc_bytes_in_flight cc <? b then cc_bytes_in_flight cc else b).
    assert (Hb' : 0 <= b' <= cc_bytes_in_flight cc) by (unfold b'; zcase; lia).
    clearbody b'. rewrite E1. rewrite (u64_small (mds * b')) by nia.
    pose proof (ca_growth mds b' (cc_cwnd cc) ltac:(lia) ltac:(lia) E3) as Hg.
    constructor; cbn; rewrite ?u64_small by nia; try lia; zcase; rewrite ?u64_small by nia; lia.
  - specialize (IH Ht). destruct IH as [E1 E2 E3 E4 E5]. cbn [cc_apply]. unfold quic_cc_on_lost.
    set (b' := if cc_bytes_in_flight cc <? b then cc_bytes_in_flight cc else b).
    assert (Hb' : 0 <= b' <= cc_bytes_in_flight cc) by (unfold b'; zcase; lia).
    clearbody b'. rewrite E1, Hmin. zcase; constructor; cbn; try lia; unfold u64_max; zcase; dlia.
  - specialize (IH Ht). destruct IH as [E1 E2 E3 E4 E5]. constructor; cbn; rewrite ?E1, ?Hmin; lia.
Qed.

Lemma can_send_exact mds total cc b :
  1 <= mds < 2 ^ 32 -> mds * total < 2 ^ 63 -> cc_reach mds total cc -> 0 <= b < 2 ^ 62 ->
  quic_cc_can_send cc b = true <-> cc_bytes_in_flight cc + b <= cc_cwnd cc.
Proof.
  intros Hm Ht Hr Hb. destruct (cc_inv_reach _ _ _ Hm Ht Hr) as [_ E2 _ _ _].
  unfold quic_cc_can_send. rewrite u64_small by nia. apply Z.leb_le.
Qed.

(** Losses of packets sent in the current recovery period leave the window alone. *)
Lemma losses_in_recovery (losses : list (Z * Z * Z)) : forall cc,
  cc_congestion_recovery_start_time cc <> 0 ->
  Forall (fun '(_, t, _) => t <= cc_congestion_recovery_start_time cc) losses ->
  let cc' := foldl (fun c '(b, t, n) => quic_cc_on_lost c b t n) cc losses in
  cc_cwnd cc' = cc_cwnd cc /\ cc_ssthresh cc' = cc_ssthresh cc /\
  cc_congestion_recovery_start_time cc' = cc_congestion_recovery_start_time cc.
Proof.
  induction losses as [|[[b t] n] losses IH]; intros cc Hnz Hl; cbn; [done|].
  apply Forall_cons_1 in Hl as [Ht Hl].
  assert (E : forall c, c = quic_cc_on_lost cc b t n ->
    cc_cwnd c = cc_cwnd cc /\ cc_ssthresh c = cc_ssthresh cc /\
    cc_congestion_recovery_start_time c = cc_congestion_recovery_start_time cc).
  { intros c ->. unfold quic_cc_on_lost. apply Z.eqb_neq in Hnz. rewrite Hnz. cbn.
    apply Z.leb_le in Ht. rewrite Ht. done. }
  destruct (E _ eq_refl) as (E1 & E2 & E3).
  rewrite <- E1, <- E2, <- E3. apply IH; rewrite E3; done.
Qed.

(** ** Properties *)

(** Flow control never grants more than was advertised.  Over any sequence
    of [quic_flow_consume] and [quic_flow_set_max] calls the bytes granted sum
    to exactly [consumed], which stays at most [max]; [max] is the highest limit
    ever advertised (a smaller MAX_DATA has no effect), and what is left is the
    difference. *)
Theorem flow_control initial_max ops :
  0 <= initial_max < 2 ^ 64 -> Forall flow_op_ok ops ->
  let '(f, grants) := flow_run (quic_flow_init initial_max) ops in
  fl_consumed f = zsum grants /\ Forall (fun g => 0 <= g) grants /\
  fl_max f = flow_limit initial_max ops /\ zsum grants <= flow_limit initial_max ops /\
  quic_flow_available f = flow_limit initial_max ops - zsum grants.
Proof.
  intros Hm Ho. pose proof (flow_run_spec ops (quic_flow_init initial_max)) as H.
  destruct (flow_run _ ops) as [f gs].
  destruct H as ([Hc _] & E1 & E2 & Hg); [split; cbn; lia|done|]. cbn in E1, E2.
  unfold quic_flow_available. split_and!; try done; try lia. zcase; lia.
Qed.

Lemma flow_control_witness :
  let '(f, grants) := flow_run (quic_flow_init 100) [FlowConsume 70; FlowConsume 70; FlowSetMax 50; FlowSetMax 120; FlowConsume 15] in
  grants = [70; 30; 15] /\ zsum grants <= 120 /\ quic_flow_available f = 5.
Proof.
  pose proof (flow_control 100 [FlowConsume 70; FlowConsume 70; FlowSetMax 50; FlowSetMax 120; FlowConsume 15]
    ltac:(lia) ltac:(repeat (apply Forall_cons_2; [cbn; lia|]); apply Forall_nil_2)) as H.
  vm_compute in H |- *. destruct H as (_ & _ & _ & H & _). split_and!; [done|exact H|done].
Defined.

(** The NewReno state machine is well behaved on every reachable state.
    However acks, losses and persistent-congestion events interleave, the window
    never falls under two datagrams (so the division in congestion avoidance is
    never by zero), window plus bytes in flight never exceed the initial window
    plus everything sent (so no 64-bit operation wraps), bytes in flight never
    exceed the bytes sent, and [quic_cc_can_send] admits exactly what fits. *)
Theorem cc_window_invariant mds total cc :
  1 <= mds < 2 ^ 32 -> mds * total < 2 ^ 63 -> cc_reach mds total cc ->
  2 * mds <= cc_cwnd cc /\ 2 * mds <= cc_ssthresh cc /\
  0 <= cc_bytes_in_flight cc <= total /\
  cc_cwnd cc + cc_bytes_in_flight cc <= quic_cc_initial_window mds + total < 2 ^ 64 /\
  (forall b, 0 <= b < 2 ^ 62 -> quic_cc_can_send cc b = true <-> cc_bytes_in_flight cc + b <= cc_cwnd cc).
Proof.
  intros Hm Ht Hr. destruct (cc_inv_reach _ _ _ Hm Ht Hr) as [E1 E2 E3 E4 E5].
  pose proof (initial_window_bounds mds Hm).
  split_and!; try lia; [nia|]. intros b Hb. by eapply can_send_exact.
Qed.

Definition cc_demo : quic_cc_t :=
  foldl cc_apply (quic_cc_init 1200) [CcSent 12000; CcAcked 2400; CcLost 1200 5 90; CcAcked 3600].

Lemma cc_window_invariant_witness :
  cc_cwnd cc_demo = 7800 /\ cc_bytes_in_flight cc_demo = 4800 /\ 2400 <= cc_cwnd cc_demo.
Proof.
  assert (Hr : cc_reach 1200 (0 + 12000) cc_demo).
  { apply (reach_acked 1200 _ _ 3600); [|lia]. apply (reach_lost 1200 _ _ 1200 5 90); [|lia|lia].
    apply (reach_acked 1200 _ _ 2400); [|lia]. apply (reach_sent 1200 0 _ 12000); [apply reach_init|lia]. }
  destruct (cc_window_invariant 1200 (0 + 12000) cc_demo ltac:(lia) ltac:(lia) Hr) as [H _].
  split_and!; [vm_compute; reflexivity|vm_compute; reflexivity|exact H].
Defined.

(** At most one window reduction per recovery period (RFC 9002 section
    7.3.2).  A loss outside recovery halves the window, floored at two
    datagrams, and sets the slow-start threshold to it; after it, any number of
    further losses of packets sent no later than that moment leaves window and
    threshold where they are. *)
Theorem cc_single_reduction cc b t now losses :
  (cc_congestion_recovery_start_time cc = 0 \/ cc_congestion_recovery_start_time cc < t) ->
  0 < now -> Forall (fun '(_, t', _) => t' <= now) losses ->
  let cc' := foldl (fun c '(b', t', n') => quic_cc_on_lost c b' t' n') (quic_cc_on_lost cc b t now) losses in
  let w := Z.max (cc_cwnd cc / 2) (u64 (2 * cc_max_datagram_size cc)) in
  cc_cwnd cc' = w /\ cc_ssthresh cc' = w /\ cc_congestion_recovery_start_time cc' = now.
Proof.
  intros Hrec Hnow Hl. cbv zeta.
  assert (Hc : negb (cc_congestion_recovery_start_time cc =? 0) &&
    (t <=? cc_congestion_recovery_start_time cc) = false).
  { destruct Hrec as [->|Hlt]; [done|]. apply Z.leb_gt in Hlt. rewrite Hlt. apply andb_false_r. }
  set (cc1 := quic_cc_on_lost cc b t now).
  assert (E : cc_cwnd cc1 = u64_max (cc_cwnd cc / 2) (u64 (2 * cc_max_datagram_size cc)) /\
    cc_ssthresh cc1 = cc_cwnd cc1 /\ cc_congestion_recovery_start_time cc1 = now).
  { unfold cc1, quic_cc_on_lost. by rewrite Hc. }
  destruct E as (E1 & E2 & E3).
  destruct (losses_in_recovery losses cc1) as (-> & -> & ->); [lia|by rewrite E3|].
  rewrite E2, E1, E3. unfold u64_max. split_and!; try done; zcase; lia.
Qed.

Lemma cc_single_reduction_witness :
  cc_cwnd (foldl (fun c '(b', t', n') => quic_cc_on_lost c b' t' n')
    (quic_cc_on_lost (quic_cc_init 1200) 1200 5 90) [(1200, 6, 91); (1200, 90, 300)]) = 6000.
Proof.
  refine (proj1 (cc_single_reduction (quic_cc_init 1200) 1200 5 90 [(1200, 6, 91); (1200, 90, 300)] (or_introl eq_refl) ltac:(lia) _)).
  repeat (apply Forall_cons_2; [lia|]); apply Forall_nil_2.
Defined.
