(* ===== verification/Loss.v ===== *)
(** * QUIC loss detection

    Models [userspace/quic/loss.c] (RFC 9002): the RTT estimator, the table of
    sent packets with its loss sweep, and the probe timeout.  The C array of 256
    slots is a list; a loop over it is a structural recursion that carries the
    variables the loop body assigns. *)

From Stdlib Require Import ZArith Lia.
From stdpp Require Import list numbers.
From S2P Require Import Prelude FlowCC.

Definition QUIC_LOSS_PACKET_THRESHOLD : Z := 3.
Definition QUIC_LOSS_GRANULARITY_US : Z := 1000.
Definition QUIC_LOSS_TIME_THRESHOLD_NUM : Z := 9.
Definition QUIC_LOSS_TIME_THRESHOLD_DEN : Z := 8.
Definition QUIC_LOSS_MAX_TRACKED : nat := 256.

Definition abs_diff (a b : Z) : Z := if b <? a then a - b else b - a.

(** ** RTT estimator *)

Record quic_rtt_t := mk_rtt {
  latest_rtt : Z;
  smoothed_rtt : Z;
  rttvar : Z;
  min_rtt : Z;
  first_sample : bool
}.

Definition quic_rtt_init : quic_rtt_t := mk_rtt 0 0 0 0 false.

Definition quic_rtt_sample (r : quic_rtt_t) (latest_rtt_us ack_delay_us max_ack_delay_us : Z) : quic_rtt_t :=
  if negb (first_sample r) then mk_rtt latest_rtt_us latest_rtt_us (latest_rtt_us / 2) latest_rtt_us true
  else
    let min_rtt := u64_min (min_rtt r) latest_rtt_us in
    let delay := if (0 <? max_ack_delay_us) && (max_ack_delay_us <? ack_delay_us) then max_ack_delay_us else ack_delay_us in
    let adjusted_rtt := if u64 (min_rtt + delay) <=? latest_rtt_us then u64 (latest_rtt_us - delay) else latest_rtt_us in
    let rttvar_sample := abs_diff (smoothed_rtt r) adjusted_rtt in
    let rttvar := u64 (u64 (3 * rttvar r) + rttvar_sample) / 4 in
    let smoothed := u64 (u64 (7 * smoothed_rtt r) + adjusted_rtt) / 8 in
    mk_rtt latest_rtt_us smoothed rttvar min_rtt true.

(** ** Sent-packet tracker *)

Record quic_sent_pkt_t := mk_pkt {
  sp_pn : Z;
  sp_time_sent : Z;
  sp_size : Z;
  sp_ack_eliciting : bool;
  sp_in_flight : bool;
  sp_used : bool
}.

Record quic_loss_t := mk_loss {
  pkts : list quic_sent_pkt_t;
  largest_acked : Z;
  have_largest_acked : bool;
  loss_time : Z;
  time_of_last_ack_eliciting_sent : Z;
  pto_count : Z;
  ack_eliciting_in_flight : Z
}.

Definition empty_pkt : quic_sent_pkt_t := mk_pkt 0 0 0 false false false.

Definition quic_loss_init : quic_loss_t :=
  mk_loss (replicate QUIC_LOSS_MAX_TRACKED empty_pkt) 0 false 0 0 0 0.

(** The index of the first unused slot. *)
Fixpoint find_free (ps : list quic_sent_pkt_t) : option nat :=
  match ps with
  | [] => None
  | s :: ps' => if negb (sp_used s) then Some O else S <$> find_free ps'
  end.

(** The scan for the oldest packet from index [i] on, [oldest] being the best
    so far and [t] its send time. *)
Fixpoint find_oldest (ps : list quic_sent_pkt_t) (i oldest : nat) (t : Z) : nat :=
  match ps with
  | [] => oldest
  | s :: ps' =>
      if sp_time_sent s <? t then find_oldest ps' (S i) i (sp_time_sent s)
      else find_oldest ps' (S i) oldest t
  end.

Definition oldest_slot (ps : list quic_sent_pkt_t) : nat :=
  match ps with
  | [] => O
  | s :: ps' => find_oldest ps' 1 O (sp_time_sent s)
  end.

Definition quic_loss_on_sent (l : quic_loss_t) (pn now_us size : Z) (ack_eliciting in_flight : bool) : quic_loss_t :=
  let s := match find_free (pkts l) with Some i => i | None => oldest_slot (pkts l) end in
  let p := mk_pkt pn now_us (if UINT16_MAX <? size then UINT16_MAX else size) ack_eliciting in_flight true in
  let ps := <[s := p]> (pkts l) in
  if ack_eliciting
  then mk_loss ps (largest_acked l) (have_largest_acked l) (loss_time l) now_us (pto_count l)
         (u32 (ack_eliciting_in_flight l + 1))
  else mk_loss ps (largest_acked l) (have_largest_acked l) (loss_time l)
         (time_of_last_ack_eliciting_sent l) (pto_count l) (ack_eliciting_in_flight l).

Record quic_pn_range_t := mk_range { rg_lo : Z; rg_hi : Z }.

Fixpoint pn_in_ranges (pn : Z) (ranges : list quic_pn_range_t) : bool :=
  match ranges with
  | [] => false
  | r :: ranges' => if (rg_lo r <=? pn) && (pn <=? rg_hi r) then true else pn_in_ranges pn ranges'
  end.

Definition loss_delay_us (rtt : quic_rtt_t) : Z :=
  if negb (first_sample rtt) then QUIC_LOSS_GRANULARITY_US
  else
    let base := u64_max (latest_rtt rtt) (smoothed_rtt rtt) in
    let scaled := u64 (base * QUIC_LOSS_TIME_THRESHOLD_NUM) / QUIC_LOSS_TIME_THRESHOLD_DEN in
    u64_max scaled QUIC_LOSS_GRANULARITY_US.

Definition mark_unused (s : quic_sent_pkt_t) : quic_sent_pkt_t :=
  mk_pkt (sp_pn s) (sp_time_sent s) (sp_size s) (sp_ack_eliciting s) (sp_in_flight s) false.

(** [if (s->ack_eliciting && l->ack_eliciting_in_flight > 0) l->ack_eliciting_in_flight--;] *)
Definition drop_in_flight (s : quic_sent_pkt_t) (aeif : Z) : Z :=
  if sp_ack_eliciting s && (0 <? aeif) then aeif - 1 else aeif.

(** The loop of [detect_lost_inner]: the new slots, the packet numbers of the
    lost packets in slot order, the counter and the loss time. *)
Fixpoint lost_loop (la delay lost_send_time : Z) (ps : list quic_sent_pkt_t) (aeif lt : Z)
  : list quic_sent_pkt_t * list Z * Z * Z :=
  match ps with
  | [] => ([], [], aeif, lt)
  | s :: ps' =>
      if negb (sp_used s) then
        let '(ps1, out, a, t) := lost_loop la delay lost_send_time ps' aeif lt in (s :: ps1, out, a, t)
      else if la <? sp_pn s then
        let '(ps1, out, a, t) := lost_loop la delay lost_send_time ps' aeif lt in (s :: ps1, out, a, t)
      else
        let by_pn := QUIC_LOSS_PACKET_THRESHOLD <=? la - sp_pn s in
        let by_time := sp_time_sent s <=? lost_send_time in
        if by_pn || by_time then
          let '(ps1, out, a, t) := lost_loop la delay lost_send_time ps' (drop_in_flight s aeif) lt in
          (mark_unused s :: ps1, sp_pn s :: out, a, t)
        else
          let deadline := u64 (sp_time_sent s + delay) in
          let lt' := if (lt =? 0) || (deadline <? lt) then deadline else lt in
          let '(ps1, out, a, t) := lost_loop la delay lost_send_time ps' aeif lt' in
          (s :: ps1, out, a, t)
  end.

(** The new tracker, the number of lost packets, and what was stored in
    [out_pns] (its first [cap] entries). *)
Definition detect_lost_inner (l : quic_loss_t) (rtt : quic_rtt_t) (now_us : Z) (cap : nat)
  : quic_loss_t * Z * list Z :=
  if negb (have_largest_acked l) then
    (mk_loss (pkts l) (largest_acked l) (have_largest_acked l) 0
       (time_of_last_ack_eliciting_sent l) (pto_count l) (ack_eliciting_in_flight l), 0, [])
  else
    let delay := loss_delay_us rtt in
    let lost_send_time := if delay <? now_us then now_us - delay else 0 in
    let '(ps, out, aeif, lt) :=
      lost_loop (largest_acked l) delay lost_send_time (pkts l) (ack_eliciting_in_flight l) 0 in
    (mk_loss ps (largest_acked l) (have_largest_acked l) lt
       (time_of_last_ack_eliciting_sent l) (pto_count l) aeif, zlen out, take cap out).

Definition quic_loss_detect_lost := detect_lost_inner.

(** [largest] over [ranges], starting from [ranges[0].hi]. *)
Fixpoint largest_hi (largest : Z) (ranges : list quic_pn_range_t) : Z :=
  match ranges with
  | [] => largest
  | r :: ranges' => largest_hi (if largest <? rg_hi r then rg_hi r else largest) ranges'
  end.

(** The locals [have_largest_new], [largest_new_pn], [largest_new_send_time]
    and [largest_new_eliciting]. *)
Record largest_new := mk_new { ln_pn : Z; ln_time : Z; ln_eliciting : bool }.

Fixpoint ack_loop (ranges : list quic_pn_range_t) (ps : list quic_sent_pkt_t) (newly aeif : Z)
  (new : option largest_new) : list quic_sent_pkt_t * Z * Z * option largest_new :=
  match ps with
  | [] => ([], newly, aeif, new)
  | s :: ps' =>
      if negb (sp_used s) then
        let '(ps1, n, a, w) := ack_loop ranges ps' newly aeif new in (s :: ps1, n, a, w)
      else if negb (pn_in_ranges (sp_pn s) ranges) then
        let '(ps1, n, a, w) := ack_loop ranges ps' newly aeif new in (s :: ps1, n, a, w)
      else
        let new' := match new with
          | Some w => if ln_pn w <? sp_pn s then Some (mk_new (sp_pn s) (sp_time_sent s) (sp_ack_eliciting s)) else new
          | None => Some (mk_new (sp_pn s) (sp_time_sent s) (sp_ack_eliciting s))
          end in
        let '(ps1, n, a, w) := ack_loop ranges ps' (newly + 1) (drop_in_flight s aeif) new' in
        (mark_unused s :: ps1, n, a, w)
  end.

Record ack_result := mk_ack_result {
  ar_loss : quic_loss_t; ar_rtt : quic_rtt_t; ar_newly_acked : Z; ar_lost_count : Z; ar_lost_pns : list Z }.

Definition quic_loss_on_ack (l : quic_loss_t) (rtt : quic_rtt_t) (ranges : list quic_pn_range_t)
  (ack_delay_us max_ack_delay_us now_us : Z) (out_cap : nat) : ack_result :=
  match ranges with
  | [] => mk_ack_result l rtt 0 0 []
  | r0 :: rest =>
      let largest := largest_hi (rg_hi r0) rest in
      let la := if negb (have_largest_acked l) || (largest_acked l <? largest) then largest else largest_acked l in
      let '(ps, newly, aeif, new) := ack_loop ranges (pkts l) 0 (ack_eliciting_in_flight l) None in
      let rtt' := match new with
        | Some w =>
            if ln_eliciting w && (ln_pn w =? largest) then
              let latest := if ln_time w <? now_us then now_us - ln_time w else 0 in
              quic_rtt_sample rtt latest ack_delay_us max_ack_delay_us
            else rtt
        | None => rtt
        end in
      let pto := if 0 <? newly then 0 else pto_count l in
      let l1 := mk_loss ps la true (loss_time l) (time_of_last_ack_eliciting_sent l) pto aeif in
      let '(l2, lost, out) := detect_lost_inner l1 rtt' now_us out_cap in
      mk_ack_result l2 rtt' newly lost out
  end.

(** ** Probe timeout *)

Definition quic_loss_pto_us (rtt : quic_rtt_t) (max_ack_delay_us : Z) : Z :=
  if negb (first_sample rtt) then 0
  else
    let v := u64_max (u64 (4 * rttvar rtt)) QUIC_LOSS_GRANULARITY_US in
    u64 (smoothed_rtt rtt + v + max_ack_delay_us).

Definition quic_loss_pto_deadline (l : quic_loss_t) (rtt : quic_rtt_t) (max_ack_delay_us : Z) : Z :=
  if ack_eliciting_in_flight l =? 0 then 0
  else if time_of_last_ack_eliciting_sent l =? 0 then 0
  else
    let base := quic_loss_pto_us rtt max_ack_delay_us in
    let base := if base =? 0 then u64 (333000 + max_ack_delay_us) else base in
    let shift := if 16 <? pto_count l then 16 else pto_count l in
    let backed := u64 (Z.shiftl base shift) in
    u64 (time_of_last_ack_eliciting_sent l + backed).

(** ** Specification of the sweeps *)

Definition acked_by (ranges : list quic_pn_range_t) (s : quic_sent_pkt_t) : bool :=
  sp_used s && pn_in_ranges (sp_pn s) ranges.

(** RFC 9002 section 6.1: tracked, not newer than the largest acknowledged, and
    three packets or one loss delay behind. *)
Definition lost_by (la lost_send_time : Z) (s : quic_sent_pkt_t) : bool :=
  sp_used s && (sp_pn s <=? la) && ((3 <=? la - sp_pn s) || (sp_time_sent s <=? lost_send_time)).

Definition sweep (f : quic_sent_pkt_t -> bool) (ps : list quic_sent_pkt_t) : list quic_sent_pkt_t :=
  map (fun s => if f s then mark_unused s else s) ps.

Definition select (f : quic_sent_pkt_t -> bool) (ps : list quic_sent_pkt_t) : list quic_sent_pkt_t :=
  List.filter f ps.

(** The number of ack-eliciting packets in the table. *)
Definition outstanding (s : quic_sent_pkt_t) : bool := sp_used s && sp_ack_eliciting s.
Definition ae_count (ps : list quic_sent_pkt_t) : Z := zlen (select outstanding ps).

Definition waiting (la : Z) (s : quic_sent_pkt_t) : bool := sp_used s && (sp_pn s <=? la).

(** [t] is the earliest deadline of the packets in [ps], starting from [t0]
    (0 = none). *)
Definition earliest (delay la t0 t : Z) (ps : list quic_sent_pkt_t) : Prop :=
  (forall s, s ∈ ps -> waiting la s = true -> 0 < t <= sp_time_sent s + delay) /\
  (0 < t0 -> 0 < t <= t0) /\
  (t = t0 \/ exists s, s ∈ ps /\ waiting la s = true /\ t = sp_time_sent s + delay).

Definition slot_ok (s : quic_sent_pkt_t) : Prop := 0 <= sp_time_sent s < 2 ^ 62.

Lemma ae_count_cons s ps : ae_count (s :: ps) = (if outstanding s then 1 else 0) + ae_count ps.
Proof. unfold ae_count, select. cbn. destruct (outstanding s); rewrite ?zlen_cons; lia. Qed.

Lemma ae_count_nonneg ps : 0 <= ae_count ps.
Proof. apply zlen_nonneg. Qed.

Lemma ae_count_le ps : ae_count ps <= zlen ps.
Proof.
  induction ps as [|s ps IH]; [done|]. rewrite ae_count_cons, zlen_cons. destruct (outstanding s); lia.
Qed.

Lemma drop_in_flight_exact s ps k :
  sp_used s = true -> 0 <= k ->
  drop_in_flight s (ae_count (s :: ps) + k) = ae_count ps + k.
Proof.
  intros Hu Hk. pose proof (ae_count_nonneg ps). rewrite ae_count_cons.
  unfold drop_in_flight, outstanding. rewrite Hu. cbn. destruct (sp_ack_eliciting s); cbn; [|lia].
  destruct (Z.ltb_spec 0 (1 + ae_count ps + k)); lia.
Qed.

Lemma mark_unused_count s ps : ae_count (mark_unused s :: ps) = ae_count ps.
Proof. by rewrite ae_count_cons. Qed.

Lemma sweep_cons f s ps : sweep f (s :: ps) = (if f s then mark_unused s else s) :: sweep f ps.
Proof. done. Qed.

Lemma select_cons f s ps : select f (s :: ps) = (if f s then s :: select f ps else select f ps).
Proof. done. Qed.

Lemma ack_loop_spec ranges ps : forall newly aeif k new,
  aeif = ae_count ps + k -> 0 <= k ->
  exists w, ack_loop ranges ps newly aeif new =
    (sweep (acked_by ranges) ps, newly + zlen (select (acked_by ranges) ps),
     ae_count (sweep (acked_by ranges) ps) + k, w).
Proof.
  induction ps as [|s ps IH]; intros newly aeif k new Ha Hk; cbn [ack_loop].
  - exists new. cbn. rewrite Z.add_0_r, Ha. done.
  - rewrite sweep_cons, select_cons.
    destruct (acked_by ranges s) eqn:Hs; unfold acked_by in Hs.
    + apply andb_true_iff in Hs as [Hu Hp]. rewrite Hu, Hp. cbn [negb].
      subst aeif. rewrite drop_in_flight_exact by done.
      edestruct (IH (newly + 1) (ae_count ps + k) k) as [w E]; [done|done|]. rewrite E. exists w.
      rewrite mark_unused_count, zlen_cons. by rewrite <- Z.add_assoc, (Z.add_comm 1).
    + rewrite ae_count_cons in Ha.
      edestruct (IH newly aeif (k + if outstanding s then 1 else 0)) as [w E]; [destruct (outstanding s); lia..|].
      exists w. rewrite E, ae_count_cons, (Z.add_comm k), Z.add_assoc, (Z.add_comm (if outstanding s then 1 else 0)).
      destruct (sp_used s); cbn in *; [by rewrite Hs|done].
Qed.

Lemma lost_loop_spec la delay st ps : forall aeif k lt,
  aeif = ae_count ps + k -> 0 <= k -> Forall slot_ok ps -> 0 < delay < 2 ^ 62 -> 0 <= lt ->
  exists t, lost_loop la delay st ps aeif lt =
    (sweep (lost_by la st) ps, map sp_pn (select (lost_by la st) ps),
     ae_count (sweep (lost_by la st) ps) + k, t) /\
    earliest delay la lt t (sweep (lost_by la st) ps).
Proof.
  induction ps as [|s ps IH]; intros aeif k lt Ha Hk Hok Hd Hlt; cbn [lost_loop].
  { exists lt. split; [by rewrite Ha|]. split_and!; [intros ? []%elem_of_nil|lia|by left]. }
  apply Forall_cons_1 in Hok as [Hs0 Hok]. unfold slot_ok in Hs0.
  rewrite sweep_cons, select_cons.
  destruct (lost_by la st s) eqn:Hs; unfold lost_by in Hs.
  - apply andb_true_iff in Hs as [[Hu Hp]%andb_true_iff Hl]. apply Z.leb_le in Hp.
    rewrite Hu. cbn [negb]. destruct (Z.ltb_spec la (sp_pn s)); [lia|].
    unfold QUIC_LOSS_PACKET_THRESHOLD. rewrite Hl. subst aeif. rewrite drop_in_flight_exact by done.
    destruct (IH (ae_count ps + k) k lt) as (t & E & Ht1 & Ht2 & Ht3); [done..|]. rewrite E. exists t.
    rewrite mark_unused_count. split; [done|]. split_and!; [|done|].
    + intros x [->|Hx]%elem_of_cons Hw; [by cbn in Hw|eauto].
    + destruct Ht3 as [?|(x & ? & ?)]; [by left|right; exists x; split; [by right|done]].
  - rewrite ae_count_cons in Ha.
    assert (Hk' : aeif = ae_count ps + (k + if outstanding s then 1 else 0) /\ 0 <= k + if outstanding s then 1 else 0)
      by (destruct (outstanding s); lia). destruct Hk' as [Ha' Hk'].
    assert (Hc : forall c, c + (k + (if outstanding s then 1 else 0)) = (if outstanding s then 1 else 0) + c + k) by lia.
    destruct (waiting la s) eqn:Hw; unfold waiting in Hw.
    + apply andb_true_iff in Hw as [Hu Hp]. rewrite Hu, Hp in Hs. apply Z.leb_le in Hp.
      rewrite Hu. cbn [negb]. destruct (Z.ltb_spec la (sp_pn s)); [lia|].
      unfold QUIC_LOSS_PACKET_THRESHOLD. cbn in Hs. rewrite Hs, u64_small by lia.
      set (lt' := if (lt =? 0) || (sp_time_sent s + delay <? lt) then sp_time_sent s + delay else lt).
      assert (Hlt' : 0 < lt' <= sp_time_sent s + delay /\ (0 < lt -> lt' <= lt) /\ (lt' = lt \/ lt' = sp_time_sent s + delay)).
      { unfold lt'. destruct (Z.eqb_spec lt 0); cbn; [lia|]. zcase; lia. }
      clearbody lt'. destruct (IH aeif _ lt' Ha' Hk' Hok Hd ltac:(lia)) as (t & E & Ht1 & Ht2 & Ht3). exists t.
      rewrite E, ae_count_cons, Hc. split; [done|]. split_and!; [|lia|].
      * intros x [->|Hx]%elem_of_cons Hx'; [lia|]. by apply Ht1.
      * destruct Ht3 as [->|(x & ? & ?)]; [|right; exists x; split; [by right|done]].
        destruct Hlt' as (_ & _ & [->| ->]); [by left|right].
        exists s. split_and!; [by left| |done]. unfold waiting. rewrite Hu. cbn. by apply Z.leb_le.
    + destruct (IH aeif _ lt Ha' Hk' Hok Hd Hlt) as (t & E & Ht1 & Ht2 & Ht3). exists t.
      rewrite E, ae_count_cons, Hc. split.
      { destruct (sp_used s); cbn in *; [|done]. apply Z.leb_gt in Hw.
        destruct (Z.ltb_spec la (sp_pn s)); [done|lia]. }
      split_and!; [|done|].
      * intros x [->|Hx]%elem_of_cons Hx'; [|eauto]. unfold waiting in Hx'. congruence.
      * destruct Ht3 as [?|(x & ? & ?)]; [by left|right; exists x; split; [by right|done]].
Qed.

(** ** RTT bounds *)

Record rtt_inv (lo hi : Z) (r : quic_rtt_t) : Prop := {
  ri_first : first_sample r = true;
  ri_min : min_rtt r = lo;
  ri_smoothed : lo <= smoothed_rtt r <= hi;
  ri_latest : lo <= latest_rtt r <= hi;
  ri_var : 0 <= rttvar r <= hi
}.

Lemma rtt_sample_first x d m : 0 <= x -> rtt_inv x x (quic_rtt_sample quic_rtt_init x d m).
Proof. intros. constructor; cbn; try done; dlia. Qed.

Lemma rtt_sample_inv lo hi r x d m :
  rtt_inv lo hi r -> 0 <= lo -> hi < 2 ^ 60 -> 0 <= x < 2 ^ 60 -> 0 <= d < 2 ^ 63 ->
  rtt_inv (Z.min lo x) (Z.max hi x) (quic_rtt_sample r x d m).
Proof.
  intros [Hf Hm Hs Hl Hv] Hlo Hhi Hx Hd. unfold quic_rtt_sample. rewrite Hf. cbn [negb].
  rewrite Hm. assert (Hmin : u64_min lo x = Z.min lo x) by (unfold u64_min; zcase; lia). rewrite Hmin.
  set (dl := if (0 <? m) && (m <? d) then m else d).
  assert (Hdl : 0 <= dl < 2 ^ 63).
  { unfold dl. destruct (Z.ltb_spec 0 m), (Z.ltb_spec m d); cbn; lia. }
  clearbody dl. rewrite (u64_small (Z.min lo x + dl)) by lia.
  set (a := if Z.min lo x + dl <=? x then u64 (x - dl) else x).
  assert (Ha : Z.min lo x <= a <= x).
  { unfold a. zcase; [rewrite u64_small|]; lia. }
  clearbody a.
  assert (Hab : 0 <= abs_diff (smoothed_rtt r) a <= Z.max hi x) by (unfold abs_diff; zcase; lia).
  rewrite (u64_small (3 * _)), (u64_small (7 * _)), !u64_small by (rewrite ?u64_small by lia; lia).
  constructor; cbn; try done; try lia; dlia.
Qed.

Definition rtt_run (samples : list (Z * Z * Z)) (r : quic_rtt_t) : quic_rtt_t :=
  foldl (fun r '(x, d, m) => quic_rtt_sample r x d m) r samples.

Definition sample_ok (s : Z * Z * Z) : Prop := let '(x, d, _) := s in 0 <= x < 2 ^ 60 /\ 0 <= d < 2 ^ 63.

Lemma rtt_run_inv samples : forall lo hi r,
  rtt_inv lo hi r -> 0 <= lo -> hi < 2 ^ 60 -> Forall sample_ok samples ->
  rtt_inv (foldl (fun a '(x, _, _) => Z.min a x) lo samples) (foldl (fun a '(x, _, _) => Z.max a x) hi samples)
    (rtt_run samples r).
Proof.
  induction samples as [|[[x d] m] samples IH]; intros lo hi r Hr Hlo Hhi Hs; cbn; [done|].
  apply Forall_cons_1 in Hs as [[Hx Hd] Hs]. apply IH; [|lia|lia|done]. by apply rtt_sample_inv.
Qed.

(** RTTs of less than 2^40 microseconds (twelve days) keep the loss delay and
    the backed-off probe timeout inside 64 bits. *)
Definition rtt_small (r : quic_rtt_t) : Prop :=
  first_sample r = true -> exists lo hi, rtt_inv lo hi r /\ 0 <= lo /\ hi < 2 ^ 40.

Lemma rtt_sample_small r x d m :
  rtt_small r -> 0 <= x < 2 ^ 40 -> 0 <= d < 2 ^ 63 -> rtt_small (quic_rtt_sample r x d m).
Proof.
  intros Hr Hx Hd _. destruct (first_sample r) eqn:Hf.
  - destruct (Hr Hf) as (lo & hi & Hi & ? & ?). exists (Z.min lo x), (Z.max hi x).
    split_and!; [apply rtt_sample_inv; [done|lia..]|lia|lia].
  - exists x, x. unfold quic_rtt_sample. rewrite Hf. split_and!; [constructor; cbn; try done; dlia|lia|lia].
Qed.

Lemma loss_delay_bounds r : rtt_small r -> 1000 <= loss_delay_us r < 2 ^ 62.
Proof.
  intros Hr. unfold loss_delay_us, QUIC_LOSS_GRANULARITY_US, QUIC_LOSS_TIME_THRESHOLD_NUM, QUIC_LOSS_TIME_THRESHOLD_DEN.
  destruct (first_sample r) eqn:Hf; cbn [negb]; [|lia].
  destruct (Hr Hf) as (lo & hi & [_ _ Hs Hl _] & ? & ?). set (b := u64_max _ (smoothed_rtt r)).
  assert (Hb : 0 <= b < 2 ^ 60) by (unfold b, u64_max; zcase; lia). clearbody b.
  rewrite u64_small by lia. unfold u64_max. zcase; dlia.
Qed.

(** ** One acknowledgement *)

Record loss_ok (l : quic_loss_t) : Prop := {
  lo_len : length (pkts l) = QUIC_LOSS_MAX_TRACKED;
  lo_slots : Forall slot_ok (pkts l);
  lo_count : ack_eliciting_in_flight l = ae_count (pkts l)
}.

Lemma slot_ok_sweep f ps : Forall slot_ok ps -> Forall slot_ok (sweep f ps).
Proof.
  intros H. apply List.Forall_map. eapply Forall_impl; [|exact H]. intros s Hs. by destruct (f s).
Qed.

Lemma sweep_sweep f g ps :
  (forall s, g (mark_unused s) = false) ->
  sweep g (sweep f ps) = sweep (fun s => f s || g s) ps.
Proof.
  intros Hg. unfold sweep. rewrite List.map_map. apply List.map_ext. intros s.
  destruct (f s); cbn; [by rewrite Hg|done].
Qed.

Lemma select_sweep f g ps :
  (forall s, g (mark_unused s) = false) ->
  select g (sweep f ps) = select (fun s => negb (f s) && g s) ps.
Proof.
  intros Hg. induction ps as [|s ps IH]; [done|]. rewrite sweep_cons, !select_cons, IH.
  destruct (f s); cbn; [by rewrite Hg|done].
Qed.

Lemma lost_by_unused la st s : lost_by la st (mark_unused s) = false.
Proof. done. Qed.

(** [detect_lost_inner] removes exactly the lost packets and reports them. *)
Lemma detect_lost_spec l rtt now cap :
  loss_ok l -> rtt_small rtt -> have_largest_acked l = true ->
  let delay := loss_delay_us rtt in
  let st := Z.max 0 (now - delay) in
  let '(l', n, out) := detect_lost_inner l rtt now cap in
  loss_ok l' /\ pkts l' = sweep (lost_by (largest_acked l) st) (pkts l) /\
  n = zlen (select (lost_by (largest_acked l) st) (pkts l)) /\
  out = take cap (map sp_pn (select (lost_by (largest_acked l) st) (pkts l))) /\
  earliest delay (largest_acked l) 0 (loss_time l') (pkts l') /\
  largest_acked l' = largest_acked l /\ have_largest_acked l' = true /\ pto_count l' = pto_count l /\
  time_of_last_ack_eliciting_sent l' = time_of_last_ack_eliciting_sent l.
Proof.
  intros [Hlen Hs Hc] Hr Hh. cbv zeta. unfold detect_lost_inner. rewrite Hh. cbn [negb].
  pose proof (loss_delay_bounds _ Hr) as Hd.
  replace (if loss_delay_us rtt <? now then now - loss_delay_us rtt else 0) with (Z.max 0 (now - loss_delay_us rtt))
    by (zcase; lia).
  destruct (lost_loop_spec (largest_acked l) (loss_delay_us rtt) (Z.max 0 (now - loss_delay_us rtt)) (pkts l)
    (ack_eliciting_in_flight l) 0 0) as (t & -> & Ht); [lia|lia|done|lia|lia|].
  cbn. split_and!; try done.
  - constructor; cbn; [unfold sweep; by rewrite length_map|by apply slot_ok_sweep|lia].
  - unfold zlen. by rewrite length_map.
Qed.

(** The largest newly acknowledged packet. *)
Definition from_slot (s : quic_sent_pkt_t) : largest_new := mk_new (sp_pn s) (sp_time_sent s) (sp_ack_eliciting s).

Lemma ack_loop_pick ranges ps : forall newly aeif new,
  let w := (ack_loop ranges ps newly aeif new).2 in
  (forall s, s ∈ ps -> acked_by ranges s = true -> exists v, w = Some v /\ sp_pn s <= ln_pn v) /\
  (forall v0, new = Some v0 -> exists v, w = Some v /\ ln_pn v0 <= ln_pn v) /\
  (w = new \/ exists s, s ∈ ps /\ acked_by ranges s = true /\ w = Some (from_slot s)).
Proof.
  induction ps as [|s ps IH]; intros newly aeif new; cbn [ack_loop].
  { cbn. split_and!; [intros ? []%elem_of_nil|intros v0 ->; by exists v0|by left]. }
  destruct (acked_by ranges s) eqn:Hs; unfold acked_by in Hs.
  - apply andb_true_iff in Hs as [Hu Hp]. rewrite Hu, Hp. cbn [negb]. set (new' := match new with Some _ => _ | None => _ end).
    assert (Hn : exists v, new' = Some v /\ sp_pn s <= ln_pn v /\ (forall v0, new = Some v0 -> ln_pn v0 <= ln_pn v) /\
      (new' = new \/ new' = Some (from_slot s))).
    { unfold new'. destruct new as [v0|]; [|exists (from_slot s); cbn; split_and!; try done; by right].
      zcase; [exists (from_slot s)|exists v0]; cbn; split_and!; try done; try lia; try (intros ? [= <-]; lia); auto. }
    clearbody new'. specialize (IH (newly + 1) (drop_in_flight s aeif) new').
    destruct (ack_loop _ _ _ _ new') as [[[ps1 n] a] w]. cbn in *. destruct IH as (I1 & I2 & I3).
    destruct Hn as (v & Hv & Hle & Hv0 & Hor). destruct (I2 v Hv) as (x & -> & Hx). split_and!.
    + intros s' [->|Hs']%elem_of_cons Ha; [exists x; split; [done|lia]|by apply I1].
    + intros v0 E. exists x. split; [done|]. specialize (Hv0 _ E). lia.
    + destruct I3 as [->|(s' & ? & ?)]; [|right; exists s'; split; [by right|done]].
      destruct Hor as [->| ->]; [by left|right]. exists s. unfold acked_by. rewrite Hu, Hp. split_and!; [by left|done|done].
  - assert (E : forall T (x y : T), (if negb (sp_used s) then x else if negb (pn_in_ranges (sp_pn s) ranges) then x else y) = x)
      by (intros; destruct (sp_used s); cbn in *; [by rewrite Hs|done]).
    rewrite E. specialize (IH newly aeif new). destruct (ack_loop _ _ _ _ new) as [[[ps1 n] a] w]. cbn in *.
    destruct IH as (I1 & I2 & I3). split_and!; [|done|].
    + intros s' [->|Hs']%elem_of_cons Ha; [unfold acked_by in Ha; congruence|by apply I1].
    + destruct I3 as [->|(s' & ? & ?)]; [by left|right; exists s'; split; [by right|done]].
Qed.

Lemma largest_hi_ge ranges : forall a, a <= largest_hi a ranges.
Proof. induction ranges as [|r rs IH]; intros a; cbn; [lia|]. pose proof (IH (rg_hi r)). pose proof (IH a). zcase; lia. Qed.

Lemma largest_hi_bound pn ranges : forall a,
  pn_in_ranges pn ranges = true -> pn <= largest_hi a ranges.
Proof.
  induction ranges as [|r rs IH]; intros a H; cbn in *; [done|].
  destruct ((rg_lo r <=? pn) && (pn <=? rg_hi r)) eqn:E; [|by apply IH].
  apply andb_true_iff in E as [_ E%Z.leb_le].
  zcase; pose proof (largest_hi_ge rs (rg_hi r)); pose proof (largest_hi_ge rs a); lia.
Qed.

Lemma acked_bound r0 rest s :
  acked_by (r0 :: rest) s = true -> sp_pn s <= largest_hi (rg_hi r0) rest.
Proof.
  unfold acked_by. intros [_ H]%andb_true_iff. cbn in H.
  destruct ((rg_lo r0 <=? sp_pn s) && (sp_pn s <=? rg_hi r0)) eqn:E; [|by apply largest_hi_bound].
  apply andb_true_iff in E as [_ E%Z.leb_le]. pose proof (largest_hi_ge rest (rg_hi r0)). lia.
Qed.

(** The RTT estimate after an ACK whose largest packet number is [largest]. *)
Definition rtt_after (rtt : quic_rtt_t) (new : option largest_new) (largest d m now : Z) : quic_rtt_t :=
  match new with
  | Some w =>
      if ln_eliciting w && (ln_pn w =? largest) then
        let latest := if ln_time w <? now then now - ln_time w else 0 in quic_rtt_sample rtt latest d m
      else rtt
  | None => rtt
  end.

Lemma on_ack_spec l rtt r0 rest d m now cap :
  let ranges := r0 :: rest in
  loss_ok l -> rtt_small rtt -> 0 <= now < 2 ^ 40 -> 0 <= d < 2 ^ 63 ->
  let largest := largest_hi (rg_hi r0) rest in
  let la := if have_largest_acked l then Z.max (largest_acked l) largest else largest in
  let r := quic_loss_on_ack l rtt ranges d m now cap in
  let st := Z.max 0 (now - loss_delay_us (ar_rtt r)) in
  let acked := acked_by ranges in
  let lost := fun s => negb (acked s) && lost_by la st s in
  let l' := ar_loss r in
  loss_ok l' /\ rtt_small (ar_rtt r) /\
  pkts l' = sweep (fun s => acked s || lost_by la st s) (pkts l) /\
  ar_newly_acked r = zlen (select acked (pkts l)) /\
  ar_lost_count r = zlen (select lost (pkts l)) /\
  ar_lost_pns r = take cap (map sp_pn (select lost (pkts l))) /\
  earliest (loss_delay_us (ar_rtt r)) la 0 (loss_time l') (pkts l') /\
  largest_acked l' = la /\ have_largest_acked l' = true /\
  pto_count l' = (if 0 <? ar_newly_acked r then 0 else pto_count l) /\
  time_of_last_ack_eliciting_sent l' = time_of_last_ack_eliciting_sent l /\
  ar_rtt r = rtt_after rtt (ack_loop ranges (pkts l) 0 (ack_eliciting_in_flight l) None).2 largest d m now.
Proof.
  intros ranges [Hlen Hs Hc] Hr Hnow Hd. cbv zeta. unfold quic_loss_on_ack, ranges. cbn iota. fold ranges.
  pose proof (ack_loop_pick ranges (pkts l) 0 (ack_eliciting_in_flight l) None) as Hpick. cbv zeta in Hpick.
  destruct (ack_loop_spec ranges (pkts l) 0 (ack_eliciting_in_flight l) 0 None) as [w E]; [lia|lia|].
  rewrite E in *. cbn [snd] in *. cbn beta iota.
  set (la := if negb (have_largest_acked l) || _ then _ else _).
  assert (Hla : la = if have_largest_acked l then Z.max (largest_acked l) (largest_hi (rg_hi r0) rest) else largest_hi (rg_hi r0) rest).
  { unfold la. destruct (have_largest_acked l); cbn; [zcase; lia|done]. }
  fold (rtt_after rtt w (largest_hi (rg_hi r0) rest) d m now). clearbody la. subst la.
  set (rtt' := rtt_after _ _ _ _ _ _).
  assert (Hr' : rtt_small rtt').
  { unfold rtt', rtt_after. destruct w as [w|]; [|done]. destruct (ln_eliciting w && _); [|done]. apply rtt_sample_small; [done| |done].
    destruct Hpick as (_ & _ & [?|(s & Hin & _ & [= ->])]); [done|]. cbn.
    pose proof (proj1 (list.Forall_forall _ _) Hs s Hin) as Hs0. unfold slot_ok in Hs0. zcase; lia. }
  clearbody rtt'. set (l1 := mk_loss _ _ _ _ _ _ _).
  pose proof (detect_lost_spec l1 rtt' now cap) as H. cbv zeta in H.
  destruct (detect_lost_inner l1 rtt' now cap) as [[l2 n] out]. cbn [ar_loss ar_rtt ar_newly_acked ar_lost_count ar_lost_pns].
  destruct H as (H1 & H2 & H3 & H4 & H5 & H6 & H7 & H8 & H9); [|done|done|].
  { constructor; cbn; [unfold sweep; by rewrite length_map|by apply slot_ok_sweep|lia]. }
  unfold l1 in *. cbn [pkts largest_acked pto_count time_of_last_ack_eliciting_sent] in *.
  rewrite sweep_sweep in H2 by done. rewrite select_sweep in H3, H4 by done.
  split_and!; try done. 
Qed.

(** ** Reachable trackers *)

Lemma find_free_some ps i : find_free ps = Some i -> exists s, ps !! i = Some s /\ sp_used s = false.
Proof.
  revert i. induction ps as [|s ps IH]; intros i H; cbn in H; [done|].
  destruct (sp_used s) eqn:Hu; cbn in H.
  - apply fmap_Some in H as (j & Hj & ->). by apply IH.
  - injection H as <-. by exists s.
Qed.

Lemma ae_count_insert ps i s p :
  ps !! i = Some s ->
  ae_count (<[i := p]> ps) = ae_count ps - (if outstanding s then 1 else 0) + (if outstanding p then 1 else 0).
Proof.
  revert i. induction ps as [|x ps IH]; intros [|i] H; try done.
  - injection H as ->. change (<[O := p]> (s :: ps)) with (p :: ps). rewrite !ae_count_cons. lia.
  - change (<[S i := p]> (x :: ps)) with (x :: <[i := p]> ps). rewrite !ae_count_cons, (IH i H). lia.
Qed.

Lemma sweep_count_nonzero f ps : ae_count (sweep f ps) <> 0 -> ae_count ps <> 0.
Proof.
  assert (H : ae_count (sweep f ps) <= ae_count ps); [|pose proof (ae_count_nonneg (sweep f ps)); lia].
  induction ps as [|s ps IH]; [done|]. rewrite sweep_cons, (ae_count_cons s ps).
  destruct (f s); rewrite ?mark_unused_count, ?ae_count_cons; destruct (outstanding s); lia.
Qed.

(** The trackers reachable without overfilling the table; a user of the tracker
    also sets [pto_count]. *)
Inductive loss_reach : quic_loss_t -> quic_rtt_t -> Prop :=
| lr_init : loss_reach quic_loss_init quic_rtt_init
| lr_sent l rtt pn now size ae fl :
    loss_reach l rtt -> find_free (pkts l) <> None -> 0 < now < 2 ^ 40 ->
    loss_reach (quic_loss_on_sent l pn now size ae fl) rtt
| lr_ack l rtt ranges d m now cap :
    loss_reach l rtt -> 0 <= now < 2 ^ 40 -> 0 <= d < 2 ^ 63 ->
    loss_reach (ar_loss (quic_loss_on_ack l rtt ranges d m now cap)) (ar_rtt (quic_loss_on_ack l rtt ranges d m now cap))
| lr_detect l rtt now cap :
    loss_reach l rtt -> 0 <= now < 2 ^ 40 -> loss_reach (quic_loss_detect_lost l rtt now cap).1.1 rtt
| lr_pto l rtt n :
    loss_reach l rtt -> 0 <= n < 2 ^ 32 ->
    loss_reach (mk_loss (pkts l) (largest_acked l) (have_largest_acked l) (loss_time l)
                  (time_of_last_ack_eliciting_sent l) n (ack_eliciting_in_flight l)) rtt.

Record loss_inv (l : quic_loss_t) (rtt : quic_rtt_t) : Prop := {
  li_ok : loss_ok l;
  li_rtt : rtt_small rtt;
  li_pto : 0 <= pto_count l;
  li_time : 0 <= time_of_last_ack_eliciting_sent l < 2 ^ 40;
  li_armed : ack_eliciting_in_flight l <> 0 -> 0 < time_of_last_ack_eliciting_sent l
}.

Lemma init_ok : loss_inv quic_loss_init quic_rtt_init.
Proof.
  constructor; cbn; try done. constructor; [done| |by vm_compute].
  apply Forall_replicate. unfold slot_ok. cbn. lia.
Qed.

Lemma on_sent_ok l rtt pn now size ae fl :
  loss_inv l rtt -> find_free (pkts l) <> None -> 0 < now < 2 ^ 40 ->
  loss_inv (quic_loss_on_sent l pn now size ae fl) rtt.
Proof.
  intros [[Hlen Hs Hc] Hr Hp Ht Ha] Hf Hn. unfold quic_loss_on_sent.
  destruct (find_free (pkts l)) as [i|] eqn:Hi; [|done]. apply find_free_some in Hi as (s & Hi & Hu).
  pose proof (ae_count_le (pkts l)) as Hle. unfold zlen in Hle. rewrite Hlen in Hle. unfold QUIC_LOSS_MAX_TRACKED in Hle.
  pose proof (ae_count_nonneg (pkts l)).
  set (p := mk_pkt _ _ _ _ _ _).
  assert (Hcnt : ae_count (<[i:=p]> (pkts l)) = ae_count (pkts l) + if ae then 1 else 0).
  { rewrite (ae_count_insert _ _ s) by done. unfold outstanding. rewrite Hu. cbn. destruct ae; lia. }
  assert (Hs' : Forall slot_ok (<[i:=p]> (pkts l))).
  { apply Forall_insert; [done|]. unfold slot_ok. cbn. lia. }
  destruct ae; constructor; cbn; try done; try lia; constructor; cbn; rewrite ?length_insert; try done.
  - rewrite u32_small; lia.
  - lia.
Qed.

Lemma on_ack_ok l rtt ranges d m now cap :
  loss_inv l rtt -> 0 <= now < 2 ^ 40 -> 0 <= d < 2 ^ 63 ->
  let r := quic_loss_on_ack l rtt ranges d m now cap in loss_inv (ar_loss r) (ar_rtt r).
Proof.
  intros [Hok Hr Hp Ht Ha] Hn Hd. destruct ranges as [|r0 rest]; [by constructor|].
  destruct (on_ack_spec l rtt r0 rest d m now cap Hok Hr Hn Hd) as
    (H1 & H2 & H3 & _ & _ & _ & _ & _ & _ & H10 & H11 & _). cbv zeta in *.
  constructor; try done.
  - rewrite H10. zcase; lia.
  - by rewrite H11.
  - rewrite H11. destruct H1 as [_ _ ->], Hok as [_ _ E']. rewrite H3. rewrite E' in Ha.
    intros Hne. apply Ha. by eapply sweep_count_nonzero.
Qed.

Lemma detect_ok l rtt now cap :
  loss_inv l rtt -> loss_inv (detect_lost_inner l rtt now cap).1.1 rtt.
Proof.
  intros [Hok Hr Hp Ht Ha]. destruct (have_largest_acked l) eqn:Hh.
  - pose proof (detect_lost_spec l rtt now cap Hok Hr Hh) as H. cbv zeta in H.
    destruct (detect_lost_inner l rtt now cap) as [[l' n] out]. cbn.
    destruct H as (H1 & H2 & _ & _ & _ & _ & _ & H8 & H9).
    constructor; [done|done|by rewrite H8|by rewrite H9|].
    rewrite H9. destruct H1 as [_ _ ->], Hok as [_ _ E']. rewrite H2. rewrite E' in Ha.
    intros Hne. apply Ha. by eapply sweep_count_nonzero.
  - unfold detect_lost_inner. rewrite Hh. destruct Hok. by constructor; [constructor|..].
Qed.

Lemma loss_reach_inv l rtt : loss_reach l rtt -> loss_inv l rtt.
Proof.
  induction 1 as [|l rtt pn now size ae fl _ IH Hf Hn|l rtt ranges d m now cap _ IH Hn Hd|l rtt now cap _ IH Hn|l rtt n _ IH Hn].
  - apply init_ok.
  - by apply on_sent_ok.
  - by apply on_ack_ok.
  - by apply detect_ok.
  - destruct IH as [[] ? ? ? ?]. constructor; try done. cbn. lia.
Qed.

(** The probe timeout interval before back-off. *)
Definition pto_base (rtt : quic_rtt_t) (m : Z) : Z :=
  if first_sample rtt then smoothed_rtt rtt + Z.max (4 * rttvar rtt) 1000 + m else 333000 + m.

Lemma pto_deadline_spec l rtt m :
  loss_inv l rtt -> 0 <= m < 2 ^ 40 ->
  quic_loss_pto_deadline l rtt m =
    if ae_count (pkts l) =? 0 then 0
    else time_of_last_ack_eliciting_sent l + pto_base rtt m * 2 ^ Z.min (pto_count l) 16.
Proof.
  intros [[_ _ Hc] Hr Hp Ht Ha] Hm. unfold quic_loss_pto_deadline. rewrite Hc in *.
  destruct (Z.eqb_spec (ae_count (pkts l)) 0) as [|Hne]; [done|]. specialize (Ha Hne).
  destruct (Z.eqb_spec (time_of_last_ack_eliciting_sent l) 0); [lia|].
  assert (Hb : (if quic_loss_pto_us rtt m =? 0 then u64 (333000 + m) else quic_loss_pto_us rtt m) = pto_base rtt m /\
    0 < pto_base rtt m < 2 ^ 44).
  { unfold quic_loss_pto_us, pto_base, QUIC_LOSS_GRANULARITY_US. destruct (first_sample rtt) eqn:Hf; cbn [negb].
    - destruct (Hr Hf) as (lo & hi & [_ _ Hs Hl Hv] & ? & ?).
      rewrite (u64_small (4 * _)) by lia.
      assert (E : u64_max (4 * rttvar rtt) 1000 = Z.max (4 * rttvar rtt) 1000) by (unfold u64_max; zcase; lia).
      rewrite E, u64_small by lia. zcase; lia.
    - cbn. rewrite u64_small by lia. lia. }
  destruct Hb as [-> Hb]. replace (if 16 <? pto_count l then 16 else pto_count l) with (Z.min (pto_count l) 16) by (zcase; lia).
  rewrite Z.shiftl_mul_pow2 by lia.
  assert (0 < 2 ^ Z.min (pto_count l) 16 <= 2 ^ 16) by (split; [apply Z.pow_pos_nonneg|apply Z.pow_le_mono_r]; lia).
  rewrite (u64_small (pto_base rtt m * _)), u64_small by nia. done.
Qed.

(** ** Properties *)

(** C35: [quic_loss_on_ack] settles every tracked packet correctly.  It frees
    exactly the slots whose packet number is in an acknowledged range or that
    are lost by RFC 9002 section 6.1 (three packets, or one loss delay, behind
    the largest acknowledged); its return value counts the first kind, the
    reported packet numbers are the second kind, no packet is reported as both,
    the loss timer is the earliest deadline of the packets still waiting, and
    the in-flight counter is the number of ack-eliciting packets left. *)
Theorem loss_on_ack_correct l rtt r0 rest d m now cap :
  loss_ok l -> rtt_small rtt -> 0 <= now < 2 ^ 40 -> 0 <= d < 2 ^ 63 ->
  let largest := largest_hi (rg_hi r0) rest in
  let la := if have_largest_acked l then Z.max (largest_acked l) largest else largest in
  let r := quic_loss_on_ack l rtt (r0 :: rest) d m now cap in
  let delay := loss_delay_us (ar_rtt r) in
  let acked := acked_by (r0 :: rest) in
  let lost := fun s => negb (acked s) && lost_by la (Z.max 0 (now - delay)) s in
  pkts (ar_loss r) = sweep (fun s => acked s || lost_by la (Z.max 0 (now - delay)) s) (pkts l) /\
  ar_newly_acked r = zlen (select acked (pkts l)) /\
  ar_lost_count r = zlen (select lost (pkts l)) /\
  ar_lost_pns r = take cap (map sp_pn (select lost (pkts l))) /\
  earliest delay la 0 (loss_time (ar_loss r)) (pkts (ar_loss r)) /\
  ack_eliciting_in_flight (ar_loss r) = ae_count (pkts (ar_loss r)).
Proof.
  intros Hl Hr Hn Hd.
  destruct (on_ack_spec l rtt r0 rest d m now cap Hl Hr Hn Hd) as ([_ _ Hc] & _ & H1 & H2 & H3 & H4 & H5 & _).
  split_and!; done.
Qed.

(** Packets 0 to 9, one per millisecond. *)
Definition ten_sent : quic_loss_t :=
  foldl (fun l i => quic_loss_on_sent l i (1000 * (i + 1)) 1200 true true) quic_loss_init (seqZ 0 10).

Lemma ten_sent_reach : loss_reach ten_sent quic_rtt_init.
Proof.
  unfold ten_sent. change (seqZ 0 10) with [0;1;2;3;4;5;6;7;8;9]. cbn [foldl].
  repeat (apply lr_sent; [|by vm_compute|lia]). apply lr_init.
Qed.

Lemma loss_on_ack_correct_witness :
  let r := quic_loss_on_ack ten_sent quic_rtt_init [mk_range 8 8; mk_range 6 6] 0 25000 11000 4 in
  ar_newly_acked r = 2 /\ ar_lost_count r = 7 /\ ar_lost_pns r = [0; 1; 2; 3] /\ ack_eliciting_in_flight (ar_loss r) = 1.
Proof.
  destruct (loss_reach_inv _ _ ten_sent_reach) as [Hok Hr _ _ _].
  pose proof (loss_on_ack_correct ten_sent quic_rtt_init (mk_range 8 8) [mk_range 6 6] 0 25000 11000 4 Hok Hr ltac:(lia) ltac:(lia)) as H.
  destruct H as (_ & H1 & H2 & H3 & _ & H4). vm_compute in H1, H2, H3, H4 |- *.
  split_and!; assumption.
Defined.

(** RTT samples are taken from the right packet (RFC 9002 section 5.1).
    When the largest packet number of the ACK is newly acknowledged, the
    estimator is fed [now - time_sent] of that packet if it is ack-eliciting and
    left alone otherwise; when it is not newly acknowledged there is no sample. *)
Theorem loss_rtt_sample l rtt r0 rest d m now cap :
  loss_ok l -> rtt_small rtt -> 0 <= now < 2 ^ 40 -> 0 <= d < 2 ^ 63 ->
  (forall s s', s ∈ pkts l -> s' ∈ pkts l -> sp_used s = true -> sp_used s' = true -> sp_pn s = sp_pn s' -> s = s') ->
  let largest := largest_hi (rg_hi r0) rest in
  let acked := acked_by (r0 :: rest) in
  let rtt' := ar_rtt (quic_loss_on_ack l rtt (r0 :: rest) d m now cap) in
  (forall s, s ∈ pkts l -> acked s = true -> sp_pn s = largest ->
     rtt' = if sp_ack_eliciting s then quic_rtt_sample rtt (Z.max 0 (now - sp_time_sent s)) d m else rtt) /\
  ((forall s, s ∈ pkts l -> acked s = true -> sp_pn s <> largest) -> rtt' = rtt).
Proof.
  intros Hl Hr Hn Hd Huniq. cbv zeta.
  destruct (on_ack_spec l rtt r0 rest d m now cap Hl Hr Hn Hd) as (_ & _ & _ & _ & _ & _ & _ & _ & _ & _ & _ & E).
  rewrite E. clear E.
  destruct (ack_loop_pick (r0 :: rest) (pkts l) 0 (ack_eliciting_in_flight l) None) as (P1 & _ & P3).
  destruct (ack_loop _ _ _ _ None) as [[[ps n] a] w]. cbn [snd] in *. unfold rtt_after. split.
  - intros s Hin Ha Hpn. destruct (P1 s Hin Ha) as (v & -> & Hle).
    destruct P3 as [?|(s' & Hin' & Ha' & [= ->])]; [done|]. cbn in *.
    pose proof (acked_bound _ _ _ Ha'). assert (s' = s) as ->.
    { apply andb_true_iff in Ha as [? _]. apply andb_true_iff in Ha' as [? _]. apply Huniq; try done. lia. }
    rewrite Hpn, Z.eqb_refl, andb_true_r. destruct (sp_ack_eliciting s); [|done]. f_equal. zcase; lia.
  - intros Hno. destruct w as [v|]; [|done]. destruct P3 as [?|(s & Hin & Ha & [= ->])]; [done|]. cbn.
    specialize (Hno s Hin Ha). apply Z.eqb_neq in Hno. by rewrite Hno, andb_false_r.
Qed.

Definition two_sent : quic_loss_t :=
  quic_loss_on_sent (quic_loss_on_sent quic_loss_init 0 1000 1200 true true) 1 2000 1200 true true.

Lemma loss_rtt_sample_witness :
  ar_rtt (quic_loss_on_ack two_sent quic_rtt_init [mk_range 0 1] 0 25000 12000 4) = mk_rtt 10000 10000 5000 10000 true.
Proof.
  assert (Hr : loss_reach two_sent quic_rtt_init) by (repeat (apply lr_sent; [|by vm_compute|lia]); apply lr_init).
  destruct (loss_reach_inv _ _ Hr) as [Hok Hs _ _ _].
  assert (Hm : forall s, s ∈ pkts two_sent -> sp_used s = true ->
    s = mk_pkt 0 1000 1200 true true true \/ s = mk_pkt 1 2000 1200 true true true).
  { intros s Hin Hu. change (pkts two_sent) with
      (mk_pkt 0 1000 1200 true true true :: mk_pkt 1 2000 1200 true true true :: replicate 254 empty_pkt) in Hin.
    apply elem_of_cons in Hin as [->|Hin]; [by left|]. apply elem_of_cons in Hin as [->|Hin]; [by right|].
    apply elem_of_replicate in Hin as [-> _]. discriminate Hu. }
  destruct (loss_rtt_sample two_sent quic_rtt_init (mk_range 0 1) [] 0 25000 12000 4 Hok Hs ltac:(lia) ltac:(lia)) as [H _].
  { intros s s' H1 H2 U1 U2. destruct (Hm s H1 U1) as [->| ->], (Hm s' H2 U2) as [->| ->]; cbn; congruence. }
  rewrite (H (mk_pkt 1 2000 1200 true true true)); [reflexivity| |reflexivity|reflexivity].
  change (pkts two_sent) with
      (mk_pkt 0 1000 1200 true true true :: mk_pkt 1 2000 1200 true true true :: replicate 254 empty_pkt).
  apply elem_of_cons. right. apply elem_of_cons. by left.
Defined.

(** The probe timer is armed exactly while an ack-eliciting packet is
    outstanding.  For every tracker reachable without overfilling the table,
    [quic_loss_pto_deadline] is 0 if no ack-eliciting packet is in the table,
    and otherwise the last ack-eliciting send time plus
    [smoothed + max(4*rttvar, 1ms) + max_ack_delay] (333 ms before the first
    sample) doubled [pto_count] times, at most 16; nothing wraps. *)
Theorem pto_armed_exactly l rtt m :
  loss_reach l rtt -> 0 <= m < 2 ^ 40 ->
  quic_loss_pto_deadline l rtt m =
    if ae_count (pkts l) =? 0 then 0
    else time_of_last_ack_eliciting_sent l + pto_base rtt m * 2 ^ Z.min (pto_count l) 16.
Proof. intros Hr Hm. apply pto_deadline_spec; [by apply loss_reach_inv|done]. Qed.

Lemma pto_armed_exactly_witness :
  quic_loss_pto_deadline ten_sent quic_rtt_init 25000 = 10000 + 358000.
Proof. rewrite (pto_armed_exactly ten_sent quic_rtt_init 25000 ten_sent_reach ltac:(lia)). reflexivity. Defined.

(** The RTT estimator stays within its samples.  After any non-empty
    sequence of samples, [min_rtt] is their minimum, [smoothed_rtt] lies between
    their minimum and maximum whatever acknowledgement delays the peer reports,
    and [rttvar] is at most their maximum. *)
Theorem rtt_estimator_bounds x0 d0 m0 samples :
  Forall sample_ok ((x0, d0, m0) :: samples) ->
  let r := rtt_run ((x0, d0, m0) :: samples) quic_rtt_init in
  let lo := foldl (fun a '(x, _, _) => Z.min a x) x0 samples in
  let hi := foldl (fun a '(x, _, _) => Z.max a x) x0 samples in
  min_rtt r = lo /\ lo <= smoothed_rtt r <= hi /\ 0 <= rttvar r <= hi.
Proof.
  intros [[Hx Hd] Hs]%Forall_cons_1. cbv zeta.
  destruct (rtt_run_inv samples x0 x0 (quic_rtt_sample quic_rtt_init x0 d0 m0)) as [_ H1 H2 _ H4];
    [apply rtt_sample_first; lia|lia|lia|done|]. done.
Qed.

Lemma rtt_estimator_bounds_witness :
  let r := rtt_run [(10000, 0, 0); (12000, 1000, 25000); (8000, 5000, 25000)] quic_rtt_init in
  min_rtt r = 8000 /\ 8000 <= smoothed_rtt r <= 12000.
Proof.
  destruct (rtt_estimator_bounds 10000 0 0 [(12000, 1000, 25000); (8000, 5000, 25000)]) as (H1 & H2 & _).
  { repeat (apply Forall_cons_2; [cbn; lia|]). apply Forall_nil_2. }
  exact (conj H1 H2).
Defined.

(** ** Overfilling the table

    When all 256 slots are in use, [quic_loss_on_sent] overwrites the oldest
    packet but still increments the counter. *)

Definition sent_n (n : Z) : quic_loss_t :=
  foldl (fun l i => quic_loss_on_sent l i (i + 1) 1200 true true) quic_loss_init (seqZ 0 n).

(** After 257 sends and an ACK of all of them the table is empty, but the
    counter is 1 and the probe timer stays armed. *)
Theorem full_tracker_leaks_counter :
  let r := quic_loss_on_ack (sent_n 257) quic_rtt_init [mk_range 0 256] 0 0 1000 0 in
  ae_count (pkts (ar_loss r)) = 0 /\ ack_eliciting_in_flight (ar_loss r) = 1 /\
  quic_loss_pto_deadline (ar_loss r) (ar_rtt r) 0 <> 0.
Proof. vm_compute. split_and!; [reflexivity|reflexivity|discriminate]. Qed.
