(* ===== verification/Special.v ===== *)
(** * QUIC stateless reset, version negotiation and idle timeout

    Models [userspace/quic/special.c] (RFC 9000 sections 10.1, 10.3, 17.2.1).
    The static [put_u8] and [put_bytes] of that file are the ones of
    [frames.c]: [Frames.put_u8] and [Frames.put_data]. *)

From Stdlib Require Import ZArith Lia.
From stdpp Require Import list numbers option.
From S2P Require Import Prelude Varint Frames.

Definition QUIC_STATELESS_RESET_MIN : Z := 22.
Definition QUIC_STATELESS_RESET_TOKEN_LEN : Z := 16.

(** The bytes written to [out]; [Fail] is the return value 0. *)
Definition quic_stateless_reset_build (cap : Z) (rand_buf : list Z) (rand_len : Z) (token : list Z) : res (list Z) :=
  if cap <? QUIC_STATELESS_RESET_MIN then Fail
  else
    let pad := cap - QUIC_STATELESS_RESET_TOKEN_LEN in
    if rand_len <? pad then Fail
    else
      let! r0 := rd rand_buf 0 in
      let! body := (if 1 <? pad then rdn (padd rand_buf 1) (pad - 1) else Ret []) in
      let! tok := rdn token QUIC_STATELESS_RESET_TOKEN_LEN in
      Ret (Z.lor 0x40 (Z.land r0 0x3f) :: body ++ tok).

(** [for (i = 0; i < n; i++) diff |= tail[i] ^ token[i];] *)
Fixpoint ct_diff (tail token : list Z) (i : Z) (k : nat) (diff : Z) : res Z :=
  match k with
  | O => Ret diff
  | S k' =>
      let! a := rd tail i in
      let! b := rd token i in
      ct_diff tail token (i + 1) k' (Z.lor diff (Z.lxor a b))
  end.

Definition quic_stateless_reset_match (pkt : list Z) (pkt_len : Z) (token : list Z) : res bool :=
  if pkt_len <? QUIC_STATELESS_RESET_TOKEN_LEN then Ret false
  else
    let tail := padd pkt (pkt_len - QUIC_STATELESS_RESET_TOKEN_LEN) in
    let! diff := ct_diff tail token 0 (Z.to_nat QUIC_STATELESS_RESET_TOKEN_LEN) 0 in
    Ret (diff =? 0).

Definition put_u32_be (cap : Z) (w : list Z) (v : Z) : option (list Z) :=
  if cap - zlen w <? 4 then None
  else Some (w ++ [u8 (Z.shiftr v 24); u8 (Z.shiftr v 16); u8 (Z.shiftr v 8); u8 v]).

Fixpoint put_versions (cap : Z) (w : list Z) (versions : list Z) : option (list Z) :=
  match versions with
  | [] => Some w
  | v :: vs => w ← put_u32_be cap w v; put_versions cap w vs
  end.

Definition quic_version_negotiation_build (cap byte0_low7 : Z) (client_dcid client_scid versions : list Z) : list Z :=
  if (20 <? zlen client_dcid) || (20 <? zlen client_scid) then []
  else if zlen versions =? 0 then []
  else
    finish (w ← put_u8 cap [] (u8 (Z.lor 0x80 (Z.land byte0_low7 0x7f)));
            w ← put_u32_be cap w 0;
            w ← put_u8 cap w (u8 (zlen client_scid));
            w ← put_data cap w client_scid;
            w ← put_u8 cap w (u8 (zlen client_dcid));
            w ← put_data cap w client_dcid;
            put_versions cap w versions).

Definition quic_idle_expired (last_recv_us idle_timeout_us now_us : Z) : bool :=
  if idle_timeout_us =? 0 then false
  else if now_us <? last_recv_us then false
  else idle_timeout_us <=? now_us - last_recv_us.

(** ** Lemmas *)

Lemma lor_eq_0 a b : Z.lor a b = 0 <-> a = 0 /\ b = 0.
Proof. apply Z.lor_eq_0_iff. Qed.

(** The accumulated difference is 0 exactly when the compared bytes agree. *)
Lemma ct_diff_spec (l1 l2 : list Z) : forall pre1 pre2 r1 r2 diff,
  length l1 = length l2 -> zlen pre1 = zlen pre2 ->
  exists d, ct_diff (pre1 ++ l1 ++ r1) (pre2 ++ l2 ++ r2) (zlen pre1) (length l1) diff = Ret d /\
    (d = 0 <-> diff = 0 /\ l1 = l2).
Proof.
  revert l2. induction l1 as [|a l1 IH]; intros [|b l2] pre1 pre2 r1 r2 diff Hl Hp; try done; cbn [length ct_diff].
  { exists diff. split; [done|]. split; [done|by intros [? _]]. }
  rewrite rd_app_r, (rd_app_r pre2), Hp, Z.sub_diag by lia. cbn [app]. rewrite !rd_cons_0. cbn [rbind].
  destruct (IH l2 (pre1 ++ [a]) (pre2 ++ [b]) r1 r2 (Z.lor diff (Z.lxor a b))) as (d & E & Hd).
  { by injection Hl. } { by rewrite !zlen_app, Hp. }
  exists d. rewrite <- !app_assoc in E. cbn [app] in E.
  replace (zlen (pre1 ++ [a])) with (zlen pre2 + 1) in E by (rewrite zlen_app, Hp; done).
  split; [exact E|]. rewrite Hd, lor_eq_0, Z.lxor_eq_0_iff. split; [intros [[-> ->] ->]; done|by intros [-> [= -> ->]]].
Qed.

Lemma match_spec pkt pkt_len token :
  zlen token = 16 -> 16 <= pkt_len <= zlen pkt ->
  quic_stateless_reset_match pkt pkt_len token =
    Ret (bool_decide (ztake 16 (padd pkt (pkt_len - 16)) = token)).
Proof.
  intros Ht Hp. unfold quic_stateless_reset_match, QUIC_STATELESS_RESET_TOKEN_LEN.
  destruct (Z.ltb_spec pkt_len 16); [lia|]. set (tail := padd pkt (pkt_len - 16)).
  assert (Hl : zlen (ztake 16 tail) = 16) by (rewrite zlen_ztake by lia; unfold tail; rewrite zlen_padd by lia; lia).
  destruct (ct_diff_spec (ztake 16 tail) token [] [] (padd tail 16) [] 0) as (d & E & Hd).
  { unfold zlen in *. lia. } { done. }
  cbn [app] in E. rewrite app_nil_r in E. unfold ztake, padd in E. rewrite take_drop in E.
  fold (ztake 16 tail) in E. replace (length (ztake 16 tail)) with (Z.to_nat 16) in E by (unfold zlen in Hl; lia).
  change (zlen []) with 0 in E. rewrite E. cbn [rbind]. f_equal.
  destruct (Z.eqb_spec d 0) as [->|Hne]; symmetry.
  - apply bool_decide_eq_true. by apply Hd.
  - apply bool_decide_eq_false. intros E'. apply Hne, Hd. done.
Qed.

Lemma put_u32_be_data cap w v :
  put_u32_be cap w v = put_data cap w (be_bytes 4 v).
Proof.
  unfold put_u32_be, put_data. rewrite zlen_be_bytes. change (Z.of_nat 4) with 4. zcase; [done|].
  do 2 f_equal. rewrite !Z.shiftr_div_pow2 by lia. unfold u8. cbn [be_bytes].
  change (256 ^ Z.of_nat 3) with (2 ^ 24). change (256 ^ Z.of_nat 2) with (2 ^ 16).
  change (256 ^ Z.of_nat 1) with (2 ^ 8). change (256 ^ Z.of_nat 0) with 1. by rewrite Z.div_1_r.
Qed.

Lemma put_data_fits cap w l w' : put_data cap w l = Some w' -> zlen w' <= cap.
Proof.
  unfold put_data. intros E. zcase_in E; [done|]. injection E as <-. rewrite zlen_app. lia.
Qed.

Lemma put_versions_data versions : forall cap w,
  zlen w <= cap -> put_versions cap w versions = put_data cap w (concat (map (be_bytes 4) versions)).
Proof.
  induction versions as [|v vs IH]; intros cap w Hw; cbn [put_versions map concat].
  - unfold put_data. rewrite zlen_nil, app_nil_r. by destruct (Z.ltb_spec (cap - zlen w) 0); [lia|].
  - rewrite put_u32_be_data, <- put_data_bind. destruct (put_data cap w (be_bytes 4 v)) eqn:E; cbn; [|done].
    apply IH. by eapply put_data_fits.
Qed.

(** The version-negotiation packet of RFC 9000 section 17.2.1. *)
Definition vn_packet (byte0 : Z) (dcid scid versions : list Z) : list Z :=
  [byte0] ++ be_bytes 4 0 ++ [zlen scid] ++ scid ++ [zlen dcid] ++ dcid ++ concat (map (be_bytes 4) versions).

Lemma vn_build_spec cap b dcid scid versions :
  zlen dcid <= 20 -> zlen scid <= 20 -> versions <> [] -> 0 <= cap ->
  quic_version_negotiation_build cap b dcid scid versions =
    (let p := vn_packet (u8 (Z.lor 0x80 (Z.land b 0x7f))) dcid scid versions in if zlen p <=? cap then p else []).
Proof.
  intros Hd Hs Hv Hc. unfold quic_version_negotiation_build.
  pose proof (zlen_nonneg dcid). pose proof (zlen_nonneg scid).
  destruct (Z.ltb_spec 20 (zlen dcid)), (Z.ltb_spec 20 (zlen scid)); cbn [orb]; try lia.
  destruct (Z.eqb_spec (zlen versions) 0) as [E|_].
  { destruct versions; [done|]. rewrite zlen_cons in E. pose proof (zlen_nonneg versions). lia. }
  rewrite (u8_small (zlen scid)), (u8_small (zlen dcid)) by (unfold byte_ok; lia).
  cbv zeta. rewrite <- finish_put. f_equal. unfold vn_packet.
  rewrite <- !put_data_bind, !put_u8_field.
  destruct (put_data cap [] _) as [w1|] eqn:E1; [|done]. cbn [mbind option_bind].
  rewrite put_u32_be_data, <- !put_data_bind. destruct (put_data cap w1 _) as [w2|] eqn:E2; [|done]. cbn [mbind option_bind].
  rewrite put_u8_field, <- !put_data_bind. destruct (put_data cap w2 _) as [w3|] eqn:E3; [|done]. cbn [mbind option_bind].
  rewrite <- !put_data_bind. destruct (put_data cap w3 _) as [w4|] eqn:E4; [|done]. cbn [mbind option_bind].
  rewrite put_u8_field, <- !put_data_bind. destruct (put_data cap w4 _) as [w5|] eqn:E5; [|done]. cbn [mbind option_bind].
  rewrite <- !put_data_bind. destruct (put_data cap w5 _) as [w6|] eqn:E6; [|done]. cbn [mbind option_bind].
  apply put_versions_data. by eapply put_data_fits.
Qed.

(** ** Properties *)

(** Stateless resets are recognised by their token and by nothing else.
    [quic_stateless_reset_match] never reads outside the packet or the token and
    answers true exactly when the last 16 bytes equal the token, so a reset that
    [quic_stateless_reset_build] wrote (of the requested size, and looking like
    a short-header packet) matches a 16-byte token iff it is the one it was
    built with. *)
Theorem stateless_reset_detected cap rand token token' :
  22 <= cap -> cap - 16 <= zlen rand -> Forall byte_ok rand -> zlen token = 16 -> zlen token' = 16 ->
  exists pkt, quic_stateless_reset_build cap rand (zlen rand) token = Ret pkt /\
    zlen pkt = cap /\ (exists b, rd pkt 0 = Ret b /\ b / 64 = 1) /\
    quic_stateless_reset_match pkt cap token' = Ret (bool_decide (token = token')).
Proof.
  intros Hc Hr Hb Ht Ht'. unfold quic_stateless_reset_build, QUIC_STATELESS_RESET_MIN, QUIC_STATELESS_RESET_TOKEN_LEN.
  destruct (Z.ltb_spec cap 22); [lia|]. destruct (Z.ltb_spec (zlen rand) (cap - 16)); [lia|].
  destruct (rd_in_bounds rand 0 ltac:(lia)) as (r0 & E0 & _). rewrite E0. cbn [rbind].
  destruct (Z.ltb_spec 1 (cap - 16)); [|lia].
  assert (E1 : rdn (padd rand 1) (cap - 16 - 1) = Ret (ztake (cap - 17) (padd rand 1))).
  { unfold rdn. rewrite zlen_padd by lia. zcase; [f_equal; f_equal; lia|lia]. }
  assert (E2 : rdn token 16 = Ret token) by (unfold rdn; rewrite Ht; cbn; by rewrite ztake_all by lia).
  rewrite E1, E2. cbn [rbind]. set (body := ztake (cap - 17) (padd rand 1)).
  assert (Hbody : zlen body = cap - 17) by (unfold body; rewrite zlen_ztake, zlen_padd by lia; lia).
  clearbody body. eexists. split; [reflexivity|].
  assert (Hl : zlen (Z.lor 64 (Z.land r0 63) :: body ++ token) = cap) by (rewrite zlen_cons, zlen_app; lia).
  split_and!; [done| |].
  - eexists. split; [apply rd_cons_0|]. pose proof (rd_byte _ _ _ Hb E0) as Hr0. unfold byte_ok in Hr0.
    rewrite land_3f. change 64 with (1 * 2 ^ 6) at 1. rewrite lor_disjoint by dlia. dlia.
  - rewrite match_spec by lia. f_equal. apply bool_decide_ext.
    change (Z.lor 64 (Z.land r0 63) :: body ++ token) with ((Z.lor 64 (Z.land r0 63) :: body) ++ token).
    rewrite padd_app by (rewrite zlen_cons; lia). by rewrite ztake_all by lia.
Qed.

Lemma stateless_reset_detected_witness :
  exists pkt, quic_stateless_reset_build 22 (replicate 6 255) 6 (replicate 16 7) = Ret pkt /\
    quic_stateless_reset_match pkt 22 (replicate 16 7) = Ret true.
Proof.
  destruct (stateless_reset_detected 22 (replicate 6 255) (replicate 16 7) (replicate 16 7)) as (pkt & E & _ & _ & M);
    [lia|vm_compute; discriminate| |reflexivity|reflexivity|].
  - apply Forall_replicate. unfold byte_ok. lia.
  - exists pkt. split; [exact E|]. exact M.
Defined.

(** A version-negotiation packet has the layout of RFC 9000 section 17.2.1.
    For connection ids of at most 20 bytes and at least one version,
    [quic_version_negotiation_build] writes exactly the long-header byte, the
    zero version, the two connection ids swapped and length-prefixed and the
    versions big-endian, or nothing when that does not fit. *)
Theorem version_negotiation_layout cap b dcid scid versions :
  zlen dcid <= 20 -> zlen scid <= 20 -> versions <> [] -> 0 <= cap ->
  quic_version_negotiation_build cap b dcid scid versions =
    (let p := vn_packet (u8 (Z.lor 0x80 (Z.land b 0x7f))) dcid scid versions in if zlen p <=? cap then p else []).
Proof. apply vn_build_spec. Qed.

Lemma version_negotiation_layout_witness :
  quic_version_negotiation_build 64 0x15 [1; 2] [3] [1; 0x6b3343cf] =
    [0x95; 0; 0; 0; 0; 1; 3; 2; 1; 2; 0; 0; 0; 1; 0x6b; 0x33; 0x43; 0xcf].
Proof.
  rewrite (version_negotiation_layout 64 0x15 [1; 2] [3] [1; 0x6b3343cf]);
    [reflexivity|vm_compute; discriminate|vm_compute; discriminate|discriminate|lia].
Defined.
