(* ===== verification/Sha256.v ===== *)
(** * SHA-256

    [userspace/crypto/sha256.c], [sha256_shani.c] and [sha256_armv8.c]: the
    streaming hash over three compression functions.  The scalar one is the
    text of FIPS 180-4; the two others are written with the SHA instructions of
    x86 and of Armv8, whose definitions are those of the vendors' manuals.  The
    theorems show that the three agree and that hashing a message in any number
    of pieces gives the digest of the padded message. *)

From Stdlib Require Import ZArith Lia Btauto.
From stdpp Require Import list numbers option.
From S2P Require Import Prelude Util Words Chacha Aes.

Definition SHA256_DIGEST_LEN : Z := 32.
Definition SHA256_BLOCK_LEN : Z := 64.

Definition K : list Z :=
  concat [
    [0x428a2f98; 0x71374491; 0xb5c0fbcf; 0xe9b5dba5]; [0x3956c25b; 0x59f111f1; 0x923f82a4; 0xab1c5ed5];
    [0xd807aa98; 0x12835b01; 0x243185be; 0x550c7dc3]; [0x72be5d74; 0x80deb1fe; 0x9bdc06a7; 0xc19bf174];
    [0xe49b69c1; 0xefbe4786; 0x0fc19dc6; 0x240ca1cc]; [0x2de92c6f; 0x4a7484aa; 0x5cb0a9dc; 0x76f988da];
    [0x983e5152; 0xa831c66d; 0xb00327c8; 0xbf597fc7]; [0xc6e00bf3; 0xd5a79147; 0x06ca6351; 0x14292967];
    [0x27b70a85; 0x2e1b2138; 0x4d2c6dfc; 0x53380d13]; [0x650a7354; 0x766a0abb; 0x81c2c92e; 0x92722c85];
    [0xa2bfe8a1; 0xa81a664b; 0xc24b8b70; 0xc76c51a3]; [0xd192e819; 0xd6990624; 0xf40e3585; 0x106aa070];
    [0x19a4c116; 0x1e376c08; 0x2748774c; 0x34b0bcb5]; [0x391c0cb3; 0x4ed8aa4a; 0x5b9cca4f; 0x682e6ff3];
    [0x748f82ee; 0x78a5636f; 0x84c87814; 0x8cc70208]; [0x90befffa; 0xa4506ceb; 0xbef9a3f7; 0xc67178f2]].

Definition rotr32 (x n : Z) : Z := Z.lor (Z.shiftr x n) (u32 (Z.shiftl x (32 - n))).
Definition big_sigma0 (x : Z) : Z := Z.lxor (Z.lxor (rotr32 x 2) (rotr32 x 13)) (rotr32 x 22).
Definition big_sigma1 (x : Z) : Z := Z.lxor (Z.lxor (rotr32 x 6) (rotr32 x 11)) (rotr32 x 25).
Definition small_sigma0 (x : Z) : Z := Z.lxor (Z.lxor (rotr32 x 7) (rotr32 x 18)) (Z.shiftr x 3).
Definition small_sigma1 (x : Z) : Z := Z.lxor (Z.lxor (rotr32 x 17) (rotr32 x 19)) (Z.shiftr x 10).
Definition Ch (x y z : Z) : Z := Z.lxor (Z.land x y) (Z.land (u32 (Z.lnot x)) z).
Definition Maj (x y z : Z) : Z := Z.lxor (Z.lxor (Z.land x y) (Z.land x z)) (Z.land y z).

Definition load_be32 : list Z -> Z -> res Z := rd32be.
Definition store_be32 : Z -> list Z := word_bytes.

(** [uint32_t state[8]], also the registers [a] to [h]. *)
Record work := mk_work { wa : Z; wb : Z; wc : Z; wd : Z; we : Z; wf : Z; wg : Z; wh : Z }.

(** ** The scalar compression function *)

(** [for (i = 0; i < 16; i++) w[i] = load_be32(block + i * 4);] from [i] on. *)
Fixpoint load_be (p : list Z) (off : Z) (n : nat) : res (list Z) :=
  match n with
  | O => Ret []
  | S n' => let! w := load_be32 p off in let! ws := load_be p (off + 4) n' in Ret (w :: ws)
  end.

(** [w[i]] for the next [i]. *)
Definition schedule_step (w : list Z) : list Z :=
  let i := length w in
  w ++ [u32 (small_sigma1 (nth (i - 2) w 0) + nth (i - 7) w 0 + small_sigma0 (nth (i - 15) w 0) + nth (i - 16) w 0)].

Definition round (s : work) (k w : Z) : work :=
  let '(mk_work a b c d e f g h) := s in
  let t1 := u32 (h + big_sigma1 e + Ch e f g + k + w) in
  let t2 := u32 (big_sigma0 a + Maj a b c) in
  mk_work (u32 (t1 + t2)) a b c (u32 (d + t1)) e f g.

Definition add_state (s r : work) : work :=
  mk_work (add32 (wa s) (wa r)) (add32 (wb s) (wb r)) (add32 (wc s) (wc r)) (add32 (wd s) (wd r))
    (add32 (we s) (we r)) (add32 (wf s) (wf r)) (add32 (wg s) (wg r)) (add32 (wh s) (wh r)).

Definition compress_one (state : work) (block : list Z) : res work :=
  let! w := load_be block 0 16 in
  let w := Nat.iter 48 schedule_step w in
  Ret (add_state state (foldl (fun s i => round s (nth i K 0) (nth i w 0)) state (seq 0 64))).

(** [for (i = 0; i < nblocks; i++)] *)
Fixpoint sha256_compress_scalar (state : work) (blocks : list Z) (nblocks : nat) : res work :=
  match nblocks with
  | O => Ret state
  | S n' => let! state := compress_one state blocks in sha256_compress_scalar state (padd blocks SHA256_BLOCK_LEN) n'
  end.

(** ** With the x86 SHA instructions

    Lane 0 of a register is its lowest 32 bits. *)

Definition lanes (a : vec) : list Z := [v0 a; v1 a; v2 a; v3 a].
Definition vec_of (l : list Z) : vec := mk_vec (nth 0 l 0) (nth 1 l 0) (nth 2 l 0) (nth 3 l 0).

(** [_mm_shuffle_epi32]: two bits of [imm] select each lane. *)
Definition shuffle_epi32 (a : vec) (imm : Z) : vec :=
  vec_of (map (fun i => nth (Z.to_nat (Z.land (Z.shiftr imm (2 * i)) 3)) (lanes a) 0) [0; 1; 2; 3]).

(** [_mm_alignr_epi8(a, b, n)] for a whole number of lanes. *)
Definition alignr_epi8 (a b : vec) (n : nat) : vec := vec_of (drop (n / 4) (lanes b ++ lanes a)).

(** [_mm_blend_epi16]: bit [2 i] of [imm] selects the low half of lane [i] and
    bit [2 i + 1] the high half. *)
Definition blend_lane (imm i x y : Z) : Z :=
  Z.lor (Z.land (if Z.testbit imm (2 * i) then y else x) 0xffff) (Z.land (if Z.testbit imm (2 * i + 1) then y else x) 0xffff0000).
Definition blend_epi16 (a b : vec) (imm : Z) : vec :=
  mk_vec (blend_lane imm 0 (v0 a) (v0 b)) (blend_lane imm 1 (v1 a) (v1 b)) (blend_lane imm 2 (v2 a) (v2 b)) (blend_lane imm 3 (v3 a) (v3 b)).

(** [_mm_loadu_si128] of sixteen bytes. *)
Definition load_vec (p : list Z) (off : Z) : res vec := let! w := load_words p off 4 in Ret (vec_of w).

(** [_mm_shuffle_epi8]: byte [i] of the result is byte [mask[i]] of [a]. *)
Definition shuffle_epi8 (a : vec) (mask : list Z) : vec :=
  let bytes := vec_bytes a in
  let r := map (fun m => if Z.testbit m 7 then 0 else nth (Z.to_nat (Z.land m 15)) bytes 0) mask in
  mk_vec (le_val (sub r 0 4)) (le_val (sub r 4 4)) (le_val (sub r 8 4)) (le_val (sub r 12 4)).

Definition bswap_mask : list Z := [3; 2; 1; 0; 7; 6; 5; 4; 11; 10; 9; 8; 15; 14; 13; 12].

(** [_mm_sha256rnds2_epu32]: two rounds; [a] holds C D G H, [b] holds A B E F,
    both from the highest lane down, and [k] the two sums of message word and
    constant. *)
Definition rnds2_step (s : work) (wk : Z) : work :=
  let '(mk_work a b c d e f g h) := s in
  mk_work (u32 (Ch e f g + big_sigma1 e + wk + h + Maj a b c + big_sigma0 a)) a b c (u32 (Ch e f g + big_sigma1 e + wk + h + d)) e f g.
Definition sha256rnds2 (a b k : vec) : vec :=
  let s := mk_work (v3 b) (v2 b) (v3 a) (v2 a) (v1 b) (v0 b) (v1 a) (v0 a) in
  let s := rnds2_step (rnds2_step s (v0 k)) (v1 k) in
  mk_vec (wf s) (we s) (wb s) (wa s).

(** [_mm_sha256msg1_epu32] and [_mm_sha256msg2_epu32] *)
Definition sha256msg1 (a b : vec) : vec :=
  mk_vec (add32 (v0 a) (small_sigma0 (v1 a))) (add32 (v1 a) (small_sigma0 (v2 a))) (add32 (v2 a) (small_sigma0 (v3 a))) (add32 (v3 a) (small_sigma0 (v0 b))).
Definition sha256msg2 (a b : vec) : vec :=
  let w16 := add32 (v0 a) (small_sigma1 (v2 b)) in
  let w17 := add32 (v1 a) (small_sigma1 (v3 b)) in
  let w18 := add32 (v2 a) (small_sigma1 w16) in
  let w19 := add32 (v3 a) (small_sigma1 w17) in
  mk_vec w16 w17 w18 w19.

Definition K_packed : list Z :=
  concat [
    [0x428a2f98; 0x71374491; 0xb5c0fbcf; 0xe9b5dba5]; [0x3956c25b; 0x59f111f1; 0x923f82a4; 0xab1c5ed5];
    [0xd807aa98; 0x12835b01; 0x243185be; 0x550c7dc3]; [0x72be5d74; 0x80deb1fe; 0x9bdc06a7; 0xc19bf174];
    [0xe49b69c1; 0xefbe4786; 0x0fc19dc6; 0x240ca1cc]; [0x2de92c6f; 0x4a7484aa; 0x5cb0a9dc; 0x76f988da];
    [0x983e5152; 0xa831c66d; 0xb00327c8; 0xbf597fc7]; [0xc6e00bf3; 0xd5a79147; 0x06ca6351; 0x14292967];
    [0x27b70a85; 0x2e1b2138; 0x4d2c6dfc; 0x53380d13]; [0x650a7354; 0x766a0abb; 0x81c2c92e; 0x92722c85];
    [0xa2bfe8a1; 0xa81a664b; 0xc24b8b70; 0xc76c51a3]; [0xd192e819; 0xd6990624; 0xf40e3585; 0x106aa070];
    [0x19a4c116; 0x1e376c08; 0x2748774c; 0x34b0bcb5]; [0x391c0cb3; 0x4ed8aa4a; 0x5b9cca4f; 0x682e6ff3];
    [0x748f82ee; 0x78a5636f; 0x84c87814; 0x8cc70208]; [0x90befffa; 0xa4506ceb; 0xbef9a3f7; 0xc67178f2]].

Definition load_K (k : nat) : vec := vec_of (drop k K_packed).

(** Four rounds on the message words [m], from constant [k] on. *)
Definition quad (st : vec * vec) (m : vec) (k : nat) : vec * vec :=
  let '(state0, state1) := st in
  let msg := add_epi32 m (load_K k) in
  let state1 := sha256rnds2 state1 state0 msg in
  let msg := shuffle_epi32 msg 0x0E in
  let state0 := sha256rnds2 state0 state1 msg in
  (state0, state1).

(** [tmsg = alignr(cur, prev, 4); next += tmsg; next = msg2(next, cur);] *)
Definition next_quad (next prev cur : vec) : vec := sha256msg2 (add_epi32 next (alignr_epi8 cur prev 4)) cur.

(** The 64 rounds of one block on the packed state. *)
Definition shani_block (st : vec * vec) (msg0 msg1 msg2 msg3 : vec) : vec * vec :=
  let st := quad st msg0 0 in
  let st := quad st msg1 4 in let msg0 := sha256msg1 msg0 msg1 in
  let st := quad st msg2 8 in let msg1 := sha256msg1 msg1 msg2 in
  let st := quad st msg3 12 in let msg0 := next_quad msg0 msg2 msg3 in let msg2 := sha256msg1 msg2 msg3 in
  let st := quad st msg0 16 in let msg1 := next_quad msg1 msg3 msg0 in let msg3 := sha256msg1 msg3 msg0 in
  let st := quad st msg1 20 in let msg2 := next_quad msg2 msg0 msg1 in let msg0 := sha256msg1 msg0 msg1 in
  let st := quad st msg2 24 in let msg3 := next_quad msg3 msg1 msg2 in let msg1 := sha256msg1 msg1 msg2 in
  let st := quad st msg3 28 in let msg0 := next_quad msg0 msg2 msg3 in let msg2 := sha256msg1 msg2 msg3 in
  let st := quad st msg0 32 in let msg1 := next_quad msg1 msg3 msg0 in let msg3 := sha256msg1 msg3 msg0 in
  let st := quad st msg1 36 in let msg2 := next_quad msg2 msg0 msg1 in let msg0 := sha256msg1 msg0 msg1 in
  let st := quad st msg2 40 in let msg3 := next_quad msg3 msg1 msg2 in let msg1 := sha256msg1 msg1 msg2 in
  let st := quad st msg3 44 in let msg0 := next_quad msg0 msg2 msg3 in let msg2 := sha256msg1 msg2 msg3 in
  let st := quad st msg0 48 in let msg1 := next_quad msg1 msg3 msg0 in let msg3 := sha256msg1 msg3 msg0 in
  let st := quad st msg1 52 in let msg2 := next_quad msg2 msg0 msg1 in
  let st := quad st msg2 56 in let msg3 := next_quad msg3 msg1 msg2 in
  quad st msg3 60.

Fixpoint shani_loop (st : vec * vec) (blocks : list Z) (nblocks : nat) : res (vec * vec) :=
  match nblocks with
  | O => Ret st
  | S n' =>
      let! m0 := load_vec blocks 0 in
      let! m1 := load_vec blocks 16 in
      let! m2 := load_vec blocks 32 in
      let! m3 := load_vec blocks 48 in
      let '(s0, s1) := shani_block st (shuffle_epi8 m0 bswap_mask) (shuffle_epi8 m1 bswap_mask) (shuffle_epi8 m2 bswap_mask) (shuffle_epi8 m3 bswap_mask) in
      shani_loop (add_epi32 s0 (fst st), add_epi32 s1 (snd st)) (padd blocks SHA256_BLOCK_LEN) n'
  end.

Definition sha256_compress_shani (state : work) (blocks : list Z) (nblocks : nat) : res work :=
  let tmp := mk_vec (wa state) (wb state) (wc state) (wd state) in
  let state1 := mk_vec (we state) (wf state) (wg state) (wh state) in
  let tmp := shuffle_epi32 tmp 0xB1 in
  let state1 := shuffle_epi32 state1 0x1B in
  let state0 := alignr_epi8 tmp state1 8 in
  let state1 := blend_epi16 state1 tmp 0xF0 in
  let! (state0, state1) := shani_loop (state0, state1) blocks nblocks in
  let ta := shuffle_epi32 state0 0x1B in
  let tb := shuffle_epi32 state1 0x1B in
  let out0 := unpacklo_epi64 ta tb in
  let out1 := unpackhi_epi64 ta tb in
  Ret (mk_work (v0 out0) (v1 out0) (v2 out0) (v3 out0) (v0 out1) (v1 out1) (v2 out1) (v3 out1)).

(** ** With the Armv8 SHA instructions *)

(** The operations of the Arm architecture reference manual. *)
Definition SHAchoose (x y z : Z) : Z := Z.lxor (Z.land (Z.lxor y z) x) z.
Definition SHAmajority (x y z : Z) : Z := Z.lor (Z.land x y) (Z.land (Z.lor x y) z).

(** One step of [SHA256hash] on the eight words of [Y:X], and its rotation. *)
Definition arm_step (xy : vec * vec) (w : Z) : vec * vec :=
  let '(x, y) := xy in
  let chs := SHAchoose (v0 y) (v1 y) (v2 y) in
  let maj := SHAmajority (v0 x) (v1 x) (v2 x) in
  let t := u32 (v3 y + big_sigma1 (v0 y) + chs + w) in
  let x3 := u32 (t + v3 x) in
  let y3 := u32 (t + big_sigma0 (v0 x) + maj) in
  (mk_vec y3 (v0 x) (v1 x) (v2 x), mk_vec x3 (v0 y) (v1 y) (v2 y)).
Definition SHA256hash (x y w : vec) : vec * vec := foldl arm_step (x, y) (lanes w).

Definition vsha256hq_u32 (abcd efgh wk : vec) : vec := fst (SHA256hash abcd efgh wk).
Definition vsha256h2q_u32 (efgh abcd wk : vec) : vec := snd (SHA256hash abcd efgh wk).

Definition vsha256su0q_u32 (x y : vec) : vec :=
  mk_vec (add32 (small_sigma0 (v1 x)) (v0 x)) (add32 (small_sigma0 (v2 x)) (v1 x)) (add32 (small_sigma0 (v3 x)) (v2 x)) (add32 (small_sigma0 (v0 y)) (v3 x)).
Definition vsha256su1q_u32 (x y z : vec) : vec :=
  let r0 := u32 (small_sigma1 (v2 z) + v0 x + v1 y) in
  let r1 := u32 (small_sigma1 (v3 z) + v1 x + v2 y) in
  let r2 := u32 (small_sigma1 r0 + v2 x + v3 y) in
  let r3 := u32 (small_sigma1 r1 + v3 x + v0 z) in
  mk_vec r0 r1 r2 r3.

(** The table [K] of this file. *)
Definition K_armv8 : list Z :=
  concat [
    [0x428a2f98; 0x71374491; 0xb5c0fbcf; 0xe9b5dba5]; [0x3956c25b; 0x59f111f1; 0x923f82a4; 0xab1c5ed5];
    [0xd807aa98; 0x12835b01; 0x243185be; 0x550c7dc3]; [0x72be5d74; 0x80deb1fe; 0x9bdc06a7; 0xc19bf174];
    [0xe49b69c1; 0xefbe4786; 0x0fc19dc6; 0x240ca1cc]; [0x2de92c6f; 0x4a7484aa; 0x5cb0a9dc; 0x76f988da];
    [0x983e5152; 0xa831c66d; 0xb00327c8; 0xbf597fc7]; [0xc6e00bf3; 0xd5a79147; 0x06ca6351; 0x14292967];
    [0x27b70a85; 0x2e1b2138; 0x4d2c6dfc; 0x53380d13]; [0x650a7354; 0x766a0abb; 0x81c2c92e; 0x92722c85];
    [0xa2bfe8a1; 0xa81a664b; 0xc24b8b70; 0xc76c51a3]; [0xd192e819; 0xd6990624; 0xf40e3585; 0x106aa070];
    [0x19a4c116; 0x1e376c08; 0x2748774c; 0x34b0bcb5]; [0x391c0cb3; 0x4ed8aa4a; 0x5b9cca4f; 0x682e6ff3];
    [0x748f82ee; 0x78a5636f; 0x84c87814; 0x8cc70208]; [0x90befffa; 0xa4506ceb; 0xbef9a3f7; 0xc67178f2]].

(** [SHA256_ROUND4(W, KBASE)] *)
Definition round4 (st : vec * vec) (w : vec) (kbase : nat) : vec * vec :=
  let '(abcd, efgh) := st in
  let wk := add_epi32 w (vec_of (drop kbase K_armv8)) in
  (vsha256hq_u32 abcd efgh wk, vsha256h2q_u32 efgh abcd wk).

(** [for (kbase = 16; kbase < 64; kbase += 4)], [n] rounds from [kbase] on. *)
Fixpoint arm_rounds (n kbase : nat) (st : vec * vec) (w0 w1 w2 w3 : vec) : vec * vec :=
  match n with
  | O => st
  | S n' =>
      let w_new := vsha256su0q_u32 w0 w1 in
      let w_new := vsha256su1q_u32 w_new w2 w3 in
      arm_rounds n' (kbase + 4) (round4 st w_new kbase) w1 w2 w3 w_new
  end.

(** [vreinterpretq_u32_u8(vrev32q_u8(vld1q_u8(p)))]: the bytes of each word in
    reverse. *)
Definition vrev32q_u8 (a : vec) : vec := lift1 (fun w => le_val (rev (store_le32 w))) a.

Definition arm_block (st : vec * vec) (w0 w1 w2 w3 : vec) : vec * vec :=
  let st := round4 st w0 0 in
  let st := round4 st w1 4 in
  let st := round4 st w2 8 in
  let st := round4 st w3 12 in
  arm_rounds 12 16 st w0 w1 w2 w3.

Fixpoint armv8_loop (st : vec * vec) (blocks : list Z) (nblocks : nat) : res (vec * vec) :=
  match nblocks with
  | O => Ret st
  | S n' =>
      let! m0 := load_vec blocks 0 in
      let! m1 := load_vec blocks 16 in
      let! m2 := load_vec blocks 32 in
      let! m3 := load_vec blocks 48 in
      let '(abcd, efgh) := arm_block st (vrev32q_u8 m0) (vrev32q_u8 m1) (vrev32q_u8 m2) (vrev32q_u8 m3) in
      armv8_loop (add_epi32 abcd (fst st), add_epi32 efgh (snd st)) (padd blocks SHA256_BLOCK_LEN) n'
  end.

Definition sha256_compress_armv8 (state : work) (blocks : list Z) (nblocks : nat) : res work :=
  let! (abcd, efgh) := armv8_loop (mk_vec (wa state) (wb state) (wc state) (wd state), mk_vec (we state) (wf state) (wg state) (wh state)) blocks nblocks in
  Ret (mk_work (v0 abcd) (v1 abcd) (v2 abcd) (v3 abcd) (v0 efgh) (v1 efgh) (v2 efgh) (v3 efgh)).

(** ** Dispatch and streaming *)

(** The function pointer [sha256_compress_fn]. *)
Inductive sha256_impl := Sha_scalar | Sha_ni | Sha_armv8.
Inductive machine := X86 | Aarch64 | Other.

Definition sha256_select_impl (m : machine) (x86_sha x86_sse41 arm_sha2 : bool) : sha256_impl :=
  match m with
  | X86 => if x86_sha && x86_sse41 then Sha_ni else Sha_scalar
  | Aarch64 => if arm_sha2 then Sha_armv8 else Sha_scalar
  | Other => Sha_scalar
  end.

Definition sha256_compress_fn (impl : sha256_impl) : work -> list Z -> nat -> res work :=
  match impl with Sha_scalar => sha256_compress_scalar | Sha_ni => sha256_compress_shani | Sha_armv8 => sha256_compress_armv8 end.

Record sha256_ctx := mk_sha { sc_state : work; sc_bitlen : Z; sc_buf : list Z; sc_buf_len : Z }.

Definition H0 : work := mk_work 0x6a09e667 0xbb67ae85 0x3c6ef372 0xa54ff53a 0x510e527f 0x9b05688c 0x1f83d9ab 0x5be0cd19.

(** [buf] keeps whatever the memory held. *)
Definition sha256_init (c : sha256_ctx) : sha256_ctx := mk_sha H0 0 (sc_buf c) 0.

(** Full blocks straight from the caller's buffer, and the remainder. *)
Definition update_bulk (impl : sha256_impl) (c : sha256_ctx) (p : list Z) (len : Z) : res sha256_ctx :=
  let! (c, p, len) :=
    (if SHA256_BLOCK_LEN <=? len then
       let nblocks := len / SHA256_BLOCK_LEN in
       let! st := sha256_compress_fn impl (sc_state c) p (Z.to_nat nblocks) in
       let consumed := nblocks * SHA256_BLOCK_LEN in
       Ret (mk_sha st (sc_bitlen c) (sc_buf c) (sc_buf_len c), padd p consumed, len - consumed)
     else Ret (c, p, len)) in
  if len =? 0 then Ret c
  else
    let! d := rdn p len in
    let! buf := blit (sc_buf c) 0 d in
    Ret (mk_sha (sc_state c) (sc_bitlen c) buf len).

Definition sha256_update (impl : sha256_impl) (c : sha256_ctx) (p : list Z) (len : Z) : res sha256_ctx :=
  let bitlen := u64 (sc_bitlen c + u64 (len * 8)) in
  if sc_buf_len c =? 0 then update_bulk impl (mk_sha (sc_state c) bitlen (sc_buf c) (sc_buf_len c)) p len
  else
    let need := SHA256_BLOCK_LEN - sc_buf_len c in
    if len <? need then
      let! d := rdn p len in
      let! buf := blit (sc_buf c) (sc_buf_len c) d in
      Ret (mk_sha (sc_state c) bitlen buf (sc_buf_len c + len))
    else
      let! d := rdn p need in
      let! buf := blit (sc_buf c) (sc_buf_len c) d in
      let! st := sha256_compress_fn impl (sc_state c) buf 1 in
      update_bulk impl (mk_sha st bitlen buf 0) (padd p need) (len - need).

Definition sha_zero : sha256_ctx := mk_sha (mk_work 0 0 0 0 0 0 0 0) 0 (replicate 64 0) 0.

Definition digest (s : work) : list Z :=
  concat (map store_be32 [wa s; wb s; wc s; wd s; we s; wf s; wg s; wh s]).

(** The digest, and the wiped context. *)
Definition sha256_final (impl : sha256_impl) (c : sha256_ctx) : res (list Z * sha256_ctx) :=
  let! buf := wr (sc_buf c) (sc_buf_len c) 0x80 in
  let buf_len := sc_buf_len c + 1 in
  let! (st, buf, buf_len) :=
    (if 56 <? buf_len then
       let! buf := blit buf buf_len (replicate (Z.to_nat (SHA256_BLOCK_LEN - buf_len)) 0) in
       let! st := sha256_compress_fn impl (sc_state c) buf 1 in
       Ret (st, buf, 0)
     else Ret (sc_state c, buf, buf_len)) in
  let! buf := blit buf buf_len (replicate (Z.to_nat (56 - buf_len)) 0) in
  let! buf := blit buf 56 (map (fun i => u8 (Z.shiftr (sc_bitlen c) (56 - Z.of_nat i * 8))) (seq 0 8)) in
  let! st := sha256_compress_fn impl st buf 1 in
  Ret (digest st, sha_zero).

(** The context is a local variable with arbitrary contents [c]. *)
Definition sha256 (impl : sha256_impl) (c : sha256_ctx) (data : list Z) (len : Z) : res (list Z) :=
  let! c := sha256_update impl (sha256_init c) data len in
  let! (out, _) := sha256_final impl c in
  Ret out.

Definition abc_digest : list Z :=
  [0xba;0x78;0x16;0xbf;0x8f;0x01;0xcf;0xea;0x41;0x41;0x40;0xde;0x5d;0xae;0x22;0x23;0xb0;0x03;0x61;0xa3;0x96;0x17;0x7a;0x9c;0xb4;0x10;0xff;0x61;0xf2;0x00;0x15;0xad].

Lemma abc_vector : Forall (fun impl => sha256 impl sha_zero [0x61; 0x62; 0x63] 3 = Ret abc_digest) [Sha_scalar; Sha_ni; Sha_armv8].
Proof. repeat constructor; by vm_compute. Qed.

(** ** Words *)

Definition w32 (x : Z) : Prop := 0 <= x < 2 ^ 32.
Definition work_ok (s : work) : Prop := w32 (wa s) /\ w32 (wb s) /\ w32 (wc s) /\ w32 (wd s) /\ w32 (we s) /\ w32 (wf s) /\ w32 (wg s) /\ w32 (wh s).

Lemma u32_w32 x : w32 (u32 x).
Proof. apply u32_range. Qed.

(** Equality of words: sums may wrap anywhere. *)
Definition eq32 (x y : Z) : Prop := u32 x = u32 y.

#[local] Instance eq32_equiv : Equivalence eq32.
Proof. split; unfold eq32; repeat intro; congruence. Qed.

#[local] Instance eq32_add : Proper (eq32 ==> eq32 ==> eq32) Z.add.
Proof. intros a b E c d E'. unfold eq32, u32 in *. by rewrite Z.add_mod, E, E', <- Z.add_mod. Qed.

Lemma eq32_u32 x : eq32 (u32 x) x.
Proof. unfold eq32, u32. by rewrite Z.mod_mod. Qed.

Lemma eq32_intro x y : eq32 x y -> u32 x = u32 y.
Proof. done. Qed.

Ltac sum32 := unfold add32; apply eq32_intro; rewrite ?eq32_u32; unfold eq32; f_equal; lia.

Lemma sha_round_ok s k w : work_ok s -> work_ok (round s k w).
Proof. destruct s. unfold work_ok. cbn. intros (? & ? & ? & ? & ? & ? & ? & ?). split_and!; (assumption || apply u32_w32). Qed.

Lemma add_state_ok s r : work_ok (add_state s r).
Proof. unfold work_ok. cbn. split_and!; apply u32_w32. Qed.

(** ** The message schedule *)

Definition expanded (m : list Z) : list Z := Nat.iter 48 schedule_step m.

Lemma iter_schedule n m : length (Nat.iter n schedule_step m) = (length m + n)%nat /\ take (length m) (Nat.iter n schedule_step m) = m.
Proof.
  induction n as [|n [IH1 IH2]]; [split; [cbn; lia|by apply take_ge]|]. rewrite Nat.iter_succ. unfold schedule_step at 1 3. cbv zeta. split.
  - rewrite length_app, IH1. cbn. lia.
  - rewrite take_app_le by lia. done.
Qed.

Lemma nth_schedule n k m t : (t < length m + n)%nat -> nth t (Nat.iter (n + k) schedule_step m) 0 = nth t (Nat.iter n schedule_step m) 0.
Proof.
  intros H. induction k as [|k IH]; [by rewrite Nat.add_0_r|]. rewrite Nat.add_succ_r, Nat.iter_succ. unfold schedule_step at 1. cbv zeta.
  rewrite app_nth1; [exact IH|]. destruct (iter_schedule (n + k) m). lia.
Qed.

(** The recurrence of the schedule. *)
Lemma W_rec m t :
  length m = 16%nat -> (16 <= t < 64)%nat ->
  nth t (expanded m) 0 =
  u32 (small_sigma1 (nth (t - 2) (expanded m) 0) + nth (t - 7) (expanded m) 0 + small_sigma0 (nth (t - 15) (expanded m) 0) + nth (t - 16) (expanded m) 0).
Proof.
  intros Hm Ht. unfold expanded. set (n := (t - 16)%nat).
  assert (E : forall j, (j <= t)%nat -> nth j (Nat.iter 48 schedule_step m) 0 = nth j (Nat.iter (S n) schedule_step m) 0).
  { intros j Hj. replace 48%nat with (S n + (48 - S n))%nat by lia. apply nth_schedule. lia. }
  rewrite !E by lia. rewrite !Nat.iter_succ. destruct (iter_schedule n m) as [Hl _]. unfold schedule_step at 1. cbv zeta.
  rewrite app_nth2 by lia. rewrite Hl, Hm. replace (t - (16 + n))%nat with 0%nat by lia. cbn [nth]. replace (16 + n)%nat with t by lia.
  assert (E2 : forall j, (j < t)%nat -> nth j (Nat.iter n schedule_step m) 0 = nth j (schedule_step (Nat.iter n schedule_step m)) 0).
  { intros j Hj. unfold schedule_step at 2. cbv zeta. rewrite app_nth1; [done|lia]. }
  by rewrite !E2 by lia.
Qed.

(** Four consecutive schedule words, and the rounds that use them. *)
Definition quad_at (w : list Z) (t : nat) : vec := mk_vec (nth t w 0) (nth (t + 1) w 0) (nth (t + 2) w 0) (nth (t + 3) w 0).

Definition step (w : list Z) (s : work) (i : nat) : work := round s (nth i K 0) (nth i w 0).
Definition four (w : list Z) (s : work) (t : nat) : work := foldl (step w) s (seq t 4).

Lemma four_ok w s t : work_ok s -> work_ok (four w s t).
Proof. intros. unfold four. cbn [seq foldl]. unfold step. by repeat apply sha_round_ok. Qed.

Lemma sixty_four w s : foldl (step w) s (seq 0 64) = foldl (four w) s (map (fun i => 4 * i)%nat (seq 0 16)).
Proof. reflexivity. Qed.

Lemma nth_shift k (l : list Z) i : nth i (drop k l) 0 = nth (k + i) l 0.
Proof. apply nth_skipn. Qed.

Lemma packed_K : K_packed = K /\ K_armv8 = K.
Proof. done. Qed.

Lemma wk_lanes w t kk :
  kk = K -> add_epi32 (quad_at w t) (vec_of (drop t kk)) =
  mk_vec (add32 (nth t w 0) (nth t K 0)) (add32 (nth (t + 1) w 0) (nth (t + 1) K 0)) (add32 (nth (t + 2) w 0) (nth (t + 2) K 0)) (add32 (nth (t + 3) w 0) (nth (t + 3) K 0)).
Proof. intros ->. unfold add_epi32, lift2, vec_of, quad_at. cbn [v0 v1 v2 v3]. rewrite !nth_shift, !Nat.add_0_r. done. Qed.

(** ** The x86 instructions *)

Definition pack0 (s : work) : vec := mk_vec (wf s) (we s) (wb s) (wa s).
Definition pack1 (s : work) : vec := mk_vec (wh s) (wg s) (wd s) (wc s).
Definition pack (s : work) : vec * vec := (pack0 s, pack1 s).

Lemma rnds2_step_ok s k w : rnds2_step s (add32 w k) = round s k w.
Proof. destruct s. cbn [rnds2_step round]. f_equal; sum32. Qed.

Lemma rnds2_ok s k k' w w' x y : sha256rnds2 (pack1 s) (pack0 s) (mk_vec (add32 w k) (add32 w' k') x y) = pack0 (round (round s k w) k' w').
Proof.
  unfold sha256rnds2. cbn [pack0 pack1 v0 v1 v2 v3]. rewrite !rnds2_step_ok. destruct s. reflexivity.
Qed.

Lemma pack_two s k k' w w' : pack0 s = pack1 (round (round s k w) k' w').
Proof. destruct s. reflexivity. Qed.

Lemma shuffle_lanes a b c d :
  shuffle_epi32 (mk_vec a b c d) 0x0E = mk_vec c d a a /\ shuffle_epi32 (mk_vec a b c d) 0xB1 = mk_vec b a d c /\ shuffle_epi32 (mk_vec a b c d) 0x1B = mk_vec d c b a.
Proof. done. Qed.

Lemma quad_ok w s t : quad (pack s) (quad_at w t) t = pack (four w s t).
Proof.
  unfold quad, pack, load_K. rewrite (wk_lanes w t) by apply packed_K. cbv zeta. rewrite rnds2_ok, (proj1 (shuffle_lanes _ _ _ _)).
  rewrite (pack_two s (nth t K 0) (nth (t + 1) K 0) (nth t w 0) (nth (t + 1) w 0)), rnds2_ok.
  unfold four. cbn [seq foldl]. unfold step. replace (S t) with (t + 1)%nat by lia. replace (S (t + 1)) with (t + 2)%nat by lia. replace (S (t + 2)) with (t + 3)%nat by lia.
  f_equal. apply pack_two.
Qed.

(** The next four schedule words from the last sixteen. *)
Lemma next_quad_ok m t :
  length m = 16%nat -> (t + 20 <= 64)%nat -> let w := expanded m in
  next_quad (sha256msg1 (quad_at w t) (quad_at w (t + 4))) (quad_at w (t + 8)) (quad_at w (t + 12)) = quad_at w (t + 16).
Proof.
  intros Hm Ht w. assert (R : forall j, (j < 4)%nat -> nth (t + 16 + j) w 0 =
    u32 (small_sigma1 (nth (t + 14 + j) w 0) + nth (t + 9 + j) w 0 + small_sigma0 (nth (t + 1 + j) w 0) + nth (t + j) w 0)).
  { intros j Hj. unfold w. rewrite W_rec by (done || lia). do 2 f_equal; [do 2 f_equal|]; repeat f_equal; lia. }
  pose proof (R 0%nat ltac:(lia)) as R0. pose proof (R 1%nat ltac:(lia)) as R1. pose proof (R 2%nat ltac:(lia)) as R2. pose proof (R 3%nat ltac:(lia)) as R3. clear R.
  unfold next_quad, sha256msg2, sha256msg1, add_epi32, lift2, alignr_epi8, quad_at, vec_of. cbn [v0 v1 v2 v3 lanes app drop nth Nat.div Nat.divmod fst].
  rewrite ?Nat.add_0_r, <- ?Nat.add_assoc in *. cbn [Nat.add] in *.
  assert (E0 : add32 (add32 (add32 (nth t w 0) (small_sigma0 (nth (t + 1) w 0))) (nth (t + 9) w 0)) (small_sigma1 (nth (t + 14) w 0)) = nth (t + 16) w 0) by (rewrite R0; sum32).
  assert (E1 : add32 (add32 (add32 (nth (t + 1) w 0) (small_sigma0 (nth (t + 2) w 0))) (nth (t + 10) w 0)) (small_sigma1 (nth (t + 15) w 0)) = nth (t + 17) w 0) by (rewrite R1; sum32).
  rewrite E0, E1. f_equal; [rewrite R2|rewrite R3]; sum32.
Qed.

Lemma shani_block_ok m s :
  length m = 16%nat -> let w := expanded m in
  shani_block (pack s) (quad_at w 0) (quad_at w 4) (quad_at w 8) (quad_at w 12) = pack (foldl (step w) s (seq 0 64)).
Proof.
  intros Hm w. rewrite sixty_four. cbn [map seq foldl Nat.mul Nat.add]. unfold shani_block.
  assert (N : forall t, (t + 20 <= 64)%nat -> next_quad (sha256msg1 (quad_at w t) (quad_at w (t + 4))) (quad_at w (t + 8)) (quad_at w (t + 12)) = quad_at w (t + 16)) by (intros t; by apply next_quad_ok).
  pose proof (N 0%nat ltac:(lia)) as N0. pose proof (N 4%nat ltac:(lia)) as N1. pose proof (N 8%nat ltac:(lia)) as N2. pose proof (N 12%nat ltac:(lia)) as N3.
  pose proof (N 16%nat ltac:(lia)) as N4. pose proof (N 20%nat ltac:(lia)) as N5. pose proof (N 24%nat ltac:(lia)) as N6. pose proof (N 28%nat ltac:(lia)) as N7.
  pose proof (N 32%nat ltac:(lia)) as N8. pose proof (N 36%nat ltac:(lia)) as N9. pose proof (N 40%nat ltac:(lia)) as N10. pose proof (N 44%nat ltac:(lia)) as N11.
  clear N. cbn [Nat.add] in *. cbv zeta. rewrite N0, N1, N2, N3, N4, N5, N6, N7, N8, N9, N10, N11. by rewrite !quad_ok.
Qed.

(** ** Loading a block *)

(** The big-endian words of a block. *)
Definition be_words (p : list Z) (n : nat) : list Z := map (fun i => be_acc 0 (sub p (4 * Z.of_nat i) 4)) (seq 0 n).

Lemma load_be_ok p n off :
  Forall byte_ok p -> 0 <= off -> off + 4 * Z.of_nat n <= zlen p -> load_be p off n = Ret (map (fun i => be_acc 0 (sub p (off + 4 * Z.of_nat i) 4)) (seq 0 n)).
Proof.
  intros Hp. revert off. induction n as [|n IH]; intros off H1 H2; [done|]. cbn [load_be]. unfold load_be32. rewrite rd32be_ok by (done || lia). ret. rewrite IH by lia. ret.
  cbn [seq map]. do 2 f_equal; [do 2 f_equal; lia|]. rewrite <- seq_shift, map_map. apply map_ext. intros i. do 2 f_equal. lia.
Qed.

Lemma length_be_words p n : length (be_words p n) = n.
Proof. unfold be_words. by rewrite length_map, length_seq. Qed.

Lemma nth_be_words p n i : (i < n)%nat -> nth i (be_words p n) 0 = be_acc 0 (sub p (4 * Z.of_nat i) 4).
Proof. intros H. unfold be_words. rewrite (nth_indep _ 0 ((fun i => be_acc 0 (sub p (4 * Z.of_nat i) 4)) 0%nat)) by (by rewrite length_map, length_seq). rewrite (map_nth (fun i => be_acc 0 (sub p (4 * Z.of_nat i) 4))), seq_nth by done. done. Qed.

Lemma nth_expanded m t : (t < length m)%nat -> nth t (expanded m) 0 = nth t m 0.
Proof. intros H. unfold expanded. exact (nth_schedule 0 48 m t ltac:(lia)). Qed.

(** A word by its bytes, in both orders. *)
Lemma word_reversed a b c d : Forall byte_ok [a; b; c; d] -> store_le32 (le_val [a; b; c; d]) = [a; b; c; d] /\ le_val [d; c; b; a] = be_acc 0 [a; b; c; d].
Proof. intros H. split; [rewrite store_le32_ok; by apply (le_bytes_val [a; b; c; d])|]. cbn [le_val be_acc]. lia. Qed.

(** Both byte reversals turn a loaded register into big-endian words. *)
Lemma load_vec_ok p off :
  Forall byte_ok p -> 0 <= off -> off + 16 <= zlen p ->
  exists a, load_vec p off = Ret a /\
    let v := mk_vec (be_acc 0 (sub p off 4)) (be_acc 0 (sub p (off + 4) 4)) (be_acc 0 (sub p (off + 8) 4)) (be_acc 0 (sub p (off + 12) 4)) in
    shuffle_epi8 a bswap_mask = v /\ vrev32q_u8 a = v.
Proof.
  intros Hp H1 H2. unfold load_vec. rewrite load_words_ok by (done || lia). ret. eexists. split; [reflexivity|]. unfold le_words, vec_of. cbn [seq map nth Z.of_nat].
  change (4 * Z.of_nat 0) with 0. rewrite Z.add_0_r. change (4 * Z.of_nat 1) with 4. change (4 * Z.of_nat 2) with 8. change (4 * Z.of_nat 3) with 12.
  assert (S4 : forall o, 0 <= o -> o + 4 <= zlen p -> exists a b c d, sub p o 4 = [a; b; c; d] /\ Forall byte_ok [a; b; c; d]).
  { intros o Ho Hl. destruct (rd_four p o Ho Hl) as (a & b & c & d & E & _). exists a, b, c, d. split; [done|]. rewrite <- E. auto with pico. }
  destruct (S4 off ltac:(lia) ltac:(lia)) as (a0 & a1 & a2 & a3 & -> & A). destruct (S4 (off + 4) ltac:(lia) ltac:(lia)) as (b0 & b1 & b2 & b3 & -> & B).
  destruct (S4 (off + 8) ltac:(lia) ltac:(lia)) as (c0 & c1 & c2 & c3 & -> & C). destruct (S4 (off + 12) ltac:(lia) ltac:(lia)) as (d0 & d1 & d2 & d3 & -> & D).
  destruct (word_reversed _ _ _ _ A) as [A1 A2], (word_reversed _ _ _ _ B) as [B1 B2], (word_reversed _ _ _ _ C) as [C1 C2], (word_reversed _ _ _ _ D) as [D1 D2].
  rewrite <- A2, <- B2, <- C2, <- D2. split.
  - unfold shuffle_epi8, vec_bytes. cbn [v0 v1 v2 v3]. rewrite A1, B1, C1, D1. reflexivity.
  - unfold vrev32q_u8, lift1. cbn [v0 v1 v2 v3]. rewrite A1, B1, C1, D1. reflexivity.
Qed.

(** The block as seen by the three implementations. *)
Lemma load_block p :
  Forall byte_ok p -> 64 <= zlen p -> let w := expanded (be_words p 16) in
  load_be p 0 16 = Ret (be_words p 16) /\
  exists a b c d, load_vec p 0 = Ret a /\ load_vec p 16 = Ret b /\ load_vec p 32 = Ret c /\ load_vec p 48 = Ret d /\
    (shuffle_epi8 a bswap_mask = quad_at w 0 /\ shuffle_epi8 b bswap_mask = quad_at w 4 /\ shuffle_epi8 c bswap_mask = quad_at w 8 /\ shuffle_epi8 d bswap_mask = quad_at w 12) /\
    (vrev32q_u8 a = quad_at w 0 /\ vrev32q_u8 b = quad_at w 4 /\ vrev32q_u8 c = quad_at w 8 /\ vrev32q_u8 d = quad_at w 12).
Proof.
  intros Hp Hl w. split; [by rewrite load_be_ok by (done || lia)|].
  assert (Q : forall t, (t + 3 < 16)%nat -> quad_at w t = let o := 4 * Z.of_nat t in mk_vec (be_acc 0 (sub p o 4)) (be_acc 0 (sub p (o + 4) 4)) (be_acc 0 (sub p (o + 8) 4)) (be_acc 0 (sub p (o + 12) 4))).
  { intros t Ht. unfold quad_at, w. rewrite !nth_expanded by (rewrite length_be_words; lia). rewrite !nth_be_words by lia. cbv zeta. f_equal; do 2 f_equal; lia. }
  destruct (load_vec_ok p 0 Hp ltac:(lia) ltac:(lia)) as (a & -> & A1 & A2). destruct (load_vec_ok p 16 Hp ltac:(lia) ltac:(lia)) as (b & -> & B1 & B2).
  destruct (load_vec_ok p 32 Hp ltac:(lia) ltac:(lia)) as (c & -> & C1 & C2). destruct (load_vec_ok p 48 Hp ltac:(lia) ltac:(lia)) as (d & -> & D1 & D2).
  exists a, b, c, d. rewrite !Q by lia. split_and!; assumption || reflexivity.
Qed.

(** ** The three compression functions agree *)

Definition compress (s : work) (b : list Z) : work := add_state s (foldl (step (expanded (be_words b 16))) s (seq 0 64)).

Lemma steps_ok w s l : work_ok s -> work_ok (foldl (step w) s l).
Proof. revert s. induction l as [|i l IH]; intros s Hs; [done|]. cbn [foldl]. apply IH. by apply sha_round_ok. Qed.

Lemma sub_ztake p n o k : 0 <= o -> 0 <= k -> o + k <= n -> sub (ztake n p) o k = sub p o k.
Proof. intros. unfold sub, ztake, padd. rewrite skipn_firstn_comm, take_take. f_equal. lia. Qed.

Lemma compress_block s p : compress s (ztake 64 p) = compress s p.
Proof.
  unfold compress. replace (be_words (ztake 64 p) 16) with (be_words p 16); [done|]. apply map_ext_in. intros i Hi%in_seq. by rewrite sub_ztake by lia.
Qed.

Lemma chunks_64 p : 64 <= zlen p -> chunks 64 p = ztake 64 p :: chunks 64 (padd p 64).
Proof.
  intros. rewrite <- (chunks_cons 64 (ztake 64 p)) by (lia || (rewrite length_ztake; lia)). unfold ztake, padd. by rewrite take_drop.
Qed.

Definition nblocks_at (p : list Z) (n : nat) : list (list Z) := chunks 64 (ztake (64 * Z.of_nat n) p).

Lemma nblocks_S p n : 64 * Z.of_nat (S n) <= zlen p -> nblocks_at p (S n) = ztake 64 p :: nblocks_at (padd p 64) n.
Proof.
  intros H. unfold nblocks_at. rewrite chunks_64 by (rewrite zlen_ztake; lia). f_equal.
  - unfold ztake. rewrite take_take. f_equal. lia.
  - f_equal. unfold ztake, padd. rewrite skipn_firstn_comm. f_equal. lia.
Qed.

Lemma compress_one_ok s p : Forall byte_ok p -> 64 <= zlen p -> compress_one s p = Ret (compress s p).
Proof. intros Hp Hl. unfold compress_one. destruct (load_block p Hp Hl) as (-> & _). ret. unfold compress, step, expanded. reflexivity. Qed.

Lemma compress_scalar_ok n : forall s p, Forall byte_ok p -> 64 * Z.of_nat n <= zlen p -> sha256_compress_scalar s p n = Ret (foldl compress s (nblocks_at p n)).
Proof.
  induction n as [|n IH]; intros s p Hp Hl; [done|]. cbn [sha256_compress_scalar]. rewrite compress_one_ok by (done || lia). ret.
  unfold SHA256_BLOCK_LEN. rewrite IH by (auto with pico; rewrite zlen_padd; lia). rewrite nblocks_S by lia. cbn [foldl]. by rewrite compress_block.
Qed.

(** x86 *)

Lemma shani_loop_ok n : forall s p, Forall byte_ok p -> 64 * Z.of_nat n <= zlen p -> shani_loop (pack s) p n = Ret (pack (foldl compress s (nblocks_at p n))).
Proof.
  induction n as [|n IH]; intros s p Hp Hl; [done|]. cbn [shani_loop].
  destruct (load_block p Hp ltac:(lia)) as (_ & a & b & c & d & -> & -> & -> & -> & (E0 & E1 & E2 & E3) & _). ret. rewrite E0, E1, E2, E3.
  rewrite shani_block_ok by apply length_be_words. rewrite nblocks_S by lia. cbn [foldl]. rewrite compress_block. unfold SHA256_BLOCK_LEN.
  rewrite <- IH by (auto with pico; rewrite zlen_padd; lia). unfold pack at 1. f_equal. unfold pack, compress, pack0, pack1, add_epi32, lift2, add_state. cbn [fst snd v0 v1 v2 v3 wa wb wc wd we wf wg wh].
  unfold add32. f_equal; f_equal; f_equal; lia.
Qed.

Lemma blend_same imm i x y (b : bool) : Z.testbit imm (2 * i) = b -> Z.testbit imm (2 * i + 1) = b -> w32 x -> w32 y -> blend_lane imm i x y = if b then y else x.
Proof.
  intros E1 E2 Hx Hy. unfold blend_lane. rewrite E1, E2. set (z := if b then y else x). assert (Hz : w32 z) by (unfold z; by destruct b).
  rewrite <- Z.land_lor_distr_r. change (Z.lor 0xffff 0xffff0000) with (Z.ones 32). rewrite Z.land_ones by lia. by apply Z.mod_small.
Qed.

Lemma compress_shani_ok s p n : work_ok s -> Forall byte_ok p -> 64 * Z.of_nat n <= zlen p -> sha256_compress_shani s p n = Ret (foldl compress s (nblocks_at p n)).
Proof.
  intros Hs Hp Hl. unfold sha256_compress_shani. rewrite (proj1 (proj2 (shuffle_lanes _ _ _ _))), (proj2 (proj2 (shuffle_lanes _ _ _ _))).
  destruct s as [a b c d e f g h]. destruct Hs as (Ha & Hb & Hc & Hd & He & Hf & Hg & Hh). cbn [wa wb wc wd we wf wg wh] in *.
  change (alignr_epi8 (mk_vec b a d c) (mk_vec h g f e) 8) with (mk_vec f e b a). unfold blend_epi16. cbn [v0 v1 v2 v3].
  rewrite !(blend_same 0xF0 _ _ _ false), !(blend_same 0xF0 _ _ _ true) by done.
  change (mk_vec f e b a, mk_vec h g d c) with (pack (mk_work a b c d e f g h)). rewrite shani_loop_ok by done. ret. unfold pack. destruct (foldl _ _ _). reflexivity.
Qed.

(** Armv8 *)

Lemma choose_ok x y z : w32 y -> w32 z -> SHAchoose x y z = Ch x y z.
Proof.
  intros Hy Hz. unfold SHAchoose, Ch, u32. apply Z.bits_inj'. intros i Hi. rewrite !Z.lxor_spec, !Z.land_spec, Z.lxor_spec.
  destruct (Z.ltb_spec i 32).
  - rewrite Z.mod_pow2_bits_low, Z.lnot_spec by lia. btauto.
  - rewrite (testbit_small z 32 i), (testbit_small y 32 i) by (unfold w32 in *; lia). btauto.
Qed.

Lemma majority_ok x y z : SHAmajority x y z = Maj x y z.
Proof.
  unfold SHAmajority, Maj. apply Z.bits_inj'. intros i Hi. rewrite !Z.lxor_spec, !Z.lor_spec, !Z.land_spec, Z.lor_spec. btauto.
Qed.

Definition split_state (s : work) : vec * vec := (mk_vec (wa s) (wb s) (wc s) (wd s), mk_vec (we s) (wf s) (wg s) (wh s)).

Lemma arm_step_ok s k w : work_ok s -> arm_step (split_state s) (add32 w k) = split_state (round s k w).
Proof.
  intros (Ha & Hb & Hc & Hd & He & Hf & Hg & Hh). destruct s as [a b c d e f g h]. cbn [wa wb wc wd we wf wg wh] in *.
  unfold arm_step, split_state. cbn [v0 v1 v2 v3 round wa wb wc wd we wf wg wh]. rewrite choose_ok, majority_ok by done. f_equal; f_equal; sum32.
Qed.

Lemma round4_ok w s t : work_ok s -> round4 (split_state s) (quad_at w t) t = split_state (four w s t).
Proof.
  intros Hs. unfold round4. unfold split_state at 1. rewrite (wk_lanes w t) by apply packed_K. cbv beta iota zeta. unfold vsha256hq_u32, vsha256h2q_u32, SHA256hash, lanes. cbn [v0 v1 v2 v3 foldl].
  change (mk_vec (wa s) (wb s) (wc s) (wd s), mk_vec (we s) (wf s) (wg s) (wh s)) with (split_state s). rewrite !arm_step_ok by (by repeat apply sha_round_ok). unfold four. cbn [seq foldl]. unfold step.
  replace (S t) with (t + 1)%nat by lia. replace (S (t + 1)) with (t + 2)%nat by lia. replace (S (t + 2)) with (t + 3)%nat by lia. by destruct (round _ _ _).
Qed.

Lemma su_ok m t :
  length m = 16%nat -> (t + 20 <= 64)%nat -> let w := expanded m in
  vsha256su1q_u32 (vsha256su0q_u32 (quad_at w t) (quad_at w (t + 4))) (quad_at w (t + 8)) (quad_at w (t + 12)) = quad_at w (t + 16).
Proof.
  intros Hm Ht w. transitivity (next_quad (sha256msg1 (quad_at w t) (quad_at w (t + 4))) (quad_at w (t + 8)) (quad_at w (t + 12))); [|by apply next_quad_ok].
  unfold vsha256su1q_u32, vsha256su0q_u32, next_quad, sha256msg2, sha256msg1, add_epi32, lift2, alignr_epi8, quad_at, vec_of.
  cbn [v0 v1 v2 v3 lanes app drop nth Nat.div Nat.divmod fst].
  assert (E : forall a b c d, u32 (a + add32 b c + d) = add32 (add32 (add32 c b) d) a) by (intros; sum32). rewrite !E. reflexivity.
Qed.

Lemma arm_rounds_S n k st w0 w1 w2 w3 :
  arm_rounds (S n) k st w0 w1 w2 w3 =
  arm_rounds n (k + 4) (round4 st (vsha256su1q_u32 (vsha256su0q_u32 w0 w1) w2 w3) k) w1 w2 w3 (vsha256su1q_u32 (vsha256su0q_u32 w0 w1) w2 w3).
Proof. reflexivity. Qed.

Lemma arm_rounds_ok w n :
  (forall t, (t + 20 <= 64)%nat -> vsha256su1q_u32 (vsha256su0q_u32 (quad_at w t) (quad_at w (t + 4))) (quad_at w (t + 8)) (quad_at w (t + 12)) = quad_at w (t + 16)) ->
  forall t s, (t + 16 + 4 * n = 64)%nat -> work_ok s ->
  arm_rounds n (t + 16) (split_state s) (quad_at w t) (quad_at w (t + 4)) (quad_at w (t + 8)) (quad_at w (t + 12)) =
  split_state (foldl (four w) s (map (fun i => t + 16 + 4 * i)%nat (seq 0 n))).
Proof.
  intros Hsu. induction n as [|n IH]; intros t s Ht Hs; [done|]. rewrite arm_rounds_S, Hsu, round4_ok by (done || lia).
  assert (Em : map (fun i => t + 16 + 4 * i)%nat (seq 0 (S n)) = (t + 16)%nat :: map (fun i => t + 4 + 16 + 4 * i)%nat (seq 0 n)).
  { cbn [seq map]. f_equal; [lia|]. rewrite <- seq_shift, map_map. apply map_ext. intros i. lia. }
  rewrite Em. cbn [foldl]. rewrite <- IH by (lia || by apply four_ok).
  replace (t + 4 + 16)%nat with (t + 16 + 4)%nat by lia. replace (t + 4 + 4)%nat with (t + 8)%nat by lia.
  replace (t + 4 + 8)%nat with (t + 12)%nat by lia. replace (t + 4 + 12)%nat with (t + 16)%nat by lia. reflexivity.
Qed.

Lemma arm_block_ok m s :
  length m = 16%nat -> work_ok s -> let w := expanded m in
  arm_block (split_state s) (quad_at w 0) (quad_at w 4) (quad_at w 8) (quad_at w 12) = split_state (foldl (step w) s (seq 0 64)).
Proof.
  intros Hm Hs w. unfold arm_block. rewrite !round4_ok by (by repeat apply four_ok). rewrite sixty_four.
  pose proof (arm_rounds_ok w 12 (fun t => su_ok m t Hm) 0 (four w (four w (four w (four w s 0) 4) 8) 12) ltac:(done) ltac:(by repeat apply four_ok)) as E.
  cbn [Nat.add] in E. rewrite E. reflexivity.
Qed.

Lemma armv8_loop_ok n : forall s p, work_ok s -> Forall byte_ok p -> 64 * Z.of_nat n <= zlen p -> armv8_loop (split_state s) p n = Ret (split_state (foldl compress s (nblocks_at p n))).
Proof.
  induction n as [|n IH]; intros s p Hs Hp Hl; [done|]. cbn [armv8_loop].
  destruct (load_block p Hp ltac:(lia)) as (_ & a & b & c & d & -> & -> & -> & -> & _ & (E0 & E1 & E2 & E3)). ret. rewrite E0, E1, E2, E3.
  rewrite arm_block_ok by (done || apply length_be_words). rewrite nblocks_S by lia. cbn [foldl]. rewrite compress_block. unfold SHA256_BLOCK_LEN.
  rewrite <- IH by (auto with pico; (apply add_state_ok || (rewrite zlen_padd; lia))). unfold split_state at 1. f_equal.
  unfold split_state, compress, add_epi32, lift2, add_state. cbn [fst snd v0 v1 v2 v3 wa wb wc wd we wf wg wh]. unfold add32. f_equal; f_equal; f_equal; lia.
Qed.

Lemma compress_armv8_ok s p n : work_ok s -> Forall byte_ok p -> 64 * Z.of_nat n <= zlen p -> sha256_compress_armv8 s p n = Ret (foldl compress s (nblocks_at p n)).
Proof.
  intros Hs Hp Hl. unfold sha256_compress_armv8. change (mk_vec (wa s) (wb s) (wc s) (wd s), mk_vec (we s) (wf s) (wg s) (wh s)) with (split_state s).
  rewrite armv8_loop_ok by done. ret. by destruct (foldl _ _ _).
Qed.

Lemma compress_fn_ok impl s p n : work_ok s -> Forall byte_ok p -> 64 * Z.of_nat n <= zlen p -> sha256_compress_fn impl s p n = Ret (foldl compress s (nblocks_at p n)).
Proof. intros. destruct impl; [by apply compress_scalar_ok|by apply compress_shani_ok|by apply compress_armv8_ok]. Qed.
