(* ===== verification/Sha256Theorems.v ===== *)
(** * SHA-256: streaming

    The hash of FIPS 180-4 as a function of the whole message, the constants
    recomputed from the primes, and the streaming interface
    ([sha256_init]/[sha256_update]/[sha256_final]) shown to compute it however
    the message is cut and whichever compression function is installed. *)

From Stdlib Require Import ZArith Lia.
From stdpp Require Import list numbers option.
From S2P Require Import Prelude Util Words Chacha Aes Sha256.

(** ** The standard *)

(** FIPS 180-4 §5.1.1: a one bit, zeros, and the length in bits. *)
Definition sha_pad (m : list Z) : list Z :=
  m ++ [0x80] ++ replicate (Z.to_nat ((55 - zlen m) mod 64)) 0 ++ be_bytes 8 (8 * zlen m).

Definition sha256_hash (m : list Z) : list Z := digest (foldl compress H0 (chunks 64 (sha_pad m))).

(** The first 32 bits of the fractional part of the [k]-th root of [p]:
    [floor (p^(1/k) * 2^32) mod 2^32], the root found bit by bit. *)
Fixpoint root_bits (k n : Z) (bit : nat) (r : Z) : Z :=
  match bit with
  | O => r
  | S b => let r' := r + 2 ^ Z.of_nat b in root_bits k n b (if r' ^ k <=? n then r' else r)
  end.

Definition root_frac (k p : Z) : Z := u32 (root_bits k (p * 2 ^ (32 * k)) 40 0).

Definition is_prime (n : Z) : bool := (1 <? n) && forallb (fun d => negb (n mod (Z.of_nat d + 2) =? 0)) (seq 0 (Z.to_nat (Z.sqrt n) - 1)).

Definition primes : list Z := List.filter is_prime (map Z.of_nat (seq 0 312)).

Definition words_of (s : work) : list Z := [wa s; wb s; wc s; wd s; we s; wf s; wg s; wh s].

(** The tables are those of FIPS 180-4: the cube roots of the first 64 primes
    and the square roots of the first 8, and the tables of the two accelerated
    files are the same numbers. *)
Lemma sha_constants : K = map (root_frac 3) primes /\ words_of H0 = map (root_frac 2) (take 8 primes).
Proof. split; vm_compute; reflexivity. Qed.

(** ** Streaming *)

Lemma compress_ok s b : work_ok (compress s b).
Proof. apply add_state_ok. Qed.

Lemma blocks_work s l : work_ok s -> work_ok (foldl compress s l).
Proof. revert s. induction l as [|b l IH]; intros s Hs; [done|]. cbn [foldl]. apply IH, compress_ok. Qed.

Lemma H0_ok : work_ok H0.
Proof. unfold work_ok, w32, H0. cbn. lia. Qed.

(** The state after a whole number of blocks. *)
Definition chained (d : list Z) : work := foldl compress H0 (chunks 64 d).

Lemma chained_ok d : work_ok (chained d).
Proof. apply blocks_work, H0_ok. Qed.

Lemma chained_app k d e : length d = (k * 64)%nat -> foldl compress (chained d) (chunks 64 e) = chained (d ++ e).
Proof. intros H. unfold chained. rewrite (chunks_app 64 k) by (lia || done). by rewrite foldl_app. Qed.

(** The context has taken in the message [m], its length counter aside: the
    whole blocks [d] are in the state and the rest [r] is in the buffer. *)
Definition holds (c : sha256_ctx) (m : list Z) : Prop :=
  exists k d r g, m = d ++ r /\ length d = (k * 64)%nat /\ zlen r < 64 /\ sc_buf c = r ++ g /\ zlen (r ++ g) = 64 /\
    sc_buf_len c = zlen r /\ sc_state c = chained d /\ Forall byte_ok (r ++ g).

Definition absorbed (c : sha256_ctx) (m : list Z) : Prop := holds c m /\ sc_bitlen c = u64 (8 * zlen m).

(** A context whose buffer is memory of any content. *)
Definition buffer_ok (c : sha256_ctx) : Prop := zlen (sc_buf c) = 64 /\ Forall byte_ok (sc_buf c).

Lemma holds_buffer c m : holds c m -> buffer_ok c.
Proof. intros (k & d & r & g & _ & _ & _ & E & L & _ & _ & F). unfold buffer_ok. by rewrite E. Qed.

Lemma holds_bytes c m : holds c m -> zlen m mod 64 = sc_buf_len c.
Proof.
  intros (k & d & r & g & -> & Hd & Hr & _ & _ & -> & _). rewrite zlen_app. unfold zlen at 1. rewrite Hd.
  replace (Z.of_nat (k * 64) + zlen r) with (zlen r + Z.of_nat k * 64) by lia. rewrite Z.mod_add by lia. apply Z.mod_small. pose proof (zlen_nonneg r). lia.
Qed.

Lemma compress_chained impl k d p n :
  length d = (k * 64)%nat -> Forall byte_ok p -> 64 * Z.of_nat n <= zlen p ->
  sha256_compress_fn impl (chained d) p n = Ret (chained (d ++ ztake (64 * Z.of_nat n) p)).
Proof. intros Hd Hp Hl. rewrite compress_fn_ok by (done || apply chained_ok). unfold nblocks_at. by rewrite (chained_app k). Qed.

Lemma length_blocks k (d p : list Z) n : length d = (k * 64)%nat -> 64 * Z.of_nat n <= zlen p -> length (d ++ ztake (64 * Z.of_nat n) p) = ((k + n) * 64)%nat.
Proof. intros Hd Hl. rewrite length_app, length_ztake, Hd by lia. lia. Qed.

Lemma update_bulk_ok impl k d bits buf p len :
  length d = (k * 64)%nat -> zlen buf = 64 -> Forall byte_ok buf -> Forall byte_ok p -> 0 <= len <= zlen p ->
  exists c, update_bulk impl (mk_sha (chained d) bits buf 0) p len = Ret c /\ holds c (d ++ ztake len p) /\ sc_bitlen c = bits.
Proof.
  intros Hd Hb Hbb Hp Hl. unfold update_bulk. set (n := Z.to_nat (len / 64)).
  assert (Hn : 64 * Z.of_nat n <= len < 64 * Z.of_nat n + 64) by (unfold n; rewrite Z2Nat.id; dlia).
  assert (E : forall (A : Type) (k : sha256_ctx * list Z * Z -> res A),
    rbind (if SHA256_BLOCK_LEN <=? len then
       let! st := sha256_compress_fn impl (chained d) p n in
       Ret (mk_sha st bits buf 0, padd p (len / 64 * 64), len - len / 64 * 64)
     else Ret (mk_sha (chained d) bits buf 0, p, len)) k
    = k (mk_sha (chained (d ++ ztake (64 * Z.of_nat n) p)) bits buf 0, padd p (64 * Z.of_nat n), len - 64 * Z.of_nat n)).
  { intros A kk. unfold SHA256_BLOCK_LEN. replace (len / 64 * 64) with (64 * Z.of_nat n) by (unfold n; rewrite Z2Nat.id; dlia).
    destruct (Z.leb_spec 64 len).
    - rewrite (compress_chained impl k) by (done || lia). by ret.
    - replace n with O by lia. ret. change (64 * Z.of_nat 0) with 0. by rewrite Z.sub_0_r, padd_0, app_nil_r. }
  cbn [sc_state sc_bitlen sc_buf sc_buf_len]. fold n. change SHA256_BLOCK_LEN with 64 in *. rewrite E. cbn [sc_state sc_bitlen sc_buf sc_buf_len]. clear E.
  assert (Em : d ++ ztake len p = (d ++ ztake (64 * Z.of_nat n) p) ++ ztake (len - 64 * Z.of_nat n) (padd p (64 * Z.of_nat n))).
  { rewrite <- app_assoc, <- ztake_split by lia. do 2 f_equal. lia. }
  set (q := padd p (64 * Z.of_nat n)) in *. assert (Hq : zlen q = zlen p - 64 * Z.of_nat n) by (unfold q; rewrite zlen_padd; lia).
  pose proof (length_blocks k d p n Hd ltac:(lia)) as Hd'. set (len' := len - 64 * Z.of_nat n) in *. destruct (Z.eqb_spec len' 0) as [Ez|Ez].
  - eexists. split; [reflexivity|]. split; [|done]. exists (k + n)%nat, (d ++ ztake (64 * Z.of_nat n) p), [], buf. rewrite Em, Ez. done.
  - rewrite rdn_ok by lia. ret. assert (Hz : zlen (ztake len' q) = len') by (rewrite zlen_ztake; lia).
    destruct (split_buffer len' buf ltac:(lia)) as (u & g & -> & Hu). rewrite blit_start by lia. ret. eexists. split; [reflexivity|]. split; [|done].
    exists (k + n)%nat, (d ++ ztake (64 * Z.of_nat n) p), (ztake len' q), g. rewrite zlen_app in *. apply Forall_app in Hbb as [_ Hg].
    cbn [sc_buf sc_buf_len sc_state]. split_and!; try (done || lia). apply Forall_app. split; [|done]. apply Forall_ztake. unfold q. auto with pico.
Qed.

(** One more piece of the message. *)
Lemma sha256_update_ok impl c m p len :
  absorbed c m -> Forall byte_ok p -> 0 <= len <= zlen p ->
  exists c', sha256_update impl c p len = Ret c' /\ absorbed c' (m ++ ztake len p).
Proof.
  intros ((k & d & r & g & -> & Hd & Hr & Eb & Lb & Hbl & Hst & Hby) & Hbit) Hp Hl. unfold sha256_update.
  assert (Hbits : u64 (sc_bitlen c + u64 (len * 8)) = u64 (8 * zlen ((d ++ r) ++ ztake len p))).
  { rewrite Hbit, (zlen_app (d ++ r)), zlen_ztake by lia. unfold u64. rewrite <- Z.add_mod by lia. f_equal. lia. }
  rewrite Hbits, Hst, Eb, Hbl. clear Hbits. unfold absorbed. remember (u64 (8 * zlen ((d ++ r) ++ ztake len p))) as bits eqn:Hbits. clear Hbits.
  pose proof (zlen_nonneg r). apply Forall_app in Hby as [Hbr Hbg]. rewrite zlen_app in Lb. destruct (Z.eqb_spec (zlen r) 0) as [E0|E0].
  - destruct r; [|rewrite zlen_cons in E0; pose proof (zlen_nonneg r); lia]. change (zlen []) with 0. cbn [app]. destruct (update_bulk_ok impl k d bits g p len) as (c' & -> & Hc & Hb); try (done || lia). rewrite app_nil_r. by eauto.
  - unfold SHA256_BLOCK_LEN. destruct (Z.ltb_spec len (64 - zlen r)).
    + rewrite rdn_ok by lia. ret. assert (Hz : zlen (ztake len p) = len) by (rewrite zlen_ztake; lia).
      destruct (split_buffer len g ltac:(lia)) as (u & g' & -> & Hu). rewrite blit_at by (done || lia). ret. eexists. split; [reflexivity|]. split; [|done].
      exists k, d, (r ++ ztake len p), g'. rewrite !zlen_app in *. apply Forall_app in Hbg as [_ Hg].
      cbn [sc_buf sc_buf_len sc_state]. rewrite <- !app_assoc. split_and!; try (done || lia). rewrite !Forall_app. auto with pico.
    + set (need := 64 - zlen r) in *. assert (Hz : zlen (ztake need p) = need) by (rewrite zlen_ztake; lia).
      rewrite rdn_ok by lia. ret. rewrite <- (app_nil_r g). rewrite blit_at by (done || lia). ret. rewrite !app_nil_r.
      assert (Hbuf : Forall byte_ok (r ++ ztake need p)) by (apply Forall_app; auto with pico).
      assert (Lbuf : zlen (r ++ ztake need p) = 64) by (rewrite zlen_app; lia). rewrite (compress_chained impl k) by (done || lia). ret.
      pose proof (length_blocks k d (r ++ ztake need p) 1 Hd ltac:(lia)) as Hd'. change (64 * Z.of_nat 1) with 64 in *. rewrite ztake_all in * by lia.
      destruct (update_bulk_ok impl (k + 1) (d ++ r ++ ztake need p) bits (r ++ ztake need p) (padd p need) (len - need)) as (c' & -> & Hc & Hb);
        try (done || lia || (rewrite zlen_padd; lia) || auto with pico).
      exists c'. split; [done|]. split; [|done]. revert Hc. rewrite <- !app_assoc, <- ztake_split by lia. by replace (need + (len - need)) with len by lia.
Qed.

Lemma sha256_init_ok c : buffer_ok c -> absorbed (sha256_init c) [].
Proof. intros [Hl Hb]. split; [|done]. by exists O, [], [], (sc_buf c). Qed.

Lemma shifted_byte v (j : nat) : (j < 8)%nat -> u8 (Z.shiftr (u64 v) (8 * Z.of_nat j)) = (v / 256 ^ Z.of_nat j) mod 256.
Proof.
  intros H. unfold u8, u64. rewrite Z.shiftr_div_pow2 by lia. do 8 (destruct j as [|j]; [cbn; dlia|]). lia.
Qed.

Lemma length_field bits v : bits = u64 v -> map (fun i => u8 (Z.shiftr bits (56 - Z.of_nat i * 8))) (seq 0 8) = be_bytes 8 v.
Proof.
  intros ->. cbn [seq map be_bytes]. repeat (apply (f_equal2 cons); [match goal with |- _ = (_ / 256 ^ Z.of_nat ?j) mod 256 => exact (shifted_byte v j ltac:(lia)) end|]). reflexivity.
Qed.

Lemma zlen_replicate n (x : Z) : zlen (replicate n x) = Z.of_nat n.
Proof. unfold zlen. by rewrite length_replicate. Qed.

Lemma zeros_ok n : Forall byte_ok (replicate n 0).
Proof. apply Forall_replicate. unfold byte_ok. lia. Qed.

(** The block with the length, behind the bytes [t]. *)
Lemma padded_block impl k d t g lf A (kk : work -> res A) :
  length d = (k * 64)%nat -> Forall byte_ok t -> zlen t <= 56 -> zlen (t ++ g) = 64 -> zlen lf = 8 -> Forall byte_ok lf ->
  (let! buf := blit (t ++ g) (zlen t) (replicate (Z.to_nat (56 - zlen t)) 0) in
   let! buf := blit buf 56 lf in
   let! st := sha256_compress_fn impl (chained d) buf 1 in kk st)
  = kk (chained (d ++ t ++ replicate (Z.to_nat (56 - zlen t)) 0 ++ lf)).
Proof.
  intros Hd Ht Hl Lb Hlf Hlb. rewrite zlen_app in Lb. set (z := replicate _ 0). assert (Hz : zlen z = 56 - zlen t) by (unfold z; rewrite zlen_replicate; lia).
  destruct (split_buffer (56 - zlen t) g ltac:(pose proof (zlen_nonneg t); lia)) as (u & g1 & -> & Hu). rewrite zlen_app in Lb.
  rewrite blit_at by (done || lia). ret. rewrite app_assoc. rewrite <- (app_nil_r g1). rewrite blit_at by (rewrite ?zlen_app; lia). ret. rewrite app_nil_r.
  assert (Hbuf : zlen ((t ++ z) ++ lf) = 64) by (rewrite !zlen_app; lia).
  rewrite (compress_chained impl k); [|done| |lia].
  - ret. change (64 * Z.of_nat 1) with 64. rewrite ztake_all by lia. by rewrite <- app_assoc.
  - rewrite !Forall_app. split_and!; try done. apply zeros_ok.
Qed.

(** The zeros of the padding: up to the length field of this block, or of the
    next one. *)
Lemma pad_zeros n r : n mod 64 = r -> 0 <= r < 64 -> (55 - n) mod 64 = if 55 <? r then 119 - r else 55 - r.
Proof. intros H Hr. destruct (Z.ltb_spec 55 r); dlia. Qed.

Lemma zeros_app a b : 0 <= a -> 0 <= b -> replicate (Z.to_nat (a + b)) (0 : Z) = replicate (Z.to_nat a) 0 ++ replicate (Z.to_nat b) 0.
Proof. intros. rewrite <- replicate_add. f_equal. lia. Qed.

(** Padding, the last block and the digest. *)
Lemma sha256_final_ok impl c m : absorbed c m -> sha256_final impl c = Ret (sha256_hash m, sha_zero).
Proof.
  intros [Hh Hbit]. pose proof (holds_bytes c m Hh) as Hmod. destruct Hh as (k & d & r & g & Hm & Hd & Hr & Eb & Lb & Hbl & Hst & Hby).
  unfold sha256_final, sha256_hash, sha_pad. rewrite Hst, Eb, Hbl in *. rewrite (length_field (sc_bitlen c) _ Hbit).
  pose proof (zlen_nonneg r). apply Forall_app in Hby as [Hbr Hbg]. rewrite zlen_app in Lb. rewrite (pad_zeros _ _ Hmod) by lia.
  set (lf := be_bytes 8 (8 * zlen m)). assert (Hlf : zlen lf = 8) by apply zlen_be_bytes. assert (Hlb : Forall byte_ok lf) by apply be_bytes_ok.
  destruct (split_buffer 1 g ltac:(lia)) as (u & g1 & -> & Hu). rewrite zlen_app in Lb. apply Forall_app in Hbg as [_ Hbg].
  rewrite wr_blit by (rewrite !zlen_app; lia). rewrite blit_at by done. ret. rewrite app_assoc. clearbody lf. subst m.
  assert (Ht : zlen (r ++ [128]) = zlen r + 1) by (rewrite zlen_app; done).
  assert (Htb : Forall byte_ok (r ++ [128])) by (apply Forall_app; split; [done|]; repeat constructor; unfold byte_ok; lia). rewrite <- Ht.
  set (t := r ++ [128]) in *.
  replace (55 <? zlen r) with (56 <? zlen t) by lia. destruct (Z.ltb_spec 56 (zlen t)) as [Hc|Hc].
  - unfold SHA256_BLOCK_LEN. set (z := replicate _ 0). assert (Hz : zlen z = 64 - zlen t) by (unfold z; rewrite zlen_replicate; lia).
    rewrite <- (app_nil_r g1). rewrite blit_at by (done || lia). ret. rewrite app_nil_r.
    assert (Hbuf : zlen (t ++ z) = 64) by (rewrite zlen_app; lia). assert (Hbb : Forall byte_ok (t ++ z)) by (apply Forall_app; split; [done|apply zeros_ok]).
    rewrite (compress_chained impl k) by (done || lia). ret. change (64 * Z.of_nat 1) with 64. rewrite ztake_all by lia.
    rewrite (padded_block impl (k + 1) (d ++ t ++ z) [] (t ++ z) lf); try done.
    + change (zlen []) with 0. cbn [app]. replace (119 - zlen r) with ((64 - zlen t) + (56 - 0)) by lia. rewrite zeros_app by lia. fold z. unfold chained, t. rewrite <- !app_assoc. reflexivity.
    + pose proof (length_blocks k d (t ++ z) 1 Hd ltac:(lia)) as Hd'. change (64 * Z.of_nat 1) with 64 in *. by rewrite ztake_all in Hd' by lia.
  - ret. rewrite (padded_block impl k d t g1 lf); try done; [|rewrite zlen_app; lia]. replace (56 - zlen t) with (55 - zlen r) by lia.
    unfold chained, t. rewrite <- !app_assoc. reflexivity.
Qed.

Lemma sha256_ok impl c p len : buffer_ok c -> Forall byte_ok p -> 0 <= len <= zlen p -> sha256 impl c p len = Ret (sha256_hash (ztake len p)).
Proof.
  intros Hc Hp Hl. unfold sha256. destruct (sha256_update_ok impl (sha256_init c) [] p len) as (c' & -> & Ha); [by apply sha256_init_ok|done..|]. ret.
  by rewrite (sha256_final_ok impl c' _ Ha).
Qed.

Lemma zlen_digest s : zlen (digest s) = 32.
Proof. done. Qed.

Lemma digest_ok s : Forall byte_ok (digest s).
Proof. unfold digest, store_be32. cbn [map concat app]. repeat constructor; apply u8_byte. Qed.

Lemma zlen_sha256_hash m : zlen (sha256_hash m) = 32.
Proof. apply zlen_digest. Qed.

Lemma sha256_hash_ok m : Forall byte_ok (sha256_hash m).
Proof. apply digest_ok. Qed.

(** A message in pieces, each with the compression function installed when it
    is taken in. *)
Fixpoint sha256_updates (c : sha256_ctx) (l : list (sha256_impl * list Z)) : res sha256_ctx :=
  match l with
  | [] => Ret c
  | (impl, p) :: l => let! c := sha256_update impl c p (zlen p) in sha256_updates c l
  end.

Lemma sha256_updates_ok l : forall c m, absorbed c m -> Forall (fun x => Forall byte_ok (snd x)) l -> exists c', sha256_updates c l = Ret c' /\ absorbed c' (m ++ concat (map snd l)).
Proof.
  induction l as [|[impl p] l IH]; intros c m Hc Hl; [cbn; rewrite app_nil_r; by eauto|]. inversion_clear Hl as [|? ? Hp Hl']. cbn [snd] in Hp. cbn [sha256_updates map concat snd].
  destruct (sha256_update_ok impl c m p (zlen p) Hc Hp) as (c1 & -> & H1); [pose proof (zlen_nonneg p); lia|]. ret. rewrite ztake_all in H1 by lia.
  destruct (IH c1 _ H1 Hl') as (c2 & -> & H2). rewrite <- app_assoc in H2. by eauto.
Qed.

(** C16: whatever pieces a message is cut into, whichever of the three
    compression functions (scalar, x86 SHA extensions, Armv8 cryptographic
    extension) is installed at each call, and whatever the buffer of the
    context held before, the streaming interface returns the SHA-256 digest of
    the whole message and leaves the context wiped. *)
Theorem sha256_stream_correct c l impl :
  zlen (sc_buf c) = 64 -> Forall byte_ok (sc_buf c) -> Forall (fun x => Forall byte_ok (snd x)) l ->
  (let! c' := sha256_updates (sha256_init c) l in sha256_final impl c') = Ret (sha256_hash (concat (map snd l)), sha_zero).
Proof.
  intros H1 H2 Hl. destruct (sha256_updates_ok l (sha256_init c) []) as (c' & -> & Hc); [by apply sha256_init_ok|done|]. ret. by apply sha256_final_ok.
Qed.

Lemma sha256_stream_correct_witness :
  (let! c' := sha256_updates (sha256_init sha_zero) [(Sha_scalar, [0x61]); (Sha_ni, replicate 70 0x62); (Sha_armv8, [0x63])] in sha256_final Sha_scalar c')
  = Ret (sha256_hash (0x61 :: replicate 70 0x62 ++ [0x63]), sha_zero).
Proof.
  apply (sha256_stream_correct sha_zero [(Sha_scalar, [0x61]); (Sha_ni, replicate 70 0x62); (Sha_armv8, [0x63])] Sha_scalar); [reflexivity|apply bytes_okb_ok; reflexivity|].
  repeat (constructor; [apply bytes_okb_ok; reflexivity|]). constructor.
Defined.
