(* ===== verification/Sha512.v ===== *)
(** * SHA-512

    The hash of [userspace/crypto/sha512.c]: the compression function, the
    128-bit length counter and the streaming interface, shown to compute the
    digest of FIPS 180-4 however the message is cut. *)

From Stdlib Require Import ZArith Lia.
From stdpp Require Import list numbers option.
From S2P Require Import Prelude Util Words Chacha Aes Sha256 Sha256Theorems.

Definition SHA512_DIGEST_LEN : Z := 64.
Definition SHA512_BLOCK_LEN : Z := 128.

Definition K : list Z :=
  concat [
    [0x428a2f98d728ae22; 0x7137449123ef65cd; 0xb5c0fbcfec4d3b2f; 0xe9b5dba58189dbbc]; [0x3956c25bf348b538; 0x59f111f1b605d019; 0x923f82a4af194f9b; 0xab1c5ed5da6d8118];
    [0xd807aa98a3030242; 0x12835b0145706fbe; 0x243185be4ee4b28c; 0x550c7dc3d5ffb4e2]; [0x72be5d74f27b896f; 0x80deb1fe3b1696b1; 0x9bdc06a725c71235; 0xc19bf174cf692694];
    [0xe49b69c19ef14ad2; 0xefbe4786384f25e3; 0x0fc19dc68b8cd5b5; 0x240ca1cc77ac9c65]; [0x2de92c6f592b0275; 0x4a7484aa6ea6e483; 0x5cb0a9dcbd41fbd4; 0x76f988da831153b5];
    [0x983e5152ee66dfab; 0xa831c66d2db43210; 0xb00327c898fb213f; 0xbf597fc7beef0ee4]; [0xc6e00bf33da88fc2; 0xd5a79147930aa725; 0x06ca6351e003826f; 0x142929670a0e6e70];
    [0x27b70a8546d22ffc; 0x2e1b21385c26c926; 0x4d2c6dfc5ac42aed; 0x53380d139d95b3df]; [0x650a73548baf63de; 0x766a0abb3c77b2a8; 0x81c2c92e47edaee6; 0x92722c851482353b];
    [0xa2bfe8a14cf10364; 0xa81a664bbc423001; 0xc24b8b70d0f89791; 0xc76c51a30654be30]; [0xd192e819d6ef5218; 0xd69906245565a910; 0xf40e35855771202a; 0x106aa07032bbd1b8];
    [0x19a4c116b8d2d0c8; 0x1e376c085141ab53; 0x2748774cdf8eeb99; 0x34b0bcb5e19b48a8]; [0x391c0cb3c5c95a63; 0x4ed8aa4ae3418acb; 0x5b9cca4f7763e373; 0x682e6ff3d6b2b8a3];
    [0x748f82ee5defb2fc; 0x78a5636f43172f60; 0x84c87814a1f0ab72; 0x8cc702081a6439ec]; [0x90befffa23631e28; 0xa4506cebde82bde9; 0xbef9a3f7b2c67915; 0xc67178f2e372532b];
    [0xca273eceea26619c; 0xd186b8c721c0c207; 0xeada7dd6cde0eb1e; 0xf57d4f7fee6ed178]; [0x06f067aa72176fba; 0x0a637dc5a2c898a6; 0x113f9804bef90dae; 0x1b710b35131c471b];
    [0x28db77f523047d84; 0x32caab7b40c72493; 0x3c9ebe0a15c9bebc; 0x431d67c49c100d4c]; [0x4cc5d4becb3e42b6; 0x597f299cfc657e2a; 0x5fcb6fab3ad6faec; 0x6c44198c4a475817]].

Definition rotr64 (x n : Z) : Z := Z.lor (Z.shiftr x n) (u64 (Z.shiftl x (64 - n))).
Definition big_sigma0 (x : Z) : Z := Z.lxor (Z.lxor (rotr64 x 28) (rotr64 x 34)) (rotr64 x 39).
Definition big_sigma1 (x : Z) : Z := Z.lxor (Z.lxor (rotr64 x 14) (rotr64 x 18)) (rotr64 x 41).
Definition small_sigma0 (x : Z) : Z := Z.lxor (Z.lxor (rotr64 x 1) (rotr64 x 8)) (Z.shiftr x 7).
Definition small_sigma1 (x : Z) : Z := Z.lxor (Z.lxor (rotr64 x 19) (rotr64 x 61)) (Z.shiftr x 6).
Definition Ch (x y z : Z) : Z := Z.lxor (Z.land x y) (Z.land (u64 (Z.lnot x)) z).
Definition Maj (x y z : Z) : Z := Z.lxor (Z.lxor (Z.land x y) (Z.land x z)) (Z.land y z).

Definition load_be64 (p : list Z) (off : Z) : res Z :=
  let! b := rdn (padd p off) 8 in
  let b i := nth i b 0 in
  let shl x n := u64 (Z.shiftl x n) in
  Ret (Z.lor (Z.lor (Z.lor (Z.lor (Z.lor (Z.lor (Z.lor (shl (b 0%nat) 56) (shl (b 1%nat) 48)) (shl (b 2%nat) 40)) (shl (b 3%nat) 32))
    (shl (b 4%nat) 24)) (shl (b 5%nat) 16)) (shl (b 6%nat) 8)) (b 7%nat)).

Definition store_be64 (v : Z) : list Z :=
  [u8 (Z.shiftr v 56); u8 (Z.shiftr v 48); u8 (Z.shiftr v 40); u8 (Z.shiftr v 32); u8 (Z.shiftr v 24); u8 (Z.shiftr v 16); u8 (Z.shiftr v 8); u8 v].

(** ** The compression function

    [work] holds [uint64_t state[8]] and the registers [a] to [h]. *)

(** [for (i = 0; i < 16; i++) w[i] = load_be64(block + i * 8);] from [i] on. *)
Fixpoint load_be (p : list Z) (off : Z) (n : nat) : res (list Z) :=
  match n with
  | O => Ret []
  | S n' => let! w := load_be64 p off in let! ws := load_be p (off + 8) n' in Ret (w :: ws)
  end.

(** [w[i]] for the next [i]. *)
Definition schedule_step (w : list Z) : list Z :=
  let i := length w in
  w ++ [u64 (small_sigma1 (nth (i - 2) w 0) + nth (i - 7) w 0 + small_sigma0 (nth (i - 15) w 0) + nth (i - 16) w 0)].

Definition round (s : work) (k w : Z) : work :=
  let '(mk_work a b c d e f g h) := s in
  let t1 := u64 (h + big_sigma1 e + Ch e f g + k + w) in
  let t2 := u64 (big_sigma0 a + Maj a b c) in
  mk_work (u64 (t1 + t2)) a b c (u64 (d + t1)) e f g.

Definition add_state (s r : work) : work :=
  mk_work (u64 (wa s + wa r)) (u64 (wb s + wb r)) (u64 (wc s + wc r)) (u64 (wd s + wd r))
    (u64 (we s + we r)) (u64 (wf s + wf r)) (u64 (wg s + wg r)) (u64 (wh s + wh r)).

Definition compress_one (state : work) (block : list Z) : res work :=
  let! w := load_be block 0 16 in
  let w := Nat.iter 64 schedule_step w in
  Ret (add_state state (foldl (fun s i => round s (nth i K 0) (nth i w 0)) state (seq 0 80))).

(** ** Streaming *)

Record sha512_ctx := mk_sha512 { s5_state : work; s5_bitlen_lo : Z; s5_bitlen_hi : Z; s5_buf : list Z; s5_buf_len : Z }.

Definition H0 : work :=
  mk_work 0x6a09e667f3bcc908 0xbb67ae8584caa73b 0x3c6ef372fe94f82b 0xa54ff53a5f1d36f1 0x510e527fade682d1 0x9b05688c2b3e6c1f 0x1f83d9abfb41bd6b 0x5be0cd19137e2179.

(** [buf] keeps whatever the memory held. *)
Definition sha512_init (c : sha512_ctx) : sha512_ctx := mk_sha512 H0 0 0 (s5_buf c) 0.

Definition add_bitlen (c : sha512_ctx) (bytes : Z) : sha512_ctx :=
  let add := u64 (Z.shiftl bytes 3) in
  let carry_into_lo := Z.shiftr bytes 61 in
  let old := s5_bitlen_lo c in
  let lo := u64 (old + add) in
  let hi := if lo <? old then u64 (s5_bitlen_hi c + 1) else s5_bitlen_hi c in
  mk_sha512 (s5_state c) lo (u64 (hi + carry_into_lo)) (s5_buf c) (s5_buf_len c).

(** [while (len >= SHA512_BLOCK_LEN)], at most [n] times: the state, the pointer
    and the length at the exit. *)
Fixpoint bulk_loop (n : nat) (st : work) (p : list Z) (len : Z) : res (work * list Z * Z) :=
  if SHA512_BLOCK_LEN <=? len then
    match n with
    | O => Fail
    | S n' => let! st := compress_one st p in bulk_loop n' st (padd p SHA512_BLOCK_LEN) (len - SHA512_BLOCK_LEN)
    end
  else Ret (st, p, len).

(** Full blocks straight from the caller's buffer, and the remainder. *)
Definition bulk512 (c : sha512_ctx) (p : list Z) (len : Z) : res sha512_ctx :=
  let! (st, p, len) := bulk_loop (Z.to_nat (len / SHA512_BLOCK_LEN)) (s5_state c) p len in
  if len =? 0 then Ret (mk_sha512 st (s5_bitlen_lo c) (s5_bitlen_hi c) (s5_buf c) (s5_buf_len c))
  else
    let! d := rdn p len in
    let! buf := blit (s5_buf c) 0 d in
    Ret (mk_sha512 st (s5_bitlen_lo c) (s5_bitlen_hi c) buf len).

Definition sha512_update (c : sha512_ctx) (p : list Z) (len : Z) : res sha512_ctx :=
  let c := add_bitlen c len in
  if s5_buf_len c =? 0 then bulk512 c p len
  else
    let need := SHA512_BLOCK_LEN - s5_buf_len c in
    if len <? need then
      let! d := rdn p len in
      let! buf := blit (s5_buf c) (s5_buf_len c) d in
      Ret (mk_sha512 (s5_state c) (s5_bitlen_lo c) (s5_bitlen_hi c) buf (s5_buf_len c + len))
    else
      let! d := rdn p need in
      let! buf := blit (s5_buf c) (s5_buf_len c) d in
      let! st := compress_one (s5_state c) buf in
      bulk512 (mk_sha512 st (s5_bitlen_lo c) (s5_bitlen_hi c) buf 0) (padd p need) (len - need).

Definition sha512_zero : sha512_ctx := mk_sha512 (mk_work 0 0 0 0 0 0 0 0) 0 0 (replicate 128 0) 0.

Definition digest (s : work) : list Z :=
  concat (map store_be64 [wa s; wb s; wc s; wd s; we s; wf s; wg s; wh s]).

(** The digest, and the wiped context. *)
Definition sha512_final (c : sha512_ctx) : res (list Z * sha512_ctx) :=
  let! buf := wr (s5_buf c) (s5_buf_len c) 0x80 in
  let buf_len := s5_buf_len c + 1 in
  let! (st, buf, buf_len) :=
    (if 112 <? buf_len then
       let! buf := blit buf buf_len (replicate (Z.to_nat (SHA512_BLOCK_LEN - buf_len)) 0) in
       let! st := compress_one (s5_state c) buf in
       Ret (st, buf, 0)
     else Ret (s5_state c, buf, buf_len)) in
  let! buf := blit buf buf_len (replicate (Z.to_nat (112 - buf_len)) 0) in
  let! buf := blit buf 112 (store_be64 (s5_bitlen_hi c)) in
  let! buf := blit buf 120 (store_be64 (s5_bitlen_lo c)) in
  let! st := compress_one st buf in
  Ret (digest st, sha512_zero).

(** The context is a local variable with arbitrary contents [c]. *)
Definition sha512 (c : sha512_ctx) (data : list Z) (len : Z) : res (list Z) :=
  let! c := sha512_update (sha512_init c) data len in
  let! (out, _) := sha512_final c in
  Ret out.

(** * The standard *)

(** FIPS 180-4 §5.1.2: a one bit, zeros, and the length in bits. *)
Definition sha512_pad (m : list Z) : list Z :=
  m ++ [0x80] ++ replicate (Z.to_nat ((111 - zlen m) mod 128)) 0 ++ be_bytes 16 (8 * zlen m).

(** The big-endian words of a block. *)
Definition be_words64 (p : list Z) : list Z := map (fun i => be_acc 0 (sub p (8 * Z.of_nat i) 8)) (seq 0 16).

Definition compress512 (s : work) (b : list Z) : work :=
  let w := Nat.iter 64 schedule_step (be_words64 b) in
  add_state s (foldl (fun s i => round s (nth i K 0) (nth i w 0)) s (seq 0 80)).

Definition sha512_hash (m : list Z) : list Z := digest (foldl compress512 H0 (chunks 128 (sha512_pad m))).

Definition root_frac64 (k p : Z) : Z := u64 (root_bits k (p * 2 ^ (64 * k)) 72 0).
Definition primes80 : list Z := List.filter is_prime (map Z.of_nat (seq 0 410)).

(** The cube roots of the first 80 primes and the square roots of the first 8. *)
Lemma sha512_constants : K = map (root_frac64 3) primes80 /\ words_of H0 = map (root_frac64 2) (take 8 primes80).
Proof. split; vm_compute; reflexivity. Qed.

(** ** Words and blocks *)

Lemma store_be64_ok v : store_be64 (u64 v) = be_bytes 8 v.
Proof.
  unfold store_be64. replace (u8 (u64 v)) with (u8 (Z.shiftr (u64 v) 0)) by (by rewrite Z.shiftr_0_r).
  exact (length_field (u64 v) v eq_refl).
Qed.

Lemma store_be64_bytes v : Forall byte_ok (store_be64 v).
Proof. repeat constructor; apply u8_byte. Qed.

Lemma load_be64_ok p off : Forall byte_ok p -> 0 <= off -> off + 8 <= zlen p -> load_be64 p off = Ret (be_acc 0 (sub p off 8)).
Proof.
  intros Hp H1 H2. unfold load_be64. rewrite rdn_ok by (rewrite zlen_padd; lia). ret. fold (sub p off 8). f_equal.
  assert (L : length (sub p off 8) = 8%nat) by (unfold sub; rewrite length_ztake; [lia|rewrite zlen_padd; lia]).
  assert (B : Forall byte_ok (sub p off 8)) by (unfold sub; auto with pico). generalize dependent (sub p off 8). intros b L B.
  do 8 (destruct b as [|?b b]; [discriminate L|]). destruct b; [|discriminate L]. split_bytes. unfold byte_ok in *. cbn [nth be_acc]. clear - B0 B1 B2 B3 B4 B5 B6 B7.
  rewrite !Z.shiftl_mul_pow2 by lia. unfold u64. rewrite !Z.mod_small by lia.
  rewrite (lor_disjoint 56) by lia. replace (b0 * 2 ^ 56 + b1 * 2 ^ 48) with ((b0 * 256 + b1) * 2 ^ 48) by lia.
  rewrite (lor_disjoint 48) by lia. replace ((b0 * 256 + b1) * 2 ^ 48 + b2 * 2 ^ 40) with (((b0 * 256 + b1) * 256 + b2) * 2 ^ 40) by lia.
  rewrite (lor_disjoint 40) by lia. replace (((b0 * 256 + b1) * 256 + b2) * 2 ^ 40 + b3 * 2 ^ 32) with ((((b0 * 256 + b1) * 256 + b2) * 256 + b3) * 2 ^ 32) by lia.
  set (x := ((b0 * 256 + b1) * 256 + b2) * 256 + b3).
  rewrite (lor_disjoint 32) by lia. replace (x * 2 ^ 32 + b4 * 2 ^ 24) with ((x * 256 + b4) * 2 ^ 24) by lia.
  rewrite (lor_disjoint 24) by lia. replace ((x * 256 + b4) * 2 ^ 24 + b5 * 2 ^ 16) with (((x * 256 + b4) * 256 + b5) * 2 ^ 16) by lia.
  rewrite (lor_disjoint 16) by lia. replace (((x * 256 + b4) * 256 + b5) * 2 ^ 16 + b6 * 2 ^ 8) with ((((x * 256 + b4) * 256 + b5) * 256 + b6) * 2 ^ 8) by lia.
  rewrite (lor_disjoint 8) by lia. unfold x. lia.
Qed.

Lemma load_be512_ok p n off :
  Forall byte_ok p -> 0 <= off -> off + 8 * Z.of_nat n <= zlen p -> load_be p off n = Ret (map (fun i => be_acc 0 (sub p (off + 8 * Z.of_nat i) 8)) (seq 0 n)).
Proof.
  intros Hp. revert off. induction n as [|n IH]; intros off H1 H2; [done|]. cbn [load_be]. rewrite load_be64_ok by (done || lia). ret. rewrite IH by lia. ret.
  cbn [seq map]. do 2 f_equal; [do 2 f_equal; lia|]. rewrite <- seq_shift, map_map. apply map_ext. intros i. do 2 f_equal. lia.
Qed.

Lemma compress512_ok s p : Forall byte_ok p -> 128 <= zlen p -> compress_one s p = Ret (compress512 s p).
Proof. intros Hp Hl. unfold compress_one, compress512, be_words64. rewrite load_be512_ok by (done || lia). by ret. Qed.

(** ** Streaming *)

(** The state after a whole number of blocks. *)
Definition chained512 (d : list Z) : work := foldl compress512 H0 (chunks 128 d).

Lemma chained512_app k d e : length d = (k * 128)%nat -> zlen e = 128 -> compress512 (chained512 d) e = chained512 (d ++ e).
Proof.
  intros H He. unfold chained512. rewrite (chunks_app 128 k) by (lia || done). rewrite foldl_app.
  rewrite <- (app_nil_r e) at 2. rewrite chunks_cons by (unfold zlen in He; lia). done.
Qed.

(** Any whole block, whatever follows it. *)
Lemma compress_chained512 k d p : length d = (k * 128)%nat -> Forall byte_ok p -> 128 <= zlen p ->
  compress_one (chained512 d) p = Ret (chained512 (d ++ ztake 128 p)).
Proof.
  intros Hd Hp Hl. rewrite compress512_ok by done. f_equal. rewrite <- (chained512_app k) by (done || (rewrite zlen_ztake; lia)).
  unfold compress512. replace (be_words64 (ztake 128 p)) with (be_words64 p); [done|].
  apply map_ext_in. intros i Hi%in_seq. by rewrite sub_ztake by lia.
Qed.

Lemma bulk_loop_ok n : forall k d p len, length d = (k * 128)%nat -> Forall byte_ok p -> 0 <= len <= zlen p -> 128 * Z.of_nat n <= len < 128 * Z.of_nat n + 128 ->
  bulk_loop n (chained512 d) p len = Ret (chained512 (d ++ ztake (128 * Z.of_nat n) p), padd p (128 * Z.of_nat n), len - 128 * Z.of_nat n).
Proof.
  unfold SHA512_BLOCK_LEN. induction n as [|n IH]; intros k d p len Hd Hp Hl Hn; cbn [bulk_loop]; unfold SHA512_BLOCK_LEN.
  - replace (128 <=? len) with false by lia. change (128 * Z.of_nat 0) with 0. by rewrite Z.sub_0_r, padd_0, app_nil_r.
  - replace (128 <=? len) with true by lia. rewrite (compress_chained512 k) by (done || lia). ret.
    rewrite (IH (k + 1)%nat); [|rewrite length_app, length_ztake by lia; lia|auto with pico|rewrite zlen_padd; lia|lia].
    replace (128 * Z.of_nat (S n)) with (128 + 128 * Z.of_nat n) by lia. rewrite <- app_assoc, <- ztake_split, padd_padd by lia. do 2 f_equal. lia.
Qed.

(** The context has taken in the message [m]: the whole blocks [d] are in the
    state, the rest [r] is in the buffer, and the two counters hold the length
    in bits. *)
Definition holds512 (c : sha512_ctx) (m : list Z) : Prop :=
  exists k d r g, m = d ++ r /\ length d = (k * 128)%nat /\ zlen r < 128 /\ s5_buf c = r ++ g /\ zlen (r ++ g) = 128 /\
    s5_buf_len c = zlen r /\ s5_state c = chained512 d /\ Forall byte_ok (r ++ g).

Definition counted (c : sha512_ctx) (n : Z) : Prop :=
  exists v, s5_bitlen_hi c = u64 (v / 2 ^ 64) /\ s5_bitlen_lo c = u64 v /\ v = 8 * n.

Definition absorbed512 (c : sha512_ctx) (m : list Z) : Prop := holds512 c m /\ counted c (zlen m).

Lemma add_bitlen_ok c n len : counted c n -> 0 <= len < 2 ^ 64 -> counted (add_bitlen c len) (n + len).
Proof.
  intros (v & Hh & Hlo & Hv) Hl. unfold add_bitlen, counted. cbn [s5_bitlen_hi s5_bitlen_lo]. exists (v + 8 * len).
  rewrite Hh, Hlo, Z.shiftl_mul_pow2, Z.shiftr_div_pow2 by lia. clear Hh Hlo. split; [|split; [|lia]].
  - assert (E : exists k : bool, (v + 8 * len) / 2 ^ 64 = v / 2 ^ 64 + len / 2 ^ 61 + Z.b2z k /\ (u64 (u64 v + u64 (len * 2 ^ 3)) <? u64 v) = k).
    { exists (2 ^ 64 <=? u64 v + u64 (len * 2 ^ 3)). unfold u64. split.
      - destruct (Z.leb_spec (2 ^ 64) (v mod 2 ^ 64 + (len * 2 ^ 3) mod 2 ^ 64)); cbn [Z.b2z]; dlia.
      - destruct (Z.leb_spec (2 ^ 64) (v mod 2 ^ 64 + (len * 2 ^ 3) mod 2 ^ 64)); [apply Z.ltb_lt|apply Z.ltb_ge]; dlia. }
    destruct E as (k & -> & ->). unfold u64. destruct k; cbn [Z.b2z]; [rewrite (Zplus_mod_idemp_l (v / 2 ^ 64) 1)|]; rewrite Zplus_mod_idemp_l; f_equal; lia.
  - unfold u64. rewrite <- Zplus_mod. f_equal. lia.
Qed.

Lemma bulk512_ok k d lo hi buf p len :
  length d = (k * 128)%nat -> zlen buf = 128 -> Forall byte_ok buf -> Forall byte_ok p -> 0 <= len <= zlen p ->
  exists c, bulk512 (mk_sha512 (chained512 d) lo hi buf 0) p len = Ret c /\ holds512 c (d ++ ztake len p) /\ s5_bitlen_lo c = lo /\ s5_bitlen_hi c = hi.
Proof.
  intros Hd Hb Hbb Hp Hl. unfold bulk512. cbn [s5_state s5_bitlen_lo s5_bitlen_hi s5_buf s5_buf_len]. unfold SHA512_BLOCK_LEN. set (n := Z.to_nat (len / 128)).
  assert (Hn : 128 * Z.of_nat n <= len < 128 * Z.of_nat n + 128) by (unfold n; rewrite Z2Nat.id; dlia).
  rewrite (bulk_loop_ok n k) by (done || lia). ret.
  assert (Em : d ++ ztake len p = (d ++ ztake (128 * Z.of_nat n) p) ++ ztake (len - 128 * Z.of_nat n) (padd p (128 * Z.of_nat n))).
  { rewrite <- app_assoc, <- ztake_split by lia. do 2 f_equal. lia. }
  assert (Hd' : length (d ++ ztake (128 * Z.of_nat n) p) = ((k + n) * 128)%nat) by (rewrite length_app, length_ztake by lia; lia).
  set (q := padd p (128 * Z.of_nat n)) in *. assert (Hq : zlen q = zlen p - 128 * Z.of_nat n) by (unfold q; rewrite zlen_padd; lia).
  set (len' := len - 128 * Z.of_nat n) in *. destruct (Z.eqb_spec len' 0) as [Ez|Ez].
  - eexists. split; [reflexivity|]. split; [|done]. exists (k + n)%nat, (d ++ ztake (128 * Z.of_nat n) p), [], buf. rewrite Em, Ez. done.
  - rewrite rdn_ok by lia. ret. assert (Hz : zlen (ztake len' q) = len') by (rewrite zlen_ztake; lia).
    destruct (split_buffer len' buf ltac:(lia)) as (u & g & -> & Hu). rewrite blit_start by lia. ret. eexists. split; [reflexivity|]. split; [|done].
    exists (k + n)%nat, (d ++ ztake (128 * Z.of_nat n) p), (ztake len' q), g. rewrite zlen_app in *. apply Forall_app in Hbb as [_ Hg].
    cbn [s5_buf s5_buf_len s5_state]. split_and!; try (done || lia). apply Forall_app. split; [|done]. apply Forall_ztake. unfold q. auto with pico.
Qed.

(** One more piece of the message. *)
Lemma sha512_update_ok c m p len :
  absorbed512 c m -> Forall byte_ok p -> 0 <= len <= zlen p -> len < 2 ^ 64 ->
  exists c', sha512_update c p len = Ret c' /\ absorbed512 c' (m ++ ztake len p).
Proof.
  intros ((k & d & r & g & -> & Hd & Hr & Eb & Lb & Hbl & Hst & Hby) & Hbit) Hp Hl Hmax. unfold sha512_update.
  pose proof (add_bitlen_ok c _ len Hbit ltac:(lia)) as Hc.
  assert (Hlen : zlen (d ++ r) + len = zlen ((d ++ r) ++ ztake len p)) by (rewrite (zlen_app (d ++ r)), zlen_ztake; lia). rewrite Hlen in Hc. clear Hlen Hbit.
  unfold add_bitlen in *. rewrite Hst, Eb, Hbl in *. clear Hst Eb Hbl. unfold absorbed512.
  set (lo := u64 _) in *. set (hi := u64 (_ + Z.shiftr len 61)) in *. clearbody lo hi. cbn [s5_state s5_bitlen_lo s5_bitlen_hi s5_buf s5_buf_len] in *.
  pose proof (zlen_nonneg r). apply Forall_app in Hby as [Hbr Hbg]. rewrite zlen_app in Lb. destruct (Z.eqb_spec (zlen r) 0) as [E0|E0].
  - destruct r; [|rewrite zlen_cons in E0; pose proof (zlen_nonneg r); lia]. change (zlen []) with 0. cbn [app]. rewrite app_nil_r in *.
    destruct (bulk512_ok k d lo hi g p len) as (c' & -> & Hh & E1 & E2); try (done || lia). exists c'. split; [done|]. split; [exact Hh|]. unfold counted in *. by rewrite E1, E2.
  - unfold SHA512_BLOCK_LEN. destruct (Z.ltb_spec len (128 - zlen r)).
    + rewrite rdn_ok by lia. ret. assert (Hz : zlen (ztake len p) = len) by (rewrite zlen_ztake; lia).
      destruct (split_buffer len g ltac:(lia)) as (u & g' & -> & Hu). rewrite blit_at by (done || lia). ret. eexists. split; [reflexivity|]. split; [|exact Hc].
      exists k, d, (r ++ ztake len p), g'. rewrite !zlen_app in *. apply Forall_app in Hbg as [_ Hg].
      cbn [s5_buf s5_buf_len s5_state]. rewrite <- !app_assoc. split_and!; try (done || lia). rewrite !Forall_app. auto with pico.
    + set (need := 128 - zlen r) in *. assert (Hz : zlen (ztake need p) = need) by (rewrite zlen_ztake; lia).
      rewrite rdn_ok by lia. ret. rewrite <- (app_nil_r g). rewrite blit_at by (done || lia). ret. rewrite !app_nil_r.
      assert (Hbuf : Forall byte_ok (r ++ ztake need p)) by (apply Forall_app; auto with pico).
      assert (Lbuf : zlen (r ++ ztake need p) = 128) by (rewrite zlen_app; lia). rewrite (compress_chained512 k) by (done || lia). ret. rewrite ztake_all by lia.
      destruct (bulk512_ok (k + 1) (d ++ r ++ ztake need p) lo hi (r ++ ztake need p) (padd p need) (len - need)) as (c' & -> & Hh & E1 & E2);
        try (done || lia || (rewrite zlen_padd; lia) || auto with pico).
      { rewrite length_app, Hd. unfold zlen in Lbuf. lia. }
      exists c'. split; [done|]. split; [|unfold counted in *; by rewrite E1, E2]. revert Hh. rewrite <- !app_assoc, <- ztake_split by lia. by replace (need + (len - need)) with len by lia.
Qed.

Definition buffer512_ok (c : sha512_ctx) : Prop := zlen (s5_buf c) = 128 /\ Forall byte_ok (s5_buf c).

Lemma sha512_init_ok c : buffer512_ok c -> absorbed512 (sha512_init c) [].
Proof. intros [Hl Hb]. split; [by exists O, [], [], (s5_buf c)|]. by exists 0. Qed.

Lemma holds512_bytes c m : holds512 c m -> zlen m mod 128 = s5_buf_len c.
Proof.
  intros (k & d & r & g & -> & Hd & Hr & _ & _ & -> & _). rewrite zlen_app. unfold zlen at 1. rewrite Hd.
  replace (Z.of_nat (k * 128) + zlen r) with (zlen r + Z.of_nat k * 128) by lia. rewrite Z.mod_add by lia. apply Z.mod_small. pose proof (zlen_nonneg r). lia.
Qed.

Lemma be_bytes_split n m v : be_bytes (n + m) v = be_bytes n (v / 256 ^ Z.of_nat m) ++ be_bytes m v.
Proof.
  induction n as [|n IH]; [done|]. cbn [Nat.add be_bytes app]. rewrite IH. f_equal. rewrite Z.div_div, <- Z.pow_add_r by lia. do 3 f_equal. lia.
Qed.

Lemma counted_field c n : counted c n -> store_be64 (s5_bitlen_hi c) ++ store_be64 (s5_bitlen_lo c) = be_bytes 16 (8 * n).
Proof. intros (v & -> & -> & <-). rewrite !store_be64_ok. symmetry. exact (be_bytes_split 8 8 v). Qed.

(** The block with the length, behind the bytes [t]. *)
Lemma padded512 k d t g hi lo A (kk : work -> res A) :
  length d = (k * 128)%nat -> Forall byte_ok t -> zlen t <= 112 -> zlen (t ++ g) = 128 ->
  (let! buf := blit (t ++ g) (zlen t) (replicate (Z.to_nat (112 - zlen t)) 0) in
   let! buf := blit buf 112 (store_be64 hi) in
   let! buf := blit buf 120 (store_be64 lo) in
   let! st := compress_one (chained512 d) buf in kk st)
  = kk (chained512 (d ++ t ++ replicate (Z.to_nat (112 - zlen t)) 0 ++ store_be64 hi ++ store_be64 lo)).
Proof.
  intros Hd Ht Hl Lb. rewrite zlen_app in Lb. set (z := replicate _ 0). assert (Hz : zlen z = 112 - zlen t) by (unfold z; rewrite zlen_replicate; lia).
  pose proof (store_be64_bytes hi) as Hh. pose proof (store_be64_bytes lo) as Hlo.
  assert (Lh : zlen (store_be64 hi) = 8) by done. assert (Ll : zlen (store_be64 lo) = 8) by done. generalize dependent (store_be64 hi). intros h Hh Lh. generalize dependent (store_be64 lo). intros l Hlo Ll.
  destruct (split_buffer (112 - zlen t) g ltac:(pose proof (zlen_nonneg t); lia)) as (u & g1 & -> & Hu). rewrite zlen_app in Lb.
  destruct (split_buffer 8 g1 ltac:(lia)) as (u1 & g2 & -> & Hu1). rewrite zlen_app in Lb.
  rewrite blit_at by (done || lia). ret. rewrite app_assoc. rewrite blit_at by (rewrite ?zlen_app; lia). ret. rewrite (app_assoc (t ++ z)).
  rewrite <- (app_nil_r g2). rewrite blit_at by (rewrite ?zlen_app; lia). ret. rewrite app_nil_r.
  assert (Hbuf : zlen (((t ++ z) ++ h) ++ l) = 128) by (rewrite !zlen_app; lia).
  rewrite (compress_chained512 k); [|done| |lia].
  - ret. rewrite ztake_all by lia. by rewrite <- !app_assoc.
  - rewrite !Forall_app. split_and!; try done. apply zeros_ok.
Qed.

Lemma pad_zeros512 n r : n mod 128 = r -> 0 <= r < 128 -> (111 - n) mod 128 = if 111 <? r then 239 - r else 111 - r.
Proof. intros H Hr. destruct (Z.ltb_spec 111 r); dlia. Qed.

(** Padding, the last block and the digest. *)
Lemma sha512_final_ok c m : absorbed512 c m -> sha512_final c = Ret (sha512_hash m, sha512_zero).
Proof.
  intros [Hh Hbit]. pose proof (holds512_bytes c m Hh) as Hmod. destruct Hh as (k & d & r & g & Hm & Hd & Hr & Eb & Lb & Hbl & Hst & Hby).
  unfold sha512_final, sha512_hash, sha512_pad. rewrite <- (counted_field c _ Hbit). rewrite Hst, Eb, Hbl in *.
  generalize (s5_bitlen_hi c), (s5_bitlen_lo c). intros hi lo. clear Hbit.
  pose proof (zlen_nonneg r). apply Forall_app in Hby as [Hbr Hbg]. rewrite zlen_app in Lb. rewrite (pad_zeros512 _ _ Hmod) by lia.
  destruct (split_buffer 1 g ltac:(lia)) as (u & g1 & -> & Hu). rewrite zlen_app in Lb. apply Forall_app in Hbg as [_ Hbg].
  rewrite wr_blit by (rewrite !zlen_app; lia). rewrite blit_at by done. ret. rewrite app_assoc. subst m.
  assert (Ht : zlen (r ++ [128]) = zlen r + 1) by (rewrite zlen_app; done).
  assert (Htb : Forall byte_ok (r ++ [128])) by (apply Forall_app; split; [done|]; repeat constructor; unfold byte_ok; lia). rewrite <- Ht.
  set (t := r ++ [128]) in *.
  replace (111 <? zlen r) with (112 <? zlen t) by lia. destruct (Z.ltb_spec 112 (zlen t)) as [Hc|Hc].
  - unfold SHA512_BLOCK_LEN. set (z := replicate _ 0). assert (Hz : zlen z = 128 - zlen t) by (unfold z; rewrite zlen_replicate; lia).
    rewrite <- (app_nil_r g1). rewrite blit_at by (done || lia). ret. rewrite app_nil_r.
    assert (Hbuf : zlen (t ++ z) = 128) by (rewrite zlen_app; lia). assert (Hbb : Forall byte_ok (t ++ z)) by (apply Forall_app; split; [done|apply zeros_ok]).
    rewrite (compress_chained512 k) by (done || lia). ret. rewrite ztake_all by lia.
    rewrite (padded512 (k + 1) (d ++ t ++ z) [] (t ++ z)); try done.
    + change (zlen []) with 0. cbn [app]. replace (239 - zlen r) with ((128 - zlen t) + (112 - 0)) by lia. rewrite zeros_app by lia. fold z. unfold chained512, t. rewrite <- !app_assoc. reflexivity.
    + rewrite length_app, Hd. unfold zlen in Hbuf. lia.
  - ret. rewrite (padded512 k d t g1); try done; [|rewrite zlen_app; lia]. replace (112 - zlen t) with (111 - zlen r) by lia.
    unfold chained512, t. rewrite <- !app_assoc. reflexivity.
Qed.

(** A message in pieces. *)
Fixpoint sha512_updates (c : sha512_ctx) (l : list (list Z)) : res sha512_ctx :=
  match l with
  | [] => Ret c
  | p :: l => let! c := sha512_update c p (zlen p) in sha512_updates c l
  end.

(** A piece of a message: bytes, of a length a [size_t] holds. *)
Definition piece_ok (p : list Z) : Prop := Forall byte_ok p /\ zlen p < 2 ^ 64.

Lemma sha512_updates_ok l : forall c m, absorbed512 c m -> Forall piece_ok l -> exists c', sha512_updates c l = Ret c' /\ absorbed512 c' (m ++ concat l).
Proof.
  induction l as [|p l IH]; intros c m Hc Hl; [cbn; rewrite app_nil_r; by eauto|]. inversion_clear Hl as [|? ? [Hp Hn] Hl']. cbn [sha512_updates concat].
  destruct (sha512_update_ok c m p (zlen p) Hc Hp) as (c1 & -> & H1); [pose proof (zlen_nonneg p); lia|done|]. ret. rewrite ztake_all in H1 by lia.
  destruct (IH c1 _ H1 Hl') as (c2 & -> & H2). rewrite <- app_assoc in H2. by eauto.
Qed.

Lemma sha512_stream c l : buffer512_ok c -> Forall piece_ok l ->
  (let! c' := sha512_updates (sha512_init c) l in sha512_final c') = Ret (sha512_hash (concat l), sha512_zero).
Proof.
  intros H Hl. destruct (sha512_updates_ok l (sha512_init c) []) as (c' & -> & Hc); [by apply sha512_init_ok|done|]. ret. by apply sha512_final_ok.
Qed.

Lemma sha512_ok c p len : buffer512_ok c -> Forall byte_ok p -> 0 <= len <= zlen p -> len < 2 ^ 64 -> sha512 c p len = Ret (sha512_hash (ztake len p)).
Proof.
  intros Hc Hp Hl Hn. unfold sha512. destruct (sha512_update_ok (sha512_init c) [] p len) as (c' & -> & Ha); [by apply sha512_init_ok|done..|]. ret.
  by rewrite (sha512_final_ok c' _ Ha).
Qed.

Lemma digest512_ok s : zlen (digest s) = 64 /\ Forall byte_ok (digest s).
Proof. split; [done|]. unfold digest, store_be64. cbn [map concat app]. repeat constructor; apply u8_byte. Qed.

Lemma sha512_hash_ok m : zlen (sha512_hash m) = 64 /\ Forall byte_ok (sha512_hash m).
Proof. apply digest512_ok. Qed.


