(* ===== verification/Packet.v ===== *)
(** * Protected QUIC packets

    [userspace/quic/packet.c]: building and parsing Initial, Handshake and
    1-RTT packets, with the AEAD ([Aead]) and the header protection.  The three
    packet types share their code line by line; each shared stretch is one
    definition here.  A builder returns its size (0 is an error) and the output
    buffer; a parser returns the packet ([None] is -1) and the scratch buffer.
    Sizes are [size_t]: additions that can wrap are written with [u64]. *)

From Stdlib Require Import ZArith Lia.
From stdpp Require Import list numbers option.
From S2P Require Import Prelude Util Words Aead Aes AesGcm Varint.

Definition QUIC_V1_VERSION : Z := 1.
Definition QUIC_PKT_MIN : Z := 1200.
Definition QUIC_TAG_LEN : Z := 16.
Definition QUIC_HP_SAMPLE_LEN : Z := 16.
Definition QUIC_MAX_CID_LEN : Z := 20.
Definition QUIC_MAX_TOKEN_LEN : Z := 256.

Record quic_initial_keys_t := mk_qkeys { qk_key : list Z; qk_iv : list Z; qk_hp : list Z }.

Record quic_initial_pkt_t := mk_ipkt {
  i_version : Z;
  i_dcid : list Z; i_dcid_len : Z;
  i_scid : list Z; i_scid_len : Z;
  i_token : list Z; i_token_len : Z;
  i_pn : Z; i_pn_len : Z;
  i_payload : list Z; i_payload_len : Z
}.

Record quic_handshake_pkt_t := mk_hpkt {
  h_version : Z;
  h_dcid : list Z; h_dcid_len : Z;
  h_scid : list Z; h_scid_len : Z;
  h_pn : Z; h_pn_len : Z;
  h_payload : list Z; h_payload_len : Z
}.

Record quic_short_pkt_t := mk_spkt {
  s_dcid : list Z; s_dcid_len : Z;
  s_pn : Z; s_pn_len : Z;
  s_payload : list Z; s_payload_len : Z;
  s_spin : Z; s_key_phase : Z
}.

Definition make_nonce (iv : list Z) (pn : Z) : res (list Z) :=
  let! nonce := rdn iv 12 in
  nonce_loop 8 0 pn nonce.

(** ** Header protection *)

(** [for (i = 0; i < pn_len; i++) pn_bytes[i] ^= mask[1 + i];] from [i] on,
    where [pn_bytes] is [out + pn_off]. *)
Fixpoint mask_loop (n : nat) (i : Z) (out mask : list Z) (pn_off : Z) : res (list Z) :=
  match n with
  | O => Ret out
  | S n' =>
      let! b := rd out (pn_off + i) in
      let! m := rd mask (1 + i) in
      let! out := wr out (pn_off + i) (Z.lxor b m) in
      mask_loop n' (i + 1) out mask pn_off
  end.

(** The sample, the first byte and the packet number are parts of [out]. *)
Definition hp_apply_mask (hp_key out : list Z) (sample_off pn_off pn_len byte0_mask : Z) : res (list Z) :=
  let! aes := aes128_init hp_key in
  let! mask := aes128_encrypt_block aes (padd out sample_off) in
  let! b := rd out 0 in
  let! m := rd mask 0 in
  let! out := wr out 0 (Z.lxor b (Z.land m byte0_mask)) in
  mask_loop (Z.to_nat pn_len) 0 out mask pn_off.

(** ** Building *)

(** The packet number, truncated and big-endian. *)
Definition pn_wire (pn pn_len : Z) : list Z :=
  map (fun i => u8 (Z.shiftr pn (8 * (pn_len - 1 - Z.of_nat i)))) (seq 0 (Z.to_nat pn_len)).

(** First byte, version and connection ids of a long header; [k] continues
    with the buffer and the offset. *)
Definition long_prefix (out : list Z) (out_cap byte0 version : Z) (dcid : list Z) (dcid_len : Z) (scid : list Z) (scid_len : Z)
    (k : list Z -> Z -> res (Z * list Z)) : res (Z * list Z) :=
  if out_cap <? 1 then Ret (0, out)
  else
    let! out := wr out 0 byte0 in
    if out_cap <? 1 + 4 then Ret (0, out)
    else
      let! out := blit out 1 (word_bytes version) in
      if out_cap <? 5 + 1 + dcid_len then Ret (0, out)
      else
        let! out := wr out 5 (u8 dcid_len) in
        let! d := rdn dcid dcid_len in
        let! out := blit out 6 d in
        let off := 6 + dcid_len in
        if out_cap <? off + 1 + scid_len then Ret (0, out)
        else
          let! out := wr out off (u8 scid_len) in
          let! s := rdn scid scid_len in
          let! out := blit out (off + 1) s in
          k out (off + 1 + scid_len).

(** Length field and packet number; [k] continues with [pn_off] and the offset
    behind the packet number. *)
Definition length_and_pn (out : list Z) (out_cap off length_value pn pn_len : Z) (k : list Z -> Z -> Z -> res (Z * list Z)) : res (Z * list Z) :=
  if 0x3fff <? length_value then Ret (0, out)
  else if out_cap <? off + 2 then Ret (0, out)
  else
    let! out := wr out off (u8 (Z.lor 0x40 (Z.land (Z.shiftr length_value 8) 0x3f))) in
    let! out := wr out (off + 1) (u8 length_value) in
    let pn_off := off + 2 in
    if out_cap <? pn_off + pn_len then Ret (0, out)
    else
      let! out := blit out pn_off (pn_wire pn pn_len) in
      k out pn_off (pn_off + pn_len).

(** The AEAD over the header and the plaintext in place, then the header
    protection. *)
Definition seal_and_protect (out : list Z) (keys : quic_initial_keys_t) (pt_off prot_pt_len pn_off pn pn_len byte0_mask : Z) : res (Z * list Z) :=
  let! nonce := make_nonce (qk_iv keys) pn in
  let! (ct, tag) := aes128_gcm_seal (qk_key keys) nonce out pt_off (padd out pt_off) prot_pt_len in
  let! out := blit out pt_off ct in
  let! out := blit out (pt_off + prot_pt_len) tag in
  let off := pt_off + prot_pt_len + QUIC_TAG_LEN in
  if off <? pn_off + 4 + QUIC_HP_SAMPLE_LEN then Ret (0, out)
  else
    let! out := hp_apply_mask (qk_hp keys) out (pn_off + 4) pn_off pn_len byte0_mask in
    Ret (off, out).

(** [if (n) memcpy(out + off, p, n);] *)
Definition copy_if (out : list Z) (off : Z) (p : list Z) (n : Z) : res (list Z) :=
  if n =? 0 then Ret out else let! d := rdn p n in blit out off d.

Definition quic_initial_build (out : list Z) (out_cap : Z) (pkt : quic_initial_pkt_t) (keys : quic_initial_keys_t) (pad_to_min : bool)
    : res (Z * list Z) :=
  if QUIC_MAX_CID_LEN <? i_dcid_len pkt then Ret (0, out)
  else if QUIC_MAX_CID_LEN <? i_scid_len pkt then Ret (0, out)
  else if QUIC_MAX_TOKEN_LEN <? i_token_len pkt then Ret (0, out)
  else if (i_pn_len pkt <? 1) || (4 <? i_pn_len pkt) then Ret (0, out)
  else if negb (i_version pkt =? QUIC_V1_VERSION) then Ret (0, out)
  else
    let frame_len := i_payload_len pkt in
    let byte0 := u8 (Z.lor 0xc0 (u8 (i_pn_len pkt - 1))) in
    long_prefix out out_cap byte0 (i_version pkt) (i_dcid pkt) (i_dcid_len pkt) (i_scid pkt) (i_scid_len pkt) (fun out off =>
      let tlen := quic_varint_encode 8 (i_token_len pkt) in
      if out_cap <? off + zlen tlen + i_token_len pkt then Ret (0, out)
      else
        let! out := blit out off tlen in
        let off := off + zlen tlen in
        let! out := copy_if out off (i_token pkt) (i_token_len pkt) in
        let off := off + i_token_len pkt in
        let projected := u64 (off + 2 + i_pn_len pkt + frame_len + QUIC_TAG_LEN) in
        let pad := if pad_to_min && (projected <? QUIC_PKT_MIN) then QUIC_PKT_MIN - projected else 0 in
        let prot_pt_len := u64 (frame_len + pad) in
        let length_value := u64 (i_pn_len pkt + prot_pt_len + QUIC_TAG_LEN) in
        length_and_pn out out_cap off length_value (i_pn pkt) (i_pn_len pkt) (fun out pn_off off =>
          if out_cap <? u64 (off + prot_pt_len + QUIC_TAG_LEN) then Ret (0, out)
          else
            let! out := copy_if out off (i_payload pkt) frame_len in
            let! out := blit out (off + frame_len) (replicate (Z.to_nat pad) 0) in
            seal_and_protect out keys off prot_pt_len pn_off (i_pn pkt) (i_pn_len pkt) 0x0f)).

Definition quic_handshake_build (out : list Z) (out_cap : Z) (pkt : quic_handshake_pkt_t) (keys : quic_initial_keys_t) : res (Z * list Z) :=
  if QUIC_MAX_CID_LEN <? h_dcid_len pkt then Ret (0, out)
  else if QUIC_MAX_CID_LEN <? h_scid_len pkt then Ret (0, out)
  else if (h_pn_len pkt <? 1) || (4 <? h_pn_len pkt) then Ret (0, out)
  else if negb (h_version pkt =? QUIC_V1_VERSION) then Ret (0, out)
  else
    let prot_pt_len := h_payload_len pkt in
    let byte0 := u8 (Z.lor 0xe0 (u8 (h_pn_len pkt - 1))) in
    long_prefix out out_cap byte0 (h_version pkt) (h_dcid pkt) (h_dcid_len pkt) (h_scid pkt) (h_scid_len pkt) (fun out off =>
      let length_value := u64 (h_pn_len pkt + prot_pt_len + QUIC_TAG_LEN) in
      length_and_pn out out_cap off length_value (h_pn pkt) (h_pn_len pkt) (fun out pn_off off =>
        if out_cap <? u64 (off + prot_pt_len + QUIC_TAG_LEN) then Ret (0, out)
        else
          let! out := copy_if out off (h_payload pkt) prot_pt_len in
          seal_and_protect out keys off prot_pt_len pn_off (h_pn pkt) (h_pn_len pkt) 0x0f)).

Definition quic_short_build (out : list Z) (out_cap : Z) (pkt : quic_short_pkt_t) (keys : quic_initial_keys_t) : res (Z * list Z) :=
  if QUIC_MAX_CID_LEN <? s_dcid_len pkt then Ret (0, out)
  else if (s_pn_len pkt <? 1) || (4 <? s_pn_len pkt) then Ret (0, out)
  else
    let byte0 := u8 (Z.lor (Z.lor (Z.lor 0x40 (Z.shiftl (Z.land (s_spin pkt) 1) 5)) (Z.shiftl (Z.land (s_key_phase pkt) 1) 2)) (u8 (s_pn_len pkt - 1))) in
    if out_cap <? 1 then Ret (0, out)
    else
      let! out := wr out 0 byte0 in
      if out_cap <? 1 + s_dcid_len pkt then Ret (0, out)
      else
        let! d := rdn (s_dcid pkt) (s_dcid_len pkt) in
        let! out := blit out 1 d in
        let pn_off := 1 + s_dcid_len pkt in
        if out_cap <? pn_off + s_pn_len pkt then Ret (0, out)
        else
          let! out := blit out pn_off (pn_wire (s_pn pkt) (s_pn_len pkt)) in
          let off := pn_off + s_pn_len pkt in
          if out_cap <? u64 (off + s_payload_len pkt + QUIC_TAG_LEN) then Ret (0, out)
          else
            let! out := copy_if out off (s_payload pkt) (s_payload_len pkt) in
            seal_and_protect out keys off (s_payload_len pkt) pn_off (s_pn pkt) (s_pn_len pkt) 0x1f.

(** ** Parsing *)

(** First byte, version and connection ids of a long header whose type bits
    are [typ]: the bytes and the offset behind them. *)
Definition parse_long_prefix (inp : list Z) (in_len typ : Z) : res (option (Z * Z * list Z * list Z * Z)) :=
  if in_len <? 7 then Ret None
  else
    let! byte0 := rd inp 0 in
    if negb (Z.land byte0 0xf0 =? typ) then Ret None
    else
      let! ver := rd32be inp 1 in
      if negb (ver =? QUIC_V1_VERSION) then Ret None
      else
        let! dcid_len := rd inp 5 in
        if (QUIC_MAX_CID_LEN <? dcid_len) || (in_len <? 6 + dcid_len) then Ret None
        else
          let! dcid := rdn (padd inp 6) dcid_len in
          let off := 6 + dcid_len in
          if in_len <? off + 1 then Ret None
          else
            let! scid_len := rd inp off in
            if (QUIC_MAX_CID_LEN <? scid_len) || (in_len <? off + 1 + scid_len) then Ret None
            else
              let! scid := rdn (padd inp (off + 1)) scid_len in
              Ret (Some (byte0, ver, dcid, scid, off + 1 + scid_len)).

(** A varint at [off]: its value and the offset behind it. *)
Definition parse_varint (inp : list Z) (in_len off : Z) : res (option (Z * Z)) :=
  match quic_varint_decode (padd inp off) (in_len - off) with
  | Ret (n, v) => Ret (Some (v, off + n))
  | Fail => Ret None
  | Oob => Oob
  end.

(** The unmasked first byte, packet number length and packet number bytes. *)
Definition unmask (inp hp_key : list Z) (pn_off byte0 byte0_mask : Z) : res (Z * Z * list Z) :=
  let! aes := aes128_init hp_key in
  let! mask := aes128_encrypt_block aes (padd inp (pn_off + 4)) in
  let! m := rd mask 0 in
  let real_byte0 := Z.lxor byte0 (Z.land m byte0_mask) in
  let pn_len := Z.land real_byte0 0x03 + 1 in
  let! b := rdn (padd inp pn_off) pn_len in
  let! ms := rdn (padd mask 1) pn_len in
  Ret (real_byte0, pn_len, xor_bytes b ms).

(** [pn = (pn << 8) | pn_bytes[i]] *)
Definition pn_value (bs : list Z) : Z := foldl (fun pn b => Z.lor (u64 (Z.shiftl pn 8)) b) 0 bs.

(** The unprotected header rebuilt in [scratch]. *)
Definition rebuild_header (inp scratch : list Z) (hdr_len real_byte0 pn_off : Z) (pn_bytes : list Z) : res (list Z) :=
  let! h := rdn inp hdr_len in
  let! scratch := blit scratch 0 h in
  let! scratch := wr scratch 0 real_byte0 in
  blit scratch pn_off pn_bytes.

(** The AEAD over the rebuilt header; the plaintext goes behind it. *)
Definition open_payload (inp scratch : list Z) (keys : quic_initial_keys_t) (hdr_len ct_len pn : Z) : res (option (list Z) * list Z) :=
  let! nonce := make_nonce (qk_iv keys) pn in
  match aes128_gcm_open (qk_key keys) nonce scratch hdr_len (padd inp hdr_len) ct_len (padd inp (hdr_len + ct_len)) with
  | Oob => Oob
  | Fail => Ret (None, scratch)
  | Ret pt => let! scratch := blit scratch hdr_len pt in Ret (Some pt, scratch)
  end.

(** A long-header packet from its packet number on, [length_v] bytes: packet
    number, its length and the payload. *)
Definition parse_tail (inp : list Z) (in_len : Z) (keys : quic_initial_keys_t) (byte0 pn_off length_v : Z) (scratch : list Z) (scratch_cap : Z)
    : res (option (Z * Z * list Z) * list Z) :=
  if in_len <? pn_off + length_v then Ret (None, scratch)
  else if in_len <? pn_off + 4 + QUIC_HP_SAMPLE_LEN then Ret (None, scratch)
  else
    let! (real_byte0, pn_len, pn_bytes) := unmask inp (qk_hp keys) pn_off byte0 0x0f in
    let pn := pn_value pn_bytes in
    let hdr_len := pn_off + pn_len in
    if scratch_cap <? hdr_len then Ret (None, scratch)
    else
      let! scratch := rebuild_header inp scratch hdr_len real_byte0 pn_off pn_bytes in
      let enc_len := u64 (length_v - pn_len) in
      if enc_len <? QUIC_TAG_LEN then Ret (None, scratch)
      else
        let ct_len := enc_len - QUIC_TAG_LEN in
        if scratch_cap <? u64 (hdr_len + ct_len) then Ret (None, scratch)
        else
          let! (pt, scratch) := open_payload inp scratch keys hdr_len ct_len pn in
          match pt with
          | None => Ret (None, scratch)
          | Some pt => Ret (Some (pn, pn_len, pt), scratch)
          end.

(** A long-header packet from its length field on. *)
Definition parse_protected (inp : list Z) (in_len : Z) (keys : quic_initial_keys_t) (byte0 off : Z) (scratch : list Z) (scratch_cap : Z)
    : res (option (Z * Z * list Z) * list Z) :=
  let! r := parse_varint inp in_len off in
  match r with
  | None => Ret (None, scratch)
  | Some (length_v, off) => parse_tail inp in_len keys byte0 off length_v scratch scratch_cap
  end.

Definition quic_initial_parse (inp : list Z) (in_len : Z) (keys : quic_initial_keys_t) (scratch : list Z) (scratch_cap : Z)
    : res (option quic_initial_pkt_t * list Z) :=
  let! r := parse_long_prefix inp in_len 0xc0 in
  match r with
  | None => Ret (None, scratch)
  | Some (byte0, ver, dcid, scid, off) =>
      let! t := parse_varint inp in_len off in
      match t with
      | None => Ret (None, scratch)
      | Some (token_len, off) =>
          if QUIC_MAX_TOKEN_LEN <? token_len then Ret (None, scratch)
          else if in_len <? off + token_len then Ret (None, scratch)
          else
            let! token := rdn (padd inp off) token_len in
            let! (p, scratch) := parse_protected inp in_len keys byte0 (off + token_len) scratch scratch_cap in
            match p with
            | None => Ret (None, scratch)
            | Some (pn, pn_len, pt) =>
                Ret (Some (mk_ipkt ver dcid (zlen dcid) scid (zlen scid) token token_len pn pn_len pt (zlen pt)), scratch)
            end
      end
  end.

Definition quic_handshake_parse (inp : list Z) (in_len : Z) (keys : quic_initial_keys_t) (scratch : list Z) (scratch_cap : Z)
    : res (option quic_handshake_pkt_t * list Z) :=
  let! r := parse_long_prefix inp in_len 0xe0 in
  match r with
  | None => Ret (None, scratch)
  | Some (byte0, ver, dcid, scid, off) =>
      let! (p, scratch) := parse_protected inp in_len keys byte0 off scratch scratch_cap in
      match p with
      | None => Ret (None, scratch)
      | Some (pn, pn_len, pt) => Ret (Some (mk_hpkt ver dcid (zlen dcid) scid (zlen scid) pn pn_len pt (zlen pt)), scratch)
      end
  end.

Definition quic_short_parse (inp : list Z) (in_len expected_dcid_len : Z) (keys : quic_initial_keys_t) (scratch : list Z) (scratch_cap : Z)
    : res (option quic_short_pkt_t * list Z) :=
  if QUIC_MAX_CID_LEN <? expected_dcid_len then Ret (None, scratch)
  else if in_len <? 1 + expected_dcid_len + 1 + 4 + QUIC_TAG_LEN then Ret (None, scratch)
  else
    let! byte0 := rd inp 0 in
    if negb (Z.land byte0 0x80 =? 0) then Ret (None, scratch)
    else if Z.land byte0 0x40 =? 0 then Ret (None, scratch)
    else
      let pn_off := 1 + expected_dcid_len in
      if in_len <? pn_off + 4 + QUIC_HP_SAMPLE_LEN then Ret (None, scratch)
      else
        let! (real_byte0, pn_len, pn_bytes) := unmask inp (qk_hp keys) pn_off byte0 0x1f in
        if in_len <? pn_off + pn_len + QUIC_TAG_LEN then Ret (None, scratch)
        else
          let pn := pn_value pn_bytes in
          let hdr_len := pn_off + pn_len in
          if scratch_cap <? hdr_len then Ret (None, scratch)
          else
            let! scratch := rebuild_header inp scratch hdr_len real_byte0 pn_off pn_bytes in
            if in_len <? hdr_len + QUIC_TAG_LEN then Ret (None, scratch)
            else
              let ct_len := in_len - hdr_len - QUIC_TAG_LEN in
              if scratch_cap <? hdr_len + ct_len then Ret (None, scratch)
              else
                let! (pt, scratch) := open_payload inp scratch keys hdr_len ct_len pn in
                match pt with
                | None => Ret (None, scratch)
                | Some pt =>
                    let! dcid := rdn (padd inp 1) expected_dcid_len in
                    Ret (Some (mk_spkt dcid expected_dcid_len pn pn_len pt ct_len
                                 (Z.land (Z.shiftr real_byte0 5) 1) (Z.land (Z.shiftr real_byte0 2) 1)), scratch)
                end.

(** RFC 9001, appendix A.3: the server's Initial packet. *)
Definition rfc_keys : quic_initial_keys_t :=
  mk_qkeys [0xcf;0x3a;0x53;0x31;0x65;0x3c;0x36;0x4c;0x88;0xf0;0xf3;0x79;0xb6;0x06;0x7e;0x37]
    [0x0a;0xc1;0x49;0x3c;0xa1;0x90;0x58;0x53;0xb0;0xbb;0xa0;0x3e] [0xc2;0x06;0xb8;0xd9;0xb9;0xf0;0xf3;0x76;0x44;0x43;0x0b;0x49;0x0e;0xea;0xa3;0x14].
Definition rfc_frames : list Z :=
  [0x02;0x00;0x00;0x00;0x00;0x06;0x00;0x40;0x5a;0x02;0x00;0x00;0x56;0x03;0x03;0xee;0xfc;0xe7;0xf7;0xb3;0x7b;0xa1;0xd1;0x63;0x2e;0x96;0x67;0x78;
   0x25;0xdd;0xf7;0x39;0x88;0xcf;0xc7;0x98;0x25;0xdf;0x56;0x6d;0xc5;0x43;0x0b;0x9a;0x04;0x5a;0x12;0x00;0x13;0x01;0x00;0x00;0x2e;0x00;0x33;0x00;
   0x24;0x00;0x1d;0x00;0x20;0x9d;0x3c;0x94;0x0d;0x89;0x69;0x0b;0x84;0xd0;0x8a;0x60;0x99;0x3c;0x14;0x4e;0xca;0x68;0x4d;0x10;0x81;0x28;0x7c;0x83;
   0x4d;0x53;0x11;0xbc;0xf3;0x2b;0xb9;0xda;0x1a;0x00;0x2b;0x00;0x02;0x03;0x04].
Definition rfc_wire : list Z :=
  [0xcf;0x00;0x00;0x00;0x01;0x00;0x08;0xf0;0x67;0xa5;0x50;0x2a;0x42;0x62;0xb5;0x00;0x40;0x75;0xc0;0xd9;0x5a;0x48;0x2c;0xd0;0x99;0x1c;0xd2;0x5b;
   0x0a;0xac;0x40;0x6a;0x58;0x16;0xb6;0x39;0x41;0x00;0xf3;0x7a;0x1c;0x69;0x79;0x75;0x54;0x78;0x0b;0xb3;0x8c;0xc5;0xa9;0x9f;0x5e;0xde;0x4c;0xf7;
   0x3c;0x3e;0xc2;0x49;0x3a;0x18;0x39;0xb3;0xdb;0xcb;0xa3;0xf6;0xea;0x46;0xc5;0xb7;0x68;0x4d;0xf3;0x54;0x8e;0x7d;0xde;0xb9;0xc3;0xbf;0x9c;0x73;
   0xcc;0x3f;0x3b;0xde;0xd7;0x4b;0x56;0x2b;0xfb;0x19;0xfb;0x84;0x02;0x2f;0x8e;0xf4;0xcd;0xd9;0x37;0x95;0xd7;0x7d;0x06;0xed;0xbb;0x7a;0xaf;0x2f;
   0x58;0x89;0x18;0x50;0xab;0xbd;0xca;0x3d;0x20;0x39;0x8c;0x27;0x64;0x56;0xcb;0xc4;0x21;0x58;0x40;0x7d;0xd0;0x74;0xee].
Definition rfc_pkt : quic_initial_pkt_t :=
  mk_ipkt 1 [] 0 [0xf0;0x67;0xa5;0x50;0x2a;0x42;0x62;0xb5] 8 [] 0 1 2 rfc_frames 99.

Lemma rfc_initial_build : quic_initial_build (replicate 135 0) 135 rfc_pkt rfc_keys false = Ret (135, rfc_wire).
Proof. by vm_compute. Qed.

Lemma rfc_initial_parse : rbind (quic_initial_parse rfc_wire 135 rfc_keys (replicate 200 0) 200) (fun r => Ret (fst r)) = Ret (Some rfc_pkt).
Proof. by vm_compute. Qed.

(** ** What the wire carries *)

Definition keys_ok (keys : quic_initial_keys_t) : Prop :=
  (Forall byte_ok (qk_key keys) /\ zlen (qk_key keys) = 16) /\ (Forall byte_ok (qk_iv keys) /\ zlen (qk_iv keys) = 12) /\
  (Forall byte_ok (qk_hp keys) /\ zlen (qk_hp keys) = 16).

(** The unprotected header is [b0], [mid] and the packet number [pnb]. *)
Record parts := mk_parts { pt_b0 : Z; pt_mid : list Z; pt_pnb : list Z; pt_pn : Z; pt_payload : list Z }.

Definition plain_header (p : parts) : list Z := pt_b0 p :: pt_mid p ++ pt_pnb p.

Definition sealed (keys : quic_initial_keys_t) (p : parts) : list Z :=
  let nonce := aead_nonce (qk_iv keys) (pt_pn p) in
  let c := aead_enc (A := aes128_gcm) (qk_key keys) nonce (pt_payload p) in
  c ++ aead_mac (A := aes128_gcm) (qk_key keys) nonce (plain_header p) c.

Definition hp_mask (keys : quic_initial_keys_t) (p : parts) : list Z :=
  aes_block (qk_hp keys) (sub (sealed keys p) (4 - zlen (pt_pnb p)) 16).

(** The protected packet; [m] selects the protected bits of the first byte. *)
Definition wire_form (keys : quic_initial_keys_t) (p : parts) (m : Z) : list Z :=
  Z.lxor (pt_b0 p) (Z.land (nth 0 (hp_mask keys p) 0) m) :: pt_mid p ++ xor_bytes (pt_pnb p) (drop 1 (hp_mask keys p)) ++ sealed keys p.

(** A packet that can be protected: a packet number of one to four bytes, and
    enough bytes behind it for the sample. *)
Definition parts_ok (p : parts) : Prop :=
  byte_ok (pt_b0 p) /\ Forall byte_ok (pt_mid p) /\ Forall byte_ok (pt_pnb p) /\ Forall byte_ok (pt_payload p) /\
  1 <= zlen (pt_pnb p) <= 4 /\ 0 <= pt_pn p < 2 ^ 64 /\ 4 <= zlen (pt_pnb p) + zlen (pt_payload p) /\
  zlen (pt_mid p) + zlen (pt_payload p) < 2 ^ 62.

#[local] Opaque aead_enc aead_mac aes_block aes128_gcm_seal aes128_gcm_open aes128_init aes128_encrypt_block.

Lemma nonce_keyed keys pn : keys_ok keys -> aead_keyed aes128_gcm (qk_key keys) (aead_nonce (qk_iv keys) pn).
Proof. intros (Hk & [Hi Hil] & _). split; [exact Hk|]. split; [by apply aead_nonce_bytes|by apply length_aead_nonce]. Qed.

Lemma make_nonce_ok keys pn : keys_ok keys -> 0 <= pn < 2 ^ 64 -> make_nonce (qk_iv keys) pn = Ret (aead_nonce (qk_iv keys) pn).
Proof. intros (_ & [Hi Hil] & _) Hp. unfold make_nonce. rewrite rdn_ok, ztake_all by lia. ret. by apply nonce_loop_ok. Qed.

(** The AEAD of this component, through its interface. *)
Lemma zlen_sealed keys p : keys_ok keys -> zlen (sealed keys p) = zlen (pt_payload p) + 16.
Proof.
  intros Hk. pose proof (nonce_keyed keys (pt_pn p) Hk). unfold sealed. by rewrite zlen_app, zlen_aead_mac, zlen_aead_enc.
Qed.

Lemma sealed_bytes keys p : keys_ok keys -> Forall byte_ok (pt_payload p) -> Forall byte_ok (sealed keys p).
Proof.
  intros Hk Hp. pose proof (nonce_keyed keys (pt_pn p) Hk) as HK. apply Forall_app. split; [by apply aead_enc_bytes|by apply aead_mac_bytes].
Qed.

(** The mask is sixteen bytes whatever surrounds the sample. *)
Lemma hp_mask_ok keys p :
  keys_ok keys -> parts_ok p -> length (hp_mask keys p) = 16%nat /\ Forall byte_ok (hp_mask keys p) /\
  forall pre post, zlen pre = 1 + zlen (pt_mid p) + zlen (pt_pnb p) ->
    (let! aes := aes128_init (qk_hp keys) in aes128_encrypt_block aes (padd (pre ++ sealed keys p ++ post) (1 + zlen (pt_mid p) + 4))) = Ret (hp_mask keys p).
Proof.
  intros Hk (_ & _ & _ & Hpb & Hn & _ & H4 & _). pose proof (zlen_sealed keys p Hk) as Hs. pose proof (sealed_bytes keys p Hk Hpb) as Hsb.
  destruct Hk as (_ & _ & [Hh Hhl]). destruct (aes_key_ok (qk_hp keys) Hh ltac:(lia)) as (rk & E & Hrk).
  set (smp := sub (sealed keys p) (4 - zlen (pt_pnb p)) 16). assert (Hl : zlen smp = 16) by (apply zlen_sub; lia).
  destruct (Hrk smp ltac:(unfold smp; auto with pico) ltac:(lia)) as (E1 & L1 & B1). split; [exact L1|]. split; [exact B1|].
  intros pre post Hpre. rewrite E. ret. pose proof (zlen_nonneg (pt_mid p)).
  assert (Ep : padd (pre ++ sealed keys p ++ post) (1 + zlen (pt_mid p) + 4) = smp ++ padd (sealed keys p ++ post) (4 - zlen (pt_pnb p) + 16)).
  { replace (1 + zlen (pt_mid p) + 4) with (zlen pre + (4 - zlen (pt_pnb p))) by lia. rewrite <- padd_padd by (pose proof (zlen_nonneg pre); lia).
    rewrite padd_app by done. rewrite <- (padd_padd _ (4 - zlen (pt_pnb p)) 16) by lia. unfold smp, sub.
    assert (Ec : padd (sealed keys p ++ post) (4 - zlen (pt_pnb p)) = padd (sealed keys p) (4 - zlen (pt_pnb p)) ++ post).
    { unfold padd. rewrite drop_app_le by (unfold zlen in *; lia). done. }
    rewrite Ec. unfold ztake, padd. rewrite drop_app_le by (rewrite length_drop; unfold zlen in *; lia). rewrite app_assoc, take_drop. done. }
  rewrite Ep, encrypt_prefix by done. exact E1.
Qed.

(** ** Protecting *)

Lemma mask_loop_ok mask pn_off n : forall i a q z,
  length q = n -> zlen a = pn_off + i -> 0 <= i -> 0 <= pn_off -> 1 + i + zlen q <= zlen mask ->
  mask_loop n i (a ++ q ++ z) mask pn_off = Ret (a ++ xor_bytes q (padd mask (1 + i)) ++ z).
Proof.
  induction n as [|n IH]; intros i a q z Hq Ha Hi Ho Hm; cbn [mask_loop]; [by destruct q|]. destruct q as [|b q]; [done|]. rewrite zlen_cons in Hm.
  pose proof (zlen_nonneg q). pose proof (zlen_nonneg z). cbn [app]. rewrite rd_at by done. ret. rewrite rd_nth by lia. ret.
  rewrite wr_blit by (rewrite zlen_app, zlen_cons, zlen_app; lia). rewrite (blit_at a [b] (q ++ z)) by done. ret. cbn [app].
  change (a ++ Z.lxor b (nth (Z.to_nat (1 + i)) mask 0) :: q ++ z) with (a ++ [Z.lxor b (nth (Z.to_nat (1 + i)) mask 0)] ++ q ++ z).
  rewrite app_assoc, IH by (rewrite ?zlen_app; change (zlen [_]) with 1; cbn in Hq; lia). rewrite <- app_assoc. do 2 f_equal. cbn [app].
  rewrite (padd_nth mask (1 + i)) by lia. replace (1 + i + 1) with (1 + (i + 1)) by lia. done.
Qed.

Lemma zlen_plain p : zlen (plain_header p) = 1 + zlen (pt_mid p) + zlen (pt_pnb p).
Proof. unfold plain_header. rewrite zlen_cons, zlen_app. lia. Qed.

Lemma plain_bytes p : parts_ok p -> Forall byte_ok (plain_header p).
Proof. intros (H0 & H1 & H2 & _). constructor; [done|]. by apply Forall_app. Qed.

(** [seal_and_protect] turns the plain header and payload into the wire form. *)
Lemma seal_and_protect_ok keys p m g r :
  keys_ok keys -> parts_ok p -> zlen g = 16 -> Forall byte_ok g -> Forall byte_ok r -> zlen r < 2 ^ 62 ->
  let pn_off := 1 + zlen (pt_mid p) in let n := zlen (pt_payload p) in
  seal_and_protect (plain_header p ++ pt_payload p ++ g ++ r) keys (pn_off + zlen (pt_pnb p)) n pn_off (pt_pn p) (zlen (pt_pnb p)) m =
  Ret (pn_off + zlen (pt_pnb p) + n + 16, wire_form keys p m ++ r).
Proof.
  intros Hk Hp Hg Hgb Hrb Hrl pn_off n. pose proof (hp_mask_ok keys p Hk Hp) as (Ml & Mb & Mk). pose proof (plain_bytes p Hp) as Hhb.
  pose proof Hp as (B0 & B1 & B2 & B3 & N & PN & N4 & NL). pose proof (zlen_nonneg (pt_mid p)). pose proof (zlen_nonneg (pt_payload p)). pose proof (zlen_nonneg r).
  unfold seal_and_protect. rewrite make_nonce_ok by done. ret. change QUIC_TAG_LEN with 16. change QUIC_HP_SAMPLE_LEN with 16.
  pose proof (zlen_plain p) as Hh. pose proof (nonce_keyed keys (pt_pn p) Hk) as HK. change aes128_gcm_seal with (a_seal aes128_gcm).
  assert (Ep : padd (plain_header p ++ pt_payload p ++ g ++ r) (pn_off + zlen (pt_pnb p)) = pt_payload p ++ g ++ r) by (apply padd_app; lia).
  assert (S1 : slice (plain_header p ++ pt_payload p ++ g ++ r) (pn_off + zlen (pt_pnb p))).
  { split; [rewrite !Forall_app; tauto|]. rewrite !zlen_app. unfold n, pn_off in *. lia. }
  assert (S2 : slice (pt_payload p ++ g ++ r) n) by (split; [rewrite !Forall_app; tauto|rewrite !zlen_app; unfold n in *; lia]).
  rewrite Ep, (aead_seal_eq (A := aes128_gcm) _ _ _ _ _ _ HK S1 S2).
  ret. rewrite (ztake_app (plain_header p)), (ztake_app (pt_payload p)) by (unfold n, pn_off; lia).
  set (c := aead_enc _ _ _). set (t := aead_mac _ _ _ _). assert (Hc : zlen c = n) by (by apply zlen_aead_enc). assert (Ht : zlen t = 16) by (by apply zlen_aead_mac).
  rewrite (blit_at (plain_header p) (pt_payload p) (g ++ r)) by (unfold n, pn_off in *; lia). ret. rewrite (app_assoc (plain_header p) c).
  rewrite (blit_at (plain_header p ++ c) g r) by (rewrite ?zlen_app; unfold pn_off in *; lia). ret. rewrite <- app_assoc, (app_assoc c t).
  change (c ++ t) with (sealed keys p). destruct (Z.ltb_spec (pn_off + zlen (pt_pnb p) + n + 16) (pn_off + 4 + 16)); [unfold n in *; lia|].
  unfold hp_apply_mask. unfold pn_off in *. specialize (Mk (plain_header p) r Hh). apply rbind_ret in Mk as (aes & -> & Mk). ret. rewrite Mk. ret.
  unfold plain_header. cbn [app]. rewrite rd_cons_0. ret. rewrite (rd_nth (hp_mask keys p)) by (unfold zlen; lia). ret. change (Z.to_nat 0) with 0%nat.
  rewrite wr_in_bounds by (rewrite zlen_cons; pose proof (zlen_nonneg ((pt_mid p ++ pt_pnb p) ++ sealed keys p ++ r)); lia). ret. change (Z.to_nat 0) with 0%nat. cbn [insert list_insert].
  rewrite <- app_assoc. set (x := Z.lxor _ _). change (x :: pt_mid p ++ pt_pnb p ++ sealed keys p ++ r) with ((x :: pt_mid p) ++ pt_pnb p ++ sealed keys p ++ r).
  rewrite mask_loop_ok; [|unfold zlen in *; lia|rewrite zlen_cons; lia|lia|lia|unfold zlen in *; lia]. ret.
  do 2 f_equal. unfold wire_form. cbn [app]. rewrite <- !app_assoc. done.
Qed.

(** ** Unprotecting *)

Lemma zlen_wire keys p m : keys_ok keys -> parts_ok p -> zlen (wire_form keys p m) = zlen (plain_header p) + zlen (pt_payload p) + 16.
Proof.
  intros Hk Hp. pose proof (hp_mask_ok keys p Hk Hp) as (Ml & _). pose proof (zlen_sealed keys p Hk). destruct Hp as (_ & _ & _ & _ & N & _).
  unfold wire_form. rewrite zlen_cons, !zlen_app, zlen_plain. assert (E : zlen (xor_bytes (pt_pnb p) (drop 1 (hp_mask keys p))) = zlen (pt_pnb p)).
  { unfold zlen in *. rewrite length_xor_bytes, length_drop, Ml. lia. }
  lia.
Qed.

Lemma wire_bytes keys p m : keys_ok keys -> parts_ok p -> 0 <= m < 256 -> Forall byte_ok (wire_form keys p m).
Proof.
  intros Hk Hp Hm. pose proof (hp_mask_ok keys p Hk Hp) as (Ml & Mb & _). pose proof Hp as (B0 & B1 & B2 & B3 & _).
  constructor; [|rewrite !Forall_app; split; [done|]; split; [apply xor_bytes_ok; [done|by apply Forall_drop]|by apply sealed_bytes]].
  apply lxor_byte; [done|]. rewrite Z.land_comm. change 256 with (2 ^ 8) in Hm. unfold byte_ok.
  destruct (decide (m = 0)) as [->|]; [done|]. rewrite <- (Z.mod_small m (2 ^ 8)), <- Z.land_ones, <- Z.land_assoc, (Z.land_comm (Z.ones 8)), Z.land_assoc, Z.land_ones by lia.
  apply Z.mod_pos_bound. lia.
Qed.

Lemma unmask_ok keys p m r :
  keys_ok keys -> parts_ok p -> Z.land (pt_b0 p) 3 + 1 = zlen (pt_pnb p) ->
  unmask (wire_form keys p m ++ r) (qk_hp keys) (1 + zlen (pt_mid p)) (Z.lxor (pt_b0 p) (Z.land (nth 0 (hp_mask keys p) 0) m)) m =
  Ret (pt_b0 p, zlen (pt_pnb p), pt_pnb p).
Proof.
  intros Hk Hp Hb0. pose proof (hp_mask_ok keys p Hk Hp) as (Ml & Mb & Mk). pose proof Hp as (B0 & B1 & B2 & B3 & N & _).
  set (q := xor_bytes (pt_pnb p) (drop 1 (hp_mask keys p))). set (x := Z.lxor _ _).
  assert (Hq : zlen q = zlen (pt_pnb p)) by (unfold q, zlen in *; rewrite length_xor_bytes, length_drop, Ml; lia).
  assert (Ew : wire_form keys p m ++ r = (x :: pt_mid p ++ q) ++ sealed keys p ++ r) by (unfold wire_form; cbn [app]; by rewrite <- !app_assoc).
  specialize (Mk (x :: pt_mid p ++ q) r ltac:(rewrite zlen_cons, zlen_app; lia)). apply rbind_ret in Mk as (aes & Ea & Mk).
  unfold unmask. rewrite Ea. ret. rewrite Ew, Mk. ret. rewrite (rd_nth (hp_mask keys p)) by (unfold zlen; lia). ret. change (Z.to_nat 0) with 0%nat.
  assert (Ex : Z.lxor x (Z.land (nth 0 (hp_mask keys p) 0) m) = pt_b0 p) by (unfold x; by rewrite Z.lxor_assoc, Z.lxor_nilpotent, Z.lxor_0_r).
  rewrite Ex, Hb0. pose proof (zlen_nonneg (pt_mid p)).
  assert (Ep : padd ((x :: pt_mid p ++ q) ++ sealed keys p ++ r) (1 + zlen (pt_mid p)) = q ++ sealed keys p ++ r).
  { cbn [app]. rewrite <- app_assoc. change (x :: pt_mid p ++ q ++ sealed keys p ++ r) with ((x :: pt_mid p) ++ q ++ sealed keys p ++ r).
    apply padd_app. rewrite zlen_cons. lia. }
  rewrite Ep, rdn_app by done. ret. rewrite rdn_ok by (rewrite zlen_padd; unfold zlen in *; lia). ret. do 2 f_equal.
  change (padd (hp_mask keys p) 1) with (drop 1 (hp_mask keys p)). unfold q.
  rewrite (xor_bytes_short (pt_pnb p) (drop 1 (hp_mask keys p))). unfold ztake.
  replace (Z.to_nat (zlen (pt_pnb p))) with (length (pt_pnb p)) by (unfold zlen; lia).
  apply xor_bytes_twice. rewrite length_take, length_drop, Ml. unfold zlen in N. lia.
Qed.

(** The header in front of the sealed payload, rebuilt. *)
Lemma rebuild_header_ok keys p m r scratch :
  keys_ok keys -> parts_ok p -> zlen (plain_header p) <= zlen scratch ->
  rebuild_header (wire_form keys p m ++ r) scratch (zlen (plain_header p)) (pt_b0 p) (1 + zlen (pt_mid p)) (pt_pnb p) =
  Ret (plain_header p ++ padd scratch (zlen (plain_header p))).
Proof.
  intros Hk Hp Hs. pose proof (hp_mask_ok keys p Hk Hp) as (Ml & _). pose proof Hp as (B0 & B1 & B2 & B3 & N & _).
  set (q := xor_bytes (pt_pnb p) (drop 1 (hp_mask keys p))). set (x := Z.lxor (pt_b0 p) (Z.land (nth 0 (hp_mask keys p) 0) m)).
  assert (Hq : zlen q = zlen (pt_pnb p)) by (unfold q, zlen in *; rewrite length_xor_bytes, length_drop, Ml; lia). pose proof (zlen_nonneg (pt_mid p)).
  assert (Hh : zlen (x :: pt_mid p ++ q) = zlen (plain_header p)) by (rewrite zlen_plain, zlen_cons, zlen_app; lia).
  assert (Ew : wire_form keys p m ++ r = (x :: pt_mid p ++ q) ++ sealed keys p ++ r) by (unfold wire_form; cbn [app]; by rewrite <- !app_assoc).
  destruct (split_buffer (zlen (plain_header p)) scratch) as (s1 & s2 & -> & Hs1); [pose proof (zlen_nonneg (plain_header p)); lia|].
  unfold rebuild_header. rewrite Ew, rdn_app by done. ret. rewrite (blit_start s1 s2) by lia. ret. cbn [app]. rewrite (padd_app s1) by lia.
  rewrite wr_blit by (rewrite zlen_cons; pose proof (zlen_nonneg ((pt_mid p ++ q) ++ s2)); lia).
  change (x :: (pt_mid p ++ q) ++ s2) with ([x] ++ (pt_mid p ++ q) ++ s2). rewrite blit_start by reflexivity. ret. cbn [app]. rewrite <- app_assoc.
  change (pt_b0 p :: pt_mid p ++ q ++ s2) with ((pt_b0 p :: pt_mid p) ++ q ++ s2). rewrite (blit_at (pt_b0 p :: pt_mid p) q s2) by (rewrite ?zlen_cons; lia).
  unfold plain_header. cbn [app]. by rewrite <- app_assoc.
Qed.

Lemma open_payload_ok keys p m r scratch :
  keys_ok keys -> parts_ok p -> 0 <= m < 256 -> Forall byte_ok r -> Forall byte_ok scratch ->
  zlen (plain_header p) + zlen (pt_payload p) <= zlen scratch ->
  open_payload (wire_form keys p m ++ r) (plain_header p ++ padd scratch (zlen (plain_header p))) keys (zlen (plain_header p)) (zlen (pt_payload p)) (pt_pn p) =
  Ret (Some (pt_payload p), plain_header p ++ pt_payload p ++ padd scratch (zlen (plain_header p) + zlen (pt_payload p))).
Proof.
  intros Hk Hp Hm Hrb Hsb Hs. pose proof (hp_mask_ok keys p Hk Hp) as (Ml & _). pose proof (plain_bytes p Hp) as Hhb.
  pose proof Hp as (B0 & B1 & B2 & B3 & N & PN & N4 & NL). pose proof (zlen_nonneg (pt_mid p)). pose proof (zlen_nonneg (pt_payload p)). pose proof (zlen_nonneg r).
  pose proof (zlen_plain p) as Hh. pose proof (nonce_keyed keys (pt_pn p) Hk) as HK. unfold open_payload. rewrite make_nonce_ok by done. ret.
  set (q := xor_bytes (pt_pnb p) (drop 1 (hp_mask keys p))). set (x := Z.lxor (pt_b0 p) (Z.land (nth 0 (hp_mask keys p) 0) m)).
  assert (Hq : zlen q = zlen (pt_pnb p)) by (unfold q, zlen in *; rewrite length_xor_bytes, length_drop, Ml; lia).
  set (nonce := aead_nonce (qk_iv keys) (pt_pn p)) in *. set (c := aead_enc (A := aes128_gcm) (qk_key keys) nonce (pt_payload p)).
  set (t := aead_mac (A := aes128_gcm) (qk_key keys) nonce (plain_header p) c).
  assert (Hc : zlen c = zlen (pt_payload p)) by (by apply zlen_aead_enc). assert (Ht : zlen t = 16) by (by apply zlen_aead_mac).
  assert (Hcb : Forall byte_ok c) by (by apply aead_enc_bytes). assert (Htb : Forall byte_ok t) by (by apply aead_mac_bytes).
  assert (Ew : wire_form keys p m ++ r = (x :: pt_mid p ++ q) ++ c ++ t ++ r) by (unfold wire_form, sealed; cbn [app]; by rewrite <- !app_assoc).
  assert (Hxh : zlen (x :: pt_mid p ++ q) = zlen (plain_header p)) by (rewrite Hh, zlen_cons, zlen_app; lia).
  assert (P1 : padd (wire_form keys p m ++ r) (zlen (plain_header p)) = c ++ t ++ r) by (rewrite Ew; by apply padd_app).
  assert (P2 : padd (wire_form keys p m ++ r) (zlen (plain_header p) + zlen (pt_payload p)) = t ++ r).
  { rewrite Ew, (app_assoc _ c). apply padd_app. rewrite zlen_app. lia. }
  assert (Hsz : zlen (padd scratch (zlen (plain_header p))) = zlen scratch - zlen (plain_header p)) by (rewrite zlen_padd; lia).
  rewrite P1, P2. change aes128_gcm_open with (a_open aes128_gcm).
  assert (S1 : slice (plain_header p ++ padd scratch (zlen (plain_header p))) (zlen (plain_header p))).
  { split; [apply Forall_app; split; [done|auto with pico]|]. rewrite zlen_app. lia. }
  assert (S2 : slice (c ++ t ++ r) (zlen (pt_payload p))) by (split; [rewrite !Forall_app; tauto|rewrite !zlen_app; lia]).
  assert (S3 : slice (t ++ r) 16) by (split; [rewrite !Forall_app; tauto|rewrite !zlen_app; lia]).
  rewrite (aead_open_eq (A := aes128_gcm) _ _ _ _ _ _ _ HK S1 S2 S3). rewrite !ztake_app by done.
  rewrite bool_decide_eq_true_2 by reflexivity. assert (Ed : aead_enc (A := aes128_gcm) (qk_key keys) nonce c = pt_payload p) by (by apply aead_enc_twice).
  rewrite Ed.
  destruct (split_buffer (zlen (pt_payload p)) (padd scratch (zlen (plain_header p)))) as (s1 & s2 & E & Hs1); [lia|].
  rewrite <- padd_padd by lia. rewrite E, (padd_app s1) by done. rewrite (blit_at (plain_header p) s1 s2) by lia. ret. reflexivity.
Qed.

(** ** Packet numbers and lengths *)

Lemma pn_wire_be pn n : 0 <= n -> pn_wire pn n = be_bytes (Z.to_nat n) pn.
Proof.
  intros Hn. assert (G : forall k, pn_wire pn (Z.of_nat k) = be_bytes k pn); [|by rewrite <- G, Z2Nat.id].
  clear. intros k. unfold pn_wire. rewrite Nat2Z.id. induction k as [|k IH]; [done|]. cbn [seq map be_bytes]. f_equal.
  - unfold u8. rewrite Z.shiftr_div_pow2 by lia. replace (8 * (Z.of_nat (S k) - 1 - Z.of_nat 0)) with (8 * Z.of_nat k) by lia. by rewrite Z.pow_mul_r by lia.
  - rewrite <- IH, <- seq_shift, map_map. apply map_ext. intros i. do 2 f_equal. lia.
Qed.

Lemma pn_value_be l : Forall byte_ok l -> zlen l <= 8 -> pn_value l = be_acc 0 l.
Proof.
  intros Hl Hn. unfold pn_value.
  assert (G : forall x, 0 <= x -> (x + 1) * 256 ^ zlen l <= 2 ^ 64 -> foldl (fun pn b => Z.lor (u64 (Z.shiftl pn 8)) b) x l = be_acc x l).
  { clear Hn. induction Hl as [|b l Hb Hl IH]; intros x Hx Hx'; [done|]. cbn [foldl be_acc]. pose proof (zlen_nonneg l).
    rewrite zlen_cons, Z.pow_add_r in Hx' by lia. change (256 ^ 1) with 256 in Hx'. pose proof (Z.pow_pos_nonneg 256 (zlen l) ltac:(lia) ltac:(lia)). unfold byte_ok in Hb.
    rewrite shl8_lor by (done || nia). apply IH; nia. }
  apply G; [lia|]. pose proof (Z.pow_le_mono_r 256 (zlen l) 8 ltac:(lia) Hn). change (256 ^ 8) with (2 ^ 64) in *. lia.
Qed.

Lemma pn_roundtrip pn n : 1 <= n <= 4 -> 0 <= pn < 256 ^ n -> pn_value (pn_wire pn n) = pn.
Proof.
  intros Hn Hp. rewrite pn_wire_be by lia. rewrite pn_value_be by (apply be_bytes_ok || (rewrite zlen_be_bytes; lia)).
  apply be_val_bytes. by rewrite Z2Nat.id by lia.
Qed.

Lemma zlen_pn_wire pn n : 0 <= n -> zlen (pn_wire pn n) = n.
Proof. intros. rewrite pn_wire_be, zlen_be_bytes by lia. lia. Qed.

Lemma pn_wire_bytes pn n : 0 <= n -> Forall byte_ok (pn_wire pn n).
Proof. intros. rewrite pn_wire_be by lia. apply be_bytes_ok. Qed.

(** The two-byte length field. *)
Definition length_field (v : Z) : list Z := [u8 (Z.lor 0x40 (Z.land (Z.shiftr v 8) 0x3f)); u8 v].

Lemma length_field_decode v rest n :
  0 <= v <= 0x3fff -> 2 <= n -> quic_varint_decode (length_field v ++ rest) n = Ret (2, v).
Proof.
  intros Hv Hn. unfold length_field. cbn [app]. change 0x40 with (1 * 64). rewrite prefix_lor, Z.shiftr_div_pow2 by lia. change (2 ^ 8) with 256.
  change (u8 v :: rest) with ([u8 v] ++ rest). assert (Hb : byte_ok (1 * 64 + (v / 256) mod 64)) by (unfold byte_ok; dlia).
  rewrite varint_decode_cons; [|done|constructor; [apply u8_byte|constructor]| |done].
  - do 2 f_equal. cbn [be_acc]. unfold u8. change (2 ^ 8) with 256. dlia.
  - change (zlen (_ :: _)) with 2. replace ((1 * 64 + (v / 256) mod 64) / 64) with 1 by dlia. done.
Qed.

Lemma length_field_bytes v : Forall byte_ok (length_field v).
Proof. repeat (constructor; [apply u8_byte|]). constructor. Qed.

Lemma padd_cons_app x (a b : list Z) : padd (x :: a ++ b) (1 + zlen a) = b.
Proof. change (x :: a ++ b) with ((x :: a) ++ b). apply padd_app. rewrite zlen_cons. lia. Qed.

(** From the length field on, parsing undoes the protection. *)
Lemma parse_protected_ok keys p mid0 r scratch cap :
  keys_ok keys -> parts_ok p -> Z.land (pt_b0 p) 3 + 1 = zlen (pt_pnb p) -> pn_value (pt_pnb p) = pt_pn p ->
  pt_mid p = mid0 ++ length_field (zlen (pt_pnb p) + zlen (pt_payload p) + 16) -> zlen (pt_pnb p) + zlen (pt_payload p) + 16 <= 0x3fff ->
  Forall byte_ok r -> Forall byte_ok scratch -> zlen (plain_header p) + zlen (pt_payload p) <= cap <= zlen scratch ->
  let inp := wire_form keys p 0x0f ++ r in
  parse_protected inp (zlen inp) keys (Z.lxor (pt_b0 p) (Z.land (nth 0 (hp_mask keys p) 0) 0x0f)) (1 + zlen mid0) scratch cap =
  Ret (Some (pt_pn p, zlen (pt_pnb p), pt_payload p), plain_header p ++ pt_payload p ++ padd scratch (zlen (plain_header p) + zlen (pt_payload p))).
Proof.
  intros Hk Hp Hb0 Hpn Hmid Hlv Hrb Hsb Hcap inp. pose proof Hp as (B0 & B1 & B2 & B3 & N & PN & N4 & NL). pose proof (zlen_nonneg r). pose proof (zlen_nonneg mid0).
  pose proof (zlen_nonneg (pt_payload p)). set (lv := zlen (pt_pnb p) + zlen (pt_payload p) + 16) in *.
  assert (Hil : zlen inp = zlen (plain_header p) + zlen (pt_payload p) + 16 + zlen r) by (unfold inp; rewrite zlen_app, zlen_wire by done; lia).
  pose proof (zlen_plain p) as Hh. assert (Hml : zlen (pt_mid p) = zlen mid0 + 2) by (rewrite Hmid, zlen_app; done).
  unfold parse_protected, parse_varint.
  assert (Ev : exists rest, padd inp (1 + zlen mid0) = length_field lv ++ rest).
  { unfold inp, wire_form. rewrite Hmid. cbn [app]. rewrite <- !app_assoc. eexists. apply padd_cons_app. }
  destruct Ev as (rest & Ev). rewrite Ev, length_field_decode by lia. ret. unfold parse_tail.
  destruct (Z.ltb_spec (zlen inp) (1 + zlen mid0 + 2 + lv)); [unfold lv in *; lia|]. change QUIC_HP_SAMPLE_LEN with 16. change QUIC_TAG_LEN with 16.
  destruct (Z.ltb_spec (zlen inp) (1 + zlen mid0 + 2 + 4 + 16)); [lia|].
  replace (1 + zlen mid0 + 2) with (1 + zlen (pt_mid p)) by lia. unfold inp. rewrite unmask_ok by done. ret. rewrite Hpn, <- Hh.
  destruct (Z.ltb_spec cap (zlen (plain_header p))); [lia|]. rewrite rebuild_header_ok by (done || lia). ret.
  rewrite (u64_small (lv - zlen (pt_pnb p))) by (unfold lv in *; lia). destruct (Z.ltb_spec (lv - zlen (pt_pnb p)) 16); [unfold lv in *; lia|].
  replace (lv - zlen (pt_pnb p) - 16) with (zlen (pt_payload p)) by (unfold lv; lia). rewrite u64_small by lia.
  destruct (Z.ltb_spec cap (zlen (plain_header p) + zlen (pt_payload p))); [lia|].
  rewrite open_payload_ok by (done || lia). ret. reflexivity.
Qed.

(** ** Building, field by field *)

(** Version and connection ids. *)
Definition cid_fields (d s : list Z) : list Z := word_bytes 1 ++ (u8 (zlen d) :: d) ++ (u8 (zlen s) :: s).

Lemma zlen_cid_fields d s : zlen (cid_fields d s) = 6 + zlen d + zlen s.
Proof. unfold cid_fields. rewrite !zlen_app, !zlen_cons. change (zlen (word_bytes 1)) with 4. lia. Qed.

Lemma cid_fields_bytes d s : Forall byte_ok d -> Forall byte_ok s -> Forall byte_ok (cid_fields d s).
Proof.
  intros. unfold cid_fields. rewrite !Forall_app. split; [by apply bytes_okb_ok|]. split; constructor; try done; apply u8_byte.
Qed.

(** A field written behind the bytes [w] of the buffer [out]. *)
Ltac put :=
  first [rewrite wr_next | rewrite blit_next]; [ret|rewrite ?zlen_app, ?zlen_cons; change (zlen (word_bytes 1)) with 4; change (zlen (@nil Z)) with 0; lia..].

Ltac fits := match goal with |- context [?c <? ?x] => destruct (Z.ltb_spec c x); [lia|] end.

Lemma long_prefix_ok out cap b0 d s k :
  7 + zlen d + zlen s <= cap <= zlen out ->
  long_prefix out cap b0 1 d (zlen d) s (zlen s) k =
  k ((b0 :: cid_fields d s) ++ padd out (zlen (b0 :: cid_fields d s))) (zlen (b0 :: cid_fields d s)).
Proof.
  intros H. pose proof (zlen_nonneg d). pose proof (zlen_nonneg s). unfold long_prefix. fits.
  change out with ([] ++ padd out (zlen (@nil Z))) at 1. put. fits. put. fits. put. rewrite rdn_ok, ztake_all by lia. ret. put. fits. put.
  rewrite rdn_ok, ztake_all by lia. ret. put.
  assert (E : ((((([] ++ [b0]) ++ word_bytes 1) ++ [u8 (zlen d)]) ++ d) ++ [u8 (zlen s)]) ++ s = b0 :: cid_fields d s).
  { unfold cid_fields. cbn [app]. rewrite <- !app_assoc. reflexivity. }
  rewrite E, zlen_cons, zlen_cid_fields. f_equal. lia.
Qed.

Lemma length_and_pn_ok out cap w lv pn n k :
  0 <= lv <= 0x3fff -> 1 <= n <= 4 -> zlen w + 2 + n <= cap <= zlen out ->
  length_and_pn (w ++ padd out (zlen w)) cap (zlen w) lv pn n k =
  k ((w ++ length_field lv ++ pn_wire pn n) ++ padd out (zlen (w ++ length_field lv ++ pn_wire pn n))) (zlen w + 2) (zlen w + 2 + n).
Proof.
  intros Hl Hn H. pose proof (zlen_nonneg w). pose proof (zlen_pn_wire pn n ltac:(lia)). unfold length_and_pn. fits. fits. put. put. fits. put.
  f_equal. rewrite <- !app_assoc. reflexivity.
Qed.

Lemma copy_if_ok out w p :
  zlen w + zlen p <= zlen out ->
  copy_if (w ++ padd out (zlen w)) (zlen w) p (zlen p) = Ret ((w ++ p) ++ padd out (zlen (w ++ p))).
Proof.
  intros H. unfold copy_if. destruct (Z.eqb_spec (zlen p) 0) as [E|]; [|rewrite rdn_ok, ztake_all by lia; ret; by apply blit_next].
  destruct p; [by rewrite app_nil_r|]. rewrite zlen_cons in E. pose proof (zlen_nonneg p). lia.
Qed.

(** The last step of the three builders: the plain packet has been written. *)
Lemma finish_ok keys p m out :
  keys_ok keys -> parts_ok p -> Forall byte_ok out -> zlen out < 2 ^ 62 -> zlen (wire_form keys p m) <= zlen out ->
  let w := plain_header p ++ pt_payload p in
  seal_and_protect (w ++ padd out (zlen w)) keys (zlen (plain_header p)) (zlen (pt_payload p)) (1 + zlen (pt_mid p)) (pt_pn p) (zlen (pt_pnb p)) m =
  Ret (zlen (wire_form keys p m), wire_form keys p m ++ padd out (zlen (wire_form keys p m))).
Proof.
  intros Hk Hp Ho Hol Hw w. pose proof (zlen_wire keys p m Hk Hp) as Ew. rewrite Ew in *. pose proof (zlen_nonneg (plain_header p)). pose proof (zlen_nonneg (pt_payload p)).
  assert (Hwl : zlen w = zlen (plain_header p) + zlen (pt_payload p)) by (unfold w; by rewrite zlen_app).
  destruct (split_buffer 16 (padd out (zlen w))) as (g & r & E & Hg); [rewrite zlen_padd; lia|].
  assert (Er : padd out (zlen w + 16) = r) by (rewrite <- padd_padd by lia; rewrite E; by apply padd_app).
  assert (Hgr : Forall byte_ok (g ++ r)) by (rewrite <- E; auto with pico). apply Forall_app in Hgr as [Hgb Hrb].
  assert (Hrl : zlen r < 2 ^ 62) by (rewrite <- Er, zlen_padd; lia).
  rewrite E. unfold w at 1. rewrite <- app_assoc, zlen_plain, (seal_and_protect_ok keys p m g r) by assumption.
  rewrite <- zlen_plain, <- Hwl, Er. reflexivity.
Qed.

Definition handshake_parts (pkt : quic_handshake_pkt_t) : parts :=
  mk_parts (u8 (Z.lor 0xe0 (u8 (h_pn_len pkt - 1)))) (cid_fields (h_dcid pkt) (h_scid pkt) ++ length_field (h_pn_len pkt + h_payload_len pkt + 16))
    (pn_wire (h_pn pkt) (h_pn_len pkt)) (h_pn pkt) (h_payload pkt).

(** Connection ids of at most twenty bytes. *)
Definition cid_ok (d : list Z) (n : Z) : Prop := zlen d = n /\ n <= 20 /\ Forall byte_ok d.

Definition handshake_ok (pkt : quic_handshake_pkt_t) : Prop :=
  h_version pkt = 1 /\ cid_ok (h_dcid pkt) (h_dcid_len pkt) /\ cid_ok (h_scid pkt) (h_scid_len pkt) /\
  1 <= h_pn_len pkt <= 4 /\ 0 <= h_pn pkt < 2 ^ 64 /\
  Forall byte_ok (h_payload pkt) /\ zlen (h_payload pkt) = h_payload_len pkt /\ 4 <= h_pn_len pkt + h_payload_len pkt <= 0x3fff - 16.

Lemma handshake_parts_ok pkt : handshake_ok pkt -> parts_ok (handshake_parts pkt).
Proof.
  intros (_ & (D1 & D2 & D3) & (S1 & S2 & S3) & N & P & B & L & M). unfold parts_ok. cbn [handshake_parts pt_b0 pt_mid pt_pnb pt_pn pt_payload].
  rewrite zlen_pn_wire, zlen_app, zlen_cid_fields by lia. change (zlen (length_field _)) with 2.
  split; [apply u8_byte|]. split; [apply Forall_app; split; [by apply cid_fields_bytes|apply length_field_bytes]|].
  split; [apply pn_wire_bytes; lia|]. split; [done|]. lia.
Qed.

Lemma handshake_build_ok pkt keys out cap :
  handshake_ok pkt -> keys_ok keys -> Forall byte_ok out -> cap <= zlen out < 2 ^ 62 -> zlen (wire_form keys (handshake_parts pkt) 0x0f) <= cap ->
  quic_handshake_build out cap pkt keys =
  Ret (zlen (wire_form keys (handshake_parts pkt) 0x0f), wire_form keys (handshake_parts pkt) 0x0f ++ padd out (zlen (wire_form keys (handshake_parts pkt) 0x0f))).
Proof.
  intros Hok Hk Ho Hc Hw. pose proof (handshake_parts_ok pkt Hok) as Hp. destruct Hok as (V & (D1 & D2 & D3) & (S1 & S2 & S3) & N & P & B & L & M).
  pose proof (zlen_wire keys _ 0x0f Hk Hp) as Ew. rewrite zlen_plain in Ew. pose proof (zlen_pn_wire (h_pn pkt) (h_pn_len pkt) ltac:(lia)) as Hn.
  set (p := handshake_parts pkt) in *.
  assert (Hm : zlen (pt_mid p) = 8 + zlen (h_dcid pkt) + zlen (h_scid pkt)) by (unfold p; cbn [handshake_parts pt_mid]; rewrite zlen_app, zlen_cid_fields; change (zlen (length_field _)) with 2; lia).
  assert (Hpp : zlen (pt_pnb p) = h_pn_len pkt) by done. assert (Hpl : zlen (pt_payload p) = h_payload_len pkt) by done.
  pose proof (zlen_nonneg (h_dcid pkt)). pose proof (zlen_nonneg (h_scid pkt)). pose proof (zlen_nonneg (h_payload pkt)).
  unfold quic_handshake_build. change QUIC_MAX_CID_LEN with 20. change QUIC_TAG_LEN with 16. change QUIC_V1_VERSION with 1. fits. fits.
  destruct (Z.ltb_spec (h_pn_len pkt) 1); [lia|]. destruct (Z.ltb_spec 4 (h_pn_len pkt)); [lia|]. cbn [orb]. rewrite V, Z.eqb_refl. cbn [negb].
  rewrite <- D1, <- S1, long_prefix_ok by lia. cbv beta zeta. rewrite !(u64_small (_ + _)) by lia.
  rewrite length_and_pn_ok by (rewrite ?zlen_cons, ?zlen_cid_fields; lia). cbv beta zeta.
  rewrite !u64_small by (rewrite ?zlen_cons, ?zlen_cid_fields; lia). rewrite !zlen_cons, !zlen_cid_fields. fits.
  match goal with |- context [copy_if (?h ++ _)] => assert (E : h = plain_header p) by (unfold plain_header, p; cbn [app handshake_parts pt_b0 pt_mid pt_pnb]; by rewrite <- app_assoc) end.
  pose proof (zlen_plain p) as Hh. rewrite E. replace (6 + zlen (h_dcid pkt) + zlen (h_scid pkt) + 1 + 2) with (1 + zlen (pt_mid p)) by lia.
  rewrite <- L. replace (1 + zlen (pt_mid p) + h_pn_len pkt) with (zlen (plain_header p)) by lia. rewrite copy_if_ok by lia. ret.
  rewrite <- Hpp. apply finish_ok; (assumption || lia).
Qed.

(** The size of an Initial packet before padding, and its padding. *)
Definition initial_size (pkt : quic_initial_pkt_t) : Z :=
  7 + i_dcid_len pkt + i_scid_len pkt + zlen (quic_varint_encode 8 (i_token_len pkt)) + i_token_len pkt + 2 + i_pn_len pkt + i_payload_len pkt + 16.

Definition initial_pad (pkt : quic_initial_pkt_t) (pad_to_min : bool) : Z :=
  if pad_to_min then Z.max 0 (1200 - initial_size pkt) else 0.

Definition padded (pkt : quic_initial_pkt_t) (pad_to_min : bool) : list Z := i_payload pkt ++ replicate (Z.to_nat (initial_pad pkt pad_to_min)) 0.

Definition initial_parts (pkt : quic_initial_pkt_t) (pad : bool) : parts :=
  mk_parts (u8 (Z.lor 0xc0 (u8 (i_pn_len pkt - 1))))
    (cid_fields (i_dcid pkt) (i_scid pkt) ++ quic_varint_encode 8 (i_token_len pkt) ++ i_token pkt ++ length_field (i_pn_len pkt + zlen (padded pkt pad) + 16))
    (pn_wire (i_pn pkt) (i_pn_len pkt)) (i_pn pkt) (padded pkt pad).

Definition initial_ok (pkt : quic_initial_pkt_t) (pad : bool) : Prop :=
  i_version pkt = 1 /\ cid_ok (i_dcid pkt) (i_dcid_len pkt) /\ cid_ok (i_scid pkt) (i_scid_len pkt) /\
  (zlen (i_token pkt) = i_token_len pkt /\ i_token_len pkt <= 256 /\ Forall byte_ok (i_token pkt)) /\
  1 <= i_pn_len pkt <= 4 /\ 0 <= i_pn pkt < 2 ^ 64 /\
  Forall byte_ok (i_payload pkt) /\ zlen (i_payload pkt) = i_payload_len pkt /\
  (if pad then 0 else 4) <= i_pn_len pkt + i_payload_len pkt <= 0x3fff - 16.

Lemma token_len_enc n : 0 <= n <= 256 -> zlen (quic_varint_encode 8 n) = quic_varint_size n /\ 1 <= quic_varint_size n <= 2.
Proof.
  intros H. unfold quic_varint_encode, quic_varint_size. destruct (Z.leb_spec n 63); [done|]. destruct (Z.leb_spec n 16383); [done|lia].
Qed.

Lemma token_len_size n : 0 <= n <= 256 -> 1 <= zlen (quic_varint_encode 8 n) <= 2.
Proof. intros H. by destruct (token_len_enc n H) as [-> ?]. Qed.

(** The lengths of the fields of an Initial packet. *)
Lemma initial_lengths pkt pad :
  initial_ok pkt pad ->
  let p := initial_parts pkt pad in
  zlen (pt_pnb p) = i_pn_len pkt /\ zlen (padded pkt pad) = i_payload_len pkt + initial_pad pkt pad /\
  1 + zlen (pt_mid p) + i_pn_len pkt + i_payload_len pkt + 16 = initial_size pkt /\
  4 <= i_pn_len pkt + i_payload_len pkt + initial_pad pkt pad <= 0x3fff - 16 /\ 0 <= initial_pad pkt pad /\ 0 <= i_payload_len pkt.
Proof.
  intros (V & (D1 & D2 & D3) & (S1 & S2 & S3) & (T1 & T2 & T3) & N & P & B & L & M) p. cbn [p initial_parts pt_pnb pt_mid].
  pose proof (zlen_nonneg (i_dcid pkt)). pose proof (zlen_nonneg (i_scid pkt)). pose proof (zlen_nonneg (i_payload pkt)). pose proof (zlen_nonneg (i_token pkt)).
  pose proof (token_len_size (i_token_len pkt) ltac:(lia)). rewrite zlen_pn_wire, !zlen_app, zlen_cid_fields by lia. change (zlen (length_field _)) with 2.
  assert (Hp : 0 <= initial_pad pkt pad) by (unfold initial_pad; destruct pad; lia).
  assert (Hz : zlen (padded pkt pad) = i_payload_len pkt + initial_pad pkt pad).
  { unfold padded. rewrite zlen_app, L. unfold zlen at 1. rewrite length_replicate, Z2Nat.id; lia. }
  split; [done|]. split; [exact Hz|]. split; [unfold initial_size; lia|]. split; [|lia].
  unfold initial_pad, initial_size in *. destruct pad; lia.
Qed.

Lemma initial_parts_ok pkt pad : initial_ok pkt pad -> parts_ok (initial_parts pkt pad).
Proof.
  intros Hok. pose proof (initial_lengths pkt pad Hok) as (L1 & L2 & L3 & L4 & L5 & L6).
  destruct Hok as (V & (D1 & D2 & D3) & (S1 & S2 & S3) & (T1 & T2 & T3) & N & P & B & L & M).
  pose proof (zlen_nonneg (pt_mid (initial_parts pkt pad))). pose proof (token_len_size (i_token_len pkt) ltac:(pose proof (zlen_nonneg (i_token pkt)); lia)).
  split; [apply u8_byte|]. split; [|split; [apply pn_wire_bytes; lia|split; [apply Forall_app; split; [done|apply Forall_replicate; unfold byte_ok; lia]|]]].
  - cbn [initial_parts pt_mid]. rewrite !Forall_app. split; [by apply cid_fields_bytes|]. split; [apply varint_encode_bytes|]. split; [done|apply length_field_bytes].
  - rewrite L1. change (pt_payload (initial_parts pkt pad)) with (padded pkt pad). change (pt_pn (initial_parts pkt pad)) with (i_pn pkt).
    rewrite L2. unfold initial_size in L3. lia.
Qed.

Lemma initial_build_ok pkt pad keys out cap :
  initial_ok pkt pad -> keys_ok keys -> Forall byte_ok out -> cap <= zlen out < 2 ^ 62 -> zlen (wire_form keys (initial_parts pkt pad) 0x0f) <= cap ->
  quic_initial_build out cap pkt keys pad =
  Ret (zlen (wire_form keys (initial_parts pkt pad) 0x0f), wire_form keys (initial_parts pkt pad) 0x0f ++ padd out (zlen (wire_form keys (initial_parts pkt pad) 0x0f))).
Proof.
  intros Hok Hk Ho Hc Hw. pose proof (initial_parts_ok pkt pad Hok) as Hp. pose proof (initial_lengths pkt pad Hok) as (L1 & L2 & L3 & L4 & L5 & L6).
  destruct Hok as (V & (D1 & D2 & D3) & (S1 & S2 & S3) & (T1 & T2 & T3) & N & P & B & L & M).
  pose proof (zlen_wire keys _ 0x0f Hk Hp) as Ew. rewrite zlen_plain in Ew. set (p := initial_parts pkt pad) in *. change (pt_payload p) with (padded pkt pad) in Ew.
  pose proof (zlen_nonneg (i_dcid pkt)). pose proof (zlen_nonneg (i_scid pkt)). pose proof (zlen_nonneg (i_token pkt)).
  pose proof (token_len_size (i_token_len pkt) ltac:(lia)) as Htl. unfold initial_size in L3.
  unfold quic_initial_build. change QUIC_MAX_CID_LEN with 20. change QUIC_MAX_TOKEN_LEN with 256. change QUIC_TAG_LEN with 16. change QUIC_V1_VERSION with 1. fits. fits. fits.
  destruct (Z.ltb_spec (i_pn_len pkt) 1); [lia|]. destruct (Z.ltb_spec 4 (i_pn_len pkt)); [lia|]. cbn [orb]. rewrite V, Z.eqb_refl. cbn [negb].
  rewrite <- D1, <- S1, long_prefix_ok by lia. cbv beta zeta. set (tl := quic_varint_encode 8 (i_token_len pkt)) in *.
  set (h0 := u8 _ :: cid_fields _ _). assert (Hh0 : zlen h0 = 7 + zlen (i_dcid pkt) + zlen (i_scid pkt)) by (unfold h0; rewrite zlen_cons, zlen_cid_fields; lia).
  fits. rewrite blit_next by lia. ret. rewrite <- zlen_app, <- T1, copy_if_ok by (rewrite zlen_app; lia). ret. rewrite <- zlen_app.
  set (h1 := (h0 ++ tl) ++ i_token pkt). assert (Hh1 : zlen h1 = zlen h0 + zlen tl + i_token_len pkt) by (unfold h1; rewrite !zlen_app; lia).
  rewrite (u64_small (zlen h1 + _ + _ + _ + _)) by lia.
  assert (Epad : (if pad && (zlen h1 + 2 + i_pn_len pkt + i_payload_len pkt + 16 <? QUIC_PKT_MIN) then QUIC_PKT_MIN - (zlen h1 + 2 + i_pn_len pkt + i_payload_len pkt + 16) else 0) = initial_pad pkt pad).
  { unfold initial_pad, initial_size. change QUIC_PKT_MIN with 1200. destruct pad; [|reflexivity]. cbn [andb]. destruct (Z.ltb_spec (zlen h1 + 2 + i_pn_len pkt + i_payload_len pkt + 16) 1200); fold tl; lia. }
  rewrite Epad. rewrite (u64_small (i_payload_len pkt + initial_pad pkt pad)), (u64_small (i_pn_len pkt + _ + _)) by lia.
  rewrite length_and_pn_ok by lia. cbv beta zeta. rewrite u64_small by lia. fits.
  assert (E : h1 ++ length_field (i_pn_len pkt + (i_payload_len pkt + initial_pad pkt pad) + 16) ++ pn_wire (i_pn pkt) (i_pn_len pkt) = plain_header p).
  { rewrite <- L2. unfold plain_header, p, h1, h0, tl. cbn [app initial_parts pt_b0 pt_mid pt_pnb]. by rewrite <- !app_assoc. }
  pose proof (zlen_plain p) as Hh. rewrite E. replace (zlen h1 + 2) with (1 + zlen (pt_mid p)) by lia.
  replace (1 + zlen (pt_mid p) + i_pn_len pkt) with (zlen (plain_header p)) by lia. rewrite <- L, copy_if_ok by lia. ret.
  assert (Hz : zlen (replicate (Z.to_nat (initial_pad pkt pad)) 0) = initial_pad pkt pad) by (unfold zlen; rewrite length_replicate; lia).
  rewrite blit_next by (rewrite ?zlen_app; lia). ret. rewrite <- (app_assoc (plain_header p) (i_payload pkt)). fold (padded pkt pad). rewrite L, <- L2, <- L1.
  apply (finish_ok keys p); (assumption || lia).
Qed.

(** ** Parsing, field by field *)

Lemma parse_long_prefix_ok x d s rest typ :
  zlen d <= 20 -> zlen s <= 20 -> Z.land x 0xf0 = typ ->
  let inp := x :: cid_fields d s ++ rest in
  parse_long_prefix inp (zlen inp) typ = Ret (Some (x, 1, d, s, 7 + zlen d + zlen s)).
Proof.
  intros Hd Hs Hx inp. pose proof (zlen_nonneg d). pose proof (zlen_nonneg s). pose proof (zlen_nonneg rest).
  assert (Hl : zlen inp = 7 + zlen d + zlen s + zlen rest) by (unfold inp; rewrite zlen_cons, zlen_app, zlen_cid_fields; lia).
  unfold parse_long_prefix. fits. unfold inp at 1. rewrite rd_cons_0. ret. rewrite Hx, Z.eqb_refl. cbn [negb].
  assert (Ei : inp = [x; 0; 0; 0; 1; zlen d] ++ d ++ zlen s :: s ++ rest).
  { unfold inp, cid_fields. rewrite !u8_small by (unfold byte_ok; lia). change (word_bytes 1) with [0; 0; 0; 1]. cbn [app]. by rewrite <- app_assoc. }
  assert (E32 : rd32be inp 1 = Ret 1) by (rewrite Ei; reflexivity). rewrite E32. ret. change QUIC_V1_VERSION with 1. cbn [Z.eqb Pos.eqb negb].
  assert (E5 : rd inp 5 = Ret (zlen d)) by (rewrite Ei; reflexivity). rewrite E5. ret. change QUIC_MAX_CID_LEN with 20.
  destruct (Z.ltb_spec 20 (zlen d)); [lia|]. fits. cbn [orb]. assert (E6 : padd inp 6 = d ++ zlen s :: s ++ rest) by (rewrite Ei; apply padd_app; reflexivity).
  rewrite E6, rdn_app by reflexivity. ret. fits. assert (E7 : rd inp (6 + zlen d) = Ret (zlen s)) by (rewrite Ei, app_assoc; apply rd_at; rewrite zlen_app; reflexivity).
  rewrite E7. ret. destruct (Z.ltb_spec 20 (zlen s)); [lia|]. fits. cbn [orb].
  assert (E8 : padd inp (6 + zlen d + 1) = s ++ rest).
  { rewrite Ei. change (zlen s :: s ++ rest) with ([zlen s] ++ s ++ rest). rewrite !app_assoc, <- (app_assoc _ s). apply padd_app. rewrite !zlen_app. reflexivity. }
  rewrite E8, rdn_app by reflexivity. ret. do 3 f_equal. lia.
Qed.

(** Header protection leaves the bits outside the mask alone. *)
Lemma mask_outside b m k j : Z.land k j = 0 -> Z.land (Z.lxor b (Z.land m k)) j = Z.land b j.
Proof.
  intros H. apply Z.bits_inj'. intros i Hi. rewrite !Z.land_spec, Z.lxor_spec, Z.land_spec. assert (Hk : Z.testbit k i && Z.testbit j i = false) by (by rewrite <- Z.land_spec, H, Z.bits_0).
  destruct (Z.testbit b i), (Z.testbit m i), (Z.testbit k i), (Z.testbit j i); done.
Qed.

(** The first byte carries the packet number length and the type. *)
Lemma first_byte t n : t = 0xc0 \/ t = 0xe0 -> 1 <= n <= 4 -> let b := u8 (Z.lor t (u8 (n - 1))) in Z.land b 3 + 1 = n /\ Z.land b 0xf0 = t.
Proof. intros [->| ->] Hn; assert (Hc : n = 1 \/ n = 2 \/ n = 3 \/ n = 4) by lia; destruct Hc as [->|[->|[->| ->]]]; done. Qed.

Lemma handshake_parse_ok pkt keys r scratch cap :
  handshake_ok pkt -> h_pn pkt < 256 ^ h_pn_len pkt -> keys_ok keys -> Forall byte_ok r -> Forall byte_ok scratch -> zlen (wire_form keys (handshake_parts pkt) 0x0f) - 16 <= cap <= zlen scratch ->
  let p := handshake_parts pkt in let inp := wire_form keys p 0x0f ++ r in
  quic_handshake_parse inp (zlen inp) keys scratch cap =
  Ret (Some pkt, plain_header p ++ pt_payload p ++ padd scratch (zlen (plain_header p) + zlen (pt_payload p))).
Proof.
  intros Hok Hpn Hk Hr Hs Hc p inp. pose proof (handshake_parts_ok pkt Hok) as Hp. destruct pkt as [v d dl s sl pn n pl pll].
  destruct Hok as (V & (D1 & D2 & D3) & (S1 & S2 & S3) & N & P & B & L & M). cbn [h_version h_dcid h_dcid_len h_scid h_scid_len h_pn h_pn_len h_payload h_payload_len] in *. subst v dl sl pll.
  rewrite (zlen_wire keys _ 0x0f Hk Hp) in Hc. fold p in Hc, Hp. pose proof (first_byte 0xe0 n ltac:(auto) N) as [F1 F2].
  pose proof (zlen_pn_wire pn n ltac:(lia)) as Hn. unfold quic_handshake_parse.
  set (x := Z.lxor (pt_b0 p) (Z.land (nth 0 (hp_mask keys p) 0) 0x0f)).
  assert (Ei : exists rest, inp = x :: cid_fields d s ++ rest).
  { unfold inp, wire_form, p, x. cbn [handshake_parts pt_mid app h_dcid h_scid]. rewrite <- !app_assoc. by eexists. }
  destruct Ei as (rest & Ei). rewrite Ei, (parse_long_prefix_ok x d s rest 0xe0 D2 S2); [|unfold x; by rewrite mask_outside]. ret. rewrite <- Ei.
  replace (7 + zlen d + zlen s) with (1 + zlen (cid_fields d s)) by (rewrite zlen_cid_fields; lia). unfold inp, x.
  rewrite (parse_protected_ok keys p (cid_fields d s) r); try assumption.
  - ret. unfold p. cbn [handshake_parts pt_pn pt_pnb pt_payload h_pn h_pn_len h_payload]. by rewrite Hn.
  - unfold p. cbn [handshake_parts pt_b0 pt_pnb h_pn h_pn_len]. lia.
  - unfold p. cbn [handshake_parts pt_pn pt_pnb h_pn h_pn_len]. apply pn_roundtrip; [exact N|]. cbn in Hpn. lia.
  - unfold p. cbn [handshake_parts pt_mid pt_pnb pt_payload h_pn h_pn_len h_dcid h_scid h_payload h_payload_len]. by rewrite Hn.
  - unfold p. cbn [handshake_parts pt_pnb pt_payload h_pn h_pn_len h_payload]. lia.
  - lia.
Qed.

(** What a receiver gets of an Initial packet: the padding is part of the
    payload. *)
Definition received (pkt : quic_initial_pkt_t) (pad : bool) : quic_initial_pkt_t :=
  mk_ipkt (i_version pkt) (i_dcid pkt) (i_dcid_len pkt) (i_scid pkt) (i_scid_len pkt) (i_token pkt) (i_token_len pkt) (i_pn pkt) (i_pn_len pkt)
    (padded pkt pad) (zlen (padded pkt pad)).

Lemma initial_parse_ok pkt pad keys r scratch cap :
  initial_ok pkt pad -> i_pn pkt < 256 ^ i_pn_len pkt -> keys_ok keys -> Forall byte_ok r -> Forall byte_ok scratch -> zlen (wire_form keys (initial_parts pkt pad) 0x0f) - 16 <= cap <= zlen scratch ->
  let p := initial_parts pkt pad in let inp := wire_form keys p 0x0f ++ r in
  quic_initial_parse inp (zlen inp) keys scratch cap =
  Ret (Some (received pkt pad), plain_header p ++ pt_payload p ++ padd scratch (zlen (plain_header p) + zlen (pt_payload p))).
Proof.
  intros Hok Hpn Hk Hr Hs Hc p inp. pose proof (initial_parts_ok pkt pad Hok) as Hp. pose proof (initial_lengths pkt pad Hok) as (L1 & L2 & L3 & L4 & L5 & L6).
  destruct Hok as (V & (D1 & D2 & D3) & (S1 & S2 & S3) & (T1 & T2 & T3) & N & P & B & L & M).
  rewrite (zlen_wire keys _ 0x0f Hk Hp) in Hc. fold p in Hc, Hp, L1, L3. pose proof (first_byte 0xc0 (i_pn_len pkt) ltac:(auto) N) as [F1 F2].
  pose proof (zlen_nonneg (i_token pkt)). pose proof (token_len_size (i_token_len pkt) ltac:(lia)) as Htl. unfold quic_initial_parse.
  set (x := Z.lxor (pt_b0 p) (Z.land (nth 0 (hp_mask keys p) 0) 0x0f)). set (d := i_dcid pkt) in *. set (s := i_scid pkt) in *. set (tl := quic_varint_encode 8 (i_token_len pkt)) in *.
  assert (Ei : exists rest, inp = x :: cid_fields d s ++ tl ++ i_token pkt ++ rest).
  { unfold inp, wire_form, p, x. cbn [initial_parts pt_mid app]. rewrite <- !app_assoc. by eexists. }
  destruct Ei as (rest & Ei). rewrite Ei, (parse_long_prefix_ok x d s _ 0xc0 ltac:(lia) ltac:(lia)); [|unfold x; by rewrite mask_outside]. ret. rewrite <- Ei.
  replace (7 + zlen d + zlen s) with (1 + zlen (cid_fields d s)) by (rewrite zlen_cid_fields; lia). pose proof (zlen_nonneg (cid_fields d s)). pose proof (zlen_nonneg rest).
  assert (Hl : zlen inp = 1 + zlen (cid_fields d s) + zlen tl + i_token_len pkt + zlen rest) by (rewrite Ei, zlen_cons, !zlen_app; lia).
  destruct (token_len_enc (i_token_len pkt) ltac:(lia)) as [Et _]. fold tl in Et.
  unfold parse_varint. rewrite Ei at 1. rewrite padd_cons_app. unfold tl at 1. rewrite varint_encode_decode, <- Et by (unfold QUIC_VARINT_MAX; lia). ret.
  change QUIC_MAX_TOKEN_LEN with 256. fits. fits.
  assert (Ep : padd inp (1 + zlen (cid_fields d s) + zlen tl) = i_token pkt ++ rest).
  { rewrite Ei, app_assoc. replace (1 + zlen (cid_fields d s) + zlen tl) with (1 + zlen (cid_fields d s ++ tl)) by (rewrite zlen_app; lia). apply padd_cons_app. }
  rewrite Ep, rdn_app by lia. ret. assert (Hz : 1 + zlen (cid_fields d s) + zlen tl + i_token_len pkt = 1 + zlen (cid_fields d s ++ tl ++ i_token pkt)) by (rewrite !zlen_app; lia).
  rewrite Hz. unfold inp, x. rewrite (parse_protected_ok keys p (cid_fields d s ++ tl ++ i_token pkt) r); try assumption.
  - ret. rewrite L1, D1, S1. unfold received. rewrite V. reflexivity.
  - rewrite L1. exact F1.
  - apply pn_roundtrip; [exact N|split; [apply P|exact Hpn]].
  - rewrite L1. unfold p. cbn [initial_parts pt_mid pt_payload]. by rewrite <- !app_assoc.
  - rewrite L1. change (pt_payload p) with (padded pkt pad). lia.
  - lia.
Qed.

(** ** 1-RTT packets *)

Definition short_byte (spin kp n : Z) : Z := u8 (Z.lor (Z.lor (Z.lor 0x40 (Z.shiftl (Z.land spin 1) 5)) (Z.shiftl (Z.land kp 1) 2)) (u8 (n - 1))).

Definition short_parts (pkt : quic_short_pkt_t) : parts :=
  mk_parts (short_byte (s_spin pkt) (s_key_phase pkt) (s_pn_len pkt)) (s_dcid pkt) (pn_wire (s_pn pkt) (s_pn_len pkt)) (s_pn pkt) (s_payload pkt).

Definition short_ok (pkt : quic_short_pkt_t) : Prop :=
  cid_ok (s_dcid pkt) (s_dcid_len pkt) /\ 1 <= s_pn_len pkt <= 4 /\ 0 <= s_pn pkt < 2 ^ 64 /\
  Forall byte_ok (s_payload pkt) /\ zlen (s_payload pkt) = s_payload_len pkt /\ s_payload_len pkt < 2 ^ 61 /\ 4 <= s_pn_len pkt + s_payload_len pkt /\
  (s_spin pkt = 0 \/ s_spin pkt = 1) /\ (s_key_phase pkt = 0 \/ s_key_phase pkt = 1).

Lemma short_first_byte spin kp n :
  (spin = 0 \/ spin = 1) -> (kp = 0 \/ kp = 1) -> 1 <= n <= 4 ->
  let b := short_byte spin kp n in
  Z.land b 3 + 1 = n /\ Z.land b 0x80 = 0 /\ Z.land b 0x40 = 0x40 /\ Z.land (Z.shiftr b 5) 1 = spin /\ Z.land (Z.shiftr b 2) 1 = kp.
Proof.
  intros Hs Hk Hn. assert (Hc : n = 1 \/ n = 2 \/ n = 3 \/ n = 4) by lia.
  destruct Hs as [->| ->], Hk as [->| ->], Hc as [->|[->|[->| ->]]]; done.
Qed.

Lemma short_parts_ok pkt : short_ok pkt -> parts_ok (short_parts pkt).
Proof.
  intros ((D1 & D2 & D3) & N & P & B & L & X & M & _). unfold parts_ok. cbn [short_parts pt_b0 pt_mid pt_pnb pt_pn pt_payload].
  rewrite zlen_pn_wire by lia. split; [apply u8_byte|]. split; [done|]. split; [apply pn_wire_bytes; lia|]. split; [done|]. lia.
Qed.

Lemma short_build_ok pkt keys out cap :
  short_ok pkt -> keys_ok keys -> Forall byte_ok out -> cap <= zlen out < 2 ^ 62 -> zlen (wire_form keys (short_parts pkt) 0x1f) <= cap ->
  quic_short_build out cap pkt keys =
  Ret (zlen (wire_form keys (short_parts pkt) 0x1f), wire_form keys (short_parts pkt) 0x1f ++ padd out (zlen (wire_form keys (short_parts pkt) 0x1f))).
Proof.
  intros Hok Hk Ho Hc Hw. pose proof (short_parts_ok pkt Hok) as Hp. destruct Hok as ((D1 & D2 & D3) & N & P & B & L & X & M & _).
  pose proof (zlen_wire keys _ 0x1f Hk Hp) as Ew. set (p := short_parts pkt) in *. pose proof (zlen_plain p) as Hh. pose proof (zlen_pn_wire (s_pn pkt) (s_pn_len pkt) ltac:(lia)) as Hn.
  change (pt_mid p) with (s_dcid pkt) in Hh. change (pt_pnb p) with (pn_wire (s_pn pkt) (s_pn_len pkt)) in Hh. change (pt_payload p) with (s_payload pkt) in Ew.
  pose proof (zlen_nonneg (s_dcid pkt)). pose proof (zlen_nonneg (s_payload pkt)).
  unfold quic_short_build. change QUIC_MAX_CID_LEN with 20. change QUIC_TAG_LEN with 16. fits.
  destruct (Z.ltb_spec (s_pn_len pkt) 1); [lia|]. destruct (Z.ltb_spec 4 (s_pn_len pkt)); [lia|]. cbn [orb]. fits.
  change out with ([] ++ padd out (zlen (@nil Z))) at 1. put. fits. rewrite <- D1, rdn_ok, ztake_all by lia. ret. put. fits. put. rewrite u64_small by lia. fits.
  fold (short_byte (s_spin pkt) (s_key_phase pkt) (s_pn_len pkt)). change ((([] ++ [short_byte (s_spin pkt) (s_key_phase pkt) (s_pn_len pkt)]) ++ s_dcid pkt) ++ pn_wire (s_pn pkt) (s_pn_len pkt)) with (plain_header p).
  replace (1 + zlen (s_dcid pkt) + s_pn_len pkt) with (zlen (plain_header p)) by lia. rewrite <- L, copy_if_ok by lia. ret. rewrite <- Hn at 1.
  apply (finish_ok keys p); (assumption || lia).
Qed.

(** The parser wants one byte more than the builder. *)
Lemma short_parse_ok pkt keys scratch cap :
  short_ok pkt -> s_pn pkt < 256 ^ s_pn_len pkt -> keys_ok keys -> Forall byte_ok scratch -> zlen (wire_form keys (short_parts pkt) 0x1f) - 16 <= cap <= zlen scratch ->
  let p := short_parts pkt in let inp := wire_form keys p 0x1f in
  quic_short_parse inp (zlen inp) (s_dcid_len pkt) keys scratch cap =
  if s_pn_len pkt + s_payload_len pkt =? 4 then Ret (None, scratch)
  else Ret (Some pkt, plain_header p ++ pt_payload p ++ padd scratch (zlen (plain_header p) + zlen (pt_payload p))).
Proof.
  intros Hok Hfit Hk Hs Hc p inp. pose proof (short_parts_ok pkt Hok) as Hp. destruct pkt as [d dl pn n pl pll spin kp].
  destruct Hok as ((D1 & D2 & D3) & N & P & B & L & X & M & S & K). cbn [s_dcid s_dcid_len s_pn s_pn_len s_payload s_payload_len s_spin s_key_phase] in *. subst dl pll.
  fold p in Hc, Hp. fold inp in Hc. pose proof (zlen_wire keys _ 0x1f Hk Hp) as Ew. fold inp in Ew. pose proof (zlen_plain p) as Hh. pose proof (zlen_pn_wire pn n ltac:(lia)) as Hn.
  destruct (short_first_byte spin kp n S K N) as (F1 & F2 & F3 & F4 & F5).
  assert (Hpn : zlen (pt_pnb p) = n) by exact Hn. change (pt_mid p) with d in Hh. change (pt_payload p) with pl in *. pose proof (zlen_nonneg d). pose proof (zlen_nonneg pl).
  unfold quic_short_parse. change QUIC_MAX_CID_LEN with 20. change QUIC_TAG_LEN with 16. change QUIC_HP_SAMPLE_LEN with 16. fits.
  destruct (Z.eqb_spec (n + zlen pl) 4); [destruct (Z.ltb_spec (zlen inp) (1 + zlen d + 1 + 4 + 16)); [reflexivity|lia]|]. fits.
  unfold inp at 1. unfold wire_form at 1. rewrite rd_cons_0. ret. change (pt_b0 p) with (short_byte spin kp n). rewrite !mask_outside, F2, F3 by reflexivity.
  cbn [Z.eqb negb]. fits. pose proof (unmask_ok keys p 0x1f [] Hk Hp ltac:(rewrite Hpn; exact F1)) as Eu. pose proof (rebuild_header_ok keys p 0x1f [] scratch Hk Hp ltac:(lia)) as Er.
  pose proof (open_payload_ok keys p 0x1f [] scratch Hk Hp ltac:(lia) ltac:(constructor) Hs ltac:(change (pt_payload p) with pl; lia)) as Eo.
  rewrite app_nil_r in Eu, Er, Eo. fold inp in Eu, Er, Eo. change (pt_mid p) with d in *. change (pt_b0 p) with (short_byte spin kp n) in *. rewrite Eu. ret.
  rewrite Hpn. replace (1 + zlen d + n) with (zlen (plain_header p)) by lia. fits. fits. rewrite Er. ret.
  replace (zlen inp - zlen (plain_header p) - 16) with (zlen pl) by lia. fits. change (pt_payload p) with pl in Eo.
  assert (Epn : pn_value (pt_pnb p) = pn) by (apply pn_roundtrip; [exact N|split; [apply P|exact Hfit]]). rewrite Epn. change (pt_pn p) with pn in Eo. rewrite Eo. ret.
  assert (Ed : padd inp 1 = d ++ xor_bytes (pt_pnb p) (drop 1 (hp_mask keys p)) ++ sealed keys p) by reflexivity.
  rewrite Ed, rdn_app by reflexivity. ret. rewrite F4, F5. reflexivity.
Qed.
