(* ===== verification/PacketTheorems.v ===== *)
(** * QUIC packets: arbitrary datagrams, round trips and authenticity

    The theorems about [Packet]: what the parsers do on any datagram, that they
    accept only authentic packets, and that they read back what the builders
    write. *)

From Stdlib Require Import ZArith Lia.
From stdpp Require Import list numbers option.
From S2P Require Import Prelude Util Words Aead Aes AesGcm Varint Packet.

#[local] Opaque aead_enc aead_mac aes_block aes128_gcm_seal aes128_gcm_open aes128_init aes128_encrypt_block.

(** ** Parsing an arbitrary datagram

    The packet that the bytes of [inp] stand for when the packet number is at
    [pn_off] and the ciphertext has [ct_len] bytes. *)

Definition mask_at (keys : quic_initial_keys_t) (inp : list Z) (pn_off : Z) : list Z := aes_block (qk_hp keys) (sub inp (pn_off + 4) 16).

Definition decoded (keys : quic_initial_keys_t) (inp : list Z) (pn_off ct_len m : Z) : parts :=
  let M := mask_at keys inp pn_off in
  let b0 := Z.lxor (nth 0 inp 0) (Z.land (nth 0 M 0) m) in
  let n := Z.land b0 3 + 1 in
  let pnb := xor_bytes (sub inp pn_off n) (drop 1 M) in
  let pn := pn_value pnb in
  mk_parts b0 (sub inp 1 (pn_off - 1)) pnb pn (aead_enc (A := aes128_gcm) (qk_key keys) (aead_nonce (qk_iv keys) pn) (sub inp (pn_off + n) ct_len)).

Lemma land_byte x m : 0 <= m < 256 -> byte_ok (Z.land x m).
Proof.
  intros Hm. unfold byte_ok. change 256 with (2 ^ 8) in *. destruct (decide (m = 0)) as [->|]; [by rewrite Z.land_0_r|].
  rewrite <- (Z.mod_small m (2 ^ 8)) by lia. rewrite <- Z.land_ones, Z.land_assoc, Z.land_ones by lia. apply Z.mod_pos_bound. lia.
Qed.

Section datagram.
Context (keys : quic_initial_keys_t) (Hk : keys_ok keys).
Context (inp : list Z) (Hi : Forall byte_ok inp) (pn_off : Z) (Hoff : 1 <= pn_off) (Hlen : pn_off + 20 <= zlen inp).

Lemma mask_at_ok :
  (let! aes := aes128_init (qk_hp keys) in aes128_encrypt_block aes (padd inp (pn_off + 4))) = Ret (mask_at keys inp pn_off) /\
  length (mask_at keys inp pn_off) = 16%nat /\ Forall byte_ok (mask_at keys inp pn_off).
Proof using Hk Hi Hoff Hlen.
  destruct Hk as (_ & _ & [Hh Hhl]). destruct (aes_key_ok (qk_hp keys) Hh ltac:(lia)) as (rk & E & Hrk).
  assert (Hl : zlen (sub inp (pn_off + 4) 16) = 16) by (apply zlen_sub; lia).
  destruct (Hrk (sub inp (pn_off + 4) 16) ltac:(auto with pico) ltac:(lia)) as (E1 & L1 & B1). split; [|split; [exact L1|exact B1]].
  rewrite E. ret. assert (Ep : padd inp (pn_off + 4) = sub inp (pn_off + 4) 16 ++ padd (padd inp (pn_off + 4)) 16) by (unfold sub, ztake, padd; by rewrite take_drop).
  rewrite Ep, encrypt_prefix by exact Hl. exact E1.
Qed.

Context (m : Z) (Hm : 0 <= m < 256).

Let b0 := Z.lxor (nth 0 inp 0) (Z.land (nth 0 (mask_at keys inp pn_off) 0) m).
Let n := Z.land b0 3 + 1.

Lemma pn_len_range : 1 <= n <= 4.
Proof using All. unfold n. rewrite land_3. pose proof (Z.mod_pos_bound b0 4 ltac:(lia)). lia. Qed.

Lemma zlen_decoded_pn c : zlen (pt_pnb (decoded keys inp pn_off c m)) = n.
Proof using All.
  destruct mask_at_ok as (_ & Ml & _). pose proof pn_len_range. cbn [decoded pt_pnb]. fold b0. fold n. pose proof (zlen_sub inp pn_off n ltac:(lia) ltac:(lia) ltac:(lia)) as Hs.
  unfold zlen in *. rewrite length_xor_bytes, length_drop, Ml. lia.
Qed.

Lemma decoded_bytes c : Forall byte_ok (plain_header (decoded keys inp pn_off c m)).
Proof using All.
  destruct mask_at_ok as (_ & Ml & Mb). constructor; [|apply Forall_app; split; [apply Forall_sub, Hi|apply xor_bytes_ok; [apply Forall_sub, Hi|by apply Forall_drop]]].
  cbn [decoded pt_b0]. apply lxor_byte; [|by apply land_byte]. destruct inp as [|x l]; [unfold zlen in Hlen; cbn in Hlen; lia|]. by apply Forall_cons_1 in Hi as [? _].
Qed.

Lemma zlen_decoded_header c : zlen (plain_header (decoded keys inp pn_off c m)) = pn_off + n.
Proof using All. rewrite zlen_plain, zlen_decoded_pn. cbn [decoded pt_mid]. rewrite zlen_sub by lia. lia. Qed.

Lemma unmask_any c : unmask inp (qk_hp keys) pn_off (nth 0 inp 0) m = Ret (b0, n, pt_pnb (decoded keys inp pn_off c m)).
Proof using All.
  destruct mask_at_ok as (Mk & Ml & Mb). pose proof pn_len_range as Hn. unfold unmask. apply rbind_ret in Mk as (aes & -> & Mk). ret. rewrite Mk. ret.
  rewrite (rd_nth (mask_at keys inp pn_off)) by (unfold zlen; lia). ret. change (Z.to_nat 0) with 0%nat. fold b0. fold n.
  rewrite rdn_ok by (rewrite zlen_padd; lia). ret. rewrite rdn_ok by (rewrite zlen_padd; unfold zlen; lia). ret. do 2 f_equal. cbn [decoded pt_pnb]. fold b0. fold n.
  change (padd (mask_at keys inp pn_off) 1) with (drop 1 (mask_at keys inp pn_off)). rewrite (xor_bytes_short (sub inp pn_off n) (drop 1 _)).
  pose proof (zlen_sub inp pn_off n ltac:(lia) ltac:(lia) ltac:(lia)) as Hs. unfold zlen in Hs. unfold ztake at 2. by replace (Z.to_nat n) with (length (sub inp pn_off n)) by lia.
Qed.

Lemma datagram_split : inp = nth 0 inp 0 :: sub inp 1 (pn_off - 1) ++ sub inp pn_off n ++ padd inp (pn_off + n).
Proof using All.
  pose proof pn_len_range. rewrite <- padd_sub by lia. replace (padd inp pn_off) with (padd inp (1 + (pn_off - 1))) by (f_equal; lia).
  rewrite <- padd_sub by lia. rewrite <- (padd_0 inp) at 1. rewrite padd_nth by lia. reflexivity.
Qed.

Lemma rebuild_any c scratch :
  let p := decoded keys inp pn_off c m in
  pn_off + n <= zlen scratch ->
  rebuild_header inp scratch (pn_off + n) b0 pn_off (pt_pnb p) = Ret (plain_header p ++ padd scratch (pn_off + n)).
Proof using All.
  intros p Hs. pose proof pn_len_range. pose proof (zlen_decoded_pn c) as Hn. fold p in Hn. unfold rebuild_header.
  assert (Hmid : zlen (sub inp 1 (pn_off - 1)) = pn_off - 1) by (apply zlen_sub; lia). assert (Hq : zlen (sub inp pn_off n) = n) by (apply zlen_sub; lia).
  set (x := nth 0 inp 0) in *. set (mid := sub inp 1 (pn_off - 1)) in *. set (q := sub inp pn_off n) in *.
  assert (Ei : inp = (x :: mid ++ q) ++ padd inp (pn_off + n)) by (cbn [app]; rewrite <- app_assoc; exact datagram_split).
  destruct (split_buffer (pn_off + n) scratch) as (s1 & s2 & -> & Hs1); [lia|].
  assert (Er : rdn inp (pn_off + n) = Ret (x :: mid ++ q)) by (rewrite Ei at 1; apply rdn_app; rewrite zlen_cons, zlen_app; lia). rewrite Er. ret.
  rewrite (blit_start s1 s2) by (rewrite zlen_cons, zlen_app; lia). ret. cbn [app]. rewrite (padd_app s1) by lia.
  rewrite wr_blit by (rewrite zlen_cons; pose proof (zlen_nonneg ((mid ++ q) ++ s2)); lia).
  change (x :: (mid ++ q) ++ s2) with ([x] ++ (mid ++ q) ++ s2). rewrite blit_start by reflexivity. ret. cbn [app]. rewrite <- app_assoc.
  change (b0 :: mid ++ q ++ s2) with ((b0 :: mid) ++ q ++ s2). rewrite (blit_at (b0 :: mid) q s2) by (rewrite ?zlen_cons; lia).
  unfold plain_header. cbn [app]. rewrite <- app_assoc. reflexivity.
Qed.

Lemma decoded_pn_range c : 0 <= pt_pn (decoded keys inp pn_off c m) < 2 ^ 64.
Proof using All.
  pose proof pn_len_range. pose proof (zlen_decoded_pn c) as Hn. pose proof (decoded_bytes c) as Hb. set (p := decoded keys inp pn_off c m) in *.
  apply Forall_cons_1 in Hb as [_ Hb]. apply Forall_app in Hb as [_ Hb]. change (pt_pn p) with (pn_value (pt_pnb p)). rewrite pn_value_be by (done || lia).
  pose proof (be_val_bounds _ Hb). pose proof (Z.pow_le_mono_r 256 (zlen (pt_pnb p)) 4 ltac:(lia) ltac:(lia)). change (256 ^ 4) with (2 ^ 32) in *. lia.
Qed.

(** The tag at the end of the ciphertext is the right one. *)
Definition tag_ok (c : Z) : Prop :=
  let p := decoded keys inp pn_off c m in
  sub inp (pn_off + n + c) 16 = aead_mac (A := aes128_gcm) (qk_key keys) (aead_nonce (qk_iv keys) (pt_pn p)) (plain_header p) (sub inp (pn_off + n) c).

Lemma open_any c scratch :
  0 <= c -> pn_off + n + c + 16 <= zlen inp -> Forall byte_ok scratch -> pn_off + n + c <= zlen scratch < 2 ^ 64 ->
  let p := decoded keys inp pn_off c m in
  open_payload inp (plain_header p ++ padd scratch (pn_off + n)) keys (pn_off + n) c (pt_pn p) =
  if bool_decide (tag_ok c) then Ret (Some (pt_payload p), plain_header p ++ pt_payload p ++ padd scratch (pn_off + n + c))
  else Ret (None, plain_header p ++ padd scratch (pn_off + n)).
Proof using All.
  intros Hc Hic Hs Hsl p. pose proof pn_len_range. pose proof (zlen_decoded_header c) as Hh. fold p in Hh. unfold open_payload.
  rewrite make_nonce_ok by (exact Hk || apply decoded_pn_range). ret. pose proof (nonce_keyed keys (pt_pn p) Hk) as HK.
  assert (S1 : slice (plain_header p ++ padd scratch (pn_off + n)) (pn_off + n)).
  { split; [apply Forall_app; split; [apply decoded_bytes|auto with pico]|]. pose proof (zlen_nonneg (padd scratch (pn_off + n))). rewrite zlen_app. lia. }
  assert (S2 : slice (padd inp (pn_off + n)) c) by (split; [auto with pico|rewrite zlen_padd; lia]).
  assert (S3 : slice (padd inp (pn_off + n + c)) 16) by (split; [auto with pico|rewrite zlen_padd; lia]).
  change aes128_gcm_open with (a_open aes128_gcm). rewrite (aead_open_eq (A := aes128_gcm) _ _ _ _ _ _ _ HK S1 S2 S3).
  rewrite (ztake_app (plain_header p)) by lia. fold (sub inp (pn_off + n) c). fold (sub inp (pn_off + n + c) 16). fold (tag_ok c).
  change (aead_enc (A := aes128_gcm) (qk_key keys) (aead_nonce (qk_iv keys) (pt_pn p)) (sub inp (pn_off + n) c)) with (pt_payload p).
  unfold tag_ok. fold p. case_bool_decide; [|reflexivity].
  assert (Hpl : zlen (pt_payload p) = c) by (unfold p; cbn [decoded pt_payload]; fold b0; fold n; rewrite zlen_aead_enc by exact HK; apply zlen_sub; lia).
  destruct (split_buffer c (padd scratch (pn_off + n))) as (s1 & s2 & E & Hs1); [rewrite zlen_padd; lia|].
  rewrite <- (padd_padd scratch (pn_off + n) c) by lia. rewrite E, (padd_app s1) by lia. rewrite (blit_at (plain_header p) s1 s2) by lia. ret. reflexivity.
Qed.

Lemma open_oob c scratch :
  zlen inp < c -> Forall byte_ok scratch -> pn_off + n <= zlen scratch < 2 ^ 64 ->
  let p := decoded keys inp pn_off 0 m in
  open_payload inp (plain_header p ++ padd scratch (pn_off + n)) keys (pn_off + n) c (pt_pn p) = Oob.
Proof using All.
  intros Hc Hs Hsl p. pose proof pn_len_range. pose proof (zlen_decoded_header 0) as Hh. fold p in Hh. unfold open_payload.
  rewrite make_nonce_ok by (exact Hk || apply decoded_pn_range). ret. pose proof (nonce_keyed keys (pt_pn p) Hk) as HK.
  rewrite gcm_open_oob; [reflexivity|exact HK| |rewrite zlen_padd; lia].
  split; [apply Forall_app; split; [apply decoded_bytes|auto with pico]|]. pose proof (zlen_nonneg (padd scratch (pn_off + n))). rewrite zlen_app. lia.
Qed.

(** An authentic packet is the protected form of what it decodes to. *)
Lemma wire_decoded c :
  0 <= c -> pn_off + n + c + 16 <= zlen inp -> 4 <= n + c -> tag_ok c -> wire_form keys (decoded keys inp pn_off c m) m = ztake (pn_off + n + c + 16) inp.
Proof using All.
  intros Hc Hic H4 Ht. pose proof pn_len_range. pose proof (zlen_decoded_pn c) as Hn. destruct mask_at_ok as (_ & Ml & Mb).
  set (p := decoded keys inp pn_off c m) in *. pose proof (nonce_keyed keys (pt_pn p) Hk) as HK.
  assert (Es : sealed keys p = sub inp (pn_off + n) (c + 16)).
  { unfold sealed. assert (Ee : aead_enc (A := aes128_gcm) (qk_key keys) (aead_nonce (qk_iv keys) (pt_pn p)) (pt_payload p) = sub inp (pn_off + n) c) by (apply aead_enc_twice; exact HK).
    rewrite Ee. unfold tag_ok in Ht. fold p in Ht. rewrite <- Ht. symmetry. apply sub_split; lia. }
  assert (Em : hp_mask keys p = mask_at keys inp pn_off).
  { unfold hp_mask, mask_at. rewrite Es, Hn, sub_sub by lia. replace (pn_off + n + (4 - n)) with (pn_off + 4) by lia. reflexivity. }
  unfold wire_form. rewrite Es, Em. change (pt_b0 p) with b0. change (pt_mid p) with (sub inp 1 (pn_off - 1)).
  assert (E0 : Z.lxor b0 (Z.land (nth 0 (mask_at keys inp pn_off) 0) m) = nth 0 inp 0) by (unfold b0; by rewrite Z.lxor_assoc, Z.lxor_nilpotent, Z.lxor_0_r).
  assert (Eq : xor_bytes (pt_pnb p) (drop 1 (mask_at keys inp pn_off)) = sub inp pn_off n).
  { change (pt_pnb p) with (xor_bytes (sub inp pn_off n) (drop 1 (mask_at keys inp pn_off))). apply xor_bytes_twice. rewrite length_drop, Ml.
    pose proof (zlen_sub inp pn_off n ltac:(lia) ltac:(lia) ltac:(lia)) as Hs. unfold zlen in Hs. lia. }
  rewrite E0, Eq. rewrite datagram_split at 5. rewrite (padd_sub inp (pn_off + n) (c + 16)) by lia.
  symmetry. rewrite !app_assoc. rewrite app_comm_cons. apply ztake_app. rewrite zlen_cons, !zlen_app, !zlen_sub; lia.
Qed.
End datagram.

Lemma pn_wire_value l : Forall byte_ok l -> zlen l <= 8 -> pn_wire (pn_value l) (zlen l) = l.
Proof. intros Hl Hn. rewrite pn_value_be by done. rewrite pn_wire_be by apply zlen_nonneg. unfold zlen. rewrite Nat2Z.id. by apply be_bytes_val. Qed.

Lemma u64_borrow x : - 2 ^ 64 <= x < 0 -> u64 x = x + 2 ^ 64.
Proof. intros. unfold u64. symmetry. apply (Z.mod_unique_pos _ _ (-1)); lia. Qed.

Lemma u64_wrap x : 2 ^ 64 <= x < 2 ^ 65 -> u64 x = x - 2 ^ 64.
Proof. intros. unfold u64. symmetry. apply (Z.mod_unique_pos _ _ 1); lia. Qed.

(** A long-header packet of [L] bytes from its packet number on.  Parsing reads
    out of bounds exactly when [L] is smaller than the packet number length and
    the wrapped sum [hdr_len + ct_len] passes for a small number. *)
Definition underflow (keys : quic_initial_keys_t) (inp : list Z) (pn_off L cap : Z) : Prop :=
  let n := zlen (pt_pnb (decoded keys inp pn_off 0 0x0f)) in
  pn_off + 20 <= zlen inp /\ pn_off + n <= cap /\ L < n /\ 16 <= pn_off + L.

Definition authentic (keys : quic_initial_keys_t) (inp : list Z) (pn_off L : Z) (r : Z * Z * list Z) : Prop :=
  let '(pn, pn_len, pt) := r in
  pn_off + L <= zlen inp /\ L = pn_len + zlen pt + 16 /\ Forall byte_ok pt /\
  exists b0, Z.land b0 3 + 1 = pn_len /\ Z.land b0 0xf0 = Z.land (nth 0 inp 0) 0xf0 /\
    (20 <= L -> ztake (pn_off + L) inp = wire_form keys (mk_parts b0 (sub inp 1 (pn_off - 1)) (pn_wire pn pn_len) pn pt) 0x0f).

Lemma parse_tail_any keys inp pn_off L scratch cap :
  keys_ok keys -> Forall byte_ok inp -> Forall byte_ok scratch -> 1 <= pn_off -> 0 <= L < 2 ^ 62 -> 0 <= cap <= zlen scratch -> zlen scratch < 2 ^ 62 -> zlen inp < 2 ^ 62 ->
  match parse_tail inp (zlen inp) keys (nth 0 inp 0) pn_off L scratch cap with
  | Ret (Some r, _) => authentic keys inp pn_off L r
  | Ret (None, _) => ~ underflow keys inp pn_off L cap
  | Fail => False
  | Oob => underflow keys inp pn_off L cap
  end.
Proof.
  intros Hk Hi Hs Ho HL Hcap Hsl Hil. unfold parse_tail. change QUIC_TAG_LEN with 16. change QUIC_HP_SAMPLE_LEN with 16.
  assert (Hn0 : 1 <= pn_off /\ pn_off + 20 <= zlen inp -> 1 <= zlen (pt_pnb (decoded keys inp pn_off 0 0x0f)) <= 4).
  { intros [L1 L2]. rewrite (zlen_decoded_pn keys Hk inp Hi pn_off L1 L2 0x0f ltac:(lia) 0). by apply (pn_len_range keys Hk inp Hi pn_off L1 L2 0x0f). }
  destruct (Z.ltb_spec (zlen inp) (pn_off + L)); [unfold underflow; lia|]. destruct (Z.ltb_spec (zlen inp) (pn_off + 4 + 16)); [unfold underflow; lia|].
  assert (L2 : pn_off + 20 <= zlen inp) by lia. assert (L3 : 0 <= 0x0f < 256) by lia. specialize (Hn0 (conj Ho L2)).
  pose proof (zlen_decoded_pn keys Hk inp Hi pn_off Ho L2 0x0f L3) as Hpn.
  set (b0 := Z.lxor (nth 0 inp 0) (Z.land (nth 0 (mask_at keys inp pn_off) 0) 0x0f)) in *. set (n := Z.land b0 3 + 1) in *. rewrite Hpn in Hn0.
  set (c := L - n - 16). rewrite (unmask_any keys Hk inp Hi pn_off Ho L2 0x0f L3 c). fold b0. fold n. ret. set (p := decoded keys inp pn_off c 0x0f).
  destruct (Z.ltb_spec cap (pn_off + n)); [unfold underflow; rewrite Hpn; lia|].
  pose proof (rebuild_any keys Hk inp Hi pn_off Ho L2 0x0f L3 c scratch) as Er. cbv zeta in Er. fold b0 in Er. fold n in Er. fold p in Er. rewrite Er by lia. ret.
  unfold underflow. rewrite Hpn. destruct (Z.ltb_spec L n) as [Hlt|Hge].
  - rewrite (u64_borrow (L - n)) by lia. destruct (Z.ltb_spec (L - n + 2 ^ 64) 16); [lia|]. destruct (Z.ltb_spec (pn_off + L) 16) as [Hsm|Hbig].
    + rewrite u64_small by lia. destruct (Z.ltb_spec cap (pn_off + n + (L - n + 2 ^ 64 - 16))); lia.
    + rewrite u64_wrap by lia. destruct (Z.ltb_spec cap (pn_off + n + (L - n + 2 ^ 64 - 16) - 2 ^ 64)); [lia|].
      pose proof (open_oob keys Hk inp Hi pn_off Ho L2 0x0f L3 (L - n + 2 ^ 64 - 16) scratch ltac:(lia) Hs ltac:(fold b0; fold n; lia)) as Eo. cbv zeta in Eo. fold b0 in Eo. fold n in Eo.
      change (plain_header (decoded keys inp pn_off 0 0x0f)) with (plain_header p) in Eo. change (pt_pn (decoded keys inp pn_off 0 0x0f)) with (pn_value (pt_pnb p)) in Eo.
      rewrite Eo. cbn [rbind]. lia.
  - rewrite (u64_small (L - n)) by lia. destruct (Z.ltb_spec (L - n) 16); [lia|]. rewrite (u64_small (pn_off + n + _)) by lia. destruct (Z.ltb_spec cap (pn_off + n + (L - n - 16))); [lia|].
    fold c. pose proof (open_any keys Hk inp Hi pn_off Ho L2 0x0f L3 c scratch) as Eo. cbv zeta in Eo. fold b0 in Eo. fold n in Eo. fold p in Eo. change (pn_value (pt_pnb p)) with (pt_pn p).
    rewrite Eo by (exact Hs || lia). case_bool_decide as Ht; ret; [|lia]. split; [lia|].
    pose proof (nonce_keyed keys (pt_pn p) Hk) as HK.
    split; [unfold p; cbn [decoded pt_payload]; fold b0; fold n; rewrite zlen_aead_enc by exact HK; rewrite zlen_sub by lia; lia|].
    split; [apply aead_enc_bytes; [exact HK|apply Forall_sub, Hi]|]. exists b0. split; [reflexivity|]. split; [by apply mask_outside|]. intros H20.
    pose proof (wire_decoded keys Hk inp Hi pn_off Ho L2 0x0f L3 c ltac:(lia) ltac:(fold b0; fold n; lia) ltac:(fold b0; fold n; lia) Ht) as Ew. fold b0 in Ew. fold n in Ew. fold p in Ew.
    replace (pn_off + L) with (pn_off + n + c + 16) by lia. rewrite <- Ew. pose proof (decoded_bytes keys Hk inp Hi pn_off Ho L2 0x0f L3 c) as Hb. fold p in Hb.
    apply Forall_cons_1 in Hb as [_ Hb]. apply Forall_app in Hb as [_ Hb]. rewrite <- (Hpn c). change (pt_pn p) with (pn_value (pt_pnb p)). fold p. rewrite pn_wire_value by (exact Hb || (unfold p; rewrite Hpn; lia)). reflexivity.
Qed.

Lemma parse_long_prefix_any inp typ :
  Forall byte_ok inp ->
  match parse_long_prefix inp (zlen inp) typ with
  | Ret (Some (x, v, d, s, off)) =>
      v = 1 /\ Z.land x 0xf0 = typ /\ zlen d <= 20 /\ zlen s <= 20 /\ off = 7 + zlen d + zlen s /\ exists rest, inp = x :: cid_fields d s ++ rest
  | Ret None => True
  | Fail | Oob => False
  end.
Proof.
  intros Hi. unfold parse_long_prefix. change QUIC_MAX_CID_LEN with 20. change QUIC_V1_VERSION with 1. destruct (Z.ltb_spec (zlen inp) 7); [exact I|].
  rewrite rd_nth by lia. ret. destruct (Z.eqb_spec (Z.land (nth (Z.to_nat 0) inp 0) 0xf0) typ) as [Ht|]; cbn [negb]; [|exact I]. rewrite rd32be_ok by (done || lia). ret.
  destruct (Z.eqb_spec (be_acc 0 (sub inp 1 4)) 1) as [Hv|]; cbn [negb]; [|exact I]. rewrite rd_nth by lia. ret. set (dl := nth (Z.to_nat 5) inp 0).
  assert (Hd : byte_ok dl) by (eapply (rd_byte inp 5); [exact Hi|apply rd_nth; lia]). unfold byte_ok in Hd.
  destruct (Z.ltb_spec 20 dl); [exact I|]. destruct (Z.ltb_spec (zlen inp) (6 + dl)); [exact I|]. cbn [orb]. rewrite rdn_ok by (rewrite zlen_padd; lia). ret. fold (sub inp 6 dl).
  destruct (Z.ltb_spec (zlen inp) (6 + dl + 1)); [exact I|]. rewrite rd_nth by lia. ret. set (sl := nth (Z.to_nat (6 + dl)) inp 0).
  assert (Hs : byte_ok sl) by (eapply (rd_byte inp (6 + dl)); [exact Hi|apply rd_nth; lia]). unfold byte_ok in Hs.
  destruct (Z.ltb_spec 20 sl); [exact I|]. destruct (Z.ltb_spec (zlen inp) (6 + dl + 1 + sl)); [exact I|]. cbn [orb]. rewrite rdn_ok by (rewrite zlen_padd; lia). ret. fold (sub inp (6 + dl + 1) sl).
  assert (Ed : zlen (sub inp 6 dl) = dl) by (apply zlen_sub; lia). assert (Es : zlen (sub inp (6 + dl + 1) sl) = sl) by (apply zlen_sub; lia).
  split; [exact Hv|]. split; [exact Ht|]. do 2 (split; [lia|]). split; [lia|]. exists (padd inp (6 + dl + 1 + sl)).
  assert (Ew : word_bytes 1 = sub inp 1 4).
  { rewrite word_bytes_be. pose proof (zlen_sub inp 1 4 ltac:(lia) ltac:(lia) ltac:(lia)) as L4. unfold zlen in L4.
    pose proof (be_bytes_val (sub inp 1 4) ltac:(auto with pico)) as E. rewrite Hv in E. by replace (length (sub inp 1 4)) with 4%nat in E by lia. }
  unfold cid_fields. rewrite Ed, Es, !u8_small, Ew by done. cbn [app]. rewrite <- !app_assoc. cbn [app]. rewrite <- !app_assoc. cbn [app].
  pose proof (padd_nth inp (6 + dl) ltac:(lia) : _ = sl :: _) as N3. pose proof (padd_nth inp 5 ltac:(lia) : _ = dl :: padd inp 6) as N2. pose proof (padd_nth inp 0 ltac:(lia)) as N1.
  rewrite <- (padd_sub inp (6 + dl + 1) sl), <- N3, <- (padd_sub inp 6 dl), <- N2 by lia. change 5 with (1 + 4). rewrite <- (padd_sub inp 1 4) by lia.
  change 1 with (0 + 1). rewrite <- N1. by rewrite padd_0.
Qed.

(** ** Theorems *)

Lemma short_form x : byte_ok x -> Z.land x 0x80 = 0 -> Z.land x 0x40 <> 0 -> Z.land x 0xc0 = 0x40.
Proof.
  intros Hx H8 H4.
  assert (G : forallb (fun x => negb (Z.land x 0x80 =? 0) || (Z.land x 0x40 =? 0) || (Z.land x 0xc0 =? 0x40)) (map Z.of_nat (seq 0 256)) = true) by reflexivity.
  rewrite forallb_forall in G. specialize (G x). rewrite H8, Z.eqb_refl in G. destruct (Z.eqb_spec (Z.land x 0x40) 0); [done|]. cbn [negb orb] in G. apply Z.eqb_eq, G.
  apply in_map_iff. exists (Z.to_nat x). unfold byte_ok in Hx. split; [lia|]. apply in_seq. lia.
Qed.

Lemma short_parse_any keys inp dl scratch cap :
  keys_ok keys -> Forall byte_ok inp -> Forall byte_ok scratch -> 0 <= dl -> 0 <= cap <= zlen scratch -> zlen scratch < 2 ^ 64 ->
  match quic_short_parse inp (zlen inp) dl keys scratch cap with
  | Ret (Some pkt, _) =>
      exists b0, Z.land b0 0xc0 = 0x40 /\ Z.land b0 3 + 1 = s_pn_len pkt /\ Z.land (Z.shiftr b0 5) 1 = s_spin pkt /\ Z.land (Z.shiftr b0 2) 1 = s_key_phase pkt /\
        s_dcid_len pkt = dl /\ zlen (s_dcid pkt) = dl /\ zlen (s_payload pkt) = s_payload_len pkt /\ Forall byte_ok (s_payload pkt) /\
        inp = wire_form keys (mk_parts b0 (s_dcid pkt) (pn_wire (s_pn pkt) (s_pn_len pkt)) (s_pn pkt) (s_payload pkt)) 0x1f
  | Ret (None, _) => True
  | Fail | Oob => False
  end.
Proof.
  intros Hk Hi Hs Hd Hcap Hsl. unfold quic_short_parse. change QUIC_MAX_CID_LEN with 20. change QUIC_TAG_LEN with 16. change QUIC_HP_SAMPLE_LEN with 16.
  destruct (Z.ltb_spec 20 dl); [exact I|]. destruct (Z.ltb_spec (zlen inp) (1 + dl + 1 + 4 + 16)); [exact I|].
  assert (Hx : byte_ok (nth 0 inp 0)) by (eapply (rd_byte inp 0); [exact Hi|apply rd_nth; lia]).
  rewrite rd_nth by lia. ret. change (Z.to_nat 0) with 0%nat.
  destruct (Z.eqb_spec (Z.land (nth 0 inp 0) 0x80) 0) as [H80|]; cbn [negb]; [|exact I]. destruct (Z.eqb_spec (Z.land (nth 0 inp 0) 0x40) 0) as [|H40]; [exact I|].
  destruct (Z.ltb_spec (zlen inp) (1 + dl + 4 + 16)); [exact I|]. set (pn_off := 1 + dl).
  set (b0 := Z.lxor (nth 0 inp 0) (Z.land (nth 0 (mask_at keys inp pn_off) 0) 0x1f)). set (n := Z.land b0 3 + 1). set (c := zlen inp - (pn_off + n) - 16).
  assert (L1 : 1 <= pn_off) by lia. assert (L2 : pn_off + 20 <= zlen inp) by lia. assert (L3 : 0 <= 0x1f < 256) by lia.
  pose proof (pn_len_range keys Hk inp Hi pn_off L1 L2 0x1f L3 : 1 <= n <= 4) as Hn.
  rewrite (unmask_any keys Hk inp Hi pn_off L1 L2 0x1f L3 c). fold b0. fold n. ret. set (p := decoded keys inp pn_off c 0x1f).
  destruct (Z.ltb_spec (zlen inp) (pn_off + n + 16)); [exact I|]. destruct (Z.ltb_spec cap (pn_off + n)); [exact I|].
  pose proof (rebuild_any keys Hk inp Hi pn_off L1 L2 0x1f L3 c scratch : pn_off + n <= zlen scratch -> rebuild_header inp scratch (pn_off + n) b0 pn_off (pt_pnb p) = _) as Er.
  fold b0 in Er. fold n in Er. fold p in Er. rewrite Er by lia. ret. destruct (Z.ltb_spec (zlen inp) (pn_off + n + 16)); [lia|]. fold c. destruct (Z.ltb_spec cap (pn_off + n + c)); [exact I|].
  pose proof (open_any keys Hk inp Hi pn_off L1 L2 0x1f L3 c scratch : 0 <= c -> pn_off + n + c + 16 <= zlen inp -> _) as Eo. specialize (Eo ltac:(lia) ltac:(lia) Hs ltac:(fold b0; fold n; lia)).
  fold b0 in Eo. fold n in Eo. fold p in Eo. change (pn_value (pt_pnb p)) with (pt_pn p).  cbv zeta in Eo. rewrite Eo. case_bool_decide as Ht; ret; [|exact I].
  rewrite rdn_ok by (rewrite zlen_padd; lia). ret. cbn [s_dcid s_dcid_len s_pn s_pn_len s_payload s_payload_len s_spin s_key_phase].
  pose proof (wire_decoded keys Hk inp Hi pn_off L1 L2 0x1f L3 c ltac:(lia) ltac:(fold b0; fold n; lia) ltac:(fold b0; fold n; lia) Ht) as Ew. fold b0 in Ew. fold n in Ew. fold p in Ew.
  pose proof (zlen_decoded_pn keys Hk inp Hi pn_off L1 L2 0x1f L3 c : zlen (pt_pnb p) = n) as Hpn. pose proof (decoded_bytes keys Hk inp Hi pn_off L1 L2 0x1f L3 c) as Hb. fold p in Hb.
  apply Forall_cons_1 in Hb as [_ Hb]. apply Forall_app in Hb as [_ Hb].
  exists b0. split; [unfold b0; rewrite mask_outside by reflexivity; apply short_form; assumption|]. do 4 (split; [reflexivity|]).
  split; [rewrite zlen_ztake, zlen_padd; lia|]. split.
  - pose proof (nonce_keyed keys (pt_pn p) Hk) as HK. unfold p. cbn [decoded pt_payload]. fold b0. fold n. rewrite zlen_aead_enc by exact HK. apply zlen_sub; lia.
  - split; [apply aead_enc_bytes; [apply nonce_keyed, Hk|apply Forall_sub, Hi]|].
    rewrite <- Hpn. change (pt_pn p) with (pn_value (pt_pnb p)). rewrite pn_wire_value by (exact Hb || lia).
    rewrite <- (ztake_all inp (pn_off + n + c + 16)) at 1 by lia. rewrite <- Ew. f_equal. unfold p, decoded. fold b0. fold n.
    unfold pn_off, sub at 1. by replace (1 + dl - 1) with dl by lia.
Qed.

(** C12: for every datagram, [quic_short_parse] stays within its buffers, and a
    packet it accepts is the protected form of what it returns: the destination
    id, the packet number as written, the payload sealed under the key with the
    nonce of that packet number and the unprotected header as associated data.
    Header bytes, packet number and payload are thus all authenticated. *)
Theorem short_parse_authentic keys inp dl scratch cap :
  keys_ok keys -> Forall byte_ok inp -> Forall byte_ok scratch -> 0 <= dl -> 0 <= cap <= zlen scratch -> zlen scratch < 2 ^ 64 ->
  match quic_short_parse inp (zlen inp) dl keys scratch cap with
  | Ret (Some pkt, _) =>
      exists b0, Z.land b0 0xc0 = 0x40 /\ Z.land b0 3 + 1 = s_pn_len pkt /\ Z.land (Z.shiftr b0 5) 1 = s_spin pkt /\ Z.land (Z.shiftr b0 2) 1 = s_key_phase pkt /\
        s_dcid_len pkt = dl /\ zlen (s_dcid pkt) = dl /\ zlen (s_payload pkt) = s_payload_len pkt /\ Forall byte_ok (s_payload pkt) /\
        inp = wire_form keys (mk_parts b0 (s_dcid pkt) (pn_wire (s_pn pkt) (s_pn_len pkt)) (s_pn pkt) (s_payload pkt)) 0x1f
  | Ret (None, _) => True
  | Fail | Oob => False
  end.
Proof. apply short_parse_any. Qed.

Lemma parse_protected_any keys inp off scratch cap :
  keys_ok keys -> Forall byte_ok inp -> Forall byte_ok scratch -> 1 <= off <= zlen inp -> 0 <= cap <= zlen scratch -> zlen scratch < 2 ^ 62 -> zlen inp < 2 ^ 62 ->
  match parse_protected inp (zlen inp) keys (nth 0 inp 0) off scratch cap with
  | Ret (Some r, _) => exists k L, quic_varint_decode (padd inp off) (zlen inp - off) = Ret (k, L) /\ authentic keys inp (off + k) L r
  | Ret (None, _) => True
  | Fail => False
  | Oob => exists k L, quic_varint_decode (padd inp off) (zlen inp - off) = Ret (k, L) /\ underflow keys inp (off + k) L cap
  end.
Proof.
  intros Hk Hi Hs Ho Hcap Hsl Hil. unfold parse_protected, parse_varint.
  pose proof (varint_decode_wp (padd inp off) (zlen inp - off) ltac:(auto with pico) ltac:(rewrite zlen_padd; lia)) as Hv.
  destruct (quic_varint_decode (padd inp off) (zlen inp - off)) as [[k L]| |]; [|exact I|contradiction Hv].
  destruct Hv as (V1 & V2 & _). ret. assert (V3 : QUIC_VARINT_MAX < 2 ^ 62) by reflexivity.
  pose proof (parse_tail_any keys inp (off + k) L scratch cap Hk Hi Hs ltac:(lia) ltac:(lia) Hcap Hsl Hil) as Ht.
  destruct (parse_tail _ _ _ _ _ _ _ _) as [[[r|] s]| |]; [exists k, L; split; [reflexivity|exact Ht]|exact I|exact Ht|exists k, L; split; [reflexivity|exact Ht]].
Qed.

Lemma initial_parse_any keys inp scratch cap :
  keys_ok keys -> Forall byte_ok inp -> Forall byte_ok scratch -> 0 <= cap <= zlen scratch -> zlen scratch < 2 ^ 62 -> zlen inp < 2 ^ 62 ->
  match quic_initial_parse inp (zlen inp) keys scratch cap with
  | Ret (Some pkt, _) =>
      i_version pkt = 1 /\ i_payload_len pkt = zlen (i_payload pkt) /\ exists x rest tl k L, inp = x :: cid_fields (i_dcid pkt) (i_scid pkt) ++ tl ++ i_token pkt ++ rest /\ Z.land x 0xf0 = 0xc0 /\
        quic_varint_decode (tl ++ i_token pkt ++ rest) (zlen (tl ++ i_token pkt ++ rest)) = Ret (zlen tl, zlen (i_token pkt)) /\
        quic_varint_decode rest (zlen rest) = Ret (k, L) /\ authentic keys inp (zlen inp - zlen rest + k) L (i_pn pkt, i_pn_len pkt, i_payload pkt)
  | Ret (None, _) => True
  | Fail => False
  | Oob => exists off k L, quic_varint_decode (padd inp off) (zlen inp - off) = Ret (k, L) /\ underflow keys inp (off + k) L cap
  end.
Proof.
  intros Hk Hi Hs Hcap Hsl Hil. unfold quic_initial_parse. pose proof (parse_long_prefix_any inp 0xc0 Hi) as Hp.
  destruct (parse_long_prefix inp (zlen inp) 0xc0) as [[[[[[x v] d] s] off]|]| |]; [|exact I|contradiction|contradiction]. ret.
  destruct Hp as (-> & Ht & Hd & Hsl' & -> & rest & Ei). set (off := 7 + zlen d + zlen s).
  assert (Ho : off = zlen (x :: cid_fields d s)) by (rewrite zlen_cons, zlen_cid_fields; lia). pose proof (zlen_nonneg d). pose proof (zlen_nonneg s). pose proof (zlen_nonneg rest).
  assert (Hl : zlen inp = off + zlen rest) by (rewrite Ei, Ho, app_comm_cons, zlen_app; lia).
  assert (Er : padd inp off = rest) by (rewrite Ei, app_comm_cons; by apply padd_app). unfold parse_varint at 1. rewrite Er. replace (zlen inp - off) with (zlen rest) by lia.
  assert (Hrb : Forall byte_ok rest) by (rewrite <- Er; auto with pico).
  pose proof (varint_decode_wp rest (zlen rest) Hrb ltac:(lia)) as Hv. destruct (quic_varint_decode rest (zlen rest)) as [[tn tv]| |] eqn:Ev; [|exact I|contradiction Hv].
  destruct Hv as (V1 & V2 & _). ret. change QUIC_MAX_TOKEN_LEN with 256. destruct (Z.ltb_spec 256 tv); [exact I|]. destruct (Z.ltb_spec (zlen inp) (off + tn + tv)); [exact I|].
  rewrite rdn_ok by (rewrite zlen_padd; lia). ret. fold (sub inp (off + tn) tv).
  assert (E0 : nth 0 inp 0 = x) by (rewrite Ei; reflexivity). rewrite <- E0.
  pose proof (parse_protected_any keys inp (off + tn + tv) scratch cap Hk Hi Hs ltac:(lia) Hcap Hsl Hil) as Ht'.
  destruct (parse_protected _ _ _ _ _ _ _) as [[[[[pn n] pt]|] sc]| |]; [ret|ret; exact I|exact Ht'|cbn [rbind]].
  2:{ destruct Ht' as (k & L & E & Hu). exists (off + tn + tv), k, L. split; [exact E|exact Hu]. }
  cbn [i_version i_dcid i_scid i_token i_pn i_pn_len i_payload i_payload_len]. destruct Ht' as (k & L & E & Ha). do 2 (split; [reflexivity|]).
  set (rest0 := padd inp (off + tn + tv)) in *. assert (Hr0 : zlen rest0 = zlen inp - (off + tn + tv)) by (unfold rest0; rewrite zlen_padd; lia).
  assert (Esp : rest = ztake tn rest ++ sub inp (off + tn) tv ++ rest0).
  { unfold rest0. rewrite <- padd_sub by lia. rewrite <- (padd_padd inp off tn), Er by lia. unfold ztake, padd. by rewrite take_drop. }
  exists x, rest0, (ztake tn rest), k, L. rewrite <- Esp, Hr0, zlen_sub, zlen_ztake by lia. replace (tn `min` zlen rest) with tn by lia.
  split; [exact Ei|]. split; [exact Ht|]. split; [exact Ev|]. split; [exact E|]. replace (zlen inp - (zlen inp - (off + tn + tv))) with (off + tn + tv) by lia. exact Ha.
Qed.

Lemma handshake_parse_any keys inp scratch cap :
  keys_ok keys -> Forall byte_ok inp -> Forall byte_ok scratch -> 0 <= cap <= zlen scratch -> zlen scratch < 2 ^ 62 -> zlen inp < 2 ^ 62 ->
  match quic_handshake_parse inp (zlen inp) keys scratch cap with
  | Ret (Some pkt, _) =>
      h_version pkt = 1 /\ h_payload_len pkt = zlen (h_payload pkt) /\ exists x rest k L, inp = x :: cid_fields (h_dcid pkt) (h_scid pkt) ++ rest /\ Z.land x 0xf0 = 0xe0 /\
        quic_varint_decode rest (zlen rest) = Ret (k, L) /\ authentic keys inp (zlen inp - zlen rest + k) L (h_pn pkt, h_pn_len pkt, h_payload pkt)
  | Ret (None, _) => True
  | Fail => False
  | Oob => exists off k L, quic_varint_decode (padd inp off) (zlen inp - off) = Ret (k, L) /\ underflow keys inp (off + k) L cap
  end.
Proof.
  intros Hk Hi Hs Hcap Hsl Hil. unfold quic_handshake_parse. pose proof (parse_long_prefix_any inp 0xe0 Hi) as Hp.
  destruct (parse_long_prefix inp (zlen inp) 0xe0) as [[[[[[x v] d] s] off]|]| |]; [|exact I|contradiction|contradiction]. ret.
  destruct Hp as (-> & Ht & Hd & Hsl' & -> & rest & Ei). set (off := 7 + zlen d + zlen s).
  assert (Ho : off = zlen (x :: cid_fields d s)) by (rewrite zlen_cons, zlen_cid_fields; lia). pose proof (zlen_nonneg d). pose proof (zlen_nonneg s). pose proof (zlen_nonneg rest).
  assert (Hl : zlen inp = off + zlen rest) by (rewrite Ei, Ho, app_comm_cons, zlen_app; lia).
  assert (Er : padd inp off = rest) by (rewrite Ei, app_comm_cons; by apply padd_app). assert (E0 : nth 0 inp 0 = x) by (rewrite Ei; reflexivity). rewrite <- E0.
  pose proof (parse_protected_any keys inp off scratch cap Hk Hi Hs ltac:(lia) Hcap Hsl Hil) as Ht'.
  destruct (parse_protected _ _ _ _ _ _ _) as [[[[[pn n] pt]|] sc]| |]; [ret|ret; exact I|exact Ht'|cbn [rbind]].
  2:{ destruct Ht' as (k & L & E & Hu). exists off, k, L. split; [exact E|exact Hu]. }
  cbn [h_version h_dcid h_scid h_pn h_pn_len h_payload h_payload_len]. destruct Ht' as (k & L & E & Ha). do 2 (split; [reflexivity|]).
  rewrite Er in E. exists x, rest, k, L. replace (zlen inp - off) with (zlen rest) in E by lia. split; [exact Ei|]. split; [exact Ht|]. split; [exact E|].
  replace (zlen inp - zlen rest) with off by lia. exact Ha.
Qed.


(** An Initial packet that [quic_initial_build] writes is read back by
    [quic_initial_parse] under the same keys, also when other packets follow in
    the datagram: version, connection ids, token, packet number and payload are
    those of the sender, the payload followed by its padding.  With padding
    asked for, the packet has at least 1200 bytes and no more than needed. *)
Lemma initial_wire_roundtrip pkt pad keys out cap r scratch scap :
  initial_ok pkt pad -> i_pn pkt < 256 ^ i_pn_len pkt -> keys_ok keys -> Forall byte_ok out -> cap <= zlen out < 2 ^ 62 ->
  let size := Z.max (if pad then 1200 else 0) (initial_size pkt) in
  size <= cap -> Forall byte_ok r -> Forall byte_ok scratch -> size <= scap <= zlen scratch ->
  exists w s, zlen w = size /\ quic_initial_build out cap pkt keys pad = Ret (size, w ++ padd out size) /\
    quic_initial_parse (w ++ r) (zlen (w ++ r)) keys scratch scap = Ret (Some (received pkt pad), s).
Proof.
  intros Hok Hpn Hk Ho Hc size Hs Hr Hsb Hsc. pose proof (initial_parts_ok pkt pad Hok) as Hp. pose proof (initial_lengths pkt pad Hok) as (L1 & L2 & L3 & L4 & L5 & L6).
  pose proof (zlen_wire keys _ 0x0f Hk Hp) as Ew. rewrite zlen_plain, L1 in Ew. change (pt_payload _) with (padded pkt pad) in Ew. rewrite L2 in Ew.
  assert (Es : zlen (wire_form keys (initial_parts pkt pad) 0x0f) = size).
  { rewrite Ew. unfold size. pose proof (zlen_nonneg (pt_mid (initial_parts pkt pad))). destruct Hok as (_ & _ & _ & _ & N & _). unfold initial_pad in *. destruct pad; lia. }
  exists (wire_form keys (initial_parts pkt pad) 0x0f). eexists. split; [exact Es|]. split.
  - rewrite <- Es. apply initial_build_ok; (assumption || lia).
  - apply initial_parse_ok; (assumption || lia).
Qed.

Definition example_initial : quic_initial_pkt_t := mk_ipkt 1 [0x83;0x94;0xc8;0xf0;0x3e;0x51;0x57;0x08] 8 [1; 2; 3] 3 [9; 9] 2 2 1 [0x06; 0; 1; 0x42] 4.

Lemma rfc_keys_ok : keys_ok rfc_keys.
Proof. split; [|split]; (split; [by apply bytes_okb_ok|done]). Qed.

Lemma example_initial_ok : initial_ok example_initial true.
Proof. unfold initial_ok, cid_ok. split_and!; try (by apply bytes_okb_ok); by vm_compute. Qed.


Definition example_short : quic_short_pkt_t := mk_spkt [1; 2; 3; 4] 4 300 2 [0x01; 0x1e; 0] 3 1 0.


(** C39: an Initial packet whose length field is 0 makes [quic_initial_parse] read
    out of bounds, whatever the keys and the bytes behind the length field, as
    soon as the connection ids have seven bytes and the scratch buffer holds the
    header: [enc_len = length_v - pn_len] wraps around, and so does the sum that
    is compared with the scratch size.  No key is needed to send such a packet. *)
Theorem initial_length_zero_oob keys x d s tail scratch cap :
  keys_ok keys -> byte_ok x -> Z.land x 0xf0 = 0xc0 -> Forall byte_ok (d ++ s ++ tail) -> zlen d <= 20 -> zlen s <= 20 -> 7 <= zlen d + zlen s ->
  20 <= zlen tail < 2 ^ 61 -> Forall byte_ok scratch -> 13 + zlen d + zlen s <= cap <= zlen scratch -> zlen scratch < 2 ^ 62 ->
  let inp := x :: cid_fields d s ++ [0; 0] ++ tail in
  quic_initial_parse inp (zlen inp) keys scratch cap = Oob.
Proof.
  intros Hk Hx Ht Hb Hd Hs H7 Htl Hsb Hcap Hsl inp. rewrite !Forall_app in Hb. destruct Hb as (Db & Sb & Tb). pose proof (zlen_nonneg d). pose proof (zlen_nonneg s).
  assert (Hib : Forall byte_ok inp). { constructor; [done|]. rewrite !Forall_app. split; [by apply cid_fields_bytes|]. split; [by apply bytes_okb_ok|done]. }
  assert (Hl : zlen inp = 9 + zlen d + zlen s + zlen tail) by (unfold inp; rewrite zlen_cons, !zlen_app, zlen_cid_fields; change (zlen [0; 0]) with 2; lia).
  unfold quic_initial_parse. unfold inp at 1 2. rewrite parse_long_prefix_ok by done. ret. set (off := 7 + zlen d + zlen s).
  assert (Eo : forall l, padd (x :: cid_fields d s ++ l) off = l) by (intros l; unfold off; replace (7 + zlen d + zlen s) with (1 + zlen (cid_fields d s)) by (rewrite zlen_cid_fields; lia); apply padd_cons_app).
  assert (E1 : padd inp off = 0 :: 0 :: tail) by apply Eo. assert (E2 : padd inp (off + 1) = 0 :: tail) by (rewrite <- padd_padd, E1 by lia; reflexivity).
  assert (V0 : forall l n, 1 <= n -> quic_varint_decode (0 :: l) n = Ret (1, 0)) by (intros l n Hn; exact (varint_decode_cons 0 [] l n ltac:(done) ltac:(constructor) ltac:(done) Hn)).
  unfold parse_varint at 1. rewrite E1, V0 by lia. ret. change QUIC_MAX_TOKEN_LEN with 256. cbn [Z.ltb Z.compare]. rewrite Z.add_0_r. fits. rewrite rdn_ok by (rewrite E2, zlen_cons; lia). ret.
  unfold parse_protected, parse_varint. rewrite E2, V0 by lia. ret.
  pose proof (parse_tail_any keys inp (off + 1 + 1) 0 scratch cap Hk Hib Hsb ltac:(lia) ltac:(lia) ltac:(lia) Hsl ltac:(lia)) as Hp. change (nth 0 inp 0) with x in Hp.
  assert (Hu : underflow keys inp (off + 1 + 1) 0 cap).
  { unfold underflow. rewrite (zlen_decoded_pn keys Hk inp Hib (off + 1 + 1) ltac:(lia) ltac:(lia) 0x0f ltac:(lia) 0).
    pose proof (pn_len_range keys Hk inp Hib (off + 1 + 1) ltac:(lia) ltac:(lia) 0x0f ltac:(lia)). lia. }
  destruct (parse_tail _ _ _ _ _ _ _ _) as [[[[[pn n] pt]|] sc]| |]; [|contradiction|contradiction|reflexivity].
  destruct Hp as (_ & H0' & _ & b0 & Hn & _). pose proof (zlen_nonneg pt). rewrite land_3 in Hn. pose proof (Z.mod_pos_bound b0 4 ltac:(lia)). lia.
Qed.

Lemma initial_length_zero_oob_witness :
  let inp := 0xc3 :: cid_fields [1; 2; 3; 4; 5; 6; 7; 8] [] ++ [0; 0] ++ replicate 20 7 in
  quic_initial_parse inp (zlen inp) rfc_keys (replicate 1500 0) 1500 = Oob.
Proof.
  apply (initial_length_zero_oob rfc_keys 0xc3 [1; 2; 3; 4; 5; 6; 7; 8] [] (replicate 20 7) (replicate 1500 0) 1500); try exact rfc_keys_ok; try (by apply bytes_okb_ok); by vm_compute.
Defined.

Definition example_short_wire : list Z := match quic_short_build (replicate 26 0) 26 example_short rfc_keys with Ret (_, w) => w | _ => [] end.

Lemma short_parse_authentic_witness :
  exists b0, Z.land b0 3 + 1 = 2 /\ example_short_wire = wire_form rfc_keys (mk_parts b0 [1; 2; 3; 4] (pn_wire 300 2) 300 [0x01; 0x1e; 0]) 0x1f.
Proof.
  pose proof (short_parse_authentic rfc_keys example_short_wire 4 (replicate 64 0) 64 rfc_keys_ok ltac:(by apply bytes_okb_ok) ltac:(by apply bytes_okb_ok) ltac:(lia) ltac:(done) ltac:(done)) as H.
  assert (E : rbind (quic_short_parse example_short_wire (zlen example_short_wire) 4 rfc_keys (replicate 64 0) 64) (fun r => Ret (fst r)) = Ret (Some example_short)) by (by vm_compute).
  destruct (quic_short_parse example_short_wire (zlen example_short_wire) 4 rfc_keys (replicate 64 0) 64) as [[r s]| |]; [|discriminate E|discriminate E].
  injection E as ->. destruct H as (b0 & _ & H1 & _ & _ & _ & _ & _ & _ & H2). exists b0. split; [exact H1|exact H2].
Defined.

