(* ===== verification/Field25519.v ===== *)
(** * Arithmetic modulo 2^255 - 19

    The field elements of [userspace/crypto/x25519.c], five limbs of 51 bits in
    64-bit words with 128-bit products, as used by X25519 and, copied, by
    [userspace/crypto/ed25519.c].  Every operation wraps at its width; the
    theorems show that within the limb bounds kept by the callers nothing wraps
    and the operations compute in the field. *)

From Stdlib Require Import ZArith Lia String Zpow_facts.
From stdpp Require Import list numbers option.
From S2P Require Import Prelude Util Words.

Definition u128 (x : Z) : Z := x mod 2 ^ 128.

(** [typedef uint64_t fe[5]] *)
Record fe := mk_fe { f0 : Z; f1 : Z; f2 : Z; f3 : Z; f4 : Z }.

Definition MASK51 : Z := 0x7ffffffffffff.

(** Byte [i] of a 32-byte argument. *)
Definition at_ (b : list Z) (i : nat) : Z := nth i b 0.
Definition shl (x n : Z) : Z := u64 (Z.shiftl x n).

Definition fe_from_bytes (inp : list Z) : res fe :=
  let! b := rdn inp 32 in
  let b := at_ b in
  Ret (mk_fe
    (Z.lor (Z.lor (Z.lor (Z.lor (Z.lor (Z.lor (b 0%nat) (shl (b 1%nat) 8)) (shl (b 2%nat) 16)) (shl (b 3%nat) 24)) (shl (b 4%nat) 32)) (shl (b 5%nat) 40)) (shl (Z.land (b 6%nat) 0x07) 48))
    (Z.lor (Z.lor (Z.lor (Z.lor (Z.lor (Z.lor (Z.shiftr (b 6%nat) 3) (shl (b 7%nat) 5)) (shl (b 8%nat) 13)) (shl (b 9%nat) 21)) (shl (b 10%nat) 29)) (shl (b 11%nat) 37)) (shl (Z.land (b 12%nat) 0x3f) 45))
    (Z.lor (Z.lor (Z.lor (Z.lor (Z.lor (Z.lor (Z.lor (Z.shiftr (b 12%nat) 6) (shl (b 13%nat) 2)) (shl (b 14%nat) 10)) (shl (b 15%nat) 18)) (shl (b 16%nat) 26)) (shl (b 17%nat) 34)) (shl (b 18%nat) 42)) (shl (Z.land (b 19%nat) 0x01) 50))
    (Z.lor (Z.lor (Z.lor (Z.lor (Z.lor (Z.lor (Z.shiftr (b 19%nat) 1) (shl (b 20%nat) 7)) (shl (b 21%nat) 15)) (shl (b 22%nat) 23)) (shl (b 23%nat) 31)) (shl (b 24%nat) 39)) (shl (Z.land (b 25%nat) 0x0f) 47))
    (Z.lor (Z.lor (Z.lor (Z.lor (Z.lor (Z.lor (Z.shiftr (b 25%nat) 4) (shl (b 26%nat) 4)) (shl (b 27%nat) 12)) (shl (b 28%nat) 20)) (shl (b 29%nat) 28)) (shl (b 30%nat) 36)) (shl (Z.land (b 31%nat) 0x7f) 44))).

Definition fe_carry (x : fe) : fe :=
  let '(mk_fe x0 x1 x2 x3 x4) := x in
  let c := Z.shiftr x0 51 in let x0 := Z.land x0 MASK51 in let x1 := u64 (x1 + c) in
  let c := Z.shiftr x1 51 in let x1 := Z.land x1 MASK51 in let x2 := u64 (x2 + c) in
  let c := Z.shiftr x2 51 in let x2 := Z.land x2 MASK51 in let x3 := u64 (x3 + c) in
  let c := Z.shiftr x3 51 in let x3 := Z.land x3 MASK51 in let x4 := u64 (x4 + c) in
  let c := Z.shiftr x4 51 in let x4 := Z.land x4 MASK51 in let x0 := u64 (x0 + u64 (c * 19)) in
  let c := Z.shiftr x0 51 in let x0 := Z.land x0 MASK51 in let x1 := u64 (x1 + c) in
  mk_fe x0 x1 x2 x3 x4.

(** The packing of five 51-bit limbs into 32 bytes. *)
Definition fe_pack (t : fe) : list Z :=
  let '(mk_fe t0 t1 t2 t3 t4) := t in
  map u8
    [t0; Z.shiftr t0 8; Z.shiftr t0 16; Z.shiftr t0 24; Z.shiftr t0 32; Z.shiftr t0 40; Z.lor (Z.shiftr t0 48) (shl t1 3);
     Z.shiftr t1 5; Z.shiftr t1 13; Z.shiftr t1 21; Z.shiftr t1 29; Z.shiftr t1 37; Z.lor (Z.shiftr t1 45) (shl t2 6);
     Z.shiftr t2 2; Z.shiftr t2 10; Z.shiftr t2 18; Z.shiftr t2 26; Z.shiftr t2 34; Z.shiftr t2 42; Z.lor (Z.shiftr t2 50) (shl t3 1);
     Z.shiftr t3 7; Z.shiftr t3 15; Z.shiftr t3 23; Z.shiftr t3 31; Z.shiftr t3 39; Z.lor (Z.shiftr t3 47) (shl t4 4);
     Z.shiftr t4 4; Z.shiftr t4 12; Z.shiftr t4 20; Z.shiftr t4 28; Z.shiftr t4 36; Z.shiftr t4 44].

Definition fe_to_bytes (inp : fe) : list Z :=
  let '(mk_fe t0 t1 t2 t3 t4) := fe_carry inp in
  let q := Z.shiftr (u64 (t0 + 19)) 51 in
  let q := Z.shiftr (u64 (t1 + q)) 51 in
  let q := Z.shiftr (u64 (t2 + q)) 51 in
  let q := Z.shiftr (u64 (t3 + q)) 51 in
  let q := Z.shiftr (u64 (t4 + q)) 51 in
  let t0 := u64 (t0 + u64 (19 * q)) in
  let c := Z.shiftr t0 51 in let t0 := Z.land t0 MASK51 in let t1 := u64 (t1 + c) in
  let c := Z.shiftr t1 51 in let t1 := Z.land t1 MASK51 in let t2 := u64 (t2 + c) in
  let c := Z.shiftr t2 51 in let t2 := Z.land t2 MASK51 in let t3 := u64 (t3 + c) in
  let c := Z.shiftr t3 51 in let t3 := Z.land t3 MASK51 in let t4 := u64 (t4 + c) in
  let t4 := Z.land t4 MASK51 in
  fe_pack (mk_fe t0 t1 t2 t3 t4).

Definition fe_add (a b : fe) : fe := mk_fe (u64 (f0 a + f0 b)) (u64 (f1 a + f1 b)) (u64 (f2 a + f2 b)) (u64 (f3 a + f3 b)) (u64 (f4 a + f4 b)).

Definition fe_sub (a b : fe) : fe :=
  mk_fe (u64 (f0 a + 0xfffffffffffda - f0 b)) (u64 (f1 a + 0xffffffffffffe - f1 b)) (u64 (f2 a + 0xffffffffffffe - f2 b)) (u64 (f3 a + 0xffffffffffffe - f3 b)) (u64 (f4 a + 0xffffffffffffe - f4 b)).

(** The carry passes at the end of [fe_mul] and [fe_mul_small]. *)
Definition fe_reduce (r0 r1 r2 r3 r4 : Z) : fe :=
  let c := u64 (Z.shiftr r0 51) in let r1 := u128 (r1 + c) in let o0 := Z.land (u64 r0) MASK51 in
  let c := u64 (Z.shiftr r1 51) in let r2 := u128 (r2 + c) in let o1 := Z.land (u64 r1) MASK51 in
  let c := u64 (Z.shiftr r2 51) in let r3 := u128 (r3 + c) in let o2 := Z.land (u64 r2) MASK51 in
  let c := u64 (Z.shiftr r3 51) in let r4 := u128 (r4 + c) in let o3 := Z.land (u64 r3) MASK51 in
  let c := u64 (Z.shiftr r4 51) in let o0 := u64 (o0 + u64 (c * 19)) in let o4 := Z.land (u64 r4) MASK51 in
  let c := Z.shiftr o0 51 in let o0 := Z.land o0 MASK51 in let o1 := u64 (o1 + c) in
  mk_fe o0 o1 o2 o3 o4.

Definition fe_mul (a b : fe) : fe :=
  let '(mk_fe a0 a1 a2 a3 a4) := a in
  let '(mk_fe b0 b1 b2 b3 b4) := b in
  let b1_19 := u128 (19 * b1) in
  let b2_19 := u128 (19 * b2) in
  let b3_19 := u128 (19 * b3) in
  let b4_19 := u128 (19 * b4) in
  fe_reduce
    (u128 (a0 * b0 + a1 * b4_19 + a2 * b3_19 + a3 * b2_19 + a4 * b1_19))
    (u128 (a0 * b1 + a1 * b0 + a2 * b4_19 + a3 * b3_19 + a4 * b2_19))
    (u128 (a0 * b2 + a1 * b1 + a2 * b0 + a3 * b4_19 + a4 * b3_19))
    (u128 (a0 * b3 + a1 * b2 + a2 * b1 + a3 * b0 + a4 * b4_19))
    (u128 (a0 * b4 + a1 * b3 + a2 * b2 + a3 * b1 + a4 * b0)).

Definition fe_sq (a : fe) : fe := fe_mul a a.

Definition fe_mul_small (a : fe) (b : Z) : fe :=
  fe_reduce (u128 (f0 a * b)) (u128 (f1 a * b)) (u128 (f2 a * b)) (u128 (f3 a * b)) (u128 (f4 a * b)).

(** [for (i = 0; i < n; i++) fe_sq(t, t)] *)
Definition fe_sqn (n : nat) (t : fe) : fe := Nat.iter n fe_sq t.

Definition fe_invert (z : fe) : fe :=
  let z2 := fe_sq z in
  let t := fe_sq (fe_sq z2) in
  let z9 := fe_mul t z in
  let z11 := fe_mul z9 z2 in
  let t := fe_sq z11 in
  let z2_5_0 := fe_mul t z9 in
  let t := fe_sqn 4 (fe_sq z2_5_0) in
  let z2_10_0 := fe_mul t z2_5_0 in
  let t := fe_sqn 9 (fe_sq z2_10_0) in
  let z2_20_0 := fe_mul t z2_10_0 in
  let t := fe_sqn 19 (fe_sq z2_20_0) in
  let t := fe_mul t z2_20_0 in
  let t := fe_sqn 10 t in
  let z2_50_0 := fe_mul t z2_10_0 in
  let t := fe_sqn 49 (fe_sq z2_50_0) in
  let z2_100_0 := fe_mul t z2_50_0 in
  let t := fe_sqn 99 (fe_sq z2_100_0) in
  let t := fe_mul t z2_100_0 in
  let t := fe_sqn 50 t in
  let t := fe_mul t z2_50_0 in
  let t := fe_sqn 5 t in
  fe_mul t z11.

(** * The field *)

Definition p25519 : Z := 2 ^ 255 - 19.

(** The number a field element stands for. *)
Definition feval (x : fe) : Z := f0 x + 2 ^ 51 * f1 x + 2 ^ 102 * f2 x + 2 ^ 153 * f3 x + 2 ^ 204 * f4 x.
Definition fval (x : fe) : Z := feval x mod p25519.

(** Limb bounds: [tight] is what a product delivers, [loose] what it accepts. *)
Definition within (b0 b1 b2 b3 b4 : Z) (x : fe) : Prop :=
  0 <= f0 x < b0 /\ 0 <= f1 x < b1 /\ 0 <= f2 x < b2 /\ 0 <= f3 x < b3 /\ 0 <= f4 x < b4.
Definition tight : fe -> Prop := within (2 ^ 51) (2 ^ 51 + 2 ^ 13) (2 ^ 51) (2 ^ 51) (2 ^ 51).
Definition loose : fe -> Prop := within (2 ^ 54) (2 ^ 54) (2 ^ 54) (2 ^ 54) (2 ^ 54).

Lemma tight_loose x : tight x -> loose x.
Proof. unfold tight, loose, within. lia. Qed.

#[export] Hint Resolve tight_loose : pico.

Lemma mask51 x : Z.land x MASK51 = x mod 2 ^ 51.
Proof. exact (Z.land_ones x 51 ltac:(lia)). Qed.

Lemma shr x n : 0 <= n -> Z.shiftr x n = x / 2 ^ n.
Proof. apply Z.shiftr_div_pow2. Qed.

Lemma u128_small x : 0 <= x < 2 ^ 128 -> u128 x = x.
Proof. apply Z.mod_small. Qed.

Lemma same_mod k a b m : a = b + k * m -> a mod m = b mod m.
Proof. intros ->. apply Z_mod_plus_full. Qed.

(** Cut a limb: name its quotient and remainder by [2^51]. *)
Ltac cut51 x q r :=
  let E := fresh "E" in let B := fresh "B" in
  pose proof (Z.div_mod x (2 ^ 51) ltac:(lia)) as E; pose proof (Z.mod_pos_bound x (2 ^ 51) ltac:(lia)) as B;
  generalize dependent (x mod 2 ^ 51); intros r; generalize dependent (x / 2 ^ 51); intros q E B.

(** ** Carries *)

Lemma fe_carry_ok x : within (2 ^ 63) (2 ^ 63) (2 ^ 63) (2 ^ 63) (2 ^ 63) x -> tight (fe_carry x) /\ fval (fe_carry x) = fval x.
Proof.
  destruct x as [x0 x1 x2 x3 x4]. unfold within. cbn [f0 f1 f2 f3 f4]. intros (B0 & B1 & B2 & B3 & B4).
  unfold fe_carry. rewrite !mask51, !shr by lia.
  cut51 x0 q0 r0. rewrite (u64_small (x1 + q0)) by lia.
  cut51 (x1 + q0) q1 r1. rewrite (u64_small (x2 + q1)) by lia.
  cut51 (x2 + q1) q2 r2. rewrite (u64_small (x3 + q2)) by lia.
  cut51 (x3 + q2) q3 r3. rewrite (u64_small (x4 + q3)) by lia.
  cut51 (x4 + q3) q4 r4. rewrite (u64_small (q4 * 19)), (u64_small (r0 + q4 * 19)) by lia.
  cut51 (r0 + q4 * 19) q5 r5. rewrite u64_small by lia.
  split; [unfold tight, within; cbn [f0 f1 f2 f3 f4]; lia|].
  unfold fval, feval. cbn [f0 f1 f2 f3 f4].
  apply (same_mod (- q4)). unfold p25519. lia.
Qed.

Lemma fe_reduce_ok r0 r1 r2 r3 r4 :
  0 <= r0 < 96 * 2 ^ 108 -> 0 <= r1 < 96 * 2 ^ 108 -> 0 <= r2 < 96 * 2 ^ 108 -> 0 <= r3 < 96 * 2 ^ 108 -> 0 <= r4 < 6 * 2 ^ 108 ->
  tight (fe_reduce r0 r1 r2 r3 r4) /\ fval (fe_reduce r0 r1 r2 r3 r4) = (r0 + 2 ^ 51 * r1 + 2 ^ 102 * r2 + 2 ^ 153 * r3 + 2 ^ 204 * r4) mod p25519.
Proof.
  intros B0 B1 B2 B3 B4. unfold fe_reduce. rewrite !mask51, !shr by lia.
  assert (H : forall x, u64 x mod 2 ^ 51 = x mod 2 ^ 51).
  { intros x. unfold u64. apply Z.mod_mod_divide. exists (2 ^ 13). lia. }
  rewrite !H. clear H.
  cut51 r0 q0 o0. rewrite (u64_small q0), (u128_small (r1 + q0)) by lia.
  cut51 (r1 + q0) q1 o1. rewrite (u64_small q1), (u128_small (r2 + q1)) by lia.
  cut51 (r2 + q1) q2 o2. rewrite (u64_small q2), (u128_small (r3 + q2)) by lia.
  cut51 (r3 + q2) q3 o3. rewrite (u64_small q3), (u128_small (r4 + q3)) by lia.
  cut51 (r4 + q3) q4 o4. rewrite (u64_small q4), (u64_small (q4 * 19)), (u64_small (o0 + q4 * 19)) by lia.
  cut51 (o0 + q4 * 19) q5 o5. rewrite u64_small by lia.
  split; [unfold tight, within; cbn [f0 f1 f2 f3 f4]; lia|].
  unfold fval, feval. cbn [f0 f1 f2 f3 f4]. apply (same_mod (- q4)). unfold p25519. lia.
Qed.

(** ** Operations *)

Lemma dot_bound k a0 a1 a2 a3 a4 b0 b1 b2 b3 b4 :
  0 <= a0 < 2 ^ 54 -> 0 <= a1 < 2 ^ 54 -> 0 <= a2 < 2 ^ 54 -> 0 <= a3 < 2 ^ 54 -> 0 <= a4 < 2 ^ 54 ->
  0 <= b0 < k -> 0 <= b1 < k -> 0 <= b2 < k -> 0 <= b3 < k -> 0 <= b4 < k ->
  0 <= a0 * b0 + a1 * b1 + a2 * b2 + a3 * b3 + a4 * b4 <= 5 * (2 ^ 54 * k).
Proof.
  assert (H : forall a b, 0 <= a < 2 ^ 54 -> 0 <= b < k -> 0 <= a * b <= 2 ^ 54 * k).
  { intros. split; [apply Z.mul_nonneg_nonneg; lia|apply Z.mul_le_mono_nonneg; lia]. }
  intros A0 A1 A2 A3 A4 B0 B1 B2 B3 B4.
  pose proof (H _ _ A0 B0). pose proof (H _ _ A1 B1). pose proof (H _ _ A2 B2). pose proof (H _ _ A3 B3). pose proof (H _ _ A4 B4). lia.
Qed.

(** Discharge the side conditions of a bound. *)
Ltac feed_lia D := repeat match type of D with ?P -> _ => let X := fresh in assert (P) as X by lia; specialize (D X); clear X end.

Lemma fe_mul_ok a b : loose a -> loose b -> tight (fe_mul a b) /\ fval (fe_mul a b) = (fval a * fval b) mod p25519.
Proof.
  destruct a as [a0 a1 a2 a3 a4], b as [b0 b1 b2 b3 b4]. unfold loose, within. cbn [f0 f1 f2 f3 f4].
  intros (A0 & A1 & A2 & A3 & A4) (B0 & B1 & B2 & B3 & B4). unfold fe_mul.
  rewrite !(u128_small (19 * _)) by lia.
  assert (D0 := dot_bound (19 * 2 ^ 54) a0 a1 a2 a3 a4 b0 (19 * b4) (19 * b3) (19 * b2) (19 * b1)). feed_lia D0.
  assert (D1 := dot_bound (19 * 2 ^ 54) a0 a1 a2 a3 a4 b1 b0 (19 * b4) (19 * b3) (19 * b2)). feed_lia D1.
  assert (D2 := dot_bound (19 * 2 ^ 54) a0 a1 a2 a3 a4 b2 b1 b0 (19 * b4) (19 * b3)). feed_lia D2.
  assert (D3 := dot_bound (19 * 2 ^ 54) a0 a1 a2 a3 a4 b3 b2 b1 b0 (19 * b4)). feed_lia D3.
  assert (D4 := dot_bound (2 ^ 54) a0 a1 a2 a3 a4 b4 b3 b2 b1 b0). feed_lia D4.
  change (2 ^ 54 * (19 * 2 ^ 54)) with (19 * 2 ^ 108) in *. change (2 ^ 54 * 2 ^ 54) with (2 ^ 108) in *.
  rewrite (u128_small (a0 * b0 + _ + _ + _ + _)) by (clear - D0; lia). rewrite (u128_small (a0 * b1 + _ + _ + _ + _)) by (clear - D1; lia).
  rewrite (u128_small (a0 * b2 + _ + _ + _ + _)) by (clear - D2; lia). rewrite (u128_small (a0 * b3 + _ + _ + _ + _)) by (clear - D3; lia).
  rewrite (u128_small (a0 * b4 + _ + _ + _ + _)) by (clear - D4; lia).
  match goal with |- context [fe_reduce ?r0 ?r1 ?r2 ?r3 ?r4] => destruct (fe_reduce_ok r0 r1 r2 r3 r4) as [T V] end;
    [clear - D0; lia|clear - D1; lia|clear - D2; lia|clear - D3; lia|clear - D4; lia|split; [exact T|rewrite V]].
  unfold fval, feval. rewrite <- Zmult_mod. cbn [f0 f1 f2 f3 f4].
  apply (same_mod (- (a1 * b4 + a2 * b3 + a3 * b2 + a4 * b1 + 2 ^ 51 * (a2 * b4 + a3 * b3 + a4 * b2) + 2 ^ 102 * (a3 * b4 + a4 * b3) + 2 ^ 153 * (a4 * b4)))).
  unfold p25519. ring.
Qed.

Lemma fe_sq_ok a : loose a -> tight (fe_sq a) /\ fval (fe_sq a) = (fval a * fval a) mod p25519.
Proof. intros H. by apply fe_mul_ok. Qed.

Lemma fe_mul_small_ok a k : loose a -> 0 <= k < 2 ^ 32 -> tight (fe_mul_small a k) /\ fval (fe_mul_small a k) = (fval a * k) mod p25519.
Proof.
  unfold loose, within. intros (A0 & A1 & A2 & A3 & A4) B. unfold fe_mul_small.
  assert (H : forall x, 0 <= x < 2 ^ 54 -> 0 <= x * k < 2 ^ 86) by (intros; change (2 ^ 86) with (2 ^ 54 * 2 ^ 32); nia).
  pose proof (H _ A0); pose proof (H _ A1); pose proof (H _ A2); pose proof (H _ A3); pose proof (H _ A4).
  rewrite !u128_small by lia.
  match goal with |- context [fe_reduce ?r0 ?r1 ?r2 ?r3 ?r4] => destruct (fe_reduce_ok r0 r1 r2 r3 r4) as [T V] end; [lia|lia|lia|lia|lia|].
  split; [exact T|rewrite V]. unfold fval. rewrite Zmult_mod_idemp_l. f_equal. unfold feval. ring.
Qed.

(** Sums of elements below a bound [k] that leaves room in the word. *)
Definition below (k : Z) : fe -> Prop := within k k k k k.

Lemma fe_add_ok a b j k l : below j a -> below k b -> j + k <= l -> l <= 2 ^ 63 ->
  below l (fe_add a b) /\ fval (fe_add a b) = (fval a + fval b) mod p25519.
Proof.
  unfold below, within. intros (A0 & A1 & A2 & A3 & A4) (B0 & B1 & B2 & B3 & B4) L1 L2. unfold fe_add. rewrite !u64_small by lia.
  split; [cbn [f0 f1 f2 f3 f4]; lia|]. unfold fval. rewrite <- Zplus_mod. f_equal. unfold feval. cbn [f0 f1 f2 f3 f4]. ring.
Qed.

(** The subtrahend must be below the limbs of [2 p]. *)
Lemma fe_sub_ok a b j l : below j a -> below (2 ^ 52 - 38) b -> j + 2 ^ 52 <= l -> l <= 2 ^ 63 ->
  below l (fe_sub a b) /\ fval (fe_sub a b) = (fval a - fval b) mod p25519.
Proof.
  unfold below, within. intros (A0 & A1 & A2 & A3 & A4) (B0 & B1 & B2 & B3 & B4) L1 L2. unfold fe_sub. rewrite !u64_small by lia.
  split; [cbn [f0 f1 f2 f3 f4]; lia|]. unfold fval. rewrite <- Zminus_mod. unfold feval. cbn [f0 f1 f2 f3 f4].
  apply (same_mod 2). unfold p25519. ring.
Qed.

Lemma fval_range x : 0 <= fval x < p25519.
Proof. apply Z.mod_pos_bound. unfold p25519. lia. Qed.

(** ** Powers *)

(** [x] is the [n]-th power of [z]. *)
Definition pw (z : fe) (n : Z) (x : fe) : Prop := 0 <= n /\ loose x /\ fval x = fval z ^ n mod p25519.

Lemma pw_mul z m n x y : pw z m x -> pw z n y -> pw z (m + n) (fe_mul x y).
Proof.
  intros (Hm & Lx & Vx) (Hn & Ly & Vy). destruct (fe_mul_ok x y Lx Ly) as [T V]. split; [lia|]. split; [auto with pico|].
  by rewrite V, Vx, Vy, <- Zmult_mod, Z.pow_add_r.
Qed.

Lemma pw_sq z n x : pw z n x -> pw z (2 * n) (fe_sq x).
Proof. intros H. replace (2 * n) with (n + n) by lia. by apply pw_mul. Qed.

Lemma pw_sqn z k n x : pw z n x -> pw z (2 ^ Z.of_nat k * n) (fe_sqn k x).
Proof.
  intros H. induction k as [|k IH]; cbn [fe_sqn Nat.iter]; [by rewrite Z.mul_1_l|].
  rewrite Nat2Z.inj_succ, Z.pow_succ_r, <- Z.mul_assoc by lia. by apply pw_sq.
Qed.

Lemma pw_self z : loose z -> pw z 1 z.
Proof. intros L. repeat split; try apply L; try lia. rewrite Z.pow_1_r. unfold fval. by rewrite Z.mod_mod by (unfold p25519; lia). Qed.

Lemma pw_eq z m n x : pw z m x -> m = n -> pw z n x.
Proof. by intros H <-. Qed.

(** The inverse of RFC 7748 and RFC 8032, by Fermat's little theorem. *)
Definition finv (x : Z) : Z := Zpow_mod x (p25519 - 2) p25519.

Lemma finv_pow x : finv x = x ^ (p25519 - 2) mod p25519.
Proof. apply Zpow_mod_correct. by unfold p25519. Qed.

(** Powers of an addition chain; [k] squarings multiply the exponent by [2^k]. *)
Ltac chain :=
  repeat lazymatch goal with
  | |- pw _ _ (fe_mul _ _) => eapply pw_mul
  | |- pw _ _ (fe_sq _) => eapply pw_sq
  | |- pw _ _ (fe_sqn _ _) => eapply pw_sqn
  | |- pw _ _ _ => eassumption
  end.

#[local] Opaque fe_mul fe_sq fe_sqn.

Lemma fe_invert_pw z : loose z -> tight (fe_invert z) /\ fval (fe_invert z) = fval z ^ (2 ^ 255 - 21) mod p25519.
Proof.
  intros L. pose proof (pw_self z L) as H1. unfold fe_invert.
  pose proof (pw_sq _ _ _ H1) as H2. set (z2 := fe_sq z) in *. clearbody z2. cbv zeta.
  assert (H9 : pw z 9 (fe_mul (fe_sq (fe_sq z2)) z)) by (eapply pw_eq; [chain|lia]). generalize dependent (fe_mul (fe_sq (fe_sq z2)) z). intros z9 H9.
  assert (H11 : pw z 11 (fe_mul z9 z2)) by (eapply pw_eq; [chain|lia]). generalize dependent (fe_mul z9 z2). intros z11 H11.
  assert (H5 : pw z (2 ^ 5 - 1) (fe_mul (fe_sq z11) z9)) by (eapply pw_eq; [chain|lia]). generalize dependent (fe_mul (fe_sq z11) z9). intros z5 H5.
  assert (H10 : pw z (2 ^ 10 - 1) (fe_mul (fe_sqn 4 (fe_sq z5)) z5)) by (eapply pw_eq; [chain|lia]). generalize dependent (fe_mul (fe_sqn 4 (fe_sq z5)) z5). intros z10 H10.
  assert (H20 : pw z (2 ^ 20 - 1) (fe_mul (fe_sqn 9 (fe_sq z10)) z10)) by (eapply pw_eq; [chain|lia]). generalize dependent (fe_mul (fe_sqn 9 (fe_sq z10)) z10). intros z20 H20.
  assert (H50 : pw z (2 ^ 50 - 1) (fe_mul (fe_sqn 10 (fe_mul (fe_sqn 19 (fe_sq z20)) z20)) z10)) by (eapply pw_eq; [chain|lia]).
  generalize dependent (fe_mul (fe_sqn 10 (fe_mul (fe_sqn 19 (fe_sq z20)) z20)) z10). intros z50 H50.
  assert (H100 : pw z (2 ^ 100 - 1) (fe_mul (fe_sqn 49 (fe_sq z50)) z50)) by (eapply pw_eq; [chain|lia]). generalize dependent (fe_mul (fe_sqn 49 (fe_sq z50)) z50). intros z100 H100.
  assert (H250 : pw z (2 ^ 255 - 2 ^ 5) (fe_sqn 5 (fe_mul (fe_sqn 50 (fe_mul (fe_sqn 99 (fe_sq z100)) z100)) z50))) by (eapply pw_eq; [chain|lia]).
  destruct H250 as (_ & L250 & V250), H11 as (_ & L11 & V11). destruct (fe_mul_ok _ _ L250 L11) as [T V]. split; [exact T|].
  rewrite V, V250, V11, <- Zmult_mod, <- Z.pow_add_r by (clear; lia). replace (2 ^ 255 - 2 ^ 5 + 11) with (2 ^ 255 - 21) by (clear; lia). reflexivity.
Qed.

#[local] Transparent fe_mul fe_sq fe_sqn.

Lemma fe_invert_ok z : loose z -> tight (fe_invert z) /\ fval (fe_invert z) = finv (fval z).
Proof.
  intros L. destruct (fe_invert_pw z L) as [T V]. rewrite finv_pow. change (p25519 - 2) with (2 ^ 255 - 21). exact (conj T V).
Qed.

(** ** Bytes *)

Lemma lor_shl64 x y n : 0 <= n -> 0 <= x < 2 ^ n -> 0 <= y * 2 ^ n < 2 ^ 64 -> Z.lor x (shl y n) = x + y * 2 ^ n.
Proof.
  intros Hn Hx Hy. unfold shl. rewrite Z.shiftl_mul_pow2, u64_small by lia. rewrite Z.lor_comm, lor_disjoint by lia. lia.
Qed.

(** A byte splits at bit [k]. *)
Lemma cut_byte b k m : byte_ok b -> 0 <= k <= 8 -> m = Z.ones k ->
  exists l h, Z.land b m = l /\ Z.shiftr b k = h /\ b = l + 2 ^ k * h /\ 0 <= l < 2 ^ k /\ 0 <= h < 2 ^ (8 - k).
Proof.
  unfold byte_ok. intros Hb Hk ->. exists (b mod 2 ^ k), (b / 2 ^ k). rewrite land_ones_mod, shr by lia. split_and!; try done.
  - pose proof (Z.div_mod b (2 ^ k)). lia.
  - apply Z.mod_pos_bound. lia.
  - apply Z.mod_pos_bound. lia.
  - apply Z.div_pos; lia.
  - apply Z.div_lt_upper_bound; [lia|]. rewrite <- Z.pow_add_r by lia. replace (k + (8 - k)) with 8 by lia. lia.
Qed.

Ltac lor1 :=
  match goal with
  | |- context [Z.lor ?x (shl ?y ?n)] => lazymatch x with context [Z.lor] => fail | _ => rewrite (lor_shl64 x y n) by lia end
  end.

Lemma fe_from_bytes_ok b rest : length b = 32%nat -> Forall byte_ok b ->
  exists x, fe_from_bytes (b ++ rest) = Ret x /\ below (2 ^ 51) x /\ feval x = le_val b mod 2 ^ 255.
Proof.
  intros L B. unfold fe_from_bytes. rewrite rdn_app by (unfold zlen; lia). ret. eexists. split; [reflexivity|].
  do 32 (destruct b as [|?b b]; [discriminate L|]). destruct b; [|discriminate L]. split_bytes. clear B L. unfold at_. cbn [nth].
  destruct (cut_byte b6 3 0x07 ltac:(assumption) ltac:(lia) eq_refl) as (l6 & h6 & -> & -> & E6 & ? & ?).
  destruct (cut_byte b12 6 0x3f ltac:(assumption) ltac:(lia) eq_refl) as (l12 & h12 & -> & -> & E12 & ? & ?).
  destruct (cut_byte b19 1 0x01 ltac:(assumption) ltac:(lia) eq_refl) as (l19 & h19 & -> & -> & E19 & ? & ?).
  destruct (cut_byte b25 4 0x0f ltac:(assumption) ltac:(lia) eq_refl) as (l25 & h25 & -> & -> & E25 & ? & ?).
  destruct (cut_byte b31 7 0x7f ltac:(assumption) ltac:(lia) eq_refl) as (l31 & h31 & -> & _ & E31 & ? & ?).
  unfold byte_ok in *. repeat lor1.
  unfold below, within, feval. cbn [f0 f1 f2 f3 f4 le_val]. split; [lia|].
  apply (Z.mod_unique_pos _ _ h31); lia.
Qed.

(** The bytes of a limb from bit [s] on. *)
Lemma digit x s : 0 <= s -> x / 2 ^ s = (x / 2 ^ s) mod 256 + 256 * (x / 2 ^ (s + 8)).
Proof. intros Hs. rewrite !(Z.pow_add_r 2 s) by lia. rewrite <- !Z.div_div by lia. dlia. Qed.

Lemma digits5 x s : 0 <= s ->
  x / 2 ^ s = (x / 2 ^ s) mod 256 + 256 * ((x / 2 ^ (s + 8)) mod 256) + 256 ^ 2 * ((x / 2 ^ (s + 16)) mod 256) +
    256 ^ 3 * ((x / 2 ^ (s + 24)) mod 256) + 256 ^ 4 * ((x / 2 ^ (s + 32)) mod 256) + 256 ^ 5 * (x / 2 ^ (s + 40)).
Proof.
  intros Hs. rewrite !(Z.pow_add_r 2 s) by lia. rewrite <- !Z.div_div by lia.
  generalize (x / 2 ^ s). intros y. clear x s Hs. dlia.
Qed.

(** A byte shared by two limbs. *)
Lemma joint_byte x y s k : 0 <= s -> 0 <= k <= 8 -> 0 <= x < 2 ^ (s + k) -> 0 <= y < 2 ^ 51 ->
  u8 (Z.lor (Z.shiftr x s) (shl y k)) = x / 2 ^ s + 2 ^ k * (y mod 2 ^ (8 - k)).
Proof.
  intros Hs Hk Hx Hy. rewrite shr by lia. assert (0 <= x / 2 ^ s < 2 ^ k).
  { split; [apply Z.div_pos; lia|]. apply Z.div_lt_upper_bound; [lia|]. rewrite <- Z.pow_add_r by lia. lia. }
  assert (2 ^ k <= 2 ^ 8) by (apply Z.pow_le_mono_r; lia).
  rewrite lor_shl64 by (assumption || nia). unfold u8. pose proof (Z.div_mod y (2 ^ (8 - k)) ltac:(lia)) as E.
  pose proof (Z.mod_pos_bound y (2 ^ (8 - k)) ltac:(lia)).
  assert (E8 : 2 ^ k * 2 ^ (8 - k) = 256) by (rewrite <- Z.pow_add_r by lia; by replace (k + (8 - k)) with 8 by lia).
  symmetry. apply (Z.mod_unique_pos _ _ (y / 2 ^ (8 - k))); nia.
Qed.

(** Evaluate the exponents of the powers of two. *)
Ltac fold_exp :=
  repeat match goal with
  | H : context [2 ^ (?a + ?b)] |- _ => let c := eval cbv in (a + b) in change (2 ^ (a + b)) with (2 ^ c) in H
  | |- context [2 ^ (?a - ?b)] => let c := eval cbv in (a - b) in change (2 ^ (a - b)) with (2 ^ c)
  end.

Lemma fe_pack_ok t : below (2 ^ 51) t -> fe_pack t = le_bytes 32 (feval t).
Proof.
  destruct t as [t0 t1 t2 t3 t4]. unfold below, within. cbn [f0 f1 f2 f3 f4]. intros (B0 & B1 & B2 & B3 & B4).
  set (l := fe_pack _). assert (Hl : Forall byte_ok l).
  { apply Forall_map, list.Forall_true. intros b. apply Z.mod_pos_bound. lia. }
  rewrite <- (le_bytes_val l Hl). change (length l) with 32%nat. f_equal.
  unfold l, fe_pack, feval. cbn [f0 f1 f2 f3 f4 map le_val].
  rewrite (joint_byte t0 t1 48 3), (joint_byte t1 t2 45 6), (joint_byte t2 t3 50 1), (joint_byte t3 t4 47 4) by lia.
  unfold u8. rewrite !shr by lia. rewrite (Z.mod_small (t4 / 2 ^ 44)) by dlia.
  pose proof (digits5 t0 0 ltac:(lia)) as D0. pose proof (digit t0 40 ltac:(lia)) as D0'.
  pose proof (digits5 t1 5 ltac:(lia)) as D1. pose proof (digits5 t2 2 ltac:(lia)) as D2. pose proof (digit t2 42 ltac:(lia)) as D2'.
  pose proof (digits5 t3 7 ltac:(lia)) as D3. pose proof (digits5 t4 4 ltac:(lia)) as D4.
  pose proof (Z.div_mod t1 (2 ^ 5) ltac:(lia)). pose proof (Z.div_mod t2 (2 ^ 2) ltac:(lia)). pose proof (Z.div_mod t3 (2 ^ 7) ltac:(lia)). pose proof (Z.div_mod t4 (2 ^ 4) ltac:(lia)).
  rewrite (Z.div_1_r t0 : t0 / 2 ^ 0 = t0) in D0. fold_exp. change (2 ^ 8) with 256 in *. lia.
Qed.

Lemma fe_to_bytes_ok x : within (2 ^ 63) (2 ^ 63) (2 ^ 63) (2 ^ 63) (2 ^ 63) x -> fe_to_bytes x = le_bytes 32 (fval x).
Proof.
  intros B. destruct (fe_carry_ok x B) as [T <-]. clear B. unfold fe_to_bytes. destruct (fe_carry x) as [t0 t1 t2 t3 t4].
  unfold tight, within in T. cbn [f0 f1 f2 f3 f4] in T. rewrite !mask51, !shr by lia.
  rewrite (u64_small (t0 + 19)) by lia. cut51 (t0 + 19) q0 s0.
  rewrite (u64_small (t1 + q0)) by lia. cut51 (t1 + q0) q1 s1.
  rewrite (u64_small (t2 + q1)) by lia. cut51 (t2 + q1) q2 s2.
  rewrite (u64_small (t3 + q2)) by lia. cut51 (t3 + q2) q3 s3.
  rewrite (u64_small (t4 + q3)) by lia. cut51 (t4 + q3) q s4.
  assert (Hq : q = 0 \/ q = 1) by lia.
  rewrite (u64_small (19 * q)), (u64_small (t0 + 19 * q)) by lia. cut51 (t0 + 19 * q) c0 o0.
  rewrite (u64_small (t1 + c0)) by lia. cut51 (t1 + c0) c1 o1.
  rewrite (u64_small (t2 + c1)) by lia. cut51 (t2 + c1) c2 o2.
  rewrite (u64_small (t3 + c2)) by lia. cut51 (t3 + c2) c3 o3.
  rewrite (u64_small (t4 + c3)) by lia. cut51 (t4 + c3) c4 o4.
  rewrite fe_pack_ok by (unfold below, within; cbn [f0 f1 f2 f3 f4]; lia). f_equal.
  unfold fval, feval. cbn [f0 f1 f2 f3 f4]. apply (Z.mod_unique_pos _ _ q); unfold p25519; destruct Hq; subst q; lia.
Qed.

(** ** Representation

    [repr k x v]: the limbs of [x] are below [k] and [x] stands for [v]. *)

Definition fadd (a b : Z) : Z := (a + b) mod p25519.
Definition fsub (a b : Z) : Z := (a - b) mod p25519.
Definition fmul (a b : Z) : Z := (a * b) mod p25519.

Definition repr (k : Z) (x : fe) (v : Z) : Prop := below k x /\ fval x = v.

(** The limbs of a product. *)
Definition B51 : Z := 2 ^ 51 + 2 ^ 13.

Lemma below_mono j k x : below j x -> j <= k -> below k x.
Proof. unfold below, within. lia. Qed.

Lemma tight_below x : tight x -> below B51 x.
Proof. unfold tight, below, within, B51. lia. Qed.

Lemma repr_add j k a b va vb : repr j a va -> repr k b vb -> j + k <= 2 ^ 63 -> repr (j + k) (fe_add a b) (fadd va vb).
Proof. intros [Ba <-] [Bb <-] H. by apply (fe_add_ok _ _ j k). Qed.

Lemma repr_sub j k a b va vb : repr j a va -> repr k b vb -> k <= 2 ^ 52 - 38 -> j + 2 ^ 52 <= 2 ^ 63 -> repr (j + 2 ^ 52) (fe_sub a b) (fsub va vb).
Proof. intros [Ba <-] [Bb <-] Hk H. apply (fe_sub_ok _ _ j); try done. by apply (below_mono k). Qed.

Lemma repr_mul j k a b va vb : repr j a va -> repr k b vb -> j <= 2 ^ 54 -> k <= 2 ^ 54 -> repr B51 (fe_mul a b) (fmul va vb).
Proof.
  intros [Ba <-] [Bb <-] Hj Hk. destruct (fe_mul_ok a b) as [T V]; [by apply (below_mono j)|by apply (below_mono k)|].
  split; [by apply tight_below|exact V].
Qed.

Lemma repr_sq j a va : repr j a va -> j <= 2 ^ 54 -> repr B51 (fe_sq a) (fmul va va).
Proof. intros H Hj. by apply (repr_mul j j). Qed.

Lemma repr_small j a va n : repr j a va -> j <= 2 ^ 54 -> 0 <= n < 2 ^ 32 -> repr B51 (fe_mul_small a n) (fmul va n).
Proof.
  intros [Ba <-] Hj Hn. destruct (fe_mul_small_ok a n) as [T V]; [by apply (below_mono j)|lia|]. split; [by apply tight_below|exact V].
Qed.

Lemma repr_invert j a va : repr j a va -> j <= 2 ^ 54 -> repr B51 (fe_invert a) (finv va).
Proof. intros [Ba <-] Hj. destruct (fe_invert_ok a) as [T V]; [by apply (below_mono j)|]. by split; [apply tight_below|]. Qed.

Lemma repr_bytes j a va : repr j a va -> j <= 2 ^ 63 -> fe_to_bytes a = le_bytes 32 va.
Proof. intros [Ba <-] Hj. apply fe_to_bytes_ok. by apply (below_mono j). Qed.

Lemma repr_mono j k a va : repr j a va -> j <= k -> repr k a va.
Proof. intros [Ba Va] H. split; [by apply (below_mono j)|done]. Qed.
