(* ===== verification/X25519.v ===== *)
(** * X25519

    The key agreement of [userspace/crypto/x25519.c] (RFC 7748): the clamped
    scalar, the Montgomery ladder with its masked swaps, the final inversion. *)

From Stdlib Require Import ZArith Lia String.
From stdpp Require Import list numbers option.
From S2P Require Import Prelude Util Words Field25519.

Definition X25519_BASE_POINT : list Z := 9 :: replicate 31 0.

(** [t = swap & (a[i] ^ b[i]); a[i] ^= t; b[i] ^= t] *)
Definition cswap_limb (swap a b : Z) : Z * Z :=
  let t := Z.land swap (Z.lxor a b) in (Z.lxor a t, Z.lxor b t).

Definition fe_cswap (a b : fe) (swap : Z) : fe * fe :=
  let '(a0, b0) := cswap_limb swap (f0 a) (f0 b) in
  let '(a1, b1) := cswap_limb swap (f1 a) (f1 b) in
  let '(a2, b2) := cswap_limb swap (f2 a) (f2 b) in
  let '(a3, b3) := cswap_limb swap (f3 a) (f3 b) in
  let '(a4, b4) := cswap_limb swap (f4 a) (f4 b) in
  (mk_fe a0 a1 a2 a3 a4, mk_fe b0 b1 b2 b3 b4).

(** The variables the ladder carries from one bit to the next. *)
Record ladder := mk_ladder { x2 : fe; z2 : fe; x3 : fe; z3 : fe; swap : Z }.

(** The two masked swaps. *)
Definition ladder_cswap (s : ladder) (mask : Z) : ladder :=
  let '(x2', x3') := fe_cswap (x2 s) (x3 s) mask in
  let '(z2', z3') := fe_cswap (z2 s) (z3 s) mask in
  mk_ladder x2' z2' x3' z3' (swap s).

(** The body of the loop for bit [t] of [e]. *)
Definition ladder_step (e : list Z) (x1 : fe) (t : nat) (s : ladder) : ladder :=
  let b := Z.land (Z.shiftr (at_ e (t / 8)%nat) (Z.land (Z.of_nat t) 7)) 1 in
  let swp := Z.lxor (swap s) b in
  let mask := u64 (0 - swp) in
  let s := ladder_cswap s mask in
  let A := fe_add (x2 s) (z2 s) in
  let AA := fe_sq A in
  let B := fe_sub (x2 s) (z2 s) in
  let BB := fe_sq B in
  let E := fe_sub AA BB in
  let C := fe_add (x3 s) (z3 s) in
  let D := fe_sub (x3 s) (z3 s) in
  let DA := fe_mul D A in
  let CB := fe_mul C B in
  let sum := fe_add DA CB in
  let diff := fe_sub DA CB in
  let x3' := fe_sq sum in
  let z3' := fe_sq diff in
  let z3' := fe_mul z3' x1 in
  let x2' := fe_mul AA BB in
  let a24E := fe_mul_small E 121665 in
  let a24E := fe_add AA a24E in
  let z2' := fe_mul E a24E in
  mk_ladder x2' z2' x3' z3' b.

(** [for (t = n - 1; t >= 0; t--)] *)
Fixpoint ladder_loop (e : list Z) (x1 : fe) (n : nat) (s : ladder) : ladder :=
  match n with
  | O => s
  | S t => ladder_loop e x1 t (ladder_step e x1 t s)
  end.

Definition fe_one : fe := mk_fe 1 0 0 0 0.
Definition fe_zero : fe := mk_fe 0 0 0 0 0.

(** [e[0] &= 248; e[31] &= 127; e[31] |= 64] *)
Definition clamp (e : list Z) : list Z :=
  let e := <[0%nat := Z.land (at_ e 0) 248]> e in
  let e := <[31%nat := Z.land (at_ e 31) 127]> e in
  <[31%nat := Z.lor (at_ e 31) 64]> e.

Definition x25519 (scalar point : list Z) : res (list Z) :=
  let! e := rdn scalar 32 in
  let e := clamp e in
  let! x1 := fe_from_bytes point in
  let! x3 := fe_from_bytes point in
  let s := ladder_loop e x1 255 (mk_ladder fe_one fe_zero x3 fe_one 0) in
  let mask := u64 (0 - swap s) in
  let s := ladder_cswap s mask in
  let inv := fe_invert (z2 s) in
  let r := fe_mul (x2 s) inv in
  Ret (fe_to_bytes r).

(** * The function of RFC 7748 *)

(** A point of the Montgomery curve in projective coordinates [(X : Z)]. *)
Definition point : Type := Z * Z.

Definition mdouble (P : point) : point :=
  let '(x, z) := P in
  let AA := fmul (fadd x z) (fadd x z) in
  let BB := fmul (fsub x z) (fsub x z) in
  let E := fsub AA BB in
  (fmul AA BB, fmul E (fadd AA (fmul E 121665))).

(** The sum of two points whose difference has the affine coordinate [u]. *)
Definition mdiff_add (u : Z) (P Q : point) : point :=
  let '(x, z) := P in
  let '(x', z') := Q in
  let DA := fmul (fsub x' z') (fadd x z) in
  let CB := fmul (fadd x' z') (fsub x z) in
  (fmul (fadd DA CB) (fadd DA CB), fmul (fmul (fsub DA CB) (fsub DA CB)) u).

(** The ladder over the bits [n - 1 .. 0] of [k]: from [(m P, (m + 1) P)] to the
    pair for [2 m + bit]. *)
Fixpoint mladder (k u : Z) (n : nat) (PQ : point * point) : point * point :=
  match n with
  | O => PQ
  | S t =>
      let '(P, Q) := PQ in
      mladder k u t (if Z.testbit k (Z.of_nat t) then (mdiff_add u P Q, mdouble Q) else (mdouble P, mdiff_add u P Q))
  end.

(** [decodeScalar25519]: bits 0, 1, 2 and 255 cleared, bit 254 set. *)
Definition decode_scalar (k : Z) : Z := 2 ^ 254 + 8 * ((k / 8) mod 2 ^ 251).

(** [decodeUCoordinate]: bit 255 ignored, non-canonical values accepted. *)
Definition decode_u (u : Z) : Z := (u mod 2 ^ 255) mod p25519.

Definition rfc7748_x25519 (scalar point : list Z) : list Z :=
  let u := decode_u (le_val point) in
  let '((x, z), _) := mladder (decode_scalar (le_val scalar)) u 255 ((1, 0), (u, 1)) in
  le_bytes 32 (fmul x (finv z)).

(** * Refinement *)

(** ** The masked swap *)

Lemma cswap_limb_ok (c : bool) a b : 0 <= a < 2 ^ 64 -> 0 <= b < 2 ^ 64 ->
  cswap_limb (u64 (0 - Z.b2z c)) a b = if c then (b, a) else (a, b).
Proof.
  intros Ha Hb. destruct c; cbn [Z.b2z]; unfold cswap_limb.
  - change (u64 (0 - 1)) with (Z.ones 64). rewrite Z.land_comm, land_ones_mod by lia.
    pose proof (lxor_bound 64 a b Ha Hb).
    rewrite Z.mod_small by lia.
    f_equal; [by rewrite <- Z.lxor_assoc, Z.lxor_nilpotent, Z.lxor_0_l|by rewrite (Z.lxor_comm a), <- Z.lxor_assoc, Z.lxor_nilpotent, Z.lxor_0_l].
  - change (u64 (0 - 0)) with 0. rewrite Z.land_0_l, !Z.lxor_0_r. done.
Qed.

Lemma fe_cswap_ok (c : bool) a b : below (2 ^ 64) a -> below (2 ^ 64) b -> fe_cswap a b (u64 (0 - Z.b2z c)) = if c then (b, a) else (a, b).
Proof.
  destruct a as [a0 a1 a2 a3 a4], b as [b0 b1 b2 b3 b4]. unfold below, within. cbn [f0 f1 f2 f3 f4].
  intros (A0 & A1 & A2 & A3 & A4) (B0 & B1 & B2 & B3 & B4). unfold fe_cswap. cbn [f0 f1 f2 f3 f4].
  rewrite !cswap_limb_ok by lia. by destruct c.
Qed.

(** ** The ladder *)

(** A projective point held in two field elements. *)
Definition repr_pt (k : Z) (x z : fe) (P : point) : Prop := repr k x P.1 /\ repr k z P.2.

(** The state stands for the pair of points, exchanged when [swap] is set. *)
Definition ladder_repr (s : ladder) (c : bool) (PQ : point * point) : Prop :=
  swap s = Z.b2z c /\ repr_pt B51 (x2 s) (z2 s) (if c then PQ.2 else PQ.1) /\ repr_pt B51 (x3 s) (z3 s) (if c then PQ.1 else PQ.2).

Lemma ladder_cswap_ok s c d P Q : swap s = Z.b2z d ->
  repr_pt B51 (x2 s) (z2 s) P -> repr_pt B51 (x3 s) (z3 s) Q ->
  let s' := ladder_cswap s (u64 (0 - Z.b2z c)) in
  swap s' = Z.b2z d /\ repr_pt B51 (x2 s') (z2 s') (if c then Q else P) /\ repr_pt B51 (x3 s') (z3 s') (if c then P else Q).
Proof.
  intros Hd [[Bx2 Vx2] [Bz2 Vz2]] [[Bx3 Vx3] [Bz3 Vz3]]. unfold ladder_cswap.
  assert (B51 <= 2 ^ 64) by (unfold B51; lia).
  rewrite !fe_cswap_ok by (eapply below_mono; [eassumption|assumption]).
  destruct c; cbn [swap x2 z2 x3 z3]; unfold repr_pt, repr; auto.
Qed.

(** One bit of the ladder on the field elements: a doubling and a differential addition. *)
Lemma ladder_point e x1 t s u P Q : repr B51 x1 u ->
  let b := Z.land (Z.shiftr (at_ e (t / 8)%nat) (Z.land (Z.of_nat t) 7)) 1 in
  let s1 := ladder_cswap s (u64 (0 - Z.lxor (swap s) b)) in
  repr_pt B51 (x2 s1) (z2 s1) P -> repr_pt B51 (x3 s1) (z3 s1) Q ->
  let s' := ladder_step e x1 t s in
  swap s' = b /\ repr_pt B51 (x2 s') (z2 s') (mdouble P) /\ repr_pt B51 (x3 s') (z3 s') (mdiff_add u P Q).
Proof.
  intros Hu b s1 [H2 Hz2] [H3 Hz3]. unfold ladder_step. fold b s1. clearbody s1 b. destruct P as [x z], Q as [x' z']. cbn [fst snd] in *.
  assert (K : B51 <= 2 ^ 52 - 38) by (unfold B51; lia). 
  pose proof (repr_add _ _ _ _ _ _ H2 Hz2 ltac:(lia)) as HA. pose proof (repr_sub _ _ _ _ _ _ H2 Hz2 ltac:(lia) ltac:(lia)) as HB.
  pose proof (repr_add _ _ _ _ _ _ H3 Hz3 ltac:(lia)) as HC. pose proof (repr_sub _ _ _ _ _ _ H3 Hz3 ltac:(lia) ltac:(lia)) as HD.
  pose proof (repr_sq _ _ _ HA ltac:(lia)) as HAA. pose proof (repr_sq _ _ _ HB ltac:(lia)) as HBB.
  pose proof (repr_sub _ _ _ _ _ _ HAA HBB ltac:(lia) ltac:(lia)) as HE.
  pose proof (repr_mul _ _ _ _ _ _ HD HA ltac:(lia) ltac:(lia)) as HDA. pose proof (repr_mul _ _ _ _ _ _ HC HB ltac:(lia) ltac:(lia)) as HCB.
  pose proof (repr_add _ _ _ _ _ _ HDA HCB ltac:(lia)) as Hs. pose proof (repr_sub _ _ _ _ _ _ HDA HCB ltac:(lia) ltac:(lia)) as Hd.
  pose proof (repr_sq _ _ _ Hs ltac:(lia)) as Hx3. pose proof (repr_sq _ _ _ Hd ltac:(lia)) as Hd2.
  pose proof (repr_mul _ _ _ _ _ _ Hd2 Hu ltac:(lia) ltac:(lia)) as Hz3'. pose proof (repr_mul _ _ _ _ _ _ HAA HBB ltac:(lia) ltac:(lia)) as Hx2.
  pose proof (repr_small _ _ _ 121665 HE ltac:(lia) ltac:(lia)) as Ha. pose proof (repr_add _ _ _ _ _ _ HAA Ha ltac:(lia)) as Ha'.
  pose proof (repr_mul _ _ _ _ _ _ HE Ha' ltac:(lia) ltac:(lia)) as Hz2'.
  split; [reflexivity|]. split; [exact (conj Hx2 Hz2')|exact (conj Hx3 Hz3')].
Qed.

Lemma fadd_comm a b : fadd a b = fadd b a.
Proof. unfold fadd. by rewrite Z.add_comm. Qed.

Lemma fmul_comm a b : fmul a b = fmul b a.
Proof. unfold fmul. by rewrite Z.mul_comm. Qed.

Lemma fsub_sq a b : fmul (fsub a b) (fsub a b) = fmul (fsub b a) (fsub b a).
Proof. unfold fmul, fsub. rewrite <- !Zmult_mod. f_equal. ring. Qed.

Lemma mdiff_add_comm u P Q : mdiff_add u P Q = mdiff_add u Q P.
Proof.
  destruct P as [x z], Q as [x' z']. unfold mdiff_add. cbv zeta.
  rewrite (fmul_comm (fsub x z)), (fmul_comm (fadd x z)), (fadd_comm (fmul (fsub x' z') _)).
  by rewrite (fsub_sq (fmul (fsub x' z') _)).
Qed.

(** ** The scalar *)

Lemma le_val_testbit e t : Forall byte_ok e -> (t < 8 * length e)%nat ->
  Z.testbit (le_val e) (Z.of_nat t) = Z.testbit (at_ e (t / 8)%nat) (Z.of_nat (t mod 8)%nat).
Proof.
  intros H. revert t. induction H as [|b e Hb He IH]; intros t Ht; cbn [length] in Ht; [lia|]. cbn [le_val].
  replace (b + 256 * le_val e) with (le_val e * 2 ^ 8 + b) by lia. rewrite <- lor_disjoint by (unfold byte_ok in Hb; lia).
  rewrite Z.lor_spec. destruct (Nat.lt_ge_cases t 8) as [Hl|Hl].
  - rewrite Z.mul_pow2_bits_low, Nat.div_small, Nat.mod_small by lia. done.
  - rewrite Z.mul_pow2_bits by lia. rewrite <- (Z.mod_small b (2 ^ 8)), Z.mod_pow2_bits_high by (unfold byte_ok in Hb; lia).
    rewrite orb_false_r. replace (Z.of_nat t - 8) with (Z.of_nat (t - 8)) by lia. rewrite IH by lia.
    assert (Ed : (t / 8 = S ((t - 8) / 8))%nat) by (replace t with (t - 8 + 1 * 8)%nat at 1 by lia; rewrite Nat.div_add by lia; lia).
    assert (Em : (t mod 8 = (t - 8) mod 8)%nat) by (replace t with (t - 8 + 1 * 8)%nat at 1 by lia; by rewrite Nat.Div0.mod_add).
    by rewrite Ed, Em.
Qed.

(** The bit the loop reads. *)
Lemma scalar_bit e t : Forall byte_ok e -> (t < 8 * length e)%nat ->
  Z.land (Z.shiftr (at_ e (t / 8)%nat) (Z.land (Z.of_nat t) 7)) 1 = Z.b2z (Z.testbit (le_val e) (Z.of_nat t)).
Proof.
  intros H Ht. rewrite le_val_testbit by done. change 7 with (Z.ones 3). rewrite land_ones_mod by lia.
  change 1 with (Z.ones 1) at 1. rewrite land_ones_mod by lia. change (2 ^ 3) with (Z.of_nat 8). rewrite <- Nat2Z.inj_mod.
  rewrite <- Z.bit0_mod, Z.shiftr_spec by lia. by rewrite Z.add_0_l.
Qed.

Lemma clamp_ends b : byte_ok b -> Z.land b 248 = 8 * (b / 8) /\ Z.lor (Z.land b 127) 64 = 64 + b mod 64.
Proof.
  intros Hb. pose proof (byte_forall (fun b => (Z.land b 248 =? 8 * (b / 8)) && (Z.lor (Z.land b 127) 64 =? 64 + b mod 64)) ltac:(by vm_compute) b Hb) as H.
  cbv beta in H. apply andb_prop in H. lia.
Qed.

Lemma decode_scalar_parts b m c : byte_ok b -> 0 <= m < 2 ^ 240 -> byte_ok c ->
  decode_scalar (b + 256 * (m + 2 ^ 240 * c)) = 8 * (b / 8) + 256 * (m + 2 ^ 240 * (64 + c mod 64)).
Proof.
  unfold byte_ok, decode_scalar. intros Hb Hm Hc.
  pose proof (Z.div_mod b 8 ltac:(lia)). pose proof (Z.mod_pos_bound b 8 ltac:(lia)).
  pose proof (Z.div_mod c 64 ltac:(lia)). pose proof (Z.mod_pos_bound c 64 ltac:(lia)).
  rewrite <- (Z.div_unique_pos (b + 256 * (m + 2 ^ 240 * c)) 8 (b / 8 + 32 * m + 2 ^ 245 * c) (b mod 8)) by lia.
  rewrite <- (Z.mod_unique_pos (b / 8 + 32 * m + 2 ^ 245 * c) (2 ^ 251) (c / 64) (b / 8 + 32 * m + 2 ^ 245 * (c mod 64))) by lia. lia.
Qed.

Lemma clamp_parts b m c : length m = 30%nat -> clamp (b :: m ++ [c]) = Z.land b 248 :: m ++ [Z.lor (Z.land c 127) 64].
Proof.
  intros L. assert (En : forall b x, at_ (b :: m ++ [x]) 31 = x) by (intros; unfold at_; cbn [nth]; rewrite app_nth2, L by lia; done).
  assert (Ei : forall b0 x y, <[31%nat := y]> (b0 :: m ++ [x]) = b0 :: m ++ [y]).
  { intros. change (b0 :: <[30%nat := y]> (m ++ [x]) = b0 :: m ++ [y]). f_equal. replace 30%nat with (length m + 0)%nat by lia. by rewrite insert_app_r. }
  unfold clamp. change (<[0%nat := Z.land (at_ (b :: m ++ [c]) 0) 248]> (b :: m ++ [c])) with (Z.land b 248 :: m ++ [c]).
  by rewrite !Ei, !En.
Qed.

Lemma clamp_ok e : length e = 32%nat -> Forall byte_ok e -> Forall byte_ok (clamp e) /\ length (clamp e) = 32%nat /\ le_val (clamp e) = decode_scalar (le_val e).
Proof.
  intros L H. destruct e as [|b e]; [discriminate L|]. destruct (exists_last (l := e)) as (m & c & ->); [by intros ->|].
  apply Forall_cons_1 in H as [Hb H]. apply Forall_app in H as [Hm Hc]. apply Forall_cons_1 in Hc as [Hc _].
  cbn [length] in L. rewrite length_app in L. cbn [length] in L. assert (Lm : length m = 30%nat) by lia.
  rewrite clamp_parts by done. destruct (clamp_ends b Hb) as [-> _]. destruct (clamp_ends c Hc) as [_ ->].
  pose proof (le_val_bound m Hm) as Bm. assert (Zm : zlen m = 30) by (unfold zlen; lia). rewrite Zm in Bm. change (256 ^ 30) with (2 ^ 240) in Bm.
  split; [|split].
  - apply Forall_cons_2; [unfold byte_ok in *; dlia|]. apply Forall_app_2; [done|]. apply Forall_cons_2; [unfold byte_ok in *; dlia|constructor].
  - cbn [length]. rewrite length_app. cbn [length]. lia.
  - cbn [le_val]. rewrite !le_val_app. rewrite Zm. change (256 ^ 30) with (2 ^ 240). cbn [le_val]. rewrite !Z.mul_0_r, !Z.add_0_r.
    by rewrite decode_scalar_parts.
Qed.

(** ** The loop *)

Lemma ladder_step_ok e x1 t s c u P Q : Forall byte_ok e -> (t < 8 * length e)%nat -> repr B51 x1 u -> ladder_repr s c (P, Q) ->
  let b := Z.testbit (le_val e) (Z.of_nat t) in
  ladder_repr (ladder_step e x1 t s) b (if b then (mdiff_add u P Q, mdouble Q) else (mdouble P, mdiff_add u P Q)).
Proof.
  intros He Ht Hu (Hs & H2 & H3). pose proof (scalar_bit e t He Ht) as Hb. cbv zeta. generalize dependent (Z.testbit (le_val e) (Z.of_nat t)). intros b Hb.
  assert (Hx : Z.lxor (swap s) (Z.b2z b) = Z.b2z (xorb c b)) by (rewrite Hs; by destruct c, b).
  destruct (ladder_cswap_ok s (xorb c b) c _ _ Hs H2 H3) as (_ & C2 & C3). cbn [fst snd] in C2, C3.
  destruct (ladder_point e x1 t s u (if b then Q else P) (if b then P else Q)) as (E & R2 & R3); [done| | |].
  - rewrite Hb, Hx. by destruct c, b.
  - rewrite Hb, Hx. by destruct c, b.
  - rewrite Hb in E. split; [exact E|]. destruct b; cbn [fst snd] in *; [rewrite (mdiff_add_comm u P Q)|]; done.
Qed.

Lemma ladder_loop_ok e x1 u : Forall byte_ok e -> repr B51 x1 u -> forall n s c PQ, (n <= 8 * length e)%nat -> ladder_repr s c PQ ->
  exists c', ladder_repr (ladder_loop e x1 n s) c' (mladder (le_val e) u n PQ).
Proof.
  intros He Hu. induction n as [|t IH]; intros s c PQ Hn H; cbn [ladder_loop mladder]; [by exists c|]. destruct PQ as [P Q].
  eapply IH; [lia|]. eapply ladder_step_ok; [done|lia|done|exact H].
Qed.

#[local] Opaque fe_mul fe_invert fe_to_bytes finv fmul ladder_loop mladder.

Lemma x25519_refines scalar point :
  length scalar = 32%nat -> Forall byte_ok scalar -> length point = 32%nat -> Forall byte_ok point ->
  forall rest rest', x25519 (scalar ++ rest) (point ++ rest') = Ret (rfc7748_x25519 scalar point).
Proof.
  intros Ls Hs Lp Hp rest rest'. unfold x25519, rfc7748_x25519. rewrite rdn_app by (unfold zlen; lia). ret.
  destruct (fe_from_bytes_ok point rest' Lp Hp) as (x1 & Ex & Bx & Vx). rewrite Ex. ret.
  destruct (clamp_ok scalar Ls Hs) as (Hc & Lc & Vc). set (u := decode_u (le_val point)).
  assert (Hu : repr B51 x1 u) by (split; [eapply below_mono; [exact Bx|unfold B51; lia]|unfold fval, u, decode_u; by rewrite Vx]).
  assert (H1 : repr B51 fe_one 1) by (split; [unfold below, within, fe_one, B51; cbn; lia|reflexivity]).
  assert (H0 : repr B51 fe_zero 0) by (split; [unfold below, within, fe_one, B51; cbn; lia|reflexivity]).
  destruct (ladder_loop_ok (clamp scalar) x1 u Hc Hu 255 (mk_ladder fe_one fe_zero x1 fe_one 0) false ((1, 0), (u, 1))) as (c & Es & R2 & R3).
  { rewrite Lc. lia. }
  { split; [reflexivity|]. split; split; assumption. }
  rewrite Vc in R2, R3. generalize dependent (ladder_loop (clamp scalar) x1 255 (mk_ladder fe_one fe_zero x1 fe_one 0)). intros s Es R2 R3.
  destruct (mladder _ u 255 _) as [[x z] Q]. destruct (ladder_cswap_ok s c c _ _ Es R2 R3) as (_ & [Cx Cz] & _). rewrite Es. f_equal.
  assert (Hm : repr B51 (x2 (ladder_cswap s (u64 (0 - Z.b2z c)))) x) by (destruct c; exact Cx).
  assert (Hz : repr B51 (z2 (ladder_cswap s (u64 (0 - Z.b2z c)))) z) by (destruct c; exact Cz).
  eapply repr_bytes; [eapply repr_mul; [exact Hm|eapply repr_invert; [exact Hz|]| |]|]; unfold B51; lia.
Qed.

(** C8: [x25519] computes the function of RFC 7748: for every 32-byte scalar and
    every 32-byte point, canonical or not, the limb arithmetic with its masked
    swaps and carries gives the coordinate of the clamped multiple, encoded
    canonically; nothing wraps and nothing outside the two arguments is read. *)
Theorem x25519_is_rfc7748 scalar point :
  length scalar = 32%nat -> Forall byte_ok scalar -> length point = 32%nat -> Forall byte_ok point ->
  forall rest rest', x25519 (scalar ++ rest) (point ++ rest') = Ret (rfc7748_x25519 scalar point).
Proof. exact (x25519_refines scalar point). Qed.

Lemma x25519_is_rfc7748_witness :
  x25519 (map (fun i => (7 * i) mod 256) (seqZ 0 32) ++ []) (X25519_BASE_POINT ++ [255]) =
  Ret (rfc7748_x25519 (map (fun i => (7 * i) mod 256) (seqZ 0 32)) X25519_BASE_POINT).
Proof. apply x25519_is_rfc7748; [reflexivity|apply bytes_okb_ok; reflexivity|reflexivity|apply bytes_okb_ok; reflexivity]. Defined.
