(* ===== verification/Scalar25519.v ===== *)
(** * Arithmetic modulo the order of the Edwards curve

    The scalars of [userspace/crypto/ed25519.c]: [sc_reduce] and [sc_muladd]
    work on limbs of 21 bits in [int64_t] variables.  The straight-line code of
    the two functions is kept as the sequence of its steps (the folding of a high
    limb, the two kinds of carry), run on the list [s0 .. s23]; a step whose
    signed arithmetic would overflow is undefined behaviour and gives [Oob].
    The theorems show that no step overflows, by an interval analysis run on the
    sequence, and that the results are the canonical residues. *)

From Stdlib Require Import ZArith Lia.
From stdpp Require Import list numbers option.
From S2P Require Import Prelude Util Words Field25519.

(** ** Signed 64-bit arithmetic *)

Definition i64_ok (x : Z) : bool := (- 2 ^ 63 <=? x) && (x <? 2 ^ 63).
Definition i64 (x : Z) : res Z := if i64_ok x then Ret x else Oob.

(** ** Limbs from bytes *)

Definition load_3 (inp : list Z) (off : Z) : res Z :=
  let! b := rdn (padd inp off) 3 in
  Ret (Z.lor (Z.lor (at_ b 0) (shl (at_ b 1) 8)) (shl (at_ b 2) 16)).

Definition load_4 (inp : list Z) (off : Z) : res Z :=
  let! b := rdn (padd inp off) 4 in
  Ret (Z.lor (Z.lor (Z.lor (at_ b 0) (shl (at_ b 1) 8)) (shl (at_ b 2) 16)) (shl (at_ b 3) 24)).

(** [2097151 & (load(s + off) >> sh)], the mask left out in the last limb. *)
Inductive limb_load := L3 (off sh : Z) | L4 (off sh : Z) | Top (off sh : Z).

Definition load_limb (s : list Z) (l : limb_load) : res Z :=
  match l with
  | L3 off sh => let! v := load_3 s off in Ret (Z.land 2097151 (Z.shiftr v sh))
  | L4 off sh => let! v := load_4 s off in Ret (Z.land 2097151 (Z.shiftr v sh))
  | Top off sh => let! v := load_4 s off in Ret (Z.shiftr v sh)
  end.

Fixpoint load_limbs (s : list Z) (l : list limb_load) : res (list Z) :=
  match l with
  | [] => Ret []
  | x :: l => let! v := load_limb s x in let! vs := load_limbs s l in Ret (v :: vs)
  end.

(** [s0 .. s23] of [sc_reduce]. *)
Definition limbs64 : list limb_load :=
  [L3 0 0; L4 2 5; L3 5 2; L4 7 7; L4 10 4; L3 13 1; L4 15 6; L3 18 3;
   L3 21 0; L4 23 5; L3 26 2; L4 28 7; L4 31 4; L3 34 1; L4 36 6; L3 39 3;
   L3 42 0; L4 44 5; L3 47 2; L4 49 7; L4 52 4; L3 55 1; L4 57 6; Top 60 3].

(** [a0 .. a11] of [sc_muladd]. *)
Definition limbs32 : list limb_load :=
  [L3 0 0; L4 2 5; L3 5 2; L4 7 7; L4 10 4; L3 13 1; L4 15 6; L3 18 3;
   L3 21 0; L4 23 5; L3 26 2; Top 28 7].

(** ** Steps *)

Inductive sc_step :=
  | Fold (i : nat)       (** fold [s_i] into [s_(i-12) .. s_(i-7)] and clear it *)
  | CarryR (i : nat)     (** the carry of [s_i], rounded to nearest *)
  | CarryF (i : nat).    (** the carry of [s_i], rounded down *)

(** [s_i += x] *)
Definition limb_add (i : nat) (x : Z) (s : list Z) : res (list Z) :=
  let! v := i64 (at_ s i + x) in Ret (<[i := v]> s).

(** [s_d += s_i * k], and [s_d -= s_i * k] *)
Definition mul_add (d i : nat) (k : Z) (s : list Z) : res (list Z) :=
  let! m := i64 (at_ s i * k) in limb_add d m s.
Definition mul_sub (d i : nat) (k : Z) (s : list Z) : res (list Z) :=
  let! m := i64 (at_ s i * k) in limb_add d (- m) s.

Definition do_fold (i : nat) (s : list Z) : res (list Z) :=
  let! s := mul_add (i - 12) i 666643 s in
  let! s := mul_add (i - 11) i 470296 s in
  let! s := mul_add (i - 10) i 654183 s in
  let! s := mul_sub (i - 9) i 997805 s in
  let! s := mul_add (i - 8) i 136657 s in
  let! s := mul_sub (i - 7) i 683901 s in
  Ret (<[i := 0]> s).

(** [s_(i+1) += carry; s_i -= carry * (1 << 21);] *)
Definition do_carry (i : nat) (carry : Z) (s : list Z) : res (list Z) :=
  let! s := limb_add (i + 1) carry s in
  let! m := i64 (carry * Z.shiftl 1 21) in
  limb_add i (- m) s.

Definition do_step (x : sc_step) (s : list Z) : res (list Z) :=
  match x with
  | Fold i => do_fold i s
  | CarryR i => let! t := i64 (at_ s i + Z.shiftl 1 20) in do_carry i (Z.shiftr t 21) s
  | CarryF i => do_carry i (Z.shiftr (at_ s i) 21) s
  end.

Fixpoint do_steps (l : list sc_step) (s : list Z) : res (list Z) :=
  match l with
  | [] => Ret s
  | x :: l => let! s := do_step x s in do_steps l s
  end.

(** The steps common to [sc_reduce] and [sc_muladd], up to the last two passes. *)
Definition sc_fold_steps : list sc_step :=
  [Fold 23; Fold 22; Fold 21; Fold 20; Fold 19; Fold 18;
   CarryR 6; CarryR 8; CarryR 10; CarryR 12; CarryR 14; CarryR 16;
   CarryR 7; CarryR 9; CarryR 11; CarryR 13; CarryR 15;
   Fold 17; Fold 16; Fold 15; Fold 14; Fold 13; Fold 12;
   CarryR 0; CarryR 2; CarryR 4; CarryR 6; CarryR 8; CarryR 10;
   CarryR 1; CarryR 3; CarryR 5; CarryR 7; CarryR 9; CarryR 11;
   Fold 12].

(** The two floor passes. *)
Definition sc_pass1 : list sc_step :=
  [CarryF 0; CarryF 1; CarryF 2; CarryF 3; CarryF 4; CarryF 5; CarryF 6; CarryF 7; CarryF 8; CarryF 9; CarryF 10; CarryF 11].
Definition sc_pass2 : list sc_step :=
  [CarryF 0; CarryF 1; CarryF 2; CarryF 3; CarryF 4; CarryF 5; CarryF 6; CarryF 7; CarryF 8; CarryF 9; CarryF 10].

Definition sc_steps : list sc_step := sc_fold_steps ++ sc_pass1 ++ [Fold 12] ++ sc_pass2.

(** The first carry pass of [sc_muladd]. *)
Definition sc_mul_carries : list sc_step :=
  [CarryR 0; CarryR 2; CarryR 4; CarryR 6; CarryR 8; CarryR 10; CarryR 12; CarryR 14; CarryR 16; CarryR 18; CarryR 20; CarryR 22;
   CarryR 1; CarryR 3; CarryR 5; CarryR 7; CarryR 9; CarryR 11; CarryR 13; CarryR 15; CarryR 17; CarryR 19; CarryR 21].

(** ** Bytes from limbs *)

(** The stores to [s[0 .. 31]]; [si << k] of a value of the final range. *)
Definition sc_store (l : list Z) : list Z :=
  let s := at_ l in
  let lo (i : nat) k := Z.shiftr (s i) k in
  let hi (i : nat) k := shl (s i) k in
  map u8
    [lo 0%nat 0; lo 0%nat 8; Z.lor (lo 0%nat 16) (hi 1%nat 5);
     lo 1%nat 3; lo 1%nat 11; Z.lor (lo 1%nat 19) (hi 2%nat 2);
     lo 2%nat 6; Z.lor (lo 2%nat 14) (hi 3%nat 7);
     lo 3%nat 1; lo 3%nat 9; Z.lor (lo 3%nat 17) (hi 4%nat 4);
     lo 4%nat 4; lo 4%nat 12; Z.lor (lo 4%nat 20) (hi 5%nat 1);
     lo 5%nat 7; Z.lor (lo 5%nat 15) (hi 6%nat 6);
     lo 6%nat 2; lo 6%nat 10; Z.lor (lo 6%nat 18) (hi 7%nat 3);
     lo 7%nat 5; lo 7%nat 13;
     lo 8%nat 0; lo 8%nat 8; Z.lor (lo 8%nat 16) (hi 9%nat 5);
     lo 9%nat 3; lo 9%nat 11; Z.lor (lo 9%nat 19) (hi 10%nat 2);
     lo 10%nat 6; Z.lor (lo 10%nat 14) (hi 11%nat 7);
     lo 11%nat 1; lo 11%nat 9; lo 11%nat 17].

(** In place: the first 32 bytes of [s] are replaced. *)
Definition sc_reduce (s : list Z) : res (list Z) :=
  let! l := load_limbs s limbs64 in
  let! l := do_steps sc_steps l in
  blit s 0 (sc_store l).

(** ** Multiplication *)

(** [x + a_i * b_(k-i) + ...], the terms [i, i + 1, ...]. *)
Fixpoint dot_terms (a b : list Z) (k i n : nat) (x : Z) : res Z :=
  match n with
  | O => Ret x
  | S n' => let! m := i64 (at_ a i * at_ b (k - i)) in let! x := i64 (x + m) in dot_terms a b k (i + 1) n' x
  end.

(** [s_k], for [k < 23]: the terms with both indices below 12. *)
Definition product_limb (a b c : list Z) (k : nat) : res Z :=
  if (k <? 12)%nat then dot_terms a b k 0 (k + 1) (at_ c k) else dot_terms a b k (k - 11) (23 - k) 0.

Fixpoint product_limbs (a b c : list Z) (k n : nat) : res (list Z) :=
  match n with
  | O => Ret []
  | S n' => let! v := product_limb a b c k in let! vs := product_limbs a b c (k + 1) n' in Ret (v :: vs)
  end.

Definition sc_muladd (a b c : list Z) : res (list Z) :=
  let! a := load_limbs a limbs32 in
  let! b := load_limbs b limbs32 in
  let! c := load_limbs c limbs32 in
  let! s := product_limbs a b c 0 23 in
  let! l := do_steps (sc_mul_carries ++ sc_steps) (s ++ [0]) in
  Ret (sc_store l).

(** * Values and intervals *)

(** The order of the curve. *)
Definition order : Z := 2 ^ 252 + 27742317777372353535851937790883648493.

(** The number the limbs stand for. *)
Fixpoint sval (s : list Z) : Z :=
  match s with
  | [] => 0
  | x :: s => x + 2 ^ 21 * sval s
  end.

Lemma at_insert_ne s i j v : i <> j -> at_ (<[i := v]> s) j = at_ s j.
Proof. intros H. unfold at_. rewrite !nth_lookup, list_lookup_insert_ne by done. done. Qed.

Lemma sval_insert s i v : (i < length s)%nat -> sval (<[i := v]> s) = sval s + (v - at_ s i) * 2 ^ (21 * Z.of_nat i).
Proof.
  revert i. induction s as [|x s IH]; intros i Hi; cbn [length] in Hi; [lia|]. destruct i as [|i].
  - change (v + 2 ^ 21 * sval s = x + 2 ^ 21 * sval s + (v - x) * 1). lia.
  - change (x + 2 ^ 21 * sval (<[i := v]> s) = x + 2 ^ 21 * sval s + (v - at_ s i) * 2 ^ (21 * Z.of_nat (S i))).
    rewrite IH by lia. replace (21 * Z.of_nat (S i)) with (21 + 21 * Z.of_nat i) by lia. rewrite Z.pow_add_r by lia. ring.
Qed.

(** ** The interval analysis *)

Definition within_iv (x : Z) (b : Z * Z) : Prop := b.1 <= x <= b.2.
Definition inside (s : list Z) (iv : list (Z * Z)) : Prop := Forall2 within_iv s iv.

Definition iv_fits (b : Z * Z) : bool := i64_ok b.1 && i64_ok b.2.

Definition a_add (i : nat) (b : Z * Z) (iv : list (Z * Z)) : option (list (Z * Z)) :=
  c ← iv !! i; let r := (c.1 + b.1, c.2 + b.2) in if iv_fits r then Some (<[i := r]> iv) else None.

(** [sign] is 1 for [+=] and -1 for [-=]. *)
Definition a_mul (sign : bool) (d i : nat) (k : Z) (iv : list (Z * Z)) : option (list (Z * Z)) :=
  c ← iv !! i; let m := (c.1 * k, c.2 * k) in
  if iv_fits m && negb (d =? i)%nat then a_add d (if sign then m else (- m.2, - m.1)) iv else None.

Definition a_fold (i : nat) (iv : list (Z * Z)) : option (list (Z * Z)) :=
  if (i <? 12)%nat then None else
  iv ← a_mul true (i - 12) i 666643 iv;
  iv ← a_mul true (i - 11) i 470296 iv;
  iv ← a_mul true (i - 10) i 654183 iv;
  iv ← a_mul false (i - 9) i 997805 iv;
  iv ← a_mul true (i - 8) i 136657 iv;
  iv ← a_mul false (i - 7) i 683901 iv;
  if (i <? length iv)%nat then Some (<[i := (0, 0)]> iv) else None.

(** A carry from interval [c]; what stays in the limb is in [r]. *)
Definition a_carry (i : nat) (c r : Z * Z) (iv : list (Z * Z)) : option (list (Z * Z)) :=
  if iv_fits (c.1 * 2 ^ 21, c.2 * 2 ^ 21) then iv ← a_add (i + 1) c iv; Some (<[i := r]> iv) else None.

Definition a_step (x : sc_step) (iv : list (Z * Z)) : option (list (Z * Z)) :=
  match x with
  | Fold i => a_fold i iv
  | CarryR i => c ← iv !! i; let t := (c.1 + 2 ^ 20, c.2 + 2 ^ 20) in
      if iv_fits t then a_carry i (t.1 / 2 ^ 21, t.2 / 2 ^ 21) (- 2 ^ 20, 2 ^ 20 - 1) iv else None
  | CarryF i => c ← iv !! i; a_carry i (c.1 / 2 ^ 21, c.2 / 2 ^ 21) (0, 2 ^ 21 - 1) iv
  end.

Fixpoint a_steps (l : list sc_step) (iv : list (Z * Z)) : option (list (Z * Z)) :=
  match l with
  | [] => Some iv
  | x :: l => iv ← a_step x iv; a_steps l iv
  end.

Lemma inside_lookup s iv i b : inside s iv -> iv !! i = Some b -> (i < length s)%nat /\ within_iv (at_ s i) b.
Proof.
  intros H E. destruct (Forall2_lookup_r _ _ _ _ _ H E) as (x & Ex & Hx). split; [by eapply lookup_lt_Some|].
  unfold at_. by rewrite (nth_lookup_Some _ _ _ _ Ex).
Qed.

Lemma iv_fits_ok b x : iv_fits b = true -> within_iv x b -> i64 x = Ret x.
Proof.
  unfold iv_fits, i64_ok, within_iv, i64. intros H Hx. destruct (i64_ok x) eqn:E; [done|]. unfold i64_ok in E.
  apply andb_prop in H as [H1 H2]. apply andb_prop in H1 as [H1 _]. apply andb_prop in H2 as [_ H2]. apply andb_false_iff in E. lia.
Qed.

Lemma limb_add_ok i x b s iv iv' : inside s iv -> within_iv x b -> a_add i b iv = Some iv' ->
  exists s', limb_add i x s = Ret s' /\ inside s' iv' /\ s' = <[i := at_ s i + x]> s /\ (i < length s)%nat.
Proof.
  intros H Hx. unfold a_add. destruct (iv !! i) as [c|] eqn:E; cbn [mbind option_bind]; [|done]. cbv zeta.
  destruct (iv_fits _) eqn:Hf; [|done]. intros [= <-]. destruct (inside_lookup _ _ _ _ H E) as [Hl Hi].
  assert (Hs : within_iv (at_ s i + x) (c.1 + b.1, c.2 + b.2)) by (unfold within_iv in *; cbn; lia).
  unfold limb_add. rewrite (iv_fits_ok _ _ Hf Hs). ret. eexists. split; [done|]. split; [|done]. by apply Forall2_insert.
Qed.

Lemma mul_add_ok (sign : bool) d i k s iv iv' : 0 <= k -> inside s iv -> a_mul sign d i k iv = Some iv' ->
  exists s', (if sign then mul_add d i k s else mul_sub d i k s) = Ret s' /\ inside s' iv' /\
    sval s' = sval s + (if sign then 1 else -1) * at_ s i * k * 2 ^ (21 * Z.of_nat d) /\ at_ s' i = at_ s i /\ length s' = length s.
Proof.
  intros Hk H. unfold a_mul. destruct (iv !! i) as [c|] eqn:E; cbn [mbind option_bind]; [|done]. cbv zeta.
  destruct (iv_fits _) eqn:Hf; cbn [andb]; [|done]. destruct (Nat.eqb_spec d i); cbn [negb]; [done|]. intros Ha.
  destruct (inside_lookup _ _ _ _ H E) as [Hl Hi]. assert (Hm : within_iv (at_ s i * k) (c.1 * k, c.2 * k)) by (unfold within_iv in *; cbn; nia).
  set (x := if sign then at_ s i * k else - (at_ s i * k)).
  assert (Hx : within_iv x (if sign then (c.1 * k, c.2 * k) else (- (c.2 * k), - (c.1 * k)))) by (unfold x, within_iv in *; destruct sign; cbn in *; lia).
  destruct (limb_add_ok d x _ s iv iv' H Hx ltac:(destruct sign; exact Ha)) as (s' & Es & Hin & -> & Hd).
  exists (<[d := at_ s d + x]> s). split_and!; [|done| | |].
  - unfold mul_add, mul_sub. rewrite (iv_fits_ok _ _ Hf Hm). subst x. destruct sign; ret; exact Es.
  - rewrite sval_insert by done. unfold x. destruct sign; ring.
  - by apply at_insert_ne.
  - apply length_insert.
Qed.

(** What a step does to the number. *)
Definition moved (x : sc_step) (s s' : list Z) : Prop :=
  match x with
  | Fold i => sval s' = sval s - at_ s i * 2 ^ (21 * Z.of_nat (i - 12)) * order
  | _ => sval s' = sval s
  end.

Lemma do_fold_ok i s iv iv' : inside s iv -> a_fold i iv = Some iv' ->
  exists s', do_fold i s = Ret s' /\ inside s' iv' /\ moved (Fold i) s s'.
Proof.
  intros H. unfold a_fold, do_fold, moved. destruct (Nat.ltb_spec i 12) as [|Hi]; [done|].
  destruct (a_mul true (i - 12) i 666643 iv) as [iv1|] eqn:A1; cbn [mbind option_bind]; [|done].
  destruct (mul_add_ok true _ _ 666643 _ _ _ ltac:(lia) H A1) as (s1 & -> & H1 & V1 & E1 & L1). ret.
  destruct (a_mul true (i - 11) i 470296 iv1) as [iv2|] eqn:A2; cbn [mbind option_bind]; [|done].
  destruct (mul_add_ok true _ _ 470296 _ _ _ ltac:(lia) H1 A2) as (s2 & -> & H2 & V2 & E2 & L2). ret.
  destruct (a_mul true (i - 10) i 654183 iv2) as [iv3|] eqn:A3; cbn [mbind option_bind]; [|done].
  destruct (mul_add_ok true _ _ 654183 _ _ _ ltac:(lia) H2 A3) as (s3 & -> & H3 & V3 & E3 & L3). ret.
  destruct (a_mul false (i - 9) i 997805 iv3) as [iv4|] eqn:A4; cbn [mbind option_bind]; [|done].
  destruct (mul_add_ok false _ _ 997805 _ _ _ ltac:(lia) H3 A4) as (s4 & -> & H4 & V4 & E4 & L4). ret.
  destruct (a_mul true (i - 8) i 136657 iv4) as [iv5|] eqn:A5; cbn [mbind option_bind]; [|done].
  destruct (mul_add_ok true _ _ 136657 _ _ _ ltac:(lia) H4 A5) as (s5 & -> & H5 & V5 & E5 & L5). ret.
  destruct (a_mul false (i - 7) i 683901 iv5) as [iv6|] eqn:A6; cbn [mbind option_bind]; [|done].
  destruct (mul_add_ok false _ _ 683901 _ _ _ ltac:(lia) H5 A6) as (s6 & -> & H6 & V6 & E6 & L6). ret.
  destruct (Nat.ltb_spec i (length iv6)) as [Hl|]; [|done]. intros [= <-]. eexists. split; [done|].
  split; [apply Forall2_insert; [done|unfold within_iv; cbn; lia]|].
  rewrite sval_insert by (pose proof (Forall2_length H6); lia). clear A1 A2 A3 A4 A5 A6 H1 H2 H3 H4 H5 H6. remember (21 * Z.of_nat (i - 12)) as e eqn:He.
  replace (21 * Z.of_nat (i - 11)) with (21 + e) in V2 by lia. replace (21 * Z.of_nat (i - 10)) with (42 + e) in V3 by lia.
  replace (21 * Z.of_nat (i - 9)) with (63 + e) in V4 by lia. replace (21 * Z.of_nat (i - 8)) with (84 + e) in V5 by lia.
  replace (21 * Z.of_nat (i - 7)) with (105 + e) in V6 by lia. replace (21 * Z.of_nat i) with (252 + e) by lia.
  rewrite Z.pow_add_r in * by lia. rewrite E1 in *. rewrite E2 in *. rewrite E3 in *. rewrite E4 in *. rewrite E5 in *. rewrite V6, V5, V4, V3, V2, V1, E6. unfold order. ring.
Qed.

Lemma do_carry_ok i carry c r s iv iv' : inside s iv -> within_iv carry c -> i64_ok r.1 = true -> i64_ok r.2 = true -> within_iv (at_ s i - carry * 2 ^ 21) r ->
  (i < length s)%nat -> a_carry i c r iv = Some iv' -> exists s', do_carry i carry s = Ret s' /\ inside s' iv' /\ sval s' = sval s.
Proof.
  intros H Hc R1 R2 Hr Hl. unfold a_carry, do_carry. destruct (iv_fits _) eqn:Hf; [|done].
  destruct (a_add (i + 1) c iv) as [iv1|] eqn:A1; cbn [mbind option_bind]; [|done]. intros [= <-].
  destruct (limb_add_ok _ _ _ _ _ _ H Hc A1) as (s1 & -> & H1 & E1 & L1). ret. change (Z.shiftl 1 21) with (2 ^ 21).
  assert (Hm : within_iv (carry * 2 ^ 21) (c.1 * 2 ^ 21, c.2 * 2 ^ 21)) by (unfold within_iv in *; cbn [fst snd]; lia).
  rewrite (iv_fits_ok _ _ Hf Hm). ret. assert (Ei : at_ s1 i = at_ s i) by (rewrite E1; apply at_insert_ne; lia).
  unfold limb_add. replace (at_ s1 i + - (carry * 2 ^ 21)) with (at_ s i - carry * 2 ^ 21) by lia.
  rewrite (iv_fits_ok r) by (unfold iv_fits; by rewrite R1, R2 || done). ret. eexists. split; [done|]. split; [by apply Forall2_insert|].
  rewrite sval_insert by (rewrite E1, length_insert; done). rewrite Ei, E1, sval_insert by done.
  replace (21 * Z.of_nat (i + 1)) with (21 + 21 * Z.of_nat i) by lia. rewrite Z.pow_add_r by lia. ring.
Qed.

Lemma do_step_ok x s iv iv' : inside s iv -> a_step x iv = Some iv' -> exists s', do_step x s = Ret s' /\ inside s' iv' /\ moved x s s'.
Proof.
  intros H. destruct x as [i|i|i]; cbn [a_step do_step moved]; [by apply do_fold_ok| |].
  - destruct (iv !! i) as [c|] eqn:E; cbn [mbind option_bind]; [|done]. destruct (inside_lookup _ _ _ _ H E) as [Hl Hi]. cbv zeta. destruct (iv_fits _) eqn:Hf; [|done]. intros Ha.
    change (Z.shiftl 1 20) with (2 ^ 20). rewrite (iv_fits_ok _ (at_ s i + 2 ^ 20) Hf) by (unfold within_iv in *; cbn [fst snd]; lia). ret.
    rewrite Z.shiftr_div_pow2 by lia. eapply do_carry_ok; [done| | | | |done|exact Ha]; try reflexivity; unfold within_iv in *; cbn [fst snd] in *.
    + split; apply Z.div_le_mono; lia.
    + dlia.
  - destruct (iv !! i) as [c|] eqn:E; cbn [mbind option_bind]; [|done]. destruct (inside_lookup _ _ _ _ H E) as [Hl Hi]. intros Ha.
    rewrite Z.shiftr_div_pow2 by lia. eapply do_carry_ok; [done| | | | |done|exact Ha]; try reflexivity; unfold within_iv in *; cbn [fst snd] in *.
    + split; apply Z.div_le_mono; lia.
    + dlia.
Qed.

(** The analysis is sound: no step overflows and the residue is kept. *)
Lemma do_steps_ok l : forall s iv iv', inside s iv -> a_steps l iv = Some iv' ->
  exists s', do_steps l s = Ret s' /\ inside s' iv' /\ sval s' mod order = sval s mod order.
Proof.
  induction l as [|x l IH]; intros s iv iv' H; cbn [a_steps do_steps]; [intros [= <-]; by eauto|].
  destruct (a_step x iv) as [iv1|] eqn:A; cbn [mbind option_bind]; [|done]. intros A'.
  destruct (do_step_ok x s iv iv1 H A) as (s1 & -> & H1 & M). ret. destruct (IH s1 iv1 iv' H1 A') as (s' & E & H' & V). exists s'. split; [done|]. split; [done|].
  rewrite V. destruct x as [i|i|i]; cbn [moved] in M; rewrite M; try done. apply (same_mod (- (at_ s i * 2 ^ (21 * Z.of_nat (i - 12))))). ring.
Qed.

Definition is_carry (x : sc_step) : bool := match x with Fold _ => false | _ => true end.

(** Carries keep the number itself. *)
Lemma do_carries_ok l : forall s iv iv', forallb is_carry l = true -> inside s iv -> a_steps l iv = Some iv' ->
  exists s', do_steps l s = Ret s' /\ inside s' iv' /\ sval s' = sval s.
Proof.
  induction l as [|x l IH]; intros s iv iv' C H; cbn [a_steps do_steps forallb] in *; [intros [= <-]; by eauto|]. apply andb_prop in C as [C1 C].
  destruct (a_step x iv) as [iv1|] eqn:A; cbn [mbind option_bind]; [|done]. intros A'.
  destruct (do_step_ok x s iv iv1 H A) as (s1 & -> & H1 & M). ret. destruct (IH s1 iv1 iv' C H1 A') as (s' & E & H' & V). exists s'. split; [done|]. split; [done|].
  rewrite V. by destruct x.
Qed.

Lemma do_steps_app l1 : forall l2 s, do_steps (l1 ++ l2) s = rbind (do_steps l1 s) (do_steps l2).
Proof. induction l1 as [|x l1 IH]; intros l2 s; [done|]. cbn [app do_steps]. destruct (do_step x s); [cbn [rbind]; apply IH|done..]. Qed.

(** ** Bytes and limbs *)

Lemma testbit_mod x k n : 0 <= n -> 0 <= k -> Z.testbit (x mod 2 ^ k) n = (n <? k) && Z.testbit x n.
Proof.
  intros Hn Hk. destruct (Z.ltb_spec n k); cbn [andb]; [by rewrite Z.mod_pow2_bits_low by lia|by rewrite Z.mod_pow2_bits_high by lia].
Qed.

Lemma testbit_div x k n : 0 <= n -> 0 <= k -> Z.testbit (x / 2 ^ k) n = Z.testbit x (n + k).
Proof. intros. rewrite <- Z.shiftr_div_pow2, Z.shiftr_spec by lia. done. Qed.

(** A byte inside a limb. *)
Lemma inner_byte x w k : 0 <= k -> k + 8 <= 21 -> x = w mod 2 ^ 21 -> u8 (Z.shiftr x k) = (w / 2 ^ k) mod 2 ^ 8.
Proof.
  intros Hk H ->. unfold u8. apply Z.bits_inj'. intros n Hn. rewrite !testbit_mod, Z.shiftr_spec, testbit_mod, testbit_div by lia.
  destruct (Z.ltb_spec n 8); [|done]. cbn [andb]. by replace (n + k <? 21) with true by lia.
Qed.

(** A byte across two limbs. *)
Lemma cross_byte x y w k : 13 < k < 21 -> x = w mod 2 ^ 21 -> 0 <= y < 2 ^ 32 -> y mod 2 ^ 21 = (w / 2 ^ 21) mod 2 ^ 21 ->
  u8 (Z.lor (Z.shiftr x k) (shl y (21 - k))) = (w / 2 ^ k) mod 2 ^ 8.
Proof.
  intros Hk -> Hy E. unfold u8, shl, u64. apply Z.bits_inj'. intros n Hn.
  rewrite !testbit_mod, Z.lor_spec, Z.shiftr_spec, testbit_mod, testbit_mod, testbit_div by lia.
  destruct (Z.ltb_spec n 8); [|done]. cbn [andb]. replace (n <? 64) with true by lia. cbn [andb].
  destruct (Z.ltb_spec (n + k) 21); cbn [andb].
  - rewrite Z.shiftl_spec_low by lia. apply orb_false_r.
  - cbn [orb]. rewrite Z.shiftl_spec by lia.
    assert (Eb : Z.testbit (y mod 2 ^ 21) (n - (21 - k)) = Z.testbit ((w / 2 ^ 21) mod 2 ^ 21) (n - (21 - k))) by (by rewrite E).
    rewrite !testbit_mod, testbit_div in Eb by lia. replace (n - (21 - k) <? 21) with true in Eb by lia. cbn [andb] in Eb. rewrite Eb. f_equal. lia.
Qed.

Lemma le_bytes_map n v : le_bytes n v = map (fun j => (v / 2 ^ (8 * Z.of_nat j)) mod 2 ^ 8) (seq 0 n).
Proof.
  revert v. induction n as [|n IH]; intros v; [done|]. cbn [le_bytes seq map]. rewrite Z.div_1_r. f_equal.
  rewrite IH, <- seq_shift, map_map. apply map_ext. intros j. f_equal. change 256 with (2 ^ 8). rewrite Z.div_div, <- Z.pow_add_r by lia. do 2 f_equal. lia.
Qed.

(** The limbs of a number: base [2^21], the twelfth unbounded. *)
Definition digits12 (s : list Z) (v : Z) : Prop :=
  (forall i, (i < 11)%nat -> at_ s i = (v / 2 ^ (21 * Z.of_nat i)) mod 2 ^ 21) /\ at_ s 11 = v / 2 ^ 231.

Lemma sc_store_ok s v : digits12 s v -> 0 <= v < 2 ^ 256 -> sc_store s = le_bytes 32 v.
Proof.
  intros [D D11] Hv. rewrite le_bytes_map. unfold sc_store. cbn [seq map].
  assert (B11 : 0 <= at_ s 11 < 2 ^ 32).
  { rewrite D11. split; [apply Z.div_pos; lia|]. apply Z.div_lt_upper_bound; [lia|]. change (2 ^ 231 * 2 ^ 32) with (2 ^ 263). lia. }
  assert (D11' : at_ s 11 mod 2 ^ 21 = (v / 2 ^ (21 * Z.of_nat 11)) mod 2 ^ 21) by (by rewrite D11).
  assert (In : forall (i : nat) k e, (i < 11)%nat -> 0 <= k -> k + 8 <= 21 -> e = 21 * Z.of_nat i + k -> u8 (Z.shiftr (at_ s i) k) = (v / 2 ^ e) mod 2 ^ 8).
  { intros i k e Hi H1 H2 ->. rewrite (inner_byte _ _ k H1 H2 (D i Hi)). by rewrite Z.div_div, <- Z.pow_add_r by lia. }
  assert (In11 : forall k e, 0 <= k -> e = 231 + k -> u8 (Z.shiftr (at_ s 11) k) = (v / 2 ^ e) mod 2 ^ 8).
  { intros k e H1 ->. rewrite D11, Z.shiftr_div_pow2, Z.div_div, <- Z.pow_add_r by lia. done. }
  assert (Cr : forall (i : nat) k k' e, (i < 11)%nat -> 13 < k < 21 -> k' = 21 - k -> e = 21 * Z.of_nat i + k -> u8 (Z.lor (Z.shiftr (at_ s i) k) (shl (at_ s (S i)) k')) = (v / 2 ^ e) mod 2 ^ 8).
  { intros i k k' e Hi Hk -> ->. rewrite (cross_byte _ (at_ s (S i)) _ k Hk (D i Hi)).
    - by rewrite Z.div_div, <- Z.pow_add_r by lia.
    - destruct (Nat.eq_dec i 10%nat) as [->|]; [exact B11|]. rewrite D by lia. pose proof (Z.mod_pos_bound (v / 2 ^ (21 * Z.of_nat (S i))) (2 ^ 21)). lia.
    - assert (Em : at_ s (S i) mod 2 ^ 21 = (v / 2 ^ (21 * Z.of_nat (S i))) mod 2 ^ 21).
      { destruct (Nat.eq_dec i 10%nat) as [->|]; [exact D11'|]. rewrite D by lia. by rewrite Z.mod_mod by lia. }
      rewrite Em, Z.div_div, <- Z.pow_add_r by lia. do 3 f_equal. lia. }
  repeat (apply (f_equal2 cons); [first [apply In; lia|apply In11; lia|apply Cr; lia]|]). reflexivity.
Qed.

Lemma load_3_ok s off : Forall byte_ok s -> 0 <= off -> off + 3 <= zlen s -> load_3 s off = Ret ((le_val s / 2 ^ (8 * off)) mod 2 ^ 24).
Proof.
  intros Hs H1 H2. unfold load_3. rewrite rdn_ok by (rewrite zlen_padd; lia). ret. fold (sub s off 3). f_equal.
  replace (2 ^ (8 * off)) with (256 ^ off) by (by rewrite Z.pow_mul_r by lia). change (2 ^ 24) with (256 ^ 3). rewrite <- (le_val_sub s off 3) by (done || lia).
  assert (L : length (sub s off 3) = 3%nat) by (unfold sub; rewrite length_ztake; [lia|rewrite zlen_padd; lia]).
  assert (B : Forall byte_ok (sub s off 3)) by (unfold sub; auto with pico). generalize dependent (sub s off 3). intros b L B.
  do 3 (destruct b as [|?b b]; [discriminate L|]). destruct b; [|discriminate L]. split_bytes. unfold byte_ok in *. unfold at_. cbn [nth le_val]. repeat lor1. lia.
Qed.

Lemma load_4_ok s off : Forall byte_ok s -> 0 <= off -> off + 4 <= zlen s -> load_4 s off = Ret ((le_val s / 2 ^ (8 * off)) mod 2 ^ 32).
Proof.
  intros Hs H1 H2. unfold load_4. rewrite rdn_ok by (rewrite zlen_padd; lia). ret. fold (sub s off 4). f_equal.
  replace (2 ^ (8 * off)) with (256 ^ off) by (by rewrite Z.pow_mul_r by lia). change (2 ^ 32) with (256 ^ 4). rewrite <- (le_val_sub s off 4) by (done || lia).
  assert (L : length (sub s off 4) = 4%nat) by (unfold sub; rewrite length_ztake; [lia|rewrite zlen_padd; lia]).
  assert (B : Forall byte_ok (sub s off 4)) by (unfold sub; auto with pico). generalize dependent (sub s off 4). intros b L B.
  do 4 (destruct b as [|?b b]; [discriminate L|]). destruct b; [|discriminate L]. split_bytes. unfold byte_ok in *. unfold at_. cbn [nth le_val]. repeat lor1. lia.
Qed.

(** The bit a load starts at, and whether it is in the buffer and covers its limb. *)
Definition load_at (l : limb_load) : Z := match l with L3 off sh | L4 off sh | Top off sh => 8 * off + sh end.
Definition load_wf (n : Z) (l : limb_load) : bool :=
  match l with
  | L3 off sh => (0 <=? off) && (off + 3 <=? n) && (0 <=? sh) && (sh <=? 3)
  | L4 off sh => (0 <=? off) && (off + 4 <=? n) && (0 <=? sh) && (sh <=? 11)
  | Top off sh => (0 <=? off) && (off + 4 =? n) && (0 <=? sh)
  end.

Definition limb_of (v : Z) (l : limb_load) : Z :=
  match l with Top _ _ => v / 2 ^ load_at l | _ => (v / 2 ^ load_at l) mod 2 ^ 21 end.

Lemma cut_mod v o sh k : 0 <= o -> 0 <= sh -> sh + 21 <= k ->
  Z.land 2097151 (Z.shiftr ((v / 2 ^ o) mod 2 ^ k) sh) = (v / 2 ^ (o + sh)) mod 2 ^ 21.
Proof.
  intros. rewrite Z.land_comm. change 2097151 with (Z.ones 21). rewrite Z.land_ones by lia. apply Z.bits_inj'. intros n Hn.
  rewrite !testbit_mod, Z.shiftr_spec, testbit_mod, !testbit_div by lia. destruct (Z.ltb_spec n 21); [|done]. cbn [andb].
  replace (n + sh <? k) with true by lia. cbn [andb]. f_equal. lia.
Qed.

Lemma load_limb_ok s l : Forall byte_ok s -> load_wf (zlen s) l = true -> load_limb s l = Ret (limb_of (le_val s) l).
Proof.
  intros Hs. pose proof (le_val_bound s Hs) as Hv. destruct l as [off sh|off sh|off sh]; cbn [load_limb load_wf limb_of load_at]; intros W;
    rewrite !andb_true_iff in W.
  - rewrite load_3_ok by (done || lia). ret. by rewrite cut_mod by lia.
  - rewrite load_4_ok by (done || lia). ret. by rewrite cut_mod by lia.
  - rewrite load_4_ok by (done || lia). ret. rewrite Z.mod_small; [by rewrite Z.shiftr_div_pow2, Z.div_div, <- Z.pow_add_r by lia|].
    split; [apply Z.div_pos; lia|]. apply Z.div_lt_upper_bound; [lia|]. rewrite <- Z.pow_add_r by lia. change 256 with (2 ^ 8) in Hv. rewrite <- Z.pow_mul_r in Hv by lia.
    replace (8 * off + 32) with (8 * zlen s) by lia. lia.
Qed.

Lemma load_limbs_ok s l : Forall byte_ok s -> forallb (load_wf (zlen s)) l = true -> load_limbs s l = Ret (map (limb_of (le_val s)) l).
Proof.
  intros Hs. induction l as [|x l IH]; cbn [forallb load_limbs map]; [done|]. intros [W1 W]%andb_prop. rewrite load_limb_ok by done. ret. rewrite IH by done. by ret.
Qed.

(** Consecutive limbs. *)
Fixpoint consecutive (i : Z) (l : list limb_load) : bool :=
  match l with
  | [] => false
  | [Top off sh] => 8 * off + sh =? 21 * i
  | Top _ _ :: _ => false
  | x :: l => (load_at x =? 21 * i) && consecutive (i + 1) l
  end.

Lemma sval_limbs v l : forall i, 0 <= i -> consecutive i l = true -> sval (map (limb_of v) l) = v / 2 ^ (21 * i).
Proof.
  induction l as [|x l IH]; intros i Hi; cbn [consecutive]; [done|].
  assert (St : (load_at x =? 21 * i) && consecutive (i + 1) l = true -> limb_of v x = (v / 2 ^ load_at x) mod 2 ^ 21 -> sval (map (limb_of v) (x :: l)) = v / 2 ^ (21 * i)).
  { intros [E C]%andb_prop Hx. cbn [map sval]. rewrite Hx, (IH (i + 1)) by (done || lia). apply Z.eqb_eq in E. rewrite E.
    replace (21 * (i + 1)) with (21 * i + 21) by lia. rewrite Z.pow_add_r, <- Z.div_div by lia. pose proof (Z.div_mod (v / 2 ^ (21 * i)) (2 ^ 21) ltac:(lia)). lia. }
  destruct x as [off sh|off sh|off sh]; [intros C; apply St; done..|]. destruct l; [|done]. intros E%Z.eqb_eq. cbn [map sval limb_of load_at]. rewrite E. lia.
Qed.

(** The limbs of a byte string lie in their intervals. *)
Lemma limb_of_range v l : limb_of v l = (v / 2 ^ load_at l) mod 2 ^ 21 -> within_iv (limb_of v l) (0, 2 ^ 21 - 1).
Proof. intros ->. unfold within_iv. cbn [fst snd]. pose proof (Z.mod_pos_bound (v / 2 ^ load_at l) (2 ^ 21)). lia. Qed.

Definition iv64 : list (Z * Z) := replicate 23 (0, 2 ^ 21 - 1) ++ [(0, 2 ^ 29 - 1)].
Definition iv32 : list (Z * Z) := replicate 11 (0, 2 ^ 21 - 1) ++ [(0, 2 ^ 25 - 1)].

Lemma limbs64_ok s : Forall byte_ok s -> zlen s = 64 -> exists l, load_limbs s limbs64 = Ret l /\ inside l iv64 /\ sval l = le_val s.
Proof.
  intros Hs Hl. exists (map (limb_of (le_val s)) limbs64). split; [apply load_limbs_ok; [done|by rewrite Hl]|]. split.
  - unfold limbs64. cbn [map]. unfold iv64. repeat (apply Forall2_cons; [by apply limb_of_range|]). repeat constructor; cbn [fst snd limb_of load_at].
    + apply Z.div_pos; [pose proof (le_val_bound s Hs)|]; lia.
    + pose proof (le_val_bound s Hs) as B. rewrite Hl in B. change (256 ^ 64) with (2 ^ 512) in B. apply Z.lt_le_pred. apply Z.div_lt_upper_bound; [lia|].
      change (2 ^ (8 * 60 + 3) * 2 ^ 29) with (2 ^ 512). lia.
  - rewrite (sval_limbs _ _ 0) by (lia || reflexivity). apply Z.div_1_r.
Qed.

Lemma limbs32_ok s : Forall byte_ok s -> zlen s = 32 -> exists l, load_limbs s limbs32 = Ret l /\ inside l iv32 /\ sval l = le_val s.
Proof.
  intros Hs Hl. exists (map (limb_of (le_val s)) limbs32). split; [apply load_limbs_ok; [done|by rewrite Hl]|]. split.
  - unfold limbs32. cbn [map]. unfold iv32. repeat (apply Forall2_cons; [by apply limb_of_range|]). repeat constructor; cbn [fst snd limb_of load_at].
    + apply Z.div_pos; [pose proof (le_val_bound s Hs)|]; lia.
    + pose proof (le_val_bound s Hs) as B. rewrite Hl in B. change (256 ^ 32) with (2 ^ 256) in B. apply Z.lt_le_pred. apply Z.div_lt_upper_bound; [lia|].
      change (2 ^ (8 * 28 + 7) * 2 ^ 25) with (2 ^ 256). lia.
  - rewrite (sval_limbs _ _ 0) by (lia || reflexivity). apply Z.div_1_r.
Qed.

(** * The canonical residue *)

Definition iv_mid : list (Z * Z) := replicate 12 (0, 2 ^ 21 - 1) ++ [(-1, 0)] ++ replicate 11 (0, 0).
Definition iv_end : list (Z * Z) := replicate 11 (0, 2 ^ 21 - 1) ++ [(-1, 2 ^ 21)] ++ replicate 12 (0, 0).

(** A bound on the number from the bounds of the limbs. *)
Lemma sval_bound s iv : inside s iv -> sval (map fst iv) <= sval s <= sval (map snd iv).
Proof. induction 1 as [|x b s iv Hx H IH]; cbn [map sval]; [lia|]. unfold within_iv in Hx. lia. Qed.

(** Cutting the number at a limb. *)
Lemma sval_high s : forall i, (forall j, (j < i)%nat -> 0 <= at_ s j < 2 ^ 21) -> sval s / 2 ^ (21 * Z.of_nat i) = sval (drop i s).
Proof.
  induction s as [|x s IH]; intros i H; [rewrite drop_nil; apply Z.div_0_l; lia|]. destruct i as [|i]; [apply Z.div_1_r|].
  cbn [drop sval]. rewrite <- IH by (intros j Hj; apply (H (S j)); lia). pose proof (H 0%nat ltac:(lia)) as Hx. change (at_ (x :: s) 0) with x in Hx.
  replace (21 * Z.of_nat (S i)) with (21 + 21 * Z.of_nat i) by lia. rewrite Z.pow_add_r, <- Z.div_div by lia. f_equal.
  rewrite (Z.mul_comm (2 ^ 21)), Z.div_add, Z.div_small by lia. done.
Qed.

Lemma sval_at s i : (i < length s)%nat -> 0 <= at_ s i < 2 ^ 21 -> sval (drop i s) mod 2 ^ 21 = at_ s i.
Proof.
  intros Hi H. rewrite (drop_S s (at_ s i) i) by (unfold at_; destruct (nth_lookup_or_length s i 0) as [E|E]; [exact E|lia]).
  cbn [sval]. rewrite (Z.mul_comm (2 ^ 21)), Z.mod_add, Z.mod_small by lia. done.
Qed.

Lemma iv_at s iv i b : inside s iv -> iv !! i = Some b -> b.1 <= at_ s i <= b.2.
Proof. intros H E. by destruct (inside_lookup _ _ _ _ H E) as [_ Hw]. Qed.

(** The limbs below [i] are digits and those above it are zero. *)
Lemma top_limb s i t : inside s (replicate i (0, 2 ^ 21 - 1) ++ t :: replicate (23 - i) (0, 0)) ->
  (forall j, (j < i)%nat -> 0 <= at_ s j < 2 ^ 21) /\ (i < length s)%nat /\ sval s / 2 ^ (21 * Z.of_nat i) = at_ s i.
Proof.
  intros H. assert (Hlow : forall j, (j < i)%nat -> 0 <= at_ s j < 2 ^ 21).
  { intros j Hj. pose proof (iv_at s _ j (0, 2 ^ 21 - 1) H) as Hw. cbn [fst snd] in Hw.
    rewrite lookup_app_l in Hw by (rewrite length_replicate; lia). specialize (Hw (proj2 (lookup_replicate _ _ _ _) (conj eq_refl Hj))). lia. }
  pose proof (Forall2_length H) as Hl. rewrite length_app, length_replicate in Hl. cbn [length] in Hl.
  split; [exact Hlow|]. split; [lia|]. rewrite (sval_high s i Hlow).
  assert (Hd : inside (drop i s) (t :: replicate (23 - i) (0, 0))) by (apply (Forall2_drop _ _ _ i) in H; by rewrite drop_app_length' in H by (by rewrite length_replicate)).
  rewrite (drop_S s (at_ s i) i) in * by (unfold at_; destruct (nth_lookup_or_length s i 0) as [E|E]; [exact E|lia]). cbn [sval].
  apply Forall2_cons_1 in Hd as [_ Hd]. pose proof (sval_bound _ _ Hd) as B.
  assert (Z0 : forall (f : Z * Z -> Z) n, f (0, 0) = 0 -> sval (map f (replicate n (0, 0))) = 0).
  { intros f n Hf. induction n as [|n IH]; [done|]. cbn [replicate map sval]. rewrite IH, Hf. done. }
  rewrite !Z0 in B by done. lia.
Qed.

(** The limbs at the end are the digits of the number. *)
Lemma end_digits s : inside s iv_end -> digits12 s (sval s).
Proof.
  intros H. destruct (top_limb s 11 (-1, 2 ^ 21) H) as (Hlow & Hl & Ht). split; [|by rewrite <- Ht].
  intros i Hi. rewrite sval_high by (intros; apply Hlow; lia). symmetry. apply sval_at; [lia|by apply Hlow].
Qed.

(** The common steps, from limbs whose intervals pass the analysis: the last two
    passes bring the number, between [- order] and [order] by then, into range. *)
Lemma sc_steps_ok s iv iv1 : inside s iv -> a_steps sc_fold_steps iv = Some iv1 ->
  (- order <=? sval (map fst iv1)) = true -> (sval (map snd iv1) <? order) = true -> a_steps sc_pass1 iv1 = Some iv_mid ->
  exists s', do_steps sc_steps s = Ret s' /\ sc_store s' = le_bytes 32 (sval s mod order).
Proof.
  intros H A1 B1 B2 A2. unfold sc_steps. destruct (do_steps_ok _ _ _ _ H A1) as (s1 & E1 & H1 & V1). rewrite do_steps_app, E1. ret. clear E1.
  pose proof (sval_bound _ _ H1) as B. apply Z.leb_le in B1. apply Z.ltb_lt in B2.
  destruct (do_carries_ok sc_pass1 s1 iv1 iv_mid eq_refl H1 A2) as (s2 & E2 & H2 & V2). rewrite do_steps_app, E2. ret. clear E2 A1 A2.
  destruct (do_step_ok (Fold 12) s2 iv_mid _ H2 ltac:(vm_compute; reflexivity)) as (s3 & E3 & H3 & V3). cbn [app do_steps]. rewrite E3. ret. clear E3.
  destruct (do_carries_ok sc_pass2 s3 _ iv_end eq_refl H3 ltac:(vm_compute; reflexivity)) as (s4 & E4 & H4 & V4). rewrite E4. eexists. split; [reflexivity|]. clear E4.
  cbn [moved] in V3. change (21 * Z.of_nat (12 - 12)) with 0 in V3. rewrite Z.pow_0_r, Z.mul_1_r in V3.
  pose proof (iv_at s2 iv_mid 12 (-1, 0) H2 eq_refl) as B12. cbn [fst snd] in B12.
  destruct (top_limb s2 12 (-1, 0) H2) as (_ & _ & Hlow). change (21 * Z.of_nat 12) with 252 in Hlow.
  assert (Ev : sval s4 = sval s mod order).
  { rewrite <- V1. apply (Z.mod_unique_pos _ _ (at_ s2 12)); [|lia].
    rewrite V4, V3, V2. assert (0 < order) by (unfold order; lia). pose proof (Z.div_mod (sval s1) (2 ^ 252) ltac:(lia)). pose proof (Z.mod_pos_bound (sval s1) (2 ^ 252) ltac:(lia)). rewrite V2 in Hlow. nia. }
  rewrite <- Ev. apply sc_store_ok; [by apply end_digits|]. rewrite Ev. pose proof (Z.mod_pos_bound (sval s) order ltac:(unfold order; lia)). unfold order in *. lia.
Qed.

Lemma sc_reduce_ok s : Forall byte_ok s -> zlen s = 64 -> sc_reduce s = Ret (le_bytes 32 (le_val s mod order) ++ padd s 32).
Proof.
  intros Hs Hl. unfold sc_reduce. destruct (limbs64_ok s Hs Hl) as (l & -> & Hin & <-). ret.
  destruct (sc_steps_ok l iv64 _ Hin ltac:(vm_compute; reflexivity) eq_refl eq_refl ltac:(vm_compute; reflexivity)) as (l' & -> & E). ret. rewrite E. clear E.
  destruct (split_buffer 32 s ltac:(lia)) as (u & g & -> & Hu). rewrite blit_start by (unfold zlen; rewrite length_le_bytes; unfold zlen in Hu; lia).
  by rewrite padd_app by done.
Qed.

(** ** The product *)

Fixpoint dot_sum (a b : list Z) (k i n : nat) (x : Z) : Z :=
  match n with
  | O => x
  | S n' => dot_sum a b k (i + 1) n' (x + at_ a i * at_ b (k - i))
  end.

Definition product_sum (a b c : list Z) (k : nat) : Z :=
  if (k <? 12)%nat then dot_sum a b k 0 (k + 1) (at_ c k) else dot_sum a b k (k - 11) (23 - k) 0.

Section product.
Context (a b c : list Z).
Context (Ha : forall i, 0 <= at_ a i < 2 ^ 25) (Hb : forall i, 0 <= at_ b i < 2 ^ 25) (Hc : forall i, 0 <= at_ c i < 2 ^ 25).

Lemma dot_terms_ok k n : forall i x, 0 <= x -> x + Z.of_nat n * 2 ^ 50 <= 2 ^ 54 ->
  dot_terms a b k i n x = Ret (dot_sum a b k i n x) /\ 0 <= dot_sum a b k i n x <= x + Z.of_nat n * 2 ^ 50.
Proof.
  induction n as [|n IH]; intros i x Hx Hn; cbn [dot_terms dot_sum]; [split; [done|lia]|].
  assert (Hm : 0 <= at_ a i * at_ b (k - i) <= 2 ^ 50).
  { change (2 ^ 50) with (2 ^ 25 * 2 ^ 25). split; [apply Z.mul_nonneg_nonneg; [apply Ha|apply Hb]|].
    pose proof (Ha i). pose proof (Hb (k - i)). apply Z.mul_le_mono_nonneg; lia. }
  rewrite Nat2Z.inj_succ in *. rewrite (iv_fits_ok (0, 2 ^ 50)) by (done || exact Hm). ret.
  rewrite (iv_fits_ok (0, 2 ^ 54)) by (done || (unfold within_iv; cbn [fst snd]; lia)). ret.
  destruct (IH (i + 1)%nat (x + at_ a i * at_ b (k - i)%nat)) as [E B]; [lia|lia|]. split; [exact E|lia].
Qed.

Lemma product_limb_ok k : (k < 23)%nat -> product_limb a b c k = Ret (product_sum a b c k) /\ 0 <= product_sum a b c k <= 2 ^ 54.
Proof.
  intros Hk. unfold product_limb, product_sum. destruct (Nat.ltb_spec k 12).
  - pose proof (Hc k). destruct (dot_terms_ok k (k + 1) 0 (at_ c k)) as [E B]; [lia|lia|]. split; [exact E|lia].
  - destruct (dot_terms_ok k (23 - k) (k - 11) 0) as [E B]; [lia|lia|]. split; [exact E|lia].
Qed.

Lemma product_limbs_ok n : forall k, (k + n <= 23)%nat ->
  product_limbs a b c k n = Ret (map (product_sum a b c) (seq k n)) /\ inside (map (product_sum a b c) (seq k n)) (replicate n (0, 2 ^ 54)).
Proof.
  induction n as [|n IH]; intros k Hk; cbn [product_limbs seq map replicate]; [split; [done|constructor]|].
  destruct (product_limb_ok k ltac:(lia)) as [-> B]. ret. destruct (IH (k + 1)%nat ltac:(lia)) as [-> I]. ret. rewrite Nat.add_1_r in *. split; [done|].
  constructor; [exact B|exact I].
Qed.
End product.

Lemma product_val a b c : length a = 12%nat -> length b = 12%nat -> length c = 12%nat ->
  sval (map (product_sum a b c) (seq 0 23) ++ [0]) = sval a * sval b + sval c.
Proof.
  intros La Lb Lc. do 12 (destruct a as [|?a a]; [discriminate La|]). destruct a; [|discriminate La].
  do 12 (destruct b as [|?b b]; [discriminate Lb|]). destruct b; [|discriminate Lb].
  do 12 (destruct c as [|?c c]; [discriminate Lc|]). destruct c; [|discriminate Lc].
  cbn [seq map app]. unfold product_sum. cbn [Nat.ltb Nat.leb Nat.add Nat.sub dot_sum at_ nth]. unfold at_. cbn [nth sval]. ring.
Qed.

(** A load does not see what follows the scalar. *)
Lemma load_limb_app s r l : load_wf (zlen s) l = true -> load_limb (s ++ r) l = load_limb s l.
Proof.
  assert (E : forall off n, 0 <= off -> 0 <= n -> off + n <= zlen s -> rdn (padd (s ++ r) off) n = rdn (padd s off) n).
  { intros off n H1 H0 H2. assert (Ep : padd (s ++ r) off = padd s off ++ r) by (unfold padd; rewrite skipn_app; replace (Z.to_nat off - length s)%nat with 0%nat by (unfold zlen in H2; lia); done).
    rewrite !rdn_ok by (rewrite ?zlen_padd, ?zlen_app; pose proof (zlen_nonneg r); lia). f_equal. rewrite Ep. unfold ztake. rewrite take_app_le; [done|].
    pose proof (zlen_padd s off ltac:(lia)) as Hz. unfold zlen in *. lia. }
  destruct l as [off sh|off sh|off sh]; cbn [load_wf load_limb]; rewrite !andb_true_iff; intros W; unfold load_3, load_4; by rewrite E by lia.
Qed.

Lemma load_limbs_app s r l : forallb (load_wf (zlen s)) l = true -> load_limbs (s ++ r) l = load_limbs s l.
Proof. induction l as [|x l IH]; cbn [forallb load_limbs]; [done|]. intros [W1 W]%andb_prop. rewrite load_limb_app, IH by done. done. Qed.

Lemma inside32 l : inside l iv32 -> length l = 12%nat /\ forall i, 0 <= at_ l i < 2 ^ 25.
Proof.
  intros H. pose proof (Forall2_length H) as Hl. split; [exact Hl|]. change (length iv32) with 12%nat in Hl. intros i. destruct (Nat.lt_ge_cases i 12) as [Hi|Hi].
  - destruct (lookup_lt_is_Some_2 iv32 i Hi) as [b Eb]. pose proof (iv_at l iv32 i b H Eb) as Hb.
    assert (b.1 = 0 /\ b.2 < 2 ^ 25) as [E1 E2]; [|lia]. assert (F : Forall (fun b => b.1 = 0 /\ b.2 < 2 ^ 25) iv32) by (unfold iv32; repeat constructor). by apply (Forall_lookup_1 _ _ _ _ F Eb).
  - unfold at_. rewrite nth_overflow by lia. lia.
Qed.

Lemma sc_muladd_ok a b c ra rb rc : Forall byte_ok a -> Forall byte_ok b -> Forall byte_ok c -> zlen a = 32 -> zlen b = 32 -> zlen c = 32 ->
  sc_muladd (a ++ ra) (b ++ rb) (c ++ rc) = Ret (le_bytes 32 ((le_val a * le_val b + le_val c) mod order)).
Proof.
  intros Ba Bb Bc La Lb Lc. unfold sc_muladd. rewrite !load_limbs_app by (by rewrite ?La, ?Lb, ?Lc).
  destruct (limbs32_ok a Ba La) as (la & -> & Ia & <-). destruct (limbs32_ok b Bb Lb) as (lb & -> & Ib & <-). destruct (limbs32_ok c Bc Lc) as (lc & -> & Ic & <-). ret.
  destruct (inside32 la Ia) as [Na Ra]. destruct (inside32 lb Ib) as [Nb Rb]. destruct (inside32 lc Ic) as [Nc Rc].
  destruct (product_limbs_ok la lb lc Ra Rb Rc 23 0 ltac:(lia)) as [-> Ip]. ret. rewrite <- (product_val la lb lc Na Nb Nc).
  assert (Is : inside (map (product_sum la lb lc) (seq 0 23) ++ [0]) (replicate 23 (0, 2 ^ 54) ++ [(0, 0)])) by (apply Forall2_app; [exact Ip|repeat constructor; cbn; lia]).
  generalize dependent (map (product_sum la lb lc) (seq 0 23) ++ [0]). intros s Is. rewrite do_steps_app.
  destruct (do_carries_ok sc_mul_carries s _ _ eq_refl Is ltac:(vm_compute; reflexivity)) as (s1 & -> & I1 & <-). ret.
  destruct (sc_steps_ok s1 _ _ I1 ltac:(vm_compute; reflexivity) eq_refl eq_refl ltac:(vm_compute; reflexivity)) as (s2 & -> & E). ret. by rewrite E.
Qed.

(** C21: The scalar arithmetic of Ed25519 is exact.  [sc_reduce] replaces a
    512-bit number by its canonical residue modulo the order of the curve, in
    the first 32 bytes, and leaves the rest of the buffer; [sc_muladd] gives the
    canonical residue of [a * b + c] for any three 256-bit numbers, reduced or
    not; and none of the signed 64-bit operations in between overflows. *)
Theorem scalar_arithmetic_correct s a b c :
  Forall byte_ok s -> zlen s = 64 -> Forall byte_ok a -> Forall byte_ok b -> Forall byte_ok c -> zlen a = 32 -> zlen b = 32 -> zlen c = 32 ->
  sc_reduce s = Ret (le_bytes 32 (le_val s mod order) ++ padd s 32) /\
  sc_muladd a b c = Ret (le_bytes 32 ((le_val a * le_val b + le_val c) mod order)).
Proof.
  intros Hs Ls Ba Bb Bc La Lb Lc. split; [by apply sc_reduce_ok|]. rewrite <- (app_nil_r a) at 1. rewrite <- (app_nil_r b) at 1. rewrite <- (app_nil_r c) at 1.
  by apply sc_muladd_ok.
Qed.

Lemma scalar_arithmetic_correct_witness :
  sc_reduce (replicate 64 255) = Ret (le_bytes 32 (le_val (replicate 64 255) mod order) ++ replicate 32 255) /\
  sc_muladd (replicate 32 255) (replicate 32 254) (replicate 32 253) =
    Ret (le_bytes 32 ((le_val (replicate 32 255) * le_val (replicate 32 254) + le_val (replicate 32 253)) mod order)).
Proof.
  apply (scalar_arithmetic_correct (replicate 64 255) (replicate 32 255) (replicate 32 254) (replicate 32 253));
    first [reflexivity|apply bytes_okb_ok; reflexivity].
Defined.
