(* ===== verification/Ed25519.v ===== *)
(** * Ed25519

    The signatures of [userspace/crypto/ed25519.c] (RFC 8032): the group of the
    twisted Edwards curve in extended coordinates, point compression and
    decompression, key generation, signing and verification.  The field
    operations are those of [x25519.c], which [ed25519.c] repeats; the scalars
    are in [Scalar25519].  This file holds the model; [Ed25519Theorems] relates it
    to the standard. *)

From Stdlib Require Import ZArith Lia.
From stdpp Require Import list numbers option.
From S2P Require Import Prelude Util Words Chacha Sha256 Sha512 Field25519 X25519 Scalar25519.

(** ** More field operations *)

Definition fe_0 : fe := mk_fe 0 0 0 0 0.
Definition fe_1 : fe := mk_fe 1 0 0 0 0.

Definition fe_neg (a : fe) : fe := fe_sub fe_0 a.

Definition fe_pow22523 (z : fe) : fe :=
  let t0 := fe_sq z in
  let t1 := fe_sq t0 in
  let t1 := fe_sq t1 in
  let t1 := fe_mul z t1 in
  let t0 := fe_mul t0 t1 in
  let t0 := fe_sq t0 in
  let t0 := fe_mul t1 t0 in
  let t1 := fe_sqn 4 (fe_sq t0) in
  let t0 := fe_mul t1 t0 in
  let t1 := fe_sqn 9 (fe_sq t0) in
  let t1 := fe_mul t1 t0 in
  let t2 := fe_sqn 19 (fe_sq t1) in
  let t1 := fe_mul t2 t1 in
  let t1 := fe_sqn 9 (fe_sq t1) in
  let t0 := fe_mul t1 t0 in
  let t1 := fe_sqn 49 (fe_sq t0) in
  let t1 := fe_mul t1 t0 in
  let t2 := fe_sqn 99 (fe_sq t1) in
  let t1 := fe_mul t2 t1 in
  let t1 := fe_sqn 49 (fe_sq t1) in
  let t0 := fe_mul t1 t0 in
  let t0 := fe_sq t0 in
  let t0 := fe_sq t0 in
  fe_mul t0 z.

Definition fe_isnegative (a : fe) : Z := Z.land (at_ (fe_to_bytes a) 0) 1.
Definition fe_iszero (a : fe) : bool := foldl (fun r b => u8 (Z.lor r b)) 0 (fe_to_bytes a) =? 0.

(** ** The group *)

Record ge_p3 := mk_ge { gX : fe; gY : fe; gZ : fe; gT : fe }.
Record ge_cached := mk_cached { YplusX : fe; YminusX : fe; T2d : fe; Z2 : fe }.

Definition TWO_D_BYTES : list Z :=
  [0x59;0xf1;0xb2;0x26;0x94;0x9b;0xd6;0xeb;0x56;0xb1;0x83;0x82;0x9a;0x14;0xe0;0x00;
   0x30;0xd1;0xf3;0xee;0xf2;0x80;0x8e;0x19;0xe7;0xfc;0xdf;0x56;0xdc;0xd9;0x06;0x24].
Definition D_BYTES : list Z :=
  [0xa3;0x78;0x59;0x13;0xca;0x4d;0xeb;0x75;0xab;0xd8;0x41;0x41;0x4d;0x0a;0x70;0x00;
   0x98;0xe8;0x79;0x77;0x79;0x40;0xc7;0x8c;0x73;0xfe;0x6f;0x2b;0xee;0x6c;0x03;0x52].
Definition SQRTM1_BYTES : list Z :=
  [0xb0;0xa0;0x0e;0x4a;0x27;0x1b;0xee;0xc4;0x78;0xe4;0x2f;0xad;0x06;0x18;0x43;0x2f;
   0xa7;0xd7;0xfb;0x3d;0x99;0x00;0x4d;0x2b;0x0b;0xdf;0xc1;0x4f;0x80;0x24;0x83;0x2b].
Definition B_BYTES : list Z := 0x58 :: replicate 31 0x66.
Definition P_BYTES : list Z := 0xed :: replicate 30 0xff ++ [0x7f].
Definition L_BYTES : list Z :=
  [0xed;0xd3;0xf5;0x5c;0x1a;0x63;0x12;0x58;0xd6;0x9c;0xf7;0xa2;0xde;0xf9;0xde;0x14;
   0x00;0x00;0x00;0x00;0x00;0x00;0x00;0x00;0x00;0x00;0x00;0x00;0x00;0x00;0x00;0x10].

Definition load_2d : res fe := fe_from_bytes TWO_D_BYTES.
Definition load_d : res fe := fe_from_bytes D_BYTES.
Definition load_sqrtm1 : res fe := fe_from_bytes SQRTM1_BYTES.

Definition ge_p3_0 : ge_p3 := mk_ge fe_0 fe_1 fe_1 fe_0.

Definition ge_p3_to_cached (p : ge_p3) : res ge_cached :=
  let! d2 := load_2d in
  Ret (mk_cached (fe_add (gY p) (gX p)) (fe_sub (gY p) (gX p)) (fe_mul (gT p) d2) (fe_add (gZ p) (gZ p))).

Definition ge_dbl (p : ge_p3) : ge_p3 :=
  let A := fe_sq (gX p) in
  let B := fe_sq (gY p) in
  let C := fe_sq (gZ p) in
  let C := fe_add C C in
  let C := fe_carry C in
  let D := fe_neg A in
  let D := fe_carry D in
  let t := fe_add (gX p) (gY p) in
  let E := fe_sq t in
  let E := fe_sub E A in
  let E := fe_sub E B in
  let G := fe_add D B in
  let G := fe_carry G in
  let F := fe_sub G C in
  let H := fe_sub D B in
  mk_ge (fe_mul E F) (fe_mul G H) (fe_mul F G) (fe_mul E H).

Definition ge_add (p : ge_p3) (q : ge_cached) : ge_p3 :=
  let t := fe_sub (gY p) (gX p) in
  let A := fe_mul t (YminusX q) in
  let t := fe_add (gY p) (gX p) in
  let B := fe_mul t (YplusX q) in
  let C := fe_mul (gT p) (T2d q) in
  let D := fe_mul (gZ p) (Z2 q) in
  let E := fe_sub B A in
  let F := fe_sub D C in
  let G := fe_add D C in
  let H := fe_add B A in
  mk_ge (fe_mul E F) (fe_mul G H) (fe_mul F G) (fe_mul E H).

Definition ge_sub (p : ge_p3) (q : ge_cached) : ge_p3 :=
  let t := fe_sub (gY p) (gX p) in
  let A := fe_mul t (YplusX q) in
  let t := fe_add (gY p) (gX p) in
  let B := fe_mul t (YminusX q) in
  let t := fe_neg (T2d q) in
  let t := fe_carry t in
  let C := fe_mul (gT p) t in
  let D := fe_mul (gZ p) (Z2 q) in
  let E := fe_sub B A in
  let F := fe_sub D C in
  let G := fe_add D C in
  let H := fe_add B A in
  mk_ge (fe_mul E F) (fe_mul G H) (fe_mul F G) (fe_mul E H).

Definition ge_p3_tobytes (h : ge_p3) : list Z :=
  let Zinv := fe_invert (gZ h) in
  let x := fe_mul (gX h) Zinv in
  let y := fe_mul (gY h) Zinv in
  let out := fe_to_bytes y in
  <[31%nat := u8 (Z.lxor (at_ out 31) (Z.shiftl (fe_isnegative x) 7))]> out.

(** [for (i = n - 1; i >= 0; i--)]: [false] is the [return -1]. *)
Fixpoint canonical_y (y : list Z) (n : nat) : bool :=
  match n with
  | O => true
  | S i =>
      if at_ y i <? at_ P_BYTES i then true
      else if at_ P_BYTES i <? at_ y i then false
      else if (i =? 0)%nat then false
      else canonical_y y i
  end.

(** The sign of [x], once [x] is a root. *)
Definition set_sign (x : fe) (sign : Z) : res fe :=
  if negb (fe_isnegative x =? sign) then
    if fe_iszero x then Fail else Ret (fe_carry (fe_neg x))
  else Ret x.

(** The candidate [x] for the root of [u / v], and [v x^2]. *)
Definition root_try (u v : fe) : fe * fe :=
  let v3 := fe_sq v in
  let v3 := fe_mul v3 v in
  let v_pow7 := fe_sq v3 in
  let v_pow7 := fe_mul v_pow7 v in
  let uv7 := fe_mul v_pow7 u in
  let t := fe_pow22523 uv7 in
  let x := fe_mul v3 t in
  let x := fe_mul x u in
  let vxx := fe_sq x in
  let vxx := fe_mul vxx v in
  (x, vxx).

(** The root of [u / v], or [Fail]. *)
Definition root_ratio (u v : fe) : res fe :=
  let '(x, vxx) := root_try u v in
  let check := fe_sub vxx u in
  if negb (fe_iszero check) then
    let! sqrtm1 := load_sqrtm1 in
    let check := fe_add vxx u in
    if negb (fe_iszero check) then Fail else Ret (fe_mul x sqrtm1)
  else Ret x.

(** [Fail] is the return value -1. *)
Definition ge_p3_frombytes_vartime (s : list Z) : res ge_p3 :=
  let! y_bytes := rdn s 32 in
  let sign := Z.land (Z.shiftr (at_ y_bytes 31) 7) 1 in
  let y_bytes := <[31%nat := Z.land (at_ y_bytes 31) 0x7f]> y_bytes in
  if negb (canonical_y y_bytes 32) then Fail
  else
    let! y := fe_from_bytes y_bytes in
    let! d := load_d in
    let u := fe_sq y in
    let v := fe_mul u d in
    let u := fe_sub u fe_1 in
    let v := fe_add v fe_1 in
    let! x := root_ratio u v in
    let! x := set_sign x sign in
    Ret (mk_ge x y fe_1 (fe_mul x y)).

(** The loop from bit [n - 1] down; [None] is [!started]. *)
Fixpoint scalarmult_loop (scalar : list Z) (p : ge_p3) (p_cached : ge_cached) (n : nat) (acc : option ge_p3) : option ge_p3 :=
  match n with
  | O => acc
  | S i =>
      let acc := match acc with Some acc => Some (ge_dbl acc) | None => None end in
      let bit := Z.land (Z.shiftr (at_ scalar (i / 8)%nat) (Z.land (Z.of_nat i) 7)) 1 in
      let acc :=
        if bit =? 0 then acc
        else match acc with None => Some p | Some acc => Some (ge_add acc p_cached) end in
      scalarmult_loop scalar p p_cached i acc
  end.

Definition ge_scalarmult_vartime (scalar : list Z) (p : ge_p3) : res ge_p3 :=
  let! p_cached := ge_p3_to_cached p in
  let! scalar := rdn scalar 32 in
  match scalarmult_loop scalar p p_cached 256 None with
  | None => Ret ge_p3_0
  | Some acc => Ret acc
  end.

(** [if (call != 0) return d;] and the rest on success. *)
Definition or_return {A B} (m : res A) (d : B) (k : A -> res B) : res B :=
  match m with Ret a => k a | Fail => Ret d | Oob => Oob end.

Definition ge_double_scalarmult_vartime (a : list Z) (A : ge_p3) (b : list Z) : res ge_p3 :=
  or_return (ge_p3_frombytes_vartime B_BYTES) ge_p3_0 (fun B =>
  let! aA := ge_scalarmult_vartime a A in
  let! bB := ge_scalarmult_vartime b B in
  let! bB_cached := ge_p3_to_cached bB in
  Ret (ge_add aA bB_cached)).

(** ** Comparisons *)

(** [ct_memcmp32(a, b)], 0 when equal. *)
Definition ct_memcmp32 (a b : list Z) : res Z :=
  let! a := rdn a 32 in
  let! b := rdn b 32 in
  Ret (foldl (fun r x => u8 (Z.lor r x)) 0 (zip_with (fun x y => u8 (Z.lxor x y)) a b)).

(** From byte [n - 1] down; [true] is the return value 0. *)
Fixpoint sc_canonical_loop (s : list Z) (n : nat) : bool :=
  match n with
  | O => false
  | S i =>
      if at_ s i <? at_ L_BYTES i then true
      else if at_ L_BYTES i <? at_ s i then false
      else sc_canonical_loop s i
  end.

Definition sc_check_canonical (s : list Z) : res bool := let! s := rdn s 32 in Ret (sc_canonical_loop s 32).

(** ** Keys and signatures

    [hs] is the memory of the local hash contexts. *)

Definition ed25519_pubkey_from_seed (hs : sha512_ctx) (seed : list Z) : res (list Z) :=
  let! h := sha512 hs seed 32 in
  let h := clamp h in
  let! B := ge_p3_frombytes_vartime B_BYTES in
  let! A := ge_scalarmult_vartime h B in
  Ret (ge_p3_tobytes A).

(** [sc_reduce(SHA-512 of the concatenation)], the pieces taken in one by one. *)
Fixpoint hash_pieces (c : sha512_ctx) (l : list (list Z * Z)) : res sha512_ctx :=
  match l with
  | [] => Ret c
  | (p, len) :: l => let! c := sha512_update c p len in hash_pieces c l
  end.

Definition ed25519_sign (hs : sha512_ctx) (msg : list Z) (msg_len : Z) (seed pk : list Z) : res (list Z) :=
  let! h := sha512 hs seed 32 in
  let h := clamp h in
  let! a_scalar := rdn h 32 in
  let! hs := hash_pieces (sha512_init hs) [(padd h 32, 32); (msg, msg_len)] in
  let! (r_full, hs) := sha512_final hs in
  let! r_full := sc_reduce r_full in
  let! B := ge_p3_frombytes_vartime B_BYTES in
  let! R := ge_scalarmult_vartime r_full B in
  let sig := ge_p3_tobytes R in
  let! hs := hash_pieces (sha512_init hs) [(sig, 32); (pk, 32); (msg, msg_len)] in
  let! (k_full, _) := sha512_final hs in
  let! k_full := sc_reduce k_full in
  let! s_bytes := sc_muladd k_full a_scalar r_full in
  Ret (sig ++ s_bytes).

(** The return value: 1 or 0. *)
Definition ed25519_verify (hs : sha512_ctx) (sig msg : list Z) (msg_len : Z) (pk : list Z) : res Z :=
  let! ok := sc_check_canonical (padd sig 32) in
  if negb ok then Ret 0
  else
    or_return (ge_p3_frombytes_vartime pk) 0 (fun A =>
    let A := mk_ge (fe_carry (fe_neg (gX A))) (gY A) (gZ A) (fe_carry (fe_neg (gT A))) in
    or_return (ge_p3_frombytes_vartime sig) 0 (fun _ =>
    let! hs := hash_pieces (sha512_init hs) [(sig, 32); (pk, 32); (msg, msg_len)] in
    let! (k_full, _) := sha512_final hs in
    let! k_full := sc_reduce k_full in
    let! P := ge_double_scalarmult_vartime k_full A (padd sig 32) in
    let P_bytes := ge_p3_tobytes P in
    let! d := ct_memcmp32 P_bytes sig in
    Ret (if d =? 0 then 1 else 0))).
