(* ===== verification/Ed25519Theorems.v ===== *)
(** * Ed25519: refinement of RFC 8032

    The standard over the integers modulo [2^255 - 19] and modulo the order of
    the curve, and the proof that the limb code of [Ed25519] computes it. *)

From Stdlib Require Import ZArith Lia.
From stdpp Require Import list numbers option.
From S2P Require Import Prelude Util Words Aead Sha256 Sha512 Field25519 X25519 Scalar25519 Ed25519.

(** ** The curve of RFC 8032 *)

(** [d = -121665/121666] and a square root of -1. *)
Definition ed_d : Z := 37095705934669439343138083508754565189542113879843219016388785533085940283555.
Definition ed_sqrtm1 : Z := 19681161376707505956807079304988542015446066515923890162744021073123829784752.

Lemma curve_constants : fmul ed_d 121666 = fsub 0 121665 /\ fmul ed_sqrtm1 ed_sqrtm1 = fsub 0 1.
Proof. split; vm_compute; reflexivity. Qed.

(** Extended coordinates [(X, Y, Z, T)]. *)
Record ext := mk_ext { eX : Z; eY : Z; eZ : Z; eT : Z }.

Definition ed_zero : ext := mk_ext 0 1 1 0.

(** RFC 8032, section 5.1.4. *)
Definition ed_add (P Q : ext) : ext :=
  let A := fmul (fsub (eY P) (eX P)) (fsub (eY Q) (eX Q)) in
  let B := fmul (fadd (eY P) (eX P)) (fadd (eY Q) (eX Q)) in
  let C := fmul (fmul (fmul (eT P) 2) ed_d) (eT Q) in
  let D := fmul (fmul (eZ P) 2) (eZ Q) in
  let E := fsub B A in
  let F := fsub D C in
  let G := fadd D C in
  let H := fadd B A in
  mk_ext (fmul E F) (fmul G H) (fmul F G) (fmul E H).

Definition ed_double (P : ext) : ext :=
  let A := fmul (eX P) (eX P) in
  let B := fmul (eY P) (eY P) in
  let C := fmul 2 (fmul (eZ P) (eZ P)) in
  let H := fadd A B in
  let E := fsub H (fmul (fadd (eX P) (eY P)) (fadd (eX P) (eY P))) in
  let G := fsub A B in
  let F := fadd C G in
  mk_ext (fmul E F) (fmul G H) (fmul F G) (fmul E H).

(** [k P], by the binary digits of [k]. *)
Fixpoint ed_pos (k : positive) (P : ext) : ext :=
  match k with
  | xH => P
  | xO k => ed_double (ed_pos k P)
  | xI k => ed_add (ed_double (ed_pos k P)) P
  end.

Definition ed_mul (k : Z) (P : ext) : ext := match k with Zpos k => ed_pos k P | _ => ed_zero end.

Definition ed_neg (P : ext) : ext := mk_ext (fsub 0 (eX P)) (eY P) (eZ P) (fsub 0 (eT P)).

(** RFC 8032, section 5.1.2: the coordinate [y], and the low bit of [x] on top. *)
Definition ed_encode (P : ext) : list Z :=
  let x := fmul (eX P) (finv (eZ P)) in
  let y := fmul (eY P) (finv (eZ P)) in
  le_bytes 32 (y + 2 ^ 255 * (x mod 2)).

(** The base point of RFC 8032. *)
Definition base_x : Z := 15112221349535400772501151409588531511454012693041857206046113283949847762202.
Definition base_y : Z := 46316835694926478169428394003475163141307993866256225615783033603165251855960.
Definition ed_base : ext := mk_ext base_x base_y 1 (fmul base_x base_y).

(** RFC 8032, section 5.1.3: the candidate [u v^3 (u v^7)^((p-5)/8)] for the root
    of [u / v], and the decoding of a point. *)
Definition fpow58 (x : Z) : Z := Zpow_facts.Zpow_mod x ((p25519 - 5) / 8) p25519.
Definition ed_root (u v : Z) : Z := fmul (fmul u (v ^ 3)) (fpow58 (u * v ^ 7)).

Definition ed_decode (s : list Z) : option ext :=
  let sign := le_val s / 2 ^ 255 in
  let y := le_val s mod 2 ^ 255 in
  if p25519 <=? y then None
  else
    let u := fsub (fmul y y) 1 in
    let v := fadd (fmul ed_d (fmul y y)) 1 in
    let x := ed_root u v in
    let vxx := fmul v (fmul x x) in
    x ← (if vxx =? u then Some x else if vxx =? fsub 0 u then Some (fmul x ed_sqrtm1) else None);
    if (x =? 0) && (sign =? 1) then None
    else let x := if x mod 2 =? sign then x else p25519 - x in Some (mk_ext x y 1 (fmul x y)).

(** ** Keys and signatures, section 5.1.5 and 5.1.6 *)

Definition secret_scalar (seed : list Z) : Z := decode_scalar (le_val (take 32 (sha512_hash seed))).
Definition secret_prefix (seed : list Z) : list Z := drop 32 (sha512_hash seed).

(** A hash as a scalar. *)
Definition hash_scalar (m : list Z) : Z := le_val (sha512_hash m) mod order.

Definition rfc8032_pubkey (seed : list Z) : list Z := ed_encode (ed_mul (secret_scalar seed) ed_base).

Definition rfc8032_sign (msg seed pk : list Z) : list Z :=
  let r := hash_scalar (secret_prefix seed ++ msg) in
  let R := ed_encode (ed_mul r ed_base) in
  let k := hash_scalar (R ++ pk ++ msg) in
  R ++ le_bytes 32 ((k * secret_scalar seed + r) mod order).

(** Section 5.1.7, with the equation [S B - k A = R] checked on the encodings. *)
Definition rfc8032_verify (sig msg pk : list Z) : bool :=
  let Rb := take 32 sig in
  let s := le_val (drop 32 sig) in
  (s <? order) &&
  match ed_decode pk, ed_decode Rb with
  | Some A, Some _ => bool_decide (ed_encode (ed_add (ed_mul (hash_scalar (Rb ++ pk ++ msg)) (ed_neg A)) (ed_mul s ed_base)) = Rb)
  | _, _ => false
  end.

(** * The field, continued *)

Lemma repr_carry j a va : repr j a va -> j <= 2 ^ 63 -> repr B51 (fe_carry a) va.
Proof.
  intros [Ba <-] Hj. destruct (fe_carry_ok a) as [T V]; [by apply (below_mono j)|]. split; [by apply tight_below|done].
Qed.

Lemma repr_0 : repr B51 fe_0 0.
Proof. split; [unfold below, within, fe_0, B51; cbn; lia|reflexivity]. Qed.

Lemma repr_1 : repr B51 fe_1 1.
Proof. split; [unfold below, within, fe_1, B51; cbn; lia|reflexivity]. Qed.

Lemma repr_neg j a va : repr j a va -> j <= 2 ^ 52 - 38 -> repr (B51 + 2 ^ 52) (fe_neg a) (fsub 0 va).
Proof. intros Ha Hj. unfold fe_neg. eapply repr_sub; [apply repr_0|exact Ha|done|unfold B51; lia]. Qed.

Lemma repr_range j a va : repr j a va -> 0 <= va < p25519.
Proof. intros [_ <-]. apply fval_range. Qed.

Lemma at_le_bytes_0 v : 0 <= v -> Z.land (at_ (le_bytes 32 v) 0) 1 = v mod 2.
Proof. intros Hv. change (at_ (le_bytes 32 v) 0) with (v mod 256). change 1 with (Z.ones 1). rewrite land_ones_mod by lia. dlia. Qed.

Lemma repr_isnegative j a va : repr j a va -> j <= 2 ^ 63 -> fe_isnegative a = va mod 2.
Proof. intros H Hj. unfold fe_isnegative. rewrite (repr_bytes _ _ _ H Hj). apply at_le_bytes_0. apply repr_range in H. lia. Qed.

Lemma or_bytes_zero l r : Forall byte_ok l -> byte_ok r -> foldl (fun r b => u8 (Z.lor r b)) r l = 0 <-> r = 0 /\ le_val l = 0.
Proof.
  intros H. revert r. induction H as [|b l Hb Hl IH]; intros r Hr; cbn [foldl le_val]; [tauto|].
  assert (Hor : u8 (Z.lor r b) = Z.lor r b).
  { unfold u8. rewrite <- (land_ones_mod _ 8), Z.land_lor_distr_l, !land_ones_mod by lia. unfold byte_ok in *. by rewrite !Z.mod_small by lia. }
  rewrite IH by apply u8_byte. rewrite Hor, Z.lor_eq_0_iff. pose proof (le_val_bound l Hl). unfold byte_ok in *. lia.
Qed.

Lemma repr_iszero j a va : repr j a va -> j <= 2 ^ 63 -> fe_iszero a = (va =? 0).
Proof.
  intros H Hj. unfold fe_iszero. rewrite (repr_bytes _ _ _ H Hj). apply repr_range in H. apply eq_true_iff_eq. rewrite !Z.eqb_eq.
  rewrite or_bytes_zero by (apply le_bytes_ok || (unfold byte_ok; lia)). rewrite le_val_bytes, Z.mod_small; [tauto|]. change (256 ^ Z.of_nat 32) with (2 ^ 256). unfold p25519 in H. lia.
Qed.

(** * The group *)

(** Congruence modulo the prime. *)
Definition eqp (a b : Z) : Prop := a mod p25519 = b mod p25519.

#[local] Instance eqp_equiv : Equivalence eqp.
Proof. split; unfold eqp; repeat intro; congruence. Qed.

#[local] Instance eqp_add : Proper (eqp ==> eqp ==> eqp) Z.add.
Proof. intros a b E c d E'. unfold eqp in *. by rewrite Zplus_mod, E, E', <- Zplus_mod. Qed.

#[local] Instance eqp_sub : Proper (eqp ==> eqp ==> eqp) Z.sub.
Proof. intros a b E c d E'. unfold eqp in *. by rewrite Zminus_mod, E, E', <- Zminus_mod. Qed.

#[local] Instance eqp_mul : Proper (eqp ==> eqp ==> eqp) Z.mul.
Proof. intros a b E c d E'. unfold eqp in *. by rewrite Zmult_mod, E, E', <- Zmult_mod. Qed.

Lemma eqp_fadd a b : eqp (fadd a b) (a + b).
Proof. apply Zmod_mod. Qed.

Lemma eqp_fsub a b : eqp (fsub a b) (a - b).
Proof. apply Zmod_mod. Qed.

Lemma eqp_fmul a b : eqp (fmul a b) (a * b).
Proof. apply Zmod_mod. Qed.

#[local] Instance fadd_proper : Proper (eqp ==> eqp ==> eqp) fadd.
Proof. intros a b E c d E'. by rewrite !eqp_fadd, E, E'. Qed.

#[local] Instance fsub_proper : Proper (eqp ==> eqp ==> eqp) fsub.
Proof. intros a b E c d E'. by rewrite !eqp_fsub, E, E'. Qed.

#[local] Instance fmul_proper : Proper (eqp ==> eqp ==> eqp) fmul.
Proof. intros a b E c d E'. by rewrite !eqp_fmul, E, E'. Qed.

(** Equalities between products: as polynomials, modulo the prime. *)
Ltac fring :=
  match goal with |- fmul ?a ?b = fmul ?c ?d => change (eqp (a * b) (c * d)) end;
  rewrite ?eqp_fmul, ?eqp_fadd, ?eqp_fsub; unfold eqp; f_equal; ring.

Record repr_ge (g : ge_p3) (P : ext) : Prop := {
  rg_X : repr B51 (gX g) (eX P); rg_Y : repr B51 (gY g) (eY P); rg_Z : repr B51 (gZ g) (eZ P); rg_T : repr B51 (gT g) (eT P) }.

Lemma repr_val j a va vb : repr j a va -> va = vb -> repr j a vb.
Proof. by intros H <-. Qed.

Lemma two_d_ok : exists d2, load_2d = Ret d2 /\ repr B51 d2 (fmul 2 ed_d).
Proof.
  destruct (fe_from_bytes_ok TWO_D_BYTES [] eq_refl ltac:(apply bytes_okb_ok; reflexivity)) as (x & E & B & V). exists x. split; [exact E|].
  split; [eapply below_mono; [exact B|unfold B51; lia]|]. unfold fval. rewrite V. vm_compute. reflexivity.
Qed.

Lemma ge_dbl_ok g P : repr_ge g P -> repr_ge (ge_dbl g) (ed_double P).
Proof.
  intros [HX HY HZ HT]. assert (K : B51 <= 2 ^ 52 - 38) by (unfold B51; lia).
  pose proof (repr_sq _ _ _ HX ltac:(lia)) as HA. pose proof (repr_sq _ _ _ HY ltac:(lia)) as HB. pose proof (repr_sq _ _ _ HZ ltac:(lia)) as HC0.
  pose proof (repr_carry _ _ _ (repr_add _ _ _ _ _ _ HC0 HC0 ltac:(lia)) ltac:(lia)) as HC.
  pose proof (repr_carry _ _ _ (repr_neg _ _ _ HA ltac:(lia)) ltac:(lia)) as HD.
  pose proof (repr_sq _ _ _ (repr_add _ _ _ _ _ _ HX HY ltac:(lia)) ltac:(lia)) as HE0.
  pose proof (repr_sub _ _ _ _ _ _ (repr_sub _ _ _ _ _ _ HE0 HA ltac:(lia) ltac:(lia)) HB ltac:(lia) ltac:(lia)) as HE.
  pose proof (repr_carry _ _ _ (repr_add _ _ _ _ _ _ HD HB ltac:(lia)) ltac:(lia)) as HG.
  pose proof (repr_sub _ _ _ _ _ _ HG HC ltac:(lia) ltac:(lia)) as HF. pose proof (repr_sub _ _ _ _ _ _ HD HB ltac:(lia) ltac:(lia)) as HH.
  unfold ge_dbl, ed_double. split; cbn [gX gY gZ gT eX eY eZ eT]; (eapply repr_val; [eapply repr_mul; [eassumption|eassumption|lia|lia]|fring]).
Qed.

Record repr_cached (c : ge_cached) (P : ext) : Prop := {
  rc_p : repr (B51 + B51) (YplusX c) (fadd (eY P) (eX P)); rc_m : repr (B51 + 2 ^ 52) (YminusX c) (fsub (eY P) (eX P));
  rc_t : repr B51 (T2d c) (fmul (eT P) (fmul 2 ed_d)); rc_z : repr (B51 + B51) (Z2 c) (fadd (eZ P) (eZ P)) }.

Lemma ge_p3_to_cached_ok g P : repr_ge g P -> exists c, ge_p3_to_cached g = Ret c /\ repr_cached c P.
Proof.
  intros [HX HY HZ HT]. assert (K : B51 <= 2 ^ 52 - 38) by (unfold B51; lia). destruct two_d_ok as (d2 & E2 & H2). unfold ge_p3_to_cached. rewrite E2. ret.
  eexists. split; [reflexivity|]. split; cbn [YplusX YminusX T2d Z2].
  - apply repr_add; [done|done|lia].
  - eapply repr_sub; [done|done|lia|lia].
  - eapply repr_mul; [done|done|lia|lia].
  - apply repr_add; [done|done|lia].
Qed.

Lemma ge_add_ok g c P Q : repr_ge g P -> repr_cached c Q -> repr_ge (ge_add g c) (ed_add P Q).
Proof.
  intros [HX HY HZ HT] [Cp Cm Ct Cz]. assert (K : B51 <= 2 ^ 52 - 38) by (unfold B51; lia).
  pose proof (repr_mul _ _ _ _ _ _ (repr_sub _ _ _ _ _ _ HY HX ltac:(lia) ltac:(lia)) Cm ltac:(lia) ltac:(lia)) as HA.
  pose proof (repr_mul _ _ _ _ _ _ (repr_add _ _ _ _ _ _ HY HX ltac:(lia)) Cp ltac:(lia) ltac:(lia)) as HB.
  pose proof (repr_mul _ _ _ _ _ _ HT Ct ltac:(lia) ltac:(lia)) as HC. pose proof (repr_mul _ _ _ _ _ _ HZ Cz ltac:(lia) ltac:(lia)) as HD.
  pose proof (repr_sub _ _ _ _ _ _ HB HA ltac:(lia) ltac:(lia)) as HE. pose proof (repr_sub _ _ _ _ _ _ HD HC ltac:(lia) ltac:(lia)) as HF.
  pose proof (repr_add _ _ _ _ _ _ HD HC ltac:(lia)) as HG. pose proof (repr_add _ _ _ _ _ _ HB HA ltac:(lia)) as HH.
  unfold ge_add, ed_add. split; cbn [gX gY gZ gT eX eY eZ eT]; (eapply repr_val; [eapply repr_mul; [eassumption|eassumption|lia|lia]|fring]).
Qed.

(** The subtraction, which no function uses. *)
Lemma ge_sub_ok g c P Q : repr_ge g P -> repr_cached c Q -> repr_ge (ge_sub g c) (ed_add P (ed_neg Q)).
Proof.
  intros [HX HY HZ HT] [Cp Cm Ct Cz]. assert (K : B51 <= 2 ^ 52 - 38) by (unfold B51; lia).
  pose proof (repr_mul _ _ _ _ _ _ (repr_sub _ _ _ _ _ _ HY HX ltac:(lia) ltac:(lia)) Cp ltac:(lia) ltac:(lia)) as HA.
  pose proof (repr_mul _ _ _ _ _ _ (repr_add _ _ _ _ _ _ HY HX ltac:(lia)) Cm ltac:(lia) ltac:(lia)) as HB.
  pose proof (repr_mul _ _ _ _ _ _ HT (repr_carry _ _ _ (repr_neg _ _ _ Ct ltac:(lia)) ltac:(lia)) ltac:(lia) ltac:(lia)) as HC.
  pose proof (repr_mul _ _ _ _ _ _ HZ Cz ltac:(lia) ltac:(lia)) as HD.
  pose proof (repr_sub _ _ _ _ _ _ HB HA ltac:(lia) ltac:(lia)) as HE. pose proof (repr_sub _ _ _ _ _ _ HD HC ltac:(lia) ltac:(lia)) as HF.
  pose proof (repr_add _ _ _ _ _ _ HD HC ltac:(lia)) as HG. pose proof (repr_add _ _ _ _ _ _ HB HA ltac:(lia)) as HH.
  unfold ge_sub, ed_add, ed_neg. split; cbn [gX gY gZ gT eX eY eZ eT]; (eapply repr_val; [eapply repr_mul; [eassumption|eassumption|lia|lia]|fring]).
Qed.

(** ** Scalar multiplication *)

Lemma ge_p3_0_ok : repr_ge ge_p3_0 ed_zero.
Proof. split; (apply repr_0 || apply repr_1). Qed.

(** What the accumulator stands for when the bits read so far are [m]. *)
Definition acc_ok (P : ext) (m : Z) (acc : option ge_p3) : Prop :=
  match acc with None => m = 0 | Some g => 0 < m /\ repr_ge g (ed_mul m P) end.

#[local] Opaque ge_dbl ge_add ed_add ed_double.

Lemma scalarmult_loop_ok scalar g c P : Forall byte_ok scalar -> repr_ge g P -> repr_cached c P -> forall n acc m, (n <= 8 * length scalar)%nat -> 0 <= m ->
  m = le_val scalar / 2 ^ Z.of_nat n -> acc_ok P m acc -> acc_ok P (le_val scalar) (scalarmult_loop scalar g c n acc).
Proof.
  intros Hs Hg Hc. induction n as [|i IH]; intros acc m Hn Hm0 Hm Ha; cbn [scalarmult_loop].
  { change (2 ^ Z.of_nat 0) with 1 in Hm. rewrite Z.div_1_r in Hm. by subst m. }
  rewrite scalar_bit by (done || lia). set (b := Z.testbit (le_val scalar) (Z.of_nat i)).
  assert (Hv : le_val scalar / 2 ^ Z.of_nat i = 2 * m + Z.b2z b).
  { subst m b. rewrite Z.testbit_spec' by lia. replace (2 ^ Z.of_nat (S i)) with (2 ^ Z.of_nat i * 2) by (rewrite Nat2Z.inj_succ, Z.pow_succ_r by lia; lia).
    rewrite <- Z.div_div by lia. generalize (le_val scalar / 2 ^ Z.of_nat i). intros w. dlia. }
  apply (IH _ (2 * m + Z.b2z b)); [lia|destruct b; cbn; lia|done|]. clear Hv Hm. unfold acc_ok in *. destruct acc as [a|].
  - destruct Ha as [Hp Ha]. destruct m as [|q|]; [lia| |lia]. destruct b; cbn [Z.b2z Z.eqb].
    + split; [lia|]. change (2 * Z.pos q + 1) with (Z.pos (xI q)). cbn [ed_mul ed_pos]. apply ge_add_ok; [by apply ge_dbl_ok|done].
    + split; [lia|]. change (2 * Z.pos q + 0) with (Z.pos (xO q)). cbn [ed_mul ed_pos]. by apply ge_dbl_ok.
  - subst m. destruct b; cbn [Z.b2z Z.eqb]; [split; [lia|exact Hg]|lia].
Qed.

Lemma ge_scalarmult_ok s rest g P : Forall byte_ok s -> length s = 32%nat -> repr_ge g P ->
  exists r, ge_scalarmult_vartime (s ++ rest) g = Ret r /\ repr_ge r (ed_mul (le_val s) P).
Proof.
  intros Hs Hl Hg. unfold ge_scalarmult_vartime. destruct (ge_p3_to_cached_ok g P Hg) as (c & -> & Hc). ret. rewrite rdn_app by (unfold zlen; lia). ret.
  pose proof (scalarmult_loop_ok s g c P Hs Hg Hc 256 None 0 ltac:(lia) ltac:(lia)) as H.
  destruct (scalarmult_loop s g c 256 None) as [r|]; cbn [acc_ok] in H.
  - exists r. split; [done|]. apply H; [|done]. symmetry. apply Z.div_small. pose proof (le_val_bound s Hs) as B. unfold zlen in B. rewrite Hl in B. exact B.
  - exists ge_p3_0. split; [done|]. rewrite H; [apply ge_p3_0_ok| |done].
    symmetry. apply Z.div_small. pose proof (le_val_bound s Hs) as B. unfold zlen in B. rewrite Hl in B. exact B.
Qed.

#[local] Transparent ge_dbl ge_add ed_add ed_double.

(** ** Compression *)

Lemma le_bytes_snoc n v : le_bytes (S n) v = le_bytes n v ++ [(v / 256 ^ Z.of_nat n) mod 256].
Proof.
  revert v. induction n as [|n IH]; intros v; [cbn; by rewrite Z.div_1_r|]. change (le_bytes (S (S n)) v) with (v mod 256 :: le_bytes (S n) (v / 256)).
  rewrite IH, Z.div_div, <- Z.pow_succ_r, <- Nat2Z.inj_succ by lia. done.
Qed.

Lemma sign_bit b s : 0 <= b < 128 -> 0 <= s < 2 -> u8 (Z.lxor b (Z.shiftl s 7)) = b + 128 * s.
Proof.
  intros Hb Hs. assert (E : s = 0 \/ s = 1) by lia. destruct E as [->| ->].
  - rewrite Z.shiftl_0_l, Z.lxor_0_r, u8_small by (unfold byte_ok; lia). lia.
  - pose proof (byte_forall (fun b => (128 <=? b) || (u8 (Z.lxor b 128) =? b + 128)) ltac:(by vm_compute) b ltac:(unfold byte_ok; lia)) as H. cbv beta in H.
    change (Z.shiftl 1 7) with 128. lia.
Qed.

Lemma ge_p3_tobytes_ok h P : repr_ge h P -> ge_p3_tobytes h = ed_encode P.
Proof.
  intros [HX HY HZ HT]. assert (K : B51 <= 2 ^ 52) by (unfold B51; lia). unfold ge_p3_tobytes, ed_encode. cbv zeta.
  pose proof (repr_invert _ _ _ HZ ltac:(lia)) as Hi. pose proof (repr_mul _ _ _ _ _ _ HX Hi ltac:(lia) ltac:(lia)) as Hx. pose proof (repr_mul _ _ _ _ _ _ HY Hi ltac:(lia) ltac:(lia)) as Hy.
  rewrite (repr_isnegative _ _ _ Hx ltac:(lia)), (repr_bytes _ _ _ Hy ltac:(lia)). pose proof (repr_range _ _ _ Hy) as By. clear - By.
  generalize dependent (fmul (eY P) (finv (eZ P))). intros y By. generalize (fmul (eX P) (finv (eZ P))). intros x.
  pose proof (Z.mod_pos_bound x 2 ltac:(lia)) as Bs. generalize dependent (x mod 2). intros s Bs.
  assert (Bh : 0 <= y / 2 ^ 248 < 128) by (unfold p25519 in By; split; [apply Z.div_pos; lia|apply Z.div_lt_upper_bound; lia]).
  rewrite !(le_bytes_snoc 31). change (256 ^ Z.of_nat 31) with (2 ^ 248). rewrite (Z.mod_small (y / 2 ^ 248)) by lia.
  assert (E31 : at_ (le_bytes 31 y ++ [y / 2 ^ 248]) 31 = y / 2 ^ 248) by (unfold at_; rewrite app_nth2 by (rewrite length_le_bytes; lia); by rewrite length_le_bytes). rewrite E31, sign_bit by lia.
  replace 31%nat with (length (le_bytes 31 y) + 0)%nat at 1 by (rewrite length_le_bytes; lia). rewrite insert_app_r. f_equal.
  - rewrite <- (le_bytes_mod 31 (y + _)), <- (le_bytes_mod 31 y). f_equal. symmetry. apply (same_mod (128 * s)). change (256 ^ Z.of_nat 31) with (2 ^ 248). lia.
  - cbn [insert list_insert]. f_equal. replace (y + 2 ^ 255 * s) with (y + (128 * s) * 2 ^ 248) by lia. rewrite Z.div_add by lia. symmetry. apply Z.mod_small. lia.
Qed.

Lemma ed_encode_ok P : length (ed_encode P) = 32%nat /\ Forall byte_ok (ed_encode P).
Proof. split; [apply length_le_bytes|apply le_bytes_ok]. Qed.

(** ** The base point *)

Definition base_ge : ge_p3 :=
  mk_ge (mk_fe 1738742601995546 1146398526822698 2070867633025821 562264141797630 587772402128613)
    (mk_fe 1801439850948184 1351079888211148 450359962737049 900719925474099 1801439850948198)
    (mk_fe 1 0 0 0 0) (mk_fe 1841354044333475 16398895984059 755974180946558 900171276175154 1821297809914039).

(** The code recovers the base point of the standard from its encoding. *)
Lemma base_decodes : ge_p3_frombytes_vartime B_BYTES = Ret base_ge.
Proof. vm_compute. reflexivity. Qed.

Lemma base_ge_ok : repr_ge base_ge ed_base.
Proof. split; (split; [unfold below, within, B51; cbn; lia|vm_compute; reflexivity]). Qed.

(** * Keys and signatures *)

Lemma clamp_app a b : length a = 32%nat -> clamp (a ++ b) = clamp a ++ b.
Proof.
  intros L. unfold clamp, at_. rewrite !app_nth1 by lia. rewrite insert_app_l by lia. rewrite insert_app_l by (rewrite length_insert; lia).
  rewrite !app_nth1 by (rewrite ?length_insert; lia). by rewrite insert_app_l by (rewrite !length_insert; lia).
Qed.

(** A piece of a hashed message: so many bytes at an address. *)
Definition segment_ok (x : list Z * Z) : Prop := Forall byte_ok x.1 /\ 0 <= x.2 <= zlen x.1 /\ x.2 < 2 ^ 64.

Lemma hash_pieces_ok l : forall c m, absorbed512 c m -> Forall segment_ok l ->
  exists c', hash_pieces c l = Ret c' /\ absorbed512 c' (m ++ concat (map (fun x => ztake x.2 x.1) l)).
Proof.
  induction l as [|[p len] l IH]; intros c m Hc Hl; cbn [hash_pieces map concat]; [rewrite app_nil_r; by eauto|].
  inversion_clear Hl as [|? ? (Hp & Hn & Hm) Hl']. cbn [fst snd] in *.
  destruct (sha512_update_ok c m p len Hc Hp Hn Hm) as (c1 & -> & H1). ret. destruct (IH c1 _ H1 Hl') as (c2 & -> & H2). rewrite <- app_assoc in H2. by eauto.
Qed.

Lemma zero_buffer : buffer512_ok sha512_zero.
Proof. split; [reflexivity|apply bytes_okb_ok; reflexivity]. Qed.

(** Hashing the pieces and reducing the digest. *)
Lemma hash_reduce hs l A (k : list Z -> res A) : buffer512_ok hs -> Forall segment_ok l ->
  (let! hs := hash_pieces (sha512_init hs) l in let! (full, _) := sha512_final hs in let! full := sc_reduce full in k full)
  = let m := concat (map (fun x => ztake x.2 x.1) l) in k (le_bytes 32 (hash_scalar m) ++ padd (sha512_hash m) 32).
Proof.
  intros Hb Hl. destruct (hash_pieces_ok l _ [] (sha512_init_ok hs Hb) Hl) as (c & -> & Hc). ret. rewrite (sha512_final_ok _ _ Hc). ret. cbn [app].
  destruct (sha512_hash_ok (concat (map (fun x => ztake x.2 x.1) l))) as [Lh Bh]. by rewrite sc_reduce_ok.
Qed.

Lemma order_scalar v : Forall byte_ok (le_bytes 32 (v mod order)) /\ length (le_bytes 32 (v mod order)) = 32%nat /\ le_val (le_bytes 32 (v mod order)) = v mod order.
Proof.
  split; [apply le_bytes_ok|]. split; [apply length_le_bytes|]. rewrite le_val_bytes. apply Z.mod_small.
  pose proof (Z.mod_pos_bound v order ltac:(unfold order; lia)). change (256 ^ Z.of_nat 32) with (2 ^ 256). unfold order in *. lia.
Qed.

#[local] Opaque sha512_hash sha512 ge_p3_tobytes ed_encode ed_mul ge_scalarmult_vartime ge_p3_frombytes_vartime sc_reduce sc_muladd hash_pieces sha512_final.

(** The secret scalar and the prefix. *)
Lemma secret_ok hs seed : buffer512_ok hs -> Forall byte_ok seed -> zlen seed = 32 ->
  exists a, sha512 hs seed 32 = Ret (take 32 (sha512_hash seed) ++ secret_prefix seed) /\ clamp (take 32 (sha512_hash seed) ++ secret_prefix seed) = a ++ secret_prefix seed /\
    Forall byte_ok a /\ length a = 32%nat /\ le_val a = secret_scalar seed /\ Forall byte_ok (secret_prefix seed) /\ zlen (secret_prefix seed) = 32.
Proof.
  intros Hb Hs Hl. destruct (sha512_hash_ok seed) as [Lh Bh]. assert (L1 : length (take 32 (sha512_hash seed)) = 32%nat) by (rewrite length_take; unfold zlen in Lh; lia).
  destruct (clamp_ok (take 32 (sha512_hash seed)) L1 ltac:(by apply Forall_take)) as (B & L & V). exists (clamp (take 32 (sha512_hash seed))).
  split; [rewrite sha512_ok, ztake_all by (done || lia); unfold secret_prefix; by rewrite take_drop|]. split; [by apply clamp_app|].
  split_and!; [done|done|done|by apply Forall_drop|]. unfold secret_prefix, zlen in *. rewrite length_drop. lia.
Qed.

Lemma pubkey_ok hs seed : buffer512_ok hs -> Forall byte_ok seed -> zlen seed = 32 -> ed25519_pubkey_from_seed hs seed = Ret (rfc8032_pubkey seed).
Proof.
  intros Hb Hs Hl. unfold ed25519_pubkey_from_seed, rfc8032_pubkey. destruct (secret_ok hs seed Hb Hs Hl) as (a & -> & Ec & Ba & La & Va & _ & _). ret. rewrite Ec, base_decodes. ret.
  destruct (ge_scalarmult_ok a (secret_prefix seed) base_ge ed_base Ba La base_ge_ok) as (r & -> & Hr). ret. rewrite (ge_p3_tobytes_ok _ _ Hr), Va. reflexivity.
Qed.

Lemma sign_ok hs msg msg_len seed pk : buffer512_ok hs -> Forall byte_ok msg -> 0 <= msg_len <= zlen msg -> msg_len < 2 ^ 64 ->
  Forall byte_ok seed -> zlen seed = 32 -> Forall byte_ok pk -> zlen pk = 32 ->
  ed25519_sign hs msg msg_len seed pk = Ret (rfc8032_sign (ztake msg_len msg) seed pk).
Proof.
  intros Hb Hm Hml Hmx Hs Hsl Hp Hpl. unfold ed25519_sign, rfc8032_sign. destruct (secret_ok hs seed Hb Hs Hsl) as (a & -> & Ec & Ba & La & Va & Bp & Lp). ret. rewrite Ec.
  rewrite rdn_app by (unfold zlen; lia). ret. rewrite padd_app by (unfold zlen; lia).
  destruct (hash_pieces_ok [(secret_prefix seed, 32); (msg, msg_len)] _ [] (sha512_init_ok hs Hb)) as (c & -> & Hc).
  { repeat (constructor; [split_and!; cbn [fst snd]; first [done|lia]|]). constructor. }
  ret. rewrite (sha512_final_ok _ _ Hc). ret. cbn [map concat app fst snd]. rewrite app_nil_r, (ztake_all (secret_prefix seed)) by lia.
  set (mr := secret_prefix seed ++ ztake msg_len msg). destruct (sha512_hash_ok mr) as [Lh Bh]. rewrite sc_reduce_ok by done. ret. rewrite base_decodes. ret.
  destruct (order_scalar (le_val (sha512_hash mr))) as (Br & Lr & Vr). fold (hash_scalar mr) in *.
  destruct (ge_scalarmult_ok (le_bytes 32 (hash_scalar mr)) (padd (sha512_hash mr) 32) base_ge ed_base Br Lr base_ge_ok) as (R & -> & HR). ret.
  rewrite (ge_p3_tobytes_ok _ _ HR), Vr. destruct (ed_encode_ok (ed_mul (hash_scalar mr) ed_base)) as [LR BR]. set (Re := ed_encode _) in *.
  assert (ZR : zlen Re = 32) by (unfold zlen; lia).
  rewrite hash_reduce; [|exact zero_buffer|repeat (constructor; [split_and!; cbn [fst snd]; first [done|lia]|]); constructor]. cbv zeta. cbn [map concat fst snd].
  rewrite app_nil_r, !ztake_all by lia. destruct (order_scalar (le_val (sha512_hash (Re ++ pk ++ ztake msg_len msg)))) as (Bk & Lk & Vk). fold (hash_scalar (Re ++ pk ++ ztake msg_len msg)) in *.
  rewrite <- (app_nil_r a), sc_muladd_ok by (done || (unfold zlen; lia)). ret. by rewrite Vk, Vr, Va.
Qed.

(** * Decompression *)

#[local] Opaque fe_mul fe_sq fe_sqn.

Lemma fe_pow22523_pw z : loose z -> pw z (2 ^ 252 - 3) (fe_pow22523 z).
Proof.
  intros L. pose proof (pw_self z L) as H1. unfold fe_pow22523. cbv zeta.
  assert (H9 : pw z 9 (fe_mul z (fe_sq (fe_sq (fe_sq z))))) by (eapply pw_eq; [chain|lia]).
  assert (H5 : pw z (2 ^ 5 - 1) (fe_mul (fe_mul z (fe_sq (fe_sq (fe_sq z)))) (fe_sq (fe_mul (fe_sq z) (fe_mul z (fe_sq (fe_sq (fe_sq z)))))))) by (eapply pw_eq; [chain|lia]).
  generalize dependent (fe_mul (fe_mul z (fe_sq (fe_sq (fe_sq z)))) (fe_sq (fe_mul (fe_sq z) (fe_mul z (fe_sq (fe_sq (fe_sq z))))))). intros z5 H5. clear H9.
  assert (H10 : pw z (2 ^ 10 - 1) (fe_mul (fe_sqn 4 (fe_sq z5)) z5)) by (eapply pw_eq; [chain|lia]). generalize dependent (fe_mul (fe_sqn 4 (fe_sq z5)) z5). intros z10 H10.
  assert (H20 : pw z (2 ^ 20 - 1) (fe_mul (fe_sqn 9 (fe_sq z10)) z10)) by (eapply pw_eq; [chain|lia]). generalize dependent (fe_mul (fe_sqn 9 (fe_sq z10)) z10). intros z20 H20.
  assert (H40 : pw z (2 ^ 40 - 1) (fe_mul (fe_sqn 19 (fe_sq z20)) z20)) by (eapply pw_eq; [chain|lia]). generalize dependent (fe_mul (fe_sqn 19 (fe_sq z20)) z20). intros z40 H40.
  assert (H50 : pw z (2 ^ 50 - 1) (fe_mul (fe_sqn 9 (fe_sq z40)) z10)) by (eapply pw_eq; [chain|lia]). generalize dependent (fe_mul (fe_sqn 9 (fe_sq z40)) z10). intros z50 H50.
  assert (H100 : pw z (2 ^ 100 - 1) (fe_mul (fe_sqn 49 (fe_sq z50)) z50)) by (eapply pw_eq; [chain|lia]). generalize dependent (fe_mul (fe_sqn 49 (fe_sq z50)) z50). intros z100 H100.
  assert (H200 : pw z (2 ^ 200 - 1) (fe_mul (fe_sqn 99 (fe_sq z100)) z100)) by (eapply pw_eq; [chain|lia]). generalize dependent (fe_mul (fe_sqn 99 (fe_sq z100)) z100). intros z200 H200.
  eapply pw_eq; [chain|lia].
Qed.

#[local] Transparent fe_mul fe_sq fe_sqn.

Lemma fpow58_pow x : fpow58 x = x ^ (2 ^ 252 - 3) mod p25519.
Proof. unfold fpow58. rewrite Zpow_facts.Zpow_mod_correct by (unfold p25519; lia). change ((p25519 - 5) / 8) with (2 ^ 252 - 3). reflexivity. Qed.

Lemma fpow58_eqp x y : eqp x y -> fpow58 x = fpow58 y.
Proof. intros E. rewrite !fpow58_pow. rewrite (Zpow_facts.Zpower_mod x), (Zpow_facts.Zpower_mod y) by (unfold p25519; lia). unfold eqp in E. rewrite E. reflexivity. Qed.

Lemma repr_pow58 j a va : repr j a va -> j <= 2 ^ 54 -> repr (2 ^ 54) (fe_pow22523 a) (fpow58 va).
Proof.
  intros [Ba <-] Hj. destruct (fe_pow22523_pw a) as (_ & L & V); [by apply (below_mono j)|]. rewrite fpow58_pow. split; [exact L|exact V].
Qed.

#[local] Opaque fpow58 fe_pow22523.

Lemma root_try_ok u v vu vv : repr (B51 + 2 ^ 52) u vu -> repr (B51 + B51) v vv ->
  repr B51 (root_try u v).1 (ed_root vu vv) /\ repr B51 (root_try u v).2 (fmul vv (fmul (ed_root vu vv) (ed_root vu vv))).
Proof.
  intros Hu Hv. assert (K : B51 <= 2 ^ 52 - 38) by (unfold B51; lia).
  pose proof (repr_mul _ _ _ _ _ _ (repr_sq _ _ _ Hv ltac:(lia)) Hv ltac:(lia) ltac:(lia)) as H3.
  pose proof (repr_mul _ _ _ _ _ _ (repr_sq _ _ _ H3 ltac:(lia)) Hv ltac:(lia) ltac:(lia)) as H7.
  pose proof (repr_mul _ _ _ _ _ _ H7 Hu ltac:(lia) ltac:(lia)) as Hw. pose proof (repr_pow58 _ _ _ Hw ltac:(lia)) as Ht.
  pose proof (repr_mul _ _ _ _ _ _ (repr_mul _ _ _ _ _ _ H3 Ht ltac:(lia) ltac:(lia)) Hu ltac:(lia) ltac:(lia)) as Hx.
  match type of Hx with repr _ _ ?e => assert (Ex : e = ed_root vu vv) end.
  { unfold ed_root. rewrite (fpow58_eqp (fmul _ vu) (vu * vv ^ 7)) by (rewrite ?eqp_fmul; unfold eqp; f_equal; ring). fring. }
  rewrite Ex in Hx. clear Ex. split; [exact Hx|].
  eapply repr_val; [exact (repr_mul _ _ _ _ _ _ (repr_sq _ _ _ Hx ltac:(lia)) Hv ltac:(lia) ltac:(lia))|apply fmul_comm].
Qed.

(** ** The check that may borrow

    [u] is a difference and its limbs can exceed those of [2 p], the bound
    [fe_sub] needs of its second argument. *)

Definition borrows (a b : fe) : bool :=
  (f0 a + 0xfffffffffffda <? f0 b) || (f1 a + 0xffffffffffffe <? f1 b) || (f2 a + 0xffffffffffffe <? f2 b) || (f3 a + 0xffffffffffffe <? f3 b) || (f4 a + 0xffffffffffffe <? f4 b).

Lemma fe_sub_fits a b j va vb k : repr j a va -> repr k b vb -> borrows a b = false -> j + 2 ^ 52 <= 2 ^ 63 -> repr (j + 2 ^ 52) (fe_sub a b) (fsub va vb).
Proof.
  intros [Ba <-] [Bb <-] H Hj. unfold borrows in H. rewrite !orb_false_iff in H. unfold below, within in *. unfold repr, below, within, fe_sub. rewrite !u64_small by lia.
  split; [cbn [f0 f1 f2 f3 f4]; lia|]. unfold fval, fsub. rewrite <- Zminus_mod. unfold feval. cbn [f0 f1 f2 f3 f4].
  apply (same_mod 2). unfold p25519. ring.
Qed.

Lemma sqrtm1_ok : exists x, load_sqrtm1 = Ret x /\ repr B51 x ed_sqrtm1.
Proof.
  destruct (fe_from_bytes_ok SQRTM1_BYTES [] eq_refl ltac:(apply bytes_okb_ok; reflexivity)) as (x & E & B & V). exists x. split; [exact E|].
  split; [eapply below_mono; [exact B|unfold B51; lia]|]. unfold fval. rewrite V. vm_compute. reflexivity.
Qed.

Lemma d_ok : exists x, load_d = Ret x /\ repr B51 x ed_d.
Proof.
  destruct (fe_from_bytes_ok D_BYTES [] eq_refl ltac:(apply bytes_okb_ok; reflexivity)) as (x & E & B & V). exists x. split; [exact E|].
  split; [eapply below_mono; [exact B|unfold B51; lia]|]. unfold fval. rewrite V. vm_compute. reflexivity.
Qed.

Lemma fsub_zero a b : 0 <= a < p25519 -> 0 <= b < p25519 -> (fsub a b =? 0) = (a =? b).
Proof.
  intros Ha Hb. apply eq_true_iff_eq. rewrite !Z.eqb_eq. unfold fsub. split; [|intros ->; by rewrite Z.sub_diag]. intros H. apply Z.mod_divide in H as [k H]; [|unfold p25519; lia].
  assert (k = 0) by (unfold p25519 in *; nia). lia.
Qed.

Lemma fadd_zero a b : 0 <= a < p25519 -> 0 <= b < p25519 -> (fadd a b =? 0) = (a =? fsub 0 b).
Proof.
  intros Ha Hb. rewrite <- (fsub_zero a (fsub 0 b)); [|done|apply Z.mod_pos_bound; unfold p25519; lia]. f_equal.
  unfold fadd, fsub. rewrite Zminus_mod_idemp_r. f_equal. lia.
Qed.

Lemma root_ratio_ok u v vu vv : repr (B51 + 2 ^ 52) u vu -> repr (B51 + B51) v vv -> borrows (root_try u v).2 u = false ->
  let x := ed_root vu vv in let vxx := fmul vv (fmul x x) in
  match (if vxx =? vu then Some x else if vxx =? fsub 0 vu then Some (fmul x ed_sqrtm1) else None) with
  | Some r => exists f, root_ratio u v = Ret f /\ repr B51 f r
  | None => root_ratio u v = Fail
  end.
Proof.
  intros Hu Hv Hb x vxx. destruct (root_try_ok u v vu vv Hu Hv) as [Hx Hxx]. fold x in Hx. fold x vxx in Hxx. unfold root_ratio. destruct (root_try u v) as [fx fxx]. cbn [fst snd] in *.
  assert (K : B51 <= 2 ^ 52 - 38) by (unfold B51; lia). pose proof (repr_range _ _ _ Hu) as Ru. pose proof (repr_range _ _ _ Hxx) as Rxx. clearbody x vxx.
  rewrite (repr_iszero _ _ _ (fe_sub_fits _ _ _ _ _ _ Hxx Hu Hb ltac:(lia)) ltac:(lia)), fsub_zero by done. destruct (Z.eqb_spec vxx vu) as [E|E]; cbn [negb]; [by eauto|].
  destruct sqrtm1_ok as (sq & -> & Hsq). ret. rewrite (repr_iszero _ _ _ (repr_add _ _ _ _ _ _ Hxx Hu ltac:(lia)) ltac:(lia)), fadd_zero by done.
  destruct (vxx =? fsub 0 vu); cbn [negb]; [|done]. eexists. split; [reflexivity|]. eapply repr_mul; [done|done|lia|lia].
Qed.

(** ** Comparison of byte strings *)

Lemma le_val_take s n : (n < length s)%nat -> le_val (take (S n) s) = le_val (take n s) + 256 ^ Z.of_nat n * at_ s n.
Proof.
  intros H. assert (E : s !! n = Some (at_ s n)) by (unfold at_; destruct (nth_lookup_or_length s n 0) as [E|E]; [exact E|lia]).
  rewrite (take_S_r _ _ _ E), le_val_app. unfold zlen. rewrite length_take_le by lia. cbn [le_val]. lia.
Qed.

(** One byte more at the top decides. *)
Lemma top_byte s t n : Forall byte_ok s -> Forall byte_ok t -> (n < length s)%nat -> (n < length t)%nat ->
  (le_val (take (S n) s) <? le_val (take (S n) t)) =
  if at_ s n <? at_ t n then true else if at_ t n <? at_ s n then false else le_val (take n s) <? le_val (take n t).
Proof.
  intros Hs Ht Ls Lt. rewrite !le_val_take by done.
  pose proof (le_val_bound (take n s) (Forall_take _ _ _ Hs)) as Bs. pose proof (le_val_bound (take n t) (Forall_take _ _ _ Ht)) as Bt.
  unfold zlen in *. rewrite length_take_le in Bs, Bt by lia. assert (0 < 256 ^ Z.of_nat n) by lia.
  destruct (Z.ltb_spec (at_ s n) (at_ t n)); [apply Z.ltb_lt; nia|]. destruct (Z.ltb_spec (at_ t n) (at_ s n)); [apply Z.ltb_ge; nia|].
  assert (E : at_ s n = at_ t n) by lia. rewrite E. apply eq_true_iff_eq. rewrite !Z.ltb_lt. lia.
Qed.

Lemma canonical_y_ok y n : Forall byte_ok y -> length y = 32%nat -> (0 < n <= 32)%nat -> canonical_y y n = (le_val (take n y) <? le_val (take n P_BYTES)).
Proof.
  intros Hy Ly. induction n as [|n IH]; intros Hn; [lia|]. cbn [canonical_y].
  rewrite top_byte by (done || lia || (apply bytes_okb_ok; reflexivity) || (change (length P_BYTES) with 32%nat; lia)).
  destruct (at_ y n <? at_ P_BYTES n); [done|]. destruct (at_ P_BYTES n <? at_ y n); [done|]. destruct n as [|n]; [done|]. cbn [Nat.eqb]. apply IH. lia.
Qed.

Lemma sc_canonical_ok s n : Forall byte_ok s -> length s = 32%nat -> (n <= 32)%nat -> sc_canonical_loop s n = (le_val (take n s) <? le_val (take n L_BYTES)).
Proof.
  intros Hs Ls. induction n as [|n IH]; intros Hn; [done|]. cbn [sc_canonical_loop].
  rewrite top_byte by (done || lia || (apply bytes_okb_ok; reflexivity) || (change (length L_BYTES) with 32%nat; lia)).
  destruct (at_ s n <? at_ L_BYTES n); [done|]. destruct (at_ L_BYTES n <? at_ s n); [done|]. apply IH. lia.
Qed.

(** ** Decoding *)

(** The sign bit and the rest. *)
Lemma split_sign s : length s = 32%nat -> Forall byte_ok s ->
  let y := <[31%nat := Z.land (at_ s 31) 0x7f]> s in
  Z.land (Z.shiftr (at_ s 31) 7) 1 = le_val s / 2 ^ 255 /\ Forall byte_ok y /\ length y = 32%nat /\ le_val y = le_val s mod 2 ^ 255.
Proof.
  intros L H. destruct (exists_last (l := s)) as (m & c & ->); [by intros ->|]. rewrite length_app in L. cbn [length] in L. assert (Lm : length m = 31%nat) by lia.
  apply Forall_app in H as [Hm Hc]. apply Forall_cons_1 in Hc as [Hc _]. assert (E : at_ (m ++ [c]) 31 = c) by (unfold at_; rewrite app_nth2, Lm by lia; done). rewrite E.
  replace 31%nat with (length m + 0)%nat by lia. rewrite insert_app_r. cbn [insert list_insert]. destruct (cut_byte c 7 0x7f Hc ltac:(lia) eq_refl) as (l & h & -> & -> & Ec & Bl & Bh).
  pose proof (le_val_bound m Hm) as Bm. unfold zlen in Bm. rewrite Lm in Bm. change (256 ^ Z.of_nat 31) with (2 ^ 248) in Bm.
  rewrite !le_val_app. unfold zlen. rewrite Lm. change (256 ^ Z.of_nat 31) with (2 ^ 248). cbn [le_val]. split_and!.
  - change 1 with (Z.ones 1). rewrite land_ones_mod, (Z.mod_small h) by lia. apply (Z.div_unique_pos _ _ _ (le_val m + 2 ^ 248 * l)); lia.
  - apply Forall_app_2; [done|]. repeat constructor; lia.
  - rewrite length_app. cbn [length]. lia.
  - apply (Z.mod_unique_pos _ _ h); lia.
Qed.

(** The limbs of the decoded [y], and of [u] and [v]. *)
Definition decode_uv (s : list Z) : res (fe * fe * fe) :=
  let! y_bytes := rdn s 32 in
  let! y := fe_from_bytes (<[31%nat := Z.land (at_ y_bytes 31) 0x7f]> y_bytes) in
  let! d := load_d in
  Ret (y, fe_sub (fe_sq y) fe_1, fe_add (fe_mul (fe_sq y) d) fe_1).

(** The subtraction in the check of the root borrows. *)
Definition decode_borrows (s : list Z) : bool :=
  match decode_uv s with Ret (_, u, v) => borrows (root_try u v).2 u | _ => false end.

Lemma set_sign_ok x vx sign : repr B51 x vx -> 0 <= sign < 2 ->
  if (vx =? 0) && (sign =? 1) then set_sign x sign = Fail
  else exists f, set_sign x sign = Ret f /\ repr B51 f (if vx mod 2 =? sign then vx else p25519 - vx).
Proof.
  intros Hx Hs. assert (K : B51 <= 2 ^ 52 - 38) by (unfold B51; lia). pose proof (repr_range _ _ _ Hx) as Rx. unfold set_sign.
  rewrite (repr_isnegative _ _ _ Hx ltac:(lia)), (repr_iszero _ _ _ Hx ltac:(lia)). destruct (Z.eqb_spec vx 0) as [->|N0]; cbn [andb].
  - change (0 mod 2) with 0. destruct (Z.eqb_spec sign 1) as [->|N1]; [done|]. replace sign with 0 by lia. cbn [Z.eqb negb]. by eauto.
  - destruct (vx mod 2 =? sign); cbn [negb]; [by eauto|]. eexists. split; [reflexivity|]. eapply repr_val; [eapply repr_carry; [eapply repr_neg; [exact Hx|lia]|lia]|].
    unfold fsub. symmetry. apply (Z.mod_unique_pos _ _ (-1)); lia.
Qed.

#[local] Transparent ge_p3_frombytes_vartime.

Lemma decode_ok s rest : length s = 32%nat -> Forall byte_ok s -> decode_borrows (s ++ rest) = false ->
  match ed_decode s with
  | Some P => exists g, ge_p3_frombytes_vartime (s ++ rest) = Ret g /\ repr_ge g P
  | None => ge_p3_frombytes_vartime (s ++ rest) = Fail
  end.
Proof.
  intros L H Hb. unfold ge_p3_frombytes_vartime, ed_decode. unfold decode_borrows, decode_uv in Hb. rewrite rdn_app in * by (unfold zlen; lia). rewrite rbind_Ret in *. cbv beta iota in *.
  destruct (split_sign s L H) as (-> & By & Ly & Vy). set (yb := <[31%nat := _]> s) in *. rewrite canonical_y_ok by (done || lia). rewrite !(take_ge _ 32) by (done || (rewrite Ly; lia)).
  change (le_val P_BYTES) with p25519. rewrite Vy, Z.leb_antisym. destruct (le_val s mod 2 ^ 255 <? p25519) eqn:Ec; cbn [negb]; [|done]. apply Z.ltb_lt in Ec.
  destruct (fe_from_bytes_ok yb [] Ly By) as (y & Ey & Bfy & Vfy). rewrite app_nil_r in Ey. rewrite Ey in *. rewrite rbind_Ret in *. cbv beta iota in *.
  assert (K : B51 <= 2 ^ 52 - 38) by (unfold B51; lia). pose proof (Z.mod_pos_bound (le_val s) (2 ^ 255) ltac:(lia)) as Bm.
  assert (Hy : repr B51 y (le_val s mod 2 ^ 255)).
  { split; [eapply below_mono; [exact Bfy|unfold B51; lia]|]. unfold fval. rewrite Vfy, Vy, Zmod_mod. apply Z.mod_small. lia. }
  destruct d_ok as (d & Ed & Hd). rewrite Ed in *. rewrite rbind_Ret in *. cbv beta iota in *. clear Ed. generalize dependent (le_val s mod 2 ^ 255). intros vy Vy Ec Bm Hy.
  pose proof (repr_sq _ _ _ Hy ltac:(lia)) as Hyy. pose proof (repr_sub _ _ _ _ _ _ Hyy repr_1 ltac:(lia) ltac:(lia)) as Hu.
  pose proof (repr_add _ _ _ _ _ _ (repr_mul _ _ _ _ _ _ Hyy Hd ltac:(lia) ltac:(lia)) repr_1 ltac:(lia)) as Hv. rewrite (fmul_comm _ ed_d) in Hv.
  rewrite !rbind_Ret in Hb. cbv beta iota in Hb. fold yb in Hb. rewrite Ey, !rbind_Ret in Hb. cbv beta iota in Hb.
  pose proof (root_ratio_ok _ _ _ _ Hu Hv Hb) as Hr. cbv zeta in Hr. cbv zeta.
  destruct (if _ =? _ then Some _ else _) as [x|]; cbn [mbind option_bind]; [|by rewrite Hr]. destruct Hr as (fx & -> & Hx). ret.
  assert (Bs : 0 <= le_val s / 2 ^ 255 < 2).
  { pose proof (le_val_bound s H) as B. unfold zlen in B. rewrite L in B. change (256 ^ Z.of_nat 32) with (2 ^ 256) in B. split; [apply Z.div_pos; lia|apply Z.div_lt_upper_bound; lia]. }
  pose proof (set_sign_ok fx x _ Hx Bs) as Hs. destruct (_ && _); [by rewrite Hs|]. destruct Hs as (f & -> & Hf). ret. eexists. split; [reflexivity|].
  split; cbn [gX gY gZ gT eX eY eZ eT]; [exact Hf|exact Hy|apply repr_1|eapply repr_mul; [exact Hf|exact Hy|lia|lia]].
Qed.

(** * Verification *)

Lemma xor_bytes_zero a b : Forall byte_ok a -> Forall byte_ok b -> length a = length b ->
  le_val (zip_with (fun x y => u8 (Z.lxor x y)) a b) = 0 <-> a = b.
Proof.
  intros Ha. revert b. induction Ha as [|x a Hx Ha IH]; intros [|y b] Hb L; cbn [length] in L; [done|lia|lia|]. apply Forall_cons_1 in Hb as [Hy Hb].
  cbn [zip_with le_val]. pose proof (u8_byte (Z.lxor x y)) as B. pose proof (le_val_bound (zip_with (fun x y => u8 (Z.lxor x y)) a b)) as Bz.
  assert (Fz : Forall byte_ok (zip_with (fun x y => u8 (Z.lxor x y)) a b)) by (clear; revert b; induction a as [|x a IH]; intros [|y b]; constructor; [apply u8_byte|apply IH]).
  specialize (Bz Fz). specialize (IH b Hb ltac:(lia)). pose proof (lxor_byte_0 x y Hx Hy) as E. unfold byte_ok in B. split.
  - intros H. assert (u8 (Z.lxor x y) = 0) by lia. f_equal; [by apply E|apply IH; lia].
  - intros [= -> ->]. rewrite (proj2 E eq_refl), (proj2 IH eq_refl). done.
Qed.

Lemma ct_memcmp32_ok a b ra rb : Forall byte_ok a -> Forall byte_ok b -> length a = 32%nat -> length b = 32%nat ->
  exists d, ct_memcmp32 (a ++ ra) (b ++ rb) = Ret d /\ (d =? 0) = bool_decide (a = b).
Proof.
  intros Ha Hb La Lb. unfold ct_memcmp32. rewrite !rdn_app by (unfold zlen; lia). ret. eexists. split; [reflexivity|].
  apply eq_true_iff_eq. rewrite Z.eqb_eq, bool_decide_eq_true, <- (xor_bytes_zero a b) by (done || lia).
  rewrite or_bytes_zero; [tauto| |unfold byte_ok; lia]. clear. revert b. induction a as [|x a IH]; intros [|y b]; constructor; [apply u8_byte|apply IH].
Qed.

#[local] Opaque ge_p3_frombytes_vartime ed_decode.

Lemma verify_ok hs sig msg msg_len pk : buffer512_ok hs -> Forall byte_ok sig -> zlen sig = 64 -> Forall byte_ok pk -> zlen pk = 32 ->
  Forall byte_ok msg -> 0 <= msg_len <= zlen msg -> msg_len < 2 ^ 64 -> decode_borrows pk = false -> decode_borrows sig = false ->
  ed25519_verify hs sig msg msg_len pk = Ret (if rfc8032_verify sig (ztake msg_len msg) pk then 1 else 0).
Proof.
  intros Hb Bs Ls Bp Lp Bm Lm Hm Np Ns. unfold ed25519_verify, rfc8032_verify. unfold zlen in Ls, Lp.
  assert (Es : sig = take 32 sig ++ drop 32 sig) by (symmetry; apply take_drop). set (Rb := take 32 sig) in *. set (sb := drop 32 sig) in *.
  assert (LR : length Rb = 32%nat) by (unfold Rb; rewrite length_take; lia). assert (Lsb : length sb = 32%nat) by (unfold sb; rewrite length_drop; lia).
  assert (BR : Forall byte_ok Rb) by (by apply Forall_take). assert (Bsb : Forall byte_ok sb) by (by apply Forall_drop).
  change (padd sig 32) with sb. clearbody Rb sb. unfold sc_check_canonical. rewrite <- (app_nil_r sb), rdn_app by (unfold zlen; lia). ret. rewrite app_nil_r.
  rewrite sc_canonical_ok by (done || lia). rewrite !(take_ge _ 32) by (done || (rewrite Lsb; lia)). change (le_val L_BYTES) with order. destruct (le_val sb <? order); cbn [negb andb]; [|done].
  pose proof (decode_ok pk [] ltac:(lia) Bp) as Dp. rewrite app_nil_r in Dp. specialize (Dp Np). destruct (ed_decode pk) as [A|]; [|by rewrite Dp]. destruct Dp as (g & -> & Hg). cbn [or_return].
  pose proof (decode_ok Rb sb LR BR) as DR. rewrite <- Es in DR. specialize (DR Ns). destruct (ed_decode Rb) as [R|]; [|by rewrite DR]. destruct DR as (gR & -> & _). cbn [or_return].
  rewrite hash_reduce; [|done|repeat (constructor; [split_and!; cbn [fst snd]; first [done|unfold zlen in *; lia]|]); constructor]. cbv zeta. cbn [map concat fst snd]. rewrite app_nil_r.
  assert (ER : ztake 32 sig = Rb) by (rewrite Es; unfold ztake; by rewrite take_app_length' by lia). rewrite ER, (ztake_all pk) by (unfold zlen; lia). set (m := Rb ++ pk ++ ztake msg_len msg).
  destruct (order_scalar (le_val (sha512_hash m))) as (Bk & Lk & Vk). fold (hash_scalar m) in *. assert (K : B51 <= 2 ^ 52 - 38) by (unfold B51; lia).
  match goal with |- context [ge_double_scalarmult_vartime _ ?g' _] => assert (Hn : repr_ge g' (ed_neg A)) end.
  { destruct Hg as [HX HY HZ HT]. split; cbn [gX gY gZ gT eX eY eZ eT ed_neg]; [|exact HY|exact HZ|]; (eapply repr_carry; [eapply repr_neg; [eassumption|lia]|lia]). }
  unfold ge_double_scalarmult_vartime. rewrite base_decodes. cbn [or_return].
  destruct (ge_scalarmult_ok _ (padd (sha512_hash m) 32) _ _ Bk Lk Hn) as (a & -> & Ha). ret. rewrite <- (app_nil_r sb).
  destruct (ge_scalarmult_ok sb [] _ _ Bsb Lsb base_ge_ok) as (b & -> & Hb'). ret. destruct (ge_p3_to_cached_ok _ _ Hb') as (c & -> & Hc). ret.
  rewrite (ge_p3_tobytes_ok _ _ (ge_add_ok _ _ _ _ Ha Hc)), Vk. destruct (ed_encode_ok (ed_add (ed_mul (hash_scalar m) (ed_neg A)) (ed_mul (le_val sb) ed_base))) as [Le Be].
  rewrite <- (app_nil_r (ed_encode _)), Es. destruct (ct_memcmp32_ok _ Rb [] sb Be BR Le LR) as (d & -> & Ed). ret. by rewrite Ed, !app_nil_r.
Qed.

(** ** A stray encoding *)

(** On the curve [-x^2 + y^2 = 1 + d x^2 y^2]. *)
Definition on_curve (x y : Z) : bool := fsub (fmul y y) (fmul x x) =? fadd 1 (fmul ed_d (fmul (fmul x x) (fmul y y))).

Definition stray : list Z :=
  [0x5b;0x3b;0x98;0xe2;0xa8;0x74;0x53;0x31;0xa0;0xb9;0x92;0x46;0x1a;0xe5;0x14;0xdd;
   0xe0;0x6e;0x1c;0x95;0xb6;0x9e;0x1c;0xd3;0xce;0x1a;0x55;0x2d;0x33;0xf2;0xa2;0x46].

Definition stray_ge : ge_p3 :=
  mk_ge (mk_fe 1138768650473858 1244284903479735 728198939975701 467949655415501 70864699951666)
    (mk_fe 972693635087195 924493173491242 1250950085104532 1521077940345674 1242650593383761)
    (mk_fe 1 0 0 0 0) (mk_fe 690836229982163 131999202119308 1394215762438412 499062770098170 289108384541842).

(** C9: [ed25519_pubkey_from_seed] and [ed25519_sign] compute the public key and
    the signature of RFC 8032, byte for byte, for every seed and every message,
    whatever the memory of the local hash contexts held: field, group and scalar
    arithmetic never wrap, overflow or leave a number unreduced. *)
Theorem ed25519_sign_is_rfc8032 hs msg msg_len seed pk :
  zlen (s5_buf hs) = 128 -> Forall byte_ok (s5_buf hs) -> Forall byte_ok seed -> zlen seed = 32 ->
  Forall byte_ok msg -> 0 <= msg_len <= zlen msg -> msg_len < 2 ^ 64 -> Forall byte_ok pk -> zlen pk = 32 ->
  ed25519_pubkey_from_seed hs seed = Ret (rfc8032_pubkey seed) /\
  ed25519_sign hs msg msg_len seed pk = Ret (rfc8032_sign (ztake msg_len msg) seed pk).
Proof.
  intros H1 H2 Hs Ls Hm Lm Nm Hp Lp. pose proof (conj H1 H2 : buffer512_ok hs) as Hb. exact (conj (pubkey_ok hs seed Hb Hs Ls) (sign_ok hs msg msg_len seed pk Hb Hm Lm Nm Hs Ls Hp Lp)).
Qed.

Lemma ed25519_sign_is_rfc8032_witness :
  ed25519_pubkey_from_seed sha512_zero (replicate 32 7) = Ret (rfc8032_pubkey (replicate 32 7)) /\
  ed25519_sign sha512_zero [1; 2; 3] 2 (replicate 32 7) (replicate 32 9) = Ret (rfc8032_sign (ztake 2 [1; 2; 3]) (replicate 32 7) (replicate 32 9)).
Proof.
  apply ed25519_sign_is_rfc8032; first [apply bytes_okb_ok; reflexivity|reflexivity|split; discriminate].
Defined.

(** C10: [ed25519_verify] gives the verdict of RFC 8032 (the equation checked
    without the cofactor, [S] below the order, both points decoded), for every
    signature, key and message of which the decoding of the two points does not
    borrow in the subtraction that checks the square root. *)
Theorem ed25519_verify_is_rfc8032 hs sig msg msg_len pk :
  zlen (s5_buf hs) = 128 -> Forall byte_ok (s5_buf hs) -> Forall byte_ok sig -> zlen sig = 64 -> Forall byte_ok pk -> zlen pk = 32 ->
  Forall byte_ok msg -> 0 <= msg_len <= zlen msg -> msg_len < 2 ^ 64 -> decode_borrows pk = false -> decode_borrows sig = false ->
  ed25519_verify hs sig msg msg_len pk = Ret (if rfc8032_verify sig (ztake msg_len msg) pk then 1 else 0).
Proof. intros H1 H2. exact (verify_ok hs sig msg msg_len pk (conj H1 H2)). Qed.

Lemma decode_borrows_app s rest : length s = 32%nat -> decode_borrows (s ++ rest) = decode_borrows s.
Proof. intros L. unfold decode_borrows, decode_uv. rewrite <- (app_nil_r s) at 2. rewrite !rdn_app by (unfold zlen; lia). reflexivity. Qed.

Lemma base_no_borrow : decode_borrows B_BYTES = false.
Proof. vm_compute. reflexivity. Qed.

Lemma ed25519_verify_is_rfc8032_witness :
  ed25519_verify sha512_zero (B_BYTES ++ replicate 32 0) [1; 2; 3] 3 B_BYTES =
  Ret (if rfc8032_verify (B_BYTES ++ replicate 32 0) (ztake 3 [1; 2; 3]) B_BYTES then 1 else 0).
Proof.
  apply ed25519_verify_is_rfc8032; [reflexivity|apply bytes_okb_ok; reflexivity|apply bytes_okb_ok; reflexivity|reflexivity|apply bytes_okb_ok; reflexivity|reflexivity| | | | |].
  - apply bytes_okb_ok. reflexivity.
  - split; discriminate.
  - reflexivity.
  - exact base_no_borrow.
  - exact (eq_trans (decode_borrows_app B_BYTES (replicate 32 0) eq_refl) base_no_borrow).
Defined.

