(* ===== verification/Kdf.v ===== *)
(** * HMAC, HKDF and the TLS and QUIC key schedules

    [userspace/crypto/hmac.c], [userspace/crypto/hkdf.c],
    [userspace/tls/keysched.c], [userspace/quic/keys.c] and
    [userspace/quic/initial.c] over the streaming hash of [Sha256], and the
    constructions of RFC 2104, RFC 5869, RFC 8446 §7 and RFC 9001 §5 that they
    are shown to compute.  A failing call is [Fail]; output buffers are passed
    in and returned. *)

From Stdlib Require Import ZArith Lia String.
From stdpp Require Import list numbers option.
From S2P Require Import Prelude Util Words Chacha Aead Aes Sha256 Sha256Theorems Packet.

Definition HMAC_SHA256_TAG_LEN : Z := SHA256_DIGEST_LEN.
Definition HKDF_PRK_LEN : Z := SHA256_DIGEST_LEN.
Definition TLS13_HASH_LEN : Z := SHA256_DIGEST_LEN.

Record hmac_sha256_ctx := mk_hmac { hm_inner : sha256_ctx; hm_outer : sha256_ctx }.

Definition hmac_zero : hmac_sha256_ctx := mk_hmac sha_zero sha_zero.

(** Keys of one direction, [quic_keys_t]. *)
Record quic_keys_t := mk_keys { kt_key : list Z; kt_iv : list Z; kt_hp : list Z; kt_key_len : Z; kt_hp_len : Z }.

Definition QUIC_IV_LEN : Z := 12.
Definition QUIC_INITIAL_KEY_LEN : Z := 16.
Definition QUIC_INITIAL_IV_LEN : Z := 12.
Definition QUIC_INITIAL_HP_LEN : Z := 16.

Definition QUIC_V1_INITIAL_SALT : list Z :=
  [0x38; 0x76; 0x2c; 0xf7; 0xf5; 0x59; 0x34; 0xb3; 0x4d; 0x17; 0x9a; 0xe6; 0xa4; 0xc8; 0x0c; 0xad; 0xcc; 0xbb; 0x7f; 0x0a].

Section Model.
(** The installed compression function, and what the local variables of the
    functions below hold before they are written: hash contexts and the
    600-byte label buffer. *)
Context (impl : sha256_impl) (junk : sha256_ctx) (hl0 : list Z).

(** ** [hmac.c] *)

Definition hmac_sha256_init (h : hmac_sha256_ctx) (key : list Z) (key_len : Z) : res hmac_sha256_ctx :=
  let kprime := sc_buf junk in
  let! kprime :=
    (if SHA256_BLOCK_LEN <? key_len then
       let! d := sha256 impl junk key key_len in
       let! kprime := blit kprime 0 d in
       blit kprime SHA256_DIGEST_LEN (replicate (Z.to_nat (SHA256_BLOCK_LEN - SHA256_DIGEST_LEN)) 0)
     else
       let! k := rdn key key_len in
       let! kprime := blit kprime 0 k in
       blit kprime key_len (replicate (Z.to_nat (SHA256_BLOCK_LEN - key_len)) 0)) in
  let ipad := map (fun b => Z.lxor b 0x36) kprime in
  let opad := map (fun b => Z.lxor b 0x5c) kprime in
  let! inner := sha256_update impl (sha256_init (hm_inner h)) ipad SHA256_BLOCK_LEN in
  let! outer := sha256_update impl (sha256_init (hm_outer h)) opad SHA256_BLOCK_LEN in
  Ret (mk_hmac inner outer).

Definition hmac_sha256_update (h : hmac_sha256_ctx) (data : list Z) (len : Z) : res hmac_sha256_ctx :=
  let! inner := sha256_update impl (hm_inner h) data len in
  Ret (mk_hmac inner (hm_outer h)).

Definition hmac_sha256_final (h : hmac_sha256_ctx) : res (list Z * hmac_sha256_ctx) :=
  let! (inner_tag, inner) := sha256_final impl (hm_inner h) in
  let! outer := sha256_update impl (hm_outer h) inner_tag SHA256_DIGEST_LEN in
  let! (out, outer) := sha256_final impl outer in
  Ret (out, hmac_zero).

Definition hmac_sha256 (key : list Z) (key_len : Z) (data : list Z) (len : Z) : res (list Z) :=
  let! h := hmac_sha256_init (mk_hmac junk junk) key key_len in
  let! h := hmac_sha256_update h data len in
  let! (out, _) := hmac_sha256_final h in
  Ret out.

(** ** [hkdf.c] *)

(** A [NULL] salt is the empty list. *)
Definition hkdf_extract (salt : list Z) (salt_len : Z) (ikm : list Z) (ikm_len : Z) : res (list Z) :=
  let '(salt, salt_len) := if salt_len =? 0 then (replicate 32 0, SHA256_DIGEST_LEN) else (salt, salt_len) in
  hmac_sha256 salt salt_len ikm ikm_len.

(** One iteration: the next [T]. *)
Definition expand_block (prk info : list Z) (info_len : Z) (T : list Z) (T_len counter : Z) : res (list Z) :=
  let! h := hmac_sha256_init (mk_hmac junk junk) prk HKDF_PRK_LEN in
  let! h := (if T_len =? 0 then Ret h else hmac_sha256_update h T T_len) in
  let! h := (if info_len =? 0 then Ret h else hmac_sha256_update h info info_len) in
  let! h := hmac_sha256_update h [counter] 1 in
  let! (T, _) := hmac_sha256_final h in
  Ret T.

(** [while (pos < out_len)] *)
Fixpoint expand_loop (fuel : nat) (prk info : list Z) (info_len : Z) (T : list Z) (T_len counter pos : Z) (out : list Z) (out_len : Z) : res (list Z) :=
  if pos <? out_len then
    match fuel with
    | O => Oob
    | S fuel =>
        let! T := expand_block prk info info_len T T_len counter in
        let take := out_len - pos in
        let take := if SHA256_DIGEST_LEN <? take then SHA256_DIGEST_LEN else take in
        let! d := rdn T take in
        let! out := blit out pos d in
        expand_loop fuel prk info info_len T SHA256_DIGEST_LEN (u8 (counter + 1)) (pos + take) out out_len
    end
  else Ret out.

(** The loop runs at most 255 times. *)
Definition hkdf_expand (prk info : list Z) (info_len : Z) (out : list Z) (out_len : Z) : res (list Z) :=
  if 255 * SHA256_DIGEST_LEN <? out_len then Fail
  else expand_loop 255 prk info info_len (ztake 32 (sc_buf junk)) 0 1 0 out out_len.

(** ** [keysched.c] *)

Definition tls13_hkdf_expand_label (secret label context : list Z) (context_len : Z) (out : list Z) (out_len : Z) : res (list Z) :=
  let label_len := zlen label in
  if 255 <? label_len + 6 then Fail
  else if 255 <? context_len then Fail
  else if 0xffff <? out_len then Fail
  else
    let! hl := wr hl0 0 (u8 (Z.shiftr out_len 8)) in
    let! hl := wr hl 1 (u8 out_len) in
    let! hl := wr hl 2 (u8 (6 + label_len)) in
    let! hl := blit hl 3 (lit "tls13 ") in
    let! hl := blit hl 9 label in
    let off := 9 + label_len in
    let! hl := wr hl off (u8 context_len) in
    let off := off + 1 in
    let! (hl, off) :=
      (if context_len =? 0 then Ret (hl, off)
       else
         let! c := rdn context context_len in
         let! hl := blit hl off c in
         Ret (hl, off + context_len)) in
    hkdf_expand secret hl off out out_len.

Definition tls13_derive_secret (secret label messages : list Z) (messages_len : Z) (out : list Z) : res (list Z) :=
  let! transcript := sha256 impl junk messages messages_len in
  tls13_hkdf_expand_label secret label transcript SHA256_DIGEST_LEN out TLS13_HASH_LEN.

(** A call whose result code is not looked at: after an error the buffer is
    what it was. *)
Definition ignoring (m : res (list Z)) (out : list Z) : res (list Z) := match m with Fail => Ret out | r => r end.

Definition tls13_derive_traffic_keys (traffic_secret key iv : list Z) : res (list Z * list Z) :=
  let! key := ignoring (tls13_hkdf_expand_label traffic_secret (lit "key") [] 0 key 32) key in
  let! iv := ignoring (tls13_hkdf_expand_label traffic_secret (lit "iv") [] 0 iv 12) iv in
  Ret (key, iv).

Definition tls13_compute_finished (base_key transcript_hash : list Z) : res (list Z) :=
  let finished_key := ztake 32 (sc_buf junk) in
  let! finished_key := tls13_hkdf_expand_label base_key (lit "finished") [] 0 finished_key TLS13_HASH_LEN in
  hmac_sha256 finished_key TLS13_HASH_LEN transcript_hash TLS13_HASH_LEN.

(** [true] for the return value 0. *)
Definition tls13_verify_finished (base_key transcript_hash verify_data : list Z) : res bool :=
  match tls13_compute_finished base_key transcript_hash with
  | Fail => Ret false
  | Oob => Oob
  | Ret expected => crypto_consttime_eq expected verify_data TLS13_HASH_LEN
  end.

(** ** [keys.c] *)

Definition quic_keys_from_secret (secret : list Z) (secret_len key_len hp_len : Z) (out : quic_keys_t) : res quic_keys_t :=
  if negb (secret_len =? 32) then Fail
  else if negb (key_len =? 16) && negb (key_len =? 32) then Fail
  else if negb (hp_len =? 16) && negb (hp_len =? 32) then Fail
  else
    let! key := ignoring (tls13_hkdf_expand_label secret (lit "quic key") [] 0 (kt_key out) key_len) (kt_key out) in
    let! iv := ignoring (tls13_hkdf_expand_label secret (lit "quic iv") [] 0 (kt_iv out) QUIC_IV_LEN) (kt_iv out) in
    let! hp := ignoring (tls13_hkdf_expand_label secret (lit "quic hp") [] 0 (kt_hp out) hp_len) (kt_hp out) in
    Ret (mk_keys key iv hp (u8 key_len) (u8 hp_len)).

Definition quic_key_update_next (current_secret : list Z) (secret_len : Z) (out : list Z) : res (list Z) :=
  ignoring (tls13_hkdf_expand_label current_secret (lit "quic ku") [] 0 out secret_len) out.

(** ** [initial.c] *)

Definition quic_initial_derive (dcid : list Z) (dcid_len : Z) (is_server : bool) (out : quic_initial_keys_t) : res quic_initial_keys_t :=
  let! initial_secret := hkdf_extract QUIC_V1_INITIAL_SALT 20 dcid dcid_len in
  let side_label := if is_server then lit "server in" else lit "client in" in
  let side_secret := ztake 32 (sc_buf junk) in
  let! side_secret := ignoring (tls13_hkdf_expand_label initial_secret side_label [] 0 side_secret 32) side_secret in
  let! key := ignoring (tls13_hkdf_expand_label side_secret (lit "quic key") [] 0 (qk_key out) QUIC_INITIAL_KEY_LEN) (qk_key out) in
  let! iv := ignoring (tls13_hkdf_expand_label side_secret (lit "quic iv") [] 0 (qk_iv out) QUIC_INITIAL_IV_LEN) (qk_iv out) in
  let! hp := ignoring (tls13_hkdf_expand_label side_secret (lit "quic hp") [] 0 (qk_hp out) QUIC_INITIAL_HP_LEN) (qk_hp out) in
  Ret (mk_qkeys key iv hp).

(** ** The standards *)

End Model.

(** RFC 2104 *)
Definition hmac_key (key : list Z) : list Z :=
  let k := if 64 <? zlen key then sha256_hash key else key in k ++ replicate (64 - length k) 0.

Definition hmac (key m : list Z) : list Z :=
  sha256_hash (map (fun b => Z.lxor b 0x5c) (hmac_key key) ++ sha256_hash (map (fun b => Z.lxor b 0x36) (hmac_key key) ++ m)).

(** RFC 5869: [T(0)] is empty, [T(i) = HMAC(PRK, T(i-1) | info | i)], and the
    output is the first [L] bytes of [T(1) | T(2) | ...]. *)
Fixpoint hkdf_T (prk info : list Z) (i : nat) : list Z :=
  match i with
  | O => []
  | S j => hmac prk (hkdf_T prk info j ++ info ++ [Z.of_nat i])
  end.

Definition hkdf_okm (prk info : list Z) (L : Z) : list Z :=
  ztake L (concat (map (hkdf_T prk info) (seq 1 (Z.to_nat ((L + 31) / 32))))).

(** RFC 8446 §7.1: [struct { uint16 length; opaque label<7..255>; opaque
    context<0..255>; } HkdfLabel]. *)
Definition hkdf_label (L : Z) (label context : list Z) : list Z :=
  be_bytes 2 L ++ be_bytes 1 (zlen (lit "tls13 " ++ label)) ++ (lit "tls13 " ++ label) ++ be_bytes 1 (zlen context) ++ context.

Definition expand_label (secret label context : list Z) (L : Z) : list Z := hkdf_okm secret (hkdf_label L label context) L.

#[local] Opaque sha256_hash.

(** ** Correctness *)

Lemma xor_pad_ok x l : byte_ok x -> Forall byte_ok l -> Forall byte_ok (map (fun b => Z.lxor b x) l).
Proof. intros Hx Hl. induction Hl; cbn; constructor; [by apply lxor_byte|done]. Qed.

Lemma hmac_key_ok key : Forall byte_ok key -> Forall byte_ok (hmac_key key) /\ zlen (hmac_key key) = 64.
Proof.
  intros Hk. unfold hmac_key. set (k := if 64 <? zlen key then _ else _).
  assert (Forall byte_ok k /\ zlen k <= 64) as [Hb Hl] by (unfold k; destruct (Z.ltb_spec 64 (zlen key)); [split; [apply sha256_hash_ok|rewrite zlen_sha256_hash; lia]|done]).
  split; [apply Forall_app; split; [done|apply zeros_ok]|]. rewrite zlen_app, zlen_replicate. unfold zlen in *. lia.
Qed.

Lemma hmac_ok key m : Forall byte_ok (hmac key m).
Proof. apply sha256_hash_ok. Qed.

Lemma zlen_hmac key m : zlen (hmac key m) = 32.
Proof. apply zlen_sha256_hash. Qed.

(** An HMAC context that has taken in [m]. *)
Definition hmac_absorbed (h : hmac_sha256_ctx) (key m : list Z) : Prop :=
  absorbed (hm_inner h) (map (fun b => Z.lxor b 0x36) (hmac_key key) ++ m) /\ absorbed (hm_outer h) (map (fun b => Z.lxor b 0x5c) (hmac_key key)).

Section Correct.
Context (impl : sha256_impl) (junk : sha256_ctx) (hl0 : list Z).
Context (Hjunk : buffer_ok junk) (Hhl : zlen hl0 = 600) (Hhlb : Forall byte_ok hl0).

Lemma absorb_pad c pad : buffer_ok c -> Forall byte_ok pad -> zlen pad = 64 -> exists c', sha256_update impl (sha256_init c) pad SHA256_BLOCK_LEN = Ret c' /\ absorbed c' pad.
Proof.
  intros Hc Hp Hl. destruct (sha256_update_ok impl (sha256_init c) [] pad 64) as (c' & E & Ha); [by apply sha256_init_ok|done|lia|].
  rewrite ztake_all in Ha by lia. exists c'. split; [exact E|exact Ha].
Qed.

(** [k] and zeros behind it fill the block. *)
Lemma fill_block k n : zlen k <= 64 -> n = zlen k ->
  (let! kp := blit (sc_buf junk) 0 k in blit kp n (replicate (Z.to_nat (SHA256_BLOCK_LEN - n)) 0)) = Ret (k ++ replicate (64 - length k) 0).
Proof.
  intros Hk ->. destruct Hjunk as [Hl _]. destruct (split_buffer (zlen k) (sc_buf junk) ltac:(pose proof (zlen_nonneg k); lia)) as (u & g & E & Hu). rewrite E in *.
  rewrite blit_start by done. ret. rewrite zlen_app in Hl. unfold SHA256_BLOCK_LEN. rewrite <- (app_nil_r g). rewrite blit_at; [|done|rewrite zlen_replicate; lia].
  rewrite app_nil_r. do 3 f_equal. unfold zlen. lia.
Qed.

Lemma hmac_init_ok h key key_len :
  buffer_ok (hm_inner h) -> buffer_ok (hm_outer h) -> Forall byte_ok key -> 0 <= key_len <= zlen key ->
  exists h', hmac_sha256_init impl junk h key key_len = Ret h' /\ hmac_absorbed h' (ztake key_len key) [].
Proof.
  intros Hi Ho Hk Hl. unfold hmac_sha256_init. set (k := ztake key_len key). assert (Hkb : Forall byte_ok k) by (unfold k; auto with pico).
  assert (Hkl : zlen k = key_len) by (unfold k; rewrite zlen_ztake; lia).
  assert (E : forall A (kk : list Z -> res A), (let! kp := (if SHA256_BLOCK_LEN <? key_len then
       let! d := sha256 impl junk key key_len in
       let! kprime := blit (sc_buf junk) 0 d in
       blit kprime SHA256_DIGEST_LEN (replicate (Z.to_nat (SHA256_BLOCK_LEN - SHA256_DIGEST_LEN)) 0)
     else
       let! k := rdn key key_len in
       let! kprime := blit (sc_buf junk) 0 k in
       blit kprime key_len (replicate (Z.to_nat (SHA256_BLOCK_LEN - key_len)) 0)) in kk kp) = kk (hmac_key k)).
  { intros A kk. unfold hmac_key. rewrite Hkl. change SHA256_BLOCK_LEN with 64 at 1. destruct (64 <? key_len) eqn:E.
    - rewrite sha256_ok by (done || lia). ret. fold k. change SHA256_DIGEST_LEN with 32. rewrite fill_block by (rewrite zlen_sha256_hash; lia). by ret.
    - rewrite rdn_ok by lia. ret. fold k. rewrite fill_block by lia. by ret. }
  rewrite E. clear E. destruct (hmac_key_ok k Hkb) as [Hpb Hpl].
  destruct (absorb_pad (hm_inner h) (map (fun b => Z.lxor b 0x36) (hmac_key k)) Hi) as (ci & -> & Hci); [apply xor_pad_ok; [unfold byte_ok; lia|done]|by rewrite zlen_map|]. ret.
  destruct (absorb_pad (hm_outer h) (map (fun b => Z.lxor b 0x5c) (hmac_key k)) Ho) as (co & -> & Hco); [apply xor_pad_ok; [unfold byte_ok; lia|done]|by rewrite zlen_map|]. ret.
  eexists. split; [reflexivity|]. split; [cbn [hm_inner]; rewrite app_nil_r|]; assumption.
Qed.

Lemma hmac_update_ok h key m p len :
  hmac_absorbed h key m -> Forall byte_ok p -> 0 <= len <= zlen p ->
  exists h', hmac_sha256_update impl h p len = Ret h' /\ hmac_absorbed h' key (m ++ ztake len p).
Proof using Type.
  intros [Hi Ho] Hp Hl. unfold hmac_sha256_update. destruct (sha256_update_ok impl _ _ p len Hi Hp Hl) as (c & -> & Hc). ret.
  eexists. split; [reflexivity|]. rewrite <- app_assoc in Hc. by split.
Qed.

Lemma hmac_final_ok h key m : hmac_absorbed h key m -> hmac_sha256_final impl h = Ret (hmac key m, hmac_zero).
Proof using Type.
  intros [Hi Ho]. unfold hmac_sha256_final. rewrite (sha256_final_ok impl _ _ Hi). ret. set (t := sha256_hash _).
  destruct (sha256_update_ok impl _ _ t SHA256_DIGEST_LEN Ho) as (c & -> & Hc); [apply sha256_hash_ok|unfold t; rewrite zlen_sha256_hash; unfold SHA256_DIGEST_LEN; lia|]. ret.
  rewrite ztake_all in Hc by (unfold t; rewrite zlen_sha256_hash; done). rewrite (sha256_final_ok impl _ _ Hc). ret. reflexivity.
Qed.

Lemma junk_hmac : buffer_ok (hm_inner (mk_hmac junk junk)) /\ buffer_ok (hm_outer (mk_hmac junk junk)).
Proof. done. Qed.

Lemma hmac_sha256_ok key key_len p len :
  Forall byte_ok key -> 0 <= key_len <= zlen key -> Forall byte_ok p -> 0 <= len <= zlen p ->
  hmac_sha256 impl junk key key_len p len = Ret (hmac (ztake key_len key) (ztake len p)).
Proof.
  intros Hk Hkl Hp Hl. unfold hmac_sha256. destruct junk_hmac as [Ji Jo]. destruct (hmac_init_ok _ key key_len Ji Jo Hk Hkl) as (h & -> & Hh). ret.
  destruct (hmac_update_ok h _ _ p len Hh Hp Hl) as (h' & -> & Hh'). ret. rewrite (hmac_final_ok h' _ _ Hh'). by ret.
Qed.

(** A call that is skipped when there is nothing to add. *)
Lemma hmac_update_opt h key m p len :
  hmac_absorbed h key m -> Forall byte_ok p -> 0 <= len <= zlen p ->
  exists h', (if len =? 0 then Ret h else hmac_sha256_update impl h p len) = Ret h' /\ hmac_absorbed h' key (m ++ ztake len p).
Proof using Type.
  intros Hh Hp Hl. destruct (Z.eqb_spec len 0) as [->|]; [|by apply hmac_update_ok]. exists h. split; [done|]. change (ztake 0 p) with (@nil Z). by rewrite app_nil_r.
Qed.

Lemma expand_block_ok prk info info_len T T_len counter :
  Forall byte_ok prk -> zlen prk = 32 -> Forall byte_ok info -> 0 <= info_len <= zlen info -> Forall byte_ok T -> 0 <= T_len <= zlen T -> byte_ok counter ->
  expand_block impl junk prk info info_len T T_len counter = Ret (hmac prk (ztake T_len T ++ ztake info_len info ++ [counter])).
Proof.
  intros Hk Hkl Hi Hil HT HTl Hc. unfold expand_block. destruct junk_hmac as [Ji Jo].
  destruct (hmac_init_ok _ prk HKDF_PRK_LEN Ji Jo Hk) as (h & -> & Hh); [rewrite Hkl; by vm_compute|]. ret. rewrite ztake_all in Hh by (rewrite Hkl; by vm_compute).
  destruct (hmac_update_opt h _ _ T T_len Hh HT HTl) as (h1 & -> & H1). ret. destruct (hmac_update_opt h1 _ _ info info_len H1 Hi Hil) as (h2 & -> & H2). ret.
  destruct (hmac_update_ok h2 _ _ [counter] 1 H2) as (h3 & -> & H3); [apply Forall_singleton, Hc|by vm_compute|]. ret. rewrite (hmac_final_ok h3 _ _ H3). ret.
  rewrite <- app_assoc. reflexivity.
Qed.

(** The first [n] blocks of the output. *)
Definition okm_blocks (prk info : list Z) (n : nat) : list Z := concat (map (hkdf_T prk info) (seq 1 n)).

Lemma okm_blocks_S prk info n : okm_blocks prk info (S n) = okm_blocks prk info n ++ hkdf_T prk info (S n).
Proof using Type. unfold okm_blocks. rewrite seq_S, map_app, concat_app. cbn [map concat]. by rewrite app_nil_r. Qed.

Lemma zlen_hkdf_T prk info n : zlen (hkdf_T prk info (S n)) = 32.
Proof using Type. cbn [hkdf_T]. apply zlen_hmac. Qed.

Lemma hkdf_T_ok prk info n : Forall byte_ok (hkdf_T prk info n).
Proof using Type. destruct n; [constructor|]. cbn [hkdf_T]. apply hmac_ok. Qed.

Lemma zlen_okm_blocks prk info n : zlen (okm_blocks prk info n) = 32 * Z.of_nat n.
Proof using Type. induction n as [|n IH]; [done|]. rewrite okm_blocks_S, zlen_app, IH, zlen_hkdf_T. lia. Qed.

(** More blocks do not change the first bytes. *)
Lemma okm_blocks_more prk info n k L : 0 <= L <= 32 * Z.of_nat n -> ztake L (okm_blocks prk info (n + k)) = ztake L (okm_blocks prk info n).
Proof using Type.
  intros HL. induction k as [|k IH]; [by rewrite Nat.add_0_r|]. rewrite Nat.add_succ_r, okm_blocks_S. rewrite <- IH. unfold ztake. apply take_app_le.
  pose proof (zlen_okm_blocks prk info (n + k)) as E. unfold zlen in E. lia.
Qed.

Lemma okm_eq prk info n L : 0 <= L <= 32 * Z.of_nat n -> ztake L (okm_blocks prk info n) = hkdf_okm prk info L.
Proof using Type.
  intros HL. unfold hkdf_okm. fold (okm_blocks prk info (Z.to_nat ((L + 31) / 32))). set (m := Z.to_nat ((L + 31) / 32)).
  assert (Hm : L <= 32 * Z.of_nat m /\ (m <= n)%nat) by (unfold m; split; [rewrite Z2Nat.id; dlia|apply Nat2Z.inj_le; rewrite Z2Nat.id; dlia]).
  replace n with (m + (n - m))%nat by lia. apply okm_blocks_more. lia.
Qed.

Lemma expand_loop_ok prk info info_len out out_len :
  Forall byte_ok prk -> zlen prk = 32 -> Forall byte_ok info -> 0 <= info_len <= zlen info -> out_len <= zlen out ->
  forall fuel i T T_len, let okm := okm_blocks prk (ztake info_len info) in let pos := Z.min (32 * Z.of_nat i) out_len in
  (i + fuel = 255)%nat -> 0 <= out_len <= 255 * 32 ->
  Forall byte_ok T -> 0 <= T_len <= zlen T -> ztake T_len T = hkdf_T prk (ztake info_len info) i ->
  expand_loop impl junk fuel prk info info_len T T_len (u8 (Z.of_nat i + 1)) pos (ztake pos (okm i) ++ padd out pos) out_len
  = Ret (hkdf_okm prk (ztake info_len info) out_len ++ padd out out_len).
Proof.
  intros Hk Hkl Hi Hil Ho. induction fuel as [|fuel IH]; intros i T T_len okm pos Hf Hol HT HTl ET; cbn [expand_loop]; destruct (Z.ltb_spec pos out_len) as [Hp|Hp].
  1: lia. 1,3: (replace pos with out_len by lia; unfold okm; rewrite okm_eq by lia; reflexivity).
  rewrite expand_block_ok by (done || apply u8_byte). ret. rewrite ET. replace (u8 (Z.of_nat i + 1)) with (Z.of_nat (S i)) by (unfold u8; rewrite Z.mod_small; lia).
  change (hmac prk _) with (hkdf_T prk (ztake info_len info) (S i)).
  change SHA256_DIGEST_LEN with 32. set (tk := if 32 <? out_len - pos then 32 else out_len - pos).
  assert (Htk : tk = Z.min 32 (out_len - pos)) by (unfold tk; destruct (Z.ltb_spec 32 (out_len - pos)); lia). clearbody tk.
  set (T' := hkdf_T prk (ztake info_len info) (S i)) in *. assert (HT' : zlen T' = 32) by apply zlen_hkdf_T.
  rewrite rdn_ok by lia. ret. rewrite (ztake_all (okm i)) by (unfold okm; rewrite zlen_okm_blocks; lia).
  assert (Hoi : zlen (okm i) = pos) by (unfold okm; rewrite zlen_okm_blocks; lia). assert (Hzt : zlen (ztake tk T') = tk) by (rewrite zlen_ztake; lia).
  rewrite <- Hoi at 1. rewrite blit_next by lia. ret. rewrite zlen_app, Hoi, Hzt.
  assert (En : pos + tk = Z.min (32 * Z.of_nat (S i)) out_len) by lia.
  assert (Eo : okm i ++ ztake tk T' = ztake (pos + tk) (okm (S i))).
  { unfold okm at 2. rewrite okm_blocks_S. fold T'. fold okm. rewrite ztake_split by lia. rewrite ztake_app, padd_app by done. reflexivity. }
  rewrite Eo, En.
  apply IH; [lia|done|apply hkdf_T_ok|lia|by rewrite ztake_all by lia].
Qed.

(** RFC 5869 §2.3, and the error for more than 255 blocks. *)
Lemma hkdf_expand_ok prk info info_len out out_len :
  Forall byte_ok prk -> zlen prk = 32 -> Forall byte_ok info -> 0 <= info_len <= zlen info -> 0 <= out_len <= zlen out ->
  hkdf_expand impl junk prk info info_len out out_len
  = if 8160 <? out_len then Fail else Ret (hkdf_okm prk (ztake info_len info) out_len ++ padd out out_len).
Proof.
  intros Hk Hkl Hi Hil Ho. unfold hkdf_expand. change (255 * SHA256_DIGEST_LEN) with 8160. destruct (Z.ltb_spec 8160 out_len); [done|].
  pose proof (expand_loop_ok prk info info_len out out_len Hk Hkl Hi Hil ltac:(lia) 255 0 (ztake 32 (sc_buf junk)) 0) as E. cbv zeta in E.
  change (Z.of_nat 0 + 1) with 1 in E. change (32 * Z.of_nat 0) with 0 in E. rewrite Z.min_l in E by lia. rewrite padd_0 in E.
  rewrite <- E; [reflexivity|done|lia| |split; [lia|apply zlen_nonneg]|done]. apply Forall_ztake, Hjunk.
Qed.

Lemma hkdf_label_bytes L label context : 
  zlen label <= 249 -> zlen context <= 255 ->
  hkdf_label L label context = (((((([] ++ [u8 (Z.shiftr L 8)]) ++ [u8 L]) ++ [u8 (6 + zlen label)]) ++ lit "tls13 ") ++ label) ++ [u8 (zlen context)]) ++ context.
Proof using Type.
  intros Hl Hc. unfold hkdf_label. rewrite zlen_app. change (zlen (lit "tls13 ")) with 6. cbn [be_bytes]. change (Z.of_nat 1) with 1. change (Z.of_nat 0) with 0.
  rewrite !Z.pow_0_r, Z.pow_1_r, !Z.div_1_r. unfold u8. rewrite Z.shiftr_div_pow2 by lia. change (2 ^ 8) with 256. rewrite <- !app_assoc. reflexivity.
Qed.

(** RFC 8446 §7.1, and the three errors. *)
Lemma tls13_hkdf_expand_label_ok secret label context context_len out out_len :
  Forall byte_ok secret -> zlen secret = 32 -> Forall byte_ok label -> Forall byte_ok context -> 0 <= context_len <= zlen context -> 0 <= out_len <= zlen out ->
  tls13_hkdf_expand_label impl junk hl0 secret label context context_len out out_len
  = if (249 <? zlen label) || (255 <? context_len) || (8160 <? out_len) then Fail
    else Ret (expand_label secret label (ztake context_len context) out_len ++ padd out out_len).
Proof.
  intros Hs Hsl Hlb Hcb Hcl Hol. unfold tls13_hkdf_expand_label. replace (255 <? zlen label + 6) with (249 <? zlen label) by lia.
  destruct (Z.ltb_spec 249 (zlen label)); [done|]. destruct (Z.ltb_spec 255 context_len); [done|]. cbn [orb].
  destruct (Z.ltb_spec 0xffff out_len); [by replace (8160 <? out_len) with true by lia|]. pose proof (zlen_nonneg label).
  set (ctx := ztake context_len context). assert (Hctx : zlen ctx = context_len) by (unfold ctx; rewrite zlen_ztake; lia).
  assert (E : forall hl off, hl = hkdf_label out_len label ctx ++ padd hl0 (zlen (hkdf_label out_len label ctx)) -> off = zlen (hkdf_label out_len label ctx) -> off <= 600 ->
    hkdf_expand impl junk secret hl off out out_len = if 8160 <? out_len then Fail else Ret (expand_label secret label ctx out_len ++ padd out out_len)).
  { intros hl off -> -> Hle. set (w := hkdf_label out_len label ctx) in *. pose proof (zlen_nonneg w). rewrite hkdf_expand_ok; try (done || lia).
    - rewrite ztake_app by done. reflexivity.
    - apply Forall_app. split; [|by apply Forall_padd]. unfold w. rewrite hkdf_label_bytes by lia. unfold ctx. rewrite !Forall_app. split_and!; try done; try (by apply Forall_ztake);
        try (apply Forall_singleton, u8_byte). by apply bytes_okb_ok.
    - rewrite zlen_app. pose proof (zlen_nonneg (padd hl0 (zlen w))). lia. }
  assert (Z6 : zlen (lit "tls13 ") = 6) by done. assert (Zl : forall x : Z, zlen [x] = 1) by done. assert (Zn : zlen (@nil Z) = 0) by done.
  assert (Ln : zlen (hkdf_label out_len label ctx) = 10 + zlen label + context_len) by (rewrite hkdf_label_bytes by lia; rewrite !zlen_app, !Zl, Z6, Zn; lia).
  rewrite hkdf_label_bytes in * by lia. rewrite Hctx in *. change (wr hl0 0) with (wr ([] ++ padd hl0 (zlen (@nil Z))) 0).
  repeat (first [rewrite wr_next by (rewrite ?zlen_app, ?Zl, ?Z6, ?Zn; lia) | rewrite blit_next by (rewrite ?zlen_app, ?Zl, ?Z6, ?Zn; lia)]; ret).
  set (w := (_ ++ [u8 context_len])) in *. rewrite zlen_app in Ln. destruct (Z.eqb_spec context_len 0) as [E0|E0].
  - ret. assert (Enil : ctx = []) by (unfold ctx; by rewrite E0). apply E; rewrite ?Enil, ?app_nil_r; [done|rewrite Enil in Ln; change (zlen (@nil Z)) with 0 in Ln; lia|lia].
  - rewrite rdn_ok by lia. ret. fold ctx. rewrite blit_next by lia. ret. apply E; [done|rewrite zlen_app; lia|lia].
Qed.

Lemma zlen_hkdf_okm prk info L : 0 <= L -> zlen (hkdf_okm prk info L) = L.
Proof using Type.
  intros HL. rewrite <- (okm_eq prk info (Z.to_nat ((L + 31) / 32))) by (rewrite Z2Nat.id; dlia).
  rewrite zlen_ztake, zlen_okm_blocks by lia. rewrite Z2Nat.id; dlia.
Qed.

Lemma okm_blocks_ok prk info n : Forall byte_ok (okm_blocks prk info n).
Proof using Type. induction n as [|n IH]; [constructor|]. rewrite okm_blocks_S. apply Forall_app. split; [done|apply hkdf_T_ok]. Qed.

Lemma hkdf_okm_ok prk info L : Forall byte_ok (hkdf_okm prk info L).
Proof using Type. apply Forall_ztake, okm_blocks_ok. Qed.

(** The calls of the key schedules: a fixed label, no context, a short output. *)
Lemma label_ok secret label out n :
  Forall byte_ok secret -> zlen secret = 32 -> Forall byte_ok label -> zlen label <= 249 -> 0 <= n <= 8160 -> zlen out = n ->
  tls13_hkdf_expand_label impl junk hl0 secret label [] 0 out n = Ret (expand_label secret label [] n).
Proof.
  intros Hs Hsl Hl Hll Hn Ho. rewrite tls13_hkdf_expand_label_ok by (done || lia || constructor).
  replace (249 <? zlen label) with false by lia. replace (8160 <? n) with false by lia. cbn [orb Z.ltb Z.compare]. f_equal.
  unfold padd. rewrite drop_ge by (unfold zlen in Ho; lia). by rewrite app_nil_r.
Qed.

Lemma label_ignoring secret label out n :
  Forall byte_ok secret -> zlen secret = 32 -> Forall byte_ok label -> zlen label <= 249 -> 0 <= n <= 8160 -> zlen out = n ->
  ignoring (tls13_hkdf_expand_label impl junk hl0 secret label [] 0 out n) out = Ret (expand_label secret label [] n).
Proof. intros. by rewrite label_ok. Qed.

Lemma hkdf_extract_ok salt salt_len ikm ikm_len :
  Forall byte_ok salt -> 0 <= salt_len <= zlen salt -> Forall byte_ok ikm -> 0 <= ikm_len <= zlen ikm ->
  hkdf_extract impl junk salt salt_len ikm ikm_len
  = Ret (hmac (if salt_len =? 0 then replicate 32 0 else ztake salt_len salt) (ztake ikm_len ikm)).
Proof.
  intros Hs Hsl Hi Hil. unfold hkdf_extract. destruct (Z.eqb_spec salt_len 0).
  - rewrite hmac_sha256_ok by (done || apply zeros_ok). reflexivity.
  - by rewrite hmac_sha256_ok.
Qed.
End Correct.
