(* ===== verification/KdfTheorems.v ===== *)
(** * Key derivation: the theorems

    What [hkdf.c], [keysched.c], [keys.c] and [initial.c] derive, stated on the
    constructions of the RFCs, with every error return; the Finished check; and
    the composition with packet protection: two endpoints that derive Initial
    keys from the same connection id read each other's packets. *)

From Stdlib Require Import ZArith Lia String.
From stdpp Require Import list numbers option.
From S2P Require Import Prelude Util Words Chacha Aead Aes Sha256 Sha256Theorems Packet PacketTheorems Kdf.

#[local] Opaque sha256_hash hmac expand_label.

(** Memory of the right size: a hash context, the label buffer. *)
Definition locals_ok (junk : sha256_ctx) (hl0 : list Z) : Prop := buffer_ok junk /\ zlen hl0 = 600 /\ Forall byte_ok hl0.

(** A 32-byte secret. *)
Definition secret_ok (s : list Z) : Prop := Forall byte_ok s /\ zlen s = 32.

Lemma expand_label_ok secret label context L : 0 <= L -> Forall byte_ok (expand_label secret label context L) /\ zlen (expand_label secret label context L) = L.
Proof. intros HL. with_strategy transparent [expand_label] unfold expand_label. split; [apply hkdf_okm_ok|by apply zlen_hkdf_okm]. Qed.

Lemma hmac_secret key m : secret_ok (hmac key m).
Proof. split; [apply hmac_ok|apply zlen_hmac]. Qed.

Lemma label_secret secret label context : secret_ok (expand_label secret label context 32).
Proof. by apply expand_label_ok. Qed.

(** [rewrite] with the lemmas on one [HKDF-Expand-Label] call whose label is a
    literal. *)
Ltac label_call :=
  rewrite label_ignoring; [ret|assumption..|assumption|assumption|first [assumption|apply bytes_okb_ok; reflexivity]|first [assumption|apply Z.leb_le; reflexivity]|lia|assumption].

(** The same call with a buffer that may be larger than what is asked for. *)
Lemma label_prefix impl junk hl0 secret label out n :
  buffer_ok junk -> zlen hl0 = 600 -> Forall byte_ok hl0 -> Forall byte_ok secret -> zlen secret = 32 -> Forall byte_ok label -> zlen label <= 249 -> 0 <= n <= 8160 -> n <= zlen out ->
  ignoring (tls13_hkdf_expand_label impl junk hl0 secret label [] 0 out n) out = Ret (expand_label secret label [] n ++ padd out n).
Proof.
  intros Hj Hh Hhb Hs Hsl Hl Hll Hn Ho. rewrite tls13_hkdf_expand_label_ok by (assumption || lia || done).
  replace (249 <? zlen label) with false by lia. replace (8160 <? n) with false by lia. reflexivity.
Qed.

(** ** Secrets, traffic keys, Finished *)

Definition derive_secret (secret label messages : list Z) : list Z := expand_label secret label (sha256_hash messages) 32.
Definition finished_mac (base_key transcript : list Z) : list Z := hmac (expand_label base_key (lit "finished") [] 32) transcript.

Section Derive.
Context (impl : sha256_impl) (junk : sha256_ctx) (hl0 : list Z) (Hloc : locals_ok junk hl0).

Lemma derive_secret_ok secret label messages len out :
  secret_ok secret -> Forall byte_ok label -> Forall byte_ok messages -> 0 <= len <= zlen messages -> zlen out = 32 ->
  tls13_derive_secret impl junk hl0 secret label messages len out
  = if 249 <? zlen label then Fail else Ret (derive_secret secret label (ztake len messages)).
Proof.
  intros [Hs Hsl] Hl Hm Hlen Ho. destruct Hloc as (Hj & Hh & Hhb). unfold tls13_derive_secret. rewrite sha256_ok by done. ret.
  rewrite tls13_hkdf_expand_label_ok; [|assumption..|apply sha256_hash_ok|rewrite zlen_sha256_hash; by vm_compute|rewrite Ho; by vm_compute].
  change SHA256_DIGEST_LEN with 32. change TLS13_HASH_LEN with 32. replace (255 <? 32) with false by done. replace (8160 <? 32) with false by done.
  rewrite !orb_false_r. destruct (249 <? zlen label); [done|]. f_equal. unfold derive_secret. rewrite ztake_all by (rewrite zlen_sha256_hash; done).
  unfold padd. rewrite drop_ge by (unfold zlen in Ho; lia). by rewrite app_nil_r.
Qed.

Lemma compute_finished_ok base_key th : secret_ok base_key -> secret_ok th -> tls13_compute_finished impl junk hl0 base_key th = Ret (finished_mac base_key th).
Proof.
  intros [Hs Hsl] [Ht Htl]. destruct Hloc as (Hj & Hh & Hhb). unfold tls13_compute_finished. change TLS13_HASH_LEN with 32.
  rewrite label_ok; try done; [|by apply bytes_okb_ok|destruct Hj as [Hl _]; rewrite zlen_ztake, Hl; done]. ret.
  destruct (label_secret base_key (lit "finished") []) as [Fb Fl]. rewrite hmac_sha256_ok by (done || lia). rewrite !ztake_all by lia. reflexivity.
Qed.

Lemma traffic_keys_ok secret key iv :
  secret_ok secret -> zlen key = 32 -> zlen iv = 12 ->
  tls13_derive_traffic_keys impl junk hl0 secret key iv = Ret (expand_label secret (lit "key") [] 32, expand_label secret (lit "iv") [] 12).
Proof. intros [Hs Hsl] Hk Hi. destruct Hloc as (Hj & Hh & Hhb). unfold tls13_derive_traffic_keys. label_call. label_call. reflexivity. Qed.

Lemma initial_derive_ok dcid len (srv : bool) out :
  Forall byte_ok dcid -> 0 <= len <= zlen dcid -> zlen (qk_key out) = 16 -> zlen (qk_iv out) = 12 -> zlen (qk_hp out) = 16 ->
  quic_initial_derive impl junk hl0 dcid len srv out
  = Ret (let s := expand_label (hmac QUIC_V1_INITIAL_SALT (ztake len dcid)) (if srv then lit "server in" else lit "client in") [] 32 in
         mk_qkeys (expand_label s (lit "quic key") [] 16) (expand_label s (lit "quic iv") [] 12) (expand_label s (lit "quic hp") [] 16)).
Proof.
  intros Hd Hl Hk Hi Hp. destruct Hloc as (Hj & Hh & Hhb). unfold quic_initial_derive.
  rewrite hkdf_extract_ok; try done; [|by apply bytes_okb_ok]. ret. change (20 =? 0) with false. cbv iota. change (ztake 20 QUIC_V1_INITIAL_SALT) with QUIC_V1_INITIAL_SALT.
  destruct (hmac_secret QUIC_V1_INITIAL_SALT (ztake len dcid)) as [Sb Sl]. set (ini := hmac _ _) in *.
  assert (Hjl : zlen (ztake 32 (sc_buf junk)) = 32) by (destruct Hj as [Hl' _]; rewrite zlen_ztake, Hl'; done).
  assert (Elab : Forall byte_ok (if srv then lit "server in" else lit "client in") /\ zlen (if srv then lit "server in" else lit "client in") <= 249)
    by (destruct srv; (split; [by apply bytes_okb_ok|by vm_compute])). destruct Elab as [Elb Ell].
  label_call. destruct (label_secret ini (if srv then lit "server in" else lit "client in") []) as [Tb Tl]. set (side := expand_label ini _ _ _) in *.
  unfold QUIC_INITIAL_KEY_LEN, QUIC_INITIAL_IV_LEN, QUIC_INITIAL_HP_LEN. do 3 label_call. reflexivity.
Qed.
End Derive.

(** ** Test vectors *)

Definition locals0 : list Z := replicate 600 0.

(** RFC 9001, appendix A.1: the Initial keys of both sides, each computed with
    the SHA instructions of another machine.  The server's are the keys of the
    packet of appendix A.3. *)
Definition rfc_dcid : list Z := [0x83;0x94;0xc8;0xf0;0x3e;0x51;0x57;0x08].
Definition rfc_client_keys : quic_initial_keys_t :=
  mk_qkeys [0x1f;0x36;0x96;0x13;0xdd;0x76;0xd5;0x46;0x77;0x30;0xef;0xcb;0xe3;0xb1;0xa2;0x2d]
    [0xfa;0x04;0x4b;0x2f;0x42;0xa3;0xfd;0x3b;0x46;0xfb;0x25;0x5c] [0x9f;0x50;0x44;0x9e;0x04;0xa0;0xe8;0x10;0x28;0x3a;0x1e;0x99;0x33;0xad;0xed;0xd2].

Definition keys_buffer : quic_initial_keys_t := mk_qkeys (replicate 16 0) (replicate 12 0) (replicate 16 0).

Lemma rfc_initial_vectors :
  quic_initial_derive Sha_ni sha_zero locals0 rfc_dcid 8 false keys_buffer = Ret rfc_client_keys /\
  quic_initial_derive Sha_armv8 sha_zero locals0 rfc_dcid 8 true keys_buffer = Ret rfc_keys.
Proof. split; vm_compute; reflexivity. Qed.

(** RFC 9001, appendix A.5: 256-bit keys and the key update. *)
Definition rfc_secret : list Z :=
  [0x9a;0xc3;0x12;0xa7;0xf8;0x77;0x46;0x8e;0xbe;0x69;0x42;0x27;0x48;0xad;0x00;0xa1;0x54;0x43;0xf1;0x82;0x03;0xa0;0x7d;0x60;0x60;0xf6;0x88;0xf3;0x0f;0x21;0x63;0x2b].

Definition keys_t_buffer : quic_keys_t := mk_keys (replicate 32 0) (replicate 12 0) (replicate 32 0) 0 0.

Lemma rfc_update_vectors :
  quic_keys_from_secret Sha_scalar sha_zero locals0 rfc_secret 32 32 32 keys_t_buffer =
    Ret (mk_keys [0xc6;0xd9;0x8f;0xf3;0x44;0x1c;0x3f;0xe1;0xb2;0x18;0x20;0x94;0xf6;0x9c;0xaa;0x2e;0xd4;0xb7;0x16;0xb6;0x54;0x88;0x96;0x0a;0x7a;0x98;0x49;0x79;0xfb;0x23;0xe1;0xc8]
      [0xe0;0x45;0x9b;0x34;0x74;0xbd;0xd0;0xe4;0x4a;0x41;0xc1;0x44]
      [0x25;0xa2;0x82;0xb9;0xe8;0x2f;0x06;0xf2;0x1f;0x48;0x89;0x17;0xa4;0xfc;0x8f;0x1b;0x73;0x57;0x36;0x85;0x60;0x85;0x97;0xd0;0xef;0xcb;0x07;0x6b;0x0a;0xb7;0xa7;0xa4] 32 32) /\
  quic_key_update_next Sha_scalar sha_zero locals0 rfc_secret 32 (replicate 32 0) =
    Ret [0x12;0x23;0x50;0x47;0x55;0x03;0x6d;0x55;0x63;0x42;0xee;0x93;0x61;0xd2;0x53;0x42;0x1a;0x82;0x6c;0x9e;0xcd;0xf3;0xc7;0x14;0x86;0x84;0xb3;0x6b;0x71;0x48;0x81;0xf9].
Proof. split; vm_compute; reflexivity. Qed.

(** ** Properties *)

(** The keys of RFC 9001 §5.2 for a connection id. *)
Definition keys_of_dcid (dcid : list Z) (srv : bool) : quic_initial_keys_t :=
  let s := expand_label (hmac QUIC_V1_INITIAL_SALT dcid) (if srv then lit "server in" else lit "client in") [] 32 in
  mk_qkeys (expand_label s (lit "quic key") [] 16) (expand_label s (lit "quic iv") [] 12) (expand_label s (lit "quic hp") [] 16).

Lemma keys_of_dcid_ok dcid srv : keys_ok (keys_of_dcid dcid srv).
Proof. unfold keys_ok, keys_of_dcid. cbn [qk_key qk_iv qk_hp]. split_and!; by apply expand_label_ok. Qed.

(** [tls13_hkdf_expand_label] writes HKDF-Expand-Label of RFC 8446 §7.1 to
    the first [out_len] bytes of the output and nothing behind them, whichever
    compression function is installed and whatever its local buffers held; it
    fails exactly when the label has more than 249 bytes, the context more than
    255, or the output more than 255 hash lengths, and it never leaves a
    buffer. *)
Theorem expand_label_exact impl junk hl0 secret label context context_len out out_len :
  locals_ok junk hl0 -> secret_ok secret -> Forall byte_ok label -> Forall byte_ok context ->
  0 <= context_len <= zlen context -> 0 <= out_len <= zlen out ->
  tls13_hkdf_expand_label impl junk hl0 secret label context context_len out out_len
  = if decide (zlen label <= 249 /\ context_len <= 255 /\ out_len <= 255 * 32)
    then Ret (expand_label secret label (ztake context_len context) out_len ++ padd out out_len) else Fail.
Proof.
  intros (Hj & Hh & Hhb) [Hs Hsl] Hl Hc Hcl Ho. rewrite tls13_hkdf_expand_label_ok by assumption.
  destruct (Z.ltb_spec 249 (zlen label)), (Z.ltb_spec 255 context_len), (Z.ltb_spec 8160 out_len); cbn [orb]; case_decide; (reflexivity || lia).
Qed.

Lemma locals0_ok : locals_ok sha_zero locals0.
Proof. split; [split; [reflexivity|by apply bytes_okb_ok]|split; [reflexivity|by apply bytes_okb_ok]]. Qed.

Lemma rfc_secret_ok : secret_ok rfc_secret.
Proof. split; [by apply bytes_okb_ok|reflexivity]. Qed.

Lemma expand_label_exact_witness :
  tls13_hkdf_expand_label Sha_ni sha_zero locals0 rfc_secret (lit "quic ku") [7; 8; 9] 2 (replicate 40 5) 33
  = Ret (expand_label rfc_secret (lit "quic ku") [7; 8] 33 ++ replicate 7 5).
Proof.
  apply (expand_label_exact Sha_ni sha_zero locals0 rfc_secret (lit "quic ku") [7; 8; 9] 2 (replicate 40 5) 33 locals0_ok rfc_secret_ok);
    try (by apply bytes_okb_ok); by vm_compute.
Defined.

(** [tls13_verify_finished] accepts a Finished message exactly when its first 32
    bytes are the HMAC, under the key derived from the base key with the label
    [finished], of the transcript hash, also for the machines with SHA
    instructions. *)
Lemma verify_finished_ok impl junk hl0 base_key th data :
  locals_ok junk hl0 -> secret_ok base_key -> secret_ok th -> Forall byte_ok data -> 32 <= zlen data ->
  tls13_verify_finished impl junk hl0 base_key th data = Ret (bool_decide (ztake 32 data = finished_mac base_key th)).
Proof.
  intros Hloc Hk Ht Hd Hdl. unfold tls13_verify_finished. rewrite (compute_finished_ok _ _ _ Hloc) by assumption.
  destruct (hmac_secret (expand_label base_key (lit "finished") [] 32) th) as [Mb Ml]. fold (finished_mac base_key th) in *. generalize dependent (finished_mac base_key th). intros m Mb Ml.
  rewrite crypto_consttime_eq_ok; [|assumption..|by vm_compute|rewrite Ml; by vm_compute|exact Hdl]. change TLS13_HASH_LEN with 32.
  rewrite (ztake_all m) by lia. f_equal. apply bool_decide_ext. split; congruence.
Qed.

(** Two endpoints, on machines of different kinds, that derive the Initial
    keys of one direction from the same destination connection id read each
    other's Initial packets: both derivations give the keys of RFC 9001 §5.2, and
    what the sender builds with its keys the receiver parses with its own, field
    by field. *)
Theorem initial_interop impl1 impl2 junk1 junk2 hl1 hl2 dcid srv b1 b2 pkt pad out cap r scratch scap :
  locals_ok junk1 hl1 -> locals_ok junk2 hl2 -> Forall byte_ok dcid ->
  (zlen (qk_key b1) = 16 /\ zlen (qk_iv b1) = 12 /\ zlen (qk_hp b1) = 16) -> (zlen (qk_key b2) = 16 /\ zlen (qk_iv b2) = 12 /\ zlen (qk_hp b2) = 16) ->
  initial_ok pkt pad -> i_pn pkt < 256 ^ i_pn_len pkt -> Forall byte_ok out -> cap <= zlen out < 2 ^ 62 ->
  let size := Z.max (if pad then 1200 else 0) (initial_size pkt) in
  size <= cap -> Forall byte_ok r -> Forall byte_ok scratch -> size <= scap <= zlen scratch ->
  exists w s,
    (let! keys := quic_initial_derive impl1 junk1 hl1 dcid (zlen dcid) srv b1 in quic_initial_build out cap pkt keys pad) = Ret (size, w ++ padd out size) /\
    (let! keys := quic_initial_derive impl2 junk2 hl2 dcid (zlen dcid) srv b2 in quic_initial_parse (w ++ r) (zlen (w ++ r)) keys scratch scap)
    = Ret (Some (received pkt pad), s).
Proof.
  intros H1 H2 Hd (K1 & I1 & P1) (K2 & I2 & P2) Hok Hpn Ho Hc size Hs Hr Hsb Hsc. pose proof (zlen_nonneg dcid).
  rewrite (initial_derive_ok impl1 junk1 hl1 H1), (initial_derive_ok impl2 junk2 hl2 H2) by (assumption || lia). rewrite ztake_all by lia. ret.
  fold (keys_of_dcid dcid srv). destruct (initial_wire_roundtrip pkt pad (keys_of_dcid dcid srv) out cap r scratch scap) as (w & s & _ & Eb & Ep); try assumption; [apply keys_of_dcid_ok|].
  exists w, s. split; [exact Eb|exact Ep].
Qed.

Lemma initial_interop_witness :
  exists w s,
    (let! keys := quic_initial_derive Sha_ni sha_zero locals0 rfc_dcid (zlen rfc_dcid) false keys_buffer in quic_initial_build (replicate 1500 0) 1500 example_initial keys true)
    = Ret (1200, w ++ padd (replicate 1500 0) 1200) /\
    (let! keys := quic_initial_derive Sha_armv8 sha_zero locals0 rfc_dcid (zlen rfc_dcid) false keys_buffer in
     quic_initial_parse (w ++ [0xe0; 1]) (zlen (w ++ [0xe0; 1])) keys (replicate 1500 0) 1500)
    = Ret (Some (received example_initial true), s).
Proof.
  apply (initial_interop Sha_ni Sha_armv8 sha_zero sha_zero locals0 locals0 rfc_dcid false keys_buffer keys_buffer example_initial true (replicate 1500 0) 1500 [0xe0; 1] (replicate 1500 0) 1500 locals0_ok locals0_ok);
    try (by apply bytes_okb_ok); try exact example_initial_ok; by vm_compute.
Defined.

(** [quic_keys_from_secret] refuses every secret that has not 32 bytes and
    every key or header-protection length other than 16 and 32, and otherwise
    fills the keys with the labels of RFC 9001 §5.1, leaving the rest of the
    buffers as it was. *)
Lemma keys_from_secret_ok impl junk hl0 secret secret_len key_len hp_len out :
  locals_ok junk hl0 -> (secret_len = 32 -> secret_ok secret) -> zlen (kt_key out) = 32 -> zlen (kt_iv out) = 12 -> zlen (kt_hp out) = 32 ->
  quic_keys_from_secret impl junk hl0 secret secret_len key_len hp_len out
  = if decide (secret_len = 32 /\ (key_len = 16 \/ key_len = 32) /\ (hp_len = 16 \/ hp_len = 32)) then
      Ret (mk_keys (expand_label secret (lit "quic key") [] key_len ++ padd (kt_key out) key_len) (expand_label secret (lit "quic iv") [] 12)
             (expand_label secret (lit "quic hp") [] hp_len ++ padd (kt_hp out) hp_len) key_len hp_len)
    else Fail.
Proof.
  intros (Hj & Hh & Hhb) Hsec Lk Li Lh. unfold quic_keys_from_secret.
  destruct (Z.eqb_spec secret_len 32) as [E|E]; cbn [negb]; [|case_decide; (reflexivity || lia)]. destruct (Hsec E) as [Hs Hsl].
  assert (Hdec : negb (key_len =? 16) && negb (key_len =? 32) || negb (hp_len =? 16) && negb (hp_len =? 32) = negb (bool_decide ((key_len = 16 \/ key_len = 32) /\ (hp_len = 16 \/ hp_len = 32)))).
  { case_bool_decide; cbn [negb]; lia. }
  destruct (decide (secret_len = 32 /\ (key_len = 16 \/ key_len = 32) /\ (hp_len = 16 \/ hp_len = 32))) as [Hd|Hd].
  - destruct Hd as (_ & Hk & Hp). replace (_ && _) with false by lia. replace (negb (hp_len =? 16) && _) with false by lia.
    assert (Hn : 0 <= key_len <= 32 /\ 0 <= hp_len <= 32) by lia.
    rewrite (label_prefix impl junk hl0 secret (lit "quic key") (kt_key out) key_len) by (assumption || lia || (apply bytes_okb_ok; reflexivity) || (apply Z.leb_le; reflexivity)). ret.
    unfold QUIC_IV_LEN. label_call. rewrite (label_prefix impl junk hl0 secret (lit "quic hp") (kt_hp out) hp_len) by (assumption || lia || (apply bytes_okb_ok; reflexivity) || (apply Z.leb_le; reflexivity)). ret.
    rewrite !u8_small by (unfold byte_ok; lia). reflexivity.
  - rewrite bool_decide_eq_false_2 in Hdec by tauto. destruct (negb (key_len =? 16) && negb (key_len =? 32)); [reflexivity|]. cbn [orb] in Hdec. by rewrite Hdec.
Qed.
