(* ===== verification/TlsSchedule.v ===== *)
(** * The TLS 1.3 secrets

    The transcript hash and the secrets of RFC 8446 §7.1, from
    [userspace/tls/handshake.c].  Every function that fills 32-byte buffers of
    its caller takes their previous contents and returns the new ones; [Fail] is
    the return value -1.  The theorem shows that the functions compute the key
    schedule of the RFC from the messages of the handshake. *)

From Stdlib Require Import ZArith Lia String.
From stdpp Require Import list numbers option.
From S2P Require Import Prelude Util Words Chacha Aead Aes Sha256 Sha256Theorems Packet Kdf KdfTheorems.

Section Model.
Context (impl : sha256_impl) (junk : sha256_ctx) (hl0 : list Z).

(** ** The transcript: [tls13_transcript_t] is one hash context *)

Definition tls13_transcript_init (t : sha256_ctx) : sha256_ctx := sha256_init t.
Definition tls13_transcript_update (t : sha256_ctx) (msg : list Z) (len : Z) : res sha256_ctx := sha256_update impl t msg len.

(** The context is copied, and the copy finished. *)
Definition tls13_transcript_snapshot (t : sha256_ctx) : res (list Z) := let! (out, clone) := sha256_final impl t in Ret out.

(** ** The schedule *)

Definition zero32 : list Z := replicate 32 0.

Definition tls13_compute_early_secret (psk : option (list Z)) (psk_len : Z) : res (list Z) :=
  let '(ikm, ikm_len) := match psk with Some psk => if psk_len =? 0 then (zero32, 32) else (psk, psk_len) | None => (zero32, 32) end in
  hkdf_extract impl junk zero32 32 ikm ikm_len.

(** The common end of the two functions below, from [derived] on. *)
Definition handshake_secrets_from (early_secret ecdhe_shared transcript_hash client server derived : list Z) : res (list Z * list Z * list Z) :=
  let! empty_hash := sha256 impl junk [] 0 in
  let! derived := tls13_hkdf_expand_label impl junk hl0 early_secret (lit "derived") empty_hash 32 derived 32 in
  let! handshake_secret := hkdf_extract impl junk derived 32 ecdhe_shared 32 in
  let! client := tls13_hkdf_expand_label impl junk hl0 handshake_secret (lit "c hs traffic") transcript_hash 32 client 32 in
  let! server := tls13_hkdf_expand_label impl junk hl0 handshake_secret (lit "s hs traffic") transcript_hash 32 server 32 in
  Ret (handshake_secret, client, server).

Definition tls13_compute_handshake_secrets (ecdhe_shared transcript_hash client server : list Z) : res (list Z * list Z * list Z) :=
  let! early_secret := hkdf_extract impl junk zero32 32 zero32 32 in
  handshake_secrets_from early_secret ecdhe_shared transcript_hash client server (ztake 32 (sc_buf junk)).

Definition tls13_compute_handshake_secrets_psk (psk : option (list Z)) (psk_len : Z) (ecdhe_shared transcript_hash client server : list Z)
    : res (list Z * list Z * list Z) :=
  let! early_secret := tls13_compute_early_secret psk psk_len in
  handshake_secrets_from early_secret ecdhe_shared transcript_hash client server (ztake 32 (sc_buf junk)).

Definition tls13_compute_application_secrets (handshake_secret transcript_hash client server : list Z) : res (list Z * list Z * list Z) :=
  let! empty_hash := sha256 impl junk [] 0 in
  let! derived := tls13_hkdf_expand_label impl junk hl0 handshake_secret (lit "derived") empty_hash 32 (ztake 32 (sc_buf junk)) 32 in
  let! master_secret := hkdf_extract impl junk derived 32 zero32 32 in
  let! client := tls13_hkdf_expand_label impl junk hl0 master_secret (lit "c ap traffic") transcript_hash 32 client 32 in
  let! server := tls13_hkdf_expand_label impl junk hl0 master_secret (lit "s ap traffic") transcript_hash 32 server 32 in
  Ret (master_secret, client, server).

Definition tls13_compute_resumption_master_secret (master_secret transcript_hash out : list Z) : res (list Z) :=
  tls13_hkdf_expand_label impl junk hl0 master_secret (lit "res master") transcript_hash 32 out 32.

Definition tls13_compute_binder_key (early_secret : list Z) (is_external : bool) (out : list Z) : res (list Z) :=
  let! empty_hash := sha256 impl junk [] 0 in
  tls13_hkdf_expand_label impl junk hl0 early_secret (if is_external then lit "ext binder" else lit "res binder") empty_hash 32 out 32.

Definition tls13_compute_psk_binder (binder_key partial_ch_hash : list Z) : res (list Z) := tls13_compute_finished impl junk hl0 binder_key partial_ch_hash.

Definition tls13_compute_client_early_traffic_secret (early_secret transcript_hash out : list Z) : res (list Z) :=
  tls13_hkdf_expand_label impl junk hl0 early_secret (lit "c e traffic") transcript_hash 32 out 32.

Definition tls13_derive_resumption_psk (resumption_master_secret ticket_nonce : list Z) (nonce_len : Z) (out : list Z) : res (list Z) :=
  if (nonce_len =? 0) || (255 <? nonce_len) then Fail
  else tls13_hkdf_expand_label impl junk hl0 resumption_master_secret (lit "resumption") ticket_nonce nonce_len out 32.
End Model.

(** ** The schedule of RFC 8446 §7.1 *)

Definition early_secret (psk : option (list Z)) : list Z := hmac zero32 (default zero32 psk).
Definition handshake_secret (psk : option (list Z)) (ecdhe : list Z) : list Z := hmac (derive_secret (early_secret psk) (lit "derived") []) ecdhe.
Definition master_secret (hs : list Z) : list Z := hmac (derive_secret hs (lit "derived") []) zero32.

(** RFC 8448 §3: the secrets that do not depend on the peers' keys. *)
Definition rfc8448_early : list Z :=
  [0x33;0xad;0x0a;0x1c;0x60;0x7e;0xc0;0x3b;0x09;0xe6;0xcd;0x98;0x93;0x68;0x0c;0xe2;0x10;0xad;0xf3;0x00;0xaa;0x1f;0x26;0x60;0xe1;0xb2;0x2e;0x10;0xf1;0x70;0xf9;0x2a].
Definition rfc8448_derived : list Z :=
  [0x6f;0x26;0x15;0xa1;0x08;0xc7;0x02;0xc5;0x67;0x8f;0x54;0xfc;0x9d;0xba;0xb6;0x97;0x16;0xc0;0x76;0x18;0x9c;0x48;0x25;0x0c;0xeb;0xea;0xc3;0x57;0x6c;0x36;0x11;0xba].

Lemma rfc8448_vectors : early_secret None = rfc8448_early /\ derive_secret rfc8448_early (lit "derived") [] = rfc8448_derived.
Proof. split; vm_compute; reflexivity. Qed.

(** ** Correctness *)

#[local] Opaque sha256_hash hmac expand_label.

(** What the transcript has taken in is what its snapshot hashes. *)
Lemma snapshot_ok impl t m : absorbed t m -> tls13_transcript_snapshot impl t = Ret (sha256_hash m).
Proof. intros H. unfold tls13_transcript_snapshot. rewrite (sha256_final_ok impl t m H). by ret. Qed.

Lemma hash_secret m : secret_ok (sha256_hash m).
Proof. split; [apply sha256_hash_ok|apply zlen_sha256_hash]. Qed.

Section Correct.
Context (impl : sha256_impl) (junk : sha256_ctx) (hl0 : list Z) (Hloc : locals_ok junk hl0).

Lemma junk32 : zlen (ztake 32 (sc_buf junk)) = 32.
Proof. destruct Hloc as ([Hl _] & _). rewrite zlen_ztake, Hl; done. Qed.

Lemma empty_hash_ok : sha256 impl junk [] 0 = Ret (sha256_hash []).
Proof. destruct Hloc as (Hj & _). by rewrite sha256_ok. Qed.

Lemma extract_ok salt ikm : secret_ok salt -> Forall byte_ok ikm -> zlen ikm = 32 -> hkdf_extract impl junk salt 32 ikm 32 = Ret (hmac salt ikm).
Proof.
  intros [Hs Hsl] Hi Hil. destruct Hloc as (Hj & _). rewrite hkdf_extract_ok by (assumption || lia). change (32 =? 0) with false. cbv iota. by rewrite !ztake_all by lia.
Qed.

(** A call with a 32-byte hash as context. *)
Lemma expand32_ok secret label ctx out :
  secret_ok secret -> Forall byte_ok label -> zlen label <= 249 -> secret_ok ctx -> zlen out = 32 ->
  tls13_hkdf_expand_label impl junk hl0 secret label ctx 32 out 32 = Ret (expand_label secret label ctx 32).
Proof.
  intros [Hs Hsl] Hl Hll [Hc Hcl] Ho. destruct Hloc as (Hj & Hh & Hhb). rewrite tls13_hkdf_expand_label_ok by (assumption || lia).
  replace (249 <? zlen label) with false by lia. cbn [orb Z.ltb Z.compare Pos.compare Pos.compare_cont]. rewrite (ztake_all ctx) by lia.
  unfold padd. rewrite drop_ge by (unfold zlen in Ho; lia). by rewrite app_nil_r.
Qed.
End Correct.

(** A derivation whose context is a hash. *)
Ltac expand32 := erewrite expand32_ok; [ret|eassumption|first [assumption|apply hmac_secret|apply label_secret]|apply bytes_okb_ok; reflexivity|apply Z.leb_le; reflexivity|first [assumption|apply hash_secret]|first [assumption|eapply junk32; eassumption]].

Lemma zero32_ok : secret_ok zero32.
Proof. split; [by apply bytes_okb_ok|done]. Qed.

Section Secrets.
Context (impl : sha256_impl) (junk : sha256_ctx) (hl0 : list Z) (Hloc : locals_ok junk hl0).

Lemma handshake_secrets_from_ok es ecdhe th client server derived :
  secret_ok es -> secret_ok ecdhe -> secret_ok th -> zlen client = 32 -> zlen server = 32 -> zlen derived = 32 ->
  handshake_secrets_from impl junk hl0 es ecdhe th client server derived =
  let hs := hmac (derive_secret es (lit "derived") []) ecdhe in
  Ret (hs, expand_label hs (lit "c hs traffic") th 32, expand_label hs (lit "s hs traffic") th 32).
Proof.
  intros He Hx Ht Hc Hs Hd. unfold handshake_secrets_from. rewrite (empty_hash_ok _ _ _ Hloc). ret. expand32. fold (derive_secret es (lit "derived") []).
  destruct Hx as [Hx Hxl]. rewrite (extract_ok _ _ _ Hloc) by (assumption || apply label_secret). ret. expand32. expand32. reflexivity.
Qed.

Lemma compute_early_secret_ok psk n :
  (forall p, psk = Some p -> Forall byte_ok p /\ n = zlen p) ->
  tls13_compute_early_secret impl junk psk n = Ret (early_secret (match psk with Some [] => None | _ => psk end)).
Proof.
  intros Hp. destruct Hloc as (Hj & _). destruct zero32_ok as [Zb Zl]. unfold tls13_compute_early_secret, early_secret. destruct psk as [p|].
  - destruct (Hp p eq_refl) as [Hb ->]. destruct p as [|x p]; [change (zlen [] =? 0) with true; cbv iota; by rewrite (extract_ok _ _ _ Hloc) by (assumption || apply zero32_ok)|].
    pose proof (zlen_nonneg p). replace (zlen (x :: p) =? 0) with false by (rewrite zlen_cons; lia). rewrite hkdf_extract_ok by (assumption || lia || (split; [rewrite zlen_cons|]; lia)).
    change (32 =? 0) with false. cbv iota. by rewrite !ztake_all by (rewrite ?Zl; lia).
  - by rewrite (extract_ok _ _ _ Hloc) by (assumption || apply zero32_ok).
Qed.

Lemma compute_handshake_secrets_ok ecdhe th client server :
  secret_ok ecdhe -> secret_ok th -> zlen client = 32 -> zlen server = 32 ->
  tls13_compute_handshake_secrets impl junk hl0 ecdhe th client server =
  let hs := handshake_secret None ecdhe in Ret (hs, expand_label hs (lit "c hs traffic") th 32, expand_label hs (lit "s hs traffic") th 32).
Proof.
  intros Hx Ht Hc Hs. unfold tls13_compute_handshake_secrets. destruct zero32_ok as [Zb Zl]. rewrite (extract_ok _ _ _ Hloc) by (assumption || apply zero32_ok). ret.
  rewrite handshake_secrets_from_ok by (assumption || apply hmac_secret || apply (junk32 _ _ Hloc)). reflexivity.
Qed.

Lemma compute_application_secrets_ok hs th client server :
  secret_ok hs -> secret_ok th -> zlen client = 32 -> zlen server = 32 ->
  tls13_compute_application_secrets impl junk hl0 hs th client server =
  let ms := master_secret hs in Ret (ms, expand_label ms (lit "c ap traffic") th 32, expand_label ms (lit "s ap traffic") th 32).
Proof.
  intros Hh Ht Hc Hs. unfold tls13_compute_application_secrets. rewrite (empty_hash_ok _ _ _ Hloc). ret. expand32. fold (derive_secret hs (lit "derived") []).
  destruct zero32_ok as [Zb Zl]. rewrite (extract_ok _ _ _ Hloc) by (assumption || apply label_secret). ret. expand32. expand32. reflexivity.
Qed.
End Secrets.

(** The order in which a server computes its secrets: transcript through
    ServerHello, handshake secrets, transcript through its Finished,
    application secrets.  [b] are the caller's 32-byte buffers. *)
Definition full_schedule (impl : sha256_impl) (junk t0 : sha256_ctx) (hl0 b ecdhe ch sh flight : list Z) : res (list (list Z)) :=
  let! t := tls13_transcript_update impl (tls13_transcript_init t0) ch (zlen ch) in
  let! t := tls13_transcript_update impl t sh (zlen sh) in
  let! th := tls13_transcript_snapshot impl t in
  let! (hs, c_hs, s_hs) := tls13_compute_handshake_secrets impl junk hl0 ecdhe th b b in
  let! t := tls13_transcript_update impl t flight (zlen flight) in
  let! th := tls13_transcript_snapshot impl t in
  let! (ms, c_ap, s_ap) := tls13_compute_application_secrets impl junk hl0 hs th b b in
  Ret [hs; c_hs; s_hs; ms; c_ap; s_ap].

(** C17: run in the order of a handshake, the transcript and the key schedule give
    the secrets of RFC 8446 §7.1: each traffic secret is Derive-Secret of the
    right secret, label and messages, and taking a snapshot of the transcript does
    not disturb it.  The result does not depend on the machine, so both peers
    agree on it. *)
Theorem key_schedule_correct impl junk t0 hl0 b ecdhe ch sh flight :
  locals_ok junk hl0 -> buffer_ok t0 -> zlen b = 32 -> secret_ok ecdhe -> Forall byte_ok ch -> Forall byte_ok sh -> Forall byte_ok flight ->
  let hs := hmac (derive_secret (hmac zero32 zero32) (lit "derived") []) ecdhe in
  let ms := hmac (derive_secret hs (lit "derived") []) zero32 in
  full_schedule impl junk t0 hl0 b ecdhe ch sh flight =
  Ret [hs; derive_secret hs (lit "c hs traffic") (ch ++ sh); derive_secret hs (lit "s hs traffic") (ch ++ sh);
       ms; derive_secret ms (lit "c ap traffic") (ch ++ sh ++ flight); derive_secret ms (lit "s ap traffic") (ch ++ sh ++ flight)].
Proof.
  intros Hloc Ht0 Hb Hx Hch Hsh Hfl hs ms. pose proof (zlen_nonneg ch). pose proof (zlen_nonneg sh). pose proof (zlen_nonneg flight). unfold full_schedule, tls13_transcript_update.
  destruct (sha256_update_ok impl (tls13_transcript_init t0) [] ch (zlen ch)) as (t1 & -> & A1); [by apply sha256_init_ok|assumption|lia|]. ret.
  destruct (sha256_update_ok impl t1 _ sh (zlen sh) A1) as (t2 & -> & A2); [assumption|lia|]. ret. rewrite (snapshot_ok impl t2 _ A2). ret.
  rewrite (compute_handshake_secrets_ok impl junk hl0 Hloc) by (assumption || apply hash_secret). ret.
  destruct (sha256_update_ok impl t2 _ flight (zlen flight) A2) as (t3 & -> & A3); [assumption|lia|]. ret. rewrite (snapshot_ok impl t3 _ A3). ret.
  rewrite (compute_application_secrets_ok impl junk hl0 Hloc); [ret|apply hmac_secret|apply hash_secret|assumption..].
  rewrite !ztake_all by lia.
  rewrite <- !app_assoc.
  unfold handshake_secret, early_secret, master_secret, default, hs, ms.
  reflexivity.
Qed.

Lemma key_schedule_correct_witness :
  full_schedule Sha_ni sha_zero sha_zero locals0 zero32 (replicate 32 9) [1; 0; 0; 1; 7] [2; 0; 0; 1; 8] [8; 0; 0; 2; 0; 0] =
  let hs := hmac (derive_secret (hmac zero32 zero32) (lit "derived") []) (replicate 32 9) in
  let ms := hmac (derive_secret hs (lit "derived") []) zero32 in
  Ret [hs; derive_secret hs (lit "c hs traffic") [1; 0; 0; 1; 7; 2; 0; 0; 1; 8]; derive_secret hs (lit "s hs traffic") [1; 0; 0; 1; 7; 2; 0; 0; 1; 8];
       ms; derive_secret ms (lit "c ap traffic") [1; 0; 0; 1; 7; 2; 0; 0; 1; 8; 8; 0; 0; 2; 0; 0];
       derive_secret ms (lit "s ap traffic") [1; 0; 0; 1; 7; 2; 0; 0; 1; 8; 8; 0; 0; 2; 0; 0]].
Proof.
  apply (key_schedule_correct Sha_ni sha_zero sha_zero locals0 zero32 (replicate 32 9) [1; 0; 0; 1; 7] [2; 0; 0; 1; 8] [8; 0; 0; 2; 0; 0] locals0_ok (proj1 locals0_ok));
    [reflexivity|split; [apply bytes_okb_ok; reflexivity|reflexivity]|apply bytes_okb_ok; reflexivity..].
Defined.

(** The resumption secrets. *)
Section Resumption.
Context (impl : sha256_impl) (junk : sha256_ctx) (hl0 : list Z) (Hloc : locals_ok junk hl0).

(** The pre-shared key of a ticket, the binder it is offered with and the
    early-data secret. *)
Lemma resumption_ok ms th nonce psk_out b ch :
  secret_ok ms -> secret_ok th -> Forall byte_ok nonce -> 1 <= zlen nonce <= 255 -> zlen psk_out = 32 -> zlen b = 32 -> Forall byte_ok ch ->
  let rms := expand_label ms (lit "res master") th 32 in
  let psk := expand_label rms (lit "resumption") nonce 32 in
  (let! rms := tls13_compute_resumption_master_secret impl junk hl0 ms th b in
   let! psk := tls13_derive_resumption_psk impl junk hl0 rms nonce (zlen nonce) psk_out in
   let! es := tls13_compute_early_secret impl junk (Some psk) 32 in
   let! bk := tls13_compute_binder_key impl junk hl0 es false b in
   let! partial := sha256 impl junk ch (zlen ch) in
   let! binder := tls13_compute_psk_binder impl junk hl0 bk partial in
   let! early := tls13_compute_client_early_traffic_secret impl junk hl0 es partial b in
   Ret (psk, binder, early)) =
  Ret (psk, finished_mac (derive_secret (early_secret (Some psk)) (lit "res binder") []) (sha256_hash ch),
       derive_secret (early_secret (Some psk)) (lit "c e traffic") ch).
Proof.
  intros Hms Hth Hn Hnl Hp Hb Hch rms psk. unfold tls13_compute_resumption_master_secret. expand32. fold rms.
  destruct (label_secret ms (lit "res master") th) as [Rb Rl]. fold rms in Rb, Rl. destruct Hloc as (Hj & Hh & Hhb).
  unfold tls13_derive_resumption_psk. replace ((zlen nonce =? 0) || (255 <? zlen nonce)) with false by lia.
  rewrite tls13_hkdf_expand_label_ok; try assumption; [|apply bytes_okb_ok; reflexivity|lia|lia].
  replace ((249 <? zlen (lit "resumption")) || (255 <? zlen nonce) || (8160 <? 32)) with false by (change (249 <? zlen (lit "resumption")) with false; lia).
  ret. rewrite ztake_all by lia. assert (Epad : padd psk_out 32 = []) by (unfold padd; apply drop_ge; unfold zlen in Hp; lia). rewrite Epad, app_nil_r. fold psk.
  destruct (label_secret rms (lit "resumption") nonce) as [Pb Pl]. fold psk in Pb, Pl.
  rewrite (compute_early_secret_ok impl junk hl0 Hloc) by (intros p [= <-]; split; [assumption|lia]). ret.
  replace (match psk with [] => None | _ :: _ => Some psk end) with (Some psk) by (destruct psk; [discriminate Pl|reflexivity]).
  set (es := early_secret (Some psk)). assert (Hes : secret_ok es) by apply hmac_secret.
  unfold tls13_compute_binder_key. rewrite (empty_hash_ok impl junk hl0 Hloc). ret. expand32. fold (derive_secret es (lit "res binder") []).
  rewrite sha256_ok by (assumption || (pose proof (zlen_nonneg ch); lia)). ret. rewrite ztake_all by lia. unfold tls13_compute_psk_binder.
  rewrite (compute_finished_ok impl junk hl0 Hloc) by (apply label_secret || apply hash_secret). ret.
  unfold tls13_compute_client_early_traffic_secret. expand32. reflexivity.
Qed.
End Resumption.
