(* ===== verification/Conn.v ===== *)
(** * The QUIC connection

    [userspace/quic/conn.c]: the state [quic_conn_t] of one server connection,
    the three packet-number spaces it receives from and sends in, and the step
    from the Handshake to the 1-RTT keys.  It composes the packet protection of
    [Packet], the frame codec of [Frames], the reassemblers of [CryptoStream] and
    [Stream] and the key derivation of [Kdf].  A receive function returns its
    result code (0 or -1) and the connection, which an error leaves as far as it
    had been changed; an emit function returns its size (0 is an error or
    nothing to send), the output buffer and the connection.
    [quic_conn_initial_extract_client_hello] is in [ConnHello]. *)

From Stdlib Require Import ZArith Lia String.
From stdpp Require Import list numbers option.
From coqutil Require Import Datatypes.RecordSetters.
Import DoubleBraceUpdate.
From S2P Require Import Prelude Util Words Aead Aes AesGcm Varint CryptoStream Stream Frames Sha256 Sha256Theorems Packet Kdf TlsSchedule.

#[global] Arguments constant _ _ _ /.

Definition QUIC_CONN_MAX_STREAMS : nat := 4.
Definition QUIC_CONN_RX_CRYPTO_CAP : Z := 4096.
Definition QUIC_CONN_DRV_INITIAL_CAP : Z := 256.
Definition QUIC_CONN_DRV_HANDSHAKE_CAP : Z := 8192.

Inductive quic_role_t := QUIC_ROLE_CLIENT | QUIC_ROLE_SERVER.

Record quic_conn_t := mk_qconn {
  role : quic_role_t;
  initial_keys_ready : bool;
  initial_keys : quic_initial_keys_t;
  peer_dcid : list Z; peer_dcid_len : Z;
  peer_scid : list Z; peer_scid_len : Z;
  peer_addrs_known : bool;
  rx_initial : quic_crypto_rx_t;
  initial_tx_keys_ready : bool;
  initial_tx_keys : quic_initial_keys_t;
  our_scid : list Z; our_scid_len : Z;
  tx_initial : quic_crypto_tx_t;
  initial_tx_next_pn : Z;
  handshake_keys_ready : bool;
  handshake_tx_keys : quic_initial_keys_t;
  handshake_rx_keys : quic_initial_keys_t;
  rx_handshake : quic_crypto_rx_t;
  tx_handshake : quic_crypto_tx_t;
  handshake_tx_next_pn : Z;
  handshake_pkts_rcvd : Z;
  handshake_crypto_bytes_rcvd : Z;
  handshake_ack_eliciting_rcvd : Z;
  have_handshake_state : bool;
  q_handshake_secret : list Z;
  client_handshake_traffic_secret : list Z;
  server_handshake_traffic_secret : list Z;
  transcript_hash_thru_server_fin : list Z;
  drv_initial_blob : list Z; drv_initial_blob_len : Z;
  drv_handshake_blob : list Z; drv_handshake_blob_len : Z;
  app_keys_ready : bool;
  app_tx_keys : quic_initial_keys_t;
  app_rx_keys : quic_initial_keys_t;
  client_application_traffic_secret_0 : list Z;
  server_application_traffic_secret_0 : list Z;
  q_master_secret : list Z;
  app_tx_next_pn : Z;
  app_pkts_rcvd : Z;
  streams : list quic_stream_rx_t;
  initial_pkts_rcvd : Z;
  initial_crypto_bytes_rcvd : Z;
  initial_ack_eliciting_rcvd : Z
}.

Definition zero_keys : quic_initial_keys_t := mk_qkeys (replicate 16 0) (replicate 12 0) (replicate 16 0).

(** One epoch's reassembler over its buffer in the connection. *)
Definition epoch_rx : quic_crypto_rx_t := quic_crypto_rx_init (replicate (Z.to_nat QUIC_CONN_RX_CRYPTO_CAP) 0) QUIC_CONN_RX_CRYPTO_CAP ((QUIC_CONN_RX_CRYPTO_CAP + 7) / 8).

Definition quic_conn_init_server : quic_conn_t :=
  mk_qconn QUIC_ROLE_SERVER false zero_keys (replicate 20 0) 0 (replicate 20 0) 0 false epoch_rx
    false zero_keys (replicate 20 0) 0 quic_crypto_tx_init 0
    false zero_keys zero_keys epoch_rx quic_crypto_tx_init 0 0 0 0
    false zero32 zero32 zero32 zero32 (replicate (Z.to_nat QUIC_CONN_DRV_INITIAL_CAP) 0) 0 (replicate (Z.to_nat QUIC_CONN_DRV_HANDSHAKE_CAP) 0) 0
    false zero_keys zero_keys zero32 zero32 zero32 0 0 (replicate QUIC_CONN_MAX_STREAMS quic_stream_rx_clear) 0 0 0.

Section Model.
(** The compression function in use, and the contents of uninitialised local
    variables: hash contexts, the label buffer, the [quic_keys_t] of a
    derivation and the 2048-byte scratch buffer of a receive function. *)
Context (impl : sha256_impl) (junk : sha256_ctx) (hl0 : list Z) (big0 : quic_keys_t) (scratch0 : list Z).

(** ** Initial packets in *)

Definition quic_conn_force_derive_initial_keys (c : quic_conn_t) (dcid : list Z) (dcid_len : Z) : res quic_conn_t :=
  if initial_keys_ready c then Ret c
  else
    let is_server_for_decrypt := match role c with QUIC_ROLE_SERVER => false | QUIC_ROLE_CLIENT => true end in
    let! keys := quic_initial_derive impl junk hl0 dcid dcid_len is_server_for_decrypt (initial_keys c) in
    Ret (c {{ initial_keys := keys; initial_keys_ready := true }}).

Definition frame_allowed_in_initial (f : quic_frame_t) : bool :=
  match f with FPadding _ | FPing | FAck _ _ _ _ _ _ _ _ _ _ | FCrypto _ _ _ | FClose false _ _ _ _ => true | _ => false end.

(** One frame of an Initial packet; [false] is [return -1]. *)
Definition initial_frame (f : quic_frame_t) (c : quic_conn_t) : res (bool * quic_conn_t) :=
  if negb (frame_allowed_in_initial f) then Ret (false, c)
  else
    match f with
    | FCrypto offset length data =>
        let! (rc, rx) := quic_crypto_rx_stage (rx_initial c) offset data length in
        let c := c {{ rx_initial := rx }} in
        if rc <? 0 then Ret (false, c)
        else Ret (true, c {{ initial_crypto_bytes_rcvd := u64 (initial_crypto_bytes_rcvd c + length);
                             initial_ack_eliciting_rcvd := u64 (initial_ack_eliciting_rcvd c + 1) }})
    | FPing => Ret (true, c {{ initial_ack_eliciting_rcvd := u64 (initial_ack_eliciting_rcvd c + 1) }})
    | _ => Ret (true, c)
    end.

(** [while (fo < pkt.payload_len)]: the frames of a packet, from offset [fo];
    every frame has at least one byte, so [payload_len] iterations are enough. *)
Fixpoint frame_walk (handle : quic_frame_t -> quic_conn_t -> res (bool * quic_conn_t)) (fuel : nat) (payload : list Z) (payload_len fo : Z) (c : quic_conn_t)
    : res (Z * quic_conn_t) :=
  if fo <? payload_len then
    match fuel with
    | O => Oob
    | S fuel =>
        match quic_frame_decode (padd payload fo) (payload_len - fo) with
        | Oob => Oob
        | Fail => Ret (-1, c)
        | Ret None => Ret (0, c)
        | Ret (Some (consumed, _, f)) =>
            let! (ok, c) := handle f c in
            if ok : bool then frame_walk handle fuel payload payload_len (fo + consumed) c else Ret (-1, c)
        end
    end
  else Ret (0, c).

Definition walk (handle : quic_frame_t -> quic_conn_t -> res (bool * quic_conn_t)) (payload : list Z) (payload_len : Z) (c : quic_conn_t) : res (Z * quic_conn_t) :=
  frame_walk handle (Z.to_nat payload_len) payload payload_len 0 c.

(** The connection ids in the clear part of a long header, pinned by the first
    packet; [None] is [return -1]. *)
Definition pin_ids (c : quic_conn_t) (dcid_ptr : list Z) (dcid_len : Z) (scid_ptr : list Z) (scid_len : Z) : res (option quic_conn_t) :=
  if negb (initial_keys_ready c) then
    let! c := quic_conn_force_derive_initial_keys c dcid_ptr dcid_len in
    let! d := rdn dcid_ptr dcid_len in
    let! dcid := blit (peer_dcid c) 0 d in
    let! s := rdn scid_ptr scid_len in
    let! scid := blit (peer_scid c) 0 s in
    Ret (Some (c {{ peer_dcid := dcid; peer_dcid_len := dcid_len; peer_scid := scid; peer_scid_len := scid_len; peer_addrs_known := true }}))
  else if negb (dcid_len =? peer_dcid_len c) then Ret None
  else
    let! same := mem_eq dcid_ptr (peer_dcid c) dcid_len in
    Ret (if same then Some c else None).

Definition quic_conn_recv_initial (c : quic_conn_t) (datagram : list Z) (len : Z) : res (Z * quic_conn_t) :=
  if len <? 7 then Ret (-1, c)
  else
    let! b0 := rd datagram 0 in
    if negb (Z.land b0 0xc0 =? 0xc0) then Ret (-1, c)
    else if negb (Z.land b0 0x30 =? 0x00) then Ret (-1, c)
    else
      let! version := rd32be datagram 1 in
      if negb (version =? 1) then Ret (-1, c)
      else if len <=? 5 then Ret (-1, c)
      else
        let! dcid_len := rd datagram 5 in
        let off := 6 in
        if (QUIC_MAX_CID_LEN <? dcid_len) || (len - off <? dcid_len) then Ret (-1, c)
        else
          let dcid_ptr := padd datagram off in
          let off := off + dcid_len in
          if len <=? off then Ret (-1, c)
          else
            let! scid_len := rd datagram off in
            let off := off + 1 in
            if (QUIC_MAX_CID_LEN <? scid_len) || (len - off <? scid_len) then Ret (-1, c)
            else
              let! pinned := pin_ids c dcid_ptr dcid_len (padd datagram off) scid_len in
              match pinned with
              | None => Ret (-1, c)
              | Some c =>
                  let! (pkt, _) := quic_initial_parse datagram len (initial_keys c) scratch0 2048 in
                  match pkt with
                  | None => Ret (-1, c)
                  | Some pkt =>
                      let c := c {{ initial_pkts_rcvd := u64 (initial_pkts_rcvd c + 1) }} in
                      walk initial_frame (i_payload pkt) (i_payload_len pkt) c
                  end
              end.

Definition quic_conn_initial_rx_peek (c : quic_conn_t) : Z * option (list Z) := quic_crypto_rx_peek (rx_initial c).
Definition quic_conn_initial_rx_advance (c : quic_conn_t) (n : Z) : quic_conn_t := c {{ rx_initial := quic_crypto_rx_advance (rx_initial c) n }}.

(** ** Initial packets out *)

Definition quic_conn_set_our_scid (c : quic_conn_t) (scid : option (list Z)) (scid_len : Z) : res quic_conn_t :=
  let scid_len := if QUIC_MAX_CID_LEN <? scid_len then QUIC_MAX_CID_LEN else scid_len in
  let! buf :=
    match scid with
    | Some p => if 0 <? scid_len then let! d := rdn p scid_len in blit (our_scid c) 0 d else Ret (our_scid c)
    | None => Ret (our_scid c)
    end in
  Ret (c {{ our_scid := buf; our_scid_len := scid_len }}).

Definition quic_conn_initial_tx_set_pending (c : quic_conn_t) (bytes : list Z) (len : Z) : quic_conn_t :=
  c {{ tx_initial := quic_crypto_tx_set_pending (tx_initial c) bytes len }}.

Definition ensure_initial_tx_keys (c : quic_conn_t) : res quic_conn_t :=
  if initial_tx_keys_ready c then Ret c
  else if negb (peer_addrs_known c) then Ret c
  else
    let is_server_for_encrypt := match role c with QUIC_ROLE_SERVER => true | QUIC_ROLE_CLIENT => false end in
    let! keys := quic_initial_derive impl junk hl0 (peer_dcid c) (peer_dcid_len c) is_server_for_encrypt (initial_tx_keys c) in
    Ret (c {{ initial_tx_keys := keys; initial_tx_keys_ready := true }}).

(** The next chunk of [tx], at most [chunk_budget] bytes, as a CRYPTO frame in a
    2048-byte buffer, and the size of the chunk. *)
Definition next_crypto (tx : quic_crypto_tx_t) (chunk_budget : Z) : res (option (list Z * Z)) :=
  match quic_crypto_tx_next tx chunk_budget with
  | None => Ret None
  | Some (chunk_off, chunk_ptr, chunk_len) =>
      let chunk_len := if 2048 <? chunk_len + 32 then 2048 - 32 else chunk_len in
      let! chunk := rdn chunk_ptr chunk_len in
      let frames := quic_frame_crypto_encode 2048 chunk_off chunk in
      Ret (if zlen frames =? 0 then None else Some (frames, chunk_len))
  end.

Definition quic_conn_emit_initial (c : quic_conn_t) (out : list Z) (out_cap : Z) : res (Z * list Z * quic_conn_t) :=
  if negb (peer_addrs_known c) then Ret (0, out, c)
  else
    let hdr_overhead := 1 + 4 + 1 + peer_scid_len c + 1 + our_scid_len c + 1 + 2 + 2 in
    let fixed := hdr_overhead + (1 + 8 + 8) + 16 in
    if out_cap <=? fixed then Ret (0, out, c)
    else
      let! next := next_crypto (tx_initial c) (out_cap - fixed) in
      match next with
      | None => Ret (0, out, c)
      | Some (frames, chunk_len) =>
          let! c := ensure_initial_tx_keys c in
          if negb (initial_tx_keys_ready c) then Ret (0, out, c)
          else
            let! dcid := rdn (peer_scid c) (peer_scid_len c) in
            let! scid := rdn (our_scid c) (our_scid_len c) in
            let pkt := mk_ipkt 1 dcid (peer_scid_len c) scid (our_scid_len c) [] 0 (initial_tx_next_pn c) 2 frames (zlen frames) in
            let! (n, out) := quic_initial_build out out_cap pkt (initial_tx_keys c) false in
            if n =? 0 then Ret (0, out, c)
            else
              Ret (n, out, c {{ tx_initial := quic_crypto_tx_consume (tx_initial c) chunk_len;
                                initial_tx_next_pn := u64 (initial_tx_next_pn c + 1) }})
      end.

(** ** The Handshake epoch *)

Definition hs_keys_install_one (secret : list Z) (secret_len : Z) : res quic_initial_keys_t :=
  let! big := quic_keys_from_secret impl junk hl0 secret secret_len 16 16 big0 in
  let! key := rdn (kt_key big) 16 in
  let! iv := rdn (kt_iv big) 12 in
  let! hp := rdn (kt_hp big) 16 in
  Ret (mk_qkeys key iv hp).

(** [Fail] is -1; the connection is then unchanged. *)
Definition quic_conn_install_handshake_secrets (c : quic_conn_t) (tx_secret rx_secret : list Z) (secret_len : Z) : res quic_conn_t :=
  if handshake_keys_ready c then Ret c
  else
    let! k_tx := hs_keys_install_one tx_secret secret_len in
    let! k_rx := hs_keys_install_one rx_secret secret_len in
    Ret (c {{ handshake_tx_keys := k_tx; handshake_rx_keys := k_rx; handshake_keys_ready := true }}).

Definition quic_conn_handshake_tx_set_pending (c : quic_conn_t) (bytes : list Z) (len : Z) : quic_conn_t :=
  c {{ tx_handshake := quic_crypto_tx_set_pending (tx_handshake c) bytes len }}.

Definition frame_allowed_in_handshake (f : quic_frame_t) : bool :=
  match f with FPadding _ | FPing | FAck _ _ _ _ _ _ _ _ _ _ | FCrypto _ _ _ | FClose false _ _ _ _ => true | _ => false end.

Definition handshake_frame (f : quic_frame_t) (c : quic_conn_t) : res (bool * quic_conn_t) :=
  if negb (frame_allowed_in_handshake f) then Ret (false, c)
  else
    match f with
    | FCrypto offset length data =>
        let! (rc, rx) := quic_crypto_rx_stage (rx_handshake c) offset data length in
        let c := c {{ rx_handshake := rx }} in
        if rc <? 0 then Ret (false, c)
        else Ret (true, c {{ handshake_crypto_bytes_rcvd := u64 (handshake_crypto_bytes_rcvd c + length);
                             handshake_ack_eliciting_rcvd := u64 (handshake_ack_eliciting_rcvd c + 1) }})
    | FPing => Ret (true, c {{ handshake_ack_eliciting_rcvd := u64 (handshake_ack_eliciting_rcvd c + 1) }})
    | _ => Ret (true, c)
    end.

Definition quic_conn_recv_handshake (c : quic_conn_t) (datagram : list Z) (len : Z) : res (Z * quic_conn_t) :=
  if negb (handshake_keys_ready c) then Ret (-1, c)
  else if len <? 7 then Ret (-1, c)
  else
    let! b0 := rd datagram 0 in
    if negb (Z.land b0 0xc0 =? 0xc0) then Ret (-1, c)
    else if negb (Z.land b0 0x30 =? 0x20) then Ret (-1, c)
    else
      let! version := rd32be datagram 1 in
      if negb (version =? 1) then Ret (-1, c)
      else
        let! (pkt, _) := quic_handshake_parse datagram len (handshake_rx_keys c) scratch0 2048 in
        match pkt with
        | None => Ret (-1, c)
        | Some pkt =>
            let c := c {{ handshake_pkts_rcvd := u64 (handshake_pkts_rcvd c + 1) }} in
            walk handshake_frame (h_payload pkt) (h_payload_len pkt) c
        end.

Definition quic_conn_handshake_rx_peek (c : quic_conn_t) : Z * option (list Z) := quic_crypto_rx_peek (rx_handshake c).
Definition quic_conn_handshake_rx_advance (c : quic_conn_t) (n : Z) : quic_conn_t := c {{ rx_handshake := quic_crypto_rx_advance (rx_handshake c) n }}.

Definition quic_conn_emit_handshake (c : quic_conn_t) (out : list Z) (out_cap : Z) : res (Z * list Z * quic_conn_t) :=
  if negb (peer_addrs_known c) then Ret (0, out, c)
  else if negb (handshake_keys_ready c) then Ret (0, out, c)
  else
    let hdr_overhead := 1 + 4 + 1 + peer_scid_len c + 1 + our_scid_len c + 2 + 2 in
    let fixed := hdr_overhead + (1 + 8 + 8) + 16 in
    if out_cap <=? fixed then Ret (0, out, c)
    else
      let! next := next_crypto (tx_handshake c) (out_cap - fixed) in
      match next with
      | None => Ret (0, out, c)
      | Some (frames, chunk_len) =>
          let! dcid := rdn (peer_scid c) (peer_scid_len c) in
          let! scid := rdn (our_scid c) (our_scid_len c) in
          let pkt := mk_hpkt 1 dcid (peer_scid_len c) scid (our_scid_len c) (handshake_tx_next_pn c) 2 frames (zlen frames) in
          let! (n, out) := quic_handshake_build out out_cap pkt (handshake_tx_keys c) in
          if n =? 0 then Ret (0, out, c)
          else
            Ret (n, out, c {{ tx_handshake := quic_crypto_tx_consume (tx_handshake c) chunk_len;
                              handshake_tx_next_pn := u64 (handshake_tx_next_pn c + 1) }})
      end.

(** ** The client's Finished and the 1-RTT keys *)

(** A call whose failure is [return -1]. *)
Definition or_minus1 {A} (m : res A) (c : quic_conn_t) (k : A -> res (Z * quic_conn_t)) : res (Z * quic_conn_t) :=
  match m with Fail => Ret (-1, c) | Oob => Oob | Ret a => k a end.

Definition quic_server_finish_handshake (c : quic_conn_t) : res (Z * quic_conn_t) :=
  if negb (have_handshake_state c) then Ret (-1, c)
  else if app_keys_ready c then Ret (0, c)
  else
    match quic_crypto_rx_peek (rx_handshake c) with
    | (_, None) => Ret (-1, c)
    | (avail, Some fin) =>
        if avail <? 4 then Ret (-1, c)
        else
          let! t := rd fin 0 in
          if negb (t =? 0x14) then Ret (-1, c)
          else
            let! l2 := rd fin 1 in
            let! l1 := rd fin 2 in
            let! l0 := rd fin 3 in
            let body_len := Z.lor (Z.lor (Z.shiftl l2 16) (Z.shiftl l1 8)) l0 in
            if negb (body_len =? 32) then Ret (-1, c)
            else if avail <? 4 + 32 then Ret (-1, c)
            else
              let! ok := tls13_verify_finished impl junk hl0 (client_handshake_traffic_secret c) (transcript_hash_thru_server_fin c) (padd fin 4) in
              if negb ok then Ret (-1, c)
              else
                let local := ztake 32 (sc_buf junk) in
                or_minus1 (tls13_compute_application_secrets impl junk hl0 (q_handshake_secret c) (transcript_hash_thru_server_fin c) local local) c
                  (fun '(ms, c_ap, s_ap) =>
                    or_minus1 (hs_keys_install_one s_ap 32) c (fun tx_keys =>
                    or_minus1 (hs_keys_install_one c_ap 32) c (fun rx_keys =>
                      Ret (0, c {{ app_tx_keys := tx_keys; app_rx_keys := rx_keys;
                                   client_application_traffic_secret_0 := c_ap; server_application_traffic_secret_0 := s_ap;
                                   q_master_secret := ms; app_keys_ready := true;
                                   rx_handshake := quic_crypto_rx_advance (rx_handshake c) (4 + 32) }}))))
    end.

(** ** 1-RTT packets *)

Definition quic_conn_app_tx_next_pn (c : quic_conn_t) : Z := app_tx_next_pn c.

Definition quic_conn_emit_app (c : quic_conn_t) (payload : list Z) (payload_len : Z) (out : list Z) (out_cap : Z) : res (Z * list Z * quic_conn_t) :=
  if negb (app_keys_ready c) then Ret (0, out, c)
  else if negb (peer_addrs_known c) then Ret (0, out, c)
  else
    let hdr := 1 + peer_scid_len c + 2 + 16 in
    if out_cap <? u64 (hdr + payload_len) then Ret (0, out, c)
    else if QUIC_MAX_CID_LEN <? peer_scid_len c then Ret (0, out, c)
    else
      let! dcid := rdn (peer_scid c) (peer_scid_len c) in
      let pkt := mk_spkt dcid (peer_scid_len c) (app_tx_next_pn c) 2 payload payload_len 0 0 in
      let! (n, out) := quic_short_build out out_cap pkt (app_tx_keys c) in
      if n =? 0 then Ret (0, out, c)
      else Ret (n, out, c {{ app_tx_next_pn := u64 (app_tx_next_pn c + 1) }}).

(** The slot of stream [id] and the first free slot, from index [i] on. *)
Fixpoint find_slot (l : list quic_stream_rx_t) (id : Z) (i : nat) (free_slot : option nat) : option nat * option nat :=
  match l with
  | [] => (None, free_slot)
  | s :: l =>
      if s_in_use s && (s_stream_id s =? id) then (Some i, free_slot)
      else find_slot l id (S i) (match free_slot with None => if negb (s_in_use s) then Some i else None | _ => free_slot end)
  end.

Definition app_frame (f : quic_frame_t) (c : quic_conn_t) : res (bool * quic_conn_t) :=
  match f with
  | FNewToken _ _ | FHandshakeDone => Ret (false, c)
  | FStream stream_id offset length fin data =>
      let claimed :=
        match find_slot (streams c) stream_id 0 None with
        | (Some slot, _) => Some (slot, c)
        | (None, Some slot) => Some (slot, c {{ streams := <[slot := quic_stream_rx_init stream_id]> (streams c) }})
        | (None, None) => None
        end in
      match claimed with
      | None => Ret (false, c)
      | Some (slot, c) =>
          match streams c !! slot with
          | None => Oob
          | Some s =>
              let! (rc, s) := quic_stream_rx_ingest s offset data length fin in
              let c := c {{ streams := <[slot := s]> (streams c) }} in
              Ret (negb (rc <? 0), c)
          end
      end
  | _ => Ret (true, c)
  end.

Definition quic_conn_recv_app (c : quic_conn_t) (datagram : list Z) (len : Z) : res (Z * quic_conn_t) :=
  if negb (app_keys_ready c) then Ret (-1, c)
  else if len <? 1 then Ret (-1, c)
  else
    let! b0 := rd datagram 0 in
    if negb (Z.land b0 0x80 =? 0) then Ret (-1, c)
    else if Z.land b0 0x40 =? 0 then Ret (-1, c)
    else
      let! (pkt, _) := quic_short_parse datagram len (our_scid_len c) (app_rx_keys c) scratch0 2048 in
      match pkt with
      | None => Ret (-1, c)
      | Some pkt =>
          if negb (s_dcid_len pkt =? our_scid_len c) then Ret (-1, c)
          else
            let! same := mem_eq (s_dcid pkt) (our_scid c) (our_scid_len c) in
            if negb same then Ret (-1, c)
            else
              let c := c {{ app_pkts_rcvd := u64 (app_pkts_rcvd c + 1) }} in
              walk app_frame (s_payload pkt) (s_payload_len pkt) c
      end.
End Model.
