(* ===== verification/ConnSafety.v ===== *)
(** * The QUIC connection: the invariant

    Every operation of [Conn] preserves the well-formedness of the connection,
    and whatever datagrams arrive the receive functions stay within their
    buffers, except for the length underflow of the long-header parsers that
    [PacketTheorems.initial_length_zero_oob] describes. *)

From Stdlib Require Import ZArith Lia String.
From stdpp Require Import list numbers option.
From coqutil Require Import Datatypes.RecordSetters.
Import DoubleBraceUpdate.
From S2P Require Import Prelude Util Words Aead Aes AesGcm Varint CryptoStream Stream Frames Sha256 Sha256Theorems Packet PacketTheorems Kdf KdfTheorems TlsSchedule Conn.

#[local] Opaque aead_enc aead_mac aes_block aes128_gcm_seal aes128_gcm_open aes128_init aes128_encrypt_block sha256_hash hmac expand_label.

(** ** Well-formed connections *)

(** A 20-byte connection id buffer with [n] bytes in use. *)
Definition id_buf (b : list Z) (n : Z) : Prop := zlen b = 20 /\ Forall byte_ok b /\ 0 <= n <= 20.

Definition tx_ok (tx : quic_crypto_tx_t) : Prop :=
  0 <= tx_pending_len tx <= zlen (tx_pending tx) /\ Forall byte_ok (tx_pending tx) /\ 0 <= tx_next_offset tx < 2 ^ 64.

Definition epoch_ok (rx : quic_crypto_rx_t) : Prop := rx_ok rx /\ Forall byte_ok (rx_data rx).

Record conn_ok (c : quic_conn_t) : Prop := {
  co_initial : keys_ok (initial_keys c) /\ keys_ok (initial_tx_keys c);
  co_handshake : keys_ok (handshake_tx_keys c) /\ keys_ok (handshake_rx_keys c);
  co_app : keys_ok (app_tx_keys c) /\ keys_ok (app_rx_keys c);
  co_ids : id_buf (peer_dcid c) (peer_dcid_len c) /\ id_buf (peer_scid c) (peer_scid_len c) /\ id_buf (our_scid c) (our_scid_len c);
  co_rx : epoch_ok (rx_initial c) /\ epoch_ok (rx_handshake c);
  co_tx : tx_ok (tx_initial c) /\ tx_ok (tx_handshake c);
  co_pn : 0 <= initial_tx_next_pn c < 2 ^ 64 /\ 0 <= handshake_tx_next_pn c < 2 ^ 64 /\ 0 <= app_tx_next_pn c < 2 ^ 64;
  co_secrets : secret_ok (q_handshake_secret c) /\ secret_ok (client_handshake_traffic_secret c) /\ secret_ok (transcript_hash_thru_server_fin c);
  co_streams : length (streams c) = QUIC_CONN_MAX_STREAMS /\ Forall (fun s => s_in_use s = true -> stream_ok s) (streams c)
}.

(** [conn_ok] of an updated connection: the parts that are unchanged. *)
Ltac conn_same H := destruct H; constructor; cbn; try assumption.

Lemma zero_keys_ok : keys_ok zero_keys.
Proof. split; [|split]; (split; [by apply bytes_okb_ok|done]). Qed.

Lemma epoch_rx_ok : epoch_ok epoch_rx.
Proof. split; [|by apply bytes_okb_ok]. apply (ri_ok [] 4096 512 [] epoch_rx). apply run_init; [|done|done]. unfold zlen. by rewrite length_replicate. Qed.

Lemma zeros_id n : 0 <= n <= 20 -> id_buf (replicate 20 0) n.
Proof. split; [done|]. split; [by apply bytes_okb_ok|done]. Qed.

Lemma init_server_ok : conn_ok quic_conn_init_server.
Proof.
  pose proof zero_keys_ok. pose proof epoch_rx_ok. pose proof (zeros_id 0 ltac:(lia)). assert (tx_ok quic_crypto_tx_init) by (split; [done|split; [constructor|done]]).
  pose proof zero32_ok. constructor; cbn -[epoch_rx zero_keys]; try done. split; [done|]. by repeat constructor.
Qed.

(** ** Staging a view of a packet *)

Lemma stage_loop_prefix k : forall rx off p q i saw, 0 <= i -> i + Z.of_nat k <= zlen p -> stage_loop rx off (p ++ q) i k saw = stage_loop rx off p i k saw.
Proof.
  induction k as [|k IH]; intros rx off p q i saw Hi Hk; [done|]. cbn [stage_loop]. rewrite (rd_app_l p q) by lia.
  destruct (bm_get (rx_bitmap rx) (off + i)) as [g| |]; [cbn [rbind]|done|done]. destruct (rd p i) as [b| |]; [cbn [rbind]|done|done].
  destruct (negb (g =? 0)).
  - destruct (rd (rx_data rx) (off + i)) as [d| |]; [cbn [rbind]|done|done]. destruct (negb (d =? b)); [done|]. apply IH; lia.
  - destruct (wr (rx_data rx) (off + i) b) as [d| |]; [cbn [rbind]|done|done]. destruct (bm_set (rx_bitmap rx) (off + i)) as [bm| |]; [cbn [rbind]|done|done]. apply IH; lia.
Qed.

(** Only the first [zlen p] bytes behind the pointer are read. *)
Lemma stage_prefix rx off p q : quic_crypto_rx_stage rx off (p ++ q) (zlen p) = quic_crypto_rx_stage rx off p (zlen p).
Proof. unfold quic_crypto_rx_stage. pose proof (zlen_nonneg p). by rewrite stage_loop_prefix by lia. Qed.

Lemma ingest_prefix s off p q fin : quic_stream_rx_ingest s off (p ++ q) (zlen p) fin = quic_stream_rx_ingest s off p (zlen p) fin.
Proof. unfold quic_stream_rx_ingest. destruct (stream_fin _ _ _); [|done]. by rewrite stage_prefix. Qed.

(** A view of [len] bytes. *)
Lemma view_split p in_len off len data : view_in p in_len off len data -> in_len <= zlen p -> Forall byte_ok p -> exists d q, data = d ++ q /\ zlen d = len /\ Forall byte_ok d.
Proof.
  intros (H0 & -> & H1 & H2) Hl Hb. destruct (split_buffer len (padd p (off - len))) as (d & q & E & Hd); [rewrite zlen_padd; lia|].
  exists d, q. split_and!; [done|done|]. assert (Hp : Forall byte_ok (d ++ q)) by (rewrite <- E; by apply Forall_drop). by apply Forall_app in Hp as [? _].
Qed.

Lemma wr_bytes p i v p' : wr p i v = Ret p' -> Forall byte_ok p -> byte_ok v -> Forall byte_ok p'.
Proof. unfold wr. destruct (_ && _); intros [= <-]. intros. by apply Forall_insert. Qed.

Lemma stage_loop_bytes k : forall rx off p i saw, Forall byte_ok (rx_data rx) -> Forall byte_ok p ->
  match stage_loop rx off p i k saw with Ret (_, rx', _) => Forall byte_ok (rx_data rx') | _ => True end.
Proof.
  induction k as [|k IH]; intros rx off p i saw Hr Hp; [done|]. cbn [stage_loop].
  destruct (bm_get (rx_bitmap rx) (off + i)) as [g| |]; [cbn [rbind]|done|done]. destruct (rd p i) as [b| |] eqn:Eb; [cbn [rbind]|done|done]. destruct (negb (g =? 0)).
  - destruct (rd (rx_data rx) (off + i)) as [d| |]; [cbn [rbind]|done|done]. destruct (negb (d =? b)); [done|]. by apply IH.
  - destruct (wr (rx_data rx) (off + i) b) as [d| |] eqn:Ew; [cbn [rbind]|done|done]. destruct (bm_set (rx_bitmap rx) (off + i)) as [bm| |]; [cbn [rbind]|done|done].
    apply IH; [|done]. cbn. eapply wr_bytes; [exact Ew|assumption|]. eapply rd_byte; eassumption.
Qed.

Lemma stage_bytes rx off p len rc rx' : quic_crypto_rx_stage rx off p len = Ret (rc, rx') -> Forall byte_ok (rx_data rx) -> Forall byte_ok p -> Forall byte_ok (rx_data rx').
Proof.
  unfold quic_crypto_rx_stage. intros E Hr Hp. destruct (len =? 0); [by injection E as <- <-|]. destruct (_ || _); [by injection E as <- <-|]. destruct (_ <? _); [by injection E as <- <-|].
  pose proof (stage_loop_bytes (Z.to_nat len) rx off p 0 false Hr Hp) as H. destruct (stage_loop rx off p 0 (Z.to_nat len) false) as [[[ok rx1] saw]| |]; [cbn [rbind] in E|done|done].
  destruct ok; [|by injection E as <- <-]. cbn [negb] in E. destruct (contig_loop _ _ _ _) as [c| |]; [cbn [rbind] in E|done|done]. injection E as <- <-. by destruct (rx_highest rx1 <? _).
Qed.

Lemma stage_any rx off d q : epoch_ok rx -> 0 <= off <= QUIC_VARINT_MAX -> zlen d < 2 ^ 62 -> Forall byte_ok d ->
  exists rc rx', quic_crypto_rx_stage rx off (d ++ q) (zlen d) = Ret (rc, rx') /\ epoch_ok rx'.
Proof.
  intros [Hok Hbr] Ho Hd Hb. rewrite stage_prefix. pose proof (zlen_nonneg d). assert (QUIC_VARINT_MAX < 2 ^ 62) by done. destruct (decide (zlen d = 0)) as [E|E].
  - exists 0, rx. unfold quic_crypto_rx_stage. by rewrite E.
  - destruct (stage_total rx off d Hok ltac:(lia) ltac:(lia)) as (rc & rx' & E'). exists rc, rx'. split; [done|].
    split; [by eapply stage_highest; [exact Hok| | |exact E']; lia|]. by eapply stage_bytes.
Qed.

(** ** Frame handlers *)

(** The frame was decoded from a buffer of bytes. *)
Definition frame_ok (f : quic_frame_t) : Prop :=
  match f with
  | FCrypto o len data => 0 <= o <= QUIC_VARINT_MAX /\ exists d q, data = d ++ q /\ zlen d = len /\ zlen d < 2 ^ 62 /\ Forall byte_ok d
  | FStream id o len _ data => 0 <= o <= QUIC_VARINT_MAX /\ exists d q, data = d ++ q /\ zlen d = len /\ zlen d < 2 ^ 62 /\ Forall byte_ok d
  | _ => True
  end.

Lemma views_frame_ok p in_len off f : Forall byte_ok p -> in_len <= zlen p < 2 ^ 62 -> frame_views_ok p in_len off f -> frame_ok f.
Proof.
  intros Hb Hl Hv. destruct f; try exact I; cbn in *.
  - destruct Hv as [Ho Hv]. split; [done|]. destruct (view_split _ _ _ _ _ Hv) as (d & q & -> & <- & Hd); [lia|done|]. exists d, q. destruct Hv as (_ & _ & ? & ?). split_and!; try done. lia.
  - destruct Hv as (_ & Ho & Hv). split; [done|]. destruct (view_split _ _ _ _ _ Hv) as (d & q & -> & <- & Hd); [lia|done|]. exists d, q. destruct Hv as (_ & _ & ? & ?). split_and!; try done. lia.
Qed.

(** A loop over frames keeps what its handler keeps. *)
Lemma frame_walk_inv (P : quic_conn_t -> Prop) handle :
  (forall f c, frame_ok f -> P c -> twp (handle f c) (fun r => P (snd r))) ->
  forall fuel payload n fo c, Forall byte_ok payload -> n <= zlen payload < 2 ^ 62 -> 0 <= fo -> n - fo <= Z.of_nat fuel -> P c ->
  twp (frame_walk handle fuel payload n fo c) (fun r => (fst r = 0 \/ fst r = -1) /\ P (snd r)).
Proof.
  intros Hh. induction fuel as [|fuel IH]; intros payload n fo c Hb Hn Hfo Hf Hc; cbn [frame_walk]; (destruct (Z.ltb_spec fo n); [|cbn; auto]); [lia|].
  pose proof (frame_decode_wp (padd payload fo) (n - fo) ltac:(auto with pico) ltac:(rewrite zlen_padd; lia)) as Hd.
  destruct (quic_frame_decode (padd payload fo) (n - fo)) as [[[[k t] f]|]| |]; [|cbn; auto|cbn; auto|contradiction].
  destruct Hd as (off & t' & f' & [= -> -> ->] & _ & Hoff & Hv). apply twp_bind.
  pose proof (Hh f' c (views_frame_ok (padd payload fo) (n - fo) off f' ltac:(auto with pico) ltac:(rewrite zlen_padd; lia) Hv) Hc) as Hr. destruct (handle f' c) as [[ok c']| |]; [|contradiction|contradiction]. cbn [twp snd] in *.
  destruct ok; [|cbn; auto]. apply IH; try done; lia.
Qed.

Lemma initial_frame_ok f c : frame_ok f -> conn_ok c -> twp (initial_frame f c) (fun r => conn_ok (snd r)).
Proof.
  intros Hf Hc. unfold initial_frame. destruct (frame_allowed_in_initial f); [|exact Hc]. cbn [negb].
  destruct f; try exact Hc; [conn_same Hc|]. destruct Hf as (Ho & d & q & -> & <- & Hl & Hb).
  destruct (stage_any (rx_initial c) offset d q (proj1 (co_rx c Hc)) Ho Hl Hb) as (rc & rx & -> & Hrx). ret. destruct (rc <? 0); conn_same Hc; split; [assumption|apply co_rx0|assumption|apply co_rx0].
Qed.

Lemma handshake_frame_ok f c : frame_ok f -> conn_ok c -> twp (handshake_frame f c) (fun r => conn_ok (snd r)).
Proof.
  intros Hf Hc. unfold handshake_frame. destruct (frame_allowed_in_handshake f); [|exact Hc]. cbn [negb].
  destruct f; try exact Hc; [conn_same Hc|]. destruct Hf as (Ho & d & q & -> & <- & Hl & Hb).
  destruct (stage_any (rx_handshake c) offset d q (proj2 (co_rx c Hc)) Ho Hl Hb) as (rc & rx & -> & Hrx). ret. destruct (rc <? 0); conn_same Hc; split; [apply co_rx0|assumption|apply co_rx0|assumption].
Qed.

(** The slot that holds the stream, or else that none does and the first free
    slot. *)
Lemma find_slot_spec l id : forall i fr,
  match find_slot l id i fr with
  | (Some j, _) => exists s, (i <= j)%nat /\ l !! (j - i)%nat = Some s /\ s_in_use s = true /\ s_stream_id s = id
  | (None, o) =>
      Forall (fun s => s_in_use s = true -> s_stream_id s <> id) l /\
      match fr, o with
      | Some _, _ => o = fr
      | None, Some j => exists s, (i <= j)%nat /\ l !! (j - i)%nat = Some s /\ s_in_use s = false
      | None, None => Forall (fun s => s_in_use s = true) l
      end
  end.
Proof.
  induction l as [|s l IH]; intros i fr; cbn [find_slot]; [split; [constructor|]; by destruct fr; [|constructor]|].
  destruct (s_in_use s && (s_stream_id s =? id)) eqn:E; [apply andb_true_iff in E as [E1 E2]; exists s; rewrite Nat.sub_diag; split_and!; try done; lia|].
  assert (Hs : s_in_use s = true -> s_stream_id s <> id) by (intros Hu; rewrite Hu in E; cbn in E; lia).
  set (fr' := match fr with None => if negb (s_in_use s) then Some i else None | _ => fr end). specialize (IH (S i) fr'). destruct (find_slot l id (S i) fr') as [[j|] o].
  - destruct IH as (s' & Hj & Hl & H1 & H2). exists s'. replace (j - i)%nat with (S (j - S i)) by lia. split_and!; try done. lia.
  - destruct IH as [Hn Ho]. split; [by constructor|]. unfold fr' in Ho. destruct fr as [k|]; [done|]. destruct (s_in_use s) eqn:Eu; cbn [negb] in Ho.
    + destruct o as [j|]; [|by constructor]. destruct Ho as (s' & Hj & Hl & Hf). exists s'. replace (j - i)%nat with (S (j - S i)) by lia. split_and!; try done. lia.
    + subst o. exists s. rewrite Nat.sub_diag. by split_and!.
Qed.

Lemma app_frame_ok f c : frame_ok f -> conn_ok c -> twp (app_frame f c) (fun r => conn_ok (snd r)).
Proof.
  intros Hf Hc. unfold app_frame. destruct f; try exact Hc. destruct Hf as (Ho & d & q & -> & <- & Hl & Hb). pose proof (co_streams c Hc) as [Hn Hs].
  pose proof (find_slot_spec (streams c) stream_id 0 None) as Hf. pose proof (zlen_nonneg d). assert (QUIC_VARINT_MAX < 2 ^ 62) by done.
  assert (Hgo : forall slot s c0, conn_ok c0 -> streams c0 !! slot = Some s -> s_in_use s = true -> stream_ok s ->
    twp (match streams c0 !! slot with None => Oob | Some s => let! (rc, s) := quic_stream_rx_ingest s offset (d ++ q) (zlen d) fin in
       let c := c0 {{ streams := <[slot := s]> (streams c0) }} in Ret (negb (rc <? 0), c) end) (fun r => conn_ok (snd r))).
  { intros slot s c0 Hc0 -> Hu Hso. rewrite ingest_prefix. destruct (ingest_preserves s offset d fin Hso Hu) as (rc & s' & -> & Hs' & _ & _); [lia|lia|]. ret.
    cbn [twp snd]. conn_same Hc0. destruct co_streams0 as [L F]. split; [by rewrite length_insert|]. by apply Forall_insert. }
  destruct (find_slot (streams c) stream_id 0 None) as [[j|] [k|]].
  1,2: destruct Hf as (s & _ & Hj & Hu & _); rewrite Nat.sub_0_r in Hj; apply (Hgo j s c Hc Hj Hu); eapply Forall_lookup_1 in Hj; [|exact Hs]; auto.
  - destruct Hf as (_ & s & _ & Hk & _). rewrite Nat.sub_0_r in Hk. apply lookup_lt_Some in Hk. apply (Hgo k (quic_stream_rx_init stream_id)); [|cbn; by apply list_lookup_insert_eq|done|apply stream_init_ok].
    conn_same Hc. split; [by rewrite length_insert|]. apply Forall_insert; [done|]. intros _. apply stream_init_ok.
  - exact Hc.
Qed.

(** The lengths in an equation are not negative. *)
Ltac lens E := repeat match type of E with context [zlen ?l] => lazymatch goal with _ : 0 <= zlen l |- _ => fail | _ => pose proof (zlen_nonneg l) end end.

(** ** Receiving *)

(** The uninitialised [quic_keys_t] and scratch buffer of a call. *)
Definition scratch_ok (big0 : quic_keys_t) (scratch0 : list Z) : Prop :=
  (zlen (kt_key big0) = 32 /\ zlen (kt_iv big0) = 12 /\ zlen (kt_hp big0) = 32) /\ zlen scratch0 = 2048 /\ Forall byte_ok scratch0.

(** The out-of-bounds access of the long-header parsers: the Length field of the
    datagram is smaller than the packet number. *)
Definition length_underflow (dg : list Z) : Prop :=
  exists keys off k L, quic_varint_decode (padd dg off) (zlen dg - off) = Ret (k, L) /\ underflow keys dg (off + k) L 2048.

(** A receive function returns 0 or -1 and a well-formed connection, unless the
    datagram has the underflow. *)
Definition received_ok (dg : list Z) (r : res (Z * quic_conn_t)) : Prop :=
  match r with Ret (rc, c) => (rc = 0 \/ rc = -1) /\ conn_ok c | Fail => False | Oob => length_underflow dg end.

Lemma received_twp dg r : twp r (fun r => (fst r = 0 \/ fst r = -1) /\ conn_ok (snd r)) -> received_ok dg r.
Proof. by destruct r as [[rc c]| |]. Qed.

Lemma walk_ok handle payload n dg c :
  (forall f c, frame_ok f -> conn_ok c -> twp (handle f c) (fun r => conn_ok (snd r))) ->
  Forall byte_ok payload -> n = zlen payload -> n < 2 ^ 62 -> conn_ok c -> received_ok dg (walk handle payload n c).
Proof. intros Hh Hb -> Hn Hc. pose proof (zlen_nonneg payload). apply received_twp, (frame_walk_inv conn_ok); try done; lia. Qed.

Lemma received_failed dg c : conn_ok c -> received_ok dg (Ret (-1, c)).
Proof. cbn. auto. Qed.
Create HintDb conn.
#[export] Hint Resolve received_failed : conn.

Lemma id_buf_keep b n : id_buf b n -> Forall byte_ok (ztake n b) /\ zlen (ztake n b) = n.
Proof. intros (L & B & N). split; [by apply Forall_take|rewrite zlen_ztake; lia]. Qed.

(** Copying an id into its 20-byte buffer. *)
Lemma copy_id b m p n : id_buf b m -> Forall byte_ok p -> 0 <= n <= 20 -> n <= zlen p ->
  exists b', (let! d := rdn p n in blit b 0 d) = Ret b' /\ id_buf b' n /\ ztake n b' = ztake n p.
Proof.
  intros (L & B & _) Hp Hn Hl. rewrite rdn_ok by lia. ret. assert (Hz : zlen (ztake n p) = n) by (rewrite zlen_ztake; lia). rewrite blit_ok by lia. eexists. split; [reflexivity|].
  change (ztake 0 b) with (@nil Z). cbn [app]. rewrite Hz. split; [|by apply ztake_app].
  split; [rewrite zlen_app, zlen_padd; lia|]. split; [|done]. apply Forall_app. split; [by apply Forall_take|by apply Forall_drop].
Qed.

(** ** Chunks of the CRYPTO stream *)

Definition crypto_wire (off : Z) (d : list Z) : list Z := wire (layout (RqCrypto off d)).

Lemma varint_size_any v : 0 <= v -> 0 <= quic_varint_size v <= 8 /\ (v <= QUIC_VARINT_MAX -> 1 <= quic_varint_size v) /\ (QUIC_VARINT_MAX < v -> quic_varint_size v = 0).
Proof. intros H. unfold quic_varint_size, QUIC_VARINT_MAX in *. repeat zcase; lia. Qed.

Lemma crypto_wire_ok off d : 0 <= off <= QUIC_VARINT_MAX -> zlen d <= QUIC_VARINT_MAX -> Forall byte_ok d ->
  Forall byte_ok (crypto_wire off d) /\ 3 + zlen d <= zlen (crypto_wire off d) <= 17 + zlen d.
Proof.
  intros Ho Hd Hb. pose proof (zlen_nonneg d). destruct (varint_size_any off ltac:(lia)) as (S1 & S2 & _). destruct (varint_size_any (zlen d) ltac:(lia)) as (S3 & S4 & _).
  unfold crypto_wire. cbn [layout wire field_bytes]. rewrite app_nil_r. split.
  - cbn [app]. constructor; [done|]. apply Forall_app. split; [apply varint_encode_bytes|]. apply Forall_app. split; [apply varint_encode_bytes|done].
  - unfold vbytes. cbn [app]. rewrite zlen_cons, !zlen_app, !varint_encode_length. repeat zcase; lia.
Qed.

(** The size of the chunk that a budget of [b] bytes leaves. *)
Definition chunk (tx : quic_crypto_tx_t) (b : Z) : Z := Z.min 2016 (Z.min (tx_pending_len tx) b).

Lemma next_crypto_ok tx b : tx_ok tx -> 0 < b ->
  next_crypto tx b =
  Ret (if decide (0 < tx_pending_len tx /\ tx_next_offset tx <= QUIC_VARINT_MAX) then Some (crypto_wire (tx_next_offset tx) (ztake (chunk tx b) (tx_pending tx)), chunk tx b) else None).
Proof.
  intros (Hp & Hb & Ho) H0. unfold next_crypto, quic_crypto_tx_next. destruct (Z.eqb_spec (tx_pending_len tx) 0) as [E|E]; [cbn [orb]; rewrite decide_False by lia; done|].
  destruct (Z.eqb_spec b 0) as [?|_]; [lia|]. cbn [orb]. set (n := if tx_pending_len tx <? b then _ else _).
  assert (En : n = Z.min (tx_pending_len tx) b) by (unfold n; zcase; lia). replace (if 2048 <? n + 32 then _ else n) with (chunk tx b) by (unfold chunk; zcase; lia). clearbody n.
  assert (Hc : 0 < chunk tx b <= 2016 /\ chunk tx b <= tx_pending_len tx) by (unfold chunk; lia). rewrite rdn_ok by lia. ret. set (d := ztake (chunk tx b) (tx_pending tx)).
  assert (Ld : zlen d = chunk tx b) by (apply zlen_ztake_le; lia). destruct (decide (tx_next_offset tx <= QUIC_VARINT_MAX)) as [Hv|Hv].
  - rewrite decide_True by lia. assert (M : 3000 < QUIC_VARINT_MAX) by done. pose proof (encode_layout 2048 (RqCrypto (tx_next_offset tx) d) ltac:(lia) ltac:(cbn; unfold vok; lia)) as He. cbn [encode_req] in He.
    fold (crypto_wire (tx_next_offset tx) d) in He. destruct (crypto_wire_ok (tx_next_offset tx) d ltac:(lia) ltac:(lia) ltac:(by apply Forall_take)) as [_ Hw].
    rewrite He. replace (_ <=? 2048) with true by lia. by replace (zlen _ =? 0) with false by lia.
  - rewrite decide_False by lia. destruct (varint_size_any (tx_next_offset tx) ltac:(lia)) as (_ & _ & Z0). 
    unfold quic_frame_crypto_encode. change (put_u8 2048 [] 6) with (Some [6]). 
    assert (Ev : put_varint 2048 [6] (tx_next_offset tx) = None) by (unfold put_varint, quic_varint_encode; by rewrite (Z0 ltac:(lia))). cbn [mbind option_bind]. by rewrite Ev.
Qed.

Lemma u64_bound x : 0 <= u64 x < 2 ^ 64.
Proof. apply Z.mod_pos_bound. lia. Qed.

Lemma consume_ok tx n : tx_ok tx -> 0 <= n -> tx_ok (quic_crypto_tx_consume tx n).
Proof.
  intros (Hp & Hb & Ho) Hn. unfold quic_crypto_tx_consume. set (m := if _ <? n then _ else n). assert (0 <= m <= tx_pending_len tx) by (unfold m; zcase; lia).
  split; cbn; [rewrite zlen_padd; lia|]. split; [by apply Forall_drop|apply u64_bound].
Qed.

Section Ops.
Context (impl : sha256_impl) (junk : sha256_ctx) (hl0 : list Z) (big0 : quic_keys_t) (scratch0 : list Z).
Context (Hloc : locals_ok junk hl0) (Hscr : scratch_ok big0 scratch0).

Lemma keys_lengths k : keys_ok k -> zlen (qk_key k) = 16 /\ zlen (qk_iv k) = 12 /\ zlen (qk_hp k) = 16.
Proof. intros ([_ ?] & [_ ?] & [_ ?]). auto. Qed.

(** Both Initial derivations of a connection. *)
Lemma conn_derive_ok k dcid n srv : keys_ok k -> Forall byte_ok dcid -> 0 <= n <= zlen dcid ->
  quic_initial_derive impl junk hl0 dcid n srv k = Ret (keys_of_dcid (ztake n dcid) srv).
Proof. intros Hk Hd Hn. destruct (keys_lengths k Hk) as (? & ? & ?). by rewrite (initial_derive_ok impl junk hl0 Hloc). Qed.

Definition rx_side (c : quic_conn_t) : bool := match role c with QUIC_ROLE_SERVER => false | QUIC_ROLE_CLIENT => true end.

(** The first Initial fixes the ids and the receive keys, whether or not it will
    be authenticated. *)
Lemma pin_ids_first c dcid n scid m :
  conn_ok c -> initial_keys_ready c = false -> Forall byte_ok dcid -> 0 <= n <= 20 -> n <= zlen dcid -> Forall byte_ok scid -> 0 <= m <= 20 -> m <= zlen scid ->
  exists d s, id_buf d n /\ ztake n d = ztake n dcid /\ id_buf s m /\ ztake m s = ztake m scid /\
    pin_ids impl junk hl0 c dcid n scid m =
    Ret (Some (c {{ initial_keys := keys_of_dcid (ztake n dcid) (rx_side c); initial_keys_ready := true; peer_dcid := d; peer_dcid_len := n; peer_scid := s; peer_scid_len := m; peer_addrs_known := true }})).
Proof.
  intros Hc Hr Hd Hn Hnl Hs Hm Hml. pose proof (co_ids c Hc) as (Id & Is & _).
  destruct (copy_id _ _ dcid n Id Hd Hn Hnl) as (d & Ed & Kd & Td). destruct (copy_id _ _ scid m Is Hs Hm Hml) as (s & Es & Ks & Ts). exists d, s. do 4 (split; [done|]).
  unfold pin_ids, quic_conn_force_derive_initial_keys. rewrite Hr. cbn [negb]. rewrite conn_derive_ok by (done || lia || apply (co_initial c Hc)). ret.
  rewrite rdn_ok in Ed by lia. rewrite rdn_ok in Es by lia. cbn [rbind] in Ed, Es. rewrite !rdn_ok by lia. cbn [rbind].
  match goal with |- context [blit ?b 0 (ztake n dcid)] => change b with (peer_dcid c) end. rewrite Ed. cbn [rbind].
  match goal with |- context [blit ?b 0 (ztake m scid)] => change b with (peer_scid c) end. rewrite Es. reflexivity.
Qed.

Lemma pin_ids_ok c dcid n scid m :
  conn_ok c -> Forall byte_ok dcid -> 0 <= n <= 20 -> n <= zlen dcid -> Forall byte_ok scid -> 0 <= m <= 20 -> m <= zlen scid ->
  exists o, pin_ids impl junk hl0 c dcid n scid m = Ret o /\ forall c', o = Some c' -> conn_ok c'.
Proof.
  intros Hc Hd Hn Hnl Hs Hm Hml. destruct (initial_keys_ready c) eqn:Hr.
  - unfold pin_ids. rewrite Hr. cbn [negb]. destruct (Z.eqb_spec n (peer_dcid_len c)); [|by eexists]. cbn [negb].
    destruct (co_ids c Hc) as ((Ld & _ & _) & _). rewrite mem_eq_ok by lia. ret. eexists. split; [reflexivity|]. intros c'. by case_bool_decide; intros [= <-].
  - destruct (pin_ids_first c dcid n scid m) as (d & s & Kd & _ & Ks & _ & ->); try done. eexists. split; [reflexivity|]. intros c' [= <-].
    conn_same Hc; [split; [apply keys_of_dcid_ok|apply co_initial0]|]. split_and!; try done; apply co_ids0.
Qed.

Lemma dg_byte dg i : Forall byte_ok dg -> 0 <= i < zlen dg -> exists b, rd dg i = Ret b /\ byte_ok b.
Proof. intros Hb Hi. rewrite rd_nth by done. eexists. split; [reflexivity|]. eapply rd_byte; [exact Hb|by apply rd_nth]. Qed.

Lemma authentic_size keys inp rest k L pn n pt : Forall byte_ok rest -> zlen rest <= zlen inp -> quic_varint_decode rest (zlen rest) = Ret (k, L) ->
  authentic keys inp (zlen inp - zlen rest + k) L (pn, n, pt) -> Forall byte_ok pt /\ zlen pt <= zlen inp.
Proof.
  intros Hr Hl Hd (A & AL & AB & b0 & Hn & _). split; [done|]. pose proof (varint_decode_wp rest (zlen rest) Hr ltac:(pose proof (zlen_nonneg rest); lia)) as Hv. rewrite Hd in Hv. destruct Hv as (Hk & _).
  change 3 with (Z.ones 2) in Hn. rewrite Z.land_ones in Hn by lia. pose proof (Z.mod_pos_bound b0 (2 ^ 2) ltac:(lia)). lia.
Qed.

(** What [initial_parse_any] and [handshake_parse_any] say about the payload. *)
Lemma initial_payload dg pkt keys : Forall byte_ok dg ->
  (i_version pkt = 1 /\ i_payload_len pkt = zlen (i_payload pkt) /\ exists x rest tl k L, dg = x :: cid_fields (i_dcid pkt) (i_scid pkt) ++ tl ++ i_token pkt ++ rest /\ Z.land x 0xf0 = 0xc0 /\
     quic_varint_decode (tl ++ i_token pkt ++ rest) (zlen (tl ++ i_token pkt ++ rest)) = Ret (zlen tl, zlen (i_token pkt)) /\
     quic_varint_decode rest (zlen rest) = Ret (k, L) /\ authentic keys dg (zlen dg - zlen rest + k) L (i_pn pkt, i_pn_len pkt, i_payload pkt)) ->
  Forall byte_ok (i_payload pkt) /\ i_payload_len pkt = zlen (i_payload pkt) /\ zlen (i_payload pkt) <= zlen dg.
Proof.
  intros Hb (_ & En & x & rest & tl & k & L & E & _ & _ & Ev & A). pose proof Hb as Hb'. rewrite E in Hb'. apply Forall_cons_1 in Hb' as [_ Hb']. rewrite !Forall_app in Hb'.
  pose proof (f_equal zlen E) as El. rewrite zlen_cons, !zlen_app, zlen_cid_fields in El. lens El. destruct (authentic_size _ dg rest _ _ _ _ _ ltac:(apply Hb') ltac:(lia) Ev A). auto.
Qed.

Lemma handshake_payload dg pkt keys : Forall byte_ok dg ->
  (h_version pkt = 1 /\ h_payload_len pkt = zlen (h_payload pkt) /\ exists x rest k L, dg = x :: cid_fields (h_dcid pkt) (h_scid pkt) ++ rest /\ Z.land x 0xf0 = 0xe0 /\
     quic_varint_decode rest (zlen rest) = Ret (k, L) /\ authentic keys dg (zlen dg - zlen rest + k) L (h_pn pkt, h_pn_len pkt, h_payload pkt)) ->
  Forall byte_ok (h_payload pkt) /\ h_payload_len pkt = zlen (h_payload pkt) /\ zlen (h_payload pkt) <= zlen dg.
Proof.
  intros Hb (_ & En & x & rest & k & L & E & _ & Ev & A). pose proof Hb as Hb'. rewrite E in Hb'. apply Forall_cons_1 in Hb' as [_ Hb']. rewrite !Forall_app in Hb'.
  pose proof (f_equal zlen E) as El. rewrite zlen_cons, !zlen_app, zlen_cid_fields in El. lens El. destruct (authentic_size _ dg rest _ _ _ _ _ ltac:(apply Hb') ltac:(lia) Ev A). auto.
Qed.

Lemma recv_initial_ok c dg : conn_ok c -> Forall byte_ok dg -> zlen dg < 2 ^ 62 -> received_ok dg (quic_conn_recv_initial impl junk hl0 scratch0 c dg (zlen dg)).
Proof.
  intros Hc Hb Hl. destruct Hscr as (_ & Ls & Bs). unfold quic_conn_recv_initial. change QUIC_MAX_CID_LEN with 20. destruct (Z.ltb_spec (zlen dg) 7); [auto with conn|].
  destruct (dg_byte dg 0 Hb) as (b0 & -> & B0); [lia|]. ret. do 2 (destruct (negb _); [auto with conn|]). rewrite rd32be_ok by (done || lia). ret. destruct (negb _); [auto with conn|].
  destruct (Z.leb_spec (zlen dg) 5); [lia|]. destruct (dg_byte dg 5 Hb) as (n & -> & Bn); [lia|]. ret. unfold byte_ok in Bn.
  destruct (Z.ltb_spec 20 n); cbn [orb]; [auto with conn|]. destruct (Z.ltb_spec (zlen dg - 6) n); [auto with conn|]. destruct (Z.leb_spec (zlen dg) (6 + n)); [auto with conn|].
  destruct (dg_byte dg (6 + n) Hb) as (m & -> & Bm); [lia|]. ret. unfold byte_ok in Bm.
  destruct (Z.ltb_spec 20 m); cbn [orb]; [auto with conn|]. destruct (Z.ltb_spec (zlen dg - (6 + n + 1)) m); [auto with conn|].
  destruct (pin_ids_ok c (padd dg 6) n (padd dg (6 + n + 1)) m Hc) as (o & -> & Ho); try (apply Forall_drop; exact Hb); try (rewrite zlen_padd; lia); try lia. ret.
  destruct o as [c1|]; [|auto with conn]. specialize (Ho c1 eq_refl).
  pose proof (initial_parse_any (initial_keys c1) dg scratch0 2048 (proj1 (co_initial c1 Ho)) Hb Bs ltac:(lia) ltac:(lia) Hl) as Hp.
  destruct (quic_initial_parse dg (zlen dg) (initial_keys c1) scratch0 2048) as [[[pkt|] s']| |]; [ret|ret; auto with conn|contradiction|].
  - destruct (initial_payload dg pkt (initial_keys c1) Hb Hp) as (AB & En & AL). apply walk_ok; [apply initial_frame_ok|done|done|lia|conn_same Ho].
  - destruct Hp as (off & k & L & Hd & Hu). exists (initial_keys c1), off, k, L. done.
Qed.

Lemma recv_handshake_ok c dg : conn_ok c -> Forall byte_ok dg -> zlen dg < 2 ^ 62 -> received_ok dg (quic_conn_recv_handshake scratch0 c dg (zlen dg)).
Proof.
  intros Hc Hb Hl. destruct Hscr as (_ & Ls & Bs). unfold quic_conn_recv_handshake. destruct (negb _); [auto with conn|]. destruct (Z.ltb_spec (zlen dg) 7); [auto with conn|].
  destruct (dg_byte dg 0 Hb) as (b0 & -> & B0); [lia|]. ret. do 2 (destruct (negb _); [auto with conn|]). rewrite rd32be_ok by (done || lia). ret. destruct (negb _); [auto with conn|].
  pose proof (handshake_parse_any (handshake_rx_keys c) dg scratch0 2048 (proj2 (co_handshake c Hc)) Hb Bs ltac:(lia) ltac:(lia) Hl) as Hp.
  destruct (quic_handshake_parse dg (zlen dg) (handshake_rx_keys c) scratch0 2048) as [[[pkt|] s']| |]; [ret|ret; auto with conn|contradiction|].
  - destruct (handshake_payload dg pkt (handshake_rx_keys c) Hb Hp) as (AB & En & AL). apply walk_ok; [apply handshake_frame_ok|done|done|lia|conn_same Hc].
  - destruct Hp as (off & k & L & Hd & Hu). exists (handshake_rx_keys c), off, k, L. done.
Qed.

Lemma recv_app_ok c dg : conn_ok c -> Forall byte_ok dg -> zlen dg < 2 ^ 62 ->
  twp (quic_conn_recv_app scratch0 c dg (zlen dg)) (fun r => (fst r = 0 \/ fst r = -1) /\ conn_ok (snd r)).
Proof.
  intros Hc Hb Hl. destruct Hscr as (_ & Ls & Bs). unfold quic_conn_recv_app. destruct (negb _); [cbn; auto|]. destruct (Z.ltb_spec (zlen dg) 1); [cbn; auto|].
  destruct (dg_byte dg 0 Hb) as (b0 & -> & B0); [lia|]. ret. destruct (negb _); [cbn; auto|]. destruct (_ =? 0); [cbn; auto|].
  destruct (co_ids c Hc) as (_ & _ & (Lo & Bo & No)).
  pose proof (short_parse_any (app_rx_keys c) dg (our_scid_len c) scratch0 2048 (proj2 (co_app c Hc)) Hb Bs ltac:(lia) ltac:(lia) ltac:(lia)) as Hp.
  destruct (quic_short_parse dg (zlen dg) (our_scid_len c) (app_rx_keys c) scratch0 2048) as [[[pkt|] s']| |]; [ret|cbn; auto|contradiction|contradiction].
  destruct Hp as (x & _ & _ & _ & _ & E1 & E2 & E3 & AB & E). destruct (negb _); [cbn; auto|]. rewrite mem_eq_ok by lia. ret. destruct (negb _); [cbn; auto|].
  pose proof (zlen_nonneg (s_payload pkt)). apply (frame_walk_inv conn_ok); try done; [apply app_frame_ok| |lia|conn_same Hc]. split; [lia|].
  pose proof (f_equal zlen E) as El. unfold wire_form in El. rewrite zlen_cons, !zlen_app in El.
  rewrite zlen_sealed in El by apply (co_app c Hc). cbn [pt_mid pt_pnb pt_payload] in El.
  match type of El with context [xor_bytes ?a ?b] => pose proof (zlen_nonneg (xor_bytes a b)) end. lia.
Qed.

(** ** Sending *)

Definition can_send (tx : quic_crypto_tx_t) : Prop := 0 < tx_pending_len tx /\ tx_next_offset tx <= QUIC_VARINT_MAX.

#[global] Instance can_send_dec tx : Decision (can_send tx).
Proof. unfold can_send. apply _. Defined.

(** Everything of a Handshake packet but the data. *)
Definition handshake_overhead (c : quic_conn_t) : Z := 1 + 4 + 1 + peer_scid_len c + 1 + our_scid_len c + 2 + 2 + (1 + 8 + 8) + 16.

Definition handshake_next (c : quic_conn_t) (cap : Z) : Z * list Z :=
  let tx := tx_handshake c in (tx_next_offset tx, ztake (chunk tx (cap - handshake_overhead c)) (tx_pending tx)).

Definition handshake_packet (c : quic_conn_t) (f : Z * list Z) : quic_handshake_pkt_t :=
  let frames := crypto_wire (fst f) (snd f) in
  mk_hpkt 1 (ztake (peer_scid_len c) (peer_scid c)) (peer_scid_len c) (ztake (our_scid_len c) (our_scid c)) (our_scid_len c) (handshake_tx_next_pn c) 2 frames (zlen frames).

Definition handshake_wire (c : quic_conn_t) (f : Z * list Z) : list Z := wire_form (handshake_tx_keys c) (handshake_parts (handshake_packet c f)) 0x0f.

Lemma handshake_next_ok c cap : conn_ok c -> handshake_overhead c < cap -> can_send (tx_handshake c) ->
  let '(off, d) := handshake_next c cap in
  0 <= off <= QUIC_VARINT_MAX /\ Forall byte_ok d /\ zlen d = chunk (tx_handshake c) (cap - handshake_overhead c) /\ 0 < zlen d <= 2016 /\ zlen d <= cap - handshake_overhead c.
Proof.
  intros Hc Hcap (Hp & Hv). destruct (co_tx c Hc) as [_ ((Hl & Hl2) & Hb & Ho)]. cbn. assert (E : zlen (ztake (chunk (tx_handshake c) (cap - handshake_overhead c)) (tx_pending (tx_handshake c))) = chunk (tx_handshake c) (cap - handshake_overhead c)).
  { apply zlen_ztake_le. unfold chunk. lia. }
  rewrite E. split; [lia|]. split; [by apply Forall_take|]. unfold chunk. lia.
Qed.

Lemma handshake_packet_ok c off d : conn_ok c -> 0 <= off <= QUIC_VARINT_MAX -> Forall byte_ok d -> 0 < zlen d <= 2016 ->
  handshake_ok (handshake_packet c (off, d)) /\ zlen (handshake_wire c (off, d)) <= handshake_overhead c + zlen d.
Proof.
  intros Hc Ho Hb Hd. destruct (co_ids c Hc) as (_ & Hs & Hos). destruct (id_buf_keep _ _ Hs) as [Sb Sl]. destruct (id_buf_keep _ _ Hos) as [Ob Ol]. destruct Hs as (_ & _ & Hs). destruct Hos as (_ & _ & Hos).
  assert (M : 3000 < QUIC_VARINT_MAX) by done. destruct (crypto_wire_ok off d Ho ltac:(lia) Hb) as [Wb Wl]. destruct (co_pn c Hc) as (_ & Hpn & _).
  assert (Hok : handshake_ok (handshake_packet c (off, d))).
  { unfold handshake_ok, cid_ok. cbn [handshake_packet h_version h_dcid h_dcid_len h_scid h_scid_len h_pn h_pn_len h_payload h_payload_len fst snd]. split_and!; (done || lia). }
  split; [done|]. unfold handshake_wire. pose proof (handshake_parts_ok _ Hok) as Hp. rewrite (zlen_wire _ _ _ (proj1 (co_handshake c Hc)) Hp), zlen_plain.
  cbn [handshake_parts handshake_packet pt_mid pt_pnb pt_payload h_dcid h_scid h_pn h_pn_len h_payload h_payload_len fst snd]. rewrite zlen_pn_wire, zlen_app, zlen_cid_fields, Sl, Ol by lia.
  change (zlen (length_field _)) with 2. unfold handshake_overhead. lia.
Qed.

(** The connection after sending the chunk [f]. *)
Definition handshake_sent (c : quic_conn_t) (n : Z) : quic_conn_t :=
  c {{ tx_handshake := quic_crypto_tx_consume (tx_handshake c) n; handshake_tx_next_pn := u64 (handshake_tx_next_pn c + 1) }}.

(** [quic_conn_emit_handshake] sends exactly when the peer's ids and the keys are
    there, the buffer has room for a byte of data and data is pending. *)
Lemma emit_handshake_exact c out cap : conn_ok c -> Forall byte_ok out -> cap <= zlen out < 2 ^ 62 ->
  quic_conn_emit_handshake c out cap =
  if decide (peer_addrs_known c = true /\ handshake_keys_ready c = true /\ handshake_overhead c < cap /\ can_send (tx_handshake c)) then
    let w := handshake_wire c (handshake_next c cap) in Ret (zlen w, w ++ padd out (zlen w), handshake_sent c (zlen (snd (handshake_next c cap))))
  else Ret (0, out, c).
Proof.
  intros Hc Hb Ho. destruct (co_ids c Hc) as (_ & (Sl & _ & Sn) & (Ol & _ & On)). unfold quic_conn_emit_handshake. destruct (peer_addrs_known c); cbn [negb]; [|by rewrite decide_False by (intros [? _]; done)].
  destruct (handshake_keys_ready c); cbn [negb]; [|by rewrite decide_False by (intros (_ & ? & _); done)]. cbv zeta. change (1 + 4 + 1 + peer_scid_len c + 1 + our_scid_len c + 2 + 2 + (1 + 8 + 8) + 16) with (handshake_overhead c).
  destruct (Z.leb_spec cap (handshake_overhead c)); [by rewrite decide_False by (intros (_ & _ & ? & _); lia)|].
  rewrite next_crypto_ok by (apply (co_tx c Hc) || lia). ret. fold (can_send (tx_handshake c)). destruct (decide (can_send (tx_handshake c))) as [Hs|Hs].
  2: { by rewrite decide_False by (intros (_ & _ & _ & ?); done). }
  rewrite decide_True by done. rewrite !rdn_ok by lia. ret. pose proof (handshake_next_ok c cap Hc ltac:(lia) Hs) as Hn. destruct (handshake_next c cap) as [off d] eqn:E. destruct Hn as (Hoff & Hd & El & Hz & Hz2).
  unfold handshake_next in E. injection E as <- <-. set (f := (tx_next_offset (tx_handshake c), ztake (chunk (tx_handshake c) (cap - handshake_overhead c)) (tx_pending (tx_handshake c)))) in *.
  destruct (handshake_packet_ok c _ _ Hc Hoff Hd Hz) as [Hok Hw]. fold f in Hok, Hw. fold (handshake_packet c f). change (mk_hpkt 1 _ _ _ _ _ _ _ _) with (handshake_packet c f).
  rewrite (handshake_build_ok (handshake_packet c f) _ out cap Hok (proj1 (co_handshake c Hc)) Hb Ho) by (fold (handshake_wire c f); lia). ret. fold (handshake_wire c f).
  assert (Hpos : 0 < zlen (handshake_wire c f)) by (unfold handshake_wire, wire_form; rewrite zlen_cons; match goal with |- context [zlen ?l] => pose proof (zlen_nonneg l); lia end).
  replace (_ =? 0) with false by lia. rewrite <- El. reflexivity.
Qed.

Lemma handshake_sent_ok c n : conn_ok c -> 0 <= n -> conn_ok (handshake_sent c n).
Proof. intros Hc Hn. conn_same Hc; [split; [apply co_tx0|apply consume_ok; [apply co_tx0|done]]|]. pose proof (u64_bound (handshake_tx_next_pn c + 1)). cbn in *. tauto. Qed.

(** The same for Initial packets; the keys are derived on the first call. *)
Definition initial_overhead (c : quic_conn_t) : Z := 1 + 4 + 1 + peer_scid_len c + 1 + our_scid_len c + 1 + 2 + 2 + (1 + 8 + 8) + 16.

Definition initial_next (c : quic_conn_t) (cap : Z) : Z * list Z :=
  let tx := tx_initial c in (tx_next_offset tx, ztake (chunk tx (cap - initial_overhead c)) (tx_pending tx)).

Definition initial_packet (c : quic_conn_t) (f : Z * list Z) : quic_initial_pkt_t :=
  let frames := crypto_wire (fst f) (snd f) in
  mk_ipkt 1 (ztake (peer_scid_len c) (peer_scid c)) (peer_scid_len c) (ztake (our_scid_len c) (our_scid c)) (our_scid_len c) [] 0 (initial_tx_next_pn c) 2 frames (zlen frames).

Definition tx_keyed (c : quic_conn_t) : quic_conn_t :=
  if initial_tx_keys_ready c then c
  else c {{ initial_tx_keys := keys_of_dcid (ztake (peer_dcid_len c) (peer_dcid c)) (negb (rx_side c)); initial_tx_keys_ready := true }}.

Definition initial_wire (c : quic_conn_t) (f : Z * list Z) : list Z := wire_form (initial_tx_keys c) (initial_parts (initial_packet c f) false) 0x0f.

Definition initial_sent (c : quic_conn_t) (n : Z) : quic_conn_t :=
  c {{ tx_initial := quic_crypto_tx_consume (tx_initial c) n; initial_tx_next_pn := u64 (initial_tx_next_pn c + 1) }}.

Lemma tx_keyed_ok c : conn_ok c -> conn_ok (tx_keyed c).
Proof. intros Hc. unfold tx_keyed. destruct (initial_tx_keys_ready c); [done|]. conn_same Hc. split; [apply co_initial0|apply keys_of_dcid_ok]. Qed.

Lemma ensure_ok c : conn_ok c -> peer_addrs_known c = true -> ensure_initial_tx_keys impl junk hl0 c = Ret (tx_keyed c).
Proof.
  intros Hc Hk. unfold ensure_initial_tx_keys, tx_keyed. destruct (initial_tx_keys_ready c); [done|]. rewrite Hk. cbn [negb].
  destruct (co_ids c Hc) as ((Ld & Bd & Nd) & _). rewrite conn_derive_ok by (done || lia || apply (co_initial c Hc)). ret. unfold rx_side. by destruct (role c).
Qed.

Lemma initial_packet_ok c off d : conn_ok c -> 0 <= off <= QUIC_VARINT_MAX -> Forall byte_ok d -> 0 < zlen d <= 2016 ->
  initial_ok (initial_packet c (off, d)) false /\ zlen (initial_wire c (off, d)) <= initial_overhead c + zlen d.
Proof.
  intros Hc Ho Hb Hd. destruct (co_ids c Hc) as (_ & Hs & Hos). destruct (id_buf_keep _ _ Hs) as [Sb Sl]. destruct (id_buf_keep _ _ Hos) as [Ob Ol]. destruct Hs as (_ & _ & Hs). destruct Hos as (_ & _ & Hos).
  assert (M : 3000 < QUIC_VARINT_MAX) by done. destruct (crypto_wire_ok off d Ho ltac:(lia) Hb) as [Wb Wl]. destruct (co_pn c Hc) as (Hpn & _).
  assert (Hok : initial_ok (initial_packet c (off, d)) false).
  { unfold initial_ok, cid_ok. cbn [initial_packet i_version i_dcid i_dcid_len i_scid i_scid_len i_token i_token_len i_pn i_pn_len i_payload i_payload_len fst snd]. split_and!; try (done || lia). }
  split; [done|]. unfold initial_wire. pose proof (initial_parts_ok _ false Hok) as Hp. rewrite (zlen_wire _ _ _ (proj2 (co_initial c Hc)) Hp), zlen_plain.
  destruct (initial_lengths _ false Hok) as (L1 & L2 & L3 & _). rewrite L1. change (pt_payload _) with (padded (initial_packet c (off, d)) false). rewrite L2. change (initial_pad _ false) with 0.
  unfold initial_size in L3. unfold initial_overhead. change (zlen (quic_varint_encode 8 _)) with 1 in L3. cbn [initial_packet i_dcid_len i_scid_len i_token_len i_pn_len i_payload_len fst snd] in *. lia.
Qed.

Lemma emit_initial_exact c out cap : conn_ok c -> Forall byte_ok out -> cap <= zlen out < 2 ^ 62 ->
  quic_conn_emit_initial impl junk hl0 c out cap =
  if decide (peer_addrs_known c = true /\ initial_overhead c < cap /\ can_send (tx_initial c)) then
    let c := tx_keyed c in
    let w := initial_wire c (initial_next c cap) in Ret (zlen w, w ++ padd out (zlen w), initial_sent c (zlen (snd (initial_next c cap))))
  else Ret (0, out, c).
Proof.
  intros Hc Hb Ho. unfold quic_conn_emit_initial. destruct (peer_addrs_known c) eqn:Ek; cbn [negb]; [|by rewrite decide_False by (intros [? _]; done)].
  cbv zeta. change (1 + 4 + 1 + peer_scid_len c + 1 + our_scid_len c + 1 + 2 + 2 + (1 + 8 + 8) + 16) with (initial_overhead c).
  destruct (Z.leb_spec cap (initial_overhead c)); [by rewrite decide_False by (intros (_ & ? & _); lia)|].
  rewrite next_crypto_ok by (apply (co_tx c Hc) || lia). ret. fold (can_send (tx_initial c)). destruct (decide (can_send (tx_initial c))) as [Hs|Hs].
  2: { by rewrite decide_False by (intros (_ & _ & ?); done). }
  rewrite decide_True by done. rewrite (ensure_ok c Hc Ek). ret. pose proof (tx_keyed_ok c Hc) as Hc1. assert (Er : initial_tx_keys_ready (tx_keyed c) = true) by (unfold tx_keyed; by destruct (initial_tx_keys_ready c) eqn:E).
  assert (Et : tx_initial c = tx_initial (tx_keyed c)) by (unfold tx_keyed; by destruct (initial_tx_keys_ready c)).
  assert (Eo : initial_overhead c = initial_overhead (tx_keyed c)) by (unfold tx_keyed; by destruct (initial_tx_keys_ready c)). rewrite Er, Et, Eo in *. cbn [negb]. clear Hc Ek. set (c1 := tx_keyed c) in *. clearbody c1. clear c Et Eo.
  destruct (co_ids c1 Hc1) as (_ & (Sl & _ & Sn) & (Ol & _ & On)). destruct (co_tx c1 Hc1) as [((Hl & Hl2) & Htb & Hto) _]. destruct Hs as (Hp & Hv). rewrite !rdn_ok by lia. ret.
  set (f := (tx_next_offset (tx_initial c1), ztake (chunk (tx_initial c1) (cap - initial_overhead c1)) (tx_pending (tx_initial c1)))).
  assert (El : zlen (snd f) = chunk (tx_initial c1) (cap - initial_overhead c1)) by (unfold f; cbn [snd]; apply zlen_ztake_le; unfold chunk; lia).
  assert (Hz : 0 < zlen (snd f) <= 2016) by (rewrite El; unfold chunk; lia). assert (Hz2 : zlen (snd f) <= cap - initial_overhead c1) by (rewrite El; unfold chunk; lia).
  destruct (initial_packet_ok c1 _ (snd f) Hc1 (conj (proj1 Hto) Hv) ltac:(by apply Forall_take) Hz) as [Hok Hw]. change (tx_next_offset (tx_initial c1), snd f) with f in Hok, Hw.
  change (mk_ipkt 1 _ _ _ _ _ _ _ _ _ _) with (initial_packet c1 f).
  rewrite (initial_build_ok (initial_packet c1 f) false _ out cap Hok (proj2 (co_initial c1 Hc1)) Hb Ho) by (fold (initial_wire c1 f); lia). ret. fold (initial_wire c1 f).
  assert (Hpos : 0 < zlen (initial_wire c1 f)) by (unfold initial_wire, wire_form; rewrite zlen_cons; match goal with |- context [zlen ?l] => pose proof (zlen_nonneg l); lia end).
  replace (_ =? 0) with false by lia. rewrite <- El. reflexivity.
Qed.

Lemma initial_sent_ok c n : conn_ok c -> 0 <= n -> conn_ok (initial_sent c n).
Proof. intros Hc Hn. conn_same Hc; [split; [apply consume_ok; [apply co_tx0|done]|apply co_tx0]|]. pose proof (u64_bound (initial_tx_next_pn c + 1)). cbn in *. tauto. Qed.

(** ** Keys and the client's Finished *)

(** RFC 9001 §5.1: the packet protection keys of a traffic secret. *)
Definition keys_of_secret (s : list Z) : quic_initial_keys_t :=
  mk_qkeys (expand_label s (lit "quic key") [] 16) (expand_label s (lit "quic iv") [] 12) (expand_label s (lit "quic hp") [] 16).

Lemma keys_of_secret_ok s : keys_ok (keys_of_secret s).
Proof. split; [|split]; apply expand_label_ok; lia. Qed.

Lemma install_one_ok secret len : (len = 32 -> secret_ok secret) ->
  hs_keys_install_one impl junk hl0 big0 secret len = if decide (len = 32) then Ret (keys_of_secret secret) else Fail.
Proof.
  intros Hs. destruct Hscr as ((Lk & Li & Lh) & _). unfold hs_keys_install_one. rewrite (keys_from_secret_ok _ _ _ _ _ _ _ _ Hloc Hs Lk Li Lh). destruct (decide (len = 32)) as [->|Hn].
  2: { rewrite decide_False by tauto. reflexivity. }
  rewrite decide_True by auto. ret. cbn [kt_key kt_iv kt_hp]. destruct (expand_label_ok secret (lit "quic key") [] 16 ltac:(lia)) as [_ E1].
  destruct (expand_label_ok secret (lit "quic iv") [] 12 ltac:(lia)) as [_ E2]. destruct (expand_label_ok secret (lit "quic hp") [] 16 ltac:(lia)) as [_ E3].
  rewrite (rdn_app _ _ 16) by (symmetry; exact E1). ret. rewrite rdn_ok, ztake_all by lia. ret. rewrite (rdn_app _ _ 16) by (symmetry; exact E3). ret. reflexivity.
Qed.

(** [quic_conn_install_handshake_secrets] installs the keys once, and refuses
    secrets that have not 32 bytes. *)
Lemma install_exact c tx rx len : (len = 32 -> secret_ok tx /\ secret_ok rx) ->
  quic_conn_install_handshake_secrets impl junk hl0 big0 c tx rx len =
  if handshake_keys_ready c then Ret c
  else if decide (len = 32) then Ret (c {{ handshake_tx_keys := keys_of_secret tx; handshake_rx_keys := keys_of_secret rx; handshake_keys_ready := true }}) else Fail.
Proof.
  intros Hs. unfold quic_conn_install_handshake_secrets. destruct (handshake_keys_ready c); [reflexivity|]. rewrite install_one_ok by (intros H; apply Hs, H). destruct (decide (len = 32)) as [E|E]; [|reflexivity]. ret.
  rewrite install_one_ok by (intros H; apply Hs, H). rewrite decide_True by assumption. ret. reflexivity.
Qed.

(** The Finished message of RFC 8446 §4.4.4 that the connection expects. *)
Definition client_finished (c : quic_conn_t) : list Z :=
  [0x14; 0; 0; 32] ++ finished_mac (client_handshake_traffic_secret c) (transcript_hash_thru_server_fin c).

(** It is next in the Handshake CRYPTO stream. *)
Definition finished_waiting (c : quic_conn_t) : Prop :=
  let rx := rx_handshake c in 36 <= rx_contig_len rx - rx_consumed rx /\ ztake 36 (padd (rx_data rx) (rx_consumed rx)) = client_finished c.

#[global] Instance finished_waiting_dec c : Decision (finished_waiting c).
Proof. unfold finished_waiting. apply _. Defined.

(** The connection with the 1-RTT keys of RFC 8446 §7.1, the Finished consumed. *)
Definition with_app_keys (c : quic_conn_t) : quic_conn_t :=
  let ms := master_secret (q_handshake_secret c) in
  let th := transcript_hash_thru_server_fin c in
  let c_ap := expand_label ms (lit "c ap traffic") th 32 in
  let s_ap := expand_label ms (lit "s ap traffic") th 32 in
  c {{ app_tx_keys := keys_of_secret s_ap; app_rx_keys := keys_of_secret c_ap; client_application_traffic_secret_0 := c_ap; server_application_traffic_secret_0 := s_ap;
       q_master_secret := ms; app_keys_ready := true; rx_handshake := rx_set_consumed (rx_handshake c) (rx_consumed (rx_handshake c) + 36) }}.

Lemma three_bytes a b c : byte_ok a -> byte_ok b -> byte_ok c -> Z.lor (Z.lor (Z.shiftl a 16) (Z.shiftl b 8)) c = a * 65536 + b * 256 + c.
Proof.
  unfold byte_ok. intros. rewrite !Z.shiftl_mul_pow2 by lia. rewrite (lor_disjoint 16) by lia. replace (a * 2 ^ 16 + b * 2 ^ 8) with ((a * 2 ^ 8 + b) * 2 ^ 8) by lia. rewrite (lor_disjoint 8) by lia. lia.
Qed.

Lemma advance_some rx n : rx_ok rx -> 0 <= n <= rx_contig_len rx - rx_consumed rx -> quic_crypto_rx_advance rx n = rx_set_consumed rx (rx_consumed rx + n).
Proof.
  intros Hok Hn. unfold quic_crypto_rx_advance. pose proof (ok_order _ Hok). pose proof (ok_highest _ Hok). pose proof (ok_cap _ Hok). rewrite u64_small by lia. by replace (_ <? n) with false by lia.
Qed.

Lemma consumed_ok rx n : rx_ok rx -> 0 <= n <= rx_contig_len rx -> rx_ok (rx_set_consumed rx n).
Proof. intros [] Hn. constructor; cbn; try assumption. lia. Qed.

Lemma advance_ok rx n : epoch_ok rx -> 0 <= n -> epoch_ok (quic_crypto_rx_advance rx n).
Proof.
  intros [Hok Hb] Hn. split; [|done]. unfold quic_crypto_rx_advance. pose proof (ok_order _ Hok). pose proof (ok_highest _ Hok). pose proof (ok_cap _ Hok). rewrite u64_small by lia. apply consumed_ok; [done|]. zcase; lia.
Qed.

(** The four header bytes and the length of the message. *)
Lemma finished_header fin m : Forall byte_ok fin -> 36 <= zlen fin -> zlen m = 32 ->
  forall b0 b1 b2 b3, sub fin 0 4 = [b0; b1; b2; b3] ->
  (ztake 36 fin = [0x14; 0; 0; 32] ++ m) <-> b0 = 0x14 /\ Z.lor (Z.lor (Z.shiftl b1 16) (Z.shiftl b2 8)) b3 = 32 /\ ztake 32 (padd fin 4) = m.
Proof.
  intros Hb Hl Hm b0 b1 b2 b3 E. assert (Hbs : Forall byte_ok [b0; b1; b2; b3]) by (rewrite <- E; by apply Forall_take, Forall_drop). split_bytes. rewrite three_bytes by done. unfold byte_ok in *.
  change 36 with (4 + 32). rewrite ztake_split by lia. unfold sub in E. rewrite padd_0 in E. rewrite E. split.
  - intros H'. injection H' as -> -> -> -> ->. done.
  - intros (-> & Hn & ->). assert (b1 = 0) as -> by lia. assert (b2 = 0) as -> by lia. by replace b3 with 32 by lia.
Qed.

Lemma finish_exact c : conn_ok c ->
  quic_server_finish_handshake impl junk hl0 big0 c =
  if negb (have_handshake_state c) then Ret (-1, c) else if app_keys_ready c then Ret (0, c)
  else if decide (finished_waiting c) then Ret (0, with_app_keys c) else Ret (-1, c).
Proof.
  intros Hc. unfold quic_server_finish_handshake. destruct (have_handshake_state c); [|reflexivity]. destruct (app_keys_ready c); [reflexivity|]. cbn [negb].
  destruct (co_rx c Hc) as [_ [Hok Hbr]]. destruct (co_secrets c Hc) as (Shs & Sc & Sth). pose proof (ok_order _ Hok). pose proof (ok_highest _ Hok). pose proof (ok_cap _ Hok). pose proof (ok_data _ Hok) as Ld.
  set (rx := rx_handshake c) in *. unfold quic_crypto_rx_peek. assert (Hno : rx_contig_len rx - rx_consumed rx < 36 -> ~ finished_waiting c) by (intros ? [H' _]; change (rx_handshake c) with rx in H'; lia).
  destruct (Z.leb_spec (rx_contig_len rx) (rx_consumed rx)); [rewrite decide_False by (apply Hno; lia); reflexivity|].
  destruct (Z.ltb_spec (rx_contig_len rx - rx_consumed rx) 4); [rewrite decide_False by (apply Hno; lia); reflexivity|].
  set (fin := padd (rx_data rx) (rx_consumed rx)). assert (Lf : rx_contig_len rx - rx_consumed rx <= zlen fin) by (unfold fin; rewrite zlen_padd; lia). assert (Bf : Forall byte_ok fin) by (by apply Forall_drop).
  destruct (rd_four fin 0 ltac:(lia) ltac:(lia)) as (b0 & b1 & b2 & b3 & E & E0 & E1 & E2 & E3). change (0 + 1) with 1 in E1. change (0 + 2) with 2 in E2. change (0 + 3) with 3 in E3. rewrite E0, E1, E2, E3. ret.
  pose proof (hmac_secret (expand_label (client_handshake_traffic_secret c) (lit "finished") [] 32) (transcript_hash_thru_server_fin c)) as [_ Lm].
  fold (finished_mac (client_handshake_traffic_secret c) (transcript_hash_thru_server_fin c)) in Lm. set (mac := finished_mac _ _) in *.
  assert (Hw : finished_waiting c <-> 36 <= rx_contig_len rx - rx_consumed rx /\ ztake 36 fin = [0x14; 0; 0; 32] ++ mac) by reflexivity.
  destruct (Z.eqb_spec b0 0x14); cbn [negb]; cycle 1.
  { rewrite decide_False; [reflexivity|]. intros Hfw. apply Hw in Hfw as [H' H'']. assert (L36 : 36 <= zlen fin) by exact (Z.le_trans _ _ _ H' Lf). by apply (finished_header fin mac Bf L36 Lm _ _ _ _ E) in H'' as (? & _). }
  destruct (Z.eqb_spec (Z.lor (Z.lor (Z.shiftl b1 16) (Z.shiftl b2 8)) b3) 32); cbn [negb]; cycle 1.
  { rewrite decide_False; [reflexivity|]. intros Hfw. apply Hw in Hfw as [H' H'']. assert (L36 : 36 <= zlen fin) by exact (Z.le_trans _ _ _ H' Lf). by apply (finished_header fin mac Bf L36 Lm _ _ _ _ E) in H'' as (_ & ? & _). }
  destruct (Z.ltb_spec (rx_contig_len rx - rx_consumed rx) (4 + 32)); [rewrite decide_False by (apply Hno; lia); reflexivity|].
  rewrite (verify_finished_ok _ _ _ _ _ _ Hloc Sc Sth); [ret|by apply Forall_drop|rewrite zlen_padd; lia]. fold mac.
  pose proof (finished_header fin mac Bf ltac:(lia) Lm _ _ _ _ E) as Hh. destruct (decide (ztake 32 (padd fin 4) = mac)) as [Em|Em]; cycle 1.
  { rewrite bool_decide_eq_false_2 by exact Em. cbn [negb]. rewrite decide_False; [reflexivity|]. intros Hfw. apply Hw in Hfw as [_ H'']. apply Hh in H'' as (_ & _ & ?). contradiction. }
  rewrite bool_decide_eq_true_2 by exact Em. cbn [negb]. rewrite decide_True by (apply Hw; split; [lia|]; apply Hh; auto).
  rewrite (compute_application_secrets_ok impl junk hl0 Hloc) by (assumption || apply (junk32 _ _ Hloc)). cbn [or_minus1]. cbv zeta. rewrite install_one_ok by (intros _; apply label_secret). cbn [or_minus1].
  rewrite decide_True by reflexivity. cbn [or_minus1]. rewrite install_one_ok by (intros _; apply label_secret). rewrite decide_True by reflexivity. cbn [or_minus1].
  rewrite (advance_some rx (4 + 32) Hok) by lia. reflexivity.
Qed.

Lemma with_app_keys_ok c : conn_ok c -> finished_waiting c -> conn_ok (with_app_keys c).
Proof.
  intros Hc [Hw _]. conn_same Hc; [split; apply keys_of_secret_ok|]. destruct co_rx0 as [Hi [Hok Hb]]. split; [exact Hi|]. split; [|exact Hb]. apply consumed_ok; [done|]. pose proof (ok_order _ Hok). lia.
Qed.

(** ** 1-RTT packets out *)

Definition app_packet (c : quic_conn_t) (payload : list Z) : quic_short_pkt_t :=
  mk_spkt (ztake (peer_scid_len c) (peer_scid c)) (peer_scid_len c) (app_tx_next_pn c) 2 payload (zlen payload) 0 0.

Definition app_wire (c : quic_conn_t) (payload : list Z) : list Z := wire_form (app_tx_keys c) (short_parts (app_packet c payload)) 0x1f.

Lemma app_packet_ok c payload : conn_ok c -> Forall byte_ok payload -> 2 <= zlen payload < 2 ^ 61 ->
  short_ok (app_packet c payload) /\ zlen (app_wire c payload) = 1 + peer_scid_len c + 2 + 16 + zlen payload.
Proof.
  intros Hc Hb Hl. destruct (co_ids c Hc) as (_ & Hs & _). destruct (id_buf_keep _ _ Hs) as [Sb Sl]. destruct Hs as (_ & _ & Hs). destruct (co_pn c Hc) as (_ & _ & Hpn).
  assert (Hok : short_ok (app_packet c payload)) by (unfold short_ok, cid_ok; cbn [app_packet s_dcid s_dcid_len s_pn s_pn_len s_payload s_payload_len s_spin s_key_phase]; split_and!; (done || lia || auto)).
  split; [done|]. unfold app_wire. rewrite (zlen_wire _ _ _ (proj1 (co_app c Hc)) (short_parts_ok _ Hok)), zlen_plain.
  cbn [short_parts app_packet pt_mid pt_pnb pt_payload s_dcid s_pn s_pn_len s_payload]. rewrite zlen_pn_wire, Sl by lia. lia.
Qed.

Lemma emit_app_exact c payload out cap : conn_ok c -> Forall byte_ok payload -> 2 <= zlen payload < 2 ^ 61 -> Forall byte_ok out -> cap <= zlen out < 2 ^ 62 ->
  quic_conn_emit_app c payload (zlen payload) out cap =
  if decide (app_keys_ready c = true /\ peer_addrs_known c = true /\ 1 + peer_scid_len c + 2 + 16 + zlen payload <= cap) then
    let w := app_wire c payload in Ret (zlen w, w ++ padd out (zlen w), c {{ app_tx_next_pn := u64 (app_tx_next_pn c + 1) }})
  else Ret (0, out, c).
Proof.
  intros Hc Hb Hl Ho Hcap. unfold quic_conn_emit_app. destruct (app_keys_ready c); cbn [negb]; [|by rewrite decide_False by (intros [? _]; done)].
  destruct (peer_addrs_known c); cbn [negb]; [|by rewrite decide_False by (intros (_ & ? & _); done)]. destruct (co_ids c Hc) as (_ & (Sl & _ & Sn) & _). cbv zeta.
  rewrite u64_small by lia. destruct (Z.ltb_spec cap (1 + peer_scid_len c + 2 + 16 + zlen payload)); [by rewrite decide_False by lia|]. rewrite decide_True by (split_and!; done).
  change QUIC_MAX_CID_LEN with 20. replace (20 <? _) with false by lia. rewrite rdn_ok by lia. ret. destruct (app_packet_ok c payload Hc Hb Hl) as [Hok Hw].
  change (mk_spkt _ _ _ _ _ _ _ _) with (app_packet c payload). rewrite (short_build_ok (app_packet c payload) _ out cap Hok (proj1 (co_app c Hc)) Ho Hcap) by (fold (app_wire c payload); lia).
  ret. fold (app_wire c payload). replace (_ =? 0) with false by lia. reflexivity.
Qed.

Lemma set_scid_ok c scid n : conn_ok c -> 0 <= n -> (forall p, scid = Some p -> Forall byte_ok p /\ Z.min n 20 <= zlen p) ->
  twp (quic_conn_set_our_scid c scid n) conn_ok.
Proof.
  intros Hc Hn Hp. destruct (co_ids c Hc) as (_ & _ & (Lo & Bo & No)). unfold quic_conn_set_our_scid. change QUIC_MAX_CID_LEN with 20. set (m := if 20 <? n then 20 else n). assert (Hm : m = Z.min n 20) by (unfold m; zcase; lia). clearbody m.
  assert (Hk : forall b, id_buf b m -> conn_ok (c {{ our_scid := b; our_scid_len := m }})) by (intros b Hb; conn_same Hc; tauto).
  assert (Hsame : id_buf (our_scid c) m) by (split; [done|split; [done|lia]]). destruct scid as [p|]; [|by apply Hk]. destruct (Z.ltb_spec 0 m); [|by apply Hk].
  destruct (Hp p eq_refl) as [Bp Lp]. destruct (copy_id (our_scid c) (our_scid_len c) p m) as (b & E & Hb & _); [done|done|lia|lia|]. rewrite E. by apply Hk.
Qed.
End Ops.
