(* ===== verification/ConnTheorems.v ===== *)
(** * The QUIC connection: theorems

    [userspace/quic/conn.c] end to end: every sequence of calls keeps the
    connection well-formed, whatever arrives from the network; a Handshake
    flight split over packets by one endpoint is reassembled by the other from
    any order and repetition of its datagrams; and the server installs the 1-RTT
    keys exactly when the client's Finished is the right one. *)

From Stdlib Require Import ZArith Lia String.
From stdpp Require Import list numbers option.
From coqutil Require Import Datatypes.RecordSetters.
Import DoubleBraceUpdate.
From S2P Require Import Prelude Util Words Aead Aes AesGcm Varint CryptoStream Stream Frames Sha256 Sha256Theorems Packet PacketTheorems Kdf KdfTheorems TlsSchedule Conn ConnSafety.

#[local] Opaque aead_enc aead_mac aes_block aes128_gcm_seal aes128_gcm_open aes128_init aes128_encrypt_block sha256_hash hmac expand_label.

(** ** Sequences of calls *)

(** What a call finds uninitialised: the machine and the contents of its local
    variables. *)
Record env := mk_env { e_impl : sha256_impl; e_junk : sha256_ctx; e_hl : list Z; e_big : quic_keys_t; e_scratch : list Z }.

Definition env_ok (e : env) : Prop := locals_ok (e_junk e) (e_hl e) /\ scratch_ok (e_big e) (e_scratch e).

(** The calls of [conn.h]; [CSecrets] is what the TLS driver stores in the
    connection when it has computed the handshake secrets. *)
Inductive call :=
| CRecvInitial (dg : list Z) | CRecvHandshake (dg : list Z) | CRecvApp (dg : list Z)
| CEmitInitial (out : list Z) (cap : Z) | CEmitHandshake (out : list Z) (cap : Z) | CEmitApp (payload out : list Z) (cap : Z)
| CSetScid (scid : option (list Z)) (n : Z) | CInitialPending (bytes : list Z) (n : Z) | CHandshakePending (bytes : list Z) (n : Z)
| CInitialAdvance (n : Z) | CHandshakeAdvance (n : Z) | CInstall (tx rx : list Z) (n : Z) | CSecrets (hs client th : list Z) | CFinish.

Definition run_call (e : env) (k : call) (c : quic_conn_t) : res quic_conn_t :=
  let '(mk_env impl junk hl0 big0 scratch0) := e in
  match k with
  | CRecvInitial dg => let! (_, c) := quic_conn_recv_initial impl junk hl0 scratch0 c dg (zlen dg) in Ret c
  | CRecvHandshake dg => let! (_, c) := quic_conn_recv_handshake scratch0 c dg (zlen dg) in Ret c
  | CRecvApp dg => let! (_, c) := quic_conn_recv_app scratch0 c dg (zlen dg) in Ret c
  | CEmitInitial out cap => let! (_, _, c) := quic_conn_emit_initial impl junk hl0 c out cap in Ret c
  | CEmitHandshake out cap => let! (_, _, c) := quic_conn_emit_handshake c out cap in Ret c
  | CEmitApp payload out cap => let! (_, _, c) := quic_conn_emit_app c payload (zlen payload) out cap in Ret c
  | CSetScid scid n => quic_conn_set_our_scid c scid n
  | CInitialPending bytes n => Ret (quic_conn_initial_tx_set_pending c bytes n)
  | CHandshakePending bytes n => Ret (quic_conn_handshake_tx_set_pending c bytes n)
  | CInitialAdvance n => Ret (quic_conn_initial_rx_advance c n)
  | CHandshakeAdvance n => Ret (quic_conn_handshake_rx_advance c n)
  | CInstall tx rx n => match quic_conn_install_handshake_secrets impl junk hl0 big0 c tx rx n with Fail => Ret c | r => r end
  | CSecrets hs client th => Ret (c {{ q_handshake_secret := hs; client_handshake_traffic_secret := client; transcript_hash_thru_server_fin := th; have_handshake_state := true }})
  | CFinish => let! (_, c) := quic_server_finish_handshake impl junk hl0 big0 c in Ret c
  end.

Fixpoint run_calls (c : quic_conn_t) (l : list (env * call)) : res quic_conn_t :=
  match l with
  | [] => Ret c
  | (e, k) :: l => let! c := run_call e k c in run_calls c l
  end.

(** The arguments are buffers of bytes with the length the caller states. *)
Definition call_ok (k : call) : Prop :=
  match k with
  | CRecvInitial dg | CRecvHandshake dg | CRecvApp dg => Forall byte_ok dg /\ zlen dg < 2 ^ 62
  | CEmitInitial out cap | CEmitHandshake out cap => Forall byte_ok out /\ cap <= zlen out < 2 ^ 62
  | CEmitApp payload out cap => Forall byte_ok payload /\ 2 <= zlen payload < 2 ^ 61 /\ Forall byte_ok out /\ cap <= zlen out < 2 ^ 62
  | CSetScid scid n => 0 <= n /\ forall p, scid = Some p -> Forall byte_ok p /\ Z.min n 20 <= zlen p
  | CInitialPending bytes n | CHandshakePending bytes n => Forall byte_ok bytes /\ 0 <= n <= zlen bytes
  | CInitialAdvance n | CHandshakeAdvance n => 0 <= n
  | CInstall tx rx n => n = 32 -> secret_ok tx /\ secret_ok rx
  | CSecrets hs client th => secret_ok hs /\ secret_ok client /\ secret_ok th
  | CFinish => True
  end.

(** The call leaves a well-formed connection, or it is the receipt of a datagram
    whose Length field underflows. *)
Lemma run_call_ok e k c : env_ok e -> call_ok k -> conn_ok c ->
  match run_call e k c with Ret c' => conn_ok c' | Fail => False | Oob => exists dg, (k = CRecvInitial dg \/ k = CRecvHandshake dg) /\ length_underflow dg end.
Proof.
  destruct e as [impl junk hl0 big0 scratch0]. intros [Hl Hs] Hk Hc. unfold e_junk, e_hl, e_big, e_scratch in *. destruct k; cbn [run_call call_ok] in *.
  - destruct Hk as [Hb Hn]. pose proof (recv_initial_ok impl junk hl0 big0 scratch0 Hl Hs c dg Hc Hb Hn) as H. destruct (quic_conn_recv_initial impl junk hl0 scratch0 c dg (zlen dg)) as [[rc c']| |]; [apply H|done|exists dg; split; [auto|exact H]].
  - destruct Hk as [Hb Hn]. pose proof (recv_handshake_ok big0 scratch0 Hs c dg Hc Hb Hn) as H. destruct (quic_conn_recv_handshake scratch0 c dg (zlen dg)) as [[rc c']| |]; [apply H|done|exists dg; split; [auto|exact H]].
  - destruct Hk as [Hb Hn]. pose proof (recv_app_ok big0 scratch0 Hs c dg Hc Hb Hn) as H. destruct (quic_conn_recv_app scratch0 c dg (zlen dg)) as [[rc c']| |]; [apply H|done|done].
  - destruct Hk as [Hb Hn]. rewrite (emit_initial_exact impl junk hl0 Hl c out cap Hc Hb Hn). destruct (decide _); [|exact Hc]. apply initial_sent_ok; [by apply tx_keyed_ok|apply zlen_nonneg].
  - destruct Hk as [Hb Hn]. rewrite (emit_handshake_exact c out cap Hc Hb Hn). destruct (decide _); [|exact Hc]. apply handshake_sent_ok; [exact Hc|apply zlen_nonneg].
  - destruct Hk as (Hb & Hn & Ho & Hcap). rewrite (emit_app_exact c payload out cap Hc Hb Hn Ho Hcap). destruct (decide _); [|exact Hc]. cbv zeta. cbn [rbind]. conn_same Hc. pose proof (u64_bound (app_tx_next_pn c + 1)). cbn in *. tauto.
  - destruct Hk as [Hn Hp]. pose proof (set_scid_ok c scid n Hc Hn Hp) as H. by destruct (quic_conn_set_our_scid c scid n).
  - destruct Hk as [Hb Hn]. destruct (co_tx c Hc) as [(_ & _ & Ho) Ht]. unfold quic_conn_initial_tx_set_pending. conn_same Hc. split; [|done]. split; [done|]. by split.
  - destruct Hk as [Hb Hn]. destruct (co_tx c Hc) as [Ht (_ & _ & Ho)]. unfold quic_conn_handshake_tx_set_pending. conn_same Hc. split; [done|]. split; [done|]. by split.
  - unfold quic_conn_initial_rx_advance. destruct (co_rx c Hc). conn_same Hc. split; [by apply advance_ok|done].
  - unfold quic_conn_handshake_rx_advance. destruct (co_rx c Hc). conn_same Hc. split; [done|by apply advance_ok].
  - rewrite (install_exact impl junk hl0 big0 scratch0 Hl Hs c tx rx n Hk). destruct (handshake_keys_ready c); [exact Hc|]. destruct (decide (n = 32)); [|exact Hc]. conn_same Hc. split; apply keys_of_secret_ok.
  - conn_same Hc.
  - rewrite (finish_exact impl junk hl0 big0 scratch0 Hl Hs c Hc). destruct (have_handshake_state c); [|exact Hc]. destruct (app_keys_ready c); [exact Hc|]. cbn [negb].
    destruct (decide (finished_waiting c)); [|exact Hc]. by apply with_app_keys_ok.
Qed.

Lemma run_calls_ok l : forall c, Forall (fun ek => env_ok (fst ek) /\ call_ok (snd ek)) l -> conn_ok c ->
  match run_calls c l with
  | Ret c' => conn_ok c'
  | Fail => False
  | Oob => exists e dg, ((e, CRecvInitial dg) ∈ l \/ (e, CRecvHandshake dg) ∈ l) /\ length_underflow dg
  end.
Proof.
  induction l as [|[e k] l IH]; intros c Hl Hc; [exact Hc|]. apply Forall_cons_1 in Hl as [[He Hk] Hl]. cbn [run_calls]. pose proof (run_call_ok e k c He Hk Hc) as H.
  destruct (run_call e k c) as [c1| |]; [|contradiction|]; cbn [rbind].
  - specialize (IH c1 Hl H). destruct (run_calls c1 l) as [c2| |]; [exact IH|exact IH|]. destruct IH as (e' & dg & [Hd|Hd] & Hu); exists e', dg; (split; [|exact Hu]); [left|right]; by apply elem_of_cons; right.
  - destruct H as (dg & [->| ->] & Hu); exists e, dg; (split; [|exact Hu]); [left|right]; by apply elem_of_cons; left.
Qed.


Definition example_env : env := mk_env Sha_ni sha_zero locals0 keys_t_buffer (replicate 2048 0).

Lemma example_env_ok : env_ok example_env.
Proof. split; [exact locals0_ok|]. split; [done|]. split; [done|]. by apply bytes_okb_ok. Qed.

Definition example_calls : list (env * call) :=
  map (fun k => (example_env, k))
    [CSetScid (Some [7; 7; 7; 7]) 4; CRecvInitial (0xc0 :: 0 :: 0 :: 0 :: 1 :: 4 :: replicate 40 1); CSecrets (replicate 32 1) (replicate 32 2) (replicate 32 3);
     CInstall (replicate 32 4) (replicate 32 5) 32; CHandshakePending (replicate 100 6) 100; CEmitHandshake (replicate 1500 0) 1200; CRecvApp (0x40 :: replicate 30 9); CFinish].

Lemma example_calls_ok : Forall (fun ek => env_ok (fst ek) /\ call_ok (snd ek)) example_calls.
Proof.
  unfold example_calls. cbn [map]. repeat (apply Forall_cons_2; [split; [exact example_env_ok|cbn [snd call_ok]]|]); [..|apply Forall_nil_2].
  - split; [lia|]. intros p [= <-]. split; [by apply bytes_okb_ok|done].
  - split; [by apply bytes_okb_ok|done].
  - split_and!; (split; [by apply bytes_okb_ok|done]).
  - intros _. split; (split; [by apply bytes_okb_ok|done]).
  - split; [by apply bytes_okb_ok|done].
  - split; [by apply bytes_okb_ok|done].
  - split; [by apply bytes_okb_ok|done].
  - exact I.
Qed.


(** ** One Handshake packet *)

(** The part of a connection that receiving Handshake packets changes. *)
Definition received_more (c c' : quic_conn_t) : Prop :=
  c' = c {{ rx_handshake := rx_handshake c'; handshake_pkts_rcvd := handshake_pkts_rcvd c';
            handshake_crypto_bytes_rcvd := handshake_crypto_bytes_rcvd c'; handshake_ack_eliciting_rcvd := handshake_ack_eliciting_rcvd c' }}.

#[global] Instance received_more_preorder : PreOrder received_more.
Proof.
  split; [intros c; unfold received_more; by destruct c|]. intros c1 c2 c3 H1 H2. unfold received_more in *. rewrite H2. rewrite H1. reflexivity.
Qed.

(** A packet with one frame. *)
Lemma walk_one handle r c : req_ok r -> rest_ok r [] -> 0 < zlen (wire (layout r)) ->
  walk handle (wire (layout r)) (zlen (wire (layout r))) c = let! (ok, c) := handle (Frames.decoded r []) c in Ret (if ok : bool then 0 else -1, c).
Proof.
  intros Hr Hrest Hpos. pose proof (decode_layout r [] Hr Hrest) as E. rewrite !app_nil_r in E. unfold walk. destruct (Z.to_nat (zlen (wire (layout r)))) as [|k] eqn:Ek; [lia|].
  cbn [frame_walk]. replace (0 <? _) with true by lia. rewrite padd_0, Z.sub_0_r, E.
  destruct (handle _ _) as [[[|] c']| |]; [|reflexivity..]. cbn [rbind]. rewrite Z.add_0_l. destruct k; cbn [frame_walk]; by rewrite Z.ltb_irrefl.
Qed.

Lemma walk_crypto off d c : 0 <= off <= QUIC_VARINT_MAX -> zlen d <= QUIC_VARINT_MAX ->
  walk handshake_frame (crypto_wire off d) (zlen (crypto_wire off d)) c =
  let! (ok, c) := handshake_frame (FCrypto off (zlen d) d) c in Ret (if ok : bool then 0 else -1, c).
Proof.
  intros Ho Hd. pose proof (zlen_nonneg d). unfold crypto_wire. rewrite walk_one; [cbn [Frames.decoded]; by rewrite app_nil_r|split; [done|]; unfold vok; lia|exact I|].
  cbn [layout wire field_bytes app]. rewrite zlen_cons. match goal with |- context [zlen ?l] => pose proof (zlen_nonneg l); lia end.
Qed.

(** A genuine packet passes the checks and its frames are processed. *)
Lemma recv_handshake_genuine big0 scratch0 c pkt : scratch_ok big0 scratch0 -> conn_ok c -> handshake_keys_ready c = true -> handshake_ok pkt -> h_pn pkt < 256 ^ h_pn_len pkt ->
  let w := wire_form (handshake_rx_keys c) (handshake_parts pkt) 0x0f in
  zlen w <= 2064 ->
  quic_conn_recv_handshake scratch0 c w (zlen w) = walk handshake_frame (h_payload pkt) (h_payload_len pkt) (c {{ handshake_pkts_rcvd := u64 (handshake_pkts_rcvd c + 1) }}).
Proof.
  intros (_ & Ls & Bs) Hc Hr Hok Hpn w Hw. pose proof (proj2 (co_handshake c Hc)) as Hk. pose proof (handshake_parts_ok pkt Hok) as Hp. pose proof (zlen_wire _ _ 0x0f Hk Hp) as Lw. fold w in Lw.
  pose proof (handshake_parse_ok pkt _ [] scratch0 2048 Hok Hpn Hk ltac:(constructor) Bs ltac:(fold w; lia)) as Ep. cbv zeta in Ep. rewrite app_nil_r in Ep. fold w in Ep.
  unfold quic_conn_recv_handshake. rewrite Hr. cbn [negb]. pose proof (zlen_nonneg (pt_payload (handshake_parts pkt))). pose proof (zlen_plain (handshake_parts pkt)) as Lp. destruct Hok as (V & (D1 & D2 & D3) & (S1 & S2 & S3) & N & _).
  assert (Lm : zlen (pt_mid (handshake_parts pkt)) = 8 + zlen (h_dcid pkt) + zlen (h_scid pkt)) by (cbn [handshake_parts pt_mid]; rewrite zlen_app, zlen_cid_fields; change (zlen (length_field _)) with 2; lia).
  pose proof (zlen_nonneg (h_dcid pkt)). pose proof (zlen_nonneg (h_scid pkt)). destruct Hp as (_ & _ & _ & _ & Np & _). replace (zlen w <? 7) with false by lia.
  assert (Ew : exists rest, w = Z.lxor (pt_b0 (handshake_parts pkt)) (Z.land (nth 0 (hp_mask (handshake_rx_keys c) (handshake_parts pkt)) 0) 0x0f) :: 0 :: 0 :: 0 :: 1 :: rest) by (unfold w, wire_form; cbn [handshake_parts pt_mid cid_fields app]; by eexists).
  destruct Ew as (rest & Ew). rewrite Ew at 1. rewrite rd_cons_0. ret. rewrite !mask_outside by reflexivity.
  assert (Hbits : Z.land (pt_b0 (handshake_parts pkt)) 0xc0 = 0xc0 /\ Z.land (pt_b0 (handshake_parts pkt)) 0x30 = 0x20).
  { cbn [handshake_parts pt_b0]. assert (Hn : h_pn_len pkt = 1 \/ h_pn_len pkt = 2 \/ h_pn_len pkt = 3 \/ h_pn_len pkt = 4) by lia. by destruct Hn as [->|[->|[->| ->]]]. }
  destruct Hbits as [-> ->]. cbn [Z.eqb Pos.eqb negb]. rewrite Ew at 1. change (rd32be (_ :: 0 :: 0 :: 0 :: 1 :: rest) 1) with (Ret 1). ret. cbn [Z.eqb Pos.eqb negb]. rewrite Ep. ret. reflexivity.
Qed.

(** ** A Handshake flight *)

(** Call [quic_conn_emit_handshake] once per capacity; the datagrams sent. *)
Fixpoint emit_handshakes (c : quic_conn_t) (out : list Z) (caps : list Z) : res (list (list Z) * quic_conn_t) :=
  match caps with
  | [] => Ret ([], c)
  | cap :: caps =>
      let! (n, buf, c) := quic_conn_emit_handshake c out cap in
      let! (dgs, c) := emit_handshakes c out caps in
      Ret (if n =? 0 then dgs else ztake n buf :: dgs, c)
  end.

(** Deliver datagrams; [Fail] when one is refused. *)
Fixpoint recv_handshakes (scratch0 : list Z) (c : quic_conn_t) (dgs : list (list Z)) : res quic_conn_t :=
  match dgs with
  | [] => Ret c
  | dg :: dgs =>
      let! (rc, c) := quic_conn_recv_handshake scratch0 c dg (zlen dg) in
      if rc =? 0 then recv_handshakes scratch0 c dgs else Fail
  end.

(** The datagram carries the chunk [f] of [S] under the keys and ids of [c]. *)
Definition carries (c : quic_conn_t) (S : list Z) (dg : list Z) (f : Z * list Z) : Prop :=
  slice_of S f /\ Forall byte_ok (snd f) /\ 0 < zlen (snd f) <= 2016 /\ zlen dg <= 2064 /\
  exists pn, 0 <= pn < 65536 /\ dg = handshake_wire (c {{ handshake_tx_next_pn := pn }}) f.

(** What is pending is the rest of [S], at the start of a buffer. *)
Definition tx_rest (S : list Z) (tx : quic_crypto_tx_t) : Prop :=
  0 <= tx_next_offset tx <= zlen S /\ (exists tail, tx_pending tx = padd S (tx_next_offset tx) ++ tail) /\ tx_pending_len tx = zlen S - tx_next_offset tx.

(** A sender in the middle of the flight [S]. *)
Definition sending (S : list Z) (c : quic_conn_t) : Prop :=
  conn_ok c /\ peer_addrs_known c = true /\ handshake_keys_ready c = true /\ tx_rest S (tx_handshake c).

Lemma padd_app_l (p q : list Z) n : 0 <= n <= zlen p -> padd (p ++ q) n = padd p n ++ q.
Proof. intros H. unfold padd. apply drop_app_le. unfold zlen in H. lia. Qed.

Lemma ztake_app_l (p q : list Z) n : n <= zlen p -> ztake n (p ++ q) = ztake n p.
Proof. intros H. unfold ztake. apply take_app_le. unfold zlen in H. lia. Qed.

Lemma tx_consume_inv S tx n : tx_rest S tx -> zlen S < 2 ^ 62 -> 0 <= n <= tx_pending_len tx -> tx_rest S (quic_crypto_tx_consume tx n) /\ tx_next_offset (quic_crypto_tx_consume tx n) = tx_next_offset tx + n.
Proof.
  intros (Ho & (tail & Hp) & Hl) HS Hn. unfold quic_crypto_tx_consume, tx_rest. replace (_ <? n) with false by lia. cbn [tx_next_offset tx_pending tx_pending_len]. rewrite u64_small by lia.
  rewrite Hp, padd_app_l, padd_padd by (rewrite ?zlen_padd; lia). split_and!; [lia|lia|by exists tail|lia|done].
Qed.

Lemma emit_step S c out cap : sending S c -> zlen S < 2 ^ 60 -> Forall byte_ok out -> zlen out < 2 ^ 62 -> handshake_overhead c < cap <= Z.min 2064 (zlen out) -> handshake_tx_next_pn c < 65536 ->
  (tx_next_offset (tx_handshake c) = zlen S /\ quic_conn_emit_handshake c out cap = Ret (0, out, c)) \/
  exists dg f, carries c S dg f /\ fst f = tx_next_offset (tx_handshake c) /\
    quic_conn_emit_handshake c out cap = Ret (zlen dg, dg ++ padd out (zlen dg), handshake_sent c (zlen (snd f))) /\
    sending S (handshake_sent c (zlen (snd f))) /\ tx_next_offset (tx_handshake (handshake_sent c (zlen (snd f)))) = fst f + zlen (snd f).
Proof.
  intros (Hc & Ha & Hr & Ht) HS Hb Ho Hcap Hpn. rewrite (emit_handshake_exact c out cap Hc Hb ltac:(lia)). pose proof Ht as (Ht1 & (tail & Ht2) & Ht3). assert (M : 2 ^ 60 < QUIC_VARINT_MAX) by done.
  destruct (decide (tx_next_offset (tx_handshake c) = zlen S)) as [E|E]; [left; split; [done|]; rewrite decide_False; [done|]; intros (_ & _ & _ & (? & _)); lia|]. right.
  assert (Hs : can_send (tx_handshake c)) by (unfold can_send; lia). rewrite decide_True by (split_and!; (done || lia)). cbv zeta.
  pose proof (handshake_next_ok c cap Hc ltac:(lia) Hs) as Hn. destruct (handshake_next c cap) as [off d] eqn:En. destruct Hn as (Hoff & Hd & El & Hz & Hz2). destruct (handshake_packet_ok c off d Hc Hoff Hd Hz) as [_ Hw].
  injection En as Eo Ed. assert (Hle : zlen d <= tx_pending_len (tx_handshake c)) by (rewrite El; unfold chunk; lia). destruct (tx_consume_inv S (tx_handshake c) (zlen d) Ht ltac:(lia) ltac:(lia)) as [Hi Hno].
  exists (handshake_wire c (off, d)), (off, d). cbn [fst snd]. split_and!; try done.
  - unfold carries. cbn [fst snd]. split_and!; try (done || lia). { rewrite <- Ed, Ht2, ztake_app_l, Eo by (rewrite zlen_padd by lia; unfold chunk; lia). apply slice_padd; lia. }
    exists (handshake_tx_next_pn c). split; [destruct (co_pn c Hc); lia|]. unfold handshake_wire, handshake_packet. reflexivity.
  - split; [apply handshake_sent_ok; [done|lia]|]. done.
  - change (tx_handshake (handshake_sent c (zlen d))) with (quic_crypto_tx_consume (tx_handshake c) (zlen d)). lia.
Qed.

(** The datagrams of a flight carry chunks of it that cover what has been sent,
    and every call sends at least a byte while there is one. *)
Lemma emits_ok S out : forall caps c, sending S c -> zlen S < 2 ^ 60 -> Forall byte_ok out -> zlen out < 2 ^ 62 ->
  Forall (fun cap => handshake_overhead c < cap <= Z.min 2064 (zlen out)) caps -> handshake_tx_next_pn c + Z.of_nat (length caps) <= 65536 ->
  exists dgs fs c', emit_handshakes c out caps = Ret (dgs, c') /\ Forall2 (carries c S) dgs fs /\ sending S c' /\
    (forall i, tx_next_offset (tx_handshake c) <= i < tx_next_offset (tx_handshake c') -> covered fs i) /\
    (tx_next_offset (tx_handshake c') = zlen S \/ tx_next_offset (tx_handshake c) + Z.of_nat (length caps) <= tx_next_offset (tx_handshake c')).
Proof.
  induction caps as [|cap caps IH]; intros c Hs HS Hb Ho Hcaps Hpn; cbn [emit_handshakes].
  { exists [], [], c. split; [done|]. split; [constructor|]. split; [done|]. split; [lia|right; cbn; lia]. }
  apply Forall_cons_1 in Hcaps as [Hcap Hcaps]. cbn [length] in Hpn. destruct (emit_step S c out cap Hs HS Hb Ho Hcap ltac:(lia)) as [[E Ee]|(dg & f & Hcar & Ef & Ee & Hs1 & En)]; rewrite Ee; ret.
  - destruct (IH c Hs HS Hb Ho Hcaps ltac:(lia)) as (dgs & fs & c' & -> & Hf & Hs' & Hcov & Hp). ret. exists dgs, fs, c'. split_and!; try done. left. destruct Hs' as (_ & _ & _ & Ht & _). destruct Hp; lia.
  - pose proof Hcar as (Hsl & _ & Hz & Hw & pn & _ & Edg). set (c1 := handshake_sent c (zlen (snd f))) in *.
    destruct (IH c1 Hs1 HS Hb Ho Hcaps) as (dgs & fs & c' & -> & Hf & Hs' & Hcov & Hp).
    { change (handshake_tx_next_pn c1) with (u64 (handshake_tx_next_pn c + 1)). destruct Hs as (Hc & _). destruct (co_pn c Hc) as (_ & ? & _). rewrite u64_small; lia. }
    ret. exists (dg :: dgs), (f :: fs), c'. assert (Hpos : 0 < zlen dg) by (rewrite Edg; unfold handshake_wire, wire_form; rewrite zlen_cons; match goal with |- context [zlen ?l] => pose proof (zlen_nonneg l); lia end).
    replace (zlen dg =? 0) with false by lia. rewrite ztake_app by done. split_and!; try done; [by constructor| |cbn [length]; destruct Hp; lia].
    intros i Hi. destruct (Z.ltb_spec i (fst f + zlen (snd f))).
    + exists f. split; [apply elem_of_cons; by left|]. unfold covers. lia.
    + destruct (Hcov i ltac:(lia)) as (f' & Hin & Hc'). exists f'. split; [apply elem_of_cons; by right|done].
Qed.

(** A receiver that has the chunks [seen] of the flight. *)
Definition receiving (S : list Z) (keys : quic_initial_keys_t) (seen : list (Z * list Z)) (c : quic_conn_t) : Prop :=
  conn_ok c /\ handshake_keys_ready c = true /\ handshake_rx_keys c = keys /\ run_inv S 4096 512 seen (rx_handshake c) /\ Forall (slice_of S) seen.

Lemma recv_step S keys seen big0 scratch0 c s dg f : scratch_ok big0 scratch0 -> zlen S <= 4096 -> receiving S keys seen c -> conn_ok s -> handshake_tx_keys s = keys -> carries s S dg f ->
  exists c', quic_conn_recv_handshake scratch0 c dg (zlen dg) = Ret (0, c') /\ receiving S keys (f :: seen) c' /\ received_more c c'.
Proof.
  intros Hscr HS (Hc & Hr & Hk & Hrun & Hseen) Hs Hks (Hsl & Hfb & Hz & Hw & pn & Hpn & ->). assert (M : 5000 < QUIC_VARINT_MAX) by done. destruct f as [off d]. pose proof Hsl as (Hs1 & Hs2 & _). cbn [fst snd] in *.
  set (s1 := s {{ handshake_tx_next_pn := pn }}) in *. assert (Hs1ok : conn_ok s1) by (destruct (co_pn s Hs) as (Hp1 & _ & Hp3); unfold s1; conn_same Hs; split; [exact Hp1|]; split; [lia|exact Hp3]).
  destruct (handshake_packet_ok s1 off d Hs1ok ltac:(lia) Hfb Hz) as [Hok _]. pose proof (zlen_nonneg d).
  assert (Hko : handshake_tx_keys s1 = handshake_rx_keys c) by (rewrite Hk, <- Hks; reflexivity). unfold handshake_wire in *. rewrite Hko in *.
  pose proof (recv_handshake_ok big0 scratch0 Hscr c _ Hc (wire_bytes _ _ 0x0f (proj2 (co_handshake c Hc)) (handshake_parts_ok _ Hok) ltac:(lia)) ltac:(lia)) as Hsafe. revert Hsafe.
  rewrite (recv_handshake_genuine big0 scratch0 c _ Hscr Hc Hr Hok); [|exact (proj2 Hpn)|exact Hw]. cbn [handshake_packet h_payload h_payload_len fst snd].
  rewrite walk_crypto by lia. unfold handshake_frame. cbn [frame_allowed_in_handshake negb].
  match goal with |- context [quic_crypto_rx_stage ?r _ _ _] => change r with (rx_handshake c) end.
  destruct (run_step S 4096 512 seen (rx_handshake c) off d ltac:(lia) ltac:(dlia) Hseen Hrun Hsl) as (rc & rx' & -> & Hrc & Hrun'). ret. replace (rc <? 0) with false by lia. ret. intros [_ Hc'].
  eexists. split; [reflexivity|]. split; [|reflexivity]. split_and!; try done. by constructor.
Qed.

(** A datagram carries one chunk only. *)
Lemma carries_inj s S dg f g : conn_ok s -> zlen S <= 4096 -> carries s S dg f -> carries s S dg g -> f = g.
Proof.
  intros Hs HS Hf Hg. assert (M : 5000 < QUIC_VARINT_MAX) by done.
  assert (G : forall h, carries s S dg h -> exists pkt sc, quic_handshake_parse dg (zlen dg) (handshake_tx_keys s) (replicate 2048 0) 2048 = Ret (Some pkt, sc) /\ h_payload pkt = crypto_wire (fst h) (snd h) /\ req_ok (RqCrypto (fst h) (snd h))).
  { intros [off d] ((Hs1 & Hs2 & _) & Hfb & Hz & Hw & pn & Hpn & ->). cbn [fst snd] in *. set (s1 := s {{ handshake_tx_next_pn := pn }}) in *.
    assert (Hs1ok : conn_ok s1) by (destruct (co_pn s Hs) as (Hp1 & _ & Hp3); unfold s1; conn_same Hs; split; [exact Hp1|]; split; [lia|exact Hp3]).
    destruct (handshake_packet_ok s1 off d Hs1ok ltac:(lia) Hfb Hz) as [Hok _].
    pose proof (handshake_parse_ok _ _ [] (replicate 2048 0) 2048 Hok (proj2 Hpn) (proj1 (co_handshake s1 Hs1ok)) ltac:(constructor) ltac:(by apply bytes_okb_ok) ltac:(split; [unfold handshake_wire in Hw; lia|done])) as Ep.
    cbv zeta in Ep. rewrite app_nil_r in Ep. eexists _, _. split; [exact Ep|]. split; [done|]. split; unfold vok; lia. }
  destruct (G f Hf) as (p1 & s1 & E1 & P1 & R1). destruct (G g Hg) as (p2 & s2 & E2 & P2 & R2). rewrite E1 in E2. injection E2 as <- _. rewrite P1 in P2.
  pose proof (decode_layout _ [] R1 I) as D1. pose proof (decode_layout _ [] R2 I) as D2. rewrite !app_nil_r in D1, D2. fold (crypto_wire (fst f) (snd f)) in D1. fold (crypto_wire (fst g) (snd g)) in D2. rewrite P2 in D1. rewrite D2 in D1.
  cbn [Frames.decoded] in D1. injection D1 as Eo _ Ed. destruct f, g. cbn [fst snd] in *. rewrite !app_nil_r in Ed. congruence.
Qed.

Lemma recvs_ok S keys s big0 scratch0 : scratch_ok big0 scratch0 -> zlen S <= 4096 -> conn_ok s -> handshake_tx_keys s = keys ->
  forall dgs seen c, Forall (fun dg => exists f, carries s S dg f) dgs -> receiving S keys seen c ->
  exists c' seen', recv_handshakes scratch0 c dgs = Ret c' /\ receiving S keys seen' c' /\ received_more c c' /\ (forall f, f ∈ seen -> f ∈ seen') /\ (forall dg f, dg ∈ dgs -> carries s S dg f -> f ∈ seen').
Proof.
  intros Hscr HS Hs Hk. induction dgs as [|dg dgs IH]; intros seen c Hd Hr; cbn [recv_handshakes].
  { exists c, seen. split_and!; try done. intros dg f Hin. by apply elem_of_nil in Hin. }
  apply Forall_cons_1 in Hd as [(f & Hf) Hd]. destruct (recv_step S keys seen big0 scratch0 c s dg f Hscr HS Hr Hs Hk Hf) as (c1 & -> & Hr1 & Hm1). ret. cbn [Z.eqb].
  destruct (IH (f :: seen) c1 Hd Hr1) as (c' & seen' & E & Hr' & Hm & H1 & H2). exists c', seen'. split_and!; try done.
  - by transitivity c1.
  - intros g Hg. apply H1, elem_of_cons. by right.
  - intros dg' g [->|Hin]%elem_of_cons Hg; [|by eapply H2]. rewrite (carries_inj s S dg g f Hs HS Hg Hf). apply H1, elem_of_cons. by left.
Qed.

(** ** End to end *)

(** Two endpoints install crossed secrets, each on its machine; the first sends a
    flight. *)
Definition send_flight (eA eB : env) (A B : quic_conn_t) (sA sB flight out : list Z) (caps : list Z) : res (list (list Z) * quic_conn_t * quic_conn_t) :=
  let! A := quic_conn_install_handshake_secrets (e_impl eA) (e_junk eA) (e_hl eA) (e_big eA) A sA sB 32 in
  let! B := quic_conn_install_handshake_secrets (e_impl eB) (e_junk eB) (e_hl eB) (e_big eB) B sB sA 32 in
  let! (dgs, A) := emit_handshakes (quic_conn_handshake_tx_set_pending A flight (zlen flight)) out caps in
  Ret (dgs, A, B).

(** Endpoints before the Handshake epoch; the sender knows its peer. *)
Definition fresh (c : quic_conn_t) : Prop :=
  conn_ok c /\ handshake_keys_ready c = false /\ rx_handshake c = epoch_rx /\ tx_handshake c = quic_crypto_tx_init /\ handshake_tx_next_pn c = 0.

(** The keys [install] gives the receiver. *)
Definition keyed (c : quic_conn_t) (tx rx : list Z) : quic_conn_t :=
  c {{ handshake_tx_keys := keys_of_secret tx; handshake_rx_keys := keys_of_secret rx; handshake_keys_ready := true }}.

Lemma keyed_ok c tx rx : conn_ok c -> conn_ok (keyed c tx rx).
Proof. intros Hc. unfold keyed. conn_same Hc. split; apply keys_of_secret_ok. Qed.

(** The calls that send a flight, and what its receiver has after them. *)
Lemma flight_sent big0 scratch0 A1 B1 flight out caps :
  scratch_ok big0 scratch0 -> sending flight A1 -> tx_next_offset (tx_handshake A1) = 0 -> receiving flight (handshake_tx_keys A1) [] B1 ->
  0 < zlen flight <= 4096 -> Forall byte_ok out -> zlen out < 2 ^ 62 ->
  Forall (fun cap => handshake_overhead A1 < cap <= Z.min 2064 (zlen out)) caps -> zlen flight <= Z.of_nat (length caps) -> handshake_tx_next_pn A1 + Z.of_nat (length caps) <= 65536 ->
  exists dgs A', emit_handshakes A1 out caps = Ret (dgs, A') /\ tx_pending_len (tx_handshake A') = 0 /\
    forall arrivals, (forall dg, dg ∈ arrivals <-> dg ∈ dgs) ->
    exists B' p, recv_handshakes scratch0 B1 arrivals = Ret B' /\ quic_conn_handshake_rx_peek B' = (zlen flight, Some p) /\ ztake (zlen flight) p = flight /\
      received_more B1 B' /\ conn_ok B' /\ rx_consumed (rx_handshake B') = 0.
Proof.
  intros SB Hsend Hoff Hrecv Hfl Ho Hol Hcaps Hn Hpn. pose proof Hsend as (HA1 & _).
  destruct (emits_ok flight out caps A1 Hsend ltac:(lia) Ho Hol Hcaps Hpn) as (dgs & fs & A' & -> & Hcar & (_ & _ & _ & (Ht1 & Ht2 & Ht3)) & Hcov & Hprog).
  exists dgs, A'. split; [reflexivity|]. split; [destruct Hprog; lia|]. intros arrivals Harr.
  assert (Hfa : Forall (fun dg => exists f, carries A1 flight dg f) arrivals).
  { apply list.Forall_forall. intros dg Hdg. apply Harr in Hdg. apply list_elem_of_lookup in Hdg as [i Hi]. destruct (Forall2_lookup_l _ _ _ _ _ Hcar Hi) as (f & _ & Hf). by exists f. }
  destruct (recvs_ok flight (handshake_tx_keys A1) A1 _ _ SB ltac:(lia) HA1 eq_refl arrivals [] _ Hfa Hrecv) as (B' & seen & -> & (HB' & _ & _ & Hrun & Hseen) & Hmore & _ & Hall).
  destruct (run_complete flight 4096 512 seen _ Hrun Hseen ltac:(lia)) as (p & Hp & Hpt).
  { intros i Hi. destruct (Hcov i ltac:(destruct Hprog; lia)) as (f & Hf & Hc'). exists f. split; [|done]. apply list_elem_of_lookup in Hf as [j Hj]. destruct (Forall2_lookup_r _ _ _ _ _ Hcar Hj) as (dg & Hdg & Hcf).
    apply (Hall dg); [|done]. apply Harr, list_elem_of_lookup. by exists j. }
  exists B', p. split_and!; try done. apply Hrun.
Qed.

Lemma flight_delivered eA eB A B sA sB flight out caps :
  env_ok eA -> env_ok eB -> fresh A -> fresh B -> peer_addrs_known A = true -> secret_ok sA -> secret_ok sB ->
  Forall byte_ok flight -> 0 < zlen flight <= 4096 -> Forall byte_ok out -> zlen out < 2 ^ 62 ->
  Forall (fun cap => handshake_overhead A < cap <= Z.min 2064 (zlen out)) caps -> zlen flight <= Z.of_nat (length caps) <= 65536 ->
  exists dgs A', send_flight eA eB A B sA sB flight out caps = Ret (dgs, A', keyed B sB sA) /\ tx_pending_len (tx_handshake A') = 0 /\
    forall arrivals, (forall dg, dg ∈ arrivals <-> dg ∈ dgs) ->
    exists B' p, recv_handshakes (e_scratch eB) (keyed B sB sA) arrivals = Ret B' /\ quic_conn_handshake_rx_peek B' = (zlen flight, Some p) /\ ztake (zlen flight) p = flight /\
      received_more (keyed B sB sA) B' /\ conn_ok B' /\ rx_consumed (rx_handshake B') = 0.
Proof.
  intros [LA SA] [LB SB] (HA & RA & _ & TA & NA) (HB & RB & XB & _ & _) Hknown HsA HsB Hfb Hfl Ho Hol Hcaps Hn. unfold send_flight.
  rewrite (install_exact _ _ _ _ _ LA SA) by auto. rewrite (install_exact _ _ _ _ _ LB SB) by auto. rewrite RA, RB, !decide_True by reflexivity. ret. fold (keyed A sA sB). fold (keyed B sB sA).
  set (A1 := quic_conn_handshake_tx_set_pending (keyed A sA sB) flight (zlen flight)). assert (HA1 : conn_ok A1).
  { pose proof (keyed_ok A sA sB HA) as Hk. unfold A1, quic_conn_handshake_tx_set_pending. destruct (co_tx _ Hk) as [Ht (_ & _ & Hto)]. conn_same Hk. split; [done|]. split; [cbn; lia|]. by split. }
  assert (ET : tx_handshake A1 = mk_tx flight (zlen flight) 0) by (change (tx_handshake A1) with (quic_crypto_tx_set_pending (tx_handshake A) flight (zlen flight)); rewrite TA; reflexivity).
  assert (Hsend : sending flight A1) by (split_and!; [done|done|done|]; unfold tx_rest; rewrite ET; cbn; rewrite padd_0; split_and!; try (done || lia); exists []; by rewrite app_nil_r).
  assert (Hoff : tx_next_offset (tx_handshake A1) = 0) by (by rewrite ET).
  assert (Hrecv : receiving flight (handshake_tx_keys A1) [] (keyed B sB sA)).
  { split; [by apply keyed_ok|]. do 2 (split; [reflexivity|]). split; [|constructor]. change (rx_handshake (keyed B sB sA)) with (rx_handshake B). rewrite XB. by apply (run_init flight 4096 512). }
  destruct (flight_sent (e_big eB) (e_scratch eB) A1 (keyed B sB sA) flight out caps SB Hsend Hoff Hrecv Hfl Ho Hol Hcaps ltac:(lia)) as (dgs & A' & -> & H);
    [change (handshake_tx_next_pn A1) with (handshake_tx_next_pn A); lia|]. ret. exists dgs, A'. by split.
Qed.

(** A Handshake flight of up to 4096 bytes gets through.  Two endpoints, on
    machines of different kinds, install the two traffic secrets crosswise; one
    of them sends a flight with at most as many calls of
    [quic_conn_emit_handshake] as it has bytes, with any buffer sizes that have
    room for a byte of data, after which nothing is pending; and the other, given
    exactly those datagrams in any order and any number of times each, accepts
    all of them and exposes exactly the flight. *)
Theorem handshake_flight_end_to_end eA eB A B sA sB flight out caps :
  env_ok eA -> env_ok eB -> fresh A -> fresh B -> peer_addrs_known A = true -> secret_ok sA -> secret_ok sB ->
  Forall byte_ok flight -> 0 < zlen flight <= 4096 -> Forall byte_ok out -> zlen out < 2 ^ 62 ->
  Forall (fun cap => handshake_overhead A < cap <= Z.min 2064 (zlen out)) caps -> zlen flight <= Z.of_nat (length caps) <= 65536 ->
  exists dgs A' B1, send_flight eA eB A B sA sB flight out caps = Ret (dgs, A', B1) /\ tx_pending_len (tx_handshake A') = 0 /\
    forall arrivals, (forall dg, dg ∈ arrivals <-> dg ∈ dgs) ->
    exists B2 p, recv_handshakes (e_scratch eB) B1 arrivals = Ret B2 /\ quic_conn_handshake_rx_peek B2 = (zlen flight, Some p) /\ ztake (zlen flight) p = flight.
Proof.
  intros HeA HeB HA HB Hk HsA HsB Hf Hfl Ho Hol Hc Hn. destruct (flight_delivered eA eB A B sA sB flight out caps HeA HeB HA HB Hk HsA HsB Hf Hfl Ho Hol Hc Hn) as (dgs & A' & E & Hp & H).
  exists dgs, A', (keyed B sB sA). split; [exact E|]. split; [exact Hp|]. intros arrivals Ha. destruct (H arrivals Ha) as (B' & p & E1 & E2 & E3 & _). exists B', p. auto.
Qed.

Definition known_peer : quic_conn_t := quic_conn_init_server {{ peer_addrs_known := true }}.

Lemma fresh_init : fresh quic_conn_init_server.
Proof. split; [apply init_server_ok|]. done. Qed.

Lemma fresh_known : fresh known_peer.
Proof. pose proof init_server_ok as H. split; [|done]. unfold known_peer. conn_same H. Qed.

Definition arm_env : env := mk_env Sha_armv8 sha_zero locals0 keys_t_buffer (replicate 2048 0).

Lemma replicate_bytes n b : byte_ok b -> Forall byte_ok (replicate n b).
Proof. intros Hb. by apply Forall_replicate. Qed.

Lemma replicate_secret b : byte_ok b -> secret_ok (replicate 32 b).
Proof. intros Hb. split; [by apply replicate_bytes|done]. Qed.

Lemma handshake_flight_end_to_end_witness :
  exists dgs A' B1, send_flight example_env arm_env known_peer quic_conn_init_server (replicate 32 1) (replicate 32 2) (replicate 40 7) (replicate 1500 0) (replicate 40 60) = Ret (dgs, A', B1) /\
    tx_pending_len (tx_handshake A') = 0 /\
    forall arrivals, (forall dg, dg ∈ arrivals <-> dg ∈ dgs) ->
    exists B2 p, recv_handshakes (replicate 2048 0) B1 arrivals = Ret B2 /\ quic_conn_handshake_rx_peek B2 = (40, Some p) /\ ztake 40 p = replicate 40 7.
Proof.
  apply (handshake_flight_end_to_end example_env arm_env known_peer quic_conn_init_server (replicate 32 1) (replicate 32 2) (replicate 40 7) (replicate 1500 0) (replicate 40 60) example_env_ok example_env_ok fresh_known fresh_init eq_refl);
    [apply replicate_secret; done|apply replicate_secret; done|apply replicate_bytes; done|done|apply replicate_bytes; done|done|apply Forall_replicate; done|done].
Defined.


Definition waiting_server : quic_conn_t :=
  quic_conn_init_server {{ q_handshake_secret := replicate 32 3; client_handshake_traffic_secret := replicate 32 4; transcript_hash_thru_server_fin := replicate 32 5; have_handshake_state := true }}.

Lemma waiting_server_ok : fresh waiting_server.
Proof.
  pose proof init_server_ok as H. split; [|done]. unfold waiting_server. conn_same H. split; [by apply replicate_secret|]. split; by apply replicate_secret.
Qed.


(** C37: [quic_server_finish_handshake] accepts nothing else.  On a well-formed
    connection that waits for the client's Finished it returns 0 and installs the
    1-RTT keys if and only if the 36 bytes next in the Handshake stream are a
    Finished message with the right MAC; otherwise (too short, another message
    type or length, a wrong MAC) it returns -1 and changes nothing; before the
    handshake secrets are known it returns -1, and after success it is
    idempotent. *)
Theorem finish_handshake_exact e c : env_ok e -> conn_ok c ->
  quic_server_finish_handshake (e_impl e) (e_junk e) (e_hl e) (e_big e) c =
  if negb (have_handshake_state c) then Ret (-1, c) else if app_keys_ready c then Ret (0, c)
  else if decide (finished_waiting c) then Ret (0, with_app_keys c) else Ret (-1, c).
Proof. intros [Hl Hs] Hc. exact (finish_exact _ _ _ _ _ Hl Hs c Hc). Qed.

Lemma finish_handshake_exact_witness : quic_server_finish_handshake Sha_ni sha_zero locals0 keys_t_buffer waiting_server = Ret (-1, waiting_server).
Proof.
  pose proof (finish_handshake_exact example_env waiting_server example_env_ok (proj1 waiting_server_ok)) as E. cbn [example_env e_impl e_junk e_hl e_big] in E. rewrite E.
  change (have_handshake_state waiting_server) with true. change (app_keys_ready waiting_server) with false. cbn [negb].
  rewrite decide_False; [reflexivity|]. intros [H _]. revert H. vm_compute. intros H. apply H. reflexivity.
Defined.

(** ** The first Initial *)

Definition initial_to (x : Z) (d s rest : list Z) : list Z := x :: cid_fields d s ++ rest.

Lemma recv_initial_header e c x d s rest : Z.land x 0xf0 = 0xc0 -> zlen d <= 20 -> zlen s <= 20 -> let dg := initial_to x d s rest in
  quic_conn_recv_initial (e_impl e) (e_junk e) (e_hl e) (e_scratch e) c dg (zlen dg) =
  let! pinned := pin_ids (e_impl e) (e_junk e) (e_hl e) c (d ++ zlen s :: s ++ rest) (zlen d) (s ++ rest) (zlen s) in
  match pinned with
  | None => Ret (-1, c)
  | Some c =>
      let! (pkt, _) := quic_initial_parse dg (zlen dg) (initial_keys c) (e_scratch e) 2048 in
      match pkt with None => Ret (-1, c) | Some pkt => walk initial_frame (i_payload pkt) (i_payload_len pkt) (c {{ initial_pkts_rcvd := u64 (initial_pkts_rcvd c + 1) }}) end
  end.
Proof.
  intros Hx Hd Hs dg. pose proof (zlen_nonneg d). pose proof (zlen_nonneg s). pose proof (zlen_nonneg rest).
  assert (Hl : zlen dg = 7 + zlen d + zlen s + zlen rest) by (unfold dg, initial_to; rewrite zlen_cons, zlen_app, zlen_cid_fields; lia).
  assert (Ei : dg = [x; 0; 0; 0; 1; zlen d] ++ d ++ zlen s :: s ++ rest).
  { unfold dg, initial_to, cid_fields. rewrite !u8_small by (unfold byte_ok; lia). change (word_bytes 1) with [0; 0; 0; 1]. cbn [app]. rewrite <- app_assoc. reflexivity. }
  assert (Hc0 : Z.land x 0xc0 = 0xc0 /\ Z.land x 0x30 = 0) by (change 0xc0 with (Z.land 0xf0 0xc0) at 1; change 0x30 with (Z.land 0xf0 0x30) at 1; rewrite !Z.land_assoc, Hx; done). destruct Hc0 as [Hc0 Hc1].
  unfold quic_conn_recv_initial. change QUIC_MAX_CID_LEN with 20. replace (zlen dg <? 7) with false by lia. rewrite Ei at 1. cbn [app]. rewrite rd_cons_0. ret. rewrite Hc0, Hc1. cbn [Z.eqb Pos.eqb negb].
  rewrite Ei at 1. cbn [app]. change (rd32be (x :: 0 :: 0 :: 0 :: 1 :: _) 1) with (Ret 1). ret. cbn [Z.eqb Pos.eqb negb]. replace (zlen dg <=? 5) with false by lia.
  rewrite Ei at 1. change (rd ([x; 0; 0; 0; 1; zlen d] ++ _) 5) with (Ret (zlen d)). ret. replace (20 <? zlen d) with false by lia. replace (zlen dg - 6 <? zlen d) with false by lia. cbn [orb]. replace (zlen dg <=? 6 + zlen d) with false by lia.
  assert (E1 : rd dg (6 + zlen d) = Ret (zlen s)) by (rewrite Ei, app_assoc; apply rd_at; rewrite zlen_app; reflexivity). rewrite E1. ret.
  replace (20 <? zlen s) with false by lia. replace (zlen dg - (6 + zlen d + 1) <? zlen s) with false by lia. cbn [orb].
  replace (padd dg 6) with (d ++ zlen s :: s ++ rest) by (rewrite Ei; symmetry; by apply padd_app).
  replace (padd dg (6 + zlen d + 1)) with (s ++ rest); [reflexivity|]. rewrite Ei. change (zlen s :: s ++ rest) with ([zlen s] ++ (s ++ rest)). rewrite !app_assoc. symmetry. rewrite <- (app_assoc _ s rest). apply padd_app. rewrite !zlen_app. done.
Qed.

(** Initial keys and the peer's id for the connection [d]. *)
Definition pinned_to (d : list Z) (c : quic_conn_t) : Prop :=
  conn_ok c /\ initial_keys_ready c = true /\ peer_addrs_known c = true /\ initial_keys c = keys_of_dcid d (rx_side c) /\ peer_dcid_len c = zlen d /\ ztake (zlen d) (peer_dcid c) = d.

Lemma initial_frame_pinned d f c : frame_ok f -> pinned_to d c -> twp (initial_frame f c) (fun r => pinned_to d (snd r)).
Proof.
  intros Hf (Hc & Hp). pose proof (initial_frame_ok f c Hf Hc) as Hok. unfold initial_frame in *. destruct (frame_allowed_in_initial f); [|done]. cbn [negb] in *.
  destruct f; try done. destruct (quic_crypto_rx_stage (rx_initial c) offset data length) as [[rc rx]| |]; [|done|done]. cbn [rbind] in *. by destruct (rc <? 0).
Qed.

(** An Initial packet for another connection id is refused. *)
Lemma pinned_refuses d c e x d' s' rest : pinned_to d c -> Z.land x 0xf0 = 0xc0 -> zlen d' <= 20 -> zlen s' <= 20 -> d' <> d ->
  quic_conn_recv_initial (e_impl e) (e_junk e) (e_hl e) (e_scratch e) c (initial_to x d' s' rest) (zlen (initial_to x d' s' rest)) = Ret (-1, c).
Proof.
  intros (Hc & Hr & _ & _ & Hl & Ht) Hx Hd Hs Hne. rewrite (recv_initial_header e c x d' s' rest Hx Hd Hs). unfold pin_ids. rewrite Hr. cbn [negb].
  destruct (Z.eqb_spec (zlen d') (peer_dcid_len c)) as [E|E]; [|reflexivity]. cbn [negb]. destruct (co_ids c Hc) as ((Lp & _ & _) & _).
  match goal with |- context [?a :: s' ++ rest] => pose proof (zlen_nonneg (a :: s' ++ rest)) end. rewrite mem_eq_ok by (rewrite ?zlen_app; lia). ret. rewrite ztake_app by done. rewrite bool_decide_eq_false_2; [reflexivity|]. rewrite E, Hl, Ht. exact Hne.
Qed.


Definition forged_initial : list Z := initial_to 0xc0 [1; 2; 3; 4] [] (0 :: 0x40 :: 0x30 :: replicate 48 9).

(** The forged packet is refused: its tag is wrong. *)
Lemma forged_refused :
  match quic_conn_recv_initial Sha_ni sha_zero locals0 (replicate 2048 0) quic_conn_init_server forged_initial (zlen forged_initial) with Ret (rc, _) => rc = -1 | _ => False end.
Proof. vm_compute. reflexivity. Qed.

