(* ===== verification/ConnStreams.v ===== *)
(** * The QUIC connection: streams over 1-RTT packets

    [quic_conn_emit_app] and [quic_conn_recv_app] of [userspace/quic/conn.c] end
    to end: STREAM frames of up to four streams, each in a protected packet of
    its own, are reassembled stream by stream from any order, interleaving and
    repetition of the datagrams. *)

From Stdlib Require Import ZArith Lia String.
From stdpp Require Import list numbers option.
From coqutil Require Import Datatypes.RecordSetters.
Import DoubleBraceUpdate.
From S2P Require Import Prelude Util Words Aead Aes AesGcm Varint CryptoStream Stream Frames Sha256 Sha256Theorems Packet PacketTheorems Kdf KdfTheorems TlsSchedule Conn ConnSafety ConnTheorems.

#[local] Opaque aead_enc aead_mac aes_block aes128_gcm_seal aes128_gcm_open aes128_init aes128_encrypt_block sha256_hash hmac expand_label.

(** ** The stream slots *)

(** The frames of one stream among those of all. *)
Fixpoint frames_of (id : Z) (l : list (Z * stream_frame)) : list stream_frame :=
  match l with [] => [] | p :: l => if fst p =? id then snd p :: frames_of id l else frames_of id l end.

Lemma elem_of_frames id l f : f ∈ frames_of id l <-> (id, f) ∈ l.
Proof.
  induction l as [|[i g] l IH]; cbn [frames_of fst snd]; [by rewrite !elem_of_nil|]. destruct (Z.eqb_spec i id) as [->|Hn]; rewrite !elem_of_cons, IH; [split; (intros [E|H]; [left; congruence|by right])|].
  split; [auto|]. intros [[= -> _]|H]; [done|exact H].
Qed.

(** Slot [j] holds stream [id]. *)
Definition holds_stream (l : list quic_stream_rx_t) (j : nat) (id : Z) (s : quic_stream_rx_t) : Prop := l !! j = Some s /\ s_in_use s = true /\ s_stream_id s = id.

(** The slots after the frames [seen] of the streams [S]. *)
Record mux_inv (S : Z -> list Z) (seen : list (Z * stream_frame)) (l : list quic_stream_rx_t) : Prop := {
  mi_run : forall j id s, holds_stream l j id s -> stream_run (S id) (frames_of id seen) s;
  mi_one : forall j k id s t, holds_stream l j id s -> holds_stream l k id t -> j = k;
  mi_seen : forall p, p ∈ seen -> exists j s, holds_stream l j (fst p) s;
  mi_used : forall j id s, holds_stream l j id s -> exists p, p ∈ seen /\ fst p = id
}.

Lemma mux_init S n : mux_inv S [] (replicate n quic_stream_rx_clear).
Proof.
  assert (H : forall j id s, ~ holds_stream (replicate n quic_stream_rx_clear) j id s) by (intros j id s (Hl & Hu & _); apply lookup_replicate in Hl as [-> _]; done).
  constructor; try (intros; exfalso; by eapply H). intros p Hp. by apply elem_of_nil in Hp.
Qed.

Lemma holds_insert l j id s : (j < length l)%nat -> s_in_use s = true -> s_stream_id s = id ->
  forall k id' t, holds_stream (<[j := s]> l) k id' t <-> (k = j /\ id' = id /\ t = s) \/ (k <> j /\ holds_stream l k id' t).
Proof.
  intros Hj Hu Hid k id' t. unfold holds_stream. destruct (decide (k = j)) as [->|Hk].
  - rewrite list_lookup_insert_eq by done. split; [intros ([= <-] & _ & <-); by left|]. intros [(_ & -> & ->)|[? _]]; done.
  - rewrite list_lookup_insert_ne by done. split; [by right|]. by intros [[? _]|[_ ?]].
Qed.

(** A frame has been added to the stream in slot [j], old or just claimed. *)
Lemma mux_update S seen l j id f s' :
  mux_inv S seen l -> (j < length l)%nat -> (exists s, holds_stream l j id s) \/ (forall id' t, ~ holds_stream l j id' t) /\ (forall k t, ~ holds_stream l k id t) ->
  s_in_use s' = true -> s_stream_id s' = id -> stream_run (S id) (f :: frames_of id seen) s' -> mux_inv S ((id, f) :: seen) (<[j := s']> l).
Proof.
  intros [Hrun Hone Hseen Hused] Hj Hold Hu Hid Hs'. pose proof (holds_insert l j id s' Hj Hu Hid) as Hi.
  assert (Hother : forall k id' t, k <> j -> holds_stream l k id' t -> id' <> id).
  { intros k id' t Hk Ht ->. destruct Hold as [(s & Hs)|[_ Hn]]; [apply Hk, (Hone _ _ _ _ _ Ht Hs)|by eapply Hn]. }
  constructor.
  - intros k id' t Hk. apply Hi in Hk as [(-> & -> & ->)|[Hk Ht]]; cbn [frames_of fst snd]; [by rewrite Z.eqb_refl|].
    destruct (Z.eqb_spec id id') as [->|_]; [|by eapply Hrun]. by destruct (Hother _ _ _ Hk Ht).
  - intros k m id' t u Hk Hm. apply Hi in Hk as [(-> & -> & ->)|[Hk Ht]], Hm as [(-> & ? & ->)|[Hm Hu']]; try done.
    + by destruct (Hother _ _ _ Hm Hu').
    + subst. by destruct (Hother _ _ _ Hk Ht).
    + by eapply Hone.
  - intros p Hp. apply elem_of_cons in Hp as [->|Hp]; [exists j, s'; apply Hi; by left|]. destruct (Hseen p Hp) as (k & t & Ht). destruct (decide (fst p = id)) as [E|E].
    + exists j, s'. rewrite E. apply Hi. by left.
    + exists k, t. apply Hi. right. split; [|done]. intros ->. destruct Hold as [(s & (Hl & _ & Hs))|[Hn _]]; [|by eapply Hn]. destruct Ht as (Hl' & _ & Ht). rewrite Hl in Hl'. injection Hl' as <-. congruence.
  - intros k id' t Hk. apply Hi in Hk as [(-> & -> & ->)|[Hk Ht]]; [exists (id, f); split; [apply elem_of_cons; by left|done]|].
    destruct (Hused _ _ _ Ht) as (p & Hp & E). exists p. split; [apply elem_of_cons; by right|done].
Qed.

(** Four streams at most: there is a slot for the next one. *)
Lemma mux_room S seen l id ids : mux_inv S seen l -> NoDup ids -> Forall (fun p => fst p ∈ ids) seen -> id ∈ ids -> (length ids <= length l)%nat ->
  Forall (fun s => s_in_use s = true -> s_stream_id s <> id) l -> ~ Forall (fun s => s_in_use s = true) l.
Proof.
  intros [_ Hone _ Hused] Hnd Hids Hid Hlen Hno Hall. rewrite list.Forall_forall in Hids. rewrite list.Forall_forall in Hno. rewrite list.Forall_forall in Hall.
  assert (Hn : NoDup (id :: map s_stream_id l)).
  { constructor.
    - intros Hin. apply list_elem_of_fmap in Hin as (s & -> & Hs). by apply (Hno s Hs (Hall s Hs)).
    - apply NoDup_alt. intros j k x Hj Hk. apply list_lookup_fmap_Some in Hj as (s & -> & Hj), Hk as (t & E & Hk).
      apply (Hone j k (s_stream_id s) s t); split; try done; split; try done; [eapply Hall, list_elem_of_lookup_2, Hj|eapply Hall, list_elem_of_lookup_2, Hk]. }
  assert (Hsub : id :: map s_stream_id l ⊆+ ids).
  { apply NoDup_submseteq; [done|]. intros x [->|Hx]%elem_of_cons; [done|]. apply list_elem_of_fmap in Hx as (s & -> & Hs). pose proof (Hall s Hs) as Hu. apply list_elem_of_lookup in Hs as [j Hj].
    destruct (Hused j (s_stream_id s) s) as (p & Hp & <-); [by split|]. by apply Hids. }
  apply submseteq_length in Hsub. cbn [length] in Hsub. rewrite length_map in Hsub. lia.
Qed.

Lemma ingest_keeps_id s off d n fin rc s' : quic_stream_rx_ingest s off d n fin = Ret (rc, s') -> s_in_use s' = s_in_use s /\ s_stream_id s' = s_stream_id s.
Proof.
  unfold quic_stream_rx_ingest. destruct (negb (s_in_use s)); [by intros [= <- <-]|]. destruct (_ <? off); [by intros [= <- <-]|].
  destruct (stream_fin s fin (u64 (off + n))) as [s1|] eqn:E; [|by intros [= <- <-]].
  assert (Hs1 : s_in_use s1 = s_in_use s /\ s_stream_id s1 = s_stream_id s).
  { unfold stream_fin in E. destruct (s_fin_seen s); [destruct (_ <? _); [done|]; destruct (_ && _); [done|]; by injection E as <-|]. destruct fin; [destruct (_ <? _); [done|]|]; by injection E as <-. }
  destruct (n =? 0); [by intros [= <- <-]|]. destruct (quic_crypto_rx_stage _ _ _ _) as [[rc' rx]| |]; [|done|done]. cbn [rbind]. by intros [= <- <-].
Qed.

(** ** One STREAM frame *)

(** The streams and the frames that are sent: at most four streams, at most 16384
    bytes each. *)
Definition stream_frame_ok (S : Z -> list Z) (ids : list Z) (p : Z * stream_frame) : Prop :=
  fst p ∈ ids /\ 0 <= fst p <= QUIC_VARINT_MAX /\ frame_of (S (fst p)) (snd p) /\ Forall byte_ok (sf_data (snd p)) /\ zlen (sf_data (snd p)) <= 1900.

Definition streams_ok (S : Z -> list Z) (ids : list Z) : Prop := NoDup ids /\ (length ids <= 4)%nat /\ forall id, zlen (S id) <= QUIC_STREAM_RX_CAP.

Lemma frames_ok S ids seen id : Forall (stream_frame_ok S ids) seen -> Forall (frame_of (S id)) (frames_of id seen).
Proof. intros H. apply list.Forall_forall. intros f Hf. apply elem_of_frames in Hf. rewrite list.Forall_forall in H. by destruct (H _ Hf) as (_ & _ & ? & _). Qed.

(** The frame is added to its stream. *)
Lemma app_frame_step S ids seen c id f :
  streams_ok S ids -> conn_ok c -> mux_inv S seen (streams c) -> Forall (stream_frame_ok S ids) seen -> stream_frame_ok S ids (id, f) ->
  exists l, app_frame (FStream id (sf_off f) (zlen (sf_data f)) (sf_fin f) (sf_data f)) c = Ret (true, c {{ streams := l }}) /\ mux_inv S ((id, f) :: seen) l.
Proof.
  intros (Hnd & Hlen & HS) Hc Hm Hseen (Hid & _ & Hf & _ & _). cbn [fst snd] in *. destruct (co_streams c Hc) as [Hn _]. unfold app_frame. pose proof (find_slot_spec (streams c) id 0 None) as Hslot.
  pose proof (frames_ok S ids seen id Hseen) as Hfr.
  destruct (find_slot (streams c) id 0 None) as [[j|] o].
  - destruct Hslot as (s & _ & Hj & Hu & Hi). rewrite Nat.sub_0_r in Hj. rewrite Hj.
    destruct (stream_run_step (S id) (frames_of id seen) s f (HS id) Hfr (mi_run _ _ _ Hm j id s (conj Hj (conj Hu Hi))) Hf) as (rc & s' & E & Hrc & Hrun). rewrite E. ret.
    destruct (ingest_keeps_id _ _ _ _ _ _ _ E) as [E1 E2]. replace (rc <? 0) with false by lia. exists (<[j := s']> (streams c)). split; [reflexivity|].
    apply mux_update; [done|by eapply lookup_lt_Some|left; by exists s|congruence|congruence|done].
  - destruct Hslot as [Hno Ho]. assert (Hroom : ~ Forall (fun s => s_in_use s = true) (streams c)).
    { apply (mux_room S seen (streams c) id ids); try done; [|rewrite Hn; unfold QUIC_CONN_MAX_STREAMS; lia]. revert Hseen. apply Forall_impl. by intros p (? & _). }
    destruct o as [j|]; [|done]. destruct Ho as (s0 & _ & Hj & Hu). rewrite Nat.sub_0_r in Hj. pose proof (lookup_lt_Some _ _ _ Hj) as Hjl.
    assert (Hnone : forall k t, ~ holds_stream (streams c) k id t) by (intros k t (Hk & Hu' & Hi'); rewrite list.Forall_forall in Hno; by apply (Hno t (list_elem_of_lookup_2 _ _ _ Hk))).
    assert (Hempty : frames_of id seen = []).
    { destruct (frames_of id seen) as [|g l] eqn:E; [done|]. exfalso. assert (Hg : (id, g) ∈ seen) by (apply elem_of_frames; rewrite E; apply elem_of_cons; by left). destruct (mi_seen _ _ _ Hm _ Hg) as (k & t & Ht). by apply (Hnone k t). }
    cbn. rewrite list_lookup_insert_eq by done. destruct (stream_run_step (S id) [] (quic_stream_rx_init id) f (HS id) ltac:(constructor) (stream_run_init (S id) id) Hf) as (rc & s' & E & Hrc & Hrun). rewrite E. ret.
    destruct (ingest_keeps_id _ _ _ _ _ _ _ E) as [E1 E2]. replace (rc <? 0) with false by lia. rewrite list_insert_insert_eq. exists (<[j := s']> (streams c)). split; [reflexivity|].
    apply mux_update; [done|done|right|done|done|by rewrite Hempty]. split; [|done]. intros id' t (Hl & Hu' & _). rewrite Hj in Hl. injection Hl as <-. congruence.
Qed.

Definition stream_wire (p : Z * stream_frame) : list Z := wire (layout (RqStream (fst p) (sf_off (snd p)) (sf_data (snd p)) (sf_fin (snd p)))).

Lemma stream_req_ok S ids p : streams_ok S ids -> stream_frame_ok S ids p -> req_ok (RqStream (fst p) (sf_off (snd p)) (sf_data (snd p)) (sf_fin (snd p))).
Proof.
  intros (_ & _ & HS) (_ & Hid & ((Ho & He & _) & _) & _ & Hd). cbn [sf_slice fst snd] in *. specialize (HS (fst p)). assert (QUIC_STREAM_RX_CAP < QUIC_VARINT_MAX) by done. pose proof (zlen_nonneg (sf_data (snd p))). cbn. unfold vok. lia.
Qed.

Lemma stream_wire_ok S ids p : streams_ok S ids -> stream_frame_ok S ids p -> Forall byte_ok (stream_wire p) /\ 4 <= zlen (stream_wire p) <= 1925.
Proof.
  intros Hs Hp. destruct (stream_req_ok S ids p Hs Hp) as (V1 & V2 & V3). destruct Hp as (_ & _ & _ & Hb & Hl). pose proof (zlen_nonneg (sf_data (snd p))). unfold vok in *.
  destruct (varint_size_any (fst p) ltac:(lia)) as (A1 & A2 & _). destruct (varint_size_any (sf_off (snd p)) ltac:(lia)) as (B1 & B2 & _). destruct (varint_size_any (zlen (sf_data (snd p))) ltac:(lia)) as (C1 & C2 & _).
  unfold stream_wire. cbn [layout wire field_bytes]. rewrite app_nil_r. cbn [app]. split.
  - constructor; [by destruct (sf_fin (snd p))|]. rewrite !Forall_app. split_and!; try apply varint_encode_bytes. done.
  - unfold vbytes. rewrite zlen_cons, !zlen_app, !varint_encode_length. repeat zcase; lia.
Qed.

Lemma stream_encode_wire S ids p : streams_ok S ids -> stream_frame_ok S ids p -> quic_frame_stream_encode 2048 (fst p) (sf_off (snd p)) (sf_data (snd p)) (sf_fin (snd p)) = stream_wire p.
Proof.
  intros Hs Hp. pose proof (encode_layout 2048 _ ltac:(lia) (stream_req_ok S ids p Hs Hp)) as E. cbn [encode_req] in E. rewrite E. destruct (stream_wire_ok S ids p Hs Hp) as [_ Hl]. fold (stream_wire p). by replace (_ <=? 2048) with true by lia.
Qed.

(** ** Sending and receiving *)

(** One packet per frame. *)
Fixpoint send_frames (c : quic_conn_t) (out : list Z) (cap : Z) (l : list (Z * stream_frame)) : res (list (list Z) * quic_conn_t) :=
  match l with
  | [] => Ret ([], c)
  | (id, f) :: l =>
      let payload := quic_frame_stream_encode 2048 id (sf_off f) (sf_data f) (sf_fin f) in
      let! (n, buf, c) := quic_conn_emit_app c payload (zlen payload) out cap in
      let! (dgs, c) := send_frames c out cap l in
      Ret (if n =? 0 then dgs else ztake n buf :: dgs, c)
  end.

Fixpoint recv_apps (scratch0 : list Z) (c : quic_conn_t) (dgs : list (list Z)) : res quic_conn_t :=
  match dgs with
  | [] => Ret c
  | dg :: dgs =>
      let! (rc, c) := quic_conn_recv_app scratch0 c dg (zlen dg) in
      if rc =? 0 then recv_apps scratch0 c dgs else Fail
  end.

(** The datagram is a packet of [c] that carries the frame. *)
Definition carries_frame (c : quic_conn_t) (dg : list Z) (p : Z * stream_frame) : Prop :=
  exists pn, 0 <= pn < 65536 /\ dg = app_wire (c {{ app_tx_next_pn := pn }}) (stream_wire p).

Lemma with_pn_ok c pn : conn_ok c -> 0 <= pn < 2 ^ 64 -> conn_ok (c {{ app_tx_next_pn := pn }}).
Proof. intros Hc Hpn. destruct (co_pn c Hc) as (P1 & P2 & _). conn_same Hc. split; [done|]. by split. Qed.

Lemma sends_ok S ids out cap : streams_ok S ids -> Forall byte_ok out -> 1964 <= cap <= zlen out -> zlen out < 2 ^ 62 ->
  forall l c, conn_ok c -> app_keys_ready c = true -> peer_addrs_known c = true -> Forall (stream_frame_ok S ids) l -> app_tx_next_pn c + Z.of_nat (length l) <= 65536 ->
  exists dgs c', send_frames c out cap l = Ret (dgs, c') /\ Forall2 (carries_frame c) dgs l.
Proof.
  intros Hs Hb Hcap Hout. induction l as [|p l IH]; intros c Hc Hr Ha Hl Hpn; cbn [send_frames]; [exists [], c; split; [done|constructor]|].
  apply Forall_cons_1 in Hl as [Hp Hl]. destruct p as [id f]. pose proof (stream_encode_wire S ids (id, f) Hs Hp) as Ew. cbn [fst snd] in Ew. rewrite Ew. destruct (stream_wire_ok S ids (id, f) Hs Hp) as [Wb Wl]. cbn [length] in Hpn.
  destruct (co_ids c Hc) as (_ & (_ & _ & Hn) & _). rewrite emit_app_exact by (done || lia). rewrite decide_True by (split_and!; (done || lia)). cbv zeta. ret. destruct (co_pn c Hc) as (P1 & P2 & P3). rewrite (u64_small (app_tx_next_pn c + 1)) by lia.
  destruct (IH (c {{ app_tx_next_pn := app_tx_next_pn c + 1 }})) as (dgs & c' & -> & H2); [apply with_pn_ok; [done|lia]|done|done|done|cbn [length]; change (app_tx_next_pn (c {{ app_tx_next_pn := app_tx_next_pn c + 1 }})) with (app_tx_next_pn c + 1); lia|]. ret.
  destruct (app_packet_ok c (stream_wire (id, f)) Hc Wb ltac:(lia)) as [_ Lw]. replace (zlen (app_wire c _) =? 0) with false by lia. rewrite ztake_app by done. eexists _, c'. split; [reflexivity|]. constructor; [|exact H2].
  exists (app_tx_next_pn c). split; [lia|reflexivity].
Qed.

(** The receiver [c] has the sender's keys and is addressed by the id it chose. *)
Definition paired (s c : quic_conn_t) : Prop :=
  app_keys_ready c = true /\ app_rx_keys c = app_tx_keys s /\ our_scid_len c = peer_scid_len s /\ ztake (our_scid_len c) (our_scid c) = ztake (peer_scid_len s) (peer_scid s).

Lemma recv_app_genuine big0 scratch0 s c pn payload : scratch_ok big0 scratch0 -> conn_ok s -> conn_ok c -> paired s c -> 0 <= pn < 65536 -> Forall byte_ok payload -> 3 <= zlen payload <= 1925 ->
  let w := app_wire (s {{ app_tx_next_pn := pn }}) payload in
  quic_conn_recv_app scratch0 c w (zlen w) = walk app_frame payload (zlen payload) (c {{ app_pkts_rcvd := u64 (app_pkts_rcvd c + 1) }}).
Proof.
  intros (_ & Ls & Bs) Hs Hc (Hr & Hk & Hl & Hid) Hpn Hb Hn w. set (s1 := s {{ app_tx_next_pn := pn }}) in *. pose proof (with_pn_ok s pn Hs ltac:(lia) : conn_ok s1) as Hs1.
  destruct (app_packet_ok s1 payload Hs1 Hb ltac:(lia)) as [Hok Lw]. fold w in Lw. change (peer_scid_len s1) with (peer_scid_len s) in Lw. destruct (co_ids s Hs) as (_ & (_ & _ & Ns) & _). destruct (co_ids c Hc) as (_ & _ & (Lo & _ & No)).
  pose proof (short_parse_ok (app_packet s1 payload) (app_tx_keys s1) scratch0 2048 Hok ltac:(apply (proj2 Hpn)) (proj1 (co_app s1 Hs1)) Bs ltac:(fold (app_wire s1 payload); fold w; lia)) as Ep. cbv zeta in Ep. fold (app_wire s1 payload) in Ep. fold w in Ep.
  cbn [app_packet s_pn_len s_payload_len s_dcid_len] in Ep. replace (2 + zlen payload =? 4) with false in Ep by lia.
  unfold quic_conn_recv_app. rewrite Hr. cbn [negb]. replace (zlen w <? 1) with false by lia.
  assert (Ew : exists rest, w = Z.lxor (short_byte 0 0 2) (Z.land (nth 0 (hp_mask (app_tx_keys s1) (short_parts (app_packet s1 payload))) 0) 0x1f) :: rest) by (unfold w, app_wire, wire_form; cbn [short_parts app_packet pt_b0 s_spin s_key_phase s_pn_len]; by eexists).
  destruct Ew as (rest & Ew). rewrite Ew at 1. rewrite rd_cons_0. ret. rewrite !mask_outside by reflexivity. change (Z.land (short_byte 0 0 2) 0x80) with 0. change (Z.land (short_byte 0 0 2) 0x40) with 0x40. cbn [Z.eqb negb].
  rewrite Hk. change (app_tx_keys s) with (app_tx_keys s1). rewrite Hl. change (peer_scid_len s) with (peer_scid_len s1). rewrite Ep. ret. cbn [app_packet s_dcid_len s_dcid s_payload s_payload_len]. rewrite Z.eqb_refl. cbn [negb].
  change (peer_scid_len s1) with (peer_scid_len s). change (peer_scid s1) with (peer_scid s). rewrite mem_eq_ok by (rewrite ?zlen_ztake; lia || (destruct (co_ids s Hs) as (_ & (Ls' & _) & _); rewrite ?zlen_ztake; lia)). ret.
  rewrite bool_decide_eq_true_2; [reflexivity|]. rewrite <- Hl, Hid, Hl. unfold ztake. by rewrite take_take, Nat.min_id.
Qed.

Lemma carries_frame_inj S ids s dg p q : streams_ok S ids -> conn_ok s -> stream_frame_ok S ids p -> stream_frame_ok S ids q -> carries_frame s dg p -> carries_frame s dg q -> p = q.
Proof.
  intros HS Hs Hp Hq Cp Cq.
  assert (G : forall r, stream_frame_ok S ids r -> carries_frame s dg r -> exists pkt sc, quic_short_parse dg (zlen dg) (peer_scid_len s) (app_tx_keys s) (replicate 2048 0) 2048 = Ret (Some pkt, sc) /\ s_payload pkt = stream_wire r).
  { intros r Hr (pn & Hpn & ->). set (s1 := s {{ app_tx_next_pn := pn }}). pose proof (with_pn_ok s pn Hs ltac:(lia) : conn_ok s1) as Hs1. destruct (stream_wire_ok S ids r HS Hr) as [Wb Wl].
    destruct (app_packet_ok s1 (stream_wire r) Hs1 Wb ltac:(lia)) as [Hok Lw]. change (peer_scid_len s1) with (peer_scid_len s) in Lw. destruct (co_ids s Hs) as (_ & (_ & _ & Ns) & _).
    pose proof (short_parse_ok (app_packet s1 (stream_wire r)) (app_tx_keys s1) (replicate 2048 0) 2048 Hok ltac:(apply (proj2 Hpn)) (proj1 (co_app s1 Hs1)) ltac:(by apply bytes_okb_ok) ltac:(fold (app_wire s1 (stream_wire r)); split; [lia|done])) as Ep.
    cbv zeta in Ep. cbn [app_packet s_pn_len s_payload_len s_dcid_len] in Ep. replace (2 + zlen (stream_wire r) =? 4) with false in Ep by lia. eexists _, _. split; [exact Ep|reflexivity]. }
  destruct (G p Hp Cp) as (p1 & s1 & E1 & P1). destruct (G q Hq Cq) as (p2 & s2 & E2 & P2). rewrite E1 in E2. injection E2 as <- _. rewrite P1 in P2.
  pose proof (decode_layout _ [] (stream_req_ok S ids p HS Hp) I) as D1. pose proof (decode_layout _ [] (stream_req_ok S ids q HS Hq) I) as D2. rewrite !app_nil_r in D1, D2. fold (stream_wire p) in D1. fold (stream_wire q) in D2.
  rewrite P2, D2 in D1. cbn [Frames.decoded raw_type] in D1. injection D1 as _ Ei Eo _ Ef Ed. destruct p as [i [o d fi]], q as [i' [o' d' fi']]. cbn [fst snd sf_off sf_data sf_fin] in *. rewrite !app_nil_r in Ed. congruence.
Qed.

(** A receiver that has the frames [seen]. *)
Definition collecting (S : Z -> list Z) (ids : list Z) (s : quic_conn_t) (seen : list (Z * stream_frame)) (c : quic_conn_t) : Prop :=
  conn_ok c /\ paired s c /\ mux_inv S seen (streams c) /\ Forall (stream_frame_ok S ids) seen.

Lemma collect_step S ids s seen big0 scratch0 c dg p : scratch_ok big0 scratch0 -> streams_ok S ids -> conn_ok s -> collecting S ids s seen c -> stream_frame_ok S ids p -> carries_frame s dg p ->
  exists c', quic_conn_recv_app scratch0 c dg (zlen dg) = Ret (0, c') /\ collecting S ids s (p :: seen) c'.
Proof.
  intros Hscr HS Hs (Hc & Hpair & Hmux & Hseen) Hp (pn & Hpn & ->). destruct (stream_wire_ok S ids p HS Hp) as [Wb Wl]. destruct p as [id f].
  set (s1 := s {{ app_tx_next_pn := pn }}). pose proof (with_pn_ok s pn Hs ltac:(lia) : conn_ok s1) as Hs1. destruct (app_packet_ok s1 (stream_wire (id, f)) Hs1 Wb ltac:(lia)) as [Hok Lw]. change (peer_scid_len s1) with (peer_scid_len s) in Lw.
  destruct (co_ids s Hs) as (_ & (_ & _ & Ns) & _).
  pose proof (recv_app_ok big0 scratch0 Hscr c (app_wire s1 (stream_wire (id, f))) Hc (wire_bytes _ _ 0x1f (proj1 (co_app s1 Hs1)) (short_parts_ok _ Hok) ltac:(lia)) ltac:(lia)) as Hsafe. revert Hsafe. unfold s1.
  rewrite (recv_app_genuine big0 scratch0 s c pn (stream_wire (id, f)) Hscr Hs Hc Hpair Hpn Wb ltac:(lia)). unfold stream_wire at 1 2 3 4. rewrite walk_one; [|exact (stream_req_ok S ids _ HS Hp)|exact I|fold (stream_wire (id, f)); lia].
  cbn [Frames.decoded fst snd]. rewrite app_nil_r. set (c1 := c {{ app_pkts_rcvd := u64 (app_pkts_rcvd c + 1) }}). assert (Hc1 : conn_ok c1) by (unfold c1; conn_same Hc).
  destruct (app_frame_step S ids seen c1 id f HS Hc1 Hmux Hseen Hp) as (l & -> & Hm). ret. intros [_ Hc']. cbn [snd] in Hc'. eexists. split; [reflexivity|]. split; [exact Hc'|]. split; [exact Hpair|]. split; [exact Hm|]. by constructor.
Qed.

Lemma collect_all S ids s big0 scratch0 : scratch_ok big0 scratch0 -> streams_ok S ids -> conn_ok s ->
  forall dgs seen c, Forall (fun dg => exists p, stream_frame_ok S ids p /\ carries_frame s dg p) dgs -> collecting S ids s seen c ->
  exists c' seen', recv_apps scratch0 c dgs = Ret c' /\ collecting S ids s seen' c' /\
    forall p, p ∈ seen' <-> p ∈ seen \/ exists dg, dg ∈ dgs /\ stream_frame_ok S ids p /\ carries_frame s dg p.
Proof.
  intros Hscr HS Hs. induction dgs as [|dg dgs IH]; intros seen c Hd Hc; cbn [recv_apps].
  { exists c, seen. split_and!; try done. intros p. split; [auto|]. intros [?|(dg & Hin & _)]; [done|by apply elem_of_nil in Hin]. }
  apply Forall_cons_1 in Hd as [(p & Hp & Hcar) Hd]. destruct (collect_step S ids s seen big0 scratch0 c dg p Hscr HS Hs Hc Hp Hcar) as (c1 & -> & Hc1). ret. cbn [Z.eqb].
  destruct (IH (p :: seen) c1 Hd Hc1) as (c' & seen' & E & Hc' & Hmem). exists c', seen'. split_and!; try done. intros q. rewrite Hmem, elem_of_cons. split.
  - intros [[->|Hq]|(dg' & Hin & Hq)]; [right; exists dg; split; [apply elem_of_cons; by left|done]|by left|right; exists dg'; split; [apply elem_of_cons; by right|done]].
  - intros [Hq|(dg' & [->|Hin]%elem_of_cons & Hq & Hcq)]; [auto|left; left; by apply (carries_frame_inj S ids s dg q p)|right; by exists dg'].
Qed.

(** C3: up to four streams are delivered over 1-RTT packets.  The sender puts the
    STREAM frames of its streams, interleaved in any way, into protected packets
    with [quic_conn_emit_app]; the receiver, given exactly those datagrams in any
    order and any number of times each, accepts all of them with
    [quic_conn_recv_app], gives every stream a slot of its own, and reports a
    stream complete exactly when its FIN and all of its bytes were sent, in which
    case the readable bytes are exactly the stream. *)
Theorem streams_end_to_end e S ids s c out cap l :
  env_ok e -> streams_ok S ids -> conn_ok s -> app_keys_ready s = true -> peer_addrs_known s = true -> conn_ok c -> paired s c -> streams c = replicate 4 quic_stream_rx_clear ->
  Forall (stream_frame_ok S ids) l -> app_tx_next_pn s + Z.of_nat (length l) <= 65536 -> Forall byte_ok out -> 1964 <= cap <= zlen out -> zlen out < 2 ^ 62 ->
  exists dgs s', send_frames s out cap l = Ret (dgs, s') /\
    forall arrivals, (forall dg, dg ∈ arrivals <-> dg ∈ dgs) ->
    exists c', recv_apps (e_scratch e) c arrivals = Ret c' /\
      forall id, (exists f, (id, f) ∈ l) -> exists j st, holds_stream (streams c') j id st /\
        (quic_stream_rx_is_complete st = true <-> (exists f, f ∈ frames_of id l /\ sf_fin f = true) /\ (forall i, 0 <= i < zlen (S id) -> covered (map sf_slice (frames_of id l)) i)) /\
        (quic_stream_rx_is_complete st = true -> 0 < zlen (S id) -> exists p, quic_stream_rx_peek st = (zlen (S id), Some p) /\ ztake (zlen (S id)) p = S id).
Proof.
  intros [_ Hscr] HS Hs Hr Ha Hc Hpair Hclear Hl Hpn Ho Hcap Hol. destruct (sends_ok S ids out cap HS Ho Hcap Hol l s Hs Hr Ha Hl Hpn) as (dgs & s' & E & H2). exists dgs, s'. split; [exact E|]. intros arrivals Harr.
  pose proof Hl as Hl'. rewrite list.Forall_forall in Hl'.
  assert (Hfa : Forall (fun dg => exists p, stream_frame_ok S ids p /\ carries_frame s dg p) arrivals).
  { apply list.Forall_forall. intros dg Hdg. apply Harr in Hdg. apply list_elem_of_lookup in Hdg as [i Hi]. destruct (Forall2_lookup_l _ _ _ _ _ H2 Hi) as (p & Hip & Hp). exists p. split; [|done]. by eapply Hl', list_elem_of_lookup_2. }
  destruct (collect_all S ids s _ _ Hscr HS Hs arrivals [] c Hfa) as (c' & seen & -> & (_ & _ & Hmux & Hseen) & Hmem).
  { split; [done|]. split; [done|]. split; [|constructor]. rewrite Hclear. apply mux_init. }
  assert (Hm : forall p, p ∈ seen <-> p ∈ l).
  { intros p. rewrite Hmem, elem_of_nil. split.
    - intros [[]|(dg & Hin & Hp & Hcp)]. apply Harr, list_elem_of_lookup in Hin as [i Hi]. destruct (Forall2_lookup_l _ _ _ _ _ H2 Hi) as (q & Hiq & Hq). pose proof (list_elem_of_lookup_2 _ _ _ Hiq) as Hin. by rewrite (carries_frame_inj S ids s dg p q HS Hs Hp (Hl' q Hin) Hcp Hq).
    - intros Hin. right. apply list_elem_of_lookup in Hin as [i Hi]. destruct (Forall2_lookup_r _ _ _ _ _ H2 Hi) as (dg & Hid & Hdg). exists dg. split; [apply Harr; by eapply list_elem_of_lookup_2|]. split; [|done]. by eapply Hl', list_elem_of_lookup_2. }
  exists c'. split; [reflexivity|]. intros id (f & Hf). destruct (mi_seen _ _ _ Hmux (id, f) ltac:(by apply Hm)) as (j & st & Hj). cbn [fst] in Hj. exists j, st. split; [done|].
  destruct HS as (_ & _ & HS). destruct (stream_run_result (S id) (frames_of id seen) st (mi_run _ _ _ Hmux _ _ _ Hj) (HS id) (frames_ok S ids seen id Hseen)) as [R1 R2]. split; [|exact R2]. rewrite R1.
  apply (complete_ext (frames_of id seen) (frames_of id l) (fun i => 0 <= i < zlen (S id))). intros g. rewrite !elem_of_frames. apply Hm.
Qed.

Definition sender0 : quic_conn_t := quic_conn_init_server {{ app_keys_ready := true; peer_addrs_known := true; peer_scid := replicate 20 9; peer_scid_len := 4 }}.
Definition receiver0 : quic_conn_t := quic_conn_init_server {{ app_keys_ready := true; our_scid := replicate 20 9; our_scid_len := 4 }}.
Definition two_streams (id : Z) : list Z := if id =? 4 then [1; 2; 3] else if id =? 8 then [5; 6] else [].
Definition three_frames : list (Z * stream_frame) := [(4, mk_sf 0 [1; 2] false); (8, mk_sf 0 [5; 6] true); (4, mk_sf 2 [3] true)].

Lemma sender0_ok : conn_ok sender0.
Proof. pose proof init_server_ok as H. destruct (co_ids _ H) as (I1 & I2 & I3). unfold sender0. conn_same H. split; [done|]. split; [|done]. split; [done|]. split; [by apply bytes_okb_ok|lia]. Qed.

Lemma receiver0_ok : conn_ok receiver0.
Proof. pose proof init_server_ok as H. destruct (co_ids _ H) as (I1 & I2 & I3). unfold receiver0. conn_same H. split; [done|]. split; [done|]. split; [done|]. split; [by apply bytes_okb_ok|lia]. Qed.

Lemma two_streams_ok : streams_ok two_streams [4; 8] /\ Forall (stream_frame_ok two_streams [4; 8]) three_frames.
Proof.
  split.
  - split; [apply (bool_decide_unpack _); reflexivity|]. split; [cbn; lia|]. intros id. unfold two_streams. repeat zcase; done.
  - assert (H : forall id S f, two_streams id = S -> id ∈ [4; 8] -> 0 <= id <= 8 -> frame_of S f -> bytes_okb (sf_data f) = true -> zlen (sf_data f) <= 1900 -> stream_frame_ok two_streams [4; 8] (id, f)).
    { intros id S f <- Hin Hid Hf Hb Hl. split; [done|]. split; [cbn [fst]; assert (8 <= QUIC_VARINT_MAX) by done; lia|]. split; [done|]. split; [by apply bytes_okb_ok|done]. }
    repeat apply Forall_cons_2; [| | |apply Forall_nil_2].
    + apply (H 4 [1; 2; 3]); [reflexivity|apply (bool_decide_unpack _); reflexivity|lia|split; [apply (slice_padd [1; 2; 3] 0 2); done|done]|reflexivity|done].
    + apply (H 8 [5; 6]); [reflexivity|apply (bool_decide_unpack _); reflexivity|lia|split; [apply (slice_padd [5; 6] 0 2); done|done]|reflexivity|done].
    + apply (H 4 [1; 2; 3]); [reflexivity|apply (bool_decide_unpack _); reflexivity|lia|split; [apply (slice_padd [1; 2; 3] 2 1); done|done]|reflexivity|done].
Qed.

Lemma streams_end_to_end_witness :
  exists dgs s', send_frames sender0 (replicate 2000 0) 2000 three_frames = Ret (dgs, s') /\
    forall arrivals, (forall dg, dg ∈ arrivals <-> dg ∈ dgs) ->
    exists c', recv_apps (replicate 2048 0) receiver0 arrivals = Ret c' /\
      exists j st p, holds_stream (streams c') j 4 st /\ quic_stream_rx_is_complete st = true /\ quic_stream_rx_peek st = (3, Some p) /\ ztake 3 p = [1; 2; 3].
Proof.
  destruct (streams_end_to_end example_env two_streams [4; 8] sender0 receiver0 (replicate 2000 0) 2000 three_frames example_env_ok (proj1 two_streams_ok) sender0_ok eq_refl eq_refl receiver0_ok
    (conj eq_refl (conj eq_refl (conj eq_refl eq_refl))) eq_refl (proj2 two_streams_ok) ltac:(done) (replicate_bytes 2000 0 ltac:(done)) ltac:(done) ltac:(done)) as (dgs & s' & E & H).
  exists dgs, s'. split; [exact E|]. intros arrivals Ha. destruct (H arrivals Ha) as (c' & Ec & Hid). exists c'. split; [exact Ec|].
  destruct (Hid 4 ltac:(exists (mk_sf 0 [1; 2] false); apply elem_of_cons; by left)) as (j & st & Hj & Hc & Hp). change (two_streams 4) with [1; 2; 3] in *. change (frames_of 4 three_frames) with [mk_sf 0 [1; 2] false; mk_sf 2 [3] true] in Hc.
  assert (Hcomplete : quic_stream_rx_is_complete st = true).
  { apply Hc. split; [exists (mk_sf 2 [3] true); split; [apply elem_of_cons; right; by apply list_elem_of_singleton|done]|]. intros i Hi. change (zlen [1; 2; 3]) with 3 in Hi. destruct (decide (i < 2)).
    - exists (0, [1; 2]). split; [apply elem_of_cons; by left|]. unfold covers. cbn [fst snd]. change (zlen [1; 2]) with 2. lia.
    - exists (2, [3]). split; [apply elem_of_cons; right; by apply list_elem_of_singleton|]. unfold covers. cbn [fst snd]. change (zlen [3]) with 1. lia. }
  destruct (Hp Hcomplete ltac:(done)) as (p & Hpk & Hpt). exists j, st, p. exact (conj Hj (conj Hcomplete (conj Hpk Hpt))).
Defined.
