(* ===== verification/TlsHello.v ===== *)
(** * The ClientHello parser

    The parser of [userspace/tls/handshake.c]; the message builders are in
    [TlsMessages].  The parser's
    pointers all point into the message, so they are modelled as offsets into it;
    [Fail] is the C result -1, after which no caller looks at the output
    structure.  NULL arguments are not modelled. *)

From Stdlib Require Import ZArith Lia String.
From stdpp Require Import list numbers option.
From coqutil Require Import Datatypes.RecordSetters.
Import DoubleBraceUpdate.
From S2P Require Import Prelude Util Words Varint.

#[global] Arguments constant _ _ _ /.

Definition TLS13_RANDOM_LEN : Z := 32.
Definition TLS13_CHACHA20_POLY1305_SHA256 : Z := 0x1303.
Definition TLS13_SUPPORTED_VERSION : Z := 0x0304.
Definition TLS13_NAMED_GROUP_X25519 : Z := 0x001d.
Definition TLS13_MAX_SNI_LEN : Z := 253.
Definition TLS13_PSK_MAX_OFFERS : Z := 4.
Definition TLS13_SIG_SCHEME_ED25519 : Z := 0x0807.
Definition TLS13_SIG_SCHEME_RSA_PSS_RSAE_SHA256 : Z := 0x0804.
Definition TLS13_SIG_SCHEME_ECDSA_SECP256R1_SHA256 : Z := 0x0403.

Record tls13_client_hello_t := mk_hello {
  ch_random : list Z;
  offers_chacha_poly : bool;
  offers_tls13 : bool;
  offers_x25519 : bool;
  ecdhe_pubkey : list Z;
  offers_ed25519 : bool;
  offers_rsa_pss_rsae_sha256 : bool;
  offers_ecdsa_secp256r1_sha256 : bool;
  legacy_session_id : list Z;
  legacy_session_id_len : Z;
  sni : list Z;
  sni_len : Z;
  raw_len : Z;
  psk_present : bool;
  psk_offer_count : Z;
  psk_partial_ch_off : Z;
  psk_dhe_ke_offered : bool;
  offers_early_data : bool;
  psk_id_off : list Z;
  psk_id_len : list Z;
  psk_obfuscated_age : list Z;
  psk_binder_off : list Z;
  psk_binder_len : list Z
}.

(** [memset(out, 0, sizeof *out)]; [raw] is the message itself. *)
Definition empty_hello (msg_len : Z) : tls13_client_hello_t :=
  let four := replicate 4 0 in
  mk_hello (replicate 32 0) false false false (replicate 32 0) false false false (replicate 32 0) 0 (replicate 254 0) 0 msg_len
    false 0 0 false false four four four four four.

(** ** Bounded reads *)

Section Parser.
(** The message. *)
Context (msg : list Z).

(** Each returns the value, the cursor and the bytes that remain. *)
Definition rd_u8 (p rem : Z) : res (Z * Z * Z) :=
  if rem <? 1 then Fail else let! b := rd msg p in Ret (b, p + 1, rem - 1).

Definition rd_u16 (p rem : Z) : res (Z * Z * Z) :=
  if rem <? 2 then Fail
  else let! b0 := rd msg p in let! b1 := rd msg (p + 1) in Ret (u16 (Z.lor (Z.shiftl b0 8) b1), p + 2, rem - 2).

Definition rd_u24 (p rem : Z) : res (Z * Z * Z) :=
  if rem <? 3 then Fail
  else
    let! b0 := rd msg p in let! b1 := rd msg (p + 1) in let! b2 := rd msg (p + 2) in
    Ret (Z.lor (Z.lor (u32 (Z.shiftl b0 16)) (u32 (Z.shiftl b1 8))) b2, p + 3, rem - 3).

Definition rd_skip (p rem n : Z) : res (Z * Z) := if rem <? n then Fail else Ret (p + n, rem - n).

Definition rd_copy (p rem n : Z) : res (list Z * Z * Z) :=
  if rem <? n then Fail else let! d := rdn (padd msg p) n in Ret (d, p + n, rem - n).

(** ** [pre_shared_key] *)

(** [if (n < TLS13_PSK_MAX_OFFERS) a[n] = v;] *)
Definition store4 (a : list Z) (n v : Z) : res (list Z) := if n <? TLS13_PSK_MAX_OFFERS then wr a n v else Ret a.

(** [while (lr > 0)]; every round consumes at least seven bytes. *)
Fixpoint psk_identities (fuel : nat) (raw_total lp lr n : Z) (out : tls13_client_hello_t) : res (Z * tls13_client_hello_t) :=
  if 0 <? lr then
    match fuel with
    | O => Oob
    | S fuel =>
        let! (id_len, lp, lr) := rd_u16 lp lr in
        if (id_len <? 1) || (lr <? id_len) then Fail
        else
          let id_off_in_raw := lp in
          if raw_total <? id_off_in_raw then Fail
          else
            let! (lp, lr) := rd_skip lp lr id_len in
            let! (hi, lp, lr) := rd_u16 lp lr in
            let! (lo, lp, lr) := rd_u16 lp lr in
            let age := Z.lor (u32 (Z.shiftl hi 16)) lo in
            let! a := store4 (psk_id_off out) n id_off_in_raw in
            let! b := store4 (psk_id_len out) n id_len in
            let! c := store4 (psk_obfuscated_age out) n age in
            psk_identities fuel raw_total lp lr (u32 (n + 1)) (out {{ psk_id_off := a; psk_id_len := b; psk_obfuscated_age := c }})
    end
  else Ret (n, out).

Fixpoint psk_binders (fuel : nat) (raw_total lp lr n : Z) (out : tls13_client_hello_t) : res (Z * tls13_client_hello_t) :=
  if 0 <? lr then
    match fuel with
    | O => Oob
    | S fuel =>
        let! (bl, lp, lr) := rd_u8 lp lr in
        if (bl <? 32) || (lr <? bl) then Fail
        else
          let off_in_raw := lp in
          if raw_total <? off_in_raw then Fail
          else
            let! a := store4 (psk_binder_off out) n off_in_raw in
            let! b := store4 (psk_binder_len out) n bl in
            let n := u32 (n + 1) in
            let! (lp, lr) := rd_skip lp lr bl in
            psk_binders fuel raw_total lp lr n (out {{ psk_binder_off := a; psk_binder_len := b }})
    end
  else Ret (n, out).

Definition parse_psk_extension (eb_start er_total raw_total : Z) (out : tls13_client_hello_t) : res tls13_client_hello_t :=
  let! (ids_total, p, rem) := rd_u16 eb_start er_total in
  if (ids_total <? 7) || (rem <? ids_total) then Fail
  else
    let! (n, out) := psk_identities (Z.to_nat ids_total) raw_total p ids_total 0 out in
    let out := out {{ psk_offer_count := n }} in
    if n =? 0 then Fail
    else
      let! (p, rem) := rd_skip p rem ids_total in
      let out := out {{ psk_partial_ch_off := p }} in
      let! (bs_total, p, rem) := rd_u16 p rem in
      if (bs_total <? 33) || (rem <? bs_total) then Fail
      else if negb (rem =? bs_total) then Fail
      else
        let! (n, out) := psk_binders (Z.to_nat bs_total) raw_total p bs_total 0 out in
        if negb (n =? psk_offer_count out) then Fail else Ret (out {{ psk_present := true }}).

(** ** The other extensions *)

Definition lower (c : Z) : Z := if (0x41 <=? c) && (c <=? 0x5a) then c + 32 else c.

(** [while (lr > 0)] over ServerNameEntry. *)
Fixpoint sni_loop (fuel : nat) (lp lr : Z) (out : tls13_client_hello_t) : res tls13_client_hello_t :=
  if 0 <? lr then
    match fuel with
    | O => Oob
    | S fuel =>
        let! (name_type, lp, lr) := rd_u8 lp lr in
        let! (name_len, lp, lr) := rd_u16 lp lr in
        if lr <? name_len then Fail
        else
          let! out :=
            if name_type =? 0 then
              if TLS13_MAX_SNI_LEN <? name_len then Fail
              else
                let! d := rdn (padd msg lp) name_len in
                let! buf := blit (sni out) 0 d in
                let! buf := wr buf name_len 0 in
                Ret (out {{ sni := map lower (ztake name_len buf) ++ padd buf name_len; sni_len := name_len }})
            else Ret out in
          let! (lp, lr) := rd_skip lp lr name_len in
          sni_loop fuel lp lr out
    end
  else Ret out.

(** [while (lr >= 2)] over 16-bit values. *)
Fixpoint u16_loop (fuel : nat) (f : Z -> tls13_client_hello_t -> tls13_client_hello_t) (lp lr : Z) (out : tls13_client_hello_t) : res (Z * tls13_client_hello_t) :=
  if 2 <=? lr then
    match fuel with
    | O => Oob
    | S fuel => let! (v, lp, lr) := rd_u16 lp lr in u16_loop fuel f lp lr (f v out)
    end
  else Ret (lr, out).

(** [while (lr >= 4)] over KeyShareEntry. *)
Fixpoint share_loop (fuel : nat) (lp lr : Z) (out : tls13_client_hello_t) : res tls13_client_hello_t :=
  if 4 <=? lr then
    match fuel with
    | O => Oob
    | S fuel =>
        let! (grp, lp, lr) := rd_u16 lp lr in
        let! (kx_len, lp, lr) := rd_u16 lp lr in
        if lr <? kx_len then Fail
        else
          let! out :=
            if (grp =? TLS13_NAMED_GROUP_X25519) && (kx_len =? 32) then
              let! d := rdn (padd msg lp) 32 in
              let! k := blit (ecdhe_pubkey out) 0 d in
              Ret (out {{ ecdhe_pubkey := k; offers_x25519 := true }})
            else Ret out in
          let! (lp, lr) := rd_skip lp lr kx_len in
          share_loop fuel lp lr out
    end
  else Ret out.

(** [for (i = 0; i < list_len; i++)] over the key exchange modes. *)
Fixpoint modes_loop (k : nat) (eb i : Z) (out : tls13_client_hello_t) : res tls13_client_hello_t :=
  match k with
  | O => Ret out
  | S k => let! m := rd msg (eb + i) in modes_loop k eb (i + 1) (if m =? 1 then out {{ psk_dhe_ke_offered := true }} else out)
  end.

Definition version_seen (ver : Z) (out : tls13_client_hello_t) : tls13_client_hello_t := if ver =? TLS13_SUPPORTED_VERSION then out {{ offers_tls13 := true }} else out.

Definition group_seen (grp : Z) (out : tls13_client_hello_t) : tls13_client_hello_t := out.

Definition sigalg_seen (alg : Z) (out : tls13_client_hello_t) : tls13_client_hello_t :=
  let out := if alg =? TLS13_SIG_SCHEME_ED25519 then out {{ offers_ed25519 := true }} else out in
  let out := if alg =? TLS13_SIG_SCHEME_RSA_PSS_RSAE_SHA256 then out {{ offers_rsa_pss_rsae_sha256 := true }} else out in
  if alg =? TLS13_SIG_SCHEME_ECDSA_SECP256R1_SHA256 then out {{ offers_ecdsa_secp256r1_sha256 := true }} else out.

(** The [switch] on the type of an extension with [er] bytes at [eb]; [rem] bytes
    follow it. *)
Definition parse_extension (ext_type eb er rem : Z) (out : tls13_client_hello_t) : res tls13_client_hello_t :=
  if ext_type =? 0x0000 then
    let! (list_len, eb, er) := rd_u16 eb er in
    if er <? list_len then Fail else sni_loop (Z.to_nat list_len) eb list_len out
  else if ext_type =? 0x000a then
    let! (list_len, eb, er) := rd_u16 eb er in
    if er <? list_len then Fail else let! (_, out) := u16_loop (Z.to_nat list_len) group_seen eb list_len out in Ret out
  else if ext_type =? 0x0033 then
    let! (list_len, eb, er) := rd_u16 eb er in
    if er <? list_len then Fail else share_loop (Z.to_nat list_len) eb list_len out
  else if ext_type =? 0x002b then
    let! (vlist_len, eb, er) := rd_u8 eb er in
    if er <? vlist_len then Fail else let! (_, out) := u16_loop (Z.to_nat vlist_len) version_seen eb vlist_len out in Ret out
  else if (ext_type =? 0x000d) || (ext_type =? 0x0032) then
    let! (list_len, eb, er) := rd_u16 eb er in
    if negb (Z.land list_len 1 =? 0) then Fail
    else if er <? list_len then Fail
    else let! (lr, out) := u16_loop (Z.to_nat list_len) sigalg_seen eb list_len out in if negb (lr =? 0) then Fail else Ret out
  else if ext_type =? 0x002a then
    if negb (er =? 0) then Fail else Ret (out {{ offers_early_data := true }})
  else if ext_type =? 0x002d then
    let! (list_len, eb, er) := rd_u8 eb er in
    if (list_len <? 1) || (er <? list_len) then Fail else modes_loop (Z.to_nat list_len) eb 0 out
  else if ext_type =? 0x0029 then
    if negb (rem =? 0) then Fail else parse_psk_extension eb er (raw_len out) out
  else Ret out.

Fixpoint parse_extensions_loop (fuel : nat) (p rem : Z) (out : tls13_client_hello_t) : res tls13_client_hello_t :=
  if 0 <? rem then
    match fuel with
    | O => Oob
    | S fuel =>
        let! (ext_type, p, rem) := rd_u16 p rem in
        let! (ext_size, p, rem) := rd_u16 p rem in
        if rem <? ext_size then Fail
        else
          let eb := p in
          let! (p, rem) := rd_skip p rem ext_size in
          let! out := parse_extension ext_type eb ext_size rem out in
          parse_extensions_loop fuel p rem out
    end
  else Ret out.

Definition parse_extensions (ext_data ext_len : Z) (out : tls13_client_hello_t) : res tls13_client_hello_t :=
  parse_extensions_loop (Z.to_nat ext_len) ext_data ext_len out.

(** [for (i = 0; i + 2 <= cs_len; i += 2)] over the cipher suites. *)
Fixpoint suites_loop (k : nat) (cp i cs_len : Z) (out : tls13_client_hello_t) : res tls13_client_hello_t :=
  if i + 2 <=? cs_len then
    match k with
    | O => Oob
    | S k =>
        let! b0 := rd msg (cp + i) in
        let! b1 := rd msg (cp + i + 1) in
        let cs := u16 (Z.lor (Z.shiftl b0 8) b1) in
        suites_loop k cp (u16 (i + 2)) cs_len (if cs =? TLS13_CHACHA20_POLY1305_SHA256 then out {{ offers_chacha_poly := true }} else out)
    end
  else Ret out.

(** The search for the null compression method, with its [break]. *)
Fixpoint has_null (k : nat) (p i : Z) : res bool :=
  match k with
  | O => Ret false
  | S k => let! b := rd msg (p + i) in if b =? 0 then Ret true else has_null k p (i + 1)
  end.

Definition tls13_parse_client_hello (msg_len : Z) : res tls13_client_hello_t :=
  let out := empty_hello msg_len in
  let! (hs_type, p, rem) := rd_u8 0 msg_len in
  if negb (hs_type =? 0x01) then Fail
  else
    let! (hs_len, p, rem) := rd_u24 p rem in
    if negb (hs_len =? rem) then Fail
    else
      let! (legacy_version, p, rem) := rd_u16 p rem in
      if negb (legacy_version =? 0x0303) then Fail
      else
        let! (d, p, rem) := rd_copy p rem 32 in
        let! r := blit (ch_random out) 0 d in
        let out := out {{ ch_random := r }} in
        let! (sid_len, p, rem) := rd_u8 p rem in
        if 32 <? sid_len then Fail
        else if rem <? sid_len then Fail
        else
          let! sid := if 0 <? sid_len then let! d := rdn (padd msg p) sid_len in blit (legacy_session_id out) 0 d else Ret (legacy_session_id out) in
          let out := out {{ legacy_session_id := sid; legacy_session_id_len := sid_len }} in
          let! (p, rem) := rd_skip p rem sid_len in
          let! (cs_len, p, rem) := rd_u16 p rem in
          if negb (Z.land cs_len 1 =? 0) || (rem <? cs_len) then Fail
          else
            let! out := suites_loop (Z.to_nat cs_len) p 0 cs_len out in
            let! (p, rem) := rd_skip p rem cs_len in
            let! (cm_len, p, rem) := rd_u8 p rem in
            if (cm_len <? 1) || (rem <? cm_len) then Fail
            else
              let! ok := has_null (Z.to_nat cm_len) p 0 in
              if negb ok then Fail
              else
                let! (p, rem) := rd_skip p rem cm_len in
                let! (ext_total, p, rem) := rd_u16 p rem in
                if negb (ext_total =? rem) then Fail else parse_extensions p ext_total out.
End Parser.
