(* ===== verification/TlsHelloProps.v ===== *)
(** * The ClientHello parser: safety

    Whatever the bytes of the message, [tls13_parse_client_hello] stays within it
    and within its output structure, terminates, and what it accepts is
    well-formed: every byte range it reports lies inside the message. *)

From Stdlib Require Import ZArith Lia String.
From stdpp Require Import list numbers option.
From coqutil Require Import Datatypes.RecordSetters.
Import DoubleBraceUpdate.
From S2P Require Import Prelude Util Words Varint TlsHello.

(** ** Well-formed results *)

Definition buf_ok (b : list Z) (n : Z) : Prop := zlen b = n /\ Forall byte_ok b.

(** The fields that are not about [pre_shared_key]. *)
Record shape_ok (h : tls13_client_hello_t) : Prop := {
  so_random : buf_ok (ch_random h) 32;
  so_pubkey : buf_ok (ecdhe_pubkey h) 32;
  so_sid : buf_ok (legacy_session_id h) 32 /\ 0 <= legacy_session_id_len h <= 32;
  so_sni : buf_ok (sni h) 254 /\ 0 <= sni_len h <= 253;
  so_psk : zlen (psk_id_off h) = 4 /\ zlen (psk_id_len h) = 4 /\ zlen (psk_obfuscated_age h) = 4 /\ zlen (psk_binder_off h) = 4 /\ zlen (psk_binder_len h) = 4
}.

(** The first [k] ranges, of which four are recorded, lie in a message of [n] bytes. *)
Definition ranges (n : Z) (offs lens : list Z) (k : Z) : Prop :=
  forall i, 0 <= i < Z.min k 4 -> 0 <= nth (Z.to_nat i) offs 0 /\ 1 <= nth (Z.to_nat i) lens 0 /\ nth (Z.to_nat i) offs 0 + nth (Z.to_nat i) lens 0 <= n.

Record hello_ok (n : Z) (h : tls13_client_hello_t) : Prop := {
  ho_shape : shape_ok h;
  ho_raw : raw_len h = n;
  ho_psk : psk_present h = true -> 1 <= psk_offer_count h < 65536 /\ 0 <= psk_partial_ch_off h <= n /\
    ranges n (psk_id_off h) (psk_id_len h) (psk_offer_count h) /\ ranges n (psk_binder_off h) (psk_binder_len h) (psk_offer_count h)
}.

(** [shape_ok] of an updated structure: the parts that are unchanged. *)
Ltac same_shape H := destruct H; constructor; cbn; try assumption.

Lemma empty_shape n : shape_ok (empty_hello n).
Proof. constructor; cbn; repeat split; try done; by apply bytes_okb_ok. Qed.

Lemma wp_ret_intro {A} (a : A) (Q : A -> Prop) : Q a -> wp (Ret a) Q.
Proof. done. Qed.

Lemma store4_wp a k v : zlen a = 4 -> 0 <= k ->
  wp (store4 a k v) (fun a' => zlen a' = 4 /\ (k < 4 -> nth (Z.to_nat k) a' 0 = v) /\ forall i, 0 <= i -> i <> k -> nth (Z.to_nat i) a' 0 = nth (Z.to_nat i) a 0).
Proof.
  intros Ha Hk. unfold store4. change TLS13_PSK_MAX_OFFERS with 4. destruct (Z.ltb_spec k 4); [|cbn; split_and!; (done || lia)].
  rewrite wr_in_bounds by lia. cbn. split; [unfold zlen in *; by rewrite length_insert|]. split.
  - intros _. apply nth_lookup_Some. apply list_lookup_insert_eq. unfold zlen in *. lia.
  - intros i Hi Hne. rewrite !nth_lookup. by rewrite list_lookup_insert_ne by lia.
Qed.

(** One more range recorded. *)
Lemma ranges_snoc n offs lens offs' lens' k o l :
  ranges n offs lens k -> 0 <= k -> 0 <= o -> 1 <= l -> o + l <= n ->
  (k < 4 -> nth (Z.to_nat k) offs' 0 = o) -> (forall i, 0 <= i -> i <> k -> nth (Z.to_nat i) offs' 0 = nth (Z.to_nat i) offs 0) ->
  (k < 4 -> nth (Z.to_nat k) lens' 0 = l) -> (forall i, 0 <= i -> i <> k -> nth (Z.to_nat i) lens' 0 = nth (Z.to_nat i) lens 0) ->
  ranges n offs' lens' (k + 1).
Proof.
  intros Hr Hk Ho Hl Hn O1 O2 L1 L2 i Hi. destruct (decide (i = k)) as [->|Hne]; [rewrite O1, L1 by lia; lia|]. rewrite O2, L2 by lia. apply Hr. lia.
Qed.

Section Safe.
Context (msg : list Z) (n : Z) (Hb : Forall byte_ok msg) (Hn : 0 <= n <= zlen msg).

(** A cursor within the message. *)
Definition cur (p rem : Z) : Prop := 0 <= p /\ 0 <= rem /\ p + rem <= n.

Lemma msg_byte p : 0 <= p < n -> exists b, rd msg p = Ret b /\ byte_ok b.
Proof. intros Hp. rewrite rd_nth by lia. eexists. split; [reflexivity|]. eapply rd_byte; [exact Hb|apply rd_nth; lia]. Qed.

Lemma two_bytes a b : byte_ok a -> byte_ok b -> u16 (Z.lor (Z.shiftl a 8) b) = a * 256 + b.
Proof. unfold byte_ok. intros. rewrite Z.shiftl_mul_pow2 by lia. rewrite (lor_disjoint 8) by lia. unfold u16. rewrite Z.mod_small; lia. Qed.

Lemma rd_u8_wp p rem Q : cur p rem -> (forall b, 0 <= b < 256 -> cur (p + 1) (rem - 1) -> Q (b, p + 1, rem - 1)) -> wp (rd_u8 msg p rem) Q.
Proof.
  intros (H1 & H2 & H3) HQ. unfold rd_u8. destruct (Z.ltb_spec rem 1); [done|]. destruct (msg_byte p) as (b & -> & Hbb); [lia|]. apply HQ; [done|]. unfold cur. lia.
Qed.

Lemma rd_u16_wp p rem Q : cur p rem -> (forall v, 0 <= v < 65536 -> cur (p + 2) (rem - 2) -> Q (v, p + 2, rem - 2)) -> wp (rd_u16 msg p rem) Q.
Proof.
  intros (H1 & H2 & H3) HQ. unfold rd_u16. destruct (Z.ltb_spec rem 2); [done|]. destruct (msg_byte p) as (a & -> & Ha); [lia|]. ret. destruct (msg_byte (p + 1)) as (b & -> & Hbb); [lia|]. ret.
  rewrite two_bytes by done. unfold byte_ok in *. apply HQ; [lia|]. unfold cur. lia.
Qed.

Lemma rd_skip_wp p rem k Q : cur p rem -> 0 <= k -> (k <= rem -> cur (p + k) (rem - k) -> Q (p + k, rem - k)) -> wp (rd_skip p rem k) Q.
Proof. intros (H1 & H2 & H3) Hk HQ. unfold rd_skip. destruct (Z.ltb_spec rem k); [done|]. apply HQ; [lia|]. unfold cur. lia. Qed.

Lemma slice_wp p k Q : 0 <= p -> 0 <= k -> p + k <= n -> (forall d, zlen d = k -> Forall byte_ok d -> Q d) -> wp (rdn (padd msg p) k) Q.
Proof.
  intros Hp Hk Hpk HQ. rewrite rdn_ok by (rewrite zlen_padd; lia). apply HQ; [rewrite zlen_ztake, zlen_padd; lia|]. by apply Forall_take, Forall_drop.
Qed.
End Safe.

(** One read of a cursor. *)
Ltac read := apply wp_bind; first [eapply rd_u8_wp|eapply rd_u16_wp|eapply rd_skip_wp]; try eassumption; try lia; intros; cbv beta iota.
Ltac refuse := match goal with |- wp (if ?b then Fail else _) _ => destruct b eqn:?; [exact I|] end.

Section Loops.
Context (msg : list Z) (n : Z) (Hb : Forall byte_ok msg) (Hn : 0 <= n <= zlen msg).

Definition ids_inv (k : Z) (h : tls13_client_hello_t) : Prop := shape_ok h /\ raw_len h = n /\ ranges n (psk_id_off h) (psk_id_len h) k.
Definition binders_inv (k : Z) (h : tls13_client_hello_t) : Prop := shape_ok h /\ raw_len h = n /\ ranges n (psk_binder_off h) (psk_binder_len h) k.

Lemma psk_identities_wp fuel : forall lp lr k h, cur n lp lr -> lr <= Z.of_nat fuel -> 0 <= k -> k + lr < 65536 -> ids_inv k h ->
  wp (psk_identities msg fuel n lp lr k h) (fun '(k', h') => k <= k' < 65536 /\ ids_inv k' h').
Proof.
  induction fuel as [|fuel IH]; intros lp lr k h Hc Hf Hk Hkl Hi; cbn [psk_identities]; (destruct (Z.ltb_spec 0 lr); [|cbn; destruct Hc as (? & ? & ?); split; [lia|done]]); [lia|].
  read. refuse. refuse. read. read. read. destruct Hi as (Hs & Hr & Hi). pose proof (so_psk h Hs) as (L1 & L2 & L3 & L4 & L5).
  apply wp_bind. eapply wp_mono; [apply store4_wp; lia|]. intros a (A1 & A2 & A3). apply wp_bind. eapply wp_mono; [apply store4_wp; lia|]. intros b (B1 & B2 & B3).
  apply wp_bind. eapply wp_mono; [apply store4_wp; lia|]. intros c (C1 & _ & _). rewrite u32_small by lia. unfold cur in *.
  eapply wp_mono; [apply IH; [unfold cur; lia|lia|lia|lia|]|intros [k' h'] [? ?]; split; [lia|done]].
  split; [same_shape Hs; tauto|]. split; [exact Hr|]. cbn. eapply (ranges_snoc n _ _ _ _ k (lp + 2) v Hi); (assumption || lia).
Qed.

Lemma psk_binders_wp fuel : forall lp lr k h, cur n lp lr -> lr <= Z.of_nat fuel -> 0 <= k -> k + lr < 65536 -> binders_inv k h ->
  wp (psk_binders msg fuel n lp lr k h) (fun '(k', h') => k <= k' < 65536 /\ binders_inv k' h' /\ psk_offer_count h' = psk_offer_count h /\
    psk_partial_ch_off h' = psk_partial_ch_off h /\ psk_id_off h' = psk_id_off h /\ psk_id_len h' = psk_id_len h).
Proof.
  induction fuel as [|fuel IH]; intros lp lr k h Hc Hf Hk Hkl Hi; cbn [psk_binders]; (destruct (Z.ltb_spec 0 lr); [|cbn; destruct Hc as (? & ? & ?); split; [lia|done]]); [lia|].
  read. refuse. refuse. destruct Hi as (Hs & Hr & Hi). pose proof (so_psk h Hs) as (L1 & L2 & L3 & L4 & L5).
  apply wp_bind. eapply wp_mono; [apply store4_wp; lia|]. intros a (A1 & A2 & A3). apply wp_bind. eapply wp_mono; [apply store4_wp; lia|]. intros c (B1 & B2 & B3). cbv zeta.
  read. rewrite u32_small by lia. unfold cur in *.
  eapply wp_mono; [apply IH; [unfold cur; lia|lia|lia|lia|]|intros [k' h'] (? & ? & ?); split; [lia|done]].
  split; [same_shape Hs; tauto|]. split; [exact Hr|]. cbn. eapply (ranges_snoc n _ _ _ _ k (lp + 1) b Hi); (assumption || lia).
Qed.

Lemma parse_psk_wp eb er h : cur n eb er -> er < 65536 -> hello_ok n h -> wp (parse_psk_extension msg eb er n h) (hello_ok n).
Proof.
  intros Hc Her Hh. unfold parse_psk_extension. read. refuse. apply wp_bind. destruct Hh as [Hs Hr _]. unfold cur in *.
  eapply wp_mono; [apply psk_identities_wp; [unfold cur; lia|lia|lia|lia|split; [done|split; [done|]]; intros i Hi; lia]|]. intros [k h1] (Hk & Hs1 & Hr1 & Hi1). refuse. read. read. refuse. refuse. apply wp_bind.
  eapply wp_mono; [apply psk_binders_wp; [unfold cur in *; lia|lia|lia|lia|]|].
  { split; [same_shape Hs1|]. split; [exact Hr1|]. intros i Hi. lia. }
  intros [k' h2] (Hk' & (Hs2 & Hr2 & Hi2) & E1 & E2 & E3 & E4). refuse. cbn [wp]. constructor; [same_shape Hs2|exact Hr2|]. intros _.
  change (1 <= psk_offer_count h2 < 65536 /\ 0 <= psk_partial_ch_off h2 <= n /\ ranges n (psk_id_off h2) (psk_id_len h2) (psk_offer_count h2) /\ ranges n (psk_binder_off h2) (psk_binder_len h2) (psk_offer_count h2)).
  change (psk_offer_count h2 = k) in E1. change (psk_partial_ch_off h2 = eb + 2 + v) in E2. change (psk_id_off h2 = psk_id_off h1) in E3. change (psk_id_len h2 = psk_id_len h1) in E4. unfold cur in *.
  assert (k' = k) as -> by lia. rewrite E1, E2, E3, E4. split; [lia|]. split; [lia|]. split; [exact Hi1|exact Hi2].
Qed.

(** [hello_ok] of a structure whose [pre_shared_key] part is unchanged. *)
Ltac same_hello H := let S := fresh "S" in let R := fresh "R" in let P := fresh "P" in destruct H as [S R P]; constructor; [same_shape S|exact R|exact P].

Lemma lower_byte c : byte_ok c -> byte_ok (lower c).
Proof. unfold lower, byte_ok. intros H. destruct (_ && _) eqn:E; lia. Qed.

Lemma sni_loop_wp fuel : forall lp lr h, cur n lp lr -> lr <= Z.of_nat fuel -> hello_ok n h -> wp (sni_loop msg fuel lp lr h) (hello_ok n).
Proof.
  induction fuel as [|fuel IH]; intros lp lr h Hc Hf Hh; cbn [sni_loop]; (destruct (Z.ltb_spec 0 lr); [|exact Hh]); [lia|]. read. read. refuse. apply wp_bind.
  apply (wp_mono _ (hello_ok n)); [|intros h' Hh'; read; unfold cur in *; apply IH; [unfold cur; lia|lia|done]].
  destruct (b =? 0); [|exact Hh]. change TLS13_MAX_SNI_LEN with 253. refuse. unfold cur in *. apply wp_bind. eapply (slice_wp msg n Hb Hn); [lia|lia|lia|]. intros d Ld Bd.
  destruct (so_sni h (ho_shape n h Hh)) as [[Ls Bs] _]. rewrite blit_ok by lia. ret. rewrite wr_in_bounds by (rewrite !zlen_app, zlen_ztake, zlen_padd; lia). cbn [rbind wp].
  set (buf := <[Z.to_nat v := 0]> (ztake 0 (sni h) ++ d ++ padd (sni h) (0 + zlen d))).
  assert (Lb : zlen buf = 254) by (unfold buf; unfold zlen at 1; rewrite length_insert; fold (zlen (ztake 0 (sni h) ++ d ++ padd (sni h) (0 + zlen d))); rewrite !zlen_app, zlen_ztake, zlen_padd; lia).
  assert (Bb : Forall byte_ok buf) by (apply Forall_insert; [|done]; rewrite !Forall_app; split; [by apply Forall_take|]; split; [done|by apply Forall_drop]). clearbody buf.
  same_hello Hh. split; [|lia]. split; [|apply Forall_app; split; [|by apply Forall_drop]].
  - rewrite zlen_app. unfold zlen at 1. rewrite length_map. fold (zlen (ztake v buf)). rewrite zlen_ztake, zlen_padd; lia.
  - apply Forall_map. assert (Ht : Forall byte_ok (ztake v buf)) by (by apply Forall_take). revert Ht. apply Forall_impl. exact lower_byte.
Qed.

Lemma u16_loop_wp f fuel : (forall v h, hello_ok n h -> hello_ok n (f v h)) -> forall lp lr h, cur n lp lr -> lr <= Z.of_nat fuel -> hello_ok n h ->
  wp (u16_loop msg fuel f lp lr h) (fun r => hello_ok n (snd r)).
Proof.
  intros Hfv. induction fuel as [|fuel IH]; intros lp lr h Hc Hf Hh; cbn [u16_loop]; (destruct (Z.leb_spec 2 lr); [|exact Hh]); [lia|]. read. apply IH; [unfold cur in *; lia|unfold cur in *; lia|by apply Hfv].
Qed.

Lemma share_loop_wp fuel : forall lp lr h, cur n lp lr -> lr <= Z.of_nat fuel -> hello_ok n h -> wp (share_loop msg fuel lp lr h) (hello_ok n).
Proof.
  induction fuel as [|fuel IH]; intros lp lr h Hc Hf Hh; cbn [share_loop]; (destruct (Z.leb_spec 4 lr); [|exact Hh]); [lia|]. read. read. refuse. apply wp_bind.
  apply (wp_mono _ (hello_ok n)); [|intros h' Hh'; read; unfold cur in *; apply IH; [unfold cur; lia|lia|done]].
  destruct (_ && _) eqn:E; [|exact Hh]. unfold cur in *. apply wp_bind. eapply (slice_wp msg n Hb Hn); [lia|lia|lia|]. intros d Ld Bd. destruct (so_pubkey h (ho_shape n h Hh)) as [Lp Bp].
  rewrite blit_ok by lia. cbn [rbind wp]. same_hello Hh. split; [rewrite !zlen_app, zlen_ztake, zlen_padd; lia|]. rewrite !Forall_app. split; [by apply Forall_take|]. split; [done|by apply Forall_drop].
Qed.

Lemma modes_loop_wp k : forall eb i h, 0 <= eb + i -> eb + i + Z.of_nat k <= n -> hello_ok n h -> wp (modes_loop msg k eb i h) (hello_ok n).
Proof.
  induction k as [|k IH]; intros eb i h Hi Hk Hh; cbn [modes_loop]; [exact Hh|]. destruct (msg_byte msg n Hb Hn (eb + i)) as (b & -> & _); [lia|]. ret. apply IH; [lia|lia|]. destruct (b =? 1); [same_hello Hh|exact Hh].
Qed.

Lemma seen_ok v h : hello_ok n h -> hello_ok n (version_seen v h) /\ hello_ok n (group_seen v h) /\ hello_ok n (sigalg_seen v h).
Proof.
  intros Hh. split; [unfold version_seen; destruct (_ =? _); [same_hello Hh|exact Hh]|]. split; [exact Hh|]. unfold sigalg_seen.
  assert (H1 : hello_ok n (if v =? TLS13_SIG_SCHEME_ED25519 then h {{ offers_ed25519 := true }} else h)) by (destruct (_ =? _); [same_hello Hh|exact Hh]). revert H1. generalize (if v =? TLS13_SIG_SCHEME_ED25519 then h {{ offers_ed25519 := true }} else h). intros h1 H1.
  assert (H2 : hello_ok n (if v =? TLS13_SIG_SCHEME_RSA_PSS_RSAE_SHA256 then h1 {{ offers_rsa_pss_rsae_sha256 := true }} else h1)) by (destruct (_ =? _); [same_hello H1|exact H1]). revert H2. generalize (if v =? TLS13_SIG_SCHEME_RSA_PSS_RSAE_SHA256 then h1 {{ offers_rsa_pss_rsae_sha256 := true }} else h1). intros h2 H2.
  cbv zeta. destruct (_ =? _); [same_hello H2|exact H2].
Qed.

Lemma parse_extension_wp t eb er rem h : cur n eb er -> er < 65536 -> hello_ok n h -> wp (parse_extension msg t eb er rem h) (hello_ok n).
Proof.
  intros Hc Her Hh. unfold parse_extension.
  destruct (t =? 0x0000); [read; refuse; apply sni_loop_wp; [unfold cur in *; lia|lia|done]|].
  destruct (t =? 0x000a); [read; refuse; apply wp_bind; eapply wp_mono; [apply u16_loop_wp; [intros; by apply seen_ok|unfold cur in *; lia|lia|done]|by intros [? ?]]|].
  destruct (t =? 0x0033); [read; refuse; apply share_loop_wp; [unfold cur in *; lia|lia|done]|].
  destruct (t =? 0x002b); [read; refuse; apply wp_bind; eapply wp_mono; [apply u16_loop_wp; [intros; by apply seen_ok|unfold cur in *; lia|lia|done]|by intros [? ?]]|].
  destruct (_ || _); [read; refuse; refuse; apply wp_bind; eapply wp_mono; [apply u16_loop_wp; [intros; by apply seen_ok|unfold cur in *; lia|lia|done]|intros [lr' h'] Hh'; cbv beta iota; destruct (negb (lr' =? 0)); [exact I|exact Hh']]|].
  destruct (t =? 0x002a); [refuse; cbn [wp]; same_hello Hh|].
  destruct (t =? 0x002d); [read; refuse; unfold cur in *; apply modes_loop_wp; [lia|lia|done]|].
  destruct (t =? 0x0029); [refuse; rewrite (ho_raw n h Hh); by apply parse_psk_wp|exact Hh].
Qed.

Lemma parse_extensions_wp fuel : forall p rem h, cur n p rem -> rem <= Z.of_nat fuel -> hello_ok n h -> wp (parse_extensions_loop msg fuel p rem h) (hello_ok n).
Proof.
  induction fuel as [|fuel IH]; intros p rem h Hc Hf Hh; cbn [parse_extensions_loop]; (destruct (Z.ltb_spec 0 rem); [|exact Hh]); [lia|]. read. read. refuse. cbv zeta. read. apply wp_bind.
  unfold cur in *. eapply wp_mono; [apply parse_extension_wp; [unfold cur; lia|lia|exact Hh]|]. intros h' Hh'. apply IH; [unfold cur; lia|lia|done].
Qed.

Lemma suites_loop_wp k : forall cp i cs_len h, 0 <= cp -> 0 <= i -> cp + cs_len <= n -> cs_len < 65535 -> cs_len - i <= Z.of_nat k -> hello_ok n h -> wp (suites_loop msg k cp i cs_len h) (hello_ok n).
Proof.
  induction k as [|k IH]; intros cp i cs_len h Hcp Hi Hcs Hl Hk Hh; cbn [suites_loop]; (destruct (Z.leb_spec (i + 2) cs_len); [|exact Hh]); [lia|].
  destruct (msg_byte msg n Hb Hn (cp + i)) as (b0 & -> & _); [lia|]. ret. destruct (msg_byte msg n Hb Hn (cp + i + 1)) as (b1 & -> & _); [lia|]. ret. replace (u16 (i + 2)) with (i + 2) by (unfold u16; rewrite Z.mod_small; lia). apply IH; try lia. destruct (_ =? _); [same_hello Hh|exact Hh].
Qed.

Lemma has_null_wp k : forall p i, 0 <= p + i -> p + i + Z.of_nat k <= n -> wp (has_null msg k p i) (fun _ => True).
Proof.
  induction k as [|k IH]; intros p i Hi Hk; cbn [has_null]; [exact I|]. destruct (msg_byte msg n Hb Hn (p + i)) as (b & -> & _); [lia|]. ret. destruct (b =? 0); [exact I|]. apply IH; lia.
Qed.
End Loops.

(** ** The parser *)

Lemma parse_client_hello_wp msg n : Forall byte_ok msg -> 0 <= n <= zlen msg -> wp (tls13_parse_client_hello msg n) (hello_ok n).
Proof.
  intros Hb Hn. unfold tls13_parse_client_hello. cbv zeta. assert (Hc0 : cur n 0 n) by (unfold cur; lia).
  assert (H24 : forall p rem Q, cur n p rem -> (forall v, cur n (p + 3) (rem - 3) -> Q (v, p + 3, rem - 3)) -> wp (rd_u24 msg p rem) Q).
  { intros p rem Q (H1 & H2 & H3) HQ. unfold rd_u24. destruct (Z.ltb_spec rem 3); [exact I|]. destruct (msg_byte msg n Hb Hn p) as (a & -> & _); [lia|]. ret. destruct (msg_byte msg n Hb Hn (p + 1)) as (b & -> & _); [lia|]. ret.
    destruct (msg_byte msg n Hb Hn (p + 2)) as (c & -> & _); [lia|]. ret. apply HQ. unfold cur. lia. }
  read. refuse. apply wp_bind, H24; [assumption|]. intros hs_len Hc1. cbv beta iota. refuse. read. refuse. apply wp_bind. unfold rd_copy. destruct (Z.ltb_spec (n - 1 - 3 - 2) 32); [exact I|].
  apply wp_bind. unfold cur in *. eapply (slice_wp msg n Hb Hn); [lia|lia|lia|]. intros d Ld Bd. cbn [wp]. cbn [empty_hello ch_random]. rewrite blit_ok by (change (zlen (replicate 32 0)) with 32; lia). ret. apply wp_bind.
  eapply (rd_u8_wp msg n Hb Hn); [unfold cur; lia|]. intros sid_len Hsid Hc2. cbv beta iota. refuse. refuse. apply wp_bind.
  apply (wp_mono _ (fun sid => buf_ok sid 32)).
  { match goal with |- context [legacy_session_id ?x] => change (legacy_session_id x) with (replicate 32 0) end. destruct (Z.ltb_spec 0 sid_len); [|split; [done|by apply bytes_okb_ok]]. unfold cur in *. apply wp_bind. eapply (slice_wp msg n Hb Hn); [lia|lia|lia|]. intros d' Ld' Bd'. rewrite blit_ok by (change (zlen (replicate 32 0)) with 32; lia). cbn [wp].
    split; [rewrite !zlen_app, zlen_ztake, zlen_padd; change (zlen (replicate 32 0)) with 32; lia|]. rewrite !Forall_app. split; [apply Forall_take; by apply bytes_okb_ok|]. split; [done|apply Forall_drop; by apply bytes_okb_ok]. }
  intros sid Hs. assert (Hr : buf_ok (ztake 0 (replicate 32 0) ++ d ++ padd (replicate 32 0) (0 + zlen d)) 32).
  { split; [rewrite !zlen_app, zlen_ztake, zlen_padd; change (zlen (replicate 32 0)) with 32; lia|]. rewrite !Forall_app. split; [apply Forall_take; by apply bytes_okb_ok|]. split; [done|apply Forall_drop; by apply bytes_okb_ok]. }
  match goal with |- context [suites_loop msg _ _ _ _ ?o] => assert (Hh : hello_ok n o) by (pose proof (empty_shape n) as S; constructor; [same_shape S; split; [done|lia]|reflexivity|discriminate]); generalize dependent o end.
  intros h Hh. read. read. refuse. apply wp_bind. unfold cur in *.
  eapply wp_mono; [apply (suites_loop_wp msg n Hb Hn); [lia|lia|lia| |lia|exact Hh]|].
  { assert (Z.land v0 1 = v0 mod 2) by (change 1 with (Z.ones 1); by rewrite Z.land_ones by lia). dlia. }
  intros h1 Hh1. apply wp_bind, (rd_skip_wp n); [unfold cur; lia|lia|]. intros Hk1 Hc3. apply wp_bind, (rd_u8_wp msg n Hb Hn); [exact Hc3|]. intros cm_len Hcm Hc4. cbv beta iota. refuse. apply wp_bind. unfold cur in *.
  eapply wp_mono; [apply (has_null_wp msg n Hb Hn); lia|]. intros ok _. refuse. apply wp_bind, (rd_skip_wp n); [unfold cur; lia|lia|]. intros Hk2 Hc5. apply wp_bind, (rd_u16_wp msg n Hb Hn); [exact Hc5|].
  intros ext_total He Hc6. cbv beta iota. refuse. unfold parse_extensions. unfold cur in *. apply (parse_extensions_wp msg n Hb Hn); [unfold cur; lia|lia|done].
Qed.
