(* ===== verification/TlsHelloTheorems.v ===== *)
(** * The ClientHello parser: theorems

    The messages of RFC 8446 §4.1.2 as an abstract syntax with its encoding, and
    what [tls13_parse_client_hello] makes of them. *)

From Stdlib Require Import ZArith Lia String.
From stdpp Require Import list numbers option.
From coqutil Require Import Datatypes.RecordSetters.
Import DoubleBraceUpdate.
From S2P Require Import Prelude Util Words Varint TlsHello TlsHelloProps.

(** ** ClientHello messages *)

Definition be16 (v : Z) : list Z := be_bytes 2 v.
Definition vec8 (l : list Z) : list Z := zlen l :: l.
Definition vec16 (l : list Z) : list Z := be16 (zlen l) ++ l.

(** An offer of [pre_shared_key]: identity, obfuscated age, binder. *)
Record offer := mk_offer { o_identity : list Z; o_age : Z; o_binder : list Z }.

Inductive ext :=
| ESni (names : list (Z * list Z))
| EGroups (groups : list Z)
| EShares (shares : list (Z * list Z))
| EVersions (versions : list Z)
| ESigs (cert : bool) (algs : list Z)
| EEarly
| EModes (modes : list Z)
| EPsk (offers : list offer)
| EOther (type : Z) (body : list Z).

Definition ext_type (e : ext) : Z :=
  match e with
  | ESni _ => 0x0000 | EGroups _ => 0x000a | EShares _ => 0x0033 | EVersions _ => 0x002b | ESigs false _ => 0x000d | ESigs true _ => 0x0032
  | EEarly => 0x002a | EModes _ => 0x002d | EPsk _ => 0x0029 | EOther t _ => t
  end.

Definition enc16 (l : list Z) : list Z := mjoin (map be16 l).
Definition enc_names (l : list (Z * list Z)) : list Z := mjoin (map (fun '(t, name) => t :: vec16 name) l).
Definition enc_shares (l : list (Z * list Z)) : list Z := mjoin (map (fun '(g, k) => be16 g ++ vec16 k) l).
Definition enc_ids (l : list offer) : list Z := mjoin (map (fun o => vec16 (o_identity o) ++ be_bytes 4 (o_age o)) l).
Definition enc_binders (l : list offer) : list Z := mjoin (map (fun o => vec8 (o_binder o)) l).

Definition ext_body (e : ext) : list Z :=
  match e with
  | ESni names => vec16 (enc_names names)
  | EGroups l | ESigs _ l => vec16 (enc16 l)
  | EShares l => vec16 (enc_shares l)
  | EVersions l => vec8 (enc16 l)
  | EEarly => []
  | EModes l => vec8 l
  | EPsk l => vec16 (enc_ids l) ++ vec16 (enc_binders l)
  | EOther _ body => body
  end.

Definition enc_ext (e : ext) : list Z := be16 (ext_type e) ++ vec16 (ext_body e).
Definition enc_exts (l : list ext) : list Z := mjoin (map enc_ext l).

Record client_hello := mk_ch { c_random : list Z; c_session : list Z; c_suites : list Z; c_compressions : list Z; c_exts : list ext }.

Definition hello_body (c : client_hello) : list Z :=
  [3; 3] ++ c_random c ++ vec8 (c_session c) ++ vec16 (enc16 (c_suites c)) ++ vec8 (c_compressions c) ++ vec16 (enc_exts (c_exts c)).

Definition enc_hello (c : client_hello) : list Z := 1 :: be_bytes 3 (zlen (hello_body c)) ++ hello_body c.

(** *** Well-formed messages *)

Definition u16_ok (v : Z) : Prop := 0 <= v < 65536.

Definition known_types : list Z := [0x0000; 0x000a; 0x0033; 0x002b; 0x000d; 0x0032; 0x002a; 0x002d; 0x0029].

Definition offer_ok (o : offer) : Prop := 1 <= zlen (o_identity o) < 65536 /\ 0 <= o_age o < 2 ^ 32 /\ 32 <= zlen (o_binder o) < 256.

Definition ext_ok (e : ext) : Prop :=
  u16_ok (ext_type e) /\ zlen (ext_body e) < 65536 /\
  match e with
  | ESni names => Forall (fun '(t, name) => byte_ok t /\ (t = 0 -> zlen name <= 253)) names
  | EGroups l | ESigs _ l => Forall u16_ok l
  | EShares l => Forall (fun '(g, _) => u16_ok g) l
  | EVersions l => Forall u16_ok l /\ zlen (enc16 l) < 256
  | EEarly => True
  | EModes l => 1 <= zlen l < 256
  | EPsk l => l <> [] /\ Forall offer_ok l
  | EOther t _ => t ∉ known_types
  end.

Definition is_psk (e : ext) : bool := match e with EPsk _ => true | _ => false end.

Record ch_ok (c : client_hello) : Prop := {
  cho_random : zlen (c_random c) = 32;
  cho_session : zlen (c_session c) <= 32;
  cho_suites : Forall u16_ok (c_suites c) /\ zlen (enc16 (c_suites c)) < 65536;
  cho_compressions : zlen (c_compressions c) < 256 /\ 0 ∈ c_compressions c;
  cho_exts : Forall ext_ok (c_exts c) /\ zlen (enc_exts (c_exts c)) < 65536;
  cho_psk_last : forall l e k, c_exts c = l ++ e :: k -> is_psk e = true -> k = []
}.

(** ** Reading encodings *)

Lemma zlen_be16 v : zlen (be16 v) = 2.
Proof. done. Qed.

Lemma be16_bytes v : be16 v = [(v / 256) mod 256; v mod 256].
Proof. unfold be16. cbn [be_bytes]. change (256 ^ Z.of_nat 1) with 256. change (256 ^ Z.of_nat 0) with 1. by rewrite Z.div_1_r. Qed.

Lemma be16_value v : u16_ok v -> u16 (Z.lor (Z.shiftl ((v / 256) mod 256) 8) (v mod 256)) = v.
Proof. intros H. unfold u16_ok in H. rewrite two_bytes by (unfold byte_ok; dlia). dlia. Qed.

Section Read.
Context (msg : list Z).

Lemma read_u8 p rem b rest : 0 <= p -> padd msg p = b :: rest -> 1 <= rem -> rd_u8 msg p rem = Ret (b, p + 1, rem - 1) /\ padd msg (p + 1) = rest.
Proof.
  intros Hp E Hr. split; [|exact (padd_next msg p [b] rest Hp E)]. unfold rd_u8. replace (rem <? 1) with false by lia. by rewrite (rd_at_cursor msg p b rest).
Qed.

Lemma read_u16 p rem v rest : 0 <= p -> u16_ok v -> padd msg p = be16 v ++ rest -> 2 <= rem -> rd_u16 msg p rem = Ret (v, p + 2, rem - 2) /\ padd msg (p + 2) = rest.
Proof.
  intros Hp Hv E Hr. split; [|exact (padd_next msg p (be16 v) rest Hp E)]. unfold rd_u16. replace (rem <? 2) with false by lia. rewrite be16_bytes in E.
  rewrite (rd_at_cursor msg p _ _ Hp E). ret. rewrite (rd_at_cursor msg (p + 1) (v mod 256) rest); [ret; by rewrite be16_value|lia|exact (padd_next msg p [(v / 256) mod 256] _ Hp E)].
Qed.
End Read.

(** ** What each extension contributes *)

Definition each {A} (f : A -> tls13_client_hello_t -> tls13_client_hello_t) (l : list A) (h : tls13_client_hello_t) : tls13_client_hello_t := fold_left (fun h x => f x h) l h.

Definition see_name (tn : Z * list Z) (h : tls13_client_hello_t) : tls13_client_hello_t :=
  let '(t, name) := tn in if t =? 0 then h {{ sni := map lower name ++ 0 :: padd (sni h) (zlen name + 1); sni_len := zlen name }} else h.

Definition see_share (gk : Z * list Z) (h : tls13_client_hello_t) : tls13_client_hello_t :=
  let '(g, k) := gk in if (g =? TLS13_NAMED_GROUP_X25519) && (zlen k =? 32) then h {{ ecdhe_pubkey := k; offers_x25519 := true }} else h.

Definition see_mode (m : Z) (h : tls13_client_hello_t) : tls13_client_hello_t := if m =? 1 then h {{ psk_dhe_ke_offered := true }} else h.

(** The offsets of the identities and binders of a list that starts at [pos]. *)
Fixpoint id_offs (pos : Z) (l : list offer) : list Z := match l with [] => [] | o :: l => pos + 2 :: id_offs (pos + 2 + zlen (o_identity o) + 4) l end.
Fixpoint binder_offs (pos : Z) (l : list offer) : list Z := match l with [] => [] | o :: l => pos + 1 :: binder_offs (pos + 1 + zlen (o_binder o)) l end.

(** The values [vs] stored into the array [a] from index [n] on, as far as it reaches. *)
Fixpoint record (a : list Z) (n : nat) (vs : list Z) : list Z := match vs with [] => a | v :: vs => record (<[n := v]> a) (S n) vs end.

Definition see_psk (pos : Z) (l : list offer) (h : tls13_client_hello_t) : tls13_client_hello_t :=
  let partial := pos + 2 + zlen (enc_ids l) in
  h {{ psk_id_off := record (psk_id_off h) 0 (id_offs (pos + 2) l); psk_id_len := record (psk_id_len h) 0 (map (fun o => zlen (o_identity o)) l);
       psk_obfuscated_age := record (psk_obfuscated_age h) 0 (map o_age l); psk_offer_count := zlen l; psk_partial_ch_off := partial;
       psk_binder_off := record (psk_binder_off h) 0 (binder_offs (partial + 2) l); psk_binder_len := record (psk_binder_len h) 0 (map (fun o => zlen (o_binder o)) l);
       psk_present := true }}.

(** [pos] is the offset of the extension's body. *)
Definition see_ext (pos : Z) (e : ext) (h : tls13_client_hello_t) : tls13_client_hello_t :=
  match e with
  | ESni l => each see_name l h
  | EGroups l => each group_seen l h
  | EShares l => each see_share l h
  | EVersions l => each version_seen l h
  | ESigs _ l => each sigalg_seen l h
  | EEarly => h {{ offers_early_data := true }}
  | EModes l => each see_mode l h
  | EPsk l => see_psk pos l h
  | EOther _ _ => h
  end.

Fixpoint see_exts (pos : Z) (l : list ext) (h : tls13_client_hello_t) : tls13_client_hello_t :=
  match l with [] => h | e :: l => see_exts (pos + 4 + zlen (ext_body e)) l (see_ext (pos + 4) e h) end.

(** ** The loops *)

(** One read at a cursor that stands before a known value. *)
Ltac take16 E E' := match goal with |- context [rd_u16 ?m ?p ?r] => edestruct (read_u16 m p r) as [-> E']; [| |exact E| |]; [lia|unfold u16_ok; lia|lia|ret] end.
Ltac take8 E E' := match goal with |- context [rd_u8 ?m ?p ?r] => edestruct (read_u8 m p r) as [-> E']; [|exact E| |]; [lia|lia|ret] end.

Section Loops.
Context (msg : list Z).

Lemma u16_loop_enc f l : forall fuel lp h rest, 0 <= lp -> Forall u16_ok l -> padd msg lp = enc16 l ++ rest -> zlen (enc16 l) <= Z.of_nat fuel ->
  u16_loop msg fuel f lp (zlen (enc16 l)) h = Ret (0, each f l h).
Proof.
  induction l as [|v l IH]; intros fuel lp h rest Hlp Hl E Hf; [by destruct fuel|]. apply Forall_cons_1 in Hl as [Hv Hl]. change (enc16 (v :: l)) with (be16 v ++ enc16 l) in *.
  rewrite zlen_app, zlen_be16 in *. rewrite <- app_assoc in E. pose proof (zlen_nonneg (enc16 l)). destruct fuel as [|fuel]; [lia|]. cbn [u16_loop]. replace (2 <=? 2 + zlen (enc16 l)) with true by lia.
  unfold u16_ok in Hv. take16 E E'. replace (2 + zlen (enc16 l) - 2) with (zlen (enc16 l)) by lia. eapply IH; [lia|done|exact E'|lia].
Qed.

Lemma enc_names_cons t name l : enc_names ((t, name) :: l) = t :: be16 (zlen name) ++ name ++ enc_names l.
Proof. unfold enc_names, vec16. cbn [map mjoin list_join app]. by rewrite <- app_assoc. Qed.

Lemma slice_here p d rest : 0 <= p -> padd msg p = d ++ rest -> rdn (padd msg p) (zlen d) = Ret d.
Proof. intros Hp ->. by apply rdn_app. Qed.

Lemma see_name_shape tn h : shape_ok h -> Forall byte_ok (snd tn) -> (fst tn = 0 -> zlen (snd tn) <= 253) -> shape_ok (see_name tn h).
Proof.
  destruct tn as [t name]. cbn [fst snd]. intros Hs Hb Hl. unfold see_name. destruct (Z.eqb_spec t 0) as [->|]; [|done]. specialize (Hl eq_refl). pose proof (zlen_nonneg name). destruct (so_sni h Hs) as [[L B] _].
  same_shape Hs. split; [|lia]. split; [rewrite zlen_app, zlen_cons, zlen_padd by lia; unfold zlen at 1; rewrite length_map; fold (zlen name); lia|].
  apply Forall_app. split; [apply Forall_map; revert Hb; apply Forall_impl; exact lower_byte|]. constructor; [done|by apply Forall_drop].
Qed.

Lemma sni_loop_enc l : forall fuel lp h rest, 0 <= lp -> Forall (fun '(t, name) => byte_ok t /\ (t = 0 -> zlen name <= 253)) l -> Forall byte_ok (enc_names l) -> padd msg lp = enc_names l ++ rest ->
  zlen (enc_names l) <= Z.of_nat fuel -> zlen (enc_names l) < 65536 -> shape_ok h -> sni_loop msg fuel lp (zlen (enc_names l)) h = Ret (each see_name l h) /\ shape_ok (each see_name l h).
Proof.
  induction l as [|[t name] l IH]; intros fuel lp h rest Hlp Hl Hb E Hf H16 Hs; [by destruct fuel|]. apply Forall_cons_1 in Hl as [[Ht Hname] Hl]. rewrite enc_names_cons in *. rewrite zlen_cons, !zlen_app, zlen_be16 in *.
  apply Forall_cons_1 in Hb as [_ Hb]. rewrite !Forall_app in Hb. destruct Hb as (_ & Hbn & Hb). pose proof (zlen_nonneg name). pose proof (zlen_nonneg (enc_names l)).
  destruct fuel as [|fuel]; [lia|]. cbn [sni_loop]. replace (0 <? _) with true by lia. cbn [app] in E. take8 E E1. rewrite <- !app_assoc in E1. take16 E1 E2.
  replace (_ <? zlen name) with false by lia. pose proof (see_name_shape (t, name) h Hs Hbn Hname) as Hs1. destruct (so_sni h Hs) as [[Lsni Bsni] _].
  assert (Hone : (if t =? 0 then if TLS13_MAX_SNI_LEN <? zlen name then Fail else
      let! d := rdn (padd msg (lp + 1 + 2)) (zlen name) in let! buf := blit (sni h) 0 d in let! buf := wr buf (zlen name) 0 in
      Ret (h {{ sni := map lower (ztake (zlen name) buf) ++ padd buf (zlen name); sni_len := zlen name }}) else Ret h) = Ret (see_name (t, name) h)).
  { unfold see_name. destruct (Z.eqb_spec t 0) as [->|]; [|done]. specialize (Hname eq_refl). change TLS13_MAX_SNI_LEN with 253. replace (253 <? zlen name) with false by lia.
    rewrite (slice_here _ name (enc_names l ++ rest)) by (assumption || lia). ret. rewrite blit_ok by lia. ret. change (ztake 0 (sni h)) with (@nil Z). cbn [app]. rewrite Z.add_0_l.
    rewrite (padd_nth (sni h) (zlen name)) by lia. rewrite wr_app. ret. rewrite ztake_app, padd_app by done. reflexivity. }
  rewrite Hone. ret. unfold rd_skip. replace (_ <? zlen name) with false by lia. ret. replace (_ - 1 - 2 - zlen name) with (zlen (enc_names l)) by lia.
  apply (IH fuel (lp + 1 + 2 + zlen name) (see_name (t, name) h) rest); try assumption; [lia| |lia|lia]. apply padd_next; [lia|exact E2].
Qed.

Lemma enc_shares_cons g k l : enc_shares ((g, k) :: l) = be16 g ++ be16 (zlen k) ++ k ++ enc_shares l.
Proof. unfold enc_shares, vec16. cbn [map mjoin list_join]. by rewrite <- !app_assoc. Qed.

Lemma see_share_shape gk h : shape_ok h -> Forall byte_ok (snd gk) -> shape_ok (see_share gk h).
Proof.
  destruct gk as [g k]. cbn [snd]. intros Hs Hb. unfold see_share. destruct (_ && _) eqn:E; [|done]. same_shape Hs. split; [lia|done].
Qed.

Lemma share_loop_enc l : forall fuel lp h rest, 0 <= lp -> Forall (fun '(g, _) => u16_ok g) l -> Forall byte_ok (enc_shares l) -> padd msg lp = enc_shares l ++ rest -> zlen (enc_shares l) <= Z.of_nat fuel -> zlen (enc_shares l) < 65536 ->
  shape_ok h -> share_loop msg fuel lp (zlen (enc_shares l)) h = Ret (each see_share l h) /\ shape_ok (each see_share l h).
Proof.
  induction l as [|[g k] l IH]; intros fuel lp h rest Hlp Hl Hb E Hf H16 Hs; [by destruct fuel|]. apply Forall_cons_1 in Hl as [Hg Hl]. rewrite enc_shares_cons in *. rewrite !zlen_app, !zlen_be16 in *. rewrite <- !app_assoc in E.
  rewrite !Forall_app in Hb. destruct Hb as (_ & _ & Hbk & Hb). pose proof (zlen_nonneg k). pose proof (zlen_nonneg (enc_shares l)). destruct fuel as [|fuel]; [lia|]. cbn [share_loop]. replace (4 <=? _) with true by lia. unfold u16_ok in Hg.
  take16 E E1. take16 E1 E2. replace (_ <? zlen k) with false by lia. destruct (so_pubkey h Hs) as [Lp Bp].
  assert (Hone : (if (g =? TLS13_NAMED_GROUP_X25519) && (zlen k =? 32) then let! d := rdn (padd msg (lp + 2 + 2)) 32 in let! k' := blit (ecdhe_pubkey h) 0 d in Ret (h {{ ecdhe_pubkey := k'; offers_x25519 := true }}) else Ret h) = Ret (see_share (g, k) h)).
  { unfold see_share. destruct ((g =? TLS13_NAMED_GROUP_X25519) && (zlen k =? 32)) eqn:Ek; [|done]. assert (Lk : zlen k = 32) by lia. pose proof (slice_here (lp + 2 + 2) k _ ltac:(lia) E2) as Hk. rewrite Lk in Hk. rewrite Hk. ret. rewrite blit_ok by lia. ret.
    change (ztake 0 (ecdhe_pubkey h)) with (@nil Z). cbn [app]. unfold padd. rewrite drop_ge by (unfold zlen in *; lia). by rewrite app_nil_r. }
  rewrite Hone. ret. unfold rd_skip. replace (_ <? zlen k) with false by lia. ret. replace (_ - 2 - 2 - zlen k) with (zlen (enc_shares l)) by lia.
  apply (IH fuel (lp + 2 + 2 + zlen k) (see_share (g, k) h) rest); try assumption; [lia| |lia|lia|by apply see_share_shape]. apply padd_next; [lia|exact E2].
Qed.

Lemma modes_loop_enc l : forall eb i h rest, 0 <= eb + i -> padd msg (eb + i) = l ++ rest -> modes_loop msg (length l) eb i h = Ret (each see_mode l h).
Proof.
  induction l as [|m l IH]; intros eb i h rest Hi E; [done|]. cbn [length modes_loop]. rewrite (rd_at_cursor msg _ m (l ++ rest)) by done. ret.
  change (each see_mode (m :: l) h) with (each see_mode l (see_mode m h)). apply (IH eb (i + 1) _ rest); [lia|]. rewrite Z.add_assoc. by apply (padd_next msg (eb + i) [m]).
Qed.

(** *** [pre_shared_key] *)

Lemma store4_insert a n v : length a = 4%nat -> store4 a (Z.of_nat n) v = Ret (<[n := v]> a).
Proof.
  intros Ha. unfold store4. change TLS13_PSK_MAX_OFFERS with 4. destruct (Z.ltb_spec (Z.of_nat n) 4); [rewrite wr_in_bounds by (unfold zlen; lia); by rewrite Nat2Z.id|]. by rewrite list_insert_ge by lia.
Qed.

Lemma length_record vs : forall a n, length (record a n vs) = length a.
Proof. induction vs as [|v vs IH]; intros a n; [done|]. cbn [record]. by rewrite IH, length_insert. Qed.

Lemma enc_ids_cons o l : enc_ids (o :: l) = be16 (zlen (o_identity o)) ++ o_identity o ++ be16 (o_age o / 65536) ++ be16 (o_age o mod 65536) ++ enc_ids l.
Proof.
  unfold enc_ids. cbn [map mjoin list_join]. unfold vec16. rewrite <- !app_assoc. do 2 f_equal. rewrite app_assoc. f_equal. rewrite !be16_bytes. cbn [be_bytes app].
  change (256 ^ Z.of_nat 3) with 16777216. change (256 ^ Z.of_nat 2) with 65536. change (256 ^ Z.of_nat 1) with 256. change (256 ^ Z.of_nat 0) with 1. rewrite Z.div_1_r, Z.div_div by lia. cbn. assert (forall v, v mod 65536 / 256 mod 256 = v / 256 mod 256) as -> by (intros; dlia). assert (forall v, v mod 65536 mod 256 = v mod 256) as -> by (intros; dlia). done.
Qed.

Lemma enc_binders_cons o l : enc_binders (o :: l) = zlen (o_binder o) :: o_binder o ++ enc_binders l.
Proof. done. Qed.

Lemma age_value v : 0 <= v < 2 ^ 32 -> Z.lor (u32 (Z.shiftl (v / 65536) 16)) (v mod 65536) = v.
Proof. intros H. rewrite Z.shiftl_mul_pow2 by lia. rewrite u32_small by dlia. rewrite (lor_disjoint 16) by dlia. dlia. Qed.

(** The identities part of [see_psk], from index [n] on. *)
Definition see_ids (pos : Z) (n : nat) (l : list offer) (h : tls13_client_hello_t) : tls13_client_hello_t :=
  h {{ psk_id_off := record (psk_id_off h) n (id_offs pos l); psk_id_len := record (psk_id_len h) n (map (fun o => zlen (o_identity o)) l);
       psk_obfuscated_age := record (psk_obfuscated_age h) n (map o_age l) }}.

Definition see_binders (pos : Z) (n : nat) (l : list offer) (h : tls13_client_hello_t) : tls13_client_hello_t :=
  h {{ psk_binder_off := record (psk_binder_off h) n (binder_offs pos l); psk_binder_len := record (psk_binder_len h) n (map (fun o => zlen (o_binder o)) l) }}.

Lemma psk_identities_enc raw l : forall fuel lp n h rest, 0 <= lp -> Forall offer_ok l -> padd msg lp = enc_ids l ++ rest -> zlen (enc_ids l) <= Z.of_nat fuel ->
  lp + zlen (enc_ids l) <= raw -> Z.of_nat n + zlen (enc_ids l) < 2 ^ 32 -> shape_ok h ->
  psk_identities msg fuel raw lp (zlen (enc_ids l)) (Z.of_nat n) h = Ret (Z.of_nat n + zlen l, see_ids lp n l h).
Proof.
  induction l as [|o l IH]; intros fuel lp n h rest Hlp Hl E Hf Hraw Hn Hs; [change (zlen (@nil offer)) with 0; rewrite Z.add_0_r; destruct fuel, h; reflexivity|].
  apply Forall_cons_1 in Hl as [(Hid & Hage & _) Hl]. rewrite enc_ids_cons in *. rewrite !zlen_app, !zlen_be16 in *. rewrite <- !app_assoc in E. pose proof (zlen_nonneg (enc_ids l)).
  destruct fuel as [|fuel]; [lia|]. cbn [psk_identities]. replace (0 <? _) with true by lia. take16 E E1. replace ((_ <? 1) || (_ <? _)) with false by lia. replace (raw <? lp + 2) with false by lia.
  unfold rd_skip. replace (_ <? zlen (o_identity o)) with false by lia. ret. apply padd_next in E1; [|lia]. assert (0 <= o_age o / 65536 < 65536) by dlia. assert (0 <= o_age o mod 65536 < 65536) by dlia. take16 E1 E2. take16 E2 E3. rewrite age_value by done.
  destruct (so_psk h Hs) as (L1 & L2 & L3 & L4 & L5). unfold zlen in L1, L2, L3. rewrite !store4_insert by lia. ret. rewrite u32_small by lia. replace (Z.of_nat n + 1) with (Z.of_nat (S n)) by lia.
  match goal with |- context [psk_identities msg fuel raw ?q ?r] => replace r with (zlen (enc_ids l)) by lia end.
  erewrite IH; [|lia|done|exact E3|lia|lia|lia|]. 2: { same_shape Hs. unfold zlen in *. rewrite !length_insert. tauto. }
  f_equal. f_equal; [rewrite zlen_cons; lia|]. unfold see_ids. cbn [id_offs map record]. replace (lp + 2 + zlen (o_identity o) + 2 + 2) with (lp + 2 + zlen (o_identity o) + 4) by lia. reflexivity.
Qed.

Lemma psk_binders_enc raw l : forall fuel lp n h rest, 0 <= lp -> Forall offer_ok l -> padd msg lp = enc_binders l ++ rest -> zlen (enc_binders l) <= Z.of_nat fuel ->
  lp + zlen (enc_binders l) <= raw -> Z.of_nat n + zlen (enc_binders l) < 2 ^ 32 -> shape_ok h ->
  psk_binders msg fuel raw lp (zlen (enc_binders l)) (Z.of_nat n) h = Ret (Z.of_nat n + zlen l, see_binders lp n l h).
Proof.
  induction l as [|o l IH]; intros fuel lp n h rest Hlp Hl E Hf Hraw Hn Hs; [change (zlen (@nil offer)) with 0; rewrite Z.add_0_r; destruct fuel, h; reflexivity|].
  apply Forall_cons_1 in Hl as [(_ & _ & Hb) Hl]. rewrite enc_binders_cons in *. rewrite zlen_cons, zlen_app in *. cbn [app] in E. rewrite <- app_assoc in E. pose proof (zlen_nonneg (enc_binders l)).
  destruct fuel as [|fuel]; [lia|]. cbn [psk_binders]. replace (0 <? _) with true by lia. take8 E E1. replace ((_ <? 32) || (_ <? _)) with false by lia. replace (raw <? lp + 1) with false by lia.
  destruct (so_psk h Hs) as (L1 & L2 & L3 & L4 & L5). unfold zlen in L4, L5. rewrite !store4_insert by lia. ret. unfold rd_skip. replace (_ <? zlen (o_binder o)) with false by lia. ret. apply padd_next in E1; [|lia].
  rewrite u32_small by lia. replace (Z.of_nat n + 1) with (Z.of_nat (S n)) by lia. match goal with |- context [psk_binders msg fuel raw ?q ?r] => replace r with (zlen (enc_binders l)) by lia end.
  erewrite IH; [|lia|done|exact E1|lia|lia|lia|]. 2: { same_shape Hs. unfold zlen in *. rewrite !length_insert. tauto. }
  f_equal. f_equal. rewrite zlen_cons. lia.
Qed.

Lemma ids_long l : Forall offer_ok l -> l <> [] -> 7 <= zlen (enc_ids l) /\ 33 <= zlen (enc_binders l) /\ 7 * zlen l <= zlen (enc_ids l) /\ 1 <= zlen l.
Proof.
  intros H Hne. assert (G : 7 * zlen l <= zlen (enc_ids l) /\ 33 * zlen l <= zlen (enc_binders l)).
  { clear Hne. induction H as [|o l (H1 & H2 & H3) Hl IH]; [done|]. rewrite enc_ids_cons, enc_binders_cons, !zlen_cons, !zlen_app, !zlen_be16. lia. }
  assert (1 <= zlen l) by (destruct l; [done|rewrite zlen_cons; pose proof (zlen_nonneg l); lia]). lia.
Qed.

Lemma parse_psk_enc raw l p h rest : 0 <= p -> Forall offer_ok l -> l <> [] -> zlen (enc_ids l) < 65536 -> zlen (enc_binders l) < 65536 -> padd msg p = ext_body (EPsk l) ++ rest -> p + zlen (ext_body (EPsk l)) <= raw -> shape_ok h ->
  parse_psk_extension msg p (zlen (ext_body (EPsk l))) raw h = Ret (see_psk p l h).
Proof.
  intros Hp Hl Hne Hi Hb E Hraw Hs. destruct (ids_long l Hl Hne) as (Li & Lb & Ln & L1). cbn [ext_body] in *. unfold vec16 in *. rewrite !zlen_app, !zlen_be16 in *. rewrite <- !app_assoc in E.
  unfold parse_psk_extension. take16 E E1. replace ((_ <? 7) || (_ <? _)) with false by lia.
  pose proof (psk_identities_enc raw l (Z.to_nat (zlen (enc_ids l))) (p + 2) 0 h _ ltac:(lia) Hl E1 ltac:(lia) ltac:(lia) ltac:(lia) Hs) as H1. change (Z.of_nat 0) with 0 in H1. rewrite H1. ret. change (0 + zlen l) with (zlen l). replace (zlen l =? 0) with false by lia.
  unfold rd_skip. replace (_ <? zlen (enc_ids l)) with false by lia. ret. apply padd_next in E1; [|lia]. take16 E1 E2. replace ((_ <? 33) || (_ <? _)) with false by lia. replace (_ =? zlen (enc_binders l)) with true by lia. cbn [negb].
  match goal with |- context [psk_binders msg _ raw _ _ 0 ?x] => set (h1 := x) end. assert (Hs1 : shape_ok h1) by (same_shape Hs; unfold zlen in *; rewrite !length_record; tauto).
  pose proof (psk_binders_enc raw l (Z.to_nat (zlen (enc_binders l))) (p + 2 + zlen (enc_ids l) + 2) 0 h1 _ ltac:(lia) Hl E2 ltac:(lia) ltac:(lia) ltac:(lia) Hs1) as H2. change (Z.of_nat 0) with 0 in H2. rewrite H2. subst h1. ret.
  change (0 + zlen l) with (zlen l). match goal with |- context [zlen l =? ?x] => change x with (zlen l) end. rewrite Z.eqb_refl. reflexivity.
Qed.
End Loops.

(** ** The structure stays well-formed *)

Definition good (raw : Z) (h : tls13_client_hello_t) : Prop := shape_ok h /\ raw_len h = raw.

Lemma each_good {A} (f : A -> tls13_client_hello_t -> tls13_client_hello_t) raw l h : (forall x h, x ∈ l -> good raw h -> good raw (f x h)) -> good raw h -> good raw (each f l h).
Proof.
  revert h. induction l as [|x l IH]; intros h Hf Hh; [done|]. apply (IH (f x h)); [|apply Hf; [left|done]]. intros y h' Hy. apply Hf. by right.
Qed.

(** Updating other fields, or one field under a test. *)
Ltac keep_good := intros [? ?]; split; [match goal with H : shape_ok _ |- _ => same_shape H end|assumption].

Lemma version_good raw v h : good raw h -> good raw (version_seen v h).
Proof. unfold version_seen. destruct (_ =? _); [keep_good|done]. Qed.

Lemma sigalg_good raw v h : good raw h -> good raw (sigalg_seen v h).
Proof.
  assert (K : forall (b : bool) (u : tls13_client_hello_t -> tls13_client_hello_t) h, (good raw h -> good raw (u h)) -> good raw h -> good raw (if b then u h else h)) by (by intros []; auto).
  intros H. unfold sigalg_seen. cbv zeta. apply (K _ (fun h => h {{ offers_ecdsa_secp256r1_sha256 := true }})); [keep_good|]. apply (K _ (fun h => h {{ offers_rsa_pss_rsae_sha256 := true }})); [keep_good|].
  apply (K _ (fun h => h {{ offers_ed25519 := true }})); [keep_good|done].
Qed.

Lemma mode_good raw v h : good raw h -> good raw (see_mode v h).
Proof. unfold see_mode. destruct (_ =? _); [keep_good|done]. Qed.

Lemma each_raw {A} (f : A -> tls13_client_hello_t -> tls13_client_hello_t) l h : (forall x h, raw_len (f x h) = raw_len h) -> raw_len (each f l h) = raw_len h.
Proof. intros Hf. revert h. induction l as [|x l IH]; intros h; [done|]. change (each f (x :: l) h) with (each f l (f x h)). by rewrite IH, Hf. Qed.

Lemma name_raw tn h : raw_len (see_name tn h) = raw_len h.
Proof. destruct tn as [t name]. unfold see_name. by destruct (t =? 0). Qed.

Lemma share_raw gk h : raw_len (see_share gk h) = raw_len h.
Proof. destruct gk as [g k]. unfold see_share. by destruct (_ && _). Qed.

Lemma psk_good raw p l h : good raw h -> good raw (see_psk p l h).
Proof. intros [Hs Hr]. split; [|done]. same_shape Hs. unfold zlen in *. rewrite !length_record. tauto. Qed.

(** ** Extensions *)

Section Extensions.
Context (msg : list Z) (raw : Z).

(** A 16-bit vector at the start of an extension. *)
Lemma vec16_at p l rest k : 0 <= p -> padd msg p = vec16 l ++ rest -> zlen l < 65536 -> zlen (vec16 l) <= k -> rd_u16 msg p k = Ret (zlen l, p + 2, k - 2) /\ padd msg (p + 2) = l ++ rest /\ zlen l <= k - 2.
Proof.
  intros Hp E Hl Hk. pose proof (zlen_nonneg l). unfold vec16 in *. rewrite zlen_app, zlen_be16 in Hk. rewrite <- app_assoc in E. destruct (read_u16 msg p k (zlen l) (l ++ rest)) as [-> E2]; [lia|unfold u16_ok; lia|exact E|lia|]. split; [done|]. split; [done|lia].
Qed.

Lemma vec8_at p l rest k : 0 <= p -> padd msg p = vec8 l ++ rest -> zlen (vec8 l) <= k -> rd_u8 msg p k = Ret (zlen l, p + 1, k - 1) /\ padd msg (p + 1) = l ++ rest /\ zlen l <= k - 1.
Proof.
  intros Hp E Hk. pose proof (zlen_nonneg l). unfold vec8 in *. rewrite zlen_cons in Hk. destruct (read_u8 msg p k (zlen l) (l ++ rest)) as [-> E2]; [lia|exact E|lia|]. split; [done|]. split; [done|lia].
Qed.

Lemma zlen_enc16 l : zlen (enc16 l) = 2 * zlen l.
Proof. induction l as [|v l IH]; [done|]. change (enc16 (v :: l)) with (be16 v ++ enc16 l). rewrite zlen_app, zlen_be16, zlen_cons, IH. lia. Qed.

Lemma even_enc16 l : Z.land (zlen (enc16 l)) 1 = 0.
Proof. rewrite zlen_enc16. change 1 with (Z.ones 1). rewrite Z.land_ones by lia. dlia. Qed.

Lemma zlen_vec16 l : zlen (vec16 l) = 2 + zlen l.
Proof. unfold vec16. rewrite zlen_app, zlen_be16. done. Qed.

Lemma parse_extension_enc e p rem h rest : 0 <= p -> ext_ok e -> Forall byte_ok (ext_body e) -> padd msg p = ext_body e ++ rest -> p + zlen (ext_body e) <= raw -> (is_psk e = true -> rem = 0) -> good raw h ->
  parse_extension msg (ext_type e) p (zlen (ext_body e)) rem h = Ret (see_ext p e h) /\ good raw (see_ext p e h).
Proof.
  intros Hp (Ht & Hbl & Hok) Hb E Hraw Hrem Hg. pose proof Hg as [Hs Hr]. unfold parse_extension. destruct e as [l|l|l|l|cert l| |l|l|t body]; cbn [ext_body ext_type see_ext is_psk] in *.
  - cbn [Z.eqb Pos.eqb orb]. rewrite zlen_vec16 in *. destruct (vec16_at p _ rest (2 + zlen (enc_names l)) Hp E ltac:(lia) ltac:(rewrite zlen_vec16; lia)) as (-> & E2 & _). ret.
    replace (_ <? zlen (enc_names l)) with false by lia. apply Forall_app in Hb as [_ Hb]. destruct (sni_loop_enc msg l (Z.to_nat (zlen (enc_names l))) (p + 2) h rest) as [-> Hs']; [lia|done|done|exact E2|lia|lia|done|].
    split; [done|]. split; [done|]. rewrite each_raw; [done|]. apply name_raw.
  - cbn [Z.eqb Pos.eqb orb]. rewrite zlen_vec16 in *. destruct (vec16_at p _ rest (2 + zlen (enc16 l)) Hp E ltac:(lia) ltac:(rewrite zlen_vec16; lia)) as (-> & E2 & _). ret.
    replace (_ <? zlen (enc16 l)) with false by lia. erewrite u16_loop_enc; [|lia|done|exact E2|lia]. ret. split; [done|]. by apply each_good.
  - cbn [Z.eqb Pos.eqb orb]. rewrite zlen_vec16 in *. destruct (vec16_at p _ rest (2 + zlen (enc_shares l)) Hp E ltac:(lia) ltac:(rewrite zlen_vec16; lia)) as (-> & E2 & _). ret.
    replace (_ <? zlen (enc_shares l)) with false by lia. apply Forall_app in Hb as [_ Hb]. destruct (share_loop_enc msg l (Z.to_nat (zlen (enc_shares l))) (p + 2) h rest) as [-> Hs']; [lia|done|done|exact E2|lia|lia|done|].
    split; [done|]. split; [done|]. rewrite each_raw; [done|]. apply share_raw.
  - cbn [Z.eqb Pos.eqb orb]. destruct Hok as [Hok Hl8]. destruct (vec8_at p _ rest (zlen (vec8 (enc16 l))) Hp E ltac:(lia)) as (-> & E2 & L). ret.
    replace (_ <? zlen (enc16 l)) with false by lia. erewrite u16_loop_enc; [|lia|done|exact E2|lia]. ret. split; [done|]. apply each_good; [|done]. intros v h' _. apply version_good.
  - assert (R : parse_extension msg (if cert then 0x32 else 0x0d) p (zlen (vec16 (enc16 l))) rem h = Ret (each sigalg_seen l h)); [|split; [destruct cert; exact R|apply each_good; [|done]; intros v h' _; apply sigalg_good]].
    assert (forall t, t = (if cert then 0x32 else 0x0d) -> parse_extension msg t p (zlen (vec16 (enc16 l))) rem h = Ret (each sigalg_seen l h)) as HH; [|by apply HH]. intros t Et. unfold parse_extension.
    replace (t =? 0) with false by (destruct cert; subst; done). replace (t =? 0xa) with false by (destruct cert; subst; done). replace (t =? 0x33) with false by (destruct cert; subst; done). replace (t =? 0x2b) with false by (destruct cert; subst; done).
    replace ((t =? 0xd) || (t =? 0x32)) with true by (destruct cert; subst; done). cbv iota. rewrite zlen_vec16 in *. destruct (vec16_at p _ rest (2 + zlen (enc16 l)) Hp E ltac:(lia) ltac:(rewrite zlen_vec16; lia)) as (-> & E2 & _). ret.
    rewrite even_enc16. cbn [Z.eqb negb]. replace (_ <? zlen (enc16 l)) with false by lia. erewrite u16_loop_enc; [|lia|done|exact E2|lia]. by ret.
  - cbn [Z.eqb Pos.eqb orb negb zlen length Z.of_nat]. split; [done|]. revert Hg. keep_good.
  - cbn [Z.eqb Pos.eqb orb]. destruct (vec8_at p _ rest (zlen (vec8 l)) Hp E ltac:(lia)) as (-> & E2 & L). ret. replace ((_ <? 1) || (_ <? _)) with false by lia. unfold zlen. rewrite Nat2Z.id.
    erewrite modes_loop_enc; [|lia|rewrite Z.add_0_r; exact E2]. split; [done|]. apply each_good; [|done]. intros v h' _. apply mode_good.
  - cbn [Z.eqb Pos.eqb orb]. rewrite (Hrem eq_refl). cbn [Z.eqb negb]. destruct Hok as [Hne Hof]. rewrite zlen_app, !zlen_vec16 in Hbl. pose proof (zlen_nonneg (enc_ids l)). pose proof (zlen_nonneg (enc_binders l)).
    rewrite Hr. change (vec16 (enc_ids l) ++ vec16 (enc_binders l)) with (ext_body (EPsk l)) in *. erewrite parse_psk_enc; [|done|done|done|lia|lia|exact E|done|done]. split; [done|]. by apply psk_good.
  - assert (forall k, k ∈ known_types -> (t =? k) = false) as K by (intros k Hk; apply Z.eqb_neq; by intros ->). assert (D : forall k, bool_decide (k ∈ known_types) = true -> (t =? k) = false) by (intros k Hk; apply K; by apply bool_decide_eq_true in Hk).
    rewrite !D by reflexivity. done.
Qed.

Definition psk_last (l : list ext) : Prop := forall a e k, l = a ++ e :: k -> is_psk e = true -> k = [].

Lemma psk_last_cons e l : psk_last (e :: l) -> psk_last l /\ (is_psk e = true -> l = []).
Proof. intros H. split; [|exact (H [] e l eq_refl)]. intros a e' k E. apply (H (e :: a)). by rewrite E. Qed.

Lemma enc_exts_cons e l : enc_exts (e :: l) = be16 (ext_type e) ++ be16 (zlen (ext_body e)) ++ ext_body e ++ enc_exts l.
Proof. unfold enc_exts, enc_ext, vec16. cbn [map mjoin list_join]. by rewrite <- !app_assoc. Qed.

Lemma parse_extensions_enc l : forall fuel p h rest, 0 <= p -> Forall ext_ok l -> psk_last l -> Forall byte_ok (enc_exts l) -> padd msg p = enc_exts l ++ rest -> p + zlen (enc_exts l) <= raw -> zlen (enc_exts l) <= Z.of_nat fuel -> good raw h ->
  parse_extensions_loop msg fuel p (zlen (enc_exts l)) h = Ret (see_exts p l h) /\ good raw (see_exts p l h).
Proof.
  induction l as [|e l IH]; intros fuel p h rest Hp Hl Hlast Hb E Hraw Hf Hg; [by destruct fuel|]. apply Forall_cons_1 in Hl as [He Hl]. apply psk_last_cons in Hlast as [Hlast He'].
  rewrite enc_exts_cons in *. rewrite !zlen_app, !zlen_be16 in *. rewrite !Forall_app in Hb. destruct Hb as (_ & _ & Hbe & Hb). rewrite <- !app_assoc in E. pose proof (zlen_nonneg (ext_body e)). pose proof (zlen_nonneg (enc_exts l)).
  destruct fuel as [|fuel]; [lia|]. cbn [parse_extensions_loop]. replace (0 <? _) with true by lia. pose proof He as (Ht & Hbl & _). unfold u16_ok in Ht. take16 E E1. take16 E1 E2. replace (_ <? zlen (ext_body e)) with false by lia.
  unfold rd_skip. replace (_ <? zlen (ext_body e)) with false by lia. ret. match goal with |- context [parse_extension msg _ _ _ ?r h] => replace r with (zlen (enc_exts l)) by lia end.
  replace (p + 2 + 2) with (p + 4) in * by lia. destruct (parse_extension_enc e (p + 4) (zlen (enc_exts l)) h (enc_exts l ++ rest)) as [-> Hg']; [lia|done|done|exact E2|lia|by intros ->%He'|done|]. ret.
  apply padd_next in E2; [|lia]. apply (IH fuel _ _ rest); [lia|done|done|done|exact E2|lia|lia|done].
Qed.

(** *** The fixed part of the message *)

Definition see_suite (cs : Z) (h : tls13_client_hello_t) : tls13_client_hello_t := if cs =? TLS13_CHACHA20_POLY1305_SHA256 then h {{ offers_chacha_poly := true }} else h.

Lemma suites_loop_enc l : forall k cp i h rest, 0 <= cp + i -> 0 <= i -> Forall u16_ok l -> padd msg (cp + i) = enc16 l ++ rest -> i + zlen (enc16 l) < 65535 -> zlen (enc16 l) <= Z.of_nat k ->
  suites_loop msg k cp i (i + zlen (enc16 l)) h = Ret (each see_suite l h).
Proof.
  induction l as [|v l IH]; intros k cp i h rest Hc Hi Hl E Hlen Hk; [destruct k; cbn [suites_loop]; replace (i + 2 <=? _) with false by (change (zlen (enc16 [])) with 0; lia); done|].
  apply Forall_cons_1 in Hl as [Hv Hl]. change (enc16 (v :: l)) with (be16 v ++ enc16 l) in *. rewrite zlen_app, zlen_be16 in *. rewrite <- app_assoc in E. pose proof (zlen_nonneg (enc16 l)).
  destruct k as [|k]; [lia|]. cbn [suites_loop]. replace (i + 2 <=? _) with true by lia. pose proof (padd_next msg (cp + i) (be16 v) _ Hc E) as E'. rewrite be16_bytes in E.
  rewrite (rd_at_cursor msg _ _ _ Hc E). ret. rewrite (rd_at_cursor msg (cp + i + 1) (v mod 256) (enc16 l ++ rest)); [|lia|exact (padd_next msg (cp + i) [(v / 256) mod 256] _ Hc E)]. ret. rewrite be16_value by done.
  replace (u16 (i + 2)) with (i + 2) by (unfold u16; rewrite Z.mod_small; lia). replace (i + (2 + zlen (enc16 l))) with (i + 2 + zlen (enc16 l)) by lia.
  apply (IH k cp (i + 2) _ rest); [lia|lia|done| |lia|lia]. by rewrite Z.add_assoc.
Qed.

Lemma has_null_enc l : forall p i rest, 0 <= p + i -> padd msg (p + i) = l ++ rest -> has_null msg (length l) p i = Ret (bool_decide (0 ∈ l)).
Proof.
  induction l as [|v l IH]; intros p i rest Hp E; [done|]. cbn [length has_null]. rewrite (rd_at_cursor msg _ v (l ++ rest)) by done. ret. destruct (Z.eqb_spec v 0) as [->|Hv].
  - rewrite bool_decide_true; [done|left].
  - rewrite (IH p (i + 1) rest); [|lia|rewrite Z.add_assoc; by apply (padd_next msg (p + i) [v])]. f_equal. apply bool_decide_ext. rewrite elem_of_cons. split; [by right|]. by intros [<-|].
Qed.
End Extensions.

(** ** The message *)

Definition base_hello (c : client_hello) : tls13_client_hello_t :=
  each see_suite (c_suites c) ((empty_hello (zlen (enc_hello c))) {{ ch_random := c_random c; legacy_session_id := c_session c ++ padd (replicate 32 0) (zlen (c_session c)); legacy_session_id_len := zlen (c_session c) }}).

(** The offset of the extensions. *)
Definition ext_pos (c : client_hello) : Z := 44 + zlen (c_session c) + zlen (enc16 (c_suites c)) + zlen (c_compressions c).

Lemma read_u24 msg p rem v rest : 0 <= p -> 0 <= v < 2 ^ 24 -> padd msg p = be_bytes 3 v ++ rest -> 3 <= rem -> rd_u24 msg p rem = Ret (v, p + 3, rem - 3) /\ padd msg (p + 3) = rest.
Proof.
  intros Hp Hv E Hr. split; [|exact (padd_next msg p (be_bytes 3 v) rest Hp E)]. unfold rd_u24. replace (rem <? 3) with false by lia. cbn [be_bytes app] in E.
  rewrite (rd_at_cursor msg p _ _ Hp E). ret. pose proof (padd_next msg p [_] _ Hp E) as E1. rewrite (rd_at_cursor msg (p + 1) _ _ ltac:(lia) E1). ret. pose proof (padd_next msg p [_; _] _ Hp E) as E2. rewrite (rd_at_cursor msg (p + 2) _ _ ltac:(lia) E2). ret.
  change (256 ^ Z.of_nat 2) with 65536. change (256 ^ Z.of_nat 1) with 256. change (256 ^ Z.of_nat 0) with 1. rewrite Z.div_1_r. do 3 f_equal. rewrite !Z.shiftl_mul_pow2 by lia. rewrite !u32_small by dlia.
  replace (v / 65536 mod 256 * 2 ^ 16) with (v / 65536 mod 256 * 2 ^ 8 * 2 ^ 8) by lia. replace (Z.lor _ (v / 256 mod 256 * 2 ^ 8)) with ((v / 65536 mod 256 * 2 ^ 8 + v / 256 mod 256) * 2 ^ 8).
  - rewrite (lor_disjoint 8) by dlia. dlia.
  - replace (v / 65536 mod 256 * 2 ^ 8 * 2 ^ 8) with (v / 65536 mod 256 * 2 ^ 16) by lia. rewrite (lor_disjoint 16) by dlia. lia.
Qed.

Lemma zlen_body c : ch_ok c -> zlen (hello_body c) = 40 + zlen (c_session c) + zlen (enc16 (c_suites c)) + zlen (c_compressions c) + zlen (enc_exts (c_exts c)).
Proof. intros Hc. unfold hello_body, vec8. rewrite !zlen_app, !zlen_vec16, !zlen_cons, (cho_random c Hc). change (zlen (@nil Z)) with 0. lia. Qed.

Lemma zlen_hello c : ch_ok c -> zlen (enc_hello c) = ext_pos c + zlen (enc_exts (c_exts c)).
Proof. intros Hc. unfold enc_hello, ext_pos. rewrite zlen_cons, zlen_app, zlen_body by done. change (zlen (be_bytes 3 (40 + zlen (c_session c) + zlen (enc16 (c_suites c)) + zlen (c_compressions c) + zlen (enc_exts (c_exts c))))) with 3. lia. Qed.

Lemma base_good c : ch_ok c -> Forall byte_ok (enc_hello c) -> good (zlen (enc_hello c)) (base_hello c).
Proof.
  intros Hc Hb. unfold enc_hello, hello_body, vec8 in Hb. apply Forall_cons_1 in Hb as [_ Hb]. rewrite !Forall_app in Hb. destruct Hb as (_ & _ & Hr & Hs & _). apply Forall_cons_1 in Hs as [_ Hs].
  apply each_good; [intros v h _; unfold see_suite; destruct (_ =? _); [keep_good|done]|]. pose proof (empty_shape (zlen (enc_hello c))) as He. split; [|done]. pose proof (cho_random c Hc). pose proof (cho_session c Hc). pose proof (zlen_nonneg (c_session c)).
  assert (Hbuf : buf_ok (c_session c ++ padd (replicate 32 0) (zlen (c_session c))) 32).
  { split; [rewrite zlen_app, zlen_padd; change (zlen (replicate 32 0)) with 32; lia|]. apply Forall_app. split; [done|]. by apply Forall_drop, bytes_okb_ok. }
  same_shape He; [done|]. split; [exact Hbuf|lia].
Qed.

(** Copying to the start of a zeroed 32-byte field. *)
Lemma blit_zeros d : zlen d <= 32 -> blit (replicate 32 0) 0 d = Ret (d ++ padd (replicate 32 0) (zlen d)).
Proof. intros Hd. rewrite blit_ok by (change (zlen (replicate 32 0)) with 32; lia). done. Qed.

Lemma blit_full d : zlen d = 32 -> blit (replicate 32 0) 0 d = Ret d.
Proof. intros Hd. rewrite blit_zeros by lia. rewrite Hd. by rewrite app_nil_r. Qed.

Lemma parse_enc c rest : ch_ok c -> Forall byte_ok (enc_hello c) ->
  tls13_parse_client_hello (enc_hello c ++ rest) (zlen (enc_hello c)) = Ret (see_exts (ext_pos c) (c_exts c) (base_hello c)) /\ good (zlen (enc_hello c)) (see_exts (ext_pos c) (c_exts c) (base_hello c)).
Proof.
  intros Hc Hb. set (msg := enc_hello c ++ rest). pose proof (zlen_hello c Hc) as Ln. pose proof (zlen_body c Hc) as Lb. pose proof (base_good c Hc Hb) as Hg. set (n := zlen (enc_hello c)) in *.
  destruct (cho_suites c Hc) as [Hs1 Hs2]. destruct (cho_compressions c Hc) as [Hc1 Hc2]. destruct (cho_exts c Hc) as [He1 He2]. pose proof (cho_session c Hc). pose proof (cho_random c Hc) as Lr.
  pose proof (zlen_nonneg (c_session c)). pose proof (zlen_nonneg (enc16 (c_suites c))). pose proof (zlen_nonneg (c_compressions c)). pose proof (zlen_nonneg (enc_exts (c_exts c))). unfold ext_pos in *.
  assert (E : padd msg 0 = 1 :: be_bytes 3 (zlen (hello_body c)) ++ [3; 3] ++ c_random c ++ vec8 (c_session c) ++ vec16 (enc16 (c_suites c)) ++ vec8 (c_compressions c) ++ vec16 (enc_exts (c_exts c)) ++ rest).
  { unfold msg, enc_hello. change (padd ?l 0) with l. cbn [app]. unfold hello_body at 2. by rewrite <- !app_assoc. }
  assert (Hbx : Forall byte_ok (enc_exts (c_exts c))).
  { unfold enc_hello, hello_body, vec16 in Hb. apply Forall_cons_1 in Hb as [_ Hb]. rewrite !Forall_app in Hb. tauto. }
  unfold tls13_parse_client_hello. cbv zeta. take8 E E1. cbn [Z.eqb Pos.eqb negb]. change (0 + 1) with 1 in *.
  destruct (read_u24 msg 1 (n - 1) (zlen (hello_body c)) _ ltac:(lia) ltac:(lia) E1 ltac:(lia)) as [-> E2]. ret. replace (_ =? _) with true by lia. cbn [negb]. change (1 + 3) with 4 in *.
  destruct (read_u16 msg 4 (n - 1 - 3) 0x0303 _ ltac:(lia) ltac:(unfold u16_ok; lia) E2 ltac:(lia)) as [-> E3]. ret. cbn [Z.eqb Pos.eqb negb]. change (4 + 2) with 6 in *.
  unfold rd_copy. replace (_ <? 32) with false by lia. pose proof (slice_here msg 6 (c_random c) _ ltac:(lia) E3) as Hr. rewrite Lr in Hr. rewrite Hr. ret.
  match goal with |- context [blit (ch_random ?h) 0 (c_random c)] => change (ch_random h) with (replicate 32 0) end. rewrite (blit_full (c_random c)) by lia. ret.
  apply padd_next in E3; [|lia]. rewrite Lr in E3. change (6 + 32) with 38 in *. change (vec8 (c_session c)) with (zlen (c_session c) :: c_session c) in E3. cbn [app] in E3. take8 E3 E4. change (38 + 1) with 39 in *.
  replace (32 <? zlen (c_session c)) with false by lia. replace (_ <? zlen (c_session c)) with false by lia.
  match goal with |- context [legacy_session_id ?h] => change (legacy_session_id h) with (replicate 32 0) end. rewrite (slice_here msg 39 (c_session c) _ ltac:(lia) E4). ret. rewrite blit_zeros by lia.
  replace (if 0 <? zlen (c_session c) then _ else _) with (Ret (c_session c ++ padd (replicate 32 0) (zlen (c_session c)))) by (destruct (c_session c); reflexivity). ret.
  unfold rd_skip at 1. replace (_ <? zlen (c_session c)) with false by lia. ret. apply padd_next in E4; [|lia].
  match goal with |- context [rd_u16 msg ?p ?r] => destruct (vec16_at msg p _ _ r ltac:(lia) E4 ltac:(lia) ltac:(rewrite zlen_vec16; lia)) as (-> & E5 & _) end. ret. rewrite even_enc16. cbn [Z.eqb negb orb]. replace (_ <? zlen (enc16 (c_suites c))) with false by lia.
  match goal with |- context [suites_loop msg ?k ?cp 0 _ ?h] => rewrite <- (Z.add_0_l (zlen (enc16 (c_suites c)))) at 2; rewrite (suites_loop_enc msg (c_suites c) k cp 0 h (vec8 (c_compressions c) ++ vec16 (enc_exts (c_exts c)) ++ rest)) by (rewrite ?Z.add_0_r; (done || lia || (rewrite zlen_enc16 in *; lia))) end. ret.
  change (each see_suite (c_suites c) _) with (base_hello c). unfold rd_skip at 1. replace (_ <? zlen (enc16 (c_suites c))) with false by lia. ret. apply padd_next in E5; [|lia].
  match goal with |- context [rd_u8 msg ?p ?r] => destruct (vec8_at msg p _ _ r ltac:(lia) E5 ltac:(unfold vec8; rewrite zlen_cons; lia)) as (-> & E6 & _) end. ret.
  assert (1 <= zlen (c_compressions c)) by (destruct (c_compressions c); [by apply elem_of_nil in Hc2|rewrite zlen_cons; pose proof (zlen_nonneg l); lia]). replace ((_ <? 1) || (_ <? _)) with false by lia.
  replace (Z.to_nat (zlen (c_compressions c))) with (length (c_compressions c)) by (unfold zlen; lia). erewrite has_null_enc; [|lia|rewrite Z.add_0_r; exact E6]. ret. rewrite bool_decide_true by done. cbn [negb].
  unfold rd_skip. replace (_ <? zlen (c_compressions c)) with false by lia. ret. apply padd_next in E6; [|lia].
  match goal with |- context [rd_u16 msg ?p ?r] => destruct (vec16_at msg p _ _ r ltac:(lia) E6 ltac:(lia) ltac:(rewrite zlen_vec16; lia)) as (-> & E7 & _) end. ret. replace (zlen (enc_exts (c_exts c)) =? _) with true by lia. cbn [negb].
  unfold parse_extensions. match goal with |- context [parse_extensions_loop msg _ ?p _ _] => replace p with (44 + zlen (c_session c) + zlen (enc16 (c_suites c)) + zlen (c_compressions c)) in * by lia end.
  apply (parse_extensions_enc msg n (c_exts c) _ _ (base_hello c) rest); [lia|done|exact (cho_psk_last c Hc)|done|exact E7|lia|lia|done].
Qed.

(** ** What the structure says *)

Definition names_of (e : ext) : list (Z * list Z) := match e with ESni l => l | _ => [] end.
Definition shares_of (e : ext) : list (Z * list Z) := match e with EShares l => l | _ => [] end.
Definition versions_of (e : ext) : list Z := match e with EVersions l => l | _ => [] end.
Definition sigs_of (e : ext) : list Z := match e with ESigs _ l => l | _ => [] end.
Definition modes_of (e : ext) : list Z := match e with EModes l => l | _ => [] end.
Definition early_of (e : ext) : list unit := match e with EEarly => [tt] | _ => [] end.

Definition x25519_share (gk : Z * list Z) : bool := (fst gk =? TLS13_NAMED_GROUP_X25519) && (zlen (snd gk) =? 32).
Definition host_name (tn : Z * list Z) : bool := fst tn =? 0.

(** The last entry that passes the test. *)
Definition latest {A} (p : A -> bool) (l : list A) : option A := foldl (fun a x => if p x then Some x else a) None l.

(** A projection of the structure that each extension folds its items into. *)
Lemma see_exts_fold {A B} (P : tls13_client_hello_t -> A) (g : A -> B -> A) (items : ext -> list B) :
  (forall pos e h, P (see_ext pos e h) = foldl g (P h) (items e)) -> forall l pos h, P (see_exts pos l h) = foldl g (P h) (l ≫= items).
Proof.
  intros Hs. induction l as [|e l IH]; intros pos h; [done|]. cbn [see_exts mbind list_bind]. rewrite IH, Hs. by rewrite foldl_app.
Qed.

Lemma each_fold {A B} (P : tls13_client_hello_t -> A) (g : A -> B -> A) (f : B -> tls13_client_hello_t -> tls13_client_hello_t) l h :
  (forall x h, P (f x h) = g (P h) x) -> P (each f l h) = foldl g (P h) l.
Proof. intros Hf. revert h. induction l as [|x l IH]; intros h; [done|]. change (each f (x :: l) h) with (each f l (f x h)). by rewrite IH, Hf. Qed.

Lemma each_keep {A B} (P : tls13_client_hello_t -> A) (f : B -> tls13_client_hello_t -> tls13_client_hello_t) l h : (forall x h, P (f x h) = P h) -> P (each f l h) = P h.
Proof. intros Hf. revert h. induction l as [|x l IH]; intros h; [done|]. change (each f (x :: l) h) with (each f l (f x h)). by rewrite IH, Hf. Qed.

(** One item leaves the projection alone, or folds into it. *)
Ltac item := intros; repeat match goal with x : (_ * _)%type |- _ => destruct x end; unfold version_seen, group_seen, sigalg_seen, see_share, see_name, see_mode, see_suite, x25519_share,
  TLS13_CHACHA20_POLY1305_SHA256, TLS13_SUPPORTED_VERSION, TLS13_SIG_SCHEME_ED25519, TLS13_SIG_SCHEME_RSA_PSS_RSAE_SHA256, TLS13_SIG_SCHEME_ECDSA_SECP256R1_SHA256; cbn [fst snd]; repeat (case_match; try done); done.
Ltac by_items := intros pos e h; destruct e; cbn [see_ext names_of shares_of versions_of sigs_of modes_of early_of foldl];
  first [reflexivity | rewrite each_keep; [reflexivity|item] | erewrite each_fold; [reflexivity|item]].

Lemma fold_any {B} (p : B -> bool) l b : foldl (fun b x => if p x then true else b) b l = existsb p l || b.
Proof. revert b. induction l as [|x l IH]; intros b; [done|]. cbn [foldl existsb]. rewrite IH. destruct (p x), (existsb p l), b; done. Qed.

Lemma fold_latest {A B} (p : B -> bool) (v : B -> A) l a : foldl (fun a x => if p x then v x else a) a l = default a (v <$> latest p l).
Proof.
  unfold latest. induction l as [|x l IH] using rev_ind; [done|]. rewrite !foldl_app. cbn [foldl]. by destruct (p x).
Qed.

(** *** The recorded offers *)

Lemma record_before vs : forall a n k, (k < n)%nat -> record a n vs !! k = a !! k.
Proof. induction vs as [|v vs IH]; intros a n k Hk; [done|]. cbn [record]. rewrite IH by lia. by rewrite list_lookup_insert_ne by lia. Qed.

Lemma record_lookup vs : forall a n i v, vs !! i = Some v -> (n + i < length a)%nat -> record a n vs !! (n + i)%nat = Some v.
Proof.
  induction vs as [|w vs IH]; intros a n i v Hv Hi; [done|]. cbn [record]. destruct i as [|i].
  - injection Hv as <-. rewrite Nat.add_0_r in *. rewrite record_before by lia. by apply list_lookup_insert_eq.
  - cbn in Hv. rewrite <- Nat.add_succ_comm. apply IH; [done|]. rewrite length_insert. lia.
Qed.

Lemma record_nth vs a i v : length a = 4%nat -> (i < 4)%nat -> vs !! i = Some v -> nth i (record a 0 vs) 0 = v.
Proof. intros Ha Hi Hv. apply nth_lookup_Some. apply (record_lookup vs a 0); [done|lia]. Qed.

Section Offers.
Context (msg : list Z).

Lemma sub_here p d rest : padd msg p = d ++ rest -> sub msg p (zlen d) = d.
Proof. unfold sub. intros ->. by apply ztake_app. Qed.

Lemma id_offs_at l : forall pos rest i o, 0 <= pos -> padd msg pos = enc_ids l ++ rest -> l !! i = Some o -> exists off, id_offs pos l !! i = Some off /\ sub msg off (zlen (o_identity o)) = o_identity o.
Proof.
  induction l as [|o' l IH]; intros pos rest i o Hp E Hi; [done|]. rewrite enc_ids_cons in E. rewrite <- !app_assoc in E. pose proof (zlen_nonneg (o_identity o')). apply (padd_next msg pos (be16 _)) in E; [|lia]. rewrite zlen_be16 in E.
  destruct i as [|i]; [injection Hi as <-; eexists; split; [done|]; by eapply sub_here|]. cbn in Hi. apply padd_next in E; [|lia]. apply (padd_next msg _ (be16 _)) in E; [|lia]. apply (padd_next msg _ (be16 _)) in E; [|rewrite zlen_be16; lia]. rewrite !zlen_be16 in E.
  cbn [id_offs]. apply (IH _ rest i o); [lia| |done]. replace (pos + 2 + zlen (o_identity o') + 4) with (pos + 2 + zlen (o_identity o') + 2 + 2) by lia. exact E.
Qed.

Lemma binder_offs_at l : forall pos rest i o, 0 <= pos -> padd msg pos = enc_binders l ++ rest -> l !! i = Some o -> exists off, binder_offs pos l !! i = Some off /\ sub msg off (zlen (o_binder o)) = o_binder o.
Proof.
  induction l as [|o' l IH]; intros pos rest i o Hp E Hi; [done|]. rewrite enc_binders_cons in E. cbn [app] in E. rewrite <- app_assoc in E. pose proof (zlen_nonneg (o_binder o')). apply (padd_next msg pos [_]) in E; [|lia].
  destruct i as [|i]; [injection Hi as <-; eexists; split; [done|]; by eapply sub_here|]. cbn in Hi. apply padd_next in E; [|change (zlen [_]) with 1; lia]. cbn [binder_offs]. by apply (IH _ rest i o); [lia| |done].
Qed.

(** The [i]th offer as the structure describes it in the message. *)
Definition offer_at (h : tls13_client_hello_t) (i : nat) : offer :=
  mk_offer (sub msg (nth i (psk_id_off h) 0) (nth i (psk_id_len h) 0)) (nth i (psk_obfuscated_age h) 0) (sub msg (nth i (psk_binder_off h) 0) (nth i (psk_binder_len h) 0)).

Lemma see_psk_offers pos l h rest i o : 0 <= pos -> shape_ok h -> padd msg pos = ext_body (EPsk l) ++ rest -> (i < 4)%nat -> l !! i = Some o -> offer_at (see_psk pos l h) i = o.
Proof.
  intros Hp Hs E Hi Ho. destruct (so_psk h Hs) as (L1 & L2 & L3 & L4 & L5). cbn [ext_body] in E. unfold vec16 in E. rewrite <- !app_assoc in E. pose proof (zlen_nonneg (enc_ids l)).
  apply (padd_next msg pos (be16 _)) in E; [|lia]. rewrite zlen_be16 in E. destruct (id_offs_at l (pos + 2) _ i o ltac:(lia) E Ho) as (off1 & F1 & S1). apply padd_next in E; [|lia]. apply (padd_next msg _ (be16 _)) in E; [|lia]. rewrite zlen_be16 in E.
  destruct (binder_offs_at l (pos + 2 + zlen (enc_ids l) + 2) rest i o ltac:(lia) E Ho) as (off2 & F2 & S2). unfold offer_at, see_psk.
  change (mk_offer (sub msg (nth i (record (psk_id_off h) 0 (id_offs (pos + 2) l)) 0) (nth i (record (psk_id_len h) 0 (map (fun o => zlen (o_identity o)) l)) 0)) (nth i (record (psk_obfuscated_age h) 0 (map o_age l)) 0)
    (sub msg (nth i (record (psk_binder_off h) 0 (binder_offs (pos + 2 + zlen (enc_ids l) + 2) l)) 0) (nth i (record (psk_binder_len h) 0 (map (fun o => zlen (o_binder o)) l)) 0)) = o).
  unfold zlen in L1, L2, L3, L4, L5. assert (forall {A} (f : offer -> A), map f l !! i = Some (f o)) as Hm by (intros A f; change (map f l) with (f <$> l); by rewrite list_lookup_fmap, Ho).
  rewrite (record_nth _ _ i off1) by (done || lia). rewrite (record_nth _ _ i _) by (apply Hm || lia). rewrite (record_nth _ _ i _) by (apply Hm || lia). rewrite (record_nth _ _ i off2) by (done || lia). rewrite (record_nth _ _ i _) by (apply Hm || lia). rewrite S1, S2. by destruct o.
Qed.
End Offers.

(** ** The theorems *)

(** What the parser should report about a message. *)
Record understood (c : client_hello) (h : tls13_client_hello_t) : Prop := {
  un_random : ch_random h = c_random c;
  un_session : ztake (legacy_session_id_len h) (legacy_session_id h) = c_session c;
  un_suite : offers_chacha_poly h = existsb (fun v => v =? 0x1303) (c_suites c);
  un_version : offers_tls13 h = existsb (fun v => v =? 0x0304) (c_exts c ≫= versions_of);
  un_share : offers_x25519 h = existsb x25519_share (c_exts c ≫= shares_of);
  un_pubkey : ecdhe_pubkey h = default (replicate 32 0) (snd <$> latest x25519_share (c_exts c ≫= shares_of));
  un_ed25519 : offers_ed25519 h = existsb (fun v => v =? 0x0807) (c_exts c ≫= sigs_of);
  un_rsa : offers_rsa_pss_rsae_sha256 h = existsb (fun v => v =? 0x0804) (c_exts c ≫= sigs_of);
  un_ecdsa : offers_ecdsa_secp256r1_sha256 h = existsb (fun v => v =? 0x0403) (c_exts c ≫= sigs_of);
  un_early : offers_early_data h = existsb (fun _ => true) (c_exts c ≫= early_of);
  un_mode : psk_dhe_ke_offered h = existsb (fun v => v =? 1) (c_exts c ≫= modes_of);
  un_sni : ztake (sni_len h) (sni h) = default [] ((fun tn => map lower (snd tn)) <$> latest host_name (c_exts c ≫= names_of));
  un_psk : psk_present h = existsb is_psk (c_exts c);
  un_offers : forall pre l, c_exts c = pre ++ [EPsk l] ->
    psk_offer_count h = zlen l /\ enc_hello c = ztake (psk_partial_ch_off h) (enc_hello c) ++ vec16 (enc_binders l) /\
    forall i o, (i < 4)%nat -> l !! i = Some o -> offer_at (enc_hello c) h i = o
}.

Lemma see_exts_app a : forall pos b h, see_exts pos (a ++ b) h = see_exts (pos + zlen (enc_exts a)) b (see_exts pos a h).
Proof.
  induction a as [|e a IH]; intros pos b h; [cbn; by rewrite Z.add_0_r|]. cbn [app see_exts]. rewrite IH. f_equal. rewrite enc_exts_cons, !zlen_app, !zlen_be16. lia.
Qed.

Lemma enc_exts_app a b : enc_exts (a ++ b) = enc_exts a ++ enc_exts b.
Proof. unfold enc_exts. by rewrite map_app, join_app. Qed.

(** The message before its extensions. *)
Lemma hello_split c : ch_ok c -> exists front, enc_hello c = front ++ enc_exts (c_exts c) /\ zlen front = ext_pos c.
Proof.
  intros Hc. exists ([1] ++ be_bytes 3 (zlen (hello_body c)) ++ [3; 3] ++ c_random c ++ vec8 (c_session c) ++ vec16 (enc16 (c_suites c)) ++ vec8 (c_compressions c) ++ be16 (zlen (enc_exts (c_exts c)))). split.
  - unfold enc_hello. set (L := be_bytes 3 _). unfold hello_body, vec16. by rewrite <- !app_assoc.
  - unfold ext_pos, vec8. set (L := be_bytes 3 _). rewrite !zlen_app, !zlen_vec16, !zlen_cons, (cho_random c Hc). change (zlen L) with 3. rewrite zlen_be16. change (zlen (@nil Z)) with 0. lia.
Qed.

(** The offers of a message whose last extension is [pre_shared_key]. *)
Lemma last_psk c pre l h : ch_ok c -> c_exts c = pre ++ [EPsk l] -> shape_ok (see_exts (ext_pos c) pre h) -> let h' := see_exts (ext_pos c) (c_exts c) h in
  psk_offer_count h' = zlen l /\ enc_hello c = ztake (psk_partial_ch_off h') (enc_hello c) ++ vec16 (enc_binders l) /\ forall i o, (i < 4)%nat -> l !! i = Some o -> offer_at (enc_hello c) h' i = o.
Proof.
  intros Hc E Hs. cbv zeta. destruct (hello_split c Hc) as (front & Em & Lf). rewrite E, see_exts_app. cbn [see_exts see_ext]. set (pos := ext_pos c + zlen (enc_exts pre) + 4). set (h1 := see_exts (ext_pos c) pre h) in *.
  set (f := front ++ enc_exts pre ++ be16 0x29 ++ be16 (zlen (ext_body (EPsk l)))). assert (Em' : enc_hello c = f ++ ext_body (EPsk l)).
  { subst f. rewrite Em, E, enc_exts_app, (enc_exts_cons (EPsk l) []), app_nil_r. by rewrite <- !app_assoc. }
  assert (Lf' : zlen f = pos) by (subst f; rewrite !zlen_app, !zlen_be16; unfold pos; lia).
  assert (Ep : padd (enc_hello c) pos = ext_body (EPsk l) ++ []) by (rewrite Em', app_nil_r; by apply padd_app). assert (0 <= pos) by (rewrite <- Lf'; apply zlen_nonneg).
  split; [done|]. split; [|intros i o Hi Ho; by apply (see_psk_offers (enc_hello c) pos l h1 [])].
  change (psk_partial_ch_off (see_psk pos l h1)) with (pos + 2 + zlen (enc_ids l)). rewrite Em'. cbn [ext_body]. rewrite (app_assoc f). f_equal. symmetry. apply ztake_app. rewrite zlen_app, zlen_vec16. lia.
Qed.

Lemma base_fields {A} (P : tls13_client_hello_t -> A) c : (forall v h, P (see_suite v h) = P h) ->
  P (base_hello c) = P ((empty_hello (zlen (enc_hello c))) {{ ch_random := c_random c; legacy_session_id := c_session c ++ padd (replicate 32 0) (zlen (c_session c)); legacy_session_id_len := zlen (c_session c) }}).
Proof. intros H. unfold base_hello. by apply each_keep. Qed.

Lemma see_exts_keep {A} (P : tls13_client_hello_t -> A) : (forall pos e h, P (see_ext pos e h) = P h) -> forall l pos h, P (see_exts pos l h) = P h.
Proof. intros Hs. induction l as [|e l IH]; intros pos h; [done|]. cbn [see_exts]. by rewrite IH, Hs. Qed.

(** A field of the result, as a fold over the items it comes from. *)
Ltac field_fold P g items := rewrite (see_exts_fold P g items); [rewrite base_fields by item|by_items].

Lemma sni_fold pos e h : ztake (sni_len (see_ext pos e h)) (sni (see_ext pos e h)) = foldl (fun a tn => if host_name tn then map lower (snd tn) else a) (ztake (sni_len h) (sni h)) (names_of e).
Proof.
  set (P := fun h => ztake (sni_len h) (sni h)). change (P (see_ext pos e h) = foldl (fun a tn => if host_name tn then map lower (snd tn) else a) (P h) (names_of e)).
  destruct e; cbn [see_ext names_of foldl]; try reflexivity; try (rewrite each_keep; [reflexivity|item]). apply each_fold. intros [t name] h'. unfold see_name, host_name. cbn [fst snd]. destruct (t =? 0); [|done].
  unfold P. cbn. apply ztake_app. unfold zlen. by rewrite length_map.
Qed.

Lemma psk_fold pos e h : psk_present (see_ext pos e h) = foldl (fun b _ => true) (psk_present h) (if is_psk e then [tt] else []).
Proof. destruct e; cbn [see_ext is_psk foldl]; try reflexivity; rewrite each_keep; (reflexivity || item). Qed.

Lemma exts_understood c : ch_ok c -> Forall byte_ok (enc_hello c) -> (forall pre k, c_exts c = pre ++ k -> shape_ok (see_exts (ext_pos c) pre (base_hello c))) -> understood c (see_exts (ext_pos c) (c_exts c) (base_hello c)).
Proof.
  intros Hc Hb Hpre. constructor.
  - rewrite (see_exts_keep ch_random) by by_items. by rewrite base_fields by item.
  - set (P := fun h => ztake (legacy_session_id_len h) (legacy_session_id h)). change (P (see_exts (ext_pos c) (c_exts c) (base_hello c)) = c_session c). rewrite (see_exts_keep P) by by_items. rewrite base_fields by item. by apply ztake_app.
  - rewrite (see_exts_keep offers_chacha_poly) by by_items. unfold base_hello. rewrite (each_fold offers_chacha_poly (fun b v => if v =? 0x1303 then true else b)) by item. by rewrite fold_any, orb_false_r.
  - field_fold offers_tls13 (fun (b : bool) (v : Z) => if v =? 0x0304 then true else b) versions_of. by rewrite fold_any, orb_false_r.
  - field_fold offers_x25519 (fun (b : bool) (gk : Z * list Z) => if x25519_share gk then true else b) shares_of. by rewrite fold_any, orb_false_r.
  - field_fold ecdhe_pubkey (fun (a : list Z) (gk : Z * list Z) => if x25519_share gk then snd gk else a) shares_of. by rewrite fold_latest.
  - field_fold offers_ed25519 (fun (b : bool) (v : Z) => if v =? 0x0807 then true else b) sigs_of. by rewrite fold_any, orb_false_r.
  - field_fold offers_rsa_pss_rsae_sha256 (fun (b : bool) (v : Z) => if v =? 0x0804 then true else b) sigs_of. by rewrite fold_any, orb_false_r.
  - field_fold offers_ecdsa_secp256r1_sha256 (fun (b : bool) (v : Z) => if v =? 0x0403 then true else b) sigs_of. by rewrite fold_any, orb_false_r.
  - field_fold offers_early_data (fun (b : bool) (_ : unit) => if (fun _ : unit => true) tt then true else b) early_of. by rewrite (fold_any (fun _ => true)), orb_false_r.
  - field_fold psk_dhe_ke_offered (fun (b : bool) (v : Z) => if v =? 1 then true else b) modes_of. by rewrite fold_any, orb_false_r.
  - rewrite (see_exts_fold (fun h => ztake (sni_len h) (sni h)) _ _ sni_fold). rewrite fold_latest. f_equal. by rewrite (base_fields (fun h => ztake (sni_len h) (sni h))) by item.
  - rewrite (see_exts_fold psk_present _ _ psk_fold). rewrite base_fields by item. rewrite (fold_any (fun _ => true)), orb_false_r. clear Hpre. induction (c_exts c) as [|e l IH]; [done|]. cbn [mbind list_bind existsb]. rewrite existsb_app, IH. by destruct (is_psk e).
  - intros pre l E. apply (last_psk c pre l); [done|done|]. by apply (Hpre pre [EPsk l]).
Qed.

Lemma prefix_shape c pre k : ch_ok c -> Forall byte_ok (enc_hello c) -> c_exts c = pre ++ k -> shape_ok (see_exts (ext_pos c) pre (base_hello c)).
Proof.
  intros Hc Hb E. destruct (cho_exts c Hc) as [H1 H2]. pose proof (zlen_hello c Hc) as Ln. rewrite E, ?enc_exts_app, ?zlen_app in *. apply Forall_app in H1 as [H1 _]. pose proof (zlen_nonneg (enc_exts k)).
  assert (0 <= ext_pos c) by (unfold ext_pos; pose proof (zlen_nonneg (c_session c)); pose proof (zlen_nonneg (enc16 (c_suites c))); pose proof (zlen_nonneg (c_compressions c)); lia).
  assert (Hbx : Forall byte_ok (enc_exts pre)).
  { unfold enc_hello, hello_body, vec16 in Hb. rewrite E, enc_exts_app in Hb. apply Forall_cons_1 in Hb as [_ Hb]. rewrite !Forall_app in Hb. tauto. }
  apply (parse_extensions_enc (replicate (Z.to_nat (ext_pos c)) 0 ++ enc_exts pre ++ []) (zlen (enc_hello c)) pre (Z.to_nat (zlen (enc_exts pre))) _ _ []); [done|done| |done| |lia|lia|by apply base_good].
  - intros a e k' E' Hp. pose proof (cho_psk_last c Hc a e (k' ++ k)) as H7. rewrite E, E', <- app_assoc in H7. by apply app_nil in H7 as [-> _].
  - apply padd_app. unfold zlen. rewrite length_replicate. lia.
Qed.

Lemma hello_parsed c rest : ch_ok c -> Forall byte_ok (enc_hello c) -> exists h, tls13_parse_client_hello (enc_hello c ++ rest) (zlen (enc_hello c)) = Ret h /\ understood c h.
Proof.
  intros Hc Hb. destruct (parse_enc c rest Hc Hb) as [E _]. eexists. split; [exact E|]. apply exts_understood; [done|done|]. intros pre k. by apply prefix_shape.
Qed.


Definition example_hello : client_hello :=
  mk_ch (replicate 32 7) [1; 2; 3] [0x1301; 0x1303] [0]
    [ESni [(0, lit "WWW.Example.org")]; EVersions [0x0304]; EShares [(0x0017, replicate 65 4); (0x001d, replicate 32 9)]; ESigs false [0x0403; 0x0807]; EOther 0x39 [1; 2]; EModes [1]; EPsk [mk_offer [5; 6] 70000 (replicate 32 8)]].


(** C20: The parser is safe on every input. Whatever bytes arrive, [tls13_parse_client_hello] terminates, reads nothing outside the message and writes nothing outside its output structure; what it accepts is well-typed (sizes of every field, at most 253 bytes of host name), and the identities, binders and truncation point it reports lie inside the message. *)
Theorem client_hello_safe msg n : Forall byte_ok msg -> 0 <= n <= zlen msg ->
  match tls13_parse_client_hello msg n with Ret h => hello_ok n h | Fail => True | Oob => False end.
Proof. exact (parse_client_hello_wp msg n). Qed.

Lemma client_hello_safe_witness : match tls13_parse_client_hello [1; 0; 0; 200; 3; 3; 255] 7 with Ret h => hello_ok 7 h | Fail => True | Oob => False end.
Proof. apply client_hello_safe; [by apply bytes_okb_ok|done]. Defined.
