(* ===== verification/TransportParams.v ===== *)
(** * QUIC transport parameters

    Models [userspace/quic/transport_params.c] (RFC 9000 section 18).  The
    struct has eleven [uint64_t] members, three connection-id members (a 20-byte
    array with its length) and a token; the members of one type are indexed by
    an enumeration, so a parameter is a constructor of [param] and an assignment
    [tp->m = v] is an update at [m]. *)

From Stdlib Require Import ZArith Lia.
From stdpp Require Import list numbers option.
From S2P Require Import Prelude Varint Frames.

Definition QUIC_TP_MAX_CID_LEN : Z := 20.
Definition QUIC_TP_STATELESS_RESET_TOKEN_LEN : Z := 16.

Inductive int_field :=
| max_idle_timeout_ms | max_udp_payload_size | initial_max_data
| initial_max_stream_data_bidi_local | initial_max_stream_data_bidi_remote | initial_max_stream_data_uni
| initial_max_streams_bidi | initial_max_streams_uni
| ack_delay_exponent | max_ack_delay_ms | active_connection_id_limit.

Inductive cid_field := original_dcid | initial_source_cid | retry_source_cid.

#[global] Instance int_field_eq_dec : EqDecision int_field.
Proof. solve_decision. Defined.
#[global] Instance cid_field_eq_dec : EqDecision cid_field.
Proof. solve_decision. Defined.

Inductive param := PInt (f : int_field) | PCid (c : cid_field) | PToken | PDisableMigration.

#[global] Instance param_eq_dec : EqDecision param.
Proof. solve_decision. Defined.

(** A connection-id member: the array and its length. *)
Record cid_t := mk_cid { cid_arr : list Z; cid_len : Z }.

Record quic_transport_params_t := mk_tp {
  tp_present : Z;
  tp_int : int_field -> Z;
  tp_cid : cid_field -> cid_t;
  tp_token : list Z
}.

Definition set_int (tp : quic_transport_params_t) (f : int_field) (v : Z) : quic_transport_params_t :=
  mk_tp (tp_present tp) (fun f' => if decide (f' = f) then v else tp_int tp f') (tp_cid tp) (tp_token tp).
Definition set_cid (tp : quic_transport_params_t) (c : cid_field) (v : cid_t) : quic_transport_params_t :=
  mk_tp (tp_present tp) (tp_int tp) (fun c' => if decide (c' = c) then v else tp_cid tp c') (tp_token tp).
Definition set_token (tp : quic_transport_params_t) (t : list Z) : quic_transport_params_t :=
  mk_tp (tp_present tp) (tp_int tp) (tp_cid tp) t.
Definition set_present (tp : quic_transport_params_t) (b : Z) : quic_transport_params_t :=
  mk_tp b (tp_int tp) (tp_cid tp) (tp_token tp).

Definition default_int (f : int_field) : Z :=
  match f with
  | max_udp_payload_size => 65527
  | ack_delay_exponent => 3
  | max_ack_delay_ms => 25
  | active_connection_id_limit => 2
  | _ => 0
  end.

Definition quic_tp_init_defaults : quic_transport_params_t :=
  mk_tp 0 default_int (fun _ => mk_cid (replicate 20 0) 0) (replicate 16 0).

(** [quic_tp_id_t]. *)
Definition tp_id (p : param) : Z :=
  match p with
  | PCid original_dcid => 0x00
  | PInt max_idle_timeout_ms => 0x01
  | PToken => 0x02
  | PInt max_udp_payload_size => 0x03
  | PInt initial_max_data => 0x04
  | PInt initial_max_stream_data_bidi_local => 0x05
  | PInt initial_max_stream_data_bidi_remote => 0x06
  | PInt initial_max_stream_data_uni => 0x07
  | PInt initial_max_streams_bidi => 0x08
  | PInt initial_max_streams_uni => 0x09
  | PInt ack_delay_exponent => 0x0a
  | PInt max_ack_delay_ms => 0x0b
  | PDisableMigration => 0x0c
  | PInt active_connection_id_limit => 0x0e
  | PCid initial_source_cid => 0x0f
  | PCid retry_source_cid => 0x10
  end.

(** The [QUIC_TP_F_*] bit position. *)
Definition tp_bit (p : param) : Z :=
  match p with
  | PCid original_dcid => 0
  | PInt max_idle_timeout_ms => 1
  | PToken => 2
  | PInt max_udp_payload_size => 3
  | PInt initial_max_data => 4
  | PInt initial_max_stream_data_bidi_local => 5
  | PInt initial_max_stream_data_bidi_remote => 6
  | PInt initial_max_stream_data_uni => 7
  | PInt initial_max_streams_bidi => 8
  | PInt initial_max_streams_uni => 9
  | PInt ack_delay_exponent => 10
  | PInt max_ack_delay_ms => 11
  | PDisableMigration => 12
  | PInt active_connection_id_limit => 13
  | PCid initial_source_cid => 14
  | PCid retry_source_cid => 15
  end.

Definition tp_flag (p : param) : Z := Z.shiftl 1 (tp_bit p).

(** The parameters in the order [quic_tp_encode] writes them. *)
Definition tp_order : list param :=
  [PCid original_dcid; PInt max_idle_timeout_ms; PToken; PInt max_udp_payload_size; PInt initial_max_data;
   PInt initial_max_stream_data_bidi_local; PInt initial_max_stream_data_bidi_remote;
   PInt initial_max_stream_data_uni; PInt initial_max_streams_bidi; PInt initial_max_streams_uni;
   PInt ack_delay_exponent; PInt max_ack_delay_ms; PDisableMigration; PInt active_connection_id_limit;
   PCid initial_source_cid; PCid retry_source_cid].

(** The range checks of section 18.2, the same in the encoder and the decoder. *)
Definition int_check (f : int_field) (v : Z) : bool :=
  match f with
  | max_udp_payload_size => negb (v <? 1200)
  | ack_delay_exponent => negb (20 <? v)
  | max_ack_delay_ms => negb (Z.shiftl 1 14 <=? v)
  | active_connection_id_limit => negb (v <? 2)
  | initial_max_streams_bidi | initial_max_streams_uni => negb (Z.shiftl 1 60 <? v)
  | _ => true
  end.

(** [tp->present & flag] *)
Definition has (tp : quic_transport_params_t) (p : param) : bool := negb (Z.land (tp_present tp) (tp_flag p) =? 0).

(** ** Encoding *)

Definition tp_put_varint (cap : Z) (w : list Z) (v : Z) : option (list Z) :=
  match quic_varint_encode (cap - zlen w) v with [] => None | bs => Some (w ++ bs) end.

Definition put_tlv_varint (cap : Z) (w : list Z) (id v : Z) : option (list Z) :=
  let vlen := quic_varint_size v in
  w ← tp_put_varint cap w id;
  w ← tp_put_varint cap w vlen;
  if cap - zlen w <? vlen then None
  else
    let bs := quic_varint_encode (cap - zlen w) v in
    if negb (zlen bs =? vlen) then None else Some (w ++ bs).

Definition put_tlv_bytes (cap : Z) (w : list Z) (id : Z) (p : list Z) (len : Z) : option (list Z) :=
  w ← tp_put_varint cap w id;
  w ← tp_put_varint cap w len;
  if cap - zlen w <? len then None else Some (w ++ ztake len p).

Definition put_tlv_empty (cap : Z) (w : list Z) (id : Z) : option (list Z) :=
  w ← tp_put_varint cap w id; tp_put_varint cap w 0.

(** The checks at the head of [quic_tp_encode]. *)
Definition param_check (tp : quic_transport_params_t) (p : param) : bool :=
  match p with
  | PInt f => int_check f (tp_int tp f)
  | PCid c => negb (QUIC_TP_MAX_CID_LEN <? cid_len (tp_cid tp c))
  | PToken | PDisableMigration => true
  end.

Definition put_param (cap : Z) (tp : quic_transport_params_t) (w : list Z) (p : param) : option (list Z) :=
  match p with
  | PInt f => put_tlv_varint cap w (tp_id p) (tp_int tp f)
  | PCid c => put_tlv_bytes cap w (tp_id p) (cid_arr (tp_cid tp c)) (cid_len (tp_cid tp c))
  | PToken => put_tlv_bytes cap w (tp_id p) (tp_token tp) QUIC_TP_STATELESS_RESET_TOKEN_LEN
  | PDisableMigration => put_tlv_empty cap w (tp_id p)
  end.

Fixpoint put_params (cap : Z) (tp : quic_transport_params_t) (w : list Z) (ps : list param) : option (list Z) :=
  match ps with
  | [] => Some w
  | p :: ps' =>
      w ← (if has tp p then put_param cap tp w p else Some w);
      put_params cap tp w ps'
  end.

Definition quic_tp_encode (tp : quic_transport_params_t) (out_cap : Z) : list Z :=
  if forallb (fun p => negb (has tp p) || param_check tp p) tp_order
  then finish (put_params out_cap tp [] tp_order)
  else [].

(** ** Decoding *)

Definition param_of_id (id : Z) : option param :=
  if id =? 0x00 then Some (PCid original_dcid)
  else if id =? 0x01 then Some (PInt max_idle_timeout_ms)
  else if id =? 0x02 then Some PToken
  else if id =? 0x03 then Some (PInt max_udp_payload_size)
  else if id =? 0x04 then Some (PInt initial_max_data)
  else if id =? 0x05 then Some (PInt initial_max_stream_data_bidi_local)
  else if id =? 0x06 then Some (PInt initial_max_stream_data_bidi_remote)
  else if id =? 0x07 then Some (PInt initial_max_stream_data_uni)
  else if id =? 0x08 then Some (PInt initial_max_streams_bidi)
  else if id =? 0x09 then Some (PInt initial_max_streams_uni)
  else if id =? 0x0a then Some (PInt ack_delay_exponent)
  else if id =? 0x0b then Some (PInt max_ack_delay_ms)
  else if id =? 0x0c then Some PDisableMigration
  else if id =? 0x0e then Some (PInt active_connection_id_limit)
  else if id =? 0x0f then Some (PCid initial_source_cid)
  else if id =? 0x10 then Some (PCid retry_source_cid)
  else None.

Definition tp_flag_for (id : Z) : Z :=
  match param_of_id id with Some p => tp_flag p | None => 0 end.

(** [n] is the decoder's return value, 0 when it fails. *)
Definition decode_full_varint (p : list Z) (len : Z) : res Z :=
  match quic_varint_decode p len with
  | Ret (n, v) => if negb (n =? len) then Fail else Ret v
  | Fail => if negb (0 =? len) then Fail else Ret 0
  | Oob => Oob
  end.

(** The [switch]: check the value and store it. *)
Definition store_param (tp : quic_transport_params_t) (p : param) (val : list Z) (len : Z)
  : res quic_transport_params_t :=
  match p with
  | PCid c =>
      if QUIC_TP_MAX_CID_LEN <? len then Fail
      else
        let! bytes := rdn val len in
        Ret (set_cid tp c (mk_cid (bytes ++ padd (cid_arr (tp_cid tp c)) len) (u8 len)))
  | PToken =>
      if negb (len =? QUIC_TP_STATELESS_RESET_TOKEN_LEN) then Fail
      else let! bytes := rdn val len in Ret (set_token tp bytes)
  | PDisableMigration => if negb (len =? 0) then Fail else Ret tp
  | PInt f =>
      let! v := decode_full_varint val len in
      if int_check f v then Ret (set_int tp f v) else Fail
  end.

(** One iteration of the loop, from [off] (the test [off < in_len] done). *)
Definition tp_step (p : list Z) (in_len off : Z) (tp : quic_transport_params_t)
  : res (Z * quic_transport_params_t) :=
  let! (n, id) := quic_varint_decode (padd p off) (in_len - off) in
  let off := off + n in
  let! (n, len) := quic_varint_decode (padd p off) (in_len - off) in
  let off := off + n in
  if in_len - off <? len then Fail
  else
    let val := padd p off in
    let off := off + len in
    match param_of_id id with
    | None => Ret (off, tp)
    | Some q =>
        if has tp q then Fail
        else
          let! tp := store_param tp q val len in
          Ret (off, set_present tp (Z.lor (tp_present tp) (tp_flag_for id)))
    end.

Fixpoint tp_loop (p : list Z) (in_len off : Z) (tp : quic_transport_params_t) (fuel : nat)
  : res quic_transport_params_t :=
  if in_len <=? off then Ret tp
  else match fuel with
  | O => Oob
  | S fuel' => let! (off, tp) := tp_step p in_len off tp in tp_loop p in_len off tp fuel'
  end.

(** Every iteration consumes at least two bytes, so [in_len] iterations are enough. *)
Definition quic_tp_decode (p : list Z) (in_len : Z) : res quic_transport_params_t :=
  tp_loop p in_len 0 quic_tp_init_defaults (Z.to_nat in_len).

(** ** What a parameter list means *)

(** The stored form of a parameter: an integer or a length, and an array. *)
Definition param_get (tp : quic_transport_params_t) (q : param) : Z * list Z :=
  match q with
  | PInt f => (tp_int tp f, [])
  | PCid c => (cid_len (tp_cid tp c), cid_arr (tp_cid tp c))
  | PToken => (0, tp_token tp)
  | PDisableMigration => (0, [])
  end.

(** [v] is a legal value for [q], and the stored form says what it says.  An
    integer parameter is one varint that fills its value, or an empty value. *)
Definition param_holds (q : param) (v : list Z) (g : Z * list Z) : Prop :=
  match q with
  | PInt f => int_check f g.1 = true /\ 0 <= g.1 <= QUIC_VARINT_MAX /\
      (v = [] /\ g.1 = 0 \/ 1 <= zlen v /\ be_acc 0 v = size_prefix (zlen v) * 2 ^ (8 * zlen v - 2) + g.1)
  | PCid _ => g.1 = zlen v /\ ztake g.1 g.2 = v /\ g.1 <= 20
  | PToken => g.2 = v /\ zlen v = 16
  | PDisableMigration => v = []
  end.

Definition tlv := (Z * list Z)%type.

Definition known (l : list tlv) : list param := omap (fun t : tlv => param_of_id t.1) l.

Record tp_inv (l : list tlv) (tp : quic_transport_params_t) : Prop := {
  ti_nodup : NoDup (known l);
  ti_has q : has tp q = true <-> q ∈ known l;
  ti_val id v q : (id, v) ∈ l -> param_of_id id = Some q -> param_holds q v (param_get tp q);
  ti_default q : q ∉ known l -> param_get tp q = param_get quic_tp_init_defaults q
}.

(** The bytes from [off] to [in_len] are the TLVs [l]. *)
Inductive tlvs_at (p : list Z) (in_len : Z) : Z -> list tlv -> Prop :=
| tlvs_end off : in_len <= off -> tlvs_at p in_len off []
| tlvs_cons off n1 id n2 len l :
    quic_varint_decode (padd p off) (in_len - off) = Ret (n1, id) ->
    quic_varint_decode (padd p (off + n1)) (in_len - (off + n1)) = Ret (n2, len) ->
    off + n1 + n2 + len <= in_len ->
    tlvs_at p in_len (off + n1 + n2 + len) l ->
    tlvs_at p in_len off ((id, ztake len (padd p (off + n1 + n2))) :: l).

Lemma tp_bit_inj q q' : tp_bit q = tp_bit q' -> q = q'.
Proof. destruct q as [[]|[]| |], q' as [[]|[]| |]; cbn; intros; try done; lia. Qed.

Lemma tp_bit_nonneg q : 0 <= tp_bit q.
Proof. destruct q as [[]|[]| |]; cbn; lia. Qed.

Lemma land_pow2 x k : 0 <= k -> Z.land x (2 ^ k) = if Z.testbit x k then 2 ^ k else 0.
Proof.
  intros Hk. apply Z.bits_inj'. intros n Hn. rewrite Z.land_spec, Z.pow2_bits_eqb by done.
  destruct (Z.eqb_spec k n) as [->|Hne].
  - destruct (Z.testbit x n); cbn; [by rewrite Z.pow2_bits_true|by rewrite Z.bits_0].
  - rewrite andb_false_r. destruct (Z.testbit x k); [by rewrite Z.pow2_bits_false|by rewrite Z.bits_0].
Qed.

Lemma has_testbit tp q : has tp q = Z.testbit (tp_present tp) (tp_bit q).
Proof.
  pose proof (tp_bit_nonneg q). unfold has, tp_flag. rewrite Z.shiftl_1_l, land_pow2 by done.
  destruct (Z.testbit _ _); [|done]. pose proof (Z.pow_pos_nonneg 2 (tp_bit q) ltac:(lia) H).
  by destruct (Z.eqb_spec (2 ^ tp_bit q) 0); [lia|].
Qed.

Lemma has_add tp b q q' :
  b = tp_flag q -> has (set_present tp (Z.lor (tp_present tp) b)) q' = true <-> has tp q' = true \/ q' = q.
Proof.
  intros ->. pose proof (tp_bit_nonneg q). rewrite !has_testbit. cbn. unfold tp_flag.
  rewrite Z.lor_spec, Z.shiftl_1_l, Z.pow2_bits_eqb, orb_true_iff, Z.eqb_eq by done.
  split; (intros [?|E]; [by left|right]); [symmetry; by apply tp_bit_inj|by rewrite E].
Qed.

Lemma param_of_tp_id q : param_of_id (tp_id q) = Some q.
Proof. by destruct q as [[]|[]| |]. Qed.

Lemma tp_id_vok q : vok (tp_id q).
Proof. unfold vok, QUIC_VARINT_MAX. destruct q as [[]|[]| |]; cbn; lia. Qed.

Lemma known_cons id v l : known ((id, v) :: l) = option_list (param_of_id id) ++ known l.
Proof. unfold known. cbn. by destruct (param_of_id id). Qed.

Lemma known_snoc l id v : known (l ++ [(id, v)]) = known l ++ option_list (param_of_id id).
Proof. unfold known. rewrite omap_app. cbn. by destruct (param_of_id id). Qed.

Lemma inv_init : tp_inv [] quic_tp_init_defaults.
Proof.
  constructor; [apply NoDup_nil_2| |intros ? ? ? []%elem_of_nil|done].
  intros q. rewrite has_testbit. cbn. rewrite Z.bits_0. by split; [|intros []%elem_of_nil].
Qed.

Lemma inv_skip l tp id v : tp_inv l tp -> param_of_id id = None -> tp_inv (l ++ [(id, v)]) tp.
Proof.
  intros [H1 H2 H3 H4] Hid. assert (E : known (l ++ [(id, v)]) = known l) by (rewrite known_snoc, Hid; apply app_nil_r).
  constructor; rewrite ?E; try done.
  intros id' v' q Hin Hq. apply elem_of_app in Hin as [?|Hin]; [by eapply H3|].
  apply list_elem_of_singleton in Hin. injection Hin as -> ->. congruence.
Qed.

(** Storing a new parameter extends the meaning. *)
Lemma inv_store l tp tp' id v q :
  tp_inv l tp -> param_of_id id = Some q -> has tp q = false ->
  tp_present tp' = tp_present tp -> param_holds q v (param_get tp' q) ->
  (forall q', q' <> q -> param_get tp' q' = param_get tp q') ->
  tp_inv (l ++ [(id, v)]) (set_present tp' (Z.lor (tp_present tp') (tp_flag_for id))).
Proof.
  intros [H1 H2 H3 H4] Hid Hh Hp Hv Hsame.
  assert (E : known (l ++ [(id, v)]) = known l ++ [q]) by (by rewrite known_snoc, Hid).
  assert (Hq : q ∉ known l) by (rewrite <- H2; congruence).
  assert (Hf : tp_flag_for id = tp_flag q) by (unfold tp_flag_for; by rewrite Hid).
  assert (Hg : forall b q', param_get (set_present tp' b) q' = param_get tp' q') by (by intros b [[]|[]| |]).
  constructor.
  - rewrite E. apply list.NoDup_app. split_and!; [done| |apply NoDup_singleton].
    intros x Hx Hx'. apply list_elem_of_singleton in Hx' as ->. done.
  - intros q'. rewrite has_add by done. rewrite E, elem_of_app, list_elem_of_singleton, <- H2.
    by rewrite !has_testbit, Hp.
  - intros id' v' q' Hin Hq'. rewrite Hg. apply elem_of_app in Hin as [Hin|Hin].
    + rewrite Hsame; [by eapply H3|]. intros ->. apply Hq. unfold known. apply list_elem_of_omap. by exists (id', v').
    + apply list_elem_of_singleton in Hin. injection Hin as -> ->. rewrite Hid in Hq'. by injection Hq' as ->.
  - intros q'. rewrite E, elem_of_app, list_elem_of_singleton, Hg. intros Hn.
    rewrite Hsame; [apply H4; tauto|tauto].
Qed.

(** ** The decoder *)

Lemma decode_full_wp val len :
  Forall byte_ok val -> 0 <= len <= zlen val ->
  wp (decode_full_varint val len) (fun v => 0 <= v <= QUIC_VARINT_MAX /\
    (ztake len val = [] /\ v = 0 \/
     1 <= zlen (ztake len val) /\
     be_acc 0 (ztake len val) = size_prefix (zlen (ztake len val)) * 2 ^ (8 * zlen (ztake len val) - 2) + v)).
Proof.
  intros Hv Hl. unfold decode_full_varint. pose proof (varint_decode_wp val len Hv Hl) as H.
  assert (Hz : zlen (ztake len val) = len) by (rewrite zlen_ztake by lia; lia).
  destruct (quic_varint_decode val len) as [[n v]| |]; [| |done].
  - destruct H as (? & ? & _ & E). destruct (Z.eqb_spec n len) as [->|]; [|done]. cbn [negb wp].
    split; [done|right]. rewrite Hz. split; [lia|done].
  - destruct (Z.eqb_spec 0 len) as [<-|]; [|done]. cbn. split; [unfold QUIC_VARINT_MAX; lia|by left].
Qed.

Definition store_spec (tp : quic_transport_params_t) (q : param) (v : list Z) (tp' : quic_transport_params_t) : Prop :=
  tp_present tp' = tp_present tp /\ param_holds q v (param_get tp' q) /\
  (forall q', q' <> q -> param_get tp' q' = param_get tp q').

Lemma store_param_wp tp q val len :
  Forall byte_ok val -> 0 <= len <= zlen val ->
  wp (store_param tp q val len) (store_spec tp q (ztake len val)).
Proof.
  intros Hv Hl. assert (Hz : zlen (ztake len val) = len) by (rewrite zlen_ztake by lia; lia).
  destruct q as [f|c| |]; cbn [store_param].
  - apply wp_bind. eapply wp_mono; [by apply decode_full_wp|]. intros v [Hb Hf]. cbn beta in *.
    destruct (int_check f v) eqn:Hc; [|done]. cbn [wp]. split_and!; [done| |].
    + cbn. rewrite decide_True by done. done.
    + intros [f'|c'| |] Hne; try done. cbn. rewrite decide_False by congruence. done.
  - unfold QUIC_TP_MAX_CID_LEN. zcase; [done|]. apply wp_bind, wp_rdn; [lia|]. cbn [wp]. split_and!; [done| |].
    + cbn. rewrite decide_True by done. cbn. rewrite u8_small by (unfold byte_ok; lia).
      split_and!; [by rewrite Hz|by rewrite ztake_app|lia].
    + intros [f'|c'| |] Hne; try done. cbn. rewrite decide_False by congruence. done.
  - unfold QUIC_TP_STATELESS_RESET_TOKEN_LEN. destruct (Z.eqb_spec len 16); [|done]. cbn [negb].
    apply wp_bind, wp_rdn; [lia|]. cbn [wp]. split_and!; [done|cbn; split; [done|lia]|]. by intros [f'|c'| |] Hne.
  - destruct (Z.eqb_spec len 0) as [->|]; [|done]. cbn. done.
Qed.

Section decoder.
  Context (p : list Z) (in_len : Z).
  Context (Hp : Forall byte_ok p) (Hlen : 0 <= in_len <= zlen p).

Lemma varint_at_wp off :
    0 <= off <= in_len ->
    wp (quic_varint_decode (padd p off) (in_len - off))
      (fun '(n, v) => 1 <= n /\ off + n <= in_len /\ 0 <= v <= QUIC_VARINT_MAX).
Proof using Hp Hlen.
    intros Ho. eapply wp_mono; [apply varint_decode_wp|]; [by apply Forall_padd|rewrite zlen_padd by lia; lia|].
    intros [n v] (? & ? & _). lia.
Qed.

  (** One iteration: safe, consumes a TLV, and keeps the meaning. *)
Definition step_spec (off : Z) (l : list tlv) : Z * quic_transport_params_t -> Prop := fun '(off', tp') =>
    off < off' <= in_len /\
    exists id v, tp_inv (l ++ [(id, v)]) tp' /\
      (forall l', tlvs_at p in_len off' l' -> tlvs_at p in_len off ((id, v) :: l')).

Lemma tp_step_wp off tp l :
    0 <= off < in_len -> tp_inv l tp -> wp (tp_step p in_len off tp) (step_spec off l).
Proof using Hp Hlen.
    intros Ho Hinv. unfold tp_step.
    apply wp_bind. eapply wp_mono; [apply wp_conj, varint_at_wp; lia|]. intros [n1 id] (E1 & ? & ? & ?). cbn beta iota.
    apply wp_bind. eapply wp_mono; [apply wp_conj, varint_at_wp; lia|]. intros [n2 len] (E2 & ? & ? & ?). cbn beta iota zeta.
    zcase; [done|].
    assert (Ht : forall l', tlvs_at p in_len (off + n1 + n2 + len) l' ->
      tlvs_at p in_len off ((id, ztake len (padd p (off + n1 + n2))) :: l')).
    { intros l' Hl'. eapply tlvs_cons; [done|done|lia|done]. }
    destruct (param_of_id id) as [q|] eqn:Hq.
    - destruct (has tp q) eqn:Hh; [done|]. apply wp_bind. eapply wp_mono; [apply store_param_wp|].
      { by apply Forall_padd. } { rewrite zlen_padd by lia. lia. }
      intros tp' (S1 & S2 & S3). cbn [wp]. split; [lia|]. exists id. eexists. split; [|exact Ht]. by eapply inv_store.
    - cbn [wp]. split; [lia|]. exists id. eexists. split; [|exact Ht]. by apply inv_skip.
Qed.

Lemma tp_loop_wp fuel : forall off tp l,
    0 <= off <= in_len -> in_len - off <= Z.of_nat fuel -> tp_inv l tp ->
    wp (tp_loop p in_len off tp fuel) (fun tp' => exists l', tlvs_at p in_len off l' /\ tp_inv (l ++ l') tp').
Proof using Hp Hlen.
    induction fuel as [|fuel IH]; intros off tp l Ho Hf Hinv; cbn [tp_loop];
      (destruct (Z.leb_spec in_len off) as [|]; [exists []; rewrite app_nil_r; split; [by constructor|done]|]); [lia|].
    apply wp_bind. eapply wp_mono; [apply (tp_step_wp off tp l); [lia|done]|]. intros [off' tp'] (Ho' & id & v & Hinv' & Ht). cbn beta iota.
    eapply wp_mono; [apply (IH off' tp' _ ltac:(lia) ltac:(lia) Hinv')|].
    intros tp'' (l' & Hl' & Hi). exists ((id, v) :: l'). split; [by apply Ht|]. by rewrite <- app_assoc in Hi.
Qed.

Lemma tp_decode_wp :
    wp (quic_tp_decode p in_len) (fun tp => exists l, tlvs_at p in_len 0 l /\ tp_inv l tp).
Proof using Hp Hlen. apply (tp_loop_wp _ 0 _ []); [lia|lia|apply inv_init]. Qed.
End decoder.

(** ** The encoder *)

Definition tlv_bytes (t : tlv) : list Z := vbytes t.1 ++ vbytes (zlen t.2) ++ t.2.

(** The value the encoder writes for [q]. *)
Definition param_bytes (tp : quic_transport_params_t) (q : param) : list Z :=
  match q with
  | PInt f => vbytes (tp_int tp f)
  | PCid c => ztake (cid_len (tp_cid tp c)) (cid_arr (tp_cid tp c))
  | PToken => tp_token tp
  | PDisableMigration => []
  end.

Definition param_ok (tp : quic_transport_params_t) (q : param) : Prop :=
  match q with
  | PInt f => vok (tp_int tp f) /\ int_check f (tp_int tp f) = true
  | PCid c => 0 <= cid_len (tp_cid tp c) <= 20 /\ cid_len (tp_cid tp c) <= zlen (cid_arr (tp_cid tp c)) /\
      Forall byte_ok (cid_arr (tp_cid tp c))
  | PToken => zlen (tp_token tp) = 16 /\ Forall byte_ok (tp_token tp)
  | PDisableMigration => True
  end.

Definition tp_tlvs (tp : quic_transport_params_t) (ps : list param) : list tlv :=
  map (fun q => (tp_id q, param_bytes tp q)) (List.filter (has tp) ps).

(** What the encoder is asked to write. *)
Definition tp_wire (tp : quic_transport_params_t) : list Z := concat (map tlv_bytes (tp_tlvs tp tp_order)).

Lemma tp_put_varint_data cap w v : vok v -> zlen w <= cap -> tp_put_varint cap w v = put_data cap w (vbytes v).
Proof.
  intros Hv Hw. destruct (vbytes_size v Hv) as [Hs ?]. unfold tp_put_varint, put_data. rewrite vbytes_any_cap, Hs by done.
  destruct (Z.leb_spec (quic_varint_size v) (cap - zlen w)), (Z.ltb_spec (cap - zlen w) (quic_varint_size v)); try lia; [|done].
  destruct (vbytes v) eqn:E; [|done]. rewrite zlen_nil in Hs. lia.
Qed.

Lemma put_data_le cap w l w' : put_data cap w l = Some w' -> zlen w' <= cap.
Proof. unfold put_data. intros E. zcase_in E; [done|]. injection E as <-. rewrite zlen_app. lia. Qed.

(** Id and length, then whatever follows. *)
Lemma put_header cap w id len v (k : list Z -> option (list Z)) :
  vok id -> vok len -> zlen w <= cap ->
  (forall w', zlen w' <= cap -> k w' = put_data cap w' v) ->
  (w ← tp_put_varint cap w id; w ← tp_put_varint cap w len; k w) = put_data cap w (vbytes id ++ vbytes len ++ v).
Proof.
  intros Hi Hl Hw Hk. rewrite tp_put_varint_data, <- !put_data_bind by done.
  destruct (put_data cap w (vbytes id)) as [w1|] eqn:E1; cbn [mbind option_bind]; [|done]. apply put_data_le in E1.
  rewrite tp_put_varint_data, <- put_data_bind by done.
  destruct (put_data cap w1 (vbytes len)) as [w2|] eqn:E2; cbn [mbind option_bind]; [|done]. apply put_data_le in E2.
  by apply Hk.
Qed.

Lemma small_vok n : 0 <= n <= 64 -> vok n.
Proof. unfold vok, QUIC_VARINT_MAX. lia. Qed.

Lemma put_param_data cap tp w q :
  param_ok tp q -> zlen w <= cap -> put_param cap tp w q = put_data cap w (tlv_bytes (tp_id q, param_bytes tp q)).
Proof.
  intros Hq Hw. pose proof (tp_id_vok q) as Hid. unfold tlv_bytes.
  destruct q as [f|c| |]; cbn [put_param param_bytes fst snd]; cbn [param_ok] in Hq.
  - destruct Hq as [Hv _]. destruct (vbytes_size _ Hv) as [Hs ?]. rewrite Hs.
    unfold put_tlv_varint. cbv zeta. apply put_header; [done|apply small_vok; lia|done|].
    intros w' Hw'. rewrite vbytes_any_cap by done. unfold put_data. rewrite Hs.
    destruct (Z.ltb_spec (cap - zlen w') (quic_varint_size (tp_int tp f))); [done|].
    destruct (Z.leb_spec (quic_varint_size (tp_int tp f)) (cap - zlen w')); [|lia].
    by rewrite Hs, Z.eqb_refl.
  - destruct Hq as (Hl & Hl' & _).
    assert (Hz : zlen (ztake (cid_len (tp_cid tp c)) (cid_arr (tp_cid tp c))) = cid_len (tp_cid tp c))
      by (rewrite zlen_ztake by lia; lia).
    rewrite Hz. apply put_header; [done|apply small_vok; lia|done|]. intros w' _. unfold put_data. by rewrite Hz.
  - destruct Hq as [Hz _]. rewrite Hz. apply put_header; [done|apply small_vok; lia|done|].
    intros w' _. unfold put_data, QUIC_TP_STATELESS_RESET_TOKEN_LEN. rewrite Hz. by rewrite ztake_all by lia.
  - unfold put_tlv_empty. change (zlen (@nil Z)) with 0.
    rewrite <- (put_header cap w (tp_id PDisableMigration) 0 [] Some); [|done|apply small_vok; lia|done|].
    + destruct (tp_put_varint cap w _) as [w1|]; [|done]. cbn. by destruct (tp_put_varint cap w1 0).
    + intros w' Hw'. unfold put_data. rewrite zlen_nil, app_nil_r. by destruct (Z.ltb_spec (cap - zlen w') 0); [lia|].
Qed.

Lemma put_params_data cap tp ps : forall w,
  Forall (fun q => has tp q = true -> param_ok tp q) ps -> zlen w <= cap ->
  put_params cap tp w ps = put_data cap w (concat (map tlv_bytes (tp_tlvs tp ps))).
Proof.
  induction ps as [|q ps IH]; intros w Hok Hw; cbn [put_params].
  { cbn. unfold put_data. rewrite zlen_nil, app_nil_r. by destruct (Z.ltb_spec (cap - zlen w) 0); [lia|]. }
  apply Forall_cons_1 in Hok as [Hq Hok]. unfold tp_tlvs. cbn [List.filter].
  destruct (has tp q) eqn:Hh; cbn [mbind option_bind map concat]; [|by apply IH].
  rewrite put_param_data, <- put_data_bind by auto. destruct (put_data cap w _) as [w'|] eqn:E; [|done].
  cbn [mbind option_bind]. apply IH; [done|]. by eapply put_data_le.
Qed.

Definition tp_ok (tp : quic_transport_params_t) : Prop := forall q, has tp q = true -> param_ok tp q.

Lemma tp_encode_spec tp cap :
  tp_ok tp -> 0 <= cap -> quic_tp_encode tp cap = if zlen (tp_wire tp) <=? cap then tp_wire tp else [].
Proof.
  intros Hok Hc. unfold quic_tp_encode.
  assert (E : forallb (fun q => negb (has tp q) || param_check tp q) tp_order = true).
  { apply forallb_forall. intros q _. destruct (has tp q) eqn:Hh; [|done]. specialize (Hok q Hh). cbn.
    destruct q as [f|c| |]; cbn in *; [tauto| |done|done]. unfold QUIC_TP_MAX_CID_LEN. by destruct (Z.ltb_spec 20 (cid_len (tp_cid tp c))); [lia|]. }
  rewrite E, put_params_data; [apply finish_put| |by rewrite zlen_nil].
  apply list.Forall_forall. intros q _. apply Hok.
Qed.

(** ** Decoding what was encoded *)

(** The values the decoder accepts for [q] (and the encoder writes). *)
Definition legal (q : param) (v : list Z) : Prop :=
  match q with
  | PInt f => exists n, vok n /\ int_check f n = true /\ v = vbytes n
  | PCid _ => zlen v <= 20
  | PToken => zlen v = 16
  | PDisableMigration => v = []
  end.

Lemma store_legal tp q v rest :
  legal q v -> Forall byte_ok (v ++ rest) ->
  exists tp', store_param tp q (v ++ rest) (zlen v) = Ret tp' /\ store_spec tp q v tp'.
Proof.
  intros Hq Hb. pose proof (zlen_nonneg v). pose proof (zlen_nonneg rest).
  pose proof (store_param_wp tp q (v ++ rest) (zlen v) Hb) as H1. rewrite zlen_app, ztake_app in H1 by done.
  specialize (H1 ltac:(lia)).
  destruct (store_param tp q (v ++ rest) (zlen v)) eqn:E; [by eexists| |done]. exfalso.
  destruct q as [f|c| |]; cbn [store_param legal] in *.
  - destruct Hq as (n & Hn & Hc & ->). destruct (vbytes_size n Hn) as [Hs ?]. unfold decode_full_varint in E.
    rewrite Hs in E. unfold vbytes in E. rewrite varint_encode_decode, Z.eqb_refl in E by (done || lia).
    cbn [negb rbind] in E. by rewrite Hc in E.
  - unfold QUIC_TP_MAX_CID_LEN in E. destruct (Z.ltb_spec 20 (zlen v)); [lia|]. by rewrite rdn_app in E.
  - unfold QUIC_TP_STATELESS_RESET_TOKEN_LEN in E. rewrite Hq in E. cbn [Z.eqb Pos.eqb negb] in E. by rewrite rdn_app in E.
  - by subst v.
Qed.

Lemma tp_step_legal p in_len off tp q v rest :
  Forall byte_ok p -> in_len <= zlen p -> 0 <= off -> off + zlen (tlv_bytes (tp_id q, v)) <= in_len ->
  padd p off = tlv_bytes (tp_id q, v) ++ rest -> legal q v -> zlen v <= 64 -> has tp q = false ->
  exists tp', tp_step p in_len off tp = Ret (off + zlen (tlv_bytes (tp_id q, v)), set_present tp' (Z.lor (tp_present tp') (tp_flag_for (tp_id q)))) /\
    store_spec tp q v tp' /\ padd p (off + zlen (tlv_bytes (tp_id q, v))) = rest.
Proof.
  intros Hb Hlen Ho Hin E Hv Hl Hh. unfold tlv_bytes in *. cbn [fst snd] in *. rewrite !zlen_app in Hin.
  pose proof (zlen_nonneg v) as Hv0. pose proof (zlen_nonneg rest) as Hr0.
  assert (Hvl : vok (zlen v)) by (apply small_vok; lia).
  destruct (vbytes_size _ (tp_id_vok q)) as [S1 B1], (vbytes_size _ Hvl) as [S2 B2].
  pose proof (f_equal zlen E) as Hz. rewrite zlen_padd, !zlen_app in Hz by lia.
  rewrite <- !app_assoc in E. unfold tp_step. rewrite E. unfold vbytes at 1.
  rewrite varint_encode_decode by (apply tp_id_vok || lia). cbn [rbind]. cbv zeta.
  rewrite <- S1, <- padd_padd, E, padd_app by (done || lia). unfold vbytes at 1.
  rewrite varint_encode_decode by (done || lia). cbn [rbind].
  rewrite <- S2, <- (padd_padd p), <- (padd_padd p), E, padd_app, padd_app by (done || lia).
  destruct (Z.ltb_spec (in_len - (off + zlen (vbytes (tp_id q)) + zlen (vbytes (zlen v)))) (zlen v)); [lia|].
  rewrite param_of_tp_id, Hh.
  destruct (store_legal tp q v rest Hv) as (tp' & Es & Hs).
  { apply (Forall_padd _ _ off) in Hb. rewrite E in Hb. apply Forall_app in Hb as [_ Hb]. by apply Forall_app in Hb as [_ Hb]. }
  exists tp'. rewrite Es. cbn [rbind]. split_and!; [|done|].
  - do 2 f_equal. rewrite !zlen_app. lia.
  - rewrite !zlen_app, <- padd_padd, E by lia. rewrite !app_assoc. apply padd_app. rewrite !zlen_app. lia.
Qed.

Lemma tp_loop_legal p in_len rest ts : forall off acc l fuel,
  Forall byte_ok p -> in_len <= zlen p -> 0 <= off -> off + zlen (concat (map tlv_bytes ts)) = in_len -> in_len - off <= Z.of_nat fuel ->
  padd p off = concat (map tlv_bytes ts) ++ rest ->
  Forall (fun t : tlv => exists q, t.1 = tp_id q /\ legal q t.2 /\ zlen t.2 <= 64) ts ->
  tp_inv l acc -> NoDup (known l ++ known ts) ->
  exists tp', tp_loop p in_len off acc fuel = Ret tp' /\ tp_inv (l ++ ts) tp'.
Proof.
  induction ts as [|[id v] ts IH]; intros off acc l fuel Hb Hlen Ho Hin Hf Hp Hts Hinv Hnd; cbn [map concat] in Hp, Hin.
  - change (zlen (@nil Z)) with 0 in Hin. exists acc. rewrite app_nil_r. split; [|done]. destruct fuel; cbn; by destruct (Z.leb_spec in_len off); [|lia].
  - apply Forall_cons_1 in Hts as [(q & Eid & Hq & Hl) Hts]. cbn in Eid, Hq, Hl. subst id.
    assert (Hh : has acc q = false).
    { apply not_true_iff_false. intros Hh. apply (ti_has _ _ Hinv) in Hh. apply list.NoDup_app in Hnd as (_ & Hnd & _).
      apply (Hnd q Hh). rewrite known_cons, param_of_tp_id. by left. }
    rewrite <- app_assoc in Hp. rewrite zlen_app in Hin. pose proof (zlen_nonneg (concat (map tlv_bytes ts))).
    destruct (tp_step_legal p in_len off acc q v _ Hb Hlen ltac:(lia) ltac:(lia) Hp Hq Hl Hh) as (tp' & Es & (S1 & S2 & S3) & Hrest).
    assert (Hz : 0 < zlen (tlv_bytes (tp_id q, v))).
    { unfold tlv_bytes. cbn [fst]. destruct (vbytes_size _ (tp_id_vok q)). rewrite !zlen_app.
      pose proof (zlen_nonneg (vbytes (zlen (tp_id q, v).2))). pose proof (zlen_nonneg (tp_id q, v).2). lia. }
    destruct (IH (off + zlen (tlv_bytes (tp_id q, v))) (set_present tp' (Z.lor (tp_present tp') (tp_flag_for (tp_id q))))
      (l ++ [(tp_id q, v)]) (pred fuel)) as (tp'' & El & Hi); [done|done|lia|lia|lia|done|done| | |].
    + by eapply inv_store; [|apply param_of_tp_id|..].
    + rewrite known_snoc. by rewrite known_cons, app_assoc in Hnd.
    + exists tp''. rewrite <- app_assoc in Hi. split; [|exact Hi].
      destruct fuel as [|fuel]; [lia|]. cbn [tp_loop]. destruct (Z.leb_spec in_len off); [lia|].
      rewrite Es. cbn [rbind]. exact El.
Qed.

Lemma vbytes_value n : vok n ->
  be_acc 0 (vbytes n) = size_prefix (zlen (vbytes n)) * 2 ^ (8 * zlen (vbytes n) - 2) + n.
Proof.
  intros Hn. destruct (vbytes_size n Hn) as [-> ?]. unfold vbytes. rewrite varint_encode_be by (done || lia).
  apply be_val_bytes. rewrite Z2Nat.id by lia. unfold vok in Hn.
  destruct (varint_size_cases n Hn) as [[-> ?]|[[-> ?]|[[-> ?]|[-> ?]]]]; cbn [size_prefix Z.eqb Pos.eqb]; lia.
Qed.

Lemma known_tlvs tp ps : known (tp_tlvs tp ps) = List.filter (has tp) ps.
Proof.
  unfold tp_tlvs. induction ps as [|q ps IH]; [done|]. cbn [List.filter]. destruct (has tp q); [|done].
  cbn [map]. by rewrite known_cons, param_of_tp_id, IH.
Qed.

Lemma tp_order_all q : q ∈ tp_order.
Proof. apply list_elem_of_In. destruct q as [[]|[]| |]; cbn; tauto. Qed.

Lemma tp_order_nodup : NoDup tp_order.
Proof. apply (bool_decide_unpack _). by vm_compute. Qed.

Lemma NoDup_listfilter {A} (f : A -> bool) (l : list A) : NoDup l -> NoDup (List.filter f l).
Proof.
  induction 1 as [|x l Hx Hl IH]; cbn; [apply NoDup_nil_2|]. destruct (f x); [|done].
  apply NoDup_cons_2; [|done]. rewrite list_elem_of_In in *. intros [H _]%filter_In. done.
Qed.

Lemma in_tlvs tp q : has tp q = true -> (tp_id q, param_bytes tp q) ∈ tp_tlvs tp tp_order.
Proof.
  intros Hq. apply list_elem_of_In, in_map_iff. exists q. split; [done|]. apply filter_In. split; [|done].
  apply list_elem_of_In, tp_order_all.
Qed.

Lemma param_bytes_legal tp q :
  param_ok tp q -> legal q (param_bytes tp q) /\ zlen (param_bytes tp q) <= 64 /\ Forall byte_ok (param_bytes tp q).
Proof.
  destruct q as [f|c| |]; cbn.
  - intros [Hv Hc]. destruct (vbytes_size _ Hv). split_and!; [by eexists|lia|apply varint_encode_bytes].
  - intros (Hl & Ha & Hb). rewrite zlen_ztake by lia. split_and!; [lia|lia|by apply Forall_ztake].
  - intros [Hz Hb]. split_and!; [done|lia|done].
  - intros _. split_and!; [done|rewrite zlen_nil; lia|apply Forall_nil_2].
Qed.

Lemma tp_wire_bytes tp : tp_ok tp -> Forall byte_ok (tp_wire tp).
Proof.
  intros Hok. unfold tp_wire. apply Forall_concat, List.Forall_map, list.Forall_forall.
  intros [id v] Hin. apply list_elem_of_In, in_map_iff in Hin as (q & [= <- <-] & [_ Hq]%filter_In).
  destruct (param_bytes_legal tp q (Hok q Hq)) as (_ & _ & Hb). unfold tlv_bytes. cbn.
  rewrite !Forall_app. split_and!; [apply varint_encode_bytes..|done].
Qed.

Lemma tp_decode_wire tp rest :
  tp_ok tp -> Forall byte_ok rest -> exists tp', quic_tp_decode (tp_wire tp ++ rest) (zlen (tp_wire tp)) = Ret tp' /\ tp_inv (tp_tlvs tp tp_order) tp'.
Proof.
  intros Hok Hr. pose proof (zlen_nonneg (tp_wire tp)).
  apply (tp_loop_legal _ _ rest (tp_tlvs tp tp_order) 0 quic_tp_init_defaults []);
    [apply Forall_app; split; [by apply tp_wire_bytes|done]|rewrite zlen_app; pose proof (zlen_nonneg rest); lia|lia|done|lia|by rewrite padd_0| |apply inv_init|].
  - apply List.Forall_map, list.Forall_forall. intros q [_ Hq]%list_elem_of_In%filter_In.
    destruct (param_bytes_legal tp q (Hok q Hq)) as (? & ? & _). by exists q.
  - change (known []) with (@nil param). cbn [app]. rewrite known_tlvs. apply NoDup_listfilter, tp_order_nodup.
Qed.

(** The value of a parameter: an integer, or a byte string and its length. *)
Definition param_value (tp : quic_transport_params_t) (q : param) : Z * list Z :=
  match q with
  | PInt f => (tp_int tp f, [])
  | PCid c => (cid_len (tp_cid tp c), ztake (cid_len (tp_cid tp c)) (cid_arr (tp_cid tp c)))
  | PToken => (16, tp_token tp)
  | PDisableMigration => (0, [])
  end.

Lemma holds_value tp tp' q :
  param_ok tp q -> param_holds q (param_bytes tp q) (param_get tp' q) -> param_value tp' q = param_value tp q.
Proof.
  destruct q as [f|c| |]; cbn [param_ok param_bytes param_get param_holds param_value fst snd].
  - intros [Hv _] (_ & _ & [[E _]|[_ E]]).
    + destruct (vbytes_size _ Hv). rewrite E, zlen_nil in *. lia.
    + f_equal. rewrite vbytes_value in E by done. lia.
  - intros (Hl & Ha & _) (E & Et & _). rewrite Et, E, zlen_ztake by lia. f_equal. lia.
  - intros _ [-> _]. done.
  - done.
Qed.

(** ** Properties *)

(** What comes back of the parameters of [tp]. *)
Definition same_params (tp tp' : quic_transport_params_t) : Prop :=
  forall q, has tp' q = has tp q /\ param_value tp' q = if has tp q then param_value tp q else param_value quic_tp_init_defaults q.

Lemma tp_wire_values tp rest : tp_ok tp -> Forall byte_ok rest -> exists tp', quic_tp_decode (tp_wire tp ++ rest) (zlen (tp_wire tp)) = Ret tp' /\ same_params tp tp'.
Proof.
  intros Hok Hr. destruct (tp_decode_wire tp rest Hok Hr) as (tp' & E & [_ Hh Hv Hd]). exists tp'. split; [done|].
  rewrite known_tlvs in *. intros q.
  assert (Hq : q ∈ List.filter (has tp) tp_order <-> has tp q = true).
  { rewrite list_elem_of_In, filter_In, <- list_elem_of_In. pose proof (tp_order_all q). tauto. }
  split; [apply eq_bool_prop_intro; rewrite !Is_true_true, Hh; done|].
  destruct (has tp q) eqn:E'.
  - apply holds_value; [by apply Hok|]. eapply Hv; [by apply in_tlvs|apply param_of_tp_id].
  - assert (Hg : param_get tp' q = param_get quic_tp_init_defaults q) by (apply Hd; rewrite Hq; done).
    clear -Hg. destruct q; cbn [param_get param_value] in *; [done| |by injection Hg as ->|done].
    by injection Hg as -> ->.
Qed.

(** Transport parameters survive a round trip.  For every struct whose
    present members are in range and every buffer large enough,
    [quic_tp_decode] accepts what [quic_tp_encode] wrote, whatever follows it; exactly the
    parameters marked present come back present, with the same values, and
    every other one has its RFC 9000 default. *)
Theorem tp_roundtrip tp cap rest :
  tp_ok tp -> zlen (tp_wire tp) <= cap -> Forall byte_ok rest ->
  let b := quic_tp_encode tp cap in
  exists tp', quic_tp_decode (b ++ rest) (zlen b) = Ret tp' /\
    forall q, has tp' q = has tp q /\
      param_value tp' q = if has tp q then param_value tp q else param_value quic_tp_init_defaults q.
Proof.
  intros Hok Hc Hr. pose proof (zlen_nonneg (tp_wire tp)). cbv zeta. rewrite tp_encode_spec by (done || lia).
  destruct (Z.leb_spec (zlen (tp_wire tp)) cap); [|lia]. by apply tp_wire_values.
Qed.

Definition tp_example : quic_transport_params_t :=
  set_present (set_cid (set_int (set_int quic_tp_init_defaults initial_max_data 1048576) max_ack_delay_ms 20)
    initial_source_cid (mk_cid [1; 2; 3; 4; 0; 0; 0; 0; 0; 0; 0; 0; 0; 0; 0; 0; 0; 0; 0; 0] 4))
    (Z.lor (tp_flag (PInt initial_max_data)) (Z.lor (tp_flag (PInt max_ack_delay_ms))
       (Z.lor (tp_flag PDisableMigration) (tp_flag (PCid initial_source_cid))))).

Lemma tp_roundtrip_witness :
  quic_tp_encode tp_example 64 = [4; 4; 0x80; 0x10; 0; 0; 11; 1; 20; 12; 0; 15; 4; 1; 2; 3; 4] /\
  exists tp', quic_tp_decode (quic_tp_encode tp_example 64 ++ [255]) 17 = Ret tp' /\ tp_int tp' initial_max_data = 1048576.
Proof.
  split; [reflexivity|].
  destruct (tp_roundtrip tp_example 64 [255]) as (tp' & E & H).
  - intros [[]|[]| |]; vm_compute; try discriminate; intros _; repeat split; try discriminate; repeat constructor; discriminate.
  - vm_compute. discriminate.
  - by repeat constructor.
  - exists tp'. split; [exact E|]. destruct (H (PInt initial_max_data)) as [_ Hv].
    vm_compute in Hv. injection Hv as Hv. exact Hv.
Defined.



(** ** Integers outside the varint range

    [quic_varint_size] is 0 for a value above 2^62-1 and so is the number of
    bytes [quic_varint_encode] writes, so [put_tlv_varint] emits the parameter
    with an empty value; [decode_full_varint] accepts an empty value as 0. *)
Theorem tp_oversized_becomes_zero :
  let tp := set_present (set_int quic_tp_init_defaults initial_max_data (2 ^ 62)) (tp_flag (PInt initial_max_data)) in
  quic_tp_encode tp 64 = [4; 0] /\
  exists tp', quic_tp_decode [4; 0] 2 = Ret tp' /\ has tp' (PInt initial_max_data) = true /\ tp_int tp' initial_max_data = 0.
Proof. split; [reflexivity|]. eexists. split_and!; reflexivity. Qed.
