(* ===== verification/ConnHello.v ===== *)
(** * The ClientHello of a QUIC connection

    [userspace/quic/tls_ext.c], the transport-parameters extension of a TLS
    message, and [quic_conn_initial_extract_client_hello] of
    [userspace/quic/conn.c], which takes the client's message out of the Initial
    stream.  The extraction composes the reassembler of [CryptoStream], the
    parser of [TlsHello] and the decoder of [TransportParams].  A pointer into a
    message is an offset. *)

From Stdlib Require Import ZArith Lia String.
From stdpp Require Import list numbers option.
From coqutil Require Import Datatypes.RecordSetters.
Import DoubleBraceUpdate.
From S2P Require Import Prelude Util Words Varint CryptoStream Stream Frames Packet Conn ConnSafety TlsHello TlsHelloProps TlsHelloTheorems TransportParams.

(** ** [tls_ext.c] *)

Definition QUIC_TLS_EXT_TRANSPORT_PARAMETERS : Z := 0x0039.

(** The number of bytes written (0 is an error) and the output buffer. *)
Definition quic_tls_ext_emit_tp (out : list Z) (out_cap : Z) (tp_blob : list Z) (tp_blob_len : Z) : res (Z * list Z) :=
  if 0xffff <? tp_blob_len then Ret (0, out)
  else if out_cap <? 4 + tp_blob_len then Ret (0, out)
  else
    let! out := wr out 0 (u8 (Z.shiftr QUIC_TLS_EXT_TRANSPORT_PARAMETERS 8)) in
    let! out := wr out 1 (u8 (Z.land QUIC_TLS_EXT_TRANSPORT_PARAMETERS 0xff)) in
    let! out := wr out 2 (u8 (Z.shiftr tp_blob_len 8)) in
    let! out := wr out 3 (u8 (Z.land tp_blob_len 0xff)) in
    let! out := if negb (tp_blob_len =? 0) then let! d := rdn tp_blob tp_blob_len in blit out 4 d else Ret out in
    Ret (4 + tp_blob_len, out).

(** [while (off < ext_block_len)]: every round consumes at least four bytes. *)
Fixpoint find_tp_loop (fuel : nat) (ext_block : list Z) (ext_block_len off : Z) (found : option (Z * Z)) : res (option (Z * Z)) :=
  if off <? ext_block_len then
    match fuel with
    | O => Oob
    | S fuel =>
        if ext_block_len - off <? 4 then Fail
        else
          let! t1 := rd ext_block off in let! t0 := rd ext_block (off + 1) in
          let! l1 := rd ext_block (off + 2) in let! l0 := rd ext_block (off + 3) in
          let type := u16 (Z.lor (Z.shiftl t1 8) t0) in
          let len := u16 (Z.lor (Z.shiftl l1 8) l0) in
          let off := off + 4 in
          if ext_block_len - off <? len then Fail
          else if type =? QUIC_TLS_EXT_TRANSPORT_PARAMETERS then
            match found with
            | Some _ => Fail
            | None => find_tp_loop fuel ext_block ext_block_len (off + len) (Some (off, len))
            end
          else find_tp_loop fuel ext_block ext_block_len (off + len) found
    end
  else Ret found.

(** [Ret None] is 0, [Ret (Some _)] is 1 with the body, [Fail] is -1. *)
Definition quic_tls_ext_find_tp (ext_block : list Z) (ext_block_len : Z) : res (option (Z * Z)) :=
  find_tp_loop (Z.to_nat ext_block_len) ext_block ext_block_len 0 None.

(** ** [conn.c] *)

(** The offset and length of the extensions. *)
Definition locate_ch_extensions_block (msg : list Z) (msg_len : Z) : res (Z * Z) :=
  if msg_len <? 38 + 1 then Fail
  else
    let off := 38 in
    let! sid_len := rd msg off in
    let off := off + 1 in
    if (32 <? sid_len) || (msg_len - off <? sid_len) then Fail
    else
      let off := off + sid_len in
      if msg_len <? off + 2 then Fail
      else
        let! b1 := rd msg off in let! b0 := rd msg (off + 1) in
        let cs_len := u16 (Z.lor (Z.shiftl b1 8) b0) in
        let off := off + 2 in
        if negb (Z.land cs_len 1 =? 0) || (msg_len - off <? cs_len) then Fail
        else
          let off := off + cs_len in
          if msg_len <? off + 1 then Fail
          else
            let! cm_len := rd msg off in
            let off := off + 1 in
            if (cm_len <? 1) || (msg_len - off <? cm_len) then Fail
            else
              let off := off + cm_len in
              if msg_len <? off + 2 then Fail
              else
                let! b1 := rd msg off in let! b0 := rd msg (off + 1) in
                let ext_total := u16 (Z.lor (Z.shiftl b1 8) b0) in
                let off := off + 2 in
                if negb (ext_total =? msg_len - off) then Fail else Ret (off, ext_total).

(** [Ret None] is 0, more bytes are needed; [Ret (Some _)] is 1; [Fail] is -1. *)
Definition quic_conn_initial_extract_client_hello (c : quic_conn_t) : res (option (tls13_client_hello_t * quic_transport_params_t)) :=
  match quic_crypto_rx_peek (rx_initial c) with
  | (_, None) => Ret None
  | (buf_len, Some buf) =>
      if buf_len <? 4 then Ret None
      else
        let! t := rd buf 0 in
        if negb (t =? 0x01) then Fail
        else
          let! l2 := rd buf 1 in let! l1 := rd buf 2 in let! l0 := rd buf 3 in
          let hs_body_len := Z.lor (Z.lor (u32 (Z.shiftl l2 16)) (u32 (Z.shiftl l1 8))) l0 in
          let need := hs_body_len + 4 in
          if buf_len <? need then Ret None
          else
            let! parsed := tls13_parse_client_hello buf need in
            let! (ext_block, ext_block_len) := locate_ch_extensions_block buf need in
            let! tp := quic_tls_ext_find_tp (padd buf ext_block) ext_block_len in
            match tp with
            | None => Fail
            | Some (tp_body, tp_body_len) =>
                let! peer_tp := quic_tp_decode (padd buf (ext_block + tp_body)) tp_body_len in
                Ret (Some (parsed, peer_tp))
            end
  end.

(** ** Safety *)

Lemma u16_bytes a b : byte_ok a -> byte_ok b -> u16 (Z.lor (Z.shiftl a 8) b) = a * 256 + b.
Proof. exact (two_bytes a b). Qed.

Lemma find_tp_wp block n : Forall byte_ok block -> n <= zlen block -> forall fuel off found, 0 <= off -> n - off <= Z.of_nat fuel -> match found with None => True | Some (o, l) => 0 <= o /\ 0 <= l /\ o + l <= n end ->
  wp (find_tp_loop fuel block n off found) (fun r => match r with None => True | Some (o, l) => 0 <= o /\ 0 <= l /\ o + l <= n end).
Proof.
  intros Hb Hn. induction fuel as [|fuel IH]; intros off found Ho Hf Hfound; cbn [find_tp_loop]; (destruct (Z.ltb_spec off n); [|exact Hfound]); [lia|].
  destruct (Z.ltb_spec (n - off) 4); [exact I|]. rewrite !rd_nth by lia. ret. set (len := u16 (Z.lor (Z.shiftl (nth (Z.to_nat (off + 2)) block 0) 8) _)). assert (0 <= len) by (subst len; unfold u16; dlia).
  destruct (Z.ltb_spec (n - (off + 4)) len); [exact I|]. destruct (_ =? _); [|apply IH; [lia|lia|done]]. destruct found; [exact I|]. apply IH; [lia|lia|lia].
Qed.

(** What a successful read says. *)
Lemma rd_u8_inv msg p rem v p' rem' : rd_u8 msg p rem = Ret (v, p', rem') -> 1 <= rem /\ rd msg p = Ret v /\ p' = p + 1 /\ rem' = rem - 1.
Proof. unfold rd_u8. destruct (Z.ltb_spec rem 1); [done|]. intros (b & Eb & [= <- <- <-])%rbind_ret. done. Qed.

Lemma rd_u16_inv msg p rem v p' rem' : rd_u16 msg p rem = Ret (v, p', rem') ->
  2 <= rem /\ (exists a b, rd msg p = Ret a /\ rd msg (p + 1) = Ret b /\ u16 (Z.lor (Z.shiftl a 8) b) = v) /\ p' = p + 2 /\ rem' = rem - 2.
Proof. unfold rd_u16. destruct (Z.ltb_spec rem 2); [done|]. intros (a & Ea & (b & Eb & [= <- <- <-])%rbind_ret)%rbind_ret. split; [lia|]. split; [|done]. by exists a, b. Qed.

Lemma rd_u24_inv msg p rem v p' rem' : rd_u24 msg p rem = Ret (v, p', rem') -> 3 <= rem /\ p' = p + 3 /\ rem' = rem - 3.
Proof. unfold rd_u24. destruct (Z.ltb_spec rem 3); [done|]. by intros (a & _ & (b & _ & (c & _ & [= <- <- <-])%rbind_ret)%rbind_ret)%rbind_ret. Qed.

Lemma rd_copy_inv msg p rem k d p' rem' : rd_copy msg p rem k = Ret (d, p', rem') -> k <= rem /\ p' = p + k /\ rem' = rem - k.
Proof. unfold rd_copy. destruct (Z.ltb_spec rem k); [done|]. by intros (a & _ & [= <- <- <-])%rbind_ret. Qed.

Lemma rd_skip_inv p rem k p' rem' : rd_skip p rem k = Ret (p', rem') -> k <= rem /\ p' = p + k /\ rem' = rem - k.
Proof. unfold rd_skip. destruct (Z.ltb_spec rem k); [done|]. by intros [= <- <-]. Qed.

(** The next step of a successful run. *)
Ltac past E :=
  match type of E with
  | (if ?b then Fail else _) = Ret _ => destruct b eqn:?; [discriminate E|]
  | rbind _ _ = Ret _ =>
      apply rbind_ret in E; let x := fresh "x" in let E1 := fresh "E" in destruct E as (x & E1 & E); repeat match type of x with (_ * _)%type => destruct x as [x ?] end;
      first [apply rd_u8_inv in E1 as (? & ? & -> & ->) | apply rd_u16_inv in E1 as (? & (? & ? & ? & ? & ?) & -> & ->) | apply rd_u24_inv in E1 as (? & -> & ->) | apply rd_copy_inv in E1 as (? & -> & ->) | apply rd_skip_inv in E1 as (? & -> & ->) | idtac]
  end; cbv beta iota zeta in E.

(** The walk of [locate_ch_extensions_block] mirrors the parser. *)
Lemma locate_mirrors msg n h : Forall byte_ok msg -> 0 <= n <= zlen msg -> tls13_parse_client_hello msg n = Ret h ->
  exists off len h0, locate_ch_extensions_block msg n = Ret (off, len) /\ 0 <= off /\ 0 <= len /\ off + len = n /\ parse_extensions msg off len h0 = Ret h.
Proof.
  intros Hb Hn E. unfold tls13_parse_client_hello in E. cbv zeta in E. repeat past E. change (0 + 1 + 3 + 2 + 32) with 38 in *.
  match type of E with parse_extensions msg ?off ?len ?h0 = _ => exists off, len, h0 end.
  repeat match goal with H : rd msg _ = Ret ?b |- _ => assert_fails (assert (byte_ok b) by assumption); pose proof (rd_byte _ _ _ Hb H) end. unfold byte_ok in *.
  repeat match goal with H : u16 ?x = ?y |- _ => assert_fails (assert (0 <= y < 65536) by assumption); assert (0 <= y < 65536) by (subst y; unfold u16; dlia) end.
  split; [|split; [lia|split; [lia|split; [lia|exact E]]]]. unfold locate_ch_extensions_block. replace (n <? 38 + 1) with false by lia.
  repeat first [match goal with H : rd msg ?i = Ret _ |- context [rd msg ?i] => rewrite H; ret end | match goal with H : u16 ?x = _ |- context [u16 ?x] => rewrite H end
    | match goal with |- (if ?b then Fail else _) = _ => replace b with false by lia; cbv zeta end]. done.
Qed.

Lemma peek_ok rx k p : epoch_ok rx -> quic_crypto_rx_peek rx = (k, Some p) -> 1 <= k <= zlen p /\ Forall byte_ok p.
Proof.
  intros [[H1 _ _ H3 H4 _] Hb] E. unfold quic_crypto_rx_peek in E. destruct (Z.leb_spec (rx_contig_len rx) (rx_consumed rx)); [done|]. injection E as <- <-. split; [rewrite zlen_padd; lia|by apply Forall_drop].
Qed.

(** What the extraction has done when it succeeds. *)
Definition extracted (c : quic_conn_t) (h : tls13_client_hello_t) (tp : quic_transport_params_t) : Prop :=
  exists k buf n off len h0 o l ts, quic_crypto_rx_peek (rx_initial c) = (k, Some buf) /\ n <= k /\ tls13_parse_client_hello buf n = Ret h /\ hello_ok n h /\
    parse_extensions buf off len h0 = Ret h /\ off + len = n /\ quic_tls_ext_find_tp (padd buf off) len = Ret (Some (o, l)) /\ o + l <= len /\ tlvs_at (padd buf (off + o)) l 0 ts /\ tp_inv ts tp.

(** What the extraction reports when it wants more bytes. *)
Definition incomplete (c : quic_conn_t) : Prop :=
  match quic_crypto_rx_peek (rx_initial c) with
  | (_, None) => True
  | (k, Some buf) => k < 4 \/ exists b1 b2 b3, rd buf 1 = Ret b1 /\ rd buf 2 = Ret b2 /\ rd buf 3 = Ret b3 /\ k < 4 + (b1 * 65536 + b2 * 256 + b3)
  end.

Lemma three_bytes32 a b c : byte_ok a -> byte_ok b -> byte_ok c -> Z.lor (Z.lor (u32 (Z.shiftl a 16)) (u32 (Z.shiftl b 8))) c = a * 65536 + b * 256 + c.
Proof.
  unfold byte_ok. intros. rewrite !Z.shiftl_mul_pow2 by lia. rewrite !u32_small by lia. rewrite (lor_disjoint 16) by lia. replace (a * 2 ^ 16 + b * 2 ^ 8) with ((a * 256 + b) * 2 ^ 8) by lia. rewrite (lor_disjoint 8) by lia. lia.
Qed.

Lemma extract_wp c : conn_ok c -> wp (quic_conn_initial_extract_client_hello c) (fun r => match r with Some (h, tp) => extracted c h tp | None => incomplete c end).
Proof.
  intros Hc. destruct (co_rx c Hc) as [Hrx _]. unfold quic_conn_initial_extract_client_hello, incomplete, extracted. destruct (quic_crypto_rx_peek (rx_initial c)) as [k [buf|]] eqn:Ep; [|exact I]. destruct (peek_ok _ _ _ Hrx Ep) as [Hk Hb].
  destruct (Z.ltb_spec k 4) as [Hk4|]; [left; exact Hk4|]. rewrite !(rd_nth buf) by lia. ret. destruct (negb _); [exact I|]. pose proof (fun i Hi => rd_byte _ _ _ Hb (rd_nth buf i Hi)) as Hbyte.
  rewrite three_bytes32 by (apply Hbyte; lia). set (len := nth (Z.to_nat 1) buf 0 * 65536 + _ + _). destruct (Z.ltb_spec k (len + 4)) as [|Hn].
  { right. do 3 eexists. split; [reflexivity|]. split; [reflexivity|]. split; [reflexivity|]. fold len. lia. }
  assert (0 <= len) by (pose proof (Hbyte 1 ltac:(lia)); pose proof (Hbyte 2 ltac:(lia)); pose proof (Hbyte 3 ltac:(lia)); unfold byte_ok in *; lia). clearbody len.
  pose proof (parse_client_hello_wp buf (len + 4) Hb ltac:(lia)) as Hh. destruct (tls13_parse_client_hello buf (len + 4)) as [h| |] eqn:Eh; [|exact I|destruct Hh]. ret.
  destruct (locate_mirrors buf (len + 4) h Hb ltac:(lia) Eh) as (off & el & h0 & -> & Ho & Hel & Hsum & Hpe). ret.
  pose proof (find_tp_wp (padd buf off) el (Forall_drop _ _ _ Hb) ltac:(rewrite zlen_padd; lia) (Z.to_nat el) 0 None ltac:(lia) ltac:(lia) I) as Hf. unfold quic_tls_ext_find_tp. destruct (find_tp_loop _ _ _ _ _) as [[[o l]|]| |] eqn:Ef; [|exact I|exact I|destruct Hf]. ret.
  pose proof (tp_decode_wp (padd buf (off + o)) l (Forall_drop _ _ _ Hb) ltac:(cbn in Hf; rewrite zlen_padd; lia)) as Ht. destruct (quic_tp_decode _ l) as [tp| |]; [|exact I|destruct Ht]. destruct Ht as (ts & Ht1 & Ht2). cbn [rbind wp].
  exists k, buf, (len + 4), off, el, h0, o, l, ts. split_and!; try done; cbn in Hf; lia.
Qed.

(** ** A client's parameters *)

Section FindTp.
Context (block rest : list Z) (n : Z).

(** One round at an encoded extension. *)
Lemma find_tp_step e l fuel off found : 0 <= off -> ext_ok e -> padd block off = enc_exts (e :: l) ++ rest -> n = off + zlen (enc_exts (e :: l)) ->
  find_tp_loop (S fuel) block n off found =
    (if ext_type e =? 0x39 then match found with Some _ => Fail | None => find_tp_loop fuel block n (off + 4 + zlen (ext_body e)) (Some (off + 4, zlen (ext_body e))) end
     else find_tp_loop fuel block n (off + 4 + zlen (ext_body e)) found) /\ padd block (off + 4 + zlen (ext_body e)) = enc_exts l ++ rest.
Proof.
  intros Ho (Ht & Hl & _) E Hn. rewrite enc_exts_cons in *. rewrite !zlen_app, !zlen_be16 in Hn. pose proof (zlen_nonneg (ext_body e)). pose proof (zlen_nonneg (enc_exts l)). rewrite <- !app_assoc in E.
  pose proof (padd_next block off (be16 _) _ Ho E) as E1. rewrite zlen_be16 in E1. pose proof (padd_next block (off + 2) (be16 _) _ ltac:(lia) E1) as E2. rewrite zlen_be16 in E2. replace (off + 2 + 2) with (off + 4) in E2 by lia. apply padd_next in E2; [|lia]. split; [|exact E2].
  rewrite be16_bytes in E, E1. cbn [find_tp_loop]. replace (off <? n) with true by lia. replace (n - off <? 4) with false by lia.
  rewrite (rd_at_cursor block _ _ _ Ho E). ret. rewrite (rd_at_cursor block (off + 1) _ _ ltac:(lia) (padd_next block off [_] _ Ho E)). ret. rewrite (rd_at_cursor block (off + 2) _ _ ltac:(lia) E1). ret.
  replace (off + 3) with (off + 2 + 1) by lia. rewrite (rd_at_cursor block (off + 2 + 1) _ _ ltac:(lia) (padd_next block (off + 2) [_] _ ltac:(lia) E1)). ret. rewrite !be16_value by (done || (unfold u16_ok; lia)). replace (n - (off + 4) <? zlen (ext_body e)) with false by lia. reflexivity.
Qed.

Lemma find_tp_none l : forall fuel off found, 0 <= off -> Forall ext_ok l -> Forall (fun e => ext_type e <> 0x39) l -> padd block off = enc_exts l ++ rest -> n = off + zlen (enc_exts l) -> zlen (enc_exts l) <= Z.of_nat fuel ->
  find_tp_loop fuel block n off found = Ret found.
Proof.
  induction l as [|e l IH]; intros fuel off found Ho Hl Ht E Hn Hf; [change (zlen (enc_exts [])) with 0 in Hn; destruct fuel; cbn [find_tp_loop]; by replace (off <? n) with false by lia|].
  apply Forall_cons_1 in Hl as [He Hl], Ht as [He' Ht]. pose proof (zlen_nonneg (ext_body e)). pose proof (zlen_nonneg (enc_exts l)). destruct fuel as [|fuel]; [rewrite enc_exts_cons, !zlen_app, !zlen_be16 in Hf; lia|].
  destruct (find_tp_step e l fuel off found Ho He E Hn) as [-> E']. replace (ext_type e =? 0x39) with false by lia. rewrite enc_exts_cons, !zlen_app, !zlen_be16 in Hn, Hf. apply IH; (done || lia).
Qed.

Lemma find_tp_one pre e post : forall fuel off, 0 <= off -> Forall ext_ok (pre ++ e :: post) -> Forall (fun e => ext_type e <> 0x39) (pre ++ post) -> ext_type e = 0x39 ->
  padd block off = enc_exts (pre ++ e :: post) ++ rest -> n = off + zlen (enc_exts (pre ++ e :: post)) -> zlen (enc_exts (pre ++ e :: post)) <= Z.of_nat fuel ->
  find_tp_loop fuel block n off None = Ret (Some (off + zlen (enc_exts pre) + 4, zlen (ext_body e))).
Proof.
  induction pre as [|e' pre IH]; intros fuel off Ho Hl Ht Hty E Hn Hf; cbn [app] in *; apply Forall_cons_1 in Hl as [He Hl].
  - pose proof (zlen_nonneg (ext_body e)). pose proof (zlen_nonneg (enc_exts post)). destruct fuel as [|fuel]; [rewrite enc_exts_cons, !zlen_app, !zlen_be16 in Hf; lia|].
    destruct (find_tp_step e post fuel off None Ho He E Hn) as [-> E']. rewrite Hty. rewrite enc_exts_cons, !zlen_app, !zlen_be16 in Hn, Hf. change (zlen (enc_exts [])) with 0. rewrite Z.add_0_r. apply (find_tp_none post); (done || lia).
  - apply Forall_cons_1 in Ht as [He' Ht]. pose proof (zlen_nonneg (ext_body e')). pose proof (zlen_nonneg (enc_exts (pre ++ e :: post))). destruct fuel as [|fuel]; [rewrite enc_exts_cons, !zlen_app, !zlen_be16 in Hf; lia|].
    destruct (find_tp_step e' _ fuel off None Ho He E Hn) as [-> E']. replace (ext_type e' =? 0x39) with false by lia. rewrite enc_exts_cons, !zlen_app, !zlen_be16 in Hn, Hf. rewrite (IH fuel _) by (done || lia). rewrite enc_exts_cons, !zlen_app, !zlen_be16. do 3 f_equal. lia.
Qed.
End FindTp.

(** ** The theorems *)

(** With at least the message header received, the length decides. *)
Lemma extract_at c ch k buf : ch_ok ch -> quic_crypto_rx_peek (rx_initial c) = (k, Some buf) -> 4 <= k <= zlen buf -> ztake k buf = ztake k (enc_hello ch) ->
  quic_conn_initial_extract_client_hello c =
  if k <? zlen (enc_hello ch) then Ret None
  else
    let! parsed := tls13_parse_client_hello buf (zlen (enc_hello ch)) in
    let! (ext_block, ext_block_len) := locate_ch_extensions_block buf (zlen (enc_hello ch)) in
    let! tp := quic_tls_ext_find_tp (padd buf ext_block) ext_block_len in
    match tp with
    | None => Fail
    | Some (tp_body, tp_body_len) => let! peer_tp := quic_tp_decode (padd buf (ext_block + tp_body)) tp_body_len in Ret (Some (parsed, peer_tp))
    end.
Proof.
  intros Hc Ep Hk E. set (L := zlen (hello_body ch)). assert (HL : 0 <= L < 2 ^ 24).
  { unfold L. rewrite zlen_body by done. destruct (cho_suites ch Hc), (cho_compressions ch Hc), (cho_exts ch Hc). pose proof (cho_session ch Hc). pose proof (zlen_nonneg (c_session ch)). pose proof (zlen_nonneg (enc16 (c_suites ch))). pose proof (zlen_nonneg (c_compressions ch)). pose proof (zlen_nonneg (enc_exts (c_exts ch))). lia. }
  assert (LS : zlen (enc_hello ch) = L + 4) by (unfold enc_hello; rewrite zlen_cons, zlen_app; fold L; change (zlen (be_bytes 3 L)) with 3; lia).
  assert (Hbuf : padd buf 0 = 1 :: (L / 65536) mod 256 :: (L / 256) mod 256 :: L mod 256 :: ztake (k - 4) (hello_body ch) ++ padd buf k).
  { rewrite padd_0. replace buf with (ztake k buf ++ padd buf k) at 1 by apply take_drop. rewrite E. unfold enc_hello. fold L. cbn [be_bytes app]. change (256 ^ Z.of_nat 2) with 65536. change (256 ^ Z.of_nat 1) with 256. change (256 ^ Z.of_nat 0) with 1. rewrite Z.div_1_r.
    replace k with (Z.of_nat (4 + Z.to_nat (k - 4))) at 1 by lia. unfold ztake at 1. rewrite Nat2Z.id. reflexivity. }
  unfold quic_conn_initial_extract_client_hello. rewrite Ep. replace (k <? 4) with false by lia.
  rewrite (rd_at_cursor buf 0 _ _ ltac:(lia) Hbuf). ret. cbn [Z.eqb Pos.eqb negb]. rewrite (rd_at_cursor buf 1 _ _ ltac:(lia) (padd_next buf 0 [_] _ ltac:(lia) Hbuf)). ret. rewrite (rd_at_cursor buf 2 _ _ ltac:(lia) (padd_next buf 0 [_; _] _ ltac:(lia) Hbuf)). ret.
  rewrite (rd_at_cursor buf 3 _ _ ltac:(lia) (padd_next buf 0 [_; _; _] _ ltac:(lia) Hbuf)). ret. rewrite three_bytes32 by (unfold byte_ok; dlia). replace (_ * 65536 + _ * 256 + _ + 4) with (zlen (enc_hello ch)) by (rewrite LS; dlia). reflexivity.
Qed.

Lemma rd16_at msg p v rest : 0 <= p -> padd msg p = be16 v ++ rest -> rd msg p = Ret ((v / 256) mod 256) /\ rd msg (p + 1) = Ret (v mod 256) /\ padd msg (p + 2) = rest.
Proof.
  intros Hp E. pose proof (padd_next msg p (be16 v) rest Hp E) as E2. rewrite be16_bytes in E. split; [by eapply rd_at_cursor|]. split; [|exact E2]. eapply rd_at_cursor; [lia|]. exact (padd_next msg p [_] _ Hp E).
Qed.

Lemma locate_enc c rest : ch_ok c -> locate_ch_extensions_block (enc_hello c ++ rest) (zlen (enc_hello c)) = Ret (ext_pos c, zlen (enc_exts (c_exts c))).
Proof.
  intros Hc. set (msg := enc_hello c ++ rest). pose proof (zlen_hello c Hc) as Ln. set (n := zlen (enc_hello c)) in *.
  destruct (cho_suites c Hc) as [_ Hs2]. destruct (cho_compressions c Hc) as [Hc1 Hc2]. destruct (cho_exts c Hc) as [_ He2]. pose proof (cho_session c Hc). pose proof (cho_random c Hc) as Lr.
  pose proof (zlen_nonneg (c_session c)). pose proof (zlen_nonneg (enc16 (c_suites c))). pose proof (zlen_nonneg (c_compressions c)). pose proof (zlen_nonneg (enc_exts (c_exts c))). unfold ext_pos in *.
  assert (1 <= zlen (c_compressions c)) by (destruct (c_compressions c); [by apply elem_of_nil in Hc2|rewrite zlen_cons; pose proof (zlen_nonneg l); lia]).
  assert (E : padd msg 38 = vec8 (c_session c) ++ vec16 (enc16 (c_suites c)) ++ vec8 (c_compressions c) ++ vec16 (enc_exts (c_exts c)) ++ rest).
  { unfold msg, enc_hello, hello_body. set (L := be_bytes 3 _). match goal with |- padd _ 38 = ?x => transitivity (padd (([1] ++ L ++ [3; 3] ++ c_random c) ++ x) 38); [f_equal; cbn [app]; rewrite <- !app_assoc; cbn [app]; by rewrite <- !app_assoc|] end. apply padd_app. rewrite !zlen_app, Lr. change (zlen L) with 3. done. }
  unfold locate_ch_extensions_block. replace (n <? 38 + 1) with false by lia. cbv zeta. unfold vec8 in E. cbn [app] in E.
  rewrite (rd_at_cursor msg 38 _ _ ltac:(lia) E). ret. replace (_ || _) with false by lia. replace (n <? _) with false by lia. apply (padd_next msg 38 [_]) in E; [|lia]. change (38 + zlen [_]) with (38 + 1) in E. apply padd_next in E; [|lia].
  unfold vec16 at 1 in E. rewrite <- app_assoc in E. edestruct (rd16_at msg) as (-> & -> & E1); [|exact E|]; [lia|]. ret. rewrite be16_value by (unfold u16_ok; lia). rewrite even_enc16. cbn [Z.eqb negb orb]. replace (_ <? zlen (enc16 (c_suites c))) with false by lia. replace (n <? _) with false by lia.
  apply padd_next in E1; [|lia]. rewrite (rd_at_cursor msg (38 + 1 + zlen (c_session c) + 2 + zlen (enc16 (c_suites c))) _ _ ltac:(lia) E1). ret. replace (_ || _) with false by lia. replace (n <? _) with false by lia. apply (padd_next msg _ [_]) in E1; [|lia]. change (zlen [_]) with 1 in E1. apply padd_next in E1; [|lia].
  unfold vec16 in E1. rewrite <- app_assoc in E1. edestruct (rd16_at msg) as (-> & -> & _); [|exact E1|]; [lia|]. ret. rewrite be16_value by (unfold u16_ok; lia). replace (_ =? _) with true by lia. cbn [negb]. do 2 f_equal. lia.
Qed.

Lemma slice_bytes S f : Forall byte_ok S -> slice_of S f -> Forall byte_ok (snd f).
Proof.
  intros Hb (H1 & _ & H2). apply list.Forall_forall. intros x (j & Hj)%list_elem_of_lookup. assert (Z.of_nat j < zlen (snd f)) by (apply lookup_lt_Some in Hj; unfold zlen; lia). specialize (H2 (Z.of_nat j) ltac:(lia)). rewrite Nat2Z.id, Hj in H2.
  symmetry in H2. apply list_elem_of_lookup_2 in H2. rewrite list.Forall_forall in Hb. by apply Hb.
Qed.

Lemma stage_all_bytes S fs : forall rx rx', Forall byte_ok S -> Forall (slice_of S) fs -> Forall byte_ok (rx_data rx) -> stage_all rx fs = Ret rx' -> Forall byte_ok (rx_data rx').
Proof.
  induction fs as [|[off p] fs IH]; intros rx rx' HS Hfs Hb E; [by injection E as <-|]. apply Forall_cons_1 in Hfs as [Hf Hfs]. cbn [stage_all] in E. apply rbind_ret in E as ([rc rx1] & E1 & E). destruct (rc <? 0); [done|].
  apply (IH rx1); [done|done| |exact E]. eapply stage_bytes; [exact E1|done|]. exact (slice_bytes S (off, p) HS Hf).
Qed.

Lemma params_found ch tp cap pre post more : ch_ok ch -> Forall byte_ok (enc_hello ch ++ more) -> tp_ok tp -> zlen (tp_wire tp) <= cap -> c_exts ch = pre ++ EOther 0x39 (quic_tp_encode tp cap) :: post -> Forall (fun e => ext_type e <> 0x39) (pre ++ post) ->
  exists o l tp', quic_tls_ext_find_tp (padd (enc_hello ch ++ more) (ext_pos ch)) (zlen (enc_exts (c_exts ch))) = Ret (Some (o, l)) /\ quic_tp_decode (padd (enc_hello ch ++ more) (ext_pos ch + o)) l = Ret tp' /\ same_params tp tp'.
Proof.
  intros Hc Hb Htp Hcap Ex Hone. pose proof (zlen_nonneg (tp_wire tp)). pose proof (zlen_hello ch Hc) as Ln. destruct (cho_exts ch Hc) as [Hx _]. set (msg := enc_hello ch ++ more) in *. pose proof (zlen_nonneg (enc_exts pre)).
  assert (Hpos : 0 <= ext_pos ch) by (unfold ext_pos; pose proof (zlen_nonneg (c_session ch)); pose proof (zlen_nonneg (enc16 (c_suites ch))); pose proof (zlen_nonneg (c_compressions ch)); lia).
  assert (E : padd msg (ext_pos ch) = enc_exts (c_exts ch) ++ more).
  { destruct (hello_split ch Hc) as (front & Em & Lf). unfold msg. rewrite Em, <- app_assoc. by apply padd_app. }
  rewrite Ex in *. unfold quic_tls_ext_find_tp. rewrite (find_tp_one (padd msg (ext_pos ch)) more _ pre (EOther 0x39 (quic_tp_encode tp cap)) post) by (done || lia || (rewrite padd_0; exact E)).
  rewrite Z.add_0_l. cbn [ext_body]. rewrite tp_encode_spec in * by (done || lia). replace (zlen (tp_wire tp) <=? cap) with true in * by lia.
  rewrite enc_exts_app, enc_exts_cons, <- !app_assoc in E. cbn [ext_body] in E. apply padd_next in E; [|lia]. apply (padd_next msg _ (be16 _)) in E; [|lia]. apply (padd_next msg _ (be16 _)) in E; [|rewrite zlen_be16; lia]. rewrite !zlen_be16 in E.
  assert (Hr : Forall byte_ok (enc_exts post ++ more)) by (apply (Forall_app _ (tp_wire tp)); rewrite <- E; by apply Forall_drop).
  destruct (tp_wire_values tp (enc_exts post ++ more) Htp Hr) as (tp' & Ed & Hs). do 3 eexists. split; [reflexivity|]. split; [|exact Hs]. replace (ext_pos ch + (zlen (enc_exts pre) + 4)) with (ext_pos ch + zlen (enc_exts pre) + 2 + 2) by lia. rewrite E. exact Ed.
Qed.

(** The bytes of a ClientHello in CRYPTO frames, and what the server makes of
    them. *)
Lemma hello_reassembled c ch tp cap pre post fs :
  ch_ok ch -> Forall byte_ok (enc_hello ch) -> zlen (enc_hello ch) <= 4096 -> tp_ok tp -> zlen (tp_wire tp) <= cap ->
  c_exts ch = pre ++ EOther 0x39 (quic_tp_encode tp cap) :: post -> Forall (fun e => ext_type e <> 0x39) (pre ++ post) -> Forall (slice_of (enc_hello ch)) fs ->
  exists rx, stage_all epoch_rx fs = Ret rx /\ epoch_ok rx /\
    (forall i, 0 <= i < zlen (enc_hello ch) -> ~ covered fs i -> quic_conn_initial_extract_client_hello (c {{ rx_initial := rx }}) = Ret None) /\
    ((forall i, 0 <= i < zlen (enc_hello ch) -> covered fs i) ->
      exists h tp' more, quic_conn_initial_extract_client_hello (c {{ rx_initial := rx }}) = Ret (Some (h, tp')) /\ understood ch h /\ same_params tp tp' /\
        quic_crypto_rx_peek rx = (zlen (enc_hello ch), Some (enc_hello ch ++ more)) /\ hello_ok (zlen (enc_hello ch)) h).
Proof.
  intros Hc Hb H4096 Htp Hcap Ex Hone Hfs. set (S := enc_hello ch) in *. pose proof (zlen_nonneg (tp_wire tp)).
  destruct (reassemble S (replicate 4096 0) 512 fs) as (rx & E & Hok & Hcs & Hpre & Hin & Hgap & Hle); [change (zlen (replicate 4096 0)) with 4096; lia|dlia|done|]. exists rx. split; [exact E|].
  assert (Hrx : Forall byte_ok (rx_data rx)) by (eapply (stage_all_bytes S fs); [exact Hb|exact Hfs| |exact E]; by apply bytes_okb_ok). split; [by split|].
  pose proof (ok_order _ Hok) as [Ho Ho2]. pose proof (ok_data _ Hok) as Hd. pose proof (ok_highest _ Hok) as [Hh _]. assert (H44 : 44 <= zlen S).
  { unfold S. rewrite zlen_hello by done. unfold ext_pos. pose proof (zlen_nonneg (c_session ch)). pose proof (zlen_nonneg (enc16 (c_suites ch))). pose proof (zlen_nonneg (c_compressions ch)). pose proof (zlen_nonneg (enc_exts (c_exts ch))). lia. }
  set (c' := c {{ rx_initial := rx }}). assert (Hp : quic_crypto_rx_peek (rx_initial c') = if rx_contig_len rx <=? 0 then (0, None) else (rx_contig_len rx, Some (rx_data rx))).
  { change (rx_initial c') with rx. unfold quic_crypto_rx_peek. rewrite Hcs. destruct (_ <=? 0); [done|]. by rewrite Z.sub_0_r, padd_0. }
  split.
  - intros i Hi Hmiss. assert (rx_contig_len rx <= i) by (destruct (decide (rx_contig_len rx <= i)); [done|]; destruct Hmiss; apply Hin; lia).
    destruct (Z.leb_spec (rx_contig_len rx) 0); [unfold quic_conn_initial_extract_client_hello; by rewrite Hp|]. destruct (Z.ltb_spec (rx_contig_len rx) 4) as [Hlt|]; [unfold quic_conn_initial_extract_client_hello; rewrite Hp; by replace (rx_contig_len rx <? 4) with true by lia|].
    rewrite (extract_at c' ch (rx_contig_len rx) (rx_data rx) Hc Hp ltac:(lia) Hpre). change (enc_hello ch) with S. by replace (rx_contig_len rx <? zlen S) with true by lia.
  - intros Hall. assert (Hfull : rx_contig_len rx = zlen S) by (destruct (decide (rx_contig_len rx = zlen S)); [done|]; destruct Hgap; apply Hall; lia). rewrite Hfull in *. replace (zlen S <=? 0) with false in Hp by lia.
    rewrite (extract_at c' ch (zlen S) (rx_data rx) Hc Hp ltac:(lia) Hpre). change (enc_hello ch) with S. rewrite Z.ltb_irrefl. rewrite (ztake_all S) in Hpre by lia.
    assert (Ed : rx_data rx = S ++ padd (rx_data rx) (zlen S)) by (rewrite <- Hpre at 1; symmetry; apply take_drop). set (more := padd (rx_data rx) (zlen S)) in Ed. rewrite Ed.
    assert (Hbm : Forall byte_ok (S ++ more)) by (by rewrite <- Ed).
    destruct (hello_parsed ch more Hc Hb) as (h & Eh & Hu). destruct (params_found ch tp cap pre post more Hc Hbm Htp Hcap Ex Hone) as (o & l & tp' & Ef & Et & Hs). exists h, tp', more. pose proof (parse_client_hello_wp (enc_hello ch ++ more) (zlen (enc_hello ch)) Hbm) as Hwp. rewrite Eh in Hwp. cbn [wp] in Hwp.
    split_and!; [|done|done|by rewrite <- Ed|apply Hwp; rewrite zlen_app; pose proof (zlen_nonneg more); fold S; lia].
    unfold S. rewrite Eh. ret. rewrite (locate_enc ch more Hc). ret. rewrite Ef. ret. rewrite Et. by ret.
Qed.

(** The client's ClientHello and transport parameters reach the server. Let the bytes of a ClientHello that carries the encoding of some transport parameters arrive in CRYPTO frames, cut, ordered, overlapping and repeated in any way. As long as a byte is missing, [quic_conn_initial_extract_client_hello] asks for more; once all of them have arrived it returns the message, understood, and exactly those parameters. *)
Theorem client_hello_extracted c ch tp cap pre post fs :
  ch_ok ch -> Forall byte_ok (enc_hello ch) -> zlen (enc_hello ch) <= 4096 -> tp_ok tp -> zlen (tp_wire tp) <= cap ->
  c_exts ch = pre ++ EOther 0x39 (quic_tp_encode tp cap) :: post -> Forall (fun e => ext_type e <> 0x39) (pre ++ post) -> Forall (slice_of (enc_hello ch)) fs ->
  exists rx, stage_all epoch_rx fs = Ret rx /\
    (forall i, 0 <= i < zlen (enc_hello ch) -> ~ covered fs i -> quic_conn_initial_extract_client_hello (c {{ rx_initial := rx }}) = Ret None) /\
    ((forall i, 0 <= i < zlen (enc_hello ch) -> covered fs i) ->
      exists h tp', quic_conn_initial_extract_client_hello (c {{ rx_initial := rx }}) = Ret (Some (h, tp')) /\ understood ch h /\ same_params tp tp').
Proof.
  intros Hc Hb Hl Htp Hcap Ex Hone Hfs. destruct (hello_reassembled c ch tp cap pre post fs Hc Hb Hl Htp Hcap Ex Hone Hfs) as (rx & E & _ & Hno & Hyes).
  exists rx. split; [exact E|]. split; [exact Hno|]. intros Hall. destruct (Hyes Hall) as (h & tp' & _ & E1 & E2 & E3 & _). exists h, tp'. auto.
Qed.

Definition quic_hello : client_hello :=
  mk_ch (replicate 32 7) [] [0x1301; 0x1303] [0] [EVersions [0x0304]; EOther 0x39 (quic_tp_encode tp_example 64); EShares [(0x001d, replicate 32 9)]; ESigs false [0x0807]].

Definition quic_frames : list (Z * list Z) := [(10, padd (enc_hello quic_hello) 10); (0, ztake 10 (enc_hello quic_hello))].

Lemma quic_hello_ok : ch_ok quic_hello.
Proof.
  constructor; try done.
  - split; [|done]. by repeat constructor.
  - split; [done|]. apply (bool_decide_unpack _). reflexivity.
  - split; [|done]. unfold quic_hello. cbn [c_exts]. repeat apply Forall_cons_2; try apply Forall_nil_2; (split; [done|split; [done|]]); try done; try (by repeat constructor). apply (bool_decide_unpack _). reflexivity.
  - intros l e k E He. do 4 (destruct l as [|? l]; [by (simplify_eq/= || injection E as <- <-; done)|injection E as _ E]). by destruct l.
Qed.

Lemma quic_hello_bytes : Forall byte_ok (enc_hello quic_hello).
Proof. by apply bytes_okb_ok. Qed.

Lemma tp_example_ok : tp_ok tp_example.
Proof. intros [[]|[]| |]; vm_compute; try discriminate; intros _; repeat split; try discriminate; repeat constructor; discriminate. Qed.

Lemma quic_frames_ok : Forall (slice_of (enc_hello quic_hello)) quic_frames.
Proof.
  constructor; [|constructor; [|constructor]].
  - by apply (slice_padd (enc_hello quic_hello) 10 (zlen (enc_hello quic_hello) - 10)).
  - by apply (slice_padd (enc_hello quic_hello) 0 10).
Qed.

Lemma quic_frames_cover i : 0 <= i < zlen (enc_hello quic_hello) -> covered quic_frames i.
Proof.
  assert (L : zlen (enc_hello quic_hello) = 127) by (vm_compute; reflexivity). intros Hi.
  destruct (Z.ltb_spec i 10); [exists (0, ztake 10 (enc_hello quic_hello))|exists (10, padd (enc_hello quic_hello) 10)]; (split; [apply list_elem_of_In; cbn; tauto|]); unfold covers; cbn [fst snd];
    [change (zlen (ztake 10 (enc_hello quic_hello))) with 10|rewrite zlen_padd by lia]; lia.
Qed.

Lemma client_hello_extracted_witness :
  exists rx h tp', stage_all epoch_rx quic_frames = Ret rx /\
    quic_conn_initial_extract_client_hello (quic_conn_init_server {{ rx_initial := rx }}) = Ret (Some (h, tp')) /\ understood quic_hello h /\ same_params tp_example tp'.
Proof.
  destruct (client_hello_extracted quic_conn_init_server quic_hello tp_example 64 [EVersions [0x0304]] [EShares [(0x001d, replicate 32 9)]; ESigs false [0x0807]] quic_frames
    quic_hello_ok quic_hello_bytes ltac:(done) tp_example_ok ltac:(done) ltac:(reflexivity) ltac:(by repeat constructor) quic_frames_ok) as (rx & E & _ & H).
  destruct (H quic_frames_cover) as (h & tp' & H1 & H2). exists rx, h, tp'. exact (conj E (conj H1 H2)).
Defined.

(** The extraction is safe whatever the client sent. On every well-formed connection it stays within the buffered bytes; it asks for more bytes only when the message is incomplete; and what it returns comes from one message at the start of the Initial stream: the parsed ClientHello, and transport parameters that are in range, without duplicates, and read from the one extension of type 57 in exactly the extensions block that the parser walked, so that the second walk over the header agrees with the first. *)
Theorem extract_client_hello_safe c : conn_ok c ->
  match quic_conn_initial_extract_client_hello c with
  | Ret (Some (h, tp)) => extracted c h tp
  | Ret None => incomplete c
  | Fail => True
  | Oob => False
  end.
Proof. intros Hc. pose proof (extract_wp c Hc) as H. by destruct (quic_conn_initial_extract_client_hello c) as [[[h tp]|]| |]. Qed.

Lemma extract_client_hello_safe_witness : match quic_conn_initial_extract_client_hello quic_conn_init_server with Ret (Some (h, tp)) => extracted quic_conn_init_server h tp | Ret None => incomplete quic_conn_init_server | Fail => True | Oob => False end.
Proof. apply extract_client_hello_safe. exact init_server_ok. Defined.
