(* ===== verification/TlsMessages.v ===== *)
(** * The server's TLS 1.3 messages

    The message builders of [userspace/tls/handshake.c]: ServerHello,
    EncryptedExtensions, Certificate, CertificateVerify with an Ed25519 key,
    Finished and NewSessionTicket.  A builder writes at the start of the caller's
    buffer and returns the number of bytes; [Fail] is the C result -1, after which
    no caller looks at the buffer.  NULL arguments are not modelled.  The theorems
    give the exact bytes of every message and the exact capacity it needs. *)

From Stdlib Require Import ZArith Lia String.
From stdpp Require Import list numbers option.
From S2P Require Import Prelude Util Words TlsHello TlsHelloTheorems Sha512 X25519 Ed25519 Ed25519Theorems.

(** ** The bounded writer *)

(** The buffer, the cursor and [*rem]. *)
Record writer := mk_wr { w_buf : list Z; w_pos : Z; w_rem : Z }.

Definition wr_bytes (w : writer) (src : list Z) (n : Z) : res writer :=
  if w_rem w <? n then Fail
  else
    let! d := rdn src n in
    let! buf := blit (w_buf w) (w_pos w) d in
    Ret (mk_wr buf (w_pos w + n) (w_rem w - n)).

Definition wr_u8 (w : writer) (v : Z) : res writer := wr_bytes w [u8 v] 1.
Definition wr_u16 (w : writer) (v : Z) : res writer := wr_bytes w [u8 (Z.shiftr v 8); u8 v] 2.
Definition wr_u24 (w : writer) (v : Z) : res writer := wr_bytes w [u8 (Z.shiftr v 16); u8 (Z.shiftr v 8); u8 v] 3.

(** ** ServerHello *)

(** [selected_psk_identity] is -1 when there is none. *)
Definition tls13_build_server_hello_psk (out : list Z) (out_cap : Z) (server_random our_pubkey session_id : list Z) (session_id_len selected_psk_identity : Z)
    : res (Z * list Z) :=
  if 32 <? session_id_len then Fail
  else if 0xffff <? selected_psk_identity then Fail
  else
    let w := mk_wr out 0 out_cap in
    let! w := wr_u8 w 0x02 in
    let len_field := w_pos w in
    let! w := wr_u24 w 0 in
    let body_start := w_pos w in
    let! w := wr_u16 w 0x0303 in
    let! w := wr_bytes w server_random 32 in
    let! w := wr_u8 w session_id_len in
    let! w := if 0 <? session_id_len then wr_bytes w session_id session_id_len else Ret w in
    let! w := wr_u16 w TLS13_CHACHA20_POLY1305_SHA256 in
    let! w := wr_u8 w 0 in
    let ext_total := if 0 <=? selected_psk_identity then 46 + 6 else 46 in
    let! w := wr_u16 w ext_total in
    let! w := wr_u16 w 0x002b in
    let! w := wr_u16 w 2 in
    let! w := wr_u16 w TLS13_SUPPORTED_VERSION in
    let! w := wr_u16 w 0x0033 in
    let! w := wr_u16 w 36 in
    let! w := wr_u16 w TLS13_NAMED_GROUP_X25519 in
    let! w := wr_u16 w 32 in
    let! w := wr_bytes w our_pubkey 32 in
    let! w :=
      if 0 <=? selected_psk_identity then
        let! w := wr_u16 w 0x0029 in
        let! w := wr_u16 w 2 in
        wr_u16 w (u16 selected_psk_identity)
      else Ret w in
    let body_len := w_pos w - body_start in
    let! buf := blit (w_buf w) len_field [u8 (Z.shiftr body_len 16); u8 (Z.shiftr body_len 8); u8 body_len] in
    Ret (w_pos w, buf).

Definition tls13_build_server_hello (out : list Z) (out_cap : Z) (server_random our_pubkey session_id : list Z) (session_id_len : Z) : res (Z * list Z) :=
  tls13_build_server_hello_psk out out_cap server_random our_pubkey session_id session_id_len (-1).

(** ** EncryptedExtensions *)

Definition tls13_build_encrypted_extensions (out : list Z) (out_cap : Z) : res (Z * list Z) :=
  if out_cap <? 6 then Fail
  else let! out := blit out 0 [0x08; 0; 0; 2; 0; 0] in Ret (6, out).

Definition tls13_build_encrypted_extensions_ex (out : list Z) (out_cap : Z) (include_early_data : bool) : res (Z * list Z) :=
  if negb include_early_data then tls13_build_encrypted_extensions out out_cap
  else if out_cap <? 10 then Fail
  else let! out := blit out 0 [0x08; 0; 0; 6; 0; 4; 0; 0x2a; 0; 0] in Ret (10, out).

(** ** Certificate *)

(** The first loop: [cl_total], or -1 for a certificate of more than 24 bits. *)
Fixpoint cert_total (cert_lens : list Z) (cl_total : Z) : res Z :=
  match cert_lens with
  | [] => Ret cl_total
  | n :: l => if 0xFFFFFF <? n then Fail else cert_total l (u64 (cl_total + (3 + n + 2)))
  end.

(** [*p++ = ...] *)
Definition put (st : list Z * Z) (d : list Z) : res (list Z * Z) :=
  let '(buf, p) := st in let! buf := blit buf p d in Ret (buf, p + zlen d).

Definition u24_bytes (v : Z) : list Z := [u8 (Z.shiftr v 16); u8 (Z.shiftr v 8); u8 v].

(** The second loop, from [off] in the chain. *)
Fixpoint cert_entries (chain_der : list Z) (cert_lens : list Z) (off : Z) (st : list Z * Z) : res (list Z * Z) :=
  match cert_lens with
  | [] => Ret st
  | cl :: l =>
      let! st := put st (u24_bytes cl) in
      let! d := rdn (padd chain_der off) cl in
      let! st := put st d in
      let! st := put st [0; 0] in
      cert_entries chain_der l (off + cl) st
  end.

Definition tls13_build_certificate (out : list Z) (out_cap : Z) (chain_der cert_lens : list Z) : res (Z * list Z) :=
  let! cl_total := cert_total cert_lens 0 in
  if 0xFFFFFF <? cl_total then Fail
  else
    let body_len := 1 + 3 + cl_total in
    if 0xFFFFFF <? body_len then Fail
    else if out_cap <? 4 + body_len then Fail
    else
      let! st := put (out, 0) (0x0b :: u24_bytes body_len) in
      let! st := put st [0] in
      let! st := put st (u24_bytes cl_total) in
      let! (out, p) := cert_entries chain_der cert_lens 0 st in
      Ret (p, out).

(** ** Finished *)

Definition tls13_build_finished (out : list Z) (out_cap : Z) (verify_data : list Z) : res (Z * list Z) :=
  if out_cap <? 4 + 32 then Fail
  else
    let! out := blit out 0 [0x14; 0; 0; 0x20] in
    let! d := rdn verify_data 32 in
    let! out := blit out 4 d in
    Ret (4 + 32, out).

(** ** NewSessionTicket *)

Definition u32_bytes (v : Z) : list Z :=
  [u8 (Z.land (Z.shiftr v 24) 0xff); u8 (Z.land (Z.shiftr v 16) 0xff); u8 (Z.land (Z.shiftr v 8) 0xff); u8 (Z.land v 0xff)].
Definition u16_bytes (v : Z) : list Z := [u8 (Z.land (Z.shiftr v 8) 0xff); u8 (Z.land v 0xff)].

Definition tls13_build_new_session_ticket (out : list Z) (out_cap lifetime_s age_add : Z) (ticket_nonce : list Z) (nonce_len : Z)
    (ticket_id : list Z) (id_len max_early_data : Z) : res (Z * list Z) :=
  if (nonce_len =? 0) || (255 <? nonce_len) then Fail
  else if (id_len =? 0) || (0xffff <? id_len) then Fail
  else
    let ext_block := if 0 <? max_early_data then 8 else 0 in
    let body := 4 + 4 + 1 + nonce_len + 2 + id_len + 2 + ext_block in
    if 0xffffff <? body then Fail
    else if out_cap <? 4 + body then Fail
    else
      let! st := put (out, 0) (0x04 :: [u8 (Z.land (Z.shiftr body 16) 0xff); u8 (Z.land (Z.shiftr body 8) 0xff); u8 (Z.land body 0xff)]) in
      let! st := put st (u32_bytes lifetime_s) in
      let! st := put st (u32_bytes age_add) in
      let! st := put st [u8 nonce_len] in
      let! d := rdn ticket_nonce nonce_len in
      let! st := put st d in
      let! st := put st (u16_bytes id_len) in
      let! d := rdn ticket_id id_len in
      let! st := put st d in
      let! st := put st (u16_bytes ext_block) in
      let! (out, p) := if negb (ext_block =? 0) then put st ([0; 0x2a; 0; 4] ++ u32_bytes max_early_data) else Ret st in
      Ret (p, out).

(** ** CertificateVerify *)

Definition TLS13_CV_LABEL_SERVER : list Z := lit "TLS 1.3, server CertificateVerify".
Definition TLS13_CV_LABEL_CLIENT : list Z := lit "TLS 1.3, client CertificateVerify".
Definition TLS13_CV_SIGNED_LEN : Z := 130.

Definition tls13_build_certificate_verify_signed_data (out transcript_hash : list Z) (is_server : bool) : res (list Z) :=
  let! out := blit out 0 (replicate 64 0x20) in
  let label := if is_server then TLS13_CV_LABEL_SERVER else TLS13_CV_LABEL_CLIENT in
  let! d := rdn label 33 in
  let! out := blit out 64 d in
  let! out := wr out (64 + 33) 0 in
  let! d := rdn transcript_hash 32 in
  blit out (64 + 33 + 1) d.

(** [hs] and [signed_data] are the contents of uninitialised local variables. *)
Definition tls13_build_certificate_verify (hs : sha512_ctx) (signed_data : list Z) (out : list Z) (out_cap : Z) (transcript_hash seed : list Z) : res (Z * list Z) :=
  if out_cap <? 4 + 2 + 2 + 64 then Fail
  else
    let! signed_data := tls13_build_certificate_verify_signed_data signed_data transcript_hash true in
    let! pubkey := ed25519_pubkey_from_seed hs seed in
    let! sig := ed25519_sign hs signed_data TLS13_CV_SIGNED_LEN seed pubkey in
    let! st := put (out, 0) [0x0f; 0; 0; u8 (2 + 2 + 64); u8 (Z.shiftr TLS13_SIG_SCHEME_ED25519 8); u8 (Z.land TLS13_SIG_SCHEME_ED25519 0xFF); 0; u8 64] in
    let! d := rdn sig 64 in
    let! (out, p) := put st d in
    Ret (p, out).

(** ** The messages of RFC 8446

    In the notation of the RFC: a handshake message is its type and a body with a
    24-bit length. *)

Definition vec24 (l : list Z) : list Z := be_bytes 3 (zlen l) ++ l.
Definition hs_msg (type : Z) (body : list Z) : list Z := type :: vec24 body.
Definition extension (type : Z) (data : list Z) : list Z := be16 type ++ vec16 data.

(** §4.1.3 *)
Definition rfc_server_hello (random pubkey session : list Z) (psk : option Z) : list Z :=
  hs_msg 2 (be16 0x0303 ++ random ++ vec8 session ++ be16 0x1303 ++ [0] ++
    vec16 (extension 0x2b (be16 0x0304) ++ extension 0x33 (be16 0x1d ++ vec16 pubkey) ++
           match psk with Some i => extension 0x29 (be16 i) | None => [] end)).

(** §4.3.1 *)
Definition rfc_encrypted_extensions (early_data : bool) : list Z := hs_msg 8 (vec16 (if early_data then extension 0x2a [] else [])).

(** §4.4.2: entries without extensions, in an empty request context. *)
Definition rfc_certificate_list (certs : list (list Z)) : list Z := mjoin (map (fun c => vec24 c ++ vec16 []) certs).
Definition rfc_certificate (certs : list (list Z)) : list Z := hs_msg 11 (vec8 [] ++ vec24 (rfc_certificate_list certs)).

(** §4.4.3 *)
Definition rfc_signed_content (label th : list Z) : list Z := replicate 64 0x20 ++ label ++ [0] ++ th.
Definition rfc_certificate_verify (th seed : list Z) : list Z :=
  hs_msg 15 (be16 0x0807 ++ vec16 (rfc8032_sign (rfc_signed_content (lit "TLS 1.3, server CertificateVerify") th) seed (rfc8032_pubkey seed))).

(** §4.4.4 *)
Definition rfc_finished (verify_data : list Z) : list Z := hs_msg 20 verify_data.

(** §4.6.1 *)
Definition rfc_new_session_ticket (lifetime age_add : Z) (nonce ticket : list Z) (max_early_data : Z) : list Z :=
  hs_msg 4 (be_bytes 4 lifetime ++ be_bytes 4 age_add ++ vec8 nonce ++ vec16 ticket ++
    vec16 (if 0 <? max_early_data then extension 0x2a (be_bytes 4 max_early_data) else [])).

(** What a builder does in a buffer of [cap] bytes: all of the message or nothing. *)
Definition builds (r : res (Z * list Z)) (out : list Z) (cap : Z) (m : list Z) : Prop :=
  r = (if cap <? zlen m then Fail else Ret (zlen m, m ++ padd out (zlen m))).

(** ** Lemmas *)

Lemma be16_u8 v : [u8 (Z.shiftr v 8); u8 v] = be16 v.
Proof. rewrite be16_bytes. unfold u8. by rewrite Z.shiftr_div_pow2 by lia. Qed.

Lemma be24_u8 v : [u8 (Z.shiftr v 16); u8 (Z.shiftr v 8); u8 v] = be_bytes 3 v.
Proof. unfold u8. rewrite !Z.shiftr_div_pow2 by lia. cbn [be_bytes]. change (256 ^ Z.of_nat 0) with 1. by rewrite Z.div_1_r. Qed.

Lemma u8_land v : u8 (Z.land v 0xff) = u8 v.
Proof. unfold u8. change 0xff with (Z.ones 8). rewrite Z.land_ones by lia. by rewrite Z.mod_mod by lia. Qed.

Lemma u32_bytes_ok v : u32_bytes v = be_bytes 4 v.
Proof.
  unfold u32_bytes. rewrite !u8_land. unfold u8. rewrite !Z.shiftr_div_pow2 by lia. cbn [be_bytes].
  change (256 ^ Z.of_nat 0) with 1. by rewrite Z.div_1_r.
Qed.

Lemma u16_bytes_ok v : u16_bytes v = be16 v.
Proof. unfold u16_bytes. rewrite !u8_land. apply be16_u8. Qed.

Lemma zlen_be3 v : zlen (be_bytes 3 v) = 3.
Proof. apply zlen_be_bytes. Qed.

Lemma zlen_be4 v : zlen (be_bytes 4 v) = 4.
Proof. apply zlen_be_bytes. Qed.

Lemma zlen_vec24 l : zlen (vec24 l) = 3 + zlen l.
Proof. unfold vec24. by rewrite zlen_app, zlen_be_bytes. Qed.

Lemma zlen_hs_msg t l : zlen (hs_msg t l) = 4 + zlen l.
Proof. unfold hs_msg. rewrite zlen_cons, zlen_vec24. lia. Qed.

Lemma zlen_vec8 l : zlen (vec8 l) = 1 + zlen l.
Proof. unfold vec8. rewrite zlen_cons. lia. Qed.

Lemma zlen_extension t l : zlen (extension t l) = 4 + zlen l.
Proof. unfold extension. rewrite zlen_app, zlen_be16, zlen_vec16. lia. Qed.

Create Rewrite HintDb msg_len.
#[export] Hint Rewrite @zlen_app zlen_be16 zlen_vec16 zlen_vec24 zlen_vec8 zlen_extension zlen_hs_msg zlen_be3 zlen_be4 @zlen_cons zlen_nil : msg_len.

(** A writer that has written [d]. *)
Definition written (out : list Z) (cap : Z) (d : list Z) : writer := mk_wr (d ++ padd out (zlen d)) (zlen d) (cap - zlen d).

Section writer.
Context (out : list Z) (cap : Z) (Hcap : cap <= zlen out).

Lemma wr_bytes_ok d src n :
  0 <= n <= zlen src -> wr_bytes (written out cap d) src n = if cap <? zlen d + n then Fail else Ret (written out cap (d ++ ztake n src)).
Proof.
  intros Hn. unfold wr_bytes, written. cbn [w_rem w_buf w_pos]. replace (cap - zlen d <? n) with (cap <? zlen d + n) by lia. zcase; [done|].
  assert (Hl : zlen (ztake n src) = n) by (rewrite zlen_ztake; lia). rewrite rdn_ok by lia. ret. rewrite blit_next by lia. ret.
  rewrite zlen_app, Hl. do 2 f_equal. lia.
Qed.

Lemma wr_lit d src n : n = zlen src -> wr_bytes (written out cap d) src n = if cap <? zlen d + zlen src then Fail else Ret (written out cap (d ++ src)).
Proof. intros ->. pose proof (zlen_nonneg src). rewrite wr_bytes_ok, ztake_all by lia. done. Qed.

Lemma wr_u8_ok d v : wr_u8 (written out cap d) v = if cap <? zlen d + 1 then Fail else Ret (written out cap (d ++ [u8 v])).
Proof. by apply wr_lit. Qed.

Lemma wr_u16_ok d v : wr_u16 (written out cap d) v = if cap <? zlen d + 2 then Fail else Ret (written out cap (d ++ be16 v)).
Proof. unfold wr_u16. rewrite be16_u8. rewrite wr_lit by (by rewrite zlen_be16). by rewrite zlen_be16. Qed.

Lemma wr_u24_ok d v : wr_u24 (written out cap d) v = if cap <? zlen d + 3 then Fail else Ret (written out cap (d ++ be_bytes 3 v)).
Proof. unfold wr_u24. rewrite be24_u8. rewrite wr_lit by (by rewrite zlen_be_bytes). by rewrite zlen_be_bytes. Qed.

(** [*p++] in a buffer that has the room. *)
Lemma put_ok d e : zlen d + zlen e <= zlen out -> put (d ++ padd out (zlen d), zlen d) e = Ret ((d ++ e) ++ padd out (zlen (d ++ e)), zlen (d ++ e)).
Proof. intros H. unfold put. rewrite blit_next by lia. ret. by rewrite zlen_app. Qed.

End writer.

Lemma put_start out e : zlen e <= zlen out -> put (out, 0) e = Ret (e ++ padd out (zlen e), zlen e).
Proof. intros H. pose proof (put_ok out [] e ltac:(change (zlen []) with 0; lia)) as E. cbn [app] in E. by rewrite padd_0 in E. Qed.

(** ** The builders *)

Ltac msg_len := autorewrite with msg_len.
(** One bounded write: the message does not fit, or the write appends. *)
Ltac write_last :=
  match goal with
  | |- rbind (if ?b then _ else _) _ = _ =>
      let E := fresh in destruct b eqn:E; autorewrite with msg_len in E;
      [cbn [rbind]; match goal with |- _ = if ?c then _ else _ => replace c with true by lia end; reflexivity | ret]
  end.
Ltac write_step :=
  first [rewrite wr_u8_ok by done | rewrite wr_u16_ok by done | rewrite wr_u24_ok by done | rewrite wr_lit by (try done; lia)]; write_last.

(** A 24-bit length written last. *)
Lemma backfill_ok t out cap d body :
  d = t :: be_bytes 3 0 ++ body ->
  (let! buf := blit (w_buf (written out cap d)) 1 (u24_bytes (w_pos (written out cap d) - 4)) in Ret (w_pos (written out cap d), buf))
  = Ret (zlen (hs_msg t body), hs_msg t body ++ padd out (zlen (hs_msg t body))).
Proof.
  intros ->. unfold written, u24_bytes. cbn [w_buf w_pos]. rewrite be24_u8. msg_len. replace (3 + zlen body + 1) with (4 + zlen body) by lia.
  replace (4 + zlen body - 4) with (zlen body) by lia. set (rest := padd out _).
  change ((t :: be_bytes 3 0 ++ body) ++ rest) with ([t] ++ (be_bytes 3 0 ++ body) ++ rest). rewrite <- app_assoc.
  rewrite (blit_at [t]) by (msg_len; done). ret. unfold hs_msg, vec24. cbn [app]. by rewrite <- app_assoc.
Qed.

Definition psk_of (i : Z) : option Z := if 0 <=? i then Some i else None.
Definition psk_part (psk : Z) : list Z := match psk_of psk with Some i => extension 0x29 (be16 i) | None => [] end.

Lemma wr_session out cap d sid n :
  cap <= zlen out -> zlen d <= cap -> 0 <= n <= zlen sid ->
  (if 0 <? n then wr_bytes (written out cap d) sid n else Ret (written out cap d)) = wr_bytes (written out cap d) (ztake n sid) n.
Proof.
  intros Hcap Hd Hn. assert (Hl : zlen (ztake n sid) = n) by (rewrite zlen_ztake; lia). zcase.
  - rewrite !wr_bytes_ok by lia. by rewrite (ztake_all (ztake n sid)) by lia.
  - assert (n = 0) as -> by lia. rewrite wr_bytes_ok by lia. replace (cap <? zlen d + 0) with false by lia.
    change (ztake 0 (ztake 0 sid)) with (@nil Z). by rewrite app_nil_r.
Qed.

Lemma wr_psk out cap d psk :
  cap <= zlen out -> zlen d <= cap -> psk <= 0xffff ->
  (if 0 <=? psk then
     let! w := wr_u16 (written out cap d) 0x0029 in
     let! w := wr_u16 w 2 in
     wr_u16 w (u16 psk)
   else Ret (written out cap d))
  = if cap <? zlen d + zlen (psk_part psk) then Fail else Ret (written out cap (d ++ psk_part psk)).
Proof.
  intros Hcap Hd Hk. unfold psk_part, psk_of. destruct (Z.leb_spec 0 psk); msg_len.
  - do 2 write_step. rewrite wr_u16_ok by done. msg_len. replace (u16 psk) with psk by (unfold u16; rewrite Z.mod_small; lia).
    replace (zlen d + 2 + 2 + 2) with (zlen d + (4 + 2)) by lia. zcase; [done|]. unfold extension, vec16. rewrite zlen_be16. by rewrite <- !app_assoc.
  - replace (cap <? zlen d + 0) with false by lia. by rewrite app_nil_r.
Qed.

Lemma server_hello_ok out cap random pubkey sid n psk :
  cap <= zlen out -> zlen random = 32 -> zlen pubkey = 32 -> 0 <= n <= zlen sid -> n <= 32 -> psk <= 0xffff ->
  builds (tls13_build_server_hello_psk out cap random pubkey sid n psk) out cap (rfc_server_hello random pubkey (ztake n sid) (psk_of psk)).
Proof.
  intros Hcap Hr Hp Hs Hn Hk. assert (Hsid : zlen (ztake n sid) = n) by (rewrite zlen_ztake; lia).
  assert (Hpp : zlen (psk_part psk) = if 0 <=? psk then 6 else 0) by (unfold psk_part, psk_of; destruct (0 <=? psk); msg_len; done).
  unfold builds, rfc_server_hello. fold (psk_part psk). set (m := hs_msg 2 _).
  assert (Hm : zlen m = 90 + n + zlen (psk_part psk)) by (unfold m; msg_len; lia).
  unfold tls13_build_server_hello_psk. replace (32 <? n) with false by lia. replace (0xffff <? psk) with false by lia. cbv zeta.
  replace (mk_wr out 0 cap) with (written out cap []) by (unfold written; cbn [app]; change (zlen []) with 0; by rewrite padd_0, Z.sub_0_r).
  pose proof (zlen_nonneg (psk_part psk)).
  do 5 write_step.
  rewrite wr_session by (try done; msg_len; lia). do 12 write_step.
  rewrite wr_psk by (try done; msg_len; lia). write_last.
  replace (cap <? zlen m) with false by lia. change (w_pos (written out cap ([] ++ [u8 2]))) with 1.
  change (w_pos (written out cap (([] ++ [u8 2]) ++ be_bytes 3 0))) with 4.
  apply (backfill_ok 2). unfold vec8, extension, vec16. msg_len. rewrite Hp, Hpp, Hsid, <- !app_assoc. cbn [app].
  replace (u8 n) with n by (unfold u8; rewrite Z.mod_small; lia). by destruct (0 <=? psk).
Qed.

Lemma encrypted_extensions_ok out cap early :
  cap <= zlen out -> builds (tls13_build_encrypted_extensions_ex out cap early) out cap (rfc_encrypted_extensions early).
Proof.
  intros Hcap. unfold builds, tls13_build_encrypted_extensions_ex, tls13_build_encrypted_extensions.
  destruct early; cbn [negb]; [change (zlen (rfc_encrypted_extensions _)) with 10 | change (zlen (rfc_encrypted_extensions _)) with 6].
  all: zcase; [done|]; rewrite blit_ok by (msg_len; lia); reflexivity.
Qed.

Lemma finished_ok out cap vd : cap <= zlen out -> zlen vd = 32 -> builds (tls13_build_finished out cap vd) out cap (rfc_finished vd).
Proof.
  intros Hcap Hv. unfold builds, tls13_build_finished, rfc_finished. msg_len. rewrite Hv. change (4 + 32) with 36. zcase; [done|].
  rewrite blit_ok by (msg_len; lia). ret. rewrite rdn_ok, ztake_all by lia. ret.
  change (ztake 0 out) with (@nil Z). change (0 + zlen [20; 0; 0; 32]) with (zlen [20; 0; 0; 32]). cbn [app].
  change (20 :: 0 :: 0 :: 32 :: padd out (zlen [20; 0; 0; 32])) with ([20; 0; 0; 32] ++ padd out (zlen [20; 0; 0; 32])).
  rewrite blit_next by (msg_len; lia). ret. unfold hs_msg, vec24. rewrite zlen_app, Hv. reflexivity.
Qed.

Lemma certificate_list_cons c certs : rfc_certificate_list (c :: certs) = (vec24 c ++ vec16 []) ++ rfc_certificate_list certs.
Proof. reflexivity. Qed.

Lemma zlen_certificate_list c certs : zlen (rfc_certificate_list (c :: certs)) = 3 + zlen c + 2 + zlen (rfc_certificate_list certs).
Proof. rewrite certificate_list_cons. msg_len. lia. Qed.

Lemma cert_total_ok certs a :
  0 <= a -> Forall (fun c => zlen c <= 0xFFFFFF) certs -> a + zlen (rfc_certificate_list certs) < 2 ^ 64 ->
  cert_total (map zlen certs) a = Ret (a + zlen (rfc_certificate_list certs)).
Proof.
  revert a. induction certs as [|c certs IH]; intros a Ha Hc Hs; [cbn [map cert_total]; f_equal; change (zlen (rfc_certificate_list [])) with 0; lia|].
  apply Forall_cons_1 in Hc as [Hc Hcs]. rewrite zlen_certificate_list in *. cbn [map cert_total]. pose proof (zlen_nonneg c).
  pose proof (zlen_nonneg (rfc_certificate_list certs)). replace (0xFFFFFF <? zlen c) with false by lia.
  unfold u64. rewrite Z.mod_small by lia. rewrite IH by (done || lia). f_equal. lia.
Qed.

Lemma cert_total_long certs a : Exists (fun c => 0xFFFFFF < zlen c) certs -> cert_total (map (@zlen Z) certs) a = Fail.
Proof.
  intros H. revert a. induction H as [c certs Hc|c certs Hc IH]; intros a; cbn [map cert_total].
  - by replace (0xFFFFFF <? zlen c) with true by lia.
  - zcase; [done|]. apply IH.
Qed.

(** A certificate too long makes the list too long. *)
Lemma certificate_list_short certs : zlen (rfc_certificate_list certs) <= 0xFFFFFF -> Forall (fun c => zlen c <= 0xFFFFFF) certs.
Proof.
  induction certs as [|c certs IH]; intros H; [constructor|]. rewrite zlen_certificate_list in H.
  pose proof (zlen_nonneg c). pose proof (zlen_nonneg (rfc_certificate_list certs)). constructor; [lia|]. apply IH. lia.
Qed.

Lemma certificate_list_bound certs : Forall (fun c => zlen c <= 0xFFFFFF) certs -> zlen (rfc_certificate_list certs) <= zlen certs * (0xFFFFFF + 5).
Proof. induction 1 as [|c certs Hc _ IH]; [done|]. rewrite zlen_certificate_list, zlen_cons. lia. Qed.

Lemma cert_entries_ok out chain certs : forall d pre rest,
  chain = pre ++ mjoin certs ++ rest -> zlen d + zlen (rfc_certificate_list certs) <= zlen out ->
  cert_entries chain (map zlen certs) (zlen pre) (d ++ padd out (zlen d), zlen d)
  = Ret ((d ++ rfc_certificate_list certs) ++ padd out (zlen (d ++ rfc_certificate_list certs)), zlen (d ++ rfc_certificate_list certs)).
Proof.
  induction certs as [|c certs IH]; intros d pre rest Hch Hr.
  { cbn [map cert_entries]. change (rfc_certificate_list []) with (@nil Z). by rewrite app_nil_r. }
  rewrite zlen_certificate_list in Hr. pose proof (zlen_nonneg c). pose proof (zlen_nonneg (rfc_certificate_list certs)). pose proof (zlen_nonneg d).
  cbn [map cert_entries]. unfold u24_bytes. rewrite be24_u8.
  assert (Ep : padd chain (zlen pre) = c ++ mjoin certs ++ rest).
  { rewrite Hch. cbn [mjoin list_join]. rewrite padd_app by done. by rewrite <- app_assoc. }
  rewrite put_ok by (msg_len; lia). ret. rewrite Ep, rdn_app by done. ret. rewrite put_ok by (msg_len; lia). ret. rewrite put_ok by (msg_len; lia). ret.
  replace (zlen pre + zlen c) with (zlen (pre ++ c)) by apply zlen_app.
  erewrite IH; [|rewrite Hch; cbn [mjoin list_join]; by rewrite <- !app_assoc|msg_len; lia].
  replace (((d ++ be_bytes 3 (zlen c)) ++ c) ++ [0; 0]) with (d ++ vec24 c ++ vec16 []) by (unfold vec24; by rewrite <- !app_assoc).
  by rewrite certificate_list_cons, <- (app_assoc d).
Qed.

Lemma certificate_ok out cap certs rest :
  cap <= zlen out -> zlen certs < 2 ^ 32 ->
  let r := tls13_build_certificate out cap (mjoin certs ++ rest) (map zlen certs) in
  if 0xFFFFFF <? 4 + zlen (rfc_certificate_list certs) then r = Fail else builds r out cap (rfc_certificate certs).
Proof.
  intros Hcap Hn r. unfold r, tls13_build_certificate. clear r. set (L := rfc_certificate_list certs).
  destruct (decide (Forall (fun c => zlen c <= 0xFFFFFF) certs)) as [Hc|Hc].
  - pose proof (certificate_list_bound certs Hc) as Hb. fold L in Hb. rewrite cert_total_ok by (try done; fold L; lia). fold L. ret. rewrite Z.add_0_l. cbv zeta.
    destruct (Z.ltb_spec 0xFFFFFF (4 + zlen L)); [destruct (Z.ltb_spec 0xFFFFFF (zlen L)); [done|]; by replace (0xFFFFFF <? 1 + 3 + zlen L) with true by lia|].
    pose proof (zlen_nonneg L). replace (0xFFFFFF <? zlen L) with false by lia. replace (0xFFFFFF <? 1 + 3 + zlen L) with false by lia.
    unfold builds, rfc_certificate. fold L. msg_len. replace (4 + (1 + 0 + (3 + zlen L))) with (4 + (1 + 3 + zlen L)) by lia. zcase; [done|].
    unfold u24_bytes. rewrite !be24_u8. rewrite put_start by (msg_len; lia). ret. rewrite put_ok by (msg_len; lia). ret. rewrite put_ok by (msg_len; lia). ret.
    set (d := (_ ++ [0]) ++ _). pose proof (cert_entries_ok out (mjoin certs ++ rest) certs d [] rest eq_refl) as E. change (zlen []) with 0 in E. fold L in E.
    rewrite E by (unfold d; msg_len; lia). ret. unfold d.
    replace ((((11 :: be_bytes 3 (1 + 3 + zlen L)) ++ [0]) ++ be_bytes 3 (zlen L)) ++ L) with (hs_msg 11 (vec8 [] ++ vec24 L)).
    + do 2 f_equal; [|f_equal; f_equal]; msg_len; lia.
    + unfold hs_msg, vec24 at 1. msg_len. replace (1 + 0 + (3 + zlen L)) with (1 + 3 + zlen L) by lia. cbn [app]. by rewrite <- !app_assoc.
  - assert (Hl : Exists (fun c => 0xFFFFFF < zlen c) certs).
    { apply not_Forall_Exists in Hc; [|apply _]. eapply Exists_impl; [|exact Hc]. intros c. cbn. lia. }
    rewrite (cert_total_long _ _ Hl). cbn [rbind].
    destruct (Z.ltb_spec 0xFFFFFF (4 + zlen L)); [done|]. exfalso. apply Hc. apply certificate_list_short. fold L. lia.
Qed.

Lemma new_session_ticket_ok out cap lifetime age_add nonce id early :
  cap <= zlen out -> 1 <= zlen nonce <= 255 -> 1 <= zlen id <= 0xffff ->
  builds (tls13_build_new_session_ticket out cap lifetime age_add nonce (zlen nonce) id (zlen id) early) out cap
    (rfc_new_session_ticket lifetime age_add nonce id early).
Proof.
  intros Hcap Hn Hi. unfold builds, tls13_build_new_session_ticket. replace ((zlen nonce =? 0) || (255 <? zlen nonce)) with false by lia.
  replace ((zlen id =? 0) || (0xffff <? zlen id)) with false by lia. cbv zeta. set (X := if 0 <? early then 8 else 0).
  set (e := if 0 <? early then extension 0x2a (be_bytes 4 early) else []).
  assert (Hx : zlen e = X) by (unfold e, X; by destruct (0 <? early)). assert (Hb : 0 <= X <= 8) by (unfold X; zcase; lia).
  set (body := 4 + 4 + 1 + zlen nonce + 2 + zlen id + 2 + X). assert (Hm : zlen (rfc_new_session_ticket lifetime age_add nonce id early) = 4 + body).
  { unfold rfc_new_session_ticket. fold e. msg_len. lia. }
  rewrite Hm. replace (0xffffff <? body) with false by lia. zcase; [done|]. rewrite !u8_land, be24_u8, !u32_bytes_ok, !u16_bytes_ok.
  rewrite put_start by (msg_len; lia). ret. rewrite put_ok by (msg_len; lia). ret. rewrite put_ok by (msg_len; lia). ret. rewrite put_ok by (msg_len; lia). ret.
  rewrite rdn_ok, ztake_all by lia. ret. rewrite put_ok by (msg_len; lia). ret. rewrite put_ok by (msg_len; lia). ret.
  rewrite rdn_ok, ztake_all by lia. ret. rewrite put_ok by (msg_len; lia). ret. rewrite put_ok by (msg_len; lia). ret.
  set (d := _ ++ be16 X). assert (Hd : zlen d + X = 4 + body) by (unfold d; msg_len; lia).
  assert (Ed : d ++ e = rfc_new_session_ticket lifetime age_add nonce id early).
  { unfold rfc_new_session_ticket. fold e. unfold hs_msg, vec24. msg_len. unfold vec8, vec16, d. rewrite Hx.
    replace (4 + (4 + (1 + zlen nonce + (2 + zlen id + (2 + X))))) with body by lia.
    replace (u8 (zlen nonce)) with (zlen nonce) by (unfold u8; rewrite Z.mod_small; lia). cbn [app]. rewrite <- !app_assoc. reflexivity. }
  assert (Ep : (if negb (X =? 0) then put (d ++ padd out (zlen d), zlen d) ([0; 0x2a; 0; 4] ++ be_bytes 4 early) else Ret (d ++ padd out (zlen d), zlen d))
               = Ret ((d ++ e) ++ padd out (zlen (d ++ e)), zlen (d ++ e))).
  { unfold X in Hd |- *. unfold e. destruct (0 <? early); cbn [negb Z.eqb]; [|by rewrite app_nil_r]. rewrite put_ok by (msg_len; lia). reflexivity. }
  rewrite Ep. ret. by rewrite Ed, Hm.
Qed.

Lemma signed_content_ok out th :
  zlen out = TLS13_CV_SIGNED_LEN -> zlen th = 32 ->
  tls13_build_certificate_verify_signed_data out th true = Ret (rfc_signed_content TLS13_CV_LABEL_SERVER th).
Proof.
  intros Ho Ht. unfold tls13_build_certificate_verify_signed_data, TLS13_CV_SIGNED_LEN, rfc_signed_content in *.
  set (pad := replicate 64 0x20). assert (Hp : zlen pad = 64) by reflexivity. clearbody pad.
  set (label := TLS13_CV_LABEL_SERVER). assert (Hl : zlen label = 33) by reflexivity. clearbody label.
  rewrite blit_ok by lia. ret. change (ztake 0 out) with (@nil Z). rewrite app_nil_l, Z.add_0_l. rewrite rdn_ok, ztake_all by lia. ret.
  rewrite blit_next by lia. ret. rewrite wr_next by (rewrite zlen_app; lia). ret. rewrite rdn_ok, ztake_all by lia. ret.
  assert (Hd : zlen ((pad ++ label) ++ [0]) = 98) by (rewrite !zlen_app; change (zlen [0]) with 1; lia).
  rewrite blit_next by lia. f_equal. replace (padd out _) with (@nil Z); [by rewrite app_nil_r, <- !app_assoc|].
  symmetry. unfold padd. apply drop_ge. rewrite zlen_app, Hd, Ht. unfold zlen in Ho. lia.
Qed.

Lemma pubkey_shape seed : Forall byte_ok (rfc8032_pubkey seed) /\ zlen (rfc8032_pubkey seed) = 32.
Proof. destruct (ed_encode_ok (ed_mul (secret_scalar seed) ed_base)) as [L B]. unfold rfc8032_pubkey, zlen. by rewrite L. Qed.

Lemma sign_shape m seed pk : Forall byte_ok (rfc8032_sign m seed pk) /\ zlen (rfc8032_sign m seed pk) = 64.
Proof.
  unfold rfc8032_sign. destruct (ed_encode_ok (ed_mul (hash_scalar (secret_prefix seed ++ m)) ed_base)) as [L B]. cbv zeta.
  split; [apply Forall_app_2; [exact B|apply le_bytes_ok]|]. rewrite zlen_app. unfold zlen. by rewrite L, length_le_bytes.
Qed.

Lemma label_server_ok : Forall byte_ok TLS13_CV_LABEL_SERVER.
Proof. vm_compute. repeat constructor; discriminate. Qed.

#[local] Opaque rfc8032_sign rfc8032_pubkey ed25519_sign ed25519_pubkey_from_seed.

Lemma certificate_verify_ok hs sd out cap th seed :
  buffer512_ok hs -> zlen sd = TLS13_CV_SIGNED_LEN -> cap <= zlen out -> Forall byte_ok th -> zlen th = 32 -> Forall byte_ok seed -> zlen seed = 32 ->
  builds (tls13_build_certificate_verify hs sd out cap th seed) out cap (rfc_certificate_verify th seed).
Proof.
  intros Hb Hsd Hcap Bt Ht Bs Hs. unfold builds, tls13_build_certificate_verify, rfc_certificate_verify.
  change (lit "TLS 1.3, server CertificateVerify") with TLS13_CV_LABEL_SERVER. set (m := rfc_signed_content _ th).
  set (sig := rfc8032_sign m seed (rfc8032_pubkey seed)). assert (Hl : zlen sig = 64) by apply sign_shape. msg_len. rewrite Hl. change (4 + (2 + (2 + 64))) with 72.
  change (4 + 2 + 2 + 64) with 72. zcase; [done|]. rewrite signed_content_ok by done. fold m. ret. rewrite pubkey_ok by done. ret.
  assert (Hml : zlen m = TLS13_CV_SIGNED_LEN) by (unfold m, rfc_signed_content; rewrite !zlen_app, Ht; reflexivity).
  assert (Hmb : Forall byte_ok m).
  { unfold m, rfc_signed_content. repeat apply Forall_app_2; [apply Forall_replicate; unfold byte_ok; lia|apply label_server_ok|repeat constructor; lia|done]. }
  destruct (pubkey_shape seed) as [Bp Hp]. rewrite sign_ok by (try done; unfold TLS13_CV_SIGNED_LEN in *; lia). rewrite (ztake_all m) by lia. fold sig. ret.
  rewrite put_start by (msg_len; lia). ret. rewrite rdn_ok, ztake_all by lia. ret. rewrite put_ok by (msg_len; lia). ret.
  unfold hs_msg, vec24, vec16. msg_len. rewrite Hl. reflexivity.
Qed.

(** ** The property *)

(** The limits of the arguments a builder refuses whatever the buffer. *)
Definition builds_if (ok : bool) (r : res (Z * list Z)) (out : list Z) (cap : Z) (m : list Z) : Prop := if ok then builds r out cap m else r = Fail.

(** C18: Every message builder writes exactly the message of RFC 8446 when the
    buffer has room for it, and fails without writing past the buffer otherwise:
    ServerHello with the echoed session id and an optional selected PSK,
    EncryptedExtensions with or without early_data, Certificate for any chain,
    CertificateVerify with the Ed25519 signature of the RFC's signed content,
    Finished, and NewSessionTicket.  It refuses a session id over 32 bytes, a PSK
    index over 16 bits, a certificate list over 24 bits, and a ticket nonce or
    ticket that is empty or too long for its length field. *)
Theorem server_messages_exact hs sd out cap random pubkey sid n psk early_data certs chain_rest th seed verify_data lifetime age_add nonce ticket early :
  cap <= zlen out -> zlen random = 32 -> zlen pubkey = 32 -> 0 <= n <= zlen sid -> zlen certs < 2 ^ 32 ->
  zlen (s5_buf hs) = 128 -> Forall byte_ok (s5_buf hs) -> zlen sd = TLS13_CV_SIGNED_LEN -> Forall byte_ok th -> zlen th = 32 ->
  Forall byte_ok seed -> zlen seed = 32 -> zlen verify_data = 32 ->
  builds_if ((n <=? 32) && (psk <=? 0xffff)) (tls13_build_server_hello_psk out cap random pubkey sid n psk) out cap
    (rfc_server_hello random pubkey (ztake n sid) (psk_of psk)) /\
  builds (tls13_build_encrypted_extensions_ex out cap early_data) out cap (rfc_encrypted_extensions early_data) /\
  builds_if (4 + zlen (rfc_certificate_list certs) <=? 0xFFFFFF) (tls13_build_certificate out cap (mjoin certs ++ chain_rest) (map zlen certs)) out cap
    (rfc_certificate certs) /\
  builds (tls13_build_certificate_verify hs sd out cap th seed) out cap (rfc_certificate_verify th seed) /\
  builds (tls13_build_finished out cap verify_data) out cap (rfc_finished verify_data) /\
  builds_if ((1 <=? zlen nonce) && (zlen nonce <=? 255) && (1 <=? zlen ticket) && (zlen ticket <=? 0xffff))
    (tls13_build_new_session_ticket out cap lifetime age_add nonce (zlen nonce) ticket (zlen ticket) early) out cap
    (rfc_new_session_ticket lifetime age_add nonce ticket early).
Proof.
  intros Hcap Hr Hp Hn Hc Hb1 Hb2 Hsd Bt Ht Bs Hs Hv. unfold builds_if. split_and!.
  - destruct ((n <=? 32) && (psk <=? 0xffff)) eqn:E; [apply server_hello_ok; lia|]. unfold tls13_build_server_hello_psk.
    destruct (Z.ltb_spec 32 n); [done|]. by replace (0xffff <? psk) with true by lia.
  - by apply encrypted_extensions_ok.
  - pose proof (certificate_ok out cap certs chain_rest Hcap Hc) as H. cbv zeta in H.
    replace (0xFFFFFF <? 4 + zlen (rfc_certificate_list certs)) with (negb (4 + zlen (rfc_certificate_list certs) <=? 0xFFFFFF)) in H by lia.
    by destruct (_ <=? _).
  - by apply certificate_verify_ok.
  - by apply finished_ok.
  - destruct (_ && _) eqn:E; [apply new_session_ticket_ok; lia|]. unfold tls13_build_new_session_ticket. destruct ((zlen nonce =? 0) || (255 <? zlen nonce)) eqn:E2; [done|].
    pose proof (zlen_nonneg nonce). pose proof (zlen_nonneg ticket). by replace ((zlen ticket =? 0) || (0xffff <? zlen ticket)) with true by lia.
Qed.

Lemma server_messages_exact_witness :
  builds (tls13_build_certificate_verify (mk_sha512 H0 0 0 (replicate 128 0) 0) (replicate 130 0) (replicate 200 0) 200 (replicate 32 7) (replicate 32 9))
    (replicate 200 0) 200 (rfc_certificate_verify (replicate 32 7) (replicate 32 9)).
Proof.
  unshelve refine (proj1 (proj2 (proj2 (proj2 (server_messages_exact (mk_sha512 H0 0 0 (replicate 128 0) 0) (replicate 130 0) (replicate 200 0) 200
    (replicate 32 1) (replicate 32 2) [] 0 (-1) false [[1; 2; 3]; [4]] [] (replicate 32 7) (replicate 32 9) (replicate 32 3) 7200 1 [1] [2] 0
    _ _ _ _ _ _ _ _ _ _ _ _ _))))).
  all: first [by vm_compute|apply Forall_replicate; unfold byte_ok; lia].
Defined.
