(* ===== verification/Driver.v ===== *)
(** * The server's handshake driver

    [userspace/quic/handshake_driver.c]: from the buffered ClientHello to the
    ServerHello, the Handshake keys and the server's flight.  The theorems show
    that the driver sends exactly the flight of RFC 8446 for that ClientHello, and
    that a client which holds the traffic secrets receives it. *)

From Stdlib Require Import ZArith Lia String.
From stdpp Require Import list numbers option.
From coqutil Require Import Datatypes.RecordSetters.
Import DoubleBraceUpdate.
From S2P Require Import Prelude Util Words Varint CryptoStream Sha256 Sha256Theorems Sha512 X25519 Ed25519 Ed25519Theorems Packet Kdf KdfTheorems TlsSchedule.
From S2P Require Import Conn ConnSafety ConnTheorems TlsHello TlsHelloProps TlsHelloTheorems TransportParams ConnHello TlsMessages.

Definition DRV_MSG_SCRATCH : Z := 4096.

(** [cert_lens] is the array of [n_certs] lengths.  The pointers are not NULL. *)
Record quic_server_cert_material_t := mk_cert { chain_der : list Z; cert_lens : list Z; ed25519_seed : list Z }.
Record quic_server_handshake_inputs_t := mk_inputs { server_priv_x25519 : list Z; server_random : list Z; cert : quic_server_cert_material_t }.

Section Model.
(** The contents of uninitialised local variables: as in [Conn], and the SHA-512
    context, the signed data of CertificateVerify, the message scratch, and the
    two traffic secrets. *)
Context (impl : sha256_impl) (junk : sha256_ctx) (hl0 : list Z) (big0 : quic_keys_t) (hs0 : sha512_ctx) (signed0 msg0 secret0 : list Z).

(** What follows every builder: the message in [scratch] joins the flight in [out]
    at [off] and the transcript.  [Fail] is [return -1], with [out] as it was. *)
Definition append_message (out_cap : Z) (scratch : list Z) (n : Z) (st : list Z * sha256_ctx * Z) : res (list Z * sha256_ctx * Z) :=
  let '(out, trans, off) := st in
  if (n <=? 0) || (out_cap - off <? n) then Fail
  else
    let! d := rdn scratch n in
    let! out := blit out off d in
    let! trans := tls13_transcript_update impl trans (padd out off) n in
    Ret (out, trans, off + n).

(** A step whose failure is [return -1]: the flight written so far stays. *)
Definition or_stop {A} (m : res A) (st : list Z * sha256_ctx * Z) (k : A -> res (option Z * list Z * sha256_ctx)) : res (option Z * list Z * sha256_ctx) :=
  match m with Ret a => k a | Fail => let '(out, trans, _) := st in Ret (None, out, trans) | Oob => Oob end.

(** [Some n] is 0 with [*out_len = n], [None] is -1. *)
Definition build_server_flight_handshake_blob (out : list Z) (out_cap : Z) (trans : sha256_ctx) (inp : quic_server_handshake_inputs_t) (server_hs_traffic_secret : list Z)
    : res (option Z * list Z * sha256_ctx) :=
  let st := (out, trans, 0) in
  or_stop (tls13_build_encrypted_extensions msg0 DRV_MSG_SCRATCH) st (fun '(ee_n, scratch) =>
  or_stop (append_message out_cap scratch ee_n st) st (fun st =>
  or_stop (tls13_build_certificate scratch DRV_MSG_SCRATCH (chain_der (cert inp)) (cert_lens (cert inp))) st (fun '(cert_n, scratch) =>
  or_stop (append_message out_cap scratch cert_n st) st (fun st =>
  let! th_thru_cert := tls13_transcript_snapshot impl (snd (fst st)) in
  or_stop (tls13_build_certificate_verify hs0 signed0 scratch DRV_MSG_SCRATCH th_thru_cert (ed25519_seed (cert inp))) st (fun '(cv_n, scratch) =>
  or_stop (append_message out_cap scratch cv_n st) st (fun st =>
  let! th_thru_cv := tls13_transcript_snapshot impl (snd (fst st)) in
  or_stop (tls13_compute_finished impl junk hl0 server_hs_traffic_secret th_thru_cv) st (fun verify_data =>
  or_stop (tls13_build_finished scratch DRV_MSG_SCRATCH verify_data) st (fun '(fin_n, scratch) =>
  or_stop (append_message out_cap scratch fin_n st) st (fun '(out, trans, off) =>
  Ret (Some off, out, trans)))))))))).

(** [nonzero |= ecdhe_shared[i]], 32 times *)
Definition nonzero (shared : list Z) : bool := negb (foldl Z.lor 0 (ztake 32 shared) =? 0).

(** The return value is 0 or -1.  [ch.raw] points to the unread bytes of the
    Initial reassembler, where the ClientHello was parsed. *)
Definition quic_server_drive_handshake (c : quic_conn_t) (inp : quic_server_handshake_inputs_t) : res (Z * quic_conn_t) :=
  if zlen (cert_lens (cert inp)) =? 0 then Ret (-1, c)
  else
    or_minus1 (quic_conn_initial_extract_client_hello c) c (fun x =>
    match x with
    | None => Ret (-1, c)
    | Some (ch, _) =>
        if negb (offers_tls13 ch) then Ret (-1, c)
        else if negb (offers_x25519 ch) then Ret (-1, c)
        else if negb (offers_ed25519 ch) then Ret (-1, c)
        else
          let! our_pub := x25519 (server_priv_x25519 inp) X25519_BASE_POINT in
          let! ecdhe_shared := x25519 (server_priv_x25519 inp) (ecdhe_pubkey ch) in
          if negb (nonzero ecdhe_shared) then Ret (-1, c)
          else if QUIC_CONN_DRV_INITIAL_CAP <? 256 then Ret (-1, c)
          else
            or_minus1 (tls13_build_server_hello (drv_initial_blob c) QUIC_CONN_DRV_INITIAL_CAP (server_random inp) our_pub (legacy_session_id ch) (legacy_session_id_len ch)) c
            (fun '(sh_n, blob) =>
            if sh_n <=? 0 then Ret (-1, c {{ drv_initial_blob := blob }})
            else
              let c := c {{ drv_initial_blob := blob; drv_initial_blob_len := sh_n }} in
              let trans := tls13_transcript_init junk in
              match quic_crypto_rx_peek (rx_initial c) with
              | (_, None) => Ret (-1, c)
              | (_, Some raw) =>
                  if raw_len ch =? 0 then Ret (-1, c)
                  else
                    let! trans := tls13_transcript_update impl trans raw (raw_len ch) in
                    let! trans := tls13_transcript_update impl trans (drv_initial_blob c) (drv_initial_blob_len c) in
                    let! th_thru_sh := tls13_transcript_snapshot impl trans in
                    or_minus1 (tls13_compute_handshake_secrets impl junk hl0 ecdhe_shared th_thru_sh secret0 secret0) c (fun '(hs_secret, c_hs_ts, s_hs_ts) =>
                    or_minus1 (quic_conn_install_handshake_secrets impl junk hl0 big0 c s_hs_ts c_hs_ts 32) c (fun c =>
                    let! (out_len, blob, trans) := build_server_flight_handshake_blob (drv_handshake_blob c) QUIC_CONN_DRV_HANDSHAKE_CAP trans inp s_hs_ts in
                    match out_len with
                    | None => Ret (-1, c {{ drv_handshake_blob := blob }})
                    | Some n =>
                        let! th := tls13_transcript_snapshot impl trans in
                        let c := c {{ drv_handshake_blob := blob; drv_handshake_blob_len := n; transcript_hash_thru_server_fin := th; q_handshake_secret := hs_secret;
                                      client_handshake_traffic_secret := c_hs_ts; server_handshake_traffic_secret := s_hs_ts; have_handshake_state := true }} in
                        let c := quic_conn_initial_tx_set_pending c (drv_initial_blob c) (drv_initial_blob_len c) in
                        Ret (0, quic_conn_handshake_tx_set_pending c (drv_handshake_blob c) (drv_handshake_blob_len c))
                    end))
              end)
    end).
End Model.

(** ** The server's flight of RFC 8446

    After the messages [prior], under the server's traffic secret. *)

Definition rfc_server_flight (prior : list Z) (certs : list (list Z)) (seed secret : list Z) : list Z :=
  let ee := rfc_encrypted_extensions false in
  let ct := rfc_certificate certs in
  let cv := rfc_certificate_verify (sha256_hash (prior ++ ee ++ ct)) seed in
  ee ++ ct ++ cv ++ rfc_finished (finished_mac secret (sha256_hash (prior ++ ee ++ ct ++ cv))).

(** The inputs: keys of 32 bytes, and a chain that is at least the certificates. *)
Record inputs_ok (inp : quic_server_handshake_inputs_t) (certs : list (list Z)) : Prop := {
  ip_priv : secret_ok (server_priv_x25519 inp);
  ip_random : secret_ok (server_random inp);
  ip_seed : secret_ok (ed25519_seed (cert inp));
  ip_chain : exists rest, chain_der (cert inp) = mjoin certs ++ rest;
  ip_lens : cert_lens (cert inp) = map zlen certs;
  ip_count : 0 < zlen certs < 2 ^ 32;
  ip_bytes : Forall (Forall byte_ok) certs
}.

(** ** The messages are bytes *)

Lemma vec16_ok l : Forall byte_ok l -> Forall byte_ok (vec16 l).
Proof. intros H. apply Forall_app_2; [apply be_bytes_ok|exact H]. Qed.

Lemma vec24_ok l : Forall byte_ok l -> Forall byte_ok (vec24 l).
Proof. intros H. apply Forall_app_2; [apply be_bytes_ok|exact H]. Qed.

Lemma hs_msg_ok t l : byte_ok t -> Forall byte_ok l -> Forall byte_ok (hs_msg t l).
Proof. intros Ht H. constructor; [exact Ht|by apply vec24_ok]. Qed.

Lemma certificate_bytes certs : Forall (Forall byte_ok) certs -> Forall byte_ok (rfc_certificate certs).
Proof.
  intros H. apply hs_msg_ok; [done|]. constructor; [done|]. apply vec24_ok. induction H as [|c certs Hc _ IH]; [constructor|]. rewrite certificate_list_cons.
  apply Forall_app_2; [apply Forall_app_2; [by apply vec24_ok|by apply vec16_ok]|exact IH].
Qed.

Lemma certificate_verify_bytes th seed : Forall byte_ok (rfc_certificate_verify th seed).
Proof. apply hs_msg_ok; [done|]. apply Forall_app_2; [apply be_bytes_ok|]. apply vec16_ok, sign_shape. Qed.

Lemma zlen_certificate_verify th seed : zlen (rfc_certificate_verify th seed) = 72.
Proof. unfold rfc_certificate_verify. msg_len. destruct (sign_shape (rfc_signed_content (lit "TLS 1.3, server CertificateVerify") th) seed (rfc8032_pubkey seed)) as [_ ->]. done. Qed.

Lemma server_hello_bytes random pubkey session psk :
  Forall byte_ok random -> Forall byte_ok pubkey -> Forall byte_ok session -> zlen session <= 32 -> Forall byte_ok (rfc_server_hello random pubkey session psk).
Proof.
  intros Hr Hp Hs Hl. pose proof (zlen_nonneg session). apply hs_msg_ok; [done|].
  assert (He : forall t l, Forall byte_ok l -> Forall byte_ok (extension t l)) by (intros t l H1; apply Forall_app_2; [apply be_bytes_ok|by apply vec16_ok]).
  apply Forall_app_2; [apply be_bytes_ok|]. apply Forall_app_2; [done|]. apply Forall_app_2; [constructor; [unfold byte_ok; lia|done]|].
  apply Forall_app_2; [apply be_bytes_ok|]. apply Forall_app_2; [by repeat constructor|]. apply vec16_ok.
  apply Forall_app_2; [apply He, be_bytes_ok|]. apply Forall_app_2; [apply He, Forall_app_2; [apply be_bytes_ok|by apply vec16_ok]|].
  destruct psk; [apply He, be_bytes_ok|constructor].
Qed.

(** ** The flight *)

Lemma finished_mac_secret base th : secret_ok (finished_mac base th).
Proof. apply hmac_secret. Qed.

#[local] Opaque sha256_hash hmac expand_label finished_mac rfc8032_sign rfc8032_pubkey rfc_certificate_verify.

Section Flight.
Context (impl : sha256_impl) (junk : sha256_ctx) (hl0 : list Z) (hs0 : sha512_ctx) (signed0 msg0 : list Z).
Context (Hloc : locals_ok junk hl0) (Hhs : buffer512_ok hs0) (Hsig : zlen signed0 = 130) (Hmsg : zlen msg0 = 4096).

(** One message joins the flight. *)
Lemma append_ok out cap d trans prior m scratch :
  Forall byte_ok out -> Forall byte_ok d -> Forall byte_ok m -> absorbed trans prior -> 0 < zlen m -> cap <= zlen out -> zlen d + zlen m <= cap ->
  exists t, append_message impl cap (m ++ scratch) (zlen m) (d ++ padd out (zlen d), trans, zlen d)
    = Ret ((d ++ m) ++ padd out (zlen (d ++ m)), t, zlen (d ++ m)) /\ absorbed t (prior ++ m).
Proof.
  intros Ho Hd Hm Ha Hp Hc Hl. unfold append_message. replace ((zlen m <=? 0) || (cap - zlen d <? zlen m)) with false by lia.
  rewrite rdn_app by done. ret. rewrite blit_next by lia. ret. rewrite <- app_assoc, padd_app by done. rewrite zlen_app.
  assert (Hb : Forall byte_ok (m ++ padd out (zlen d + zlen m))) by (apply Forall_app_2; [done|by apply Forall_drop]).
  destruct (sha256_update_ok impl trans prior (m ++ padd out (zlen d + zlen m)) (zlen m) Ha Hb) as (t & Et & Hat); [pose proof (zlen_nonneg (padd out (zlen d + zlen m))); rewrite zlen_app; lia|].
  unfold tls13_transcript_update. rewrite Et. ret. rewrite ztake_app in Hat by done. by exists t.
Qed.

(** One message built and joined, in the state after the messages [d]. *)
Definition so_far (out d : list Z) (t : sha256_ctx) : list Z * sha256_ctx * Z := (d ++ padd out (zlen d), t, zlen d).

Lemma message_step r m scratch out d trans prior :
  builds r scratch 4096 m -> zlen scratch = 4096 -> 0 < zlen m <= 4096 -> zlen d + zlen m <= 8192 <= zlen out ->
  Forall byte_ok out -> Forall byte_ok d -> Forall byte_ok m -> absorbed trans prior ->
  exists s t, zlen s = 4096 /\ absorbed t (prior ++ m) /\ forall k,
    or_stop r (so_far out d trans) (fun '(n, s) => or_stop (append_message impl 8192 s n (so_far out d trans)) (so_far out d trans) (fun st => k s st))
    = k s (so_far out (d ++ m) t).
Proof.
  intros Hr Hs Hm Hd Ho Bd Bm Ha. unfold builds in Hr. replace (4096 <? zlen m) with false in Hr by lia.
  destruct (append_ok out 8192 d trans prior m (padd scratch (zlen m)) Ho Bd Bm Ha ltac:(lia) ltac:(lia) ltac:(lia)) as (t & Et & Hat).
  exists (m ++ padd scratch (zlen m)), t. split; [rewrite zlen_app, zlen_padd; lia|]. split; [exact Hat|].
  intros k. rewrite Hr. cbn [or_stop]. unfold so_far in *. rewrite Et. reflexivity.
Qed.

Lemma flight_ok out trans prior inp certs secret :
  Forall byte_ok out -> zlen out = QUIC_CONN_DRV_HANDSHAKE_CAP -> absorbed trans prior -> inputs_ok inp certs -> secret_ok secret ->
  let F := rfc_server_flight prior certs (ed25519_seed (cert inp)) secret in
  let ee := rfc_encrypted_extensions false in
  exists t, build_server_flight_handshake_blob impl junk hl0 hs0 signed0 msg0 out QUIC_CONN_DRV_HANDSHAKE_CAP trans inp secret
    = Ret (if zlen (rfc_certificate certs) <=? DRV_MSG_SCRATCH then (Some (zlen F), F ++ padd out (zlen F), t) else (None, ee ++ padd out (zlen ee), t)) /\
    (zlen (rfc_certificate certs) <= DRV_MSG_SCRATCH -> absorbed t (prior ++ F)).
Proof.
  intros Ho Hol Ha Hi Hsec F ee. unfold QUIC_CONN_DRV_HANDSHAKE_CAP, DRV_MSG_SCRATCH in *. unfold build_server_flight_handshake_blob. cbv zeta.
  replace (out, trans, 0) with (so_far out [] trans) by (unfold so_far; cbn [app]; change (zlen []) with 0; by rewrite padd_0).
  assert (Ee : zlen ee = 6) by done. assert (Be : Forall byte_ok ee) by (by apply bytes_okb_ok).
  destruct (message_step _ ee msg0 out [] trans prior (encrypted_extensions_ok msg0 4096 false ltac:(lia)) Hmsg ltac:(lia)) as (s1 & t1 & L1 & A1 & K1); [change (zlen []) with 0; lia|done|constructor|done|done|].
  unfold DRV_MSG_SCRATCH. change (tls13_build_encrypted_extensions_ex msg0 4096 false) with (tls13_build_encrypted_extensions msg0 4096) in K1. rewrite K1. clear K1. cbn [app].
  destruct (ip_chain _ _ Hi) as [rest ->]. rewrite (ip_lens _ _ Hi). set (ct := rfc_certificate certs) in *.
  pose proof (certificate_ok s1 4096 certs rest ltac:(lia) ltac:(apply (ip_count _ _ Hi))) as Hct. cbv zeta in Hct.
  assert (Lc : zlen ct = 8 + zlen (rfc_certificate_list certs)) by (unfold ct, rfc_certificate; msg_len; lia).
  destruct (Z.leb_spec (zlen ct) 4096) as [Hfit|Hfit].
  - replace (0xFFFFFF <? 4 + zlen (rfc_certificate_list certs)) with false in Hct by lia. pose proof (zlen_nonneg (rfc_certificate_list certs)).
    assert (Bc : Forall byte_ok ct) by (apply certificate_bytes, (ip_bytes _ _ Hi)).
    destruct (message_step _ ct s1 out ee t1 _ Hct L1 ltac:(lia) ltac:(lia) Ho Be Bc A1) as (s2 & t2 & L2 & A2 & K2). rewrite K2. clear K2. unfold so_far at 1. cbn [fst snd].
    rewrite (snapshot_ok _ _ _ A2). ret. destruct (ip_seed _ _ Hi) as [Bs Ls]. set (th := sha256_hash ((prior ++ ee) ++ ct)) in *. destruct (hash_secret ((prior ++ ee) ++ ct)) as [Bt Lt]. fold th in Bt, Lt.
    set (cv := rfc_certificate_verify th (ed25519_seed (cert inp))). assert (Lv : zlen cv = 72) by apply zlen_certificate_verify. assert (Bv : Forall byte_ok cv) by apply certificate_verify_bytes.
    assert (B2 : Forall byte_ok (ee ++ ct)) by (by apply Forall_app_2).
    destruct (message_step _ cv s2 out (ee ++ ct) t2 ((prior ++ ee) ++ ct) (certificate_verify_ok hs0 signed0 s2 4096 th _ Hhs Hsig ltac:(lia) Bt Lt Bs Ls) L2 ltac:(lia)) as (s3 & t3 & L3 & A3 & K3); [rewrite zlen_app; lia|done..|].
    rewrite K3. clear K3. unfold so_far at 1. cbn [fst snd]. rewrite (snapshot_ok _ _ _ A3). ret. set (th3 := sha256_hash (((prior ++ ee) ++ ct) ++ cv)) in *.
    rewrite (compute_finished_ok _ _ _ Hloc) by (done || apply hash_secret). cbn [or_stop]. set (fin := rfc_finished (finished_mac secret th3)).
    destruct (finished_mac_secret secret th3) as [Bf Lf].
    assert (Lfin : zlen fin = 36) by (unfold fin, rfc_finished; msg_len; lia). assert (Bfin : Forall byte_ok fin) by (by apply hs_msg_ok).
    destruct (message_step _ fin s3 out ((ee ++ ct) ++ cv) t3 (((prior ++ ee) ++ ct) ++ cv) (finished_ok s3 4096 _ ltac:(lia) Lf) L3 ltac:(lia)) as (s4 & t4 & L4 & A4 & K4); [rewrite !zlen_app; lia|done|by apply Forall_app_2|done|done|].
    rewrite K4. clear K4. unfold so_far. assert (EF : (((ee ++ ct) ++ cv) ++ fin) = F).
    { unfold F, rfc_server_flight. cbv zeta. fold ee ct. unfold fin, th3, cv, th. rewrite <- !app_assoc. reflexivity. }
    exists t4. rewrite EF. split; [reflexivity|]. intros _. rewrite <- EF, <- !app_assoc in *. exact A4.
  - assert (Hno : tls13_build_certificate s1 4096 (mjoin certs ++ rest) (map zlen certs) = Fail).
    { destruct (_ <? _); [exact Hct|]. unfold builds in Hct. by replace (4096 <? zlen (rfc_certificate certs)) with true in Hct by (fold ct; lia). }
    rewrite Hno. cbn [or_stop so_far]. exists t1. split; [reflexivity|lia].
Qed.
End Flight.

(** ** The driver *)

Section Answer.
(** A connection, the server's inputs, and the ClientHello with its bytes. *)
Context (c : quic_conn_t) (inp : quic_server_handshake_inputs_t) (certs : list (list Z)) (h : tls13_client_hello_t) (hello : list Z).

Definition shared_secret : list Z := rfc7748_x25519 (server_priv_x25519 inp) (ecdhe_pubkey h).
Definition server_hello : list Z :=
  rfc_server_hello (server_random inp) (rfc7748_x25519 (server_priv_x25519 inp) X25519_BASE_POINT) (ztake (legacy_session_id_len h) (legacy_session_id h)) None.
Definition client_secret : list Z := derive_secret (handshake_secret None shared_secret) (lit "c hs traffic") (hello ++ server_hello).
Definition server_secret : list Z := derive_secret (handshake_secret None shared_secret) (lit "s hs traffic") (hello ++ server_hello).
Definition server_flight : list Z := rfc_server_flight (hello ++ server_hello) certs (ed25519_seed (cert inp)) server_secret.

(** What the driver asks of a ClientHello. *)
Definition acceptable : bool := offers_tls13 h && offers_x25519 h && offers_ed25519 h && negb (bool_decide (shared_secret = zero32)).

(** The connection with the keys; they are installed once. *)
Definition with_keys : quic_conn_t :=
  let c := c {{ drv_initial_blob := server_hello ++ padd (drv_initial_blob c) (zlen server_hello); drv_initial_blob_len := zlen server_hello }} in
  if handshake_keys_ready c then c else keyed c server_secret client_secret.

(** The connection that answers, and the one the driver leaves when the chain does
    not fit. *)
Definition answered : quic_conn_t :=
  let blob := server_flight ++ padd (drv_handshake_blob c) (zlen server_flight) in
  let c := with_keys {{ drv_handshake_blob := blob; drv_handshake_blob_len := zlen server_flight;
                        transcript_hash_thru_server_fin := sha256_hash ((hello ++ server_hello) ++ server_flight);
                        q_handshake_secret := handshake_secret None shared_secret; client_handshake_traffic_secret := client_secret;
                        server_handshake_traffic_secret := server_secret; have_handshake_state := true }} in
  c {{ tx_initial := mk_tx (drv_initial_blob c) (drv_initial_blob_len c) (tx_next_offset (tx_initial c));
       tx_handshake := mk_tx blob (zlen server_flight) (tx_next_offset (tx_handshake c)) }}.
Definition refused : quic_conn_t :=
  with_keys {{ drv_handshake_blob := rfc_encrypted_extensions false ++ padd (drv_handshake_blob c) (zlen (rfc_encrypted_extensions false)) }}.
End Answer.

Lemma lor_fold_zero l : forall a, 0 <= a -> Forall byte_ok l -> foldl Z.lor a l = 0 <-> a = 0 /\ l = replicate (length l) 0.
Proof.
  induction l as [|x l IH]; intros a Ha Hl; [cbn; tauto|]. apply Forall_cons_1 in Hl as [Hx Hl]. unfold byte_ok in Hx. cbn [foldl length replicate].
  rewrite IH by (try done; apply Z.lor_nonneg; lia). rewrite Z.lor_eq_0_iff. split; [intros [[-> ->] <-]; done|intros [-> [= -> H]]]. by rewrite <- H.
Qed.

Lemma nonzero_ok l : secret_ok l -> nonzero l = negb (bool_decide (l = zero32)).
Proof.
  intros [Hb Hl]. unfold nonzero. rewrite ztake_all by lia. f_equal. pose proof (lor_fold_zero l 0 ltac:(lia) Hb) as H.
  replace (length l) with 32%nat in H by (unfold zlen in Hl; lia). destruct (Z.eqb_spec (foldl Z.lor 0 l) 0) as [E|E]; symmetry; [apply bool_decide_eq_true_2|apply bool_decide_eq_false_2].
  - by apply H.
  - intros ->. by apply E.
Qed.

Lemma x25519_secret a b : secret_ok (rfc7748_x25519 a b).
Proof. unfold rfc7748_x25519. destruct (mladder _ _ _ _) as [[x z] ?]. split; [apply le_bytes_ok|]. unfold zlen. by rewrite length_le_bytes. Qed.

Lemma handshake_secret_ok psk x : secret_ok (handshake_secret psk x).
Proof. apply hmac_secret. Qed.

#[local] Opaque rfc7748_x25519 x25519 handshake_secret rfc_server_flight rfc_certificate.

(** The driver's local variables. *)
Record driver_env := mk_denv { d_env : env; d_hs : sha512_ctx; d_signed : list Z; d_msg : list Z; d_secret : list Z }.
Definition denv_ok (e : driver_env) : Prop :=
  env_ok (d_env e) /\ buffer512_ok (d_hs e) /\ zlen (d_signed e) = 130 /\ zlen (d_msg e) = 4096 /\ zlen (d_secret e) = 32.
Definition drive (e : driver_env) : quic_conn_t -> quic_server_handshake_inputs_t -> res (Z * quic_conn_t) :=
  quic_server_drive_handshake (e_impl (d_env e)) (e_junk (d_env e)) (e_hl (d_env e)) (e_big (d_env e)) (d_hs e) (d_signed e) (d_msg e) (d_secret e).

(** The buffers of the driver in the connection. *)
Definition blobs_ok (c : quic_conn_t) : Prop :=
  zlen (drv_initial_blob c) = QUIC_CONN_DRV_INITIAL_CAP /\ Forall byte_ok (drv_initial_blob c) /\
  zlen (drv_handshake_blob c) = QUIC_CONN_DRV_HANDSHAKE_CAP /\ Forall byte_ok (drv_handshake_blob c).

(** The shape of a ServerHello in the connection's buffer. *)
Lemma server_hello_shape inp certs h : inputs_ok inp certs -> shape_ok h ->
  Forall byte_ok (server_hello inp h) /\ 90 <= zlen (server_hello inp h) <= 122.
Proof.
  intros Hi Hh. destruct (so_sid h Hh) as [[Ls Bs] Hn]. destruct (ip_random _ _ Hi) as [Br Lr]. destruct (x25519_secret (server_priv_x25519 inp) X25519_BASE_POINT) as [Bp Lp].
  assert (Lz : zlen (ztake (legacy_session_id_len h) (legacy_session_id h)) = legacy_session_id_len h) by (rewrite zlen_ztake; lia).
  split; [apply server_hello_bytes; [done|done|by apply Forall_take|lia]|]. unfold server_hello, rfc_server_hello. msg_len. rewrite Lr, Lp, Lz. lia.
Qed.

Lemma drive_ok e c inp certs h tp k raw :
  denv_ok e -> blobs_ok c -> inputs_ok inp certs -> quic_conn_initial_extract_client_hello c = Ret (Some (h, tp)) ->
  quic_crypto_rx_peek (rx_initial c) = (k, Some raw) -> Forall byte_ok raw -> 0 < raw_len h <= zlen raw -> shape_ok h ->
  let hello := ztake (raw_len h) raw in
  drive e c inp =
  if negb (acceptable inp h) then Ret (-1, c)
  else if zlen (rfc_certificate certs) <=? DRV_MSG_SCRATCH then Ret (0, answered c inp certs h hello) else Ret (-1, refused c inp h hello).
Proof.
  intros ((Hloc & Hscr) & Hhs & Hsg & Hmsg & Hsec) (Li & Bi & Lh & Bh) Hi Ex Ep Braw Hraw Hh hello. unfold drive, quic_server_drive_handshake. rewrite (ip_lens _ _ Hi).
  assert (Lc : zlen (map (@zlen Z) certs) = zlen certs) by (unfold zlen; by rewrite length_map). rewrite Lc. replace (zlen certs =? 0) with false by (pose proof (ip_count _ _ Hi); lia). rewrite Ex. cbn [or_minus1].
  unfold acceptable. destruct (offers_tls13 h), (offers_x25519 h), (offers_ed25519 h); cbn [negb andb]; try reflexivity.
  destruct (ip_priv _ _ Hi) as [Bk Lk]. destruct (so_pubkey h Hh) as [Lp Bp]. assert (N : forall l : list Z, zlen l = 32 -> length l = 32%nat) by (unfold zlen; lia).
  pose proof (x25519_refines (server_priv_x25519 inp) X25519_BASE_POINT (N _ Lk) Bk eq_refl ltac:(by apply bytes_okb_ok) [] []) as X1.
  pose proof (x25519_refines (server_priv_x25519 inp) (ecdhe_pubkey h) (N _ Lk) Bk (N _ Lp) Bp [] []) as X2. rewrite !app_nil_r in X1, X2. rewrite X1. ret. rewrite X2. ret. clear X1 X2.
  fold (shared_secret inp h). assert (Hx : secret_ok (shared_secret inp h)) by apply x25519_secret. rewrite (nonzero_ok _ Hx), negb_involutive.
  destruct (bool_decide (shared_secret inp h = zero32)); [reflexivity|]. cbn [negb]. change (QUIC_CONN_DRV_INITIAL_CAP <? 256) with false. cbv iota.
  destruct (so_sid h Hh) as [[Ls _] Hn]. destruct (ip_random _ _ Hi) as [_ Lr]. destruct (x25519_secret (server_priv_x25519 inp) X25519_BASE_POINT) as [_ Lq].
  pose proof (server_hello_ok (drv_initial_blob c) 256 (server_random inp) _ (legacy_session_id h) (legacy_session_id_len h) (-1) ltac:(rewrite Li; done) Lr Lq ltac:(lia) ltac:(lia) ltac:(lia)) as Hb.
  unfold builds in Hb. change (psk_of (-1)) with (@None Z) in Hb. fold (server_hello inp h) in Hb. destruct (server_hello_shape inp certs h Hi Hh) as [Bsh Lsh].
  set (sh := server_hello inp h) in *. replace (256 <? zlen sh) with false in Hb by lia. unfold tls13_build_server_hello, QUIC_CONN_DRV_INITIAL_CAP. rewrite Hb. cbn [or_minus1]. clear Hb.
  replace (zlen sh <=? 0) with false by lia. set (blob := sh ++ padd (drv_initial_blob c) (zlen sh)). set (c1 := c {{ drv_initial_blob := blob; drv_initial_blob_len := zlen sh }}).
  change (rx_initial c1) with (rx_initial c). rewrite Ep. replace (raw_len h =? 0) with false by lia. unfold tls13_transcript_init, tls13_transcript_update.
  destruct (sha256_update_ok (e_impl (d_env e)) _ [] raw (raw_len h) (sha256_init_ok _ (proj1 Hloc)) Braw ltac:(lia)) as (t1 & -> & A1). ret. cbn [app] in A1. fold hello in A1.
  change (drv_initial_blob c1) with blob. change (drv_initial_blob_len c1) with (zlen sh). assert (Bb : Forall byte_ok blob) by (apply Forall_app_2; [done|by apply Forall_drop]).
  destruct (sha256_update_ok (e_impl (d_env e)) _ hello blob (zlen sh) A1 Bb) as (t2 & -> & A2); [unfold blob; rewrite zlen_app; pose proof (zlen_nonneg (padd (drv_initial_blob c) (zlen sh))); lia|]. ret.
  unfold blob in A2. rewrite ztake_app in A2 by done. rewrite (snapshot_ok _ _ _ A2). ret. rewrite (compute_handshake_secrets_ok _ _ _ Hloc) by (done || apply hash_secret). cbn [or_minus1].
  set (hs := handshake_secret None (shared_secret inp h)). change (expand_label hs (lit "c hs traffic") (sha256_hash (hello ++ sh)) 32) with (client_secret inp h hello).
  change (expand_label hs (lit "s hs traffic") (sha256_hash (hello ++ sh)) 32) with (server_secret inp h hello).
  assert (Hts : secret_ok (server_secret inp h hello)) by apply label_secret. assert (Htc : secret_ok (client_secret inp h hello)) by apply label_secret.
  rewrite (install_exact _ _ _ _ _ Hloc Hscr) by (intros _; exact (conj Hts Htc)). rewrite decide_True by reflexivity.
  assert (Ew : (if handshake_keys_ready c1 then Ret c1 else Ret (keyed c1 (server_secret inp h hello) (client_secret inp h hello))) = Ret (with_keys c inp h hello)) by (unfold with_keys; fold sh blob c1; by destruct (handshake_keys_ready c1)).
  unfold keyed in Ew. rewrite Ew. cbn [or_minus1]. clear Ew. set (c2 := with_keys c inp h hello).
  assert (E2 : drv_handshake_blob c2 = drv_handshake_blob c) by (unfold c2, with_keys; fold sh blob c1; by destruct (handshake_keys_ready c1)). rewrite E2.
  destruct (flight_ok (e_impl (d_env e)) _ _ (d_hs e) (d_signed e) (d_msg e) Hloc Hhs Hsg Hmsg (drv_handshake_blob c) t2 (hello ++ sh) inp certs (server_secret inp h hello) Bh Lh A2 Hi Hts) as (t3 & -> & A3).
  ret. fold (server_flight inp certs h hello) in *. destruct (Z.leb_spec (zlen (rfc_certificate certs)) DRV_MSG_SCRATCH) as [Hfit|Hfit].
  - rewrite (snapshot_ok _ _ _ (A3 Hfit)). ret. reflexivity.
  - reflexivity.
Qed.

(** ** The connection stays well-formed *)

Section Preserved.
Context (c : quic_conn_t) (inp : quic_server_handshake_inputs_t) (certs : list (list Z)) (h : tls13_client_hello_t) (hello : list Z).
Context (Hc : conn_ok c) (Hb : blobs_ok c) (Hi : inputs_ok inp certs) (Hh : shape_ok h).

Lemma with_keys_ok : conn_ok (with_keys c inp h hello).
Proof.
  unfold with_keys. cbn [handshake_keys_ready]. set (c1 := c {{ drv_initial_blob := _; drv_initial_blob_len := _ }}).
  assert (H1 : conn_ok c1) by (unfold c1; conn_same Hc). destruct (handshake_keys_ready c1); [exact H1|by apply keyed_ok].
Qed.

(** The parts of the connection the keys leave alone. *)
Lemma with_keys_rest :
  tx_initial (with_keys c inp h hello) = tx_initial c /\ tx_handshake (with_keys c inp h hello) = tx_handshake c /\
  drv_initial_blob (with_keys c inp h hello) = server_hello inp h ++ padd (drv_initial_blob c) (zlen (server_hello inp h)) /\
  drv_initial_blob_len (with_keys c inp h hello) = zlen (server_hello inp h) /\ drv_handshake_blob (with_keys c inp h hello) = drv_handshake_blob c.
Proof. unfold with_keys. set (c1 := c {{ drv_initial_blob := _; drv_initial_blob_len := _ }}). by destruct (handshake_keys_ready c1). Qed.

Lemma initial_blob_ok : zlen (server_hello inp h ++ padd (drv_initial_blob c) (zlen (server_hello inp h))) = QUIC_CONN_DRV_INITIAL_CAP /\
  Forall byte_ok (server_hello inp h ++ padd (drv_initial_blob c) (zlen (server_hello inp h))).
Proof.
  destruct (server_hello_shape inp certs h Hi Hh) as [B L]. destruct Hb as (Li & Bi & _). unfold QUIC_CONN_DRV_INITIAL_CAP in *.
  split; [rewrite zlen_app, zlen_padd; lia|]. apply Forall_app_2; [exact B|by apply Forall_drop].
Qed.

Lemma flight_shape secret : zlen (rfc_certificate certs) <= DRV_MSG_SCRATCH ->
  let F := rfc_server_flight (hello ++ server_hello inp h) certs (ed25519_seed (cert inp)) secret in
  zlen F = 114 + zlen (rfc_certificate certs) /\ Forall byte_ok F.
Proof.
  intros Hfit. with_strategy transparent [rfc_server_flight] unfold rfc_server_flight. cbv zeta. set (cv := rfc_certificate_verify _ _). set (mac := finished_mac _ _).
  destruct (finished_mac_secret secret (sha256_hash ((hello ++ server_hello inp h) ++ rfc_encrypted_extensions false ++ rfc_certificate certs ++ cv))) as [Bm Lm]. fold mac in Bm, Lm.
  rewrite !zlen_app. change (zlen (rfc_encrypted_extensions false)) with 6. replace (zlen cv) with 72 by (symmetry; apply zlen_certificate_verify). unfold rfc_finished. rewrite zlen_hs_msg, Lm.
  split; [lia|]. apply Forall_app_2; [by apply bytes_okb_ok|]. apply Forall_app_2; [apply certificate_bytes, (ip_bytes _ _ Hi)|]. apply Forall_app_2; [apply certificate_verify_bytes|]. by apply hs_msg_ok.
Qed.

Lemma answered_ok : zlen (rfc_certificate certs) <= DRV_MSG_SCRATCH -> conn_ok (answered c inp certs h hello) /\ blobs_ok (answered c inp certs h hello).
Proof.
  intros Hfit. destruct (flight_shape (server_secret inp h hello) Hfit) as [Lf Bf]. fold (server_flight inp certs h hello) in Lf, Bf. destruct initial_blob_ok as [Lb Bb]. pose proof with_keys_ok as Hk. destruct with_keys_rest as (T1 & T2 & B1 & B2 & B3).
  destruct (server_hello_shape inp certs h Hi Hh) as [_ Ls]. destruct Hb as (_ & _ & Lh & Bh). pose proof (zlen_nonneg (rfc_certificate certs)). unfold DRV_MSG_SCRATCH, QUIC_CONN_DRV_HANDSHAKE_CAP, QUIC_CONN_DRV_INITIAL_CAP in *.
  set (F := server_flight inp certs h hello) in *. assert (LF : zlen (F ++ padd (drv_handshake_blob c) (zlen F)) = 8192) by (rewrite zlen_app, zlen_padd; lia).
  assert (BF : Forall byte_ok (F ++ padd (drv_handshake_blob c) (zlen F))) by (apply Forall_app_2; [exact Bf|by apply Forall_drop]).
  destruct (co_tx c Hc) as [(_ & _ & O1) (_ & _ & O2)]. unfold answered. fold F. set (w := with_keys c inp h hello) in *. clearbody w F. split.
  - assert (X1 : tx_ok (mk_tx (drv_initial_blob w) (drv_initial_blob_len w) (tx_next_offset (tx_initial w)))) by (rewrite B1, B2, T1; split; [cbn [tx_pending tx_pending_len]; lia|by split]).
    assert (X2 : tx_ok (mk_tx (F ++ padd (drv_handshake_blob c) (zlen F)) (zlen F) (tx_next_offset (tx_handshake w)))) by (rewrite T2; split; [cbn [tx_pending tx_pending_len]; lia|by split]).
    conn_same Hk; [exact (conj X1 X2)|].
    split; [apply handshake_secret_ok|]. split; [apply label_secret|apply hash_secret].
  - rewrite <- B1 in *. exact (conj Lb (conj Bb (conj LF BF))).
Qed.

Lemma refused_ok : conn_ok (refused c inp h hello) /\ blobs_ok (refused c inp h hello).
Proof.
  destruct initial_blob_ok as [Lb Bb]. pose proof with_keys_ok as Hk. destruct with_keys_rest as (T1 & T2 & B1 & B2 & B3). destruct Hb as (_ & _ & Lh & Bh). unfold refused. set (w := with_keys c inp h hello) in *. clearbody w.
  set (ee := rfc_encrypted_extensions false). assert (Le : zlen ee = 6) by reflexivity. assert (Be : Forall byte_ok ee) by (by apply bytes_okb_ok). clearbody ee. unfold QUIC_CONN_DRV_HANDSHAKE_CAP in *.
  split; [conn_same Hk|]. rewrite <- B1 in *.
  split; [exact Lb|]. split; [exact Bb|]. change (zlen (ee ++ padd (drv_handshake_blob c) (zlen ee)) = 8192 /\ Forall byte_ok (ee ++ padd (drv_handshake_blob c) (zlen ee))).
  split; [rewrite zlen_app, zlen_padd; lia|]. apply Forall_app_2; [exact Be|by apply Forall_drop].
Qed.
End Preserved.

(** ** The theorems *)

(** C7: The driver on every connection.  [quic_server_drive_handshake] stays within
    its buffers and leaves a well-formed connection.  When the ClientHello is not
    complete or not valid, or does not offer TLS 1.3, an X25519 share and Ed25519,
    or the shared secret is zero, it returns -1 and changes nothing.  Otherwise it
    answers: it returns 0 exactly when the Certificate message fits its scratch
    buffer, with the ServerHello of RFC 8446 pending in the Initial epoch, the
    keys of the RFC's two traffic secrets installed (unless some were), and
    EncryptedExtensions, Certificate, CertificateVerify with the RFC 8032
    signature over the transcript, and Finished pending in the Handshake epoch. *)
Theorem drive_handshake_exact e c inp certs : denv_ok e -> conn_ok c -> blobs_ok c -> inputs_ok inp certs ->
  match quic_conn_initial_extract_client_hello c with
  | Ret (Some (h, _)) =>
      exists k raw, quic_crypto_rx_peek (rx_initial c) = (k, Some raw) /\ raw_len h <= k /\
        let hello := ztake (raw_len h) raw in
        drive e c inp = (if negb (acceptable inp h) then Ret (-1, c)
                         else if zlen (rfc_certificate certs) <=? DRV_MSG_SCRATCH then Ret (0, answered c inp certs h hello)
                         else Ret (-1, refused c inp h hello)) /\
        conn_ok (refused c inp h hello) /\ blobs_ok (refused c inp h hello) /\
        (zlen (rfc_certificate certs) <= DRV_MSG_SCRATCH -> conn_ok (answered c inp certs h hello) /\ blobs_ok (answered c inp certs h hello))
  | Ret None | Fail => drive e c inp = Ret (-1, c)
  | Oob => False
  end.
Proof.
  intros He Hc Hb Hi. pose proof (extract_wp c Hc) as Hx. destruct (quic_conn_initial_extract_client_hello c) as [[[h tp]|]| |] eqn:Ex; cbn [wp] in Hx; [|idtac..|exact Hx].
  - destruct Hx as (k & raw & n & off & len & h0 & o & l & ts & Ep & Hnk & Eparse & [Hh Hr Hpsk] & _). destruct (co_rx c Hc) as [Hrx _]. destruct (peek_ok _ _ _ Hrx Ep) as [Hk Braw].
    assert (Hpos : 0 < n). { unfold tls13_parse_client_hello, rd_u8 in Eparse. destruct (Z.ltb_spec n 1); [discriminate Eparse|lia]. }
    exists k, raw. split; [exact Ep|]. split; [lia|]. cbv zeta. split; [eapply drive_ok; try eassumption; lia|]. pose proof (refused_ok c inp certs h (ztake (raw_len h) raw) Hc Hb Hi Hh) as [R1 R2].
    split; [exact R1|]. split; [exact R2|]. by apply answered_ok.
  - unfold drive, quic_server_drive_handshake. rewrite Ex. cbn [or_minus1]. by destruct (_ =? 0).
  - unfold drive, quic_server_drive_handshake. rewrite Ex. cbn [or_minus1]. by destruct (_ =? 0).
Qed.

(** The connection after an accepted ClientHello sends the flight. *)
Lemma answered_sending c inp certs h hello :
  fresh c -> blobs_ok c -> inputs_ok inp certs -> shape_ok h -> peer_addrs_known c = true -> zlen (rfc_certificate certs) <= DRV_MSG_SCRATCH ->
  let A1 := answered c inp certs h hello in
  sending (server_flight inp certs h hello) A1 /\ tx_next_offset (tx_handshake A1) = 0 /\ handshake_tx_next_pn A1 = 0 /\
  handshake_tx_keys A1 = keys_of_secret (server_secret inp h hello) /\ handshake_overhead A1 = handshake_overhead c /\
  ztake (tx_pending_len (tx_initial A1)) (tx_pending (tx_initial A1)) = server_hello inp h.
Proof.
  intros (Hc & Hr & _ & Ht & Hn) Hb Hi Hh Hk Hfit A1. destruct (answered_ok c inp certs h hello Hc Hb Hi Hh Hfit) as [HA _]. fold A1 in HA.
  set (F := server_flight inp certs h hello). set (sh := server_hello inp h). set (c1 := c {{ drv_initial_blob := sh ++ padd (drv_initial_blob c) (zlen sh); drv_initial_blob_len := zlen sh }}).
  assert (Ew : with_keys c inp h hello = keyed c1 (server_secret inp h hello) (client_secret inp h hello)) by (unfold with_keys; fold sh c1; change (handshake_keys_ready c1) with (handshake_keys_ready c); by rewrite Hr).
  assert (ET : tx_handshake A1 = mk_tx (F ++ padd (drv_handshake_blob c) (zlen F)) (zlen F) (tx_next_offset (tx_handshake c))) by (unfold A1, answered; rewrite Ew; reflexivity).
  assert (EI : tx_initial A1 = mk_tx (sh ++ padd (drv_initial_blob c) (zlen sh)) (zlen sh) (tx_next_offset (tx_initial c))) by (unfold A1, answered; rewrite Ew; reflexivity).
  rewrite Ht in ET. rewrite EI. cbn [tx_pending tx_pending_len]. rewrite ztake_app by reflexivity. pose proof (zlen_nonneg F). split.
  - split; [exact HA|]. split; [unfold A1, answered; rewrite Ew; exact Hk|]. split; [unfold A1, answered; rewrite Ew; reflexivity|].
    rewrite ET. split; [cbn; lia|]. split; [eexists; cbn [tx_pending tx_next_offset]; change (tx_next_offset quic_crypto_tx_init) with 0; rewrite padd_0; reflexivity|cbn; lia].
  - rewrite ET. split; [reflexivity|]. unfold A1, answered. rewrite Ew. split; [exact Hn|]. split; [reflexivity|]. split; reflexivity.
Qed.

Lemma epoch_run S : run_inv S 4096 512 [] epoch_rx.
Proof. by apply (run_init S 4096 512). Qed.

Lemma latest_exists {A} (p : A -> bool) l x : latest p l = Some x -> existsb p l = true.
Proof.
  unfold latest. assert (G : forall a, foldl (fun a x => if p x then Some x else a) a l = Some x -> a = Some x \/ existsb p l = true).
  { induction l as [|y l IH]; intros a H; [by left|]. cbn [foldl existsb] in *. destruct (IH _ H) as [E| ->]; [|right; apply orb_true_r]. destruct (p y); [by right|by left]. }
  intros H. by destruct (G None H).
Qed.


(** ** Examples *)

Definition example_denv : driver_env := mk_denv example_env (mk_sha512 H0 0 0 (replicate 128 0) 0) (replicate 130 0) (replicate 4096 0) (replicate 32 0).
Definition example_certs : list (list Z) := [replicate 300 0x30; replicate 200 0x31].
Definition example_inputs : quic_server_handshake_inputs_t := mk_inputs (replicate 32 5) (replicate 32 6) (mk_cert (mjoin example_certs) [300; 200] (replicate 32 7)).

Lemma example_denv_ok : denv_ok example_denv.
Proof. split; [apply example_env_ok|]. split_and!; try done. split; [done|by apply bytes_okb_ok]. Qed.

Lemma example_inputs_ok : inputs_ok example_inputs example_certs.
Proof. constructor; try (by apply replicate_secret); [exists []; by rewrite app_nil_r|done|done|]. constructor; [by apply replicate_bytes|]. constructor; [by apply replicate_bytes|constructor]. Qed.

Lemma init_blobs_ok : blobs_ok quic_conn_init_server.
Proof. split_and!; try done; by apply bytes_okb_ok. Qed.

Definition example_share : Z * list Z := (0x001d, replicate 32 9).

Lemma drive_handshake_exact_witness :
  exists rx h, stage_all epoch_rx quic_frames = Ret rx /\ understood quic_hello h /\
    exists raw, let c := quic_conn_init_server {{ rx_initial := rx }} in let hello := ztake (raw_len h) raw in
    drive example_denv c example_inputs = (if negb (acceptable example_inputs h) then Ret (-1, c)
                                           else if zlen (rfc_certificate example_certs) <=? DRV_MSG_SCRATCH then Ret (0, answered c example_inputs example_certs h hello)
                                           else Ret (-1, refused c example_inputs h hello)).
Proof.
  destruct (hello_reassembled quic_conn_init_server quic_hello tp_example 64 [EVersions [0x0304]] [EShares [example_share]; ESigs false [0x0807]] quic_frames
    quic_hello_ok quic_hello_bytes ltac:(done) tp_example_ok ltac:(done) ltac:(reflexivity) ltac:(by repeat constructor) quic_frames_ok) as (rx & E & Hrx & _ & H).
  destruct (H quic_frames_cover) as (h & tp' & more & Eh & Hu & _). exists rx, h. split; [exact E|]. split; [exact Hu|].
  assert (Hc : conn_ok (quic_conn_init_server {{ rx_initial := rx }})) by (pose proof init_server_ok as Hc; destruct (co_rx _ Hc) as [_ Hr]; conn_same Hc; by split).
  pose proof (drive_handshake_exact example_denv _ example_inputs example_certs example_denv_ok Hc init_blobs_ok example_inputs_ok) as Hd. rewrite Eh in Hd.
  destruct Hd as (k & raw & _ & _ & Hd & _). exists raw. exact Hd.
Defined.

