(* ===== verification/Ip.v ===== *)
(** * IPv4 and TCP headers

    Models [userspace/tcp/ip.c]: the internet checksum, parsing an inbound
    IPv4+TCP frame and building an outbound one.  [size_t] arithmetic keeps its
    wrap-around at 64 bits. *)

From Stdlib Require Import ZArith Lia.
From stdpp Require Import list numbers.
From S2P Require Import Prelude.

Definition IPV4_HEADER_LEN : Z := 20.
Definition TCP_HEADER_LEN : Z := 20.
Definition IPPROTO_TCP_VAL : Z := 6.

Definition TCPF_FIN : Z := 0x01.
Definition TCPF_SYN : Z := 0x02.
Definition TCPF_RST : Z := 0x04.
Definition TCPF_PSH : Z := 0x08.
Definition TCPF_ACK : Z := 0x10.

Record tcp_seg_t := mk_seg {
  sg_src_ip : Z;
  sg_dst_ip : Z;
  sg_src_port : Z;
  sg_dst_port : Z;
  sg_seq : Z;
  sg_ack : Z;
  sg_window : Z;
  sg_flags : Z;
  sg_payload : list Z;
  sg_payload_len : Z
}.

(** [while (sum >> 16) sum = (sum & 0xffff) + (sum >> 16);] Two rounds bring a
    32-bit sum under 2^16, so three tests are enough. *)
Fixpoint csum_fold (fuel : nat) (sum : Z) : res Z :=
  if Z.shiftr sum 16 =? 0 then Ret sum
  else match fuel with
  | O => Oob
  | S fuel' => csum_fold fuel' (u32 (Z.land sum 0xffff + Z.shiftr sum 16))
  end.

Definition csum_finish (sum : Z) : res Z :=
  let! s := csum_fold 2 sum in Ret (Z.land (Z.lnot s) 0xffff).

(** The word at [p]: [((uint32_t)p[0] << 8) | p[1]]. *)
Definition rd16 (p : list Z) : res Z :=
  let! a := rd p 0 in let! b := rd p 1 in Ret (Z.lor (Z.shiftl a 8) b).

Definition rd32 (p : list Z) : res Z :=
  let! a := rd p 0 in let! b := rd p 1 in let! c := rd p 2 in let! d := rd p 3 in
  Ret (Z.lor (Z.lor (Z.lor (Z.shiftl a 24) (Z.shiftl b 16)) (Z.shiftl c 8)) d).

(** The loop of [inet_csum].  An iteration moves [data] on by two bytes, so
    after [length data] of them every access is out of bounds. *)
Fixpoint inet_csum_loop (fuel : nat) (data : list Z) (len sum : Z) : res (list Z * Z * Z) :=
  if 2 <=? len then
    match fuel with
    | O => Oob
    | S fuel' => let! w := rd16 data in inet_csum_loop fuel' (padd data 2) (len - 2) (u32 (sum + w))
    end
  else Ret (data, len, sum).

Definition inet_csum (data : list Z) (len : Z) : res Z :=
  let! (data, len, sum) := inet_csum_loop (length data) data len 0 in
  let! sum := (if negb (len =? 0) then let! b := rd data 0 in Ret (u32 (sum + Z.shiftl b 8)) else Ret sum) in
  csum_finish sum.

(** [for (i = 0; i + 1 < tcp_len; i += 2)], skipping the checksum field. *)
Fixpoint tcp_csum_loop (fuel : nat) (tcp : list Z) (i tcp_len sum : Z) : res Z :=
  if i + 1 <? tcp_len then
    match fuel with
    | O => Oob
    | S fuel' =>
        if i =? 16 then tcp_csum_loop fuel' tcp (i + 2) tcp_len sum
        else let! w := rd16 (padd tcp i) in tcp_csum_loop fuel' tcp (i + 2) tcp_len (u32 (sum + w))
    end
  else Ret sum.

Definition tcp_checksum (src_ip dst_ip : Z) (tcp : list Z) (tcp_len : Z) : res Z :=
  let sum := Z.land (Z.shiftr src_ip 16) 0xffff in
  let sum := u32 (sum + Z.land src_ip 0xffff) in
  let sum := u32 (sum + Z.land (Z.shiftr dst_ip 16) 0xffff) in
  let sum := u32 (sum + Z.land dst_ip 0xffff) in
  let sum := u32 (sum + IPPROTO_TCP_VAL) in
  let sum := u32 (sum + u32 tcp_len) in
  let! sum := tcp_csum_loop (S (length tcp)) tcp 0 tcp_len sum in
  let! sum := (if Z.odd tcp_len then let! b := rd tcp (tcp_len - 1) in Ret (u32 (sum + Z.shiftl b 8)) else Ret sum) in
  csum_finish sum.

(** The TCP half of [ip_tcp_parse_ex], from the data offset on. *)
Definition tcp_header_parse (src_ip dst_ip : Z) (tcp : list Z) (tcp_len : Z) (skip_csum : bool) : res tcp_seg_t :=
  let! t12 := rd tcp 12 in
  let doff := Z.land (Z.shiftr t12 4) 0x0f * 4 in
  if (doff <? TCP_HEADER_LEN) || (tcp_len <? doff) then Fail
  else
    let! ok := (if skip_csum then Ret true
      else
        let! c := tcp_checksum src_ip dst_ip tcp tcp_len in
        let! w := rd16 (padd tcp 16) in
        Ret (c =? w)) in
    if negb ok then Fail
    else
      let! src_port := rd16 tcp in
      let! dst_port := rd16 (padd tcp 2) in
      let! seq := rd32 (padd tcp 4) in
      let! ack := rd32 (padd tcp 8) in
      let! flags := rd tcp 13 in
      let! window := rd16 (padd tcp 14) in
      Ret (mk_seg src_ip dst_ip src_port dst_port seq ack window flags (padd tcp doff) (tcp_len - doff)).

Definition ip_tcp_parse_ex (frame : list Z) (len : Z) (skip_csum : bool) : res tcp_seg_t :=
  if len <? IPV4_HEADER_LEN then Fail
  else
    let! f0 := rd frame 0 in
    if negb (Z.shiftr f0 4 =? 4) then Fail
    else
      let ihl := Z.land f0 0x0f * 4 in
      if (ihl <? IPV4_HEADER_LEN) || (len <? ihl) then Fail
      else
        let! f9 := rd frame 9 in
        if negb (f9 =? IPPROTO_TCP_VAL) then Fail
        else
          let! total := rd16 (padd frame 2) in
          if len <? total then Fail
          else
            let! csum := inet_csum frame ihl in
            if negb (csum =? 0) then Fail
            else
              let! src_ip := rd32 (padd frame 12) in
              let! dst_ip := rd32 (padd frame 16) in
              let tcp := padd frame ihl in
              let tcp_len := u64 (total - ihl) in
              if tcp_len <? TCP_HEADER_LEN then Fail
              else if len <? u64 (ihl + tcp_len) then Fail
              else
                tcp_header_parse src_ip dst_ip tcp tcp_len skip_csum.

Definition ip_tcp_parse (frame : list Z) (len : Z) : res tcp_seg_t := ip_tcp_parse_ex frame len false.

Definition wr16 (v : Z) : list Z := [u8 (Z.shiftr v 8); u8 v].
Definition wr32 (v : Z) : list Z := [u8 (Z.shiftr v 24); u8 (Z.shiftr v 16); u8 (Z.shiftr v 8); u8 v].

(** [wr16(p + i, v)] over bytes already written. *)
Definition patch16 (p : list Z) (i : nat) (v : Z) : list Z :=
  <[S i := u8 v]> (<[i := u8 (Z.shiftr v 8)]> p).

(** The IPv4 header before its checksum is filled in. *)
Definition ip_header0 (total src_ip dst_ip : Z) : list Z :=
  [0x45; 0] ++ wr16 (u16 total) ++ wr16 0 ++ wr16 0x4000 ++ [64; IPPROTO_TCP_VAL] ++ wr16 0 ++
  wr32 src_ip ++ wr32 dst_ip.

(** The TCP header before its checksum is filled in. *)
Definition tcp_header0 (seg : tcp_seg_t) : list Z :=
  wr16 (sg_src_port seg) ++ wr16 (sg_dst_port seg) ++ wr32 (sg_seq seg) ++ wr32 (sg_ack seg) ++
  [u8 (Z.shiftl (TCP_HEADER_LEN / 4) 4); sg_flags seg] ++ wr16 (sg_window seg) ++ wr16 0 ++ wr16 0.

(** The bytes written to [out]; [Fail] is the return value 0. *)
Definition ip_tcp_build (out_cap : Z) (seg : tcp_seg_t) : res (list Z) :=
  let total := u64 (IPV4_HEADER_LEN + TCP_HEADER_LEN + sg_payload_len seg) in
  if (out_cap <? total) || (0xffff <? total) then Fail
  else
    let ip0 := ip_header0 total (sg_src_ip seg) (sg_dst_ip seg) in
    let! ip_csum := inet_csum ip0 IPV4_HEADER_LEN in
    let ip := patch16 ip0 10 ip_csum in
    let! payload := rdn (sg_payload seg) (sg_payload_len seg) in
    let tcp0 := tcp_header0 seg ++ payload in
    let! csum := tcp_checksum (sg_src_ip seg) (sg_dst_ip seg) tcp0 (TCP_HEADER_LEN + sg_payload_len seg) in
    Ret (ip ++ patch16 tcp0 16 csum).

(** ** Checksum arithmetic *)

(** The sum of the big-endian 16-bit words of [l] (an odd last byte is padded
    with zero), leaving out the word at offset [skip]; [i] is the offset of [l]. *)
Fixpoint wsum (skip i : Z) (l : list Z) : Z :=
  match l with
  | [] => 0
  | [a] => a * 256
  | a :: b :: l' => (if i =? skip then 0 else a * 256 + b) + wsum skip (i + 2) l'
  end.

(** One's-complement reduction to 16 bits: 0 only for 0. *)
Definition ones16 (s : Z) : Z := if s =? 0 then 0 else 1 + (s - 1) mod 65535.

Lemma pair_ind (P : list Z -> Prop) :
  P [] -> (forall a, P [a]) -> (forall a b l, P l -> P (a :: b :: l)) -> forall l, P l.
Proof.
  intros H0 H1 H2 l. assert (H : P l /\ forall a, P (a :: l)); [|apply H].
  induction l as [|a l [IH1 IH2]]; [auto|]. split; auto.
Qed.

Lemma wsum_bounds skip l : Forall byte_ok l -> forall i, 0 <= wsum skip i l <= 65535 * ((zlen l + 1) / 2).
Proof.
  induction l as [|a|a b l IH] using pair_ind; intros Hl i.
  - done.
  - apply Forall_cons_1 in Hl as [Ha _]. unfold byte_ok in Ha. change (zlen [a]) with 1. cbn [wsum]. change ((1 + 1) / 2) with 1. lia.
  - apply Forall_cons_1 in Hl as [Ha Hl]. apply Forall_cons_1 in Hl as [Hb Hl]. unfold byte_ok in Ha, Hb.
    specialize (IH Hl (i + 2)). cbn [wsum]. rewrite !zlen_cons.
    replace ((zlen l + 1 + 1 + 1) / 2) with ((zlen l + 1) / 2 + 1) by dlia. zcase; lia.
Qed.

Lemma lor_shl8 a b : byte_ok b -> Z.lor (Z.shiftl a 8) b = a * 256 + b.
Proof. intros Hb. rewrite Z.shiftl_mul_pow2 by lia. by rewrite lor_disjoint. Qed.

Lemma rd16_cons a b l : byte_ok b -> rd16 (a :: b :: l) = Ret (a * 256 + b).
Proof. intros. unfold rd16. rewrite rd_cons_0, rd_cons_S by lia. cbn [rbind]. rewrite rd_cons_0. cbn. by rewrite lor_shl8. Qed.

Lemma land_ffff x : Z.land x 0xffff = x mod 2 ^ 16.
Proof. change 0xffff with (Z.ones 16). by rewrite Z.land_ones by lia. Qed.

Lemma fold_step s :
  0 < s < 2 ^ 32 ->
  let s1 := s mod 2 ^ 16 + s / 2 ^ 16 in
  0 < s1 < 2 ^ 17 - 1 /\ (s < 2 ^ 17 - 1 -> s1 < 2 ^ 16) /\ (s - 1) mod 65535 = (s1 - 1) mod 65535.
Proof.
  intros Hs. cbv zeta. split_and!; [dlia|dlia|dlia|].
  replace (s - 1) with (s mod 2 ^ 16 + s / 2 ^ 16 - 1 + s / 2 ^ 16 * 65535) by dlia. apply Z_mod_plus_full.
Qed.

Lemma fold_done s : 0 < s -> s / 2 ^ 16 = 0 -> Ret s = Ret (1 + (s - 1) mod 65535).
Proof. intros Hs E. apply Z.div_small_iff in E; [|lia]. rewrite Z.mod_small by lia. f_equal. lia. Qed.

Lemma csum_fold_spec s : 0 <= s < 2 ^ 32 -> csum_fold 2 s = Ret (ones16 s).
Proof.
  intros Hs. unfold ones16. destruct (Z.eqb_spec s 0) as [->|Hne]; [done|]. cbn [csum_fold].
  rewrite !land_ffff, !Z.shiftr_div_pow2 by lia.
  destruct (fold_step s ltac:(lia)) as (H1 & _ & E1). set (s1 := s mod 2 ^ 16 + s / 2 ^ 16) in *.
  destruct (Z.eqb_spec (s / 2 ^ 16) 0); [apply fold_done; lia|].
  rewrite (u32_small s1) by lia. clearbody s1.
  destruct (fold_step s1 ltac:(lia)) as (H2 & H3 & E2). set (s2 := s1 mod 2 ^ 16 + s1 / 2 ^ 16) in *.
  rewrite E1. destruct (Z.eqb_spec (s1 / 2 ^ 16) 0); [apply fold_done; lia|].
  specialize (H3 ltac:(lia)). rewrite (u32_small s2) by lia. clearbody s2.
  rewrite E2. destruct (Z.eqb_spec (s2 / 2 ^ 16) 0); [apply fold_done; lia|].
  rewrite Z.div_small in *; lia.
Qed.

Lemma csum_finish_spec s : 0 <= s < 2 ^ 32 -> csum_finish s = Ret (65535 - ones16 s).
Proof.
  intros Hs. unfold csum_finish. rewrite csum_fold_spec by done. cbn [rbind]. f_equal.
  assert (0 <= ones16 s <= 65535) by (unfold ones16; zcase; dlia).
  rewrite land_ffff. unfold Z.lnot. dlia.
Qed.

Lemma ones16_range s : 0 <= s -> 0 <= ones16 s <= 65535 /\ (ones16 s - s) mod 65535 = 0 /\ (0 < s -> 0 < ones16 s).
Proof. intros. unfold ones16. zcase; dlia. Qed.

(** The checksum of a sum, added to it, makes the sum all ones. *)
Lemma ones16_complement s c : 0 <= s -> 0 <= c -> 0 < s + c -> (s + c) mod 65535 = 0 <-> ones16 (s + c) = 65535.
Proof. intros. unfold ones16. zcase; [lia|]. dlia. Qed.

(** [inet_csum] sums the words of its buffer. *)
Lemma inet_loop_spec l : forall fuel rest sum,
  Forall byte_ok l -> (length l <= fuel)%nat -> 0 <= sum -> sum + wsum (-1) 0 l < 2 ^ 32 ->
  (let! (data, len, s) := inet_csum_loop fuel (l ++ rest) (zlen l) sum in
   if negb (len =? 0) then let! b := rd data 0 in Ret (u32 (s + Z.shiftl b 8)) else Ret s)
  = Ret (sum + wsum (-1) 0 l).
Proof.
  assert (Hi : forall l i j, 0 <= i -> 0 <= j -> wsum (-1) i l = wsum (-1) j l).
  { clear. intros l. induction l as [|a|a b l IH] using pair_ind; intros i j Hi Hj; [done|done|]. cbn [wsum].
    destruct (Z.eqb_spec i (-1)), (Z.eqb_spec j (-1)); try lia. by rewrite (IH (i + 2) (j + 2)) by lia. }
  induction l as [|a|a b l IH] using pair_ind; intros fuel rest sum Hl Hf Hs Hmax.
  - destruct fuel; cbn; by rewrite Z.add_0_r.
  - apply Forall_cons_1 in Hl as [Ha _]. unfold byte_ok in Ha. cbn [wsum] in *. destruct fuel; [cbn in Hf; lia|].
    change (zlen [a]) with 1. cbn [inet_csum_loop app]. change (2 <=? 1) with false. cbn [rbind Z.eqb negb]. rewrite rd_cons_0. cbn [rbind]. rewrite Z.shiftl_mul_pow2, u32_small by lia. done.
  - apply Forall_cons_1 in Hl as [Ha Hl]. apply Forall_cons_1 in Hl as [Hb Hl].
    destruct fuel as [|fuel]; [cbn in Hf; lia|]. cbn [inet_csum_loop app]. rewrite !zlen_cons.
    pose proof (zlen_nonneg l). destruct (Z.leb_spec 2 (zlen l + 1 + 1)); [|lia].
    rewrite rd16_cons by done. cbn [rbind wsum Z.eqb] in *. rewrite (Hi l (0 + 2) 0) in * by lia.
    pose proof (wsum_bounds (-1) l Hl 0). unfold byte_ok in Ha, Hb.
    change (padd (a :: b :: l ++ rest) 2) with (l ++ rest).
    replace (zlen l + 1 + 1 - 2) with (zlen l) by lia. rewrite u32_small by lia.
    rewrite IH; [f_equal; lia|done|cbn in Hf; lia|lia|lia].
Qed.

Lemma inet_csum_spec l rest len :
  Forall byte_ok l -> len = zlen l -> len < 2 ^ 16 ->
  inet_csum (l ++ rest) len = Ret (65535 - ones16 (wsum (-1) 0 l)).
Proof.
  intros Hl -> Hlen. unfold inet_csum. pose proof (wsum_bounds (-1) l Hl 0) as Hw.
  assert (Hm : wsum (-1) 0 l < 2 ^ 32) by (pose proof (zlen_nonneg l); dlia).
  pose proof (inet_loop_spec l (length (l ++ rest)) rest 0 Hl) as H. rewrite length_app in *.
  specialize (H ltac:(lia) ltac:(lia) ltac:(lia)).
  destruct (inet_csum_loop _ (l ++ rest) (zlen l) 0) as [[[data ln] s]| |]; cbn [rbind] in *; try done.
  rewrite H. cbn [rbind]. by rewrite csum_finish_spec by lia.
Qed.

(** [tcp_checksum] sums the pseudo header and the words of the segment, without
    the checksum field at offset 16. *)
Definition pseudo (src_ip dst_ip tcp_len : Z) : Z :=
  src_ip / 2 ^ 16 + src_ip mod 2 ^ 16 + dst_ip / 2 ^ 16 + dst_ip mod 2 ^ 16 + 6 + tcp_len.

Lemma tcp_loop_spec l : forall fuel pre rest i sum,
  Forall byte_ok l -> i = zlen pre -> (length l < fuel)%nat -> 0 <= sum -> sum + wsum 16 i l < 2 ^ 32 ->
  exists s, tcp_csum_loop fuel (pre ++ l ++ rest) i (i + zlen l) sum = Ret s /\
    (if Z.odd (zlen l) then let! b := rd (pre ++ l ++ rest) (i + zlen l - 1) in Ret (u32 (s + Z.shiftl b 8)) else Ret s)
    = Ret (sum + wsum 16 i l).
Proof.
  induction l as [|a|a b l IH] using pair_ind; intros fuel pre rest i sum Hl -> Hf Hs Hmax.
  - exists sum. change (zlen (@nil Z)) with 0. split; [|cbn; by rewrite Z.add_0_r].
    destruct fuel; cbn [tcp_csum_loop]; by destruct (Z.ltb_spec (zlen pre + 1) (zlen pre + 0)); [lia|].
  - apply Forall_cons_1 in Hl as [Ha _]. unfold byte_ok in Ha. cbn [wsum] in *. exists sum.
    change (zlen [a]) with 1. split.
    + destruct fuel; cbn [tcp_csum_loop]; by destruct (Z.ltb_spec (zlen pre + 1) (zlen pre + 1)); [lia|].
    + cbn [Z.odd]. rewrite rd_app_r by lia. replace (zlen pre + 1 - 1 - zlen pre) with 0 by lia. cbn [app].
      rewrite rd_cons_0. cbn [rbind]. rewrite Z.shiftl_mul_pow2, u32_small by lia. done.
  - apply Forall_cons_1 in Hl as [Ha Hl]. apply Forall_cons_1 in Hl as [Hb Hl].
    pose proof (zlen_nonneg l). destruct fuel as [|fuel]; [lia|]. cbn [tcp_csum_loop].
    pose proof (wsum_bounds 16 l Hl (zlen pre + 2)) as Hw. cbn [wsum] in *. rewrite !zlen_cons in *.
    destruct (Z.ltb_spec (zlen pre + 1) (zlen pre + (zlen l + 1 + 1))); [|lia].
    set (w := if zlen pre =? 16 then 0 else a * 256 + b) in *.
    assert (Hwb : 0 <= w) by (unfold w, byte_ok in *; zcase; lia).
    destruct (IH fuel (pre ++ [a; b]) rest (zlen pre + 2) (sum + w)) as (s & E1 & E2);
      [done|by rewrite zlen_app|cbn in Hf; lia|lia|lia|].
    rewrite <- !app_assoc in E1, E2. cbn [app] in E1, E2 |- *.
    replace (zlen pre + 2 + zlen l) with (zlen pre + (zlen l + 1 + 1)) in E1, E2 by lia.
    exists s. split.
    + rewrite <- E1. unfold padd. rewrite drop_app_length' by (unfold zlen; lia). rewrite rd16_cons by done.
      cbn [rbind]. unfold w in *. destruct (zlen pre =? 16); [by rewrite Z.add_0_r|].
      rewrite u32_small; [done|]. unfold byte_ok in *. lia.
    + replace (Z.odd (zlen l + 1 + 1)) with (Z.odd (zlen l)) by (replace (zlen l + 1 + 1) with (zlen l + 2 * 1) by lia; by rewrite Z.odd_add_mul_2).
      rewrite E2. f_equal. lia.
Qed.

Lemma tcp_checksum_spec src dst l rest len :
  0 <= src < 2 ^ 32 -> 0 <= dst < 2 ^ 32 -> Forall byte_ok l -> len = zlen l -> len < 2 ^ 16 ->
  tcp_checksum src dst (l ++ rest) len = Ret (65535 - ones16 (pseudo src dst len + wsum 16 0 l)).
Proof.
  intros Hs Hd Hl -> Hlen. pose proof (wsum_bounds 16 l Hl 0) as Hw. pose proof (zlen_nonneg l).
  assert (Hm : wsum 16 0 l < 2 ^ 31) by dlia.
  assert (Hp : 0 <= pseudo src dst (zlen l) < 2 ^ 20) by (unfold pseudo; dlia).
  unfold tcp_checksum, IPPROTO_TCP_VAL. rewrite !land_ffff, !Z.shiftr_div_pow2 by lia.
  rewrite (u32_small (zlen l)) by lia.
  assert (Hb : 0 <= src / 2 ^ 16 < 2 ^ 16 /\ 0 <= dst / 2 ^ 16 < 2 ^ 16 /\ 0 <= src mod 2 ^ 16 < 2 ^ 16 /\ 0 <= dst mod 2 ^ 16 < 2 ^ 16)
    by dlia.
  rewrite (Z.mod_small (src / 2 ^ 16)), (Z.mod_small (dst / 2 ^ 16)) by lia. cbv zeta.
  rewrite (u32_small (src / 2 ^ 16 + _)), (u32_small (src / 2 ^ 16 + _ + _)), (u32_small (_ + dst mod 2 ^ 16)),
    (u32_small (_ + 6)), (u32_small (_ + zlen l)) by lia.
  fold (pseudo src dst (zlen l)).
  destruct (tcp_loop_spec l (S (length (l ++ rest))) [] rest 0 (pseudo src dst (zlen l))) as (s & E1 & E2);
    [done|done|rewrite length_app; lia|lia|lia|].
  cbn [app] in E1, E2. rewrite Z.add_0_l in E1, E2. rewrite E1. cbn [rbind]. rewrite E2. cbn [rbind].
  apply csum_finish_spec. lia.
Qed.

(** ** Round trip *)

Record seg_ok (s : tcp_seg_t) : Prop := {
  so_src_ip : 0 <= sg_src_ip s < 2 ^ 32;
  so_dst_ip : 0 <= sg_dst_ip s < 2 ^ 32;
  so_src_port : 0 <= sg_src_port s < 2 ^ 16;
  so_dst_port : 0 <= sg_dst_port s < 2 ^ 16;
  so_seq : 0 <= sg_seq s < 2 ^ 32;
  so_ack : 0 <= sg_ack s < 2 ^ 32;
  so_window : 0 <= sg_window s < 2 ^ 16;
  so_flags : byte_ok (sg_flags s);
  so_payload : Forall byte_ok (sg_payload s);
  so_len : 0 <= sg_payload_len s <= zlen (sg_payload s)
}.

Lemma wr16_val v : 0 <= v < 2 ^ 16 -> u8 (Z.shiftr v 8) * 256 + u8 v = v.
Proof. intros. unfold u8. rewrite Z.shiftr_div_pow2 by lia. dlia. Qed.

Lemma rd16_wr16 v l : 0 <= v < 2 ^ 16 -> rd16 (u8 (Z.shiftr v 8) :: u8 v :: l) = Ret v.
Proof. intros. rewrite rd16_cons by apply u8_byte. by rewrite wr16_val. Qed.

Lemma rd32_cons a b c d l :
  byte_ok b -> byte_ok c -> byte_ok d ->
  rd32 (a :: b :: c :: d :: l) = Ret (((a * 256 + b) * 256 + c) * 256 + d).
Proof.
  intros Hb Hc Hd. unfold rd32. change (rd (a :: b :: c :: d :: l) 0) with (Ret a). change (rd (a :: b :: c :: d :: l) 1) with (Ret b).
  change (rd (a :: b :: c :: d :: l) 2) with (Ret c). change (rd (a :: b :: c :: d :: l) 3) with (Ret d). cbn [rbind]. f_equal.
  unfold byte_ok in *. rewrite !Z.shiftl_mul_pow2 by lia.
  rewrite (lor_disjoint 24) by lia.
  replace (a * 2 ^ 24 + b * 2 ^ 16) with ((a * 2 ^ 8 + b) * 2 ^ 16) by lia. rewrite (lor_disjoint 16) by lia.
  replace ((a * 2 ^ 8 + b) * 2 ^ 16 + c * 2 ^ 8) with (((a * 2 ^ 8 + b) * 2 ^ 8 + c) * 2 ^ 8) by lia.
  rewrite (lor_disjoint 8) by lia. lia.
Qed.

Lemma rd32_wr32 v l : 0 <= v < 2 ^ 32 ->
  rd32 (u8 (Z.shiftr v 24) :: u8 (Z.shiftr v 16) :: u8 (Z.shiftr v 8) :: u8 v :: l) = Ret v.
Proof.
  intros. rewrite rd32_cons by apply u8_byte. f_equal. unfold u8. rewrite !Z.shiftr_div_pow2 by lia. dlia.
Qed.

Lemma ip_header_sum total src dst c :
  0 <= c < 2 ^ 16 -> wsum (-1) 0 (patch16 (ip_header0 total src dst) 10 c) = wsum (-1) 0 (ip_header0 total src dst) + c.
Proof.
  intros Hc. pose proof (wr16_val c Hc) as E. unfold patch16, ip_header0, wr16, wr32.
  cbn [app insert list_insert]. cbn [wsum]. change (u8 (Z.shiftr 0 8)) with 0. change (u8 0) with 0.
  repeat match goal with |- context [?i =? -1] => let b := eval vm_compute in (i =? -1) in change (i =? -1) with b end.
  cbn iota. lia.
Qed.

Lemma tcp_header_sum seg payload c :
  wsum 16 0 (patch16 (tcp_header0 seg ++ payload) 16 c) = wsum 16 0 (tcp_header0 seg ++ payload).
Proof. reflexivity. Qed.

Lemma ip_header0_bytes total src dst : Forall byte_ok (ip_header0 total src dst).
Proof. repeat (apply Forall_cons_2; [first [apply u8_byte|unfold byte_ok, IPPROTO_TCP_VAL; lia]|]). apply Forall_nil_2. Qed.

Lemma tcp_header0_bytes seg : byte_ok (sg_flags seg) -> Forall byte_ok (tcp_header0 seg).
Proof. intros Hf. repeat (apply Forall_cons_2; [first [apply u8_byte|exact Hf]|]). apply Forall_nil_2. Qed.

Lemma patch16_bytes p i v : Forall byte_ok p -> Forall byte_ok (patch16 p i v).
Proof. intros Hp. unfold patch16. apply Forall_insert; [apply Forall_insert; [done|apply u8_byte]|apply u8_byte]. Qed.

Lemma csum_range s : 0 <= s -> 0 <= 65535 - ones16 s < 2 ^ 16.
Proof. intros Hs. destruct (ones16_range s Hs) as [? _]. lia. Qed.

(** The two checksums of a built frame. *)
Definition built_ip (total : Z) (seg : tcp_seg_t) : list Z :=
  let h := ip_header0 total (sg_src_ip seg) (sg_dst_ip seg) in
  patch16 h 10 (65535 - ones16 (wsum (-1) 0 h)).

Definition tcp_csum_of (seg : tcp_seg_t) (payload : list Z) : Z :=
  65535 - ones16 (pseudo (sg_src_ip seg) (sg_dst_ip seg) (20 + zlen payload) + wsum 16 0 (tcp_header0 seg ++ payload)).

Lemma ip_build_spec cap seg :
  seg_ok seg -> 40 + sg_payload_len seg <= cap -> sg_payload_len seg <= 65495 ->
  let payload := ztake (sg_payload_len seg) (sg_payload seg) in
  ip_tcp_build cap seg =
    Ret (built_ip (40 + sg_payload_len seg) seg ++ patch16 (tcp_header0 seg ++ payload) 16 (tcp_csum_of seg payload)).
Proof.
  intros [? ? ? ? ? ? ? Hf Hp Hl] Hc Hmax. cbv zeta. unfold ip_tcp_build, IPV4_HEADER_LEN, TCP_HEADER_LEN.
  rewrite u64_small by lia.
  destruct (Z.ltb_spec cap (20 + 20 + sg_payload_len seg)), (Z.ltb_spec 0xffff (20 + 20 + sg_payload_len seg)); cbn [orb]; try lia.
  change (20 + 20) with 40. set (h := ip_header0 _ _ _). rewrite <- (app_nil_r h) at 1.
  rewrite inet_csum_spec by (apply ip_header0_bytes || done). cbn [rbind].
  unfold rdn. destruct (Z.leb_spec (sg_payload_len seg) (zlen (sg_payload seg))); [|lia]. cbn [rbind].
  set (payload := ztake _ _). assert (Hz : zlen payload = sg_payload_len seg) by (unfold payload; rewrite zlen_ztake by lia; lia).
  rewrite <- (app_nil_r (tcp_header0 seg ++ payload)) at 1.
  rewrite tcp_checksum_spec; [| done | done | | rewrite zlen_app, Hz; done | lia].
  - cbn [rbind]. unfold tcp_csum_of. by rewrite Hz.
  - apply Forall_app. split; [by apply tcp_header0_bytes|by apply Forall_ztake].
Qed.

Lemma built_ip_valid total seg : seg_ok seg -> 0 <= total < 2 ^ 16 ->
  Forall byte_ok (built_ip total seg) /\ zlen (built_ip total seg) = 20 /\ ones16 (wsum (-1) 0 (built_ip total seg)) = 65535.
Proof.
  intros Hs Ht. pose proof (ip_header0_bytes total (sg_src_ip seg) (sg_dst_ip seg)) as Hb. unfold built_ip.
  set (h := ip_header0 _ _ _) in *. split; [by apply patch16_bytes|]. split; [done|].
  pose proof (wsum_bounds (-1) h Hb 0) as [Hw _]. pose proof (csum_range _ Hw) as Hc.
  unfold h at 1. rewrite ip_header_sum by done. fold h. apply ones16_complement; [lia|lia| |].
  - destruct (ones16_range (wsum (-1) 0 h)) as (? & ? & ?); [lia|]. unfold ones16 in *. zcase; lia.
  - destruct (ones16_range (wsum (-1) 0 h)) as (_ & E & _); [lia|].
    replace (wsum (-1) 0 h + (65535 - ones16 (wsum (-1) 0 h))) with (65535 - (ones16 (wsum (-1) 0 h) - wsum (-1) 0 h)) by lia. dlia.
Qed.

Lemma tcp_parse_built seg payload rest (skip : bool) :
  seg_ok seg -> Forall byte_ok payload -> zlen payload <= 65495 ->
  let seg_bytes := patch16 (tcp_header0 seg ++ payload) 16 (tcp_csum_of seg payload) in
  zlen seg_bytes = 20 + zlen payload /\
  tcp_header_parse (sg_src_ip seg) (sg_dst_ip seg) (seg_bytes ++ rest) (zlen seg_bytes) skip =
    Ret (mk_seg (sg_src_ip seg) (sg_dst_ip seg) (sg_src_port seg) (sg_dst_port seg) (sg_seq seg) (sg_ack seg)
           (sg_window seg) (sg_flags seg) (payload ++ rest) (zlen payload)).
Proof.
  intros [? ? ? ? ? ? ? Hf _ _] Hp Hl. cbv zeta. pose proof (zlen_nonneg payload).
  assert (Htb : Forall byte_ok (tcp_header0 seg ++ payload)) by (apply Forall_app; split; [by apply tcp_header0_bytes|done]).
  set (seg_bytes := patch16 _ _ _).
  assert (Hsb : Forall byte_ok seg_bytes) by (by apply patch16_bytes).
  assert (Hsl : zlen seg_bytes = 20 + zlen payload).
  { unfold seg_bytes, patch16. rewrite !zlen_insert. by rewrite zlen_app. }
  pose proof (csum_range (pseudo (sg_src_ip seg) (sg_dst_ip seg) (20 + zlen payload) + wsum 16 0 (tcp_header0 seg ++ payload))) as Hc.
  pose proof (wsum_bounds 16 _ Htb 0) as [Hw _]. fold (tcp_csum_of seg payload) in Hc.
  specialize (Hc ltac:(unfold pseudo; dlia)). split; [done|]. unfold tcp_header_parse, TCP_HEADER_LEN.
  change (rd (seg_bytes ++ rest) 12) with (Ret 0x50). cbn [rbind]. change (Z.land (Z.shiftr 0x50 4) 0x0f * 4) with 20.
  change (20 <? 20) with false. cbn [orb]. destruct (Z.ltb_spec (zlen seg_bytes) 20); [lia|].
  rewrite tcp_checksum_spec by (done || lia). cbn [rbind].
  change (wsum 16 0 seg_bytes) with (wsum 16 0 (tcp_header0 seg ++ payload)). rewrite Hsl. fold (tcp_csum_of seg payload).
  change (padd (seg_bytes ++ rest) 16) with (u8 (Z.shiftr (tcp_csum_of seg payload) 8) :: u8 (tcp_csum_of seg payload) :: padd (seg_bytes ++ rest) 18).
  rewrite rd16_wr16 by lia. cbn [rbind]. rewrite Z.eqb_refl.
  replace (if skip then Ret true else Ret true) with (Ret true) by (by destruct skip). cbn [rbind negb].
  change (rd16 (seg_bytes ++ rest)) with (rd16 (wr16 (sg_src_port seg) ++ padd (seg_bytes ++ rest) 2)).
  unfold wr16 at 1. cbn [app]. rewrite rd16_wr16 by done. cbn [rbind].
  change (padd (seg_bytes ++ rest) 2) with (wr16 (sg_dst_port seg) ++ padd (seg_bytes ++ rest) 4).
  unfold wr16 at 1. cbn [app]. rewrite rd16_wr16 by done. cbn [rbind].
  change (padd (seg_bytes ++ rest) 4) with (wr32 (sg_seq seg) ++ padd (seg_bytes ++ rest) 8).
  unfold wr32 at 1. cbn [app]. rewrite rd32_wr32 by done. cbn [rbind].
  change (padd (seg_bytes ++ rest) 8) with (wr32 (sg_ack seg) ++ padd (seg_bytes ++ rest) 12).
  unfold wr32 at 1. cbn [app]. rewrite rd32_wr32 by done. cbn [rbind].
  change (rd (seg_bytes ++ rest) 13) with (Ret (sg_flags seg)). cbn [rbind].
  change (padd (seg_bytes ++ rest) 14) with (wr16 (sg_window seg) ++ padd (seg_bytes ++ rest) 16).
  unfold wr16 at 1. cbn [app]. rewrite rd16_wr16 by done. cbn [rbind].
  change (padd (seg_bytes ++ rest) 20) with (payload ++ rest). do 2 f_equal. lia.
Qed.

Lemma ip_parse_built seg payload rest (skip : bool) :
  seg_ok seg -> Forall byte_ok payload -> zlen payload <= 65495 ->
  let total := 40 + zlen payload in
  let frame := built_ip total seg ++ patch16 (tcp_header0 seg ++ payload) 16 (tcp_csum_of seg payload) ++ rest in
  ip_tcp_parse_ex frame (zlen frame) skip =
    Ret (mk_seg (sg_src_ip seg) (sg_dst_ip seg) (sg_src_port seg) (sg_dst_port seg) (sg_seq seg) (sg_ack seg)
           (sg_window seg) (sg_flags seg) (payload ++ rest) (zlen payload)).
Proof.
  intros Hs Hp Hl. cbv zeta. set (total := 40 + zlen payload). pose proof (zlen_nonneg payload). pose proof (zlen_nonneg rest).
  destruct (built_ip_valid total seg Hs ltac:(unfold total; lia)) as (Hib & Hil & His). pose proof (so_src_ip _ Hs). pose proof (so_dst_ip _ Hs).
  destruct (tcp_parse_built seg payload rest skip Hs Hp Hl) as [Hsl Htcp]. set (seg_bytes := patch16 _ _ _) in *.
  assert (Hfl : zlen (built_ip total seg ++ seg_bytes ++ rest) = total + zlen rest) by (rewrite !zlen_app, Hil, Hsl; unfold total; lia).
  rewrite Hfl. unfold ip_tcp_parse_ex, IPV4_HEADER_LEN, TCP_HEADER_LEN, IPPROTO_TCP_VAL.
  set (frame := built_ip total seg ++ seg_bytes ++ rest).
  destruct (Z.ltb_spec (total + zlen rest) 20); [unfold total in *; lia|].
  change (rd frame 0) with (Ret 0x45). cbn [rbind]. change (negb (Z.shiftr 0x45 4 =? 4)) with false. cbn iota.
  change (Z.land 0x45 0x0f * 4) with 20. change (20 <? 20) with false. cbn [orb].
  destruct (Z.ltb_spec (total + zlen rest) 20); [lia|]. change (rd frame 9) with (Ret 6). cbn [rbind Z.eqb Pos.eqb negb].
  assert (E : rd16 (padd frame 2) = Ret total).
  { change (padd frame 2) with (u8 (Z.shiftr (u16 total) 8) :: u8 (u16 total) :: padd frame 4).
    rewrite (u16_small total) by (unfold total; lia). apply rd16_wr16. unfold total. lia. }
  rewrite E. cbn [rbind]. clear E. destruct (Z.ltb_spec (total + zlen rest) total); [lia|].
  unfold frame at 1. rewrite inet_csum_spec by done. rewrite His. cbn [rbind]. change (negb (65535 - 65535 =? 0)) with false. cbn iota.
  change (padd frame 12) with (wr32 (sg_src_ip seg) ++ padd frame 16). unfold wr32 at 1. cbn [app]. rewrite rd32_wr32 by done. cbn [rbind].
  change (padd frame 16) with (wr32 (sg_dst_ip seg) ++ padd frame 20). unfold wr32 at 1. cbn [app]. rewrite rd32_wr32 by done. cbn [rbind].
  change (padd frame 20) with (seg_bytes ++ rest). rewrite u64_small by (unfold total; lia).
  replace (total - 20) with (zlen seg_bytes) by (unfold total; lia).
  destruct (Z.ltb_spec (zlen seg_bytes) 20); [lia|]. rewrite u64_small by lia.
  destruct (Z.ltb_spec (total + zlen rest) (20 + zlen seg_bytes)); [unfold total in *; lia|].
  exact Htcp.
Qed.

(** ** Safety of the parser *)

Lemma wp_rd16 p (Q : Z -> Prop) :
  Forall byte_ok p -> 2 <= zlen p -> (forall w, rd16 p = Ret w -> 0 <= w < 2 ^ 16 -> Q w) -> wp (rd16 p) Q.
Proof.
  intros Hp Hl HQ. destruct p as [|a [|b p]]; rewrite ?zlen_cons, ?zlen_nil in Hl; try lia.
  apply Forall_cons_1 in Hp as [Ha Hp]. apply Forall_cons_1 in Hp as [Hb _]. pose proof (rd16_cons a b p Hb) as E.
  rewrite E. cbn [wp]. apply HQ; [exact E|]. unfold byte_ok in *. lia.
Qed.

Lemma wp_rd32 p (Q : Z -> Prop) :
  Forall byte_ok p -> 4 <= zlen p -> (forall w, 0 <= w < 2 ^ 32 -> Q w) -> wp (rd32 p) Q.
Proof.
  intros Hp Hl HQ. destruct p as [|a [|b [|c [|d p]]]]; rewrite ?zlen_cons, ?zlen_nil in Hl; try lia.
  do 4 (apply Forall_cons_1 in Hp as [? Hp]). rewrite rd32_cons by done. cbn [wp]. apply HQ. unfold byte_ok in *. lia.
Qed.

Lemma wp_rd_byte p i (Q : Z -> Prop) :
  Forall byte_ok p -> 0 <= i < zlen p -> (forall b, rd p i = Ret b -> byte_ok b -> Q b) -> wp (rd p i) Q.
Proof.
  intros Hp Hi HQ. destruct (rd_in_bounds p i Hi) as (b & E & _). rewrite E. cbn. apply HQ; [done|]. by eapply rd_byte.
Qed.

Lemma nibble x : byte_ok x -> 0 <= Z.land x 0x0f <= 15 /\ 0 <= Z.land (Z.shiftr x 4) 0x0f <= 15.
Proof.
  intros Hx. assert (E : forall y, Z.land y 0x0f = y mod 16) by (intros; by apply (Z.land_ones y 4)).
  rewrite !E. dlia.
Qed.

(** The words of the segment and the pseudo header sum to zero. *)
Definition tcp_csum_valid (src_ip dst_ip : Z) (tcp : list Z) (tcp_len : Z) : Prop :=
  exists w, rd16 (padd tcp 16) = Ret w /\
    (pseudo src_ip dst_ip tcp_len + wsum 16 0 (ztake tcp_len tcp) + w) mod 65535 = 0.

(** What an accepted TCP segment of [tcp_len] bytes satisfies. *)
Definition tcp_accepted (src_ip dst_ip : Z) (tcp : list Z) (tcp_len : Z) (skip : bool) (s : tcp_seg_t) : Prop :=
  sg_src_ip s = src_ip /\ sg_dst_ip s = dst_ip /\
  0 <= sg_src_port s < 2 ^ 16 /\ 0 <= sg_dst_port s < 2 ^ 16 /\ 0 <= sg_seq s < 2 ^ 32 /\ 0 <= sg_ack s < 2 ^ 32 /\
  0 <= sg_window s < 2 ^ 16 /\ byte_ok (sg_flags s) /\
  (exists doff, 20 <= doff /\ sg_payload s = padd tcp doff /\ doff + sg_payload_len s = tcp_len /\ 0 <= sg_payload_len s) /\
  (skip = false -> tcp_csum_valid src_ip dst_ip tcp tcp_len).

Lemma tcp_csum_wp src dst tcp tcp_len :
  0 <= src < 2 ^ 32 -> 0 <= dst < 2 ^ 32 -> Forall byte_ok tcp -> 20 <= tcp_len <= zlen tcp -> tcp_len < 2 ^ 16 ->
  wp (let! c := tcp_checksum src dst tcp tcp_len in let! w := rd16 (padd tcp 16) in Ret (c =? w))
    (fun ok => ok = true -> tcp_csum_valid src dst tcp tcp_len).
Proof.
  intros Hs Hd Hb Hl Hm. assert (Hz : zlen (ztake tcp_len tcp) = tcp_len) by (rewrite zlen_ztake by lia; lia).
  assert (E : tcp_checksum src dst tcp tcp_len = Ret (65535 - ones16 (pseudo src dst tcp_len + wsum 16 0 (ztake tcp_len tcp)))).
  { rewrite <- (take_drop (Z.to_nat tcp_len) tcp) at 1. apply tcp_checksum_spec; try done. by apply Forall_ztake. }
  rewrite E. cbn [rbind]. apply wp_bind, wp_rd16; [by apply Forall_padd|rewrite zlen_padd; lia|].
  intros w Ew Hw. cbn [wp]. intros Heq%Z.eqb_eq. exists w. split; [done|].
  pose proof (wsum_bounds 16 (ztake tcp_len tcp) (Forall_ztake _ _ _ Hb) 0) as [Hw0 _].
  destruct (ones16_range (pseudo src dst tcp_len + wsum 16 0 (ztake tcp_len tcp))) as (_ & Ho & _); [unfold pseudo; dlia|].
  rewrite <- Heq. revert Ho. generalize (pseudo src dst tcp_len + wsum 16 0 (ztake tcp_len tcp)). intros x Ho.
  replace (x + (65535 - ones16 x)) with (65535 - (ones16 x - x)) by lia. dlia.
Qed.

Lemma tcp_parse_wp src dst tcp tcp_len skip :
  0 <= src < 2 ^ 32 -> 0 <= dst < 2 ^ 32 -> Forall byte_ok tcp -> 20 <= tcp_len <= zlen tcp -> tcp_len < 2 ^ 16 ->
  wp (tcp_header_parse src dst tcp tcp_len skip) (tcp_accepted src dst tcp tcp_len skip).
Proof.
  intros Hs Hd Hb Hl Hm. unfold tcp_header_parse, TCP_HEADER_LEN.
  apply wp_bind, wp_rd_byte; [done|lia|]. intros t12 _ Ht. pose proof (nibble t12 Ht) as [_ Hn].
  cbv zeta. set (doff := Z.land (Z.shiftr t12 4) 15 * 4) in *.
  destruct (Z.ltb_spec doff 20), (Z.ltb_spec tcp_len doff); cbn [orb]; try done.
  apply wp_bind. eapply (wp_mono _ (fun ok => ok = true -> skip = false -> tcp_csum_valid src dst tcp tcp_len)).
  { destruct skip; [by cbn|]. eapply wp_mono; [by apply tcp_csum_wp|]. intros ok Hok E _. exact (Hok E). }
  intros ok Hok. destruct ok; cbn [negb]; [|done]. specialize (Hok eq_refl).
  apply wp_bind, wp_rd16; [done|lia|]. intros sp _ Hsp.
  apply wp_bind, wp_rd16; [by apply Forall_padd|rewrite zlen_padd; lia|]. intros dp _ Hdp.
  apply wp_bind, wp_rd32; [by apply Forall_padd|rewrite zlen_padd; lia|]. intros sq Hsq.
  apply wp_bind, wp_rd32; [by apply Forall_padd|rewrite zlen_padd; lia|]. intros ak Hak.
  apply wp_bind, wp_rd_byte; [done|lia|]. intros fl _ Hfl.
  apply wp_bind, wp_rd16; [by apply Forall_padd|rewrite zlen_padd; lia|]. intros wi _ Hwi.
  cbn [wp]. unfold tcp_accepted. cbn. split_and!; try done; try lia. exists doff. split_and!; [lia|done|lia|lia].
Qed.

(** The header's total length covers the header itself. *)
Definition total_covers_header (frame : list Z) : Prop :=
  forall f0 total, rd frame 0 = Ret f0 -> rd16 (padd frame 2) = Ret total -> Z.land f0 0x0f * 4 <= total.

Definition frame_accepted (frame : list Z) (len : Z) (skip : bool) (s : tcp_seg_t) : Prop :=
  exists ihl total, 20 <= ihl /\ ihl + 20 <= total <= len /\
    wsum (-1) 0 (ztake ihl frame) mod 65535 = 0 /\
    tcp_accepted (sg_src_ip s) (sg_dst_ip s) (padd frame ihl) (total - ihl) skip s.

Lemma ip_parse_wp frame len skip :
  Forall byte_ok frame -> len <= zlen frame -> total_covers_header frame ->
  wp (ip_tcp_parse_ex frame len skip) (frame_accepted frame len skip).
Proof.
  intros Hb Hl Hcov. unfold ip_tcp_parse_ex, IPV4_HEADER_LEN, TCP_HEADER_LEN, IPPROTO_TCP_VAL.
  destruct (Z.ltb_spec len 20); [done|].
  apply wp_bind, wp_rd_byte; [done|lia|]. intros f0 E0 Hf0. zcase; [done|]. pose proof (nibble f0 Hf0) as [Hn _].
  specialize (Hcov f0). cbv zeta. set (ihl := Z.land f0 15 * 4) in *.
  destruct (Z.ltb_spec ihl 20), (Z.ltb_spec len ihl); cbn [orb]; try done.
  apply wp_bind, wp_rd_byte; [done|lia|]. intros f9 _ _. zcase; [done|].
  apply wp_bind, wp_rd16; [by apply Forall_padd|rewrite zlen_padd; lia|]. intros total Et Ht. specialize (Hcov total E0 Et).
  destruct (Z.ltb_spec len total); [done|].
  assert (Ec : inet_csum frame ihl = Ret (65535 - ones16 (wsum (-1) 0 (ztake ihl frame)))).
  { rewrite <- (take_drop (Z.to_nat ihl) frame) at 1.
    apply inet_csum_spec; [by apply Forall_ztake|fold (ztake ihl frame); rewrite zlen_ztake; lia|lia]. }
  rewrite Ec. cbn [rbind]. destruct (Z.eqb_spec (65535 - ones16 (wsum (-1) 0 (ztake ihl frame))) 0) as [Ez|]; [|done]. cbn [negb].
  apply wp_bind, wp_rd32; [by apply Forall_padd|rewrite zlen_padd; lia|]. intros src Hs.
  apply wp_bind, wp_rd32; [by apply Forall_padd|rewrite zlen_padd; lia|]. intros dst Hd.
  rewrite (u64_small (total - ihl)) by lia. destruct (Z.ltb_spec (total - ihl) 20); [done|].
  rewrite u64_small by lia. destruct (Z.ltb_spec len (ihl + (total - ihl))); [lia|].
  eapply wp_mono; [apply tcp_parse_wp; [done|done|by apply Forall_padd|rewrite zlen_padd; lia|lia]|].
  intros s Hacc. exists ihl, total.
  destruct (Hacc) as (Es & Ed & _). rewrite Es, Ed. clear Es Ed.
  pose proof (wsum_bounds (-1) (ztake ihl frame) (Forall_ztake _ _ _ Hb) 0) as [Hw0 _].
  destruct (ones16_range (wsum (-1) 0 (ztake ihl frame)) Hw0) as (_ & Ho & _).
  split; [lia|]. split; [lia|]. split; [|exact Hacc]. dlia.
Qed.

(** ** Properties *)

(** Building and parsing TCP/IP frames round-trips.  For every segment
    whose fields are in range and whose payload fits an IPv4 datagram,
    [ip_tcp_build] succeeds in any large enough buffer, and [ip_tcp_parse_ex],
    with or without TCP checksum validation and with any padding after the
    datagram, accepts the frame and returns the same addresses, ports, numbers,
    window, flags and payload. *)
Theorem ip_tcp_roundtrip cap seg rest skip :
  seg_ok seg -> 40 + sg_payload_len seg <= cap -> sg_payload_len seg <= 65495 ->
  exists frame seg', ip_tcp_build cap seg = Ret frame /\ zlen frame = 40 + sg_payload_len seg /\
    ip_tcp_parse_ex (frame ++ rest) (zlen (frame ++ rest)) skip = Ret seg' /\
    seg' = mk_seg (sg_src_ip seg) (sg_dst_ip seg) (sg_src_port seg) (sg_dst_port seg) (sg_seq seg) (sg_ack seg)
             (sg_window seg) (sg_flags seg) (sg_payload seg') (sg_payload_len seg) /\
    ztake (sg_payload_len seg) (sg_payload seg') = ztake (sg_payload_len seg) (sg_payload seg).
Proof.
  intros Hs Hc Hl. pose proof (so_len _ Hs) as Hpl. set (payload := ztake (sg_payload_len seg) (sg_payload seg)).
  assert (Hz : zlen payload = sg_payload_len seg) by (unfold payload; rewrite zlen_ztake; lia).
  assert (Hb : Forall byte_ok payload) by (apply Forall_ztake; apply (so_payload _ Hs)).
  eexists _, _. split; [by apply ip_build_spec|]. fold payload.
  pose proof (ip_parse_built seg payload rest skip Hs Hb ltac:(lia)) as E. cbv zeta in E. rewrite app_assoc, Hz in E.
  split; [|split; [exact E|]].
  - rewrite zlen_app. change (zlen (built_ip (40 + sg_payload_len seg) seg)) with 20. unfold patch16. rewrite !zlen_insert, zlen_app, Hz.
    change (zlen (tcp_header0 seg)) with 20. lia.
  - cbn. split; [done|]. by apply ztake_app.
Qed.

Definition syn_seg : tcp_seg_t := mk_seg 0x0a000001 0x0a000002 40000 443 0xfffffff0 0 65535 TCPF_SYN [104; 105; 33] 3.

Lemma syn_seg_ok : seg_ok syn_seg.
Proof.
  constructor; cbn; try lia; [unfold byte_ok, TCPF_SYN; lia| |vm_compute; split; discriminate].
  repeat (apply Forall_cons_2; [unfold byte_ok; lia|]). apply Forall_nil_2.
Qed.

Lemma ip_tcp_roundtrip_witness :
  exists frame seg', ip_tcp_build 1500 syn_seg = Ret frame /\ zlen frame = 43 /\
    ip_tcp_parse_ex (frame ++ [0; 0; 0]) (zlen (frame ++ [0; 0; 0])) false = Ret seg' /\ sg_seq seg' = 0xfffffff0.
Proof.
  destruct (ip_tcp_roundtrip 1500 syn_seg [0; 0; 0] false syn_seg_ok) as (frame & seg' & E1 & E2 & E3 & E4 & _);
    [vm_compute; discriminate|vm_compute; discriminate|].
  exists frame, seg'. split_and!; [exact E1|exact E2|exact E3|rewrite E4; reflexivity].
Defined.

(** [ip_tcp_parse_ex] is memory safe on every frame whose IPv4 total length
    covers its own header.  It then never reads outside the frame; an accepted
    frame has a header whose words sum to zero in one's complement (and likewise
    the TCP segment unless the check is skipped), fields in range, and a payload
    that lies inside the datagram. *)
Theorem ip_tcp_parse_safe frame len skip :
  Forall byte_ok frame -> len <= zlen frame -> total_covers_header frame ->
  ip_tcp_parse_ex frame len skip <> Oob /\
  forall seg, ip_tcp_parse_ex frame len skip = Ret seg -> frame_accepted frame len skip seg.
Proof.
  intros Hb Hl Hc. pose proof (ip_parse_wp frame len skip Hb Hl Hc) as H.
  split; [by eapply wp_no_oob|]. intros seg E. by apply (wp_ret _ _ _ H).
Qed.

Lemma ip_tcp_parse_safe_witness :
  exists frame seg, ip_tcp_build 1500 syn_seg = Ret frame /\ ip_tcp_parse_ex frame 43 false = Ret seg /\
    frame_accepted frame 43 false seg.
Proof.
  destruct (ip_tcp_build 1500 syn_seg) as [frame| |] eqn:E; vm_compute in E; try discriminate E.
  injection E as <-. eexists _, _. split; [reflexivity|]. split; [reflexivity|].
  apply ip_tcp_parse_safe.
  - repeat (apply Forall_cons_2; [unfold byte_ok; lia|]). apply Forall_nil_2.
  - vm_compute. discriminate.
  - intros f0 total E0 E1. vm_compute in E0, E1. injection E0 as <-. injection E1 as <-. vm_compute. discriminate.
  - reflexivity.
Defined.

(** ** A total length shorter than the header

    [tcp_len = total - ihl] wraps when [total < ihl], and so does the
    "belt-and-braces" check, which then always passes. *)

(** A 40-byte frame with a valid header checksum and total length 0. *)
Definition short_total : list Z :=
  [0x45; 0; 0; 0; 0; 0; 0x40; 0; 64; 6; 0x26; 0xf6; 10; 0; 0; 1; 10; 0; 0; 2;
   0; 80; 0; 80; 0; 0; 0; 1; 0; 0; 0; 0; 0x50; 0x10; 0xff; 0xff; 0; 0; 0; 0].

Theorem short_total_underflow :
  (exists seg, ip_tcp_parse_ex short_total 40 true = Ret seg /\ sg_payload_len seg = 2 ^ 64 - 40) /\
  ip_tcp_parse short_total 40 = Oob.
Proof. split; [eexists; split; reflexivity|reflexivity]. Qed.
