(* ===== verification/Dispatch.v ===== *)
(** * Service dispatch table

    Models [userspace/dispatch.c] and the callback types of
    [userspace/dispatch.h].  A service is application code behind three
    function pointers: its callbacks are arguments of the model, acting on an
    abstract world [W], and a NULL pointer is [None].  A non-NULL per-connection
    state pointer is a handle. *)

From Stdlib Require Import ZArith Lia.
From stdpp Require Import list numbers option.
From S2P Require Import Prelude Iov.

Definition PW_DISPATCH_MAX : nat := 16.

Inductive pw_proto_t := PW_PROTO_TCP | PW_PROTO_UDP.

#[global] Instance pw_proto_eq_dec : EqDecision pw_proto_t.
Proof. solve_decision. Defined.

Record pw_conn_info_t := mk_info {
  ci_remote_ip : Z; ci_remote_port : Z; ci_local_ip : Z; ci_local_port : Z; ci_proto : pw_proto_t }.

Inductive pw_disp_status_t :=
| PW_DISP_NO_OUTPUT | PW_DISP_OUTPUT | PW_DISP_OUTPUT_AND_CLOSE | PW_DISP_RESET | PW_DISP_ERROR.

Section Table.
Context {W : Type}.

Record pw_service_t := mk_service {
  sv_proto : pw_proto_t;
  sv_port : Z;
  sv_on_open : option (W -> pw_conn_info_t -> W * option Z);
  sv_on_data : option (W -> option Z -> list Z -> Z -> W * pw_disp_status_t * list pw_iov_t);
  sv_on_close : option (W -> Z -> W)
}.

(** The entries in use; [n] is the length. *)
Definition pw_dispatch_t := list pw_service_t.

Definition pw_dispatch_init : pw_dispatch_t := [].

Definition same_key (a b : pw_service_t) : bool :=
  bool_decide (sv_proto a = sv_proto b) && (sv_port a =? sv_port b).

(** [None] is the return value -1. *)
Definition pw_dispatch_register (d : pw_dispatch_t) (svc : pw_service_t) : option pw_dispatch_t :=
  if sv_port svc =? 0 then None
  else match sv_on_data svc with
  | None => None
  | Some _ =>
      if (PW_DISPATCH_MAX <=? length d)%nat then None
      else if existsb (fun e => same_key e svc) d then None
      else Some (d ++ [svc])
  end.

Fixpoint pw_dispatch_lookup (d : pw_dispatch_t) (proto : pw_proto_t) (port : Z) : option pw_service_t :=
  match d with
  | [] => None
  | e :: d' => if (sv_port e =? port) && bool_decide (sv_proto e = proto) then Some e else pw_dispatch_lookup d' proto port
  end.

(** Registering services one after the other, stopping at the first error. *)
Fixpoint register_all (d : pw_dispatch_t) (svcs : list pw_service_t) : option pw_dispatch_t :=
  match svcs with
  | [] => Some d
  | s :: svcs' => d ← pw_dispatch_register d s; register_all d svcs'
  end.

Lemma lookup_app d e proto port :
  pw_dispatch_lookup (d ++ e) proto port =
    match pw_dispatch_lookup d proto port with Some s => Some s | None => pw_dispatch_lookup e proto port end.
Proof. induction d as [|s d IH]; cbn; [done|]. destruct (_ && _); [done|apply IH]. Qed.

Lemma lookup_no_key d svc :
  existsb (fun e => same_key e svc) d = false -> pw_dispatch_lookup d (sv_proto svc) (sv_port svc) = None.
Proof.
  induction d as [|e d IH]; cbn; [done|]. intros [H1 H2]%orb_false_iff. unfold same_key in H1.
  rewrite andb_comm, H1. by apply IH.
Qed.

Lemma register_some d svc d' :
  pw_dispatch_register d svc = Some d' ->
  d' = d ++ [svc] /\ (length d < PW_DISPATCH_MAX)%nat /\ existsb (fun e => same_key e svc) d = false.
Proof.
  unfold pw_dispatch_register. intros E. zcase_in E; [done|]. destruct (sv_on_data svc); [|done].
  destruct (Nat.leb_spec PW_DISPATCH_MAX (length d)); [done|]. destruct (existsb _ d) eqn:Ex; [done|]. by injection E as <-.
Qed.

(** A registered service is found, and registration changes no other key. *)
Lemma register_lookup d svc d' proto port :
  pw_dispatch_register d svc = Some d' ->
  pw_dispatch_lookup d' proto port =
    if (sv_port svc =? port) && bool_decide (sv_proto svc = proto) then Some svc else pw_dispatch_lookup d proto port.
Proof.
  intros (-> & _ & Ex)%register_some. rewrite lookup_app. cbn. destruct ((sv_port svc =? port) && bool_decide (sv_proto svc = proto)) eqn:K.
  - apply andb_true_iff in K as [<-%Z.eqb_eq <-%bool_decide_eq_true]. by rewrite lookup_no_key.
  - by destruct (pw_dispatch_lookup d proto port).
Qed.

Lemma register_all_lookup svcs : forall d d' s,
  register_all d svcs = Some d' ->
  (s ∈ svcs \/ pw_dispatch_lookup d (sv_proto s) (sv_port s) = Some s) ->
  pw_dispatch_lookup d' (sv_proto s) (sv_port s) = Some s.
Proof.
  induction svcs as [|x svcs IH]; intros d d' s E Hs; cbn in E.
  - injection E as <-. destruct Hs as [[]%elem_of_nil|?]; done.
  - destruct (pw_dispatch_register d x) as [d1|] eqn:R; cbn in E; [|done]. apply (IH d1 d' s E).
    pose proof (register_lookup d x d1 (sv_proto s) (sv_port s) R) as L.
    destruct Hs as [[->|?]%elem_of_cons|Hs]; [right|by left|right].
    + by rewrite L, Z.eqb_refl, bool_decide_eq_true_2.
    + rewrite L. destruct ((sv_port x =? sv_port s) && bool_decide (sv_proto x = sv_proto s)) eqn:K; [|done].
      apply andb_true_iff in K as [K1%Z.eqb_eq K2%bool_decide_eq_true].
      apply register_some in R as (_ & _ & Ex%lookup_no_key). rewrite K1, K2 in Ex. congruence.
Qed.

Lemma register_all_length svcs : forall d0 d,
  (length d0 <= PW_DISPATCH_MAX)%nat -> register_all d0 svcs = Some d ->
  (length d <= PW_DISPATCH_MAX)%nat /\ length d = (length d0 + length svcs)%nat.
Proof.
  induction svcs as [|x svcs IH]; intros d0 d Hl E; cbn in E; [injection E as <-; cbn; lia|].
  destruct (pw_dispatch_register d0 x) as [d1|] eqn:R; cbn in E; [|done]. apply register_some in R as (-> & Hlt & _).
  destruct (IH (d0 ++ [x]) d) as [H1 H2]; rewrite ?length_app in *; cbn in *; [lia|done|split; lia].
Qed.
End Table.

Arguments pw_service_t : clear implicits.
Arguments pw_dispatch_t : clear implicits.

(** The dispatch table routes every registered service.  If a sequence of
    [pw_dispatch_register] calls on the empty table all succeed, then
    [pw_dispatch_lookup] finds every one of the services under its own protocol
    and port (no later registration shadows an earlier one), and an accepted
    table has at most 16 entries. *)
Theorem dispatch_routes {W} (svcs : list (pw_service_t W)) d :
  register_all pw_dispatch_init svcs = Some d ->
  (length d <= 16)%nat /\ length d = length svcs /\
  forall s, s ∈ svcs -> pw_dispatch_lookup d (sv_proto s) (sv_port s) = Some s.
Proof.
  intros E. destruct (register_all_length svcs [] d) as [H1 H2]; [cbn; lia|done|]. split_and!; [done|done|].
  intros s Hs. apply (register_all_lookup svcs pw_dispatch_init d s E). by left.
Qed.

Lemma dispatch_routes_witness :
  let on_data := Some (fun (w : unit) (_ : option Z) (_ : list Z) (_ : Z) => (w, PW_DISP_NO_OUTPUT, @nil pw_iov_t)) in
  let a := mk_service PW_PROTO_TCP 443 None on_data None in
  let b := mk_service PW_PROTO_UDP 443 None on_data None in
  pw_dispatch_lookup [a; b] PW_PROTO_UDP 443 = Some b.
Proof.
  intros on_data a b. destruct (dispatch_routes [a; b] [a; b] eq_refl) as (_ & _ & H).
  apply (H b). apply elem_of_cons. right. apply elem_of_cons. by left.
Defined.
