(* ===== verification/Tcp.v ===== *)
(** * The TCP state machine

    Models [userspace/tcp/tcp.c]: passive open, in-order receive with flow
    control, segmentation, retransmission, congestion control, RST handling and
    the service callbacks.  A function that takes a [tcp_conn_t*] is a
    computation of the monad [M]: it reads and writes the connection and the
    services' world, and produces events (segments emitted, callbacks made) in
    order.  32-bit sequence arithmetic wraps, as in C. *)

From Stdlib Require Import ZArith Lia.
From stdpp Require Import list numbers option.
From coqutil Require Import Datatypes.RecordSetters.
Import DoubleBraceUpdate.
From S2P Require Import Prelude Ip Iov Dispatch.

#[global] Arguments constant _ _ _ /.

Definition TCP_TABLE_SIZE : nat := 256.
Definition TCP_RTX_QUEUE_MAX : Z := 4.
Definition TCP_RTO_INIT_MS : Z := 1000.
Definition TCP_RTO_MIN_MS : Z := 200.
Definition TCP_RTO_MAX_MS : Z := 60000.
Definition TCP_MSS : Z := 1460.
Definition TCP_INIT_CWND : Z := 10 * TCP_MSS.
Definition TCP_MIN_CWND : Z := 2 * TCP_MSS.
Definition TCP_DUPACK_THRESHOLD : Z := 3.

Inductive tcp_state_t :=
| TCP_CLOSED | TCP_LISTEN | TCP_SYN_RECEIVED | TCP_ESTABLISHED | TCP_CLOSE_WAIT | TCP_LAST_ACK.

#[global] Instance tcp_state_eq_dec : EqDecision tcp_state_t.
Proof. solve_decision. Defined.

Definition state_eqb (a b : tcp_state_t) : bool := bool_decide (a = b).

Record tcp_rtx_entry_t := mk_rtx {
  rx_seq : Z;
  rx_len : Z;
  rx_payload : list Z;
  rx_flags : Z;
  rx_retrans : bool;
  rx_tx_time_ms : Z
}.

Section Tcp.
Context {W : Type}.

(** The queue [rtx[0 .. rtx_n)] is a list. *)
Record tcp_conn_t := mk_conn {
  c_state : tcp_state_t;
  c_local_ip : Z;
  c_remote_ip : Z;
  c_local_port : Z;
  c_remote_port : Z;
  c_snd_nxt : Z;
  c_snd_una : Z;
  c_rcv_nxt : Z;
  c_rcv_wnd : Z;
  c_rcv_buf_cap : Z;
  c_rcv_buf_used : Z;
  c_rtx : list tcp_rtx_entry_t;
  c_srtt_ms : Z;
  c_rttvar_ms : Z;
  c_rto_ms : Z;
  c_cwnd : Z;
  c_ssthresh : Z;
  c_snd_wnd : Z;
  c_dupack_n : Z;
  c_recovery_seq : Z;
  c_in_recovery : bool;
  c_svc : option (pw_service_t W);
  c_app_state : option Z;
  c_opened : bool
}.

(** What a connection does to the outside. *)
Inductive event :=
| EvEmit (s : tcp_seg_t)          (** [emit(&s, user)] *)
| EvOpen (h : option Z)           (** [on_open] returned this handle *)
| EvData (data : list Z)          (** bytes handed to [on_data] *)
| EvClose (h : Z).                (** [on_close] *)

Definition M (A : Type) : Type := tcp_conn_t -> W -> res (A * tcp_conn_t * W * list event).

Definition mret {A} (a : A) : M A := fun c w => Ret (a, c, w, []).
Definition mbind {A B} (m : M A) (k : A -> M B) : M B := fun c w =>
  let! (a, c1, w1, e1) := m c w in
  let! (b, c2, w2, e2) := k a c1 w1 in
  Ret (b, c2, w2, e1 ++ e2).
Definition get : M tcp_conn_t := fun c w => Ret (c, c, w, []).
Definition put (c' : tcp_conn_t) : M unit := fun _ w => Ret (tt, c', w, []).
Definition event_ (e : event) : M unit := fun c w => Ret (tt, c, w, [e]).
(** Run a callback that acts on the world. *)
Definition call {A} (f : W -> W * A) : M A := fun c w => let (w', a) := f w in Ret (a, c, w', []).
(** Undefined behaviour: a NULL function pointer or a buffer overrun. *)
Definition undefined {A} : M A := fun _ _ => Oob.
Definition lift {A} (r : res A) : M A := fun c w => let! a := r in Ret (a, c, w, []).

Local Notation "x <- m ;; k" := (mbind m (fun x => k)) (at level 100, m at next level, k at level 200, right associativity).
Local Notation "m ;;; k" := (mbind m (fun _ => k)) (at level 100, k at level 200, right associativity).
Local Notation "'upd' f" := (c <- get;; put (f c)) (at level 10, f at level 9).

(** A segment of this connection with the current [rcv_nxt]. *)
Definition seg_of (c : tcp_conn_t) (seq flags window : Z) (payload : list Z) (payload_len : Z) : tcp_seg_t :=
  mk_seg (c_local_ip c) (c_remote_ip c) (c_local_port c) (c_remote_port c) seq (c_rcv_nxt c) window flags payload payload_len.

Definition has_flag (flags bit : Z) : bool := negb (Z.land flags bit =? 0).

(** ** Receive window *)

Definition tcp_advertised_wnd (c : tcp_conn_t) : Z :=
  if c_rcv_buf_cap c =? 0 then 65535
  else if c_rcv_buf_cap c <=? c_rcv_buf_used c then 0
  else
    let free_bytes := c_rcv_buf_cap c - c_rcv_buf_used c in
    if 65535 <? free_bytes then 65535 else u16 free_bytes.

Definition tcp_set_rcv_buf_cap (cap : Z) : M unit :=
  c <- get;;
  let c := c {{ c_rcv_buf_cap := cap; c_rcv_buf_used := 0 }} in
  put (c {{ c_rcv_wnd := tcp_advertised_wnd c }}).

Definition tcp_rcv_consumed (n : Z) : M unit :=
  if n =? 0 then mret tt
  else
    c <- get;;
    let old_wnd := c_rcv_wnd c in
    let c := c {{ c_rcv_buf_used := if c_rcv_buf_used c <=? n then 0 else c_rcv_buf_used c - n }} in
    let new_wnd := tcp_advertised_wnd c in
    put (c {{ c_rcv_wnd := new_wnd }});;;
    if (old_wnd =? 0) && (0 <? new_wnd) && state_eqb (c_state c) TCP_ESTABLISHED
    then event_ (EvEmit (seg_of c (c_snd_nxt c) TCPF_ACK new_wnd [] 0))
    else mret tt.

Definition emit_ctrl (flags : Z) : M unit :=
  c <- get;;
  let c := c {{ c_rcv_wnd := tcp_advertised_wnd c }} in
  put c;;;
  event_ (EvEmit (seg_of c (c_snd_nxt c) flags (c_rcv_wnd c) [] 0)).

Definition emit_rst (i : tcp_seg_t) : M unit :=
  event_ (EvEmit (
    if has_flag (sg_flags i) TCPF_ACK
    then mk_seg (sg_dst_ip i) (sg_src_ip i) (sg_dst_port i) (sg_src_port i) (sg_ack i) 0 0 TCPF_RST [] 0
    else mk_seg (sg_dst_ip i) (sg_src_ip i) (sg_dst_port i) (sg_src_port i) 0
           (u32 (sg_seq i + (if has_flag (sg_flags i) TCPF_SYN then 1 else 0) + sg_payload_len i))
           0 (Z.lor TCPF_RST TCPF_ACK) [] 0)).

(** ** Congestion control *)

Fixpoint flight_sum (q : list tcp_rtx_entry_t) (sum : Z) : Z :=
  match q with [] => sum | e :: q' => flight_sum q' (u32 (sum + rx_len e)) end.

Definition tcp_flight_size (c : tcp_conn_t) : Z := flight_sum (c_rtx c) 0.

Definition tcp_send_window (c : tcp_conn_t) : Z :=
  let cwnd := if negb (c_cwnd c =? 0) then c_cwnd c else TCP_INIT_CWND in
  let snd := if negb (c_snd_wnd c =? 0) then c_snd_wnd c else 65535 in
  let lim := if cwnd <? snd then cwnd else snd in
  let fl := tcp_flight_size c in
  if lim <=? fl then 0 else lim - fl.

Definition cc_on_new_ack (bytes_acked : Z) : M unit :=
  if bytes_acked =? 0 then mret tt
  else
    c <- get;;
    if c_in_recovery c then
      let c := if 0 <=? i32 (c_snd_una c - c_recovery_seq c)
               then c {{ c_in_recovery := false; c_cwnd := c_ssthresh c }} else c in
      put (c {{ c_dupack_n := 0 }})
    else if c_cwnd c <? c_ssthresh c then
      let inc := if bytes_acked <? TCP_MSS then bytes_acked else TCP_MSS in
      put (c {{ c_cwnd := u32 (c_cwnd c + inc); c_dupack_n := 0 }})
    else
      let inc := TCP_MSS * TCP_MSS / (if negb (c_cwnd c =? 0) then c_cwnd c else 1) in
      let inc := if inc =? 0 then 1 else inc in
      put (c {{ c_cwnd := u32 (c_cwnd c + inc); c_dupack_n := 0 }}).

Definition cc_on_dupack : M unit :=
  upd (fun c => c {{ c_dupack_n := u32 (c_dupack_n c + 1) }});;;
  c <- get;;
  if c_dupack_n c <? TCP_DUPACK_THRESHOLD then mret tt
  else if c_in_recovery c then put (c {{ c_cwnd := u32 (c_cwnd c + TCP_MSS) }})
  else
    let half := tcp_flight_size c / 2 in
    let ssthresh := if TCP_MIN_CWND <=? half then half else TCP_MIN_CWND in
    let c := c {{ c_ssthresh := ssthresh; c_cwnd := u32 (ssthresh + 3 * TCP_MSS);
                  c_recovery_seq := c_snd_nxt c; c_in_recovery := true }} in
    match c_rtx c with
    | [] => put c
    | e :: q =>
        let c := c {{ c_rcv_wnd := tcp_advertised_wnd c }} in
        put (c {{ c_rtx := e {{ rx_retrans := true }} :: q }});;;
        event_ (EvEmit (seg_of c (rx_seq e) (rx_flags e) (c_rcv_wnd c) (rx_payload e) (rx_len e)))
    end.

Definition cc_on_rto (c : tcp_conn_t) : tcp_conn_t :=
  let half := tcp_flight_size c / 2 in
  c {{ c_ssthresh := if TCP_MIN_CWND <=? half then half else TCP_MIN_CWND;
       c_cwnd := TCP_MSS; c_dupack_n := 0; c_in_recovery := false }}.

(** ** Retransmit queue *)

(** [None] is the return value -1. *)
Definition rtx_enqueue (c : tcp_conn_t) (e : tcp_rtx_entry_t) : option tcp_conn_t :=
  if TCP_RTX_QUEUE_MAX <=? zlen (c_rtx c) then None
  else Some (c {{ c_rtx := c_rtx c ++ [e] }}).

(** One RTT sample (RFC 6298), for an entry that was not retransmitted. *)
Definition rtx_sample (c : tcp_conn_t) (r_ms : Z) : tcp_conn_t :=
  let c :=
    if c_srtt_ms c =? 0 then c {{ c_srtt_ms := r_ms; c_rttvar_ms := r_ms / 2 }}
    else
      let diff := if r_ms <? c_srtt_ms c then c_srtt_ms c - r_ms else r_ms - c_srtt_ms c in
      c {{ c_rttvar_ms := u32 (u32 (3 * c_rttvar_ms c) + diff) / 4;
           c_srtt_ms := u32 (u32 (7 * c_srtt_ms c) + r_ms) / 8 }} in
  let kvar := u32 (4 * c_rttvar_ms c) in
  let kvar := if kvar <? 1 then 1 else kvar in
  let rto := u32 (c_srtt_ms c + kvar) in
  let rto := if rto <? TCP_RTO_MIN_MS then TCP_RTO_MIN_MS else rto in
  let rto := if TCP_RTO_MAX_MS <? rto then TCP_RTO_MAX_MS else rto in
  c {{ c_rto_ms := rto }}.

(** The loop of [rtx_on_ack]: the entries kept, and the connection after the samples. *)
Fixpoint rtx_ack_loop (ack_no now_ms : Z) (q : list tcp_rtx_entry_t) (c : tcp_conn_t)
  : list tcp_rtx_entry_t * tcp_conn_t :=
  match q with
  | [] => ([], c)
  | e :: q' =>
      let end_ := u32 (rx_seq e + rx_len e) in
      if i32 (ack_no - end_) <? 0 then
        let (kept, c') := rtx_ack_loop ack_no now_ms q' c in (e :: kept, c')
      else
        let c := if negb (rx_retrans e) && negb (now_ms =? 0) && (rx_tx_time_ms e <=? now_ms)
                 then rtx_sample c (u32 (now_ms - rx_tx_time_ms e)) else c in
        rtx_ack_loop ack_no now_ms q' c
  end.

Definition rtx_on_ack (ack_no now_ms : Z) : M unit :=
  c <- get;;
  let (kept, c') := rtx_ack_loop ack_no now_ms (c_rtx c) c in
  put (c' {{ c_rtx := kept }}).

(** ** Sending *)

(** [while (sent < len)]; a chunk is at least one byte.  [None] is -1. *)
Fixpoint send_loop (data : list Z) (len now_ms sent : Z) (fuel : nat) : M (option Z) :=
  if len <=? sent then mret (Some len)
  else match fuel with
  | O => undefined
  | S fuel' =>
      let chunk := len - sent in
      let chunk := if TCP_MSS <? chunk then TCP_MSS else chunk in
      c <- get;;
      let c := c {{ c_rcv_wnd := tcp_advertised_wnd c }} in
      let flags := Z.lor TCPF_ACK (if len <=? sent + chunk then TCPF_PSH else 0) in
      put c;;;
      event_ (EvEmit (seg_of c (c_snd_nxt c) flags (c_rcv_wnd c) (padd data sent) chunk));;;
      match (if negb (now_ms =? 0) && (0 <? chunk)
             then rtx_enqueue c (mk_rtx (c_snd_nxt c) (u32 chunk) (padd data sent) flags false now_ms) else Some c) with
      | None => mret None
      | Some c =>
          put (c {{ c_snd_nxt := u32 (c_snd_nxt c + u32 chunk) }});;;
          send_loop data len now_ms (sent + chunk) fuel'
      end
  end.

Definition tcp_send_at (data : list Z) (len now_ms : Z) : M (option Z) :=
  c <- get;;
  if negb (state_eqb (c_state c) TCP_ESTABLISHED) then mret None
  else if negb (now_ms =? 0) && (TCP_RTX_QUEUE_MAX <=? zlen (c_rtx c)) then mret None
  else if negb (now_ms =? 0) && (tcp_send_window c <? u32 len) then mret None
  else
    put (if c_rto_ms c =? 0 then c {{ c_rto_ms := TCP_RTO_INIT_MS }} else c);;;
    send_loop data len now_ms 0 (Z.to_nat len).

Definition tcp_send (data : list Z) (len : Z) : M (option Z) := tcp_send_at data len 0.

Definition iov_total (iov : list pw_iov_t) : Z := foldl (fun t v => u64 (t + iov_len v)) 0 iov.

(** The bytes of the fragments, one after the other. *)
Fixpoint gather (iov : list pw_iov_t) : res (list Z) :=
  match iov with
  | [] => Ret []
  | v :: iov' => let! b := rdn (iov_base v) (iov_len v) in let! l := gather iov' in Ret (b ++ l)
  end.

(** [static uint8_t scratch[16 * 1024]] *)
Definition SCRATCH_SIZE : Z := 16 * 1024.

Definition tcp_sendv (iov : list pw_iov_t) : M (option Z) :=
  c <- get;;
  if negb (state_eqb (c_state c) TCP_ESTABLISHED) then mret None
  else match iov with
  | [] => mret (Some 0)
  | [v] => tcp_send (iov_base v) (iov_len v)
  | _ =>
      let total := iov_total iov in
      if SCRATCH_SIZE <? total then mret None
      else
        scratch <- lift (gather iov);;
        if SCRATCH_SIZE <? zlen scratch then undefined else tcp_send scratch total
  end.

(** ** Service callbacks *)

Definition fire_open : M bool :=
  c <- get;;
  match c_svc c with
  | None => mret true
  | Some svc =>
      if c_opened c then mret true
      else match sv_on_open svc with
      | None => put (c {{ c_opened := true }});;; mret true
      | Some on_open =>
          let info := mk_info (c_remote_ip c) (c_remote_port c) (c_local_ip c) (c_local_port c) PW_PROTO_TCP in
          st <- call (fun w => on_open w info);;
          event_ (EvOpen st);;;
          match st with
          | None =>
              emit_ctrl TCPF_RST;;;
              upd (fun c => c {{ c_state := TCP_CLOSED }});;;
              mret false
          | Some h =>
              upd (fun c => c {{ c_app_state := Some h; c_opened := true }});;;
              mret true
          end
      end
  end.

Definition fire_close : M unit :=
  c <- get;;
  match c_svc c with
  | None => mret tt
  | Some svc =>
      if negb (c_opened c) then mret tt
      else
        match sv_on_close svc, c_app_state c with
        | Some on_close, Some h => call (fun w => (on_close w h, tt));;; event_ (EvClose h)
        | _, _ => mret tt
        end;;;
        upd (fun c => c {{ c_app_state := None; c_opened := false }})
  end.

(** [if (iov_n) tcp_sendv(c, iov, iov_n, ...);] *)
Definition send_output (iov : list pw_iov_t) : M (option Z) :=
  match iov with [] => mret None | _ => tcp_sendv iov end.

Definition drive_service_data (svc : pw_service_t W) (data : list Z) (len : Z) : M bool :=
  c <- get;;
  match sv_on_data svc with
  | None => undefined
  | Some on_data =>
      event_ (EvData (ztake len data));;;
      r <- call (fun w => let '(w', st, iov) := on_data w (c_app_state c) data len in (w', (st, iov)));;
      let (st, iov) := (r : pw_disp_status_t * list pw_iov_t) in
      match st with
      | PW_DISP_NO_OUTPUT => mret true
      | PW_DISP_OUTPUT =>
          send_output iov;;;
          mret true
      | PW_DISP_OUTPUT_AND_CLOSE =>
          send_output iov;;;
          emit_ctrl (Z.lor TCPF_FIN TCPF_ACK);;;
          upd (fun c => c {{ c_snd_nxt := u32 (c_snd_nxt c + 1); c_state := TCP_LAST_ACK }});;;
          mret true
      | PW_DISP_RESET | PW_DISP_ERROR =>
          emit_ctrl TCPF_RST;;;
          fire_close;;;
          upd (fun c => c {{ c_state := TCP_CLOSED }});;;
          mret false
      end
  end.

(** What a legacy [on_data] callback can do with the connection it is given. *)
Inductive conn_api :=
| ApiSend (data : list Z) (len now_ms : Z)
| ApiSendv (iov : list pw_iov_t)
| ApiSetRcvBufCap (cap : Z)
| ApiRcvConsumed (n : Z).

Definition run_api (a : conn_api) : M unit :=
  match a with
  | ApiSend data len now_ms => tcp_send_at data len now_ms;;; mret tt
  | ApiSendv iov => tcp_sendv iov;;; mret tt
  | ApiSetRcvBufCap cap => tcp_set_rcv_buf_cap cap
  | ApiRcvConsumed n => tcp_rcv_consumed n
  end.

Fixpoint run_apis (l : list conn_api) : M unit :=
  match l with [] => mret tt | a :: l' => run_api a;;; run_apis l' end.

(** [tcp_on_data_fn]: NULL, or a function of the world that uses the API. *)
Definition on_data_fn : Type := option (W -> list Z -> Z -> W * list conn_api).

(** Hand [payload] up; [false] when the connection has been torn down. *)
Definition deliver (on_data : on_data_fn) (seg : tcp_seg_t) : M bool :=
  c <- get;;
  match c_svc c with
  | Some svc => drive_service_data svc (sg_payload seg) (sg_payload_len seg)
  | None =>
      match on_data with
      | Some f =>
          event_ (EvData (ztake (sg_payload_len seg) (sg_payload seg)));;;
          l <- call (fun w => f w (sg_payload seg) (sg_payload_len seg));;
          run_apis l;;;
          mret true
      | None => mret true
      end
  end.

(** ** Input on an existing connection *)

(** The [TCPF_RST] block. *)
Definition rst_input (seg : tcp_seg_t) : M unit :=
  c <- get;;
  let rst_ok :=
    if state_eqb (c_state c) TCP_SYN_RECEIVED then sg_seq seg =? c_rcv_nxt c
    else if has_flag (sg_flags seg) TCPF_ACK then
      let lo := i32 (sg_ack seg - c_snd_una c) in
      let hi := i32 (sg_ack seg - c_snd_nxt c) in
      (0 <=? lo) && (hi <=? 0) && (sg_seq seg =? c_rcv_nxt c)
    else false in
  if negb rst_ok then mret tt
  else fire_close;;; upd (fun c => c {{ c_state := TCP_CLOSED }}).

Definition syn_received_input (on_data : on_data_fn) (seg : tcp_seg_t) (now_ms : Z) : M unit :=
  c <- get;;
  if has_flag (sg_flags seg) TCPF_ACK && (sg_ack seg =? c_snd_nxt c) then
    put (c {{ c_snd_una := sg_ack seg }});;;
    rtx_on_ack (sg_ack seg) now_ms;;;
    upd (fun c => c {{ c_state := TCP_ESTABLISHED }});;;
    c <- get;;
    ok <- match c_svc c with Some _ => fire_open | None => mret true end;;
    if negb ok then mret tt
    else if sg_payload_len seg =? 0 then mret tt
    else
      ok <- deliver on_data seg;;
      if negb ok then mret tt
      else
        upd (fun c => c {{ c_rcv_nxt := u32 (c_rcv_nxt c + sg_payload_len seg) }});;;
        emit_ctrl TCPF_ACK
  else mret tt.

(** The ACK block of [TCP_ESTABLISHED]. *)
Definition established_ack (seg : tcp_seg_t) (now_ms : Z) : M unit :=
  if has_flag (sg_flags seg) TCPF_ACK then
    upd (fun c => c {{ c_snd_wnd := if negb (sg_window seg =? 0) then sg_window seg else c_snd_wnd c }});;;
    c <- get;;
    let is_dup := (sg_ack seg =? c_snd_una c) && (0 <? zlen (c_rtx c)) && (sg_payload_len seg =? 0) &&
                  (Z.land (sg_flags seg) (Z.lor TCPF_SYN TCPF_FIN) =? 0) in
    let adv := i32 (sg_ack seg - c_snd_una c) in
    if 0 <? adv then
      put (c {{ c_snd_una := sg_ack seg }});;;
      rtx_on_ack (sg_ack seg) now_ms;;;
      cc_on_new_ack (u32 adv)
    else if is_dup then cc_on_dupack
    else mret tt
  else mret tt.

(** The payload block; [false] when it returns from [tcp_input_at]. *)
Definition established_data (on_data : on_data_fn) (seg : tcp_seg_t) : M bool :=
  if sg_payload_len seg =? 0 then mret true
  else
    c <- get;;
    let adv_wnd := tcp_advertised_wnd c in
    if adv_wnd =? 0 then emit_ctrl TCPF_ACK;;; mret false
    else if adv_wnd <? sg_payload_len seg then emit_ctrl TCPF_ACK;;; mret false
    else
      ok <- deliver on_data seg;;
      if negb ok then mret false
      else
        upd (fun c => c {{ c_rcv_nxt := u32 (c_rcv_nxt c + sg_payload_len seg) }});;;
        upd (fun c => if 0 <? c_rcv_buf_cap c
                      then c {{ c_rcv_buf_used := u32 (c_rcv_buf_used c + sg_payload_len seg) }} else c);;;
        emit_ctrl TCPF_ACK;;;
        mret true.

(** The FIN block. *)
Definition established_fin (seg : tcp_seg_t) : M unit :=
  if has_flag (sg_flags seg) TCPF_FIN then
    upd (fun c => c {{ c_rcv_nxt := u32 (c_rcv_nxt c + 1); c_state := TCP_CLOSE_WAIT }});;;
    emit_ctrl TCPF_ACK;;;
    emit_ctrl (Z.lor TCPF_FIN TCPF_ACK);;;
    upd (fun c => c {{ c_snd_nxt := u32 (c_snd_nxt c + 1); c_state := TCP_LAST_ACK }});;;
    fire_close
  else mret tt.

Definition established_input (on_data : on_data_fn) (seg : tcp_seg_t) (now_ms : Z) : M unit :=
  c <- get;;
  if negb (i32 (sg_seq seg - c_rcv_nxt c) =? 0) then emit_ctrl TCPF_ACK
  else
    established_ack seg now_ms;;;
    ok <- established_data on_data seg;;
    if negb ok then mret tt else established_fin seg.

(** [tcp_input_at] from the RST block on, for the connection found. *)
Definition conn_input (on_data : on_data_fn) (seg : tcp_seg_t) (now_ms : Z) : M unit :=
  if has_flag (sg_flags seg) TCPF_RST then rst_input seg
  else
    c <- get;;
    match c_state c with
    | TCP_SYN_RECEIVED => syn_received_input on_data seg now_ms
    | TCP_ESTABLISHED => established_input on_data seg now_ms
    | TCP_LAST_ACK =>
        if has_flag (sg_flags seg) TCPF_ACK && (sg_ack seg =? c_snd_nxt c)
        then fire_close;;; upd (fun c => c {{ c_state := TCP_CLOSED }})
        else mret tt
    | _ => emit_rst seg
    end.

(** ** The connection table *)

Record tcp_stack_t := mk_stack {
  st_conns : list tcp_conn_t;
  st_local_ip : Z;
  st_listen_port : Z;
  st_dispatch : option (pw_dispatch_t W);
  st_iss_secret : list Z
}.

(** A slot after [memset]. *)
Definition zero_conn : tcp_conn_t :=
  mk_conn TCP_CLOSED 0 0 0 0 0 0 0 0 0 0 [] 0 0 0 0 0 0 0 0 false None None false.

(** [k |= (uint64_t)secret[i] << (i * 8)] for eight bytes. *)
Fixpoint le64 (l : list Z) (i : Z) (k : nat) : Z :=
  match l, k with
  | b :: l', S k' => Z.lor (Z.shiftl b (i * 8)) (le64 l' (i + 1) k')
  | _, _ => 0
  end.

Definition iss_derive (secret : list Z) (local_ip local_port remote_ip remote_port now_ms : Z) : Z :=
  let k0 := le64 secret 0 8 in
  let k1 := le64 (drop 8 secret) 0 8 in
  let v := Z.lxor (Z.shiftl local_ip 32) remote_ip in
  let v := Z.lxor v (Z.lxor (Z.shiftl local_port 16) remote_port) in
  let v := Z.lxor v k0 in
  let v := u64 (Z.lxor v (Z.shiftr v 33) * 0xff51afd7ed558ccd) in
  let v := Z.lxor v k1 in
  let v := u64 (Z.lxor v (Z.shiftr v 33) * 0xc4ceb9fe1a85ec53) in
  let v := Z.lxor v (Z.shiftr v 33) in
  u32 (u32 v + u32 (u64 (Z.shiftl now_ms 18))).

Definition tcp_stack_set_iss_secret (s : tcp_stack_t) (secret : list Z) (len : Z) : res tcp_stack_t :=
  let n := if len <? 16 then len else 16 in
  let! bytes := rdn secret n in
  Ret (s {{ st_iss_secret := bytes ++ replicate (Z.to_nat (16 - n)) 0 }}).

Definition tcp_listen (local_ip listen_port : Z) : tcp_stack_t :=
  mk_stack (zero_conn {{ c_state := TCP_LISTEN; c_local_ip := local_ip; c_local_port := listen_port }}
            :: replicate (TCP_TABLE_SIZE - 1) zero_conn)
    local_ip listen_port None (replicate 16 0).

Definition tcp_attach_dispatch (local_ip : Z) (d : pw_dispatch_t W) : tcp_stack_t :=
  mk_stack (replicate TCP_TABLE_SIZE zero_conn) local_ip 0 (Some d) (replicate 16 0).

Definition conn_matches (seg : tcp_seg_t) (c : tcp_conn_t) : bool :=
  negb (state_eqb (c_state c) TCP_CLOSED) && negb (state_eqb (c_state c) TCP_LISTEN) &&
  ((c_local_port c =? sg_dst_port seg) && (c_remote_port c =? sg_src_port seg) &&
   (c_local_ip c =? sg_dst_ip seg) && (c_remote_ip c =? sg_src_ip seg)).

(** The index of the first slot that satisfies [f]. *)
Fixpoint find_slot (f : tcp_conn_t -> bool) (cs : list tcp_conn_t) : option nat :=
  match cs with
  | [] => None
  | c :: cs' => if f c then Some O else S <$> find_slot f cs'
  end.

Definition find_conn (s : tcp_stack_t) (seg : tcp_seg_t) : option nat := find_slot (conn_matches seg) (st_conns s).

Definition alloc_conn (s : tcp_stack_t) : option nat := find_slot (fun c => state_eqb (c_state c) TCP_CLOSED) (st_conns s).

(** [None] when the port is refused; a service, or NULL in legacy mode. *)
Definition port_accepts (s : tcp_stack_t) (dst_port : Z) : option (option (pw_service_t W)) :=
  match st_dispatch s with
  | Some d => match pw_dispatch_lookup d PW_PROTO_TCP dst_port with Some svc => Some (Some svc) | None => None end
  | None => if dst_port =? st_listen_port s then Some None else None
  end.

(** The SYN block of [tcp_input_at], on the slot allocated. *)
Definition syn_input (svc : option (pw_service_t W)) (iss : Z) (seg : tcp_seg_t) : M unit :=
  upd (fun c => c {{
    c_state := TCP_SYN_RECEIVED;
    c_local_ip := sg_dst_ip seg; c_remote_ip := sg_src_ip seg;
    c_local_port := sg_dst_port seg; c_remote_port := sg_src_port seg;
    c_rcv_nxt := u32 (sg_seq seg + 1);
    c_snd_nxt := iss; c_snd_una := iss; c_rcv_wnd := 65535;
    c_cwnd := TCP_INIT_CWND; c_ssthresh := 0xffffffff;
    c_snd_wnd := if negb (sg_window seg =? 0) then sg_window seg else 65535;
    c_dupack_n := 0; c_in_recovery := false; c_recovery_seq := 0;
    c_svc := svc; c_app_state := None; c_opened := false }});;;
  emit_ctrl (Z.lor TCPF_SYN TCPF_ACK);;;
  upd (fun c => c {{ c_snd_nxt := u32 (c_snd_nxt c + 1) }}).

(** Run a computation on the connection in slot [i]. *)
Definition on_slot {A} (s : tcp_stack_t) (w : W) (i : nat) (m : M A) : res (A * tcp_stack_t * W * list event) :=
  match st_conns s !! i with
  | None => Oob
  | Some c => let! (a, c', w', ev) := m c w in Ret (a, s {{ st_conns := <[i := c']> (st_conns s) }}, w', ev)
  end.

(** The slot that handled the segment comes with the events. *)
Definition tcp_input_at (s : tcp_stack_t) (w : W) (seg : tcp_seg_t) (now_ms : Z) (on_data : on_data_fn)
  : res (tcp_stack_t * W * option (nat * list event)) :=
  if negb (sg_dst_ip seg =? st_local_ip s) then Ret (s, w, None)
  else match port_accepts s (sg_dst_port seg) with
  | None => Ret (s, w, None)
  | Some svc =>
      match find_conn s seg with
      | None =>
          if negb (has_flag (sg_flags seg) TCPF_SYN) || has_flag (sg_flags seg) TCPF_ACK then Ret (s, w, None)
          else match alloc_conn s with
          | None => Ret (s, w, None)
          | Some i =>
              let iss := iss_derive (st_iss_secret s) (sg_dst_ip seg) (sg_dst_port seg) (sg_src_ip seg) (sg_src_port seg) now_ms in
              let! (_, s', w', ev) := on_slot s w i (syn_input svc iss seg) in Ret (s', w', Some (i, ev))
          end
      | Some i => let! (_, s', w', ev) := on_slot s w i (conn_input on_data seg now_ms) in Ret (s', w', Some (i, ev))
      end
  end.

Definition tcp_input (s : tcp_stack_t) (w : W) (seg : tcp_seg_t) (on_data : on_data_fn) := tcp_input_at s w seg 0 on_data.

(** One connection's turn in [tcp_tick]. *)
Definition tick_conn (now_ms : Z) (c : tcp_conn_t) : tcp_conn_t * list event :=
  if negb (state_eqb (c_state c) TCP_ESTABLISHED) && negb (state_eqb (c_state c) TCP_CLOSE_WAIT) then (c, [])
  else match c_rtx c with
  | [] => (c, [])
  | e :: q =>
      let age := if rx_tx_time_ms e <=? now_ms then now_ms - rx_tx_time_ms e else 0 in
      if age <? c_rto_ms c then (c, [])
      else
        let c := c {{ c_rcv_wnd := tcp_advertised_wnd c }} in
        let seg := seg_of c (rx_seq e) (rx_flags e) (c_rcv_wnd c) (rx_payload e) (rx_len e) in
        let c := c {{ c_rtx := e {{ rx_retrans := true; rx_tx_time_ms := now_ms }} :: q }} in
        let c := cc_on_rto c in
        let doubled := c_rto_ms c * 2 in
        let doubled := if TCP_RTO_MAX_MS <? doubled then TCP_RTO_MAX_MS else doubled in
        (c {{ c_rto_ms := u32 doubled }}, [EvEmit seg])
  end.

(** The events of every slot, in slot order. *)
Definition tcp_tick (s : tcp_stack_t) (now_ms : Z) : tcp_stack_t * list (list event) :=
  (s {{ st_conns := map (fun c => (tick_conn now_ms c).1) (st_conns s) }},
   map (fun c => (tick_conn now_ms c).2) (st_conns s)).
End Tcp.

Arguments tcp_conn_t : clear implicits.
Arguments tcp_stack_t : clear implicits.
Arguments M : clear implicits.
Arguments on_data_fn : clear implicits.
