(* ===== verification/TcpProps.v ===== *)
(** * Properties of the TCP state machine

    A weakest-precondition calculus for the monad of [Tcp], the operations that
    leave the life cycle alone, and the theorems: the service life cycle,
    in-order delivery, segmentation, RST acceptance, queue and timer bounds. *)

From Stdlib Require Import ZArith Lia.
From stdpp Require Import list numbers option.
From coqutil Require Import Datatypes.RecordSetters.
Import DoubleBraceUpdate.
From S2P Require Import Prelude Ip Iov Dispatch Tcp.

Section Calculus.
Context {W : Type}.
Implicit Types (c : tcp_conn_t W) (w : W).

(** [m] is defined at [c], [w] and its outcome satisfies [Q]. *)
Definition mwp {A} (m : M W A) (Q : A -> tcp_conn_t W -> W -> list event -> Prop) (c : tcp_conn_t W) (w : W) : Prop :=
  match m c w with Ret (a, c', w', ev) => Q a c' w' ev | _ => False end.

Lemma mwp_bind {A B} (m : M W A) (k : A -> M W B) Q c w :
  mwp m (fun a c1 w1 e1 => mwp (k a) (fun b c2 w2 e2 => Q b c2 w2 (e1 ++ e2)) c1 w1) c w -> mwp (mbind m k) Q c w.
Proof.
  unfold mwp, mbind. destruct (m c w) as [[[[a c1] w1] e1]| |]; cbn; try done.
  by destruct (k a c1 w1) as [[[[b c2] w2] e2]| |].
Qed.

Lemma mwp_mono {A} (m : M W A) (P Q : A -> tcp_conn_t W -> W -> list event -> Prop) c w :
  mwp m P c w -> (forall a c' w' ev, P a c' w' ev -> Q a c' w' ev) -> mwp m Q c w.
Proof. unfold mwp. intros H HPQ. destruct (m c w) as [[[[a c1] w1] e1]| |]; auto. Qed.

Lemma mwp_ret {A} (a : A) (Q : A -> tcp_conn_t W -> W -> list event -> Prop) c w : Q a c w [] -> mwp (mret a) Q c w.
Proof. done. Qed.

Lemma mwp_get (Q : tcp_conn_t W -> tcp_conn_t W -> W -> list event -> Prop) c w : Q c c w [] -> mwp get Q c w.
Proof. done. Qed.

Lemma mwp_put c' (Q : unit -> tcp_conn_t W -> W -> list event -> Prop) c w : Q tt c' w [] -> mwp (put c') Q c w.
Proof. done. Qed.

Lemma mwp_event e (Q : unit -> tcp_conn_t W -> W -> list event -> Prop) c w : Q tt c w [e] -> mwp (event_ e) Q c w.
Proof. done. Qed.

Lemma mwp_call {A} (f : W -> W * A) (Q : A -> tcp_conn_t W -> W -> list event -> Prop) c w :
  (forall w' a, f w = (w', a) -> Q a c w' []) -> mwp (call f) Q c w.
Proof. unfold mwp, call. intros H. destruct (f w) as [w' a]. by apply H. Qed.

(** ** Quiet operations

    They emit segments only, and leave alone the state, the service, the
    callback bookkeeping and the receive sequence. *)

Definition is_emit (e : event) : Prop := match e with EvEmit _ => True | _ => False end.

Record same_life (c c' : tcp_conn_t W) : Prop := {
  sl_state : c_state c' = c_state c;
  sl_svc : c_svc c' = c_svc c;
  sl_app : c_app_state c' = c_app_state c;
  sl_opened : c_opened c' = c_opened c;
  sl_rcv_nxt : c_rcv_nxt c' = c_rcv_nxt c
}.

Definition quiet {A} (m : M W A) : Prop :=
  forall c w, mwp m (fun _ c' _ ev => same_life c c' /\ Forall is_emit ev) c w.

Lemma same_life_refl c : same_life c c.
Proof. by constructor. Qed.

Lemma same_life_trans c1 c2 c3 : same_life c1 c2 -> same_life c2 c3 -> same_life c1 c3.
Proof. intros [] []. constructor; congruence. Qed.

Lemma quiet_bind {A B} (m : M W A) (k : A -> M W B) : quiet m -> (forall a, quiet (k a)) -> quiet (mbind m k).
Proof.
  intros Hm Hk c w. apply mwp_bind. eapply mwp_mono; [apply Hm|]. intros a c1 w1 e1 [H1 H2]. cbn beta.
  eapply mwp_mono; [apply Hk|]. intros b c2 w2 e2 [H3 H4]. cbn beta. split; [by eapply same_life_trans|]. by apply Forall_app.
Qed.

Lemma quiet_ret {A} (a : A) : quiet (mret a).
Proof. intros c w. split; [apply same_life_refl|apply Forall_nil_2]. Qed.

(** [c <- get;; k c], where [k c] starts from [c]. *)
Lemma quiet_get {A} (k : tcp_conn_t W -> M W A) :
  (forall c w, mwp (k c) (fun _ c' _ ev => same_life c c' /\ Forall is_emit ev) c w) -> quiet (mbind get k).
Proof. intros H c w. apply mwp_bind, mwp_get. eapply mwp_mono; [apply H|]. by intros. Qed.

(** A write that keeps the life-cycle fields, followed by something quiet. *)
Lemma quiet_put {A} (c c' : tcp_conn_t W) w (k : unit -> M W A) :
  same_life c c' -> quiet (k tt) ->
  mwp (mbind (put c') k) (fun _ c'' _ ev => same_life c c'' /\ Forall is_emit ev) c w.
Proof.
  intros Hs Hk. apply mwp_bind, mwp_put. eapply mwp_mono; [apply Hk|]. intros a c2 w2 e2 [H1 H2]. cbn beta.
  split; [by eapply same_life_trans|done].
Qed.

Lemma quiet_put_last (c c' : tcp_conn_t W) w :
  same_life c c' -> mwp (put c') (fun _ c'' _ ev => same_life c c'' /\ Forall is_emit ev) c w.
Proof. intros Hs. split; [done|apply Forall_nil_2]. Qed.

Lemma quiet_here {A} (m : M W A) c w : quiet m -> mwp m (fun _ c' _ ev => same_life c c' /\ Forall is_emit ev) c w.
Proof. intros H. apply H. Qed.

Lemma quiet_emit s : quiet (event_ (EvEmit s)).
Proof. intros c w. split; [apply same_life_refl|]. apply Forall_cons_2; [done|apply Forall_nil_2]. Qed.
End Calculus.

#[global] Hint Resolve quiet_ret quiet_emit same_life_refl : pico.

(** The life-cycle fields are untouched, whatever the conditions. *)
Ltac same_life_tac :=
  first [by constructor | match goal with |- context [if ?b then _ else _] => destruct b end; same_life_tac].

(** Discharges a quiet goal by walking through the monadic code. *)
Ltac quiet_step :=
  match goal with
  | |- quiet (mbind get _) => apply quiet_get; intros ? ?; cbn beta zeta
  | |- quiet (mbind _ _) => apply quiet_bind; [|intros ?; cbn beta zeta]
  | |- quiet (mret _) => apply quiet_ret
  | |- quiet (event_ (EvEmit _)) => apply quiet_emit
  | |- quiet (if ?b then _ else _) => destruct b
  | |- quiet (match ?b with _ => _ end) => destruct b
  | |- mwp (mbind (put _) _) _ _ _ => apply quiet_put; [same_life_tac|cbn beta zeta]
  | |- mwp (put _) _ _ _ => apply quiet_put_last; same_life_tac
  | |- mwp (if ?b then _ else _) _ _ _ => destruct b
  | |- mwp (match ?b with _ => _ end) _ _ _ => destruct b eqn:?
  | |- mwp _ _ _ _ => apply quiet_here
  end.

Section Quiet.
Context {W : Type}.

Lemma emit_ctrl_quiet flags : quiet (W := W) (emit_ctrl flags).
Proof. unfold emit_ctrl. repeat quiet_step. Qed.

Lemma emit_rst_quiet s : quiet (W := W) (emit_rst s).
Proof. apply quiet_emit. Qed.

Lemma set_rcv_buf_cap_quiet cap : quiet (W := W) (tcp_set_rcv_buf_cap cap).
Proof. unfold tcp_set_rcv_buf_cap. repeat quiet_step. Qed.

Lemma rcv_consumed_quiet n : quiet (W := W) (tcp_rcv_consumed n).
Proof. unfold tcp_rcv_consumed. repeat quiet_step. Qed.

Lemma cc_on_new_ack_quiet b : quiet (W := W) (cc_on_new_ack b).
Proof. unfold cc_on_new_ack. repeat quiet_step. Qed.

Lemma cc_on_dupack_quiet : quiet (W := W) cc_on_dupack.
Proof. unfold cc_on_dupack. repeat quiet_step. Qed.

Lemma rtx_sample_same (c : tcp_conn_t W) r : same_life c (rtx_sample c r).
Proof. unfold rtx_sample. cbv zeta. same_life_tac. Qed.

Lemma rtx_ack_loop_same ack now q : forall c : tcp_conn_t W, same_life c (rtx_ack_loop ack now q c).2.
Proof.
  induction q as [|e q IH]; intros c; cbn; [apply same_life_refl|]. destruct (_ <? 0).
  - specialize (IH c). by destruct (rtx_ack_loop ack now q c).
  - destruct (_ && _); [|apply IH]. eapply same_life_trans; [apply rtx_sample_same|apply IH].
Qed.

Lemma rtx_on_ack_quiet ack now : quiet (W := W) (rtx_on_ack ack now).
Proof.
  unfold rtx_on_ack. apply quiet_get. intros c w. pose proof (rtx_ack_loop_same ack now (c_rtx c) c) as H.
  destruct (rtx_ack_loop _ _ _ c) as [kept c']. apply quiet_put_last. destruct H. by constructor.
Qed.

Lemma rtx_enqueue_same (c c' : tcp_conn_t W) e : rtx_enqueue c e = Some c' -> same_life c c'.
Proof. unfold rtx_enqueue. intros H. zcase_in H; [done|]. injection H as <-. by constructor. Qed.

Lemma send_loop_quiet data len now fuel : forall sent,
  len - sent <= Z.of_nat fuel -> quiet (W := W) (send_loop data len now sent fuel).
Proof.
  induction fuel as [|fuel IH]; intros sent Hf; cbn [send_loop]; (destruct (Z.leb_spec len sent); [apply quiet_ret|]); [lia|].
  cbv zeta. set (chunk := if TCP_MSS <? len - sent then TCP_MSS else len - sent).
  assert (Hc : 0 < chunk) by (unfold chunk, TCP_MSS; zcase; lia). clearbody chunk.
  apply quiet_get. intros c w. set (c1 := c {{ c_rcv_wnd := _ }}).
  apply mwp_bind, mwp_put. apply mwp_bind, mwp_event.
  set (r := if negb (now =? 0) && (0 <? chunk) then _ else Some c1).
  assert (Hr : forall c2, r = Some c2 -> same_life c c2).
  { intros c2. unfold r. destruct (_ && _); [|intros [= <-]; by constructor]. intros Hq%rtx_enqueue_same.
    destruct Hq. by constructor. }
  clearbody r. destruct r as [c2|].
  - specialize (Hr c2 eq_refl). apply mwp_bind, mwp_put. eapply mwp_mono; [apply (IH (sent + chunk)); lia|].
    intros a c3 w3 e3 [H1 H2]. cbn beta. split; [eapply same_life_trans; [|exact H1]; by destruct Hr; constructor|].
    cbn. by apply Forall_cons_2.
  - apply mwp_ret. split; [by constructor|]. apply Forall_cons_2; [done|apply Forall_nil_2].
Qed.

Lemma send_at_quiet data len now : quiet (W := W) (tcp_send_at data len now).
Proof.
  unfold tcp_send_at. apply quiet_get. intros c w. repeat quiet_step. apply send_loop_quiet. lia.
Qed.

(** Fragments a service may hand over. *)
Definition iov_ok (iov : list pw_iov_t) : Prop :=
  (length iov <= 8)%nat /\ Forall (fun v => 0 <= iov_len v <= zlen (iov_base v) /\ iov_len v < 2 ^ 60) iov.

Lemma gather_spec iov :
  Forall (fun v => 0 <= iov_len v <= zlen (iov_base v) /\ iov_len v < 2 ^ 60) iov ->
  gather iov = Ret (concat (map (fun v => ztake (iov_len v) (iov_base v)) iov)).
Proof.
  induction 1 as [|v iov [Hv _] _ IH]; cbn; [done|]. unfold rdn.
  destruct (Z.leb_spec (iov_len v) (zlen (iov_base v))); [|lia]. cbn. by rewrite IH.
Qed.

Lemma iov_total_spec iov : forall t,
  Forall (fun v => 0 <= iov_len v <= zlen (iov_base v) /\ iov_len v < 2 ^ 60) iov ->
  0 <= t -> t + Z.of_nat (length iov) * 2 ^ 60 < 2 ^ 64 ->
  foldl (fun t v => u64 (t + iov_len v)) t iov = t + zlen (concat (map (fun v => ztake (iov_len v) (iov_base v)) iov)).
Proof.
  induction iov as [|v iov IH]; intros t Hi Ht Hb; cbn [foldl map concat]; [by rewrite zlen_nil, Z.add_0_r|].
  apply Forall_cons_1 in Hi as [[Hv Hv'] Hi]. cbn [length] in Hb.
  rewrite u64_small by lia. rewrite IH by (done || lia). rewrite zlen_app, zlen_ztake by lia. lia.
Qed.

Lemma sendv_quiet iov : iov_ok iov -> quiet (W := W) (tcp_sendv iov).
Proof.
  intros [Hl Hi]. unfold tcp_sendv. apply quiet_get. intros c w. destruct (negb _); [apply quiet_here, quiet_ret|].
  destruct iov as [|v [|v' iov]]; [apply quiet_here, quiet_ret|apply quiet_here, send_at_quiet|].
  set (l := v :: v' :: iov) in *. destruct (SCRATCH_SIZE <? iov_total l) eqn:Ht; [apply quiet_here, quiet_ret|].
  apply mwp_bind. unfold mwp at 1, lift. rewrite gather_spec by done. cbn [rbind].
  pose proof (iov_total_spec l 0 Hi ltac:(lia) ltac:(lia)) as E. fold (iov_total l) in E. rewrite Z.add_0_l in E.
  rewrite <- E, Ht. eapply mwp_mono; [apply send_at_quiet|]. by intros.
Qed.

(** Calls the application may make on a connection. *)
Definition api_ok (a : conn_api) : Prop := match a with ApiSendv iov => iov_ok iov | _ => True end.

Lemma run_api_quiet a : api_ok a -> quiet (W := W) (run_api a).
Proof.
  intros Ha. destruct a; cbn [run_api]; [apply quiet_bind; [apply send_at_quiet|intros; apply quiet_ret]| | |].
  - apply quiet_bind; [by apply sendv_quiet|intros; apply quiet_ret].
  - apply set_rcv_buf_cap_quiet.
  - apply rcv_consumed_quiet.
Qed.

Lemma run_apis_quiet l : Forall api_ok l -> quiet (W := W) (run_apis l).
Proof. induction 1; cbn; [apply quiet_ret|]. apply quiet_bind; [by apply run_api_quiet|done]. Qed.

Lemma established_ack_quiet seg now : quiet (W := W) (established_ack seg now).
Proof.
  unfold established_ack. repeat quiet_step; [apply rtx_on_ack_quiet|apply cc_on_new_ack_quiet|apply cc_on_dupack_quiet].
Qed.

Lemma tick_conn_same now (c : tcp_conn_t W) :
  same_life c (tick_conn now c).1 /\ Forall is_emit (tick_conn now c).2.
Proof.
  unfold tick_conn. destruct (_ && _); [split; [apply same_life_refl|apply Forall_nil_2]|].
  destruct (c_rtx c); [split; [apply same_life_refl|apply Forall_nil_2]|].
  destruct (_ <? c_rto_ms c); cbn; (split; [by constructor|]); [apply Forall_nil_2|].
  apply Forall_cons_2; [done|apply Forall_nil_2].
Qed.
End Quiet.

(** ** The service life cycle *)

(** Follows the callbacks of one connection, from the handle currently open:
    [on_open] only when none is, [on_close] only on the handle that is. *)
Fixpoint track (h : option Z) (ev : list event) : option (option Z) :=
  match ev with
  | [] => Some h
  | EvOpen r :: ev' => match h with None => track r ev' | Some _ => None end
  | EvClose x :: ev' => if decide (h = Some x) then track None ev' else None
  | _ :: ev' => track h ev'
  end.

(** The bytes delivered. *)
Fixpoint data_of (ev : list event) : list Z :=
  match ev with
  | [] => []
  | EvData d :: ev' => d ++ data_of ev'
  | _ :: ev' => data_of ev'
  end.

Lemma track_app h e1 e2 : track h (e1 ++ e2) = h' ← track h e1; track h' e2.
Proof. revert h. induction e1 as [|[] e1 IH]; intros h0; cbn; try done; repeat case_match; cbn; done. Qed.

Lemma data_of_app e1 e2 : data_of (e1 ++ e2) = data_of e1 ++ data_of e2.
Proof. induction e1 as [|[] e1 IH]; cbn; try done. by rewrite IH, app_assoc. Qed.

Lemma emits_track h ev : Forall is_emit ev -> track h ev = Some h /\ data_of ev = [].
Proof. induction 1 as [|[] ev He Hev IH]; cbn; done. Qed.

(** Tidy up concatenated event lists. *)
Ltac ev_simpl := cbn [app]; rewrite ?app_nil_r; cbn [track data_of].

Section Life.
Context {W : Type}.
Implicit Types (c : tcp_conn_t W) (w : W).

(** What the stack relies on in a service: [on_data] is set (registration
    checks it) and hands over readable fragments; a service with per-connection
    state ([on_open]) also has [on_close]. *)
Definition svc_ok (svc : pw_service_t W) : Prop :=
  (exists f, sv_on_data svc = Some f /\ forall w h d n w' st iov, f w h d n = (w', st, iov) -> iov_ok iov) /\
  (sv_on_open svc <> None -> sv_on_close svc <> None).

Definition on_data_ok (f : on_data_fn W) : Prop :=
  forall g, f = Some g -> forall w d n, Forall api_ok (g w d n).2.

(** The handle the service holds for the connection. *)
Definition handle_of c : option Z := if c_opened c then c_app_state c else None.

Lemma handle_closed c : c_opened c = false -> handle_of c = None.
Proof. unfold handle_of. by intros ->. Qed.

Record conn_wf c : Prop := {
  wf_early : c_state c = TCP_CLOSED \/ c_state c = TCP_LISTEN \/ c_state c = TCP_SYN_RECEIVED -> c_opened c = false;
  wf_open : c_opened c = true -> exists svc, c_svc c = Some svc /\ (c_app_state c <> None -> sv_on_close svc <> None);
  wf_app : c_opened c = false -> c_app_state c = None;
  wf_svc svc : c_svc c = Some svc -> svc_ok svc
}.

Lemma wf_closed c :
  c_opened c = false -> c_app_state c = None -> (forall svc, c_svc c = Some svc -> svc_ok svc) -> conn_wf c.
Proof. intros H Ha Hs. constructor; [done|congruence|done|done]. Qed.

Lemma wf_opened c svc :
  c_state c = TCP_ESTABLISHED -> c_opened c = true -> c_svc c = Some svc -> svc_ok svc ->
  (c_app_state c <> None -> sv_on_close svc <> None) -> conn_wf c.
Proof.
  intros Hst Ho Hs Hok Hcl. constructor; [rewrite Hst; intros [?|[?|?]]; done|intros _; by exists svc|congruence|].
  intros svc'. rewrite Hs. by intros [= <-].
Qed.

Lemma wf_same c c' : conn_wf c -> same_life c c' -> conn_wf c' /\ handle_of c' = handle_of c.
Proof.
  intros [H1 H2 H3 H4] [E1 E2 E3 E4 E5]. split; [|unfold handle_of; by rewrite E3, E4].
  constructor; rewrite ?E1, ?E2, ?E3, ?E4; done.
Qed.

(** Well-formedness and the callback protocol across a step. *)
Record life c c' (ev : list event) : Prop := {
  lf_wf : conn_wf c';
  lf_track : track (handle_of c) ev = Some (handle_of c')
}.

Lemma life_trans c1 c2 c3 e1 e2 : life c1 c2 e1 -> life c2 c3 e2 -> life c1 c3 (e1 ++ e2).
Proof. intros [_ H1] [H2 H3]. split; [done|]. by rewrite track_app, H1. Qed.

Lemma life_quiet c c' ev : conn_wf c -> same_life c c' -> Forall is_emit ev -> life c c' ev.
Proof.
  intros Hwf Hs He. destruct (wf_same c c' Hwf Hs) as [H1 H2]. split; [done|]. rewrite H2. by apply emits_track.
Qed.

(** Running a quiet operation first. *)
Lemma life_then {A B} (m : M W A) (k : A -> M W B) (Q : B -> tcp_conn_t W -> W -> list event -> Prop) c w :
  quiet m -> conn_wf c ->
  (forall a c1 w1 e1, same_life c c1 -> conn_wf c1 -> Forall is_emit e1 ->
     mwp (k a) (fun b c2 w2 e2 => Q b c2 w2 (e1 ++ e2)) c1 w1) ->
  mwp (mbind m k) Q c w.
Proof.
  intros Hm Hwf Hk. apply mwp_bind. eapply mwp_mono; [apply Hm|]. intros a c1 w1 e1 [H1 H2]. cbn beta.
  apply Hk; [done| |done]. by destruct (wf_same c c1 Hwf H1).
Qed.

(** Leaving for [TCP_CLOSED] once the handle is released. *)
Lemma wf_close_state c : conn_wf c -> c_opened c = false -> conn_wf (c {{ c_state := TCP_CLOSED }}).
Proof. intros Hwf Ho. apply wf_closed; [exact Ho|exact (wf_app c Hwf Ho)|exact (wf_svc c Hwf)]. Qed.

Lemma fire_close_life c w :
  conn_wf c ->
  mwp fire_close (fun _ c' _ ev => life c c' ev /\ c_opened c' = false /\ c_state c' = c_state c /\
    c_svc c' = c_svc c /\ c_rcv_nxt c' = c_rcv_nxt c /\ data_of ev = []) c w.
Proof.
  intros Hwf. unfold fire_close. apply mwp_bind, mwp_get. destruct (c_svc c) as [svc|] eqn:Hs.
  2:{ apply mwp_ret. destruct (c_opened c) eqn:Ho.
      { destruct (wf_open c Hwf Ho) as (svc & ? & _). congruence. }
      by split_and!. }
  destruct (c_opened c) eqn:Ho; cbn [negb].
  2:{ apply mwp_ret. by split_and!. }
  destruct (wf_open c Hwf Ho) as (svc' & E & Hcl). rewrite Hs in E. injection E as <-.
  assert (Hwf' : conn_wf (c {{ c_app_state := None; c_opened := false }})).
  { apply wf_closed; [done|done|]. exact (wf_svc c Hwf). }
  assert (Hh : handle_of c = c_app_state c) by (unfold handle_of; by rewrite Ho).
  apply mwp_bind. destruct (sv_on_close svc) as [f|] eqn:Hf; [destruct (c_app_state c) as [h|] eqn:Happ|].
  - apply mwp_bind, mwp_call. intros w' [] _. apply mwp_event. apply mwp_bind, mwp_get, mwp_put. cbn.
    split_and!; try done. constructor; [done|]. rewrite Hh. cbn. by rewrite decide_True by done.
  - apply mwp_ret. apply mwp_bind, mwp_get, mwp_put. cbn. split_and!; try done. constructor; [done|]. by rewrite Hh.
  - apply mwp_ret. apply mwp_bind, mwp_get, mwp_put. cbn. split_and!; try done. constructor; [done|].
    rewrite Hh. destruct (c_app_state c); [|done]. by destruct Hcl.
Qed.

Lemma fire_open_life c w :
  conn_wf c -> c_state c = TCP_ESTABLISHED ->
  mwp fire_open (fun ok c' _ ev => life c c' ev /\ c_svc c' = c_svc c /\ c_rcv_nxt c' = c_rcv_nxt c /\ data_of ev = [] /\
    (ok = true -> c_state c' = TCP_ESTABLISHED) /\ (ok = false -> c_state c' = TCP_CLOSED)) c w.
Proof.
  intros Hwf Hst. unfold fire_open. apply mwp_bind, mwp_get. destruct (c_svc c) as [svc|] eqn:Hs.
  2:{ apply mwp_ret. by split_and!. }
  destruct (c_opened c) eqn:Ho; [apply mwp_ret; by split_and!|].
  pose proof (handle_closed c Ho) as Hh.
  pose proof (wf_svc c Hwf svc Hs) as [_ Hoc].
  destruct (sv_on_open svc) as [f|] eqn:Hf.
  - apply mwp_bind, mwp_call. intros w' st _. apply mwp_bind, mwp_event. destruct st as [h|].
    + apply mwp_bind, mwp_bind, mwp_get, mwp_put, mwp_ret. split_and!; try done. constructor.
      * apply (wf_opened _ svc); [done|done|done|by apply (wf_svc c Hwf)|]. intros _. by apply Hoc.
      * by rewrite Hh.
    + apply life_then; [apply emit_ctrl_quiet|done|]. intros [] c1 w1 e1 Hs1 Hwf1 He1.
      apply mwp_bind, mwp_bind, mwp_get, mwp_put, mwp_ret. destruct Hs1 as [E1 E2 E3 E4 E5].
      destruct (emits_track (handle_of c) e1 He1) as [Ht Hd]. ev_simpl. split_and!; try done.
      * constructor; [by apply wf_close_state; [|rewrite E4]|].
        rewrite (handle_closed (_ {{ c_state := _ }})) by exact (eq_trans E4 Ho). by rewrite Hh in *.
      * exact (eq_trans E2 Hs).
  - apply mwp_bind, mwp_put, mwp_ret. split_and!; try done.
    assert (Ha : c_app_state c = None) by (by apply wf_app). constructor.
    + apply (wf_opened _ svc); [done|done|done|by apply (wf_svc c Hwf)|]. intros Hne. by destruct Hne.
    + rewrite Hh, <- Ha. done.
Qed.

Definition end_state (st : tcp_state_t) : Prop := st = TCP_ESTABLISHED \/ st = TCP_LAST_ACK.

Lemma wf_end_state c st : conn_wf c -> end_state st -> conn_wf (c {{ c_state := st }}).
Proof.
  intros [H1 H2 H3 H4] Hst. constructor; [|exact H2|exact H3|exact H4].
  intros Hb. exfalso. change (c_state (c {{ c_state := st }})) with st in Hb. destruct Hst as [->| ->], Hb as [?|[?|?]]; done.
Qed.

(** What handing up the payload does. *)
Record delivered c (seg : tcp_seg_t) (ok : bool) c' (ev : list event) : Prop := {
  dl_life : life c c' ev;
  dl_svc : c_svc c' = c_svc c;
  dl_rcv_nxt : c_rcv_nxt c' = c_rcv_nxt c;
  dl_state : if ok then end_state (c_state c') else c_state c' = TCP_CLOSED;
  dl_data : c_svc c <> None -> data_of ev = ztake (sg_payload_len seg) (sg_payload seg)
}.

Lemma delivered_quiet c seg c1 ev :
  conn_wf c -> c_state c = TCP_ESTABLISHED -> same_life c c1 -> Forall is_emit ev ->
  delivered c seg true c1 (EvData (ztake (sg_payload_len seg) (sg_payload seg)) :: ev).
Proof.
  intros Hwf Hst Hs He. pose proof (life_quiet c c1 ev Hwf Hs He) as [H1 H2]. destruct Hs as [E1 E2 E3 E4 E5].
  destruct (emits_track None ev He) as [_ Hd].
  constructor; [by constructor|done|done|left; congruence|]. intros _. cbn. by rewrite Hd, app_nil_r.
Qed.

Lemma drive_life svc seg c w :
  conn_wf c -> c_state c = TCP_ESTABLISHED -> c_svc c = Some svc ->
  mwp (drive_service_data svc (sg_payload seg) (sg_payload_len seg)) (fun ok c' _ ev => delivered c seg ok c' ev) c w.
Proof.
  intros Hwf Hst Hs. unfold drive_service_data. apply mwp_bind, mwp_get.
  destruct (wf_svc c Hwf svc Hs) as [(f & Hf & Hiov) _]. rewrite Hf. apply mwp_bind, mwp_event.
  apply mwp_bind, mwp_call. intros w' [st iov] E.
  destruct (f w (c_app_state c) (sg_payload seg) (sg_payload_len seg)) as [[w'' st''] iov''] eqn:Ef. injection E as <- <- <-.
  specialize (Hiov _ _ _ _ _ _ _ Ef).
  assert (Hq : quiet (W := W) (send_output iov'')).
  { unfold send_output. destruct iov''; [apply quiet_ret|by apply sendv_quiet]. }
  assert (Hreset : mwp (mbind (emit_ctrl TCPF_RST) (fun _ => mbind fire_close (fun _ =>
      mbind (mbind get (fun c => put (c {{ c_state := TCP_CLOSED }}))) (fun _ => mret false))))
    (fun ok c' _ ev => delivered c seg ok c' (EvData (ztake (sg_payload_len seg) (sg_payload seg)) :: ev)) c w'').
  { apply life_then; [apply emit_ctrl_quiet|done|]. intros [] c1 w1 e1 Hs1 Hwf1 He1.
    apply mwp_bind. eapply mwp_mono; [by apply fire_close_life|]. intros [] c2 w2 e2 (Hl & Ho & Hst2 & Hsv & Hr & Hd). cbn beta.
    apply mwp_bind, mwp_bind, mwp_get, mwp_put, mwp_ret. ev_simpl. destruct (emits_track (handle_of c) e1 He1) as [Ht1 Hd1].
    destruct (wf_same c c1 Hwf Hs1) as [_ Hh]. destruct Hs1 as [E1 E2 E3 E4 E5], Hl as [Hwf2 Ht2].
    constructor; [constructor; [by apply wf_close_state|]| | |done|].
    - cbn [track]. rewrite track_app, Ht1. cbn. rewrite <- Hh. done.
    - exact (eq_trans Hsv E2).
    - exact (eq_trans Hr E5).
    - intros _. cbn. rewrite data_of_app, Hd1, Hd. by rewrite app_nil_r. }
  destruct st''.
  - apply mwp_ret. ev_simpl. by apply delivered_quiet; [..|apply Forall_nil_2].
  - apply life_then; [done|done|]. intros o c1 w1 e1 Hs1 Hwf1 He1. apply mwp_ret. ev_simpl. by apply delivered_quiet.
  - apply life_then; [done|done|]. intros o c1 w1 e1 Hs1 Hwf1 He1.
    apply life_then; [apply emit_ctrl_quiet|done|]. intros [] c2 w2 e2 Hs2 Hwf2 He2.
    apply mwp_bind, mwp_bind, mwp_get, mwp_put, mwp_ret. ev_simpl.
    pose proof (same_life_trans _ _ _ Hs1 Hs2) as Hs3.
    destruct (delivered_quiet c seg c2 (e1 ++ e2) Hwf Hst Hs3) as [[Hl Ht] Hsv Hrn _ Hda]; [by apply Forall_app|].
    constructor; [|exact Hsv|exact Hrn|by right|exact Hda].
    constructor; [|exact Ht]. apply (wf_end_state (c2 {{ c_snd_nxt := _ }})); [|by right]. destruct Hl. by constructor.
  - exact Hreset.
  - exact Hreset.
Qed.

Lemma deliver_life on_data seg c w :
  on_data_ok on_data -> conn_wf c -> c_state c = TCP_ESTABLISHED ->
  mwp (deliver on_data seg) (fun ok c' _ ev => delivered c seg ok c' ev) c w.
Proof.
  intros Hod Hwf Hst. unfold deliver. apply mwp_bind, mwp_get. destruct (c_svc c) as [svc|] eqn:Hs; [by apply drive_life|].
  destruct on_data as [f|].
  - apply mwp_bind, mwp_event. apply mwp_bind, mwp_call. intros w' l E. specialize (Hod f eq_refl w (sg_payload seg) (sg_payload_len seg)).
    rewrite E in Hod. apply life_then; [by apply run_apis_quiet|done|]. intros [] c1 w1 e1 Hs1 Hwf1 He1.
    apply mwp_ret. ev_simpl. by apply delivered_quiet.
  - apply mwp_ret. constructor; [by constructor|done|done|by left|]. by rewrite Hs.
Qed.

(** What an input segment does to the received stream: nothing, or (with a
    service) its whole payload is handed up and [rcv_nxt] moves past it. *)
Definition took c (seg : tcp_seg_t) c' (ev : list event) : Prop :=
  (data_of ev = [] /\ (c_state c' = TCP_ESTABLISHED -> c_rcv_nxt c' = c_rcv_nxt c)) \/
  ((c_svc c <> None -> data_of ev = ztake (sg_payload_len seg) (sg_payload seg)) /\
   i32 (sg_seq seg - c_rcv_nxt c) = 0 /\
   (c_state c' = TCP_ESTABLISHED -> c_rcv_nxt c' = u32 (c_rcv_nxt c + sg_payload_len seg))).

Lemma established_fin_life seg c w :
  conn_wf c -> end_state (c_state c) ->
  mwp (established_fin seg) (fun _ c' _ ev => life c c' ev /\ c_svc c' = c_svc c /\ data_of ev = [] /\
    end_state (c_state c') /\ (c_state c' = TCP_ESTABLISHED -> c' = c)) c w.
Proof.
  intros Hwf Hst. unfold established_fin. destruct (has_flag _ _); [|apply mwp_ret; by split_and!].
  apply mwp_bind, mwp_bind, mwp_get, mwp_put. set (c0 := _ {{ c_state := TCP_CLOSE_WAIT }}).
  assert (Hwf0 : conn_wf c0).
  { destruct Hwf as [H1 H2 H3 H4]. constructor; [|exact H2|exact H3|exact H4]. by intros [?|[?|?]]. }
  apply life_then; [apply emit_ctrl_quiet|done|]. intros [] c1 w1 e1 Hs1 Hwf1 He1.
  apply life_then; [apply emit_ctrl_quiet|done|]. intros [] c2 w2 e2 Hs2 Hwf2 He2.
  apply mwp_bind, mwp_bind, mwp_get, mwp_put. set (c3 := _ {{ c_state := TCP_LAST_ACK }}).
  assert (Hwf3 : conn_wf c3).
  { apply (wf_end_state (c2 {{ c_snd_nxt := _ }})); [|by right]. destruct Hwf2. by constructor. }
  eapply mwp_mono; [by apply fire_close_life|]. intros [] c4 w4 e4 ([Hwf4 Ht4] & Ho & Hst4 & Hsv & Hr & Hd). ev_simpl.
  pose proof (same_life_trans _ _ _ Hs1 Hs2) as [E1 E2 E3 E4 E5].
  destruct (emits_track (handle_of c) (e1 ++ e2)) as [Ht Hdd]; [by apply Forall_app|]. rewrite app_assoc.
  assert (Hst' : c_state c4 = TCP_LAST_ACK) by exact Hst4.
  split_and!; [|exact (eq_trans Hsv E2)|by rewrite data_of_app, Hdd, Hd|by right|by rewrite Hst'].
  constructor; [done|]. rewrite track_app, Ht. cbn.
  replace (handle_of c) with (handle_of c3); [done|]. unfold handle_of. change (c_opened c3) with (c_opened c2).
  change (c_app_state c3) with (c_app_state c2). by rewrite E3, E4.
Qed.

Lemma established_data_life on_data seg c w :
  on_data_ok on_data -> conn_wf c -> c_state c = TCP_ESTABLISHED -> i32 (sg_seq seg - c_rcv_nxt c) = 0 ->
  mwp (established_data on_data seg) (fun ok c' _ ev => life c c' ev /\ c_svc c' = c_svc c /\ took c seg c' ev /\
    (c_state c' = TCP_CLOSED \/ end_state (c_state c')) /\ (ok = true -> end_state (c_state c'))) c w.
Proof.
  intros Hod Hwf Hst Hseq. unfold established_data.
  destruct (sg_payload_len seg =? 0) eqn:Hl; [apply mwp_ret; split_and!; try done; [by left|right; by left|by left]|].
  apply mwp_bind, mwp_get. cbv zeta.
  assert (Hdrop : mwp (mbind (emit_ctrl TCPF_ACK) (fun _ => mret false))
    (fun ok c' _ ev => life c c' ev /\ c_svc c' = c_svc c /\ took c seg c' ev /\
    (c_state c' = TCP_CLOSED \/ end_state (c_state c')) /\ (ok = true -> end_state (c_state c'))) c w).
  { apply life_then; [apply emit_ctrl_quiet|done|]. intros [] c1 w1 e1 Hs1 Hwf1 He1. apply mwp_ret. ev_simpl.
    pose proof (life_quiet c c1 e1 Hwf Hs1 He1). destruct (emits_track None e1 He1) as [_ Hd], Hs1 as [E1 E2 E3 E4 E5].
    split_and!; try done; [by left|]. right. left. congruence. }
  destruct (tcp_advertised_wnd c =? 0); [exact Hdrop|]. destruct (tcp_advertised_wnd c <? _); [exact Hdrop|].
  apply mwp_bind. eapply mwp_mono; [by apply deliver_life|]. intros ok c1 w1 e1 [Hl1 Hsv1 Hr1 Hst1 Hd1]. cbn beta.
  destruct ok; cbn [negb].
  2:{ apply mwp_ret. ev_simpl. split_and!; try done; [right; split_and!; try done; congruence|by left]. }
  apply mwp_bind, mwp_bind, mwp_get, mwp_put. apply mwp_bind, mwp_bind, mwp_get, mwp_put.
  set (c2 := if 0 <? _ then _ else _).
  assert (H2 : same_life (c1 {{ c_rcv_nxt := u32 (c_rcv_nxt c1 + sg_payload_len seg) }}) c2) by (unfold c2; destruct (0 <? _); by constructor).
  clearbody c2. destruct H2 as [F1 F2 F3 F4 F5].
  assert (Hwf2 : conn_wf c2 /\ handle_of c2 = handle_of c1).
  { destruct Hl1 as [[G1 G2 G3 G4] _]. split; [constructor; rewrite ?F1, ?F2, ?F3, ?F4; assumption|]. unfold handle_of. by rewrite F3, F4. }
  destruct Hwf2 as [Hwf2 Hh2].
  apply life_then; [apply emit_ctrl_quiet|done|]. intros [] c3 w3 e3 Hs3 Hwf3 He3. apply mwp_ret. ev_simpl.
  destruct (emits_track (handle_of c1) e3 He3) as [Ht3 Hd3]. destruct (wf_same c2 c3 Hwf2 Hs3) as [_ Hh3].
  destruct Hs3 as [E1 E2 E3 E4 E5]. assert (Hend : end_state (c_state c3)) by (by rewrite E1, F1).
  split_and!; [|rewrite E2, F2; exact Hsv1|right|by right|done].
  - constructor; [done|]. rewrite track_app, (lf_track _ _ _ Hl1). cbn. by rewrite Ht3, Hh3, Hh2.
  - split_and!; [intros Hne; by rewrite data_of_app, Hd3, app_nil_r, Hd1|done|]. intros _.
    rewrite E5, F5. change (u32 (c_rcv_nxt c1 + sg_payload_len seg) = u32 (c_rcv_nxt c + sg_payload_len seg)). by rewrite Hr1.
Qed.

(** Neither waiting for the handshake nor receiving data. *)
Definition done_state (st : tcp_state_t) : Prop := st <> TCP_ESTABLISHED /\ st <> TCP_SYN_RECEIVED.

(** The effect of an input segment on a connection. *)
Record stepped c (seg : tcp_seg_t) c' (ev : list event) : Prop := {
  sp_life : life c c' ev;
  sp_svc : c_svc c' = c_svc c;
  sp_took : c_state c = TCP_ESTABLISHED -> took c seg c' ev /\ c_state c' <> TCP_SYN_RECEIVED;
  sp_done : done_state (c_state c) -> data_of ev = [] /\ done_state (c_state c')
}.

Lemma stepped_quiet c seg c' ev : conn_wf c -> same_life c c' -> Forall is_emit ev -> stepped c seg c' ev.
Proof.
  intros Hwf Hs He. pose proof (life_quiet c c' ev Hwf Hs He). destruct (emits_track None ev He) as [_ Hd], Hs as [E1 E2 E3 E4 E5].
  constructor; [done|done| |by rewrite E1]. intros Hst. split; [by left|]. congruence.
Qed.

Lemma established_input_life on_data seg now c w :
  on_data_ok on_data -> conn_wf c -> c_state c = TCP_ESTABLISHED ->
  mwp (established_input on_data seg now) (fun _ c' _ ev => stepped c seg c' ev) c w.
Proof.
  intros Hod Hwf Hst. unfold established_input. apply mwp_bind, mwp_get.
  destruct (Z.eqb_spec (i32 (sg_seq seg - c_rcv_nxt c)) 0) as [Hseq|_]; cbn [negb].
  2:{ eapply mwp_mono; [apply emit_ctrl_quiet|]. intros [] c1 w1 e1 [H1 H2]. by apply stepped_quiet. }
  apply life_then; [apply established_ack_quiet|done|]. intros [] c1 w1 e1 Hs1 Hwf1 He1.
  destruct (emits_track (handle_of c) e1 He1) as [Ht1 Hd1]. destruct (wf_same c c1 Hwf Hs1) as [_ Hh1].
  pose proof (conj Hs1 I) as [[E1 E2 E3 E4 E5] _].
  apply mwp_bind. eapply mwp_mono; [apply established_data_life; [done|done|congruence|by rewrite E5]|].
  intros ok c2 w2 e2 (Hl2 & Hsv2 & Htk2 & Hst2 & Hok). cbn beta.
  assert (Hlife : life c c2 (e1 ++ e2)).
  { destruct Hl2 as [H1 H2]. constructor; [done|]. rewrite track_app, Ht1. cbn. by rewrite <- Hh1. }
  assert (Htk : took c seg c2 (e1 ++ e2)).
  { unfold took in *. rewrite data_of_app, Hd1. cbn [app]. by rewrite E5, E2 in Htk2. }
  assert (Hns : c_state c2 <> TCP_SYN_RECEIVED) by (destruct Hst2 as [?|[?|?]]; congruence).
  destruct ok; cbn [negb].
  - eapply mwp_mono; [apply established_fin_life; [apply Hl2|by apply Hok]|].
    intros [] c3 w3 e3 (Hl3 & Hsv3 & Hd3 & Hend & Hr3). ev_simpl. rewrite app_assoc.
    constructor; [by eapply life_trans|congruence| |intros [? _]; congruence]. intros _.
    split; [|destruct Hend; congruence]. unfold took in *. rewrite data_of_app, Hd3, app_nil_r.
    destruct Htk as [[? Ht]|(? & ? & Ht)]; [left|right]; split_and!; try done; intros Hest;
      pose proof (Hr3 Hest); subst c3; by apply Ht.
  - apply mwp_ret. ev_simpl. constructor; [done|congruence|done|intros [? _]; congruence].
Qed.

Lemma close_life c w :
  conn_wf c ->
  mwp (mbind fire_close (fun _ => mbind get (fun c => put (c {{ c_state := TCP_CLOSED }}))))
    (fun _ c' _ ev => life c c' ev /\ c_svc c' = c_svc c /\ c_state c' = TCP_CLOSED /\ data_of ev = []) c w.
Proof.
  intros Hwf. apply mwp_bind. eapply mwp_mono; [by apply fire_close_life|].
  intros [] c1 w1 e1 ([H1 H2] & Ho & _ & Hsv & _ & Hd). cbn beta. apply mwp_bind, mwp_get, mwp_put. ev_simpl.
  split_and!; try done. constructor; [by apply wf_close_state|done].
Qed.

Lemma close_stepped c seg w :
  conn_wf c ->
  mwp (mbind fire_close (fun _ => mbind get (fun c => put (c {{ c_state := TCP_CLOSED }}))))
    (fun _ c' _ ev => stepped c seg c' ev) c w.
Proof.
  intros Hwf. eapply mwp_mono; [by apply close_life|]. intros [] c1 w1 e1 (Hl & Hsv & Hst & Hd). cbn beta.
  constructor; [done|done|intros _; split; [left; split; [done|congruence]|congruence]|].
  intros _. split; [done|]. rewrite Hst. done.
Qed.

Lemma rst_input_life seg c w : conn_wf c -> mwp (rst_input seg) (fun _ c' _ ev => stepped c seg c' ev) c w.
Proof.
  intros Hwf. unfold rst_input. apply mwp_bind, mwp_get. cbv zeta. destruct (negb _).
  - apply mwp_ret. apply stepped_quiet; [done|apply same_life_refl|apply Forall_nil_2].
  - by apply close_stepped.
Qed.

Lemma syn_received_life on_data seg now c w :
  on_data_ok on_data -> conn_wf c -> c_state c = TCP_SYN_RECEIVED ->
  mwp (syn_received_input on_data seg now) (fun _ c' _ ev => life c c' ev /\ c_svc c' = c_svc c) c w.
Proof.
  intros Hod Hwf Hst. unfold syn_received_input. apply mwp_bind, mwp_get.
  destruct (_ && _); [|apply mwp_ret; split; [by constructor|done]].
  apply mwp_bind, mwp_put. set (c0 := c {{ c_snd_una := _ }}).
  assert (Hwf0 : conn_wf c0) by (destruct Hwf; by constructor).
  apply life_then; [apply rtx_on_ack_quiet|done|]. intros [] c1 w1 e1 Hs1 Hwf1 He1.
  destruct (emits_track (handle_of c) e1 He1) as [Ht1 Hd1]. destruct (wf_same c0 c1 Hwf0 Hs1) as [_ Hh1]. destruct Hs1 as [E1 E2 E3 E4 E5].
  apply mwp_bind, mwp_bind, mwp_get, mwp_put. apply mwp_bind, mwp_get. set (c2 := c1 {{ c_state := TCP_ESTABLISHED }}).
  assert (Hwf2 : conn_wf c2) by (by apply wf_end_state; [|left]).
  apply mwp_bind. eapply (mwp_mono _ (fun ok c' _ ev => life c2 c' ev /\ c_svc c' = c_svc c2 /\ (ok = true -> c_state c' = TCP_ESTABLISHED))).
  { destruct (c_svc c2) eqn:Hs2; [|apply mwp_ret; split_and!; [by constructor|done|done]].
    eapply mwp_mono; [by apply fire_open_life|]. intros ok c3 w3 e3 (? & ? & _ & _ & ? & _). split_and!; [done|congruence|done]. }
  intros ok c3 w3 e3 (Hl3 & Hsv3 & Hst3). cbn beta.
  assert (Hl : life c c3 (e1 ++ e3)).
  { destruct Hl3 as [H1 H2]. constructor; [done|]. rewrite track_app, Ht1. cbn.
    replace (handle_of c) with (handle_of c2) by exact Hh1. done. }
  assert (Hsv : c_svc c3 = c_svc c) by exact (eq_trans Hsv3 E2).
  destruct ok; cbn [negb]; [|apply mwp_ret; ev_simpl; done].
  destruct (_ =? 0); [apply mwp_ret; ev_simpl; done|].
  apply mwp_bind. eapply mwp_mono; [apply deliver_life; [done|apply Hl3|by apply Hst3]|].
  intros ok c4 w4 e4 [Hl4 Hsv4 _ _ _]. cbn beta. pose proof (life_trans _ _ _ _ _ Hl Hl4) as Hl'.
  destruct ok; cbn [negb]; [|apply mwp_ret; ev_simpl; rewrite app_assoc; split; [done|congruence]].
  apply mwp_bind, mwp_bind, mwp_get, mwp_put. set (c5 := c4 {{ c_rcv_nxt := _ }}).
  assert (Hwf5 : conn_wf c5) by (destruct (lf_wf _ _ _ Hl4); by constructor).
  eapply mwp_mono; [apply emit_ctrl_quiet|]. intros [] c6 w6 e6 [Hs6 He6]. ev_simpl.
  pose proof (life_quiet c5 c6 e6 Hwf5 Hs6 He6) as [H1 H2]. destruct Hs6 as [G1 G2 G3 G4 G5].
  split; [|exact (eq_trans G2 (eq_trans Hsv4 Hsv))]. rewrite !app_assoc in *.
  constructor; [done|]. rewrite track_app, (lf_track _ _ _ Hl'). exact H2.
Qed.

Lemma conn_input_life on_data seg now c w :
  on_data_ok on_data -> conn_wf c -> mwp (conn_input on_data seg now) (fun _ c' _ ev => stepped c seg c' ev) c w.
Proof.
  intros Hod Hwf. unfold conn_input. destruct (has_flag (sg_flags seg) TCPF_RST); [by apply rst_input_life|].
  apply mwp_bind, mwp_get. destruct (c_state c) eqn:Hst.
  1,2,5: eapply mwp_mono; [apply emit_rst_quiet|]; intros [] c1 w1 e1 [H1 H2]; by apply stepped_quiet.
  - eapply mwp_mono; [by apply syn_received_life|]. intros [] c1 w1 e1 [Hl Hsv]. cbn beta.
    constructor; [done|done|congruence|intros [_ ?]; congruence].
  - by apply established_input_life.
  - destruct (_ && _); [by apply close_stepped|]. apply mwp_ret.
    apply stepped_quiet; [done|apply same_life_refl|apply Forall_nil_2].
Qed.

(** A SYN takes a closed slot. *)
Lemma syn_input_life svc iss seg c w :
  conn_wf c -> c_state c = TCP_CLOSED -> (forall v, svc = Some v -> svc_ok v) ->
  mwp (syn_input svc iss seg) (fun _ c' _ ev => life c c' ev) c w.
Proof.
  intros Hwf Hst Hsvc. unfold syn_input. apply mwp_bind, mwp_bind, mwp_get, mwp_put. set (c0 := apply_update _ _).
  assert (Ho : c_opened c = false) by (apply (wf_early c Hwf); by left).
  assert (Hwf0 : conn_wf c0) by (by apply wf_closed).
  apply life_then; [apply emit_ctrl_quiet|done|]. intros [] c1 w1 e1 Hs1 Hwf1 He1. apply mwp_bind, mwp_get, mwp_put. ev_simpl.
  destruct (wf_same c0 c1 Hwf0 Hs1) as [_ Hh]. destruct (emits_track (handle_of c) e1 He1) as [Ht _].
  constructor; [destruct Hwf1; by constructor|]. rewrite Ht, (handle_closed c Ho). f_equal. symmetry. exact Hh.
Qed.
End Life.

(** ** Reachable stacks *)

Section Stack.
Context {W : Type} (d : pw_dispatch_t W).

(** Append to the trace of a slot. *)
Definition log (tr : nat -> list event) (r : option (nat * list event)) : nat -> list event :=
  match r with Some (i, ev) => fun j => if decide (j = i) then tr j ++ ev else tr j | None => tr end.

(** Stacks in dispatch mode, with the services' world and the trace of every
    slot: segments come in, the timer ticks, the application uses the API. *)
Inductive stack_reach : tcp_stack_t W -> W -> (nat -> list event) -> Prop :=
| sr_init ip w : stack_reach (tcp_attach_dispatch ip d) w (fun _ => [])
| sr_secret s w tr secret len s' :
    stack_reach s w tr -> tcp_stack_set_iss_secret s secret len = Ret s' -> stack_reach s' w tr
| sr_input s w tr seg now on_data s' w' r :
    stack_reach s w tr -> on_data_ok on_data -> tcp_input_at s w seg now on_data = Ret (s', w', r) ->
    stack_reach s' w' (log tr r)
| sr_tick s w tr now :
    stack_reach s w tr ->
    stack_reach (tcp_tick s now).1 w (fun i => tr i ++ default [] ((tcp_tick s now).2 !! i))
| sr_api s w tr i a s' w' ev :
    stack_reach s w tr -> api_ok a -> on_slot s w i (run_api a) = Ret (tt, s', w', ev) ->
    stack_reach s' w' (log tr (Some (i, ev))).

Record stack_inv (s : tcp_stack_t W) (tr : nat -> list event) : Prop := {
  si_dispatch : st_dispatch s = Some d;
  si_conns i c : st_conns s !! i = Some c -> conn_wf c /\ track None (tr i) = Some (handle_of c)
}.

Lemma stack_inv_step s s' tr i c c' ev :
  stack_inv s tr -> st_conns s !! i = Some c -> life c c' ev ->
  st_dispatch s' = st_dispatch s -> st_conns s' = <[i := c']> (st_conns s) ->
  stack_inv s' (log tr (Some (i, ev))).
Proof.
  intros [Hd Hc] Hi [H1 H2] Ed Ec. constructor; [congruence|]. rewrite Ec. intros j cj. cbn.
  destruct (decide (j = i)) as [->|Hne].
  - rewrite list_lookup_insert_eq by (by eapply lookup_lt_Some). intros [= <-]. split; [done|].
    destruct (Hc i c Hi) as [_ Ht]. by rewrite track_app, Ht.
  - rewrite list_lookup_insert_ne by done. apply Hc.
Qed.

(** Running a computation on a slot whose specification is known. *)
Lemma on_slot_spec {A} s w i (m : M W A) c Q :
  st_conns s !! i = Some c -> mwp m Q c w ->
  exists a c' w' ev, on_slot s w i m = Ret (a, s {{ st_conns := <[i := c']> (st_conns s) }}, w', ev) /\ Q a c' w' ev.
Proof.
  intros Hi Hm. unfold on_slot, mwp in *. rewrite Hi. destruct (m c w) as [[[[a c'] w'] ev]| |]; try done. cbn. eauto 10.
Qed.

Lemma find_slot_some f (cs : list (tcp_conn_t W)) i : find_slot f cs = Some i -> exists c, cs !! i = Some c /\ f c = true.
Proof.
  revert i. induction cs as [|c cs IH]; intros i H; cbn in H; [done|]. destruct (f c) eqn:E.
  - injection H as <-. by exists c.
  - apply fmap_Some in H as (j & Hj & ->). by apply IH.
Qed.

Lemma lookup_in (proto : pw_proto_t) port svc : pw_dispatch_lookup d proto port = Some svc -> svc ∈ d.
Proof.
  clear. induction d as [|e l IH]; cbn; [done|]. destruct (_ && _); [intros [= ->]; by left|]. intros H. right. by apply IH.
Qed.

(** An input segment is handled without undefined behaviour. *)
Lemma tcp_input_spec s w tr seg now on_data :
  Forall svc_ok d -> on_data_ok on_data -> stack_inv s tr ->
  exists s' w' r, tcp_input_at s w seg now on_data = Ret (s', w', r) /\ stack_inv s' (log tr r).
Proof.
  intros Hsv Hod Hinv. pose proof Hinv as [Hd Hc]. unfold tcp_input_at.
  destruct (negb _); [by eexists _, _, None|].
  destruct (port_accepts s (sg_dst_port seg)) as [svc|] eqn:Hp; [|by eexists _, _, None].
  assert (Hsvc : forall v, svc = Some v -> svc_ok v).
  { intros v ->. unfold port_accepts in Hp. rewrite Hd in Hp. destruct (pw_dispatch_lookup d _ _) eqn:E; [|done].
    injection Hp as ->. eapply list.Forall_forall; [exact Hsv|]. by eapply lookup_in. }
  destruct (find_conn s seg) as [i|] eqn:Hf.
  - apply find_slot_some in Hf as (c & Hi & _). destruct (Hc i c Hi) as [Hwf _].
    destruct (on_slot_spec s w i (conn_input on_data seg now) c _ Hi (conn_input_life on_data seg now c w Hod Hwf))
      as (a & c' & w' & ev & -> & [Hl _ _ _]). cbn. eexists _, _, (Some (i, ev)). split; [done|]. by eapply stack_inv_step.
  - destruct (_ || _); [by eexists _, _, None|]. destruct (alloc_conn s) as [i|] eqn:Ha; [|by eexists _, _, None].
    apply find_slot_some in Ha as (c & Hi & Hst). apply bool_decide_eq_true in Hst. destruct (Hc i c Hi) as [Hwf _].
    set (iss := iss_derive _ _ _ _ _ _). destruct (on_slot_spec s w i (syn_input svc iss seg) c _ Hi
      (syn_input_life svc iss seg c w Hwf Hst Hsvc)) as (a & c' & w' & ev & -> & Hl). cbn.
    eexists _, _, (Some (i, ev)). split; [done|]. by eapply stack_inv_step.
Qed.

Lemma tick_inv s tr now :
  stack_inv s tr -> stack_inv (tcp_tick s now).1 (fun i => tr i ++ default [] ((tcp_tick s now).2 !! i)).
Proof.
  intros [Hd Hc]. constructor; [done|]. intros i c'. cbn. rewrite !list_lookup_fmap.
  destruct (st_conns s !! i) as [c|] eqn:Hi; cbn; [|done]. intros [= <-]. destruct (Hc i c Hi) as [Hwf Ht].
  destruct (tick_conn_same now c) as [Hs He]. destruct (life_quiet c _ _ Hwf Hs He) as [H1 H2].
  split; [done|]. rewrite track_app, Ht. exact H2.
Qed.

Lemma stack_reach_inv s w tr : Forall svc_ok d -> stack_reach s w tr -> stack_inv s tr.
Proof.
  intros Hsv. induction 1 as [ip w|s w tr secret len s' _ IH E|s w tr seg now on_data s' w' r _ IH Hod E|s w tr now _ IH|s w tr i a s' w' ev _ IH Ha E].
  - constructor; [done|]. intros i c H.
    change (replicate TCP_TABLE_SIZE zero_conn !! i = Some c) in H. apply lookup_replicate in H as [-> _].
    split; [by apply wf_closed|done].
  - unfold tcp_stack_set_iss_secret in E. destruct (rdn _ _); try done. injection E as <-. destruct IH. by constructor.
  - destruct (tcp_input_spec s w tr seg now on_data Hsv Hod IH) as (s1 & w1 & r1 & E1 & Hi). rewrite E1 in E. by injection E as <- <- <-.
  - by apply tick_inv.
  - unfold on_slot in E. destruct (st_conns s !! i) as [c|] eqn:Hi; [|done].
    destruct (si_conns _ _ IH i c Hi) as [Hwf _]. pose proof (run_api_quiet a Ha c w) as Hq. unfold mwp in Hq.
    destruct (run_api a c w) as [[[[[] c'] w1] e1]| |]; try done. destruct Hq as [Hs He]. cbn in E. injection E as <- <- <-.
    eapply stack_inv_step; [done|done|by apply life_quiet|done|done].
Qed.
End Stack.
