(* ===== verification/TcpTheorems.v ===== *)
(** * Theorems about the TCP stack

    The properties of [userspace/tcp/tcp.c], proved from the calculus of
    [TcpProps]: the service life cycle over whole runs of the stack, in-order
    delivery, segmentation, RST acceptance and the queue and timer bounds; and
    runs that show where the stack departs from its contract. *)

From Stdlib Require Import ZArith Lia.
From stdpp Require Import list numbers option.
From coqutil Require Import Datatypes.RecordSetters.
Import DoubleBraceUpdate.
From S2P Require Import Prelude Ip Iov Dispatch Tcp TcpProps.

(** ** In-order delivery *)

Section Receive.
Context {W : Type}.

Fixpoint conn_inputs (on_data : on_data_fn W) (l : list (tcp_seg_t * Z)) : M W unit :=
  match l with
  | [] => mret tt
  | (seg, now) :: l' => mbind (conn_input on_data seg now) (fun _ => conn_inputs on_data l')
  end.

(** The segment carries bytes [k .. k + payload_len) of the stream [s], whose
    first byte has sequence number [base]. *)
Definition carries (s : list Z) (base : Z) (seg : tcp_seg_t) : Prop :=
  exists k, 0 <= k /\ 0 <= sg_payload_len seg /\ k + sg_payload_len seg <= zlen s /\ sg_seq seg = u32 (base + k) /\
    ztake (sg_payload_len seg) (sg_payload seg) = ztake (sg_payload_len seg) (padd s k).

Lemma i32_zero x : i32 x = 0 -> x mod 2 ^ 32 = 0.
Proof. unfold i32, u32. cbv zeta. zcase; dlia. Qed.

Lemma seq_offset base k n :
  i32 (u32 (base + k) - u32 (base + n)) = 0 -> 0 <= k < 2 ^ 32 -> 0 <= n < 2 ^ 32 -> k = n.
Proof. intros H%i32_zero Hk Hn. unfold u32 in H. dlia. Qed.

Lemma u32_add a b : u32 (u32 a + b) = u32 (a + b).
Proof. unfold u32. dlia. Qed.

Lemma conn_inputs_in_order on_data s base l : forall c w n,
  on_data_ok on_data -> conn_wf c -> c_svc c <> None -> zlen s < 2 ^ 32 -> 0 <= n <= zlen s ->
  Forall (fun p => carries s base p.1) l ->
  (c_state c = TCP_ESTABLISHED /\ c_rcv_nxt c = u32 (base + n) \/ done_state (c_state c)) ->
  mwp (conn_inputs on_data l) (fun _ _ _ ev => exists m, 0 <= m /\ n + m <= zlen s /\ data_of ev = ztake m (padd s n)) c w.
Proof.
  induction l as [|[seg now] l IH]; intros c w n Hod Hwf Hsv Hs Hn Hl Hst; cbn [conn_inputs].
  { apply mwp_ret. exists 0. split_and!; [lia|lia|done]. }
  apply Forall_cons_1 in Hl as [(k & Hk & Hpl & Hkl & Hseq & Hdata) Hl]. cbn in Hpl, Hkl, Hseq, Hdata.
  apply mwp_bind. eapply mwp_mono; [by apply conn_input_life|]. intros [] c1 w1 e1 [Hlife Hsv1 Htook Hdone]. cbn beta.
  assert (Hwf1 : conn_wf c1) by apply Hlife.
  assert (Hcont : forall n', 0 <= n' <= zlen s ->
      (c_state c1 = TCP_ESTABLISHED /\ c_rcv_nxt c1 = u32 (base + n') \/ done_state (c_state c1)) ->
      n <= n' -> data_of e1 = ztake (n' - n) (padd s n) ->
      mwp (conn_inputs on_data l) (fun _ _ _ ev => exists m, 0 <= m /\ n + m <= zlen s /\ data_of (e1 ++ ev) = ztake m (padd s n)) c1 w1).
  { intros n' Hn' Hst' Hle Hd. eapply mwp_mono; [apply (IH c1 w1 n'); [done|done|by rewrite Hsv1|done|done|done|done]|].
    intros [] c2 w2 e2 (m & Hm & Hm' & Hd2). exists (n' - n + m). split_and!; [lia|lia|].
    rewrite data_of_app, Hd, Hd2, ztake_split by (rewrite ?zlen_padd; lia). rewrite padd_padd by lia. do 3 f_equal. lia. }
  destruct Hst as [[Hest Hr]|Hdn].
  - destruct (Htook Hest) as [Ht Hns].
    assert (Hcases : c_state c1 = TCP_ESTABLISHED \/ done_state (c_state c1)).
    { destruct (decide (c_state c1 = TCP_ESTABLISHED)); [by left|right; by split]. }
    destruct Ht as [[Hd Hr1]|(Hd & Hz & Hr1)].
    + apply (Hcont n); [lia| |lia|by rewrite Z.sub_diag, Hd]. destruct Hcases as [He|?]; [left|by right]. split; [done|]. rewrite Hr1; done.
    + specialize (Hd Hsv). rewrite Hseq, Hr in Hz. apply seq_offset in Hz as ->; [|lia|lia].
      apply (Hcont (n + sg_payload_len seg)); [lia| |lia|].
      * destruct Hcases as [He|?]; [left|by right]. split; [done|]. rewrite (Hr1 He), Hr, u32_add. f_equal. lia.
      * rewrite Hd, Hdata. f_equal. lia.
  - destruct (Hdone Hdn) as [Hd Hdn1]. apply (Hcont n); [lia|by right|lia|by rewrite Z.sub_diag, Hd].
Qed.
End Receive.

(** ** Segmentation *)

Section Send.
Context {W : Type}.

(** [segs] carry [data] from sequence number [seq] on: contiguous, at most one
    MSS each, PSH on the last one only. *)
Fixpoint segments (seq : Z) (data : list Z) (segs : list tcp_seg_t) : Prop :=
  match segs with
  | [] => data = []
  | s :: segs' =>
      sg_seq s = seq /\ 1 <= sg_payload_len s <= TCP_MSS /\ sg_payload_len s <= zlen data /\
      ztake (sg_payload_len s) (sg_payload s) = ztake (sg_payload_len s) data /\
      sg_flags s = (match segs' with [] => Z.lor TCPF_ACK TCPF_PSH | _ => TCPF_ACK end) /\
      segments (u32 (seq + sg_payload_len s)) (padd data (sg_payload_len s)) segs'
  end.

(** The retransmit entry of a segment. *)
Definition entry_of (now : Z) (s : tcp_seg_t) : tcp_rtx_entry_t :=
  mk_rtx (sg_seq s) (u32 (sg_payload_len s)) (sg_payload s) (sg_flags s) false now.

Definition sent_ok (c : tcp_conn_t W) (data : list Z) (now : Z) (c' : tcp_conn_t W) (ev : list event) : Prop :=
  exists segs, ev = map EvEmit segs /\ segments (c_snd_nxt c) data segs /\
    c_snd_nxt c' = u32 (c_snd_nxt c + zlen data) /\
    c_rtx c' = c_rtx c ++ (if now =? 0 then [] else map (entry_of now) segs).

Lemma segments_nonempty seq data segs : segments seq data segs -> 0 < zlen data -> segs <> [].
Proof. intros H Hd ->. cbn in H. subst. rewrite zlen_nil in Hd. lia. Qed.

Lemma ztake_padd_ztake (l : list Z) len sent k :
  0 <= sent -> 0 <= k -> sent + k <= len -> ztake k (padd (ztake len l) sent) = ztake k (padd l sent).
Proof.
  intros. unfold ztake, padd. rewrite !take_drop_commute, take_take. do 2 f_equal. lia.
Qed.

Lemma sent_done (c : tcp_conn_t W) data len now sent :
  0 <= len <= sent -> 0 <= c_snd_nxt c < 2 ^ 32 -> sent_ok c (padd (ztake len data) sent) now c [].
Proof.
  intros Hs Hn. exists [].
  assert (E : padd (ztake len data) sent = []).
  { apply length_zero_iff_nil. pose proof (zlen_padd (ztake len data) sent). rewrite zlen_ztake in * by lia. unfold zlen in *. lia. }
  rewrite E. split_and!; [done|done|by rewrite zlen_nil, Z.add_0_r, u32_small|by destruct (now =? 0); rewrite app_nil_r].
Qed.

(** One chunk, then the rest. *)
Lemma sent_cons (c c1 c2 c3 : tcp_conn_t W) data len now sent chunk ev s :
  0 <= sent -> chunk = Z.min TCP_MSS (len - sent) -> 0 < chunk -> len <= zlen data ->
  sg_seq s = c_snd_nxt c -> sg_payload s = padd data sent -> sg_payload_len s = chunk ->
  sg_flags s = Z.lor TCPF_ACK (if len <=? sent + chunk then TCPF_PSH else 0) ->
  c_rtx c1 = c_rtx c ++ (if now =? 0 then [] else [entry_of now s]) -> c_rtx c2 = c_rtx c1 ->
  c_snd_nxt c2 = u32 (c_snd_nxt c + chunk) ->
  sent_ok c2 (padd (ztake len data) (sent + chunk)) now c3 ev ->
  sent_ok c (padd (ztake len data) sent) now c3 (EvEmit s :: ev).
Proof.
  intros Hs Hch Hpos Hl E1 E2 E3 E4 Hq1 Hq2 Hn2 (segs & -> & Hsegs & Hn3 & Hq3).
  assert (Hz : zlen (padd (ztake len data) sent) = len - sent) by (rewrite zlen_padd, zlen_ztake by lia; lia).
  assert (Hz' : zlen (padd (ztake len data) (sent + chunk)) = len - sent - chunk) by (rewrite zlen_padd, zlen_ztake by lia; lia).
  exists (s :: segs). split_and!; [done| | |].
  - cbn [segments]. rewrite E1, E2, E3. rewrite padd_padd by lia. rewrite Hn2 in Hsegs.
    split_and!; [done|lia|unfold TCP_MSS in *; lia|lia|symmetry; apply ztake_padd_ztake; lia| |done].
    rewrite E4. destruct (Z.leb_spec len (sent + chunk)) as [Hle|Hgt].
    + destruct segs as [|s' segs]; [done|]. cbn in Hsegs. unfold TCP_MSS in *. lia.
    + destruct segs as [|s' segs]; [|done]. cbn in Hsegs. rewrite Hsegs, zlen_nil in Hz'. lia.
  - rewrite Hn3, Hn2, Hz, Hz', u32_add. f_equal. lia.
  - rewrite Hq3, Hq2, Hq1, <- app_assoc. by destruct (now =? 0).
Qed.

Lemma send_loop_spec data len now fuel : forall sent (c : tcp_conn_t W) w,
  0 <= sent <= len -> len <= zlen data -> len - sent <= Z.of_nat fuel -> 0 <= c_snd_nxt c < 2 ^ 32 ->
  (now = 0 \/ len - sent <= TCP_MSS * (TCP_RTX_QUEUE_MAX - zlen (c_rtx c))) ->
  mwp (send_loop data len now sent fuel)
    (fun r c' _ ev => r = Some len /\ sent_ok c (padd (ztake len data) sent) now c' ev) c w.
Proof.
  induction fuel as [|fuel IH]; intros sent c w Hs Hl Hf Hn Hq; cbn [send_loop];
    (destruct (Z.leb_spec len sent); [apply mwp_ret; split; [done|apply sent_done; lia]|]); [lia|].
  cbv zeta. set (chunk := if TCP_MSS <? len - sent then TCP_MSS else len - sent).
  assert (Hc : chunk = Z.min TCP_MSS (len - sent)) by (unfold chunk; zcase; lia).
  assert (Hpos : 0 < chunk <= TCP_MSS) by (unfold TCP_MSS in *; lia). clearbody chunk.
  apply mwp_bind, mwp_get. set (c0 := c {{ c_rcv_wnd := _ }}). apply mwp_bind, mwp_put. apply mwp_bind, mwp_event.
  set (flags := Z.lor TCPF_ACK _). set (s := seg_of c0 _ flags _ _ chunk).
  destruct (Z.ltb_spec 0 chunk); [|lia]. rewrite andb_true_r.
  assert (Hr : exists c1, (if negb (now =? 0) then rtx_enqueue c0 (mk_rtx (c_snd_nxt c0) (u32 chunk) (padd data sent) flags false now) else Some c0) = Some c1
    /\ c_snd_nxt c1 = c_snd_nxt c /\ c_rtx c1 = c_rtx c ++ (if now =? 0 then [] else [entry_of now s])
    /\ (now = 0 \/ len - (sent + chunk) <= TCP_MSS * (TCP_RTX_QUEUE_MAX - zlen (c_rtx c1)))).
  { destruct (Z.eqb_spec now 0); cbn [negb]; [exists c0; split_and!; [done|done|by rewrite app_nil_r|by left]|].
    destruct Hq as [?|Hq]; [done|]. unfold rtx_enqueue. change (c_rtx c0) with (c_rtx c).
    unfold TCP_RTX_QUEUE_MAX, TCP_MSS in *. destruct (Z.leb_spec 4 (zlen (c_rtx c))); [lia|].
    eexists. split_and!; [done|done|done|]. right. change (c_rtx (apply_update _ c0)) with (c_rtx c ++ [entry_of now s]).
    rewrite zlen_app, (zlen_cons (entry_of now s)). change (zlen (@nil tcp_rtx_entry_t)) with 0. lia. }
  destruct Hr as (c1 & -> & Hn1 & Hq1 & Hcap). apply mwp_bind, mwp_put. set (c2 := c1 {{ c_snd_nxt := _ }}).
  assert (Hn2 : c_snd_nxt c2 = u32 (c_snd_nxt c + chunk)).
  { change (u32 (c_snd_nxt c1 + u32 chunk) = u32 (c_snd_nxt c + chunk)). rewrite Hn1, (u32_small chunk); [done|unfold TCP_MSS in *; lia]. }
  eapply mwp_mono; [apply (IH (sent + chunk) c2 w)|]; [lia|lia|lia|rewrite Hn2; unfold u32; dlia|exact Hcap|].
  intros r c3 w3 e3 [-> Hsent]. split; [done|]. cbn [app]. eapply (sent_cons c c1 c2); try done; lia.
Qed.

Lemma sent_same_data (c c' c'' : tcp_conn_t W) data now ev :
  c_snd_nxt c' = c_snd_nxt c -> c_rtx c' = c_rtx c -> sent_ok c' data now c'' ev -> sent_ok c data now c'' ev.
Proof. unfold sent_ok. by intros -> ->. Qed.

(** [tcp_send_at] on an established connection with room for the segments. *)
Lemma send_at_spec data len now (c : tcp_conn_t W) w :
  c_state c = TCP_ESTABLISHED -> 0 <= c_snd_nxt c < 2 ^ 32 -> 0 <= len <= zlen data ->
  (now = 0 \/ zlen (c_rtx c) < TCP_RTX_QUEUE_MAX /\ u32 len <= tcp_send_window c /\
     len <= TCP_MSS * (TCP_RTX_QUEUE_MAX - zlen (c_rtx c))) ->
  mwp (tcp_send_at data len now) (fun r c' _ ev => r = Some len /\ sent_ok c (ztake len data) now c' ev) c w.
Proof.
  intros Hst Hn Hl Hq. unfold tcp_send_at. apply mwp_bind, mwp_get.
  assert (E : state_eqb (c_state c) TCP_ESTABLISHED = true) by (by apply bool_decide_eq_true). rewrite E. cbn [negb].
  assert (E1 : negb (now =? 0) && (TCP_RTX_QUEUE_MAX <=? zlen (c_rtx c)) = false).
  { destruct Hq as [->|(H1 & _)]; [done|]. destruct (Z.leb_spec TCP_RTX_QUEUE_MAX (zlen (c_rtx c))); [lia|]. apply andb_false_r. }
  assert (E2 : negb (now =? 0) && (tcp_send_window c <? u32 len) = false).
  { destruct Hq as [->|(_ & H2 & _)]; [done|]. destruct (Z.ltb_spec (tcp_send_window c) (u32 len)); [lia|]. apply andb_false_r. }
  rewrite E1, E2. apply mwp_bind, mwp_put. set (c1 := if c_rto_ms c =? 0 then _ else c).
  assert (H1 : c_snd_nxt c1 = c_snd_nxt c /\ c_rtx c1 = c_rtx c) by (unfold c1; by destruct (c_rto_ms c =? 0)).
  clearbody c1. destruct H1 as [Hn1 Hq1].
  eapply mwp_mono; [apply (send_loop_spec data len now (Z.to_nat len) 0 c1 w)|]; [lia|lia|lia|by rewrite Hn1| |].
  - rewrite Hq1. destruct Hq as [?|(_ & _ & Hq)]; [by left|right; lia].
  - intros r c2 w2 e2 [-> Hsent]. split; [done|]. rewrite padd_0 in Hsent. by eapply sent_same_data.
Qed.

(** *** Bytes in flight *)

Fixpoint rtx_bytes (q : list tcp_rtx_entry_t) : Z := match q with [] => 0 | e :: q' => rx_len e + rtx_bytes q' end.

Lemma flight_sum_spec q : forall sum,
  Forall (fun e => 0 <= rx_len e) q -> 0 <= sum -> sum + rtx_bytes q < 2 ^ 32 -> flight_sum q sum = sum + rtx_bytes q.
Proof.
  induction q as [|e q IH]; intros sum Hq Hs Hm; cbn in *; [lia|]. apply Forall_cons_1 in Hq as [He Hq].
  assert (0 <= rtx_bytes q) by (clear -Hq; induction Hq; cbn; lia).
  rewrite u32_small, IH by (done || lia). lia.
Qed.

Lemma rtx_bytes_app q1 q2 : rtx_bytes (q1 ++ q2) = rtx_bytes q1 + rtx_bytes q2.
Proof. induction q1; cbn; lia. Qed.

Lemma segments_bytes now segs : forall seq data,
  segments seq data segs ->
  rtx_bytes (map (entry_of now) segs) = zlen data /\ Forall (fun e => 0 <= rx_len e) (map (entry_of now) segs).
Proof.
  induction segs as [|s segs IH]; intros seq data H; cbn [map rtx_bytes segments] in *.
  - subst. rewrite zlen_nil. split; [done|apply Forall_nil_2].
  - destruct H as (_ & Hl & Hld & _ & _ & H). destruct (IH _ _ H) as [-> Hf]. unfold TCP_MSS in Hl. cbn [rx_len entry_of].
    rewrite u32_small, zlen_padd by lia. split; [lia|]. apply Forall_cons_2; [|done]. cbn. rewrite u32_small; lia.
Qed.
End Send.

(** ** Timer and queue bounds *)

Section Timer.
Context {W : Type}.
Implicit Types (c : tcp_conn_t W) (w : W).

Record timer_ok c : Prop := {
  tm_rto : c_rto_ms c = 0 \/ TCP_RTO_MIN_MS <= c_rto_ms c <= TCP_RTO_MAX_MS;
  tm_queue : zlen (c_rtx c) <= TCP_RTX_QUEUE_MAX
}.

(** If [m] is defined at [c], it ends with the bounds intact. *)
Definition keeps_at {A} (m : M W A) c w : Prop :=
  match m c w with Ret (_, c', _, _) => timer_ok c' | _ => True end.

Definition keeps {A} (m : M W A) : Prop := forall c w, timer_ok c -> keeps_at m c w.

Lemma keeps_at_bind {A B} (m : M W A) (k : A -> M W B) c w :
  timer_ok c -> keeps m -> (forall a, keeps (k a)) -> keeps_at (mbind m k) c w.
Proof.
  intros Hc Hm Hk. specialize (Hm c w Hc). unfold keeps_at, mbind in *.
  destruct (m c w) as [[[[a c1] w1] e1]| |]; cbn; try done. specialize (Hk a c1 w1 Hm). unfold keeps_at in Hk.
  by destruct (k a c1 w1) as [[[[b c2] w2] e2]| |].
Qed.

Lemma keeps_bind {A B} (m : M W A) (k : A -> M W B) : keeps m -> (forall a, keeps (k a)) -> keeps (mbind m k).
Proof. intros Hm Hk c w Hc. by apply keeps_at_bind. Qed.

Lemma keeps_get {A} (k : tcp_conn_t W -> M W A) : (forall c w, timer_ok c -> keeps_at (k c) c w) -> keeps (mbind get k).
Proof.
  intros H c w Hc. specialize (H c w Hc). unfold keeps_at, mbind, get in *. cbn.
  by destruct (k c c w) as [[[[b c2] w2] e2]| |].
Qed.

Lemma keeps_at_put {A} c' (k : unit -> M W A) c w : timer_ok c' -> keeps (k tt) -> keeps_at (mbind (put c') k) c w.
Proof.
  intros H Hk. specialize (Hk c' w H). unfold keeps_at, mbind, put in *. cbn. by destruct (k tt c' w) as [[[[b c2] w2] e2]| |].
Qed.

Lemma keeps_at_put_last c' c w : timer_ok c' -> keeps_at (put c') c w.
Proof. done. Qed.

Lemma keeps_ret {A} (a : A) : keeps (mret a).
Proof. by intros c w Hc. Qed.

Lemma keeps_event e : keeps (event_ e).
Proof. by intros c w Hc. Qed.

Lemma keeps_undefined {A} : keeps (@undefined W A).
Proof. by intros c w Hc. Qed.

Lemma keeps_lift {A} (r : res A) : keeps (lift r).
Proof. intros c w Hc. unfold keeps_at, lift. by destruct r. Qed.

Lemma keeps_call {A} (f : W -> W * A) : keeps (call f).
Proof. intros c w Hc. unfold keeps_at, call. by destruct (f w). Qed.

Lemma keeps_here {A} (m : M W A) c w : timer_ok c -> keeps m -> keeps_at m c w.
Proof. intros Hc Hm. by apply Hm. Qed.
End Timer.

(** A write that touches neither the RTO nor the queue. *)
Ltac timer_tac :=
  first [assumption
        | match goal with H : timer_ok ?c |- timer_ok _ => destruct H; constructor; assumption end
        | match goal with |- context [if ?b then _ else _] => destruct b end; timer_tac].

Ltac keeps_step :=
  match goal with
  | |- keeps (mbind get _) => apply keeps_get; intros ? ? ?; cbn beta zeta
  | |- keeps (mbind _ _) => apply keeps_bind; [|intros ?; cbn beta zeta]
  | |- keeps (mret _) => apply keeps_ret
  | |- keeps (event_ _) => apply keeps_event
  | |- keeps (call _) => apply keeps_call
  | |- keeps (lift _) => apply keeps_lift
  | |- keeps undefined => apply keeps_undefined
  | |- keeps (if ?b then _ else _) => destruct b
  | |- keeps (match ?b with _ => _ end) => destruct b
  | |- keeps_at (mbind (put _) _) _ _ => apply keeps_at_put; [timer_tac|cbn beta zeta]
  | |- keeps_at (put _) _ _ => apply keeps_at_put_last; timer_tac
  | |- keeps_at (if ?b then _ else _) _ _ => destruct b
  | |- keeps_at (match ?b with _ => _ end) _ _ => destruct b eqn:?
  | |- keeps_at _ _ _ => apply keeps_here; [assumption|]
  end.

Section TimerOps.
Context {W : Type}.
Implicit Types (c : tcp_conn_t W) (w : W).

Lemma emit_ctrl_keeps flags : keeps (W := W) (emit_ctrl flags).
Proof. unfold emit_ctrl. repeat keeps_step. Qed.

Lemma rcv_ops_keep cap n : keeps (W := W) (tcp_set_rcv_buf_cap cap) /\ keeps (W := W) (tcp_rcv_consumed n).
Proof. unfold tcp_set_rcv_buf_cap, tcp_rcv_consumed. split; repeat keeps_step. Qed.

Lemma cc_on_new_ack_keeps b : keeps (W := W) (cc_on_new_ack b).
Proof. unfold cc_on_new_ack. repeat keeps_step. Qed.

Lemma cc_on_dupack_keeps : keeps (W := W) cc_on_dupack.
Proof.
  unfold cc_on_dupack. repeat keeps_step. intros c0 w0 _. destruct H as [Hr Hq].
  change (c_rtx c = t :: l) in Heql. rewrite Heql in Hq. constructor; [exact Hr|].
  rewrite zlen_cons in Hq. change (zlen (t {{ rx_retrans := true }} :: l) <= TCP_RTX_QUEUE_MAX). by rewrite zlen_cons.
Qed.

Lemma rtx_sample_ok c r : timer_ok c -> timer_ok (rtx_sample c r).
Proof.
  intros [_ Hq]. unfold rtx_sample. cbv zeta. constructor.
  - right. set (x := if TCP_RTO_MAX_MS <? _ then _ else _). change (TCP_RTO_MIN_MS <= x <= TCP_RTO_MAX_MS).
    unfold x, TCP_RTO_MIN_MS, TCP_RTO_MAX_MS. clear. repeat zcase; lia.
  - by destruct (c_srtt_ms c =? 0).
Qed.

Lemma rtx_ack_loop_ok ack now q : forall c, timer_ok c ->
  timer_ok (rtx_ack_loop ack now q c).2 /\ zlen (rtx_ack_loop ack now q c).1 <= zlen q.
Proof.
  induction q as [|e q IH]; intros c Hc; cbn [rtx_ack_loop]; [done|]. destruct (_ <? 0).
  - destruct (IH c Hc) as [H1 H2]. destruct (rtx_ack_loop ack now q c) as [kept c']. cbn [fst snd] in *. rewrite !zlen_cons. split; [done|lia].
  - cbv zeta. set (c1 := if _ && _ then _ else c). assert (Hc1 : timer_ok c1) by (unfold c1; destruct (_ && _); [by apply rtx_sample_ok|done]).
    clearbody c1. destruct (IH c1 Hc1) as [H1 H2]. rewrite zlen_cons. split; [done|lia].
Qed.

Lemma rtx_on_ack_keeps ack now : keeps (W := W) (rtx_on_ack ack now).
Proof.
  unfold rtx_on_ack. apply keeps_get. intros c w Hc. destruct (rtx_ack_loop_ok ack now (c_rtx c) c Hc) as [H1 H2].
  destruct (rtx_ack_loop _ _ _ c) as [kept c']. apply keeps_at_put_last. destruct H1 as [Hr _], Hc as [_ Hq].
  constructor; [exact Hr|]. cbn in *. change (zlen kept <= TCP_RTX_QUEUE_MAX). lia.
Qed.

Lemma enqueue_ok c c' e : timer_ok c -> rtx_enqueue c e = Some c' -> timer_ok c'.
Proof.
  intros [Hr Hq] E. unfold rtx_enqueue in E. destruct (Z.leb_spec TCP_RTX_QUEUE_MAX (zlen (c_rtx c))); [done|].
  injection E as <-. constructor; [exact Hr|]. change (zlen (c_rtx c ++ [e]) <= TCP_RTX_QUEUE_MAX).
  rewrite zlen_app. change (zlen [e]) with 1. lia.
Qed.

Lemma send_loop_keeps data len now fuel : forall sent, keeps (W := W) (send_loop data len now sent fuel).
Proof.
  induction fuel as [|fuel IH]; intros sent; cbn [send_loop]; (destruct (len <=? sent); [apply keeps_ret|]); [apply keeps_undefined|].
  cbv zeta. set (chunk := if TCP_MSS <? len - sent then TCP_MSS else len - sent). apply keeps_get. intros c w Hc.
  set (c1 := c {{ c_rcv_wnd := _ }}). assert (Hc1 : timer_ok c1) by (destruct Hc; by constructor). clearbody c1.
  apply keeps_at_put; [done|]. apply keeps_bind; [apply keeps_event|]. intros _.
  destruct (if negb (now =? 0) && (0 <? chunk) then _ else Some c1) as [c2|] eqn:E; [|apply keeps_ret].
  assert (Hc2 : timer_ok c2). { destruct (_ && _); [by eapply enqueue_ok|by injection E as <-]. }
  intros c3 w3 _. apply keeps_at_put; [destruct Hc2; by constructor|]. apply IH.
Qed.

Lemma send_at_keeps data len now : keeps (W := W) (tcp_send_at data len now).
Proof.
  unfold tcp_send_at. apply keeps_get. intros c w Hc. repeat keeps_step; try apply send_loop_keeps.
  intros c0 w0 _. apply keeps_at_put_last. destruct (c_rto_ms c =? 0); [|done]. destruct Hc as [_ Hq].
  constructor; [|exact Hq]. right. change (TCP_RTO_MIN_MS <= TCP_RTO_INIT_MS <= TCP_RTO_MAX_MS). done.
Qed.

Lemma sendv_keeps iov : keeps (W := W) (tcp_sendv iov).
Proof. unfold tcp_sendv, tcp_send. repeat keeps_step; apply send_at_keeps. Qed.

Lemma run_api_keeps a : keeps (W := W) (run_api a).
Proof.
  destruct a; cbn [run_api]; [| |apply (rcv_ops_keep cap 0)|apply (rcv_ops_keep 0 n)]; repeat keeps_step;
    first [apply send_at_keeps|apply sendv_keeps].
Qed.

Lemma run_apis_keeps l : keeps (W := W) (run_apis l).
Proof. induction l; cbn; repeat keeps_step; [apply run_api_keeps|done]. Qed.

Lemma fire_keeps : keeps (W := W) fire_open /\ keeps (W := W) fire_close.
Proof. unfold fire_open, fire_close. split; repeat keeps_step; apply emit_ctrl_keeps. Qed.

Lemma deliver_keeps f seg : keeps (W := W) (deliver f seg).
Proof.
  unfold deliver, drive_service_data, send_output. repeat keeps_step;
    first [apply sendv_keeps|apply emit_ctrl_keeps|apply fire_keeps|apply run_apis_keeps].
Qed.

Lemma conn_input_keeps f seg now : keeps (W := W) (conn_input f seg now).
Proof.
  unfold conn_input, rst_input, syn_received_input, established_input, established_ack, established_data, established_fin, emit_rst.
  repeat keeps_step; first [apply fire_keeps|apply rtx_on_ack_keeps|apply deliver_keeps|apply emit_ctrl_keeps
    |apply cc_on_new_ack_keeps|apply cc_on_dupack_keeps].
Qed.

Lemma syn_input_keeps svc iss seg : keeps (W := W) (syn_input svc iss seg).
Proof. unfold syn_input. repeat keeps_step; apply emit_ctrl_keeps. Qed.

Lemma tick_conn_ok now c : timer_ok c -> timer_ok (tick_conn now c).1.
Proof.
  intros Hc. unfold tick_conn. destruct (_ && _); [done|]. destruct (c_rtx c) as [|e q] eqn:Eq; [done|].
  cbv zeta. destruct (_ <? c_rto_ms c) eqn:Hage; [done|]. destruct Hc as [Hr Hq]. rewrite Eq, zlen_cons in Hq.
  constructor; [|rewrite <- (zlen_cons e) in Hq; exact Hq].
  set (x := if TCP_RTO_MAX_MS <? _ then _ else _). change (u32 x = 0 \/ TCP_RTO_MIN_MS <= u32 x <= TCP_RTO_MAX_MS).
  assert (Hx : x = 0 \/ TCP_RTO_MIN_MS <= x <= TCP_RTO_MAX_MS).
  { change (x) with (if TCP_RTO_MAX_MS <? c_rto_ms c * 2 then TCP_RTO_MAX_MS else c_rto_ms c * 2).
    unfold TCP_RTO_MIN_MS, TCP_RTO_MAX_MS in *. zcase; lia. }
  clearbody x. unfold TCP_RTO_MIN_MS, TCP_RTO_MAX_MS in *. rewrite u32_small by lia. lia.
Qed.
End TimerOps.

Section Theorems.
Context {W : Type}.
Implicit Types (c : tcp_conn_t W) (w : W) (s : tcp_stack_t W).

Definition timers_ok s : Prop := forall i c, st_conns s !! i = Some c -> timer_ok c.

Lemma on_slot_keeps {A} s w i (m : M W A) a s' w' ev :
  keeps m -> on_slot s w i m = Ret (a, s', w', ev) -> timers_ok s -> timers_ok s'.
Proof.
  intros Hm E Hs j cj. unfold on_slot in E. destruct (st_conns s !! i) as [c|] eqn:Hi; [|done].
  specialize (Hm c w (Hs i c Hi)). unfold keeps_at in Hm. destruct (m c w) as [[[[b c'] w1] e1]| |]; try done.
  cbn in E. injection E as <- <- <- <-. change (<[i := c']> (st_conns s) !! j = Some cj -> timer_ok cj).
  destruct (decide (j = i)) as [->|Hne].
  - rewrite list_lookup_insert_eq by (by eapply lookup_lt_Some). by intros [= <-].
  - rewrite list_lookup_insert_ne by done. apply Hs.
Qed.

Lemma tcp_input_keeps s w seg now f s' w' r : tcp_input_at s w seg now f = Ret (s', w', r) -> timers_ok s -> timers_ok s'.
Proof.
  intros E Hs. unfold tcp_input_at in E. destruct (negb _); [by injection E as <- <- <-|].
  destruct (port_accepts _ _); [|by injection E as <- <- <-]. destruct (find_conn s seg) as [i|].
  - destruct (on_slot _ _ _ _) as [[[[a s1] w1] e1]| |] eqn:Eo; try done. injection E as <- <- <-.
    eapply on_slot_keeps; [apply conn_input_keeps|exact Eo|done].
  - destruct (_ || _); [by injection E as <- <- <-|]. destruct (alloc_conn s) as [i|]; [|by injection E as <- <- <-].
    cbv zeta in E. destruct (on_slot _ _ _ _) as [[[[a s1] w1] e1]| |] eqn:Eo; try done. injection E as <- <- <-.
    eapply on_slot_keeps; [apply syn_input_keeps|exact Eo|done].
Qed.

Lemma stack_reach_timers d s w tr : stack_reach d s w tr -> timers_ok s.
Proof.
  induction 1 as [ip w|s w tr secret len s' _ IH E|s w tr seg now on_data s' w' r _ IH Hod E|s w tr now _ IH|s w tr i a s' w' ev _ IH Ha E].
  - intros i c H. change (replicate TCP_TABLE_SIZE zero_conn !! i = Some c) in H. apply lookup_replicate in H as [-> _].
    constructor; [by left|done].
  - unfold tcp_stack_set_iss_secret in E. destruct (rdn _ _); try done. by injection E as <-.
  - by eapply tcp_input_keeps.
  - intros i c'. cbn. rewrite list_lookup_fmap. destruct (st_conns s !! i) as [c|] eqn:Hi; cbn; [|done]. intros [= <-].
    apply tick_conn_ok. by eapply IH.
  - eapply on_slot_keeps; [apply run_api_keeps|exact E|done].
Qed.

(** ** RST acceptance *)

(** The RST is for the next expected byte and, once the handshake is over,
    acknowledges something between [snd_una] and [snd_nxt]. *)
Definition rst_acceptable c (seg : tcp_seg_t) : bool :=
  (sg_seq seg =? c_rcv_nxt c) &&
  (state_eqb (c_state c) TCP_SYN_RECEIVED ||
   has_flag (sg_flags seg) TCPF_ACK && (u32 (sg_ack seg - c_snd_una c) <=? u32 (c_snd_nxt c - c_snd_una c))).

Lemma i32_u32 x : i32 (u32 x) = i32 x.
Proof. unfold i32, u32. by rewrite Z.mod_mod by lia. Qed.

Lemma window_check ack una nxt :
  u32 (nxt - una) < 2 ^ 31 ->
  (0 <=? i32 (ack - una)) && (i32 (ack - nxt) <=? 0) = (u32 (ack - una) <=? u32 (nxt - una)).
Proof.
  intros H. assert (E : i32 (ack - nxt) = i32 (u32 (ack - una) - u32 (nxt - una))).
  { unfold i32, u32. replace ((ack - nxt) mod 2 ^ 32) with (((ack - una) mod 2 ^ 32 - (nxt - una) mod 2 ^ 32) mod 2 ^ 32); [done|].
    rewrite <- Zminus_mod. f_equal. lia. }
  rewrite E, <- (i32_u32 (ack - una)).
  assert (Hx : 0 <= u32 (ack - una) < 2 ^ 32) by (unfold u32; dlia). assert (Hy : 0 <= u32 (nxt - una)) by (unfold u32; dlia).
  revert H Hx Hy. clear. generalize (u32 (ack - una)), (u32 (nxt - una)). intros x y H Hx Hy.
  unfold i32. rewrite (u32_small x) by lia. cbv zeta.
  destruct (Z.ltb_spec x (2 ^ 31)).
  - destruct (Z.leb_spec 0 x); [|lia]. cbn [andb]. unfold u32. destruct (Z.leb_spec x y).
    + apply Z.leb_le. zcase; dlia.
    + apply Z.leb_gt. zcase; dlia.
  - destruct (Z.leb_spec 0 (x - 2 ^ 32)); [lia|]. cbn [andb]. symmetry. apply Z.leb_gt. lia.
Qed.

Lemma rst_input_spec seg c w :
  conn_wf c -> u32 (c_snd_nxt c - c_snd_una c) < 2 ^ 31 ->
  if rst_acceptable c seg
  then mwp (rst_input seg) (fun _ c' _ ev => c_state c' = TCP_CLOSED /\ ev = (match handle_of c with Some h => [EvClose h] | None => [] end)) c w
  else rst_input seg c w = Ret (tt, c, w, []).
Proof.
  intros Hwf Hwin. unfold rst_acceptable, rst_input.
  assert (E : (if state_eqb (c_state c) TCP_SYN_RECEIVED then sg_seq seg =? c_rcv_nxt c
    else if has_flag (sg_flags seg) TCPF_ACK then
      (0 <=? i32 (sg_ack seg - c_snd_una c)) && (i32 (sg_ack seg - c_snd_nxt c) <=? 0) && (sg_seq seg =? c_rcv_nxt c) else false)
    = (sg_seq seg =? c_rcv_nxt c) && (state_eqb (c_state c) TCP_SYN_RECEIVED ||
      has_flag (sg_flags seg) TCPF_ACK && (u32 (sg_ack seg - c_snd_una c) <=? u32 (c_snd_nxt c - c_snd_una c)))).
  { destruct (state_eqb _ _); cbn [orb]; [by rewrite andb_true_r|].
    destruct (has_flag _ _); cbn [andb]; [|by rewrite andb_false_r]. rewrite window_check by done. apply andb_comm. }
  destruct ((sg_seq seg =? c_rcv_nxt c) && _) eqn:Hok.
  - apply mwp_bind, mwp_get. cbv zeta. rewrite E. cbn [negb]. apply mwp_bind. unfold fire_close, mwp.
    unfold handle_of. unfold mbind, get, put, mret, call, event_. cbn.
    destruct (c_opened c) eqn:Ho.
    + destruct (wf_open c Hwf Ho) as (svc & Hs & Hcl). rewrite Hs. cbn.
      destruct (c_app_state c) as [h|], (sv_on_close svc) as [f|] eqn:Hf; cbn; try done. by destruct Hcl.
    + destruct (c_svc c); cbn; done.
  - unfold mbind, get. cbn. rewrite E. done.
Qed.
End Theorems.

(** ** Properties *)


(** A service that answers every request with the same two bytes. *)
Definition ok_service : pw_service_t unit :=
  mk_service PW_PROTO_TCP 443 (Some (fun w _ => (w, Some 7)))
    (Some (fun w _ _ _ => (w, PW_DISP_OUTPUT, [mk_iov [111; 107] 2]))) (Some (fun w _ => w)).

Lemma ok_service_ok : svc_ok ok_service.
Proof.
  split; [|done]. eexists. split; [done|]. intros w h dd n w' st iov [= <- <- <-].
  split; [cbn; lia|]. apply Forall_cons_2; [|apply Forall_nil_2]. cbn. change (zlen [111; 107]) with 2. lia.
Qed.

Definition server_ip : Z := 0x0a000001.

(** A segment from a client at [ip]:[port]. *)
Definition from_client (ip port seq ack flags : Z) (payload : list Z) : tcp_seg_t :=
  mk_seg ip server_ip port 443 seq ack 65535 flags payload (zlen payload).

(** The ISN the stack picks for that client at time 0 with an all-zero secret. *)
Definition iss_for (ip port : Z) : Z := iss_derive (replicate 16 0) server_ip 443 ip port 0.

Definition script (ip port : Z) : list tcp_seg_t :=
  [from_client ip port 100 0 TCPF_SYN [];
   from_client ip port 101 (u32 (iss_for ip port + 1)) TCPF_ACK [];
   from_client ip port 101 (u32 (iss_for ip port + 1)) TCPF_ACK [71; 69; 84];
   from_client ip port 104 (u32 (iss_for ip port + 3)) (Z.lor TCPF_RST TCPF_ACK) []].

(** Feed segments to a stack, collecting the trace of the slots. *)
Fixpoint feed {W} (s : tcp_stack_t W) (w : W) (tr : nat -> list event) (segs : list tcp_seg_t)
  : res (tcp_stack_t W * W * (nat -> list event)) :=
  match segs with
  | [] => Ret (s, w, tr)
  | seg :: segs' => let! (s1, w1, r) := tcp_input_at s w seg 0 None in feed s1 w1 (log tr r) segs'
  end.

Lemma feed_reach {W} (d : pw_dispatch_t W) segs : forall s w tr s' w' tr',
  stack_reach d s w tr -> feed s w tr segs = Ret (s', w', tr') -> stack_reach d s' w' tr'.
Proof.
  induction segs as [|seg segs IH]; intros s w tr s' w' tr' Hr E; cbn in E; [by injection E as <- <- <-|].
  destruct (tcp_input_at s w seg 0 None) as [[[s1 w1] r]| |] eqn:Ei; try done. cbn in E.
  eapply IH; [|exact E]. by eapply sr_input; [exact Hr| |exact Ei].
Qed.


(** C6: received data is delivered in order, without gaps or duplicates.  Let
    the peer's segments, in any order and with any overlap or repetition, each
    carry a range of one byte stream.  Then what an established connection
    hands to its service is exactly the next bytes of that stream, whatever the
    service answers and whatever ACKs, FINs and resets are mixed in. *)
Theorem tcp_in_order_delivery {W} (stream : list Z) base (c : tcp_conn_t W) w n segs on_data :
  on_data_ok on_data -> conn_wf c -> c_svc c <> None -> c_state c = TCP_ESTABLISHED ->
  zlen stream < 2 ^ 32 -> 0 <= n <= zlen stream -> c_rcv_nxt c = u32 (base + n) ->
  Forall (fun p => carries stream base p.1) segs ->
  exists c' w' ev, conn_inputs on_data segs c w = Ret (tt, c', w', ev) /\
    exists m, 0 <= m /\ n + m <= zlen stream /\ data_of ev = ztake m (padd stream n).
Proof.
  intros Hod Hwf Hsv Hst Hs Hn Hr Hl.
  pose proof (conn_inputs_in_order on_data stream base segs c w n Hod Hwf Hsv Hs Hn Hl (or_introl (conj Hst Hr))) as H.
  unfold mwp in H. destruct (conn_inputs on_data segs c w) as [[[[[] c'] w'] ev]| |]; try done. by exists c', w', ev.
Qed.

(** An established connection of the test service. *)
Definition est_conn : tcp_conn_t unit :=
  zero_conn {{ c_state := TCP_ESTABLISHED; c_local_ip := server_ip; c_remote_ip := 5; c_local_port := 443; c_remote_port := 4000;
    c_snd_nxt := 1001; c_snd_una := 1001; c_rcv_nxt := 101; c_cwnd := TCP_INIT_CWND; c_ssthresh := 0xffffffff;
    c_snd_wnd := 65535; c_svc := Some ok_service; c_app_state := Some 7; c_opened := true }}.

Lemma est_conn_wf : conn_wf est_conn.
Proof. apply (wf_opened est_conn ok_service); [done|done|done|apply ok_service_ok|done]. Qed.

Lemma tcp_in_order_delivery_witness :
  exists c' w' ev, conn_inputs None [(from_client 5 4000 104 1001 TCPF_ACK [4; 5], 0); (from_client 5 4000 101 1001 TCPF_ACK [1; 2; 3], 0);
      (from_client 5 4000 101 1001 TCPF_ACK [1; 2; 3], 0); (from_client 5 4000 104 1001 TCPF_ACK [4; 5], 0)] est_conn tt = Ret (tt, c', w', ev) /\
    exists m, data_of ev = ztake m [1; 2; 3; 4; 5] /\ m = 5.
Proof.
  destruct (tcp_in_order_delivery [1; 2; 3; 4; 5] 101 est_conn tt 0
    [(from_client 5 4000 104 1001 TCPF_ACK [4; 5], 0); (from_client 5 4000 101 1001 TCPF_ACK [1; 2; 3], 0);
     (from_client 5 4000 101 1001 TCPF_ACK [1; 2; 3], 0); (from_client 5 4000 104 1001 TCPF_ACK [4; 5], 0)] None)
    as (c' & w' & ev & E & m & Hm & Hm' & Hd).
  - by intros g.
  - apply est_conn_wf.
  - done.
  - reflexivity.
  - vm_compute. reflexivity.
  - vm_compute. split; discriminate.
  - reflexivity.
  - assert (H1 : carries [1; 2; 3; 4; 5] 101 (from_client 5 4000 104 1001 TCPF_ACK [4; 5]))
      by (exists 3; vm_compute; repeat split; discriminate).
    assert (H2 : carries [1; 2; 3; 4; 5] 101 (from_client 5 4000 101 1001 TCPF_ACK [1; 2; 3]))
      by (exists 0; vm_compute; repeat split; discriminate).
    repeat (apply Forall_cons_2; [assumption|]). apply Forall_nil_2.
  - exists c', w', ev. split; [exact E|]. exists m. split; [exact Hd|].
    vm_compute in E. injection E as <- <- <-. cbn in Hd. change (zlen [1; 2; 3; 4; 5]) with 5 in Hm'.
    apply (f_equal zlen) in Hd. rewrite padd_0, zlen_ztake in Hd by lia. change (zlen [1; 2; 3; 4; 5]) with 5 in Hd. lia.
Defined.

(** The limit [tcp_send_window] compares the flight size with. *)
Definition send_limit {W} (c : tcp_conn_t W) : Z :=
  Z.min (if c_cwnd c =? 0 then TCP_INIT_CWND else c_cwnd c) (if c_snd_wnd c =? 0 then 65535 else c_snd_wnd c).

Lemma send_window_limit {W} (c : tcp_conn_t W) n :
  0 < n -> n <= tcp_send_window c -> tcp_flight_size c + n <= send_limit c.
Proof.
  unfold tcp_send_window, send_limit. destruct (c_cwnd c =? 0), (c_snd_wnd c =? 0); cbn [negb]; intros Hn H; repeat zcase_in H; lia.
Qed.

(** [tcp_send_at] segments the stream correctly.  On an established
    connection with window and retransmit slots for the data, it returns [len];
    the segments it emits carry exactly the bytes given, contiguously from
    [snd_nxt], at most one MSS each with PSH on the last; [snd_nxt] advances by
    [len]; a timed send records every segment in the retransmit queue, and the
    bytes in flight then stay within both congestion and peer window. *)
Theorem tcp_send_segments {W} data len now (c : tcp_conn_t W) w :
  c_state c = TCP_ESTABLISHED -> 0 <= c_snd_nxt c < 2 ^ 32 -> 0 < len <= zlen data -> len < 2 ^ 16 ->
  (now = 0 \/ zlen (c_rtx c) < TCP_RTX_QUEUE_MAX /\ len <= tcp_send_window c /\
     len <= TCP_MSS * (TCP_RTX_QUEUE_MAX - zlen (c_rtx c))) ->
  Forall (fun e => 0 <= rx_len e) (c_rtx c) -> rtx_bytes (c_rtx c) < 2 ^ 31 ->
  exists c' w' segs, tcp_send_at data len now c w = Ret (Some len, c', w', map EvEmit segs) /\
    segments (c_snd_nxt c) (ztake len data) segs /\ c_snd_nxt c' = u32 (c_snd_nxt c + len) /\
    c_rtx c' = c_rtx c ++ (if now =? 0 then [] else map (entry_of now) segs) /\
    (now <> 0 -> tcp_flight_size c' = tcp_flight_size c + len /\ tcp_flight_size c' <= send_limit c).
Proof.
  intros Hst Hn Hl Hlb Hq Hf Hb.
  assert (Hq' : now = 0 \/ zlen (c_rtx c) < TCP_RTX_QUEUE_MAX /\ u32 len <= tcp_send_window c /\
    len <= TCP_MSS * (TCP_RTX_QUEUE_MAX - zlen (c_rtx c))) by (rewrite u32_small by lia; exact Hq).
  pose proof (send_at_spec data len now c w Hst Hn ltac:(lia) Hq') as H. unfold mwp in H.
  destruct (tcp_send_at data len now c w) as [[[[r c'] w'] ev]| |]; try done.
  destruct H as (-> & segs & -> & Hsegs & Hn' & Hr'). exists c', w', segs.
  assert (Hz : zlen (ztake len data) = len) by (rewrite zlen_ztake by lia; lia). rewrite Hz in Hn'.
  split_and!; try done. intros Hne. destruct Hq as [?|(_ & Hw & _)]; [done|].
  destruct (segments_bytes now segs _ _ Hsegs) as [Hsum Hpos]. rewrite Hz in Hsum.
  assert (E1 : tcp_flight_size c = rtx_bytes (c_rtx c)) by (unfold tcp_flight_size; rewrite flight_sum_spec; [lia|done|lia|lia]).
  assert (E2 : tcp_flight_size c' = rtx_bytes (c_rtx c) + len).
  { unfold tcp_flight_size. rewrite Hr'. destruct (Z.eqb_spec now 0); [done|].
    rewrite flight_sum_spec; rewrite ?rtx_bytes_app, ?Hsum; [lia|by apply Forall_app|lia|lia]. }
  pose proof (send_window_limit c len ltac:(lia) Hw). split; lia.
Qed.

Lemma tcp_send_segments_witness :
  exists c' w' segs, tcp_send_at (replicate 2000 9) 2000 50 est_conn tt = Ret (Some 2000, c', w', map EvEmit segs) /\
    map sg_payload_len segs = [1460; 540] /\ c_snd_nxt c' = 3001 /\ tcp_flight_size c' <= send_limit est_conn.
Proof.
  destruct (tcp_send_segments (replicate 2000 9) 2000 50 est_conn tt) as (c' & w' & segs & E & Hs & Hn & Hr & Hf).
  - reflexivity.
  - vm_compute. split; [discriminate|reflexivity].
  - vm_compute. split; [reflexivity|discriminate].
  - lia.
  - right. vm_compute. repeat split; discriminate.
  - apply Forall_nil_2.
  - vm_compute. reflexivity.
  - exists c', w', segs. split; [exact E|]. destruct (Hf ltac:(lia)) as [_ Hl]. split_and!; [|exact Hn|exact Hl].
    assert (Hm : forall l, map EvEmit segs = map EvEmit l -> map sg_payload_len segs = map sg_payload_len l).
    { clear. intros l. revert segs. induction l as [|s l IH]; intros [|x segs]; cbn; try done. intros [= -> ?]. f_equal. by apply IH. }
    destruct (tcp_send_at (replicate 2000 9) 2000 50 est_conn tt) as [[[[r c1] w1] ev]| |] eqn:Ec; vm_compute in Ec; [|discriminate Ec..].
    injection Ec as <- <- <- <-. injection E as _ _ E. match type of E with [EvEmit ?a; EvEmit ?b] = _ => rewrite (Hm [a; b]) by (symmetry; exact E) end.
    reflexivity.
Defined.

(** A reset is obeyed only inside the window (RFC 9293 section 3.10.7.4).
    With at most 2^31 bytes outstanding, a RST tears a connection down, calling
    [on_close] once if a handle is open, exactly when its sequence number is the
    next expected one and, after the handshake, it carries an ACK between
    [snd_una] and [snd_nxt] in 32-bit sequence arithmetic; any other RST leaves
    the connection and the service untouched and is not answered. *)
Theorem tcp_rst_in_window {W} (c : tcp_conn_t W) w seg now on_data :
  conn_wf c -> u32 (c_snd_nxt c - c_snd_una c) < 2 ^ 31 -> has_flag (sg_flags seg) TCPF_RST = true ->
  if rst_acceptable c seg
  then exists c' w', conn_input on_data seg now c w =
         Ret (tt, c', w', match handle_of c with Some h => [EvClose h] | None => [] end) /\ c_state c' = TCP_CLOSED
  else conn_input on_data seg now c w = Ret (tt, c, w, []).
Proof.
  intros Hwf Hwin Hrst. pose proof (rst_input_spec seg c w Hwf Hwin) as H. unfold conn_input. rewrite Hrst.
  destruct (rst_acceptable c seg); [|exact H]. unfold mwp in H.
  destruct (rst_input seg c w) as [[[[[] c'] w'] ev]| |]; try done. destruct H as [Hst ->]. by exists c', w'.
Qed.

Lemma tcp_rst_in_window_witness :
  (exists c' w', conn_input None (from_client 5 4000 101 1001 (Z.lor TCPF_RST TCPF_ACK) []) 0 est_conn tt = Ret (tt, c', w', [EvClose 7])) /\
  conn_input None (from_client 5 4000 101 900 (Z.lor TCPF_RST TCPF_ACK) []) 0 est_conn tt = Ret (tt, est_conn, tt, []).
Proof.
  split.
  - destruct (tcp_rst_in_window est_conn tt (from_client 5 4000 101 1001 (Z.lor TCPF_RST TCPF_ACK) []) 0 None est_conn_wf eq_refl eq_refl) as (c' & w' & E & _).
    exists c', w'. exact E.
  - exact (tcp_rst_in_window est_conn tt (from_client 5 4000 101 900 (Z.lor TCPF_RST TCPF_ACK) []) 0 None est_conn_wf eq_refl eq_refl).
Defined.

(** The retransmission bounds hold on every reachable stack.  Whatever
    segments arrive and whenever the timer ticks, every connection's RTO is 0
    (never set) or between 200 ms and 60 s, and its retransmit queue never
    exceeds its four slots, so no index into it is out of range. *)
Theorem tcp_timer_bounds {W} (d : pw_dispatch_t W) s w tr i c :
  stack_reach d s w tr -> st_conns s !! i = Some c ->
  (c_rto_ms c = 0 \/ TCP_RTO_MIN_MS <= c_rto_ms c <= TCP_RTO_MAX_MS) /\ zlen (c_rtx c) <= TCP_RTX_QUEUE_MAX.
Proof. intros Hr Hi. destruct (stack_reach_timers d s w tr Hr i c Hi). done. Qed.

Lemma tcp_timer_bounds_witness :
  exists s w tr c, stack_reach [ok_service] s w tr /\ st_conns s !! O = Some c /\ zlen (c_rtx c) <= TCP_RTX_QUEUE_MAX.
Proof.
  destruct (feed (tcp_attach_dispatch server_ip [ok_service]) tt (fun _ => []) (script 5 4000)) as [[[s w] tr]| |] eqn:E.
  - assert (Hr : stack_reach [ok_service] s w tr) by (eapply feed_reach; [apply sr_init|exact E]).
    destruct (st_conns s !! O) as [c|] eqn:Hc; [|vm_compute in E; injection E as <- <- <-; discriminate Hc].
    exists s, w, tr, c. split; [exact Hr|]. split; [exact Hc|]. exact (proj2 (tcp_timer_bounds [ok_service] s w tr O c Hr Hc)).
  - vm_compute in E. discriminate E.
  - vm_compute in E. discriminate E.
Defined.

(** ** Departures from the contract *)

(** A slot is reused without clearing its retransmit queue ([alloc_conn] and the
    SYN block leave [rtx_n]): one client is sent data, resets before it is
    acknowledged, and another client then takes the slot. *)
Definition slot_reuse (ip1 port1 ip2 port2 : Z) (reply : list Z) : res (list (list event)) :=
  let s := tcp_attach_dispatch server_ip [ok_service] in
  let! (s, w, tr) := feed s tt (fun _ => [])
    [from_client ip1 port1 100 0 TCPF_SYN []; from_client ip1 port1 101 (u32 (iss_for ip1 port1 + 1)) TCPF_ACK []] in
  let! (_, s, w, ev) := on_slot s w 0 (run_api (ApiSend reply (zlen reply) 10)) in
  let! (s, w, tr) := feed s w tr
    [from_client ip1 port1 101 (u32 (iss_for ip1 port1 + 1)) (Z.lor TCPF_RST TCPF_ACK) [];
     from_client ip2 port2 700 0 TCPF_SYN []; from_client ip2 port2 701 (u32 (iss_for ip2 port2 + 1)) TCPF_ACK []] in
  Ret (tcp_tick s 5000).2.

(** The first client's bytes go out to the second client. *)
Theorem slot_reuse_leaks :
  exists seg, slot_reuse 5 4000 6 4002 [115; 101; 99] = Ret ([EvEmit seg] :: replicate 255 []) /\
    sg_dst_ip seg = 6 /\ sg_dst_port seg = 4002 /\ ztake (sg_payload_len seg) (sg_payload seg) = [115; 101; 99].
Proof. eexists. vm_compute. repeat split; reflexivity. Qed.

(** When the retransmit queue fills up in the middle of a timed send, the fifth
    segment is emitted, -1 is returned, and [snd_nxt] has moved past the four
    recorded ones: the caller is told nothing was sent. *)
Theorem partial_send_reports_error :
  match tcp_send_at (replicate (Z.to_nat 8000) 9) 8000 50 est_conn tt with
  | Ret (r, c', _, ev) => r = None /\ length ev = 5%nat /\ c_snd_nxt c' = c_snd_nxt est_conn + 4 * TCP_MSS
  | _ => False
  end.
Proof. vm_compute. repeat split. Qed.

(** In [TCP_SYN_RECEIVED] the sequence number of piggybacked data is not
    checked: bytes from the middle of the peer's stream are delivered first. *)
Theorem handshake_data_out_of_order :
  match feed (tcp_attach_dispatch server_ip [ok_service]) tt (fun _ => [])
    [from_client 5 4000 100 0 TCPF_SYN []; from_client 5 4000 1561 (u32 (iss_for 5 4000 + 1)) TCPF_ACK [7; 8; 9]] with
  | Ret (s, _, tr) => data_of (tr O) = [7; 8; 9] /\ c_rcv_nxt <$> (st_conns s !! O) = Some 104
  | _ => False
  end.
Proof. vm_compute. repeat split. Qed.

(** A service that answers and closes. *)
Definition closing_service : pw_service_t unit :=
  mk_service PW_PROTO_TCP 443 (Some (fun w _ => (w, Some 7)))
    (Some (fun w _ _ _ => (w, PW_DISP_OUTPUT_AND_CLOSE, [mk_iov [111; 107] 2]))) (Some (fun w _ => w)).

Definition fins (ev : list event) : list Z :=
  omap (fun e => match e with EvEmit s => if has_flag (sg_flags s) TCPF_FIN then Some (sg_seq s) else None | _ => None end) ev.

(** If the request itself carries a FIN, the FIN block runs after the service
    has already closed: two FINs go out with different sequence numbers, and the
    peer's ACK of the first leaves the connection in [TCP_LAST_ACK]. *)
Theorem close_sends_two_fins :
  let c := est_conn {{ c_svc := Some closing_service }} in
  match conn_inputs None [(from_client 5 4000 101 1001 (Z.lor TCPF_ACK TCPF_FIN) [71], 0); (from_client 5 4000 103 1004 TCPF_ACK [], 0)] c tt with
  | Ret (_, c', _, ev) => fins ev = [1003; 1004] /\ c_state c' = TCP_LAST_ACK
  | _ => False
  end.
Proof. vm_compute. repeat split. Qed.
